(* ===== verification/_CoqProject ===== *)
-Q . S2P
Prelude.v
Float64.v
Text.v
BTree.v
OrdMap.v
IndexMap.v
Toml.v
Admission.v
Contracts.v
PyRound.v
Features.v
Profiles.v
Scoring.v
Calendar.v
Numbers.v
RoutingParse.v
RoutingText.v
Metrics.v
GatewayConfig.v
GatewayParse.v
GatewayValid.v
Planning.v
Calibration.v
Reliability.v
Recent.v
Sse.v
RateLimit.v
Cache.v
Json.v
CacheKey.v
DecisionPolicy.v
Ledger.v
Models.v
DeploymentSelection.v
Endpoint.v
Eligibility.v
Delivery.v
Budget.v
Auth.v
Canary.v
State.v
Access.v
FleetAccess.v
Reload.v
OutcomePolicy.v
ProjectValue.v
ControlPlane.v
Modalities.v
Anthropic.v
AnthropicStream.v
JsonSample.v
AuditLog.v
AnthropicNative.v
Responses.v
ResponsesStream.v
Redis.v
Scripts.v
RedisBackend.v
FleetCircuit.v
FleetBudget.v
FleetCache.v
Chat.v
ChatDelivery.v
Accounting.v
Serving.v
Streaming.v
ConfigUse.v
Shadow.v
Evidence.v
