(* ===== verification/Prelude.v ===== *)
(** * The Wayfinder router: routing core and gateway policies

    A development that models the decision logic of the Wayfinder router (the
    Rust crates under [src/rust/crates]) and proves it correct.  Each file
    below is one component; it opens with the code, translated definition by
    definition under the source's names, then the lemmas, the properties and
    closed examples.

    ** The program and its parts

    A configuration is parsed and validated, and the policies are built from it.
    A request is then authenticated, scored, planned, admitted, delivered and
    accounted for.

    Configuration:
    - [Toml], [RoutingParse], [RoutingText] (crate [wayfinder-config],
      [lib.rs]): parsed TOML values; the routing configuration read from them,
      with every error; its rendering, and the edits of a configuration text.
    - [GatewayConfig], [GatewayParse], [GatewayValid] (crate
      [wayfinder-config], [gateway.rs]): the gateway configuration, its parser
      and validations, and what an accepted configuration satisfies.
    - [ConfigUse] (crate [wayfinder-gateway], [lib.rs]): the policies built from
      an accepted configuration; [Reload] ([reload.rs]): the file watched for
      changes; [ControlPlane] ([control_plane.rs]): policy versions, their
      activation and rollback.

    Decision:
    - [PyRound], [Features], [Scoring], [Numbers] (crate
      [wayfinder-routing-core], [lib.rs]): the text of a prompt is stripped of
      its frontmatter and turned into eleven counts; the counts are saturated,
      weighted and rounded to a score; tiers or a linear classifier turn the
      score into a model ([score_complexity]).
    - [Contracts], [Planning] (crates [wayfinder-runtime-contracts] and
      [wayfinder-routing-core]): the scored tier and the caller's requirements
      select, among candidate destinations, the compatible ones, in order.
    - [Calibration] (crate [wayfinder-routing-core], [calibration.rs]): the
      threshold of least expected loss over labelled samples.  [Profiles]
      ([profiles.rs]): the built-in lexicons.
    - [DecisionPolicy] (crate [wayfinder-gateway], [decision_policy.rs]): prompt
      extraction, slash directives, overrides, the conversation's high-water
      mark.  [Modalities] ([modalities.rs]): the fields a text gateway refuses.
      [Canary] ([canary.rs]): assignment to a rollout and its tripwires.
    - [Endpoint], [Eligibility] ([lib.rs], [delivery.rs]): which destinations
      are local, and which may take a request.
    - [Chat] ([lib.rs], [chat_completions]): the handler from the parsed body to
      the delivery plan, the composition of the parts above with [Budget] and
      [Access].
    - [Serving], over [Accounting] ([lib.rs]): the same handler whole, around
      that decision: access, headers, the record, the cache, what a request
      leases from the fleet, buffered delivery, realized usage and the outcome
      of a canary.  [Streaming] ([lib.rs], [streaming_chat_response]): the same
      for a streamed request, from the provider that opens a stream to the end
      of its relay; [chat_exchange] is the whole of both.

    Delivery:
    - [Reliability] (crates [wayfinder-providers] and [wayfinder-gateway],
      [reliability.rs]): retry delays, the circuit breaker, delivery plans,
      failover, and the leased attempts against a shared breaker.
    - [Models], [DeploymentSelection] (crate [wayfinder-gateway], [lib.rs],
      [deployment_selection.rs]): deployment pools, their weighted rotation, and
      their order under observed signals.
    - [Admission] ([admission.rs]): the bound on concurrent deliveries.
    - [Delivery] ([lib.rs], [deliver_with_reliability]): a plan carried out, with
      retries and failover; [ChatDelivery]: a chat request from its body to the
      provider.  [Sse] (crate [wayfinder-providers], [sse.rs]): the incremental
      decoder of the upstream event stream.
    - [Anthropic], [AnthropicStream] (crate [wayfinder-providers],
      [anthropic.rs]): the Anthropic Messages surface over an OpenAI upstream,
      buffered and streamed.  [AnthropicNative] ([anthropic_native.rs]): the
      same in the other direction, OpenAI requests over an Anthropic upstream.
    - [Responses], [ResponsesStream] (crate [wayfinder-gateway],
      [responses.rs]): the Responses API over chat completions, its requests and
      tools, its buffered answers and the relay of the upstream stream.

    Policies and records (crates [wayfinder-gateway] and [wayfinder-service]):
    - [RateLimit], [Auth], [Access] ([rate_limit.rs], [auth.rs], [access.rs]):
      the fixed-window limiter, credentials, and the policy that authenticates
      a request and charges the limiters of its key, its workspace and the
      gateway.
    - [Cache], [CacheKey] ([cache.rs]): the bounded response cache, its keys and
      what may be cached.  [Recent] ([recent.rs]): the recent decisions;
      [OutcomePolicy], [ProjectValue] ([outcome_policy.rs],
      [project_value.rs]): what they say of the thresholds and of a project.
    - [Calendar], [Ledger] ([pricing.rs]): dates, prices, turn costs and the
      savings ledger with its reports and its JSON form.  [Budget]
      ([budget.rs]): spend caps checked against the ledger or a shared backend.

    Observation (crate [wayfinder-gateway]):
    - [Metrics] ([metrics.rs]): the collector, its bounded series and the text
      of a scrape, over the ordered maps of [OrdMap].
    - [Shadow] ([shadow.rs]): sampled evaluation of alternative routes off the
      request path, with its store and its provider comparisons; [Evidence]
      ([evidence.rs]): labels, and the report that says whether to enforce.
    - [AuditLog] ([audit.rs]): operator events and the queue and worker that write
      them.

    Shared state (crate [wayfinder-gateway], [state.rs]):
    - [State]: the [StateBackend] trait as a class, the process-local backend,
      the namespace of the Redis keys and the decoding of script replies.
    - [Redis]: the commands a script calls, as a class with the behaviour their
      documentation gives, and a concrete server; [Scripts]: the Lua scripts,
      command by command; [RedisBackend]: the backend that runs them.
    - [FleetAccess] ([access.rs]): the limiters of a request held by a shared
      backend, and the local ones it falls back to.
    - [FleetCircuit], [FleetBudget], [FleetCache]: what the scripts promise to
      the replicas that share them, over every interleaving.

    The shared vocabulary is here and in [Float64] (IEEE 754 binary64, on the
    Standard Library's executable specification), [Text] (strings, UTF-8),
    [BTree] ([BTreeMap<String, _>]), [OrdMap] (the same for other keys),
    [IndexMap] and [Json]; [JsonSample] is a concrete text of JSON values for
    the closed examples.

    ** State and effects

    Mutable structures are records passed to and returned from each operation.
    Limiters reached through [Arc] live in a store indexed by allocation
    ([Access]), since the keys of a workspace share one.  Fallible code returns
    [result]; an error leaves the state it leaves in the code.  Histories are
    lists of operations run from a fresh state ([run_ops], [run_op]), and the
    invariants are proved over every history.  Clock and jitter readings are
    arguments of the operation that takes them.

    ** Interfaces

    What belongs to other crates is a class or a parameter.  [IndexMap] has
    laws, and the cache is proved against them; so have [JsonNumber],
    [JsonText] and [JsonBuild], which stand for [serde_json], [Semaphore]
    ([tokio]) and [SharedHealth] (the shared circuit backend).  The shared state
    is the class [StateBackend] with two instances, [memory_backend] and
    [redis_backend]; the second runs over the class [Redis], whose laws
    [RedisLaws] the fleet theorems use and [Server] satisfies.  SHA-256, URL
    parsing, [str::to_lowercase], the TOML reader and writer are functions; the
    base64 encoder of the Redis keys too; the
    regular expressions of the feature extractor are the record [Patterns] of
    what each of them matches; the file system is the record [FileSystem] of
    what each read answers; the shared state backend of the budgets is the
    function it answers; the platform's [log10] is a function of [Metrics], and
    what the environment does between the suspension points of a shadow
    evaluation, its clocks and the provider's answers are functions of [Shadow].
    The sink of the audit log is the class [LocalAuditSink], and the disk of its
    file sink the class [Disk].  An upstream stream is the finite list of its
    chunks, and the client a number of polls ([Streaming]).  Closed examples instantiate each of them.

    ** What the theorems show

    - Configuration: a parsed configuration is valid ([parsed_config_valid]) and
      its errors name their place; every policy builds
      from it ([parsed_config_builds]); a ladder is accepted exactly when its
      tiers ascend; a bad file is never replaced by the default silently; a
      reload keeps the last good configuration ([reload_refines_last_good],
      [reload_keeps_valid]); an edit of the text of a plain document
      touches only its own tables ([fragment_applies]); the policy lifecycle keeps its invariant over every
      history, rollback restores, the most specific binding wins.
    - Routing: features, frontmatter and line splitting equal reference
      definitions; rounding is round-half-even on the decimal expansion; the
      decision is total and picks the highest reached tier or the first best
      model; plans use exactly the compatible candidates, in order;
      calibration is optimal among its candidate cuts ([calibrate_optimal]).
    - Requests: a chat request, buffered or streamed, leaves the gateway only for
      targets it may go to ([chat_sends_safely], [chat_plan_sound]; its shadow
      comparisons apart, which [Shadow] models), and is charged once at most, for
      a destination it was sent to ([chat_request_charged]); whatever becomes
      of it, what it leased from the fleet is handed to its stream or returned
      ([chat_request_settles]), and returned when the stream ends
      ([chat_exchange_settles]); the caps of the local ledger hold at the
      decision where no canary rollout is in force ([budget_enforced]);
      the scan for foreign modalities, the canary assignment and the
      eligibility of a target are characterised exactly.
    - Delivery: the breaker's invariant over every history, opening, the single
      half-open probe and its lease; a delivery respects its request, bounds its
      sends and settles its leases; the event decoder does not depend on how
      the stream is cut, keeps its memory bounds, and inverts the encoding; a
      translated stream is a well-formed Messages stream, does not depend on the
      cut of the upstream bytes, and reassembles interleaved tool calls
      ([translated_stream_well_formed], [translation_ignores_fragmentation],
      [interleaved_calls_reassembled]); a request sent to an Anthropic upstream
      alternates its roles, and its stream reads as an OpenAI stream
      ([native_request_alternates], [native_stream_well_formed]); the tools of a
      Responses request keep names of their own, and its stream ends with one
      closing event that repeats what was streamed ([wire_names_distinct],
      [responses_stream_ends]).
    - Admission: concurrency stays within its bounds over every interleaving; no
      window admits more requests than its limit; token reservations are all or
      nothing over the scopes of a request and settle to what was used;
      authentication grants exactly the last matching key; the policy built from
      a configuration shares limiters exactly along workspaces.
    - Fleet: no two pieces of shared state have the same Redis key
      ([redis_keys_separate]); the process-local backend is one limiter per key
      ([memory_backend_refines]) with sound canary counters and trips that hold;
      over every interleaving of scripts and time, a fleet lets one probe through
      an open circuit, admits no more requests than its limit, never oversells a budget, and
      serves from its cache what was stored under the generation that asks, and
      a request's shared reservations are all held, all returned, or reported
      ([fleet_reservation_settles], [fleet_probe_exclusive], [fleet_admission_bounded],
      [fleet_budget_capped], [fleet_cache_isolated]); eviction ends
      ([eviction_terminates]).
    - Caching: the cache's invariant, what a put evicts, read after write; keys
      are canonical and separate different requests.
    - Accounting: the ledger stays well formed, attributes every turn, reports
      exact counts and survives its JSON form; a budget decision is determined
      by the first exhausted hard cap; a proposal drawn from user feedback only
      narrows local routing, for scores of six decimals ([proposal_narrows]).
    - Observation: the collector stays bounded and its text reads back
      ([metrics_bounded], [exposition_reads_back]); a shadow evaluation sends
      only what both the configuration and the caller allow, and its store is
      bounded ([shadow_comparisons_authorized], [shadow_store_bounded]); a
      report on a sufficient sample of records labelled once enforces exactly on
      favourable evidence of one provenance ([enforce_iff]) over labels kept by
      identity ([labels_retained]); the audit file follows the accepted events,
      in order, and a write the disk refused is told to its caller
      ([accepted_events_written]), each event sealed ([audit_event_sealed]).

    ** Bounds

    Machine integers are [Z] with the saturating and checked operations of
    their width; floats are binary64 values, never reals.  Loops that are not
    structural take fuel: [Cache.evict_loop] one unit per entry and one more,
    since every round removes an entry; [Features.frontmatter_loop] one unit
    per character, since every round consumes a line;
    [RoutingText.shortest_from] sixteen, the digits beyond the first that a
    binary64 value can need; [PyRound.count_digits] 700 and 400, more than the
    digits of any binary64 value's numerator and integer part;
    [Scripts.evict_shared] one unit per member of the index and one more;
    [Anthropic.pad_loop] one unit per byte and one more, and
    [Anthropic.digits_loop] twenty, the digits of a 64-bit integer.  The
    specifications of the first two and of [Scripts.evict_shared] are proved for the fuel the
    definitions pass, so the results do not depend on it.  Lua numbers are
    binary64 values holding integers below [2^53], modelled as [Z].

    ** What is not modelled

    Lock poisoning, file and network input and output, the TOML parser and
    renderer, the Redis server and its connections, the export of telemetry,
    the HTTP clients of the providers, the operator endpoints, the Codex and Apple bridges and the command line. *)

From stdpp Require Export prelude gmap sorting strings.
From Stdlib Require Export ZArith Lia.
From Stdlib Require Import Floats.SpecFloat.
#[global] Open Scope Z_scope.

(** ** Strings

    A Rust [str] is the list of its Unicode scalar values.  Constants of the
    source are written [lit "..."]; every constant of the modelled code is
    ASCII, so [lit] is their list of code points. *)
Notation str := (list Z).

Fixpoint lit (s : string) : str :=
  match s with
  | EmptyString => []
  | String c rest => Z.of_N (Ascii.N_of_ascii c) :: lit rest
  end.

(** [str_eqb a b] is Rust's [a == b] on strings. *)
Definition str_eqb (a b : str) : bool := bool_decide (a = b).

Lemma str_eqb_eq a b : str_eqb a b = true <-> a = b.
Proof. unfold str_eqb. by rewrite bool_decide_eq_true. Qed.

Lemma str_eqb_neq a b : str_eqb a b = false <-> a <> b.
Proof. unfold str_eqb. by rewrite bool_decide_eq_false. Qed.

Lemma str_eqb_refl a : str_eqb a a = true.
Proof. by apply str_eqb_eq. Qed.

(** A message built by [format!]: its template and its arguments, unrendered. *)
Inductive fmt_arg :=
| ArgStr (s : str)
| ArgDebug (s : str)
| ArgFloat (x : spec_float)
| ArgInt (n : Z).

Inductive message := Msg (template : string) (args : list fmt_arg).

(** ** Results *)
Inductive result (A E : Type) :=
| Ok (a : A)
| Err (e : E).
Arguments Ok {A E} a.
Arguments Err {A E} e.

Definition result_bind {A B E : Type} (r : result A E) (k : A -> result B E) : result B E :=
  match r with Ok a => k a | Err e => Err e end.

Definition result_map {A B E : Type} (f : A -> B) (r : result A E) : result B E :=
  match r with Ok a => Ok (f a) | Err e => Err e end.

Definition map_err {A E F : Type} (f : E -> F) (r : result A E) : result A F :=
  match r with Ok a => Ok a | Err e => Err (f e) end.

Definition ok_or {A E : Type} (o : option A) (e : E) : result A E :=
  match o with Some a => Ok a | None => Err e end.

Definition is_ok {A E : Type} (r : result A E) : bool :=
  match r with Ok _ => true | Err _ => false end.

Declare Scope wf_scope.
Delimit Scope wf_scope with wf.
Notation "'let?' x ':=' r 'in' k" := (result_bind r (fun x => k))
  (at level 200, x binder, r at level 100, k at level 200, right associativity) : wf_scope.
#[global] Open Scope wf_scope.

Lemma result_bind_ok {A B E} (r : result A E) (k : A -> result B E) b :
  result_bind r k = Ok b <-> exists a, r = Ok a /\ k a = Ok b.
Proof. destruct r; simpl; naive_solver. Qed.

Lemma result_bind_err {A B E} (r : result A E) (k : A -> result B E) e :
  result_bind r k = Err e <-> r = Err e \/ exists a, r = Ok a /\ k a = Err e.
Proof. destruct r; simpl; naive_solver. Qed.

(** Collecting into [Result<Vec<_>, _>]: the first error ends it. *)
Fixpoint traverse {A B E : Type} (f : A -> result B E) (l : list A) : result (list B) E :=
  match l with
  | [] => Ok []
  | x :: l => let? y := f x in let? ys := traverse f l in Ok (y :: ys)
  end.

(** A loop over [l] whose body may leave the function with an error. *)
Fixpoint try_fold {A B E : Type} (f : B -> A -> result B E) (b : B) (l : list A) : result B E :=
  match l with
  | [] => Ok b
  | x :: l => let? b := f b x in try_fold f b l
  end.

Lemma traverse_ok {A B E} (f : A -> result B E) l ys : traverse f l = Ok ys <-> Forall2 (fun x y => f x = Ok y) l ys.
Proof.
  revert ys. induction l as [|x l IH]; intros ys; cbn [traverse].
  { split; [by intros [= <-]|by intros ->%Forall2_nil_inv_l]. }
  rewrite result_bind_ok. split.
  - intros (y & Hy & H). apply result_bind_ok in H as (ys' & Hys & [= <-]). constructor; [done|by apply IH].
  - intros H. apply Forall2_cons_inv_l in H as (y & ys' & Hy & H & ->). exists y. split; [done|].
    apply IH in H as ->. done.
Qed.

Lemma try_fold_inv {A B E} (P : B -> Prop) (f : B -> A -> result B E) b l b' :
  P b -> (forall c x c', x ∈ l -> P c -> f c x = Ok c' -> P c') -> try_fold f b l = Ok b' -> P b'.
Proof.
  revert b. induction l as [|x l IH]; intros b Hb Hf; cbn [try_fold]; [by intros [= <-]|].
  intros (c & Hc & H)%result_bind_ok. apply (IH c); [|set_solver|done]. by apply (Hf b x); [left| |].
Qed.

(** A loop that only checks. *)
Lemma try_fold_check {A E} (f : A -> result unit E) l :
  try_fold (fun _ x => f x) () l = Ok () <-> Forall (fun x => f x = Ok ()) l.
Proof.
  induction l as [|x l IH]; cbn [try_fold]; [by split|]. rewrite Forall_cons, <- IH, result_bind_ok. split.
  - by intros ([] & ? & ?).
  - intros [? ?]. by exists ().
Qed.

(** Every error a computation may end in has a property. *)
Definition errs {A E : Type} (P : E -> Prop) (r : result A E) : Prop := match r with Ok _ => True | Err e => P e end.

Lemma errs_bind {A B E} (P : E -> Prop) (r : result A E) (k : A -> result B E) :
  errs P r -> (forall a, errs P (k a)) -> errs P (result_bind r k).
Proof. destruct r; simpl; auto. Qed.

Lemma errs_ok_or {A E} (P : E -> Prop) (o : option A) (e : E) : P e -> errs P (ok_or o e).
Proof. by destruct o. Qed.

Lemma errs_traverse {A B E} (P : E -> Prop) (f : A -> result B E) l : (forall x, errs P (f x)) -> errs P (traverse f l).
Proof.
  intros Hf. induction l as [|x l IH]; cbn [traverse]; [done|]. apply errs_bind; [done|]. intros y. by apply errs_bind.
Qed.

Lemma errs_try_fold {A B E} (P : E -> Prop) (f : B -> A -> result B E) b l :
  (forall c x, errs P (f c x)) -> errs P (try_fold f b l).
Proof. intros Hf. revert b. induction l as [|x l IH]; intros b; cbn [try_fold]; [done|]. by apply errs_bind. Qed.

Lemma errs_map_err {A E F} (P : F -> Prop) (f : E -> F) (r : result A E) : (forall e, P (f e)) -> errs P (map_err f r).
Proof. destruct r; simpl; auto. Qed.

Lemma errs_weaken {A E} (P Q : E -> Prop) (r : result A E) : (forall e, P e -> Q e) -> errs P r -> errs Q r.
Proof. destruct r; simpl; auto. Qed.

(** ** Machine integers

    Unsigned 64-bit integers ([u64], and [usize] on the 64-bit targets the
    crate supports) are [Z] in the range [0 .. u64_max]; the operations below
    are the standard library's saturating and checked ones. *)
Definition u64_max : Z := 18446744073709551615.
Definition is_u64 (n : Z) : Prop := 0 <= n <= u64_max.

Definition u64_sat_add (a b : Z) : Z := Z.min (a + b) u64_max.
Definition u64_sat_sub (a b : Z) : Z := Z.max (a - b) 0.
Definition u64_checked_add (a b : Z) : option Z :=
  if a + b <=? u64_max then Some (a + b) else None.
Definition u64_checked_mul (a b : Z) : option Z :=
  if a * b <=? u64_max then Some (a * b) else None.

(** [len l] is [l.len()]. *)
Definition len {A} (l : list A) : Z := Z.of_nat (length l).

Lemma len_nonneg {A} (l : list A) : 0 <= len l.
Proof. unfold len; lia. Qed.

Lemma len_cons {A} (x : A) l : len (x :: l) = len l + 1.
Proof. unfold len; simpl; lia. Qed.

Lemma len_nil {A} : len (@nil A) = 0.
Proof. done. Qed.

Lemma len_app {A} (k l : list A) : len (k ++ l) = len k + len l.
Proof. unfold len. rewrite length_app. lia. Qed.

(** A boolean test on every element, by evaluation. *)
Lemma forallb_Forall {A} (f : A -> bool) l : forallb f l = true -> Forall (fun x => f x = true) l.
Proof. intros H. apply Forall_forall. intros x Hx. rewrite forallb_forall in H. apply H. by apply list_elem_of_In. Qed.

Lemma list_filter_sublist {A} (f : A -> bool) (l : list A) : sublist (List.filter f l) l.
Proof. induction l as [|x l IH]; simpl; [constructor|]. destruct (f x); by constructor. Qed.

Lemma elem_of_filter_bool {A} (f : A -> bool) l x : x ∈ List.filter f l <-> x ∈ l /\ f x = true.
Proof. by rewrite !list_elem_of_In, filter_In. Qed.

Lemma elem_of_rev {A} (x : A) l : x ∈ rev l <-> x ∈ l.
Proof. by rewrite !list_elem_of_In, <-in_rev. Qed.

Lemma len_zero {A} (l : list A) : len l = 0 -> l = [].
Proof. destruct l; unfold len; simpl; [done | lia]. Qed.

(** ** The first element with a property *)
Lemma find_first {A} (f : A -> bool) l x :
  List.find f l = Some x <->
  exists pre post, l = pre ++ x :: post /\ f x = true /\ Forall (fun y => f y = false) pre.
Proof.
  induction l as [|y l IH]; cbn [List.find]; [split; [done|intros ([|] & ? & ? & _); done]|].
  destruct (f y) eqn:Hy.
  - split; [intros [= ->]; by exists [], l|].
    intros ([|z pre] & post & Hl & Hx & Hpre); injection Hl as -> ?; [done|].
    apply Forall_cons in Hpre as [? _]. congruence.
  - rewrite IH. split.
    + intros (pre & post & -> & Hx & Hpre). exists (y :: pre), post. by repeat constructor.
    + intros ([|z pre] & post & Hl & Hx & Hpre); injection Hl as -> ?; [congruence|].
      apply Forall_cons in Hpre as [_ Hpre]. by exists pre, post.
Qed.

Lemma find_none_forall {A} (f : A -> bool) l : List.find f l = None <-> Forall (fun y => f y = false) l.
Proof.
  induction l as [|y l IH]; cbn [List.find]; [by split|]. rewrite Forall_cons.
  destruct (f y); rewrite ?IH; naive_solver.
Qed.

Lemma find_map {A B} (p : B -> bool) (f : A -> B) l :
  List.find p (map f l) = option_map f (List.find (fun x => p (f x)) l).
Proof. induction l as [|x l IH]; [done|]. cbn [map List.find]. by destruct (p (f x)). Qed.

Lemma forallb_fmap {A B} (p : B -> bool) (f : A -> B) l :
  forallb p (map f l) = forallb (fun x => p (f x)) l.
Proof. induction l as [|x l IH]; [done|]. cbn [map forallb]. by rewrite IH. Qed.

(** The first element with a property is unique. *)
Lemma first_unique {A} (P : A -> Prop) a x b c y d :
  a ++ x :: b = c ++ y :: d -> P x -> Forall (fun z => ~ P z) a -> P y -> Forall (fun z => ~ P z) c -> x = y.
Proof.
  revert c. induction a as [|z a IH]; intros [|w c] Heq Hx Ha Hy Hc; simplify_eq/=; try done.
  - by apply Forall_cons in Hc as [? _].
  - by apply Forall_cons in Ha as [? _].
  - apply Forall_cons in Ha as [_ Ha], Hc as [_ Hc]. by eapply IH.
Qed.

#[export] Hint Rewrite @len_cons @len_nil @len_app : len.

Lemma u64_sat_add_range a b : is_u64 a -> 0 <= b -> is_u64 (u64_sat_add a b).
Proof. unfold is_u64, u64_sat_add, u64_max; lia. Qed.

Lemma u64_sat_add_exact a b : a + b <= u64_max -> u64_sat_add a b = a + b.
Proof. unfold u64_sat_add; lia. Qed.

Lemma u64_sat_sub_range a b : is_u64 a -> 0 <= b -> is_u64 (u64_sat_sub a b).
Proof. unfold is_u64, u64_sat_sub, u64_max; lia. Qed.

Lemma u64_sat_add_ge a b : is_u64 a -> 0 <= b -> a <= u64_sat_add a b.
Proof. unfold is_u64, u64_sat_add; lia. Qed.

Lemma u64_checked_add_ok a b : a + b <= u64_max -> u64_checked_add a b = Some (a + b).
Proof. intros H. unfold u64_checked_add. by apply Z.leb_le in H as ->. Qed.

Lemma u64_checked_mul_ok a b : a * b <= u64_max -> u64_checked_mul a b = Some (a * b).
Proof. intros H. unfold u64_checked_mul. by apply Z.leb_le in H as ->. Qed.

#[export] Hint Resolve u64_sat_add_range u64_sat_sub_range len_nonneg : wf.

(** ** Tactics *)
Create HintDb errs.


(** Solves arithmetic over the machine-integer operations. *)
Ltac u64 :=
  unfold u64_sat_add, u64_sat_sub, u64_checked_add, u64_checked_mul, is_u64, u64_max in *; lia.

(** Splits every [match] of the goal and discards the impossible branches. *)
Ltac split_matches := repeat (case_match; simplify_eq/=; try done).

(** Turns a boolean comparison on [Z] in a hypothesis into the order it tests. *)
Ltac zify_bools :=
  repeat match goal with
  | H : (_ <=? _) = true |- _ => apply Z.leb_le in H
  | H : (_ <=? _) = false |- _ => apply Z.leb_gt in H
  | H : (_ <? _) = true |- _ => apply Z.ltb_lt in H
  | H : (_ <? _) = false |- _ => apply Z.ltb_ge in H
  | H : (_ =? _) = true |- _ => apply Z.eqb_eq in H
  | H : (_ =? _) = false |- _ => apply Z.eqb_neq in H
  | H : _ && _ = true |- _ => apply andb_true_iff in H as [? ?]
  | H : _ || _ = false |- _ => apply orb_false_iff in H as [? ?]
  | H : negb _ = true |- _ => apply negb_true_iff in H
  | H : negb _ = false |- _ => apply negb_false_iff in H
  | H : str_eqb _ _ = true |- _ => apply str_eqb_eq in H
  | H : str_eqb _ _ = false |- _ => apply str_eqb_neq in H
  end.

(** Proves [errs P r] along the structure of [r]: binds, loops, branches. *)
Ltac errs :=
  repeat first
    [ exact I | exact eq_refl | match goal with |- errs _ (Err _) => cbn [errs] end | solve [auto 2 with errs nocore] | progress cbv beta iota zeta
    | match goal with |- errs _ (let '(_, _) := ?p in _) => destruct p end
    | apply errs_bind; [|intros ?] | apply errs_ok_or | apply errs_traverse; intros ?
    | apply errs_try_fold; intros ? ? | apply errs_map_err; intros ?
    | match goal with |- errs _ (match ?d with _ => _ end) => destruct d end ].

(** Opens a [let?] chain that ended in [Ok]. *)
Ltac inv_ok :=
  repeat match goal with
  | H : result_bind ?r _ = Ok _ |- _ =>
      apply result_bind_ok in H as (? & ? & H)
  | H : Ok _ = Ok _ |- _ => injection H as H
  | H : Err _ = Ok _ |- _ => discriminate H
  | H : Ok _ = Err _ |- _ => discriminate H
  end.
