(* ===== verification/Float64.v ===== *)
(** * IEEE 754 binary64 numbers

    Rust's [f64] is the Standard Library's specification float
    ([SpecFloat.spec_float]) at precision 53 and maximal exponent 1024: the
    arithmetic is the correctly rounded one, it evaluates by [vm_compute], and
    it rests on no axiom.  NaN payloads and NaN signs are not represented.

    The second half is the order theory every component shares: comparison of
    two floats is the lexicographic comparison of a key, so [f64_lt] and
    [f64_le] are transitive and total away from NaN. *)
From Stdlib Require Export Floats.SpecFloat.
From S2P Require Export Prelude.

Notation f64 := spec_float.

Definition f64_prec : Z := 53.
Definition f64_emax : Z := 1024.

Definition f64_nan : f64 := S754_nan.
Definition f64_infinity : f64 := S754_infinity false.
Definition f64_zero : f64 := S754_zero false.

(** [n as f64] for an integer [n]: the nearest float, ties to even. *)
Definition f64_of_Z (n : Z) : f64 := binary_normalize f64_prec f64_emax n 0 false.

Definition f64_add : f64 -> f64 -> f64 := SFadd f64_prec f64_emax.
Definition f64_sub : f64 -> f64 -> f64 := SFsub f64_prec f64_emax.
Definition f64_mul : f64 -> f64 -> f64 := SFmul f64_prec f64_emax.
Definition f64_div : f64 -> f64 -> f64 := SFdiv f64_prec f64_emax.
Definition f64_neg : f64 -> f64 := SFopp.
Definition f64_abs : f64 -> f64 := SFabs.

(** The decimal literal [m / 10 ^ k] of the source, correctly rounded (exact
    for the literals used: [m] and [10 ^ k] are below [2 ^ 53]). *)
Definition f64_dec (m : Z) (k : Z) : f64 := f64_div (f64_of_Z m) (f64_of_Z (10 ^ k)).

Definition f64_one : f64 := f64_of_Z 1.

(** [f64::MAX], the largest finite double. *)
Definition f64_max_value : f64 := S754_finite false 9007199254740991 971.

(** The comparison operators; every one of them is false on NaN. *)
Definition f64_lt (a b : f64) : bool := SFltb a b.
Definition f64_le (a b : f64) : bool := SFleb a b.
Definition f64_eq (a b : f64) : bool := SFeqb a b.
Definition f64_gt (a b : f64) : bool := SFltb b a.
Definition f64_ge (a b : f64) : bool := SFleb b a.

Definition f64_is_nan (a : f64) : bool := match a with S754_nan => true | _ => false end.
Definition f64_is_finite (a : f64) : bool :=
  match a with S754_zero _ | S754_finite _ _ _ => true | _ => false end.
Definition f64_is_sign_negative (a : f64) : bool :=
  match a with
  | S754_zero s | S754_infinity s | S754_finite s _ _ => s
  | S754_nan => false
  end.

(** [f64::min] and [f64::max] return the other operand when one is NaN. *)
Definition f64_min (a b : f64) : f64 :=
  if f64_is_nan a then b else if f64_is_nan b then a else if f64_le a b then a else b.
Definition f64_max (a b : f64) : f64 :=
  if f64_is_nan a then b else if f64_is_nan b then a else if f64_le b a then a else b.

(** [x.clamp(lo, hi)]: NaN stays NaN. *)
Definition f64_clamp (x lo hi : f64) : f64 :=
  let x := if f64_lt x lo then lo else x in
  if f64_gt x hi then hi else x.

(** [(lo..=hi).contains(&x)]. *)
Definition f64_in_range (lo hi x : f64) : bool := f64_le lo x && f64_le x hi.

(** [f64::total_cmp] on values whose NaN is positive: negative zero is below
    positive zero and NaN is above everything. *)
Definition f64_total_cmp (a b : f64) : comparison :=
  match a, b with
  | S754_nan, S754_nan => Eq
  | S754_nan, _ => Gt
  | _, S754_nan => Lt
  | S754_zero true, S754_zero false => Lt
  | S754_zero false, S754_zero true => Gt
  | _, _ => match SFcompare a b with Some c => c | None => Eq end
  end.

(** [floor], [ceil] and the truncation of a finite float to an integer. *)
Definition Z_of_finite_floor (s : bool) (m : positive) (e : Z) : Z :=
  let v := cond_Zopp s (Zpos m) in
  if 0 <=? e then v * 2 ^ e else v / 2 ^ (- e).

Definition f64_floor (a : f64) : f64 :=
  match a with
  | S754_finite s m e =>
      if 0 <=? e then a
      else binary_normalize f64_prec f64_emax (Z_of_finite_floor s m e) 0 s
  | _ => a
  end.

Definition f64_ceil (a : f64) : f64 := f64_neg (f64_floor (f64_neg a)).

(** [a as u64]: truncation toward zero, saturating; NaN is zero. *)
Definition f64_to_u64 (a : f64) : Z :=
  match a with
  | S754_finite false m e => Z.min (Z_of_finite_floor false m e) u64_max
  | S754_infinity false => u64_max
  | _ => 0
  end.

(** [a % b], the exact IEEE remainder with the sign of the dividend. *)
Definition f64_rem (a b : f64) : f64 :=
  match a, b with
  | S754_nan, _ | _, S754_nan | S754_infinity _, _ | _, S754_zero _ => S754_nan
  | _, S754_infinity _ => a
  | S754_zero _, S754_finite _ _ _ => a
  | S754_finite sa ma ea, S754_finite _ mb eb =>
      let e := Z.min ea eb in
      let r := (Zpos ma * 2 ^ (ea - e)) mod (Zpos mb * 2 ^ (eb - e)) in
      binary_normalize f64_prec f64_emax (cond_Zopp sa r) e sa
  end.

(** [base.powi(n)] for [n >= 0]: the square-and-multiply loop of the runtime. *)
Fixpoint f64_powi_loop (base acc : f64) (n : positive) : f64 :=
  match n with
  | xH => f64_mul acc base
  | xO n => f64_powi_loop (f64_mul base base) acc n
  | xI n => f64_powi_loop (f64_mul base base) (f64_mul acc base) n
  end.

Definition f64_powi (base : f64) (n : Z) : f64 :=
  match n with Zpos p => f64_powi_loop base f64_one p | _ => f64_one end.

(** [iter.sum::<f64>()] starts from negative zero, as the standard library does. *)
Definition f64_sum (l : list f64) : f64 := foldl f64_add (S754_zero true) l.

(** ** Order theory *)

Definition key3 := (Z * Z * Z)%type.

Definition key3_lt (a b : key3) : Prop :=
  let '(a1, a2, a3) := a in let '(b1, b2, b3) := b in
  a1 < b1 \/ (a1 = b1 /\ (a2 < b2 \/ (a2 = b2 /\ a3 < b3))).

(** The key of a non-NaN float: class, exponent, mantissa, signed. *)
Definition f64_key (a : f64) : option key3 :=
  match a with
  | S754_nan => None
  | S754_infinity true => Some (-2, 0, 0)
  | S754_finite true m e => Some (-1, - e, - Zpos m)
  | S754_zero _ => Some (0, 0, 0)
  | S754_finite false m e => Some (1, e, Zpos m)
  | S754_infinity false => Some (2, 0, 0)
  end.

Lemma key3_lt_irrefl a : ~ key3_lt a a.
Proof. destruct a as [[] ]; simpl; lia. Qed.

Lemma key3_lt_trans a b c : key3_lt a b -> key3_lt b c -> key3_lt a c.
Proof. destruct a as [[] ], b as [[] ], c as [[] ]; simpl; lia. Qed.

Lemma key3_lt_total a b : key3_lt a b \/ a = b \/ key3_lt b a.
Proof.
  destruct a as [[a1 a2] a3], b as [[b1 b2] b3]; simpl.
  destruct (Z.lt_total a1 b1) as [|[->|]]; [by auto| |by auto].
  destruct (Z.lt_total a2 b2) as [|[->|]]; [by auto| |by auto 6].
  destruct (Z.lt_total a3 b3) as [|[->|]]; auto 8.
Qed.

(** The comparison of two floats is the comparison of their keys. *)
Definition cmp_agrees (c : comparison) (ka kb : key3) : Prop :=
  match c with Lt => key3_lt ka kb | Eq => ka = kb | Gt => key3_lt kb ka end.

Lemma SFcompare_key a b :
  match f64_key a, f64_key b with
  | Some ka, Some kb => exists c, SFcompare a b = Some c /\ cmp_agrees c ka kb
  | _, _ => SFcompare a b = None
  end.
Proof.
  destruct a as [sa|sa| |sa ma ea], b as [sb|sb| |sb mb eb];
    try destruct sa; try destruct sb; simpl; try done;
    try (eexists; split; [reflexivity | simpl; lia || done]).
  all: change (Pos.compare_cont Eq ma mb) with (Pos.compare ma mb);
    destruct (Z.compare_spec ea eb) as [->|?|?];
    [destruct (Pos.compare_spec ma mb) as [->|?|?]|..];
    (eexists; split; [reflexivity | simpl; try done; lia]).
Qed.

Lemma f64_lt_key a b :
  f64_lt a b = true <->
  exists ka kb, f64_key a = Some ka /\ f64_key b = Some kb /\ key3_lt ka kb.
Proof.
  unfold f64_lt, SFltb. pose proof (SFcompare_key a b) as H.
  destruct (f64_key a) as [ka|], (f64_key b) as [kb|];
    [|rewrite H; naive_solver..].
  destruct H as (c & -> & Hc). split.
  - intros. exists ka, kb. split_and!; [done..|]. by destruct c.
  - intros (? & ? & ? & ? & Hlt). simplify_eq.
    destruct c; simpl in Hc; [|done|].
    + subst. by apply key3_lt_irrefl in Hlt.
    + exfalso. eapply key3_lt_irrefl, key3_lt_trans; eauto.
Qed.

Lemma f64_le_key a b :
  f64_le a b = true <->
  exists ka kb, f64_key a = Some ka /\ f64_key b = Some kb /\ (key3_lt ka kb \/ ka = kb).
Proof.
  unfold f64_le, SFleb. pose proof (SFcompare_key a b) as H.
  destruct (f64_key a) as [ka|], (f64_key b) as [kb|];
    [|rewrite H; naive_solver..].
  destruct H as (c & -> & Hc). split.
  - intros. exists ka, kb. split_and!; [done..|]. destruct c; naive_solver.
  - intros (? & ? & ? & ? & Hle). simplify_eq.
    destruct c; simpl in Hc; [done..|].
    destruct Hle as [Hlt| ->].
    + exfalso. eapply key3_lt_irrefl, key3_lt_trans; eauto.
    + by apply key3_lt_irrefl in Hc.
Qed.

Lemma f64_key_nan a : f64_key a = None <-> f64_is_nan a = true.
Proof. destruct a as [[]|[]| |[]]; naive_solver. Qed.

Lemma f64_key_some a : f64_is_nan a = false -> exists k, f64_key a = Some k.
Proof. destruct a as [[]|[]| |[]]; naive_solver. Qed.

Lemma f64_ge_le a b : f64_ge a b = f64_le b a.
Proof. done. Qed.

Lemma f64_gt_lt a b : f64_gt a b = f64_lt b a.
Proof. done. Qed.

Lemma f64_lt_trans a b c : f64_lt a b = true -> f64_lt b c = true -> f64_lt a c = true.
Proof. rewrite !f64_lt_key. intros (?&?&?&?&?) (?&?&?&?&?). simplify_eq. eauto 10 using key3_lt_trans. Qed.

Lemma f64_le_trans a b c : f64_le a b = true -> f64_le b c = true -> f64_le a c = true.
Proof.
  rewrite !f64_le_key. intros (?&?&?&?&H1) (?&?&?&?&H2). simplify_eq.
  eexists _, _. split_and!; [done..|].
  destruct H1 as [?| ->], H2 as [?| ->]; eauto using key3_lt_trans.
Qed.

Lemma f64_lt_le_trans a b c : f64_lt a b = true -> f64_le b c = true -> f64_lt a c = true.
Proof.
  rewrite f64_le_key, !f64_lt_key. intros (?&?&?&?&H1) (?&?&?&?&H2). simplify_eq.
  eexists _, _. split_and!; [done..|]. destruct H2 as [?| ->]; eauto using key3_lt_trans.
Qed.

Lemma f64_le_lt_trans a b c : f64_le a b = true -> f64_lt b c = true -> f64_lt a c = true.
Proof.
  rewrite f64_le_key, !f64_lt_key. intros (?&?&?&?&H1) (?&?&?&?&H2). simplify_eq.
  eexists _, _. split_and!; [done..|]. destruct H1 as [?| ->]; eauto using key3_lt_trans.
Qed.

Lemma f64_lt_irrefl a : f64_lt a a = false.
Proof.
  apply not_true_iff_false. rewrite f64_lt_key. intros (?&?&?&?&?). simplify_eq.
  by eapply key3_lt_irrefl.
Qed.

Lemma f64_lt_le a b : f64_lt a b = true -> f64_le a b = true.
Proof. rewrite f64_lt_key, f64_le_key. naive_solver. Qed.

Lemma f64_lt_not_ge a b : f64_lt a b = true -> f64_le b a = false.
Proof.
  rewrite f64_lt_key. intros (?&?&?&?&?). apply not_true_iff_false.
  rewrite f64_le_key. intros (?&?&?&?&[?| ->]); simplify_eq;
    eapply key3_lt_irrefl; eauto using key3_lt_trans.
Qed.

Lemma f64_not_nan_le_refl a : f64_is_nan a = false -> f64_le a a = true.
Proof. intros [k Hk]%f64_key_some. rewrite f64_le_key. eauto 10. Qed.

(** Away from NaN, [<=] is the negation of [>]. *)
Lemma f64_not_lt_ge a b :
  f64_is_nan a = false -> f64_is_nan b = false -> f64_lt a b = false -> f64_le b a = true.
Proof.
  intros [ka Ha]%f64_key_some [kb Hb]%f64_key_some Hlt.
  apply f64_le_key. exists kb, ka. split_and!; [done..|].
  destruct (key3_lt_total ka kb) as [?|[?|?]]; [|naive_solver..].
  apply not_true_iff_false in Hlt. exfalso. apply Hlt, f64_lt_key. eauto 10.
Qed.

Lemma f64_not_le_gt a b :
  f64_is_nan a = false -> f64_is_nan b = false -> f64_le a b = false -> f64_lt b a = true.
Proof.
  intros [ka Ha]%f64_key_some [kb Hb]%f64_key_some Hle.
  apply f64_lt_key. exists kb, ka. split_and!; [done..|].
  destruct (key3_lt_total ka kb) as [?|[?|?]]; [..|done];
  apply not_true_iff_false in Hle; exfalso; apply Hle, f64_le_key; eauto 10.
Qed.

Lemma f64_lt_not_nan a b : f64_lt a b = true -> f64_is_nan a = false /\ f64_is_nan b = false.
Proof. destruct a, b; simpl; done. Qed.

Lemma f64_le_not_nan a b : f64_le a b = true -> f64_is_nan a = false /\ f64_is_nan b = false.
Proof. destruct a, b; simpl; done. Qed.

Lemma f64_finite_not_nan a : f64_is_finite a = true -> f64_is_nan a = false.
Proof. by destruct a. Qed.

#[export] Hint Resolve f64_lt_trans f64_le_trans f64_lt_le f64_finite_not_nan : f64.

Lemma f64_min_le_r a b : f64_is_nan b = false -> f64_le (f64_min a b) b = true.
Proof.
  intros Hb. unfold f64_min. destruct (f64_is_nan a); [by apply f64_not_nan_le_refl|].
  rewrite Hb. destruct (f64_le a b) eqn:?; [done|by apply f64_not_nan_le_refl].
Qed.

Lemma f64_min_le_l a b : f64_is_nan a = false -> f64_le (f64_min a b) a = true.
Proof.
  intros Ha. unfold f64_min. rewrite Ha. destruct (f64_is_nan b) eqn:Hb; [by apply f64_not_nan_le_refl|].
  destruct (f64_le a b) eqn:?; [by apply f64_not_nan_le_refl|].
  by apply f64_lt_le, f64_not_le_gt.
Qed.

(** A clamp lands in its interval. *)
Lemma f64_clamp_in_range x lo hi :
  f64_is_nan x = false -> f64_le lo hi = true -> f64_in_range lo hi (f64_clamp x lo hi) = true.
Proof.
  intros Hx Hlh. destruct (f64_le_not_nan _ _ Hlh) as [Hlo Hhi].
  unfold f64_in_range, f64_clamp. apply andb_true_iff.
  destruct (f64_lt x lo) eqn:Hl.
  - unfold f64_gt. destruct (SFltb hi lo) eqn:Hg.
    + split; [done | by apply f64_not_nan_le_refl].
    + split; [by apply f64_not_nan_le_refl | done].
  - unfold f64_gt. destruct (SFltb hi x) eqn:Hg.
    + split; [done | by apply f64_not_nan_le_refl].
    + split; by apply f64_not_lt_ge.
Qed.

(** The value of a decimal constant by evaluation. *)
Example f64_dec_tenth : f64_dec 1 1 = S754_finite false 7205759403792794 (-56).
Proof. vm_compute. reflexivity. Qed.
