(* ===== verification/Text.v ===== *)
(** * Text operations of the Rust standard library

    Character classes, trimming, splitting and UTF-8 as the modelled code uses
    them.  A [char] is its scalar value. *)
From S2P Require Export Prelude.

(** [char::is_whitespace]: the Unicode White_Space property. *)
Definition char_is_whitespace (c : Z) : bool :=
  ((9 <=? c) && (c <=? 13)) || (c =? 32) || (c =? 133) || (c =? 160) || (c =? 5760)
  || ((8192 <=? c) && (c <=? 8202)) || (c =? 8232) || (c =? 8233) || (c =? 8239)
  || (c =? 8287) || (c =? 12288).

(** [char::is_control]: general category Cc. *)
Definition char_is_control (c : Z) : bool :=
  ((0 <=? c) && (c <=? 31)) || ((127 <=? c) && (c <=? 159)).

Definition char_to_ascii_lowercase (c : Z) : Z :=
  if (65 <=? c) && (c <=? 90) then c + 32 else c.

Definition to_ascii_lowercase (s : str) : str := map char_to_ascii_lowercase s.

Fixpoint drop_while (p : Z -> bool) (s : str) : str :=
  match s with
  | c :: rest => if p c then drop_while p rest else s
  | [] => []
  end.

Fixpoint take_while (p : Z -> bool) (s : str) : str :=
  match s with
  | c :: rest => if p c then c :: take_while p rest else []
  | [] => []
  end.

Definition trim_start (s : str) : str := drop_while char_is_whitespace s.
Definition trim_end (s : str) : str := rev (trim_start (rev s)).
Definition trim (s : str) : str := trim_end (trim_start s).

Fixpoint starts_with (s prefix : str) {struct prefix} : bool :=
  match prefix, s with
  | [], _ => true
  | p :: prefix, c :: s => (p =? c) && starts_with s prefix
  | _ :: _, [] => false
  end.

(** [parts.join(sep)]. *)
Fixpoint str_join (sep : str) (parts : list str) : str :=
  match parts with
  | [] => []
  | [p] => p
  | p :: parts => p ++ sep ++ str_join sep parts
  end.

(** [s.contains(c)] for a character. *)
Definition str_contains_char (s : str) (c : Z) : bool := existsb (Z.eqb c) s.

(** [s.split_once(c)] for a character. *)
Fixpoint split_once (c : Z) (s : str) : option (str * str) :=
  match s with
  | [] => None
  | x :: rest =>
      if x =? c then Some ([], rest)
      else match split_once c rest with
           | Some (a, b) => Some (x :: a, b)
           | None => None
           end
  end.

(** Number of bytes of a scalar value in UTF-8, and [s.len()]. *)
Definition char_len_utf8 (c : Z) : Z :=
  if c <? 128 then 1 else if c <? 2048 then 2 else if c <? 65536 then 3 else 4.
Definition str_len (s : str) : Z := foldr (fun c n => char_len_utf8 c + n) 0 s.

(** The UTF-8 encoding of a string, [s.as_bytes()]. *)
Definition char_utf8 (c : Z) : list Z :=
  if c <? 128 then [c]
  else if c <? 2048 then [192 + c / 64; 128 + c mod 64]
  else if c <? 65536 then [224 + c / 4096; 128 + (c / 64) mod 64; 128 + c mod 64]
  else [240 + c / 262144; 128 + (c / 4096) mod 64; 128 + (c / 64) mod 64; 128 + c mod 64].
Definition as_bytes (s : str) : list Z := s ≫= char_utf8.

(** [str::from_utf8]: the well-formed sequences of the Unicode standard
    (no overlong form, no surrogate, nothing above U+10FFFF). *)
Definition is_cont (b : Z) : bool := (128 <=? b) && (b <=? 191).

Fixpoint from_utf8 (bytes : list Z) : option str :=
  match bytes with
  | [] => Some []
  | b0 :: r0 =>
      if (0 <=? b0) && (b0 <? 128) then cons b0 <$> from_utf8 r0
      else match r0 with
      | [] => None
      | b1 :: r1 =>
          if (194 <=? b0) && (b0 <=? 223) && is_cont b1
          then cons ((b0 - 192) * 64 + (b1 - 128)) <$> from_utf8 r1
          else match r1 with
          | [] => None
          | b2 :: r2 =>
              if (224 <=? b0) && (b0 <=? 239) && is_cont b1 && is_cont b2
                 && (if b0 =? 224 then 160 <=? b1 else if b0 =? 237 then b1 <=? 159 else true)
              then cons ((b0 - 224) * 4096 + (b1 - 128) * 64 + (b2 - 128)) <$> from_utf8 r2
              else match r2 with
              | [] => None
              | b3 :: r3 =>
                  if (240 <=? b0) && (b0 <=? 244) && is_cont b1 && is_cont b2 && is_cont b3
                     && (if b0 =? 240 then 144 <=? b1 else if b0 =? 244 then b1 <=? 143 else true)
                  then cons ((b0 - 240) * 262144 + (b1 - 128) * 4096 + (b2 - 128) * 64 + (b3 - 128))
                         <$> from_utf8 r3
                  else None
              end
          end
      end
  end.

(** A scalar value: what a Rust [char] may hold. *)
Definition is_char (c : Z) : Prop := 0 <= c <= 55295 \/ 57344 <= c <= 1114111.

(** ** Lemmas *)

Lemma drop_while_suffix p s : exists pre, s = pre ++ drop_while p s /\ Forall (fun c => p c = true) pre.
Proof.
  induction s as [|c s (pre & IH & Hpre)]; simpl; [by exists []|].
  destruct (p c) eqn:Hc.
  - exists (c :: pre). split; [by simpl; f_equal | by constructor].
  - by exists [].
Qed.

Lemma take_drop_while p s : take_while p s ++ drop_while p s = s.
Proof. induction s as [|c s IH]; simpl; [done|]. destruct (p c); simpl; by rewrite ?IH. Qed.

Lemma char_len_utf8_pos c : 1 <= char_len_utf8 c.
Proof. unfold char_len_utf8; repeat case_match; lia. Qed.

Lemma str_len_nonneg s : 0 <= str_len s.
Proof. induction s as [|c s IH]; simpl; [done|]. pose proof (char_len_utf8_pos c). lia. Qed.

Lemma str_len_app a b : str_len (a ++ b) = str_len a + str_len b.
Proof. induction a as [|c a IH]; simpl; [done|]. lia. Qed.

Lemma split_once_None c s : c ∉ s -> split_once c s = None.
Proof.
  induction s as [|x s IH]; simpl; [done|]. intros [Hx Hs]%not_elem_of_cons.
  destruct (Z.eqb_spec x c) as [->|_]; [done|]. by rewrite IH.
Qed.

Lemma split_once_Some c a b : c ∉ a -> split_once c (a ++ c :: b) = Some (a, b).
Proof.
  induction a as [|x a IH]; simpl.
  - by rewrite Z.eqb_refl.
  - intros [Hx Ha]%not_elem_of_cons. destruct (Z.eqb_spec x c) as [->|_]; [done|]. by rewrite IH.
Qed.

Lemma starts_with_spec s p : starts_with s p = true <-> exists r, s = p ++ r.
Proof.
  revert s. induction p as [|c p IH]; intros s; simpl.
  - split; [intros _; by exists s | done].
  - destruct s as [|x s]; [split; [done | by intros [? ?]]|].
    rewrite andb_true_iff, Z.eqb_eq, IH. split.
    + intros (-> & r & ->). by exists r.
    + intros (r & [= -> ->]). split; [done | by exists r].
Qed.

(** Encoding then decoding is the identity on scalar values. *)
Lemma from_utf8_char c rest :
  is_char c -> from_utf8 (char_utf8 c ++ rest) = cons c <$> from_utf8 rest.
Proof.
  intros Hc. unfold char_utf8, is_char in *.
  repeat case_match; zify_bools; simpl app.
  - simpl. replace ((0 <=? c) && (c <? 128)) with true by lia. done.
  - assert (Hd : c = 64 * (c / 64) + c mod 64) by (apply Z.div_mod; lia).
    pose proof (Z.mod_pos_bound c 64 ltac:(lia)).
    assert (2 <= c / 64 <= 31) by (split; [apply Z.div_le_lower_bound; lia | apply Z.lt_succ_r, Z.div_lt_upper_bound; lia]).
    set (q := c / 64) in *. set (r := c mod 64) in *.
    cbn [from_utf8]. unfold is_cont.
    replace ((0 <=? 192 + q) && (192 + q <? 128)) with false by lia.
    replace ((194 <=? 192 + q) && (192 + q <=? 223) && ((128 <=? 128 + r) && (128 + r <=? 191))) with true by lia.
    by replace ((192 + q - 192) * 64 + (128 + r - 128)) with c by lia.
  - assert (Hd : c = 64 * (c / 64) + c mod 64) by (apply Z.div_mod; lia).
    assert (Hd2 : c / 64 = 64 * (c / 64 / 64) + (c / 64) mod 64) by (apply Z.div_mod; lia).
    rewrite Z.div_div in Hd2 by lia. change (64 * 64) with 4096 in Hd2.
    pose proof (Z.mod_pos_bound c 64 ltac:(lia)).
    pose proof (Z.mod_pos_bound (c / 64) 64 ltac:(lia)).
    assert (0 <= c / 4096 <= 15) by (split; [apply Z.div_le_lower_bound; lia | apply Z.lt_succ_r, Z.div_lt_upper_bound; lia]).
    set (q := c / 4096) in *. set (m := (c / 64) mod 64) in *. set (r := c mod 64) in *.
    cbn [from_utf8]. unfold is_cont.
    replace ((0 <=? 224 + q) && (224 + q <? 128)) with false by lia.
    replace ((194 <=? 224 + q) && (224 + q <=? 223)) with false by lia. cbn [andb].
    replace (_ && (if 224 + q =? 224 then _ else _)) with true.
    2: { symmetry. repeat case_match; zify_bools; lia. }
    by replace ((224 + q - 224) * 4096 + (128 + m - 128) * 64 + (128 + r - 128)) with c by lia.
  - assert (Hd : c = 64 * (c / 64) + c mod 64) by (apply Z.div_mod; lia).
    assert (Hd2 : c / 64 = 64 * (c / 64 / 64) + (c / 64) mod 64) by (apply Z.div_mod; lia).
    assert (Hd3 : c / 64 / 64 = 64 * (c / 64 / 64 / 64) + (c / 64 / 64) mod 64) by (apply Z.div_mod; lia).
    rewrite !Z.div_div in Hd3 by lia. rewrite Z.div_div in Hd2 by lia.
    change (64 * (64 * 64)) with 262144 in *. change (64 * 64 * 64) with 262144 in *. change (64 * 64) with 4096 in *.
    pose proof (Z.mod_pos_bound c 64 ltac:(lia)).
    pose proof (Z.mod_pos_bound (c / 64) 64 ltac:(lia)).
    pose proof (Z.mod_pos_bound (c / 4096) 64 ltac:(lia)).
    assert (0 <= c / 262144 <= 4) by (split; [apply Z.div_le_lower_bound; lia | apply Z.lt_succ_r, Z.div_lt_upper_bound; lia]).
    set (q := c / 262144) in *. set (m1 := (c / 4096) mod 64) in *. set (m := (c / 64) mod 64) in *. set (r := c mod 64) in *.
    cbn [from_utf8]. unfold is_cont.
    replace ((0 <=? 240 + q) && (240 + q <? 128)) with false by lia.
    replace ((194 <=? 240 + q) && (240 + q <=? 223)) with false by lia.
    replace ((224 <=? 240 + q) && (240 + q <=? 239)) with false by lia. cbn [andb].
    replace (_ && (if 240 + q =? 240 then _ else _)) with true.
    2: { symmetry. repeat case_match; zify_bools; lia. }
    by replace ((240 + q - 240) * 262144 + (128 + m1 - 128) * 4096 + (128 + m - 128) * 64 + (128 + r - 128)) with c by lia.
Qed.

Lemma from_utf8_as_bytes s : Forall is_char s -> from_utf8 (as_bytes s) = Some s.
Proof.
  induction 1 as [|c s Hc Hs IH]; [done|].
  unfold as_bytes in *. cbn [mbind list_bind]. rewrite from_utf8_char by done.
  by rewrite IH.
Qed.

(** ASCII text is its own encoding. *)
Lemma as_bytes_ascii s : Forall (fun c => c < 128) s -> as_bytes s = s.
Proof.
  unfold as_bytes. induction 1 as [|c s Hc _ IH]; [done|]. cbn [mbind list_bind]. rewrite IH. unfold char_utf8.
  by rewrite (proj2 (Z.ltb_lt c 128)) by done.
Qed.

Lemma as_bytes_ascii_inv s : Forall (fun c => c < 128) (as_bytes s) -> Forall (fun c => c < 128) s.
Proof.
  unfold as_bytes. induction s as [|c s IH]; [by constructor|]. cbn [mbind list_bind]. intros [Hc Hs]%Forall_app.
  constructor; [|by apply IH]. unfold char_utf8 in Hc. repeat case_match; zify_bools; try done;
    apply Forall_cons in Hc as [Hc _]; Z.to_euclidean_division_equations; lia.
Qed.

Lemma str_len_bytes s : str_len s = len (as_bytes s).
Proof.
  unfold as_bytes. induction s as [|c s IH]; [done|]. cbn [str_len foldr mbind list_bind]. rewrite len_app, <- IH.
  unfold str_len. f_equal. unfold char_len_utf8, char_utf8. by repeat case_match.
Qed.
