(* ===== verification/BTree.v ===== *)
(** * Ordered maps

    [BTreeMap<String, V>] as the list of its entries in ascending key order:
    iteration order is part of what the ledger and the reports compute, so the
    order is kept in the data rather than recovered from a finite map. *)
From S2P Require Export Prelude.

(** [String]'s order: UTF-8 preserves the order of scalar values, so the
    bytewise comparison is the lexicographic one. *)
Fixpoint str_cmp (a b : str) : comparison :=
  match a, b with
  | [], [] => Eq
  | [], _ :: _ => Lt
  | _ :: _, [] => Gt
  | x :: a, y :: b => match x ?= y with Eq => str_cmp a b | c => c end
  end.

Definition str_lt (a b : str) : Prop := str_cmp a b = Lt.

Lemma str_cmp_eq a b : str_cmp a b = Eq <-> a = b.
Proof.
  revert b. induction a as [|x a IH]; intros [|y b]; simpl; try done.
  destruct (Z.compare_spec x y); [rewrite IH|..]; naive_solver lia.
Qed.

Lemma str_cmp_refl a : str_cmp a a = Eq.
Proof. by apply str_cmp_eq. Qed.

Lemma str_cmp_antisym a b : str_cmp b a = CompOpp (str_cmp a b).
Proof.
  revert b. induction a as [|x a IH]; intros [|y b]; simpl; try done.
  rewrite (Z.compare_antisym x y). destruct (x ?= y); simpl; auto.
Qed.

Lemma str_lt_trans a b c : str_lt a b -> str_lt b c -> str_lt a c.
Proof.
  unfold str_lt. revert b c. induction a as [|x a IH]; intros [|y b] [|z c]; simpl; try done.
  destruct (x ?= y) eqn:Hxy, (y ?= z) eqn:Hyz, (x ?= z) eqn:Hxz; try done; eauto; exfalso;
    rewrite ?Z.compare_eq_iff, ?Z.compare_lt_iff, ?Z.compare_gt_iff in *; lia.
Qed.

Lemma str_lt_irrefl a : ~ str_lt a a.
Proof. unfold str_lt. by rewrite str_cmp_refl. Qed.

Lemma str_cmp_app a a' b b' :
  length a = length a' ->
  str_cmp (a ++ b) (a' ++ b') = match str_cmp a a' with Eq => str_cmp b b' | c => c end.
Proof.
  revert a'. induction a as [|x a IH]; intros [|y a'] Hl; try done. simpl in *.
  destruct (x ?= y); [apply IH; lia|done|done].
Qed.

Lemma str_cmp_gt a b : str_cmp a b = Gt <-> str_lt b a.
Proof. unfold str_lt. rewrite (str_cmp_antisym a b). destruct (str_cmp a b); simpl; split; done. Qed.

(** ** The map *)
Notation btree V := (list (str * V)).

Section BTreeMap.
Context {V : Type}.
Implicit Types (m : btree V) (k : str) (v : V).

(** [map.get(key)]. *)
Fixpoint bt_get m k : option V :=
  match m with
  | [] => None
  | (k', v) :: m => if str_eqb k k' then Some v else bt_get m k
  end.

Definition bt_contains m k : bool := match bt_get m k with Some _ => true | None => false end.

(** [map.insert(key, value)]. *)
Fixpoint bt_insert m k v : btree V :=
  match m with
  | [] => [(k, v)]
  | (k', v') :: m' =>
      match str_cmp k k' with
      | Lt => (k, v) :: m
      | Eq => (k, v) :: m'
      | Gt => (k', v') :: bt_insert m' k v
      end
  end.

(** [f(map.entry(key).or_insert(default))]. *)
Definition bt_update m k (default : V) (f : V -> V) : btree V :=
  bt_insert m k (f (match bt_get m k with Some v => v | None => default end)).

(** [map.pop_first()], without the popped entry. *)
Definition bt_pop_first m : btree V := tail m.

Definition bt_keys m : list str := map fst m.
Definition bt_values m : list V := map snd m.

(** [iter.collect::<BTreeMap<_, _>>()]: later entries overwrite. *)
Definition bt_of_list (l : list (str * V)) : btree V :=
  foldl (fun m kv => bt_insert m (fst kv) (snd kv)) [] l.

(** Keys are strictly ascending: what makes a list a map. *)
Inductive bt_sorted : btree V -> Prop :=
| bt_sorted_nil : bt_sorted []
| bt_sorted_cons k v m :
    Forall (fun kv => str_lt k (fst kv)) m -> bt_sorted m -> bt_sorted ((k, v) :: m).

Lemma bt_get_insert_eq m k v : bt_get (bt_insert m k v) k = Some v.
Proof.
  induction m as [|[k' v'] m IH]; simpl; [by rewrite str_eqb_refl|].
  destruct (str_cmp k k') eqn:Hc; simpl; rewrite ?str_eqb_refl; try done.
  destruct (str_eqb k k') eqn:He; [|done].
  apply str_eqb_eq in He as ->. by rewrite str_cmp_refl in Hc.
Qed.

Lemma bt_get_insert_ne m k k' v : k <> k' -> bt_get (bt_insert m k v) k' = bt_get m k'.
Proof.
  intros Hne. induction m as [|[k0 v0] m IH]; simpl.
  - by rewrite (proj2 (str_eqb_neq k' k)) by done.
  - destruct (str_cmp k k0) eqn:Hc; simpl.
    + apply str_cmp_eq in Hc as ->. by rewrite (proj2 (str_eqb_neq k' k0)) by done.
    + by rewrite (proj2 (str_eqb_neq k' k)) by done.
    + by rewrite IH.
Qed.

Lemma bt_get_None m k : Forall (fun kv => str_lt k (fst kv)) m -> bt_get m k = None.
Proof.
  induction 1 as [|[k' v'] m Hlt _ IH]; simpl; [done|].
  destruct (str_eqb k k') eqn:He; [|done].
  apply str_eqb_eq in He as ->. by apply str_lt_irrefl in Hlt.
Qed.

Lemma bt_get_elem m k v : bt_get m k = Some v -> (k, v) ∈ m.
Proof.
  induction m as [|[k' v'] m IH]; simpl; [done|].
  destruct (str_eqb k k') eqn:He.
  - intros [= ->]. apply str_eqb_eq in He as ->. by left.
  - intros. right. auto.
Qed.

Lemma bt_elem_get m k v : bt_sorted m -> (k, v) ∈ m -> bt_get m k = Some v.
Proof.
  induction 1 as [|k' v' m Hlt Hs IH]; simpl; [by intros ?%not_elem_of_nil|].
  intros [[= -> ->]|Hin]%elem_of_cons; [by rewrite str_eqb_refl|].
  destruct (str_eqb k k') eqn:He; [|auto].
  apply str_eqb_eq in He as ->. rewrite Forall_forall in Hlt.
  apply Hlt in Hin. by apply str_lt_irrefl in Hin.
Qed.

Lemma bt_insert_Forall (P : str * V -> Prop) m k v :
  P (k, v) -> Forall P m -> Forall P (bt_insert m k v).
Proof.
  intros Hk. induction 1 as [|[k' v'] m Hp Hm IH]; simpl; [auto|].
  destruct (str_cmp k k'); auto.
Qed.

Lemma bt_insert_sorted m k v : bt_sorted m -> bt_sorted (bt_insert m k v).
Proof.
  induction 1 as [|k' v' m Hlt Hs IH]; simpl; [repeat constructor|].
  destruct (str_cmp k k') eqn:Hc.
  - apply str_cmp_eq in Hc as ->. by constructor.
  - constructor; [|by constructor]. constructor; [done|].
    eapply Forall_impl; [exact Hlt|]. intros [? ?] ?. by eapply str_lt_trans.
  - constructor; [|done]. apply bt_insert_Forall; [|done]. by apply str_cmp_gt.
Qed.

Lemma bt_update_sorted m k d f : bt_sorted m -> bt_sorted (bt_update m k d f).
Proof. apply bt_insert_sorted. Qed.

Lemma bt_pop_first_sorted m : bt_sorted m -> bt_sorted (bt_pop_first m).
Proof. destruct 1; [constructor | done]. Qed.

Lemma bt_elem_keys_insert m k k' v : k ∈ bt_keys (bt_insert m k' v) <-> k = k' \/ k ∈ bt_keys m.
Proof.
  induction m as [|[k1 v1] m IH]; cbn [bt_insert bt_keys map fst]; [rewrite list_elem_of_singleton, elem_of_nil; tauto|].
  destruct (str_cmp k' k1) eqn:E; cbn [map fst]; rewrite !elem_of_cons; [apply str_cmp_eq in E as ->; tauto|tauto|].
  fold (bt_keys (bt_insert m k' v)). rewrite IH. fold (bt_keys m). tauto.
Qed.

Lemma bt_elem_keys_of_list l k : k ∈ bt_keys (bt_of_list l) <-> k ∈ map fst l.
Proof.
  unfold bt_of_list. enough (forall m, k ∈ bt_keys (foldl (fun m kv => bt_insert m (fst kv) (snd kv)) m l) <->
    k ∈ map fst l \/ k ∈ bt_keys m) as H.
  { rewrite H. cbn [bt_keys map]. rewrite elem_of_nil. tauto. }
  induction l as [|kv l IH]; intros m; cbn [foldl map]; [rewrite elem_of_nil; tauto|].
  rewrite IH, bt_elem_keys_insert, elem_of_cons. tauto.
Qed.

Lemma bt_of_list_length l : (length (bt_of_list l) <= length l)%nat.
Proof.
  assert (forall m k v, length (bt_insert m k v) <= S (length m))%nat as Hi.
  { induction m as [|[k' v'] m IH]; intros k v; cbn [bt_insert length]; [lia|].
    destruct (str_cmp k k'); cbn [length]; [lia|lia|]. specialize (IH k v). lia. }
  unfold bt_of_list. enough (forall m, length (foldl (fun m kv => bt_insert m (fst kv) (snd kv)) m l) <= length m + length l)%nat as H.
  { apply (H []). }
  induction l as [|[k v] l IH]; intros m; cbn [foldl length fst snd]; [lia|].
  specialize (IH (bt_insert m k v)). specialize (Hi m k v). lia.
Qed.

Lemma bt_insert_length m k v :
  bt_sorted m ->
  length (bt_insert m k v) = if bt_contains m k then length m else S (length m).
Proof.
  unfold bt_contains. induction 1 as [|k' v' m Hlt Hs IH]; simpl; [done|].
  destruct (str_cmp k k') eqn:Hc; simpl.
  - apply str_cmp_eq in Hc as ->. by rewrite str_eqb_refl.
  - rewrite (proj2 (str_eqb_neq k k')) by (intros ->; by rewrite str_cmp_refl in Hc).
    rewrite bt_get_None; [done|]. eapply Forall_impl; [exact Hlt|].
    intros [? ?] ?. by eapply str_lt_trans.
  - destruct (str_eqb k k') eqn:He.
    + apply str_eqb_eq in He as ->. by rewrite str_cmp_refl in Hc.
    + rewrite IH. by destruct (bt_get m k).
Qed.

Lemma bt_sorted_NoDup m : bt_sorted m -> NoDup (bt_keys m).
Proof.
  induction 1 as [|k v m Hlt Hs IH]; simpl; [constructor|]. constructor; [|done].
  intros ([k' v'] & -> & Hin)%list_elem_of_fmap. rewrite Forall_forall in Hlt.
  apply Hlt in Hin. by apply str_lt_irrefl in Hin.
Qed.

Lemma bt_of_list_sorted l : bt_sorted (bt_of_list l).
Proof.
  unfold bt_of_list. assert (bt_sorted (@nil (str * V))) as H by constructor. revert H.
  generalize (@nil (str * V)). induction l as [|[k v] l IH]; intros m Hm; simpl; [done|].
  apply IH, bt_insert_sorted, Hm.
Qed.

(** Two maps with the same lookups are equal. *)
Lemma bt_ext m1 m2 :
  bt_sorted m1 -> bt_sorted m2 -> (forall k, bt_get m1 k = bt_get m2 k) -> m1 = m2.
Proof.
  intros H1. revert m2. induction H1 as [|k1 v1 m1 Hlt1 Hs1 IH]; intros m2 H2 Hget.
  - destruct H2 as [|k2 v2 m2 _ _]; [done|]. specialize (Hget k2). simpl in Hget.
    by rewrite str_eqb_refl in Hget.
  - destruct H2 as [|k2 v2 m2 Hlt2 Hs2]; [specialize (Hget k1); simpl in Hget; by rewrite str_eqb_refl in Hget|].
    assert (k1 = k2) as <-.
    { destruct (decide (k1 = k2)) as [|Hne]; [done|]. exfalso.
      pose proof (Hget k1) as Hg1. pose proof (Hget k2) as Hg2. simpl in Hg1, Hg2. rewrite str_eqb_refl in Hg1, Hg2.
      rewrite (proj2 (str_eqb_neq k1 k2)) in Hg1 by done. rewrite (proj2 (str_eqb_neq k2 k1)) in Hg2 by done.
      symmetry in Hg1. apply bt_get_elem in Hg1, Hg2. rewrite Forall_forall in Hlt1, Hlt2.
      apply Hlt2 in Hg1. apply Hlt1 in Hg2. simpl in *. eapply str_lt_irrefl, str_lt_trans; eauto. }
    pose proof (Hget k1) as Hg. simpl in Hg. rewrite str_eqb_refl in Hg. injection Hg as <-.
    f_equal. apply IH; [done|]. intros k. specialize (Hget k). simpl in Hget.
    destruct (str_eqb k k1) eqn:E; [|done]. apply str_eqb_eq in E as ->. by rewrite !bt_get_None.
Qed.

Lemma bt_of_list_from l m k :
  bt_get (foldl (fun m kv => bt_insert m (fst kv) (snd kv)) m l) k =
  match bt_get (rev l) k with Some v => Some v | None => bt_get m k end.
Proof.
  revert m. induction l as [|[k' v'] l IH]; intros m; [done|]. cbn [foldl fst snd rev]. rewrite IH.
  assert (Happ : forall a b, bt_get (a ++ b) k = match bt_get a k with Some v => Some v | None => bt_get b k end).
  { intros a b. induction a as [|[k2 v2] a IHa]; [done|]. simpl. by destruct (str_eqb k k2). }
  rewrite Happ. destruct (bt_get (rev l) k); [done|]. simpl. destruct (str_eqb k k') eqn:E.
  - apply str_eqb_eq in E as ->. by rewrite bt_get_insert_eq.
  - apply str_eqb_neq in E. by rewrite bt_get_insert_ne by congruence.
Qed.

Lemma bt_get_NoDup l k v : NoDup (map fst l) -> bt_get l k = Some v <-> (k, v) ∈ l.
Proof.
  intros Hd. split; [apply bt_get_elem|]. induction l as [|[k' v'] l IH]; simpl in *; [by intros ?%not_elem_of_nil|].
  apply NoDup_cons in Hd as [Hn Hd]. intros [[= -> ->]|Hin]%elem_of_cons; [by rewrite str_eqb_refl|].
  destruct (str_eqb k k') eqn:E; [|auto]. apply str_eqb_eq in E as ->. exfalso. apply Hn.
  by apply (list_elem_of_fmap_2 fst) in Hin.
Qed.

(** Collecting does not depend on the order of distinct keys. *)
Lemma bt_of_list_perm l l' : l ≡ₚ l' -> NoDup (map fst l) -> bt_of_list l = bt_of_list l'.
Proof.
  intros Hp Hd. apply bt_ext; [apply bt_of_list_sorted..|]. intros k. unfold bt_of_list. rewrite !bt_of_list_from.
  assert (Hd' : NoDup (map fst l')) by (by rewrite <- Hp).
  assert (bt_get (rev l) k = bt_get (rev l') k) as ->; [|done].
  assert (Hr : forall a : btree V, NoDup (map fst a) -> NoDup (map fst (rev a))).
  { intros a Ha. rewrite map_rev. by rewrite <- Permutation_rev. }
  apply option_eq. intros v. rewrite !bt_get_NoDup by auto.
  rewrite !list_elem_of_In, <- !in_rev, <- !list_elem_of_In. by rewrite Hp.
Qed.

(** Collecting the entries of a map gives the map back. *)
Lemma bt_of_list_id m : bt_sorted m -> bt_of_list m = m.
Proof.
  intros Hs. apply bt_ext; [apply bt_of_list_sorted|done|]. intros k. unfold bt_of_list. rewrite bt_of_list_from.
  pose proof (bt_sorted_NoDup m Hs) as Hd.
  assert (Hd' : NoDup (map fst (rev m))) by (rewrite map_rev; by rewrite <- Permutation_rev).
  assert (bt_get (rev m) k = bt_get m k) as ->; [|by destruct (bt_get m k)].
  apply option_eq. intros v. rewrite !bt_get_NoDup by done. by rewrite !list_elem_of_In, <- in_rev.
Qed.
End BTreeMap.

#[export] Hint Resolve bt_insert_sorted bt_update_sorted bt_pop_first_sorted bt_of_list_sorted : wf.
#[export] Hint Constructors bt_sorted : wf.
