(* ===== verification/OrdMap.v ===== *)
(** * Ordered maps over any ordered key

    [BTreeMap<K, V>] for the keys the metrics and the evidence reports use:
    tuples of strings, under the lexicographic order.  The maps of string keys
    of the rest of the program are in [BTree]. *)
From S2P Require Export BTree.

(** A total order, as [Ord::cmp] gives it. *)
Class KeyOrder (K : Type) := {
  key_cmp : K -> K -> comparison;
  key_cmp_eq a b : key_cmp a b = Eq <-> a = b;
  key_cmp_antisym a b : key_cmp b a = CompOpp (key_cmp a b);
  key_lt_trans a b c : key_cmp a b = Lt -> key_cmp b c = Lt -> key_cmp a c = Lt;
}.

#[export] Instance str_order : KeyOrder str := {|
  key_cmp := str_cmp; key_cmp_eq := str_cmp_eq; key_cmp_antisym := str_cmp_antisym; key_lt_trans := str_lt_trans |}.

(** Tuples compare lexicographically. *)
Definition pair_cmp {A B} `{KeyOrder A, KeyOrder B} (p q : A * B) : comparison :=
  match key_cmp (fst p) (fst q) with Eq => key_cmp (snd p) (snd q) | c => c end.

Lemma pair_cmp_eq {A B} `{KeyOrder A, KeyOrder B} (p q : A * B) : pair_cmp p q = Eq <-> p = q.
Proof.
  destruct p as [a b], q as [c d]. unfold pair_cmp. cbn [fst snd].
  destruct (key_cmp a c) eqn:E; [apply key_cmp_eq in E as ->; rewrite key_cmp_eq; split; [by intros ->|by intros [= ->]]|split; [done|]..];
    intros [= -> ->]; rewrite (proj2 (key_cmp_eq c c) eq_refl) in E; done.
Qed.

Lemma pair_cmp_antisym {A B} `{KeyOrder A, KeyOrder B} (p q : A * B) : pair_cmp q p = CompOpp (pair_cmp p q).
Proof.
  unfold pair_cmp. rewrite (key_cmp_antisym (fst p) (fst q)). destruct (key_cmp (fst p) (fst q)); [apply key_cmp_antisym|done|done].
Qed.

Lemma pair_lt_trans {A B} `{KeyOrder A, KeyOrder B} (p q r : A * B) :
  pair_cmp p q = Lt -> pair_cmp q r = Lt -> pair_cmp p r = Lt.
Proof.
  unfold pair_cmp. destruct (key_cmp (fst p) (fst q)) eqn:E1, (key_cmp (fst q) (fst r)) eqn:E2; try done.
  - apply key_cmp_eq in E1 as ->, E2 as ->. rewrite (proj2 (key_cmp_eq _ _) eq_refl). apply key_lt_trans.
  - apply key_cmp_eq in E1 as ->. by rewrite E2.
  - apply key_cmp_eq in E2 as <-. by rewrite E1.
  - by rewrite (key_lt_trans _ _ _ E1 E2).
Qed.

#[export] Instance pair_order {A B} `{KeyOrder A, KeyOrder B} : KeyOrder (A * B) := {|
  key_cmp := pair_cmp; key_cmp_eq := pair_cmp_eq; key_cmp_antisym := pair_cmp_antisym; key_lt_trans := pair_lt_trans |}.

Notation ordmap K V := (list (K * V)).

Section Map.
Context {K V : Type} `{KeyOrder K}.
Implicit Types (m : ordmap K V) (k : K) (v : V).

(** [map.get(key)]. *)
Fixpoint km_get m k : option V :=
  match m with
  | [] => None
  | (k', v) :: m => match key_cmp k k' with Eq => Some v | _ => km_get m k end
  end.

Definition km_contains m k : bool := match km_get m k with Some _ => true | None => false end.

(** [map.insert(key, value)]. *)
Fixpoint km_insert m k v : ordmap K V :=
  match m with
  | [] => [(k, v)]
  | (k', v') :: m' =>
      match key_cmp k k' with
      | Lt => (k, v) :: m
      | Eq => (k, v) :: m'
      | Gt => (k', v') :: km_insert m' k v
      end
  end.

(** [f(map.entry(key).or_insert(default))]. *)
Definition km_update m k (default : V) (f : V -> V) : ordmap K V :=
  km_insert m k (f (match km_get m k with Some v => v | None => default end)).

Definition km_values m : list V := map snd m.

(** Keys are strictly ascending: what makes a list a map. *)
Inductive km_sorted : ordmap K V -> Prop :=
| km_sorted_nil : km_sorted []
| km_sorted_cons k v m : Forall (fun e => key_cmp k (fst e) = Lt) m -> km_sorted m -> km_sorted ((k, v) :: m).

Lemma key_cmp_refl k : key_cmp k k = Eq.
Proof. by apply key_cmp_eq. Qed.

Lemma km_get_insert_eq m k v : km_get (km_insert m k v) k = Some v.
Proof.
  induction m as [|[k' v'] m IH]; cbn [km_insert km_get]; [by rewrite key_cmp_refl|].
  destruct (key_cmp k k') eqn:E; cbn [km_get]; rewrite ?key_cmp_refl, ?E; done.
Qed.

Lemma km_get_insert_ne m k k' v : k <> k' -> km_get (km_insert m k v) k' = km_get m k'.
Proof.
  intros Hne. assert (key_cmp k' k <> Eq) as Hk by (intros ?%key_cmp_eq; by subst).
  induction m as [|[k0 v0] m IH]; cbn [km_insert km_get]; [by destruct (key_cmp k' k)|].
  destruct (key_cmp k k0) eqn:E; cbn [km_get].
  - apply key_cmp_eq in E as <-. by destruct (key_cmp k' k).
  - by destruct (key_cmp k' k).
  - by rewrite IH.
Qed.

Lemma km_insert_Forall (P : K * V -> Prop) m k v : P (k, v) -> Forall P m -> Forall P (km_insert m k v).
Proof.
  intros Hp. induction 1 as [|[k' v'] m Hp' Hm IH]; cbn [km_insert]; [by constructor|].
  destruct (key_cmp k k'); repeat constructor; done.
Qed.

Lemma km_insert_sorted m k v : km_sorted m -> km_sorted (km_insert m k v).
Proof.
  induction 1 as [|k' v' m Hm Hs IH]; cbn [km_insert]; [by repeat constructor|].
  destruct (key_cmp k k') eqn:E.
  - apply key_cmp_eq in E as ->. by constructor.
  - constructor; [|by constructor]. constructor; [done|]. eapply Forall_impl; [exact Hm|]. intros e He. by apply (key_lt_trans _ k').
  - constructor; [|done]. apply km_insert_Forall; [|done]. cbn [fst]. by rewrite key_cmp_antisym, E.
Qed.

Lemma km_get_above m k : Forall (fun e => key_cmp k (fst e) = Lt) m -> km_get m k = None.
Proof. induction 1 as [|[k' v] m Hk Hm IH]; [done|]. cbn [km_get fst] in *. by rewrite Hk. Qed.

Lemma km_insert_length m k v :
  km_sorted m -> length (km_insert m k v) = (length m + if km_contains m k then 0 else 1)%nat.
Proof.
  unfold km_contains. induction 1 as [|k' v' m Hm Hs IH]; [done|]. cbn [km_insert km_get].
  destruct (key_cmp k k') eqn:E; cbn [length]; [lia| |rewrite IH; destruct (km_get m k); lia].
  rewrite km_get_above; [lia|]. eapply Forall_impl; [exact Hm|]. intros e He. by apply (key_lt_trans _ k').
Qed.

Lemma km_elem_insert m k v e : e ∈ km_insert m k v -> e = (k, v) \/ e ∈ m.
Proof.
  intros He. assert (Forall (fun e => e = (k, v) \/ e ∈ m) (km_insert m k v)) as Hf.
  { apply km_insert_Forall; [by left|]. apply Forall_forall. by right. }
  rewrite Forall_forall in Hf. by apply Hf.
Qed.

Lemma km_get_elem m k v : km_get m k = Some v -> (k, v) ∈ m.
Proof.
  induction m as [|[k' v'] m IH]; cbn [km_get]; [done|]. destruct (key_cmp k k') eqn:E; [|by right; apply IH..].
  apply key_cmp_eq in E as ->. intros [= ->]. by left.
Qed.

Lemma km_elem_get m k v : km_sorted m -> (k, v) ∈ m -> km_get m k = Some v.
Proof.
  induction 1 as [|k' v' m Hm Hs IH]; intros He; [by apply not_elem_of_nil in He|]. cbn [km_get].
  apply elem_of_cons in He as [[= -> ->]|He]; [by rewrite key_cmp_refl|].
  rewrite Forall_forall in Hm. specialize (Hm _ He). cbn [fst] in Hm. rewrite key_cmp_antisym, Hm. by apply IH.
Qed.
End Map.

#[export] Hint Resolve km_insert_sorted : core.
#[export] Hint Constructors km_sorted : core.
