(* ===== verification/IndexMap.v ===== *)
(** * Insertion-ordered maps (interface to the [indexmap] crate)

    What the code relies on of [indexmap::IndexMap], as a class: the operations
    it calls, an observation [im_entries] (the entries in order), and laws that
    say how each operation changes the observation.  Clients are proved against
    the class; the association list is the instance used in examples. *)
From S2P Require Export Prelude.

(** ** Reference behaviour on entry lists *)
Section Entries.
Context {V : Type}.
Implicit Types (l : list (str * V)) (k : str) (v : V).

Fixpoint ix_get l k : option V :=
  match l with
  | [] => None
  | (k', v) :: l => if str_eqb k' k then Some v else ix_get l k
  end.

(** [shift_remove]: the order of the others is kept. *)
Fixpoint ix_remove l k : list (str * V) :=
  match l with
  | [] => []
  | (k', v) :: l => if str_eqb k' k then l else (k', v) :: ix_remove l k
  end.

(** [insert]: an existing key keeps its position, a new one goes last. *)
Fixpoint ix_insert l k v : list (str * V) :=
  match l with
  | [] => [(k, v)]
  | (k', v') :: l => if str_eqb k' k then (k', v) :: l else (k', v') :: ix_insert l k v
  end.

Definition ix_keys l : list str := map fst l.

Lemma ix_get_None l k : ix_get l k = None <-> k ∉ ix_keys l.
Proof.
  induction l as [|[k' v'] l IH]; simpl; [set_solver|].
  destruct (str_eqb k' k) eqn:E; [apply str_eqb_eq in E as ->|apply str_eqb_neq in E]; set_solver.
Qed.

Lemma ix_insert_new l k v : k ∉ ix_keys l -> ix_insert l k v = l ++ [(k, v)].
Proof.
  induction l as [|[k' v'] l IH]; simpl; [done|]. intros [Hne Hn]%not_elem_of_cons.
  rewrite (proj2 (str_eqb_neq k' k)) by congruence. by rewrite IH.
Qed.

Lemma ix_remove_not_in l k : k ∉ ix_keys l -> ix_remove l k = l.
Proof.
  induction l as [|[k' v'] l IH]; simpl; [done|]. intros [Hne Hn]%not_elem_of_cons.
  rewrite (proj2 (str_eqb_neq k' k)) by congruence. by rewrite IH.
Qed.

Lemma ix_keys_remove l k : NoDup (ix_keys l) -> NoDup (ix_keys (ix_remove l k)) /\ k ∉ ix_keys (ix_remove l k).
Proof.
  induction l as [|[k' v'] l IH]; simpl; [set_solver|]. intros [Hn Hd]%NoDup_cons.
  destruct (str_eqb k' k) eqn:E; [apply str_eqb_eq in E as ->; done|]. apply str_eqb_neq in E.
  destruct (IH Hd) as [Hd' Hk]. simpl. rewrite NoDup_cons, not_elem_of_cons. split_and!; try done.
  intros Hin. apply Hn. clear -Hin. induction l as [|[k2 v2] l IH]; simpl in *; [done|].
  destruct (str_eqb k2 k); set_solver.
Qed.

Lemma ix_get_app_last l k v : k ∉ ix_keys l -> ix_get (l ++ [(k, v)]) k = Some v.
Proof.
  induction l as [|[k' v'] l IH]; simpl; [by rewrite str_eqb_refl|]. intros [Hne Hn]%not_elem_of_cons.
  rewrite (proj2 (str_eqb_neq k' k)) by congruence. auto.
Qed.

Lemma ix_get_split l k v :
  ix_get l k = Some v -> exists a b, l = a ++ (k, v) :: b /\ ix_remove l k = a ++ b.
Proof.
  induction l as [|[k' v'] l IH]; simpl; [done|]. destruct (str_eqb k' k) eqn:E.
  - apply str_eqb_eq in E as ->. intros [= ->]. by exists [], l.
  - intros (a & b & -> & Hr)%IH. exists ((k', v') :: a), b. by rewrite Hr.
Qed.
End Entries.

(** ** The interface *)
Class IndexMap (V M : Type) := {
  im_new : M;
  im_insert : M -> str -> V -> M;
  im_shift_remove : M -> str -> option V * M;
  im_shift_remove_first : M -> option (str * V) * M;
  im_clear : M -> M;
  im_len : M -> Z;
  im_get : M -> str -> option V;
  im_entries : M -> list (str * V);
}.

Class IndexMapLaws (V M : Type) `{IndexMap V M} := {
  im_new_spec : im_entries im_new = [];
  im_insert_spec m k v : im_entries (im_insert m k v) = ix_insert (im_entries m) k v;
  im_shift_remove_spec m k :
    fst (im_shift_remove m k) = ix_get (im_entries m) k /\
    im_entries (snd (im_shift_remove m k)) = ix_remove (im_entries m) k;
  im_shift_remove_first_spec m :
    fst (im_shift_remove_first m) = head (im_entries m) /\
    im_entries (snd (im_shift_remove_first m)) = tail (im_entries m);
  im_clear_spec m : im_entries (im_clear m) = [];
  im_len_spec m : im_len m = len (im_entries m);
  im_get_spec m k : im_get m k = ix_get (im_entries m) k;
}.

(** ** The association list is such a map *)
#[export] Instance assoc_index_map (V : Type) : IndexMap V (list (str * V)) := {
  im_new := [];
  im_insert := ix_insert;
  im_shift_remove l k := (ix_get l k, ix_remove l k);
  im_shift_remove_first l := (head l, tail l);
  im_clear _ := [];
  im_len := len;
  im_get := ix_get;
  im_entries l := l;
}.

#[export] Instance assoc_index_map_laws (V : Type) : IndexMapLaws V (list (str * V)).
Proof. constructor; intros; done. Qed.
