(* ===== verification/Toml.v ===== *)
(** * TOML values and their readers (crate [wayfinder-config])

    A TOML document is read by the [toml] crate, a parameter of the model; its
    [Value] is the data the configuration is read from, with tables in the
    document's order (the [preserve_order] feature).  The readers are the
    helpers at the end of [src/gateway.rs] and of [src/lib.rs]: each takes an
    optional value and returns what it denotes or a located error. *)
From S2P Require Export Text Float64 IndexMap.

(** ** [toml::Value] *)
Inductive TomlValue :=
| TString (s : str)
| TInteger (n : Z)
| TFloat (x : f64)
| TBoolean (b : bool)
| TDatetime (text : str)
| TArray (l : list TomlValue)
| TTable (t : list (str * TomlValue)).

Definition toml_table : Type := list (str * TomlValue).

Definition as_str (v : TomlValue) : option str := match v with TString s => Some s | _ => None end.
Definition as_integer (v : TomlValue) : option Z := match v with TInteger n => Some n | _ => None end.
Definition as_array (v : TomlValue) : option (list TomlValue) := match v with TArray l => Some l | _ => None end.
Definition as_table (v : TomlValue) : option toml_table := match v with TTable t => Some t | _ => None end.

(** The type of a value: its integers are [i64]s and the keys of a table are
    distinct. *)
Definition i64_range (n : Z) : Prop := -9223372036854775808 <= n <= 9223372036854775807.

Fixpoint wf_toml (v : TomlValue) : Prop :=
  match v with
  | TInteger n => i64_range n
  | TArray l => foldr and True (map wf_toml l)
  | TTable t => NoDup (ix_keys t) /\ foldr and True (map (fun kv => wf_toml (snd kv)) t)
  | _ => True
  end.

(** [u64::try_from] of an [i64]. *)
Definition u64_try_from (n : Z) : option Z := if 0 <=? n then Some n else None.

(** ** Errors *)
Inductive ConfigError :=
| ConfigMissing (path : str)
| InvalidToml (where_ : str) (m : message)
| InvalidValue (where_ : str) (m : message)
| ConfigRead (path : str) (m : message).

Inductive PolicyLoadState := Loaded | Absent | Invalid | Unreadable.

Definition load_state (e : ConfigError) : PolicyLoadState :=
  match e with
  | ConfigMissing _ => Absent
  | ConfigRead _ _ => Unreadable
  | InvalidToml _ _ | InvalidValue _ _ => Invalid
  end.

Definition redacted (e : ConfigError) : ConfigError :=
  match e with
  | InvalidToml where_ _ => InvalidToml where_ (Msg "check TOML syntax locally (source text omitted)" [])
  | InvalidValue where_ _ =>
      InvalidValue where_
        (Msg "invalid configuration; check schema and references locally (values omitted)" [])
  | other => other
  end.

Definition invalid (where_ : str) (m : message) : ConfigError := InvalidValue where_ m.

(** An error message that names the field it is about. *)
Definition about (template : string) (label : str) : message := Msg template [ArgStr label].

(** ** Readers *)
Definition finite_number (v : TomlValue) : option f64 :=
  x ← match v with TInteger n => Some (f64_of_Z n) | TFloat x => Some x | _ => None end;
  if f64_is_finite x then Some x else None.

Definition number (v : TomlValue) : option f64 :=
  match v with TInteger n => Some (f64_of_Z n) | TFloat x => Some x | _ => None end.

(** [opt.filter(p)]. *)
Definition opt_filter {A} (p : A -> bool) (o : option A) : option A :=
  x ← o; if p x then Some x else None.

Definition nonempty_str (s : str) : bool := negb (str_eqb s []).

Section Readers.
Context (where_ : str).

Definition optional_bool (value : option TomlValue) (default : bool) (label : str) : result bool ConfigError :=
  match value with
  | None => Ok default
  | Some (TBoolean b) => Ok b
  | Some _ => Err (invalid where_ (about "'{label}' must be a boolean" label))
  end.

Definition optional_allowed_string (value : option TomlValue) (default : str) (allowed : list str) (label : str)
    : result str ConfigError :=
  match value with
  | None => Ok default
  | Some v =>
      ok_or (opt_filter (fun s => bool_decide (s ∈ allowed)) (as_str v))
        (invalid where_ (Msg "'{label}' must be one of {}" [ArgStr label; ArgStr (str_join (lit ", ") allowed)]))
  end.

Definition optional_non_negative_integer (value : option TomlValue) (default : Z) (label : str)
    : result Z ConfigError :=
  match value with
  | None => Ok default
  | Some v =>
      ok_or (as_integer v ≫= u64_try_from) (invalid where_ (about "'{label}' must be a non-negative integer" label))
  end.

Definition positive_integer (value : option TomlValue) (label : str) : result (option Z) ConfigError :=
  match value with
  | None => Ok None
  | Some v =>
      let? n := ok_or (opt_filter (fun n => 0 <? n) (as_integer v ≫= u64_try_from))
                  (invalid where_ (about "'{label}' must be a positive integer" label)) in
      Ok (Some n)
  end.

Definition optional_positive_integer (value : option TomlValue) (default : Z) (label : str) : result Z ConfigError :=
  let? n := positive_integer value label in Ok (match n with Some n => n | None => default end).

Definition optional_non_negative_number (value : option TomlValue) (default : f64) (label : str)
    : result f64 ConfigError :=
  match value with
  | None => Ok default
  | Some v =>
      ok_or (opt_filter (fun x => f64_ge x f64_zero) (finite_number v))
        (invalid where_ (about "'{label}' must be a non-negative number" label))
  end.

Definition optional_positive_number (value : option TomlValue) (default : f64) (label : str) : result f64 ConfigError :=
  match value with
  | None => Ok default
  | Some v =>
      ok_or (opt_filter (fun x => f64_gt x f64_zero) (finite_number v))
        (invalid where_ (about "'{label}' must be a positive number" label))
  end.

Definition optional_non_negative_finite_number (value : option TomlValue) (label : str)
    : result (option f64) ConfigError :=
  match value with
  | None => Ok None
  | Some v =>
      let? x := ok_or (opt_filter (fun x => f64_ge x f64_zero) (finite_number v))
                  (invalid where_ (about "'{label}' must be a non-negative number" label)) in
      Ok (Some x)
  end.

Definition required_non_empty_string (value : option TomlValue) (label : str) (expected : str)
    : result str ConfigError :=
  ok_or (opt_filter nonempty_str (value ≫= as_str))
    (invalid where_ (Msg "'{label}' must be {expected}" [ArgStr label; ArgStr expected])).

Definition optional_non_empty_string (value : option TomlValue) (label : str) : result (option str) ConfigError :=
  match value with
  | None => Ok None
  | Some v =>
      let? s := ok_or (opt_filter nonempty_str (as_str v))
                  (invalid where_ (about "'{label}' must be a non-empty string" label)) in
      Ok (Some s)
  end.

Definition optional_non_empty_string_list (value : option TomlValue) (label : str) (expected : str)
    : result (list str) ConfigError :=
  match value with
  | None => Ok []
  | Some v =>
      let e := invalid where_ (Msg "'{label}' must be {expected}" [ArgStr label; ArgStr expected]) in
      let? values := ok_or (as_array v) e in
      traverse (fun v => ok_or (opt_filter nonempty_str (as_str v)) e) values
  end.

(** A sub-table, with the error that says it must be one. *)
Definition table_of (v : TomlValue) (m : message) : result toml_table ConfigError := ok_or (as_table v) (invalid where_ m).
End Readers.

Definition valid_policy_id (value : str) : bool :=
  negb (str_eqb value []) && (str_len value <=? 128)
  && forallb (fun byte => (32 <=? byte) && (byte <=? 126)) (as_bytes value).

Definition is_ascii_hexdigit (byte : Z) : bool :=
  ((48 <=? byte) && (byte <=? 57)) || ((65 <=? byte) && (byte <=? 70)) || ((97 <=? byte) && (byte <=? 102)).

Definition is_sha256_hex (value : str) : bool := (str_len value =? 64) && forallb is_ascii_hexdigit (as_bytes value).

Definition is_python_falsey (v : TomlValue) : bool :=
  match v with
  | TString s => str_eqb s []
  | TInteger n => n =? 0
  | TFloat x => f64_eq x f64_zero
  | TBoolean b => negb b
  | TArray l => match l with [] => true | _ => false end
  | TTable t => match t with [] => true | _ => false end
  | TDatetime _ => false
  end.

(** ** What the readers accept *)
Definition opt_all {A} (P : A -> Prop) (o : option A) : Prop := from_option P True o.
Arguments opt_all : simpl never.
Definition filled (s : str) : Prop := s <> [].
Arguments filled : simpl never.
Definition positive_u64 (n : Z) : Prop := 0 < n /\ is_u64 n.
Definition finite_nonneg (x : f64) : Prop := f64_is_finite x = true /\ f64_ge x f64_zero = true.
Definition finite_pos (x : f64) : Prop := f64_is_finite x = true /\ f64_gt x f64_zero = true.

Lemma ok_or_ok {A E} (o : option A) (e : E) a : ok_or o e = Ok a <-> o = Some a.
Proof. destruct o; simpl; naive_solver. Qed.

Lemma opt_filter_some {A} (p : A -> bool) o a : opt_filter p o = Some a <-> o = Some a /\ p a = true.
Proof.
  unfold opt_filter. destruct o as [x|]; cbn [mbind option_bind]; [|by split; [|intros [? _]]].
  destruct (p x) eqn:Hp; (split; [try done; intros [= <-]; done|intros [[= <-] ?]; congruence]).
Qed.

Lemma nonempty_str_spec s : nonempty_str s = true <-> s <> [].
Proof. unfold nonempty_str. rewrite negb_true_iff. apply str_eqb_neq. Qed.

Lemma finite_number_finite v x : finite_number v = Some x -> f64_is_finite x = true.
Proof.
  unfold finite_number. destruct (match v with TInteger _ => _ | _ => _ end) as [y|]; [|done].
  cbn [mbind option_bind]. destruct (f64_is_finite y) eqn:?; [|done]. by intros [= <-].
Qed.

Lemma wf_toml_get t k v : wf_toml (TTable t) -> ix_get t k = Some v -> wf_toml v.
Proof.
  intros [_ H]. induction t as [|[k' v'] t IH]; [done|]. cbn [map foldr ix_get] in *. destruct H as [H1 H2].
  destruct (str_eqb k' k); [by intros [= <-]|by apply IH].
Qed.

Lemma wf_toml_entries t : wf_toml (TTable t) -> NoDup (ix_keys t) /\ Forall (fun kv => wf_toml kv.2) t.
Proof.
  intros [Hn H]. split; [done|]. induction t as [|[k v] t IH]; [constructor|]. cbn [map foldr] in H. destruct H as [H1 H2].
  constructor; [done|]. apply IH; [by apply NoDup_cons in Hn as [_ ?]|done].
Qed.

Lemma wf_toml_array l : wf_toml (TArray l) -> Forall wf_toml l.
Proof. cbn [wf_toml]. induction l as [|v l IH]; [constructor|]. cbn [map foldr]. intros [H1 H2]. constructor; auto. Qed.

Definition wf_opt (value : option TomlValue) : Prop := match value with Some v => wf_toml v | None => True end.

Lemma wf_opt_get t k : wf_toml (TTable t) -> wf_opt (ix_get t k).
Proof. intros H. unfold wf_opt. destruct (ix_get t k) as [v|] eqn:Hg; [|done]. by eapply wf_toml_get. Qed.

Section Accepted.
Context (where_ : str).
Implicit Types (value : option TomlValue) (label expected : str).

Lemma optional_allowed_string_ok value d allowed label s :
  optional_allowed_string where_ value d allowed label = Ok s -> d ∈ allowed -> s ∈ allowed.
Proof.
  destruct value as [v|]; cbn [optional_allowed_string]; [|by intros [= <-]].
  intros [_ H]%ok_or_ok%opt_filter_some _. by apply bool_decide_eq_true in H.
Qed.

Lemma integer_u64 v n : wf_toml v -> as_integer v ≫= u64_try_from = Some n -> is_u64 n.
Proof.
  destruct v as [|m| | | | |]; try done. cbn [wf_toml as_integer mbind option_bind]. unfold i64_range, u64_try_from.
  intros Hm. destruct (0 <=? m) eqn:E; [|done]. intros [= <-]. zify_bools. u64.
Qed.

Lemma optional_non_negative_integer_ok value d label n :
  optional_non_negative_integer where_ value d label = Ok n -> wf_opt value -> is_u64 d -> is_u64 n.
Proof.
  destruct value as [v|]; cbn [optional_non_negative_integer]; [|by intros [= <-]].
  intros H%ok_or_ok Hv _. by apply (integer_u64 v).
Qed.

Lemma positive_integer_ok value label o :
  positive_integer where_ value label = Ok o -> wf_opt value -> opt_all positive_u64 o.
Proof.
  destruct value as [v|]; cbn [positive_integer]; [|by intros [= <-]].
  intros (n & [Hn Hp]%ok_or_ok%opt_filter_some & [= <-])%result_bind_ok Hv. cbn. zify_bools.
  split; [done|]. by apply (integer_u64 v).
Qed.

Lemma optional_positive_integer_ok value d label n :
  optional_positive_integer where_ value d label = Ok n -> wf_opt value -> positive_u64 d -> positive_u64 n.
Proof.
  unfold optional_positive_integer. intros (o & Ho & Hn)%result_bind_ok Hv H1.
  pose proof (positive_integer_ok _ _ _ Ho Hv) as H. destruct o as [m|]; injection Hn as <-; [done|done].
Qed.

Lemma optional_non_negative_number_ok value d label x :
  optional_non_negative_number where_ value d label = Ok x -> finite_nonneg d -> finite_nonneg x.
Proof.
  destruct value as [v|]; cbn [optional_non_negative_number]; [|by intros [= <-]].
  intros [H1 H2]%ok_or_ok%opt_filter_some _. split; [by apply (finite_number_finite v)|done].
Qed.

Lemma optional_positive_number_ok value d label x :
  optional_positive_number where_ value d label = Ok x -> finite_pos d -> finite_pos x.
Proof.
  destruct value as [v|]; cbn [optional_positive_number]; [|by intros [= <-]].
  intros [H1 H2]%ok_or_ok%opt_filter_some _. split; [by apply (finite_number_finite v)|done].
Qed.

Lemma optional_non_negative_finite_number_ok value label o :
  optional_non_negative_finite_number where_ value label = Ok o -> opt_all finite_nonneg o.
Proof.
  destruct value as [v|]; cbn [optional_non_negative_finite_number]; [|by intros [= <-]].
  intros (x & [H1 H2]%ok_or_ok%opt_filter_some & [= <-])%result_bind_ok. split; [by apply (finite_number_finite v)|done].
Qed.

Lemma required_non_empty_string_ok value label expected s :
  required_non_empty_string where_ value label expected = Ok s -> filled s.
Proof. intros [_ H]%ok_or_ok%opt_filter_some. by apply nonempty_str_spec. Qed.

Lemma optional_non_empty_string_ok value label o :
  optional_non_empty_string where_ value label = Ok o -> opt_all filled o.
Proof.
  destruct value as [v|]; cbn [optional_non_empty_string]; [|by intros [= <-]].
  intros (s & [_ H]%ok_or_ok%opt_filter_some & [= <-])%result_bind_ok. by apply nonempty_str_spec.
Qed.

Lemma optional_non_empty_string_list_ok value label expected l :
  optional_non_empty_string_list where_ value label expected = Ok l -> Forall filled l.
Proof.
  destruct value as [v|]; cbn [optional_non_empty_string_list]; [|intros [= <-]; constructor].
  intros (values & _ & H%traverse_ok)%result_bind_ok. induction H as [|x s ? ? Hx _ IH]; constructor; [|done].
  apply ok_or_ok, opt_filter_some in Hx as [_ Hx]. by apply nonempty_str_spec.
Qed.
End Accepted.

#[export] Hint Resolve wf_opt_get : toml.
#[export] Hint Resolve optional_allowed_string_ok optional_non_negative_integer_ok positive_integer_ok
  optional_positive_integer_ok optional_non_negative_number_ok optional_positive_number_ok
  optional_non_negative_finite_number_ok required_non_empty_string_ok optional_non_empty_string_ok
  optional_non_empty_string_list_ok : toml.

(** ** Maps read entry by entry

    [for (id, value) in table { ...; map.insert(id.clone(), ...) }]. *)
Definition parse_entries {A} (parse : str -> TomlValue -> result A ConfigError) (t : toml_table)
    : result (list (str * A)) ConfigError :=
  try_fold (fun entries '(id, value) => let? a := parse id value in Ok (ix_insert entries id a)) [] t.

Lemma parse_entries_from {A} (parse : str -> TomlValue -> result A ConfigError) t acc l :
  NoDup (ix_keys (V := TomlValue) t) -> (forall k, k ∈ ix_keys t -> k ∉ ix_keys acc) ->
  try_fold (fun entries '(id, value) => let? a := parse id value in Ok (ix_insert entries id a)) acc t = Ok l <->
  exists l', l = acc ++ l' /\ Forall2 (fun kv ka => ka.1 = kv.1 /\ parse kv.1 kv.2 = Ok ka.2) t l'.
Proof.
  revert acc. induction t as [|[k v] t IH]; intros acc Hn Hd; cbn [try_fold].
  { split; [intros [= <-]; exists []; by rewrite app_nil_r|]. intros (l' & -> & ->%Forall2_nil_inv_l). by rewrite app_nil_r. }
  apply NoDup_cons in Hn as [Hk Hn]. rewrite result_bind_ok.
  assert (forall a, ix_insert acc k a = acc ++ [(k, a)]) as Hi by (intros a; apply ix_insert_new, Hd; left).
  assert (forall a k', k' ∈ ix_keys t -> k' ∉ ix_keys (acc ++ [(k, a)])) as Hd'.
  { intros a k' Hk'. unfold ix_keys. rewrite map_app, not_elem_of_app. split; [by apply Hd; right|].
    cbn [map fst]. intros ->%list_elem_of_singleton. by apply Hk. }
  split.
  - intros (acc' & (a & Ha & [= <-])%result_bind_ok & H). rewrite Hi in H. apply IH in H as (l' & -> & HF); [|done|by apply Hd'].
    exists ((k, a) :: l'). rewrite <- app_assoc. split; [done|]. by constructor.
  - intros (l' & -> & HF). apply Forall2_cons_inv_l in HF as ([k' a] & l2 & [Hk' Ha] & HF & ->). cbn in Hk', Ha. subst k'.
    exists (ix_insert acc k a). split; [by rewrite Ha|]. rewrite Hi. apply IH; [done|by apply Hd'|]. exists l2.
    by rewrite <- app_assoc.
Qed.

(** The map has the table's keys, in its order, each with its parsed value. *)
Lemma parse_entries_ok {A} (parse : str -> TomlValue -> result A ConfigError) t l :
  NoDup (ix_keys (V := TomlValue) t) ->
  parse_entries parse t = Ok l <-> Forall2 (fun kv ka => ka.1 = kv.1 /\ parse kv.1 kv.2 = Ok ka.2) t l.
Proof.
  intros Hn. unfold parse_entries. rewrite (parse_entries_from _ _ [] l Hn) by (intros; by apply not_elem_of_nil).
  split; [intros (l' & -> & H); done|]. by exists l.
Qed.

Lemma parse_entries_Forall {A} (parse : str -> TomlValue -> result A ConfigError) t l (P : str * A -> Prop) :
  wf_toml (TTable t) -> parse_entries parse t = Ok l ->
  (forall k v a, wf_toml v -> parse k v = Ok a -> P (k, a)) ->
  NoDup (ix_keys l) /\ Forall P l.
Proof.
  intros [Hn Hv]%wf_toml_entries H HP. apply parse_entries_ok in H; [|done].
  assert (ix_keys l = ix_keys t) as ->.
  { clear -H. induction H as [|[k v] [k' a] ? ? [Hk _] _ IH]; [done|]. cbn in *. by f_equal. }
  split; [done|]. clear Hn. induction H as [|[k v] [k' a] t l [Hk Ha] _ IH]; [constructor|]. cbn in Hk, Ha. subst k'.
  apply Forall_cons in Hv as [Hv1 Hv2]. constructor; [by apply (HP k v)|by apply IH].
Qed.
