(* ===== verification/Admission.v ===== *)
(** * Delivery admission (crate [wayfinder-gateway], [src/admission.rs])

    At most [max_in_flight] deliveries at a time, at most [max_queued] requests
    waiting for one of them, each for a bounded time.  [acquire] is a future:
    its suspension points are the steps of a request here, interleaved with
    those of the others.  The semaphore belongs to [tokio] and is a class. *)
From S2P Require Export Prelude.

(** ** Semaphores (interface to [tokio::sync::Semaphore])

    Permits and a first-in first-out queue of waiting tasks. *)
Class Semaphore (S : Type) := {
  sem_new : Z -> S;
  available_permits : S -> Z;
  waiters : S -> list nat;
  (** [try_acquire_owned] *)
  sem_try_acquire : S -> option S;
  (** the first poll of [acquire_owned] by a task: whether it got a permit *)
  sem_enroll : S -> nat -> S * bool;
  (** the drop of a permit: the task it wakes with that permit *)
  sem_release : S -> S * option nat;
  (** the drop of an [acquire_owned] that still waits *)
  sem_forget : S -> nat -> S;
}.

(** The first occurrence of a task is taken out. *)
Fixpoint remove_task (p : nat) (l : list nat) : option (list nat) :=
  match l with
  | [] => None
  | q :: l => if Nat.eqb q p then Some l else cons q <$> remove_task p l
  end.

Class SemaphoreLaws (S : Type) `{Semaphore S} := {
  sem_new_spec n : 0 <= n -> available_permits (sem_new n) = n /\ waiters (sem_new n) = [];
  sem_try_acquire_spec s :
    match sem_try_acquire s with
    | Some s' => 0 < available_permits s /\ available_permits s' = available_permits s - 1 /\ waiters s' = waiters s
    | None => available_permits s <= 0
    end;
  sem_enroll_spec s p :
    let '(s', granted) := sem_enroll s p in
    if granted then 0 < available_permits s /\ available_permits s' = available_permits s - 1 /\ waiters s' = waiters s
    else available_permits s <= 0 /\ available_permits s' = available_permits s /\ waiters s' = waiters s ++ [p];
  sem_release_spec s :
    let '(s', woken) := sem_release s in
    match waiters s with
    | p :: rest => woken = Some p /\ available_permits s' = available_permits s /\ waiters s' = rest
    | [] => woken = None /\ available_permits s' = available_permits s + 1 /\ waiters s' = []
    end;
  sem_forget_spec s p :
    available_permits (sem_forget s p) = available_permits s /\
    waiters (sem_forget s p) = default (waiters s) (remove_task p (waiters s));
}.

(** The instance for closed examples. *)
#[export] Instance counting_semaphore : Semaphore (Z * list nat) := {
  sem_new n := (n, []);
  available_permits := fst;
  waiters := snd;
  sem_try_acquire s := if 0 <? s.1 then Some (s.1 - 1, s.2) else None;
  sem_enroll s p := if 0 <? s.1 then ((s.1 - 1, s.2), true) else ((s.1, s.2 ++ [p]), false);
  sem_release s := match s.2 with p :: rest => ((s.1, rest), Some p) | [] => ((s.1 + 1, []), None) end;
  sem_forget s p := (s.1, default s.2 (remove_task p s.2));
}.

#[export] Instance counting_semaphore_laws : SemaphoreLaws (Z * list nat).
Proof.
  constructor; simpl; try done.
  - intros [n l]. simpl. destruct (0 <? n) eqn:E; zify_bools; simpl; auto.
  - intros [n l] p. simpl. destruct (0 <? n) eqn:E; zify_bools; simpl; auto.
  - intros [n [|q l]]; simpl; auto.
Qed.

(** ** The policy *)
Definition DEFAULT_QUEUE_TIMEOUT_SECS : Z := 2.

Inductive AdmissionError :=
| InvalidInFlightLimit | InvalidQueueLimit | InvalidQueueTimeout | QueueFull | QueueTimedOut | AdmissionUnavailable
| SharedLimit.

Section Admission.
Context {S : Type} `{Semaphore S}.
(** [Semaphore::MAX_PERMITS]. *)
Context (MAX_PERMITS : Z).

Record AdmissionPolicy := {
  in_flight_sem : S;
  queue_sem : S;
  p_max_in_flight : Z;
  p_max_queued : Z;
  p_queue_timeout_nanos : Z;
}.

Definition AdmissionPolicy_new (max_in_flight max_queued queue_timeout_nanos : Z)
    : result AdmissionPolicy AdmissionError :=
  if (max_in_flight =? 0) || (MAX_PERMITS <? max_in_flight) then Err InvalidInFlightLimit
  else if MAX_PERMITS <? max_queued then Err InvalidQueueLimit
  else if (0 <? max_queued) && (queue_timeout_nanos =? 0) then Err InvalidQueueTimeout
  else Ok {| in_flight_sem := sem_new max_in_flight; queue_sem := sem_new max_queued;
             p_max_in_flight := max_in_flight; p_max_queued := max_queued;
             p_queue_timeout_nanos := queue_timeout_nanos |}.

Definition default_admission : AdmissionPolicy :=
  {| in_flight_sem := sem_new 32; queue_sem := sem_new 64; p_max_in_flight := 32; p_max_queued := 64;
     p_queue_timeout_nanos := DEFAULT_QUEUE_TIMEOUT_SECS * 10 ^ 9 |}.

Definition set_in_flight (p : AdmissionPolicy) (s : S) : AdmissionPolicy :=
  {| in_flight_sem := s; queue_sem := queue_sem p; p_max_in_flight := p_max_in_flight p;
     p_max_queued := p_max_queued p; p_queue_timeout_nanos := p_queue_timeout_nanos p |}.
Definition set_queue (p : AdmissionPolicy) (s : S) : AdmissionPolicy :=
  {| in_flight_sem := in_flight_sem p; queue_sem := s; p_max_in_flight := p_max_in_flight p;
     p_max_queued := p_max_queued p; p_queue_timeout_nanos := p_queue_timeout_nanos p |}.

(** [in_flight()] and [queued()]. *)
Definition in_flight (p : AdmissionPolicy) : Z := u64_sat_sub (p_max_in_flight p) (available_permits (in_flight_sem p)).
Definition queued (p : AdmissionPolicy) : Z := u64_sat_sub (p_max_queued p) (available_permits (queue_sem p)).

(** ** Requests

    Where each request is in [acquire]: it took a queue permit and is not yet on
    the semaphore's list ([queueing]; the runtime may yield at the first poll),
    it waits on the semaphore (the semaphore knows), it was woken with a permit
    and still holds its place in the queue ([granted]), it holds an
    [AdmissionPermit] ([holding]). *)
Record Gate := {
  g_policy : AdmissionPolicy;
  queueing : list nat;
  granted : list nat;
  holding : list nat;
}.

Definition gate (p : AdmissionPolicy) : Gate := {| g_policy := p; queueing := []; granted := []; holding := [] |}.

Inductive event :=
| Start (p : nat)      (* the call, up to the wait *)
| Enroll (p : nat)     (* the first poll of the wait *)
| Resume (p : nat)     (* the poll after the wake-up *)
| TimeOut (p : nat)    (* the deadline passes while it waits *)
| Cancel (p : nat)     (* the future is dropped *)
| Finish (p : nat).    (* the permit is dropped *)

(** What a step returns to its caller. *)
Inductive answer := Pending | Entered | Refused (e : AdmissionError) | Done.

(** [drop(queue_permit)]: nobody waits on the queue semaphore. *)
Definition leave_queue (p : AdmissionPolicy) : AdmissionPolicy := set_queue p (fst (sem_release (queue_sem p))).

(** The drop of an in-flight permit hands it to the first waiter. *)
Definition release_permit (g : Gate) : Gate :=
  let '(s, woken) := sem_release (in_flight_sem (g_policy g)) in
  {| g_policy := set_in_flight (g_policy g) s; queueing := queueing g;
     granted := match woken with Some p => granted g ++ [p] | None => granted g end; holding := holding g |}.

Definition step (g : Gate) (e : event) : option (Gate * answer) :=
  let pol := g_policy g in
  match e with
  | Start p =>
      Some match sem_try_acquire (in_flight_sem pol) with
           | Some s => ({| g_policy := set_in_flight pol s; queueing := queueing g; granted := granted g;
                           holding := holding g ++ [p] |}, Entered)
           | None =>
               match sem_try_acquire (queue_sem pol) with
               | None => (g, Refused QueueFull)
               | Some s => ({| g_policy := set_queue pol s; queueing := queueing g ++ [p]; granted := granted g;
                               holding := holding g |}, Pending)
               end
           end
  | Enroll p =>
      rest ← remove_task p (queueing g);
      let '(s, got) := sem_enroll (in_flight_sem pol) p in
      Some ({| g_policy := set_in_flight pol s; queueing := rest;
               granted := if got then granted g ++ [p] else granted g; holding := holding g |}, Pending)
  | Resume p =>
      rest ← remove_task p (granted g);
      Some ({| g_policy := leave_queue pol; queueing := queueing g; granted := rest; holding := holding g ++ [p] |},
            Entered)
  | TimeOut p =>
      match remove_task p (waiters (in_flight_sem pol)), remove_task p (queueing g) with
      | Some _, _ =>
          Some ({| g_policy := leave_queue (set_in_flight pol (sem_forget (in_flight_sem pol) p));
                   queueing := queueing g; granted := granted g; holding := holding g |}, Refused QueueTimedOut)
      | None, Some rest =>
          Some ({| g_policy := leave_queue pol; queueing := rest; granted := granted g; holding := holding g |},
                Refused QueueTimedOut)
      | None, None => None
      end
  | Cancel p =>
      match remove_task p (waiters (in_flight_sem pol)), remove_task p (granted g), remove_task p (queueing g) with
      | Some _, _, _ =>
          Some ({| g_policy := leave_queue (set_in_flight pol (sem_forget (in_flight_sem pol) p));
                   queueing := queueing g; granted := granted g; holding := holding g |}, Done)
      | None, Some rest, _ =>
          Some (release_permit {| g_policy := leave_queue pol; queueing := queueing g; granted := rest;
                                  holding := holding g |}, Done)
      | None, None, Some rest =>
          Some ({| g_policy := leave_queue pol; queueing := rest; granted := granted g; holding := holding g |}, Done)
      | None, None, None => None
      end
  | Finish p =>
      rest ← remove_task p (holding g);
      Some (release_permit {| g_policy := pol; queueing := queueing g; granted := granted g; holding := rest |}, Done)
  end.

(** The states of a gate that starts with nobody in it. *)
Inductive reachable (p : AdmissionPolicy) : Gate -> Prop :=
| reach_start : reachable p (gate p)
| reach_step g e g' a : reachable p g -> step g e = Some (g', a) -> reachable p g'.

(** ** The invariant *)
Record gate_inv (max_in max_q : Z) (g : Gate) : Prop := {
  gi_limits : p_max_in_flight (g_policy g) = max_in /\ p_max_queued (g_policy g) = max_q;
  gi_in_flight : available_permits (in_flight_sem (g_policy g)) + len (granted g) + len (holding g) = max_in;
  gi_queue : available_permits (queue_sem (g_policy g)) + len (queueing g) + len (waiters (in_flight_sem (g_policy g)))
             + len (granted g) = max_q;
  gi_available : 0 <= available_permits (in_flight_sem (g_policy g)) /\ 0 <= available_permits (queue_sem (g_policy g));
  gi_busy : waiters (in_flight_sem (g_policy g)) <> [] -> available_permits (in_flight_sem (g_policy g)) = 0;
  gi_nobody : waiters (queue_sem (g_policy g)) = [];
}.

Lemma remove_task_len p l l' : remove_task p l = Some l' -> len l = len l' + 1.
Proof.
  revert l'. induction l as [|q l IH]; intros l'; cbn [remove_task]; [done|].
  destruct (Nat.eqb q p); [intros [= <-]; by rewrite len_cons|].
  destruct (remove_task p l) as [l0|]; [|done]. cbn [fmap option_fmap option_map]. intros [= <-].
  rewrite !len_cons, (IH l0 eq_refl). lia.
Qed.

Context `{!SemaphoreLaws S}.

Lemma leave_queue_spec p :
  waiters (queue_sem p) = [] ->
  waiters (queue_sem (leave_queue p)) = [] /\
  available_permits (queue_sem (leave_queue p)) = available_permits (queue_sem p) + 1 /\
  in_flight_sem (leave_queue p) = in_flight_sem p /\ p_max_in_flight (leave_queue p) = p_max_in_flight p /\
  p_max_queued (leave_queue p) = p_max_queued p.
Proof.
  intros Hw. unfold leave_queue. pose proof (sem_release_spec (queue_sem p)) as Hr. rewrite Hw in Hr.
  destruct (sem_release (queue_sem p)) as [s woken]. cbn. naive_solver.
Qed.

(** Releasing a permit keeps the invariant when one too many was counted. *)
Lemma release_permit_inv max_in max_q g :
  p_max_in_flight (g_policy g) = max_in -> p_max_queued (g_policy g) = max_q ->
  available_permits (in_flight_sem (g_policy g)) + len (granted g) + len (holding g) = max_in - 1 ->
  available_permits (queue_sem (g_policy g)) + len (queueing g) + len (waiters (in_flight_sem (g_policy g)))
    + len (granted g) = max_q ->
  0 <= available_permits (in_flight_sem (g_policy g)) -> 0 <= available_permits (queue_sem (g_policy g)) ->
  (waiters (in_flight_sem (g_policy g)) <> [] -> available_permits (in_flight_sem (g_policy g)) = 0) ->
  waiters (queue_sem (g_policy g)) = [] -> gate_inv max_in max_q (release_permit g).
Proof.
  intros H1 H2 H3 H4 H5 H6 H7 H8. unfold release_permit. pose proof (sem_release_spec (in_flight_sem (g_policy g))) as Hr.
  destruct (sem_release (in_flight_sem (g_policy g))) as [s woken].
  destruct (waiters (in_flight_sem (g_policy g))) as [|p rest] eqn:Hw; destruct Hr as (-> & Ha & Hw');
    constructor; cbn [g_policy set_in_flight in_flight_sem queue_sem granted holding queueing p_max_in_flight p_max_queued];
    rewrite ?len_app, ?len_cons, ?len_nil, ?Hw', ?Ha in *; try done; try lia.
  intros _. by apply H7.
Qed.

(** A waiter that gives up leaves the semaphore and the queue. *)
Lemma forget_inv max_in max_q g p rest :
  gate_inv max_in max_q g -> remove_task p (waiters (in_flight_sem (g_policy g))) = Some rest ->
  gate_inv max_in max_q
    {| g_policy := leave_queue (set_in_flight (g_policy g) (sem_forget (in_flight_sem (g_policy g)) p));
       queueing := queueing g; granted := granted g; holding := holding g |}.
Proof.
  intros [[L1 L2] Hin Hq [Ha1 Ha2] Hbusy Hnb] Hr. pose proof (remove_task_len _ _ _ Hr) as Hlen.
  destruct (sem_forget_spec (in_flight_sem (g_policy g)) p) as [F1 F2]. rewrite Hr in F2. cbn [default] in F2. unfold id in F2.
  set (pol := set_in_flight (g_policy g) (sem_forget (in_flight_sem (g_policy g)) p)).
  destruct (leave_queue_spec pol Hnb) as (E1 & E2 & E3 & E4 & E5).
  constructor; cbn [g_policy granted holding queueing]; rewrite ?E1, ?E2, ?E3, ?E4, ?E5;
    cbn [pol set_in_flight in_flight_sem queue_sem p_max_in_flight p_max_queued]; rewrite ?F1, ?F2; try done; try lia.
  intros _. apply Hbusy. intros Hnil. rewrite Hnil in Hr. done.
Qed.

(** So does a request whose wait has not started. *)
Lemma give_up_queueing_inv max_in max_q g p rest :
  gate_inv max_in max_q g -> remove_task p (queueing g) = Some rest ->
  gate_inv max_in max_q {| g_policy := leave_queue (g_policy g); queueing := rest; granted := granted g; holding := holding g |}.
Proof.
  intros [[L1 L2] Hin Hq [Ha1 Ha2] Hbusy Hnb] Hr. apply remove_task_len in Hr.
  destruct (leave_queue_spec (g_policy g) Hnb) as (E1 & E2 & E3 & E4 & E5).
  constructor; cbn [g_policy granted holding queueing]; rewrite ?E1, ?E2, ?E3, ?E4, ?E5; try done; lia.
Qed.

Lemma step_inv max_in max_q g e g' a : gate_inv max_in max_q g -> step g e = Some (g', a) -> gate_inv max_in max_q g'.
Proof.
  intros [[L1 L2] Hin Hq [Ha1 Ha2] Hbusy Hnb]. destruct e as [p|p|p|p|p|p]; cbn [step].
  - pose proof (sem_try_acquire_spec (in_flight_sem (g_policy g))) as Ht.
    destruct (sem_try_acquire (in_flight_sem (g_policy g))) as [s|].
    { destruct Ht as (? & Hs & Hw). intros [= <- <-]. constructor; cbn; rewrite ?len_app, ?len_cons, ?len_nil, ?Hw, ?Hs; try done; try lia.
      intros Hne. specialize (Hbusy Hne). lia. }
    pose proof (sem_try_acquire_spec (queue_sem (g_policy g))) as Ht'.
    destruct (sem_try_acquire (queue_sem (g_policy g))) as [s|]; intros [= <- <-]; [|by constructor].
    destruct Ht' as (? & Hs & Hw). constructor; cbn; rewrite ?len_app, ?len_cons, ?len_nil, ?Hw, ?Hs; try done; lia.
  - destruct (remove_task p (queueing g)) as [rest|] eqn:Hr; [|done]. cbn [mbind option_bind]. apply remove_task_len in Hr.
    pose proof (sem_enroll_spec (in_flight_sem (g_policy g)) p) as Ht.
    destruct (sem_enroll (in_flight_sem (g_policy g)) p) as [s []]; destruct Ht as (? & Hs & Hw); intros [= <- <-];
      constructor; cbn; rewrite ?len_app, ?len_cons, ?len_nil, ?Hw, ?Hs, ?len_app, ?len_cons, ?len_nil; try done; try lia.
    intros Hne. specialize (Hbusy Hne). lia.
  - destruct (remove_task p (granted g)) as [rest|] eqn:Hr; [|done]. cbn [mbind option_bind]. apply remove_task_len in Hr.
    destruct (leave_queue_spec (g_policy g) Hnb) as (E1 & E2 & E3 & E4 & E5). intros [= <- <-].
    constructor; cbn [g_policy granted holding queueing]; rewrite ?E1, ?E2, ?E3, ?E4, ?E5, ?len_app, ?len_cons, ?len_nil; try done; lia.
  - destruct (remove_task p (waiters (in_flight_sem (g_policy g)))) as [rest|] eqn:Hr.
    { intros [= <- <-]. by apply (forget_inv max_in max_q g p rest). }
    destruct (remove_task p (queueing g)) as [rest|] eqn:Hg; [|done]. intros [= <- <-]. by apply (give_up_queueing_inv _ _ g p).
  - destruct (remove_task p (waiters (in_flight_sem (g_policy g)))) as [rest|] eqn:Hr.
    { intros [= <- <-]. by apply (forget_inv max_in max_q g p rest). }
    destruct (remove_task p (granted g)) as [rest|] eqn:Hg.
    + apply remove_task_len in Hg.
      destruct (leave_queue_spec (g_policy g) Hnb) as (E1 & E2 & E3 & E4 & E5). intros [= <- <-].
      apply release_permit_inv; cbn [g_policy granted holding queueing]; rewrite ?E1, ?E2, ?E3, ?E4, ?E5; try done; lia.
    + destruct (remove_task p (queueing g)) as [rest|] eqn:Hq'; [|done]. intros [= <- <-].
      by apply (give_up_queueing_inv _ _ g p).
  - destruct (remove_task p (holding g)) as [rest|] eqn:Hr; [|done]. cbn [mbind option_bind]. apply remove_task_len in Hr.
    intros [= <- <-]. apply release_permit_inv; cbn [g_policy granted holding queueing]; try done; lia.
Qed.

Lemma gate_start_inv max_in max_q timeout p :
  0 <= max_in -> 0 <= max_q -> AdmissionPolicy_new max_in max_q timeout = Ok p -> gate_inv max_in max_q (gate p).
Proof.
  intros Hm Hq. unfold AdmissionPolicy_new. repeat case_match; try done. intros [= <-].
  destruct (sem_new_spec max_in Hm) as [A1 A2], (sem_new_spec max_q Hq) as [B1 B2].
  constructor; cbn; rewrite ?A1, ?A2, ?B1, ?B2, ?len_nil; try done; lia.
Qed.

Lemma reachable_inv max_in max_q p g : gate_inv max_in max_q (gate p) -> reachable p g -> gate_inv max_in max_q g.
Proof. intros H0. induction 1 as [|g e g' a _ IH Hs]; [done|]. by apply (step_inv _ _ g e g' a). Qed.

Lemma gate_inv_counts max_in max_q g :
  gate_inv max_in max_q g ->
  in_flight (g_policy g) = len (granted g) + len (holding g) /\
  queued (g_policy g) = len (queueing g) + len (waiters (in_flight_sem (g_policy g))) + len (granted g).
Proof.
  intros [[L1 L2] Hin Hq [Ha1 Ha2] Hbusy Hnb]. unfold in_flight, queued, u64_sat_sub. rewrite L1, L2.
  pose proof (len_nonneg (granted g)). pose proof (len_nonneg (holding g)). pose proof (len_nonneg (queueing g)).
  pose proof (len_nonneg (waiters (in_flight_sem (g_policy g)))). lia.
Qed.

(** C35: Whatever the interleaving of arrivals, wake-ups, deadlines, dropped
    futures and dropped permits, no more than [max_in_flight] deliveries hold a
    permit and no more than [max_queued] requests wait, the two gauges
    [in_flight()] and [queued()] count exactly those requests, and nobody waits
    while a permit is free. *)
Theorem admission_bounded max_in max_q timeout p g :
  0 <= max_in -> 0 <= max_q -> AdmissionPolicy_new max_in max_q timeout = Ok p -> reachable p g ->
  in_flight (g_policy g) = len (granted g) + len (holding g) /\ in_flight (g_policy g) <= max_in /\
  queued (g_policy g) = len (queueing g) + len (waiters (in_flight_sem (g_policy g))) + len (granted g) /\
  queued (g_policy g) <= max_q /\
  (waiters (in_flight_sem (g_policy g)) <> [] -> in_flight (g_policy g) = max_in).
Proof.
  intros Hm Hq Hp Hr. pose proof (reachable_inv _ _ _ _ (gate_start_inv _ _ _ _ Hm Hq Hp) Hr) as Hi.
  destruct (gate_inv_counts _ _ _ Hi) as [-> ->]. destruct Hi as [[L1 L2] Hin Hqs [Ha1 Ha2] Hbusy Hnb].
  repeat split; try lia. intros Hne. specialize (Hbusy Hne). lia.
Qed.

(** A request that arrives is admitted at once exactly when fewer than
    [max_in_flight] permits are out, else it waits exactly when fewer than
    [max_queued] requests wait, else it is refused with [QueueFull] and nothing
    changes; a permit that is given back goes to the request that has waited
    longest, never back to the pool. *)
Theorem admission_decision max_in max_q timeout p g q :
  0 <= max_in -> 0 <= max_q -> AdmissionPolicy_new max_in max_q timeout = Ok p -> reachable p g ->
  (exists g', step g (Start q) = Some (g', if in_flight (g_policy g) <? max_in then Entered
                                          else if queued (g_policy g) <? max_q then Pending else Refused QueueFull) /\
    (in_flight (g_policy g) = max_in -> queued (g_policy g) = max_q -> g' = g)) /\
  (forall w ws g' a, waiters (in_flight_sem (g_policy g)) = w :: ws -> step g (Finish q) = Some (g', a) ->
     granted g' = granted g ++ [w] /\ waiters (in_flight_sem (g_policy g')) = ws /\
    in_flight (g_policy g') = in_flight (g_policy g)).
Proof.
  intros Hm Hq Hp Hr. pose proof (reachable_inv _ _ _ _ (gate_start_inv _ _ _ _ Hm Hq Hp) Hr) as Hi. split.
  - pose proof Hi as [[L1 L2] Hin Hqs [Ha1 Ha2] Hbusy Hnb]. unfold in_flight, queued, u64_sat_sub. rewrite L1, L2. cbn [step].
    pose proof (len_nonneg (granted g)). pose proof (len_nonneg (holding g)). pose proof (len_nonneg (queueing g)).
    pose proof (len_nonneg (waiters (in_flight_sem (g_policy g)))).
    pose proof (sem_try_acquire_spec (in_flight_sem (g_policy g))) as Ht.
    destruct (sem_try_acquire (in_flight_sem (g_policy g))) as [s|].
    { eexists. split; [|intros; lia]. rewrite (proj2 (Z.ltb_lt _ _)); [done|lia]. }
    rewrite (proj2 (Z.ltb_ge _ max_in)) by lia. pose proof (sem_try_acquire_spec (queue_sem (g_policy g))) as Ht'.
    destruct (sem_try_acquire (queue_sem (g_policy g))) as [s|].
    + eexists. split; [|intros; lia]. rewrite (proj2 (Z.ltb_lt _ _)); [done|lia].
    + eexists. split; [|done]. rewrite (proj2 (Z.ltb_ge _ max_q)); [done|lia].
  - intros w ws g' a Hw Hs. destruct (gate_inv_counts _ _ _ Hi) as [-> _].
    pose proof (step_inv _ _ _ _ _ _ Hi Hs) as Hi'. destruct (gate_inv_counts _ _ _ Hi') as [-> _].
    cbn [step] in Hs. destruct (remove_task q (holding g)) as [rest|] eqn:Hq'; [|done].
    cbn [mbind option_bind] in Hs. apply remove_task_len in Hq'. unfold release_permit in Hs. cbn [g_policy] in Hs.
    pose proof (sem_release_spec (in_flight_sem (g_policy g))) as Hrel. rewrite Hw in Hrel.
    destruct (sem_release (in_flight_sem (g_policy g))) as [s woken]. destruct Hrel as (-> & Ha & Hws).
    injection Hs as <- <-. cbn. rewrite len_app, len_cons, len_nil. split_and!; [done..|lia].
Qed.
End Admission.

(** One permit, one place in the queue: the second request waits, the third is
    refused, and the permit passes to the second. *)
Definition one_one : AdmissionPolicy :=
  {| in_flight_sem := sem_new 1; queue_sem := sem_new 1; p_max_in_flight := 1; p_max_queued := 1;
     p_queue_timeout_nanos := 10 ^ 9 |}.

Fixpoint run_gate (g : Gate) (es : list event) : option (Gate * list answer) :=
  match es with
  | [] => Some (g, [])
  | e :: es => '(g, a) ← step g e; '(g, l) ← run_gate g es; Some (g, a :: l)
  end.

Lemma run_gate_reachable p g es g' l : reachable p g -> run_gate g es = Some (g', l) -> reachable p g'.
Proof.
  revert g l. induction es as [|e es IH]; intros g l Hg; cbn [run_gate]; [by intros [= <- <-]|].
  destruct (step g e) as [[g1 a]|] eqn:Hs; [|done]. cbn [mbind option_bind].
  destruct (run_gate g1 es) as [[g2 l2]|] eqn:Hr; [|done]. cbn [mbind option_bind]. intros [= <- <-].
  apply (IH g1 l2); [|done]. by apply (reach_step _ g e g1 a).
Qed.

Definition busy_gate : Gate := from_option fst (gate one_one) (run_gate (gate one_one) [Start 1; Start 2; Enroll 2]%nat).

Example admission_queue_story :
  snd <$> run_gate (gate one_one) [Start 1; Start 2; Enroll 2; Start 3; Finish 1; Resume 2; Finish 2]%nat
  = Some [Entered; Pending; Pending; Refused QueueFull; Done; Entered; Done].
Proof. vm_compute. reflexivity. Qed.

Example busy_gate_reachable : reachable one_one busy_gate.
Proof. apply (run_gate_reachable _ (gate one_one) [Start 1; Start 2; Enroll 2]%nat _ [Entered; Pending; Pending]); [constructor|reflexivity]. Qed.

Example admission_bounded_witness :
  AdmissionPolicy_new (2 ^ 61 - 1) 1 1 (10 ^ 9) = Ok one_one /\ in_flight (g_policy busy_gate) <= 1.
Proof.
  split; [reflexivity|].
  apply (admission_bounded (2 ^ 61 - 1) 1 1 (10 ^ 9) one_one busy_gate); [lia|lia|reflexivity|apply busy_gate_reachable].
Defined.

Example admission_decision_witness :
  exists g', step busy_gate (Start 3%nat) = Some (g', Refused QueueFull) /\ g' = busy_gate.
Proof.
  destruct (admission_decision (2 ^ 61 - 1) 1 1 (10 ^ 9) one_one busy_gate 3%nat) as [(g' & Hs & Hsame) _];
    [lia|lia|reflexivity|apply busy_gate_reachable|].
  exists g'. split; [exact Hs|apply Hsame; reflexivity].
Defined.
