(* ===== verification/Contracts.v ===== *)
(** * Runtime contracts (crate [wayfinder-runtime-contracts])

    The secret-free value types shared by every routing host, and the privacy
    ladder. *)
From S2P Require Export Prelude Float64.

Definition RUNTIME_CONTRACT_VERSION : Z := 1.

(** Where prompt content is executed. *)
Inductive ExecutionBoundary := OnDevice | LocalNetwork | Hosted.

(** User-selected maximum content boundary. *)
Inductive PrivacyPosture := OnDeviceOnly | LocalDevices | HostedAllowed.

Definition permits (posture : PrivacyPosture) (boundary : ExecutionBoundary) : bool :=
  match posture with
  | OnDeviceOnly => match boundary with OnDevice => true | _ => false end
  | LocalDevices => match boundary with OnDevice | LocalNetwork => true | Hosted => false end
  | HostedAllowed => true
  end.

Inductive ProviderReadiness :=
| Checking | SignedOut | Authorizing | Ready | ReauthenticationRequired | UsageLimited
| ModelUnavailable | NetworkUnavailable | UnsupportedPlatform | Unavailable | Failed.

Inductive BillingClass :=
| BillingOnDevice | BillingSubscription | BillingApiMetered | BillingUnknown.

Inductive InferenceSurface :=
| SurfaceText | SurfaceEmbeddings | SurfaceImageGeneration | SurfaceAudio | SurfaceBatch.

Record ModalityCapabilities := {
  embeddings : bool;
  image_generation : bool;
  audio_input : bool;
  audio_output : bool;
  batch : bool;
}.

Record DestinationCapabilities := {
  cap_text : bool;
  cap_streaming : bool;
  cap_image_input : bool;
  cap_tools : bool;
  modalities : ModalityCapabilities;
}.

(** A host-provided snapshot of one concrete destination. *)
Record DestinationSnapshot := {
  ds_id : str;
  ds_provider_id : str;
  ds_model_id : str;
  ds_display_name : str;
  ds_route_tier : str;
  ds_execution_boundary : ExecutionBoundary;
  ds_readiness : ProviderReadiness;
  ds_billing_class : BillingClass;
  ds_context_window : option Z;
  ds_capabilities : DestinationCapabilities;
  ds_automatic_eligible : bool;
}.

Record RoutingRequirements := {
  context_tokens : option Z;
  req_image_input : bool;
  req_tools : bool;
  req_streaming : bool;
  surface : InferenceSurface;
}.

Record RoutingRequest := {
  rq_schema_version : Z;
  rq_request_id : str;
  rq_prompt : str;
  rq_privacy_posture : PrivacyPosture;
  rq_requirements : RoutingRequirements;
}.

Inductive ExclusionReason :=
| ProviderNotReady | PrivacyBoundaryDenied | TextUnsupported | ContextWindowUnknown
| ContextWindowTooSmall | ImageInputUnsupported | ToolsUnsupported | StreamingUnsupported
| EmbeddingsUnsupported | ImageGenerationUnsupported | AudioUnsupported | BatchUnsupported
| AutomaticNotAllowed.

Record CandidateAssessment := {
  ca_destination_id : str;
  ca_exclusions : list ExclusionReason;
}.

Definition is_eligible (a : CandidateAssessment) : bool :=
  match ca_exclusions a with [] => true | _ => false end.

Record RoutePlan := {
  rp_schema_version : Z;
  rp_request_id : str;
  rp_score : f64;
  rp_recommendation : str;
  rp_selected_destination_id : option str;
  rp_fallback_destination_ids : list str;
  rp_candidates : list CandidateAssessment;
}.

#[export] Instance ExecutionBoundary_eq_dec : EqDecision ExecutionBoundary.
Proof. solve_decision. Defined.
#[export] Instance PrivacyPosture_eq_dec : EqDecision PrivacyPosture.
Proof. solve_decision. Defined.
#[export] Instance ProviderReadiness_eq_dec : EqDecision ProviderReadiness.
Proof. solve_decision. Defined.
#[export] Instance ExclusionReason_eq_dec : EqDecision ExclusionReason.
Proof. solve_decision. Defined.

(** ** The privacy ladder *)

Definition boundary_rank (b : ExecutionBoundary) : Z :=
  match b with OnDevice => 0 | LocalNetwork => 1 | Hosted => 2 end.
Definition posture_rank (p : PrivacyPosture) : Z :=
  match p with OnDeviceOnly => 0 | LocalDevices => 1 | HostedAllowed => 2 end.

(** A posture permits exactly the boundaries at or below its rung. *)
Lemma permits_rank p b : permits p b = (boundary_rank b <=? posture_rank p).
Proof. by destruct p, b. Qed.

Lemma permits_mono p q b :
  posture_rank p <= posture_rank q -> permits p b = true -> permits q b = true.
Proof. rewrite !permits_rank, !Z.leb_le. lia. Qed.
