(* ===== verification/PyRound.v ===== *)
(** * [python_round] (crate [wayfinder-routing-core], [src/lib.rs])

    The source rounds the formatted value digit by digit; the specification
    rounds the decimal integer the digits denote. *)
From S2P Require Export Prelude Float64.

(** ** [format!("{:.20}", v)] for a finite non-negative [v]

    The standard library prints the exact binary value rounded half to even at
    the requested precision. *)

(** [n / d] rounded half to even, for [0 <= n] and [0 < d]. *)
Definition div_half_even (n d : Z) : Z :=
  let q := n / d in
  let r := n mod d in
  match 2 * r ?= d with
  | Lt => q
  | Gt => q + 1
  | Eq => if Z.even q then q else q + 1
  end.

(** The value times [10 ^ 20], rounded: the integer the printed digits denote. *)
Definition fixed20 (v : f64) : Z :=
  match v with
  | S754_finite _ m e =>
      if 0 <=? e then Zpos m * 2 ^ e * 10 ^ 20
      else div_half_even (Zpos m * 10 ^ 20) (2 ^ (- e))
  | _ => 0
  end.

(** The last [k] decimal digits of [n], most significant first, as ASCII. *)
Fixpoint digits_ascii (k : nat) (n : Z) : list Z :=
  match k with
  | O => []
  | S k => digits_ascii k (n / 10) ++ [48 + n mod 10]
  end.

(** Number of decimal digits of [n] (at least one); [f64::MAX] has 309. *)
Fixpoint count_digits (fuel : nat) (n : Z) : nat :=
  match fuel with
  | O => 1
  | S fuel => if n <? 10 then 1%nat else S (count_digits fuel (n / 10))
  end.

(** The two sides of the decimal point of the rendered text. *)
Definition rendered20 (v : f64) : list Z * list Z :=
  let d := fixed20 v in
  let int := d / 10 ^ 20 in
  (digits_ascii (count_digits 400 int) int, digits_ascii 20 (d mod 10 ^ 20)).

(** ** The code *)

(** [byte.checked_sub(b'0').filter(|digit| *digit <= 9)]. *)
Definition ascii_digit (byte : Z) : option Z :=
  if 48 <=? byte then if byte - 48 <=? 9 then Some (byte - 48) else None else None.

Definition push_digit (acc digit : Z) : option Z :=
  m ← u64_checked_mul acc 10; u64_checked_add m digit.

Definition parse_ascii_digits (value : list Z) : option Z :=
  foldl (fun acc byte => o ← acc; d ← ascii_digit byte; push_digit o d) (Some 0) value.

(** [10_u64.checked_pow(n)]. *)
Fixpoint checked_pow10 (n : nat) : option Z :=
  match n with O => Some 1 | S n => p ← checked_pow10 n; u64_checked_mul p 10 end.

(** The integer kept after scaling, incremented when the discarded tail says so. *)
Definition round_retained (integer_value scale : Z) (decimals : list Z) (places : nat) : option Z :=
  base ← u64_checked_mul integer_value scale;
  fractional ← parse_ascii_digits (take places decimals);
  fractional ← foldl (fun acc _ => o ← acc; u64_checked_mul o 10) (Some fractional)
                 (seq 0 (places - Nat.min (length decimals) places));
  retained ← u64_checked_add base fractional;
  let tail := drop places decimals in
  let first_discarded := match tail with d :: _ => d | [] => 48 end in
  let should_increment :=
    match first_discarded ?= 53 with
    | Gt => true
    | Lt => false
    | Eq => existsb (fun byte => negb (byte =? 48)) (drop 1 tail) || (retained mod 2 =? 1)
    end in
  Some (if should_increment then u64_sat_add retained 1 else retained).

Definition python_round (value : f64) (places : nat) : f64 :=
  if negb (f64_is_finite value) || (12 <? Z.of_nat places) then value
  else
    let negative := f64_is_sign_negative value in
    let '(integer, decimals) := rendered20 (f64_abs value) in
    match checked_pow10 places, parse_ascii_digits integer with
    | Some scale, Some integer_value =>
        match round_retained integer_value scale decimals places with
        | Some retained =>
            let rounded := f64_div (f64_of_Z retained) (f64_of_Z scale) in
            if negative then f64_neg rounded else rounded
        | None => value
        end
    | _, _ => value
    end.

(** ** The digit arithmetic *)

Lemma digits_ascii_app a b n :
  digits_ascii (a + b) n = digits_ascii a (n / 10 ^ Z.of_nat b) ++ digits_ascii b n.
Proof.
  revert n. induction b as [|b IH]; intros n.
  - rewrite Nat.add_0_r. change (10 ^ Z.of_nat 0) with 1. by rewrite Z.div_1_r, app_nil_r.
  - rewrite <- plus_n_Sm. cbn [digits_ascii]. rewrite IH, <- (assoc_L (++)).
    by rewrite Z.div_div, Nat2Z.inj_succ, Z.pow_succ_r by lia.
Qed.

Lemma digits_ascii_length k n : length (digits_ascii k n) = k.
Proof. revert n. induction k as [|k IH]; intros n; simpl; [done|]. rewrite length_app, IH. simpl. lia. Qed.

Lemma ascii_digit_digit d : 0 <= d < 10 -> ascii_digit (48 + d) = Some d.
Proof.
  intros. unfold ascii_digit.
  replace (48 <=? 48 + d) with true by lia. replace (48 + d - 48 <=? 9) with true by lia. f_equal; lia.
Qed.

Definition parse_step (acc : option Z) (byte : Z) : option Z :=
  o ← acc; d ← ascii_digit byte; push_digit o d.

(** Parsing [k] printed digits after [acc] appends them to [acc]. *)
Lemma parse_digits_from k n acc :
  0 <= acc -> 0 <= n -> acc * 10 ^ Z.of_nat k + n mod 10 ^ Z.of_nat k <= u64_max ->
  foldl parse_step (Some acc) (digits_ascii k n) = Some (acc * 10 ^ Z.of_nat k + n mod 10 ^ Z.of_nat k).
Proof.
  intros Hacc. revert n. induction k as [|k IH]; intros n Hn Hmax.
  - simpl. rewrite Z.mod_1_r. f_equal. lia.
  - cbn [digits_ascii]. rewrite foldl_app.
    rewrite Nat2Z.inj_succ, Z.pow_succ_r in * by lia.
    assert (0 < 10 ^ Z.of_nat k) by (apply Z.pow_pos_nonneg; lia).
    rewrite Z.rem_mul_r in * by lia.
    pose proof (Z.mod_pos_bound n 10 ltac:(lia)).
    pose proof (Z.mod_pos_bound (n / 10) (10 ^ Z.of_nat k) ltac:(lia)).
    assert (0 <= n / 10) by (apply Z.div_pos; lia).
    rewrite IH by (try lia; nia). cbn [foldl]. unfold parse_step, push_digit. cbn [mbind option_bind].
    rewrite ascii_digit_digit by done. cbn [mbind option_bind].
    unfold u64_checked_mul, u64_checked_add.
    replace (_ <=? u64_max) with true by nia. cbn [mbind option_bind].
    replace (_ <=? u64_max) with true by nia. f_equal. nia.
Qed.

Lemma parse_ascii_digits_spec k n :
  0 <= n -> n mod 10 ^ Z.of_nat k <= u64_max ->
  parse_ascii_digits (digits_ascii k n) = Some (n mod 10 ^ Z.of_nat k).
Proof.
  intros. unfold parse_ascii_digits. change (foldl _) with (foldl parse_step).
  rewrite parse_digits_from by (try done; lia). f_equal; lia.
Qed.

Lemma checked_pow10_spec n :
  10 ^ Z.of_nat n <= u64_max -> checked_pow10 n = Some (10 ^ Z.of_nat n).
Proof.
  induction n as [|n IH]; intros Hmax; [done|].
  rewrite Nat2Z.inj_succ, Z.pow_succ_r in * by lia.
  assert (0 < 10 ^ Z.of_nat n) by (apply Z.pow_pos_nonneg; lia).
  cbn [checked_pow10]. rewrite IH by lia. cbn [mbind option_bind].
  unfold u64_checked_mul. replace (_ <=? u64_max) with true by lia. f_equal; lia.
Qed.

(** A printed digit string is all zeros exactly when the number it prints is. *)
Lemma digits_nonzero k n :
  0 <= n -> existsb (fun byte => negb (byte =? 48)) (digits_ascii k n) = negb (n mod 10 ^ Z.of_nat k =? 0).
Proof.
  revert n. induction k as [|k IH]; intros n Hn; [simpl; by rewrite Z.mod_1_r|].
  cbn [digits_ascii]. rewrite existsb_app, IH by (apply Z.div_pos; lia).
  rewrite Nat2Z.inj_succ, Z.pow_succ_r by lia.
  assert (0 < 10 ^ Z.of_nat k) by (apply Z.pow_pos_nonneg; lia).
  rewrite Z.rem_mul_r by lia. cbn [existsb].
  pose proof (Z.mod_pos_bound n 10 ltac:(lia)).
  pose proof (Z.mod_pos_bound (n / 10) (10 ^ Z.of_nat k) ltac:(lia)).
  rewrite orb_false_r. apply eq_true_iff_eq.
  rewrite orb_true_iff, !negb_true_iff, !Z.eqb_neq. lia.
Qed.

Lemma digits_ascii_head k n :
  head (digits_ascii (S k) n) = Some (48 + (n / 10 ^ Z.of_nat k) mod 10) /\
  drop 1 (digits_ascii (S k) n) = digits_ascii k n.
Proof.
  rewrite <- (Nat.add_1_l k), digits_ascii_app. simpl. done.
Qed.

Lemma count_digits_spec fuel n :
  0 <= n < 10 ^ Z.of_nat fuel * 10 -> n < 10 ^ Z.of_nat (count_digits fuel n).
Proof.
  revert n. induction fuel as [|fuel IH]; intros n Hn.
  - change (10 ^ Z.of_nat 0) with 1 in Hn. simpl. lia.
  - cbn [count_digits]. destruct (Z.ltb_spec n 10); [simpl; lia|].
    rewrite !Nat2Z.inj_succ, !Z.pow_succ_r in * by lia.
    assert (n / 10 < 10 ^ Z.of_nat (count_digits fuel (n / 10))).
    { apply IH. split; [apply Z.div_pos; lia|]. apply Z.div_lt_upper_bound; lia. }
    assert (n = 10 * (n / 10) + n mod 10) by (apply Z.div_mod; lia).
    pose proof (Z.mod_pos_bound n 10 ltac:(lia)). nia.
Qed.

(** The increment test on the discarded digits is the half-even test on the
    remainder they denote. *)
Definition tail_increments (tail : list Z) (odd : bool) : bool :=
  match (match tail with d :: _ => d | [] => 48 end) ?= 53 with
  | Gt => true
  | Lt => false
  | Eq => existsb (fun byte => negb (byte =? 48)) (drop 1 tail) || odd
  end.

Lemma tail_increments_spec k n odd :
  0 <= n ->
  tail_increments (digits_ascii (S k) n) odd =
  match 2 * (n mod 10 ^ Z.of_nat (S k)) ?= 10 ^ Z.of_nat (S k) with
  | Lt => false | Gt => true | Eq => odd
  end.
Proof.
  intros Hn. destruct (digits_ascii_head k n) as [Hh Hd]. unfold tail_increments. rewrite Hd.
  destruct (digits_ascii (S k) n) as [|d tl]; [done|]. simplify_eq/=.
  rewrite digits_nonzero by done. rewrite Nat2Z.inj_succ, Z.pow_succ_r by lia.
  assert (0 < 10 ^ Z.of_nat k) by (apply Z.pow_pos_nonneg; lia).
  rewrite (Z.mul_comm 10), Z.rem_mul_r by lia.
  set (q := (n / 10 ^ Z.of_nat k) mod 10) in *. set (r := n mod 10 ^ Z.of_nat k) in *.
  assert (0 <= q < 10) by (apply Z.mod_pos_bound; lia).
  assert (0 <= r < 10 ^ Z.of_nat k) by (apply Z.mod_pos_bound; lia).
  destruct (Z.compare_spec (48 + q) 53) as [Hq|Hq|Hq];
    destruct (Z.compare_spec (2 * (r + 10 ^ Z.of_nat k * q)) (10 ^ Z.of_nat k * 10)); try done; try nia;
    destruct (Z.eqb_spec r 0); simpl; done || nia.
Qed.

Lemma round_retained_spec int f p :
  0 <= int -> 0 <= f < 10 ^ 20 -> (p <= 12)%nat ->
  int * 10 ^ Z.of_nat p + 10 ^ Z.of_nat p <= u64_max ->
  round_retained int (10 ^ Z.of_nat p) (digits_ascii 20 f) p =
  Some (div_half_even (int * 10 ^ 20 + f) (10 ^ (20 - Z.of_nat p))).
Proof.
  intros Hint Hf Hp Hmax.
  assert (exists k, (20 = p + S k)%nat) as [k Hk] by (exists (19 - p)%nat; lia).
  assert (HP : 0 < 10 ^ Z.of_nat p) by (apply Z.pow_pos_nonneg; lia).
  assert (HK : 0 < 10 ^ Z.of_nat (S k)) by (apply Z.pow_pos_nonneg; lia).
  assert (H20 : 10 ^ 20 = 10 ^ Z.of_nat p * 10 ^ Z.of_nat (S k)).
  { rewrite <- Z.pow_add_r by lia. f_equal. lia. }
  replace (20 - Z.of_nat p) with (Z.of_nat (S k)) by lia.
  rewrite Hk, digits_ascii_app. unfold round_retained.
  assert (0 <= int * 10 ^ Z.of_nat p) by (apply Z.mul_nonneg_nonneg; lia).
  remember (f / 10 ^ Z.of_nat (S k)) as hi eqn:Ehi.
  assert (Hhi : 0 <= hi < 10 ^ Z.of_nat p).
  { subst hi. split; [apply Z.div_pos; lia|]. apply Z.div_lt_upper_bound; lia. }
  assert (Hlen : length (digits_ascii p hi) = p) by apply digits_ascii_length.
  rewrite take_app_length', drop_app_length' by done.
  rewrite u64_checked_mul_ok by lia. cbn [mbind option_bind].
  rewrite (parse_ascii_digits_spec p hi) by (rewrite ?Z.mod_small by exact Hhi; lia).
  rewrite Z.mod_small by exact Hhi. cbn [mbind option_bind].
  rewrite length_app, Hlen, digits_ascii_length.
  replace (p - Nat.min (p + S k) p)%nat with 0%nat by lia. cbn [seq foldl mbind option_bind].
  rewrite u64_checked_add_ok by lia. cbn [mbind option_bind].
  fold (tail_increments (digits_ascii (S k) f) ((int * 10 ^ Z.of_nat p + hi) mod 2 =? 1)).
  rewrite tail_increments_spec by lia. f_equal. unfold div_half_even.
  rewrite H20. replace (int * (10 ^ Z.of_nat p * 10 ^ Z.of_nat (S k)) + f)
    with (f + (int * 10 ^ Z.of_nat p) * 10 ^ Z.of_nat (S k)) by ring.
  rewrite Z.div_add, Z_mod_plus_full by lia. rewrite <- Ehi.
  rewrite (Z.add_comm hi), Zeven_mod, Zmod_even.
  assert (u64_sat_add (int * 10 ^ Z.of_nat p + hi) 1 = int * 10 ^ Z.of_nat p + hi + 1) by u64.
  repeat case_match; try done; congruence.
Qed.

(** ** The specification *)

Definition apply_sign (negative : bool) (v : f64) : f64 := if negative then f64_neg v else v.

(** The printed decimal [D / 10 ^ 20] rounded half to even at [places] places,
    as a float: what [round] means. *)
Definition round_spec (value : f64) (places : nat) : f64 :=
  apply_sign (f64_is_sign_negative value)
    (f64_div (f64_of_Z (div_half_even (fixed20 (f64_abs value)) (10 ^ (20 - Z.of_nat places))))
             (f64_of_Z (10 ^ Z.of_nat places))).

Lemma div_half_even_nonneg n d : 0 <= n -> 0 < d -> 0 <= div_half_even n d.
Proof.
  intros. unfold div_half_even. pose proof (Z.div_pos n d ltac:(lia) ltac:(lia)).
  repeat case_match; lia.
Qed.

Lemma fixed20_nonneg v : 0 <= fixed20 v.
Proof.
  destruct v as [| | |s m e]; simpl; try lia. case_match; zify_bools.
  - assert (0 <= 2 ^ e) by (apply Z.pow_nonneg; lia). nia.
  - apply div_half_even_nonneg; [lia|]. apply Z.pow_pos_nonneg; lia.
Qed.

(** The values [python_round] rounds: those whose scaled integer part fits a
    [u64]; the code returns the others unchanged. *)
Definition round_fits (value : f64) (places : nat) : Prop :=
  (places <= 12)%nat /\
  (fixed20 (f64_abs value) / 10 ^ 20 + 1) * 10 ^ Z.of_nat places <= u64_max.

Lemma python_round_eq value places :
  f64_is_finite value = true -> round_fits value places ->
  python_round value places = round_spec value places.
Proof.
  intros Hfin [Hp Hmax]. unfold python_round, round_spec. rewrite Hfin.
  replace (12 <? Z.of_nat places) with false by lia. cbn [negb orb].
  unfold rendered20. set (d := fixed20 (f64_abs value)) in *.
  assert (0 <= d) by apply fixed20_nonneg.
  assert (0 <= d / 10 ^ 20) by (apply Z.div_pos; lia).
  assert (0 < 10 ^ Z.of_nat places) by (apply Z.pow_pos_nonneg; lia).
  rewrite checked_pow10_spec by nia.
  assert (Hu : u64_max < 10 ^ Z.of_nat 400) by (vm_compute; reflexivity).
  rewrite parse_ascii_digits_spec.
  all: rewrite ?Z.mod_small by (split; [done | apply count_digits_spec; nia]).
  2: done. 2: nia.
  rewrite round_retained_spec; [|done|apply Z.mod_pos_bound; lia|done|lia].
  rewrite (Z.mul_comm (d / 10 ^ 20)), <- Z.div_mod by lia. done.
Qed.

Definition round_fits_b (value : f64) (places : nat) : bool :=
  (places <=? 12)%nat &&
  ((fixed20 (f64_abs value) / 10 ^ 20 + 1) * 10 ^ Z.of_nat places <=? u64_max).

Lemma round_fits_dec value places : round_fits_b value places = true -> round_fits value places.
Proof.
  unfold round_fits_b, round_fits. rewrite andb_true_iff, Z.leb_le, Nat.leb_le. done.
Qed.

(** ** Property *)

(** [python_round] is Python's [round]: on every finite value whose scaled
    integer part fits a [u64], it returns the decimal the value prints, rounded
    half to even at the requested number of places; every other value (not
    finite, or more than twelve places) comes back unchanged. *)
Theorem python_round_half_even value places :
  (f64_is_finite value = true /\ round_fits value places ->
   python_round value places = round_spec value places) /\
  (f64_is_finite value = false \/ (12 < places)%nat -> python_round value places = value).
Proof.
  split; [intros [??]; by apply python_round_eq|].
  intros H. unfold python_round. replace (negb (f64_is_finite value) || (12 <? Z.of_nat places)) with true; [done|].
  symmetry. apply orb_true_iff. destruct H as [->|?]; [by left|right; lia].
Qed.

Lemma python_round_half_even_witness :
  f64_eq (python_round (f64_dec 2675 3) 2) (f64_dec 267 2) = true /\
  python_round f64_nan 2 = f64_nan.
Proof.
  split.
  - rewrite (proj1 (python_round_half_even (f64_dec 2675 3) 2)).
    + vm_compute. reflexivity.
    + split; [vm_compute; reflexivity|]. apply round_fits_dec. vm_compute. reflexivity.
  - apply (proj2 (python_round_half_even f64_nan 2)). left. reflexivity.
Defined.
