(* ===== verification/Features.v ===== *)
(** * Feature extraction (crate [wayfinder-routing-core], [src/lib.rs])

    The text scanners ([python_splitlines], [python_word_count],
    [strip_frontmatter]), the lexicon and the eleven structural and lexical
    features.  The compiled regular expressions belong to the [regex] crate:
    they are the fields of [Patterns], a parameter of every definition that
    uses them. *)
From S2P Require Export Prelude Text BTree.

(** ** Errors *)
Inductive CoreError :=
| InvalidPattern (reason : str)
| MissingTier
| InvalidClassifier (m : message)
| InvalidContract (m : message).

(** ** The built-in patterns

    What the code takes from each expression: whether it matches, the matches
    it finds in order, or the text of capture group 1. *)
Record Patterns := {
  heading_captures : str -> option (option str);
  list_is_match : str -> bool;
  table_row_is_match : str -> bool;
  fence_is_match : str -> bool;
  link_find_iter : str -> list str;
  word_token_find_iter : str -> list str;
  math_symbol_find_iter : str -> list str;
}.

(** [patterns()]: the outcome of [Patterns::compile], computed once. *)
Definition patterns (compiled : result Patterns str) : result Patterns CoreError :=
  map_err InvalidPattern compiled.

(** ** Lexicon *)
Record Lexicon := {
  lex_reasoning_terms : btree unit;
  lex_constraint_terms : btree unit;
}.

Definition normalized_term_set (terms : list str) : btree unit :=
  bt_of_list (map (fun term => (to_ascii_lowercase (trim term), ())) terms).

Definition Lexicon_new (reasoning_terms constraint_terms : list str) : Lexicon :=
  {| lex_reasoning_terms := normalized_term_set reasoning_terms;
     lex_constraint_terms := normalized_term_set constraint_terms |}.

Definition reasoning_terms (l : Lexicon) : list str := bt_keys (lex_reasoning_terms l).
Definition constraint_terms (l : Lexicon) : list str := bt_keys (lex_constraint_terms l).
Definition is_reasoning_term (l : Lexicon) (token : str) : bool :=
  bt_contains (lex_reasoning_terms l) token.
Definition is_constraint_term (l : Lexicon) (token : str) : bool :=
  bt_contains (lex_constraint_terms l) token.

Definition REASONING_TERMS : list str := map lit
  ["prove"; "proof"; "proofs"; "proven"; "derive"; "derives"; "derivation"; "theorem";
   "theorems"; "lemma"; "lemmas"; "corollary"; "axiom"; "axioms"; "irrational";
   "undecidable"; "undecidability"; "decidable"; "infinitely"; "asymptotic"; "complexity";
   "invariant"; "invariants"; "concurrency"; "concurrent"; "deadlock"; "induction";
   "contradiction"; "optimal"; "optimality"; "optimize"; "optimise"; "minimise";
   "minimize"; "maximise"; "maximize"; "recurrence"; "halting"; "eigenvalue";
   "eigenvalues"; "integral"; "derivative"; "polynomial"; "prime"; "primes"; "modulo";
   "isomorphism"; "monotonic"; "bijection"; "injective"; "surjective"; "combinatorial"]%string.

Definition CONSTRAINT_TERMS : list str := map lit
  ["must"; "without"; "only"; "ensure"; "exactly"; "guarantee"; "constraint";
   "constraints"; "subject"; "preserving"; "preserve"]%string.

Definition default_lexicon : Lexicon := Lexicon_new REASONING_TERMS CONSTRAINT_TERMS.

(** ** Scanners *)

Definition python_whitespace (c : Z) : bool :=
  char_is_whitespace c || ((28 <=? c) && (c <=? 31)).

Definition python_line_separator (c : Z) : bool :=
  (c =? 10) || (c =? 13) || (c =? 11) || (c =? 12) || (c =? 28) || (c =? 29) || (c =? 30)
  || (c =? 133) || (c =? 8232) || (c =? 8233).

Definition word_count_step (state : bool * Z) (c : Z) : bool * Z :=
  let '(in_word, count) := state in
  if python_whitespace c then (false, count)
  else if negb in_word then (true, u64_sat_add count 1)
  else (in_word, count).

Definition python_word_count (text : str) : Z :=
  snd (foldl word_count_step (false, 0) text).

(** The loop of [python_splitlines]: [current] is [text.get(start..index)],
    reversed. *)
Fixpoint splitlines_loop (characters current : str) : list str :=
  match characters with
  | [] => match current with [] => [] | _ => [rev current] end
  | c :: rest =>
      if negb (python_line_separator c) then splitlines_loop rest (c :: current)
      else rev current ::
        match rest with
        | n :: rest' =>
            if (c =? 13) && (n =? 10) then splitlines_loop rest' []
            else splitlines_loop rest []
        | [] => splitlines_loop rest []
        end
  end.

Definition python_splitlines (text : str) : list str := splitlines_loop text [].

(** [matches!(line.trim(), "---" | "...")]. *)
Definition closes_frontmatter (line : str) : bool :=
  str_eqb (trim line) (lit "---") || str_eqb (trim line) (lit "...").

(** The search for the closing line from [start]; [text] is the answer when
    there is none.  One unit of [fuel] per line. *)
Fixpoint frontmatter_loop (fuel : nat) (text rest : str) : str :=
  match fuel with
  | O => text
  | S fuel =>
      match split_once 10 rest with
      | Some (line, after) =>
          if closes_frontmatter line then after else frontmatter_loop fuel text after
      | None => if closes_frontmatter rest then [] else text
      end
  end.

Definition strip_frontmatter (text : str) : str :=
  match split_once 10 text with
  | None => text
  | Some (first_line, rest) =>
      if negb (str_eqb (trim first_line) (lit "---")) then text
      else frontmatter_loop (S (length rest)) text rest
  end.

(** ** Features *)
Record Features := {
  word_count : Z;
  heading_count : Z;
  max_heading_depth : Z;
  list_item_count : Z;
  link_count : Z;
  code_block_count : Z;
  table_row_count : Z;
  reasoning_term_count : Z;
  math_symbol_count : Z;
  constraint_term_count : Z;
  question_count : Z;
}.

Definition FEATURE_ORDER : list str := map lit
  ["word_count"; "heading_count"; "max_heading_depth"; "list_item_count"; "link_count";
   "code_block_count"; "table_row_count"; "reasoning_term_count"; "math_symbol_count";
   "constraint_term_count"; "question_count"]%string.

(** [FEATURE_ORDER.iter().position(|candidate| *candidate == name)]. *)
Fixpoint position (p : str -> bool) (l : list str) : option nat :=
  match l with
  | [] => None
  | x :: l => if p x then Some 0%nat else S <$> position p l
  end.

Definition feature_index (name : str) : option nat := position (str_eqb name) FEATURE_ORDER.

Definition Features_list (f : Features) : list Z :=
  [word_count f; heading_count f; max_heading_depth f; list_item_count f; link_count f;
   code_block_count f; table_row_count f; reasoning_term_count f; math_symbol_count f;
   constraint_term_count f; question_count f].

Definition Features_get (f : Features) (index : nat) : option Z := Features_list f !! index.

Definition Features_get_named (f : Features) (name : str) : option Z :=
  feature_index name ≫= Features_get f.

(** The counters the line loop updates. *)
Record LineCounts := {
  lc_headings : Z;
  lc_depth : Z;
  lc_items : Z;
  lc_links : Z;
  lc_blocks : Z;
  lc_rows : Z;
}.

Definition zero_counts : LineCounts := Build_LineCounts 0 0 0 0 0 0.

Section Extraction.
Context (p : Patterns).

(** A line outside a fence: heading, else list item, else table row; and its links. *)
Definition count_line (c : LineCounts) (line : str) : LineCounts :=
  let links := u64_sat_add (lc_links c) (len (link_find_iter p line)) in
  match heading_captures p line with
  | Some group =>
      let depth := match group with Some matched => str_len matched | None => 0 end in
      {| lc_headings := u64_sat_add (lc_headings c) 1;
         lc_depth := Z.max (lc_depth c) depth;
         lc_items := lc_items c; lc_links := links;
         lc_blocks := lc_blocks c; lc_rows := lc_rows c |}
  | None =>
      let item := list_is_match p line in
      {| lc_headings := lc_headings c; lc_depth := lc_depth c;
         lc_items := if item then u64_sat_add (lc_items c) 1 else lc_items c;
         lc_links := links; lc_blocks := lc_blocks c;
         lc_rows := if negb item && table_row_is_match p line
                    then u64_sat_add (lc_rows c) 1 else lc_rows c |}
  end.

Definition open_block (c : LineCounts) : LineCounts :=
  {| lc_headings := lc_headings c; lc_depth := lc_depth c; lc_items := lc_items c;
     lc_links := lc_links c; lc_blocks := u64_sat_add (lc_blocks c) 1;
     lc_rows := lc_rows c |}.

(** One iteration of [for line in python_splitlines(body)]. *)
Definition line_step (state : bool * LineCounts) (line : str) : bool * LineCounts :=
  let '(in_fence, c) := state in
  if fence_is_match p line then (negb in_fence, if negb in_fence then open_block c else c)
  else if in_fence then (in_fence, c)
  else (in_fence, count_line c line).

(** One iteration of the token loop: [(reasoning, constraint)]. *)
Definition token_step (lexicon : Lexicon) (counts : Z * Z) (token : str) : Z * Z :=
  (if is_reasoning_term lexicon token then u64_sat_add (fst counts) 1 else fst counts,
   if is_constraint_term lexicon token then u64_sat_add (snd counts) 1 else snd counts).

Definition extract_body (body : str) (lexicon : Lexicon) : Features :=
  let lines := snd (foldl line_step (false, zero_counts) (python_splitlines body)) in
  let lowered := to_ascii_lowercase body in
  let terms := foldl (token_step lexicon) (0, 0) (word_token_find_iter p lowered) in
  {| word_count := python_word_count body;
     heading_count := lc_headings lines;
     max_heading_depth := lc_depth lines;
     list_item_count := lc_items lines;
     link_count := lc_links lines;
     code_block_count := lc_blocks lines;
     table_row_count := lc_rows lines;
     reasoning_term_count := fst terms;
     math_symbol_count := len (math_symbol_find_iter p body);
     constraint_term_count := snd terms;
     question_count := len (filter (fun byte => byte = 63) (as_bytes body)) |}.
End Extraction.

Definition extract_features_with_lexicon (compiled : result Patterns str) (text : str)
    (lexicon : Lexicon) : result Features CoreError :=
  let? p := patterns compiled in
  Ok (extract_body p (strip_frontmatter text) lexicon).

Definition extract_features (compiled : result Patterns str) (text : str)
    : result Features CoreError :=
  extract_features_with_lexicon compiled text default_lexicon.

Definition lexical_terms (compiled : result Patterns str) (text : str)
    : result (btree unit) CoreError :=
  let? p := patterns compiled in
  let lowered := to_ascii_lowercase (strip_frontmatter text) in
  Ok (bt_of_list (map (fun token => (token, ())) (word_token_find_iter p lowered))).

(** ** Specifications *)

(** Lines and their terminators: a terminator is one separator or a CR LF
    pair, a CR is never separated from a following LF, and only a last line
    may lack its terminator, when it is not empty. *)
Definition separator_free (l : str) : Prop := Forall (fun c => python_line_separator c = false) l.

Inductive split_rel : str -> list str -> Prop :=
| split_nil : split_rel [] []
| split_last l : l <> [] -> separator_free l -> split_rel l [l]
| split_crlf l rest ls :
    separator_free l -> split_rel rest ls -> split_rel (l ++ 13 :: 10 :: rest) (l :: ls)
| split_sep l c rest ls :
    separator_free l -> python_line_separator c = true ->
    (c = 13 -> head rest <> Some 10) ->
    split_rel rest ls -> split_rel (l ++ c :: rest) (l :: ls).

(** Python's [text.split()]: the maximal runs of non-whitespace. *)
Fixpoint words (s current : str) : list str :=
  match s with
  | [] => match current with [] => [] | _ => [rev current] end
  | c :: s =>
      if python_whitespace c
      then match current with [] => words s [] | _ => rev current :: words s [] end
      else words s (c :: current)
  end.

(** A text that opens with a complete frontmatter block, and what follows it. *)
Inductive frontmatter_rest : str -> str -> Prop :=
| fr_closed line after :
    10 ∉ line -> closes_frontmatter line = true -> frontmatter_rest (line ++ 10 :: after) after
| fr_closed_at_end line :
    10 ∉ line -> closes_frontmatter line = true -> frontmatter_rest line []
| fr_line line rest after :
    10 ∉ line -> closes_frontmatter line = false -> frontmatter_rest rest after ->
    frontmatter_rest (line ++ 10 :: rest) after.

Inductive has_frontmatter : str -> str -> Prop :=
| has_fm first_line rest after :
    10 ∉ first_line -> trim first_line = lit "---" -> frontmatter_rest rest after ->
    has_frontmatter (first_line ++ 10 :: rest) after.

(** The lines outside fenced code, the fences left out. *)
Fixpoint outside_fences (p : Patterns) (in_fence : bool) (lines : list str) : list str :=
  match lines with
  | [] => []
  | line :: lines =>
      if fence_is_match p line then outside_fences p (negb in_fence) lines
      else if in_fence then outside_fences p in_fence lines
      else line :: outside_fences p in_fence lines
  end.

Definition count {A} (P : A -> bool) (l : list A) : Z := len (List.filter P l).
Definition sat (n : Z) : Z := Z.min n u64_max.

Definition is_heading (p : Patterns) (line : str) : bool :=
  match heading_captures p line with Some _ => true | None => false end.
Definition heading_depth (p : Patterns) (line : str) : Z :=
  match heading_captures p line with Some (Some m) => str_len m | _ => 0 end.
Definition is_item (p : Patterns) (line : str) : bool :=
  negb (is_heading p line) && list_is_match p line.
Definition is_row (p : Patterns) (line : str) : bool :=
  negb (is_heading p line) && negb (list_is_match p line) && table_row_is_match p line.

(** ** [python_splitlines] *)

Lemma splitlines_loop_app l rest current :
  separator_free l -> splitlines_loop (l ++ rest) current = splitlines_loop rest (rev l ++ current).
Proof.
  intros Hl. revert current. induction Hl as [|c l Hc Hl IH]; intros current; simpl; [done|].
  by rewrite Hc, IH, <- (assoc_L (++)).
Qed.

Lemma splitlines_complete text ls : split_rel text ls -> python_splitlines text = ls.
Proof.
  unfold python_splitlines. induction 1 as [|l Hne Hl|l rest ls Hl _ IH|l c rest ls Hl Hc Hn _ IH]; [done|..].
  - rewrite <- (app_nil_r l) at 1. rewrite splitlines_loop_app, app_nil_r by done. simpl.
    destruct (rev l) eqn:Hr; [|by rewrite <- Hr, rev_involutive].
    apply (f_equal (@rev Z)) in Hr. by rewrite rev_involutive in Hr.
  - rewrite splitlines_loop_app, app_nil_r by done. simpl. by rewrite rev_involutive, IH.
  - rewrite splitlines_loop_app, app_nil_r by done. simpl. rewrite Hc, rev_involutive. simpl.
    f_equal. destruct rest as [|n rest]; [done|].
    destruct ((c =? 13) && (n =? 10)) eqn:E; [|done]. zify_bools. subst. by destruct (Hn eq_refl).
Qed.

Lemma splitlines_sound_from text current :
  separator_free (rev current) -> split_rel (rev current ++ text) (splitlines_loop text current).
Proof.
  remember (length text) as n eqn:Hn. assert (Hle : (length text <= n)%nat) by lia. clear Hn.
  revert text current Hle. induction n as [|n IH]; intros [|c text] current Hle Hcur; simpl in *; try lia.
  all: try (rewrite app_nil_r; destruct current as [|x current]; [constructor|]; constructor; [|done];
            simpl; by destruct (rev current)).
  destruct (python_line_separator c) eqn:Hc; simpl.
  - destruct text as [|d text].
    + apply split_sep; [done..|]. constructor.
    + destruct ((c =? 13) && (d =? 10)) eqn:E.
      * zify_bools. subst. apply split_crlf; [done|]. apply (IH text []); [simpl in *; lia|constructor].
      * apply split_sep; [done|done| |apply (IH (d :: text) []); [simpl in *; lia|constructor]].
        intros -> [= ->]. done.
  - specialize (IH text (c :: current)). simpl in IH. rewrite <- (assoc_L (++)) in IH. apply IH; [lia|].
    apply Forall_app. split; [done|]. by constructor.
Qed.

(** ** [python_word_count] *)

Definition pending (current : str) : bool := match current with [] => false | _ => true end.

Lemma word_count_from text n current :
  0 <= n ->
  snd (foldl word_count_step (pending current, u64_sat_add n (if pending current then 1 else 0)) text) =
  u64_sat_add n (len (words text current)).
Proof.
  revert n current. induction text as [|c text IH]; intros n current Hn.
  - by destruct current.
  - cbn [foldl words]. unfold word_count_step at 2. destruct (python_whitespace c).
    + destruct current as [|x current]; cbn [pending].
      * apply (IH n []); lia.
      * rewrite len_cons. pose proof (len_nonneg (words text [])).
        replace (u64_sat_add n (len (words text []) + 1)) with (u64_sat_add (n + 1) (len (words text []))) by u64.
        rewrite <- (IH (n + 1) []) by lia. cbn [pending]. do 3 f_equal. u64.
    + rewrite <- (IH n (c :: current)) by lia. destruct current; cbn [pending negb]; [|done].
      do 3 f_equal. u64.
Qed.

(** ** [strip_frontmatter] *)

Lemma split_once_inv c s a b : split_once c s = Some (a, b) -> s = a ++ c :: b /\ c ∉ a.
Proof.
  revert a. induction s as [|x s IH]; simpl; [done|]. intros a.
  destruct (Z.eqb_spec x c) as [->|Hne].
  - intros [= <- <-]. split; [done|]. apply not_elem_of_nil.
  - destruct (split_once c s) as [[a' b']|]; [|done]. intros [= <- <-].
    destruct (IH a' eq_refl) as [-> ?]. split; [done|]. apply not_elem_of_cons. split; congruence.
Qed.

Lemma split_once_None_inv c s : split_once c s = None -> c ∉ s.
Proof.
  induction s as [|x s IH]; simpl; [intros _; apply not_elem_of_nil|].
  destruct (Z.eqb_spec x c); [done|]. destruct (split_once c s) as [[]|]; [done|].
  intros _. apply not_elem_of_cons. split; [congruence|auto].
Qed.

Lemma frontmatter_loop_found text rest after fuel :
  frontmatter_rest rest after -> (length rest < fuel)%nat -> frontmatter_loop fuel text rest = after.
Proof.
  intros Hr. revert fuel. induction Hr as [line after Hn Hc|line Hn Hc|line rest after Hn Hc _ IH];
    intros [|fuel] Hf; simpl; try lia.
  - by rewrite split_once_Some, Hc.
  - by rewrite split_once_None, Hc.
  - rewrite split_once_Some, Hc by done. apply IH. rewrite length_app in Hf. simpl in Hf. lia.
Qed.

Lemma frontmatter_loop_cases text rest fuel :
  (length rest < fuel)%nat ->
  (exists after, frontmatter_rest rest after) \/ frontmatter_loop fuel text rest = text.
Proof.
  revert rest. induction fuel as [|fuel IH]; intros rest Hf; [lia|]. simpl.
  destruct (split_once 10 rest) as [[line after]|] eqn:Hs.
  - apply split_once_inv in Hs as [-> Hn]. destruct (closes_frontmatter line) eqn:Hc.
    + left. exists after. by constructor.
    + destruct (IH after) as [[a Ha]|Ha]; [|left; exists a; by apply fr_line|by right].
      rewrite length_app in Hf. simpl in Hf. lia.
  - apply split_once_None_inv in Hs. destruct (closes_frontmatter rest) eqn:Hc; [|by right].
    left. exists []. by constructor.
Qed.

Lemma has_frontmatter_shorter text after : has_frontmatter text after -> (length after < length text)%nat.
Proof.
  assert (Hr : forall rest after, frontmatter_rest rest after -> (length after <= length rest)%nat).
  { induction 1; rewrite ?length_app in *; simpl; lia. }
  destruct 1 as [first_line rest after _ _ H%Hr]. rewrite length_app. simpl. lia.
Qed.

(** ** The line and token loops *)

Lemma count_cons {A} (P : A -> bool) x l : count P (x :: l) = (if P x then 1 else 0) + count P l.
Proof. unfold count. simpl. destruct (P x); rewrite ?len_cons; lia. Qed.

Lemma count_nonneg {A} (P : A -> bool) l : 0 <= count P l.
Proof. apply len_nonneg. Qed.

Lemma sat_succ n : 0 <= n -> u64_sat_add (sat n) 1 = sat (n + 1).
Proof. unfold sat. u64. Qed.

Lemma sat_add n k : 0 <= n -> 0 <= k -> u64_sat_add (sat n) k = sat (n + k).
Proof. unfold sat. u64. Qed.

(** The counters after the visible lines [vis] and [blocks] opened fences. *)
Definition counts_of (p : Patterns) (blocks : Z) (vis : list str) : LineCounts :=
  {| lc_headings := sat (count (is_heading p) vis);
     lc_depth := foldr (fun line d => Z.max (heading_depth p line) d) 0 vis;
     lc_items := sat (count (is_item p) vis);
     lc_links := sat (foldr (fun line n => len (link_find_iter p line) + n) 0 vis);
     lc_blocks := sat blocks;
     lc_rows := sat (count (is_row p) vis) |}.

Lemma foldr_app_max p a b :
  foldr (fun line d => Z.max (heading_depth p line) d) 0 (a ++ [b]) =
  Z.max (foldr (fun line d => Z.max (heading_depth p line) d) 0 a) (heading_depth p b).
Proof.
  induction a as [|x a IH]; simpl.
  - unfold heading_depth. destruct (heading_captures p b) as [[m|]|]; try lia.
  - rewrite IH. lia.
Qed.

Lemma foldr_app_links p a b :
  foldr (fun line n => len (link_find_iter p line) + n) 0 (a ++ [b]) =
  foldr (fun line n => len (link_find_iter p line) + n) 0 a + len (link_find_iter p b).
Proof. induction a as [|x a IH]; simpl; [lia|]. rewrite IH. lia. Qed.

Lemma foldr_links_nonneg p a : 0 <= foldr (fun line n => len (link_find_iter p line) + n) 0 a.
Proof. induction a as [|x a IH]; simpl; [done|]. pose proof (len_nonneg (link_find_iter p x)). lia. Qed.

Lemma count_snoc {A} (P : A -> bool) l x : count P (l ++ [x]) = count P l + (if P x then 1 else 0).
Proof. induction l as [|y l IH]; simpl; rewrite ?count_cons; [unfold count; simpl; lia|lia]. Qed.

Lemma count_line_spec p blocks vis line :
  count_line p (counts_of p blocks vis) line = counts_of p blocks (vis ++ [line]).
Proof.
  unfold count_line, counts_of. cbn [lc_headings lc_depth lc_items lc_links lc_blocks lc_rows].
  rewrite foldr_app_max, foldr_app_links, !count_snoc.
  rewrite !sat_succ by apply count_nonneg.
  rewrite sat_add by (apply foldr_links_nonneg || apply len_nonneg).
  assert (0 <= foldr (fun line d => Z.max (heading_depth p line) d) 0 vis) as Hd.
  { clear. induction vis as [|x v IH]; simpl; lia. }
  revert Hd. generalize (foldr (fun line d => Z.max (heading_depth p line) d) 0 vis). intros d Hd.
  unfold is_item, is_row, is_heading, heading_depth.
  destruct (heading_captures p line) as [[m|]|]; cbn [negb andb]; rewrite ?Z.add_0_r; try done.
  all: destruct (list_is_match p line); cbn [negb andb]; rewrite ?Z.add_0_r;
    [|destruct (table_row_is_match p line); rewrite ?Z.add_0_r]; f_equal; lia.
Qed.

Lemma open_block_spec p blocks vis :
  0 <= blocks -> open_block (counts_of p blocks vis) = counts_of p (blocks + 1) vis.
Proof. intros. unfold open_block, counts_of. simpl. by rewrite sat_succ. Qed.

(** Opening fences among [n] fences, the first one met [in_fence]. *)
Definition openers (in_fence : bool) (n : Z) : Z := if in_fence then n / 2 else (n + 1) / 2.

Lemma line_loop_spec p lines in_fence blocks vis :
  0 <= blocks ->
  snd (foldl (line_step p) (in_fence, counts_of p blocks vis) lines) =
  counts_of p (blocks + openers in_fence (count (fence_is_match p) lines))
    (vis ++ outside_fences p in_fence lines).
Proof.
  revert in_fence blocks vis. induction lines as [|line lines IH]; intros in_fence blocks vis Hb.
  - simpl. rewrite app_nil_r. unfold openers, count, len. simpl.
    destruct in_fence; [change (0 / 2) with 0|change (1 / 2) with 0]; by rewrite Z.add_0_r.
  - cbn [foldl outside_fences]. rewrite count_cons. unfold line_step at 2.
    pose proof (count_nonneg (fence_is_match p) lines) as Hc.
    destruct (fence_is_match p line).
    + destruct in_fence; cbn [negb].
      * rewrite IH by done. f_equal. unfold openers. f_equal. f_equal. lia.
      * rewrite open_block_spec, IH by lia.
        f_equal. unfold openers.
        replace (1 + count (fence_is_match p) lines + 1) with (count (fence_is_match p) lines + 1 * 2) by lia.
        rewrite Z.div_add by lia. lia.
    + destruct in_fence; [by rewrite IH, Z.add_0_l|].
      rewrite count_line_spec, IH, Z.add_0_l, <- (assoc_L (++)) by done. done.
Qed.

Lemma token_loop_spec lexicon tokens r c :
  0 <= r -> 0 <= c ->
  foldl (token_step lexicon) (sat r, sat c) tokens =
  (sat (r + count (is_reasoning_term lexicon) tokens), sat (c + count (is_constraint_term lexicon) tokens)).
Proof.
  revert r c. induction tokens as [|t tokens IH]; intros r c Hr Hc; simpl.
  - unfold count, len. simpl. by rewrite !Z.add_0_r.
  - rewrite !count_cons. unfold token_step at 2. cbn [fst snd].
    destruct (is_reasoning_term lexicon t), (is_constraint_term lexicon t);
      rewrite ?sat_succ by done; rewrite IH by lia; by rewrite ?Z.add_assoc, ?Z.add_0_r.
Qed.

(** ** Properties *)

(** [python_splitlines] returns exactly the lines of the text in the sense
    of Python's [str.splitlines]: for every text and every list of lines, the
    list is the result if and only if it decomposes the text into
    separator-free lines with their terminators. *)
Theorem python_splitlines_iff text ls : python_splitlines text = ls <-> split_rel text ls.
Proof.
  split; [intros <-|apply splitlines_complete].
  apply (splitlines_sound_from text []). constructor.
Qed.

(** [strip_frontmatter] returns what follows the first complete
    frontmatter block when the text opens with one, and the text unchanged
    when it does not. *)
Theorem strip_frontmatter_iff text out :
  strip_frontmatter text = out <->
  has_frontmatter text out \/ ((~ exists after, has_frontmatter text after) /\ out = text).
Proof.
  assert (Hfound : forall after, has_frontmatter text after -> strip_frontmatter text = after).
  { intros after [first_line rest a Hn Ht Hr]. unfold strip_frontmatter.
    rewrite split_once_Some, Ht, str_eqb_refl by done. cbn [negb].
    apply frontmatter_loop_found; [done|lia]. }
  assert (Hcases : (exists after, has_frontmatter text after) \/ strip_frontmatter text = text).
  { unfold strip_frontmatter. destruct (split_once 10 text) as [[first_line rest]|] eqn:Hs; [|by right].
    destruct (str_eqb (trim first_line) (lit "---")) eqn:Ht; simpl negb; cbv iota; [|by right].
    apply split_once_inv in Hs as [-> Hn]. apply str_eqb_eq in Ht.
    destruct (frontmatter_loop_cases (first_line ++ 10 :: rest) rest (S (length rest)))
      as [[after Ha]|Ha]; [lia|left; exists after; by constructor|by right]. }
  split.
  - intros <-. destruct Hcases as [[after Ha]|He]; [left; by rewrite (Hfound after Ha)|right].
    split; [|done]. intros [after Ha]. pose proof (has_frontmatter_shorter _ _ Ha) as Hl.
    rewrite (Hfound after Ha) in He. subst. lia.
  - intros [Ha|[Hno ->]]; [auto|]. by destruct Hcases.
Qed.

(** [python_word_count] counts the words of Python's [text.split()],
    saturating at [u64::MAX]. *)
Theorem python_word_count_words text : python_word_count text = sat (len (words text [])).
Proof. unfold python_word_count. apply (word_count_from text 0 []). lia. Qed.

(** Feature extraction is the reference computation on the frontmatter-free
    body: structural counters range over the lines outside fenced code only
    (a heading is not also an item or a row, an item not also a row), every
    second fence opens a block, the lexical counters range over the tokens of
    the lowered body, and every count saturates at [u64::MAX]. *)
Theorem extract_features_spec p text lexicon :
  let body := strip_frontmatter text in
  let vis := outside_fences p false (python_splitlines body) in
  let tokens := word_token_find_iter p (to_ascii_lowercase body) in
  extract_features_with_lexicon (Ok p) text lexicon = Ok
    {| word_count := sat (len (words body []));
       heading_count := sat (count (is_heading p) vis);
       max_heading_depth := foldr (fun line d => Z.max (heading_depth p line) d) 0 vis;
       list_item_count := sat (count (is_item p) vis);
       link_count := sat (foldr (fun line n => len (link_find_iter p line) + n) 0 vis);
       code_block_count := sat ((count (fence_is_match p) (python_splitlines body) + 1) / 2);
       table_row_count := sat (count (is_row p) vis);
       reasoning_term_count := sat (count (is_reasoning_term lexicon) tokens);
       math_symbol_count := len (math_symbol_find_iter p body);
       constraint_term_count := sat (count (is_constraint_term lexicon) tokens);
       question_count := len (filter (fun byte => byte = 63) (as_bytes body)) |}.
Proof.
  intros body vis tokens. unfold extract_features_with_lexicon. cbn [patterns map_err result_bind].
  unfold extract_body. fold body. f_equal.
  pose proof (word_count_from body 0 []) as Hw. cbn [pending] in Hw.
  rewrite <- (app_nil_l vis).
  pose proof (line_loop_spec p (python_splitlines body) false 0 [] ltac:(lia)) as Hl.
  pose proof (token_loop_spec lexicon tokens 0 0 ltac:(lia) ltac:(lia)) as Ht.
  change (counts_of p 0 []) with zero_counts in Hl. change (sat 0) with 0 in Ht.
  fold tokens. rewrite Hl, Ht. unfold python_word_count.
  change (u64_sat_add 0 0) with 0 in Hw. rewrite Hw by lia. done.
Qed.
