(* ===== verification/Profiles.v ===== *)
(** * Stock starter lexicons (crate [wayfinder-routing-core], [src/profiles.rs])

    The named vocabularies for the two lexical signals, in their stable order.
    They are constants; what is proved is that they are ready to be used as a
    [Lexicon]. *)
From S2P Require Export Features.

Record LexiconProfile := {
  lp_id : str;
  lp_name : str;
  lp_source : str;
  lp_reasoning_terms : list str;
  lp_constraint_terms : list str;
  lp_note : str;
}.

Definition REAL : str :=
  lit "Mined from RouterBench: real subject-matter vocabulary; still calibrate on your traffic.".

(** The dash is U+2014. *)
Definition WEAK : str :=
  lit "Mined from RouterBench word-problem tasks: task-surface vocabulary, NOT difficulty " ++ [8212] ++
  lit " a cautionary example, not a recommendation.".

Definition proofs_math_profile : LexiconProfile := {|
  lp_id := lit "proofs-math"; lp_name := lit "Proofs & mathematics"; lp_source := lit "curated";
  lp_reasoning_terms := map lit
    ["prove"; "proof"; "proofs"; "theorem"; "lemma"; "corollary"; "axiom"; "conjecture"; "induction";
     "contradiction"; "qed"; "derive"; "derivation"; "integral"; "derivative"; "eigenvalue";
     "asymptotic"; "bijection"; "isomorphism"; "modulo"; "recurrence"; "polynomial";
     "monotonic"; "invariant"; "optimal"; "optimality"]%string;
  lp_constraint_terms := map lit
    ["exactly"; "minimize"; "maximize"; "subject"]%string;
  lp_note := lit "Hand-authored maths/CS reasoning vocabulary (close to the built-in default).";
|}.

Definition law_compliance_profile : LexiconProfile := {|
  lp_id := lit "law-compliance"; lp_name := lit "Law & compliance"; lp_source := lit "curated";
  lp_reasoning_terms := map lit
    ["liable"; "liability"; "indemnify"; "indemnification"; "pursuant"; "herein"; "hereto";
     "whereas"; "statute"; "statutory"; "jurisdiction"; "plaintiff"; "defendant"; "tort";
     "breach"; "covenant"; "waiver"; "arbitration"; "negligence"; "damages"; "contractual"]%string;
  lp_constraint_terms := map lit
    ["shall"; "must"; "prohibited"; "required"; "notwithstanding"; "provided"]%string;
  lp_note := lit "Hand-authored legal/compliance vocabulary.";
|}.

Definition code_infra_profile : LexiconProfile := {|
  lp_id := lit "code-infra"; lp_name := lit "Code & infrastructure"; lp_source := lit "curated";
  lp_reasoning_terms := map lit
    ["concurrency"; "concurrent"; "deadlock"; "mutex"; "idempotent"; "idempotency"; "latency";
     "throughput"; "distributed"; "consensus"; "replication"; "sharding"; "rollback";
     "migration"; "schema"; "consistency"; "atomicity"; "serializable"; "partition"; "race";
     "lock"]%string;
  lp_constraint_terms := [];
  lp_note := lit "Hand-authored systems/infrastructure vocabulary.";
|}.

Definition science_medicine_profile : LexiconProfile := {|
  lp_id := lit "science-medicine"; lp_name := lit "Science & medicine"; lp_source := lit "curated";
  lp_reasoning_terms := map lit
    ["hypothesis"; "pathogenesis"; "etiology"; "diagnosis"; "prognosis"; "cardiac"; "hepatic";
     "renal"; "membrane"; "enzyme"; "mitochondria"; "pyruvate"; "catalysis"; "molecule"; "atom";
     "orbital"; "electron"; "isotope"; "contraindication"; "dosage"; "pharmacokinetics"]%string;
  lp_constraint_terms := [];
  lp_note := lit "Hand-authored science/medicine vocabulary.";
|}.

Definition mined_science_profile : LexiconProfile := {|
  lp_id := lit "mined-science"; lp_name := lit "Science (RouterBench)"; lp_source := lit "mined";
  lp_reasoning_terms := map lit
    ["hypertension"; "center"; "learning"; "objects"; "cardiac"; "pyruvate"; "mild"; "parents";
     "phase"; "region"; "products"; "membrane"; "anterior"; "element"; "orbit"; "chain";
     "atoms"; "neck"; "rapid"; "potential"]%string;
  lp_constraint_terms := [];
  lp_note := REAL;
|}.

Definition mined_general_profile : LexiconProfile := {|
  lp_id := lit "mined-general"; lp_name := lit "General knowledge (RouterBench)"; lp_source := lit "mined";
  lp_reasoning_terms := map lit
    ["committee"; "planning"; "taxes"; "measure"; "identity"; "punishment"; "procedures"; "cultural";
     "industry"; "areas"; "ethics"; "organization"; "share"; "falls"; "local"; "skills";
     "curve"; "identify"; "unemployment"; "spending"]%string;
  lp_constraint_terms := [];
  lp_note := REAL;
|}.

Definition mined_humanities_profile : LexiconProfile := {|
  lp_id := lit "mined-humanities"; lp_name := lit "Humanities (RouterBench)"; lp_source := lit "mined";
  lp_reasoning_terms := map lit
    ["classes"; "function"; "expression"; "extension"; "latin"; "russia"; "yard"; "facilities";
     "famous"; "republics"; "settlement"; "socialist"; "materials"; "morality"; "western";
     "colonial"; "fallacy"; "consequences"; "cultural"; "nations"]%string;
  lp_constraint_terms := [];
  lp_note := REAL;
|}.

Definition mined_commonsense_profile : LexiconProfile := {|
  lp_id := lit "mined-commonsense"; lp_name := lit "Commonsense (RouterBench)"; lp_source := lit "mined";
  lp_reasoning_terms := map lit
    ["carry"; "sheet"; "morally"; "scenarios"; "scenario"; "standards"; "moral"; "character";
     "ordinary"; "wrong"; "buying"; "wedding"; "oven"; "major"; "adjust"; "growth"]%string;
  lp_constraint_terms := [];
  lp_note := WEAK;
|}.

Definition mined_math_profile : LexiconProfile := {|
  lp_id := lit "mined-math"; lp_name := lit "Math word-problems (RouterBench)"; lp_source := lit "mined";
  lp_reasoning_terms := map lit
    ["candy"; "sunday"; "mother"; "saturday"; "mile"; "weighs"; "cards"; "birthday"]%string;
  lp_constraint_terms := [];
  lp_note := WEAK;
|}.

Definition mined_multilingual_profile : LexiconProfile := {|
  lp_id := lit "mined-multilingual"; lp_name := lit "Multilingual (RouterBench)"; lp_source := lit "mined";
  lp_reasoning_terms := map lit
    ["dragon"; "animal"; "approximate"; "birth"; "digit"; "estimated"; "exact"; "guesses";
     "sentences"; "subject's"; "wishing"; "without"; "year"; "zodiac"; "zones"; "monkey";
     "chinese"; "other"; "translate"; "snake"]%string;
  lp_constraint_terms := [];
  lp_note := WEAK;
|}.

Definition PROFILES : list LexiconProfile :=
  [proofs_math_profile;
   law_compliance_profile;
   code_infra_profile;
   science_medicine_profile;
   mined_science_profile;
   mined_general_profile;
   mined_humanities_profile;
   mined_commonsense_profile;
   mined_math_profile;
   mined_multilingual_profile].

Definition profiles : list LexiconProfile := PROFILES.

(** ** A profile as a lexicon *)
Definition profile_lexicon (p : LexiconProfile) : Lexicon := Lexicon_new (lp_reasoning_terms p) (lp_constraint_terms p).

(** A term a lexicon keeps as it is: trimmed, in lower case, one token. *)
Definition plain_term (term : str) : bool :=
  str_eqb (to_ascii_lowercase (trim term)) term && negb (str_eqb term []) && forallb (fun c => negb (char_is_whitespace c)) term.

Definition all_terms (p : LexiconProfile) : list str := lp_reasoning_terms p ++ lp_constraint_terms p.

(** Every term of every profile is a term of the lexicon it makes. *)
Lemma profile_terms_kept : Forall (fun p =>
  Forall (fun term => is_reasoning_term (profile_lexicon p) term = true) (lp_reasoning_terms p) /\
  Forall (fun term => is_constraint_term (profile_lexicon p) term = true) (lp_constraint_terms p) /\
  Forall (fun term => plain_term term = true) (all_terms p)) profiles.
Proof. apply (bool_decide_unpack _). vm_compute. exact I. Qed.

Lemma profiles_distinct : NoDup (map lp_id profiles) /\ Forall (fun p => lp_source p = lit "curated" \/ lp_source p = lit "mined") profiles.
Proof. split; apply (bool_decide_unpack _); vm_compute; exact I. Qed.
