(* ===== verification/Scoring.v ===== *)
(** * Scoring (crate [wayfinder-routing-core], [src/lib.rs])

    Weights, tiers, the linear classifier, the scalar score and the decision
    [score_complexity]. *)
From S2P Require Export PyRound Features.

(** [DEFAULT_THRESHOLD], [SATURATION] and [WEIGHT_SUM_ORDER]. *)
Definition DEFAULT_THRESHOLD : f64 := f64_dec 1 2.

Definition SATURATION : list f64 := map f64_of_Z [400; 8; 4; 15; 10; 4; 12; 2; 6; 3; 3].

Definition WEIGHT_SUM_ORDER : list nat := [0; 3; 1; 5; 6; 4; 2; 7; 8; 9; 10]%nat.

(** ** Weights: an array aligned with [FEATURE_ORDER] *)
Notation Weights := (list f64).

Definition Weights_get (w : Weights) (name : str) : option f64 := feature_index name ≫= (w !!.).

(** [set] reports whether the feature is known. *)
Definition Weights_set (w : Weights) (name : str) (value : f64) : Weights * bool :=
  match feature_index name with
  | None => (w, false)
  | Some index =>
      match w !! index with
      | None => (w, false)
      | Some _ => (<[index := value]> w, true)
      end
  end.

Definition Weights_at (w : Weights) (index : nat) : f64 := default f64_zero (w !! index).

Definition default_weights : Weights :=
  [f64_of_Z 3; f64_dec 15 1; f64_of_Z 1; f64_of_Z 2; f64_of_Z 1; f64_dec 15 1; f64_of_Z 1;
   f64_zero; f64_zero; f64_zero; f64_zero].

(** ** Tiers *)
Record Tier := {
  min_score : f64;
  tier_model : str;
  tier_cost : option f64;
}.

Definition Tier_new (min_score : f64) (model : str) : Tier :=
  {| min_score := min_score; tier_model := model; tier_cost := None |}.

Definition with_cost (t : Tier) (cost : f64) : Tier :=
  {| min_score := min_score t; tier_model := tier_model t; tier_cost := Some cost |}.

Definition binary_tiers (threshold : f64) : list Tier :=
  [Tier_new f64_zero (lit "local"); Tier_new threshold (lit "cloud")].

(** The loop of [recommend_tier] after [chosen] was set. *)
Fixpoint recommend_loop (score : f64) (chosen : str) (tiers : list Tier) : str :=
  match tiers with
  | [] => chosen
  | tier :: tiers =>
      if f64_ge score (min_score tier) then recommend_loop score (tier_model tier) tiers
      else chosen
  end.

Definition recommend_tier (score : f64) (tiers : list Tier) : option str :=
  match tiers with
  | [] => None
  | first :: _ => Some (recommend_loop score (tier_model first) tiers)
  end.

(** ** Normalization *)

(** [min(raw / saturation, 1.0)] per feature. *)
Definition normalize_one (raw : Z) (saturation : f64) : f64 :=
  f64_min (f64_div (f64_of_Z raw) saturation) f64_one.

Definition normalized_features (features : Features) : list f64 :=
  imap (fun index saturation => normalize_one (default 0 (Features_get features index)) saturation)
    SATURATION.

(** ** Classifier *)
Record ClassifierModel := {
  cm_models : list str;
  cm_weights : list (list f64);
  cm_intercepts : list f64;
}.

(** The loop of [ClassifierModel::new] over the named weight vectors. *)
Fixpoint place_weights (count : nat) (weights : btree (list f64)) (rows : list (list f64))
    : result (list (list f64)) CoreError :=
  match weights with
  | [] => Ok rows
  | (name, vector) :: weights =>
      match feature_index name with
      | None => Err (InvalidClassifier (Msg "unknown feature {name:?}" [ArgStr name]))
      | Some index =>
          if negb (Nat.eqb (length vector) count)
          then Err (InvalidClassifier
                 (Msg "weight vector for {name:?} must contain {} values"
                      [ArgStr name; ArgInt (Z.of_nat count)]))
          else place_weights count weights (<[index := vector]> rows)
      end
  end.

Definition ClassifierModel_new (models : list str) (weights : btree (list f64))
    (intercepts : list f64) : result ClassifierModel CoreError :=
  if Nat.ltb (length models) 2
  then Err (InvalidClassifier (Msg "models must contain at least two entries" []))
  else if existsb (fun model => str_eqb model []) models
  then Err (InvalidClassifier (Msg "model names must be non-empty" []))
  else
    let unique : gset str := list_to_set models in
    if negb (Nat.eqb (size unique) (length models))
    then Err (InvalidClassifier (Msg "model names must be unique" []))
    else if negb (Nat.eqb (length intercepts) (length models))
    then Err (InvalidClassifier
           (Msg "intercepts must contain {} values" [ArgInt (len models)]))
    else
      let? rows := place_weights (length models) weights
                     (replicate (length FEATURE_ORDER) (replicate (length models) f64_zero)) in
      Ok {| cm_models := models; cm_weights := rows; cm_intercepts := intercepts |}.

Definition weights_for (c : ClassifierModel) (name : str) : option (list f64) :=
  feature_index name ≫= (cm_weights c !!.).

Definition logit (c : ClassifierModel) (normalized : list f64) (model_index : nat) (intercept : f64) : f64 :=
  foldl (fun value '(feature_index, normalized_value) =>
           let weight := default f64_zero (row ← cm_weights c !! feature_index; row !! model_index) in
           f64_add value (f64_mul weight normalized_value))
    intercept (imap pair normalized).

Definition logits (c : ClassifierModel) (features : Features) : list f64 :=
  imap (logit c (normalized_features features)) (cm_intercepts c).

(** The scan for the largest logit; ties keep the earlier index. *)
Fixpoint best_loop (index best_index : nat) (best_value : f64) (values : list f64) : nat :=
  match values with
  | [] => best_index
  | value :: values =>
      if f64_gt value best_value then best_loop (S index) index value values
      else best_loop (S index) best_index best_value values
  end.

Definition predict (c : ClassifierModel) (features : Features) : option str :=
  match logits c features with
  | [] => None
  | first :: rest => cm_models c !! best_loop 1 0 first rest
  end.

(** ** Routing configuration and decision *)
Record RoutingConfig := {
  cfg_weights : Weights;
  cfg_tiers : list Tier;
  cfg_classifier : option ClassifierModel;
  cfg_lexicon : Lexicon;
}.

Definition default_routing_config : RoutingConfig :=
  {| cfg_weights := default_weights; cfg_tiers := binary_tiers DEFAULT_THRESHOLD;
     cfg_classifier := None; cfg_lexicon := default_lexicon |}.

Definition RoutingConfig_binary (threshold : f64) : RoutingConfig :=
  {| cfg_weights := default_weights; cfg_tiers := binary_tiers threshold;
     cfg_classifier := None; cfg_lexicon := default_lexicon |}.

Inductive RoutingMode := Tiered | Classifier.

Record ComplexityScore := {
  cs_schema_version : str;
  cs_score : f64;
  cs_recommendation : str;
  cs_mode : RoutingMode;
  cs_features : Features;
  cs_tiers : option (list Tier);
  cs_models : option (list str);
}.

Definition total_weight (weights : Weights) : f64 :=
  foldl (fun total index => f64_add total (Weights_at weights index)) f64_zero WEIGHT_SUM_ORDER.

Definition scalar_score (features : Features) (weights : Weights) : f64 :=
  let normalized := normalized_features features in
  if f64_eq (total_weight weights) f64_zero then f64_zero
  else
    let accumulated :=
      foldl (fun acc '(index, value) => f64_add acc (f64_mul (Weights_at weights index) value))
        f64_zero (imap pair normalized) in
    python_round (f64_div accumulated (total_weight weights)) 2.

Definition score_complexity (compiled : result Patterns str) (text : str) (config : RoutingConfig)
    : result ComplexityScore CoreError :=
  let? features := extract_features_with_lexicon compiled text (cfg_lexicon config) in
  let score := scalar_score features (cfg_weights config) in
  match cfg_classifier config with
  | Some classifier =>
      let? recommendation :=
        ok_or (predict classifier features)
          (InvalidClassifier (Msg "classifier has no prediction" [])) in
      Ok {| cs_schema_version := lit "3"; cs_score := score;
            cs_recommendation := recommendation; cs_mode := Classifier;
            cs_features := features; cs_tiers := None;
            cs_models := Some (cm_models classifier) |}
  | None =>
      let? recommendation := ok_or (recommend_tier score (cfg_tiers config)) MissingTier in
      Ok {| cs_schema_version := lit "3"; cs_score := score;
            cs_recommendation := recommendation; cs_mode := Tiered;
            cs_features := features; cs_tiers := Some (cfg_tiers config);
            cs_models := None |}
  end.

Record FeatureContribution := {
  fc_name : str;
  fc_value : Z;
  fc_normalized : f64;
  fc_weight : f64;
  fc_contribution : f64;
}.

Definition explain_score (features : Features) (weights : Weights) : list FeatureContribution :=
  let normalized := normalized_features features in
  imap (fun index name =>
    let normalized_value := default f64_zero (normalized !! index) in
    let weight := Weights_at weights index in
    let contribution :=
      if f64_eq (total_weight weights) f64_zero then f64_zero
      else f64_div (f64_mul weight normalized_value) (total_weight weights) in
    {| fc_name := name;
       fc_value := default 0 (Features_get features index);
       fc_normalized := python_round normalized_value 4;
       fc_weight := weight;
       fc_contribution := python_round contribution 4 |}) FEATURE_ORDER.

(** ** Specifications *)

Definition tiers_ascending (tiers : list Tier) : Prop :=
  Sorted (fun a b => f64_le (min_score a) (min_score b) = true) tiers.

(** The tiers whose lower boundary the score reaches. *)
Definition reached (score : f64) (tiers : list Tier) : list Tier :=
  List.filter (fun t => f64_ge score (min_score t)) tiers.

Record wf_classifier (c : ClassifierModel) : Prop := {
  wfc_two : (2 <= length (cm_models c))%nat;
  wfc_unique : NoDup (cm_models c);
  wfc_named : [] ∉ cm_models c;
  wfc_intercepts : length (cm_intercepts c) = length (cm_models c);
  wfc_rows : length (cm_weights c) = length FEATURE_ORDER;
  wfc_row : Forall (fun row => length row = length (cm_models c)) (cm_weights c);
}.

(** Index [i] holds the first largest value of [l]. *)
Definition first_argmax (l : list f64) (i : nat) : Prop :=
  exists v, l !! i = Some v /\
    (forall j w, l !! j = Some w -> f64_le w v = true) /\
    (forall j w, (j < i)%nat -> l !! j = Some w -> f64_lt w v = true).

Definition nan_free (l : list f64) : Prop := Forall (fun v => f64_is_nan v = false) l.

(** The models a configuration can recommend. *)
Definition configured_models (config : RoutingConfig) : list str :=
  match cfg_classifier config with
  | Some c => cm_models c
  | None => map tier_model (cfg_tiers config)
  end.

(** ** Tiers *)

Lemma recommend_loop_spec score chosen tiers :
  StronglySorted (fun a b => f64_le (min_score a) (min_score b) = true) tiers ->
  recommend_loop score chosen tiers = default chosen (tier_model <$> last (reached score tiers)).
Proof.
  intros Hs. revert chosen. induction Hs as [|t tiers Hs IH Hall]; intros chosen; simpl; [done|].
  destruct (f64_ge score (min_score t)) eqn:Hge.
  - rewrite IH, last_cons. by destruct (last (reached score tiers)).
  - unfold reached. assert (List.filter (fun t => f64_ge score (min_score t)) tiers = []) as ->; [|done].
    clear IH Hs. induction Hall as [|u tiers Hu Hall IH]; simpl; [done|].
    destruct (f64_ge score (min_score u)) eqn:Hge'; [|done].
    rewrite f64_ge_le in *. by rewrite (f64_le_trans _ _ _ Hu Hge') in Hge.
Qed.

Lemma recommend_loop_in score chosen tiers :
  recommend_loop score chosen tiers = chosen \/ recommend_loop score chosen tiers ∈ map tier_model tiers.
Proof.
  revert chosen. induction tiers as [|t tiers IH]; intros chosen; simpl; [by left|].
  destruct (f64_ge score (min_score t)); [|by left]. right.
  destruct (IH (tier_model t)) as [->|?]; [left|by right].
Qed.

(** ** The arg-max scan *)

Lemma best_loop_bound index best_index best_value values :
  best_loop index best_index best_value values = best_index \/
  (index <= best_loop index best_index best_value values < index + length values)%nat.
Proof.
  revert index best_index best_value. induction values as [|v values IH]; intros index bi bv; simpl; [by left|].
  destruct (f64_gt v bv).
  - right. destruct (IH (S index) index v) as [->|?]; lia.
  - destruct (IH (S index) bi bv) as [->|?]; [by left|right; lia].
Qed.

Lemma best_loop_argmax pre values best_index best_value :
  nan_free (pre ++ values) ->
  first_argmax pre best_index -> pre !! best_index = Some best_value ->
  first_argmax (pre ++ values) (best_loop (length pre) best_index best_value values).
Proof.
  revert pre best_index best_value. induction values as [|v values IH]; intros pre bi bv Hnan Hmax Hbv; simpl.
  - by rewrite app_nil_r.
  - destruct Hmax as (bv' & Hbv' & Hle & Hlt). rewrite Hbv' in Hbv. injection Hbv as ->.
    assert (Hpre : nan_free pre /\ f64_is_nan v = false).
    { unfold nan_free in *. apply Forall_app in Hnan as [? [??]%Forall_cons]. done. }
    destruct Hpre as [Hpre Hv].
    assert (f64_is_nan bv = false) as Hbn by (by eapply Forall_lookup_1 in Hpre).
    rewrite (cons_middle v), (assoc_L (++)) in Hnan |- *.
    assert (length pre + 1 = length (pre ++ [v]))%nat as Hlen by (rewrite length_app; simpl; lia).
    replace (S (length pre)) with (length (pre ++ [v])) by lia.
    rewrite f64_gt_lt. destruct (f64_lt bv v) eqn:Hgt.
    + apply IH; [done| |by rewrite lookup_app_r, Nat.sub_diag by lia].
      exists v. split; [by rewrite lookup_app_r, Nat.sub_diag by lia|]. split.
      * intros j w [Hj|[_ Hj]]%lookup_app_Some.
        -- apply f64_lt_le. eapply f64_le_lt_trans; [by eapply Hle|done].
        -- apply list_lookup_singleton_Some in Hj as [_ <-]. by apply f64_not_nan_le_refl.
      * intros j w Hj Hw. rewrite lookup_app_l in Hw by done.
        eapply f64_le_lt_trans; [by eapply Hle|done].
    + apply IH; [done| |by apply lookup_app_l_Some].
      exists bv. split; [by apply lookup_app_l_Some|]. split.
      * intros j w [Hj|[_ Hj]]%lookup_app_Some; [by eapply Hle|].
        apply list_lookup_singleton_Some in Hj as [_ <-]. by apply f64_not_lt_ge.
      * intros j w Hj Hw. eapply Hlt; [done|]. rewrite lookup_app_l in Hw; [done|].
        apply lookup_lt_Some in Hbv'. lia.
Qed.

(** ** Classifier construction *)

Lemma length_logits c features : length (logits c features) = length (cm_intercepts c).
Proof. apply length_imap. Qed.

Lemma size_list_to_set_le (l : list str) : (size (list_to_set l : gset str) <= length l)%nat.
Proof.
  induction l as [|x l IH]; [by rewrite list_to_set_nil, size_empty|]. rewrite list_to_set_cons.
  rewrite size_union_alt. rewrite size_singleton. simpl.
  assert (size ((list_to_set l : gset str) ∖ {[x]}) <= size (list_to_set l : gset str))%nat; [|lia].
  apply subseteq_size. set_solver.
Qed.

(** [unique.len() == models.len()] tests for duplicates. *)
Lemma size_list_to_set_NoDup (l : list str) :
  size (list_to_set l : gset str) = length l <-> NoDup l.
Proof.
  split; [|apply size_list_to_set].
  induction l as [|x l IH]; intros Hsize; [constructor|].
  rewrite list_to_set_cons in Hsize. simpl in Hsize. pose proof (size_list_to_set_le l).
  destruct (decide (x ∈ l)) as [Hin|Hnin].
  - replace ({[x]} ∪ list_to_set l : gset str) with (list_to_set l : gset str) in Hsize by set_solver. lia.
  - constructor; [done|]. apply IH. rewrite size_union, size_singleton in Hsize by set_solver. lia.
Qed.

Lemma existsb_empty (models : list str) :
  existsb (fun model => str_eqb model []) models = false <-> [] ∉ models.
Proof.
  induction models as [|m models IH]; simpl; [split; [intros _; apply not_elem_of_nil|done]|].
  rewrite orb_false_iff, IH, str_eqb_neq, not_elem_of_cons. naive_solver.
Qed.

Lemma feature_index_bound name index : feature_index name = Some index -> (index < length FEATURE_ORDER)%nat.
Proof.
  unfold feature_index. generalize FEATURE_ORDER. intros l. revert index.
  induction l as [|x l IH]; intros index; simpl; [done|]. destruct (str_eqb name x); [intros [= <-]; lia|].
  destruct (position (str_eqb name) l); simpl; [|done]. intros [= <-]. specialize (IH _ eq_refl). lia.
Qed.

Lemma position_lookup name l index : position (str_eqb name) l = Some index -> l !! index = Some name.
Proof.
  revert index. induction l as [|x l IH]; intros index; simpl; [done|].
  destruct (str_eqb name x) eqn:E; [apply str_eqb_eq in E as ->; by intros [= <-]|].
  destruct (position (str_eqb name) l); simpl; [|done]. intros [= <-]. by apply IH.
Qed.

Lemma feature_index_inj a b index :
  feature_index a = Some index -> feature_index b = Some index -> a = b.
Proof. intros Ha%position_lookup Hb%position_lookup. rewrite Ha in Hb. by injection Hb. Qed.

(** The vectors [place_weights] accepts. *)
Definition vector_ok (n : nat) (kv : str * list f64) : Prop :=
  is_Some (feature_index (fst kv)) /\ length (snd kv) = n.

Lemma place_weights_ok n weights rows :
  is_ok (place_weights n weights rows) = true <-> Forall (vector_ok n) weights.
Proof.
  revert rows. induction weights as [|[name vector] weights IH]; intros rows; simpl; [split; constructor|].
  rewrite Forall_cons. unfold vector_ok at 1. simpl.
  destruct (feature_index name) as [index|].
  - destruct (Nat.eqb_spec (length vector) n); simpl; [rewrite IH; naive_solver|naive_solver].
  - split; [done|]. intros [[[? ?] _] _]. done.
Qed.

Lemma place_weights_length n weights rows rows' :
  place_weights n weights rows = Ok rows' ->
  Forall (fun row => length row = n) rows ->
  length rows' = length rows /\ Forall (fun row => length row = n) rows'.
Proof.
  revert rows. induction weights as [|[name vector] weights IH]; intros rows; simpl; [by intros [= ->]|].
  destruct (feature_index name) as [index|]; [|done].
  destruct (Nat.eqb_spec (length vector) n); simpl; [|done]. intros Hp Hrows.
  apply IH in Hp as [-> ?]; [by rewrite length_insert|]. by apply Forall_insert.
Qed.

(** Each known feature ends with its own vector, or with the row it had. *)
Lemma place_weights_row n weights rows rows' name index :
  bt_sorted weights -> place_weights n weights rows = Ok rows' ->
  feature_index name = Some index -> (index < length rows)%nat ->
  rows' !! index = match bt_get weights name with Some v => Some v | None => rows !! index end.
Proof.
  intros Hs. revert rows. induction Hs as [|k v weights Hlt Hs IH]; intros rows; simpl; [by intros [= ->]|].
  destruct (feature_index k) as [ik|] eqn:Hk; [|done].
  destruct (Nat.eqb_spec (length v) n); simpl; [|done]. intros Hp Hname Hlen.
  rewrite (IH _ Hp Hname) by (by rewrite length_insert). destruct (str_eqb name k) eqn:E.
  - apply str_eqb_eq in E as ->. rewrite Hk in Hname. injection Hname as ->.
    rewrite bt_get_None by done. by rewrite list_lookup_insert_eq.
  - apply str_eqb_neq in E. rewrite list_lookup_insert_ne; [done|].
    intros ->. apply E. by eapply feature_index_inj.
Qed.

Lemma classifier_new_wf models weights intercepts c :
  ClassifierModel_new models weights intercepts = Ok c -> wf_classifier c.
Proof.
  unfold ClassifierModel_new.
  destruct (Nat.ltb_spec (length models) 2); [done|].
  destruct (existsb _ models) eqn:He; [done|]. apply existsb_empty in He.
  destruct (Nat.eqb_spec (size (list_to_set models : gset str)) (length models)) as [Hu|]; [|done].
  apply size_list_to_set_NoDup in Hu. simpl negb. cbv iota.
  destruct (Nat.eqb_spec (length intercepts) (length models)); [|done]. simpl negb. cbv iota.
  intros (rows & Hp & [= <-])%result_bind_ok.
  apply place_weights_length in Hp as [Hl Hr]; [|apply Forall_replicate; by rewrite length_replicate].
  rewrite length_replicate in Hl. by split.
Qed.

Lemma predict_some c features :
  wf_classifier c -> exists m, predict c features = Some m /\ m ∈ cm_models c.
Proof.
  intros [Htwo _ _ Hint _ _]. unfold predict. pose proof (length_logits c features) as Hl.
  destruct (logits c features) as [|v rest]; simpl in Hl; [lia|].
  destruct (lookup_lt_is_Some_2 (cm_models c) (best_loop 1 0 v rest)) as [m Hm].
  - destruct (best_loop_bound 1 0 v rest) as [->|?]; lia.
  - exists m. split; [done|]. by eapply list_elem_of_lookup_2.
Qed.

(** ** Signs of the normalized features *)

(** Zero or positive, or NaN: what survives a division by a positive constant. *)
Definition not_negative (a : f64) : Prop := f64_is_nan a = true \/ f64_is_sign_negative a = false.

Lemma binary_round_aux_sign mx ex lx :
  not_negative (binary_round_aux f64_prec f64_emax false mx ex lx).
Proof.
  unfold binary_round_aux, not_negative. destruct (shr_fexp _ _ _ _ _) as [mrs e'].
  destruct (shr_fexp _ _ _ _ _) as [mrs' e'']. destruct (shr_m mrs'); simpl; auto.
  destruct (_ <=? _); simpl; auto.
Qed.

Lemma f64_of_Z_sign n : 0 <= n -> not_negative (f64_of_Z n).
Proof.
  unfold f64_of_Z, binary_normalize. destruct n; intros; [by right| |lia].
  unfold binary_round. destruct (shl_align _ _ _). apply binary_round_aux_sign.
Qed.

Lemma f64_div_sign a b : not_negative a -> not_negative b -> not_negative (f64_div a b).
Proof.
  unfold not_negative. intros Ha Hb.
  destruct a as [[]|[]| |[] ma ea], b as [[]|[]| |[] mb eb]; simpl in *; try naive_solver.
  destruct (SFdiv_core_binary _ _ _ _ _ _) as [[mz ez] lz]. apply binary_round_aux_sign.
Qed.

Lemma f64_min_one_unit a : not_negative a -> f64_in_range f64_zero f64_one (f64_min a f64_one) = true.
Proof.
  intros Ha. unfold f64_in_range. apply andb_true_iff. split.
  - unfold f64_min. destruct (f64_is_nan a) eqn:Hn; [by vm_compute|]. destruct Ha as [Ha|Ha]; [congruence|].
    replace (f64_is_nan f64_one) with false by by vm_compute.
    destruct (f64_le a f64_one); [|by vm_compute]. by destruct a as [[]|[]| |[] ? ?].
  - by apply f64_min_le_r.
Qed.

(** ** Properties *)

(** Every normalized feature lies in [0.0..=1.0], whatever the raw count. *)
Theorem normalized_features_unit features :
  Forall (fun n => 0 <= n) (Features_list features) ->
  length (normalized_features features) = length FEATURE_ORDER /\
  Forall (fun v => f64_in_range f64_zero f64_one v = true) (normalized_features features).
Proof.
  intros Hf. unfold normalized_features. rewrite length_imap. split; [done|].
  apply Forall_lookup. intros i v Hv. rewrite list_lookup_imap in Hv.
  destruct (SATURATION !! i) as [s|] eqn:Hs; [|done]. simpl in Hv. injection Hv as <-.
  apply f64_min_one_unit, f64_div_sign.
  - apply f64_of_Z_sign. unfold Features_get. destruct (Features_list features !! i) eqn:Hi; [|done].
    by eapply Forall_lookup_1 in Hf.
  - right. apply list_elem_of_lookup_2 in Hs.
    assert (Forall (fun s => f64_is_sign_negative s = false) SATURATION) as Hall
      by (vm_compute; repeat constructor).
    by eapply Forall_forall in Hall.
Qed.

Definition sample_features : Features := Build_Features 900 2 3 0 1 0 0 4 0 1 2.

Lemma normalized_features_unit_witness :
  Forall (fun v => f64_in_range f64_zero f64_one v = true) (normalized_features sample_features).
Proof.
  apply (normalized_features_unit sample_features).
  repeat (apply Forall_cons; split; [simpl; lia|]). constructor.
Defined.

(** On an ascending ladder [recommend_tier] returns the model of the
    highest tier whose lower boundary the score reaches, the first tier when
    it reaches none (a NaN score included), and nothing only on an empty
    ladder. *)
Theorem recommend_tier_highest score tiers :
  tiers_ascending tiers ->
  recommend_tier score tiers =
  match tiers with
  | [] => None
  | first :: _ => Some (tier_model (default first (last (reached score tiers))))
  end.
Proof.
  intros Hs. apply Sorted_StronglySorted in Hs; [|intros ???; apply f64_le_trans].
  destruct tiers as [|first tiers]; [done|]. unfold recommend_tier. f_equal.
  rewrite recommend_loop_spec by done. by destruct (last _).
Qed.

Definition sample_tiers : list Tier :=
  [Tier_new f64_zero (lit "local"); Tier_new (f64_dec 1 1) (lit "mid"); Tier_new (f64_dec 5 1) (lit "cloud")].

Lemma recommend_tier_highest_witness : recommend_tier (f64_dec 3 1) sample_tiers = Some (lit "mid").
Proof.
  rewrite recommend_tier_highest; [vm_compute; reflexivity|]. repeat constructor.
Defined.

(** [ClassifierModel::new] accepts exactly the well-shaped inputs: at least
    two distinct non-empty models, one intercept per model, and only known
    features with one weight per model. *)
Theorem classifier_new_accepts models weights intercepts :
  is_ok (ClassifierModel_new models weights intercepts) = true <->
  (2 <= length models)%nat /\ [] ∉ models /\ NoDup models /\
  length intercepts = length models /\ Forall (vector_ok (length models)) weights.
Proof.
  unfold ClassifierModel_new.
  destruct (Nat.ltb_spec (length models) 2); [simpl; split; [done|lia]|].
  destruct (existsb _ models) eqn:He.
  { split; [done|]. intros (_ & Hne%existsb_empty & _). congruence. }
  apply existsb_empty in He.
  destruct (Nat.eqb_spec (size (list_to_set models : gset str)) (length models)) as [Hu|Hu];
    rewrite size_list_to_set_NoDup in Hu; simpl negb; cbv iota; [|simpl; naive_solver].
  destruct (Nat.eqb_spec (length intercepts) (length models)); simpl negb; cbv iota; [|simpl; naive_solver].
  match goal with |- context [place_weights ?n ?w ?r] =>
    pose proof (place_weights_ok n w r) as Hp; destruct (place_weights n w r) end;
  simpl in *; naive_solver.
Qed.

(** A constructed classifier is well formed and keeps what it was given:
    its models and intercepts in order, each named vector under its feature,
    and the zero vector for every feature left out. *)
Theorem classifier_new_contents models weights intercepts c :
  bt_sorted weights -> ClassifierModel_new models weights intercepts = Ok c ->
  wf_classifier c /\ cm_models c = models /\ cm_intercepts c = intercepts /\
  forall name, is_Some (feature_index name) ->
    weights_for c name =
    Some (default (replicate (length models) f64_zero) (bt_get weights name)).
Proof.
  intros Hs Hnew. pose proof (classifier_new_wf _ _ _ _ Hnew) as Hwf. revert Hnew.
  unfold ClassifierModel_new. do 4 (case_match; [done|]).
  intros (rows & Hp & [= <-])%result_bind_ok. split_and!; [done..|].
  intros name [index Hi]. unfold weights_for. rewrite Hi. simpl.
  pose proof (feature_index_bound _ _ Hi).
  rewrite (place_weights_row _ _ _ _ _ _ Hs Hp Hi) by (by rewrite length_replicate).
  destruct (bt_get weights name); [done|]. simpl default.
  apply lookup_replicate. by split.
Qed.

Definition sample_models : list str := [lit "small"; lit "large"].
Definition sample_weights : btree (list f64) := [(lit "word_count", [f64_one; f64_of_Z 2])].

Definition sample_classifier : ClassifierModel :=
  match ClassifierModel_new sample_models sample_weights [f64_zero; f64_dec 5 1] with
  | Ok c => c
  | Err _ => Build_ClassifierModel [] [] []
  end.

Lemma classifier_new_contents_witness :
  weights_for sample_classifier (lit "word_count") = Some [f64_one; f64_of_Z 2] /\
  weights_for sample_classifier (lit "link_count") = Some [f64_zero; f64_zero].
Proof.
  destruct (classifier_new_contents sample_models sample_weights [f64_zero; f64_dec 5 1] sample_classifier)
    as (_ & _ & _ & H).
  - repeat constructor.
  - vm_compute. reflexivity.
  - split; rewrite H; [vm_compute; reflexivity|eexists; vm_compute; reflexivity| |eexists; vm_compute; reflexivity].
    vm_compute. reflexivity.
Defined.

(** A well-formed classifier predicts the model with the largest logit,
    the earliest one on ties, when no logit is NaN. *)
Theorem predict_first_argmax c features :
  wf_classifier c -> nan_free (logits c features) ->
  exists i m, first_argmax (logits c features) i /\
    cm_models c !! i = Some m /\ predict c features = Some m.
Proof.
  intros Hwf Hnan. pose proof (predict_some c features Hwf) as (m & Hm & _).
  unfold predict in *. destruct (logits c features) as [|v rest]; [done|].
  exists (best_loop 1 0 v rest), m. split; [|by rewrite Hm].
  apply (best_loop_argmax [v] rest 0 v); [done| |done].
  unfold nan_free in Hnan. apply Forall_cons in Hnan as [Hv _].
  exists v. split; [done|]. split; [|lia].
  intros j w [_ <-]%list_lookup_singleton_Some. by apply f64_not_nan_le_refl.
Qed.

Lemma predict_first_argmax_witness :
  exists i m, first_argmax (logits sample_classifier sample_features) i /\
    cm_models sample_classifier !! i = Some m /\ predict sample_classifier sample_features = Some m.
Proof.
  apply predict_first_argmax.
  - apply (classifier_new_wf sample_models sample_weights [f64_zero; f64_dec 5 1]). vm_compute. reflexivity.
  - unfold nan_free. vm_compute. repeat constructor.
Defined.

Lemma score_complexity_answers p text config :
  match cfg_classifier config with
  | Some c => wf_classifier c
  | None => cfg_tiers config <> []
  end ->
  exists scored, score_complexity (Ok p) text config = Ok scored /\
    cs_recommendation scored ∈ configured_models config /\
    cs_score scored = scalar_score (cs_features scored) (cfg_weights config).
Proof.
  intros Hcfg. unfold score_complexity, extract_features_with_lexicon, configured_models.
  cbn [patterns map_err result_bind].
  destruct (cfg_classifier config) as [c|].
  - destruct (predict_some c (extract_body p (strip_frontmatter text) (cfg_lexicon config)) Hcfg)
      as (m & -> & Hm). cbn [ok_or result_bind]. eauto.
  - destruct (cfg_tiers config) as [|first tiers] eqn:Ht; [done|].
    cbn [recommend_tier ok_or result_bind]. eexists. split; [done|]. split; [|done].
    cbn [cs_recommendation].
    match goal with |- recommend_loop ?s ?c ?t ∈ _ => destruct (recommend_loop_in s c t) as [->|?] end; [left|done].
Qed.

(** C5: Scoring always answers on a usable configuration: once the built-in
    patterns compile, a configuration with a well-formed classifier or a
    non-empty ladder gets a decision, and the recommended model is one of the
    configured ones. *)
Theorem score_complexity_total p text config :
  match cfg_classifier config with
  | Some c => wf_classifier c
  | None => cfg_tiers config <> []
  end ->
  exists scored, score_complexity (Ok p) text config = Ok scored /\
    cs_recommendation scored ∈ configured_models config /\
    cs_score scored = scalar_score (cs_features scored) (cfg_weights config).
Proof. apply score_complexity_answers. Qed.

(** Patterns on literal prefixes, for closed examples. *)
Definition sample_patterns : Patterns :=
  {| heading_captures line := if starts_with line (lit "# ") then Some (Some (lit "#")) else None;
     list_is_match line := starts_with line (lit "- ");
     table_row_is_match line := starts_with line (lit "|");
     fence_is_match line := starts_with line (lit "```");
     link_find_iter _ := [];
     word_token_find_iter text := words text [];
     math_symbol_find_iter _ := [] |}.

Lemma score_complexity_total_witness :
  exists scored, score_complexity (Ok sample_patterns) (lit "# hello") default_routing_config = Ok scored /\
    cs_recommendation scored ∈ configured_models default_routing_config /\
    cs_score scored = scalar_score (cs_features scored) (cfg_weights default_routing_config).
Proof. apply score_complexity_total. discriminate. Defined.
