(* ===== verification/Calendar.v ===== *)
(** * UTC dates (crate [wayfinder-service], [src/pricing.rs])

    The ledger's bucket keys: validation, the [YYYY-MM-DD] text form and the
    day ordinal the report windows compare. *)
From S2P Require Export Text PyRound BTree.

(** ** The code *)

Inductive LedgerError := InvalidDate (m : message).

Record UtcDate := {
  year : Z;
  month : Z;
  day : Z;
}.

Definition days_in_month (year month : Z) : Z :=
  if existsb (Z.eqb month) [1; 3; 5; 7; 8; 10; 12] then 31
  else if existsb (Z.eqb month) [4; 6; 9; 11] then 30
  else if (month =? 2) && ((Z.rem year 4 =? 0) && (negb (Z.rem year 100 =? 0) || (Z.rem year 400 =? 0))) then 29
  else if month =? 2 then 28
  else 0.

Definition UtcDate_new (year month day : Z) : result UtcDate LedgerError :=
  let valid := ((1 <=? year) && (year <=? 9999)) && ((1 <=? month) && (month <=? 12))
               && ((1 <=? day) && (day <=? days_in_month year month)) in
  if negb valid
  then Err (InvalidDate (Msg "{year:04}-{month:02}-{day:02}" [ArgInt year; ArgInt month; ArgInt day]))
  else Ok {| year := year; month := month; day := day |}.

(** [part.parse::<u8>()] and [part.parse::<i32>()] on the bytes of [part]: an
    optional sign ([+], and [-] for the signed type), then at least one digit,
    within the type. *)
Fixpoint parse_digits (acc : Z) (bytes : list Z) : option Z :=
  match bytes with
  | [] => Some acc
  | byte :: bytes => d ← ascii_digit byte; parse_digits (acc * 10 + d) bytes
  end.

Definition parse_unsigned (max : Z) (bytes : list Z) : option Z :=
  let digits := match bytes with b :: rest => if b =? 43 then rest else bytes | [] => [] end in
  match digits with
  | [] => None
  | _ => n ← parse_digits 0 digits; if n <=? max then Some n else None
  end.

Definition parse_u8 (bytes : list Z) : option Z := parse_unsigned 255 bytes.

Definition parse_i32 (bytes : list Z) : option Z :=
  match bytes with
  | b :: rest => if b =? 45 then Z.opp <$> parse_unsigned 2147483648 rest else parse_unsigned 2147483647 bytes
  | [] => None
  end.

(** [UtcDate::parse].  The slices of the code fall on character boundaries,
    because the bytes at 4 and 7 are checked to be ASCII first. *)
Definition UtcDate_parse (value : str) : result UtcDate LedgerError :=
  let bytes := as_bytes value in
  let error := InvalidDate (Msg "{}" [ArgStr value]) in
  if negb (len bytes =? 10) || negb (bool_decide (bytes !! 4%nat = Some 45))
     || negb (bool_decide (bytes !! 7%nat = Some 45))
  then Err error
  else
    let? y := ok_or (parse_i32 (take 4 bytes)) error in
    let? m := ok_or (parse_u8 (take 2 (drop 5 bytes))) error in
    let? d := ok_or (parse_u8 (take 2 (drop 8 bytes))) error in
    UtcDate_new y m d.

(** Howard Hinnant's day count; [/] truncates. *)
Definition ordinal (date : UtcDate) : Z :=
  let y := year date - (if month date <=? 2 then 1 else 0) in
  let era := Z.quot (if 0 <=? y then y else y - 399) 400 in
  let year_of_era := y - era * 400 in
  let shifted_month := month date + (if 2 <? month date then -3 else 9) in
  let day_of_year := Z.quot (153 * shifted_month + 2) 5 + day date - 1 in
  let day_of_era :=
    year_of_era * 365 + Z.quot year_of_era 4 - Z.quot year_of_era 100 + day_of_year in
  era * 146097 + day_of_era.

(** [{:04}] and [{:02}] of the fields of a valid date. *)
Definition month_prefix (d : UtcDate) : str := digits_ascii 4 (year d) ++ [45] ++ digits_ascii 2 (month d).
Definition to_string (d : UtcDate) : str :=
  digits_ascii 4 (year d) ++ [45] ++ digits_ascii 2 (month d) ++ [45] ++ digits_ascii 2 (day d).

(** ** Valid dates *)
Record valid_date (d : UtcDate) : Prop := {
  vd_year : 1 <= year d <= 9999;
  vd_month : 1 <= month d <= 12;
  vd_day : 1 <= day d <= days_in_month (year d) (month d);
}.

Definition leap (y : Z) : bool := (y mod 4 =? 0) && (negb (y mod 100 =? 0) || (y mod 400 =? 0)).

(** The calendar's next day. *)
Definition next_day (d : UtcDate) : UtcDate :=
  if day d <? days_in_month (year d) (month d) then {| year := year d; month := month d; day := day d + 1 |}
  else if month d <? 12 then {| year := year d; month := month d + 1; day := 1 |}
  else {| year := year d + 1; month := 1; day := 1 |}.

Lemma month_cases m : 1 <= m <= 12 ->
  m = 1 \/ m = 2 \/ m = 3 \/ m = 4 \/ m = 5 \/ m = 6 \/ m = 7 \/ m = 8 \/ m = 9 \/ m = 10 \/ m = 11 \/ m = 12.
Proof. lia. Qed.

Ltac by_month H := destruct (month_cases _ H) as [->|[->|[->|[->|[->|[->|[->|[->|[->|[->|[->| ->]]]]]]]]]]].

Lemma days_in_february y : 0 <= y -> days_in_month y 2 = if leap y then 29 else 28.
Proof.
  intros. unfold days_in_month, leap. cbn [existsb Z.eqb Pos.eqb orb andb].
  rewrite !Z.rem_mod_nonneg by lia. done.
Qed.

Lemma days_in_month_bound y m : 0 <= days_in_month y m <= 31.
Proof. unfold days_in_month. repeat case_match; lia. Qed.

Lemma new_valid y m d date :
  UtcDate_new y m d = Ok date <-> date = {| year := y; month := m; day := d |} /\ valid_date date.
Proof.
  unfold UtcDate_new. split.
  - case_match eqn:E; [done|]. intros [= <-]. zify_bools. split; [done|]. split; simpl; lia.
  - intros [-> [? ? ?]]. simpl in *. by replace (negb _) with false by lia.
Qed.

Lemma parse_valid value date : UtcDate_parse value = Ok date -> valid_date date.
Proof.
  unfold UtcDate_parse. case_match; [done|]. intros H1. inv_ok. by apply new_valid in H1 as [_ ?].
Qed.

(** ** Text form *)

Lemma digits_ascii_range k n : 0 <= n -> Forall (fun c => 48 <= c <= 57) (digits_ascii k n).
Proof.
  revert n. induction k as [|k IH]; intros n Hn; simpl; [constructor|]. apply Forall_app. split.
  - apply IH, Z.div_pos; lia.
  - apply Forall_cons. split; [|constructor]. pose proof (Z.mod_pos_bound n 10 ltac:(lia)). lia.
Qed.

Lemma parse_digits_app acc a b :
  parse_digits acc (a ++ b) = parse_digits acc a ≫= fun acc => parse_digits acc b.
Proof. revert acc. induction a as [|x a IH]; intros acc; simpl; [done|]. destruct (ascii_digit x); simpl; auto. Qed.

Lemma parse_printed acc k n :
  0 <= n -> parse_digits acc (digits_ascii k n) = Some (acc * 10 ^ Z.of_nat k + n mod 10 ^ Z.of_nat k).
Proof.
  revert n. induction k as [|k IH]; intros n Hn.
  - simpl. rewrite Z.mod_1_r. f_equal. lia.
  - cbn [digits_ascii]. rewrite parse_digits_app, IH by (apply Z.div_pos; lia).
    pose proof (Z.mod_pos_bound n 10 ltac:(lia)).
    cbn [mbind option_bind parse_digits]. rewrite ascii_digit_digit by done. cbn [mbind option_bind].
    rewrite Nat2Z.inj_succ, Z.pow_succ_r by lia.
    assert (0 < 10 ^ Z.of_nat k) by (apply Z.pow_pos_nonneg; lia).
    rewrite Z.rem_mul_r by lia. f_equal. lia.
Qed.

(** A printed field, which starts with a digit, parses back. *)
Lemma parse_unsigned_printed max k n :
  (0 < k)%nat -> 0 <= n < 10 ^ Z.of_nat k -> n <= max -> parse_unsigned max (digits_ascii k n) = Some n.
Proof.
  intros Hk Hn Hmax. unfold parse_unsigned.
  pose proof (digits_ascii_length k n) as Hlen. pose proof (digits_ascii_range k n ltac:(lia)) as Hr.
  pose proof (parse_printed 0 k n ltac:(lia)) as Hp. rewrite Z.mod_small in Hp by lia.
  destruct (digits_ascii k n) as [|b rest]; [simpl in Hlen; lia|].
  apply Forall_cons in Hr as [Hb _]. replace (b =? 43) with false by lia.
  rewrite Hp. cbn [mbind option_bind]. rewrite Z.mul_0_l, Z.add_0_l. by replace (n <=? max) with true by lia.
Qed.

Lemma parse_i32_printed k n :
  (0 < k)%nat -> 0 <= n < 10 ^ Z.of_nat k -> n <= 2147483647 -> parse_i32 (digits_ascii k n) = Some n.
Proof.
  intros Hk Hn Hmax. pose proof (parse_unsigned_printed 2147483647 k n Hk Hn Hmax) as Hp.
  pose proof (digits_ascii_length k n) as Hlen. pose proof (digits_ascii_range k n ltac:(lia)) as Hr.
  unfold parse_i32. destruct (digits_ascii k n) as [|b rest]; [simpl in Hlen; lia|].
  apply Forall_cons in Hr as [Hb _]. by replace (b =? 45) with false by lia.
Qed.

Lemma to_string_ascii d : valid_date d -> as_bytes (to_string d) = to_string d.
Proof.
  intros [Hy Hm Hd]. apply as_bytes_ascii. eapply (Forall_impl (fun c => 0 <= c < 128)); [|simpl; lia]. unfold to_string.
  assert (Hdig : forall k n, 0 <= n -> Forall (fun c => 0 <= c < 128) (digits_ascii k n)).
  { intros k n Hn. eapply Forall_impl; [by apply digits_ascii_range|]. simpl. lia. }
  rewrite !Forall_app, !Forall_singleton. split_and!; try (apply Hdig; lia); lia.
Qed.

(** ** Ordinals *)

(** Days before March 1 of year [y], and before the [m]-th month from March. *)
Definition days_before (y : Z) : Z := 365 * y + y / 4 - y / 100 + y / 400.
Definition month_offset (m : Z) : Z := (153 * (m + (if 2 <? m then -3 else 9)) + 2) / 5.

Lemma ordinal_days_before d :
  valid_date d ->
  ordinal d = days_before (year d - (if month d <=? 2 then 1 else 0)) + month_offset (month d) + day d - 1.
Proof.
  intros [Hy Hm Hd]. unfold ordinal, days_before, month_offset.
  set (y := year d - (if month d <=? 2 then 1 else 0)).
  assert (0 <= y) by (subst y; destruct (month d <=? 2); lia).
  replace (0 <=? y) with true by lia. rewrite (Z.quot_div_nonneg y 400) by lia.
  pose proof (Z.div_mod y 400 ltac:(lia)). pose proof (Z.mod_pos_bound y 400 ltac:(lia)).
  set (r := y - y / 400 * 400).
  rewrite (Z.quot_div_nonneg r 4), (Z.quot_div_nonneg r 100) by lia.
  rewrite Z.quot_div_nonneg by (try lia; destruct (2 <? month d) eqn:?; lia).
  assert (Hr : y = 400 * (y / 400) + r) by (subst r; lia).
  assert (r / 4 = y / 4 - 100 * (y / 400)) by (subst r; replace (y - y / 400 * 400) with (y + (- (100 * (y / 400))) * 4) by lia; rewrite Z.div_add by lia; lia).
  assert (r / 100 = y / 100 - 4 * (y / 400)) by (subst r; replace (y - y / 400 * 400) with (y + (- (4 * (y / 400))) * 100) by lia; rewrite Z.div_add by lia; lia).
  lia.
Qed.

Lemma days_before_step y : days_before (y + 1) = days_before y + (if leap (y + 1) then 366 else 365).
Proof.
  unfold days_before, leap.
  destruct (Z.eqb_spec ((y + 1) mod 4) 0), (Z.eqb_spec ((y + 1) mod 100) 0), (Z.eqb_spec ((y + 1) mod 400) 0);
    cbn [negb andb orb]; Z.to_euclidean_division_equations; lia.
Qed.

Lemma days_before_mono y y' : y < y' -> days_before (y + 1) <= days_before y'.
Proof. unfold days_before. intros. Z.to_euclidean_division_equations. lia. Qed.

(** Evaluates the month tables at a known month. *)
Ltac month_tables :=
  repeat match goal with
  | H : context [month_offset ?k] |- _ =>
      let v := eval vm_compute in (month_offset k) in change (month_offset k) with v in H
  | |- context [month_offset ?k] =>
      let v := eval vm_compute in (month_offset k) in change (month_offset k) with v
  | H : context [days_in_month ?y ?k] |- _ =>
      let v := eval cbv in (days_in_month 1 k) in
      lazymatch k with 2 => fail | _ => change (days_in_month y k) with v in H end
  | |- context [days_in_month ?y ?k] =>
      let v := eval cbv in (days_in_month 1 k) in
      lazymatch k with 2 => fail | _ => change (days_in_month y k) with v end
  end;
  cbn [Z.leb Z.ltb Z.compare Pos.compare Pos.compare_cont] in *.

(** The year that starts in March, and the day within it. *)
Definition march_year (d : UtcDate) : Z := year d - (if month d <=? 2 then 1 else 0).
Definition march_day (d : UtcDate) : Z := month_offset (month d) + day d - 1.

Lemma march_day_bound d :
  valid_date d -> 0 <= march_day d < days_before (march_year d + 1) - days_before (march_year d).
Proof.
  intros [Hy Hm Hd]. rewrite days_before_step. unfold march_day, march_year.
  destruct d as [y m dd]; simpl in *. by_month Hm; month_tables;
    try (destruct (leap _); lia).
  rewrite days_in_february in Hd by lia. replace (y - 1 + 1) with y by lia. destruct (leap y); lia.
Qed.

Definition date_lt (a b : UtcDate) : Prop :=
  year a < year b \/ (year a = year b /\ (month a < month b \/ (month a = month b /\ day a < day b))).

Lemma march_order a b :
  valid_date a -> valid_date b -> date_lt a b ->
  march_year a < march_year b \/ (march_year a = march_year b /\ march_day a < march_day b).
Proof.
  intros [Hya Hma Hda] [Hyb Hmb Hdb] Hlt. unfold march_year, march_day. destruct a as [ya ma da], b as [yb mb db].
  unfold date_lt in Hlt. simpl in *.
  pose proof (days_in_month_bound ya 2). assert (days_in_month ya 2 <= 29) by (rewrite days_in_february by lia; destruct (leap ya); lia).
  by_month Hma; by_month Hmb; month_tables; lia.
Qed.

(** Fixed-width numerals compare as their numbers. *)
Lemma str_cmp_digits k n m :
  0 <= n < 10 ^ Z.of_nat k -> 0 <= m < 10 ^ Z.of_nat k -> str_cmp (digits_ascii k n) (digits_ascii k m) = (n ?= m).
Proof.
  revert n m. induction k as [|k IH]; intros n m Hn Hm.
  - change (10 ^ Z.of_nat 0) with 1 in *. replace n with 0 by lia. by replace m with 0 by lia.
  - rewrite Nat2Z.inj_succ, Z.pow_succ_r in * by lia. cbn [digits_ascii].
    rewrite str_cmp_app by (by rewrite !digits_ascii_length).
    pose proof (Z.div_mod n 10 ltac:(lia)). pose proof (Z.mod_pos_bound n 10 ltac:(lia)).
    pose proof (Z.div_mod m 10 ltac:(lia)). pose proof (Z.mod_pos_bound m 10 ltac:(lia)).
    assert (0 <= n / 10 < 10 ^ Z.of_nat k) by (split; [apply Z.div_pos; lia|apply Z.div_lt_upper_bound; lia]).
    assert (0 <= m / 10 < 10 ^ Z.of_nat k) by (split; [apply Z.div_pos; lia|apply Z.div_lt_upper_bound; lia]).
    rewrite IH by done. cbn [str_cmp].
    destruct (Z.compare_spec (n / 10) (m / 10)), (Z.compare_spec (48 + n mod 10) (48 + m mod 10)),
      (Z.compare_spec n m); try done; lia.
Qed.

Lemma to_string_cmp a b :
  valid_date a -> valid_date b ->
  str_cmp (to_string a) (to_string b) =
  match year a ?= year b with
  | Eq => match month a ?= month b with Eq => day a ?= day b | c => c end
  | c => c
  end.
Proof.
  intros [Hya Hma Hda] [Hyb Hmb Hdb]. unfold to_string.
  pose proof (days_in_month_bound (year a) (month a)). pose proof (days_in_month_bound (year b) (month b)).
  repeat (rewrite str_cmp_app by (by rewrite ?digits_ascii_length)).
  rewrite !str_cmp_digits by (simpl; lia). cbn [str_cmp Z.compare Pos.compare Pos.compare_cont].
  repeat case_match; congruence.
Qed.

Lemma to_string_lt a b : valid_date a -> valid_date b -> str_lt (to_string a) (to_string b) <-> date_lt a b.
Proof.
  intros. unfold str_lt, date_lt. rewrite to_string_cmp by done.
  destruct (Z.compare_spec (year a) (year b)), (Z.compare_spec (month a) (month b)), (Z.compare_spec (day a) (day b));
    (split; [intros; try done; lia|intros; first [done|lia]]).
Qed.

Lemma parse_to_string d : valid_date d -> UtcDate_parse (to_string d) = Ok d.
Proof.
  intros Hd. pose proof Hd as [Hy Hm Hdd].
  pose proof (days_in_month_bound (year d) (month d)).
  unfold UtcDate_parse. rewrite to_string_ascii by done. unfold to_string.
  pose proof (digits_ascii_length 4 (year d)) as Ly. pose proof (digits_ascii_length 2 (month d)) as Lm.
  pose proof (digits_ascii_length 2 (day d)) as Ld.
  pose proof (parse_i32_printed 4 (year d) ltac:(lia) ltac:(simpl; lia) ltac:(lia)) as Py.
  pose proof (parse_unsigned_printed 255 2 (month d) ltac:(lia) ltac:(simpl; lia) ltac:(lia)) as Pm.
  pose proof (parse_unsigned_printed 255 2 (day d) ltac:(lia) ltac:(simpl; lia) ltac:(lia)) as Pd.
  destruct (digits_ascii 4 (year d)) as [|y1 [|y2 [|y3 [|y4 [|]]]]]; try discriminate Ly.
  destruct (digits_ascii 2 (month d)) as [|m1 [|m2 [|]]]; try discriminate Lm.
  destruct (digits_ascii 2 (day d)) as [|d1 [|d2 [|]]]; try discriminate Ld.
  change (_ || _ || _) with false. cbn [app take drop]. unfold parse_u8. rewrite Py, Pm, Pd. cbn [ok_or result_bind].
  apply new_valid. split; [by destruct d|done].
Qed.

(** ** Properties *)

(** The text form of a date reads back as the same date, and whatever
    parses is a real calendar date. *)
Theorem date_text_round_trip :
  (forall d, valid_date d -> UtcDate_parse (to_string d) = Ok d) /\
  (forall value d, UtcDate_parse value = Ok d -> valid_date d).
Proof. split; [apply parse_to_string|apply parse_valid]. Qed.

Definition leap_day : UtcDate := {| year := 2024; month := 2; day := 29 |}.

Lemma leap_day_valid : valid_date leap_day.
Proof. by apply (parse_valid (lit "2024-02-29")). Qed.

Lemma date_text_round_trip_witness : UtcDate_parse (to_string leap_day) = Ok leap_day.
Proof. apply (proj1 date_text_round_trip). apply leap_day_valid. Defined.

(** Bucket keys sort by date: for valid dates the byte order of the keys,
    the calendar order and the order of the ordinals are the same. *)
Theorem date_orders_agree a b :
  valid_date a -> valid_date b ->
  (str_lt (to_string a) (to_string b) <-> date_lt a b) /\ (ordinal a < ordinal b <-> date_lt a b).
Proof.
  intros Ha Hb. split; [by apply to_string_lt|].
  assert (Hmono : forall a b, valid_date a -> valid_date b -> date_lt a b -> ordinal a < ordinal b).
  { clear. intros a b Ha Hb Hlt. rewrite !ordinal_days_before by done.
    fold (march_year a) (march_year b). pose proof (march_day_bound a Ha). pose proof (march_day_bound b Hb).
    unfold march_day in *. destruct (march_order a b Ha Hb Hlt) as [Hy|[Hy Hd]].
    - pose proof (days_before_mono _ _ Hy). lia.
    - unfold march_day in Hd. rewrite Hy. lia. }
  split; [|by apply Hmono]. intros Hlt.
  assert (Hcmp : date_lt a b \/ a = b \/ date_lt b a).
  { unfold date_lt. destruct a, b; simpl.
    destruct (Z.lt_total year0 year1) as [?|[->|?]]; [lia| |lia].
    destruct (Z.lt_total month0 month1) as [?|[->|?]]; [lia| |lia].
    destruct (Z.lt_total day0 day1) as [?|[->|?]]; [lia|by right; left|lia]. }
  destruct Hcmp as [?|[->|Hba]]; [done|lia|]. apply Hmono in Hba; [lia|done|done].
Qed.

Lemma date_orders_agree_witness :
  ordinal leap_day < ordinal {| year := 2024; month := 3; day := 1 |}.
Proof.
  apply date_orders_agree; [apply leap_day_valid|by apply (parse_valid (lit "2024-03-01"))|].
  right. split; [reflexivity|]. left. reflexivity.
Defined.

(** The ordinal counts days: the calendar's next day is a valid date and
    its ordinal is one more, across month ends, leap days and year ends. *)
Theorem ordinal_next_day d :
  valid_date d -> year d < 9999 -> valid_date (next_day d) /\ ordinal (next_day d) = ordinal d + 1.
Proof.
  intros Hd Hlast. pose proof Hd as [Hy Hm Hdd].
  assert (Hvalid : valid_date (next_day d)).
  { unfold next_day. destruct (Z.ltb_spec (day d) (days_in_month (year d) (month d))); [split; simpl; lia|].
    destruct (Z.ltb_spec (month d) 12) as [H12|H12]; split; simpl; try lia.
    - destruct d as [y m dd]; simpl in *. clear -Hm H12 Hy.
      by_month Hm; try lia; cbn [Z.add Pos.add Pos.succ]; month_tables; try lia.
      rewrite days_in_february by lia. destruct (leap y); lia.
    - unfold days_in_month. simpl. lia. }
  split; [done|]. rewrite !ordinal_days_before by done. clear Hvalid Hd. unfold next_day. destruct d as [y m dd].
  cbn [year month day] in *. destruct (Z.ltb_spec dd (days_in_month y m)); [cbn [year month day]; lia|].
  assert (dd = days_in_month y m) as -> by lia. clear H Hdd.
  by_month Hm; cbn [Z.add Pos.add Pos.succ Z.ltb Z.compare Pos.compare Pos.compare_cont year month day]; month_tables;
    try match goal with |- context [?a + 1 <=? 2] =>
      let v := eval cbv in (a + 1 <=? 2) in change (a + 1 <=? 2) with v; cbv iota end;
    try lia.
  - rewrite days_in_february by lia.
    replace (y - 0) with (y - 1 + 1) by lia. rewrite days_before_step. replace (y - 1 + 1) with y by lia.
    destruct (leap y); lia.
  - replace (y + 1 - 1) with (y - 0) by lia. lia.
Qed.

Lemma ordinal_next_day_witness : ordinal (next_day leap_day) = ordinal leap_day + 1.
Proof. apply ordinal_next_day; [apply leap_day_valid|reflexivity]. Defined.

(** The number parser of the standard library accepts a plus sign, so keys
    that are not in the documented form are read as dates. *)
Example parse_accepts_plus_signs :
  UtcDate_parse (lit "+202-+1-+1") = Ok {| year := 202; month := 1; day := 1 |}.
Proof. vm_compute. reflexivity. Qed.
