(* ===== verification/Numbers.v ===== *)
(** * Reading numbers ([str::parse] of the Rust standard library)

    [s.parse::<u64>()] and [s.parse::<f64>()]: the accepted grammar and the
    value, correctly rounded. *)
From S2P Require Export Float64 Calendar.

(** [s.parse::<u64>()]: an optional [+], then digits, within the type. *)
Definition parse_u64 (s : str) : option Z := parse_unsigned u64_max s.

(** ** Decimal floats *)

(** The digits at the front of [s], read onto [acc]; their number; the rest. *)
Fixpoint scan_digits (acc : Z) (count : nat) (s : str) : Z * nat * str :=
  match s with
  | c :: rest =>
      match ascii_digit c with
      | Some d => scan_digits (acc * 10 + d) (S count) rest
      | None => (acc, count, s)
      end
  | [] => (acc, count, s)
  end.

Definition scan_sign (s : str) : bool * str :=
  match s with
  | c :: rest => if c =? 45 then (true, rest) else if c =? 43 then (false, rest) else (false, s)
  | [] => (false, s)
  end.

(** An optional exponent; [None] when it has no digit or something follows. *)
Definition scan_exponent (s : str) : option Z :=
  match s with
  | [] => Some 0
  | c :: rest =>
      if (c =? 101) || (c =? 69) then
        let '(negative, rest) := scan_sign rest in
        match scan_digits 0 0 rest with
        | (e, S _, []) => Some (if negative then - e else e)
        | _ => None
        end
      else None
  end.

(** The float nearest to [m * 10 ^ e] for an [m] of [digits] digits.  Past 400
    decimal digits from the point, the nearest float is infinity or zero. *)
Definition decimal_to_f64 (negative : bool) (m : Z) (digits : nat) (e : Z) : f64 :=
  match m with
  | Zpos p =>
      if 400 <? e then S754_infinity negative
      else if e <? - (Z.of_nat digits + 400) then S754_zero negative
      else if 0 <=? e then binary_normalize f64_prec f64_emax (cond_Zopp negative (m * 10 ^ e)) 0 negative
      else f64_div (S754_finite negative p 0) (S754_finite false (Z.to_pos (10 ^ (- e))) 0)
  | _ => S754_zero negative
  end.

Definition parse_f64_number (negative : bool) (s : str) : option f64 :=
  let '(m, whole, rest) := scan_digits 0 0 s in
  let '(m, digits, rest) :=
    match rest with
    | c :: tail => if c =? 46 then scan_digits m whole tail else (m, whole, rest)
    | [] => (m, whole, rest)
    end in
  match digits with
  | O => None
  | _ => e ← scan_exponent rest; Some (decimal_to_f64 negative m digits (e - Z.of_nat (digits - whole)))
  end.

(** [s.parse::<f64>()]. *)
Definition parse_f64 (s : str) : option f64 :=
  let '(negative, rest) := scan_sign s in
  let lowered := to_ascii_lowercase rest in
  if str_eqb lowered (lit "inf") || str_eqb lowered (lit "infinity") then Some (S754_infinity negative)
  else if str_eqb lowered (lit "nan") then Some f64_nan
  else parse_f64_number negative rest.

Example parse_f64_half : parse_f64 (lit "0.5") = Some (f64_dec 5 1).
Proof. reflexivity. Qed.
Example parse_f64_exponent : parse_f64 (lit "-2.5E-1") = Some (f64_neg (f64_dec 25 2)).
Proof. reflexivity. Qed.
Example parse_f64_forms :
  map parse_f64 (map lit [".5"; "5."; "+1e2"; "1e999"; "-0"]%string) =
  map Some [f64_dec 5 1; f64_of_Z 5; f64_of_Z 100; S754_infinity false; S754_zero true].
Proof. vm_compute. reflexivity. Qed.
Example parse_f64_refused : map parse_f64 (map lit [""; "."; "1e"; "0x1"; "1 "; "--1"; "e5"]%string) = repeat None 7.
Proof. vm_compute. reflexivity. Qed.
Example parse_f64_rounds : parse_f64 (lit "9007199254740993") = Some (f64_of_Z 9007199254740992).
Proof. vm_compute. reflexivity. Qed.
Example parse_f64_tiny : parse_f64 (lit "5e-324") = Some (S754_finite false 1 (-1074)).
Proof. vm_compute. reflexivity. Qed.
