(* ===== verification/RoutingParse.v ===== *)
(** * Routing configuration (crate [wayfinder-config], [src/lib.rs])

    The [[routing]] table read from a parsed document: threshold, weights,
    lexicon, tiers, classifier, and the environment override; then the
    discovery of the configuration file and the loaders.  The [toml] crate and
    the file system are parameters. *)
From S2P Require Export Toml Scoring Numbers.

Definition CONFIG_FILE : str := lit "wayfinder-router.toml".
Definition THRESHOLD_ENV : str := lit "WAYFINDER_ROUTER_THRESHOLD".
Definition MAX_LEXICON_TERMS : Z := 2000.

Inductive TierOrderPolicy := CompatibilitySort | StrictInput.

(** [(0.0..=1.0).contains(&value)] on a finite value. *)
Definition is_unit (x : f64) : bool := f64_is_finite x && f64_in_range f64_zero f64_one x.

(** A finite number that is not below zero. *)
Definition not_below (x : f64) : bool := f64_is_finite x && negb (f64_lt x f64_zero).

Section Fields.
Context (where_ : str).

Definition parse_threshold (value : option TomlValue) (default : f64) : result f64 ConfigError :=
  match value with
  | None => Ok default
  | Some v =>
      let e := invalid where_ (Msg "'routing.threshold' must be a number in 0.0-1.0" []) in
      let? threshold := ok_or (number v) e in
      if is_unit threshold then Ok threshold else Err e
  end.

Definition parse_environment_threshold (raw : option str) (default : f64) : result f64 ConfigError :=
  match opt_filter nonempty_str raw with
  | None => Ok default
  | Some raw =>
      let? value := ok_or (parse_f64 raw)
                      (invalid THRESHOLD_ENV
                         (Msg "{THRESHOLD_ENV} must be a number, got {raw:?}" [ArgStr THRESHOLD_ENV; ArgDebug raw])) in
      if is_unit value then Ok value
      else Err (invalid THRESHOLD_ENV
                  (Msg "{THRESHOLD_ENV} must be between 0.0 and 1.0, got {value}" [ArgStr THRESHOLD_ENV; ArgFloat value]))
  end.

Definition weight_step (weights : Weights) (entry : str * TomlValue) : result Weights ConfigError :=
  let '(name, raw_weight) := entry in
  if bool_decide (name ∈ FEATURE_ORDER) then
    let e := invalid where_ (Msg "'routing.weights.{name}' must be a non-negative number" [ArgStr name]) in
    let? weight := ok_or (number raw_weight) e in
    if not_below weight then
      let '(weights, found) := Weights_set weights name weight in
      if found then Ok weights else Err (invalid where_ (Msg "internal feature mapping is incomplete" []))
    else Err e
  else Err (invalid where_ (Msg "'routing.weights.{name}' is not a known feature (one of {})"
                              [ArgStr name; ArgStr (str_join (lit ", ") FEATURE_ORDER)])).

Definition parse_weights (value : option TomlValue) : result Weights ConfigError :=
  match value with
  | None => Ok default_weights
  | Some v =>
      let? table := table_of where_ v (Msg "'routing.weights' must be a table" []) in
      try_fold weight_step default_weights table
  end.

Definition parse_term_list (value : TomlValue) (label : str) : result (list str) ConfigError :=
  let e := invalid where_ (about "'{label}' must be a list of non-empty strings" label) in
  let? values := ok_or (as_array value) e in
  if MAX_LEXICON_TERMS <? len values
  then Err (invalid where_ (Msg "'{label}' has more than {MAX_LEXICON_TERMS} terms"
                              [ArgStr label; ArgInt MAX_LEXICON_TERMS]))
  else traverse (fun entry =>
         let? term := ok_or (as_str entry) e in
         let term := trim term in
         if str_eqb term [] then Err e else Ok (to_ascii_lowercase term)) values.

Definition lexicon_known : list str := map lit ["constraint_terms"; "reasoning_terms"]%string.

(** The keys of a table that are not among those known. *)
Definition unknown_keys (known : list str) (t : toml_table) : list str :=
  List.filter (fun key => negb (bool_decide (key ∈ known))) (ix_keys t).

Definition parse_lexicon (value : TomlValue) : result Lexicon ConfigError :=
  let? table := table_of where_ value (Msg "'[routing.lexicon]' must be a table" []) in
  match unknown_keys lexicon_known table with
  | (_ :: _) as unknown =>
      Err (invalid where_ (Msg "unknown 'routing.lexicon' keys: {} (known: {})"
                             [ArgStr (str_join (lit ", ") unknown); ArgStr (str_join (lit ", ") lexicon_known)]))
  | [] =>
      let? reasoning := match ix_get table (lit "reasoning_terms") with
                        | Some value => parse_term_list value (lit "routing.lexicon.reasoning_terms")
                        | None => Ok (reasoning_terms default_lexicon)
                        end in
      let? constraints := match ix_get table (lit "constraint_terms") with
                          | Some value => parse_term_list value (lit "routing.lexicon.constraint_terms")
                          | None => Ok (constraint_terms default_lexicon)
                          end in
      Ok (Lexicon_new reasoning constraints)
  end.

Definition parse_tier (value : TomlValue) : result Tier ConfigError :=
  let? table := table_of where_ value (Msg "each '[[routing.tiers]]' must be a table" []) in
  let score_error := invalid where_ (Msg "tier 'min_score' must be a number in 0.0-1.0" []) in
  let? min_score := ok_or (ix_get table (lit "min_score") ≫= number) score_error in
  if negb (is_unit min_score) then Err score_error
  else
    let? model := ok_or (opt_filter nonempty_str (ix_get table (lit "model") ≫= as_str))
                    (invalid where_ (Msg "tier 'model' must be a non-empty string" [])) in
    let cost_error := invalid where_ (Msg "tier 'cost' must be a non-negative number" []) in
    let? cost := match ix_get table (lit "cost") with
                 | None => Ok None
                 | Some value =>
                     let? cost := ok_or (number value) cost_error in
                     if not_below cost then Ok (Some cost) else Err cost_error
                 end in
    Ok {| min_score := min_score; tier_model := model; tier_cost := cost |}.

(** [sort_by] with [total_cmp]: a stable insertion sort. *)
Fixpoint tier_insert (t : Tier) (l : list Tier) : list Tier :=
  match l with
  | [] => [t]
  | u :: l => match f64_total_cmp (min_score t) (min_score u) with
              | Gt => u :: tier_insert t l
              | _ => t :: u :: l
              end
  end.

Definition sort_tiers (l : list Tier) : list Tier := foldr tier_insert [] l.

(** [tiers.windows(2).any(..)]: some tier is not above the one before it. *)
Fixpoint not_ascending (l : list Tier) : bool :=
  match l with
  | t :: ((u :: _) as l) => f64_le (min_score u) (min_score t) || not_ascending l
  | _ => false
  end.

Definition parse_tiers (value : TomlValue) (order : TierOrderPolicy) : result (list Tier) ConfigError :=
  let? values := ok_or (opt_filter (fun l => match l with [] => false | _ => true end) (as_array value))
                   (invalid where_ (Msg "'routing.tiers' must be a non-empty array of tables" [])) in
  let? tiers := traverse parse_tier values in
  let tiers := match order with CompatibilitySort => sort_tiers tiers | StrictInput => tiers end in
  if negb (match tiers with t :: _ => f64_eq (min_score t) f64_zero | [] => false end)
  then Err (invalid where_ (Msg "the first tier must have min_score = 0.0" []))
  else if not_ascending tiers
  then Err (invalid where_ (Msg "tier 'min_score' values must be strictly ascending" []))
  else Ok tiers.

Definition parse_number_vector (value : option TomlValue) (label : str) (count : nat) : result (list f64) ConfigError :=
  let e := invalid where_ (Msg "'{label}' must be a list of {count} numbers" [ArgStr label; ArgInt (Z.of_nat count)]) in
  let? values := ok_or (opt_filter (fun l => Nat.eqb (length l) count) (value ≫= as_array)) e in
  traverse (fun v => ok_or (opt_filter f64_is_finite (number v)) e) values.

(** [.map(as_str).collect::<Option<Vec<_>>>()]. *)
Fixpoint all_strings (l : list TomlValue) : option (list str) :=
  match l with
  | [] => Some []
  | v :: l => s ← as_str v; rest ← all_strings l; Some (s :: rest)
  end.

Definition classifier_models_ok (models : list str) : bool :=
  Nat.leb 2 (length models) && forallb nonempty_str models
  && Nat.eqb (size (list_to_set models : gset str)) (length models).

(** The weight vectors, one per feature in [FEATURE_ORDER]. *)
Definition vector_step (raw_weights : toml_table) (count : nat) (weights : btree (list f64)) (name : str)
    : result (btree (list f64)) ConfigError :=
  let? vector := match ix_get raw_weights name with
                 | Some value => parse_number_vector (Some value) (lit "routing.classifier.weights." ++ name) count
                 | None => Ok (replicate count f64_zero)
                 end in
  Ok (bt_insert weights name vector).

(** [error.to_string()] without its "invalid classifier: " prefix. *)
Definition classifier_message (e : CoreError) : message :=
  match e with
  | InvalidClassifier m => m
  | InvalidPattern reason => Msg "built-in feature pattern is invalid: {0}" [ArgStr reason]
  | MissingTier => Msg "tiered routing requires at least one tier" []
  | InvalidContract (Msg template args) => Msg ("invalid runtime contract: " ++ template) args
  end.

Definition parse_classifier (value : TomlValue) : result ClassifierModel ConfigError :=
  let? table := table_of where_ value (Msg "'[routing.classifier]' must be a table" []) in
  let? models := ok_or (opt_filter classifier_models_ok ((ix_get table (lit "models") ≫= as_array) ≫= all_strings))
                   (invalid where_ (Msg "'routing.classifier.models' must be 2+ unique non-empty strings" [])) in
  let? intercepts := parse_number_vector (ix_get table (lit "intercepts")) (lit "routing.classifier.intercepts")
                       (length models) in
  let? raw_weights := ok_or (ix_get table (lit "weights") ≫= as_table)
                        (invalid where_ (Msg "'[routing.classifier.weights]' must be a table" [])) in
  match unknown_keys FEATURE_ORDER raw_weights with
  | name :: _ =>
      Err (invalid where_ (Msg "'routing.classifier.weights.{name}' is not a known feature" [ArgStr name]))
  | [] =>
      let? weights := try_fold (vector_step raw_weights (length models)) [] FEATURE_ORDER in
      map_err (fun e => invalid where_ (classifier_message e)) (ClassifierModel_new models weights intercepts)
  end.
End Fields.

(** ** The document *)
Section Document.
(** [toml::from_str::<Value>], with the text of its error. *)
Context (from_toml : str -> result TomlValue str).

Definition read_toml (text where_ : str) : result TomlValue ConfigError :=
  map_err (fun error => InvalidToml where_ (Msg "{}" [ArgStr error])) (from_toml text).

(** An environment error is located in the file that was read. *)
Definition relocate (where_ : str) (e : ConfigError) : ConfigError :=
  match e with InvalidValue _ m => InvalidValue where_ m | other => other end.

Definition routing_config_from_toml (text where_ : str) (threshold_environment : option str) (order : TierOrderPolicy)
    : result RoutingConfig ConfigError :=
  let? root := read_toml text where_ in
  let? root_table := table_of where_ root (Msg "document root must be a table" []) in
  let? routing := match ix_get root_table (lit "routing") with
                  | None => Ok []
                  | Some v => table_of where_ v (Msg "'[routing]' must be a table" [])
                  end in
  let? weights := parse_weights where_ (ix_get routing (lit "weights")) in
  let? lexicon := match ix_get routing (lit "lexicon") with
                  | Some v => parse_lexicon where_ v
                  | None => Ok default_lexicon
                  end in
  match ix_get routing (lit "classifier"), ix_get routing (lit "tiers") with
  | Some v, _ =>
      let? classifier := parse_classifier where_ v in
      Ok {| cfg_weights := weights; cfg_tiers := binary_tiers DEFAULT_THRESHOLD; cfg_classifier := Some classifier;
            cfg_lexicon := lexicon |}
  | None, Some v =>
      let? tiers := parse_tiers where_ v order in
      Ok {| cfg_weights := weights; cfg_tiers := tiers; cfg_classifier := None; cfg_lexicon := lexicon |}
  | None, None =>
      let? configured := parse_threshold where_ (ix_get routing (lit "threshold")) DEFAULT_THRESHOLD in
      let? threshold := map_err (relocate where_) (parse_environment_threshold threshold_environment configured) in
      Ok {| cfg_weights := weights; cfg_tiers := binary_tiers threshold; cfg_classifier := None; cfg_lexicon := lexicon |}
  end.

(** ** Discovery

    What the file system answers about a path. *)
Inductive metadata := NotFound | Unavailable | Present (is_file : option bool).

Record FileSystem := {
  canonicalize : str -> option str;
  fs_is_dir : str -> bool;
  ancestors : str -> list str;
  join_path : str -> str -> str;
  symlink_metadata : str -> metadata;
  read_to_string : str -> option str;
}.

Definition start_of (start_dir : str) : str := match start_dir with [] => lit "." | _ => start_dir end.

Definition find_config_file (fs : FileSystem) (start_dir : str) (explicit : option str) : option str :=
  match explicit with
  | Some path => Some path
  | None =>
      resolved ← canonicalize fs (start_of start_dir);
      List.find (fun candidate => match symlink_metadata fs candidate with NotFound => false | _ => true end)
        (map (fun directory => join_path fs directory CONFIG_FILE) (ancestors fs resolved))
  end.

Definition read_config_source (fs : FileSystem) (start_dir : str) (explicit : option str)
    : result (option (str * str)) ConfigError :=
  let start := start_of start_dir in
  if match explicit with Some _ => false | None => negb (match canonicalize fs start with Some p => fs_is_dir fs p | None => false end) end
  then Err (ConfigRead start (Msg "cannot discover configuration; check the starting directory and permissions" []))
  else
    match find_config_file fs start_dir explicit with
    | None => Ok None
    | Some path =>
        let unreadable := ConfigRead path (Msg "check regular-file type, UTF-8 encoding and read permissions" []) in
        match symlink_metadata fs path with
        | NotFound => Err (ConfigMissing path)
        | Unavailable => Err unreadable
        | Present is_file =>
            match is_file with
            | Some true => let? text := ok_or (read_to_string fs path) unreadable in Ok (Some (path, text))
            | _ => Err unreadable
            end
        end
    end.

Definition load_routing_config_with_state (fs : FileSystem) (start_dir : str) (explicit : option str)
    (threshold_environment : option str) (order : TierOrderPolicy) : result (PolicyLoadState * RoutingConfig) ConfigError :=
  let? source := read_config_source fs start_dir explicit in
  match source with
  | None =>
      let? threshold := parse_environment_threshold threshold_environment DEFAULT_THRESHOLD in
      Ok (Absent, RoutingConfig_binary threshold)
  | Some (path, text) =>
      map_err redacted (result_map (fun config => (Loaded, config))
                          (routing_config_from_toml text path threshold_environment order))
  end.

Definition load_routing_config (fs : FileSystem) (start_dir : str) (explicit : option str)
    (threshold_environment : option str) (order : TierOrderPolicy) : result RoutingConfig ConfigError :=
  result_map snd (load_routing_config_with_state fs start_dir explicit threshold_environment order).
End Document.

(** ** What a parsed configuration is *)
Record valid_tier (t : Tier) : Prop := {
  vt_score : is_unit (min_score t) = true;
  vt_model : tier_model t <> [];
  vt_cost : from_option finite_nonneg True (tier_cost t);
}.

Definition below (t u : Tier) : Prop := f64_lt (min_score t) (min_score u) = true.

(** A ladder as [[[routing.tiers]]] gives it. *)
Record valid_ladder (tiers : list Tier) : Prop := {
  vl_tiers : Forall valid_tier tiers;
  vl_first : exists t rest, tiers = t :: rest /\ f64_eq (min_score t) f64_zero = true;
  vl_strict : Sorted below tiers;
}.

(** A lexicon set: non-empty terms, at most [MAX_LEXICON_TERMS] of them. *)
Definition term_set_ok (terms : list str) : Prop := [] ∉ terms /\ len terms <= MAX_LEXICON_TERMS.

Record valid_routing (config : RoutingConfig) : Prop := {
  vr_weights : length (cfg_weights config) = length FEATURE_ORDER /\ Forall finite_nonneg (cfg_weights config);
  vr_terms : term_set_ok (reasoning_terms (cfg_lexicon config)) /\ term_set_ok (constraint_terms (cfg_lexicon config));
  vr_decision :
    match cfg_classifier config with
    | Some c => wf_classifier c /\ Forall (fun x => f64_is_finite x = true) (cm_intercepts c) /\
                Forall (Forall (fun x => f64_is_finite x = true)) (cm_weights c)
    | None =>
        valid_ladder (cfg_tiers config) \/
        exists threshold, is_unit threshold = true /\ cfg_tiers config = binary_tiers threshold
    end;
}.

Lemma not_below_finite x : not_below x = true -> finite_nonneg x.
Proof.
  unfold not_below. intros [Hf Hn]%andb_true_iff. apply negb_true_iff in Hn. split; [done|].
  unfold f64_ge. apply f64_not_lt_ge; [by apply f64_finite_not_nan|done|done].
Qed.

Lemma valid_default_weights :
  length default_weights = length FEATURE_ORDER /\ Forall finite_nonneg default_weights.
Proof. split; [done|]. repeat constructor. Qed.

Lemma Weights_set_valid w name x w' found :
  Weights_set w name x = (w', found) -> finite_nonneg x ->
  length w = length FEATURE_ORDER /\ Forall finite_nonneg w ->
  length w' = length FEATURE_ORDER /\ Forall finite_nonneg w'.
Proof.
  unfold Weights_set. destruct (feature_index name) as [i|]; [|by intros [= <- <-]].
  destruct (w !! i); intros [= <- <-] Hx [Hl Hw]; [|done]. rewrite length_insert. split; [done|].
  by apply Forall_insert.
Qed.

Lemma parse_weights_valid where_ value w :
  parse_weights where_ value = Ok w -> length w = length FEATURE_ORDER /\ Forall finite_nonneg w.
Proof.
  destruct value as [v|]; cbn [parse_weights]; [|intros [= <-]; apply valid_default_weights].
  intros (table & _ & H)%result_bind_ok.
  apply (try_fold_inv (fun w => length w = length FEATURE_ORDER /\ Forall finite_nonneg w)) in H;
    [done|apply valid_default_weights|].
  intros c [name raw] c' _ Hc. cbn [weight_step]. destruct (bool_decide _); [|done].
  intros (x & _ & Hx)%result_bind_ok. destruct (not_below x) eqn:Hn; [|done].
  destruct (Weights_set c name x) as [w' []] eqn:Hs; [|done]. injection Hx as <-.
  eapply Weights_set_valid; [done|by apply not_below_finite|done].
Qed.


(** A term with something in it keeps it through normalization. *)
Lemma elem_drop_while p c (s : str) : c ∈ s -> p c = false -> c ∈ drop_while p s.
Proof.
  induction s as [|x s IH]; cbn [drop_while]; [set_solver|]. intros Hc Hp. destruct (p x) eqn:Hx; [|done].
  apply elem_of_cons in Hc as [-> | Hc]; [congruence|]. by apply IH.
Qed.

Lemma elem_trim c s : c ∈ s -> char_is_whitespace c = false -> c ∈ trim s.
Proof.
  intros Hc Hw. unfold trim, trim_end. apply elem_of_rev. apply elem_drop_while; [|done]. apply elem_of_rev.
  by apply elem_drop_while.
Qed.

Lemma drop_while_solid p (s : str) : drop_while p s <> [] -> exists c, c ∈ s /\ p c = false.
Proof.
  induction s as [|x s IH]; cbn [drop_while]; [done|]. destruct (p x) eqn:Hx; [|intros _; exists x; set_solver].
  intros (c & ? & ?)%IH. exists c. set_solver.
Qed.

Lemma trim_solid_char s : trim s <> [] -> exists c, c ∈ trim s /\ char_is_whitespace c = false.
Proof.
  intros H. assert (drop_while char_is_whitespace s <> []) as (c & Hc & Hw)%drop_while_solid.
  { unfold trim, trim_end, trim_start in H. intros Hn. rewrite Hn in H. done. }
  exists c. split; [by apply elem_trim|done].
Qed.

Lemma lowercase_whitespace c : char_is_whitespace (char_to_ascii_lowercase c) = char_is_whitespace c.
Proof.
  unfold char_to_ascii_lowercase. destruct ((65 <=? c) && (c <=? 90)) eqn:E; [|done]. zify_bools.
  transitivity false; [|symmetry]; unfold char_is_whitespace;
    rewrite ?orb_false_iff, ?andb_false_iff, ?Z.eqb_neq, ?Z.leb_gt; lia.
Qed.

Lemma normalized_nonempty s : trim s <> [] -> trim (to_ascii_lowercase (trim s)) <> [].
Proof.
  intros (c & Hc & Hw)%trim_solid_char Hn.
  assert (char_to_ascii_lowercase c ∈ trim (to_ascii_lowercase (trim s))) as H; [|rewrite Hn in H; by apply elem_of_nil in H].
  apply elem_trim; [|by rewrite lowercase_whitespace]. by apply list_elem_of_fmap_2.
Qed.

Lemma term_set_normalized terms :
  Forall (fun s => trim s <> []) terms -> len terms <= MAX_LEXICON_TERMS ->
  term_set_ok (bt_keys (normalized_term_set terms)).
Proof.
  intros Ht Hl. unfold term_set_ok, normalized_term_set. split.
  - rewrite bt_elem_keys_of_list, map_map. cbn [fst]. intros (s & Hs & Hin)%list_elem_of_fmap. rewrite Forall_forall in Ht.
    specialize (Ht s Hin). unfold to_ascii_lowercase in Hs. destruct (trim s); [done|done].
  - match goal with |- len (bt_keys (bt_of_list ?l)) <= _ => pose proof (bt_of_list_length l) as H end.
    unfold len, bt_keys in *. rewrite length_map in *. lia.
Qed.

Definition raw_terms_ok (terms : list str) : Prop := Forall (fun s => trim s <> []) terms /\ len terms <= MAX_LEXICON_TERMS.

Lemma parse_term_list_ok where_ value label l : parse_term_list where_ value label = Ok l -> raw_terms_ok l.
Proof.
  unfold parse_term_list. intros (values & _ & H)%result_bind_ok. destruct (MAX_LEXICON_TERMS <? len values) eqn:Hm; [done|].
  zify_bools. apply traverse_ok in H. split.
  - clear Hm. induction H as [|x s ? ? Hx _ IH]; constructor; [|done].
    apply result_bind_ok in Hx as (t & _ & Hx). destruct (str_eqb (trim t) []) eqn:E; [done|]. injection Hx as <-.
    apply normalized_nonempty. by apply str_eqb_neq.
  - apply Forall2_length in H. unfold len in *. lia.
Qed.

Lemma default_terms_ok : raw_terms_ok (reasoning_terms default_lexicon) /\ raw_terms_ok (constraint_terms default_lexicon).
Proof.
  split; (split; [|by vm_compute]); apply (Forall_impl (fun s => negb (str_eqb (trim s) []) = true));
    try (apply forallb_Forall; vm_compute; reflexivity); intros s Hs; apply negb_true_iff in Hs; by apply str_eqb_neq.
Qed.

Lemma parse_lexicon_ok where_ value l :
  parse_lexicon where_ value = Ok l -> term_set_ok (reasoning_terms l) /\ term_set_ok (constraint_terms l).
Proof.
  unfold parse_lexicon. intros (table & _ & H)%result_bind_ok. destruct (unknown_keys _ table); [|done].
  apply result_bind_ok in H as (r & Hr & H). apply result_bind_ok in H as (c & Hc & [= <-]).
  assert (raw_terms_ok r /\ raw_terms_ok c) as [[? ?] [? ?]].
  { destruct default_terms_ok as [D1 D2]. split.
    - destruct (ix_get table _); [by eapply parse_term_list_ok|by injection Hr as <-].
    - destruct (ix_get table (lit "constraint_terms")); [by eapply parse_term_list_ok|by injection Hc as <-]. }
  split; by apply term_set_normalized.
Qed.

Lemma parse_tier_ok where_ value t : parse_tier where_ value = Ok t -> valid_tier t.
Proof.
  unfold parse_tier. intros (table & _ & H)%result_bind_ok. apply result_bind_ok in H as (score & _ & H).
  destruct (is_unit score) eqn:Hu; [|done]. cbn [negb] in H.
  apply result_bind_ok in H as (m & [_ Hm]%ok_or_ok%opt_filter_some & H). apply result_bind_ok in H as (cost & Hc & [= <-]).
  constructor; cbn [min_score tier_model tier_cost]; [done|by apply nonempty_str_spec|].
  destruct (ix_get table (lit "cost")) as [v|]; [|by injection Hc as <-].
  apply result_bind_ok in Hc as (x & _ & Hx). destruct (not_below x) eqn:Hn; [|done]. injection Hx as <-.
  by apply not_below_finite.
Qed.

Lemma tier_insert_perm t l : tier_insert t l ≡ₚ t :: l.
Proof.
  induction l as [|u l IH]; cbn [tier_insert]; [done|]. destruct (f64_total_cmp _ _); [done|done|].
  rewrite IH. apply Permutation_swap.
Qed.

Lemma sort_tiers_perm l : sort_tiers l ≡ₚ l.
Proof. induction l as [|t l IH]; [done|]. cbn [sort_tiers foldr]. fold (sort_tiers l). by rewrite tier_insert_perm, IH. Qed.

Lemma not_ascending_sorted l : Forall valid_tier l -> not_ascending l = false <-> Sorted below l.
Proof.
  induction l as [|t l IH]; intros Hv; cbn [not_ascending]; [by split; [constructor|]|].
  apply Forall_cons in Hv as [Ht Hv]. destruct l as [|u l]; [by split; [repeat constructor|]|].
  rewrite orb_false_iff, IH by done. apply Forall_cons in Hv as [Hu _].
  assert (f64_le (min_score u) (min_score t) = false <-> below t u) as Hb.
  { destruct Ht as [[Hft _]%andb_true_iff _ _], Hu as [[Hfu _]%andb_true_iff _ _]. unfold below. split.
    - intros H. apply f64_not_le_gt; [by apply f64_finite_not_nan|by apply f64_finite_not_nan|done].
    - by intros H%f64_lt_not_ge. }
  rewrite Hb. split.
  - intros [H1 H2]. constructor; [done|by constructor].
  - intros [H1 H2]%Sorted_inv. split; [by inversion H2|done].
Qed.

Lemma parse_tiers_ok where_ value order tiers : parse_tiers where_ value order = Ok tiers -> valid_ladder tiers.
Proof.
  unfold parse_tiers. intros (values & _ & H)%result_bind_ok. apply result_bind_ok in H as (ts & Hts & H).
  assert (Forall valid_tier ts) as Hv.
  { apply traverse_ok in Hts. clear -Hts. induction Hts as [|v t ? ? Ht _ IH]; constructor; [by eapply parse_tier_ok|done]. }
  set (l := match order with CompatibilitySort => sort_tiers ts | StrictInput => ts end) in H.
  assert (Forall valid_tier l) as Hl by (subst l; destruct order; [by rewrite sort_tiers_perm|done]).
  destruct (match l with t :: _ => _ | [] => _ end) eqn:Hf; [|done]. cbn [negb] in H.
  destruct (not_ascending l) eqn:Ha; [done|]. injection H as <-. constructor; [done| |by apply not_ascending_sorted].
  destruct l as [|t rest]; [done|]. by exists t, rest.
Qed.

Notation finite_vector := (Forall (fun x => f64_is_finite x = true)).

Lemma place_weights_finite n weights rows rows' :
  place_weights n weights rows = Ok rows' -> Forall finite_vector rows ->
  Forall (fun kv => finite_vector kv.2) weights -> Forall finite_vector rows'.
Proof.
  revert rows. induction weights as [|[name v] weights IH]; intros rows; cbn [place_weights]; [by intros [= <-]|].
  destruct (feature_index name); [|done]. destruct (Nat.eqb (length v) n); [|done]. cbn [negb].
  intros H Hr [Hv Hw]%Forall_cons. eapply IH; [exact H| |done]. by apply Forall_insert.
Qed.

Lemma parse_number_vector_ok where_ value label n l :
  parse_number_vector where_ value label n = Ok l -> length l = n /\ finite_vector l.
Proof.
  unfold parse_number_vector. intros (values & [_ Hn]%ok_or_ok%opt_filter_some & H%traverse_ok)%result_bind_ok.
  apply Nat.eqb_eq in Hn. split; [by rewrite <- Hn; symmetry; eapply Forall2_length|].
  clear Hn. induction H as [|v x ? ? Hx _ IH]; constructor; [|done]. by apply ok_or_ok, opt_filter_some in Hx as [_ ?].
Qed.

Lemma finite_replicate n : finite_vector (replicate n f64_zero).
Proof. by apply Forall_replicate. Qed.

Lemma parse_classifier_ok where_ value c :
  parse_classifier where_ value = Ok c ->
  wf_classifier c /\ finite_vector (cm_intercepts c) /\ Forall finite_vector (cm_weights c).
Proof.
  unfold parse_classifier. intros (table & _ & H)%result_bind_ok. apply result_bind_ok in H as (models & _ & H).
  apply result_bind_ok in H as (intercepts & [Hil Hif]%parse_number_vector_ok & H).
  apply result_bind_ok in H as (raw & _ & H). destruct (unknown_keys FEATURE_ORDER raw); [|done].
  apply result_bind_ok in H as (weights & Hw & H).
  apply (try_fold_inv (fun w => Forall (fun kv => finite_vector kv.2) w)) in Hw; [|constructor|].
  2: { intros acc name acc' _ Hacc. unfold vector_step. intros (v & Hv & [= <-])%result_bind_ok.
       apply (bt_insert_Forall (fun kv => finite_vector kv.2)); [|done]. cbn [snd].
       destruct (ix_get raw name); [by apply parse_number_vector_ok in Hv as [_ ?]|injection Hv as <-; apply finite_replicate]. }
  destruct (ClassifierModel_new models weights intercepts) as [c'|e] eqn:Hc; [|done]. cbn [map_err] in H. injection H as <-.
  split; [by eapply classifier_new_wf|]. revert Hc. unfold ClassifierModel_new.
  repeat match goal with |- context [if ?b then _ else _] => destruct b; [done|] end.
  intros (rows & Hr & [= <-])%result_bind_ok. cbn [cm_intercepts cm_weights]. split; [done|].
  eapply place_weights_finite; [exact Hr| |exact Hw]. apply Forall_replicate, finite_replicate.
Qed.

Lemma parse_threshold_ok where_ value d t : parse_threshold where_ value d = Ok t -> is_unit d = true -> is_unit t = true.
Proof.
  destruct value as [v|]; cbn [parse_threshold]; [|by intros [= <-]]. intros (x & _ & H)%result_bind_ok _.
  destruct (is_unit x) eqn:?; [by injection H as <-|done].
Qed.

Lemma parse_environment_threshold_ok raw d t :
  parse_environment_threshold raw d = Ok t -> is_unit d = true -> is_unit t = true.
Proof.
  unfold parse_environment_threshold. destruct (opt_filter nonempty_str raw) as [s|]; [|by intros [= <-]].
  intros (x & _ & H)%result_bind_ok _. destruct (is_unit x) eqn:?; [by injection H as <-|done].
Qed.

Lemma default_threshold_unit : is_unit DEFAULT_THRESHOLD = true.
Proof. by vm_compute. Qed.

Lemma default_lexicon_ok : term_set_ok (reasoning_terms default_lexicon) /\ term_set_ok (constraint_terms default_lexicon).
Proof. split; (split; [|by vm_compute]); apply (bool_decide_unpack _); vm_compute; reflexivity. Qed.

Lemma binary_routing_valid threshold : is_unit threshold = true -> valid_routing (RoutingConfig_binary threshold).
Proof.
  intros Ht. constructor; [apply valid_default_weights|apply default_lexicon_ok|]. right. by exists threshold.
Qed.

Lemma routing_config_from_toml_ok from_toml text where_ env order config :
  routing_config_from_toml from_toml text where_ env order = Ok config -> valid_routing config.
Proof.
  unfold routing_config_from_toml. intros (root & _ & H)%result_bind_ok. apply result_bind_ok in H as (rt & _ & H).
  apply result_bind_ok in H as (routing & _ & H). apply result_bind_ok in H as (w & Hw%parse_weights_valid & H).
  apply result_bind_ok in H as (lex & Hl & H).
  assert (term_set_ok (reasoning_terms lex) /\ term_set_ok (constraint_terms lex)) as Hlex.
  { destruct (ix_get routing (lit "lexicon")) as [v|]; [by eapply parse_lexicon_ok|injection Hl as <-; apply default_lexicon_ok]. }
  clear Hl. destruct (ix_get routing (lit "classifier")) as [v|].
  { apply result_bind_ok in H as (c & Hc%parse_classifier_ok & [= <-]). by constructor. }
  destruct (ix_get routing (lit "tiers")) as [v|].
  { apply result_bind_ok in H as (tiers & Ht%parse_tiers_ok & [= <-]). constructor; [done|done|]. by left. }
  apply result_bind_ok in H as (t & Ht & H). apply result_bind_ok in H as (t' & Ht' & [= <-]).
  constructor; [done|done|]. right. exists t'. split; [|done].
  destruct (parse_environment_threshold env t) as [x|] eqn:He; [|done]. injection Ht' as <-.
  eapply parse_environment_threshold_ok; [exact He|]. eapply parse_threshold_ok; [exact Ht|apply default_threshold_unit].
Qed.

(** Whatever text is read, with whatever environment override, a routing
    configuration that comes out is well formed (one finite non-negative weight
    per feature; bounded lexicons without empty terms; a strictly ascending
    ladder from zero, a binary cut in [0, 1], or a classifier of the right
    shape with finite coefficients), and scoring any prompt with it answers
    with one of its models. *)
Theorem routing_config_usable from_toml text where_ env order config p prompt :
  routing_config_from_toml from_toml text where_ env order = Ok config ->
  valid_routing config /\
  exists scored, score_complexity (Ok p) prompt config = Ok scored /\ cs_recommendation scored ∈ configured_models config.
Proof.
  intros Hc%routing_config_from_toml_ok. split; [done|]. destruct (score_complexity_answers p prompt config) as (s & Hs & Hm & _).
  - destruct Hc as [_ _ Hd]. destruct (cfg_classifier config); [by destruct Hd|].
    destruct Hd as [[_ (t & rest & -> & _) _]|(t & _ & ->)]; done.
  - by exists s.
Qed.

(** ** The ladder the parser accepts *)
Definition tier_toml (t : Tier) : TomlValue :=
  TTable ([(lit "min_score", TFloat (min_score t)); (lit "model", TString (tier_model t))] ++
          match tier_cost t with Some c => [(lit "cost", TFloat c)] | None => [] end).

Lemma not_below_iff x : not_below x = true <-> finite_nonneg x.
Proof.
  split; [apply not_below_finite|]. intros [Hf Hg]. unfold not_below. rewrite Hf. apply negb_true_iff.
  apply not_true_iff_false. intros H%f64_lt_not_ge. unfold f64_ge, f64_le in *. congruence.
Qed.

Lemma parse_tier_toml where_ t t' : parse_tier where_ (tier_toml t) = Ok t' <-> t' = t /\ valid_tier t.
Proof.
  split.
  - intros H. pose proof (parse_tier_ok _ _ _ H) as Hv. enough (t' = t) as -> by done. clear Hv. revert H.
    destruct t as [s m c]. unfold parse_tier, tier_toml. cbn [min_score tier_model tier_cost table_of as_table ok_or result_bind app].
    replace (ix_get _ (lit "min_score")) with (Some (TFloat s)) by reflexivity. cbn [mbind option_bind number ok_or result_bind].
    destruct (is_unit s); [|done]. cbn [negb].
    replace (ix_get _ (lit "model")) with (Some (TString m)) by reflexivity. cbn [mbind option_bind as_str].
    intros (m' & [[= <-] _]%ok_or_ok%opt_filter_some & (c' & Hc & [= <-])%result_bind_ok)%result_bind_ok. f_equal.
    replace (ix_get _ (lit "cost")) with (TFloat <$> c) in Hc by (by destruct c).
    destruct c as [c|]; cbn [fmap option_fmap option_map number ok_or result_bind] in Hc; [|by injection Hc as <-].
    destruct (not_below c); [by injection Hc as <-|done].
  - intros [-> [Hu Hm Hc]]. destruct t as [s m c]. cbn [min_score tier_model tier_cost] in *. unfold parse_tier, tier_toml.
    cbn [min_score tier_model tier_cost table_of as_table ok_or result_bind app].
    replace (ix_get _ (lit "min_score")) with (Some (TFloat s)) by reflexivity. cbn [mbind option_bind number ok_or result_bind].
    rewrite Hu. cbn [negb].
    replace (ix_get _ (lit "model")) with (Some (TString m)) by reflexivity. cbn [mbind option_bind as_str].
    unfold opt_filter. cbn [mbind option_bind]. apply nonempty_str_spec in Hm as ->. cbn [ok_or result_bind].
    replace (ix_get _ (lit "cost")) with (TFloat <$> c) by (by destruct c).
    destruct c as [c|]; cbn [fmap option_fmap option_map number ok_or result_bind]; [|done].
    cbn in Hc. by apply not_below_iff in Hc as ->.
Qed.

Lemma parse_tiers_toml where_ tiers : traverse (parse_tier where_) (map tier_toml tiers) = Ok tiers \/
  exists e, traverse (parse_tier where_) (map tier_toml tiers) = Err e /\ ~ Forall valid_tier tiers.
Proof.
  destruct (traverse _ _) as [ts|e] eqn:Ht.
  - left. f_equal. apply traverse_ok in Ht. revert ts Ht. induction tiers as [|t tiers IH]; intros ts Ht.
    { by apply Forall2_nil_inv_l in Ht as ->. }
    apply Forall2_cons_inv_l in Ht as (t' & ts' & [-> _]%parse_tier_toml & Ht & ->). f_equal. by apply IH.
  - right. exists e. split; [done|]. intros Hv.
    assert (traverse (parse_tier where_) (map tier_toml tiers) = Ok tiers) as H; [|congruence].
    apply traverse_ok. clear Ht. induction Hv as [|t tiers Ht _ IH]; constructor; [by apply parse_tier_toml|done].
Qed.

Lemma ladder_head tiers : (exists t rest, tiers = t :: rest /\ f64_eq (min_score t) f64_zero = true) <->
  match tiers with t :: _ => f64_eq (min_score t) f64_zero | [] => false end = true.
Proof. destruct tiers as [|t rest]; [naive_solver|]. split; [by intros (? & ? & [= <- <-] & ?)|intros H; by exists t, rest]. Qed.

(** The parser accepts the table of a ladder exactly when the ladder, in the
    order asked for, is valid, and then returns it unchanged: every tier a
    score in [0, 1], a named model and no negative cost, the first at zero,
    each above the one before.  The compatibility mode sorts first, and sorting
    loses no tier. *)
Theorem ladder_accepted_iff where_ order tiers tiers' :
  (parse_tiers where_ (TArray (map tier_toml tiers)) order = Ok tiers' <->
   tiers' = match order with CompatibilitySort => sort_tiers tiers | StrictInput => tiers end /\ valid_ladder tiers') /\
  sort_tiers tiers ≡ₚ tiers.
Proof.
  split; [|apply sort_tiers_perm]. split.
  - intros H. split; [|by eapply parse_tiers_ok]. revert H. unfold parse_tiers.
    intros (values & [[= <-] _]%ok_or_ok%opt_filter_some & H)%result_bind_ok.
    apply result_bind_ok in H as (ts & Ht & H). destruct (parse_tiers_toml where_ tiers) as [Hp|(e & Hp & _)]; [|congruence].
    assert (ts = tiers) as -> by congruence. destruct (negb _); [done|]. destruct (not_ascending _); [done|]. by injection H as <-.
  - intros [-> Hv]. set (l := match order with CompatibilitySort => sort_tiers tiers | StrictInput => tiers end) in *.
    destruct Hv as [Hv Hh Hs]. assert (Forall valid_tier tiers) as Hvt.
    { subst l. destruct order; [by rewrite sort_tiers_perm in Hv|done]. }
    unfold parse_tiers. destruct (parse_tiers_toml where_ tiers) as [Hp|(e & _ & Hn)]; [|done].
    replace (opt_filter _ (as_array _)) with (Some (map tier_toml tiers)).
    2: { unfold opt_filter. cbn [as_array mbind option_bind]. destruct tiers as [|t ts]; [|done]. exfalso.
         subst l. destruct Hh as (? & ? & ? & _). by destruct order. }
    cbn [ok_or result_bind]. rewrite Hp. cbn [result_bind]. fold l. apply ladder_head in Hh as ->.
    apply not_ascending_sorted in Hs as ->; done.
Qed.


(** ** Loading *)
Lemma redacted_idempotent e : redacted (redacted e) = redacted e.
Proof. by destruct e. Qed.

Lemma read_config_source_spec fs start_dir explicit :
  match read_config_source fs start_dir explicit with
  | Ok None => explicit = None /\ exists dir, canonicalize fs (start_of start_dir) = Some dir /\ fs_is_dir fs dir = true /\
      forall d, d ∈ ancestors fs dir -> symlink_metadata fs (join_path fs d CONFIG_FILE) = NotFound
  | Ok (Some (path, text)) => find_config_file fs start_dir explicit = Some path /\ read_to_string fs path = Some text
  | Err (ConfigMissing path) => explicit = Some path /\ symlink_metadata fs path = NotFound
  | Err (ConfigRead _ _) => True
  | Err _ => False
  end.
Proof.
  unfold read_config_source.
  destruct (match explicit with Some _ => false | None => _ end) eqn:Hd; [done|].
  destruct (find_config_file fs start_dir explicit) as [path|] eqn:Hf.
  - destruct (symlink_metadata fs path) as [| |[[]|]] eqn:Hm; try done.
    + split; [|done]. destruct explicit as [q|]; [cbn in Hf; congruence|]. exfalso. cbn [find_config_file] in Hf.
      destruct (canonicalize fs _); [|done]. cbn [mbind option_bind] in Hf. apply find_some in Hf as [_ Hf]. by rewrite Hm in Hf.
    + destruct (read_to_string fs path) eqn:?; [|done]. cbn [ok_or result_bind]. by split.
  - destruct explicit as [q|]; [done|]. split; [done|]. cbn [find_config_file] in Hf.
    destruct (canonicalize fs (start_of start_dir)) as [dir|]; [|done]. apply negb_false_iff in Hd. exists dir.
    split; [done|]. split; [done|]. intros d Hin. cbn [mbind option_bind] in Hf. apply find_none_forall in Hf.
    rewrite Forall_forall in Hf. specialize (Hf (join_path fs d CONFIG_FILE)).
    rewrite list_elem_of_fmap in Hf. specialize (Hf (ex_intro _ d (conj eq_refl Hin))). by destruct (symlink_metadata _ _).
Qed.

(** Every error is about the document, under the label it is given. *)
Definition located (where_ : str) (e : ConfigError) : Prop :=
  match e with InvalidToml w _ | InvalidValue w _ => w = where_ | _ => False end.

Lemma parse_tier_errs where_ value : errs (located where_) (parse_tier where_ value).
Proof. unfold parse_tier, table_of. errs. Qed.

Lemma parse_term_list_errs where_ value label : errs (located where_) (parse_term_list where_ value label).
Proof. unfold parse_term_list. errs. Qed.

Lemma parse_number_vector_errs where_ value label n : errs (located where_) (parse_number_vector where_ value label n).
Proof. unfold parse_number_vector. errs. Qed.

Lemma environment_errs raw d : errs (fun e => exists m, e = InvalidValue THRESHOLD_ENV m) (parse_environment_threshold raw d).
Proof. unfold parse_environment_threshold. errs; by eexists. Qed.

Lemma environment_relocated where_ raw d :
  errs (located where_) (map_err (relocate where_) (parse_environment_threshold raw d)).
Proof.
  pose proof (environment_errs raw d) as H. destruct (parse_environment_threshold raw d) as [x|e]; [done|].
  cbn [errs] in H. by destruct H as [m ->].
Qed.

#[export] Hint Resolve environment_relocated parse_tier_errs parse_term_list_errs parse_number_vector_errs : errs.

Lemma routing_error_located from_toml text where_ env order :
  errs (located where_) (routing_config_from_toml from_toml text where_ env order).
Proof.
  unfold routing_config_from_toml, read_toml, table_of, parse_weights, parse_lexicon, parse_classifier, parse_tiers,
    parse_threshold, weight_step, vector_step, table_of. errs.
Qed.

(** Loading never falls back to the built-in routing silently.  [Absent] is
    answered only when no file was named and no directory on the way up holds
    an entry of that name; [Loaded] only with what the file's text parses to.
    An [Absent] error is about a file named explicitly, and the error of a file
    that was read carries neither its text nor its values. *)
Theorem load_never_defaults_silently from_toml fs start_dir explicit env order :
  match load_routing_config_with_state from_toml fs start_dir explicit env order with
  | Ok (state, config) =>
      (state = Absent /\ explicit = None /\ exists dir threshold,
         canonicalize fs (start_of start_dir) = Some dir /\ fs_is_dir fs dir = true /\
         (forall d, d ∈ ancestors fs dir -> symlink_metadata fs (join_path fs d CONFIG_FILE) = NotFound) /\
         parse_environment_threshold env DEFAULT_THRESHOLD = Ok threshold /\ config = RoutingConfig_binary threshold)
      \/ (state = Loaded /\ exists path text, find_config_file fs start_dir explicit = Some path /\
            read_to_string fs path = Some text /\ routing_config_from_toml from_toml text path env order = Ok config)
  | Err e =>
      (load_state e = Absent -> exists path, e = ConfigMissing path /\ explicit = Some path) /\
      (forall path text, read_config_source fs start_dir explicit = Ok (Some (path, text)) -> redacted e = e)
  end.
Proof.
  pose proof (read_config_source_spec fs start_dir explicit) as Hs. unfold load_routing_config_with_state.
  destruct (read_config_source fs start_dir explicit) as [[[path text]|]|e]; cbn [result_bind].
  - destruct (routing_config_from_toml from_toml text path env order) as [config|e] eqn:Hp; cbn [result_map map_err].
    + right. split; [done|]. exists path, text. naive_solver.
    + split; [|intros; apply redacted_idempotent]. intros Ha. exfalso.
      pose proof (routing_error_located from_toml text path env order) as Hl. rewrite Hp in Hl. by destruct e.
  - destruct (parse_environment_threshold env DEFAULT_THRESHOLD) as [t|e] eqn:He; cbn [result_bind].
    + left. destruct Hs as (? & dir & ?). split; [done|]. split; [done|]. exists dir, t. naive_solver.
    + split; [|done]. intros Ha. exfalso. pose proof (environment_errs env DEFAULT_THRESHOLD) as Hl. rewrite He in Hl. cbn [errs] in Hl. by destruct Hl as [m ->].
  - split; [|done]. destruct e; try done. intros _. exists path. naive_solver.
Qed.

(** ** Closed examples *)
Definition sample_routing_document : TomlValue :=
  TTable [(lit "routing", TTable
    [(lit "weights", TTable [(lit "word_count", TInteger 5)]);
     (lit "lexicon", TTable [(lit "reasoning_terms", TArray [TString (lit " Theorem ")])]);
     (lit "tiers", TArray [TTable [(lit "min_score", TInteger 0); (lit "model", TString (lit "small"))];
                           TTable [(lit "min_score", TFloat (f64_dec 5 1)); (lit "model", TString (lit "large"));
                                   (lit "cost", TInteger 2)]])])].

Definition sample_routing : RoutingConfig :=
  {| cfg_weights := f64_of_Z 5 :: tl default_weights;
     cfg_tiers := [Tier_new f64_zero (lit "small"); with_cost (Tier_new (f64_dec 5 1) (lit "large")) (f64_of_Z 2)];
     cfg_classifier := None;
     cfg_lexicon := Lexicon_new [lit "theorem"] CONSTRAINT_TERMS |}.

Example sample_routing_read :
  routing_config_from_toml (fun _ => Ok sample_routing_document) [] (lit "router.toml") None StrictInput = Ok sample_routing.
Proof. vm_compute. reflexivity. Qed.

Example routing_config_usable_witness :
  routing_config_from_toml (fun _ => Ok sample_routing_document) [] (lit "router.toml") None StrictInput = Ok sample_routing /\
  valid_routing sample_routing.
Proof.
  split; [vm_compute; reflexivity|].
  apply (routing_config_usable (fun _ => Ok sample_routing_document) [] (lit "router.toml") None StrictInput sample_routing
           sample_patterns (lit "# hello")).
  vm_compute. reflexivity.
Defined.

(** Two tiers at the same score are refused. *)
Example flat_ladder_refused :
  is_ok (parse_tiers [] (TArray (map tier_toml [Tier_new f64_zero (lit "a"); Tier_new f64_zero (lit "b")])) StrictInput) = false.
Proof. vm_compute. reflexivity. Qed.

(** Without a file, the environment's value stays in the error. *)
Definition no_files : FileSystem :=
  {| canonicalize p := Some p; fs_is_dir _ := true; ancestors p := [p]; join_path d f := d ++ lit "/" ++ f;
     symlink_metadata _ := NotFound; read_to_string _ := None |}.

Example environment_error_shows_value :
  load_routing_config_with_state (fun _ => Err []) no_files (lit "/srv") None (Some (lit "high")) StrictInput =
  Err (InvalidValue THRESHOLD_ENV (Msg "{THRESHOLD_ENV} must be a number, got {raw:?}" [ArgStr THRESHOLD_ENV; ArgDebug (lit "high")])).
Proof. vm_compute. reflexivity. Qed.
