(* ===== verification/RoutingText.v ===== *)
(** * Routing configuration as text (crate [wayfinder-config], [src/lib.rs])

    [dump_routing_toml] prints a routing configuration; [set_toml_bool] and
    [apply_supported_routing_fragment] edit a document line by line and leave
    the other lines as they are.  Quoting a string is the [toml] crate's and
    stays a parameter, as the TOML reader does. *)
From S2P Require Export RoutingParse Numbers.

(** ** [format!("{:?}", x)] for an [f64]

    The digits are the shortest that read back as [x]; of those of that length,
    the nearest to [x], and the upper one on a tie. *)

(** The exact value of a finite positive float: a numerator and a denominator. *)
Definition f64_ratio (m : positive) (e : Z) : Z * Z :=
  if 0 <=? e then (Zpos m * 2 ^ e, 1) else (Zpos m, 2 ^ (- e)).

(** The decimal exponent: [10 ^ k <= num / den < 10 ^ (k + 1)].  The smallest
    positive float is above [10 ^ -324]. *)
Definition decimal_exponent (num den : Z) : Z :=
  Z.of_nat (count_digits 700 (num * 10 ^ 330 / den)) - 331.

(** The [digits]-digit decimal that reads back as the float, if there is one:
    the digits and the power of ten. *)
Definition try_digits (m : positive) (e k : Z) (digits : nat) : option (Z * Z) :=
  let '(num, den) := f64_ratio m e in
  let scale := k + 1 - Z.of_nat digits in
  let '(n, d) := if 0 <=? scale then (num, den * 10 ^ scale) else (num * 10 ^ (- scale), den) in
  let q := n / d in
  let r := n mod d in
  let reads c := f64_eq (decimal_to_f64 false c (S digits) scale) (S754_finite false m e) in
  let down := reads q in
  let up := reads (q + 1) in
  if up && (negb down || (d <=? 2 * r)) then Some (q + 1, scale)
  else if down then Some (q, scale)
  else None.

Fixpoint shortest_from (m : positive) (e k : Z) (digits fuel : nat) : Z * Z :=
  match try_digits m e k digits, fuel with
  | Some r, _ => r
  | None, S fuel => shortest_from m e k (S digits) fuel
  | None, O => (0, 0)
  end.

(** Seventeen significant digits are enough for every float. *)
Definition shortest (m : positive) (e : Z) : Z * Z :=
  let '(num, den) := f64_ratio m e in shortest_from m e (decimal_exponent num den) 1 16.

(** The digits of a positive integer, without the trailing zeros that [strip]
    removes, and the power of ten they carry. *)
Fixpoint strip_zeros (fuel : nat) (d k : Z) : Z * Z :=
  match fuel with
  | S fuel => if d mod 10 =? 0 then strip_zeros fuel (d / 10) (k + 1) else (d, k)
  | O => (d, k)
  end.

Definition show_digits (d : Z) : str := digits_ascii (count_digits 400 d) d.

(** Plain decimal text with at least one digit after the point. *)
Definition decimal_text (d k : Z) : str :=
  if 0 <=? k then show_digits (d * 10 ^ k) ++ lit ".0"
  else
    let places := Z.to_nat (- k) in
    show_digits (d / 10 ^ (- k)) ++ lit "." ++ digits_ascii places (d mod 10 ^ (- k)).

(** Scientific text: one digit, the others after a point, the exponent. *)
Definition exponent_text (d k : Z) : str :=
  let digits := show_digits d in
  let e := k + len digits - 1 in
  let mantissa := match digits with [c] => [c] | c :: rest => c :: lit "." ++ rest | [] => [] end in
  mantissa ++ lit "e" ++ (if e <? 0 then lit "-" ++ show_digits (- e) else show_digits e).

Definition EXPONENT_BELOW : f64 := f64_dec 1 4.
Definition EXPONENT_FROM : f64 := f64_of_Z (10 ^ 16).

Definition debug_f64 (x : f64) : str :=
  match x with
  | S754_nan => lit "NaN"
  | S754_infinity s => if s then lit "-inf" else lit "inf"
  | S754_zero s => if s then lit "-0.0" else lit "0.0"
  | S754_finite s m e =>
      let '(d, k) := shortest m e in
      let '(d, k) := strip_zeros 20 d k in
      let a := f64_abs x in
      (if s then lit "-" else []) ++
      (if f64_lt a EXPONENT_BELOW || f64_ge a EXPONENT_FROM then exponent_text d k else decimal_text d k)
  end.

Definition format_number (value : f64) : str := debug_f64 (python_round value 6).

Example debug_f64_forms :
  map debug_f64 [f64_dec 3 1; f64_one; f64_dec 15 2; f64_of_Z 1234567; f64_dec 1 3; f64_neg (f64_dec 25 1);
                 f64_of_Z (10 ^ 16); f64_dec 5 5; f64_dec 1234 8; S754_finite false 1 (-1074);
                 f64_div f64_one (f64_of_Z 3); f64_max_value; f64_of_Z 9007199254740992] =
  map lit ["0.3"; "1.0"; "0.15"; "1234567.0"; "0.001"; "-2.5"; "1e16"; "5e-5"; "1.234e-5"; "5e-324";
           "0.3333333333333333"; "1.7976931348623157e308"; "9007199254740992.0"]%string.
Proof. vm_compute. reflexivity. Qed.

(** ** Printing *)
Section Dump.
(** [toml::Value::String(value).to_string()]. *)
Context (quote_toml : str -> str).

Definition nl : str := [10].

Definition list_eqb {A} (eqb : A -> A -> bool) (a b : list A) : bool :=
  Nat.eqb (length a) (length b) && forallb (fun '(x, y) => eqb x y) (zip a b).

Definition weights_eqb (a b : Weights) : bool := list_eqb f64_eq a b.

Definition lexicon_eqb (a b : Lexicon) : bool :=
  bool_decide (lex_reasoning_terms a = lex_reasoning_terms b) && bool_decide (lex_constraint_terms a = lex_constraint_terms b).

Definition comma (parts : list str) : str := str_join (lit ", ") parts.

Definition weights_block (config : RoutingConfig) : list str :=
  if weights_eqb (cfg_weights config) default_weights then []
  else
    [lit "[routing]" ++ nl ++ lit "weights = { "
     ++ comma (map (fun name => name ++ lit " = " ++ format_number (default f64_zero (Weights_get (cfg_weights config) name)))
                 FEATURE_ORDER)
     ++ lit " }"].

Definition term_line (label : string) (terms defaults : list str) : list str :=
  if bool_decide (terms = defaults) then []
  else [lit label ++ lit " = [" ++ comma (map quote_toml terms) ++ lit "]"].

Definition lexicon_block (config : RoutingConfig) : list str :=
  let lexicon := cfg_lexicon config in
  if lexicon_eqb lexicon default_lexicon then []
  else
    [str_join nl ([lit "[routing.lexicon]"]
                  ++ term_line "reasoning_terms" (reasoning_terms lexicon) (reasoning_terms default_lexicon)
                  ++ term_line "constraint_terms" (constraint_terms lexicon) (constraint_terms default_lexicon))].

Definition classifier_block (classifier : ClassifierModel) : str :=
  str_join nl
    ([lit "[routing.classifier]";
      lit "models = [" ++ comma (map quote_toml (cm_models classifier)) ++ lit "]";
      lit "intercepts = [" ++ comma (map format_number (cm_intercepts classifier)) ++ lit "]";
      [];
      lit "[routing.classifier.weights]"]
     ++ map (fun name => name ++ lit " = ["
                         ++ comma (map format_number (default [] (weights_for classifier name))) ++ lit "]") FEATURE_ORDER).

Definition tier_block (tier : Tier) : str :=
  str_join nl
    ([lit "[[routing.tiers]]"; lit "min_score = " ++ format_number (min_score tier); lit "model = " ++ quote_toml (tier_model tier)]
     ++ match tier_cost tier with Some cost => [lit "cost = " ++ format_number cost] | None => [] end).

Definition dump_routing_toml (config : RoutingConfig) : str :=
  let routes := match cfg_classifier config with
                | Some classifier => classifier_block classifier
                | None => str_join (nl ++ nl) (map tier_block (cfg_tiers config))
                end in
  str_join (nl ++ nl) (weights_block config ++ lexicon_block config ++ [routes]) ++ nl.
End Dump.

(** ** Lines *)

(** [s.split_inclusive('\n')]: every line keeps its newline; the last one may
    have none. *)
Fixpoint split_inclusive (s : str) : list str :=
  match s with
  | [] => []
  | c :: rest =>
      if c =? 10 then [c] :: split_inclusive rest
      else match split_inclusive rest with
           | [] => [[c]]
           | line :: lines => (c :: line) :: lines
           end
  end.

Definition ends_with (s suffix : str) : bool := starts_with (rev s) (rev suffix).

(** [trim_start_matches] and [trim_end_matches] of a character. *)
Definition trim_start_char (c : Z) (s : str) : str := drop_while (Z.eqb c) s.
Definition trim_end_char (c : Z) (s : str) : str := rev (drop_while (Z.eqb c) (rev s)).

(** [s.trim_matches(['[', ']'])]. *)
Definition bracket (c : Z) : bool := (c =? 91) || (c =? 93).
Definition trim_brackets (s : str) : str := rev (drop_while bracket (rev (drop_while bracket s))).

Definition is_header (stripped : str) : bool := starts_with stripped (lit "[") && ends_with stripped (lit "]").

(** ** The whitelisted boolean edit

    [split_inclusive] yields an unterminated last line too
    ([split_inclusive_concat]), so the branch of the source that would add an
    uncaptured tail never runs. *)
Definition rendered_bool (value : bool) : str := if value then lit "true" else lit "false".

Definition header_section (stripped : str) : str := trim (trim_end_char 93 (trim_start_char 91 stripped)).

Section SetBool.
Context (table key : str) (value : bool).

(** The line that replaces an assignment, at the indentation it has. *)
Definition assignment_line (line : str) : str :=
  take_while (fun c => char_is_whitespace c && negb (c =? 10)) line ++ key ++ lit " = " ++ rendered_bool value ++ [10].

(** A line of [section] that assigns the key of the table. *)
Definition assigns (section line : str) : bool :=
  let stripped := trim line in
  negb (is_header stripped) && str_eqb section table && negb (starts_with stripped (lit "#"))
  && match split_once 61 stripped with Some (name, _) => str_eqb (trim name) key | None => false end.

Definition section_step (section line : str) : str :=
  let stripped := trim line in if is_header stripped then header_section stripped else section.

Definition opens_table (line : str) : bool :=
  let stripped := trim line in is_header stripped && str_eqb (header_section stripped) table.

(** The loop over the lines: the lines with the assignment replaced, or the
    index of the last header of the table. *)
Fixpoint set_loop (index : nat) (section : str) (header_index : option nat) (before lines : list str)
    : list str + option nat :=
  match lines with
  | [] => inr header_index
  | line :: lines =>
      if is_header (trim line) then
        set_loop (S index) (section_step section line) (if opens_table line then Some index else header_index)
          (before ++ [line]) lines
      else if assigns section line then inl (before ++ [assignment_line line] ++ lines)
      else set_loop (S index) section header_index (before ++ [line]) lines
  end.

Definition inserted_line : str := key ++ lit " = " ++ rendered_bool value ++ [10].

Definition appended_table (text : str) : str :=
  text ++ (if match text with [] => true | _ => false end || ends_with text [10] then [] else [10])
  ++ [10] ++ lit "[" ++ table ++ lit "]" ++ [10] ++ inserted_line.

Definition set_toml_bool (text : str) : str :=
  let lines := split_inclusive text in
  match set_loop 0 [] None [] lines with
  | inl edited => concat edited
  | inr (Some index) => concat (take (S index) lines ++ [inserted_line] ++ drop (S index) lines)
  | inr None => appended_table text
  end.
End SetBool.

(** ** The routing fragment *)
Section Apply.
Context (from_toml : str -> result TomlValue str).

Definition routing_edit_allowed : list str := map lit ["threshold"; "tiers"; "weights"]%string.
Definition tier_edit_allowed : list str := map lit ["min_score"; "model"]%string.

Definition STDIN : str := lit "stdin".
Definition UPDATED : str := lit "updated document".

Definition validate_routing_fragment_shape (fragment : str) : result unit ConfigError :=
  let? root := read_toml from_toml fragment STDIN in
  let? root := table_of STDIN root (Msg "routing apply needs a [routing] table" []) in
  match unknown_keys [lit "routing"] root with
  | [] =>
      let? routing := ok_or (ix_get root (lit "routing") ≫= as_table)
                        (invalid STDIN (Msg "routing apply needs a [routing] table" [])) in
      match unknown_keys routing_edit_allowed routing with
      | [] => Ok ()
      | unknown => Err (invalid STDIN (Msg "routing apply cannot edit {}" [ArgStr (str_join (lit ", ") unknown)]))
      end
  | unknown =>
      Err (invalid STDIN (Msg "routing apply may only include [routing] tables, not {}" [ArgStr (str_join (lit ", ") unknown)]))
  end.

(** The first field of a tier that an edit would drop. *)
Fixpoint unsupported_tier_field (tiers : list TomlValue) : option str :=
  match tiers with
  | [] => None
  | tier :: tiers =>
      match as_table tier with
      | None => unsupported_tier_field tiers
      | Some t => match unknown_keys tier_edit_allowed t with field :: _ => Some field | [] => unsupported_tier_field tiers end
      end
  end.

Definition ensure_existing_routing_is_supported (existing : str) : result unit ConfigError :=
  let? root := read_toml from_toml existing CONFIG_FILE in
  match (as_table root ≫= fun t => ix_get t (lit "routing")) ≫= as_table with
  | None => Ok ()
  | Some routing =>
      match unknown_keys routing_edit_allowed routing with
      | field :: _ => Err (invalid CONFIG_FILE (Msg "routing config contains unsupported field routing.{field}" [ArgStr field]))
      | [] =>
          match (ix_get routing (lit "tiers") ≫= as_array) ≫= unsupported_tier_field with
          | Some field =>
              Err (invalid CONFIG_FILE (Msg "routing config contains unsupported field routing.tiers.{field}" [ArgStr field]))
          | None => Ok ()
          end
      end
  end.

(** Whether the lines after this one, up to the next header, are routing. *)
Definition routing_header (stripped : str) : bool :=
  let header := trim (trim_brackets stripped) in
  str_eqb header (lit "routing") || starts_with header (lit "routing.").

Definition in_routing_step (in_routing : bool) (line : str) : bool :=
  let stripped := trim line in if is_header stripped then routing_header stripped else in_routing.

Fixpoint kept_lines (in_routing : bool) (lines : list str) : list str :=
  match lines with
  | [] => []
  | line :: lines =>
      let in_routing := in_routing_step in_routing line in
      (if in_routing then [] else [line]) ++ kept_lines in_routing lines
  end.

(** As for [set_toml_bool], no tail is left uncaptured. *)
Definition replace_routing_family (existing fragment : str) : str :=
  let kept := concat (kept_lines false (split_inclusive existing)) in
  let nonempty := match kept with [] => false | _ => true end in
  let kept := if nonempty && negb (ends_with kept [10]) then kept ++ [10] else kept in
  let kept := if nonempty && negb (ends_with kept [10; 10]) then kept ++ [10] else kept in
  kept ++ trim fragment ++ [10].

(** [PartialEq] of the parsed configurations. *)
Definition tier_eqb (a b : Tier) : bool :=
  f64_eq (min_score a) (min_score b) && str_eqb (tier_model a) (tier_model b)
  && match tier_cost a, tier_cost b with
     | Some x, Some y => f64_eq x y
     | None, None => true
     | _, _ => false
     end.

Definition classifier_eqb (a b : ClassifierModel) : bool :=
  bool_decide (cm_models a = cm_models b) && list_eqb (list_eqb f64_eq) (cm_weights a) (cm_weights b)
  && list_eqb f64_eq (cm_intercepts a) (cm_intercepts b).

Definition routing_eqb (a b : RoutingConfig) : bool :=
  weights_eqb (cfg_weights a) (cfg_weights b) && list_eqb tier_eqb (cfg_tiers a) (cfg_tiers b)
  && match cfg_classifier a, cfg_classifier b with
     | Some x, Some y => classifier_eqb x y
     | None, None => true
     | _, _ => false
     end
  && lexicon_eqb (cfg_lexicon a) (cfg_lexicon b).

Definition apply_supported_routing_fragment (existing fragment : str) : result str ConfigError :=
  let? _ := validate_routing_fragment_shape fragment in
  let? _ := ensure_existing_routing_is_supported existing in
  let? desired := routing_config_from_toml from_toml fragment STDIN None StrictInput in
  let updated := replace_routing_family existing fragment in
  let? actual := routing_config_from_toml from_toml updated UPDATED None StrictInput in
  if routing_eqb actual desired then Ok updated
  else Err (invalid UPDATED (Msg "routing edit did not take effect" [])).
End Apply.

(** ** The lines a document is made of *)
Lemma split_inclusive_concat s : concat (split_inclusive s) = s.
Proof.
  induction s as [|c s IH]; [done|]. cbn [split_inclusive]. destruct (c =? 10).
  { cbn [concat]. by rewrite IH. }
  destruct (split_inclusive s) as [|line lines]; cbn [concat] in *; [by rewrite <- IH|]. by rewrite <- IH.
Qed.

(** ** Setting a boolean

    The table a line belongs to is that of the last header before it. *)
Definition section_after (section : str) (lines : list str) : str := foldl section_step section lines.

(** No line of [lines] assigns the key. *)
Definition unassigned (table key section : str) (lines : list str) : Prop :=
  forall pre line post, lines = pre ++ line :: post -> assigns table key (section_after section pre) line = false.

Definition never_opened (table : str) (lines : list str) : Prop := Forall (fun line => opens_table table line = false) lines.

(** What the edit does: it replaces the first assignment of the key; else it
    inserts one under the last header of the table; else it appends the table. *)
Inductive edited (table key : str) (value : bool) (text : str) : str -> Prop :=
| edited_line pre line post :
    split_inclusive text = pre ++ line :: post ->
    unassigned table key [] pre -> assigns table key (section_after [] pre) line = true ->
    edited table key value text (concat (pre ++ assignment_line key value line :: post))
| edited_insert pre line post :
    split_inclusive text = pre ++ line :: post ->
    unassigned table key [] (split_inclusive text) -> opens_table table line = true -> never_opened table post ->
    edited table key value text (concat (pre ++ line :: inserted_line key value :: post))
| edited_append :
    unassigned table key [] (split_inclusive text) -> never_opened table (split_inclusive text) ->
    edited table key value text (appended_table table key value text).

Lemma unassigned_nil table key section : unassigned table key section [].
Proof. intros pre line post H. by destruct pre. Qed.

Lemma unassigned_snoc table key section lines line :
  unassigned table key section lines -> assigns table key (section_after section lines) line = false ->
  unassigned table key section (lines ++ [line]).
Proof.
  intros Hl Ha pre x post E. destruct post as [|y post _] using rev_ind.
  - apply app_inj_tail in E as [-> ->]. done.
  - rewrite app_comm_cons, app_assoc in E. apply app_inj_tail in E as [-> _]. by eapply Hl.
Qed.

Lemma section_after_snoc section lines line : section_after section (lines ++ [line]) = section_step (section_after section lines) line.
Proof. unfold section_after. by rewrite foldl_app. Qed.

(** A header assigns nothing; another line leaves the table as it is. *)
Lemma header_assigns table key section line : is_header (trim line) = true -> assigns table key section line = false.
Proof. intros H. unfold assigns. by rewrite H. Qed.

Lemma plain_section section line : is_header (trim line) = false -> section_step section line = section.
Proof. intros H. unfold section_step. by rewrite H. Qed.

Lemma plain_opens table line : is_header (trim line) = false -> opens_table table line = false.
Proof. intros H. unfold opens_table. by rewrite H. Qed.

(** The header the loop remembers: the last of the table in the lines read. *)
Definition remembered (table : str) (before : list str) (header_index : option nat) : Prop :=
  match header_index with
  | None => never_opened table before
  | Some i => exists pre line post, before = pre ++ line :: post /\ i = length pre /\ opens_table table line = true
                                    /\ never_opened table post
  end.

Lemma remembered_snoc table before header_index line :
  remembered table before header_index -> opens_table table line = false -> remembered table (before ++ [line]) header_index.
Proof.
  intros H Ho. destruct header_index as [i|]; cbn [remembered] in *.
  - destruct H as (pre & l & post & -> & -> & Hl & Hp). exists pre, l, (post ++ [line]).
    rewrite <- app_assoc. split_and!; [done..|]. by apply Forall_app; repeat constructor.
  - by apply Forall_app; repeat constructor.
Qed.

Lemma set_loop_edited table key value text before lines header_index :
  split_inclusive text = before ++ lines -> unassigned table key [] before -> remembered table before header_index ->
  edited table key value text
    match set_loop table key value (length before) (section_after [] before) header_index before lines with
    | inl edited => concat edited
    | inr (Some index) =>
        concat (take (S index) (split_inclusive text) ++ [inserted_line key value] ++ drop (S index) (split_inclusive text))
    | inr None => appended_table table key value text
    end.
Proof.
  revert before header_index. induction lines as [|line lines IH]; intros before header_index Ht Hu Hr; cbn [set_loop].
  { rewrite app_nil_r in Ht. rewrite <- Ht in Hu, Hr. destruct header_index as [i|]; cbn [remembered] in Hr.
    - destruct Hr as (pre & line & post & E & -> & Ho & Hp). rewrite E.
      assert (take (S (length pre)) (pre ++ line :: post) = pre ++ [line]) as ->
        by (rewrite cons_middle, app_assoc; apply take_app_length'; rewrite length_app; cbn; lia).
      assert (drop (S (length pre)) (pre ++ line :: post) = post) as ->
        by (rewrite cons_middle, app_assoc; apply drop_app_length'; rewrite length_app; cbn; lia).
      rewrite <- app_assoc. by eapply edited_insert.
    - by apply edited_append. }
  assert (Hs : split_inclusive text = (before ++ [line]) ++ lines) by (by rewrite <- app_assoc).
  assert (Hlen : S (length before) = length (before ++ [line])) by (rewrite length_app; cbn; lia).
  destruct (is_header (trim line)) eqn:Hh.
  { rewrite Hlen, <- section_after_snoc. apply IH; [done|by apply unassigned_snoc, header_assigns|].
    destruct (opens_table table line) eqn:Ho; [|by apply remembered_snoc].
    exists before, line, []. split_and!; [done|done|done|constructor]. }
  destruct (assigns table key (section_after [] before) line) eqn:Ha; [by eapply edited_line|].
  rewrite Hlen, <- (plain_section (section_after [] before) line Hh), <- section_after_snoc.
  apply IH; [done|by apply unassigned_snoc|by apply remembered_snoc, plain_opens].
Qed.

(** The line-preserving boolean edit.  Exactly one line changes or appears: the
    first assignment of the key in a section of the table, replaced at its
    indentation; without one, a line under the last header of the table;
    without a header, a table at the end.  Every other line is kept. *)
Theorem set_toml_bool_edits table key value text : edited table key value text (set_toml_bool table key value text).
Proof.
  apply (set_loop_edited table key value text [] _ None); [done|apply unassigned_nil|constructor].
Qed.

Example set_bool_replaces :
  set_toml_bool (lit "gateway") (lit "offline") true (lit "# top
[gateway]
  offline = false # note
port = 1
[other]
offline = false")
  = lit "# top
[gateway]
  offline = true
port = 1
[other]
offline = false".
Proof. vm_compute. reflexivity. Qed.

Example set_bool_inserts : set_toml_bool (lit "gateway") (lit "offline") true (lit "[gateway]
port = 1") = lit "[gateway]
offline = true
port = 1".
Proof. vm_compute. reflexivity. Qed.

(** A header followed by a comment is not seen: the edit appends a second table
    of the same name, which TOML refuses. *)
Example commented_header_is_missed : set_toml_bool (lit "gateway") (lit "offline") true (lit "[gateway] # main
port = 1
") = lit "[gateway] # main
port = 1

[gateway]
offline = true
".
Proof. vm_compute. reflexivity. Qed.

(** ** Applying a fragment

    A document is a preamble, then sections, each opened by its header.  The
    headers are read here by a grammar of their own: one or two brackets, a
    dotted name, as many brackets, and nothing else on the line. *)

(** A character of a dotted name: a bare key's, a dot, a quote. *)
Definition key_char (c : Z) : bool :=
  ((97 <=? c) && (c <=? 122)) || ((65 <=? c) && (c <=? 90)) || ((48 <=? c) && (c <=? 57)) || (c =? 95) || (c =? 45).
Definition name_char (c : Z) : bool := key_char c || (c =? 46) || (c =? 34).

(** The name that a text of brackets opens, before the given closing. *)
Definition read_name (closing text : str) : option str :=
  let name := take_while name_char text in
  match name with
  | c :: _ => if key_char c && str_eqb (drop_while name_char text) closing then Some name else None
  | [] => None
  end.

Definition header_name (line : str) : option str :=
  match trim line with
  | 91 :: 91 :: text => read_name [93; 93] text
  | 91 :: text => read_name [93] text
  | _ => None
  end.

(** The table [routing] and those under it. *)
Definition routing_family (name : str) : bool := str_eqb (take_while (fun c => negb (c =? 46)) name) (lit "routing").

(** A line that is a header of this grammar or does not start with a bracket. *)
Definition plain_line (line : str) : bool :=
  negb (starts_with (trim line) [91]) || bool_decide (is_Some (header_name line)).

(** Whether a text occurs in another. *)
Fixpoint occurs (part s : str) : bool :=
  starts_with s part || match s with [] => false | _ :: s => occurs part s end.

(** A document whose brackets at the start of a line are its headers: no header
    is followed by a comment and no text spans several lines. *)
Definition plain_document (text : str) : bool :=
  forallb plain_line (split_inclusive text) && negb (occurs [34; 34; 34] text) && negb (occurs [39; 39; 39] text).

Fixpoint sections (lines : list str) : list str * list (str * list str) :=
  match lines with
  | [] => ([], [])
  | line :: lines =>
      let '(preamble, rest) := sections lines in
      match header_name line with Some _ => ([], (line, preamble) :: rest) | None => (line :: preamble, rest) end
  end.

(** The sections that are not of the routing family. *)
Definition outside_routing (section : str * list str) : bool :=
  match header_name (fst section) with Some name => negb (routing_family name) | None => true end.

Definition section_lines (section : str * list str) : list str := fst section :: snd section.

Lemma sections_lines lines : fst (sections lines) ++ concat (map section_lines (snd (sections lines))) = lines.
Proof.
  induction lines as [|line lines IH]; [done|]. cbn [sections]. destruct (sections lines) as [preamble rest]. cbn [fst snd] in IH.
  destruct (header_name line); cbn [fst snd map concat section_lines app]; by rewrite IH.
Qed.

(** *** The code's reading of a plain header *)
Lemma name_char_plain c : name_char c = true -> bracket c = false /\ char_is_whitespace c = false.
Proof.
  intros H. assert (45 <= c <= 122 /\ c <> 91 /\ c <> 93 \/ c = 34) as Hc.
  { unfold name_char, key_char in H. rewrite !orb_true_iff, !andb_true_iff, !Z.leb_le, !Z.eqb_eq in H. lia. }
  split; [unfold bracket; rewrite orb_false_iff, !Z.eqb_neq; lia|].
  unfold char_is_whitespace. repeat rewrite ?orb_false_iff, ?andb_false_iff, ?Z.eqb_neq, ?Z.leb_gt. lia.
Qed.

Lemma take_while_holds p s : Forall (fun c => p c = true) (take_while p s).
Proof. induction s as [|c s IH]; cbn [take_while]; [constructor|]. destruct (p c) eqn:E; constructor; [done|done]. Qed.

Lemma read_name_spec closing text name : read_name closing text = Some name ->
  text = name ++ closing /\ name <> [] /\ Forall (fun c => name_char c = true) name.
Proof.
  unfold read_name. pose proof (take_drop_while name_char text) as Ht. pose proof (take_while_holds name_char text) as Hf.
  destruct (take_while name_char text) as [|c rest]; [done|]. destruct (key_char c && _) eqn:E; [|done]. intros [= <-].
  apply andb_true_iff in E as [_ E%str_eqb_eq]. rewrite <- E. by split_and!.
Qed.

Lemma header_name_spec line name : header_name line = Some name ->
  (trim line = [91] ++ name ++ [93] \/ trim line = [91; 91] ++ name ++ [93; 93]) /\
  name <> [] /\ Forall (fun c => name_char c = true) name.
Proof.
  unfold header_name. destruct (trim line) as [|c1 t] eqn:Et; [done|].
  intros H. assert (c1 = 91 /\ (read_name [93] t = Some name \/ exists t', t = 91 :: t' /\ read_name [93; 93] t' = Some name)) as [-> Hr].
  { destruct c1 as [|c1|c1]; try done. repeat (destruct c1 as [c1|c1|]; try done).
    split; [done|]. destruct t as [|c2 t']; [by left|]. destruct c2 as [|c2|c2]; try (by left).
    repeat (destruct c2 as [c2|c2|]; try (by left)). right. by exists t'. }
  destruct Hr as [Hr|(t' & -> & Hr)]; apply read_name_spec in Hr as (-> & Hn & Hf); split; auto.
Qed.

Lemma drop_while_stop p c s : p c = false -> drop_while p (c :: s) = c :: s.
Proof. intros H. cbn [drop_while]. by rewrite H. Qed.

Lemma drop_while_app p pre s : Forall (fun c => p c = true) pre -> drop_while p (pre ++ s) = drop_while p s.
Proof. induction 1 as [|c pre Hc _ IH]; [done|]. cbn [app drop_while]. by rewrite Hc. Qed.

(** Trimming both ends of a text whose ends stay. *)
Lemma strip_both p open s close : Forall (fun c => p c = true) open -> Forall (fun c => p c = true) close ->
  s <> [] -> Forall (fun c => p c = false) s -> rev (drop_while p (rev (drop_while p (open ++ s ++ close)))) = s.
Proof.
  intros Ho Hc Hs Hf. rewrite drop_while_app by done. destruct s as [|c s]; [done|].
  change ((c :: s) ++ close) with (c :: (s ++ close)). rewrite drop_while_stop by by inversion Hf.
  change (c :: (s ++ close)) with ((c :: s) ++ close). rewrite rev_app_distr, drop_while_app by by apply Forall_rev.
  apply Forall_rev in Hf. destruct (rev (c :: s)) as [|x l] eqn:Er; [by apply (f_equal length) in Er; rewrite length_rev in Er|].
  rewrite drop_while_stop by by inversion Hf. rewrite <- Er. apply rev_involutive.
Qed.

Lemma trim_name name : name <> [] -> Forall (fun c => name_char c = true) name -> trim name = name.
Proof.
  intros Hn Hf. unfold trim, trim_end, trim_start. rewrite <- (app_nil_r name) at 1. apply (strip_both _ [] name []); try constructor; [done|].
  eapply Forall_impl; [exact Hf|]. intros c Hc. by apply name_char_plain.
Qed.

Lemma routing_name name : str_eqb name (lit "routing") || starts_with name (lit "routing.") = routing_family name.
Proof.
  unfold routing_family. apply eq_true_iff_eq. rewrite orb_true_iff, !str_eqb_eq. unfold starts_with. split.
  - intros [->|Hp]; [reflexivity|]. apply starts_with_spec in Hp as [rest ->]. reflexivity.
  - intros Hp. pose proof (take_drop_while (fun c => negb (c =? 46)) name) as Ht. rewrite Hp in Ht.
    destruct (drop_while (fun c => negb (c =? 46)) name) as [|c rest] eqn:Ed; [left; by rewrite <- Ht, app_nil_r|].
    right. assert (c = 46) as ->.
    { destruct (Z.eqb_spec c 46) as [|Hc]; [done|]. exfalso. revert Ed. clear -Hc. induction name as [|x name IH]; [done|].
      cbn [drop_while]. destruct (negb (x =? 46)) eqn:E; [done|]. intros [= -> ->]. apply negb_false_iff, Z.eqb_eq in E. done. }
    rewrite <- Ht. apply starts_with_spec. by exists rest.
Qed.

(** The code sees a plain header, and puts it in the same family. *)
Lemma plain_header line name : header_name line = Some name ->
  is_header (trim line) = true /\ routing_header (trim line) = routing_family name.
Proof.
  intros (Hl & Hn & Hf)%header_name_spec.
  assert (Forall (fun c => bracket c = false) name) as Hb by (eapply Forall_impl; [exact Hf|]; intros c Hc; by apply name_char_plain).
  assert (trim_brackets (trim line) = name) as Ht.
  { unfold trim_brackets. destruct Hl as [-> | ->]; (apply strip_both; [by repeat constructor|by repeat constructor|done|done]). }
  split.
  - unfold is_header, ends_with. destruct Hl as [-> | ->]; rewrite !rev_app_distr; reflexivity.
  - unfold routing_header. rewrite Ht, trim_name by done. apply routing_name.
Qed.

Lemma plain_other line : plain_line line = true -> header_name line = None -> is_header (trim line) = false.
Proof.
  unfold plain_line, is_header. intros H Hn. rewrite Hn in H. rewrite bool_decide_false in H by by intros [? ?].
  rewrite orb_false_r in H. apply negb_true_iff in H. change (lit "[") with [91]. by rewrite H.
Qed.

Lemma kept_lines_sections in_routing lines : forallb plain_line lines = true ->
  kept_lines in_routing lines =
  (if in_routing then [] else fst (sections lines))
  ++ concat (map section_lines (List.filter outside_routing (snd (sections lines)))).
Proof.
  revert in_routing. induction lines as [|line lines IH]; intros in_routing; cbn [kept_lines sections forallb].
  { by destruct in_routing. }
  intros [Hp Hl]%andb_true_iff. rewrite IH by done. unfold in_routing_step. destruct (sections lines) as [preamble rest]. cbn [fst snd].
  destruct (header_name line) as [name|] eqn:Eh; cbn [fst snd List.filter].
  - destruct (plain_header line name Eh) as [-> ->]. unfold outside_routing at 2. cbn [fst]. rewrite Eh.
    destruct (routing_family name); cbn [negb map concat section_lines]; [by destruct in_routing|].
    destruct in_routing; cbn [app fst snd]; done.
  - rewrite (plain_other line Hp Eh). by destruct in_routing.
Qed.

Section Apply.
Context (from_toml : str -> result TomlValue str).

(** What was read with the same fields, floats compared as numbers. *)
Definition same_routing (a b : RoutingConfig) : Prop := routing_eqb a b = true.

(** The sections of the existing document that are kept. *)
Definition kept_text (existing : str) : str :=
  let '(preamble, rest) := sections (split_inclusive existing) in
  concat (preamble ++ concat (map section_lines (List.filter outside_routing rest))).

Lemma replace_routing_family_spec existing fragment : plain_document existing = true ->
  exists gap, gap ∈ [[]; [10]; [10; 10]] /\
  replace_routing_family existing fragment = kept_text existing ++ gap ++ trim fragment ++ [10].
Proof.
  unfold plain_document. rewrite !andb_true_iff. intros [[Hplain _] _].
  unfold replace_routing_family. rewrite kept_lines_sections by exact Hplain. fold (kept_text existing).
  assert (kept_text existing = concat (fst (sections (split_inclusive existing))
    ++ concat (map section_lines (List.filter outside_routing (snd (sections (split_inclusive existing))))))) as <-
    by (unfold kept_text; by destruct (sections _)).
  generalize (kept_text existing). intros kept.
  destruct (match kept with [] => false | _ => true end); cbn [andb].
  - destruct (ends_with kept [10]); cbn [negb].
    + destruct (ends_with kept [10; 10]); cbn [negb]; [exists []|exists [10]; rewrite <- app_assoc]; (split; [set_solver|done]).
    + destruct (ends_with (kept ++ [10]) [10; 10]); cbn [negb]; [exists [10]|exists [10; 10]];
        (split; [set_solver|by rewrite <- !app_assoc]).
  - exists []. split; [set_solver|done].
Qed.

(** The fields of the routing table that an edit can write back. *)
Definition only_fields (allowed : list str) (t : toml_table) : Prop := ix_keys t ⊆ allowed.

Definition editable_tiers (routing : toml_table) : Prop :=
  forall tiers tier t, ix_get routing (lit "tiers") = Some (TArray tiers) -> tier ∈ tiers -> tier = TTable t -> only_fields tier_edit_allowed t.

Definition editable (root : TomlValue) : Prop :=
  forall top routing, root = TTable top -> ix_get top (lit "routing") = Some (TTable routing) ->
  only_fields routing_edit_allowed routing /\ editable_tiers routing.

Lemma unknown_keys_nil known t : unknown_keys known t = [] -> only_fields known t.
Proof.
  unfold unknown_keys, only_fields. intros H k Hk. destruct (decide (k ∈ known)) as [|Hn]; [done|].
  assert (k ∈ List.filter (fun key => negb (bool_decide (key ∈ known))) (ix_keys t)) as Hin.
  { apply list_elem_of_In, filter_In. split; [by apply list_elem_of_In|]. by rewrite bool_decide_false. }
  rewrite H in Hin. by apply elem_of_nil in Hin.
Qed.

Lemma unsupported_tier_field_none tiers tier t :
  unsupported_tier_field tiers = None -> tier ∈ tiers -> tier = TTable t -> only_fields tier_edit_allowed t.
Proof.
  induction tiers as [|x tiers IH]; intros H Hin E; [by apply elem_of_nil in Hin|]. cbn [unsupported_tier_field] in H.
  apply elem_of_cons in Hin as [<-|Hin].
  - rewrite E in H. cbn [as_table] in H. destruct (unknown_keys _ _) eqn:Hk; [by apply unknown_keys_nil|done].
  - apply IH; [|done|done]. destruct (as_table x); [|done]. by destruct (unknown_keys _ _).
Qed.

Lemma supported_editable existing root :
  ensure_existing_routing_is_supported from_toml existing = Ok () -> from_toml existing = Ok root -> editable root.
Proof.
  unfold ensure_existing_routing_is_supported, read_toml. intros H Hr top routing -> Hg.
  rewrite Hr in H. unfold mbind, option_bind in H. cbn [map_err result_bind as_table] in H. rewrite Hg in H. cbn [as_table] in H.
  destruct (unknown_keys routing_edit_allowed routing) eqn:Hk; [|done]. split; [by apply unknown_keys_nil|].
  intros tiers tier t Ht. rewrite Ht in H. cbn [as_array] in H.
  destruct (unsupported_tier_field tiers) eqn:Hu; [done|]. by apply unsupported_tier_field_none.
Qed.

(** What a fragment may hold. *)
Definition routing_only (root : TomlValue) : Prop :=
  exists top routing, root = TTable top /\ only_fields [lit "routing"] top /\
  ix_get top (lit "routing") = Some (TTable routing) /\ only_fields routing_edit_allowed routing.

Lemma fragment_shape fragment :
  validate_routing_fragment_shape from_toml fragment = Ok () -> exists root, from_toml fragment = Ok root /\ routing_only root.
Proof.
  unfold validate_routing_fragment_shape, read_toml. intros H.
  destruct (from_toml fragment) as [root|]; [|done]. exists root. split; [done|]. cbn [map_err result_bind] in H.
  destruct root as [| | | | | |top]; try done. cbn [table_of ok_or as_table result_bind] in H.
  destruct (unknown_keys [lit "routing"] top) eqn:Ht; [|done].
  destruct (ix_get top (lit "routing")) as [[| | | | | |routing]|] eqn:Hg; try done.
  unfold mbind, option_bind in H. cbn [ok_or result_bind as_table] in H.
  destruct (unknown_keys routing_edit_allowed routing) eqn:Hk; [|done].
  exists top, routing. split_and!; [done|by apply unknown_keys_nil|done|by apply unknown_keys_nil].
Qed.

(** C30: An edit of the routing section that succeeds keeps the rest of a plain
    document (one in which every line that starts with a bracket is a table
    header with nothing after it, and no text spans several lines): the result
    is the existing preamble and the existing sections outside the routing
    family, unchanged and in order, at most two newlines, and the trimmed
    fragment.  The edit has taken effect: the result parses, to the
    configuration the fragment parses to.  The fragment holds only the editable
    routing fields, and so did the routing table of the existing document. *)
Theorem fragment_applies existing fragment updated :
  plain_document existing = true ->
  apply_supported_routing_fragment from_toml existing fragment = Ok updated ->
  (exists gap, gap ∈ [[]; [10]; [10; 10]] /\ updated = kept_text existing ++ gap ++ trim fragment ++ [10]) /\
  (exists actual desired, routing_config_from_toml from_toml updated UPDATED None StrictInput = Ok actual /\
     routing_config_from_toml from_toml fragment STDIN None StrictInput = Ok desired /\ same_routing actual desired) /\
  (exists root, from_toml fragment = Ok root /\ routing_only root) /\
  (forall root, from_toml existing = Ok root -> editable root).
Proof.
  intros Hplain.
  unfold apply_supported_routing_fragment. intros H.
  apply result_bind_ok in H as ([] & Hshape & H). apply result_bind_ok in H as ([] & Hold & H).
  apply result_bind_ok in H as (desired & Hd & H). apply result_bind_ok in H as (actual & Ha & H).
  destruct (routing_eqb actual desired) eqn:He; [|done]. injection H as <-. split_and!.
  - by apply replace_routing_family_spec.
  - by exists actual, desired.
  - by apply fragment_shape.
  - intros root. by apply supported_editable.
Qed.
End Apply.

(** A closed edit: the comment and the gateway's section stay. *)
Definition sample_existing : str := lit "# router
[routing]
threshold = 0.3

[gateway]
offline = true
".

Definition sample_fragment : str := lit "[routing]
threshold = 0.4
".

Definition sample_updated : str := lit "# router
[gateway]
offline = true

[routing]
threshold = 0.4
".

Definition threshold_table (x : f64) : str * TomlValue := (lit "routing", TTable [(lit "threshold", TFloat x)]).
Definition gateway_table : str * TomlValue := (lit "gateway", TTable [(lit "offline", TBoolean true)]).

Definition sample_toml (text : str) : result TomlValue str :=
  if str_eqb text sample_existing then Ok (TTable [threshold_table (f64_dec 3 1); gateway_table])
  else if str_eqb text sample_fragment then Ok (TTable [threshold_table (f64_dec 4 1)])
  else if str_eqb text sample_updated then Ok (TTable [gateway_table; threshold_table (f64_dec 4 1)])
  else Err (lit "unexpected").

Lemma fragment_applies_witness :
  apply_supported_routing_fragment sample_toml sample_existing sample_fragment = Ok sample_updated /\
  (exists gap, gap ∈ [[]; [10]; [10; 10]] /\ sample_updated = kept_text sample_existing ++ gap ++ trim sample_fragment ++ [10]) /\
  kept_text sample_existing = lit "# router
[gateway]
offline = true
".
Proof.
  assert (apply_supported_routing_fragment sample_toml sample_existing sample_fragment = Ok sample_updated) as H
    by (vm_compute; reflexivity).
  assert (plain_document sample_existing = true) as Hp by (vm_compute; reflexivity).
  split; [exact H|]. split; [|vm_compute; reflexivity].
  exact (proj1 (fragment_applies sample_toml sample_existing sample_fragment sample_updated Hp H)).
Defined.

(** A header followed by a comment is not seen: after the routing section, the
    whole section it opens is dropped, and the edit succeeds. *)
Definition commented_existing : str := lit "[routing]
threshold = 0.3
[gateway] # main
offline = true
".

Definition commented_toml (text : str) : result TomlValue str :=
  if str_eqb text commented_existing then Ok (TTable [threshold_table (f64_dec 3 1); gateway_table])
  else if str_eqb text sample_fragment then Ok (TTable [threshold_table (f64_dec 4 1)])
  else Err (lit "unexpected").

Example commented_section_dropped :
  plain_document commented_existing = false /\
  apply_supported_routing_fragment commented_toml commented_existing sample_fragment = Ok sample_fragment.
Proof. vm_compute. split; reflexivity. Qed.

(** A field the edit could not write back is refused. *)
Example lexicon_edit_refused :
  ensure_existing_routing_is_supported (fun _ => Ok sample_routing_document) [] =
  Err (invalid CONFIG_FILE (Msg "routing config contains unsupported field routing.{field}" [ArgStr (lit "lexicon")])).
Proof. vm_compute. reflexivity. Qed.

(** Two thresholds that differ past the sixth decimal print alike. *)
Example dump_rounds : format_number (f64_dec 1234567 7) = format_number (f64_dec 1234568 7).
Proof. vm_compute. reflexivity. Qed.

Definition plain_quote (s : str) : str := [34] ++ s ++ [34].

Example dump_sample : dump_routing_toml plain_quote (RoutingConfig_binary (f64_dec 3 1)) = lit "[[routing.tiers]]
min_score = 0.0
model = " ++ plain_quote (lit "local") ++ lit "

[[routing.tiers]]
min_score = 0.3
model = " ++ plain_quote (lit "cloud") ++ nl.
Proof. vm_compute. reflexivity. Qed.
