(* ===== verification/Metrics.v ===== *)
(** * Gateway metrics (crate [wayfinder-gateway], [src/metrics.rs])

    Counters, gauges and histograms with a bounded number of label series, and
    their Prometheus text.  The state is returned from each operation; a
    poisoned lock is not modelled. *)
From S2P Require Export RoutingText OrdMap.

Definition DEFAULT_MAX_LABEL_SERIES : Z := 256.
Definition MAX_LABEL_BYTES : Z := 128.
Definition OVERFLOW_LABEL : str := lit "__other__".

Definition DECISION_BUCKETS : list f64 :=
  [f64_dec 1 4; f64_dec 25 5; f64_dec 5 4; f64_dec 1 3; f64_dec 25 4; f64_dec 5 3; f64_dec 1 2; f64_dec 25 3; f64_dec 5 2].
Definition UPSTREAM_BUCKETS : list f64 :=
  [f64_dec 5 2; f64_dec 1 1; f64_dec 25 2; f64_dec 5 1; f64_of_Z 1; f64_dec 25 1; f64_of_Z 5; f64_of_Z 10; f64_of_Z 30; f64_of_Z 60].
Definition TTFT_BUCKETS : list f64 :=
  [f64_dec 1 2; f64_dec 25 3; f64_dec 5 2; f64_dec 1 1; f64_dec 25 2; f64_dec 5 1; f64_of_Z 1; f64_dec 25 1; f64_of_Z 5; f64_of_Z 10].
Definition THROUGHPUT_BUCKETS : list f64 := map f64_of_Z [1; 5; 10; 25; 50; 100; 500; 1000].
Definition CAPACITY_BUCKETS : list f64 := [f64_dec 1 2; f64_dec 1 1; f64_dec 25 2; f64_dec 5 1; f64_dec 75 2; f64_of_Z 1].
Definition QUEUE_WAIT_BUCKETS : list f64 :=
  [f64_dec 1 3; f64_dec 5 3; f64_dec 1 2; f64_dec 5 2; f64_dec 1 1; f64_dec 5 1; f64_of_Z 1; f64_of_Z 2].

Inductive MetricsError := MetricsLockPoisoned | InvalidObservation.

Definition validate_observation (value : f64) : result unit MetricsError :=
  if f64_is_finite value && f64_ge value f64_zero then Ok () else Err InvalidObservation.

Definition saturating_increment (value : Z) : Z := u64_sat_add value 1.

(** ** Histograms *)
Record Histogram := { hg_bounds : list f64; hg_counts : list Z; hg_sum : f64; hg_count : Z }.

Definition Histogram_new (bounds : list f64) : Histogram :=
  {| hg_bounds := bounds; hg_counts := map (fun _ => 0) bounds; hg_sum := f64_zero; hg_count := 0 |}.

Definition observe_value (h : Histogram) (value : f64) : Histogram * result unit MetricsError :=
  match validate_observation value with
  | Err e => (h, Err e)
  | Ok _ =>
      ({| hg_bounds := hg_bounds h;
          hg_counts := zip_with (fun bound n => if f64_le value bound then u64_sat_add n 1 else n) (hg_bounds h) (hg_counts h);
          hg_sum := f64_min (f64_add (hg_sum h) value) f64_max_value;
          hg_count := u64_sat_add (hg_count h) 1 |}, Ok ())
  end.

(** ** The state *)
Record MetricsState := {
  ms_requests : ordmap (str * str) Z;
  ms_upstream_errors : ordmap str Z;
  ms_reload_failures : Z;
  ms_decision : Histogram;
  ms_upstream : ordmap str Histogram;
  ms_deployment_ttft : ordmap str Histogram;
  ms_deployment_throughput : ordmap str Histogram;
  ms_deployment_capacity : ordmap str Histogram;
  ms_deployment_selections : ordmap (str * str * str) Z;
  ms_shadow_events : ordmap (str * str) Z;
  ms_shadow_provider_cost : f64;
  ms_model_costs : ordmap str f64;
  ms_realized_cost : f64;
  ms_baseline_cost : f64;
  ms_cache_hits : Z;
  ms_cache_misses : Z;
  ms_cache_avoided_cost : f64;
  ms_rate_limited : ordmap str Z;
  ms_key_requests : ordmap str Z;
  ms_admission_in_flight : Z;
  ms_admission_peak_in_flight : Z;
  ms_admission_queue_wait : Histogram;
  ms_admission_rejected : ordmap str Z;
  ms_state_degraded : bool;
}.

Definition MetricsState_default : MetricsState :=
  {| ms_requests := []; ms_upstream_errors := []; ms_reload_failures := 0; ms_decision := Histogram_new DECISION_BUCKETS;
     ms_upstream := []; ms_deployment_ttft := []; ms_deployment_throughput := []; ms_deployment_capacity := [];
     ms_deployment_selections := []; ms_shadow_events := []; ms_shadow_provider_cost := f64_zero; ms_model_costs := [];
     ms_realized_cost := f64_zero; ms_baseline_cost := f64_zero; ms_cache_hits := 0; ms_cache_misses := 0;
     ms_cache_avoided_cost := f64_zero; ms_rate_limited := []; ms_key_requests := []; ms_admission_in_flight := 0;
     ms_admission_peak_in_flight := 0; ms_admission_queue_wait := Histogram_new QUEUE_WAIT_BUCKETS;
     ms_admission_rejected := []; ms_state_degraded := false |}.

(** Assignments to one field. *)
Definition set_requests (z : ordmap (str * str) Z) '(Build_MetricsState _ b c d e f g h i j k l m n o p q r s t u v w x) : MetricsState :=
  Build_MetricsState z b c d e f g h i j k l m n o p q r s t u v w x.
Definition set_upstream_errors (z : ordmap str Z) '(Build_MetricsState a _ c d e f g h i j k l m n o p q r s t u v w x) : MetricsState :=
  Build_MetricsState a z c d e f g h i j k l m n o p q r s t u v w x.
Definition set_reload_failures (z : Z) '(Build_MetricsState a b _ d e f g h i j k l m n o p q r s t u v w x) : MetricsState :=
  Build_MetricsState a b z d e f g h i j k l m n o p q r s t u v w x.
Definition set_decision (z : Histogram) '(Build_MetricsState a b c _ e f g h i j k l m n o p q r s t u v w x) : MetricsState :=
  Build_MetricsState a b c z e f g h i j k l m n o p q r s t u v w x.
Definition set_upstream (z : ordmap str Histogram) '(Build_MetricsState a b c d _ f g h i j k l m n o p q r s t u v w x) : MetricsState :=
  Build_MetricsState a b c d z f g h i j k l m n o p q r s t u v w x.
Definition set_deployment_ttft (z : ordmap str Histogram) '(Build_MetricsState a b c d e _ g h i j k l m n o p q r s t u v w x) : MetricsState :=
  Build_MetricsState a b c d e z g h i j k l m n o p q r s t u v w x.
Definition set_deployment_throughput (z : ordmap str Histogram) '(Build_MetricsState a b c d e f _ h i j k l m n o p q r s t u v w x) : MetricsState :=
  Build_MetricsState a b c d e f z h i j k l m n o p q r s t u v w x.
Definition set_deployment_capacity (z : ordmap str Histogram) '(Build_MetricsState a b c d e f g _ i j k l m n o p q r s t u v w x) : MetricsState :=
  Build_MetricsState a b c d e f g z i j k l m n o p q r s t u v w x.
Definition set_deployment_selections (z : ordmap (str * str * str) Z) '(Build_MetricsState a b c d e f g h _ j k l m n o p q r s t u v w x) : MetricsState :=
  Build_MetricsState a b c d e f g h z j k l m n o p q r s t u v w x.
Definition set_shadow_events (z : ordmap (str * str) Z) '(Build_MetricsState a b c d e f g h i _ k l m n o p q r s t u v w x) : MetricsState :=
  Build_MetricsState a b c d e f g h i z k l m n o p q r s t u v w x.
Definition set_shadow_provider_cost (z : f64) '(Build_MetricsState a b c d e f g h i j _ l m n o p q r s t u v w x) : MetricsState :=
  Build_MetricsState a b c d e f g h i j z l m n o p q r s t u v w x.
Definition set_model_costs (z : ordmap str f64) '(Build_MetricsState a b c d e f g h i j k _ m n o p q r s t u v w x) : MetricsState :=
  Build_MetricsState a b c d e f g h i j k z m n o p q r s t u v w x.
Definition set_realized_cost (z : f64) '(Build_MetricsState a b c d e f g h i j k l _ n o p q r s t u v w x) : MetricsState :=
  Build_MetricsState a b c d e f g h i j k l z n o p q r s t u v w x.
Definition set_baseline_cost (z : f64) '(Build_MetricsState a b c d e f g h i j k l m _ o p q r s t u v w x) : MetricsState :=
  Build_MetricsState a b c d e f g h i j k l m z o p q r s t u v w x.
Definition set_cache_hits (z : Z) '(Build_MetricsState a b c d e f g h i j k l m n _ p q r s t u v w x) : MetricsState :=
  Build_MetricsState a b c d e f g h i j k l m n z p q r s t u v w x.
Definition set_cache_misses (z : Z) '(Build_MetricsState a b c d e f g h i j k l m n o _ q r s t u v w x) : MetricsState :=
  Build_MetricsState a b c d e f g h i j k l m n o z q r s t u v w x.
Definition set_cache_avoided_cost (z : f64) '(Build_MetricsState a b c d e f g h i j k l m n o p _ r s t u v w x) : MetricsState :=
  Build_MetricsState a b c d e f g h i j k l m n o p z r s t u v w x.
Definition set_rate_limited (z : ordmap str Z) '(Build_MetricsState a b c d e f g h i j k l m n o p q _ s t u v w x) : MetricsState :=
  Build_MetricsState a b c d e f g h i j k l m n o p q z s t u v w x.
Definition set_key_requests (z : ordmap str Z) '(Build_MetricsState a b c d e f g h i j k l m n o p q r _ t u v w x) : MetricsState :=
  Build_MetricsState a b c d e f g h i j k l m n o p q r z t u v w x.
Definition set_admission_in_flight (z : Z) '(Build_MetricsState a b c d e f g h i j k l m n o p q r s _ u v w x) : MetricsState :=
  Build_MetricsState a b c d e f g h i j k l m n o p q r s z u v w x.
Definition set_admission_peak_in_flight (z : Z) '(Build_MetricsState a b c d e f g h i j k l m n o p q r s t _ v w x) : MetricsState :=
  Build_MetricsState a b c d e f g h i j k l m n o p q r s t z v w x.
Definition set_admission_queue_wait (z : Histogram) '(Build_MetricsState a b c d e f g h i j k l m n o p q r s t u _ w x) : MetricsState :=
  Build_MetricsState a b c d e f g h i j k l m n o p q r s t u z w x.
Definition set_admission_rejected (z : ordmap str Z) '(Build_MetricsState a b c d e f g h i j k l m n o p q r s t u v _ x) : MetricsState :=
  Build_MetricsState a b c d e f g h i j k l m n o p q r s t u v z x.
Definition set_state_degraded (z : bool) '(Build_MetricsState a b c d e f g h i j k l m n o p q r s t u v w _) : MetricsState :=
  Build_MetricsState a b c d e f g h i j k l m n o p q r s t u v w z.

Record GatewayMetrics := { gm_version : str; gm_max_label_series : Z; gm_state : MetricsState }.

Definition set_state (m : GatewayMetrics) (s : MetricsState) : GatewayMetrics :=
  {| gm_version := gm_version m; gm_max_label_series := gm_max_label_series m; gm_state := s |}.

(** ** Labels *)
Definition bounded_label (value : str) : str :=
  if (str_len value <=? MAX_LABEL_BYTES) && forallb (fun c => negb (char_is_control c) || (c =? 10)) value
  then value else OVERFLOW_LABEL.

Definition bounded_map_key {V} (m : ordmap str V) (value : str) (maximum : Z) : str :=
  let value := bounded_label value in
  if km_contains m value || (len m <? maximum) then value else OVERFLOW_LABEL.

Definition bounded_pair_key {V} (m : ordmap (str * str) V) (value : str * str) (maximum : Z) : str * str :=
  if km_contains m value || (len m <? maximum) then value else (OVERFLOW_LABEL, OVERFLOW_LABEL).

Definition bounded_triple_key {V} (m : ordmap (str * str * str) V) (value : str * str * str) (maximum : Z) : str * str * str :=
  if km_contains m value || (len m <? maximum) then value else (OVERFLOW_LABEL, OVERFLOW_LABEL, OVERFLOW_LABEL).

Definition GatewayMetrics_new (version : str) (max_label_series : Z) : GatewayMetrics :=
  {| gm_version := bounded_label version; gm_max_label_series := max_label_series; gm_state := MetricsState_default |}.

(** ** Operations *)
Notation metered := (GatewayMetrics * result unit MetricsError)%type.

(** [validate_observation(value)?; ...]: a refused observation changes nothing. *)
Definition validated (m : GatewayMetrics) (value : f64) (k : metered) : metered :=
  match validate_observation value with Err e => (m, Err e) | Ok _ => k end.

(** The loop of [set_model_costs]: a bad price ends it, the prices before stay. *)
Fixpoint insert_costs (maximum : Z) (retained : ordmap str f64) (costs : btree f64) : ordmap str f64 * result unit MetricsError :=
  match costs with
  | [] => (retained, Ok ())
  | (model, cost) :: costs =>
      match validate_observation cost with
      | Err e => (retained, Err e)
      | Ok _ => if maximum <=? len retained then (retained, Ok ())
                else insert_costs maximum (km_insert retained (bounded_label model) cost) costs
      end
  end.

Definition set_model_costs_of (m : GatewayMetrics) (costs : btree f64) : metered :=
  let '(retained, r) := insert_costs (gm_max_label_series m) [] costs in
  (set_state m (set_model_costs retained (gm_state m)), r).

Definition add_cost (total cost : f64) : f64 := python_round (f64_min (f64_add total cost) f64_max_value) 6.

Definition observe_cost (m : GatewayMetrics) (realized baseline : f64) : metered :=
  validated m realized (validated m baseline (
    let s := gm_state m in
    let s := set_realized_cost (add_cost (ms_realized_cost s) realized) s in
    (set_state m (set_baseline_cost (add_cost (ms_baseline_cost s) baseline) s), Ok ()))).

(** [entry(key).or_default()], incremented. *)
Definition increment {K} `{KeyOrder K} (m : ordmap K Z) (k : K) : ordmap K Z := km_update m k 0 saturating_increment.

Definition observe_decision (m : GatewayMetrics) (model mode : str) (seconds : f64) : metered :=
  validated m seconds (
    let s := gm_state m in
    let key := bounded_pair_key (ms_requests s) (bounded_label model, bounded_label mode) (gm_max_label_series m) in
    let s := set_requests (increment (ms_requests s) key) s in
    let '(h, r) := observe_value (ms_decision s) seconds in
    (set_state m (set_decision h s), r)).

(** [entry(key).or_insert_with(|| Histogram::new(buckets)).observe(value)]. *)
Definition observe_series (buckets : list f64) (h : ordmap str Histogram) (key : str) (value : f64)
    : ordmap str Histogram * result unit MetricsError :=
  let '(updated, r) := observe_value (default (Histogram_new buckets) (km_get h key)) value in
  (km_insert h key updated, r).

Definition observe_upstream (m : GatewayMetrics) (model : str) (seconds : f64) : metered :=
  validated m seconds (
    let s := gm_state m in
    let key := bounded_map_key (ms_upstream s) model (gm_max_label_series m) in
    let '(h, r) := observe_series UPSTREAM_BUCKETS (ms_upstream s) key seconds in
    (set_state m (set_upstream h s), r)).

Definition observe_upstream_error (m : GatewayMetrics) (model : str) : metered :=
  let s := gm_state m in
  let key := bounded_map_key (ms_upstream_errors s) model (gm_max_label_series m) in
  (set_state m (set_upstream_errors (increment (ms_upstream_errors s) key) s), Ok ()).

Definition observe_deployment_ttft (m : GatewayMetrics) (deployment : str) (seconds : f64) : metered :=
  validated m seconds (
    let s := gm_state m in
    let key := bounded_map_key (ms_deployment_ttft s) deployment (gm_max_label_series m) in
    let '(h, r) := observe_series TTFT_BUCKETS (ms_deployment_ttft s) key seconds in
    (set_state m (set_deployment_ttft h s), r)).

Definition observe_deployment_throughput (m : GatewayMetrics) (deployment : str) (chars_per_second : f64) : metered :=
  validated m chars_per_second (
    let s := gm_state m in
    let key := bounded_map_key (ms_deployment_throughput s) deployment (gm_max_label_series m) in
    let '(h, r) := observe_series THROUGHPUT_BUCKETS (ms_deployment_throughput s) key chars_per_second in
    (set_state m (set_deployment_throughput h s), r)).

Definition observe_deployment_capacity (m : GatewayMetrics) (deployment : str) (pressure : f64) : metered :=
  validated m pressure (
    let s := gm_state m in
    let key := bounded_map_key (ms_deployment_capacity s) deployment (gm_max_label_series m) in
    let '(h, r) := observe_series CAPACITY_BUCKETS (ms_deployment_capacity s) key (f64_min pressure f64_one) in
    (set_state m (set_deployment_capacity h s), r)).

Definition observe_deployment_selection (m : GatewayMetrics) (model deployment reason : str) : metered :=
  let s := gm_state m in
  let key := bounded_triple_key (ms_deployment_selections s)
               (bounded_label model, bounded_label deployment, bounded_label reason) (gm_max_label_series m) in
  (set_state m (set_deployment_selections (increment (ms_deployment_selections s) key) s), Ok ()).

Definition observe_shadow_event (m : GatewayMetrics) (event candidate : str) : GatewayMetrics :=
  let s := gm_state m in
  let key := bounded_pair_key (ms_shadow_events s) (bounded_label event, bounded_label candidate) (gm_max_label_series m) in
  set_state m (set_shadow_events (increment (ms_shadow_events s) key) s).

Definition observe_shadow_cost (m : GatewayMetrics) (cost : f64) : GatewayMetrics :=
  if negb (f64_is_finite cost) || f64_lt cost f64_zero then m
  else set_state m (set_shadow_provider_cost (add_cost (ms_shadow_provider_cost (gm_state m)) cost) (gm_state m)).

Definition observe_cache_hit (m : GatewayMetrics) (avoided_cost : f64) : metered :=
  validated m avoided_cost (
    let s := gm_state m in
    let s := set_cache_hits (u64_sat_add (ms_cache_hits s) 1) s in
    (set_state m (set_cache_avoided_cost (add_cost (ms_cache_avoided_cost s) avoided_cost) s), Ok ())).

Definition observe_cache_miss (m : GatewayMetrics) : metered :=
  (set_state m (set_cache_misses (u64_sat_add (ms_cache_misses (gm_state m)) 1) (gm_state m)), Ok ()).

Definition observe_rate_limited (m : GatewayMetrics) (limit : str) : metered :=
  let s := gm_state m in
  let key := bounded_map_key (ms_rate_limited s) limit (gm_max_label_series m) in
  (set_state m (set_rate_limited (increment (ms_rate_limited s) key) s), Ok ()).

Definition observe_key_request (m : GatewayMetrics) (key_id : str) : metered :=
  let s := gm_state m in
  let key := bounded_map_key (ms_key_requests s) key_id (gm_max_label_series m) in
  (set_state m (set_key_requests (increment (ms_key_requests s) key) s), Ok ()).

Definition observe_admission (m : GatewayMetrics) (waited_seconds : f64) : metered :=
  validated m waited_seconds (
    let s := gm_state m in
    let s := set_admission_in_flight (u64_sat_add (ms_admission_in_flight s) 1) s in
    let s := set_admission_peak_in_flight (Z.max (ms_admission_peak_in_flight s) (ms_admission_in_flight s)) s in
    let '(h, r) := observe_value (ms_admission_queue_wait s) waited_seconds in
    (set_state m (set_admission_queue_wait h s), r)).

Definition observe_admission_release (m : GatewayMetrics) : metered :=
  (set_state m (set_admission_in_flight (u64_sat_sub (ms_admission_in_flight (gm_state m)) 1) (gm_state m)), Ok ()).

Definition observe_admission_rejected (m : GatewayMetrics) (reason : str) : metered :=
  let s := gm_state m in
  let key := bounded_map_key (ms_admission_rejected s) reason (gm_max_label_series m) in
  (set_state m (set_admission_rejected (increment (ms_admission_rejected s) key) s), Ok ()).

Definition record_reload_failure (m : GatewayMetrics) : metered :=
  (set_state m (set_reload_failures (u64_sat_add (ms_reload_failures (gm_state m)) 1) (gm_state m)), Ok ()).

Definition set_degraded (m : GatewayMetrics) (degraded : bool) : metered :=
  (set_state m (set_state_degraded degraded (gm_state m)), Ok ()).

(** ** Numbers as text *)

(** [value as i32] of a float: truncated, saturated, NaN is zero. *)
Definition f64_to_i32 (a : f64) : Z :=
  match a with
  | S754_finite s m e => let n := Z_of_finite_floor false m e in Z.max (-2147483648) (Z.min 2147483647 (if s then - n else n))
  | S754_infinity s => if s then -2147483648 else 2147483647
  | _ => 0
  end.

Definition sign_text (negative : bool) (text : str) : str := (if negative then lit "-" else []) ++ text.

(** [format!("{value:.decimals$}")]: the exact value, rounded half to even. *)
Definition fixed_text (x : f64) (decimals : nat) : str :=
  match x with
  | S754_nan => lit "NaN"
  | S754_infinity s => sign_text s (lit "inf")
  | S754_zero s => sign_text s (lit "0" ++ match decimals with O => [] | _ => lit "." ++ digits_ascii decimals 0 end)
  | S754_finite s m e =>
      let '(num, den) := f64_ratio m e in
      let scale := 10 ^ Z.of_nat decimals in
      let n := div_half_even (num * scale) den in
      sign_text s (show_digits (n / scale) ++ match decimals with O => [] | _ => lit "." ++ digits_ascii decimals (n mod scale) end)
  end.

(** [format!("{value:.5e}")]: the text before the [e] and the exponent after
    it, if there is one.  Rounding may carry into a further digit. *)
Definition lower_exp5 (x : f64) : str * option Z :=
  match x with
  | S754_nan => (lit "NaN", None)
  | S754_infinity s => (sign_text s (lit "inf"), None)
  | S754_zero s => (sign_text s (lit "0.00000"), Some 0)
  | S754_finite s m e =>
      let '(num, den) := f64_ratio m e in
      let k := decimal_exponent num den in
      let n := if 5 <? k then div_half_even num (den * 10 ^ (k - 5)) else div_half_even (num * 10 ^ (5 - k)) den in
      let '(n, k) := if n =? 1000000 then (100000, k + 1) else (n, k) in
      (sign_text s (show_digits (n / 100000) ++ lit "." ++ digits_ascii 5 (n mod 100000)), Some k)
  end.

(** [trim_end_matches('0').trim_end_matches('.')]. *)
Definition trim_zeros (s : str) : str := trim_end_char 46 (trim_end_char 48 s).

(** [format!("{:02}", n)] for [n >= 0]. *)
Definition two_digits (n : Z) : str := if n <? 10 then 48 :: show_digits n else show_digits n.

Section Text.
(** The platform's [f64::log10]. *)
Context (log10 : f64 -> f64).

Definition python_general (value : f64) : str :=
  if f64_eq value f64_zero then (if f64_is_sign_negative value then lit "-0" else lit "0")
  else
    let exponent := f64_to_i32 (f64_floor (log10 (f64_abs value))) in
    if negb ((-4 <=? exponent) && (exponent <? 6)) then
      let '(mantissa, raw_exponent) := lower_exp5 value in
      let exponent_value := default 0 raw_exponent in
      trim_zeros mantissa ++ lit "e" ++ (if exponent_value <? 0 then lit "-" else lit "+") ++ two_digits (Z.abs exponent_value)
    else
      let rendered := fixed_text value (Z.to_nat (5 - exponent)) in
      if str_contains_char rendered 46 then trim_zeros rendered else rendered.

(** ** The exposition *)
Definition replace_char (c : Z) (replacement s : str) : str := flat_map (fun x => if x =? c then replacement else [x]) s.

Definition label_escape (value : str) : str :=
  replace_char 34 [92; 34] (replace_char 10 [92; 110] (replace_char 92 [92; 92] value)).

(** [name="value"]. *)
Definition raw_label (name : string) (value : str) : str := lit name ++ lit "=" ++ [34] ++ value ++ [34].
Definition label (name : string) (value : str) : str := raw_label name (label_escape value).

Definition braced (labels : list str) : str := lit "{" ++ str_join (lit ",") labels ++ lit "}".

(** A line of the text, without its newline. *)
Definition help (name text : string) : str := lit "# HELP " ++ lit name ++ lit " " ++ lit text.
Definition type (name kind : string) : str := lit "# TYPE " ++ lit name ++ lit " " ++ lit kind.
Definition sample (name : string) (labels : list str) (value : str) : str :=
  lit name ++ (match labels with [] => [] | _ => braced labels end) ++ lit " " ++ value.

(** [format!("{name}_bucket")] and the like. *)
Definition suffixed (name suffix : string) : string := String.append name suffix.

Definition render_histogram (name : string) (h : Histogram) (label_pairs : list str) : list str :=
  map (fun '(bound, n) =>
         sample (suffixed name "_bucket") (label_pairs ++ [raw_label "le" (python_general bound)]) (show_digits n))
      (zip (hg_bounds h) (hg_counts h))
  ++ [sample (suffixed name "_bucket") (label_pairs ++ [raw_label "le" (lit "+Inf")]) (show_digits (hg_count h));
      sample (suffixed name "_sum") label_pairs (python_general (hg_sum h));
      sample (suffixed name "_count") label_pairs (show_digits (hg_count h))].

(** The sections of [render_state], in order; each is a list of lines. *)
Definition family {V} (m : list V) (lines : list str) : list str := match m with [] => [] | _ => lines end.

Definition build_info (version : str) : list str :=
  [help "wayfinder_router_build_info" "Build information."; type "wayfinder_router_build_info" "gauge";
   sample "wayfinder_router_build_info" [label "version" version] (lit "1")].

Definition request_lines (s : MetricsState) : list str :=
  [help "wayfinder_router_requests_total" "Routed requests by model and mode."; type "wayfinder_router_requests_total" "counter"]
  ++ map (fun '((model, mode), n) =>
            sample "wayfinder_router_requests_total" [label "model" model; label "mode" mode] (show_digits n)) (ms_requests s).

Definition upstream_error_lines (s : MetricsState) : list str :=
  [help "wayfinder_router_upstream_errors_total" "Upstream transport failures by model.";
   type "wayfinder_router_upstream_errors_total" "counter"]
  ++ map (fun '(model, n) => sample "wayfinder_router_upstream_errors_total" [label "model" model] (show_digits n))
         (ms_upstream_errors s).

Definition cache_lines (s : MetricsState) : list str :=
  [help "wayfinder_router_cache_hits_total" "Exact-match response cache hits (WF-ADR-0033).";
   type "wayfinder_router_cache_hits_total" "counter";
   sample "wayfinder_router_cache_hits_total" [] (show_digits (ms_cache_hits s));
   help "wayfinder_router_cache_misses_total" "Cacheable requests that missed the cache.";
   type "wayfinder_router_cache_misses_total" "counter";
   sample "wayfinder_router_cache_misses_total" [] (show_digits (ms_cache_misses s));
   help "wayfinder_router_cache_avoided_cost_total" "Upstream cost avoided by cache hits (chosen-tier cost; distinct from routing savings vs always-frontier).";
   type "wayfinder_router_cache_avoided_cost_total" "counter";
   sample "wayfinder_router_cache_avoided_cost_total" [] (python_general (ms_cache_avoided_cost s))].

Definition limit_lines (s : MetricsState) : list str :=
  [help "wayfinder_router_rate_limited_total" "Requests rejected with 429 by limit (WF-ADR-0034).";
   type "wayfinder_router_rate_limited_total" "counter"]
  ++ map (fun '(limit, n) => sample "wayfinder_router_rate_limited_total" [label "limit" limit] (show_digits n)) (ms_rate_limited s)
  ++ family (ms_key_requests s)
       ([help "wayfinder_router_key_requests_total" "Requests by virtual-key id (WF-ADR-0035).";
         type "wayfinder_router_key_requests_total" "counter"]
        ++ map (fun '(key, n) => sample "wayfinder_router_key_requests_total" [label "key" key] (show_digits n)) (ms_key_requests s)).

Definition admission_lines (s : MetricsState) : list str :=
  [help "wayfinder_router_in_flight_deliveries" "Current admitted upstream deliveries.";
   type "wayfinder_router_in_flight_deliveries" "gauge";
   sample "wayfinder_router_in_flight_deliveries" [] (show_digits (ms_admission_in_flight s));
   help "wayfinder_router_peak_in_flight_deliveries" "Highest simultaneous admitted deliveries since process start.";
   type "wayfinder_router_peak_in_flight_deliveries" "gauge";
   sample "wayfinder_router_peak_in_flight_deliveries" [] (show_digits (ms_admission_peak_in_flight s));
   help "wayfinder_router_admission_queue_wait_seconds" "Time admitted deliveries waited for capacity.";
   type "wayfinder_router_admission_queue_wait_seconds" "histogram"]
  ++ render_histogram "wayfinder_router_admission_queue_wait_seconds" (ms_admission_queue_wait s) []
  ++ [help "wayfinder_router_admission_rejected_total" "Requests rejected by bounded delivery admission.";
      type "wayfinder_router_admission_rejected_total" "counter"]
  ++ map (fun '(reason, n) => sample "wayfinder_router_admission_rejected_total" [label "reason" reason] (show_digits n))
         (ms_admission_rejected s).

Definition gauge_lines (s : MetricsState) : list str :=
  [help "wayfinder_router_config_reload_failures_total" "Config reloads that failed and kept the last-good config.";
   type "wayfinder_router_config_reload_failures_total" "counter";
   sample "wayfinder_router_config_reload_failures_total" [] (show_digits (ms_reload_failures s));
   help "wayfinder_state_degraded" "Shared-state backend unavailable; process-local fallback is active.";
   type "wayfinder_state_degraded" "gauge";
   sample "wayfinder_state_degraded" [] (if ms_state_degraded s then lit "1" else lit "0")]
  ++ family (ms_model_costs s)
       ([help "wayfinder_router_model_cost_per_1k" "Configured per-1k-token cost by model (informational, WF-ADR-0017).";
         type "wayfinder_router_model_cost_per_1k" "gauge"]
        ++ map (fun '(model, cost) => sample "wayfinder_router_model_cost_per_1k" [label "model" model] (python_general cost))
               (ms_model_costs s)).

Definition cost_lines (s : MetricsState) : list str :=
  let savings := python_round (f64_sub (ms_baseline_cost s) (ms_realized_cost s)) 6 in
  [help "wayfinder_router_realized_cost_total" "Cumulative realized spend on the chosen tier (USD, or relative units when no cost_per_1k is configured; WF-DESIGN-0007).";
   type "wayfinder_router_realized_cost_total" "counter";
   sample "wayfinder_router_realized_cost_total" [] (python_general (ms_realized_cost s));
   help "wayfinder_router_baseline_cost_total" "Cumulative cost had every request gone to the dearest tier (the always-frontier counterfactual).";
   type "wayfinder_router_baseline_cost_total" "counter";
   sample "wayfinder_router_baseline_cost_total" [] (python_general (ms_baseline_cost s));
   help "wayfinder_router_savings_cost_total" "Cumulative savings vs always-frontier (baseline minus realized).";
   type "wayfinder_router_savings_cost_total" "counter";
   sample "wayfinder_router_savings_cost_total" [] (python_general savings)].

Definition latency_lines (s : MetricsState) : list str :=
  [help "wayfinder_router_decision_latency_seconds" "Time to score a prompt and pick a model (no model call).";
   type "wayfinder_router_decision_latency_seconds" "histogram"]
  ++ render_histogram "wayfinder_router_decision_latency_seconds" (ms_decision s) []
  ++ [help "wayfinder_router_upstream_latency_seconds" "Upstream model round-trip time by model.";
      type "wayfinder_router_upstream_latency_seconds" "histogram"]
  ++ flat_map (fun '(model, h) => render_histogram "wayfinder_router_upstream_latency_seconds" h [label "model" model]) (ms_upstream s).

Definition selection_lines (s : MetricsState) : list str :=
  family (ms_deployment_selections s)
    ([help "wayfinder_router_deployment_selection_total" "Interchangeable deployment selections by bounded strategy reason (WF-ADR-0062).";
      type "wayfinder_router_deployment_selection_total" "counter"]
     ++ map (fun '((model, deployment, reason), n) =>
               sample "wayfinder_router_deployment_selection_total"
                 [label "model" model; label "deployment" deployment; label "reason" reason] (show_digits n))
            (ms_deployment_selections s)).

Definition shadow_lines (s : MetricsState) : list str :=
  family (ms_shadow_events s)
    ([help "wayfinder_router_shadow_events_total" "Bounded prompt-free shadow-routing events (WF-ADR-0063).";
      type "wayfinder_router_shadow_events_total" "counter"]
     ++ map (fun '((event, candidate), n) =>
               sample "wayfinder_router_shadow_events_total" [label "event" event; label "candidate" candidate] (show_digits n))
            (ms_shadow_events s))
  ++ (if f64_gt (ms_shadow_provider_cost s) f64_zero then
        [help "wayfinder_router_shadow_provider_cost_total" "Estimated cost of explicitly authorized provider comparisons (WF-ADR-0063).";
         type "wayfinder_router_shadow_provider_cost_total" "counter";
         sample "wayfinder_router_shadow_provider_cost_total" [] (python_general (ms_shadow_provider_cost s))]
      else []).

(** One histogram per deployment. *)
Definition deployment_lines (name text : string) (series : ordmap str Histogram) : list str :=
  family series
    ([help name text; type name "histogram"]
     ++ flat_map (fun '(deployment, h) => render_histogram name h [label "deployment" deployment]) series).

Definition render_lines (version : str) (s : MetricsState) : list str :=
  build_info version ++ request_lines s ++ upstream_error_lines s ++ cache_lines s ++ limit_lines s ++ admission_lines s
  ++ gauge_lines s ++ cost_lines s ++ latency_lines s ++ selection_lines s ++ shadow_lines s
  ++ deployment_lines "wayfinder_router_deployment_time_to_first_token_seconds"
       "Deployment time to first token by concrete target." (ms_deployment_ttft s)
  ++ deployment_lines "wayfinder_router_deployment_throughput_chars_per_second"
       "Completion throughput by concrete target." (ms_deployment_throughput s)
  ++ deployment_lines "wayfinder_router_deployment_capacity_pressure"
       "Provider-reported capacity pressure by concrete target." (ms_deployment_capacity s).

Definition render_state (version : str) (s : MetricsState) : str := flat_map (fun line => line ++ [10]) (render_lines version s).

Definition render (m : GatewayMetrics) : str := render_state (gm_version m) (gm_state m).
End Text.

(** ** Invariants *)

(** A label as the collector keeps it. *)
Definition label_ok (l : str) : Prop :=
  str_len l <= MAX_LABEL_BYTES /\ Forall (fun c => char_is_control c = false \/ c = 10) l.

Lemma overflow_label_ok : label_ok OVERFLOW_LABEL.
Proof. split; [vm_compute; done|]. repeat (constructor; [by left|]). constructor. Qed.

Lemma bounded_label_ok value : label_ok (bounded_label value).
Proof.
  unfold bounded_label. destruct (_ && _) eqn:E; [|apply overflow_label_ok].
  apply andb_true_iff in E as [Hl%Z.leb_le Hc]. split; [done|]. rewrite forallb_forall in Hc. apply Forall_forall. intros c Hin.
  apply list_elem_of_In, Hc, orb_true_iff in Hin as [Hn|Hn]; [left; by destruct (char_is_control c)|right; lia].
Qed.

(** A family of at most [maximum] series, and the overflow series. *)
Record family_ok {K V} `{KeyOrder K} (valid : K -> Prop) (overflow : K) (maximum : Z) (m : ordmap K V) : Prop := {
  fo_sorted : km_sorted m;
  fo_valid : Forall (fun e => valid (fst e)) m;
  fo_length : len m <= maximum \/ (len m <= maximum + 1 /\ km_contains m overflow = true);
}.

Lemma family_bound {K V} `{KeyOrder K} valid overflow maximum (m : ordmap K V) : family_ok valid overflow maximum m -> len m <= maximum + 1.
Proof. intros [_ _ [?|[? _]]]; lia. Qed.

Lemma contains_insert {K V} `{KeyOrder K} (m : ordmap K V) k v k' : km_contains m k' = true -> km_contains (km_insert m k v) k' = true.
Proof.
  unfold km_contains. destruct (key_cmp k k') eqn:E.
  - apply key_cmp_eq in E as ->. by rewrite km_get_insert_eq.
  - rewrite km_get_insert_ne; [done|]. intros ->. by rewrite key_cmp_refl in E.
  - rewrite km_get_insert_ne; [done|]. intros ->. by rewrite key_cmp_refl in E.
Qed.

Lemma family_insert {K V} `{KeyOrder K} valid overflow maximum (m : ordmap K V) k v :
  valid k -> valid overflow -> 0 <= maximum -> family_ok valid overflow maximum m ->
  family_ok valid overflow maximum (km_insert m (if km_contains m k || (len m <? maximum) then k else overflow) v).
Proof.
  intros Hk Ho Hm [Hs Hv Hl]. constructor; [by apply km_insert_sorted|apply km_insert_Forall; [by destruct (_ || _)|done]|].
  unfold len in *. rewrite km_insert_length by done. destruct (km_contains m k) eqn:Ek; cbn [orb].
  - rewrite Ek. destruct Hl as [?|[? ?]]; [left; lia|right; split; [lia|by apply contains_insert]].
  - destruct (Z.ltb_spec (Z.of_nat (length m)) maximum); [rewrite Ek; left; lia|]. right.
    destruct (km_contains m overflow) eqn:Eo; (split; [destruct Hl as [?|[? ?]]; (lia || congruence)|]);
      unfold km_contains; by rewrite km_get_insert_eq.
Qed.

Lemma family_new {K V} `{KeyOrder K} valid overflow maximum : 0 <= maximum -> family_ok (V := V) valid overflow maximum [].
Proof. intros. constructor; [constructor|constructor|left; unfold len; cbn [length]; lia]. Qed.

(** A histogram over its buckets: one counter per bound, none above the count. *)
Record hist_ok (buckets : list f64) (h : Histogram) : Prop := {
  ho_bounds : hg_bounds h = buckets;
  ho_length : length (hg_counts h) = length buckets;
  ho_counts : Forall (fun n => 0 <= n <= hg_count h) (hg_counts h);
  ho_count : 0 <= hg_count h <= u64_max;
}.

Lemma hist_new_ok buckets : hist_ok buckets (Histogram_new buckets).
Proof.
  constructor; cbn; [done|apply length_map| |unfold u64_max; lia].
  apply Forall_map, Forall_forall. intros ? _. lia.
Qed.

Lemma hist_observe_ok buckets h value : hist_ok buckets h -> hist_ok buckets (observe_value h value).1.
Proof.
  intros [Hb Hl Hc Hn]. unfold observe_value. destruct (validate_observation value); [|by constructor]. cbn [fst].
  constructor; cbn [hg_bounds hg_counts hg_count]; [done|rewrite length_zip_with, Hb; lia| |unfold u64_sat_add, u64_max in *; lia].
  apply Forall_zip_with_snd with (P := fun n => 0 <= n <= hg_count h); [|done]. apply Forall_forall. intros b _ n Hn'.
  unfold u64_sat_add, u64_max in *. destruct (f64_le value b); lia.
Qed.

Definition pair_ok (p : str * str) : Prop := label_ok (fst p) /\ label_ok (snd p).
Definition triple_ok (p : str * str * str) : Prop := pair_ok (fst p) /\ label_ok (snd p).

Notation strings_ok := (family_ok label_ok OVERFLOW_LABEL).
Notation pairs_ok := (family_ok pair_ok (OVERFLOW_LABEL, OVERFLOW_LABEL)).
Notation triples_ok := (family_ok triple_ok (OVERFLOW_LABEL, OVERFLOW_LABEL, OVERFLOW_LABEL)).

Definition series_ok (buckets : list f64) (maximum : Z) (m : ordmap str Histogram) : Prop :=
  strings_ok maximum m /\ Forall (fun e => hist_ok buckets (snd e)) m.

Record metrics_ok (maximum : Z) (s : MetricsState) : Prop := {
  mo_requests : pairs_ok maximum (ms_requests s);
  mo_upstream_errors : strings_ok maximum (ms_upstream_errors s);
  mo_decision : hist_ok DECISION_BUCKETS (ms_decision s);
  mo_upstream : series_ok UPSTREAM_BUCKETS maximum (ms_upstream s);
  mo_ttft : series_ok TTFT_BUCKETS maximum (ms_deployment_ttft s);
  mo_throughput : series_ok THROUGHPUT_BUCKETS maximum (ms_deployment_throughput s);
  mo_capacity : series_ok CAPACITY_BUCKETS maximum (ms_deployment_capacity s);
  mo_selections : triples_ok maximum (ms_deployment_selections s);
  mo_shadow_events : pairs_ok maximum (ms_shadow_events s);
  mo_model_costs : len (ms_model_costs s) <= maximum;
  mo_rate_limited : strings_ok maximum (ms_rate_limited s);
  mo_key_requests : strings_ok maximum (ms_key_requests s);
  mo_queue_wait : hist_ok QUEUE_WAIT_BUCKETS (ms_admission_queue_wait s);
  mo_rejected : strings_ok maximum (ms_admission_rejected s);
  mo_gauges : 0 <= ms_admission_in_flight s <= ms_admission_peak_in_flight s;
}.

Lemma pair_label_ok a b : pair_ok (bounded_label a, bounded_label b).
Proof. split; apply bounded_label_ok. Qed.

Lemma increment_pair maximum (m : ordmap (str * str) Z) a b : 0 <= maximum -> pairs_ok maximum m ->
  pairs_ok maximum (increment m (bounded_pair_key m (bounded_label a, bounded_label b) maximum)).
Proof. intros. apply family_insert; [apply pair_label_ok|split; apply overflow_label_ok|done..]. Qed.

Lemma increment_string maximum (m : ordmap str Z) a : 0 <= maximum -> strings_ok maximum m ->
  strings_ok maximum (increment m (bounded_map_key m a maximum)).
Proof. intros. apply family_insert; [apply bounded_label_ok|apply overflow_label_ok|done..]. Qed.

Lemma increment_triple maximum (m : ordmap (str * str * str) Z) a b c : 0 <= maximum -> triples_ok maximum m ->
  triples_ok maximum (increment m (bounded_triple_key m (bounded_label a, bounded_label b, bounded_label c) maximum)).
Proof.
  intros. apply family_insert; [split; [apply pair_label_ok|apply bounded_label_ok]| |done..].
  repeat split; apply overflow_label_ok.
Qed.

Lemma series_observe buckets maximum m value x : 0 <= maximum -> series_ok buckets maximum m ->
  series_ok buckets maximum (observe_series buckets m (bounded_map_key m value maximum) x).1.
Proof.
  intros Hm [Hf Hh]. unfold observe_series. set (key := bounded_map_key m value maximum).
  assert (hist_ok buckets (default (Histogram_new buckets) (km_get m key))) as Hk.
  { destruct (km_get m key) eqn:E; [|apply hist_new_ok]. apply km_get_elem in E. rewrite Forall_forall in Hh. by apply (Hh _ E). }
  apply (hist_observe_ok _ _ x) in Hk. destruct (observe_value _ x) as [h r]. cbn [fst] in *. split; [|by apply km_insert_Forall].
  apply family_insert; [apply bounded_label_ok|apply overflow_label_ok|done..].
Qed.

Lemma insert_costs_bound maximum retained costs : len retained <= maximum -> km_sorted retained ->
  len (insert_costs maximum retained costs).1 <= maximum.
Proof.
  revert retained. induction costs as [|[model cost] costs IH]; intros retained Hl Hs; [done|]. cbn [insert_costs].
  destruct (validate_observation cost); [|done]. destruct (Z.leb_spec maximum (len retained)); [done|].
  apply IH; [|by apply km_insert_sorted]. unfold len in *. rewrite km_insert_length by done. destruct (km_contains _ _); lia.
Qed.

(** ** Histories *)
Inductive MetricOp :=
| SetModelCosts (costs : btree f64)
| ObserveCost (realized baseline : f64)
| ObserveDecision (model mode : str) (seconds : f64)
| ObserveUpstream (model : str) (seconds : f64)
| ObserveUpstreamError (model : str)
| ObserveTtft (deployment : str) (seconds : f64)
| ObserveThroughput (deployment : str) (rate : f64)
| ObserveCapacity (deployment : str) (pressure : f64)
| ObserveSelection (model deployment reason : str)
| ObserveShadowEvent (event candidate : str)
| ObserveShadowCost (cost : f64)
| ObserveCacheHit (avoided : f64)
| ObserveCacheMiss
| ObserveRateLimited (limit : str)
| ObserveKeyRequest (key_id : str)
| ObserveAdmission (waited : f64)
| ObserveAdmissionRelease
| ObserveAdmissionRejected (reason : str)
| RecordReloadFailure
| SetStateDegraded (degraded : bool).

Definition metric_step (m : GatewayMetrics) (op : MetricOp) : GatewayMetrics :=
  match op with
  | SetModelCosts costs => (set_model_costs_of m costs).1
  | ObserveCost realized baseline => (observe_cost m realized baseline).1
  | ObserveDecision model mode seconds => (observe_decision m model mode seconds).1
  | ObserveUpstream model seconds => (observe_upstream m model seconds).1
  | ObserveUpstreamError model => (observe_upstream_error m model).1
  | ObserveTtft deployment seconds => (observe_deployment_ttft m deployment seconds).1
  | ObserveThroughput deployment rate => (observe_deployment_throughput m deployment rate).1
  | ObserveCapacity deployment pressure => (observe_deployment_capacity m deployment pressure).1
  | ObserveSelection model deployment reason => (observe_deployment_selection m model deployment reason).1
  | ObserveShadowEvent event candidate => observe_shadow_event m event candidate
  | ObserveShadowCost cost => observe_shadow_cost m cost
  | ObserveCacheHit avoided => (observe_cache_hit m avoided).1
  | ObserveCacheMiss => (observe_cache_miss m).1
  | ObserveRateLimited limit => (observe_rate_limited m limit).1
  | ObserveKeyRequest key_id => (observe_key_request m key_id).1
  | ObserveAdmission waited => (observe_admission m waited).1
  | ObserveAdmissionRelease => (observe_admission_release m).1
  | ObserveAdmissionRejected reason => (observe_admission_rejected m reason).1
  | RecordReloadFailure => (record_reload_failure m).1
  | SetStateDegraded degraded => (set_degraded m degraded).1
  end.

Definition meters_ok (m : GatewayMetrics) : Prop :=
  0 <= gm_max_label_series m /\ label_ok (gm_version m) /\ metrics_ok (gm_max_label_series m) (gm_state m).

Lemma metrics_new_ok maximum : 0 <= maximum -> metrics_ok maximum MetricsState_default.
Proof.
  intros Hm. constructor; try (by apply family_new); try apply hist_new_ok; try (split; [by apply family_new|constructor]);
    cbn; unfold len; cbn [length]; lia.
Qed.

Lemma validated_ok m value k : meters_ok m -> (validate_observation value = Ok () -> meters_ok k.1) -> meters_ok (validated m value k).1.
Proof. intros Hm Hk. unfold validated. destruct (validate_observation value) as [[]|e]; [by apply Hk|done]. Qed.

Lemma set_state_ok m s : meters_ok m -> metrics_ok (gm_max_label_series m) s -> meters_ok (set_state m s).
Proof. intros (? & ? & _) Hs. split; [done|split; done]. Qed.

(** An operation replaces some fields: the others keep their invariant. *)
Ltac keeps_metrics :=
  cbn [fst]; apply set_state_ok; [done|];
  match goal with
  | H : metrics_ok _ ?s |- _ => destruct H; destruct s; constructor; try assumption
  end.

(** A histogram of a family takes a value. *)
Ltac observes_series :=
  cbv zeta;
  match goal with
  | |- context [observe_series ?b ?m (bounded_map_key ?m ?v ?n) ?x] =>
      let Ho := fresh in
      assert (series_ok b n (observe_series b m (bounded_map_key m v n) x).1) as Ho
        by (apply series_observe; [done|by match goal with H : metrics_ok _ _ |- _ => destruct H end]);
      destruct (observe_series b m (bounded_map_key m v n) x) as [? ?]; keeps_metrics
  end.

Lemma decision_ok m model mode seconds : meters_ok m -> meters_ok (observe_decision m model mode seconds).1.
Proof.
  intros Hm. apply validated_ok; [done|]. intros _. pose proof Hm as (H0 & Hv & Hs). cbv zeta.
  pose proof (hist_observe_ok _ _ seconds (mo_decision _ _ Hs)) as Hh. pose proof (increment_pair _ _ model mode H0 (mo_requests _ _ Hs)) as Hi.
  replace (ms_decision (set_requests _ _)) with (ms_decision (gm_state m)) by (by destruct (gm_state m)).
  destruct (observe_value _ seconds) as [h r]. cbn [fst] in *. keeps_metrics.
Qed.

Lemma admission_ok m waited : meters_ok m -> meters_ok (observe_admission m waited).1.
Proof.
  intros Hm. apply validated_ok; [done|]. intros _. pose proof Hm as (H0 & Hv & Hs). cbv zeta.
  pose proof (hist_observe_ok _ _ waited (mo_queue_wait _ _ Hs)) as Hh. pose proof (mo_gauges _ _ Hs) as Hg.
  destruct (gm_state m) as [] eqn:Em. cbn in Hh, Hg |- *. destruct (observe_value _ waited) as [h r]. cbn [fst] in *.
  apply set_state_ok; [done|]. destruct Hs. constructor; try assumption. cbn. unfold u64_sat_add, u64_max. lia.
Qed.

Lemma metric_step_ok m op : meters_ok m -> meters_ok (metric_step m op).
Proof.
  intros Hm. pose proof Hm as (H0 & Hv & Hs).
  destruct op; cbn [metric_step]; try (by apply decision_ok); try (by apply admission_ok);
    try (apply validated_ok; [done|]; intros _); try observes_series.
  - unfold set_model_costs_of. pose proof (insert_costs_bound _ [] (costs) H0 km_sorted_nil) as Hc.
    destruct (insert_costs _ [] costs) as [retained r]. keeps_metrics.
  - apply validated_ok; [done|]. intros _. cbv zeta. keeps_metrics.
  - unfold observe_upstream_error. keeps_metrics. by apply increment_string.
  - unfold observe_deployment_selection. keeps_metrics. by apply increment_triple.
  - unfold observe_shadow_event. keeps_metrics. by apply increment_pair.
  - unfold observe_shadow_cost. destruct (_ || _); [done|]. keeps_metrics.
  - cbv zeta. keeps_metrics.
  - unfold observe_cache_miss. keeps_metrics.
  - unfold observe_rate_limited. keeps_metrics. by apply increment_string.
  - unfold observe_key_request. keeps_metrics. by apply increment_string.
  - unfold observe_admission_release. keeps_metrics. cbn in *. unfold u64_sat_sub. lia.
  - unfold observe_admission_rejected. keeps_metrics. by apply increment_string.
  - unfold record_reload_failure. keeps_metrics.
  - unfold set_degraded. keeps_metrics.
Qed.

Lemma metrics_run_ok version maximum ops : 0 <= maximum -> meters_ok (foldl metric_step (GatewayMetrics_new version maximum) ops).
Proof.
  intros Hm. assert (meters_ok (GatewayMetrics_new version maximum)) as Hi.
  { split; [done|]. split; [apply bounded_label_ok|by apply metrics_new_ok]. }
  revert Hi. generalize (GatewayMetrics_new version maximum). induction ops as [|op ops IH]; intros m Hi; [done|].
  by apply IH, metric_step_ok.
Qed.

(** ** What a histogram counts *)
Definition accepted_value (value : f64) : bool := is_ok (validate_observation value).

Definition observe_all (h : Histogram) (values : list f64) : Histogram := foldl (fun h value => (observe_value h value).1) h values.

(** How many of the values satisfy [p], at the width of the counters. *)
Definition tally (p : f64 -> bool) (values : list f64) : Z := Z.min (len (List.filter p values)) u64_max.

Lemma tally_snoc p values value : tally p (values ++ [value]) = if p value then u64_sat_add (tally p values) 1 else tally p values.
Proof.
  unfold tally, u64_sat_add, len, u64_max. rewrite List.filter_app, length_app. cbn [List.filter].
  destruct (p value); cbn [length]; lia.
Qed.

Lemma tally_false p values : (forall v, v ∈ values -> p v = false) -> tally p values = 0.
Proof.
  intros Hp. unfold tally. replace (List.filter p values) with (@nil f64); [done|].
  induction values as [|v values IH]; [done|]. cbn [List.filter]. rewrite Hp by apply elem_of_cons, or_introl, eq_refl.
  apply IH. intros w Hw. by apply Hp, elem_of_cons, or_intror.
Qed.

Lemma observe_all_snoc h values value : observe_all h (values ++ [value]) = (observe_value (observe_all h values) value).1.
Proof. unfold observe_all. by rewrite foldl_app. Qed.

Lemma zip_with_map_r {A B} (f : A -> B -> B) (g : A -> B) (l : list A) : zip_with f l (map g l) = map (fun a => f a (g a)) l.
Proof. induction l as [|a l IH]; cbn [map zip_with]; [done|]. by rewrite IH. Qed.

Lemma observe_all_counts buckets values :
  let h := observe_all (Histogram_new buckets) values in
  hg_bounds h = buckets /\
  hg_counts h = map (fun bound => tally (fun v => accepted_value v && f64_le v bound) values) buckets /\
  hg_count h = tally accepted_value values.
Proof.
  induction values as [|value values IH] using rev_ind; cbv zeta in *.
  { split_and!; [done| |done]. apply list_eq_Forall2, Forall2_fmap, Forall_Forall2_diag, Forall_forall. done. }
  rewrite observe_all_snoc. destruct IH as (Hb & Hc & Hn). set (h := observe_all _ values) in *.
  rewrite tally_snoc. unfold observe_value. destruct (validate_observation value) as [u|e] eqn:E;
    (assert (accepted_value value = is_ok (validate_observation value)) as Ha by done; rewrite E in Ha; cbn [is_ok] in Ha; rewrite Ha);
    cbn [fst hg_bounds hg_counts hg_count]; (split_and!; [done| |by rewrite Hn]); rewrite ?Hb, Hc, ?zip_with_map_r;
    apply map_ext; intros bound; by rewrite tally_snoc, Ha.
Qed.

(** ** The text read back *)

(** A character that needs no escape in a label. *)
Definition plain_char (c : Z) : bool := negb (existsb (Z.eqb c) [10; 34; 92]).
Definition plain (s : str) : Prop := Forall (fun c => plain_char c = true) s.

(** The value of a label: escapes are undone up to the closing quote. *)
Fixpoint read_escaped (s : str) : option (str * str) :=
  match s with
  | [] => None
  | c :: s =>
      if c =? 34 then Some ([], s)
      else if c =? 92 then
        match s with
        | [] => None
        | e :: s => '(v, rest) ← read_escaped s; Some ((if e =? 110 then 10 else e) :: v, rest)
        end
      else '(v, rest) ← read_escaped s; Some (c :: v, rest)
  end.

Definition escape_one (c : Z) : str := if c =? 92 then [92; 92] else if c =? 10 then [92; 110] else if c =? 34 then [92; 34] else [c].

Lemma label_escape_flat value : label_escape value = flat_map escape_one value.
Proof.
  unfold label_escape, replace_char. induction value as [|c value IH]; [done|]. cbn [flat_map].
  rewrite !flat_map_app, IH. f_equal. unfold escape_one.
  destruct (Z.eqb_spec c 92) as [->|H1]; [done|]. cbn [flat_map app].
  destruct (Z.eqb_spec c 10) as [->|H2]; [done|]. cbn [flat_map app]. by destruct (Z.eqb_spec c 34) as [->|H3].
Qed.

Lemma read_escape_one c s : read_escaped (escape_one c ++ s) = '(v, rest) ← read_escaped s; Some (c :: v, rest).
Proof.
  unfold escape_one. destruct (Z.eqb_spec c 92) as [->|H1]; [done|]. destruct (Z.eqb_spec c 10) as [->|H2]; [done|].
  destruct (Z.eqb_spec c 34) as [->|H3]; [done|]. cbn [app read_escaped].
  by rewrite (proj2 (Z.eqb_neq c 34) H3), (proj2 (Z.eqb_neq c 92) H1).
Qed.

Lemma read_escape value rest : read_escaped (label_escape value ++ 34 :: rest) = Some (value, rest).
Proof.
  rewrite label_escape_flat. induction value as [|c value IH]; [done|]. cbn [flat_map].
  by rewrite <- (assoc_L (++)), read_escape_one, IH.
Qed.

Lemma plain_char_iff c : plain_char c = true <-> c <> 10 /\ c <> 34 /\ c <> 92.
Proof. unfold plain_char. cbn [existsb]. rewrite negb_true_iff, !orb_false_iff, !Z.eqb_neq. tauto. Qed.

Lemma escape_plain value : plain value -> label_escape value = value.
Proof.
  rewrite label_escape_flat. induction 1 as [|c value Hc Hv IH]; [done|]. cbn [flat_map]. rewrite IH. apply plain_char_iff in Hc as (? & ? & ?).
  unfold escape_one. by rewrite !(proj2 (Z.eqb_neq _ _)).
Qed.

(** A text that stays on its line. *)
Definition one_line (s : str) : Prop := Forall (fun c => c <> 10) s.

Lemma escape_one_line value : one_line (label_escape value).
Proof.
  rewrite label_escape_flat. unfold one_line. induction value as [|c value IH]; [constructor|]. cbn [flat_map]. apply Forall_app. split; [|done].
  unfold escape_one. destruct (Z.eqb_spec c 92), (Z.eqb_spec c 10), (Z.eqb_spec c 34); repeat (constructor; [lia|]); constructor.
Qed.

Lemma plain_one_line s : plain s -> one_line s.
Proof. intros Hs. eapply Forall_impl; [exact Hs|]. intros c Hc. by apply plain_char_iff in Hc as [? _]. Qed.

(** A name: a metric's or a label's. *)
Definition name_char (c : Z) : bool := ((48 <=? c) && (c <=? 57)) || ((97 <=? c) && (c <=? 122)) || (c =? 95).
Definition clean_name (name : str) : bool := forallb name_char name.

(** [name="value", ...}]: one label, then a comma or the closing brace. *)
Fixpoint read_labels (fuel : nat) (s : str) : option (list (str * str) * str) :=
  match fuel with
  | O => None
  | S fuel =>
      match drop_while name_char s with
      | 61 :: 34 :: s' =>
          '(value, rest) ← read_escaped s';
          let l := (take_while name_char s, value) in
          match rest with
          | 44 :: rest => '(labels, rest) ← read_labels fuel rest; Some (l :: labels, rest)
          | 125 :: rest => Some ([l], rest)
          | _ => None
          end
      | _ => None
      end
  end.

(** A sample line: the name, the labels, the value. *)
Definition read_sample (line : str) : option (str * list (str * str) * str) :=
  let name := take_while name_char line in
  match drop_while name_char line with
  | 123 :: s =>
      '(labels, rest) ← read_labels (length s) s;
      match rest with 32 :: value => Some (name, labels, value) | _ => None end
  | 32 :: value => Some (name, [], value)
  | _ => None
  end.

(** A stop character ends a name. *)
Lemma read_name name c s : clean_name name = true -> name_char c = false ->
  take_while name_char (name ++ c :: s) = name /\ drop_while name_char (name ++ c :: s) = c :: s.
Proof.
  unfold clean_name. induction name as [|x name IH]; cbn [app take_while drop_while forallb]; intros Hn Hc; [by rewrite Hc|].
  apply andb_true_iff in Hn as [Hx Hn]. rewrite Hx. destruct (IH Hn Hc) as [-> ->]. done.
Qed.

Notation clean_labels := (Forall (fun l : string * str => clean_name (lit (fst l)) = true)).
Notation show_labels := (map (fun l : string * str => label (fst l) (snd l))).
Notation named_labels := (map (fun l : string * str => (lit (fst l), snd l))).

Lemma read_show_labels labels rest fuel : labels <> [] -> clean_labels labels -> (length labels <= fuel)%nat ->
  read_labels fuel (str_join (lit ",") (show_labels labels) ++ 125 :: rest) = Some (named_labels labels, rest).
Proof.
  revert fuel. induction labels as [|[name value] labels IH]; intros fuel Hne Hc Hf; [done|].
  destruct fuel as [|fuel]; [cbn in Hf; lia|]. inversion Hc as [|? ? Hn Hc']; subst. cbn [fst] in Hn.
  assert (forall tail, str_join (lit ",") (show_labels ((name, value) :: labels)) ++ 125 :: rest =
    lit name ++ 61 :: 34 :: label_escape value ++ 34 :: tail ->
    read_labels (S fuel) (str_join (lit ",") (show_labels ((name, value) :: labels)) ++ 125 :: rest) =
      match tail with
      | 44 :: tail => '(labels, rest) ← read_labels fuel tail; Some ((lit name, value) :: labels, rest)
      | 125 :: tail => Some ([(lit name, value)], tail)
      | _ => None
      end) as Hgo.
  { intros tail ->. cbn [read_labels]. destruct (read_name (lit name) 61 (34 :: label_escape value ++ 34 :: tail) Hn eq_refl) as [-> ->].
    by rewrite read_escape. }
  destruct labels as [|l labels].
  - rewrite (Hgo (125 :: rest)); [done|]. cbn [map str_join fst snd]. unfold label, raw_label. cbn [lit]. by rewrite <- !(assoc_L (++)).
  - rewrite (Hgo (44 :: str_join (lit ",") (show_labels (l :: labels)) ++ 125 :: rest)).
    + rewrite IH; [done|done|done|cbn [length] in *; lia].
    + cbn [map str_join fst snd]. unfold label, raw_label. cbn [lit]. by rewrite <- !(assoc_L (++)).
Qed.

Lemma str_join_length parts : Forall (fun p : str => p <> []) parts -> (length parts <= length (str_join (lit ",") parts))%nat.
Proof.
  induction 1 as [|p parts Hp Hps IH]; [done|]. assert (1 <= length p)%nat by (destruct p; [done|cbn; lia]).
  destruct parts as [|q parts]; [done|]. cbn [str_join lit] in *. rewrite !length_app. cbn [length] in *. lia.
Qed.

Lemma show_labels_nonempty labels : Forall (fun p : str => p <> []) (show_labels labels).
Proof.
  apply Forall_map, Forall_forall. intros l _. unfold label, raw_label. rewrite <- length_zero_iff_nil, !length_app. cbn [length lit]. lia.
Qed.

(** A sample line reads back as its name, its labels and its value. *)
Lemma read_sample_line name labels value : clean_name (lit name) = true -> clean_labels labels ->
  read_sample (sample name (show_labels labels) value) = Some (lit name, named_labels labels, value).
Proof.
  intros Hn Hl. destruct labels as [|l labels].
  - change (sample name (show_labels []) value) with (lit name ++ 32 :: value). unfold read_sample.
    by destruct (read_name (lit name) 32 value Hn eq_refl) as [-> ->].
  - assert (sample name (show_labels (l :: labels)) value =
      lit name ++ 123 :: str_join (lit ",") (show_labels (l :: labels)) ++ 125 :: 32 :: value) as ->.
    { unfold sample, braced. cbn [map]. by rewrite <- !(assoc_L (++)). }
    unfold read_sample. destruct (read_name (lit name) 123 (str_join (lit ",") (show_labels (l :: labels)) ++ 125 :: 32 :: value) Hn eq_refl) as [-> ->].
    rewrite read_show_labels; [done|done|done|]. rewrite length_app.
    pose proof (str_join_length _ (show_labels_nonempty (l :: labels))) as Hlen. rewrite length_map in Hlen. lia.
Qed.

(** ** Every line is a comment or a sample *)
Lemma plain_app a b : plain a -> plain b -> plain (a ++ b).
Proof. intros. by apply Forall_app. Qed.

Lemma plain_lit s : forallb plain_char (lit s) = true -> plain (lit s).
Proof. intros Hs. rewrite forallb_forall in Hs. apply Forall_forall. intros c Hc. by apply Hs, list_elem_of_In. Qed.

Lemma digits_plain k n : plain (digits_ascii k n).
Proof.
  revert n. induction k as [|k IH]; intros n; [constructor|]. cbn [digits_ascii]. apply plain_app; [apply IH|].
  constructor; [|constructor]. apply plain_char_iff. pose proof (Z.mod_pos_bound n 10). lia.
Qed.

Lemma show_digits_plain n : plain (show_digits n).
Proof. apply digits_plain. Qed.

Lemma sign_plain s text : plain text -> plain (sign_text s text).
Proof. intros. unfold sign_text. apply plain_app; [|done]. destruct s; [by apply plain_lit|constructor]. Qed.

Lemma drop_while_Forall (P : Z -> Prop) p s : Forall P s -> Forall P (drop_while p s).
Proof. induction 1 as [|c s Hc Hs IH]; cbn [drop_while]; [constructor|]. destruct (p c); [done|by constructor]. Qed.

Lemma trim_zeros_plain s : plain s -> plain (trim_zeros s).
Proof.
  intros Hs. unfold trim_zeros, trim_end_char. apply Forall_rev, drop_while_Forall, Forall_rev, Forall_rev, drop_while_Forall, Forall_rev, Hs.
Qed.

Lemma decimals_plain d n : plain (match d with O => [] | S _ => lit "." ++ digits_ascii d n end).
Proof. destruct d; [constructor|]. apply plain_app; [by apply plain_lit|apply digits_plain]. Qed.

Lemma fixed_text_plain x d : plain (fixed_text x d).
Proof.
  destruct x as [s|s| |s m e]; cbn [fixed_text]; [|by apply sign_plain, plain_lit|by apply plain_lit|].
  - apply sign_plain, plain_app; [by apply plain_lit|apply decimals_plain].
  - destruct (f64_ratio m e) as [num den]. apply sign_plain, plain_app; [apply show_digits_plain|apply decimals_plain].
Qed.

Lemma lower_exp5_plain x : plain (lower_exp5 x).1.
Proof.
  destruct x as [s|s| |s m e]; cbn [lower_exp5 fst]; [by apply sign_plain, plain_lit|by apply sign_plain, plain_lit|by apply plain_lit|].
  destruct (f64_ratio m e) as [num den]. destruct (if _ =? _ then _ else _) as [n k]. cbn [fst].
  apply sign_plain, plain_app; [apply show_digits_plain|]. apply plain_app; [by apply plain_lit|apply digits_plain].
Qed.

Lemma python_general_plain log10 x : plain (python_general log10 x).
Proof.
  unfold python_general. destruct (f64_eq x f64_zero); [destruct (f64_is_sign_negative x); by apply plain_lit|].
  destruct (negb _).
  - pose proof (lower_exp5_plain x) as Hp. destruct (lower_exp5 x) as [mantissa raw]. cbn [fst] in Hp.
    apply plain_app; [by apply trim_zeros_plain|]. apply plain_app; [by apply plain_lit|].
    apply plain_app; [destruct (_ <? _); by apply plain_lit|]. unfold two_digits. destruct (_ <? _); [constructor; [done|]|]; apply show_digits_plain.
  - pose proof (fixed_text_plain x (Z.to_nat (5 - f64_to_i32 (f64_floor (log10 (f64_abs x)))))) as Hp.
    destruct (str_contains_char _ 46); [by apply trim_zeros_plain|done].
Qed.

(** A line of the exposition. *)
Record line_ok (line : str) : Prop := {
  lo_one_line : one_line line;
  lo_reads : starts_with line (lit "#") = true \/ is_Some (read_sample line);
}.

Lemma one_line_bool s : forallb (fun c => negb (c =? 10)) s = true -> one_line s.
Proof. rewrite forallb_forall. intros Hs. apply Forall_forall. intros c Hc%list_elem_of_In%Hs%negb_true_iff. lia. Qed.

Lemma comment_ok text : starts_with text (lit "#") = true -> forallb (fun c => negb (c =? 10)) text = true -> line_ok text.
Proof. intros. constructor; [by apply one_line_bool|by left]. Qed.

Lemma clean_one_line name : clean_name name = true -> one_line name.
Proof.
  unfold clean_name. rewrite forallb_forall. intros Hn. apply Forall_forall. intros c Hc%list_elem_of_In%Hn ->. done.
Qed.

Lemma sample_ok name labels value : clean_name (lit name) = true -> clean_labels labels -> plain value ->
  line_ok (sample name (show_labels labels) value).
Proof.
  intros Hn Hl Hv. constructor; [|right; rewrite read_sample_line by done; by eexists].
  unfold sample, one_line. repeat apply Forall_app_2; [by apply clean_one_line| |by apply one_line_bool|by apply plain_one_line].
  assert (one_line (str_join (lit ",") (show_labels labels))) as Hj.
  { induction Hl as [|[n v] labels Hln Hl IH]; [constructor|]. cbn [map fst snd] in *.
    assert (one_line (label n v)) as Hone.
    { unfold label, raw_label, one_line. repeat apply Forall_app_2; [by apply clean_one_line|by apply one_line_bool..|apply escape_one_line|by apply one_line_bool]. }
    destruct labels as [|l labels]; [done|]. cbn [map str_join] in *.
    apply Forall_app_2; [done|]. apply Forall_app_2; [by apply one_line_bool|done]. }
  destruct labels as [|l labels]; [constructor|]. unfold braced. cbn [map]. repeat apply Forall_app_2; [by apply one_line_bool|done|by apply one_line_bool].
Qed.

Lemma raw_label_plain name value : plain value -> raw_label name value = label name value.
Proof. intros Hv. unfold label. by rewrite escape_plain. Qed.

Definition hist_names_clean (name : string) : bool :=
  clean_name (lit (suffixed name "_bucket")) && clean_name (lit (suffixed name "_sum")) && clean_name (lit (suffixed name "_count")).

Lemma render_histogram_ok log10 name h labels : hist_names_clean name = true -> clean_labels labels ->
  Forall line_ok (render_histogram log10 name h (show_labels labels)).
Proof.
  unfold hist_names_clean. rewrite !andb_true_iff. intros [[Hb Hs] Hc] Hl. unfold render_histogram.
  assert (forall le value, plain le -> plain value ->
    line_ok (sample (suffixed name "_bucket") (show_labels labels ++ [raw_label "le" le]) value)) as Hle.
  { intros le value Hp Hv. rewrite (raw_label_plain "le" le Hp).
    change [label "le" le] with (show_labels [("le"%string, le)]). rewrite <- map_app.
    apply sample_ok; [done| |done]. apply Forall_app_2; [done|by repeat constructor]. }
  apply Forall_app_2.
  - apply Forall_map, Forall_forall. intros [bound n] _. apply Hle; [apply python_general_plain|apply show_digits_plain].
  - apply Forall_cons_2; [apply Hle; [by apply plain_lit|apply show_digits_plain]|].
    apply Forall_cons_2; [apply sample_ok; [done|done|apply python_general_plain]|].
    apply Forall_cons_2; [apply sample_ok; [done|done|apply show_digits_plain]|constructor].
Qed.

(** The sections are lists of comments, samples and histograms. *)
Ltac line_ok_tac :=
  lazymatch goal with
  | |- line_ok (help _ _) => apply comment_ok; vm_compute; reflexivity
  | |- line_ok (type _ _) => apply comment_ok; vm_compute; reflexivity
  | |- line_ok (sample ?name [] ?v) => change (line_ok (sample name (show_labels []) v))
  | |- line_ok (sample ?name [label ?a ?x] ?v) => change (line_ok (sample name (show_labels [(a, x)]) v))
  | |- line_ok (sample ?name [label ?a ?x; label ?b ?y] ?v) => change (line_ok (sample name (show_labels [(a, x); (b, y)]) v))
  | |- line_ok (sample ?name [label ?a ?x; label ?b ?y; label ?c ?z] ?v) =>
      change (line_ok (sample name (show_labels [(a, x); (b, y); (c, z)]) v))
  end;
  try (apply sample_ok;
       [reflexivity|repeat (constructor; [reflexivity|]); constructor
       |first [apply python_general_plain|apply show_digits_plain|by apply plain_lit|destruct (ms_state_degraded _); by apply plain_lit]]).

Ltac lines_ok :=
  repeat lazymatch goal with
  | |- Forall line_ok (_ ++ _) => apply Forall_app_2
  | |- Forall line_ok (_ :: _) => apply Forall_cons_2
  | |- Forall line_ok [] => apply Forall_nil_2
  | |- Forall line_ok (map _ _) => apply Forall_map, Forall_forall; intros ? _; repeat match goal with p : _ * _ |- _ => destruct p end
  | |- Forall line_ok (family ?m _) => destruct m; cbn [family]
  | |- Forall line_ok (render_histogram _ _ _ []) => apply (render_histogram_ok _ _ _ []); [reflexivity|constructor]
  | |- Forall line_ok (if ?b then _ else _) => destruct b
  | |- line_ok _ => line_ok_tac
  end.

Lemma flat_histograms_ok log10 name key (series : ordmap str Histogram) : hist_names_clean name = true -> clean_name (lit key) = true ->
  Forall line_ok (flat_map (fun '(v, h) => render_histogram log10 name h [label key v]) series).
Proof.
  intros Hn Hk. induction series as [|[v h] series IH]; cbn [flat_map]; [constructor|]. apply Forall_app_2; [|done].
  apply (render_histogram_ok _ _ _ [(key, v)]); [done|by repeat constructor].
Qed.

Lemma deployment_lines_ok log10 name text series : hist_names_clean name = true -> line_ok (help name text) -> line_ok (type name "histogram") ->
  Forall line_ok (deployment_lines log10 name text series).
Proof.
  intros Hn Hh Ht. unfold deployment_lines, family. destruct series as [|e series]; [constructor|].
  constructor; [done|]. constructor; [done|]. by apply flat_histograms_ok.
Qed.

Lemma render_lines_ok log10 version s : Forall line_ok (render_lines log10 version s).
Proof.
  unfold render_lines. repeat lazymatch goal with |- Forall line_ok (_ ++ _) => apply Forall_app_2 end.
  - unfold build_info. lines_ok.
  - unfold request_lines. lines_ok.
  - unfold upstream_error_lines. lines_ok.
  - unfold cache_lines. lines_ok.
  - unfold limit_lines. lines_ok.
  - unfold admission_lines. lines_ok.
  - unfold gauge_lines. lines_ok.
  - unfold cost_lines. lines_ok.
  - unfold latency_lines. lines_ok. by apply flat_histograms_ok.
  - unfold selection_lines. lines_ok.
  - unfold shadow_lines. lines_ok.
  - apply deployment_lines_ok; [reflexivity|line_ok_tac..].
  - apply deployment_lines_ok; [reflexivity|line_ok_tac..].
  - apply deployment_lines_ok; [reflexivity|line_ok_tac..].
Qed.

(** The newlines of the text are those that end its lines. *)
Lemma split_line line rest : one_line line -> split_inclusive (line ++ 10 :: rest) = (line ++ [10]) :: split_inclusive rest.
Proof.
  induction 1 as [|c line Hc Hl IH]; [done|]. cbn [app split_inclusive]. rewrite (proj2 (Z.eqb_neq c 10) Hc), IH. done.
Qed.

Lemma split_lines lines : Forall one_line lines -> split_inclusive (flat_map (fun line => line ++ [10]) lines) = map (fun line => line ++ [10]) lines.
Proof.
  induction 1 as [|line lines Hl Hls IH]; [done|]. cbn [flat_map map]. rewrite <- (assoc_L (++)).
  cbn [app]. by rewrite split_line, IH.
Qed.

(** ** How long the text is *)
Lemma len_map {A B} (f : A -> B) l : len (map f l) = len l.
Proof. unfold len. by rewrite length_map. Qed.

Lemma histogram_lines log10 name h labels buckets : hist_ok buckets h -> len (render_histogram log10 name h labels) = len buckets + 3.
Proof.
  intros [Hb Hl _ _]. unfold render_histogram, len. rewrite length_app, length_map, length_zip_with, Hb, Hl. cbn [length]. lia.
Qed.

Lemma flat_histograms_len log10 name key buckets (series : ordmap str Histogram) : Forall (fun e => hist_ok buckets (snd e)) series ->
  len (flat_map (fun '(v, h) => render_histogram log10 name h [label key v]) series) = len series * (len buckets + 3).
Proof.
  induction 1 as [|[v h] series Hh Hs IH]; [done|]. cbn [flat_map]. pose proof (histogram_lines log10 name h [label key v] buckets Hh).
  unfold len in *. rewrite length_app. cbn [length]. nia.
Qed.

Lemma family_len {V} (m : list V) lines : len (family m lines) <= len lines.
Proof. unfold family, len. destruct m; cbn [length]; lia. Qed.

Lemma deployment_lines_len log10 name text buckets maximum series : series_ok buckets maximum series ->
  len (deployment_lines log10 name text series) <= 2 + (maximum + 1) * (len buckets + 3).
Proof.
  intros [Hf Hh]. unfold deployment_lines. etrans; [apply family_len|]. rewrite len_app, (flat_histograms_len _ _ _ _ _ Hh), !len_cons, len_nil.
  apply family_bound in Hf. unfold len in *. nia.
Qed.

(** One line per series, thirteen for one of ten buckets, and the lines every
    exposition has. *)
Lemma render_lines_len log10 version maximum s : metrics_ok maximum s -> 0 <= maximum ->
  len (render_lines log10 version s) <= 54 * (maximum + 1) + 87.
Proof.
  intros [Hreq Herr Hdec Hup Httft Hthr Hcap Hsel Hsh Hcost Hrate Hkey Hwait Hrej _] Hm.
  apply (deployment_lines_len log10 "wayfinder_router_deployment_time_to_first_token_seconds" "Deployment time to first token by concrete target.") in Httft.
  apply (deployment_lines_len log10 "wayfinder_router_deployment_throughput_chars_per_second" "Completion throughput by concrete target.") in Hthr.
  apply (deployment_lines_len log10 "wayfinder_router_deployment_capacity_pressure" "Provider-reported capacity pressure by concrete target.") in Hcap.
  destruct Hup as [Hup Huph]. apply family_bound in Hreq, Herr, Hup, Hsel, Hsh, Hrate, Hkey, Hrej.
  unfold render_lines. rewrite !len_app.
  pose proof (flat_histograms_len log10 "wayfinder_router_upstream_latency_seconds" "model" _ _ Huph) as Hul.
  pose proof (histogram_lines log10 "wayfinder_router_decision_latency_seconds" _ [] _ Hdec) as Hdl.
  pose proof (histogram_lines log10 "wayfinder_router_admission_queue_wait_seconds" _ [] _ Hwait) as Hwl.
  change (len UPSTREAM_BUCKETS) with 10 in Hul. change (len TTFT_BUCKETS) with 10 in Httft. change (len THROUGHPUT_BUCKETS) with 8 in Hthr.
  change (len CAPACITY_BUCKETS) with 6 in Hcap. change (len DECISION_BUCKETS) with 9 in Hdl. change (len QUEUE_WAIT_BUCKETS) with 8 in Hwl.
  unfold build_info, request_lines, upstream_error_lines, cache_lines, limit_lines, admission_lines, gauge_lines, cost_lines, latency_lines,
    selection_lines, shadow_lines.
  rewrite ?len_app, ?len_cons, ?len_map, Hul, Hdl, Hwl.
  repeat match goal with
  | |- context [len (family ?m ?l)] =>
      let H := fresh in let z := fresh in pose proof (family_len m l) as H; set (z := len (family m l)) in *; clearbody z
  end.
  rewrite ?len_app, ?len_cons, ?len_map, ?len_nil in *. destruct (f64_gt _ _); rewrite ?len_cons; try change (len []) with 0; lia.
Qed.

(** ** Properties *)

(** Whatever is observed, the collector stays bounded: each family of series
    has at most its limit and the overflow series, labels are short and free of
    control characters other than newlines, no bucket of a histogram counts more
    than the histogram, and a scrape has at most 54 lines per allowed series and
    87 more. *)
Theorem metrics_bounded version maximum ops log10 : 0 <= maximum ->
  let m := foldl metric_step (GatewayMetrics_new version maximum) ops in
  meters_ok m /\ len (render_lines log10 (gm_version m) (gm_state m)) <= 54 * (gm_max_label_series m + 1) + 87.
Proof.
  intros Hm m. assert (meters_ok m) as Hok by by apply metrics_run_ok. split; [done|].
  destruct Hok as (H0 & _ & Hs). by apply (render_lines_len log10 (gm_version m)).
Qed.

(** C20: The text of a scrape reads back, whatever the labels hold: its newlines
    are those that end its lines, each line is a comment or a sample a reader
    takes apart, and the series of requests and of keys are read with exactly
    the labels they have. *)
Theorem exposition_reads_back log10 version s :
  split_inclusive (render_state log10 version s) = map (fun line => line ++ [10]) (render_lines log10 version s) /\
  Forall (fun line => starts_with line (lit "#") = true \/ is_Some (read_sample line)) (render_lines log10 version s) /\
  (forall model mode n, ((model, mode), n) ∈ ms_requests s -> exists line, line ∈ render_lines log10 version s /\
     read_sample line = Some (lit "wayfinder_router_requests_total", [(lit "model", model); (lit "mode", mode)], show_digits n)) /\
  (forall key n, (key, n) ∈ ms_key_requests s -> exists line, line ∈ render_lines log10 version s /\
     read_sample line = Some (lit "wayfinder_router_key_requests_total", [(lit "key", key)], show_digits n)).
Proof.
  pose proof (render_lines_ok log10 version s) as Hok. split_and!.
  - apply split_lines. eapply Forall_impl; [exact Hok|]. by intros line [].
  - eapply Forall_impl; [exact Hok|]. by intros line [].
  - intros model mode n Hin. eexists. split; [|apply (read_sample_line _ [("model", model); ("mode", mode)]%string); [done|by repeat constructor]].
    unfold render_lines. rewrite elem_of_app. right. rewrite elem_of_app. left. unfold request_lines. rewrite elem_of_app. right.
    apply list_elem_of_In, in_map_iff. eexists. split; [|by apply list_elem_of_In]. done.
  - intros key n Hin. eexists. split; [|apply (read_sample_line _ [("key", key)]%string); [done|by repeat constructor]].
    unfold render_lines. do 4 (rewrite elem_of_app; right). rewrite elem_of_app. left. unfold limit_lines. do 2 (rewrite elem_of_app; right).
    unfold family. destruct (ms_key_requests s) as [|e l] eqn:E; [by apply not_elem_of_nil in Hin|]. rewrite elem_of_app. right.
    apply list_elem_of_In, in_map_iff. eexists. split; [|by apply list_elem_of_In]. done.
Qed.

(** ** Examples *)

(** A model name that pretends to close its label and to start a line. *)
Definition hostile_model : str := lit "a" ++ [34; 125; 32; 49; 10] ++ lit "fake 9".

Definition sample_metrics : GatewayMetrics :=
  foldl metric_step (GatewayMetrics_new (lit "1.0") 2)
    [ObserveDecision hostile_model (lit "scored") (f64_dec 3 3); ObserveDecision (lit "b") (lit "scored") (f64_dec 3 4);
     ObserveDecision (lit "c") (lit "scored") (f64_dec 3 3); ObserveDecision (lit "d") (lit "pinned") f64_nan].

Example third_series_overflows :
  map fst (ms_requests (gm_state sample_metrics)) =
  [(OVERFLOW_LABEL, OVERFLOW_LABEL); (hostile_model, lit "scored"); (lit "b", lit "scored")] /\
  hg_counts (ms_decision (gm_state sample_metrics)) = [0; 0; 1; 1; 1; 3; 3; 3; 3].
Proof. vm_compute. done. Qed.

Example general_numbers :
  let exponents x := if f64_lt x (f64_dec 1 4) then f64_of_Z (-7) else if f64_lt x f64_one then f64_of_Z (-1) else
                     if f64_lt x (f64_of_Z 10) then f64_zero else f64_of_Z 6 in
  map (python_general exponents) [f64_zero; f64_dec 25 2; f64_dec 15 1; f64_of_Z 1234567; f64_dec 12 8; f64_neg (f64_dec 25 2)] =
  map lit ["0"; "0.25"; "1.5"; "1.23457e+06"; "1.2e-07"; "-0.25"]%string.
Proof. vm_compute. reflexivity. Qed.

Theorem metrics_bounded_witness :
  let m := foldl metric_step (GatewayMetrics_new (lit "1.0") 2) [ObserveKeyRequest (lit "k1")] in
  meters_ok m /\ len (render_lines (fun x => x) (gm_version m) (gm_state m)) <= 54 * (gm_max_label_series m + 1) + 87.
Proof. apply (metrics_bounded (lit "1.0") 2 [ObserveKeyRequest (lit "k1")] (fun x => x)). lia. Defined.
