(* ===== verification/GatewayConfig.v ===== *)
(** * Gateway configuration (crate [wayfinder-config], [src/gateway.rs])

    The parsed configuration the gateway's policies are built from, with its
    defaults.  The policies only iterate over the [IndexMap]s of the
    configuration, so such a map is the list of its entries in order.  It is read
    from TOML in [GatewayParse]; rendering it back is not modelled. *)
From S2P Require Export Scoring.

(** ** Constants *)
Definition FAILOVER_POLICIES : list str := map lit ["same-tier"; "degrade"; "escalate"]%string.
Definition BUDGET_WINDOWS : list str := map lit ["day"; "month"; "all"]%string.
Definition BUDGET_BREACH_ACTIONS : list str := map lit ["degrade"; "block"]%string.
Definition DEFAULT_CACHE_TTL : f64 := f64_of_Z 300.
Definition DEFAULT_CACHE_MAX_ENTRIES : Z := 1024.
Definition DEFAULT_CACHE_MAX_BYTES : Z := 64 * 1024 * 1024.
Definition DEFAULT_MAX_IN_FLIGHT : Z := 32.
Definition DEFAULT_MAX_QUEUED : Z := 64.
Definition DEFAULT_QUEUE_TIMEOUT : f64 := f64_of_Z 2.
Definition DEFAULT_STATE_NAMESPACE : str := lit "wayfinder".
Definition DEFAULT_MODEL_DEPLOYMENT_OBSERVATION_TTL : f64 := f64_of_Z 60.
Definition DEFAULT_SHADOW_SAMPLE_RATE : f64 := f64_zero.
Definition DEFAULT_SHADOW_MAX_IN_FLIGHT : Z := 2.
Definition DEFAULT_SHADOW_MAX_RECORDS : Z := 2048.
Definition DEFAULT_SHADOW_PROVIDER_SAMPLE_RATE : f64 := f64_zero.
Definition DEFAULT_SHADOW_PROVIDER_MAX_REQUESTS : Z := 0.
Definition DEFAULT_SHADOW_PROVIDER_WINDOW : f64 := f64_of_Z 60.
Definition DEFAULT_CANARY_FRACTION : f64 := f64_zero.
Definition DEFAULT_CANARY_WINDOW : f64 := f64_of_Z 300.
Definition DEFAULT_CANARY_MIN_SAMPLES : Z := 30.
Definition DEFAULT_CANARY_MAX_REQUESTS : Z := 1000.
Definition DEFAULT_CANARY_MAX_ERROR_RATE : f64 := f64_dec 20 2.
Definition DEFAULT_CANARY_MAX_LATENCY_MS : f64 := f64_of_Z 30000.
Definition DEFAULT_CANARY_MAX_COST_MULTIPLIER : f64 := f64_of_Z 2.
Definition DEFAULT_CANARY_MAX_QUALITY_LOSS : f64 := f64_dec 10 2.
Definition DEFAULT_CANARY_ROLLBACK_HOLD : f64 := f64_of_Z 900.

(** ** Operator authentication, shadow and canary policies *)
Record GatewayAuthConfig := {
  mode : str;
  issuer : option str;
  audience : option str;
  jwks_url : option str;
  admin_claim : str;
}.

Definition default_auth : GatewayAuthConfig :=
  {| mode := lit "vkeys"; issuer := None; audience := None; jwks_url := None; admin_claim := lit "admin" |}.

Record ShadowConfig := {
  sh_enabled : bool;
  sample_rate : f64;
  candidate_routes : list str;
  sh_max_in_flight : Z;
  max_records : Z;
  provider_comparisons : bool;
  provider_sample_rate : f64;
  provider_max_requests : Z;
  provider_window : f64;
}.

Definition default_shadow : ShadowConfig :=
  {| sh_enabled := false; sample_rate := DEFAULT_SHADOW_SAMPLE_RATE; candidate_routes := [];
     sh_max_in_flight := DEFAULT_SHADOW_MAX_IN_FLIGHT; max_records := DEFAULT_SHADOW_MAX_RECORDS;
     provider_comparisons := false; provider_sample_rate := DEFAULT_SHADOW_PROVIDER_SAMPLE_RATE;
     provider_max_requests := DEFAULT_SHADOW_PROVIDER_MAX_REQUESTS;
     provider_window := DEFAULT_SHADOW_PROVIDER_WINDOW |}.

Record CanaryConfig := {
  cn_enabled : bool;
  rollout_id : str;
  candidate_route : str;
  fraction : f64;
  cn_scope : str;
  cohort : option str;
  cn_max_requests : Z;
  cn_window : f64;
  min_samples : Z;
  max_error_rate : f64;
  max_latency_ms : f64;
  max_cost_multiplier : f64;
  max_quality_loss : f64;
  rollback_hold : f64;
}.

Definition default_canary : CanaryConfig :=
  {| cn_enabled := false; rollout_id := lit "default"; candidate_route := []; fraction := DEFAULT_CANARY_FRACTION;
     cn_scope := lit "request"; cohort := None; cn_max_requests := DEFAULT_CANARY_MAX_REQUESTS;
     cn_window := DEFAULT_CANARY_WINDOW; min_samples := DEFAULT_CANARY_MIN_SAMPLES;
     max_error_rate := DEFAULT_CANARY_MAX_ERROR_RATE; max_latency_ms := DEFAULT_CANARY_MAX_LATENCY_MS;
     max_cost_multiplier := DEFAULT_CANARY_MAX_COST_MULTIPLIER; max_quality_loss := DEFAULT_CANARY_MAX_QUALITY_LOSS;
     rollback_hold := DEFAULT_CANARY_ROLLBACK_HOLD |}.

(** ** Models and deployments *)
Inductive ProviderKind := OpenAiCompatible | Anthropic | AppleFoundationModels | CodexAppServer.

Inductive ProviderTier := LocalTier.

Inductive DeploymentSelectionStrategy := Weighted | Latency | Throughput | Availability | Cost | Capacity.

Record DeploymentSelectionPolicy := {
  strategy : DeploymentSelectionStrategy;
  max_cost_per_1k : option f64;
  observation_ttl : f64;
}.

Definition default_selection : DeploymentSelectionPolicy :=
  {| strategy := Weighted; max_cost_per_1k := None; observation_ttl := DEFAULT_MODEL_DEPLOYMENT_OBSERVATION_TTL |}.

Record GatewayDeployment := {
  gd_id : str;
  gd_base_url : str;
  gd_model : str;
  gd_api_key_env : option str;
  gd_weight : Z;
  gd_cost_per_1k : option f64;
}.

Record GatewayModel := {
  gm_provider : ProviderKind;
  gm_base_url : option str;
  gm_model : str;
  gm_tier : option ProviderTier;
  gm_api_key_env : option str;
  gm_api_key_cmd : option str;
  gm_cost_per_1k : option f64;
  gm_fallbacks : list str;
  gm_context_window : option Z;
  gm_deployments : list GatewayDeployment;
  gm_deployment_selection : DeploymentSelectionPolicy;
}.

Record RoutePreset := { rp_models : list str }.

(** ** Policies *)
Record Budget := {
  b_limit : f64;
  b_window : str;
  on_breach : str;
}.

Record CacheConfig := {
  cc_backend : str;
  cc_enabled : bool;
  cc_ttl : f64;
  cc_max_entries : Z;
  cc_max_bytes : Z;
}.

Definition default_cache : CacheConfig :=
  {| cc_backend := lit "memory"; cc_enabled := false; cc_ttl := DEFAULT_CACHE_TTL;
     cc_max_entries := DEFAULT_CACHE_MAX_ENTRIES; cc_max_bytes := DEFAULT_CACHE_MAX_BYTES |}.

Record RateLimit := {
  rl_rpm : option Z;
  rl_tpm : option Z;
  rl_window : f64;
}.

Record ConcurrencyConfig := {
  max_in_flight : Z;
  max_queued : Z;
  queue_timeout : f64;
}.

Definition default_concurrency : ConcurrencyConfig :=
  {| max_in_flight := DEFAULT_MAX_IN_FLIGHT; max_queued := DEFAULT_MAX_QUEUED;
     queue_timeout := DEFAULT_QUEUE_TIMEOUT |}.

Record StateConfig := {
  sc_backend : str;
  sc_url : option str;
  sc_namespace : str;
}.

Definition default_state : StateConfig :=
  {| sc_backend := lit "memory"; sc_url := None; sc_namespace := DEFAULT_STATE_NAMESPACE |}.

Record Workspace := {
  ws_models : list str;
  ws_profile : option str;
  ws_budget : option Budget;
  ws_rate_limit : option RateLimit;
}.

Record VirtualKey := {
  vk_hash : str;
  vk_tags : list str;
  vk_workspace : option str;
  vk_budget : option Budget;
  vk_rate_limit : option RateLimit;
  vk_models : list str;
}.

Record GatewayConfig := {
  allow_unauthenticated_default : bool;
  gc_models : list (str * GatewayModel);
  gc_route_on : str;
  gc_sticky : bool;
  gc_sticky_cooldown : Z;
  gc_slash_directives : bool;
  gc_offline : bool;
  gc_retries : Z;
  gc_breaker_threshold : Z;
  gc_breaker_cooldown : f64;
  gc_failover : str;
  gc_budget : option Budget;
  gc_cache : option CacheConfig;
  gc_rate_limit : option RateLimit;
  gc_concurrency : ConcurrencyConfig;
  gc_state : StateConfig;
  gc_auth : GatewayAuthConfig;
  gc_shadow : ShadowConfig;
  gc_canary : CanaryConfig;
  workspaces : list (str * Workspace);
  gc_profiles : list (str * RoutingConfig);
  gc_routes : list (str * RoutePreset);
  keys : list (str * VirtualKey);
}.

(** A configuration that sets only the access and budget policies. *)
Definition policy_config (allow : bool) (budget : option Budget) (limit : option RateLimit)
    (ws : list (str * Workspace)) (ks : list (str * VirtualKey)) : GatewayConfig :=
  {| allow_unauthenticated_default := allow; gc_models := []; gc_route_on := lit "turn"; gc_sticky := false;
     gc_sticky_cooldown := 0; gc_slash_directives := false; gc_offline := false; gc_retries := 2;
     gc_breaker_threshold := 5; gc_breaker_cooldown := f64_of_Z 30; gc_failover := lit "same-tier";
     gc_budget := budget; gc_cache := None; gc_rate_limit := limit; gc_concurrency := default_concurrency;
     gc_state := default_state; gc_auth := default_auth; gc_shadow := default_shadow;
     gc_canary := default_canary; workspaces := ws; gc_profiles := []; gc_routes := []; keys := ks |}.

Definition default_config : GatewayConfig := policy_config false None None [] [].
