(* ===== verification/GatewayParse.v ===== *)
(** * Gateway configuration parsing (crate [wayfinder-config], [src/gateway.rs])

    [gateway_config_from_toml]: the [[gateway]] table read field by field, in
    the code's order, then the checks across tables.  Unknown fields are
    ignored.  The [toml] crate is a parameter. *)
From stdpp Require Import pretty.
From S2P Require Export RoutingParse GatewayConfig.

(** ** Constants *)
Definition ROUTE_ON_SCOPES : list str := map lit ["turn"; "last_user"; "user"; "all"]%string.
Definition CACHE_BACKENDS : list str := map lit ["memory"; "redis"]%string.
Definition STATE_BACKENDS : list str := map lit ["memory"; "redis"]%string.
Definition OPERATOR_AUTH_MODES : list str := map lit ["vkeys"; "oidc"; "both"]%string.
Definition CANARY_SCOPES : list str := map lit ["request"; "workspace"; "key"; "cohort"]%string.
Definition DEPLOYMENT_SELECTION_STRATEGIES : list str :=
  map lit ["weighted"; "latency"; "throughput"; "availability"; "cost"; "capacity"]%string.
Definition DEFAULT_RATE_LIMIT_WINDOW : f64 := f64_of_Z 60.
Definition MAX_MODEL_DEPLOYMENTS : Z := 32.
Definition MAX_MODEL_DEPLOYMENT_WEIGHT : Z := 100.
Definition MAX_MODEL_DEPLOYMENT_OBSERVATION_TTL : f64 := f64_of_Z 3600.
Definition MAX_ROUTE_PRESETS : Z := 64.
Definition MAX_ROUTE_PRESET_MODELS : Z := 32.
Definition MAX_ROUTING_PROFILES : Z := 64.
Definition MAX_ROUTING_PROFILE_BYTES : Z := 64 * 1024.
Definition MAX_SHADOW_CANDIDATE_ROUTES : Z := 32.
Definition MAX_SHADOW_SAMPLE_RATE : f64 := f64_one.
Definition MAX_SHADOW_PROVIDER_WINDOW : f64 := f64_of_Z 86400.
Definition MAX_CANARY_FRACTION : f64 := f64_one.
Definition MAX_CANARY_WINDOW : f64 := f64_of_Z 86400.

(** [format!("gateway.{table}.{id}.{field}")]. *)
Definition field_label (table : string) (id : str) (field : string) : str :=
  lit "gateway." ++ lit table ++ lit "." ++ id ++ lit "." ++ lit field.

Section Tables.
Context (where_ : str).

Definition fail {A} (m : message) : result A ConfigError := Err (invalid where_ m).

(** A check that leaves the function. *)
Definition require (b : bool) (m : message) : result unit ConfigError := if b then Ok () else fail m.

Definition parse_budget (value : option TomlValue) : result (option Budget) ConfigError :=
  match value with
  | None => Ok None
  | Some value =>
      let? table := table_of where_ value (Msg "'[gateway.budget]' must be a table" []) in
      let? limit := ok_or (opt_filter (fun limit => f64_gt limit f64_zero) (ix_get table (lit "limit") ≫= finite_number))
                      (invalid where_ (Msg "'gateway.budget.limit' must be a positive number" [])) in
      let? window := optional_allowed_string where_ (ix_get table (lit "window")) (lit "day") BUDGET_WINDOWS
                       (lit "gateway.budget.window") in
      let? on_breach := optional_allowed_string where_ (ix_get table (lit "on_breach")) (lit "degrade")
                          BUDGET_BREACH_ACTIONS (lit "gateway.budget.on_breach") in
      Ok (Some {| b_limit := limit; b_window := window; on_breach := on_breach |})
  end.

Definition parse_cache (value : option TomlValue) : result (option CacheConfig) ConfigError :=
  match value with
  | None => Ok None
  | Some value =>
      let? table := table_of where_ value (Msg "'[gateway.cache]' must be a table" []) in
      let? backend := optional_allowed_string where_ (ix_get table (lit "backend")) (lit "memory") CACHE_BACKENDS
                        (lit "gateway.cache.backend") in
      let? enabled := optional_bool where_ (ix_get table (lit "enabled")) false (lit "gateway.cache.enabled") in
      let? ttl := optional_non_negative_number where_ (ix_get table (lit "ttl")) DEFAULT_CACHE_TTL
                    (lit "gateway.cache.ttl") in
      let? max_entries := optional_positive_integer where_ (ix_get table (lit "max_entries")) DEFAULT_CACHE_MAX_ENTRIES
                            (lit "gateway.cache.max_entries") in
      let? max_bytes := optional_positive_integer where_ (ix_get table (lit "max_bytes")) DEFAULT_CACHE_MAX_BYTES
                          (lit "gateway.cache.max_bytes") in
      Ok (Some {| cc_backend := backend; cc_enabled := enabled; cc_ttl := ttl; cc_max_entries := max_entries;
                  cc_max_bytes := max_bytes |})
  end.

Definition parse_rate_limit (value : option TomlValue) : result (option RateLimit) ConfigError :=
  match value with
  | None => Ok None
  | Some value =>
      let? table := table_of where_ value (Msg "'[gateway.rate_limit]' must be a table" []) in
      let? rpm := positive_integer where_ (ix_get table (lit "rpm")) (lit "gateway.rate_limit.rpm") in
      let? tpm := positive_integer where_ (ix_get table (lit "tpm")) (lit "gateway.rate_limit.tpm") in
      match rpm, tpm with
      | None, None => fail (Msg "'[gateway.rate_limit]' must set 'rpm' and/or 'tpm'" [])
      | _, _ =>
          let? window := optional_positive_number where_ (ix_get table (lit "window")) DEFAULT_RATE_LIMIT_WINDOW
                           (lit "gateway.rate_limit.window") in
          Ok (Some {| rl_rpm := rpm; rl_tpm := tpm; rl_window := window |})
      end
  end.

Definition parse_concurrency (value : option TomlValue) : result ConcurrencyConfig ConfigError :=
  match value with
  | None => Ok default_concurrency
  | Some value =>
      let? table := table_of where_ value (Msg "'[gateway.concurrency]' must be a table" []) in
      let? max_in_flight := optional_positive_integer where_ (ix_get table (lit "max_in_flight")) DEFAULT_MAX_IN_FLIGHT
                              (lit "gateway.concurrency.max_in_flight") in
      let? max_queued := optional_non_negative_integer where_ (ix_get table (lit "max_queued")) DEFAULT_MAX_QUEUED
                           (lit "gateway.concurrency.max_queued") in
      let? queue_timeout := optional_positive_number where_ (ix_get table (lit "queue_timeout")) DEFAULT_QUEUE_TIMEOUT
                              (lit "gateway.concurrency.queue_timeout") in
      Ok {| max_in_flight := max_in_flight; max_queued := max_queued; queue_timeout := queue_timeout |}
  end.

Definition parse_state (value : option TomlValue) : result StateConfig ConfigError :=
  match value with
  | None => Ok default_state
  | Some value =>
      let? table := table_of where_ value (Msg "'[gateway.state]' must be a table" []) in
      let? backend := optional_allowed_string where_ (ix_get table (lit "backend")) (lit "memory") STATE_BACKENDS
                        (lit "gateway.state.backend") in
      let? url := optional_non_empty_string where_ (ix_get table (lit "url")) (lit "gateway.state.url") in
      let? namespace := optional_non_empty_string where_ (ix_get table (lit "namespace")) (lit "gateway.state.namespace") in
      let namespace := default DEFAULT_STATE_NAMESPACE namespace in
      let? _ := require (valid_policy_id namespace)
                  (Msg "'gateway.state.namespace' must be 1-128 visible ASCII characters" []) in
      let? _ := require (negb (str_eqb backend (lit "redis") && negb (bool_decide (is_Some url))))
                  (Msg "'gateway.state.url' is required when gateway.state.backend is 'redis'" []) in
      let? _ := require (negb (str_eqb backend (lit "memory") && bool_decide (is_Some url)))
                  (Msg "'gateway.state.url' is only valid when gateway.state.backend is 'redis'" []) in
      Ok {| sc_backend := backend; sc_url := url; sc_namespace := namespace |}
  end.

Definition parse_auth (value : option TomlValue) : result GatewayAuthConfig ConfigError :=
  match value with
  | None => Ok default_auth
  | Some value =>
      let? table := table_of where_ value (Msg "'[gateway.auth]' must be a table" []) in
      let? mode := optional_allowed_string where_ (ix_get table (lit "mode")) (lit "vkeys") OPERATOR_AUTH_MODES
                     (lit "gateway.auth.mode") in
      let? issuer := optional_non_empty_string where_ (ix_get table (lit "issuer")) (lit "gateway.auth.issuer") in
      let? audience := optional_non_empty_string where_ (ix_get table (lit "audience")) (lit "gateway.auth.audience") in
      let? jwks_url := optional_non_empty_string where_ (ix_get table (lit "jwks_url")) (lit "gateway.auth.jwks_url") in
      let? admin_claim := optional_non_empty_string where_ (ix_get table (lit "admin_claim"))
                            (lit "gateway.auth.admin_claim") in
      let admin_claim := default (lit "admin") admin_claim in
      let? _ := require (valid_policy_id admin_claim)
                  (Msg "'gateway.auth.admin_claim' must be 1-128 visible ASCII characters" []) in
      let? _ := require (negb ((str_eqb mode (lit "oidc") || str_eqb mode (lit "both")) &&
                               negb (bool_decide (is_Some issuer) && bool_decide (is_Some audience)
                                     && bool_decide (is_Some jwks_url))))
                  (Msg "'gateway.auth.issuer', 'gateway.auth.audience', and 'gateway.auth.jwks_url' are required when gateway.auth.mode is 'oidc' or 'both'" []) in
      Ok {| mode := mode; issuer := issuer; audience := audience; jwks_url := jwks_url; admin_claim := admin_claim |}
  end.
End Tables.

Section Entries.
Context (where_ : str).

(** [format!("{where_} [gateway.{table}.{id}]")]. *)
Definition nested_where (table : string) (id : str) : str :=
  where_ ++ lit " [gateway." ++ lit table ++ lit "." ++ id ++ lit "]".

Definition entry_of (table : string) (id : str) (value : TomlValue) : result toml_table ConfigError :=
  table_of where_ value (Msg "'[gateway.{table}.{id}]' must be a table" [ArgStr (lit table); ArgStr id]).

Definition parse_key (key_id : str) (value : TomlValue) : result VirtualKey ConfigError :=
  let? entry := entry_of "keys" key_id value in
  let? hash := ok_or (opt_filter is_sha256_hex (ix_get entry (lit "hash") ≫= as_str))
                 (invalid where_ (Msg "'gateway.keys.{key_id}.hash' must be a 64-char SHA-256 hex digest (mint a key with `wayfinder-router keys new`)" [ArgStr key_id])) in
  let hash := to_ascii_lowercase hash in
  let? tags := optional_non_empty_string_list where_ (ix_get entry (lit "tags")) (field_label "keys" key_id "tags")
                 (lit "a list of strings") in
  let? workspace := match ix_get entry (lit "workspace") with
                    | None => Ok None
                    | Some value =>
                        let? s := ok_or (opt_filter nonempty_str (as_str value))
                                    (invalid where_ (Msg "'gateway.keys.{key_id}.workspace' must be a non-empty string" [ArgStr key_id])) in
                        Ok (Some s)
                    end in
  let? models := optional_non_empty_string_list where_ (ix_get entry (lit "models")) (field_label "keys" key_id "models")
                   (lit "a list of model names") in
  let? budget := parse_budget (nested_where "keys" key_id) (ix_get entry (lit "budget")) in
  let? rate_limit := parse_rate_limit (nested_where "keys" key_id) (ix_get entry (lit "rate_limit")) in
  Ok {| vk_hash := hash; vk_tags := tags; vk_workspace := workspace; vk_budget := budget; vk_rate_limit := rate_limit;
        vk_models := models |}.

(** A table of entries, absent or present. *)
Definition parse_table {A} (table : string) (limit : toml_table -> result unit ConfigError)
    (parse : str -> TomlValue -> result A ConfigError) (value : option TomlValue) : result (list (str * A)) ConfigError :=
  match value with
  | None => Ok []
  | Some value =>
      let? t := table_of where_ value (Msg "'[gateway.{table}]' must be a table" [ArgStr (lit table)]) in
      let? _ := limit t in parse_entries parse t
  end.

Definition unlimited (t : toml_table) : result unit ConfigError := Ok ().

Definition parse_keys : option TomlValue -> result (list (str * VirtualKey)) ConfigError :=
  parse_table "keys" unlimited parse_key.

Definition parse_workspace (workspace_id : str) (value : TomlValue) : result Workspace ConfigError :=
  let? _ := require where_ (valid_policy_id workspace_id)
              (Msg "gateway workspace id must be 1-128 visible ASCII characters" []) in
  let? entry := entry_of "workspaces" workspace_id value in
  let? models := optional_non_empty_string_list where_ (ix_get entry (lit "models"))
                   (field_label "workspaces" workspace_id "models") (lit "a list of model names") in
  let? profile := optional_non_empty_string where_ (ix_get entry (lit "profile"))
                    (field_label "workspaces" workspace_id "profile") in
  let? budget := parse_budget (nested_where "workspaces" workspace_id) (ix_get entry (lit "budget")) in
  let? rate_limit := parse_rate_limit (nested_where "workspaces" workspace_id) (ix_get entry (lit "rate_limit")) in
  Ok {| ws_models := models; ws_profile := profile; ws_budget := budget; ws_rate_limit := rate_limit |}.

Definition parse_workspaces : option TomlValue -> result (list (str * Workspace)) ConfigError :=
  parse_table "workspaces" unlimited parse_workspace.

(** Profiles hold a routing document each, read in turn. *)
Definition parse_profile (from_toml : str -> result TomlValue str) (profile_id : str) (value : TomlValue)
    : result RoutingConfig ConfigError :=
  let? _ := require where_ (valid_policy_id profile_id && negb (str_eqb profile_id (lit "default")))
              (Msg "'gateway.profiles.{profile_id}' must use a non-default 1-128 character visible ASCII id" [ArgStr profile_id]) in
  let? entry := entry_of "profiles" profile_id value in
  match unknown_keys [lit "routing_toml"] entry with
  | (_ :: _) as unknown =>
      fail where_ (Msg "'gateway.profiles.{profile_id}' is routing-only and does not accept {}"
                     [ArgStr profile_id; ArgStr (str_join (lit ", ") unknown)])
  | [] =>
      let? routing_toml := ok_or (ix_get entry (lit "routing_toml") ≫= as_str)
                             (invalid where_ (Msg "'gateway.profiles.{profile_id}.routing_toml' must be a string" [ArgStr profile_id])) in
      let? _ := require where_ (str_len routing_toml <=? MAX_ROUTING_PROFILE_BYTES)
                  (Msg "'gateway.profiles.{profile_id}.routing_toml' exceeds {MAX_ROUTING_PROFILE_BYTES} bytes"
                     [ArgStr profile_id; ArgInt MAX_ROUTING_PROFILE_BYTES]) in
      routing_config_from_toml from_toml routing_toml (nested_where "profiles" profile_id) None StrictInput
  end.

Definition parse_profiles (from_toml : str -> result TomlValue str) : option TomlValue -> result (list (str * RoutingConfig)) ConfigError :=
  parse_table "profiles"
    (fun t => require where_ (len t <=? MAX_ROUTING_PROFILES)
                (Msg "'[gateway.profiles]' may contain at most {MAX_ROUTING_PROFILES} profiles" [ArgInt MAX_ROUTING_PROFILES]))
    (parse_profile from_toml).

(** One more name of a list whose names must differ. *)
Definition see (duplicate : str -> message) (known : str -> result unit ConfigError) (seen : gset str) (name : str)
    : result (gset str) ConfigError :=
  let? _ := require where_ (bool_decide (name ∉ seen)) (duplicate name) in
  let? _ := known name in
  Ok ({[name]} ∪ seen).

Definition parse_route (route_id : str) (value : TomlValue) : result RoutePreset ConfigError :=
  let? _ := require where_ (valid_policy_id route_id)
              (Msg "'gateway.routes.{route_id}' must use a 1-128 character visible ASCII id" [ArgStr route_id]) in
  let? entry := entry_of "routes" route_id value in
  let? models := optional_non_empty_string_list where_ (ix_get entry (lit "models"))
                   (field_label "routes" route_id "models") (lit "a non-empty list of model names") in
  let? _ := require where_ (match models with [] => false | _ => true end)
              (Msg "'gateway.routes.{route_id}.models' must not be empty" [ArgStr route_id]) in
  let? _ := require where_ (len models <=? MAX_ROUTE_PRESET_MODELS)
              (Msg "'gateway.routes.{route_id}.models' may contain at most {MAX_ROUTE_PRESET_MODELS} model names"
                 [ArgStr route_id; ArgInt MAX_ROUTE_PRESET_MODELS]) in
  let? _ := try_fold (see (fun model => Msg "'gateway.routes.{route_id}.models' contains duplicate model '{model}'"
                                          [ArgStr route_id; ArgStr model]) (fun _ => Ok ())) ∅ models in
  Ok {| rp_models := models |}.

Definition parse_routes : option TomlValue -> result (list (str * RoutePreset)) ConfigError :=
  parse_table "routes"
    (fun t => require where_ (len t <=? MAX_ROUTE_PRESETS)
                (Msg "'[gateway.routes]' may contain at most {MAX_ROUTE_PRESETS} named routes" [ArgInt MAX_ROUTE_PRESETS]))
    parse_route.

(** [routes.contains_key(..)]. *)
Definition contains_key {A} (entries : list (str * A)) (id : str) : bool := bool_decide (is_Some (ix_get entries id)).

Definition parse_shadow (routes : list (str * RoutePreset)) (value : option TomlValue) : result ShadowConfig ConfigError :=
  match value with
  | None => Ok default_shadow
  | Some value =>
      let? table := table_of where_ value (Msg "'[gateway.shadow]' must be a table" []) in
      let? enabled := optional_bool where_ (ix_get table (lit "enabled")) false (lit "gateway.shadow.enabled") in
      let? rate := optional_non_negative_number where_ (ix_get table (lit "sample_rate")) DEFAULT_SHADOW_SAMPLE_RATE
                     (lit "gateway.shadow.sample_rate") in
      let? _ := require where_ (negb (f64_gt rate MAX_SHADOW_SAMPLE_RATE))
                  (Msg "'gateway.shadow.sample_rate' must be at most 1" []) in
      let? candidates := optional_non_empty_string_list where_ (ix_get table (lit "candidate_routes"))
                           (lit "gateway.shadow.candidate_routes") (lit "a list of route names") in
      let? _ := require where_ (len candidates <=? MAX_SHADOW_CANDIDATE_ROUTES)
                  (Msg "'gateway.shadow.candidate_routes' may contain at most {MAX_SHADOW_CANDIDATE_ROUTES} routes"
                     [ArgInt MAX_SHADOW_CANDIDATE_ROUTES]) in
      let? _ := try_fold
                  (see (fun route => Msg "'gateway.shadow.candidate_routes' contains duplicate route '{route}'" [ArgStr route])
                     (fun route => require where_ (contains_key routes route)
                        (Msg "'gateway.shadow.candidate_routes' references unknown route '{route}'" [ArgStr route])))
                  ∅ candidates in
      let? max_in_flight := optional_positive_integer where_ (ix_get table (lit "max_in_flight"))
                              DEFAULT_SHADOW_MAX_IN_FLIGHT (lit "gateway.shadow.max_in_flight") in
      let? max_records := optional_positive_integer where_ (ix_get table (lit "max_records")) DEFAULT_SHADOW_MAX_RECORDS
                            (lit "gateway.shadow.max_records") in
      let? comparisons := optional_bool where_ (ix_get table (lit "provider_comparisons")) false
                            (lit "gateway.shadow.provider_comparisons") in
      let? provider_rate := optional_non_negative_number where_ (ix_get table (lit "provider_sample_rate"))
                              DEFAULT_SHADOW_PROVIDER_SAMPLE_RATE (lit "gateway.shadow.provider_sample_rate") in
      let? _ := require where_ (negb (f64_gt provider_rate MAX_SHADOW_SAMPLE_RATE))
                  (Msg "'gateway.shadow.provider_sample_rate' must be at most 1" []) in
      let? requests := optional_non_negative_integer where_ (ix_get table (lit "provider_max_requests"))
                         DEFAULT_SHADOW_PROVIDER_MAX_REQUESTS (lit "gateway.shadow.provider_max_requests") in
      let? window := optional_positive_number where_ (ix_get table (lit "provider_window")) DEFAULT_SHADOW_PROVIDER_WINDOW
                       (lit "gateway.shadow.provider_window") in
      let? _ := require where_ (negb (f64_gt window MAX_SHADOW_PROVIDER_WINDOW))
                  (Msg "'gateway.shadow.provider_window' must be at most {MAX_SHADOW_PROVIDER_WINDOW}"
                     [ArgFloat MAX_SHADOW_PROVIDER_WINDOW]) in
      let? _ := require where_ (negb (enabled && match candidates with [] => true | _ => false end))
                  (Msg "'gateway.shadow.candidate_routes' must not be empty when shadow routing is enabled" []) in
      let? _ := require where_ (negb (comparisons && (f64_le provider_rate f64_zero || (requests =? 0))))
                  (Msg "gateway.shadow.provider_comparisons requires a positive provider_sample_rate and provider_max_requests" []) in
      Ok {| sh_enabled := enabled; sample_rate := rate; candidate_routes := candidates; sh_max_in_flight := max_in_flight;
            max_records := max_records; provider_comparisons := comparisons; provider_sample_rate := provider_rate;
            provider_max_requests := requests; provider_window := window |}
  end.

Definition parse_canary (routes : list (str * RoutePreset)) (value : option TomlValue) : result CanaryConfig ConfigError :=
  match value with
  | None => Ok default_canary
  | Some value =>
      let? table := table_of where_ value (Msg "'[gateway.canary]' must be a table" []) in
      let? enabled := optional_bool where_ (ix_get table (lit "enabled")) false (lit "gateway.canary.enabled") in
      let rollout_id := default (lit "default") (ix_get table (lit "rollout_id") ≫= as_str) in
      let candidate_route := default [] (ix_get table (lit "candidate_route") ≫= as_str) in
      let? fraction := optional_non_negative_number where_ (ix_get table (lit "fraction")) DEFAULT_CANARY_FRACTION
                         (lit "gateway.canary.fraction") in
      let? _ := require where_ (negb (f64_gt fraction MAX_CANARY_FRACTION))
                  (Msg "'gateway.canary.fraction' must be at most 1" []) in
      let? scope := optional_allowed_string where_ (ix_get table (lit "scope")) (lit "request") CANARY_SCOPES
                      (lit "gateway.canary.scope") in
      let? cohort := match ix_get table (lit "cohort") with
                     | None => Ok None
                     | Some value =>
                         let? s := ok_or (opt_filter (fun s => nonempty_str s && valid_policy_id s) (as_str value))
                                     (invalid where_ (Msg "'gateway.canary.cohort' must be a bounded non-empty string" [])) in
                         Ok (Some s)
                     end in
      let? _ := require where_ (nonempty_str rollout_id && valid_policy_id rollout_id)
                  (Msg "'gateway.canary.rollout_id' must be a bounded non-empty string" []) in
      let? _ := require where_ (negb (nonempty_str candidate_route && negb (contains_key routes candidate_route)))
                  (Msg "'gateway.canary.candidate_route' references unknown route '{candidate_route}'" [ArgStr candidate_route]) in
      let? _ := require where_ (negb (enabled && negb (nonempty_str candidate_route)))
                  (Msg "'gateway.canary.candidate_route' must be set when canary rollout is enabled" []) in
      let? _ := require where_ (negb (str_eqb scope (lit "cohort") && negb (bool_decide (is_Some cohort))))
                  (Msg "'gateway.canary.cohort' is required when scope is 'cohort'" []) in
      let? max_requests := optional_positive_integer where_ (ix_get table (lit "max_requests")) DEFAULT_CANARY_MAX_REQUESTS
                             (lit "gateway.canary.max_requests") in
      let? window := optional_positive_number where_ (ix_get table (lit "window")) DEFAULT_CANARY_WINDOW
                       (lit "gateway.canary.window") in
      let? _ := require where_ (negb (f64_gt window MAX_CANARY_WINDOW))
                  (Msg "'gateway.canary.window' must be at most {MAX_CANARY_WINDOW}" [ArgFloat MAX_CANARY_WINDOW]) in
      let? min_samples := optional_positive_integer where_ (ix_get table (lit "min_samples")) DEFAULT_CANARY_MIN_SAMPLES
                            (lit "gateway.canary.min_samples") in
      let? error_rate := optional_non_negative_number where_ (ix_get table (lit "max_error_rate"))
                           DEFAULT_CANARY_MAX_ERROR_RATE (lit "gateway.canary.max_error_rate") in
      let? latency := optional_positive_number where_ (ix_get table (lit "max_latency_ms")) DEFAULT_CANARY_MAX_LATENCY_MS
                        (lit "gateway.canary.max_latency_ms") in
      let? multiplier := optional_positive_number where_ (ix_get table (lit "max_cost_multiplier"))
                           DEFAULT_CANARY_MAX_COST_MULTIPLIER (lit "gateway.canary.max_cost_multiplier") in
      let? quality_loss := optional_non_negative_number where_ (ix_get table (lit "max_quality_loss"))
                             DEFAULT_CANARY_MAX_QUALITY_LOSS (lit "gateway.canary.max_quality_loss") in
      let? hold := optional_positive_number where_ (ix_get table (lit "rollback_hold")) DEFAULT_CANARY_ROLLBACK_HOLD
                     (lit "gateway.canary.rollback_hold") in
      let? _ := require where_ (negb (f64_gt error_rate f64_one || f64_gt quality_loss f64_one))
                  (Msg "canary error-rate and quality-loss tripwires must be at most 1" []) in
      Ok {| cn_enabled := enabled; rollout_id := rollout_id; candidate_route := candidate_route; fraction := fraction;
            cn_scope := scope; cohort := cohort; cn_max_requests := max_requests; cn_window := window;
            min_samples := min_samples; max_error_rate := error_rate; max_latency_ms := latency;
            max_cost_multiplier := multiplier; max_quality_loss := quality_loss; rollback_hold := hold |}
  end.
End Entries.

(** ** Models *)
Definition strategy_parse (value : str) : option DeploymentSelectionStrategy :=
  if str_eqb value (lit "weighted") then Some Weighted
  else if str_eqb value (lit "latency") then Some Latency
  else if str_eqb value (lit "throughput") then Some Throughput
  else if str_eqb value (lit "availability") then Some Availability
  else if str_eqb value (lit "cost") then Some Cost
  else if str_eqb value (lit "capacity") then Some Capacity
  else None.

Section Models.
Context (where_ : str).

Definition parse_provider (name : str) (value : option TomlValue) : result ProviderKind ConfigError :=
  let e := invalid where_ (Msg "'gateway.models.{name}.provider' must be one of openai-compatible, anthropic, apple-foundation-models, codex-app-server" [ArgStr name]) in
  match value with
  | None => Ok OpenAiCompatible
  | Some (TString value) =>
      if str_eqb value (lit "openai-compatible") then Ok OpenAiCompatible
      else if str_eqb value (lit "anthropic") then Ok Anthropic
      else if str_eqb value (lit "apple-foundation-models") then Ok AppleFoundationModels
      else if str_eqb value (lit "codex-app-server") then Ok CodexAppServer
      else Err e
  | Some _ => Err e
  end.

Definition parse_provider_tier (name : str) (value : option TomlValue) : result (option ProviderTier) ConfigError :=
  let e := invalid where_ (Msg "'gateway.models.{name}.tier' must be local" [ArgStr name]) in
  match value with
  | None => Ok None
  | Some (TString value) => if str_eqb value (lit "local") then Ok (Some LocalTier) else Err e
  | Some _ => Err e
  end.

Definition is_some {A} (o : option A) : bool := match o with Some _ => true | None => false end.

(** The fields each provider requires and excludes. *)
Definition check_provider (name : str) (provider : ProviderKind) (base_url : option str) (model : str)
    (tier : option ProviderTier) (api_key_env api_key_cmd : option str) : result unit ConfigError :=
  let check b template := require where_ b (Msg template [ArgStr name]) in
  match provider with
  | OpenAiCompatible =>
      let? _ := check (is_some base_url) "'gateway.models.{name}.base_url' must be a string"%string in
      check (negb (is_some tier)) "'gateway.models.{name}.tier' is only valid for native providers"%string
  | Anthropic =>
      let? _ := check (is_some base_url) "'gateway.models.{name}.base_url' must be a string"%string in
      let? _ := check (is_some api_key_env) "'gateway.models.{name}.api_key_env' is required for anthropic"%string in
      check (negb (is_some tier)) "'gateway.models.{name}.tier' is only valid for native providers"%string
  | AppleFoundationModels =>
      let? _ := check (negb (is_some base_url)) "'gateway.models.{name}.base_url' is not valid for apple-foundation-models"%string in
      let? _ := check (negb (is_some api_key_env || is_some api_key_cmd))
                  "'gateway.models.{name}' cannot configure credentials for apple-foundation-models"%string in
      let? _ := check (str_eqb model (lit "system-default"))
                  "'gateway.models.{name}.model' must be system-default for apple-foundation-models"%string in
      check (is_some tier) "'gateway.models.{name}.tier' must be local for apple-foundation-models"%string
  | CodexAppServer =>
      let? _ := check (negb (is_some base_url)) "'gateway.models.{name}.base_url' is not valid for codex-app-server"%string in
      let? _ := check (negb (is_some api_key_env || is_some api_key_cmd))
                  "'gateway.models.{name}' cannot configure credentials for codex-app-server"%string in
      check (negb (is_some tier)) "'gateway.models.{name}.tier' is not valid for codex-app-server"%string
  end.

Definition is_openai (provider : ProviderKind) : bool := match provider with OpenAiCompatible => true | _ => false end.

(** [{label}.{field}] under [gateway.models.{model_name}.deployments[{index}]]. *)
Record deployment_label := { dl_model : str; dl_index : nat }.
Definition decimal (n : nat) : str := lit (pretty n).
Definition label_text (l : deployment_label) (field : string) : str :=
  lit "gateway.models." ++ dl_model l ++ lit ".deployments[" ++ decimal (dl_index l) ++ lit "]" ++ lit field.

Definition parse_deployment (label : deployment_label) (ids : gset str) (value : TomlValue)
    : result (gset str * GatewayDeployment) ConfigError :=
  let? entry := table_of where_ value (about "'{label}' must be an inline table" (label_text label EmptyString)) in
  let? id := required_non_empty_string where_ (ix_get entry (lit "id")) (label_text label ".id") (lit "a string") in
  let? _ := require where_ (negb (str_eqb id (lit "default") || negb (valid_policy_id id)))
              (about "'{label}.id' must be a non-default visible ASCII identifier" (label_text label EmptyString)) in
  let? _ := require where_ (bool_decide (id ∉ ids)) (about "'{label}.id' is duplicated" (label_text label EmptyString)) in
  let? base_url := required_non_empty_string where_ (ix_get entry (lit "base_url")) (label_text label ".base_url") (lit "a string") in
  let? model := required_non_empty_string where_ (ix_get entry (lit "model")) (label_text label ".model") (lit "a string") in
  let? api_key_env := optional_non_empty_string where_ (ix_get entry (lit "api_key_env")) (label_text label ".api_key_env") in
  let? weight := optional_positive_integer where_ (ix_get entry (lit "weight")) 1 (label_text label ".weight") in
  let? _ := require where_ (weight <=? MAX_MODEL_DEPLOYMENT_WEIGHT)
              (Msg "'{label}.weight' must be at most {MAX_MODEL_DEPLOYMENT_WEIGHT}"
                 [ArgStr (label_text label EmptyString); ArgInt MAX_MODEL_DEPLOYMENT_WEIGHT]) in
  let? cost := optional_non_negative_finite_number where_ (ix_get entry (lit "cost_per_1k")) (label_text label ".cost_per_1k") in
  Ok ({[id]} ∪ ids, {| gd_id := id; gd_base_url := base_url; gd_model := model; gd_api_key_env := api_key_env;
                       gd_weight := weight; gd_cost_per_1k := cost |}).

Definition deployment_step (model_name : str) (state : nat * gset str * list GatewayDeployment) (value : TomlValue)
    : result (nat * gset str * list GatewayDeployment) ConfigError :=
  let '(index, ids, deployments) := state in
  let? '(ids, d) := parse_deployment {| dl_model := model_name; dl_index := index |} ids value in
  Ok (S index, ids, deployments ++ [d]).

Definition parse_deployments (model_name : str) (provider : ProviderKind) (value : option TomlValue)
    : result (list GatewayDeployment) ConfigError :=
  match value with
  | None => Ok []
  | Some value =>
      let? _ := require where_ (is_openai provider)
                  (Msg "'gateway.models.{model_name}.deployments' is only valid for openai-compatible providers" [ArgStr model_name]) in
      let? entries := ok_or (as_array value)
                        (invalid where_ (Msg "'gateway.models.{model_name}.deployments' must be an array" [ArgStr model_name])) in
      let? _ := require where_ (len entries <=? MAX_MODEL_DEPLOYMENTS)
                  (Msg "'gateway.models.{model_name}.deployments' may contain at most {MAX_MODEL_DEPLOYMENTS} entries"
                     [ArgStr model_name; ArgInt MAX_MODEL_DEPLOYMENTS]) in
      let? '(_, _, deployments) := try_fold (deployment_step model_name) (0%nat, ∅, []) entries in
      Ok deployments
  end.

Definition parse_strategy (model_name : str) (value : option TomlValue) : result DeploymentSelectionStrategy ConfigError :=
  match value with
  | None => Ok Weighted
  | Some (TString value) =>
      ok_or (strategy_parse value)
        (invalid where_ (Msg "'gateway.models.{model_name}.deployment_selection.strategy' must be one of {}"
                           [ArgStr model_name; ArgStr (str_join (lit ", ") DEPLOYMENT_SELECTION_STRATEGIES)]))
  | Some _ => fail where_ (Msg "'gateway.models.{model_name}.deployment_selection.strategy' must be a string" [ArgStr model_name])
  end.

Definition parse_deployment_selection (model_name : str) (provider : ProviderKind) (value : option TomlValue)
    : result DeploymentSelectionPolicy ConfigError :=
  match value with
  | None => Ok default_selection
  | Some value =>
      let? _ := require where_ (is_openai provider)
                  (Msg "'gateway.models.{model_name}.deployment_selection' is only valid for openai-compatible providers" [ArgStr model_name]) in
      let? table := table_of where_ value
                      (Msg "'gateway.models.{model_name}.deployment_selection' must be a table" [ArgStr model_name]) in
      let? strategy := parse_strategy model_name (ix_get table (lit "strategy")) in
      let? max_cost := optional_non_negative_finite_number where_ (ix_get table (lit "max_cost_per_1k"))
                         (field_label "models" model_name "deployment_selection.max_cost_per_1k") in
      let? ttl := optional_positive_number where_ (ix_get table (lit "observation_ttl"))
                    DEFAULT_MODEL_DEPLOYMENT_OBSERVATION_TTL
                    (field_label "models" model_name "deployment_selection.observation_ttl") in
      let? _ := require where_ (negb (f64_le ttl f64_zero || f64_gt ttl MAX_MODEL_DEPLOYMENT_OBSERVATION_TTL))
                  (Msg "'gateway.models.{model_name}.deployment_selection.observation_ttl' must be greater than 0 and at most {MAX_MODEL_DEPLOYMENT_OBSERVATION_TTL}"
                     [ArgStr model_name; ArgFloat MAX_MODEL_DEPLOYMENT_OBSERVATION_TTL]) in
      Ok {| strategy := strategy; max_cost_per_1k := max_cost; observation_ttl := ttl |}
  end.

Definition parse_model (name : str) (value : TomlValue) : result GatewayModel ConfigError :=
  let? entry := entry_of where_ "models" name value in
  let? provider := parse_provider name (ix_get entry (lit "provider")) in
  let? tier := parse_provider_tier name (ix_get entry (lit "tier")) in
  let? base_url := optional_non_empty_string where_ (ix_get entry (lit "base_url")) (field_label "models" name "base_url") in
  let? model := required_non_empty_string where_ (ix_get entry (lit "model")) (field_label "models" name "model") (lit "a string") in
  let? api_key_env := optional_non_empty_string where_ (ix_get entry (lit "api_key_env")) (field_label "models" name "api_key_env") in
  let? api_key_cmd := optional_non_empty_string where_ (ix_get entry (lit "api_key_cmd")) (field_label "models" name "api_key_cmd") in
  let? _ := require where_ (negb (is_some api_key_cmd && negb (is_some api_key_env)))
              (Msg "'gateway.models.{name}.api_key_cmd' needs 'api_key_env' to name the variable it fills" [ArgStr name]) in
  let? _ := check_provider name provider base_url model tier api_key_env api_key_cmd in
  let? cost := optional_non_negative_finite_number where_ (ix_get entry (lit "cost_per_1k")) (field_label "models" name "cost_per_1k") in
  let? fallbacks := optional_non_empty_string_list where_ (ix_get entry (lit "fallbacks")) (field_label "models" name "fallbacks")
                      (lit "a list of model names") in
  let? context_window := positive_integer where_ (ix_get entry (lit "context_window")) (field_label "models" name "context_window") in
  let? deployments := parse_deployments name provider (ix_get entry (lit "deployments")) in
  let? selection := parse_deployment_selection name provider (ix_get entry (lit "deployment_selection")) in
  Ok {| gm_provider := provider; gm_base_url := base_url; gm_model := model; gm_tier := tier; gm_api_key_env := api_key_env;
        gm_api_key_cmd := api_key_cmd; gm_cost_per_1k := cost; gm_fallbacks := fallbacks; gm_context_window := context_window;
        gm_deployments := deployments; gm_deployment_selection := selection |}.

Definition parse_models (value : option TomlValue) : result (list (str * GatewayModel)) ConfigError :=
  match value with
  | None => Ok []
  | Some value =>
      if is_python_falsey value then Ok []
      else parse_table where_ "models" unlimited parse_model (Some value)
  end.
End Models.

(** ** Checks across tables *)
Section Checks.
Context (where_ : str).

Definition validate_model_fallbacks (models : list (str * GatewayModel)) : result unit ConfigError :=
  try_fold (fun _ '(name, model) =>
    try_fold (fun _ fallback =>
      let? _ := require where_ (contains_key models fallback)
                  (Msg "'gateway.models.{name}.fallbacks' names unknown model '{fallback}'" [ArgStr name; ArgStr fallback]) in
      require where_ (negb (str_eqb fallback name))
        (Msg "'gateway.models.{name}.fallbacks' cannot include itself" [ArgStr name])) () (gm_fallbacks model)) () models.

(** Every model an entry names is configured. *)
Definition check_models (models : list (str * GatewayModel)) (template : string) (id : str) (names : list str)
    : result unit ConfigError :=
  try_fold (fun _ model => require where_ (contains_key models model) (Msg template [ArgStr id; ArgStr model])) () names.

Definition validate_workspace_models (workspaces : list (str * Workspace)) (models : list (str * GatewayModel))
    : result unit ConfigError :=
  try_fold (fun _ '(workspace_id, workspace) =>
    check_models models "'gateway.workspaces.{workspace_id}.models' names unknown model '{model}'" workspace_id
      (ws_models workspace)) () workspaces.

Definition validate_workspace_profiles (workspaces : list (str * Workspace)) (profiles : list (str * RoutingConfig))
    : result unit ConfigError :=
  try_fold (fun _ '(workspace_id, workspace) =>
    match ws_profile workspace with
    | None => Ok ()
    | Some profile =>
        require where_ (contains_key profiles profile)
          (Msg "'gateway.workspaces.{workspace_id}.profile' names unknown profile '{profile}'" [ArgStr workspace_id; ArgStr profile])
    end) () workspaces.

Definition validate_route_presets (routes : list (str * RoutePreset)) (models : list (str * GatewayModel))
    : result unit ConfigError :=
  try_fold (fun _ '(route_id, route) =>
    check_models models "'gateway.routes.{route_id}.models' names unknown model '{model}'" route_id (rp_models route)) () routes.

Definition validate_key (workspaces : list (str * Workspace)) (models : list (str * GatewayModel)) (key_id : str)
    (key : VirtualKey) : result unit ConfigError :=
  let? workspace := match vk_workspace key with
                    | None => Ok None
                    | Some workspace_id =>
                        let? w := ok_or (ix_get workspaces workspace_id)
                                    (invalid where_ (Msg "'gateway.keys.{key_id}.workspace' names unknown workspace '{workspace_id}'"
                                                       [ArgStr key_id; ArgStr workspace_id])) in
                        Ok (Some w)
                    end in
  try_fold (fun _ model =>
    let? _ := require where_ (contains_key models model)
                (Msg "'gateway.keys.{key_id}.models' names unknown model '{model}'" [ArgStr key_id; ArgStr model]) in
    match workspace with
    | None => Ok ()
    | Some workspace =>
        require where_ (match ws_models workspace with [] => true | allowed => bool_decide (model ∈ allowed) end)
          (Msg "'gateway.keys.{key_id}.models' cannot broaden its workspace model policy with '{model}'" [ArgStr key_id; ArgStr model])
    end) () (vk_models key).

Definition validate_keys (keys : list (str * VirtualKey)) (workspaces : list (str * Workspace))
    (models : list (str * GatewayModel)) : result unit ConfigError :=
  try_fold (fun _ '(key_id, key) => validate_key workspaces models key_id key) () keys.
End Checks.

(** ** The document *)
Definition gateway_config_from_toml (from_toml : str -> result TomlValue str) (text where_ : str)
    : result GatewayConfig ConfigError :=
  let? root := read_toml from_toml text where_ in
  let? root := table_of where_ root (Msg "document root must be a table" []) in
  match ix_get root (lit "gateway") with
  | None => Ok default_config
  | Some raw_gateway =>
      let? g := table_of where_ raw_gateway (Msg "'[gateway]' must be a table" []) in
      let? route_on := optional_allowed_string where_ (ix_get g (lit "route_on")) (lit "turn") ROUTE_ON_SCOPES
                         (lit "gateway.route_on") in
      let? sticky := optional_bool where_ (ix_get g (lit "sticky")) false (lit "gateway.sticky") in
      let? sticky_cooldown := optional_non_negative_integer where_ (ix_get g (lit "sticky_cooldown")) 0
                                (lit "gateway.sticky_cooldown") in
      let? slash_directives := optional_bool where_ (ix_get g (lit "slash_directives")) false
                                 (lit "gateway.slash_directives") in
      let? offline := optional_bool where_ (ix_get g (lit "offline")) false (lit "gateway.offline") in
      let? retries := optional_non_negative_integer where_ (ix_get g (lit "retries")) 2 (lit "gateway.retries") in
      let? breaker_threshold := optional_positive_integer where_ (ix_get g (lit "breaker_threshold")) 5
                                  (lit "gateway.breaker_threshold") in
      let? breaker_cooldown := optional_non_negative_number where_ (ix_get g (lit "breaker_cooldown")) (f64_of_Z 30)
                                 (lit "gateway.breaker_cooldown") in
      let? failover := optional_allowed_string where_ (ix_get g (lit "failover")) (lit "same-tier") FAILOVER_POLICIES
                         (lit "gateway.failover") in
      let? budget := parse_budget where_ (ix_get g (lit "budget")) in
      let? cache := parse_cache where_ (ix_get g (lit "cache")) in
      let? rate_limit := parse_rate_limit where_ (ix_get g (lit "rate_limit")) in
      let? concurrency := parse_concurrency where_ (ix_get g (lit "concurrency")) in
      let? state := parse_state where_ (ix_get g (lit "state")) in
      let? _ := require where_ (negb (match cache with Some c => str_eqb (cc_backend c) (lit "redis") | None => false end
                                      && negb (str_eqb (sc_backend state) (lit "redis"))))
                  (Msg "'gateway.cache.backend' = 'redis' requires 'gateway.state.backend' = 'redis'" []) in
      let? auth := parse_auth where_ (ix_get g (lit "auth")) in
      let? workspaces := parse_workspaces where_ (ix_get g (lit "workspaces")) in
      let? profiles := parse_profiles where_ from_toml (ix_get g (lit "profiles")) in
      let? keys := parse_keys where_ (ix_get g (lit "keys")) in
      let? models := parse_models where_ (ix_get g (lit "models")) in
      let? routes := parse_routes where_ (ix_get g (lit "routes")) in
      let? shadow := parse_shadow where_ routes (ix_get g (lit "shadow")) in
      let? canary := parse_canary where_ routes (ix_get g (lit "canary")) in
      let? _ := validate_model_fallbacks where_ models in
      let? _ := validate_workspace_models where_ workspaces models in
      let? _ := validate_workspace_profiles where_ workspaces profiles in
      let? _ := validate_route_presets where_ routes models in
      let? _ := validate_keys where_ keys workspaces models in
      Ok {| allow_unauthenticated_default := false; gc_models := models; gc_route_on := route_on; gc_sticky := sticky;
            gc_sticky_cooldown := sticky_cooldown; gc_slash_directives := slash_directives; gc_offline := offline;
            gc_retries := retries; gc_breaker_threshold := breaker_threshold; gc_breaker_cooldown := breaker_cooldown;
            gc_failover := failover; gc_budget := budget; gc_cache := cache; gc_rate_limit := rate_limit;
            gc_concurrency := concurrency; gc_state := state; gc_auth := auth; gc_shadow := shadow; gc_canary := canary;
            workspaces := workspaces; gc_profiles := profiles; gc_routes := routes; keys := keys |}
  end.
