(* ===== verification/GatewayValid.v ===== *)
(** * What a parsed gateway configuration is

    The well-formedness of each part of a [GatewayConfig], as the parser
    promises it to the policies built from it, and the theorem that every
    configuration the parser returns has it. *)
From S2P Require Export GatewayParse.

(** A number that a bound admits. *)
Definition at_most (x bound : f64) : Prop := f64_gt x bound = false.

Record valid_budget (b : Budget) : Prop := {
  vb_limit : finite_pos (b_limit b);
  vb_window : b_window b ∈ BUDGET_WINDOWS;
  vb_breach : on_breach b ∈ BUDGET_BREACH_ACTIONS;
}.

Record valid_cache (c : CacheConfig) : Prop := {
  vc_backend : cc_backend c ∈ CACHE_BACKENDS;
  vc_ttl : finite_nonneg (cc_ttl c);
  vc_entries : positive_u64 (cc_max_entries c);
  vc_bytes : positive_u64 (cc_max_bytes c);
}.

Record valid_rate_limit (r : RateLimit) : Prop := {
  vrl_some : is_Some (rl_rpm r) \/ is_Some (rl_tpm r);
  vrl_rpm : opt_all positive_u64 (rl_rpm r);
  vrl_tpm : opt_all positive_u64 (rl_tpm r);
  vrl_window : finite_pos (rl_window r);
}.

Record valid_concurrency (c : ConcurrencyConfig) : Prop := {
  vco_in_flight : positive_u64 (max_in_flight c);
  vco_queued : is_u64 (max_queued c);
  vco_timeout : finite_pos (queue_timeout c);
}.

Record valid_state (s : StateConfig) : Prop := {
  vst_backend : sc_backend s ∈ STATE_BACKENDS;
  vst_url : sc_backend s = lit "redis" <-> is_Some (sc_url s);
  vst_nonempty : opt_all filled (sc_url s);
  vst_namespace : valid_policy_id (sc_namespace s) = true;
}.

Record valid_auth (a : GatewayAuthConfig) : Prop := {
  vau_mode : mode a ∈ OPERATOR_AUTH_MODES;
  vau_oidc : mode a = lit "oidc" \/ mode a = lit "both" -> is_Some (issuer a) /\ is_Some (audience a) /\ is_Some (jwks_url a);
  vau_nonempty : opt_all filled (issuer a) /\ opt_all filled (audience a) /\ opt_all filled (jwks_url a);
  vau_claim : valid_policy_id (admin_claim a) = true;
}.

Record valid_key (k : VirtualKey) : Prop := {
  vk_digest : is_sha256_hex (vk_hash k) = true /\ to_ascii_lowercase (vk_hash k) = vk_hash k;
  vk_strings : Forall filled (vk_tags k) /\ Forall filled (vk_models k) /\ opt_all filled (vk_workspace k);
  vk_policies : opt_all valid_budget (vk_budget k) /\ opt_all valid_rate_limit (vk_rate_limit k);
}.

Record valid_workspace (w : Workspace) : Prop := {
  vw_strings : Forall filled (ws_models w) /\ opt_all filled (ws_profile w);
  vw_policies : opt_all valid_budget (ws_budget w) /\ opt_all valid_rate_limit (ws_rate_limit w);
}.

Record valid_route (r : RoutePreset) : Prop := {
  vro_models : rp_models r <> [] /\ len (rp_models r) <= MAX_ROUTE_PRESET_MODELS;
  vro_names : NoDup (rp_models r) /\ Forall filled (rp_models r);
}.

Record valid_shadow (routes : list (str * RoutePreset)) (s : ShadowConfig) : Prop := {
  vsh_rates : finite_nonneg (sample_rate s) /\ at_most (sample_rate s) f64_one /\
              finite_nonneg (provider_sample_rate s) /\ at_most (provider_sample_rate s) f64_one;
  vsh_routes : NoDup (candidate_routes s) /\ (forall r, r ∈ candidate_routes s -> is_Some (ix_get routes r)) /\
               len (candidate_routes s) <= MAX_SHADOW_CANDIDATE_ROUTES;
  vsh_counts : positive_u64 (sh_max_in_flight s) /\ positive_u64 (max_records s) /\ is_u64 (provider_max_requests s);
  vsh_window : finite_pos (provider_window s) /\ at_most (provider_window s) MAX_SHADOW_PROVIDER_WINDOW;
  vsh_enabled : sh_enabled s = true -> candidate_routes s <> [];
  vsh_provider : provider_comparisons s = true -> finite_pos (provider_sample_rate s) /\ 0 < provider_max_requests s;
}.

Record valid_canary (routes : list (str * RoutePreset)) (c : CanaryConfig) : Prop := {
  vcn_fraction : finite_nonneg (fraction c) /\ at_most (fraction c) f64_one;
  vcn_scope : cn_scope c ∈ CANARY_SCOPES;
  vcn_ids : valid_policy_id (rollout_id c) = true /\ opt_all (fun s => valid_policy_id s = true) (cohort c);
  vcn_cohort : cn_scope c = lit "cohort" -> is_Some (cohort c);
  vcn_route : candidate_route c <> [] -> is_Some (ix_get routes (candidate_route c));
  vcn_enabled : cn_enabled c = true -> candidate_route c <> [];
  vcn_counts : positive_u64 (cn_max_requests c) /\ positive_u64 (min_samples c);
  vcn_window : finite_pos (cn_window c) /\ at_most (cn_window c) MAX_CANARY_WINDOW;
  vcn_tripwires : finite_nonneg (max_error_rate c) /\ at_most (max_error_rate c) f64_one /\
                  finite_nonneg (max_quality_loss c) /\ at_most (max_quality_loss c) f64_one /\
                  finite_pos (max_latency_ms c) /\ finite_pos (max_cost_multiplier c) /\ finite_pos (rollback_hold c);
}.

Record valid_deployment (d : GatewayDeployment) : Prop := {
  vd_id : valid_policy_id (gd_id d) = true /\ gd_id d <> lit "default";
  vd_strings : filled (gd_base_url d) /\ filled (gd_model d) /\ opt_all filled (gd_api_key_env d);
  vd_weight : 1 <= gd_weight d <= MAX_MODEL_DEPLOYMENT_WEIGHT;
  vd_cost : opt_all finite_nonneg (gd_cost_per_1k d);
}.

(** Which fields a provider has. *)
Definition provider_fields (m : GatewayModel) : Prop :=
  match gm_provider m with
  | OpenAiCompatible => is_Some (gm_base_url m) /\ gm_tier m = None
  | Anthropic => is_Some (gm_base_url m) /\ is_Some (gm_api_key_env m) /\ gm_tier m = None /\
                 gm_deployments m = [] /\ gm_deployment_selection m = default_selection
  | AppleFoundationModels =>
      gm_base_url m = None /\ gm_api_key_env m = None /\ gm_api_key_cmd m = None /\ gm_tier m = Some LocalTier /\
      gm_model m = lit "system-default" /\ gm_deployments m = [] /\ gm_deployment_selection m = default_selection
  | CodexAppServer =>
      gm_base_url m = None /\ gm_api_key_env m = None /\ gm_api_key_cmd m = None /\ gm_tier m = None /\
      gm_deployments m = [] /\ gm_deployment_selection m = default_selection
  end.

Record valid_model (m : GatewayModel) : Prop := {
  vm_provider : provider_fields m;
  vm_strings : filled (gm_model m) /\ opt_all filled (gm_base_url m) /\ opt_all filled (gm_api_key_env m) /\
               opt_all filled (gm_api_key_cmd m) /\ Forall filled (gm_fallbacks m);
  vm_command : is_Some (gm_api_key_cmd m) -> is_Some (gm_api_key_env m);
  vm_numbers : opt_all finite_nonneg (gm_cost_per_1k m) /\ opt_all positive_u64 (gm_context_window m);
  vm_deployments : Forall valid_deployment (gm_deployments m) /\ NoDup (map gd_id (gm_deployments m)) /\
                   len (gm_deployments m) <= MAX_MODEL_DEPLOYMENTS;
  vm_selection : opt_all finite_nonneg (max_cost_per_1k (gm_deployment_selection m)) /\
                 finite_pos (observation_ttl (gm_deployment_selection m)) /\
                 at_most (observation_ttl (gm_deployment_selection m)) MAX_MODEL_DEPLOYMENT_OBSERVATION_TTL;
}.

(** What one table says about another. *)
Record references_resolve (c : GatewayConfig) : Prop := {
  ref_fallbacks : forall name m f, (name, m) ∈ gc_models c -> f ∈ gm_fallbacks m ->
    is_Some (ix_get (gc_models c) f) /\ f <> name;
  ref_workspaces : forall id w, (id, w) ∈ workspaces c ->
    (forall m, m ∈ ws_models w -> is_Some (ix_get (gc_models c) m)) /\
    opt_all (fun p => is_Some (ix_get (gc_profiles c) p)) (ws_profile w);
  ref_routes : forall id r m, (id, r) ∈ gc_routes c -> m ∈ rp_models r -> is_Some (ix_get (gc_models c) m);
  ref_keys : forall id k, (id, k) ∈ keys c ->
    (forall m, m ∈ vk_models k -> is_Some (ix_get (gc_models c) m)) /\
    opt_all (fun w => exists workspace, ix_get (workspaces c) w = Some workspace /\
      (ws_models workspace <> [] -> forall m, m ∈ vk_models k -> m ∈ ws_models workspace)) (vk_workspace k);
}.

Definition valid_entries {A} (P : str * A -> Prop) (l : list (str * A)) : Prop := NoDup (ix_keys l) /\ Forall P l.

Record valid_config (c : GatewayConfig) : Prop := {
  vg_default : allow_unauthenticated_default c = false;
  vg_strings : gc_route_on c ∈ ROUTE_ON_SCOPES /\ gc_failover c ∈ FAILOVER_POLICIES;
  vg_numbers : is_u64 (gc_sticky_cooldown c) /\ is_u64 (gc_retries c) /\ positive_u64 (gc_breaker_threshold c) /\
               finite_nonneg (gc_breaker_cooldown c);
  vg_policies : opt_all valid_budget (gc_budget c) /\ opt_all valid_cache (gc_cache c) /\
                opt_all valid_rate_limit (gc_rate_limit c) /\ valid_concurrency (gc_concurrency c);
  vg_state : valid_state (gc_state c) /\
             opt_all (fun cache => cc_backend cache = lit "redis" -> sc_backend (gc_state c) = lit "redis") (gc_cache c);
  vg_auth : valid_auth (gc_auth c);
  vg_workspaces : valid_entries (fun kw => valid_policy_id kw.1 = true /\ valid_workspace kw.2) (workspaces c);
  vg_profiles : valid_entries (fun kp => valid_policy_id kp.1 = true /\ kp.1 <> lit "default" /\ valid_routing kp.2) (gc_profiles c) /\
                len (gc_profiles c) <= MAX_ROUTING_PROFILES;
  vg_keys : valid_entries (fun kk => valid_key kk.2) (keys c);
  vg_models : valid_entries (fun km => valid_model km.2) (gc_models c);
  vg_routes : valid_entries (fun kr => valid_policy_id kr.1 = true /\ valid_route kr.2) (gc_routes c) /\
              len (gc_routes c) <= MAX_ROUTE_PRESETS;
  vg_shadow : valid_shadow (gc_routes c) (gc_shadow c);
  vg_canary : valid_canary (gc_routes c) (gc_canary c);
  vg_references : references_resolve c;
}.

(** ** The parts *)

(** Opens a chain of [let?] that ended in [Ok], keeping each reader's equation. *)
Ltac inv_parse H :=
  repeat match type of H with
  | result_bind _ _ = Ok _ =>
      let x := fresh "x" in let Hx := fresh "Hx" in apply result_bind_ok in H as (x & Hx & H); cbv beta in H
  end.

Lemma require_ok where_ b m u : require where_ b m = Ok u <-> b = true.
Proof. unfold require, fail. destruct u, b; [done|done]. Qed.

(** The checks on the way, as facts. *)
Ltac checks :=
  repeat match goal with H : require _ _ _ = Ok _ |- _ => apply require_ok in H end;
  repeat match goal with
  | H : negb _ = true |- _ => apply negb_true_iff in H
  | H : negb _ = false |- _ => apply negb_false_iff in H
  | H : _ && _ = true |- _ => apply andb_true_iff in H as [? ?]
  | H : _ || _ = false |- _ => apply orb_false_iff in H as [? ?]
  end.

(** A fact about a constant, by evaluation. *)
Ltac constant n := tryif first [is_var n | has_evar n] then fail else idtac.

#[export] Hint Extern 1 (lit _ ∈ ?l) => constant l; apply (bool_decide_unpack _); vm_compute; exact I : toml.
#[export] Hint Extern 1 (finite_pos ?x) => constant x; split; vm_compute; reflexivity : toml.
#[export] Hint Extern 1 (finite_nonneg ?x) => constant x; split; vm_compute; reflexivity : toml.
#[export] Hint Extern 1 (positive_u64 ?n) => constant n; split; [reflexivity|split; vm_compute; discriminate] : toml.
#[export] Hint Extern 1 (is_u64 ?n) => constant n; split; vm_compute; discriminate : toml.

Section Parts.
Context (where_ : str).

Lemma ix_get_table table k : wf_toml (TTable table) -> wf_opt (ix_get table k).
Proof. apply wf_opt_get. Qed.

Lemma table_of_ok v m t : table_of where_ v m = Ok t -> v = TTable t.
Proof. intros H%ok_or_ok. destruct v; try done. by injection H as ->. Qed.

Lemma parse_budget_ok value b : parse_budget where_ value = Ok b -> opt_all valid_budget b.
Proof.
  destruct value as [v|]; cbn [parse_budget]; [|by intros [= <-]]. intros H. inv_parse H. injection H as <-. cbn.
  apply ok_or_ok, opt_filter_some in Hx0 as [Hl Hp]. destruct (ix_get x (lit "limit")) as [l|]; [|done].
  cbn [mbind option_bind] in Hl. apply finite_number_finite in Hl. constructor; cbn; [by split|eauto with toml|eauto with toml].
Qed.

Lemma parse_cache_ok value c : parse_cache where_ value = Ok c -> wf_opt value -> opt_all valid_cache c.
Proof.
  destruct value as [v|]; cbn [parse_cache]; [|by intros [= <-]]. intros H Hv. inv_parse H. injection H as <-. cbn.
  apply table_of_ok in Hx as ->. constructor; cbn; eauto with toml.
Qed.

Lemma parse_rate_limit_ok value r : parse_rate_limit where_ value = Ok r -> wf_opt value -> opt_all valid_rate_limit r.
Proof.
  destruct value as [v|]; cbn [parse_rate_limit]; [|by intros [= <-]]. intros H Hv. inv_parse H.
  apply table_of_ok in Hx as ->.
  assert (opt_all positive_u64 x0) by eauto with toml. assert (opt_all positive_u64 x1) by eauto with toml.
  destruct x0, x1; try done; inv_parse H; injection H as <-; constructor; cbn; eauto with toml.
Qed.

Lemma parse_concurrency_ok value c : parse_concurrency where_ value = Ok c -> wf_opt value -> valid_concurrency c.
Proof.
  destruct value as [v|]; cbn [parse_concurrency]; [|intros [= <-] _; constructor; auto with toml].
  intros H Hv. inv_parse H. injection H as <-. apply table_of_ok in Hx as ->. constructor; cbn; eauto with toml.
Qed.
End Parts.

#[export] Hint Resolve parse_budget_ok parse_cache_ok parse_rate_limit_ok parse_concurrency_ok : toml.

Lemma bool_decide_some {A} (o : option A) : bool_decide (is_Some o) = true <-> is_Some o.
Proof. apply bool_decide_eq_true. Qed.

Lemma opt_default_nonempty o d : opt_all filled o -> filled d -> filled (default d o).
Proof. by destruct o. Qed.

Section MoreParts.
Context (where_ : str).

Lemma parse_state_ok value s : parse_state where_ value = Ok s -> valid_state s.
Proof.
  destruct value as [v|]; cbn [parse_state].
  2: { intros [= <-]. constructor; [change (lit "memory" ∈ STATE_BACKENDS); auto with toml| |done|reflexivity].
       split; [intros H; exfalso; vm_compute in H; discriminate|by intros [? ?]]. }
  intros H. inv_parse H. injection H as <-. checks.
  assert (opt_all filled x1) as Hu by eauto with toml. assert (x0 ∈ STATE_BACKENDS) as Hb by eauto with toml.
  constructor; cbn [sc_backend sc_url sc_namespace]; [done| |done|done].
  unfold STATE_BACKENDS in Hb. apply elem_of_cons in Hb as [-> |[-> |[]%elem_of_nil]%elem_of_cons].
  - replace (str_eqb (lit "memory") (lit "memory")) with true in * by reflexivity.
    destruct x1; [discriminate|]. split; [intros H; vm_compute in H; discriminate|by intros [? ?]].
  - replace (str_eqb (lit "redis") (lit "redis")) with true in * by reflexivity. destruct x1; [|discriminate]. by split.
Qed.

Lemma parse_auth_ok value a : parse_auth where_ value = Ok a -> valid_auth a.
Proof.
  destruct value as [v|]; cbn [parse_auth].
  2: { intros [= <-]. constructor; [change (lit "vkeys" ∈ OPERATOR_AUTH_MODES); auto with toml| |done|reflexivity].
       intros [H|H]; vm_compute in H; discriminate. }
  intros H. inv_parse H. injection H as <-. checks.
  constructor; cbn [mode issuer audience jwks_url admin_claim]; [eauto with toml| |split_and!; eauto with toml|done].
  intros Hm. assert (str_eqb x0 (lit "oidc") || str_eqb x0 (lit "both") = true) as Hmode.
  { destruct Hm as [-> | ->]; reflexivity. }
  rewrite Hmode in *. cbn [andb negb] in *. checks. by rewrite !bool_decide_some in *.
Qed.

Lemma parse_workspace_ok id value w :
  parse_workspace where_ id value = Ok w -> wf_toml value -> valid_policy_id id = true /\ valid_workspace w.
Proof.
  unfold parse_workspace. intros H Hv. inv_parse H. injection H as <-. checks. split; [done|].
  unfold entry_of in *. match goal with H : table_of _ _ _ = Ok _ |- _ => apply table_of_ok in H as -> end.
  constructor; cbn; split; eauto with toml.
Qed.
End MoreParts.

Lemma sha256_hex_chars s :
  is_sha256_hex s = true <-> len s = 64 /\ Forall (fun c => is_ascii_hexdigit c = true) s.
Proof.
  assert (forall l, Forall (fun c => is_ascii_hexdigit c = true) l -> Forall (fun c => c < 128) l) as Hascii.
  { intros l Hl. eapply Forall_impl; [exact Hl|]. intros c Hc. unfold is_ascii_hexdigit in Hc.
    rewrite !orb_true_iff, !andb_true_iff, !Z.leb_le in Hc. lia. }
  unfold is_sha256_hex. rewrite str_len_bytes, andb_true_iff, Z.eqb_eq. split.
  - intros [Hl Hf%forallb_Forall]. pose proof (as_bytes_ascii s (as_bytes_ascii_inv s (Hascii _ Hf))) as Hb.
    by rewrite Hb in *.
  - intros [Hl Hf]. rewrite (as_bytes_ascii s (Hascii _ Hf)). split; [done|]. apply forallb_forall.
    rewrite Forall_forall in Hf. intros c Hc. apply Hf. by apply list_elem_of_In.
Qed.

Lemma lowercase_hexdigit c : is_ascii_hexdigit c = true -> is_ascii_hexdigit (char_to_ascii_lowercase c) = true.
Proof.
  unfold is_ascii_hexdigit, char_to_ascii_lowercase. rewrite !orb_true_iff, !andb_true_iff, !Z.leb_le.
  destruct ((65 <=? c) && (c <=? 90)) eqn:E; zify_bools; lia.
Qed.

Lemma lowercase_idem c : char_to_ascii_lowercase (char_to_ascii_lowercase c) = char_to_ascii_lowercase c.
Proof.
  unfold char_to_ascii_lowercase. destruct ((65 <=? c) && (c <=? 90)) eqn:E; [|by rewrite E]. zify_bools.
  destruct ((65 <=? c + 32) && (c + 32 <=? 90)) eqn:E'; [zify_bools; lia|done].
Qed.

Lemma lowercase_digest s :
  is_sha256_hex s = true ->
  is_sha256_hex (to_ascii_lowercase s) = true /\ to_ascii_lowercase (to_ascii_lowercase s) = to_ascii_lowercase s.
Proof.
  intros [Hl Hf]%sha256_hex_chars. unfold to_ascii_lowercase. split.
  - apply sha256_hex_chars. split; [unfold len in *; by rewrite length_map|]. apply Forall_fmap. eapply Forall_impl; [exact Hf|].
    intros c Hc. by apply lowercase_hexdigit.
  - rewrite map_map. apply map_ext. apply lowercase_idem.
Qed.

Section Tables.
Context (where_ : str).

Lemma parse_key_ok id value k : parse_key where_ id value = Ok k -> wf_toml value -> valid_key k.
Proof.
  unfold parse_key. intros H Hv. inv_parse H. injection H as <-. apply table_of_ok in Hx as ->.
  apply ok_or_ok, opt_filter_some in Hx0 as [_ Hd]. apply lowercase_digest in Hd.
  constructor; cbn; [done| |split; eauto with toml]. split_and!; eauto with toml.
  destruct (ix_get x (lit "workspace")) as [w|]; [|by injection Hx2 as <-].
  apply result_bind_ok in Hx2 as (s & [_ Hs]%ok_or_ok%opt_filter_some & [= <-]). by apply nonempty_str_spec in Hs.
Qed.

Lemma parse_profile_ok from_toml id value c :
  parse_profile where_ from_toml id value = Ok c -> valid_policy_id id = true /\ id <> lit "default" /\ valid_routing c.
Proof.
  unfold parse_profile. intros H. inv_parse H. destruct (unknown_keys _ x0); [|done]. inv_parse H. checks.
  split; [done|]. split; [by apply str_eqb_neq|]. by eapply routing_config_from_toml_ok.
Qed.

Lemma see_fold duplicate known seen names r :
  try_fold (see where_ duplicate known) seen names = Ok r ->
  NoDup names /\ (forall n, n ∈ names -> n ∉ seen /\ known n = Ok ()).
Proof.
  revert seen. induction names as [|n names IH]; intros seen; cbn [try_fold]; [split; [constructor|set_solver]|].
  intros (s & Hs & H)%result_bind_ok. unfold see in Hs. inv_parse Hs. injection Hs as <-. checks.
  apply bool_decide_eq_true in Hx. apply IH in H as [Hn Hk]. destruct x0. split.
  - constructor; [|done]. intros Hin. destruct (Hk n Hin) as [Hns _]. set_solver.
  - intros m [-> | Hm]%elem_of_cons; [done|]. destruct (Hk m Hm). set_solver.
Qed.

Lemma parse_route_ok id value r : parse_route where_ id value = Ok r -> valid_policy_id id = true /\ valid_route r.
Proof.
  unfold parse_route. intros H. inv_parse H. injection H as <-. checks. split; [done|]. zify_bools.
  constructor; cbn [rp_models]; [split; [by destruct x1|done]|].
  match goal with H : try_fold _ _ _ = Ok _ |- _ => apply see_fold in H as [? _] end. split; eauto with toml.
Qed.

Lemma f64_gt_at_most x b : f64_gt x b = false -> at_most x b.
Proof. done. Qed.

Lemma contains_key_some {A} (l : list (str * A)) k : contains_key l k = true <-> is_Some (ix_get l k).
Proof. apply bool_decide_eq_true. Qed.

Lemma default_shadow_ok routes : valid_shadow routes default_shadow.
Proof.
  constructor; cbn [default_shadow sample_rate provider_sample_rate candidate_routes sh_max_in_flight max_records
    provider_max_requests provider_window sh_enabled provider_comparisons].
  - split_and!; [by split|done|by split|done].
  - split_and!; [constructor|set_solver|vm_compute; discriminate].
  - split_and!; auto with toml.
  - split; [by split|done].
  - done.
  - done.
Qed.

Lemma parse_shadow_ok routes value s : parse_shadow where_ routes value = Ok s -> wf_opt value -> valid_shadow routes s.
Proof.
  destruct value as [v|]; cbn [parse_shadow]; [|intros [= <-] _; apply default_shadow_ok]. intros H Hv. inv_parse H.
  injection H as <-. apply table_of_ok in Hx as ->. checks.
  match goal with H : try_fold _ _ _ = Ok _ |- _ => apply see_fold in H as [Hnd Hknown] end. zify_bools.
  assert (finite_nonneg x9) as [Hf9 Hn9] by eauto with toml. assert (is_u64 x11) as Hu by eauto with toml.
  constructor; cbn [sample_rate provider_sample_rate candidate_routes sh_max_in_flight max_records
    provider_max_requests provider_window sh_enabled provider_comparisons].
  - split_and!; [eauto with toml|done|done|done].
  - split_and!; [done| |done]. intros r Hr. destruct (Hknown r Hr) as [_ Hk%require_ok]. by apply contains_key_some.
  - split_and!; eauto with toml.
  - split; [eauto with toml|done].
  - intros ->. by destruct x3.
  - intros ->. cbn [andb] in Hx15. apply orb_false_iff in Hx15 as [Hp Hz]. zify_bools. split; [|u64].
    split; [done|]. apply f64_not_le_gt; [by apply f64_finite_not_nan|done|done].
Qed.

Lemma default_canary_ok routes : valid_canary routes default_canary.
Proof.
  constructor; cbn [default_canary fraction cn_scope rollout_id cohort candidate_route cn_enabled cn_max_requests
    min_samples cn_window max_error_rate max_quality_loss max_latency_ms max_cost_multiplier rollback_hold].
  - split; [by split|done].
  - auto with toml.
  - by split.
  - intros H. vm_compute in H. discriminate.
  - done.
  - done.
  - split; auto with toml.
  - split; [by split|done].
  - split_and!; try done; by split.
Qed.

Lemma parse_canary_ok routes value c : parse_canary where_ routes value = Ok c -> wf_opt value -> valid_canary routes c.
Proof.
  destruct value as [v|]; cbn [parse_canary]; [|intros [= <-] _; apply default_canary_ok]. intros H Hv. inv_parse H.
  injection H as <-. apply table_of_ok in Hx as ->. checks.
  set (route := default [] _) in *. set (rollout := default _ _) in *.
  match goal with H : nonempty_str route && _ = false |- _ => rename H into Hroute end.
  match goal with H : _ && negb (nonempty_str route) = false |- _ => rename H into Henabled end.
  match goal with H : str_eqb _ (lit "cohort") && _ = false |- _ => rename H into Hcohort end.
  match goal with H : match ix_get x (lit "cohort") with _ => _ end = Ok ?o |- _ =>
    assert (opt_all (fun s => valid_policy_id s = true) o) as Hco end.
  { destruct (ix_get x (lit "cohort")) as [w|]; [|by injection Hx4 as <-].
    apply result_bind_ok in Hx4 as (s & [_ Hs]%ok_or_ok%opt_filter_some & [= <-]). by apply andb_true_iff in Hs as [_ ?]. }
  constructor; cbn [fraction cn_scope rollout_id cohort candidate_route cn_enabled cn_max_requests
    min_samples cn_window max_error_rate max_quality_loss max_latency_ms max_cost_multiplier rollback_hold].
  - split; [eauto with toml|done].
  - eauto with toml.
  - by split.
  - intros ->. destruct x4; [done|]. discriminate.
  - intros Hr%nonempty_str_spec. rewrite Hr in Hroute. cbn [andb] in Hroute. apply negb_false_iff in Hroute.
    by apply contains_key_some.
  - intros ->. cbn [andb] in Henabled. apply negb_false_iff in Henabled. by apply nonempty_str_spec.
  - split; eauto with toml.
  - split; [eauto with toml|done].
  - split_and!; eauto with toml.
Qed.
End Tables.

Section ModelParts.
Context (where_ : str).

Lemma parse_deployment_ok label ids value ids' d :
  parse_deployment where_ label ids value = Ok (ids', d) -> wf_toml value ->
  valid_deployment d /\ gd_id d ∉ ids /\ ids' = {[gd_id d]} ∪ ids.
Proof.
  unfold parse_deployment. intros H Hv. inv_parse H. injection H as <- <-. apply table_of_ok in Hx as ->. checks.
  match goal with H : bool_decide (_ ∉ _) = true |- _ => apply bool_decide_eq_true in H end. zify_bools.
  split; [|by split]. assert (positive_u64 x6) as [? ?] by eauto with toml.
  constructor; cbn [gd_id gd_base_url gd_model gd_api_key_env gd_weight gd_cost_per_1k];
    [done|split_and!; eauto with toml|lia|eauto with toml].
Qed.

Record deployments_ok (ids : gset str) (ds : list GatewayDeployment) : Prop := {
  do_valid : Forall valid_deployment ds;
  do_unique : NoDup (map gd_id ds);
  do_seen : forall id, id ∈ map gd_id ds -> id ∈ ids;
}.

Lemma deployment_fold name entries i ids ds i' ids' ds' :
  try_fold (deployment_step where_ name) (i, ids, ds) entries = Ok (i', ids', ds') ->
  Forall wf_toml entries -> deployments_ok ids ds ->
  deployments_ok ids' ds' /\ length ds' = (length ds + length entries)%nat.
Proof.
  revert i ids ds. induction entries as [|v entries IH]; intros i ids ds; cbn [try_fold length].
  { intros [= -> -> ->] _ Hd. split; [done|lia]. }
  intros ([[i1 ids1] ds1] & Hs & H)%result_bind_ok [Hv Hvs]%Forall_cons [D1 D2 D3]. unfold deployment_step in Hs.
  apply result_bind_ok in Hs as ([ids2 d] & Hp & [= <- <- <-]). apply parse_deployment_ok in Hp as (Hd & Hnew & ->); [|done].
  destruct (IH _ _ _ H Hvs) as [Hok ->].
  - constructor; [by apply Forall_app; split; [|constructor]| |]; rewrite map_app; cbn [map].
    + apply NoDup_app. split; [done|]. split; [|by repeat constructor; apply not_elem_of_nil].
      intros id Hin ->%list_elem_of_singleton. by apply Hnew, D3.
    + intros id [Hin| ->%list_elem_of_singleton]%elem_of_app; [|set_solver]. specialize (D3 id Hin). set_solver.
  - split; [done|]. rewrite length_app. simpl. lia.
Qed.

Lemma parse_deployments_ok name provider value ds :
  parse_deployments where_ name provider value = Ok ds -> wf_opt value ->
  (Forall valid_deployment ds /\ NoDup (map gd_id ds) /\ len ds <= MAX_MODEL_DEPLOYMENTS) /\
  (provider <> OpenAiCompatible -> ds = []).
Proof.
  destruct value as [v|]; cbn [parse_deployments].
  2: { intros [= <-] _. split; [|done]. split_and!; [constructor|constructor|vm_compute; discriminate]. }
  intros H Hv. inv_parse H. checks. apply ok_or_ok in Hx0. destruct v; try done. injection Hx0 as ->.
  destruct x2 as [[i ids] ds']. injection H as <-. zify_bools.
  destruct (deployment_fold _ _ _ _ _ _ _ _ Hx2) as [[D1 D2 _] Hl];
    [by apply wf_toml_array|constructor; [constructor|constructor|intros id []%not_elem_of_nil]|].
  split; [|intros Hp; by destruct provider]. split_and!; [done..|]. unfold len in *. simpl in Hl. lia.
Qed.

Lemma parse_deployment_selection_ok name provider value p :
  parse_deployment_selection where_ name provider value = Ok p ->
  (opt_all finite_nonneg (max_cost_per_1k p) /\ finite_pos (observation_ttl p) /\
   at_most (observation_ttl p) MAX_MODEL_DEPLOYMENT_OBSERVATION_TTL) /\
  (provider <> OpenAiCompatible -> p = default_selection).
Proof.
  destruct value as [v|]; cbn [parse_deployment_selection].
  2: { intros [= <-]. split; [|done]. cbn [default_selection max_cost_per_1k observation_ttl]. split_and!; [done|by split|done]. }
  intros H. inv_parse H. injection H as <-. checks. cbn [max_cost_per_1k observation_ttl].
  split; [|intros Hp; by destruct provider]. split_and!; eauto with toml.
Qed.

Lemma check_provider_ok name provider base_url model tier env cmd u :
  check_provider where_ name provider base_url model tier env cmd = Ok u ->
  match provider with
  | OpenAiCompatible => is_Some base_url /\ tier = None
  | Anthropic => is_Some base_url /\ is_Some env /\ tier = None
  | AppleFoundationModels => base_url = None /\ env = None /\ cmd = None /\ tier = Some LocalTier /\ model = lit "system-default"
  | CodexAppServer => base_url = None /\ env = None /\ cmd = None /\ tier = None
  end.
Proof.
  assert (forall A (o : option A), is_some o = true -> is_Some o) as Hs by (intros A [a|]; [by eexists|done]).
  assert (forall A (o : option A), is_some o = false -> o = None) as Hn by (intros A [a|]; done).
  destruct provider; cbn [check_provider]; intros H; inv_parse H; checks; zify_bools; split_and!; eauto.
  destruct tier as [[]|]; done.
Qed.

Lemma parse_model_ok name value m : parse_model where_ name value = Ok m -> wf_toml value -> valid_model m.
Proof.
  unfold parse_model. intros H Hv. inv_parse H. injection H as <-. apply table_of_ok in Hx as ->.
  match goal with H : parse_deployments _ _ _ _ = Ok _ |- _ => apply parse_deployments_ok in H as [Hd Hd']; [|by eauto with toml] end.
  match goal with H : parse_deployment_selection _ _ _ _ = Ok _ |- _ => apply parse_deployment_selection_ok in H as [Hs Hs'] end.
  match goal with H : check_provider _ _ _ _ _ _ _ _ = Ok _ |- _ => apply check_provider_ok in H as Hp end. checks.
  constructor; cbn [gm_provider gm_base_url gm_model gm_tier gm_api_key_env gm_api_key_cmd gm_cost_per_1k gm_fallbacks
    gm_context_window gm_deployments gm_deployment_selection]; [|split_and!; eauto with toml| |split; eauto with toml|done|done].
  - unfold provider_fields. cbn [gm_provider gm_base_url gm_model gm_tier gm_api_key_env gm_api_key_cmd gm_deployments gm_deployment_selection].
    destruct x0; [done|destruct Hp as (? & ? & ?)|destruct Hp as (? & ? & ? & ? & ?)|destruct Hp as (? & ? & ? & ?)];
      split_and!; auto.
  - match goal with H : is_some ?c && negb (is_some ?e) = false |- _ => destruct c, e; try done end.
Qed.
End ModelParts.

(** ** The checks across tables *)
Lemma fold_check {A} (f : A -> result unit ConfigError) l : try_fold (fun _ x => f x) () l = Ok () -> forall x, x ∈ l -> f x = Ok ().
Proof. intros H x Hx. apply try_fold_check in H. rewrite Forall_forall in H. by apply H. Qed.

Section CrossChecks.
Context (where_ : str).

Lemma check_models_ok models template id names u :
  check_models where_ models template id names = Ok u -> forall m, m ∈ names -> is_Some (ix_get models m).
Proof.
  destruct u. intros H m Hm. pose proof (fold_check _ _ H m Hm) as Hk. cbv beta in Hk. apply require_ok in Hk.
  by apply contains_key_some.
Qed.

Lemma pair_fold {A} (f : str -> A -> result unit ConfigError) (l : list (str * A)) u :
  try_fold (fun _ '(k, a) => f k a) () l = Ok u -> forall k a, (k, a) ∈ l -> f k a = Ok ().
Proof.
  destruct u. intros H k a Hin. rewrite <- (fold_check (fun kv => let '(k, a) := kv in f k a) l H (k, a) Hin). done.
Qed.

Lemma fallbacks_ok models u :
  validate_model_fallbacks where_ models = Ok u ->
  forall name m f, (name, m) ∈ models -> f ∈ gm_fallbacks m -> is_Some (ix_get models f) /\ f <> name.
Proof.
  intros H name m f Hm Hf. pose proof (pair_fold _ _ _ H name m Hm) as Hk. cbv beta in Hk.
  pose proof (fold_check _ _ Hk f Hf) as Hr. cbv beta in Hr. inv_parse Hr. checks.
  split; [by apply contains_key_some|by apply str_eqb_neq].
Qed.

Lemma validate_key_ok workspaces models id k u :
  validate_key where_ workspaces models id k = Ok u ->
  (forall m, m ∈ vk_models k -> is_Some (ix_get models m)) /\
  opt_all (fun w => exists workspace, ix_get workspaces w = Some workspace /\
    (ws_models workspace <> [] -> forall m, m ∈ vk_models k -> m ∈ ws_models workspace)) (vk_workspace k).
Proof.
  unfold validate_key. intros (ow & Hw & H)%result_bind_ok. destruct u. split.
  - intros m Hm. pose proof (fold_check _ _ H m Hm) as Hr. cbv beta in Hr. inv_parse Hr. checks. by apply contains_key_some.
  - destruct (vk_workspace k) as [w|]; [|done]. apply result_bind_ok in Hw as (workspace & Hw%ok_or_ok & [= <-]).
    exists workspace. split; [done|]. intros Hne m Hm. pose proof (fold_check _ _ H m Hm) as Hr. cbv beta in Hr.
    inv_parse Hr. apply require_ok in Hr. destruct (ws_models workspace); [done|]. by apply bool_decide_eq_true in Hr.
Qed.

Lemma parse_table_ok {A} table limit (parse : str -> TomlValue -> result A ConfigError) value l (P : str * A -> Prop) :
  parse_table where_ table limit parse value = Ok l -> wf_opt value ->
  (forall k v a, wf_toml v -> parse k v = Ok a -> P (k, a)) ->
  valid_entries P l /\ (forall t, value = Some (TTable t) -> limit t = Ok () /\ len l = len t) /\ (value = None -> l = []).
Proof.
  destruct value as [v|]; cbn [parse_table]; [|by intros [= <-] _ _; split_and!; [split; constructor| |]].
  intros (t & ->%table_of_ok & H)%result_bind_ok Hv HP. apply result_bind_ok in H as ([] & Hl & H).
  split; [by eapply parse_entries_Forall|]. split; [|done]. intros t' [= <-]. split; [done|].
  apply wf_toml_entries in Hv as [Hn _]. apply parse_entries_ok in H; [|done]. apply Forall2_length in H. unfold len. lia.
Qed.

Lemma parse_table_bounded {A} table n m (parse : str -> TomlValue -> result A ConfigError) value l :
  parse_table where_ table (fun t => require where_ (len t <=? n) m) parse value = Ok l -> wf_opt value -> 0 <= n ->
  len l <= n.
Proof.
  intros H Hv Hn. destruct (parse_table_ok _ _ _ _ _ (fun _ => True) H Hv) as (_ & Hl & Hnone); [done|].
  destruct value as [v|]; [|by rewrite Hnone]. cbn [parse_table] in H. apply result_bind_ok in H as (t & ->%table_of_ok & _).
  destruct (Hl t eq_refl) as [Hr%require_ok ->]. by apply Z.leb_le.
Qed.
End CrossChecks.

(** ** The configuration *)
Lemma default_config_valid : valid_config default_config.
Proof.
  assert (forall A (P : str * A -> Prop), valid_entries P []) as He by (intros A P; split; constructor).
  constructor; unfold default_config, policy_config;
    cbn [gc_models gc_route_on gc_sticky gc_sticky_cooldown gc_slash_directives gc_offline gc_retries gc_breaker_threshold
      gc_breaker_cooldown gc_failover gc_budget gc_cache gc_rate_limit gc_concurrency gc_state gc_auth gc_shadow gc_canary
      workspaces gc_profiles gc_routes keys allow_unauthenticated_default]; auto.
  - split; auto with toml.
  - split_and!; auto with toml.
  - split_and!; [done|done|done|by apply (parse_concurrency_ok [] None)].
  - split; [by apply (parse_state_ok [] None)|done].
  - by apply (parse_auth_ok [] None).
  - split; [auto|vm_compute; discriminate].
  - split; [auto|vm_compute; discriminate].
  - apply default_shadow_ok.
  - apply default_canary_ok.
  - constructor; cbn; intros; try (by apply elem_of_nil in H); set_solver.
Qed.

Section Config.
Context (from_toml : str -> result TomlValue str).
(** What the type [toml::Value] says of any value the crate returns. *)
Context (toml_typed : forall text v, from_toml text = Ok v -> wf_toml v).

Lemma read_toml_wf text where_ v : read_toml from_toml text where_ = Ok v -> wf_toml v.
Proof. unfold read_toml. destruct (from_toml text) eqn:Ht; [|done]. intros [= <-]. by eapply toml_typed. Qed.

Lemma parse_models_ok where_ value l :
  parse_models where_ value = Ok l -> wf_opt value -> valid_entries (fun km => valid_model km.2) l.
Proof.
  destruct value as [v|]; cbn [parse_models]; [|intros [= <-] _; split; constructor].
  destruct (is_python_falsey v); [intros [= <-] _; split; constructor|]. intros H Hv.
  apply (parse_table_ok _ _ _ _ _ _ _ H Hv). intros k w a Hw Ha. by eapply parse_model_ok.
Qed.

Lemma parse_workspaces_ok where_ value l :
  parse_workspaces where_ value = Ok l -> wf_opt value ->
  valid_entries (fun kw => valid_policy_id kw.1 = true /\ valid_workspace kw.2) l.
Proof. intros H Hv. apply (parse_table_ok _ _ _ _ _ _ _ H Hv). intros k v a Hw Ha. by eapply parse_workspace_ok. Qed.

Lemma parse_profiles_ok where_ value l :
  parse_profiles where_ from_toml value = Ok l -> wf_opt value ->
  valid_entries (fun kp => valid_policy_id kp.1 = true /\ kp.1 <> lit "default" /\ valid_routing kp.2) l /\
  len l <= MAX_ROUTING_PROFILES.
Proof.
  intros H Hv. split; [|by eapply parse_table_bounded].
  apply (parse_table_ok _ _ _ _ _ _ _ H Hv). intros k v a Hw Ha. by eapply parse_profile_ok.
Qed.

Lemma parse_keys_ok where_ value l :
  parse_keys where_ value = Ok l -> wf_opt value -> valid_entries (fun kk => valid_key kk.2) l.
Proof. intros H Hv. apply (parse_table_ok _ _ _ _ _ _ _ H Hv). intros k v a Hw Ha. by eapply parse_key_ok. Qed.

Lemma parse_routes_ok where_ value l :
  parse_routes where_ value = Ok l -> wf_opt value ->
  valid_entries (fun kr => valid_policy_id kr.1 = true /\ valid_route kr.2) l /\ len l <= MAX_ROUTE_PRESETS.
Proof.
  intros H Hv. split; [|by eapply parse_table_bounded].
  apply (parse_table_ok _ _ _ _ _ _ _ H Hv). intros k v a Hw Ha. by eapply parse_route_ok.
Qed.

Lemma references_ok where_ c u1 u2 u3 u4 u5 :
  validate_model_fallbacks where_ (gc_models c) = Ok u1 ->
  validate_workspace_models where_ (workspaces c) (gc_models c) = Ok u2 ->
  validate_workspace_profiles where_ (workspaces c) (gc_profiles c) = Ok u3 ->
  validate_route_presets where_ (gc_routes c) (gc_models c) = Ok u4 ->
  validate_keys where_ (keys c) (workspaces c) (gc_models c) = Ok u5 -> references_resolve c.
Proof.
  intros H1 H2 H3 H4 H5. constructor.
  - by eapply fallbacks_ok.
  - intros id w Hin. split; [by eapply check_models_ok, (pair_fold _ _ _ H2)|].
    pose proof (pair_fold _ _ _ H3 id w Hin) as Hp. cbv beta in Hp. destruct (ws_profile w); [|done].
    apply require_ok in Hp. by apply contains_key_some in Hp.
  - intros id r m Hin. eapply check_models_ok, (pair_fold _ _ _ H4 id r Hin).
  - intros id k Hin. eapply validate_key_ok, (pair_fold _ _ _ H5 id k Hin).
Qed.

Lemma gateway_config_ok text where_ c : gateway_config_from_toml from_toml text where_ = Ok c -> valid_config c.
Proof.
  unfold gateway_config_from_toml. intros H. apply result_bind_ok in H as (root & Hr%read_toml_wf & H).
  apply result_bind_ok in H as (rt & ->%table_of_ok & H).
  destruct (ix_get rt (lit "gateway")) as [rg|] eqn:Hg; [|injection H as <-; apply default_config_valid].
  apply (wf_toml_get _ _ _ Hr) in Hg as Hw. clear Hg Hr. inv_parse H. apply table_of_ok in Hx as ->. checks.
  injection H as <-.
  constructor; cbn [gc_models gc_route_on gc_sticky gc_sticky_cooldown gc_slash_directives gc_offline gc_retries
    gc_breaker_threshold gc_breaker_cooldown gc_failover gc_budget gc_cache gc_rate_limit gc_concurrency gc_state gc_auth
    gc_shadow gc_canary workspaces gc_profiles gc_routes keys allow_unauthenticated_default];
    [done|split; eauto with toml|split_and!; eauto with toml|split_and!; eauto with toml
    |split; [by eapply parse_state_ok|]|by eapply parse_auth_ok|eapply parse_workspaces_ok; [eassumption|auto with toml]
    |eapply parse_profiles_ok; [eassumption|auto with toml]|eapply parse_keys_ok; [eassumption|auto with toml]
    |eapply parse_models_ok; [eassumption|auto with toml]|eapply parse_routes_ok; [eassumption|auto with toml]
    |eapply parse_shadow_ok; [eassumption|auto with toml]|eapply parse_canary_ok; [eassumption|auto with toml]
    |by eapply references_ok].
  destruct x10 as [cache|]; [|done]. intros Hb. unfold opt_all in *. cbn in Hb.
  rewrite Hb in Hx14. replace (str_eqb (lit "redis") (lit "redis")) with true in Hx14 by reflexivity.
  cbn [andb] in Hx14. apply negb_false_iff in Hx14. by apply str_eqb_eq.
Qed.
End Config.


(** ** Errors *)

(** An error about the document, under its label or that of one of the tables
    whose entries have a label of their own. *)
Definition labelled_tables : list string := ["keys"; "workspaces"; "profiles"]%string.

Definition under (where_ : str) (e : ConfigError) : Prop :=
  match e with
  | InvalidToml w _ | InvalidValue w _ =>
      w = where_ \/ exists table id, table ∈ labelled_tables /\ w = nested_where where_ table id
  | _ => False
  end.

Lemma under_invalid where_ m : under where_ (invalid where_ m).
Proof. by left. Qed.

Lemma under_toml where_ m : under where_ (InvalidToml where_ m).
Proof. by left. Qed.

(** An error whose label is that of the entry [id] of the table [table]. *)
Lemma located_nested {A} where_ table id (r : result A ConfigError) :
  table ∈ labelled_tables -> errs (located (nested_where where_ table id)) r -> errs (under where_) r.
Proof. intros Ht. apply errs_weaken. intros [] H; try done; cbn in *; subst; right; eauto. Qed.

Lemma labelled_keys : "keys"%string ∈ labelled_tables.
Proof. left. Qed.

Lemma labelled_workspaces : "workspaces"%string ∈ labelled_tables.
Proof. right. left. Qed.

Lemma labelled_profiles : "profiles"%string ∈ labelled_tables.
Proof. right. right. left. Qed.

#[export] Hint Resolve under_invalid under_toml labelled_keys labelled_workspaces labelled_profiles : errs.

Ltac errs_gateway :=
  unfold see, entry_of, table_of, require, fail, optional_allowed_string, optional_bool, optional_non_negative_integer,
    optional_positive_integer, positive_integer, optional_non_negative_number, optional_positive_number,
    optional_non_negative_finite_number, required_non_empty_string, optional_non_empty_string,
    optional_non_empty_string_list;
  errs.

Section Errors.
Context (where_ : str).

Lemma parse_budget_errs value : errs (located where_) (parse_budget where_ value).
Proof. unfold parse_budget. errs_gateway. Qed.

Lemma parse_rate_limit_errs value : errs (located where_) (parse_rate_limit where_ value).
Proof. unfold parse_rate_limit. errs_gateway. Qed.

Lemma located_under {A} (r : result A ConfigError) : errs (located where_) r -> errs (under where_) r.
Proof. apply errs_weaken. intros [] H; try done; cbn in *; subst; by left. Qed.

Lemma parse_budget_under value : errs (under where_) (parse_budget where_ value).
Proof. apply located_under, parse_budget_errs. Qed.

Lemma parse_rate_limit_under value : errs (under where_) (parse_rate_limit where_ value).
Proof. apply located_under, parse_rate_limit_errs. Qed.
End Errors.

Section NestedErrors.
Context (where_ : str).

Lemma parse_budget_nested table id value :
  table ∈ labelled_tables -> errs (under where_) (parse_budget (nested_where where_ table id) value).
Proof. intros Ht. eapply located_nested, parse_budget_errs. exact Ht. Qed.

Lemma parse_rate_limit_nested table id value :
  table ∈ labelled_tables -> errs (under where_) (parse_rate_limit (nested_where where_ table id) value).
Proof. intros Ht. eapply located_nested, parse_rate_limit_errs. exact Ht. Qed.

Lemma profile_document_errs from_toml text id env order :
  errs (under where_) (routing_config_from_toml from_toml text (nested_where where_ "profiles" id) env order).
Proof. apply (located_nested where_ "profiles" id), routing_error_located. exact labelled_profiles. Qed.
End NestedErrors.

#[export] Hint Resolve parse_budget_under parse_rate_limit_under parse_budget_nested parse_rate_limit_nested
  profile_document_errs : errs.

Section TableErrors.
Context (where_ : str).

Lemma parse_table_errs {A} table limit (parse : str -> TomlValue -> result A ConfigError) value :
  (forall t, errs (under where_) (limit t)) -> (forall k v, errs (under where_) (parse k v)) ->
  errs (under where_) (parse_table where_ table limit parse value).
Proof.
  intros Hl Hp. unfold parse_table, parse_entries. destruct value; [|exact I]. errs_gateway.
Qed.

Lemma parse_models_errs value : errs (under where_) (parse_models where_ value).
Proof.
  unfold parse_models. destruct value as [v|]; [|exact I]. destruct (is_python_falsey v); [exact I|].
  apply parse_table_errs; [intros; exact I|]. intros k w.
  unfold parse_model, parse_provider, parse_provider_tier, check_provider, parse_deployments, deployment_step, parse_deployment,
    parse_deployment_selection, parse_strategy. errs_gateway.
Qed.

Lemma parse_keys_errs value : errs (under where_) (parse_keys where_ value).
Proof. apply parse_table_errs; [intros; exact I|]. intros k v. unfold parse_key. errs_gateway. Qed.

Lemma parse_workspaces_errs value : errs (under where_) (parse_workspaces where_ value).
Proof. apply parse_table_errs; [intros; exact I|]. intros k v. unfold parse_workspace. errs_gateway. Qed.

Lemma parse_profiles_errs from_toml value : errs (under where_) (parse_profiles where_ from_toml value).
Proof. apply parse_table_errs; intros; [|unfold parse_profile]; errs_gateway. Qed.

Lemma parse_routes_errs value : errs (under where_) (parse_routes where_ value).
Proof. apply parse_table_errs; intros; [|unfold parse_route]; errs_gateway. Qed.
End TableErrors.

#[export] Hint Resolve parse_models_errs parse_keys_errs parse_workspaces_errs parse_profiles_errs parse_routes_errs : errs.

(** Every error of the parser has the label the caller gave the document or that
    of an entry of the keys, workspaces or profiles. *)
Lemma parse_errors_located from_toml text where_ :
  errs (under where_) (gateway_config_from_toml from_toml text where_).
Proof.
  unfold gateway_config_from_toml, read_toml, parse_cache, parse_concurrency, parse_state, parse_auth, parse_shadow,
    parse_canary, validate_model_fallbacks, validate_workspace_models, validate_workspace_profiles, validate_route_presets,
    validate_keys, validate_key, check_models. errs_gateway.
Qed.

(** ** Closed examples *)
Definition toml_str (s : string) : TomlValue := TString (lit s).

Definition sample_hash : str := replicate 64 65.

Definition sample_gateway_table : toml_table :=
  [(lit "retries", TInteger 1); (lit "sticky", TBoolean true);
   (lit "budget", TTable [(lit "limit", TInteger 5)]);
   (lit "workspaces", TTable [(lit "team", TTable [(lit "models", TArray [toml_str "cloud"])])]);
   (lit "keys", TTable [(lit "ci", TTable [(lit "hash", TString sample_hash); (lit "workspace", toml_str "team");
                                          (lit "models", TArray [toml_str "cloud"])])]);
   (lit "models", TTable
     [(lit "cloud", TTable [(lit "base_url", toml_str "https://example.test/v1"); (lit "model", toml_str "big");
                            (lit "fallbacks", TArray [toml_str "apple"]); (lit "cost_per_1k", TFloat (f64_dec 5 1));
                            (lit "deployments", TArray [TTable
                               [(lit "id", toml_str "eu"); (lit "base_url", toml_str "https://eu.example.test/v1");
                                (lit "model", toml_str "big"); (lit "weight", TInteger 3)]])]);
      (lit "apple", TTable [(lit "provider", toml_str "apple-foundation-models"); (lit "model", toml_str "system-default");
                            (lit "tier", toml_str "local")])]);
   (lit "routes", TTable [(lit "fast", TTable [(lit "models", TArray [toml_str "cloud"; toml_str "apple"])])]);
   (lit "canary", TTable [(lit "enabled", TBoolean true); (lit "candidate_route", toml_str "fast");
                          (lit "fraction", TFloat (f64_dec 1 1))])].

Definition sample_document (g : toml_table) : TomlValue := TTable [(lit "gateway", TTable g)].

(** Read by a crate that returns this document for any text. *)
Definition read_as (g : toml_table) : str -> result TomlValue str := fun _ => Ok (sample_document g).

Definition ok_config (r : result GatewayConfig ConfigError) : GatewayConfig := match r with Ok c => c | Err _ => default_config end.

Definition sample_gateway : GatewayConfig := ok_config (gateway_config_from_toml (read_as sample_gateway_table) [] (lit "router.toml")).

(** A document's type, by evaluation. *)
Ltac typed_document :=
  repeat match goal with
  | |- _ /\ _ => split
  | |- True => exact I
  | |- NoDup _ => apply (bool_decide_unpack _); vm_compute; exact I
  | |- i64_range _ => split; vm_compute; discriminate
  | _ => progress cbn [wf_toml foldr map snd fst sample_document]
  end.

Lemma sample_typed : forall text v, read_as sample_gateway_table text = Ok v -> wf_toml v.
Proof.
  intros text v [= <-]. unfold sample_document, sample_gateway_table, toml_str. typed_document.
Qed.

Example sample_gateway_read :
  gateway_config_from_toml (read_as sample_gateway_table) [] (lit "router.toml") = Ok sample_gateway.
Proof. vm_compute. reflexivity. Qed.


(** A key that names a model its workspace excludes is refused. *)
Example broadening_key_refused :
  gateway_config_from_toml (read_as
    [(lit "workspaces", TTable [(lit "team", TTable [(lit "models", TArray [toml_str "a"])])]);
     (lit "keys", TTable [(lit "ci", TTable [(lit "hash", TString sample_hash); (lit "workspace", toml_str "team");
                                            (lit "models", TArray [toml_str "b"])])]);
     (lit "models", TTable [(lit "a", TTable [(lit "base_url", toml_str "u"); (lit "model", toml_str "m")]);
                            (lit "b", TTable [(lit "base_url", toml_str "u"); (lit "model", toml_str "m")])])]) [] (lit "router.toml") =
  Err (InvalidValue (lit "router.toml")
    (Msg "'gateway.keys.{key_id}.models' cannot broaden its workspace model policy with '{model}'" [ArgStr (lit "ci"); ArgStr (lit "b")])).
Proof. vm_compute. reflexivity. Qed.

(** A rollout identifier that is not a string is read as the default one. *)
Example mistyped_rollout_id_ignored :
  rollout_id (gc_canary (ok_config (gateway_config_from_toml
    (read_as [(lit "canary", TTable [(lit "rollout_id", TInteger 7)])]) [] (lit "router.toml")))) = lit "default".
Proof. vm_compute. reflexivity. Qed.
