(* ===== verification/Planning.v ===== *)
(** * Route planning (crate [wayfinder-routing-core], [src/lib.rs])

    Hard eligibility filters over destination snapshots and the automatic
    route plan. *)
From S2P Require Export Contracts Scoring.

(** ** The code *)

Definition push_if (condition : bool) (reason : ExclusionReason) : list ExclusionReason :=
  if condition then [reason] else [].

(** Reasons in the order the code pushes them. *)
Definition exclusions_of (request : RoutingRequest) (d : DestinationSnapshot) : list ExclusionReason :=
  let req := rq_requirements request in
  let cap := ds_capabilities d in
  push_if (negb (bool_decide (ds_readiness d = Ready))) ProviderNotReady ++
  push_if (negb (permits (rq_privacy_posture request) (ds_execution_boundary d))) PrivacyBoundaryDenied ++
  match surface req with
  | SurfaceText => push_if (negb (cap_text cap)) TextUnsupported
  | SurfaceEmbeddings => push_if (negb (embeddings (modalities cap))) EmbeddingsUnsupported
  | SurfaceImageGeneration => push_if (negb (image_generation (modalities cap))) ImageGenerationUnsupported
  | SurfaceAudio =>
      push_if (negb (audio_input (modalities cap)) && negb (audio_output (modalities cap))) AudioUnsupported
  | SurfaceBatch => push_if (negb (batch (modalities cap))) BatchUnsupported
  end ++
  match context_tokens req with
  | Some required =>
      match ds_context_window d with
      | Some available => push_if (available <? required) ContextWindowTooSmall
      | None => [ContextWindowUnknown]
      end
  | None => []
  end ++
  push_if (req_image_input req && negb (cap_image_input cap)) ImageInputUnsupported ++
  push_if (req_tools req && negb (cap_tools cap)) ToolsUnsupported ++
  push_if (req_streaming req && negb (cap_streaming cap)) StreamingUnsupported ++
  push_if (negb (ds_automatic_eligible d)) AutomaticNotAllowed.

Definition assess_destination (request : RoutingRequest) (destination : DestinationSnapshot)
    : CandidateAssessment :=
  {| ca_destination_id := ds_id destination; ca_exclusions := exclusions_of request destination |}.

Definition blank (s : str) : bool := str_eqb (trim s) [].

(** The loop of [validate_runtime_contract], [ids] being the ids already seen. *)
Fixpoint validate_candidates (ids : gset str) (candidates : list DestinationSnapshot)
    : result unit CoreError :=
  match candidates with
  | [] => Ok ()
  | candidate :: candidates =>
      if blank (ds_id candidate) || blank (ds_provider_id candidate)
         || blank (ds_model_id candidate) || blank (ds_route_tier candidate)
      then Err (InvalidContract (Msg "destination identity and route_tier must be non-empty" []))
      else if bool_decide (ds_id candidate ∈ ids)
      then Err (InvalidContract (Msg "duplicate destination id {:?}" [ArgStr (ds_id candidate)]))
      else validate_candidates ({[ds_id candidate]} ∪ ids) candidates
  end.

Definition validate_runtime_contract (request : RoutingRequest) (candidates : list DestinationSnapshot)
    : result unit CoreError :=
  if negb (rq_schema_version request =? RUNTIME_CONTRACT_VERSION)
  then Err (InvalidContract (Msg "unsupported schema version {}" [ArgInt (rq_schema_version request)]))
  else if blank (rq_request_id request)
  then Err (InvalidContract (Msg "request_id must be non-empty" []))
  else validate_candidates ∅ candidates.

Definition plan_automatic_route (compiled : result Patterns str) (request : RoutingRequest)
    (candidates : list DestinationSnapshot) (config : RoutingConfig) : result RoutePlan CoreError :=
  let? _ := validate_runtime_contract request candidates in
  let? scored := score_complexity compiled (rq_prompt request) config in
  let assessments := map (assess_destination request) candidates in
  let eligible_ids :=
    map (fun '(candidate, _) => ds_id candidate)
      (List.filter
        (fun '(candidate, assessment) =>
           is_eligible assessment && str_eqb (ds_route_tier candidate) (cs_recommendation scored))
        (zip candidates assessments)) in
  Ok {| rp_schema_version := RUNTIME_CONTRACT_VERSION;
        rp_request_id := rq_request_id request;
        rp_score := cs_score scored;
        rp_recommendation := cs_recommendation scored;
        rp_selected_destination_id := head eligible_ids;
        rp_fallback_destination_ids := drop 1 eligible_ids;
        rp_candidates := assessments |}.

(** ** Specification *)

(** What a destination must satisfy for a request, as one conjunction. *)
Record compatible (request : RoutingRequest) (d : DestinationSnapshot) : Prop := {
  cp_ready : ds_readiness d = Ready;
  cp_privacy : permits (rq_privacy_posture request) (ds_execution_boundary d) = true;
  cp_surface :
    match surface (rq_requirements request) with
    | SurfaceText => cap_text (ds_capabilities d) = true
    | SurfaceEmbeddings => embeddings (modalities (ds_capabilities d)) = true
    | SurfaceImageGeneration => image_generation (modalities (ds_capabilities d)) = true
    | SurfaceAudio => audio_input (modalities (ds_capabilities d)) = true \/
                      audio_output (modalities (ds_capabilities d)) = true
    | SurfaceBatch => batch (modalities (ds_capabilities d)) = true
    end;
  cp_context : forall required, context_tokens (rq_requirements request) = Some required ->
    exists available, ds_context_window d = Some available /\ required <= available;
  cp_image : req_image_input (rq_requirements request) = true -> cap_image_input (ds_capabilities d) = true;
  cp_tools : req_tools (rq_requirements request) = true -> cap_tools (ds_capabilities d) = true;
  cp_streaming : req_streaming (rq_requirements request) = true -> cap_streaming (ds_capabilities d) = true;
  cp_automatic : ds_automatic_eligible d = true;
}.

(** The destinations a plan may use, in the order of the candidates. *)
Definition plan_pool (request : RoutingRequest) (tier : str) (candidates : list DestinationSnapshot)
    : list DestinationSnapshot :=
  List.filter (fun d => is_eligible (assess_destination request d) && str_eqb (ds_route_tier d) tier) candidates.

Definition plan_ids (plan : RoutePlan) : list str :=
  match rp_selected_destination_id plan with
  | Some id => id :: rp_fallback_destination_ids plan
  | None => rp_fallback_destination_ids plan
  end.

(** A request and candidates the contract admits. *)
Definition named (d : DestinationSnapshot) : Prop :=
  trim (ds_id d) <> [] /\ trim (ds_provider_id d) <> [] /\ trim (ds_model_id d) <> [] /\
  trim (ds_route_tier d) <> [].

Definition valid_contract (request : RoutingRequest) (candidates : list DestinationSnapshot) : Prop :=
  rq_schema_version request = RUNTIME_CONTRACT_VERSION /\ trim (rq_request_id request) <> [] /\
  Forall named candidates /\ NoDup (map ds_id candidates).

(** ** Lemmas *)

Lemma push_if_nil b r : push_if b r = [] <-> b = false.
Proof. by destruct b. Qed.

Lemma exclusions_nil request d : exclusions_of request d = [] <-> compatible request d.
Proof.
  unfold exclusions_of. rewrite !app_nil, !push_if_nil, !negb_false_iff, bool_decide_eq_true, !andb_false_iff,
    !negb_false_iff.
  split.
  - intros (Hr & Hp & Hs & Hc & Hi & Ht & Hst & Ha). split; try done; try (intros ?; naive_solver congruence).
    + destruct (surface (rq_requirements request)); apply push_if_nil in Hs;
        try (by apply negb_false_iff in Hs).
      apply andb_false_iff in Hs. rewrite !negb_false_iff in Hs. done.
    + intros required Hreq. rewrite Hreq in Hc. destruct (ds_context_window d) as [available|]; [|done].
      apply push_if_nil, Z.ltb_ge in Hc. eauto.
  - intros [Hr Hp Hs Hc Hi Ht Hst Ha]. split_and!; try done.
    + destruct (surface (rq_requirements request)); apply push_if_nil; rewrite ?negb_false_iff; try done.
      apply andb_false_iff. by rewrite !negb_false_iff.
    + destruct (context_tokens (rq_requirements request)) as [required|]; [|done].
      destruct (Hc required eq_refl) as (available & -> & ?). apply push_if_nil. lia.
    + destruct (req_image_input _); auto.
    + destruct (req_tools _); auto.
    + destruct (req_streaming _); auto.
Qed.

Lemma is_eligible_compatible request d :
  is_eligible (assess_destination request d) = true <-> compatible request d.
Proof.
  rewrite <- exclusions_nil. unfold is_eligible. simpl. by destruct (exclusions_of request d).
Qed.

Lemma blank_false s : blank s = false <-> trim s <> [].
Proof. apply str_eqb_neq. Qed.

Lemma validate_candidates_ok ids candidates :
  validate_candidates ids candidates = Ok () <->
  Forall named candidates /\ NoDup (map ds_id candidates) /\ Forall (fun d => ds_id d ∉ ids) candidates.
Proof.
  revert ids. induction candidates as [|d candidates IH]; intros ids; simpl.
  { split; [intros _; split_and!; constructor|done]. }
  rewrite !Forall_cons. unfold named at 1. rewrite <- !blank_false.
  destruct (blank (ds_id d)), (blank (ds_provider_id d)), (blank (ds_model_id d)), (blank (ds_route_tier d));
    simpl; try (split; [done|naive_solver]).
  case_bool_decide; [naive_solver|]. rewrite IH. rewrite NoDup_cons. split.
  - intros (Hn & Hd & Hf). rewrite Forall_forall in Hf. split_and!; try done.
    + intros (x & Hx & Hin)%list_elem_of_fmap. apply Hf in Hin. set_solver.
    + apply Forall_forall. intros x Hin. apply Hf in Hin. set_solver.
  - intros ((_ & Hn) & (Hx & Hd) & (_ & Hf)). split_and!; try done.
    rewrite Forall_forall in Hf |- *. intros x Hin. apply not_elem_of_union. split; [|auto].
    apply not_elem_of_singleton. intros He. apply Hx. rewrite <- He. by apply list_elem_of_fmap_2.
Qed.

Lemma validate_candidates_err ids candidates e :
  validate_candidates ids candidates = Err e -> exists m, e = InvalidContract m.
Proof.
  revert ids. induction candidates as [|d candidates IH]; intros ids; simpl; [done|].
  repeat case_match; naive_solver.
Qed.

Lemma validate_runtime_contract_ok request candidates :
  validate_runtime_contract request candidates = Ok () <-> valid_contract request candidates.
Proof.
  unfold validate_runtime_contract, valid_contract. rewrite <- blank_false.
  destruct (Z.eqb_spec (rq_schema_version request) RUNTIME_CONTRACT_VERSION); simpl; [|naive_solver].
  destruct (blank (rq_request_id request)); [naive_solver|]. rewrite validate_candidates_ok.
  split; [naive_solver|]. intros (_ & _ & ? & ?). split_and!; try done.
  apply Forall_forall. set_solver.
Qed.

(** The filter over candidates zipped with their assessments is a filter over
    the candidates. *)
Lemma zip_filter_ids request tier candidates :
  map (fun '(candidate, _) => ds_id candidate)
    (List.filter
      (fun '(candidate, assessment) => is_eligible assessment && str_eqb (ds_route_tier candidate) tier)
      (zip candidates (map (assess_destination request) candidates))) =
  map ds_id (plan_pool request tier candidates).
Proof.
  unfold plan_pool. induction candidates as [|d candidates IH]; [done|]. cbn [map zip zip_with List.filter].
  destruct (is_eligible (assess_destination request d) && str_eqb (ds_route_tier d) tier); cbn [map]; by rewrite IH.
Qed.

Lemma head_drop {A} (l : list A) :
  match head l with Some x => x :: drop 1 l | None => drop 1 l end = l.
Proof. by destruct l. Qed.

Lemma plan_inv compiled request candidates config plan :
  plan_automatic_route compiled request candidates config = Ok plan ->
  valid_contract request candidates /\
  (exists scored, score_complexity compiled (rq_prompt request) config = Ok scored /\
     rp_recommendation plan = cs_recommendation scored /\ rp_score plan = cs_score scored) /\
  plan_ids plan = map ds_id (plan_pool request (rp_recommendation plan) candidates) /\
  rp_request_id plan = rq_request_id request /\
  rp_candidates plan = map (assess_destination request) candidates.
Proof.
  unfold plan_automatic_route. intros ([] & Hv & H)%result_bind_ok.
  apply result_bind_ok in H as (scored & Hs & [= <-]).
  apply validate_runtime_contract_ok in Hv. split; [done|]. split; [eauto|].
  unfold plan_ids. cbn [rp_selected_destination_id rp_fallback_destination_ids rp_recommendation].
  rewrite head_drop, zip_filter_ids. done.
Qed.

Lemma elem_of_plan_pool request tier candidates d :
  d ∈ plan_pool request tier candidates <->
  d ∈ candidates /\ compatible request d /\ ds_route_tier d = tier.
Proof.
  unfold plan_pool. rewrite elem_of_filter_bool, andb_true_iff,
    is_eligible_compatible, str_eqb_eq. done.
Qed.

(** ** Properties *)

(** When each reason is given. *)
Definition reason_holds (request : RoutingRequest) (d : DestinationSnapshot) (r : ExclusionReason) : Prop :=
  let req := rq_requirements request in
  let cap := ds_capabilities d in
  match r with
  | ProviderNotReady => ds_readiness d <> Ready
  | PrivacyBoundaryDenied => permits (rq_privacy_posture request) (ds_execution_boundary d) = false
  | TextUnsupported => surface req = SurfaceText /\ cap_text cap = false
  | EmbeddingsUnsupported => surface req = SurfaceEmbeddings /\ embeddings (modalities cap) = false
  | ImageGenerationUnsupported =>
      surface req = SurfaceImageGeneration /\ image_generation (modalities cap) = false
  | AudioUnsupported =>
      surface req = SurfaceAudio /\ audio_input (modalities cap) = false /\ audio_output (modalities cap) = false
  | BatchUnsupported => surface req = SurfaceBatch /\ batch (modalities cap) = false
  | ContextWindowUnknown => is_Some (context_tokens req) /\ ds_context_window d = None
  | ContextWindowTooSmall =>
      exists required available, context_tokens req = Some required /\
        ds_context_window d = Some available /\ available < required
  | ImageInputUnsupported => req_image_input req = true /\ cap_image_input cap = false
  | ToolsUnsupported => req_tools req = true /\ cap_tools cap = false
  | StreamingUnsupported => req_streaming req = true /\ cap_streaming cap = false
  | AutomaticNotAllowed => ds_automatic_eligible d = false
  end.

Lemma elem_of_push_if r b r' : r ∈ push_if b r' <-> b = true /\ r = r'.
Proof. destruct b; simpl; set_solver. Qed.

Lemma elem_of_surface_segment request d r :
  r ∈ match surface (rq_requirements request) with
      | SurfaceText => push_if (negb (cap_text (ds_capabilities d))) TextUnsupported
      | SurfaceEmbeddings => push_if (negb (embeddings (modalities (ds_capabilities d)))) EmbeddingsUnsupported
      | SurfaceImageGeneration =>
          push_if (negb (image_generation (modalities (ds_capabilities d)))) ImageGenerationUnsupported
      | SurfaceAudio =>
          push_if (negb (audio_input (modalities (ds_capabilities d))) &&
                   negb (audio_output (modalities (ds_capabilities d)))) AudioUnsupported
      | SurfaceBatch => push_if (negb (batch (modalities (ds_capabilities d)))) BatchUnsupported
      end <->
  reason_holds request d r /\
  r ∈ [TextUnsupported; EmbeddingsUnsupported; ImageGenerationUnsupported; AudioUnsupported; BatchUnsupported].
Proof.
  destruct (surface (rq_requirements request)) eqn:Hs; rewrite elem_of_push_if, ?andb_true_iff, !negb_true_iff;
    (split; [intros [? ->]; split; [by simpl|set_solver]|]);
    intros [Hr Hin]; repeat (apply elem_of_cons in Hin as [->|Hin]; [simpl in Hr; destruct_and?; first [congruence|by split_and!]|]);
    by apply elem_of_nil in Hin.
Qed.

Lemma elem_of_context_segment request d r :
  r ∈ match context_tokens (rq_requirements request) with
      | Some required =>
          match ds_context_window d with
          | Some available => push_if (available <? required) ContextWindowTooSmall
          | None => [ContextWindowUnknown]
          end
      | None => []
      end <-> reason_holds request d r /\ r ∈ [ContextWindowUnknown; ContextWindowTooSmall].
Proof.
  destruct (context_tokens (rq_requirements request)) as [required|] eqn:Hc;
    [destruct (ds_context_window d) as [available|] eqn:Hw|].
  - rewrite elem_of_push_if, Z.ltb_lt. split.
    + intros [? ->]. simpl. split; [eauto 10|set_solver].
    + intros [Hr Hin]. repeat (apply elem_of_cons in Hin as [->|Hin]; [simpl in Hr; naive_solver|]). set_solver.
  - rewrite list_elem_of_singleton. split.
    + intros ->. simpl. split; [eauto|set_solver].
    + intros [Hr Hin]. repeat (apply elem_of_cons in Hin as [->|Hin]; [simpl in Hr; naive_solver|]). set_solver.
  - split; [set_solver|]. intros [Hr Hin].
    repeat (apply elem_of_cons in Hin as [->|Hin]; [simpl in Hr; unfold is_Some in Hr; naive_solver|]). set_solver.
Qed.

Lemma elem_of_exclusions request d r : r ∈ exclusions_of request d <-> reason_holds request d r.
Proof.
  unfold exclusions_of. rewrite !elem_of_app, elem_of_surface_segment, elem_of_context_segment,
    !elem_of_push_if, !andb_true_iff, !negb_true_iff, bool_decide_eq_false.
  split.
  - intros H. repeat (destruct H as [H|H]); destruct H as [H1 H2]; subst; done.
  - destruct r; simpl; intros H; rewrite ?list_elem_of_singleton;
      repeat first [left; split; [exact H|set_solver] | right]; by split.
Qed.

(** The reporting order. *)
Definition reason_order : list ExclusionReason :=
  [ProviderNotReady] ++ [PrivacyBoundaryDenied] ++
  [TextUnsupported; EmbeddingsUnsupported; ImageGenerationUnsupported; AudioUnsupported; BatchUnsupported] ++
  [ContextWindowTooSmall; ContextWindowUnknown] ++ [ImageInputUnsupported] ++ [ToolsUnsupported] ++
  [StreamingUnsupported] ++ [AutomaticNotAllowed].

Lemma push_if_sublist b r : sublist (push_if b r) [r].
Proof. destruct b; simpl; repeat constructor. Qed.

Lemma singleton_sublist {A} (x : A) l : x ∈ l -> sublist [x] l.
Proof. intros (l1 & l2 & ->)%list_elem_of_split. apply sublist_inserts_l. constructor. apply sublist_nil_l. Qed.

Lemma push_if_sublist_in b r l : r ∈ l -> sublist (push_if b r) l.
Proof. intros. destruct b; simpl; [by apply singleton_sublist|apply sublist_nil_l]. Qed.

Lemma exclusions_in_order request d : sublist (exclusions_of request d) reason_order.
Proof.
  unfold exclusions_of, reason_order. repeat (apply sublist_app; [|]); try apply push_if_sublist.
  - destruct (surface _); apply push_if_sublist_in; set_solver.
  - destruct (context_tokens _); [|apply sublist_nil_l].
    destruct (ds_context_window d); [apply push_if_sublist_in; set_solver|apply singleton_sublist; set_solver].
Qed.

(** An assessment lists exactly the reasons that hold, each once and in
    the fixed reporting order; it is eligible exactly when the destination is compatible with the request. *)
Theorem assess_destination_reasons request d :
  (forall r, r ∈ ca_exclusions (assess_destination request d) <-> reason_holds request d r) /\
  sublist (ca_exclusions (assess_destination request d)) reason_order /\
  (is_eligible (assess_destination request d) = true <-> compatible request d).
Proof.
  split_and!; [| |apply is_eligible_compatible].
  - intros r. cbn [assess_destination ca_exclusions]. apply elem_of_exclusions.
  - apply exclusions_in_order.
Qed.

(** C6: Nothing leaves the policy: every destination a plan selects or keeps as
    a fallback is one of the candidates, satisfies every hard requirement of
    the request (readiness, privacy boundary, surface, context, capabilities,
    opt-in) and belongs to the recommended tier. *)
Theorem plan_uses_compatible_only compiled request candidates config plan :
  plan_automatic_route compiled request candidates config = Ok plan ->
  forall id, id ∈ plan_ids plan ->
  exists d, d ∈ candidates /\ ds_id d = id /\ compatible request d /\
    ds_route_tier d = rp_recommendation plan.
Proof.
  intros (_ & _ & Hids & _)%plan_inv id Hid. rewrite Hids in Hid.
  apply list_elem_of_fmap in Hid as (d & -> & (Hin & Hc & Ht)%elem_of_plan_pool). eauto.
Qed.

(** A plan is exhaustive and stable: selection and fallbacks are the ids of
    all compatible candidates of the recommended tier, in candidate order and
    without repetition; nothing is selected only when there is none. *)
Theorem plan_exhaustive_in_order compiled request candidates config plan :
  plan_automatic_route compiled request candidates config = Ok plan ->
  sublist (plan_ids plan) (map ds_id candidates) /\ NoDup (plan_ids plan) /\
  (forall d, d ∈ candidates -> compatible request d -> ds_route_tier d = rp_recommendation plan ->
     ds_id d ∈ plan_ids plan) /\
  (rp_selected_destination_id plan = None <-> plan_ids plan = []) /\
  length (rp_candidates plan) = length candidates.
Proof.
  intros Hplan. destruct (plan_inv _ _ _ _ _ Hplan) as ((_ & _ & _ & Hnd) & _ & Hids & _ & Hca).
  assert (sublist (plan_ids plan) (map ds_id candidates)) as Hsub
    by (rewrite Hids; apply fmap_sublist, list_filter_sublist).
  split_and!; [done|by eapply sublist_NoDup| | |by rewrite Hca, length_map].
  - intros d Hin Hc Ht. rewrite Hids. by apply list_elem_of_fmap_2, elem_of_plan_pool.
  - unfold plan_automatic_route in Hplan. inv_ok. subst. unfold plan_ids.
    cbn [rp_selected_destination_id rp_fallback_destination_ids].
    match goal with |- context [head ?l] => destruct l end; done.
Qed.

(** Planning fails only for a reason it names: the contract error exactly
    when the contract is violated, and otherwise the scorer's own error. *)
Theorem plan_error_iff compiled request candidates config e :
  plan_automatic_route compiled request candidates config = Err e <->
  validate_runtime_contract request candidates = Err e \/
  (valid_contract request candidates /\ score_complexity compiled (rq_prompt request) config = Err e).
Proof.
  unfold plan_automatic_route. rewrite result_bind_err, <- validate_runtime_contract_ok. split.
  - intros [?|([] & Hv & H)]; [by left|right]. split; [done|].
    apply result_bind_err in H as [?|(scored & _ & ?)]; [done|discriminate].
  - intros [?|[Hv Hs]]; [by left|right]. exists (). split; [done|]. rewrite Hs. done.
Qed.

(** The contract check accepts exactly the valid contracts: supported
    version, named request, named destinations, no duplicate id. *)
Theorem validate_runtime_contract_iff request candidates :
  validate_runtime_contract request candidates = Ok () <-> valid_contract request candidates.
Proof. apply validate_runtime_contract_ok. Qed.

Definition with_posture (request : RoutingRequest) (p : PrivacyPosture) : RoutingRequest :=
  {| rq_schema_version := rq_schema_version request; rq_request_id := rq_request_id request;
     rq_prompt := rq_prompt request; rq_privacy_posture := p;
     rq_requirements := rq_requirements request |}.

(** The privacy posture only filters: widening it keeps the score, the
    recommendation and every destination the narrower plan already used. *)
Theorem plan_posture_monotone compiled request candidates config p q plan :
  posture_rank p <= posture_rank q ->
  plan_automatic_route compiled (with_posture request p) candidates config = Ok plan ->
  exists plan', plan_automatic_route compiled (with_posture request q) candidates config = Ok plan' /\
    rp_score plan' = rp_score plan /\ rp_recommendation plan' = rp_recommendation plan /\
    sublist (plan_ids plan) (plan_ids plan').
Proof.
  intros Hpq Hplan. pose proof (plan_inv _ _ _ _ _ Hplan) as (Hv & (scored & Hs & Hrec & Hscore) & Hids & _).
  destruct (plan_automatic_route compiled (with_posture request q) candidates config) as [plan'|e] eqn:Hq.
  - exists plan'. split; [done|].
    pose proof (plan_inv _ _ _ _ _ Hq) as (_ & (scored' & Hs' & Hrec' & Hscore') & Hids' & _).
    simpl in Hs, Hs'. rewrite Hs in Hs'. injection Hs' as <-.
    split_and!; [by rewrite Hscore, Hscore'|by rewrite Hrec, Hrec'|].
    rewrite Hids, Hids', Hrec, Hrec'. apply fmap_sublist. unfold plan_pool.
    assert (Himp : forall d, is_eligible (assess_destination (with_posture request p) d) = true ->
                             is_eligible (assess_destination (with_posture request q) d) = true).
    { intros d. rewrite !is_eligible_compatible. intros [? ? ? ? ? ? ? ?]. constructor; try done.
      simpl in *. by eapply permits_mono. }
    clear -Himp. induction candidates as [|d candidates IH]; simpl; [constructor|].
    specialize (Himp d).
    destruct (is_eligible (assess_destination (with_posture request p) d)); simpl.
    + rewrite Himp by done. simpl. destruct (str_eqb _ _); [by apply sublist_skip|done].
    + destruct (is_eligible _ && _); [by apply sublist_cons|done].
  - exfalso. unfold plan_automatic_route in Hq. apply result_bind_err in Hq as [Hq|([] & _ & Hq)].
    + assert (validate_runtime_contract (with_posture request q) candidates = Ok ()) as Hok
        by (apply validate_runtime_contract_ok; exact Hv). congruence.
    + simpl in Hs, Hq. rewrite Hs in Hq. discriminate.
Qed.

(** ** A closed example *)
Definition sample_destination (id tier : str) (boundary : ExecutionBoundary) : DestinationSnapshot :=
  {| ds_id := id; ds_provider_id := lit "provider"; ds_model_id := lit "model";
     ds_display_name := id; ds_route_tier := tier; ds_execution_boundary := boundary;
     ds_readiness := Ready; ds_billing_class := BillingUnknown; ds_context_window := Some 8192;
     ds_capabilities :=
       {| cap_text := true; cap_streaming := true; cap_image_input := false; cap_tools := false;
          modalities := Build_ModalityCapabilities false false false false false |};
     ds_automatic_eligible := true |}.

Definition sample_request (posture : PrivacyPosture) : RoutingRequest :=
  {| rq_schema_version := 1; rq_request_id := lit "request-1"; rq_prompt := lit "hello";
     rq_privacy_posture := posture;
     rq_requirements := Build_RoutingRequirements (Some 4096) false false true SurfaceText |}.

Definition sample_candidates : list DestinationSnapshot :=
  [sample_destination (lit "remote") (lit "local") Hosted;
   sample_destination (lit "lan") (lit "local") LocalNetwork;
   sample_destination (lit "device") (lit "local") OnDevice;
   sample_destination (lit "big") (lit "cloud") OnDevice].

Definition sample_plan (posture : PrivacyPosture) : result RoutePlan CoreError :=
  plan_automatic_route (Ok sample_patterns) (sample_request posture) sample_candidates default_routing_config.

Definition plan_or_empty (r : result RoutePlan CoreError) : RoutePlan :=
  match r with Ok plan => plan | Err _ => Build_RoutePlan 0 [] f64_zero [] None [] [] end.

Example sample_plan_ids :
  plan_ids (plan_or_empty (sample_plan LocalDevices)) = [lit "lan"; lit "device"].
Proof. vm_compute. reflexivity. Qed.

Lemma plan_uses_compatible_only_witness :
  exists d, d ∈ sample_candidates /\ ds_id d = lit "lan" /\ compatible (sample_request LocalDevices) d /\
    ds_route_tier d = rp_recommendation (plan_or_empty (sample_plan LocalDevices)).
Proof.
  apply (plan_uses_compatible_only (Ok sample_patterns) _ _ default_routing_config).
  - vm_compute. reflexivity.
  - vm_compute. left.
Defined.

Lemma plan_exhaustive_in_order_witness :
  NoDup (plan_ids (plan_or_empty (sample_plan HostedAllowed))).
Proof.
  apply (plan_exhaustive_in_order (Ok sample_patterns) (sample_request HostedAllowed) sample_candidates
           default_routing_config).
  vm_compute. reflexivity.
Defined.

Lemma plan_posture_monotone_witness :
  exists plan', plan_automatic_route (Ok sample_patterns) (with_posture (sample_request OnDeviceOnly) HostedAllowed)
      sample_candidates default_routing_config = Ok plan' /\
    rp_score plan' = rp_score (plan_or_empty (sample_plan OnDeviceOnly)) /\
    rp_recommendation plan' = rp_recommendation (plan_or_empty (sample_plan OnDeviceOnly)) /\
    sublist (plan_ids (plan_or_empty (sample_plan OnDeviceOnly))) (plan_ids plan').
Proof.
  apply (plan_posture_monotone _ _ _ _ OnDeviceOnly).
  - simpl. lia.
  - vm_compute. reflexivity.
Defined.
