(* ===== verification/Calibration.v ===== *)
(** * Threshold calibration (crate [wayfinder-routing-core], [src/calibration.rs])

    Choice of the cut between the cheap and the high-quality arm by expected
    economic loss. *)
From S2P Require Export PyRound.

(** ** The code *)

Definition OBJECTIVE_EPSILON : f64 := f64_dec 1 12.

Record ThresholdSample := {
  sample_score : f64;
  requires_high : bool;
}.

Record MinCostCalibration := {
  threshold : f64;
  accuracy : f64;
  quality_recovered : f64;
  cost_savings : f64;
  expected_money_cost : f64;
  expected_loss : f64;
}.

Inductive CalibrationError :=
| EmptyDataset
| MissingLabelClass
| InvalidScore (index : nat) (score : f64)
| InvalidCost (name : str) (value : f64)
| UnorderedCosts.

Definition validate_cost (name : str) (value : f64) : result unit CalibrationError :=
  if negb (f64_is_finite value) || f64_lt value f64_zero then Err (InvalidCost name value) else Ok ().

(** The scan for an invalid score, from [index]. *)
Fixpoint validate_scores (index : nat) (samples : list ThresholdSample) : result unit CalibrationError :=
  match samples with
  | [] => Ok ()
  | sample :: samples =>
      if negb (f64_is_finite (sample_score sample))
         || negb (f64_in_range f64_zero f64_one (sample_score sample))
      then Err (InvalidScore index (sample_score sample))
      else validate_scores (S index) samples
  end.

Definition validate_inputs (samples : list ThresholdSample) (low_cost high_cost quality_penalty : f64)
    : result unit CalibrationError :=
  match samples with
  | [] => Err EmptyDataset
  | _ =>
      let? _ := validate_scores 0 samples in
      if negb (existsb requires_high samples)
         || negb (existsb (fun sample => negb (requires_high sample)) samples)
      then Err MissingLabelClass
      else
        let? _ := validate_cost (lit "low_cost") low_cost in
        let? _ := validate_cost (lit "high_cost") high_cost in
        let? _ := validate_cost (lit "quality_penalty") quality_penalty in
        if f64_le high_cost low_cost then Err UnorderedCosts else Ok ()
  end.

Record Tally := {
  tl_correct : Z;
  tl_recovered : Z;
  tl_missed_high : Z;
  tl_money : f64;
}.

Definition tally_sample (threshold low_cost high_cost : f64) (t : Tally) (sample : ThresholdSample) : Tally :=
  let routed_high := f64_ge (sample_score sample) threshold in
  {| tl_correct := if Bool.eqb routed_high (requires_high sample)
                   then u64_sat_add (tl_correct t) 1 else tl_correct t;
     tl_recovered := if requires_high sample && routed_high
                     then u64_sat_add (tl_recovered t) 1 else tl_recovered t;
     tl_missed_high := if requires_high sample && negb routed_high
                       then u64_sat_add (tl_missed_high t) 1 else tl_missed_high t;
     tl_money := f64_add (tl_money t) (if routed_high then high_cost else low_cost) |}.

Definition metrics_at (samples : list ThresholdSample) (threshold low_cost high_cost quality_penalty : f64)
    : MinCostCalibration :=
  let total := f64_of_Z (len samples) in
  let high_labels := f64_of_Z (len (List.filter requires_high samples)) in
  let t := foldl (tally_sample threshold low_cost high_cost) (Build_Tally 0 0 0 f64_zero) samples in
  let expected_money_cost := f64_div (tl_money t) total in
  let missed_high_rate := f64_div (f64_of_Z (tl_missed_high t)) total in
  {| threshold := threshold;
     accuracy := f64_div (f64_of_Z (tl_correct t)) total;
     quality_recovered := f64_div (f64_of_Z (tl_recovered t)) high_labels;
     cost_savings := f64_div (f64_sub high_cost expected_money_cost) high_cost;
     expected_money_cost := expected_money_cost;
     expected_loss := f64_add expected_money_cost (f64_mul quality_penalty missed_high_rate) |}.

(** [sort_by(f64::total_cmp)], a stable sort. *)
Fixpoint sort_insert (x : f64) (l : list f64) : list f64 :=
  match l with
  | [] => [x]
  | y :: l' => match f64_total_cmp x y with Gt => y :: sort_insert x l' | _ => x :: l end
  end.
Definition sort_by_total_cmp (l : list f64) : list f64 := foldr sort_insert [] l.

(** [dedup_by(|left, right| left.total_cmp(right).is_eq())]. *)
Fixpoint dedup_after (kept : f64) (l : list f64) : list f64 :=
  match l with
  | [] => []
  | x :: l => match f64_total_cmp x kept with Eq => dedup_after kept l | _ => x :: dedup_after x l end
  end.
Definition dedup_by_total_cmp (l : list f64) : list f64 :=
  match l with [] => [] | x :: l => x :: dedup_after x l end.

Definition candidate_cuts (samples : list ThresholdSample) : list f64 :=
  dedup_by_total_cmp (sort_by_total_cmp
    (f64_zero :: f64_one :: map (fun sample => python_round (sample_score sample) 4) samples)).

(** One iteration over the candidates: [(best_loss, best_cuts)]. *)
Definition scan_step (loss : f64 -> f64) (best : f64 * list f64) (candidate : f64) : f64 * list f64 :=
  let '(best_loss, best_cuts) := best in
  if f64_lt (loss candidate) (f64_sub best_loss OBJECTIVE_EPSILON) then (loss candidate, [candidate])
  else if f64_le (f64_abs (f64_sub (loss candidate) best_loss)) OBJECTIVE_EPSILON
  then (best_loss, best_cuts ++ [candidate])
  else best.

Definition loss_at (samples : list ThresholdSample) (low_cost high_cost quality_penalty cut : f64) : f64 :=
  expected_loss (metrics_at samples cut low_cost high_cost quality_penalty).

Definition calibrate_min_cost (samples : list ThresholdSample) (low_cost high_cost quality_penalty : f64)
    : result MinCostCalibration CalibrationError :=
  let? _ := validate_inputs samples low_cost high_cost quality_penalty in
  let loss := loss_at samples low_cost high_cost quality_penalty in
  let '(_, best_cuts) := foldl (scan_step loss) (f64_infinity, []) (candidate_cuts samples) in
  let chosen := default f64_zero (best_cuts !! (length best_cuts / 2)%nat) in
  Ok (metrics_at samples chosen low_cost high_cost quality_penalty).

(** ** Specification *)

Definition valid_score (s : ThresholdSample) : Prop :=
  f64_is_finite (sample_score s) = true /\ f64_in_range f64_zero f64_one (sample_score s) = true.

Definition valid_cost (v : f64) : Prop := f64_is_finite v = true /\ f64_lt v f64_zero = false.

Record valid_inputs (samples : list ThresholdSample) (low_cost high_cost quality_penalty : f64) : Prop := {
  vi_scores : Forall valid_score samples;
  vi_high : exists s, s ∈ samples /\ requires_high s = true;
  vi_low : exists s, s ∈ samples /\ requires_high s = false;
  vi_costs : valid_cost low_cost /\ valid_cost high_cost /\ valid_cost quality_penalty;
  vi_ordered : f64_lt low_cost high_cost = true;
}.

(** A loss that arithmetic treats like a number: finite, and not raised by
    subtracting the tie tolerance. *)
Definition regular_loss (v : f64) : bool :=
  f64_is_finite v && f64_le (f64_sub v OBJECTIVE_EPSILON) v.

(** A loss the scan can rank: a regular one, or one whose sum overflowed. *)
Definition comparable_loss (v : f64) : bool :=
  match v with S754_infinity false => true | _ => regular_loss v end.

Definition ties (a b : f64) : Prop := a = b \/ f64_le (f64_abs (f64_sub a b)) OBJECTIVE_EPSILON = true.

(** ** Lemmas *)

Lemma elem_of_sort_insert x y l : y ∈ sort_insert x l <-> y = x \/ y ∈ l.
Proof.
  induction l as [|z l IH]; simpl; [set_solver|]. destruct (f64_total_cmp x z); set_solver.
Qed.

Lemma elem_of_sort y l : y ∈ sort_by_total_cmp l <-> y ∈ l.
Proof. induction l as [|x l IH]; simpl; [done|]. rewrite elem_of_sort_insert, IH. set_solver. Qed.

Lemma elem_of_dedup_after y kept l : y ∈ dedup_after kept l -> y ∈ l.
Proof.
  revert kept. induction l as [|x l IH]; intros kept; simpl; [done|].
  destruct (f64_total_cmp x kept); set_solver.
Qed.

Lemma dedup_nonempty l : l <> [] -> dedup_by_total_cmp l <> [].
Proof. by destruct l. Qed.

Lemma candidate_cuts_nonempty samples : candidate_cuts samples <> [].
Proof.
  apply dedup_nonempty. intros Hn. assert (f64_zero ∈ @nil f64) as Hin; [|set_solver].
  rewrite <- Hn. apply elem_of_sort. set_solver.
Qed.

Lemma validate_scores_ok index samples : validate_scores index samples = Ok () <-> Forall valid_score samples.
Proof.
  revert index. induction samples as [|s samples IH]; intros index; simpl; [split; [constructor|done]|].
  rewrite Forall_cons. unfold valid_score at 1.
  destruct (f64_is_finite _), (f64_in_range _ _ _); simpl; rewrite ?IH; naive_solver.
Qed.

Lemma validate_cost_ok name v : validate_cost name v = Ok () <-> valid_cost v.
Proof. unfold validate_cost, valid_cost. destruct (f64_is_finite v), (f64_lt v f64_zero); simpl; naive_solver. Qed.

Lemma existsb_exists' {A} (f : A -> bool) l : existsb f l = true <-> exists x, x ∈ l /\ f x = true.
Proof. rewrite existsb_exists. by setoid_rewrite list_elem_of_In. Qed.

Lemma unit_bind {B E} (r : result unit E) (k : result B E) b :
  result_bind r (fun _ => k) = Ok b <-> r = Ok () /\ k = Ok b.
Proof. destruct r as [[]|]; simpl; naive_solver. Qed.

Lemma validate_inputs_ok samples low high penalty :
  validate_inputs samples low high penalty = Ok () <-> valid_inputs samples low high penalty.
Proof.
  unfold validate_inputs. destruct samples as [|s0 samples0].
  { split; [done|]. intros [_ (s & Hs & _) _ _ _]. by apply elem_of_nil in Hs. }
  remember (s0 :: samples0) as samples eqn:E. clear E.
  rewrite unit_bind, validate_scores_ok.
  destruct (existsb requires_high samples) eqn:Hh; cbn [negb orb];
    [destruct (existsb (fun s => negb (requires_high s)) samples) eqn:Hl; cbn [negb]|].
  - rewrite !unit_bind, !validate_cost_ok.
    apply existsb_exists' in Hh. apply existsb_exists' in Hl. setoid_rewrite negb_true_iff in Hl.
    split.
    + intros (Hs & Hlc & Hhc & Hq & Hle). destruct (f64_le high low) eqn:?; [done|].
      constructor; try done. apply f64_not_le_gt; [..|done]; apply f64_finite_not_nan; [apply Hhc|apply Hlc].
    + intros [Hs _ _ (? & ? & ?) Hlt]. split_and!; try done. by rewrite (f64_lt_not_ge _ _ Hlt).
  - split; [naive_solver|]. intros [_ _ (s & Hs & Hr) _ _].
    assert (existsb (fun s => negb (requires_high s)) samples = true); [|congruence].
    apply existsb_exists'. exists s. by rewrite Hr.
  - split; [naive_solver|]. intros [_ (s & Hs & Hr) _ _ _].
    assert (existsb requires_high samples = true); [|congruence]. apply existsb_exists'. eauto.
Qed.

(** The scan after the cuts [done]: an incumbent that no scanned cut beats by
    more than the tolerance, and the cuts tied with it. *)
Record scanned (loss : f64 -> f64) (seen : list f64) (best : f64 * list f64) : Prop := {
  sc_best : exists b, b ∈ seen /\ fst best = loss b;
  sc_cuts : snd best <> [] /\ Forall (fun c => c ∈ seen /\ ties (loss c) (fst best)) (snd best);
  sc_minimal : forall c, c ∈ seen -> f64_lt (loss c) (f64_sub (fst best) OBJECTIVE_EPSILON) = false;
}.

Lemma regular_not_below v : regular_loss v = true -> f64_lt v (f64_sub v OBJECTIVE_EPSILON) = false.
Proof.
  intros [_ Hle]%andb_true_iff. destruct (f64_lt v _) eqn:Hlt; [|done].
  apply f64_lt_not_ge in Hlt. congruence.
Qed.

Lemma comparable_overflowed v : comparable_loss v = true -> regular_loss v = false -> v = f64_infinity.
Proof. unfold comparable_loss. destruct v as [|[]| |]; intros H1 H2; first [reflexivity | rewrite H1 in H2; discriminate H2]. Qed.

Lemma comparable_below v w : comparable_loss v = true -> f64_lt v w = true -> regular_loss v = true.
Proof. by destruct v as [|[]| |], w as [|[]| |[]]. Qed.

Lemma infinity_not_below w : f64_lt f64_infinity w = false.
Proof. by destruct w as [|[]| |[]]. Qed.

Lemma scan_step_inv loss seen best c :
  comparable_loss (loss c) = true -> scanned loss seen best -> scanned loss (seen ++ [c]) (scan_step loss best c).
Proof.
  intros Hc [(b & Hb & Hbl) [Hne Hcuts] Hmin]. destruct best as [bl cuts].
  cbn [fst snd] in *. unfold scan_step. destruct (f64_lt (loss c) _) eqn:Hlt.
  - pose proof (comparable_below _ _ Hc Hlt) as Hr. split; cbn [fst snd].
    + exists c. split; [set_solver|done].
    + split; [done|]. apply Forall_singleton. split; [set_solver|by left].
    + intros c' [Hc'|Hc']%elem_of_app;
        [|apply list_elem_of_singleton in Hc' as ->; by apply regular_not_below].
      destruct (f64_lt (loss c') (f64_sub (loss c) _)) eqn:Hlt'; [|done].
      rewrite <- (Hmin c' Hc'). symmetry. eapply f64_lt_trans; [done|].
      eapply f64_le_lt_trans; [|done]. by apply andb_true_iff in Hr as [_ ?].
  - assert (Hmin' : forall c', c' ∈ seen ++ [c] -> f64_lt (loss c') (f64_sub bl OBJECTIVE_EPSILON) = false).
    { intros c' [Hc'|Hc']%elem_of_app; [auto|]. by apply list_elem_of_singleton in Hc' as ->. }
    assert (Hcuts' : Forall (fun c' => c' ∈ seen ++ [c] /\ ties (loss c') bl) cuts).
    { eapply Forall_impl; [exact Hcuts|]. intros ? [? ?]. split; [set_solver|done]. }
    destruct (f64_le (f64_abs _) OBJECTIVE_EPSILON) eqn:Htie; split; cbn [fst snd];
      try (exists b; split; [set_solver|done]); try done.
    split; [by destruct cuts|]. apply Forall_app. split; [done|]. apply Forall_singleton.
    split; [set_solver|by right].
Qed.

Lemma scan_inv loss seen best cuts :
  Forall (fun c => comparable_loss (loss c) = true) cuts -> scanned loss seen best ->
  scanned loss (seen ++ cuts) (foldl (scan_step loss) best cuts).
Proof.
  intros Hr. revert seen best. induction Hr as [|c cuts Hc Hr IH]; intros seen best Hinv; cbn [foldl]; [by rewrite app_nil_r|].
  rewrite cons_middle, (assoc_L (++)). by apply IH, scan_step_inv.
Qed.

(** The first cut whose loss is finite, after cuts whose losses overflowed. *)
Lemma scan_first loss seen c :
  Forall (fun c => loss c = f64_infinity) seen -> regular_loss (loss c) = true ->
  scanned loss (seen ++ [c]) (scan_step loss (f64_infinity, []) c).
Proof.
  intros Hinf Hr. unfold scan_step. replace (f64_sub f64_infinity OBJECTIVE_EPSILON) with f64_infinity by by vm_compute.
  assert (f64_lt (loss c) f64_infinity = true) as ->.
  { apply andb_true_iff in Hr as [Hf _]. by destruct (loss c) as [| | |[]]. }
  split; cbn [fst snd].
  - exists c. split; [set_solver|done].
  - split; [done|]. apply Forall_singleton. split; [set_solver|by left].
  - intros c' [Hc'|Hc']%elem_of_app.
    + rewrite Forall_forall in Hinf. rewrite (Hinf _ Hc'). apply infinity_not_below.
    + apply list_elem_of_singleton in Hc' as ->. by apply regular_not_below.
Qed.

(** The whole scan: the least losses, or no cut at all when every loss overflowed. *)
Lemma scan_all loss seen cuts :
  Forall (fun c => loss c = f64_infinity) seen -> Forall (fun c => comparable_loss (loss c) = true) cuts ->
  scanned loss (seen ++ cuts) (foldl (scan_step loss) (f64_infinity, []) cuts) /\
    (exists c, c ∈ cuts /\ regular_loss (loss c) = true) \/
  Forall (fun c => loss c = f64_infinity) (seen ++ cuts) /\
  foldl (scan_step loss) (f64_infinity, []) cuts = (f64_infinity, []).
Proof.
  intros Hinf Hr. revert seen Hinf. induction Hr as [|c cuts Hc Hr IH]; intros seen Hinf; cbn [foldl].
  { right. by rewrite app_nil_r. }
  rewrite cons_middle, (assoc_L (++)). destruct (regular_loss (loss c)) eqn:Hrc.
  - left. split; [by apply scan_inv, scan_first|]. exists c. split; [left|done].
  - pose proof (comparable_overflowed _ Hc Hrc) as Hl.
    assert (scan_step loss (f64_infinity, []) c = (f64_infinity, [])) as ->.
    { unfold scan_step. rewrite Hl. by vm_compute. }
    destruct (IH (seen ++ [c])) as [[Hs (d & Hd & Hrd)]|Hall]; [apply Forall_app; by rewrite Forall_singleton|..].
    + left. split; [exact Hs|]. exists d. split; [by right|done].
    + by right.
Qed.

Lemma compare_finite_eq sa ma ea sb mb eb :
  SFcompare (S754_finite sa ma ea) (S754_finite sb mb eb) = Some Eq -> S754_finite sa ma ea = S754_finite sb mb eb.
Proof.
  unfold SFcompare. change (Pos.compare_cont Eq ma mb) with (Pos.compare ma mb). intros H.
  destruct sa, sb, (Z.compare_spec ea eb), (Pos.compare_spec ma mb); simpl in H; congruence.
Qed.

Lemma total_cmp_eq a b : f64_total_cmp a b = Eq -> a = b.
Proof.
  destruct a as [sa|sa| |sa ma ea], b as [sb|sb| |sb mb eb];
    try (destruct sa, sb; done); try (destruct sa; done); try (destruct sb; done); try (intros _; reflexivity).
  change (match SFcompare (S754_finite sa ma ea) (S754_finite sb mb eb) with Some c => c | None => Eq end = Eq ->
    S754_finite sa ma ea = S754_finite sb mb eb).
  intros H. apply compare_finite_eq. revert H. unfold SFcompare. destruct sa, sb, (ea ?= eb); congruence.
Qed.

Lemma dedup_after_keeps y kept l : y ∈ l -> y = kept \/ y ∈ dedup_after kept l.
Proof.
  revert kept. induction l as [|x l IH]; intros kept; [set_solver|]. intros [->|Hy]%elem_of_cons; cbn [dedup_after];
    destruct (f64_total_cmp x kept) eqn:E; try apply total_cmp_eq in E; try set_solver.
Qed.

Lemma zero_candidate samples : f64_zero ∈ candidate_cuts samples.
Proof.
  unfold candidate_cuts. assert (f64_zero ∈ sort_by_total_cmp (f64_zero :: f64_one
    :: map (fun sample => python_round (sample_score sample) 4) samples)) as Hin by (apply elem_of_sort; set_solver).
  destruct (sort_by_total_cmp _) as [|x l]; [done|]. cbn [dedup_by_total_cmp].
  apply elem_of_cons in Hin as [->|Hin]; [set_solver|]. destruct (dedup_after_keeps _ x _ Hin); set_solver.
Qed.

(** ** Properties *)

(** Calibration answers exactly on valid inputs: at least one sample of
    each label, scores in [0.0..=1.0], finite non-negative costs, and a
    high-quality arm that is the more expensive one. *)
Theorem calibrate_ok_iff samples low high penalty :
  is_ok (calibrate_min_cost samples low high penalty) = true <-> valid_inputs samples low high penalty.
Proof.
  rewrite <- validate_inputs_ok. unfold calibrate_min_cost.
  destruct (validate_inputs samples low high penalty) as [[]|]; simpl; [|done].
  destruct (foldl _ _ _). done.
Qed.

(** C40: The calibrated threshold is optimal among the candidate cuts (0.0, 1.0
    and every score rounded to four decimals): it is one of them, the metrics
    returned are its own, its loss ties with a best cut, and no candidate cut has
    a loss below the best one by more than the tie tolerance.  Losses may
    overflow: a cut whose loss is infinite is never preferred to one whose loss
    is finite, and when every loss is infinite the threshold is the fallback
    0.0.  What is asked of the losses is that each is a finite number that
    subtracting the tolerance does not raise, or infinite. *)
Theorem calibrate_optimal samples low high penalty m :
  let loss := loss_at samples low high penalty in
  Forall (fun c => comparable_loss (loss c) = true) (candidate_cuts samples) ->
  calibrate_min_cost samples low high penalty = Ok m ->
  threshold m ∈ candidate_cuts samples /\
  m = metrics_at samples (threshold m) low high penalty /\
  (Forall (fun c => loss c = f64_infinity) (candidate_cuts samples) -> threshold m = f64_zero) /\
  exists best, best ∈ candidate_cuts samples /\ ties (expected_loss m) (loss best) /\
    forall c, c ∈ candidate_cuts samples -> f64_lt (loss c) (f64_sub (loss best) OBJECTIVE_EPSILON) = false.
Proof.
  intros loss Hr. unfold calibrate_min_cost. intros (_ & _ & H)%result_bind_ok. fold loss in H.
  destruct (scan_all loss [] (candidate_cuts samples)) as [[[(b & Hb & Hbl) [Hne Hcuts] Hmin] (d & Hd & Hrd)]|[Hinf Hf]];
    [constructor|exact Hr|..]; cbn [app] in *.
  - destruct (foldl _ _ _) as [bl cuts]. cbn [fst snd] in *.
    assert (length cuts / 2 < length cuts)%nat as Hlt.
    { destruct cuts; [done|]. apply Nat.div_lt; simpl; lia. }
    destruct (lookup_lt_is_Some_2 _ _ Hlt) as [c Hc]. rewrite Hc in H. injection H as <-.
    eapply Forall_lookup_1 in Hcuts as [Hin Htie]; [|exact Hc].
    split; [done|]. split; [done|]. split; [|exists b; by rewrite <- Hbl].
    intros Hinf. rewrite Forall_forall in Hinf.
    by rewrite (Hinf _ Hd) in Hrd.
  - rewrite Hf in H. injection H as <-. cbn [threshold metrics_at].
    split; [apply zero_candidate|]. split; [done|]. split; [done|]. exists f64_zero.
    split; [apply zero_candidate|]. split; [by left|]. intros c Hc.
    rewrite Forall_forall in Hinf. rewrite (Hinf _ Hc). apply infinity_not_below.
Qed.

Definition sample_set : list ThresholdSample :=
  [Build_ThresholdSample (f64_dec 5 2) false; Build_ThresholdSample (f64_dec 4 1) true;
   Build_ThresholdSample (f64_dec 2 1) false].

Definition ok_or_zero (r : result MinCostCalibration CalibrationError) : MinCostCalibration :=
  match r with
  | Ok m => m
  | Err _ => Build_MinCostCalibration f64_zero f64_zero f64_zero f64_zero f64_zero f64_zero
  end.

Definition sample_calibration : MinCostCalibration :=
  ok_or_zero (calibrate_min_cost sample_set f64_one (f64_of_Z 10) (f64_of_Z 50)).

Example sample_calibration_threshold : threshold sample_calibration = f64_dec 4 1.
Proof. vm_compute. reflexivity. Qed.

Lemma calibrate_optimal_witness :
  threshold sample_calibration ∈ candidate_cuts sample_set /\
  sample_calibration = metrics_at sample_set (threshold sample_calibration) f64_one (f64_of_Z 10) (f64_of_Z 50) /\
  (Forall (fun c => loss_at sample_set f64_one (f64_of_Z 10) (f64_of_Z 50) c = f64_infinity) (candidate_cuts sample_set) ->
   threshold sample_calibration = f64_zero) /\
  exists best, best ∈ candidate_cuts sample_set /\
    ties (expected_loss sample_calibration) (loss_at sample_set f64_one (f64_of_Z 10) (f64_of_Z 50) best) /\
    forall c, c ∈ candidate_cuts sample_set ->
      f64_lt (loss_at sample_set f64_one (f64_of_Z 10) (f64_of_Z 50) c)
        (f64_sub (loss_at sample_set f64_one (f64_of_Z 10) (f64_of_Z 50) best) OBJECTIVE_EPSILON) = false.
Proof.
  apply (calibrate_optimal sample_set f64_one (f64_of_Z 10) (f64_of_Z 50) sample_calibration).
  - apply forallb_Forall. vm_compute. reflexivity.
  - vm_compute. reflexivity.
Defined.

(** Costs near the largest double: every loss overflows, every cut is as bad as
    the others, and the threshold is the fallback. *)
Definition overflowing_calibration : MinCostCalibration :=
  ok_or_zero (calibrate_min_cost sample_set (f64_div f64_max_value (f64_of_Z 2)) f64_max_value f64_zero).

Example overflow_falls_back :
  (threshold overflowing_calibration, expected_loss overflowing_calibration) = (f64_zero, f64_infinity).
Proof. vm_compute. reflexivity. Qed.
