(* ===== verification/Reliability.v ===== *)
(** * Delivery reliability (crate [wayfinder-providers], [src/reliability.rs],
    and crate [wayfinder-gateway], [src/reliability.rs])

    The circuit breaker, delivery plans, failover and retry delays, and the
    gateway policy that leases attempts against a shared breaker.  The clock
    and the jitter source are called by the code: each call is a value passed
    to the operation that makes it.  A poisoned lock is not modelled. *)
From S2P Require Export PyRound GatewayConfig.

(** ** Retry policy *)

Definition RETRYABLE_STATUS : list Z := [429; 500; 502; 503; 504].
Definition AUTH_FAILURE_STATUS : list Z := [401; 403; 407].

Definition is_retryable (status : option Z) : bool :=
  match status with None => true | Some value => existsb (Z.eqb value) RETRYABLE_STATUS end.

Definition is_auth_failure (status : option Z) : bool :=
  match status with None => false | Some value => existsb (Z.eqb value) AUTH_FAILURE_STATUS end.

Definition finite_or_zero (v : f64) : f64 := if f64_is_finite v then f64_max v f64_zero else f64_zero.

Definition i32_max : Z := 2147483647.

Definition retry_delay (base cap : f64) (index : nat) (sample : f64) : f64 :=
  let exponent := if Z.of_nat index <=? i32_max then Z.of_nat index else i32_max in
  let slot := f64_min (f64_mul base (f64_powi (f64_of_Z 2) exponent)) cap in
  let jitter := if f64_is_finite sample then f64_clamp sample f64_zero f64_one else f64_zero in
  python_round (f64_mul slot jitter) 6.

(** [rng index] is the value of the [index]-th call of the jitter source. *)
Definition retry_delays_with (retries : nat) (base_seconds cap_seconds : f64) (rng : nat -> f64) : list f64 :=
  let base := finite_or_zero base_seconds in
  let cap := finite_or_zero cap_seconds in
  map (fun index => retry_delay base cap index (rng index)) (seq 0 retries).

(** ** Circuit breaker *)
Record CircuitBreaker := {
  cb_threshold : Z;
  cooldown_seconds : f64;
  failures : gmap str Z;
  opened_at : gmap str f64;
  half_open : gset str;
}.

Inductive CircuitAttempt := Closed | HalfOpen.

#[export] Instance CircuitAttempt_eq_dec : EqDecision CircuitAttempt.
Proof. solve_decision. Defined.

Definition CircuitBreaker_new (threshold : Z) (cooldown : f64) : CircuitBreaker :=
  {| cb_threshold := Z.max threshold 1; cooldown_seconds := finite_or_zero cooldown;
     failures := ∅; opened_at := ∅; half_open := ∅ |}.

Definition default_breaker : CircuitBreaker := CircuitBreaker_new 5 (f64_of_Z 30).

Definition allow_at (b : CircuitBreaker) (target : str) (now : f64) : bool :=
  if bool_decide (target ∈ half_open b) then false
  else match opened_at b !! target with
       | None => true
       | Some opened => f64_ge (f64_sub now opened) (cooldown_seconds b)
       end.

Definition set_half_open (b : CircuitBreaker) (h : gset str) : CircuitBreaker :=
  {| cb_threshold := cb_threshold b; cooldown_seconds := cooldown_seconds b;
     failures := failures b; opened_at := opened_at b; half_open := h |}.

Definition begin_at (b : CircuitBreaker) (target : str) (now : f64)
    : CircuitBreaker * option CircuitAttempt :=
  match opened_at b !! target with
  | None => (b, Some Closed)
  | Some opened =>
      if f64_lt (f64_sub now opened) (cooldown_seconds b) then (b, None)
      else if bool_decide (target ∈ half_open b) then (b, None)
      else (set_half_open b ({[target]} ∪ half_open b), Some HalfOpen)
  end.

Definition is_open_at (b : CircuitBreaker) (target : str) (now : f64) : bool := negb (allow_at b target now).

Definition record_at (b : CircuitBreaker) (target : str) (succeeded : bool) (now : f64) : CircuitBreaker :=
  let half := half_open b ∖ {[target]} in
  if succeeded then
    {| cb_threshold := cb_threshold b; cooldown_seconds := cooldown_seconds b;
       failures := delete target (failures b); opened_at := delete target (opened_at b);
       half_open := half |}
  else
    let count := u64_sat_add (default 0 (failures b !! target)) 1 in
    {| cb_threshold := cb_threshold b; cooldown_seconds := cooldown_seconds b;
       failures := <[target := count]> (failures b);
       opened_at := if cb_threshold b <=? count then <[target := now]> (opened_at b) else opened_at b;
       half_open := half |}.

Definition abandon_at (b : CircuitBreaker) (target : str) (attempt : CircuitAttempt) (now : f64)
    : CircuitBreaker :=
  match attempt with HalfOpen => record_at b target false now | Closed => b end.

(** ** Delivery plan and failover *)

(** The first filter: [seen.insert(target)]. *)
Fixpoint dedup_targets (seen : gset str) (targets : list str) : list str :=
  match targets with
  | [] => []
  | target :: targets =>
      if bool_decide (target ∈ seen) then dedup_targets seen targets
      else target :: dedup_targets ({[target]} ∪ seen) targets
  end.

Definition delivery_plan (primary : str) (fallbacks : list str) (breaker : option (CircuitBreaker * f64))
    (allow : str -> bool) : list str :=
  List.filter allow
    (List.filter
      (fun target => match breaker with None => true | Some (state, now) => allow_at state target now end)
      (dedup_targets ∅ (primary :: fallbacks))).

Inductive FailoverPolicy := SameTier | Degrade | Escalate.

Fixpoint index_of (chosen : str) (ladder : list str) : option nat :=
  match ladder with
  | [] => None
  | model :: ladder => if str_eqb model chosen then Some 0%nat else S <$> index_of chosen ladder
  end.

Definition failover_candidates (chosen : str) (ladder : list str) (policy : FailoverPolicy) : list str :=
  match index_of chosen ladder with
  | None => []
  | Some index =>
      match policy with
      | SameTier => []
      | Degrade => rev (take index ladder)
      | Escalate => drop (S index) ladder
      end
  end.

Definition precheck_ok (estimated_tokens : Z) (context_window : option Z) : bool :=
  match context_window with None => true | Some window => estimated_tokens <=? window end.

(** ** The gateway policy *)

Definition RETRY_BASE_SECONDS : f64 := f64_dec 2 1.
Definition RETRY_CAP_SECONDS : f64 := f64_of_Z 5.

Inductive ReliabilityError := InvalidBounds | InvalidPolicy | InvalidTime.

(** The policy; the shared breaker is threaded through its operations. *)
Record ReliabilityPolicy := {
  rp_retries : nat;
  rp_failover : FailoverPolicy;
  rp_breaker_threshold : Z;
  rp_breaker_cooldown_ms : Z;
}.

Record ReliabilityAttempt := {
  at_target : str;
  at_state : CircuitAttempt;
}.

Definition parse_failover (value : str) : option FailoverPolicy :=
  if str_eqb value (lit "same-tier") then Some SameTier
  else if str_eqb value (lit "degrade") then Some Degrade
  else if str_eqb value (lit "escalate") then Some Escalate
  else None.

(** [Duration::try_from_secs_f64(v)], in nanoseconds: rounded half to even,
    refused when negative, not finite or beyond the [u64] seconds of a
    [Duration]. *)
Definition duration_nanos (v : f64) : option Z :=
  match v with
  | S754_zero _ => Some 0
  | S754_finite false m e =>
      let nanos :=
        if 0 <=? e then Zpos m * 2 ^ e * 10 ^ 9 else div_half_even (Zpos m * 10 ^ 9) (2 ^ (- e)) in
      if nanos / 10 ^ 9 <=? u64_max then Some nanos else None
  | _ => None
  end.

Definition from_gateway_config (config : GatewayConfig)
    : result (ReliabilityPolicy * CircuitBreaker) ReliabilityError :=
  let? nanos := ok_or (duration_nanos (gc_breaker_cooldown config)) InvalidBounds in
  let millis := nanos / 10 ^ 6 in
  let? millis := if millis <=? u64_max then Ok millis else Err InvalidBounds in
  let? failover := ok_or (parse_failover (gc_failover config)) InvalidPolicy in
  Ok ({| rp_retries := Z.to_nat (gc_retries config);
         rp_failover := failover;
         rp_breaker_threshold := Z.max (gc_breaker_threshold config) 1;
         rp_breaker_cooldown_ms := Z.max millis 1 |},
      CircuitBreaker_new (gc_breaker_threshold config) (gc_breaker_cooldown config)).

(** [header.and_then(parse_failover).unwrap_or(self.failover)]. *)
Definition effective_failover (p : ReliabilityPolicy) (header : option str) : FailoverPolicy :=
  default (rp_failover p) (header ≫= parse_failover).

Definition retry_delays (p : ReliabilityPolicy) (jitter : nat -> f64) : list f64 :=
  retry_delays_with (rp_retries p) RETRY_BASE_SECONDS RETRY_CAP_SECONDS jitter.

Definition validated_now (now : f64) : result f64 ReliabilityError :=
  if f64_is_finite now && f64_ge now f64_zero then Ok now else Err InvalidTime.

Definition policy_delivery_plan (b : CircuitBreaker) (clock : f64) (primary : str) (candidates : list str)
    (allow : str -> bool) : result (list str) ReliabilityError :=
  let? now := validated_now clock in
  Ok (delivery_plan primary candidates (Some (b, now)) allow).

Definition target_available (b : CircuitBreaker) (clock : f64) (target : str) : result bool ReliabilityError :=
  let? plan := policy_delivery_plan b clock target [] (fun _ => true) in
  Ok (match plan with [] => false | _ => true end).

Definition begin_attempt (b : CircuitBreaker) (clock : f64) (target : str)
    : result (CircuitBreaker * option ReliabilityAttempt) ReliabilityError :=
  let? now := validated_now clock in
  let '(b', state) := begin_at b target now in
  Ok (b', (fun s => {| at_target := target; at_state := s |}) <$> state).

(** [Drop] of an attempt that was not completed. *)
Definition drop_attempt (b : CircuitBreaker) (attempt : ReliabilityAttempt) (clock : f64) : CircuitBreaker :=
  match at_state attempt with
  | Closed => b
  | HalfOpen =>
      match validated_now clock with
      | Err _ => b
      | Ok now => abandon_at b (at_target attempt) (at_state attempt) now
      end
  end.

(** [complete] consumes the attempt: when its clock is invalid the error
    returns and the drop runs, with its own clock reading. *)
Definition complete (b : CircuitBreaker) (attempt : ReliabilityAttempt) (succeeded : bool)
    (clock drop_clock : f64) : CircuitBreaker * result unit ReliabilityError :=
  match validated_now clock with
  | Err e => (drop_attempt b attempt drop_clock, Err e)
  | Ok now => (record_at b (at_target attempt) succeeded now, Ok ())
  end.

Definition record (b : CircuitBreaker) (clock : f64) (target : str) (succeeded : bool)
    : result CircuitBreaker ReliabilityError :=
  let? now := validated_now clock in Ok (record_at b target succeeded now).

(** ** Breaker histories *)
Inductive breaker_op :=
| OpBegin (target : str) (now : f64)
| OpRecord (target : str) (succeeded : bool) (now : f64)
| OpAbandon (target : str) (attempt : CircuitAttempt) (now : f64).

Definition run_op (b : CircuitBreaker) (op : breaker_op) : CircuitBreaker :=
  match op with
  | OpBegin target now => fst (begin_at b target now)
  | OpRecord target succeeded now => record_at b target succeeded now
  | OpAbandon target attempt now => abandon_at b target attempt now
  end.

Definition run_ops (b : CircuitBreaker) (ops : list breaker_op) : CircuitBreaker := foldl run_op b ops.

(** The operations that settle a target: those that record an outcome for it. *)
Definition settles (target : str) (op : breaker_op) : bool :=
  match op with
  | OpBegin _ _ => false
  | OpRecord t _ _ => str_eqb t target
  | OpAbandon t attempt _ => str_eqb t target && bool_decide (attempt = HalfOpen)
  end.

Definition op_target (op : breaker_op) : str :=
  match op with OpBegin t _ | OpRecord t _ _ | OpAbandon t _ _ => t end.

(** ** Invariant *)
Record wf_breaker (b : CircuitBreaker) : Prop := {
  wb_threshold : 1 <= cb_threshold b <= u64_max;
  wb_counts : forall t n, failures b !! t = Some n -> 1 <= n <= u64_max;
  wb_opened : forall t, is_Some (opened_at b !! t) <->
                        exists n, failures b !! t = Some n /\ cb_threshold b <= n;
  wb_half : forall t, t ∈ half_open b -> is_Some (opened_at b !! t);
}.

Lemma wf_breaker_new threshold cooldown :
  0 <= threshold <= u64_max -> wf_breaker (CircuitBreaker_new threshold cooldown).
Proof.
  intros. constructor; simpl.
  - u64.
  - intros t n. by rewrite lookup_empty.
  - intros t. rewrite !lookup_empty. split; [intros [? [=]]|naive_solver].
  - set_solver.
Qed.

Lemma wf_breaker_record b target succeeded now :
  wf_breaker b -> wf_breaker (record_at b target succeeded now).
Proof.
  intros [Ht Hc Ho Hh]. unfold record_at. destruct succeeded.
  - constructor; cbn [cb_threshold failures opened_at half_open].
    + done.
    + intros t n [_ ?]%lookup_delete_Some. eauto.
    + intros t. destruct (decide (target = t)) as [->|Hne].
      * rewrite !lookup_delete_eq. split; [by intros [? ?]|naive_solver].
      * by rewrite !lookup_delete_ne.
    + intros t [Hin Hne%not_elem_of_singleton]%elem_of_difference. rewrite lookup_delete_ne by congruence. auto.
  - set (count := u64_sat_add _ 1).
    assert (Hcount : 1 <= count <= u64_max).
    { subst count. destruct (failures b !! target) eqn:E; simpl; [apply Hc in E|]; u64. }
    assert (Hkeep : is_Some (opened_at b !! target) -> cb_threshold b <= count).
    { intros (n & Hn & Hle)%Ho. subst count. rewrite Hn. simpl. apply Hc in Hn. u64. }
    constructor; cbn [cb_threshold failures opened_at half_open].
    + done.
    + intros t n [[<- <-]|[_ ?]]%lookup_insert_Some; eauto.
    + intros t. destruct (decide (target = t)) as [<-|Hne].
      * rewrite lookup_insert_eq. destruct (Z.leb_spec (cb_threshold b) count).
        -- rewrite lookup_insert_eq. split; eauto.
        -- split; [intros ?%Hkeep; lia|]. intros (n & [= <-] & ?). lia.
      * rewrite lookup_insert_ne by done. destruct (cb_threshold b <=? count); [|done].
        by rewrite lookup_insert_ne.
    + intros t [Hin Hne%not_elem_of_singleton]%elem_of_difference.
      destruct (cb_threshold b <=? count); [|auto]. rewrite lookup_insert_ne by congruence. auto.
Qed.

Lemma wf_breaker_begin b target now : wf_breaker b -> wf_breaker (fst (begin_at b target now)).
Proof.
  intros Hwf. unfold begin_at. destruct (opened_at b !! target) eqn:E; [|done].
  case_match; [done|]. case_bool_decide; [done|]. destruct Hwf as [Ht Hc Ho Hh]. constructor; try done.
  simpl. intros t [->%elem_of_singleton|?]%elem_of_union; eauto.
Qed.

Lemma wf_breaker_run_op b op : wf_breaker b -> wf_breaker (run_op b op).
Proof.
  intros. destruct op as [t now|t ok now|t [] now]; cbn [run_op abandon_at];
    auto using wf_breaker_begin, wf_breaker_record.
Qed.

Lemma wf_breaker_run b ops : wf_breaker b -> wf_breaker (run_ops b ops).
Proof. revert b. induction ops as [|op ops IH]; intros b; simpl; auto using wf_breaker_run_op. Qed.

Lemma run_op_constants b op :
  cb_threshold (run_op b op) = cb_threshold b /\ cooldown_seconds (run_op b op) = cooldown_seconds b.
Proof.
  destruct op as [t now|t [] now|t [] now]; simpl; try done.
  unfold begin_at. repeat case_match; done.
Qed.

(** An operation on one target leaves every other target as it was. *)
Definition same_target (t : str) (b b' : CircuitBreaker) : Prop :=
  cb_threshold b' = cb_threshold b /\ cooldown_seconds b' = cooldown_seconds b /\
  failures b' !! t = failures b !! t /\
  opened_at b' !! t = opened_at b !! t /\ (t ∈ half_open b' <-> t ∈ half_open b).

Lemma record_other b target ok now t : t <> target -> same_target t b (record_at b target ok now).
Proof.
  intros Hne. unfold same_target, record_at. destruct ok; simpl.
  - rewrite !lookup_delete_ne by done. set_solver.
  - rewrite lookup_insert_ne by done.
    destruct (_ <=? _); rewrite ?lookup_insert_ne by done; set_solver.
Qed.

Lemma begin_other b target now t : t <> target -> same_target t b (fst (begin_at b target now)).
Proof.
  intros Hne. unfold same_target, begin_at. repeat case_match; simpl; try done. set_solver.
Qed.

Lemma run_op_other b op t : t <> op_target op -> same_target t b (run_op b op).
Proof.
  destruct op as [u now|u ok now|u [] now]; cbn [run_op abandon_at op_target]; intros; auto using record_other, begin_other.
  by unfold same_target.
Qed.

Lemma same_target_trans t b1 b2 b3 : same_target t b1 b2 -> same_target t b2 b3 -> same_target t b1 b3.
Proof. unfold same_target. intuition congruence. Qed.

(** What a target may do depends on its own entries only. *)
Lemma same_target_begin t b b' now :
  same_target t b b' -> snd (begin_at b' t now) = snd (begin_at b t now).
Proof.
  intros (_ & Hcd & _ & Ho & Hh). unfold begin_at. rewrite Hcd, Ho.
  destruct (opened_at b !! t); [|done]. destruct (f64_lt _ _); [done|].
  destruct (bool_decide (t ∈ half_open b')) eqn:E1, (bool_decide (t ∈ half_open b)) eqn:E2; try done;
    rewrite ?bool_decide_eq_true, ?bool_decide_eq_false in *; naive_solver.
Qed.

Lemma same_target_allow t b b' now : same_target t b b' -> allow_at b' t now = allow_at b t now.
Proof.
  intros (_ & Hcd & _ & Ho & Hh). unfold allow_at. rewrite Hcd, Ho.
  by rewrite (bool_decide_ext _ _ Hh).
Qed.

(** While a probe is out, it stays out until its target is settled. *)
Lemma probe_pending_step b t op :
  t ∈ half_open b -> settles t op = false -> t ∈ half_open (run_op b op).
Proof.
  destruct op as [u now|u ok now|u [] now]; simpl; intros Hin Hs; try done.
  - unfold begin_at. repeat case_match; simpl; set_solver.
  - apply str_eqb_neq in Hs. destruct ok; simpl; set_solver.
  - rewrite andb_true_r in Hs. apply str_eqb_neq in Hs. simpl. set_solver.
Qed.

Lemma probe_pending_run b t ops :
  t ∈ half_open b -> Forall (fun op => settles t op = false) ops -> t ∈ half_open (run_ops b ops).
Proof.
  intros Hin Hops. revert b Hin. induction Hops as [|op ops Hop _ IH]; intros b Hin; simpl; [done|].
  apply IH. by apply probe_pending_step.
Qed.

Lemma begin_half_open b t now b' :
  begin_at b t now = (b', Some HalfOpen) -> t ∈ half_open b' /\ t ∉ half_open b.
Proof.
  unfold begin_at. destruct (opened_at b !! t); [|done]. case_match; [done|].
  case_bool_decide; [done|]. intros [= <-]. simpl. set_solver.
Qed.

Lemma begin_denied_pending b t now :
  wf_breaker b -> t ∈ half_open b -> begin_at b t now = (b, None).
Proof.
  intros Hwf Hin. unfold begin_at. destruct (wb_half b Hwf t Hin) as [opened ->].
  destruct (f64_lt _ _); [done|]. by rewrite bool_decide_eq_true_2.
Qed.

(** [k] failures in a row. *)
Fixpoint fail_times (b : CircuitBreaker) (t : str) (times : list f64) : CircuitBreaker :=
  match times with [] => b | now :: times => fail_times (record_at b t false now) t times end.

Lemma fail_times_state b t times n :
  wf_breaker b -> default 0 (failures b !! t) = n -> n + len times <= u64_max ->
  let b' := fail_times b t times in
  cb_threshold b' = cb_threshold b /\ cooldown_seconds b' = cooldown_seconds b /\
  default 0 (failures b' !! t) = n + len times /\
  opened_at b' !! t =
    match last times with
    | Some now => if cb_threshold b <=? n + len times then Some now else opened_at b !! t
    | None => opened_at b !! t
    end.
Proof.
  revert b n. induction times as [|now times IH]; intros b n Hwf Hn Hmax; cbn [fail_times].
  - change (@len f64 []) with 0. rewrite Z.add_0_r. by split_and!.
  - rewrite len_cons in *. pose proof (len_nonneg times).
    assert (Hn0 : 0 <= n).
    { subst n. destruct (failures b !! t) eqn:E; simpl; [|lia]. apply (wb_counts b Hwf) in E. lia. }
    assert (Hn1 : default 0 (failures (record_at b t false now) !! t) = n + 1).
    { unfold record_at. simpl. rewrite lookup_insert_eq, Hn. simpl. u64. }
    destruct (IH (record_at b t false now) (n + 1) ltac:(by apply wf_breaker_record) Hn1 ltac:(lia))
      as (-> & -> & -> & ->).
    split_and!; [done|done|lia|].
    rewrite last_cons. simpl cb_threshold.
    replace (n + 1 + len times) with (n + (len times + 1)) by lia.
    destruct (last times) eqn:El.
    + destruct (Z.leb_spec (cb_threshold b) (n + (len times + 1))); [done|].
      unfold record_at. cbn [opened_at]. rewrite Hn.
      replace (cb_threshold b <=? u64_sat_add n 1) with false by u64. done.
    + apply last_None in El as ->. change (@len f64 []) with 0. unfold record_at. cbn [opened_at]. rewrite Hn.
      replace (u64_sat_add n 1) with (n + (0 + 1)) by u64.
      destruct (cb_threshold b <=? n + (0 + 1)); [|done]. by rewrite lookup_insert_eq.
Qed.

(** ** Delivery plans *)

Lemma elem_of_dedup seen targets x : x ∈ dedup_targets seen targets <-> x ∈ targets /\ x ∉ seen.
Proof.
  revert seen. induction targets as [|t targets IH]; intros seen; simpl; [set_solver|].
  case_bool_decide; [rewrite IH; set_solver|].
  rewrite elem_of_cons, IH, elem_of_cons, elem_of_union, elem_of_singleton.
  destruct (decide (x = t)) as [->|]; naive_solver.
Qed.

Lemma dedup_sublist seen targets : sublist (dedup_targets seen targets) targets.
Proof.
  revert seen. induction targets as [|t targets IH]; intros seen; simpl; [constructor|].
  case_bool_decide; by constructor.
Qed.

Lemma dedup_NoDup seen targets : NoDup (dedup_targets seen targets).
Proof.
  revert seen. induction targets as [|t targets IH]; intros seen; simpl; [constructor|].
  case_bool_decide; [done|]. constructor; [rewrite elem_of_dedup; set_solver|done].
Qed.

Lemma index_of_split chosen ladder index :
  index_of chosen ladder = Some index ->
  ladder = take index ladder ++ chosen :: drop (S index) ladder /\ chosen ∉ take index ladder.
Proof.
  revert index. induction ladder as [|m ladder IH]; intros index; simpl; [done|].
  destruct (str_eqb m chosen) eqn:E.
  - apply str_eqb_eq in E as ->. intros [= <-]. simpl. split; [done|set_solver].
  - apply str_eqb_neq in E. destruct (index_of chosen ladder) as [i|]; simpl; [|done]. intros [= <-].
    destruct (IH i eq_refl) as [He Hn]. simpl. split; [by f_equal|set_solver].
Qed.

Lemma index_of_None chosen ladder : index_of chosen ladder = None <-> chosen ∉ ladder.
Proof.
  induction ladder as [|m ladder IH]; simpl; [set_solver|].
  destruct (str_eqb m chosen) eqn:E; [apply str_eqb_eq in E as ->; set_solver|]. apply str_eqb_neq in E.
  destruct (index_of chosen ladder); simpl; set_solver.
Qed.

(** ** Properties *)

(** C36: The breaker's three tables agree in every history: a target is open
    exactly when its failure count has reached the threshold, a probe is out
    only for an open target, and counts stay in [1 ..= usize::MAX]. *)
Theorem breaker_invariant threshold cooldown ops :
  0 <= threshold <= u64_max -> wf_breaker (run_ops (CircuitBreaker_new threshold cooldown) ops).
Proof. intros. by apply wf_breaker_run, wf_breaker_new. Qed.

Definition t0 : str := lit "gpt".
Definition secs (n : Z) : f64 := f64_of_Z n.

Lemma breaker_invariant_witness :
  wf_breaker (run_ops (CircuitBreaker_new 1 (secs 30))
    [OpRecord t0 false (secs 1); OpBegin t0 (secs 40); OpAbandon t0 HalfOpen (secs 41)]).
Proof. apply breaker_invariant. unfold u64_max. lia. Defined.

(** A target with no recorded failure keeps being admitted until [threshold]
    failures in a row; from then on it is refused until the cooldown after the
    last failure has passed, when one half-open probe is granted. *)
Theorem breaker_opens_at_threshold b t times now :
  wf_breaker b -> failures b !! t = None -> t ∉ half_open b -> len times <= u64_max ->
  snd (begin_at (fail_times b t times) t now) =
  match last times with
  | None => Some Closed
  | Some opened =>
      if len times <? cb_threshold b then Some Closed
      else if f64_lt (f64_sub now opened) (cooldown_seconds b) then None
      else Some HalfOpen
  end.
Proof.
  intros Hwf Hf Hh Hlen.
  assert (Ho : opened_at b !! t = None).
  { apply eq_None_not_Some. rewrite (wb_opened b Hwf), Hf. naive_solver. }
  assert (Hn : default 0 (failures b !! t) = 0) by by rewrite Hf.
  destruct (fail_times_state b t times 0 Hwf Hn ltac:(lia)) as (_ & Hcd & _ & Hopen).
  assert (Hhalf : t ∉ half_open (fail_times b t times)).
  { clear -Hh. revert b Hh. induction times as [|x times IH]; intros b Hh; simpl; [done|].
    apply IH. simpl. set_solver. }
  unfold begin_at. rewrite Hopen, Hcd, Ho, Z.add_0_l.
  destruct (last times) as [opened|]; [|done].
  destruct (Z.leb_spec (cb_threshold b) (len times)).
  - replace (len times <? cb_threshold b) with false by lia.
    destruct (f64_lt _ _); [done|]. by rewrite bool_decide_eq_false_2.
  - by replace (len times <? cb_threshold b) with true by lia.
Qed.

Lemma breaker_opens_at_threshold_witness :
  snd (begin_at (fail_times (CircuitBreaker_new 2 (secs 30)) t0 [secs 1; secs 2]) t0 (secs 20)) = None /\
  snd (begin_at (fail_times (CircuitBreaker_new 2 (secs 30)) t0 [secs 1; secs 2]) t0 (secs 32)) = Some HalfOpen.
Proof.
  assert (wf_breaker (CircuitBreaker_new 2 (secs 30))) by (apply wf_breaker_new; unfold u64_max; lia).
  split; (rewrite breaker_opens_at_threshold; [|done|done|set_solver|vm_compute; discriminate]);
    vm_compute; reflexivity.
Defined.

(** C37: Half-open is single-flight: once a probe is granted for a target, no
    other attempt on it is granted until an outcome for that target is
    recorded (or the probe abandoned), whatever happens in between. *)
Theorem half_open_single_flight b t now b' ops now' :
  wf_breaker b -> begin_at b t now = (b', Some HalfOpen) ->
  Forall (fun op => settles t op = false) ops ->
  snd (begin_at (run_ops b' ops) t now') = None /\ allow_at (run_ops b' ops) t now' = false.
Proof.
  intros Hwf Hb Hops.
  assert (wf_breaker b') by (replace b' with (fst (begin_at b t now)) by (by rewrite Hb); by apply wf_breaker_begin).
  apply begin_half_open in Hb as [Hin _].
  pose proof (probe_pending_run b' t ops Hin Hops) as Hpend. split.
  - rewrite begin_denied_pending; [done|by apply wf_breaker_run|done].
  - unfold allow_at. by rewrite bool_decide_eq_true_2.
Qed.

Definition open_breaker : CircuitBreaker := run_ops (CircuitBreaker_new 1 (secs 30)) [OpRecord t0 false (secs 1)].

Lemma half_open_single_flight_witness :
  snd (begin_at (run_ops (fst (begin_at open_breaker t0 (secs 40)))
        [OpBegin t0 (secs 41); OpRecord (lit "other") true (secs 42)]) t0 (secs 99)) = None.
Proof.
  apply (half_open_single_flight open_breaker t0 (secs 40)).
  - apply wf_breaker_run, wf_breaker_new. unfold u64_max. lia.
  - vm_compute. reflexivity.
  - repeat (apply Forall_cons; split; [vm_compute; reflexivity|]). constructor.
Defined.

(** Targets are independent: operations on other targets never change
    whether a target is admitted. *)
Theorem breaker_targets_independent b ops t now :
  Forall (fun op => op_target op <> t) ops ->
  snd (begin_at (run_ops b ops) t now) = snd (begin_at b t now) /\
  allow_at (run_ops b ops) t now = allow_at b t now.
Proof.
  intros Hops. assert (same_target t b (run_ops b ops)).
  { revert b. induction Hops as [|op ops Hop _ IH]; intros b; cbn [run_ops foldl]; [by unfold same_target|].
    eapply same_target_trans; [by apply run_op_other|apply IH]. }
  split; [by apply same_target_begin|by apply same_target_allow].
Qed.

Lemma breaker_targets_independent_witness :
  snd (begin_at (run_ops open_breaker [OpRecord (lit "other") true (secs 2)]) t0 (secs 3)) =
  snd (begin_at open_breaker t0 (secs 3)).
Proof.
  apply breaker_targets_independent. apply Forall_singleton. discriminate.
Defined.

(** [allow_at] predicts [begin_at]: in a consistent breaker a target is
    reported available exactly when an attempt would be granted, whenever the
    two timestamps can be subtracted. *)
Theorem allow_at_predicts_begin_at b t now :
  wf_breaker b -> f64_is_nan (cooldown_seconds b) = false ->
  (forall opened, opened_at b !! t = Some opened -> f64_is_nan (f64_sub now opened) = false) ->
  allow_at b t now = true <-> is_Some (snd (begin_at b t now)).
Proof.
  intros Hwf Hcd Hnan. unfold allow_at, begin_at. case_bool_decide as Hin.
  - destruct (wb_half b Hwf t Hin) as [opened ->]. destruct (f64_lt _ _); simpl; split; try done; by intros [? ?].
  - destruct (opened_at b !! t) as [opened|]; [|by split].
    specialize (Hnan opened eq_refl). rewrite f64_ge_le.
    destruct (f64_lt (f64_sub now opened) (cooldown_seconds b)) eqn:Hlt; simpl.
    + rewrite (f64_lt_not_ge _ _ Hlt). split; [done|by intros [? ?]].
    + rewrite (f64_not_lt_ge _ _ Hnan Hcd Hlt). split; [eauto|done].
Qed.

Lemma allow_at_predicts_begin_at_witness :
  allow_at open_breaker t0 (secs 40) = true <-> is_Some (snd (begin_at open_breaker t0 (secs 40))).
Proof.
  apply allow_at_predicts_begin_at.
  - apply wf_breaker_run, wf_breaker_new. unfold u64_max. lia.
  - vm_compute. reflexivity.
  - intros opened H. vm_compute in H. injection H as <-. vm_compute. reflexivity.
Defined.

(** A lease never leaves its probe behind: completing or dropping a granted
    half-open attempt takes the target out of the half-open set, and a failed
    or dropped probe restarts the cooldown at that instant. *)
Theorem probe_lease_released b clock t b' attempt b1 succeeded c1 c2 now2 :
  wf_breaker b -> begin_attempt b clock t = Ok (b', Some attempt) -> at_state attempt = HalfOpen ->
  validated_now c2 = Ok now2 -> same_target t b' b1 -> wf_breaker b1 ->
  t ∉ half_open (fst (complete b1 attempt succeeded c1 c2)) /\
  t ∉ half_open (drop_attempt b1 attempt c2) /\
  opened_at (drop_attempt b1 attempt c2) !! t = Some now2.
Proof.
  intros Hwf Hbegin Hstate Hnow2 Hsame Hwf1. unfold begin_attempt in Hbegin.
  apply result_bind_ok in Hbegin as (now & _ & Hbegin).
  destruct (begin_at b t now) as [bb [state|]] eqn:Hb; [|discriminate Hbegin].
  injection Hbegin as <- <-. simpl in Hstate. subst state.
  apply begin_half_open in Hb as [Hin _].
  assert (Hin1 : t ∈ half_open b1) by (by apply Hsame).
  assert (Hdrop : drop_attempt b1 {| at_target := t; at_state := HalfOpen |} c2 = record_at b1 t false now2).
  { unfold drop_attempt. simpl. by rewrite Hnow2. }
  split_and!.
  - unfold complete. destruct (validated_now c1); [|rewrite Hdrop]; simpl; try destruct succeeded; simpl; set_solver.
  - rewrite Hdrop. simpl. set_solver.
  - rewrite Hdrop. unfold record_at. cbn [opened_at].
    destruct (wb_half b1 Hwf1 t Hin1) as [o Ho].
    destruct (proj1 (wb_opened b1 Hwf1 t) ltac:(eauto)) as (n & Hn & Hle). rewrite Hn. simpl.
    pose proof (wb_counts b1 Hwf1 _ _ Hn). pose proof (wb_threshold b1 Hwf1).
    replace (cb_threshold b1 <=? u64_sat_add n 1) with true by u64. by rewrite lookup_insert_eq.
Qed.

Lemma probe_lease_released_witness :
  t0 ∉ half_open (drop_attempt (fst (begin_at open_breaker t0 (secs 40)))
         {| at_target := t0; at_state := HalfOpen |} (secs 41)).
Proof.
  assert (wf_breaker open_breaker) as Hwf by (apply wf_breaker_run, wf_breaker_new; unfold u64_max; lia).
  apply (probe_lease_released open_breaker (secs 40) t0 (fst (begin_at open_breaker t0 (secs 40)))
           {| at_target := t0; at_state := HalfOpen |} _ true (secs 41) (secs 41) (secs 41)).
  - exact Hwf.
  - vm_compute. reflexivity.
  - reflexivity.
  - vm_compute. reflexivity.
  - by unfold same_target.
  - by apply wf_breaker_begin.
Defined.

(** A delivery plan keeps order and never repeats a target: it is a
    duplicate-free subsequence of the primary followed by the fallbacks, and
    holds exactly those targets the breaker and the caller allow. *)
Theorem delivery_plan_spec primary fallbacks breaker allow :
  let plan := delivery_plan primary fallbacks breaker allow in
  sublist plan (primary :: fallbacks) /\ NoDup plan /\
  forall t, t ∈ plan <->
    t ∈ primary :: fallbacks /\ allow t = true /\
    (forall state now, breaker = Some (state, now) -> allow_at state t now = true).
Proof.
  intros plan. assert (Hsub : sublist plan (dedup_targets ∅ (primary :: fallbacks))).
  { etrans; apply list_filter_sublist. }
  split_and!.
  - etrans; [exact Hsub|apply dedup_sublist].
  - by eapply sublist_NoDup; [apply dedup_NoDup|].
  - intros t. unfold plan, delivery_plan. rewrite !elem_of_filter_bool, elem_of_dedup.
    destruct breaker as [[state now]|]; split; intros H; destruct_and?; split_and?; try done; try set_solver;
      naive_solver.
Qed.

(** Failover walks the ladder outward from the chosen model: the cheaper
    tiers, nearest first, the chosen model and the dearer tiers, nearest first,
    make up the ladder; a model off the ladder has no candidates, and the
    same-tier policy never leaves the tier. *)
Theorem failover_candidates_spec chosen ladder :
  failover_candidates chosen ladder SameTier = [] /\
  (chosen ∉ ladder -> forall policy, failover_candidates chosen ladder policy = []) /\
  (chosen ∈ ladder ->
     ladder = rev (failover_candidates chosen ladder Degrade) ++ chosen ::
              failover_candidates chosen ladder Escalate /\
     chosen ∉ failover_candidates chosen ladder Degrade).
Proof.
  unfold failover_candidates. split_and!.
  - by destruct (index_of chosen ladder).
  - intros Hn%index_of_None policy. by rewrite Hn.
  - intros Hin. destruct (index_of chosen ladder) as [i|] eqn:E; [|by apply index_of_None in E].
    apply index_of_split in E as [He Hn]. rewrite rev_involutive. split; [exact He|].
    rewrite list_elem_of_In, <- in_rev, <- list_elem_of_In. exact Hn.
Qed.

Lemma failover_candidates_spec_witness :
  failover_candidates (lit "mid") [lit "local"; lit "mid"; lit "cloud"] Escalate = [lit "cloud"] /\
  lit "mid" ∉ failover_candidates (lit "mid") [lit "local"; lit "mid"; lit "cloud"] Degrade.
Proof.
  split; [vm_compute; reflexivity|].
  apply (failover_candidates_spec (lit "mid") [lit "local"; lit "mid"; lit "cloud"]). set_solver.
Defined.

(** A late outcome of an attempt that was admitted while the target was closed
    removes the pending probe, so a second probe is granted while the first is
    still out. *)
Example late_outcome_admits_second_probe :
  let b := CircuitBreaker_new 1 (secs 30) in
  let '(b, late) := begin_at b t0 (secs 0) in
  let b := record_at b t0 false (secs 1) in
  let '(b, probe) := begin_at b t0 (secs 40) in
  let b := record_at b t0 false (secs 41) in
  let '(b, second) := begin_at b t0 (secs 80) in
  (late, probe, second) = (Some Closed, Some HalfOpen, Some HalfOpen).
Proof. vm_compute. reflexivity. Qed.
