(* ===== verification/Recent.v ===== *)
(** * Recent routing decisions (crate [wayfinder-gateway], [src/recent.rs])

    The bounded, prompt-free ring of decision receipts: appending, enriching
    the newest receipt of a request, labelling a finished one, and the reports.
    Receipts are kept oldest first.  Lock poisoning is not modelled, so the
    operations that have no other error return their value. *)
From S2P Require Export BTree Float64 PyRound Contracts Features.

Definition MAX_RECENT_ENTRIES : Z := 200.

Inductive RecentOutcome := Streaming | Succeeded | Failed | Cancelled | CacheHit.
Inductive UserOutcome := Success | Correction | Failure.

#[export] Instance RecentOutcome_eq_dec : EqDecision RecentOutcome.
Proof. solve_decision. Defined.
#[export] Instance UserOutcome_eq_dec : EqDecision UserOutcome.
Proof. solve_decision. Defined.

Record RecentCost := {
  rc_realized : f64;
  rc_baseline : f64;
  rc_saved : f64;
  rc_tokens : Z;
  rc_unit : str;
  rc_estimated : bool;
}.

Record RecentEntry := {
  request_id : str;
  re_model : str;
  re_score : f64;
  re_mode : str;
  policy_version : option str;
  snapshot_id : option str;
  policy_profile : option str;
  served_by : option str;
  execution_boundary : option ExecutionBoundary;
  outcome : option RecentOutcome;
  user_outcome : option UserOutcome;
  http_status : option Z;
  error_type : option str;
  re_ts : f64;
  re_cost : option RecentCost;
  re_key : option str;
  re_workspace : option str;
  re_cache : option str;
}.

Record RecentReport := {
  rr_total : Z;
  by_model : btree Z;
  scored_total : Z;
  scored_by_model : btree Z;
  recent : list RecentEntry;
}.

Record RecentBoundaryCounts := {
  on_device : Z;
  local_network : Z;
  hosted : Z;
  unknown : Z;
}.

Record RecentWorkspaceReport := {
  retention : str;
  shared_capacity : Z;
  retained : Z;
  first_observed_ts : option f64;
  last_observed_ts : option f64;
  terminal : Z;
  succeeded : Z;
  failed : Z;
  cancelled : Z;
  cache_hits : Z;
  in_progress : Z;
  delivery_unobserved : Z;
  user_labelled : Z;
  user_successes : Z;
  user_corrections : Z;
  user_failures : Z;
  failure_rate_pct : option f64;
  boundaries : RecentBoundaryCounts;
  by_route : btree Z;
}.

Inductive UserOutcomeError := ReceiptNotFound | ReceiptNotTerminal.

Record RecentRoutes := {
  capacity : Z;
  entries : list RecentEntry;
}.

Definition RecentRoutes_new (capacity : Z) : RecentRoutes :=
  {| capacity := Z.min capacity MAX_RECENT_ENTRIES; entries := [] |}.

Definition default_recent : RecentRoutes := RecentRoutes_new MAX_RECENT_ENTRIES.

Definition set_entries (r : RecentRoutes) (l : list RecentEntry) : RecentRoutes :=
  {| capacity := capacity r; entries := l |}.

(** ** Appending *)

(** [while entries.len() > capacity { entries.pop_front() }] *)
Fixpoint trim_front (capacity : Z) (l : list RecentEntry) : list RecentEntry :=
  match l with
  | [] => []
  | _ :: rest => if capacity <? len l then trim_front capacity rest else l
  end.

Definition record (r : RecentRoutes) (entry : RecentEntry) : RecentRoutes :=
  if capacity r =? 0 then r
  else set_entries r (trim_front (capacity r) (entries r ++ [entry])).

(** ** Enriching *)

(** [entries.iter_mut().rev().find(p)], then an assignment [f] to what it found. *)
Fixpoint update_newest (p : RecentEntry -> bool) (f : RecentEntry -> RecentEntry) (l : list RecentEntry)
    : option (list RecentEntry) :=
  match l with
  | [] => None
  | entry :: rest =>
      match update_newest p f rest with
      | Some rest => Some (entry :: rest)
      | None => if p entry then Some (f entry :: rest) else None
      end
  end.

Definition update (r : RecentRoutes) (id : str) (f : RecentEntry -> RecentEntry) : bool * RecentRoutes :=
  match update_newest (fun entry => str_eqb (request_id entry) id) f (entries r) with
  | Some l => (true, set_entries r l)
  | None => (false, r)
  end.

(** Field assignments on a receipt. *)
Definition set_cost (cost : RecentCost) (e : RecentEntry) : RecentEntry :=
  {| request_id := request_id e; re_model := re_model e; re_score := re_score e; re_mode := re_mode e;
     policy_version := policy_version e; snapshot_id := snapshot_id e; policy_profile := policy_profile e;
     served_by := served_by e; execution_boundary := execution_boundary e; outcome := outcome e;
     user_outcome := user_outcome e; http_status := http_status e; error_type := error_type e; re_ts := re_ts e;
     re_cost := Some cost; re_key := re_key e; re_workspace := re_workspace e; re_cache := re_cache e |}.

Definition set_cache (cache : str) (e : RecentEntry) : RecentEntry :=
  {| request_id := request_id e; re_model := re_model e; re_score := re_score e; re_mode := re_mode e;
     policy_version := policy_version e; snapshot_id := snapshot_id e; policy_profile := policy_profile e;
     served_by := served_by e; execution_boundary := execution_boundary e; outcome := outcome e;
     user_outcome := user_outcome e; http_status := http_status e; error_type := error_type e; re_ts := re_ts e;
     re_cost := re_cost e; re_key := re_key e; re_workspace := re_workspace e; re_cache := Some cache |}.

Definition set_user_outcome (o : UserOutcome) (e : RecentEntry) : RecentEntry :=
  {| request_id := request_id e; re_model := re_model e; re_score := re_score e; re_mode := re_mode e;
     policy_version := policy_version e; snapshot_id := snapshot_id e; policy_profile := policy_profile e;
     served_by := served_by e; execution_boundary := execution_boundary e; outcome := outcome e;
     user_outcome := Some o; http_status := http_status e; error_type := error_type e; re_ts := re_ts e;
     re_cost := re_cost e; re_key := re_key e; re_workspace := re_workspace e; re_cache := re_cache e |}.

Definition set_delivery (target : option (str * ExecutionBoundary)) (o : RecentOutcome) (status : option Z)
    (error : option str) (e : RecentEntry) : RecentEntry :=
  {| request_id := request_id e; re_model := re_model e; re_score := re_score e; re_mode := re_mode e;
     policy_version := policy_version e; snapshot_id := snapshot_id e; policy_profile := policy_profile e;
     served_by := match target with Some (served, _) => Some served | None => served_by e end;
     execution_boundary := match target with Some (_, boundary) => Some boundary | None => execution_boundary e end;
     outcome := Some o; user_outcome := user_outcome e; http_status := status; error_type := error;
     re_ts := re_ts e; re_cost := re_cost e; re_key := re_key e; re_workspace := re_workspace e;
     re_cache := re_cache e |}.

Definition update_cost (r : RecentRoutes) (id : str) (cost : RecentCost) : bool * RecentRoutes :=
  update r id (set_cost cost).

Definition update_cache (r : RecentRoutes) (id cache : str) : bool * RecentRoutes :=
  update r id (set_cache cache).

Definition update_delivery (r : RecentRoutes) (id served : str) (boundary : ExecutionBoundary) (o : RecentOutcome)
    (status : option Z) (error : option str) : bool * RecentRoutes :=
  update r id (set_delivery (Some (served, boundary)) o status error).

Definition update_outcome (r : RecentRoutes) (id : str) (o : RecentOutcome) (status : option Z) (error : option str)
    : bool * RecentRoutes :=
  update r id (set_delivery None o status error).

Definition is_terminal (o : option RecentOutcome) : bool :=
  match o with Some (Succeeded | Failed | Cancelled | CacheHit) => true | _ => false end.

Definition in_workspace (workspace : str) (e : RecentEntry) : bool := bool_decide (re_workspace e = Some workspace).

Definition labels (id workspace : str) (e : RecentEntry) : bool :=
  str_eqb (request_id e) id && in_workspace workspace e.

Definition label_user_outcome (r : RecentRoutes) (id workspace : str) (o : UserOutcome)
    : result RecentRoutes UserOutcomeError :=
  match List.find (labels id workspace) (rev (entries r)) with
  | None => Err ReceiptNotFound
  | Some entry =>
      if negb (is_terminal (outcome entry)) then Err ReceiptNotTerminal
      else match update_newest (labels id workspace) (set_user_outcome o) (entries r) with
           | Some l => Ok (set_entries r l)
           | None => Err ReceiptNotFound
           end
  end.

(** ** Reports *)
Definition entries_for_workspace (r : RecentRoutes) (workspace : str) : list RecentEntry :=
  List.filter (in_workspace workspace) (entries r).

(** [*counts.entry(key).or_insert(0) += 1], saturating. *)
Definition increment (counts : btree Z) (key : str) : btree Z :=
  bt_update counts key 0 (fun count => u64_sat_add count 1).

Definition is_scored (e : RecentEntry) : bool := str_eqb (re_mode e) (lit "scored").

Definition report_step (acc : btree Z * btree Z * Z) (e : RecentEntry) : btree Z * btree Z * Z :=
  let '(models, scored_models, scored) := acc in
  let models := increment models (re_model e) in
  if is_scored e then (models, increment scored_models (re_model e), u64_sat_add scored 1)
  else (models, scored_models, scored).

Definition report (r : RecentRoutes) (requested_limit : Z) : RecentReport :=
  let '(models, scored_models, scored) := foldl report_step ([], [], 0) (entries r) in
  let clamped := Z.max 1 (Z.min requested_limit MAX_RECENT_ENTRIES) in
  {| rr_total := len (entries r); by_model := models; scored_total := scored; scored_by_model := scored_models;
     recent := take (Z.to_nat clamped) (rev (entries r)) |}.

(** The counters of [report_for_workspace] and one round of its loop. *)
Definition tick (b : bool) (n : Z) : Z := if b then u64_sat_add n 1 else n.

Definition outcome_is (o : RecentOutcome) (e : RecentEntry) : bool := bool_decide (outcome e = Some o).
Definition user_is (o : UserOutcome) (e : RecentEntry) : bool := bool_decide (user_outcome e = Some o).
Definition labelled (e : RecentEntry) : bool := match user_outcome e with Some _ => true | None => false end.
Definition unobserved (e : RecentEntry) : bool := match outcome e with None => true | Some _ => false end.
Definition boundary_is (b : option ExecutionBoundary) (e : RecentEntry) : bool :=
  match execution_boundary e, b with
  | Some OnDevice, Some OnDevice | Some LocalNetwork, Some LocalNetwork | Some Hosted, Some Hosted | None, None => true
  | _, _ => false
  end.
Definition route_of (e : RecentEntry) : str := default (re_model e) (served_by e).

Definition tick_boundaries (b : RecentBoundaryCounts) (e : RecentEntry) : RecentBoundaryCounts :=
  {| on_device := tick (boundary_is (Some OnDevice) e) (on_device b);
     local_network := tick (boundary_is (Some LocalNetwork) e) (local_network b);
     hosted := tick (boundary_is (Some Hosted) e) (hosted b);
     unknown := tick (boundary_is None e) (unknown b) |}.

Definition workspace_step (s : RecentWorkspaceReport) (e : RecentEntry) : RecentWorkspaceReport :=
  {| retention := retention s; shared_capacity := shared_capacity s;
     retained := u64_sat_add (retained s) 1;
     first_observed_ts := Some (match first_observed_ts s with None => re_ts e | Some v => f64_min v (re_ts e) end);
     last_observed_ts := Some (match last_observed_ts s with None => re_ts e | Some v => f64_max v (re_ts e) end);
     terminal := tick (is_terminal (outcome e)) (terminal s);
     succeeded := tick (outcome_is Succeeded e) (succeeded s);
     failed := tick (outcome_is Failed e) (failed s);
     cancelled := tick (outcome_is Cancelled e) (cancelled s);
     cache_hits := tick (outcome_is CacheHit e) (cache_hits s);
     in_progress := tick (outcome_is Streaming e) (in_progress s);
     delivery_unobserved := tick (unobserved e) (delivery_unobserved s);
     user_labelled := tick (labelled e) (user_labelled s);
     user_successes := tick (user_is Success e) (user_successes s);
     user_corrections := tick (user_is Correction e) (user_corrections s);
     user_failures := tick (user_is Failure e) (user_failures s);
     failure_rate_pct := failure_rate_pct s;
     boundaries := tick_boundaries (boundaries s) e;
     by_route := increment (by_route s) (route_of e) |}.

Definition empty_report (capacity : Z) : RecentWorkspaceReport :=
  {| retention := lit "process-local-bounded-shared-ring"; shared_capacity := capacity; retained := 0;
     first_observed_ts := None; last_observed_ts := None; terminal := 0; succeeded := 0; failed := 0;
     cancelled := 0; cache_hits := 0; in_progress := 0; delivery_unobserved := 0; user_labelled := 0;
     user_successes := 0; user_corrections := 0; user_failures := 0; failure_rate_pct := None;
     boundaries := Build_RecentBoundaryCounts 0 0 0 0; by_route := [] |}.

(** [python_round(100.0 * failed as f64 / terminal as f64, 1)], when there is a
    terminal receipt. *)
Definition failure_rate (failed terminal : Z) : option f64 :=
  if 0 <? terminal
  then Some (python_round (f64_div (f64_mul (f64_of_Z 100) (f64_of_Z failed)) (f64_of_Z terminal)) 1)
  else None.

Definition report_for_workspace (r : RecentRoutes) (workspace : str) : RecentWorkspaceReport :=
  let s := foldl workspace_step (empty_report (capacity r)) (entries_for_workspace r workspace) in
  {| retention := retention s; shared_capacity := shared_capacity s; retained := retained s;
     first_observed_ts := first_observed_ts s; last_observed_ts := last_observed_ts s; terminal := terminal s;
     succeeded := succeeded s; failed := failed s; cancelled := cancelled s; cache_hits := cache_hits s;
     in_progress := in_progress s; delivery_unobserved := delivery_unobserved s; user_labelled := user_labelled s;
     user_successes := user_successes s; user_corrections := user_corrections s; user_failures := user_failures s;
     failure_rate_pct := failure_rate (failed s) (terminal s); boundaries := boundaries s; by_route := by_route s |}.

(** ** Enriching the newest match *)
Lemma update_newest_some p f l l' :
  update_newest p f l = Some l' <->
  exists a e b, l = a ++ e :: b /\ l' = a ++ f e :: b /\ p e = true /\ Forall (fun x => p x = false) b.
Proof.
  revert l'. induction l as [|x l IH]; intros l'; cbn [update_newest].
  { split; [done|]. by intros ([|] & ? & ? & ? & _). }
  destruct (update_newest p f l) as [l1|] eqn:Hl.
  - destruct (proj1 (IH l1) eq_refl) as (a & e & b & -> & -> & He & Hb). split.
    + intros [= <-]. by exists (x :: a), e, b.
    + intros ([|y a'] & e' & b' & Heq & -> & He' & Hb'); injection Heq as Hx Heq.
      * exfalso. rewrite <-Heq in Hb'. apply Forall_app in Hb' as [_ [? _]%Forall_cons]. congruence.
      * rewrite Hx. cbn [app]. assert (Some (a ++ f e :: b) = Some (a' ++ f e' :: b')) as Hs; [|by congruence].
        apply IH. by exists a', e', b'.
  - assert (Forall (fun y => p y = false) l) as Hn.
    { apply Forall_forall. intros y Hy. destruct (p y) eqn:Hpy; [|done]. exfalso.
      destruct (List.find p (rev l)) as [z|] eqn:Hz.
      - apply find_first in Hz as (pre & post & Hrev & Hpz & Hpre).
        assert (l = rev post ++ z :: rev pre) as Hl'.
        { rewrite <-(rev_involutive l), Hrev, rev_app_distr. simpl. by rewrite <-app_assoc. }
        assert (@None (list RecentEntry) = Some (rev post ++ f z :: rev pre)) as Habs; [|done].
        apply IH. exists (rev post), z, (rev pre). split_and!; try done. by apply Forall_rev.
      - apply find_none_forall in Hz. rewrite Forall_forall in Hz. rewrite Hz in Hpy; [done|].
        by rewrite list_elem_of_In, <-in_rev, <-list_elem_of_In. }
    assert (forall a' e' b', x :: l = a' ++ e' :: b' -> p e' = true -> Forall (fun y : RecentEntry => p y = false) b' ->
      a' = [] /\ x = e' /\ l = b') as Hfirst.
    { intros [|y a'] e' b' Heq He' Hb'; injection Heq as Hy Hl'; [done|]. exfalso.
      rewrite Hl' in Hn. apply Forall_app in Hn as [_ [? _]%Forall_cons]. congruence. }
    destruct (p x) eqn:Hx; (split; [|]).
    + intros [= <-]. by exists [], x, l.
    + intros (a' & e' & b' & Heq & -> & He' & Hb'). by destruct (Hfirst a' e' b' Heq He' Hb') as (-> & -> & ->).
    + done.
    + intros (a' & e' & b' & Heq & -> & He' & Hb'). destruct (Hfirst a' e' b' Heq He' Hb') as (-> & -> & ->). congruence.
Qed.

Lemma find_rev_newest (p : RecentEntry -> bool) l e :
  List.find p (rev l) = Some e ->
  exists a b, l = a ++ e :: b /\ p e = true /\ Forall (fun x => p x = false) b.
Proof.
  intros (pre & post & Hrev & He & Hpre)%find_first. exists (rev post), (rev pre).
  split_and!; [|done|by apply Forall_rev].
  rewrite <-(rev_involutive l), Hrev, rev_app_distr. simpl. by rewrite <-app_assoc.
Qed.

(** ** Histories *)

(** The calls that change the ring. *)
Inductive recent_op :=
| OpRecord (entry : RecentEntry)
| OpCost (id : str) (cost : RecentCost)
| OpCache (id cache : str)
| OpDelivery (id served : str) (boundary : ExecutionBoundary) (o : RecentOutcome) (status : option Z)
    (error : option str)
| OpOutcome (id : str) (o : RecentOutcome) (status : option Z) (error : option str)
| OpLabel (id workspace : str) (o : UserOutcome).

Definition recent_step (r : RecentRoutes) (op : recent_op) : RecentRoutes :=
  match op with
  | OpRecord entry => record r entry
  | OpCost id cost => snd (update_cost r id cost)
  | OpCache id cache => snd (update_cache r id cache)
  | OpDelivery id served boundary o status error => snd (update_delivery r id served boundary o status error)
  | OpOutcome id o status error => snd (update_outcome r id o status error)
  | OpLabel id workspace o => match label_user_outcome r id workspace o with Ok r => r | Err _ => r end
  end.

(** What the recording call fixed of a receipt. *)
Definition decision_of (e : RecentEntry) :=
  (request_id e, re_model e, re_score e, re_mode e, (policy_version e, snapshot_id e, policy_profile e),
   (re_ts e, re_key e, re_workspace e)).

Definition recorded (op : recent_op) : option RecentEntry :=
  match op with OpRecord entry => Some entry | _ => None end.

(** The last [n] elements. *)
Definition last_n {A} (n : nat) (l : list A) : list A := drop (length l - n) l.

Lemma last_n_snoc {A} n (l : list A) x : (0 < n)%nat -> last_n n (last_n n l ++ [x]) = last_n n (l ++ [x]).
Proof.
  intros Hn. unfold last_n. rewrite !length_app, length_drop. cbn [length].
  destruct (decide (length l < n)%nat) as [Hlt|Hge].
  - rewrite !(proj2 (Nat.sub_0_le _ _)) by lia. by rewrite !drop_0.
  - replace (length l - (length l - n) + 1 - n)%nat with 1%nat by lia.
    replace (length l + 1 - n)%nat with (1 + (length l - n))%nat by lia.
    rewrite !drop_app_le by (rewrite ?length_drop; lia).
    rewrite drop_drop. f_equal. f_equal. lia.
Qed.

Lemma trim_front_last_n capacity l : 0 <= capacity -> trim_front capacity l = last_n (Z.to_nat capacity) l.
Proof.
  intros Hc. induction l as [|e l IH]; [done|]. cbn [trim_front]. unfold last_n in *. unfold len. cbn [length].
  destruct (capacity <? Z.of_nat (S (length l))) eqn:E; zify_bools.
  - rewrite IH. replace (S (length l) - Z.to_nat capacity)%nat with (S (length l - Z.to_nat capacity)) by lia. done.
  - by replace (S (length l) - Z.to_nat capacity)%nat with 0%nat by lia.
Qed.

Lemma update_newest_decisions p f l l' :
  (forall e, decision_of (f e) = decision_of e) -> update_newest p f l = Some l' ->
  map decision_of l' = map decision_of l.
Proof.
  intros Hf (a & e & b & -> & -> & _)%update_newest_some. by rewrite !map_app, !map_cons, Hf.
Qed.

Lemma recent_step_decisions r op :
  recorded op = None -> capacity (recent_step r op) = capacity r /\
  map decision_of (entries (recent_step r op)) = map decision_of (entries r).
Proof.
  assert (forall id f, (forall e, decision_of (f e) = decision_of e) ->
    capacity (snd (update r id f)) = capacity r /\
    map decision_of (entries (snd (update r id f))) = map decision_of (entries r)) as Hupd.
  { intros id f Hf. unfold update. destruct (update_newest _ f (entries r)) as [l|] eqn:Hl; [|done].
    split; [done|]. by eapply update_newest_decisions. }
  destruct op as [e|id c|id c|id sv b o st er|id o st er|id ws o]; intros Hr; try done; try by apply Hupd.
  unfold recent_step, label_user_outcome.
  destruct (List.find _ _) as [e|]; [|done]. destruct (negb _); [done|].
  destruct (update_newest _ _ _) as [l|] eqn:Hl; [|done]. split; [done|].
  by eapply update_newest_decisions in Hl.
Qed.

Lemma ring_contents capacity_wanted ops :
  0 <= capacity_wanted ->
  let r := foldl recent_step (RecentRoutes_new capacity_wanted) ops in
  let kept := Z.min capacity_wanted 200 in
  capacity r = kept /\ map decision_of (entries r) = last_n (Z.to_nat kept) (map decision_of (omap recorded ops)).
Proof.
  intros Hcap. cbn zeta. set (kept := Z.min capacity_wanted 200).
  induction ops as [|op ops [IHc IH]] using rev_ind; [done|].
  rewrite foldl_snoc, omap_app, map_app. set (r := foldl recent_step _ ops) in *.
  destruct (recorded op) as [e|] eqn:Hop.
  - destruct op; try done. assert (entry = e) as -> by (cbn [recorded] in Hop; congruence).
    unfold recent_step, record. rewrite IHc. cbn [omap list_omap recorded map].
    destruct (Z.eqb_spec kept 0) as [Hz|Hnz].
    + split; [done|]. rewrite IH, Hz. unfold last_n. change (Z.to_nat 0) with 0%nat. by rewrite !Nat.sub_0_r, !drop_all.
    + split; [done|]. cbn [entries set_entries]. rewrite trim_front_last_n by lia.
      change (map decision_of [e]) with [decision_of e].
      rewrite <-(last_n_snoc _ (map decision_of (omap recorded ops))) by lia. rewrite <-IH.
      change [decision_of e] with (map decision_of [e]). rewrite <-map_app. unfold last_n.
      by rewrite skipn_map, length_map.
  - destruct (recent_step_decisions r op Hop) as [-> ->]. cbn [omap list_omap]. rewrite Hop. cbn [map].
    by rewrite app_nil_r.
Qed.

Lemma ring_bounded capacity_wanted ops :
  0 <= capacity_wanted ->
  len (entries (foldl recent_step (RecentRoutes_new capacity_wanted) ops)) <= Z.min capacity_wanted 200.
Proof.
  intros Hcap. destruct (ring_contents capacity_wanted ops Hcap) as [_ Hmap].
  unfold len. rewrite <-(length_map decision_of), Hmap. unfold last_n. rewrite length_drop. lia.
Qed.

(** Over every history the ring holds exactly the latest decisions: as many
    as its capacity, which is at most 200, of the receipts recorded, in the
    order they were recorded.  Enriching and labelling change neither the
    order nor what the recording call fixed of a receipt. *)
Theorem ring_holds_latest capacity_wanted ops :
  0 <= capacity_wanted ->
  let r := foldl recent_step (RecentRoutes_new capacity_wanted) ops in
  let kept := Z.min capacity_wanted 200 in
  capacity r = kept /\ len (entries r) <= kept /\
  map decision_of (entries r) = last_n (Z.to_nat kept) (map decision_of (omap recorded ops)).
Proof.
  intros Hcap. cbn zeta. set (kept := Z.min capacity_wanted 200).
  destruct (ring_contents capacity_wanted ops Hcap) as [Hc Hmap]. split_and!; [done| |done].
  by apply ring_bounded.
Qed.

Definition sample_entry (id : string) (ws : option str) : RecentEntry :=
  {| request_id := lit id; re_model := lit "small"; re_score := f64_dec 5 1; re_mode := lit "scored";
     policy_version := None; snapshot_id := None; policy_profile := None; served_by := None;
     execution_boundary := None; outcome := None; user_outcome := None; http_status := None; error_type := None;
     re_ts := f64_of_Z 10; re_cost := None; re_key := None; re_workspace := ws; re_cache := None |}.

Definition sample_history : list recent_op :=
  [OpRecord (sample_entry "a" None); OpRecord (sample_entry "b" (Some (lit "w")));
   OpDelivery (lit "b") (lit "large") Hosted Succeeded (Some 200) None;
   OpLabel (lit "b") (lit "w") Success; OpRecord (sample_entry "c" (Some (lit "w")))].

Lemma ring_holds_latest_witness :
  map request_id (entries (foldl recent_step (RecentRoutes_new 2) sample_history)) = [lit "b"; lit "c"] /\
  capacity (foldl recent_step (RecentRoutes_new 2) sample_history) = 2.
Proof. split; [vm_compute; reflexivity|]. apply (ring_holds_latest 2 sample_history). lia. Defined.

(** ** Labels *)

(** A user judgment is accepted exactly when the newest retained receipt of
    that request and workspace is terminal, and then only the judgment of that
    receipt changes; otherwise the error says whether there is such a receipt. *)
Theorem label_user_outcome_spec r id workspace o :
  match label_user_outcome r id workspace o with
  | Ok r' => exists before e after, entries r = before ++ e :: after /\
      request_id e = id /\ re_workspace e = Some workspace /\ is_terminal (outcome e) = true /\
      Forall (fun x => labels id workspace x = false) after /\
      capacity r' = capacity r /\ entries r' = before ++ set_user_outcome o e :: after
  | Err ReceiptNotTerminal => exists before e after, entries r = before ++ e :: after /\
      request_id e = id /\ re_workspace e = Some workspace /\ is_terminal (outcome e) = false /\
      Forall (fun x => labels id workspace x = false) after
  | Err ReceiptNotFound => Forall (fun x => request_id x <> id \/ re_workspace x <> Some workspace) (entries r)
  end.
Proof.
  assert (forall e, labels id workspace e = true -> request_id e = id /\ re_workspace e = Some workspace) as Hlab.
  { intros e [He Hw]%andb_true_iff. apply str_eqb_eq in He. by apply bool_decide_eq_true in Hw. }
  unfold label_user_outcome. destruct (List.find (labels id workspace) (rev (entries r))) as [e|] eqn:Hf.
  - apply find_rev_newest in Hf as (a & b & He & Hl & Hb). destruct (Hlab e Hl) as [Hid Hws].
    destruct (is_terminal (outcome e)) eqn:Ht; cbn [negb]; [|by exists a, e, b].
    rewrite (proj2 (update_newest_some (labels id workspace) (set_user_outcome o) (entries r)
      (a ++ set_user_outcome o e :: b))) by by exists a, e, b.
    by exists a, e, b.
  - apply find_none_forall in Hf. apply Forall_forall. intros e He. rewrite Forall_forall in Hf.
    specialize (Hf e). rewrite list_elem_of_In, <-in_rev, <-list_elem_of_In in Hf. specialize (Hf He).
    unfold labels in Hf. apply andb_false_iff in Hf as [Hf%str_eqb_neq|Hf]; [by left|right].
    by apply bool_decide_eq_false in Hf.
Qed.

(** ** Reports *)
Lemma count_le_len {A} (p : A -> bool) l : count p l <= len l.
Proof. induction l as [|x l IH]; [done|]. rewrite count_cons, len_cons. destruct (p x); lia. Qed.

Lemma tick_count (p : RecentEntry -> bool) l e :
  len l < u64_max -> tick (p e) (count p l) = count p (l ++ [e]).
Proof.
  intros Hl. rewrite count_snoc. unfold tick. destruct (p e); [|lia].
  apply u64_sat_add_exact. pose proof (count_le_len p l). lia.
Qed.

Lemma increment_get m key k :
  0 <= default 0 (bt_get m key) < u64_max ->
  default 0 (bt_get (increment m key) k) = default 0 (bt_get m k) + (if str_eqb key k then 1 else 0).
Proof.
  intros Hlt. unfold increment, bt_update. destruct (str_eqb key k) eqn:E.
  - apply str_eqb_eq in E as <-. rewrite bt_get_insert_eq. cbn [default]. rewrite u64_sat_add_exact; [done|].
    unfold default, id in Hlt. destruct (bt_get m key); lia.
  - apply str_eqb_neq in E. rewrite bt_get_insert_ne by done. lia.
Qed.

(** Counts per key are the numbers of occurrences. *)
Lemma increments_count (keys : list str) k :
  len keys <= u64_max ->
  default 0 (bt_get (foldl increment [] keys) k) = count (fun key => str_eqb key k) keys.
Proof.
  revert k. induction keys as [|key keys IH] using rev_ind; intros k; [done|].
  rewrite len_app, len_cons, len_nil. intros Hl. rewrite foldl_snoc, count_snoc.
  rewrite increment_get; rewrite !IH by lia; [done|].
  pose proof (count_nonneg (fun x => str_eqb x key) keys). pose proof (count_le_len (fun x => str_eqb x key) keys). lia.
Qed.

Lemma workspace_fold capacity l :
  len l <= u64_max ->
  let s := foldl workspace_step (empty_report capacity) l in
  shared_capacity s = capacity /\ retained s = len l /\
  terminal s = count (fun e => is_terminal (outcome e)) l /\
  succeeded s = count (outcome_is Succeeded) l /\ failed s = count (outcome_is Failed) l /\
  cancelled s = count (outcome_is Cancelled) l /\ cache_hits s = count (outcome_is CacheHit) l /\
  in_progress s = count (outcome_is Streaming) l /\ delivery_unobserved s = count unobserved l /\
  user_labelled s = count labelled l /\ user_successes s = count (user_is Success) l /\
  user_corrections s = count (user_is Correction) l /\ user_failures s = count (user_is Failure) l /\
  on_device (boundaries s) = count (boundary_is (Some OnDevice)) l /\
  local_network (boundaries s) = count (boundary_is (Some LocalNetwork)) l /\
  hosted (boundaries s) = count (boundary_is (Some Hosted)) l /\
  unknown (boundaries s) = count (boundary_is None) l /\
  by_route s = foldl increment [] (map route_of l).
Proof.
  induction l as [|e l IH] using rev_ind; [done|]. rewrite len_app, len_cons, len_nil. intros Hl.
  specialize (IH ltac:(lia)). rewrite foldl_snoc, map_app, foldl_app. cbn zeta in *.
  destruct IH as (H1 & H2 & H3 & H4 & H5 & H6 & H7 & H8 & H9 & H10 & H11 & H12 & H13 & H14 & H15 & H16 & H17 & H18).
  cbn [workspace_step shared_capacity retained terminal succeeded failed cancelled cache_hits in_progress
       delivery_unobserved user_labelled user_successes user_corrections user_failures boundaries by_route
       tick_boundaries on_device local_network hosted unknown map foldl].
  rewrite H1, H2, H3, H4, H5, H6, H7, H8, H9, H10, H11, H12, H13, H14, H15, H16, H17, H18.
  rewrite (tick_count (fun e => is_terminal (outcome e))) by lia. rewrite !tick_count by lia.
  rewrite u64_sat_add_exact by lia. by split_and!.
Qed.

(** The four-way and six-way splits of the receipts. *)
Lemma outcome_partition l :
  len l = count (fun e => is_terminal (outcome e)) l + count (outcome_is Streaming) l + count unobserved l /\
  count (fun e => is_terminal (outcome e)) l =
    count (outcome_is Succeeded) l + count (outcome_is Failed) l + count (outcome_is Cancelled) l +
    count (outcome_is CacheHit) l /\
  count labelled l = count (user_is Success) l + count (user_is Correction) l + count (user_is Failure) l /\
  len l = count (boundary_is (Some OnDevice)) l + count (boundary_is (Some LocalNetwork)) l +
    count (boundary_is (Some Hosted)) l + count (boundary_is None) l.
Proof.
  induction l as [|e l IH]; [done|]. rewrite !count_cons, !len_cons. destruct IH as (H1 & H2 & H3 & H4).
  set (b := fun x : bool => if x then 1 else 0).
  assert (b (is_terminal (outcome e)) + b (outcome_is Streaming e) + b (unobserved e) = 1 /\
    b (is_terminal (outcome e)) = b (outcome_is Succeeded e) + b (outcome_is Failed e) + b (outcome_is Cancelled e) +
      b (outcome_is CacheHit e)) as [E1 E2].
  { unfold outcome_is, unobserved, is_terminal. by destruct (outcome e) as [[]|]. }
  assert (b (labelled e) = b (user_is Success e) + b (user_is Correction e) + b (user_is Failure e)) as E3.
  { unfold user_is, labelled. by destruct (user_outcome e) as [[]|]. }
  assert (b (boundary_is (Some OnDevice) e) + b (boundary_is (Some LocalNetwork) e) + b (boundary_is (Some Hosted) e)
    + b (boundary_is None e) = 1) as E4.
  { unfold boundary_is. by destruct (execution_boundary e) as [[]|]. }
  unfold b in *. split_and!; lia.
Qed.

Lemma report_fold l :
  len l <= u64_max ->
  foldl report_step ([], [], 0) l =
  (foldl increment [] (map re_model l), foldl increment [] (map re_model (List.filter is_scored l)), count is_scored l).
Proof.
  induction l as [|e l IH] using rev_ind; [done|]. rewrite len_app, len_cons, len_nil. intros Hl.
  rewrite foldl_snoc, IH, List.filter_app, !map_app, !foldl_app, count_snoc by lia. cbn [report_step map foldl List.filter].
  destruct (is_scored e); cbn [map foldl]; [|by rewrite Z.add_0_r].
  rewrite u64_sat_add_exact; [done|]. pose proof (count_le_len is_scored l). lia.
Qed.

Lemma count_map {A B} (p : B -> bool) (f : A -> B) l : count p (map f l) = count (fun x => p (f x)) l.
Proof. induction l as [|x l IH]; [done|]. cbn [map]. by rewrite !count_cons, IH. Qed.

Lemma count_filter {A} (p q : A -> bool) l : count p (List.filter q l) = count (fun x => q x && p x) l.
Proof.
  induction l as [|x l IH]; [done|]. cbn [List.filter]. rewrite count_cons. destruct (q x); [by rewrite count_cons, IH|].
  rewrite IH. simpl. lia.
Qed.

(** On every reachable ring the reports are exact.  The general report
    counts every retained receipt, per model and among the scored ones, and
    lists them newest first, between one and two hundred of them.  The report
    of a workspace covers its receipts only: terminal, streaming and
    unobserved ones make up all of them, terminal ones split by outcome,
    judgments by kind and receipts by execution boundary, the routes are
    counted once per receipt, and there is a failure rate exactly when a
    receipt is terminal. *)
Theorem reports_exact capacity_wanted ops limit workspace :
  0 <= capacity_wanted ->
  let r := foldl recent_step (RecentRoutes_new capacity_wanted) ops in
  let own := entries_for_workspace r workspace in
  let full := report r limit in
  let mine := report_for_workspace r workspace in
  rr_total full = len (entries r) /\
  (forall m, default 0 (bt_get (by_model full) m) = count (fun e => str_eqb (re_model e) m) (entries r)) /\
  scored_total full = count is_scored (entries r) /\
  (forall m, default 0 (bt_get (scored_by_model full) m) =
     count (fun e => is_scored e && str_eqb (re_model e) m) (entries r)) /\
  recent full = take (Z.to_nat (Z.max 1 (Z.min limit 200))) (rev (entries r)) /\
  retained mine = len own /\
  retained mine = terminal mine + in_progress mine + delivery_unobserved mine /\
  terminal mine = succeeded mine + failed mine + cancelled mine + cache_hits mine /\
  failed mine = count (outcome_is Failed) own /\
  user_labelled mine = user_successes mine + user_corrections mine + user_failures mine /\
  retained mine = on_device (boundaries mine) + local_network (boundaries mine) + hosted (boundaries mine) +
    unknown (boundaries mine) /\
  (forall route, default 0 (bt_get (by_route mine) route) = count (fun e => str_eqb (route_of e) route) own) /\
  (failure_rate_pct mine = None <-> Forall (fun e => is_terminal (outcome e) = false) own).
Proof.
  intros Hcap. cbn zeta. set (r := foldl recent_step _ ops).
  assert (len (entries r) <= u64_max) as Hr by (etransitivity; [by apply ring_bounded|unfold u64_max; lia]).
  unfold report. rewrite report_fold by done.
  cbn [rr_total by_model scored_total scored_by_model recent].
  set (own := entries_for_workspace r workspace).
  assert (len own <= u64_max) as Hown.
  { assert (len own <= len (entries r)); [|lia]. apply count_le_len. }
  unfold report_for_workspace. fold own.
  destruct (workspace_fold (capacity r) own Hown)
    as (_ & H1 & H2 & H3 & H4 & H5 & H6 & H7 & H8 & H9 & H10 & H11 & H12 & H13 & H14 & H15 & H16 & H17).
  destruct (outcome_partition own) as (P1 & P2 & P3 & P4).
  cbn [retained terminal succeeded failed cancelled cache_hits in_progress delivery_unobserved user_labelled
       user_successes user_corrections user_failures boundaries by_route failure_rate_pct].
  rewrite H1, H2, H3, H4, H5, H6, H7, H8, H9, H10, H11, H12, H13, H14, H15, H16, H17.
  split_and!; try done.
  - intros m. rewrite increments_count, count_map by by unfold len in *; rewrite length_map. done.
  - intros m. rewrite increments_count, count_map, count_filter; [done|].
    unfold len. rewrite length_map. transitivity (len (entries r)); [|done]. apply count_le_len.
  - intros route. rewrite increments_count, count_map by by unfold len in *; rewrite length_map. done.
  - set (p := fun e => is_terminal (outcome e)).
    assert (count p own = 0 <-> Forall (fun e => p e = false) own) as Hz.
    { clear. induction own as [|e l IH]; [by split|]. rewrite count_cons, Forall_cons. pose proof (count_nonneg p l).
      destruct (p e); [split; [lia|by intros [? _]]|]. rewrite Z.add_0_l, IH. naive_solver. }
    change (failure_rate (count (outcome_is Failed) own) (count p own) = None <-> Forall (fun e => p e = false) own).
    unfold failure_rate. rewrite <-Hz. pose proof (count_nonneg p own) as Hnn.
    destruct (0 <? count p own) eqn:E; zify_bools; (split; [intros H; try done; lia|intros H; try done; lia]).
Qed.

Lemma reports_exact_witness :
  let r := foldl recent_step (RecentRoutes_new 2) sample_history in
  rr_total (report r 0) = 2 /\ recent (report r 0) = [sample_entry "c" (Some (lit "w"))] /\
  failure_rate_pct (report_for_workspace r (lit "w")) = Some f64_zero /\
  retained (report_for_workspace r (lit "w")) = 2.
Proof.
  destruct (reports_exact 2 sample_history 0 (lit "w") ltac:(lia)) as (H1 & _ & _ & _ & H2 & H3 & _).
  split; [rewrite H1; vm_compute; reflexivity|]. split; [rewrite H2; vm_compute; reflexivity|].
  split; [vm_compute; reflexivity|]. rewrite H3. vm_compute. reflexivity.
Defined.
