(* ===== verification/Sse.v ===== *)
(** * Server-Sent Events decoding (crate [wayfinder-providers], [src/sse.rs])

    The incremental, bounded decoder.  Every operation returns the decoder as
    well as its result: an error leaves the decoder changed up to the byte that
    caused it. *)
From S2P Require Export Text.

(** ** The code *)

Definition DEFAULT_MAX_LINE_BYTES : Z := 256 * 1024.
Definition DEFAULT_MAX_EVENT_BYTES : Z := 1024 * 1024.

Record SseEvent := {
  ev_event : str;
  ev_data : str;
  ev_id : option str;
}.

Inductive SseDecodeError :=
| LineTooLarge (limit : Z)
| EventTooLarge (limit : Z)
| InvalidUtf8
| InvalidLimits.

Record SseDecoder := {
  max_line_bytes : Z;
  max_event_bytes : Z;
  line : list Z;
  event_type : option str;
  data : str;
  has_data : bool;
  data_bytes : Z;
  id : option str;
}.

Definition SseDecoder_new (max_line max_event : Z) : result SseDecoder SseDecodeError :=
  if (max_line =? 0) || (max_event =? 0) then Err InvalidLimits
  else Ok {| max_line_bytes := max_line; max_event_bytes := max_event; line := [];
             event_type := None; data := []; has_data := false; data_bytes := 0; id := None |}.

Definition default_decoder : SseDecoder :=
  {| max_line_bytes := DEFAULT_MAX_LINE_BYTES; max_event_bytes := DEFAULT_MAX_EVENT_BYTES; line := [];
     event_type := None; data := []; has_data := false; data_bytes := 0; id := None |}.

Definition set_line (d : SseDecoder) (l : list Z) : SseDecoder :=
  {| max_line_bytes := max_line_bytes d; max_event_bytes := max_event_bytes d; line := l;
     event_type := event_type d; data := data d; has_data := has_data d; data_bytes := data_bytes d;
     id := id d |}.

Definition set_event_type (d : SseDecoder) (t : option str) : SseDecoder :=
  {| max_line_bytes := max_line_bytes d; max_event_bytes := max_event_bytes d; line := line d;
     event_type := t; data := data d; has_data := has_data d; data_bytes := data_bytes d; id := id d |}.

Definition set_data (d : SseDecoder) (s : str) (has : bool) (bytes : Z) : SseDecoder :=
  {| max_line_bytes := max_line_bytes d; max_event_bytes := max_event_bytes d; line := line d;
     event_type := event_type d; data := s; has_data := has; data_bytes := bytes; id := id d |}.

Definition set_id (d : SseDecoder) (i : option str) : SseDecoder :=
  {| max_line_bytes := max_line_bytes d; max_event_bytes := max_event_bytes d; line := line d;
     event_type := event_type d; data := data d; has_data := has_data d; data_bytes := data_bytes d;
     id := i |}.

Definition dispatch (d : SseDecoder) : SseDecoder * option SseEvent :=
  let d' := set_data (set_event_type d None) [] false 0 in
  (d', if negb (has_data d) then None
       else Some {| ev_event := default (lit "message") (event_type d); ev_data := data d; ev_id := id d |}).

Definition strip_space (value : str) : str :=
  match value with c :: rest => if c =? 32 then rest else value | [] => [] end.

(** The field name and the value of a line. *)
Definition split_field (l : str) : str * str :=
  match split_once 58 l with None => (l, []) | Some (field, value) => (field, strip_space value) end.

Definition push_data (d : SseDecoder) (value : str) : SseDecoder * result (list SseEvent) SseDecodeError :=
  let separator := if has_data d then 1 else 0 in
  let new_size := u64_sat_add (u64_sat_add (data_bytes d) separator) (str_len value) in
  if max_event_bytes d <? new_size then (d, Err (EventTooLarge (max_event_bytes d)))
  else (set_data d ((if has_data d then data d ++ [10] else data d) ++ value) true new_size, Ok []).

(** The events [process_line] appends. *)
Definition process_line (d : SseDecoder) (raw_line : list Z)
    : SseDecoder * result (list SseEvent) SseDecodeError :=
  match raw_line with
  | [] => let '(d', event) := dispatch d in (d', Ok (option_list event))
  | _ =>
      match from_utf8 raw_line with
      | None => (d, Err InvalidUtf8)
      | Some l =>
          if starts_with l [58] then (d, Ok [])
          else
            let '(field, value) := split_field l in
            if str_eqb field (lit "event") then (set_event_type d (Some value), Ok [])
            else if str_eqb field (lit "data") then push_data d value
            else if str_eqb field (lit "id") && negb (str_contains_char value 0)
            then (set_id d (Some value), Ok [])
            else (d, Ok [])
      end
  end.

(** Drops one trailing CR. *)
Definition strip_cr (l : list Z) : list Z :=
  match last l with Some b => if b =? 13 then removelast l else l | None => l end.

Definition push_byte (d : SseDecoder) (byte : Z) : SseDecoder * result (list SseEvent) SseDecodeError :=
  if byte =? 10 then process_line (set_line d []) (strip_cr (line d))
  else if max_line_bytes d <=? len (line d) then (d, Err (LineTooLarge (max_line_bytes d)))
  else (set_line d (line d ++ [byte]), Ok []).

Fixpoint push (d : SseDecoder) (chunk : list Z) : SseDecoder * result (list SseEvent) SseDecodeError :=
  match chunk with
  | [] => (d, Ok [])
  | byte :: chunk =>
      let '(d, r) := push_byte d byte in
      match r with
      | Err e => (d, Err e)
      | Ok events => let '(d, r) := push d chunk in (d, result_map (app events) r)
      end
  end.

Definition finish (d : SseDecoder) : SseDecoder * result (list SseEvent) SseDecodeError :=
  let '(d, r) :=
    match line d with
    | [] => (d, Ok [])
    | _ => process_line (set_line d []) (strip_cr (line d))
    end in
  match r with
  | Err e => (d, Err e)
  | Ok events => let '(d, event) := dispatch d in (d, Ok (events ++ option_list event))
  end.

(** ** Memory bounds *)
Record wf_decoder (d : SseDecoder) : Prop := {
  wd_limits : 0 < max_line_bytes d < u64_max /\ 0 < max_event_bytes d < u64_max;
  wd_line : len (line d) <= max_line_bytes d;
  wd_data : str_len (data d) = data_bytes d /\ data_bytes d <= max_event_bytes d;
  wd_empty : has_data d = false -> data d = [];
}.

Lemma wf_dispatch d : wf_decoder d -> wf_decoder (fst (dispatch d)).
Proof. intros [? ? [? ?] ?]. constructor; simpl; try done. split; [done|lia]. Qed.

Lemma wf_push_data d value : wf_decoder d -> wf_decoder (fst (push_data d value)).
Proof.
  intros [Hl ? [Hd Hmax] He]. unfold push_data. case_match eqn:E; zify_bools; [by constructor|].
  pose proof (str_len_nonneg value). pose proof (str_len_nonneg (data d)).
  constructor; simpl; try done. split; [|lia]. destruct (has_data d).
  - rewrite !str_len_app. change (str_len [10]) with 1. revert E. u64.
  - rewrite str_len_app. revert E. u64.
Qed.

Lemma wf_process_line d raw : wf_decoder d -> wf_decoder (fst (process_line d raw)).
Proof.
  intros Hwf. unfold process_line. destruct raw as [|b raw].
  - pose proof (wf_dispatch d Hwf). by destruct (dispatch d).
  - destruct (from_utf8 (b :: raw)) as [l|]; [|done]. destruct (starts_with l [58]); [done|].
    destruct (split_field l) as [field value]. repeat case_match; simpl; try done;
      [|by apply wf_push_data|]; destruct Hwf; by constructor.
Qed.

Lemma wf_set_line_nil d : wf_decoder d -> wf_decoder (set_line d []).
Proof. intros [? ? ? ?]. constructor; simpl; try done. unfold len. simpl. lia. Qed.

Lemma wf_push_byte d byte : wf_decoder d -> wf_decoder (fst (push_byte d byte)).
Proof.
  intros Hwf. unfold push_byte. destruct (byte =? 10); [by apply wf_process_line, wf_set_line_nil|].
  case_match eqn:E; zify_bools; [done|]. destruct Hwf. constructor; simpl; try done.
  rewrite len_app. change (len [byte]) with 1. lia.
Qed.

Lemma wf_push d chunk : wf_decoder d -> wf_decoder (fst (push d chunk)).
Proof.
  revert d. induction chunk as [|byte chunk IH]; intros d Hwf; cbn [push]; [done|].
  pose proof (wf_push_byte d byte Hwf). destruct (push_byte d byte) as [d' [events|e]]; [|done].
  pose proof (IH d' H). by destruct (push d' chunk).
Qed.

Lemma wf_finish d : wf_decoder d -> wf_decoder (fst (finish d)).
Proof.
  intros Hwf. unfold finish.
  assert (H : wf_decoder (fst (match line d with
    | [] => (d, Ok []) | _ => process_line (set_line d []) (strip_cr (line d)) end))).
  { destruct (line d); [done|]. by apply wf_process_line, wf_set_line_nil. }
  destruct (match line d with [] => _ | _ => _ end) as [d' [events|e]]; [|done].
  pose proof (wf_dispatch d' H). by destruct (dispatch d').
Qed.

(** ** Lines *)

Lemma result_map_app {E A} (a b : list A) (r : result (list A) E) :
  result_map (app a) (result_map (app b) r) = result_map (app (a ++ b)) r.
Proof. destruct r; simpl; [|done]. by rewrite (assoc_L (++)). Qed.

Lemma result_map_nil {E A} (r : result (list A) E) : result_map (app []) r = r.
Proof. by destruct r. Qed.

(** Pushing after a successful push. *)
Lemma push_app d a b d1 e1 :
  push d a = (d1, Ok e1) ->
  push d (a ++ b) = let '(d2, r2) := push d1 b in (d2, result_map (app e1) r2).
Proof.
  revert d e1. induction a as [|byte a IH]; intros d e1; cbn [push app].
  - intros [= <- <-]. destruct (push d b). by rewrite result_map_nil.
  - destruct (push_byte d byte) as [d' [events|e]]; [|done].
    destruct (push d' a) as [d'' [ea|e]] eqn:Ha; simpl; [|done]. intros [= <- <-].
    rewrite (IH _ _ Ha). destruct (push d'' b) as [d2 r2]. by rewrite result_map_app.
Qed.

Lemma push_app_err d a b d1 e : push d a = (d1, Err e) -> push d (a ++ b) = (d1, Err e).
Proof.
  revert d. induction a as [|byte a IH]; intros d; cbn [push app]; [done|].
  destruct (push_byte d byte) as [d' [events|e']]; [|done].
  destruct (push d' a) as [d'' [ea|e']] eqn:Ha; simpl; [done|]. intros [= <- <-].
  by rewrite (IH _ Ha).
Qed.

Lemma set_line_line d l l' : set_line (set_line d l) l' = set_line d l'.
Proof. done. Qed.

(** Bytes of an unfinished line are buffered. *)
Lemma push_buffered d bytes :
  10 ∉ bytes -> len (line d) + len bytes <= max_line_bytes d ->
  push d bytes = (set_line d (line d ++ bytes), Ok []).
Proof.
  revert d. induction bytes as [|b bytes IH]; intros d Hn Hl; cbn [push].
  - rewrite app_nil_r. by destruct d.
  - apply not_elem_of_cons in Hn as [Hb Hn]. rewrite len_cons in Hl. pose proof (len_nonneg bytes).
    unfold push_byte. replace (b =? 10) with false by lia.
    replace (max_line_bytes d <=? len (line d)) with false by lia.
    rewrite IH; [|done|simpl; rewrite len_app; change (len [b]) with 1; lia].
    simpl. by rewrite <- (assoc_L (++)).
Qed.

Lemma push_full_line d bytes :
  line d = [] -> 10 ∉ bytes -> len bytes <= max_line_bytes d ->
  push d (bytes ++ [10]) = process_line d (strip_cr bytes).
Proof.
  intros Hline Hn Hl. rewrite (push_app d bytes [10] (set_line d bytes) []).
  - cbn [push]. unfold push_byte. simpl (10 =? 10). cbv iota. rewrite set_line_line.
    replace (set_line d []) with d by (rewrite <- Hline; by destruct d).
    change (line (set_line d bytes)) with bytes.
    destruct (process_line d (strip_cr bytes)) as [d' [events|e]]; simpl; [|done]. by rewrite app_nil_r.
  - rewrite push_buffered; [by rewrite Hline|done|]. rewrite Hline. unfold len in *. simpl. lia.
Qed.

(** ** The wire format *)

Definition no_breaks (s : str) : Prop := 10 ∉ s /\ 13 ∉ s.

(** The lines of a data value: cut at every LF. *)
Fixpoint data_lines (s current : str) : list str :=
  match s with
  | [] => [rev current]
  | c :: s => if c =? 10 then rev current :: data_lines s [] else data_lines s (c :: current)
  end.

(** An event as the lines of its standard encoding. *)
Definition event_lines (e : SseEvent) : list str :=
  [lit "event: " ++ ev_event e] ++ map (fun l => lit "data: " ++ l) (data_lines (ev_data e) []) ++
  match ev_id e with Some i => [lit "id: " ++ i] | None => [] end ++ [[]].

Definition encode_event (e : SseEvent) : list Z := mjoin (map (fun l => as_bytes l ++ [10]) (event_lines e)).

Fixpoint join_lines (ls : list str) : str :=
  match ls with [] => [] | [l] => l | l :: ls => l ++ 10 :: join_lines ls end.

Lemma data_lines_cons s current : exists l ls, data_lines s current = l :: ls.
Proof.
  revert current. induction s as [|c s IH]; intros current; simpl; [eauto|]. destruct (c =? 10); eauto.
Qed.

Lemma join_data_lines s current : join_lines (data_lines s current) = rev current ++ s.
Proof.
  revert current. induction s as [|c s IH]; intros current; simpl; [by rewrite app_nil_r|].
  destruct (Z.eqb_spec c 10) as [->|Hne].
  - destruct (data_lines_cons s []) as (l & ls & Hd). rewrite Hd. cbn [join_lines].
    specialize (IH []). rewrite Hd in IH. simpl in IH. by rewrite IH.
  - rewrite IH. simpl. by rewrite <- (assoc_L (++)).
Qed.

Lemma data_lines_Forall (P : Z -> Prop) s current :
  Forall P (rev current) -> Forall P s -> Forall (Forall P) (data_lines s current).
Proof.
  intros Hc Hs. revert current Hc. induction Hs as [|c s Hp Hs IH]; intros current Hc; simpl; [by constructor|].
  destruct (c =? 10); [constructor; [done|]; apply IH; constructor|].
  apply IH. simpl. apply Forall_app. split; [done|]. by constructor.
Qed.

Lemma data_lines_no_lf s current : 10 ∉ current -> Forall (fun l => 10 ∉ l) (data_lines s current).
Proof.
  revert current. induction s as [|c s IH]; intros current Hc; simpl.
  - constructor; [|constructor]. by rewrite list_elem_of_In, <- in_rev, <- list_elem_of_In.
  - destruct (Z.eqb_spec c 10).
    + constructor; [by rewrite list_elem_of_In, <- in_rev, <- list_elem_of_In|]. apply IH. set_solver.
    + apply IH. set_solver.
Qed.

Lemma char_utf8_no_byte c b : is_char c -> 0 <= b < 128 -> b <> c -> b ∉ char_utf8 c.
Proof.
  intros Hc Hb Hne. unfold char_utf8, is_char in *. repeat case_match; zify_bools.
  - set_solver.
  - assert (0 <= c / 64) by (apply Z.div_pos; lia). pose proof (Z.mod_pos_bound c 64 ltac:(lia)).
    rewrite !elem_of_cons, elem_of_nil. lia.
  - assert (0 <= c / 4096) by (apply Z.div_pos; lia). pose proof (Z.mod_pos_bound c 64 ltac:(lia)).
    pose proof (Z.mod_pos_bound (c / 64) 64 ltac:(lia)). rewrite !elem_of_cons, elem_of_nil. lia.
  - assert (0 <= c / 262144) by (apply Z.div_pos; lia). pose proof (Z.mod_pos_bound c 64 ltac:(lia)).
    pose proof (Z.mod_pos_bound (c / 64) 64 ltac:(lia)). pose proof (Z.mod_pos_bound (c / 4096) 64 ltac:(lia)).
    rewrite !elem_of_cons, elem_of_nil. lia.
Qed.

Lemma as_bytes_no_byte s b : Forall is_char s -> 0 <= b < 128 -> b ∉ s -> b ∉ as_bytes s.
Proof.
  intros Hs Hb Hn (c & Hin & Hc)%list_elem_of_bind.
  rewrite Forall_forall in Hs. apply (char_utf8_no_byte c b) in Hin; [done|by apply Hs|done|congruence].
Qed.

Lemma strip_cr_id l : 13 ∉ l -> strip_cr l = l.
Proof.
  intros Hn. unfold strip_cr. destruct (last l) as [b|] eqn:E; [|done].
  destruct (Z.eqb_spec b 13) as [->|]; [|done]. apply last_Some in E as [l' ->]. set_solver.
Qed.

(** One encoded line, fed to an idle decoder, is processed as a field line. *)
Lemma push_encoded_line d l :
  line d = [] -> Forall is_char l -> no_breaks l -> len (as_bytes l) <= max_line_bytes d ->
  push d (as_bytes l ++ [10]) = process_line d (as_bytes l).
Proof.
  intros Hd Hc [H10 H13] Hl. rewrite push_full_line; [|done|by apply as_bytes_no_byte; [..|lia|]|done].
  rewrite strip_cr_id; [done|]. apply as_bytes_no_byte; [done|lia|done].
Qed.

Lemma process_field d name value :
  Forall is_char (lit name ++ 58 :: 32 :: value) -> 58 ∉ lit name -> lit name <> [] ->
  process_line d (as_bytes (lit name ++ 58 :: 32 :: value)) =
    if str_eqb (lit name) (lit "event") then (set_event_type d (Some value), Ok [])
    else if str_eqb (lit name) (lit "data") then push_data d value
    else if str_eqb (lit name) (lit "id") && negb (str_contains_char value 0)
    then (set_id d (Some value), Ok [])
    else (d, Ok []).
Proof.
  intros Hc Hn Hne. unfold process_line. rewrite from_utf8_as_bytes by done.
  destruct (as_bytes (lit name ++ 58 :: 32 :: value)) eqn:E.
  { apply (f_equal from_utf8) in E. rewrite from_utf8_as_bytes in E by done. injection E as E.
    by apply app_eq_nil in E as [_ E]. }
  destruct (lit name) as [|c rest] eqn:Ename; [done|]. cbn [app starts_with].
  replace (58 =? c) with false by (apply not_elem_of_cons in Hn as [? _]; lia). cbn [andb].
  unfold split_field. change (c :: rest ++ 58 :: 32 :: value) with ((c :: rest) ++ 58 :: 32 :: value).
  by rewrite split_once_Some.
Qed.

(** A decoder between events. *)
Definition idle (d : SseDecoder) : Prop :=
  wf_decoder d /\ line d = [] /\ event_type d = None /\ has_data d = false.

(** What makes an event representable for a decoder: text without stray line
    breaks, and lines and data within the decoder's bounds. *)
Record encodable (max_line max_event : Z) (e : SseEvent) : Prop := {
  en_type : Forall is_char (ev_event e) /\ no_breaks (ev_event e);
  en_data : Forall is_char (ev_data e) /\ 13 ∉ ev_data e;
  en_id : forall i, ev_id e = Some i -> Forall is_char i /\ no_breaks i /\ 0 ∉ i;
  en_lines : Forall (fun l => len (as_bytes l) <= max_line) (event_lines e);
  en_size : str_len (ev_data e) <= max_event;
}.

Definition encode_lines (ls : list str) : list Z := mjoin (map (fun l => as_bytes l ++ [10]) ls).

Lemma encode_lines_app a b : encode_lines (a ++ b) = encode_lines a ++ encode_lines b.
Proof. unfold encode_lines. by rewrite map_app, join_app. Qed.

Lemma encode_lines_cons l ls : encode_lines (l :: ls) = (as_bytes l ++ [10]) ++ encode_lines ls.
Proof. done. Qed.

Definition after_lines (d : SseDecoder) (ls : list str) : str :=
  (if has_data d then data d ++ [10] else data d) ++ join_lines ls.

Lemma push_data_ok d value :
  wf_decoder d -> str_len ((if has_data d then data d ++ [10] else data d) ++ value) <= max_event_bytes d ->
  push_data d value =
  (set_data d ((if has_data d then data d ++ [10] else data d) ++ value) true
     (str_len ((if has_data d then data d ++ [10] else data d) ++ value)), Ok []).
Proof.
  intros [[? ?] ? [Hd Hmax] ?] Hle. unfold push_data. rewrite str_len_app in Hle |- *.
  pose proof (str_len_nonneg value). pose proof (str_len_nonneg (data d)).
  assert (Hsz : u64_sat_add (u64_sat_add (data_bytes d) (if has_data d then 1 else 0)) (str_len value) =
    str_len (if has_data d then data d ++ [10] else data d) + str_len value).
  { destruct (has_data d); rewrite ?str_len_app in *; change (str_len [10]) with 1 in *; u64. }
  rewrite Hsz. by replace (max_event_bytes d <? _) with false by lia.
Qed.

Lemma join_lines_cons l ls : ls <> [] -> join_lines (l :: ls) = l ++ 10 :: join_lines ls.
Proof. by destruct ls. Qed.

Lemma push_data_lines d ls :
  wf_decoder d -> line d = [] -> ls <> [] ->
  Forall (Forall is_char) ls -> Forall no_breaks ls ->
  Forall (fun l => len (as_bytes (lit "data: " ++ l)) <= max_line_bytes d) ls ->
  str_len (after_lines d ls) <= max_event_bytes d ->
  exists n, push d (encode_lines (map (fun l => lit "data: " ++ l) ls)) =
    (set_data d (after_lines d ls) true n, Ok []).
Proof.
  intros Hwf Hline Hne Hc Hb Hl. revert d Hwf Hline Hl.
  induction ls as [|l ls IH]; intros d Hwf Hline Hl Hsize; [done|]. cbn [map].
  apply Forall_cons in Hc as [Hc Hcs]. apply Forall_cons in Hb as [[Hb10 Hb13] Hbs].
  apply Forall_cons in Hl as [Hl Hls].
  rewrite encode_lines_cons.
  assert (Hchars : Forall is_char (lit "data: " ++ l)).
  { apply Forall_app. split; [|done]. repeat (apply Forall_cons; split; [left; simpl; lia|]). constructor. }
  assert (Hpush : push d (as_bytes (lit "data: " ++ l) ++ [10]) = push_data d l).
  { rewrite push_encoded_line; [|done|done| |done].
    - apply (process_field d "data" l); [exact Hchars|vm_compute; set_solver by lia|done].
    - split; apply not_elem_of_app; (split; [vm_compute; set_solver by lia|done]). }
  set (pre := if has_data d then data d ++ [10] else data d) in *.
  destruct ls as [|l2 ls].
  - change (encode_lines (map _ [])) with (@nil Z). rewrite app_nil_r, Hpush.
    rewrite push_data_ok by done. by eexists.
  - unfold after_lines in *. fold pre in Hsize |- *. rewrite join_lines_cons in Hsize |- * by done.
    rewrite !str_len_app in Hsize. cbn [str_len foldr] in Hsize. fold (str_len (join_lines (l2 :: ls))) in Hsize.
    change (char_len_utf8 10) with 1 in Hsize.
    pose proof (str_len_nonneg (join_lines (l2 :: ls))).
    rewrite push_data_ok in Hpush by (try done; fold pre; rewrite str_len_app; lia). fold pre in Hpush.
    set (d1 := set_data d (pre ++ l) true (str_len (pre ++ l))) in *.
    rewrite (push_app _ _ _ _ _ Hpush).
    assert (Hwf1 : wf_decoder d1).
    { destruct Hwf. constructor; simpl; try done. split; [done|]. rewrite str_len_app. lia. }
    destruct (IH ltac:(done) Hcs Hbs d1 Hwf1 Hline Hls) as [n ->].
    { unfold after_lines. simpl has_data. simpl data. cbv iota. rewrite !str_len_app.
      change (str_len [10]) with 1. simpl max_event_bytes. lia. }
    exists n. unfold after_lines. simpl. f_equal.
    by rewrite <- !(assoc_L (++)).
Qed.

Definition inherit_id (last : option str) (e : SseEvent) : SseEvent :=
  {| ev_event := ev_event e; ev_data := ev_data e;
     ev_id := match ev_id e with Some i => Some i | None => last end |}.

(** What the consumer of a stream sees: ids persist until replaced. *)
Fixpoint inherit_ids (last : option str) (es : list SseEvent) : list SseEvent :=
  match es with
  | [] => []
  | e :: es => let e' := inherit_id last e in e' :: inherit_ids (ev_id e') es
  end.

(** A character is absent from a constant, by evaluation. *)
Lemma str_absent s c : str_contains_char s c = false -> c ∉ s.
Proof.
  intros Hf Hin. apply not_true_iff_false in Hf. apply Hf, existsb_exists. exists c.
  split; [by apply list_elem_of_In|apply Z.eqb_refl].
Qed.

Ltac lit_free := apply str_absent; vm_compute; reflexivity.

Lemma prefixed_chars name value :
  Forall is_char (lit name) -> Forall is_char value -> Forall is_char (lit name ++ 58 :: 32 :: value).
Proof.
  intros Hn Hv. apply Forall_app. split; [done|].
  repeat (apply Forall_cons; split; [left; lia|]). done.
Qed.

(** A field line with a clean value, fed to a decoder at a line start. *)
Lemma push_field d name value :
  line d = [] -> Forall is_char (lit name) -> no_breaks (lit name) -> 58 ∉ lit name -> lit name <> [] ->
  Forall is_char value -> no_breaks value ->
  len (as_bytes (lit name ++ 58 :: 32 :: value)) <= max_line_bytes d ->
  push d (as_bytes (lit name ++ 58 :: 32 :: value) ++ [10]) =
    if str_eqb (lit name) (lit "event") then (set_event_type d (Some value), Ok [])
    else if str_eqb (lit name) (lit "data") then push_data d value
    else if str_eqb (lit name) (lit "id") && negb (str_contains_char value 0)
    then (set_id d (Some value), Ok [])
    else (d, Ok []).
Proof.
  intros Hd Hnc [Hn10 Hn13] Hn Hne Hvc [Hv10 Hv13] Hl.
  pose proof (prefixed_chars name value Hnc Hvc).
  rewrite push_encoded_line; [by apply process_field|done|done| |done].
  split; rewrite not_elem_of_app, !not_elem_of_cons; (split_and!; [done|lia|lia|done]).
Qed.

Lemma str_contains_false s c : c ∉ s -> str_contains_char s c = false.
Proof.
  intros Hn. apply not_true_iff_false. intros (x & Hx & ->%Z.eqb_eq)%existsb_exists.
  by apply Hn, list_elem_of_In.
Qed.

Lemma lit_chars_event : Forall is_char (lit "event").
Proof. repeat (apply Forall_cons; split; [left; simpl; lia|]). constructor. Qed.
Lemma lit_chars_id : Forall is_char (lit "id").
Proof. repeat (apply Forall_cons; split; [left; simpl; lia|]). constructor. Qed.

(** The optional id line. *)
Lemma push_id_line d e :
  line d = [] -> encodable (max_line_bytes d) (max_event_bytes d) e ->
  push d (encode_lines match ev_id e with Some i => [lit "id: " ++ i] | None => [] end) =
  (set_id d (match ev_id e with Some i => Some i | None => id d end), Ok []).
Proof.
  intros Hline Henc. destruct (ev_id e) as [i|] eqn:Hi; [|by destruct d].
  destruct (en_id _ _ _ Henc i Hi) as (Hc & Hb & H0).
  pose proof (en_lines _ _ _ Henc) as Hl. unfold event_lines in Hl. rewrite Hi, !Forall_app in Hl.
  destruct Hl as (_ & _ & [Hl _]%Forall_cons & _).
  rewrite encode_lines_cons. change (encode_lines []) with (@nil Z). rewrite app_nil_r.
  change (lit "id: " ++ i) with (lit "id" ++ 58 :: 32 :: i) in *.
  rewrite push_field; [|done|apply lit_chars_id|split; lit_free|lit_free|done|done|done|done].
  by rewrite (str_contains_false i 0 H0).
Qed.

Lemma decode_event d e :
  idle d -> encodable (max_line_bytes d) (max_event_bytes d) e ->
  exists d', push d (encode_event e) = (d', Ok [inherit_id (id d) e]) /\ idle d' /\
    max_line_bytes d' = max_line_bytes d /\ max_event_bytes d' = max_event_bytes d /\
    id d' = ev_id (inherit_id (id d) e).
Proof.
  intros (Hwf & Hline & Htype & Hhas) Henc.
  pose proof (wd_empty d Hwf Hhas) as Hdata.
  destruct (Henc) as [[Htc Htb] [Hdc Hd13] _ Hl Hsize].
  unfold event_lines in Hl. rewrite !Forall_app in Hl. destruct Hl as ([Hlt _]%Forall_cons & Hld & _ & _).
  unfold encode_event. fold (encode_lines (event_lines e)). unfold event_lines. rewrite !encode_lines_app.
  (* the event line *)
  set (d1 := set_event_type d (Some (ev_event e))).
  assert (P1 : push d (encode_lines [lit "event: " ++ ev_event e]) = (d1, Ok [])).
  { rewrite encode_lines_cons. change (encode_lines []) with (@nil Z). rewrite app_nil_r.
    change (lit "event: " ++ ev_event e) with (lit "event" ++ 58 :: 32 :: ev_event e) in *.
    by rewrite push_field; [|done|apply lit_chars_event|split; lit_free|lit_free|done|done|done|done]. }
  rewrite (push_app _ _ _ _ _ P1).
  (* the data lines *)
  assert (Hwf1 : wf_decoder d1) by (destruct Hwf; by constructor).
  assert (Hafter : after_lines d1 (data_lines (ev_data e) []) = ev_data e).
  { unfold after_lines. simpl has_data. rewrite Hhas. simpl data. rewrite Hdata. apply (join_data_lines (ev_data e) []). }
  destruct (push_data_lines d1 (data_lines (ev_data e) [])) as [n P2].
  { done. } { done. } { by destruct (data_lines_cons (ev_data e) []) as (? & ? & ->). }
  { apply data_lines_Forall; [constructor|done]. }
  { pose proof (data_lines_no_lf (ev_data e) [] ltac:(set_solver)) as H10.
    assert (H13 : Forall (Forall (fun c => c <> 13)) (data_lines (ev_data e) [])).
    { apply data_lines_Forall; [constructor|]. apply Forall_forall. intros c Hc ->. done. }
    rewrite Forall_forall in H10, H13 |- *. intros l Hin. split; [auto|].
    intros Hin13. specialize (H13 l Hin). rewrite Forall_forall in H13. by apply H13 in Hin13. }
  { rewrite Forall_forall in Hld |- *. intros l Hin. apply Hld. by apply list_elem_of_fmap_2. }
  { by rewrite Hafter. }
  rewrite Hafter in P2. set (d2 := set_data d1 (ev_data e) true n) in *.
  rewrite (push_app _ _ _ _ _ P2).
  (* the id line and the blank line *)
  pose proof (push_id_line d2 e Hline Henc) as P3. rewrite (push_app _ _ _ _ _ P3).
  set (d3 := set_id d2 _).
  change (encode_lines [[]]) with [10]. cbn [push]. unfold push_byte. cbn [Z.eqb Pos.eqb].
  replace (line d3) with (@nil Z) by (symmetry; exact Hline). cbn [strip_cr last process_line dispatch].
  cbn [result_map app option_list].
  eexists. split; [reflexivity|]. split; [|done].
  split; [|done]. destruct Hwf as [? ? [? ?] ?]. pose proof (str_len_nonneg (data d)).
  constructor; simpl; [done|unfold len; simpl; lia|split; [done|lia]|done].
Qed.

(** ** Properties *)

(** Decoding does not depend on how the transport fragments the bytes:
    pushing a concatenation is pushing the parts in turn, the events
    concatenated and the first error kept, and the decoder ends in the same
    state. *)
Theorem push_fragmentation d a b :
  push d (a ++ b) =
  match push d a with
  | (d1, Err e) => (d1, Err e)
  | (d1, Ok events) => let '(d2, r) := push d1 b in (d2, result_map (app events) r)
  end.
Proof. destruct (push d a) as [d1 [events|e]] eqn:Ha; [by apply push_app|by apply push_app_err]. Qed.

(** Memory stays bounded on every input: after any pushes and a finish,
    failed ones included, the buffered line is within the line bound and the
    buffered data within the event bound, and the byte count kept for the data
    is its real size. *)
Theorem decoder_memory_bounded d chunk :
  wf_decoder d -> wf_decoder (fst (push d chunk)) /\ wf_decoder (fst (finish (fst (push d chunk)))).
Proof. intros. split; [by apply wf_push|by apply wf_finish, wf_push]. Qed.

Lemma default_decoder_idle : idle default_decoder.
Proof. split; [|done]. constructor; simpl; unfold u64_max; try done. Qed.

Lemma decoder_memory_bounded_witness :
  wf_decoder (fst (push default_decoder (as_bytes (lit "data: x")))) /\
  wf_decoder (fst (finish (fst (push default_decoder (as_bytes (lit "data: x")))))).
Proof. apply decoder_memory_bounded, default_decoder_idle. Defined.

(** C39: Round trip: a stream of representable events, written in the standard
    field syntax (one [event], one [data] line per line of data, an optional
    [id], a blank line), is decoded back to exactly those events in order, an
    event without id inheriting the last one, and the decoder is idle again. *)
Theorem sse_round_trip d events :
  idle d -> Forall (encodable (max_line_bytes d) (max_event_bytes d)) events ->
  exists d', push d (mjoin (map encode_event events)) = (d', Ok (inherit_ids (id d) events)) /\ idle d'.
Proof.
  intros Hidle Hall. revert d Hidle Hall. induction events as [|e events IH]; intros d Hidle Hall.
  - by exists d.
  - apply Forall_cons in Hall as [He Hall].
    destruct (decode_event d e Hidle He) as (d1 & P1 & Hidle1 & Hml & Hme & Hid).
    rewrite <- Hml, <- Hme in Hall. destruct (IH d1 Hidle1 Hall) as (d2 & P2 & Hidle2).
    exists d2. split; [|done]. cbn [inherit_ids].
    change (mjoin (map encode_event (e :: events))) with (encode_event e ++ mjoin (map encode_event events)).
    rewrite (push_app _ _ _ _ _ P1), P2, Hid. done.
Qed.

Definition sample_events : list SseEvent :=
  [{| ev_event := lit "message"; ev_data := lit "a" ++ 10 :: lit "b"; ev_id := Some (lit "7") |};
   {| ev_event := lit "done"; ev_data := lit "c"; ev_id := None |}].

Lemma sse_round_trip_witness :
  exists d', push default_decoder (mjoin (map encode_event sample_events)) =
    (d', Ok (inherit_ids None sample_events)) /\ idle d'.
Proof.
  apply (sse_round_trip default_decoder sample_events); [apply default_decoder_idle|].
  assert (Hc : forall s, forallb (fun c => (0 <=? c) && (c <=? 55295)) s = true -> Forall is_char s).
  { intros s H%forallb_Forall. eapply Forall_impl; [exact H|]. intros c Hc'. cbv beta in Hc'. zify_bools. left. lia. }
  assert (Hb : forall n ls, forallb (fun l => len (as_bytes l) <=? n) ls = true ->
            Forall (fun l => len (as_bytes l) <= n) ls).
  { intros n ls H%forallb_Forall. eapply Forall_impl; [exact H|]. intros l Hl. cbv beta in Hl. by zify_bools. }
  apply Forall_cons. split; [|apply Forall_cons; split; [|constructor]].
  - constructor.
    + split; [apply Hc; vm_compute; reflexivity|split; lit_free].
    + split; [apply Hc; vm_compute; reflexivity|lit_free].
    + intros i [= <-]. split; [apply Hc; vm_compute; reflexivity|split; [split; lit_free|lit_free]].
    + apply Hb. vm_compute. reflexivity.
    + vm_compute. discriminate.
  - constructor.
    + split; [apply Hc; vm_compute; reflexivity|split; lit_free].
    + split; [apply Hc; vm_compute; reflexivity|lit_free].
    + discriminate.
    + apply Hb. vm_compute. reflexivity.
    + vm_compute. discriminate.
Defined.
