(* ===== verification/RateLimit.v ===== *)
(** * Fixed-window rate limiting (crate [wayfinder-gateway], [src/rate_limit.rs])

    One limiter is a [State] behind a lock; every operation returns the state
    it leaves and its result.  A poisoned lock is not modelled. *)
From S2P Require Export Prelude Float64.

(** ** The code *)

Definition DEFAULT_WINDOW_SECONDS : f64 := f64_of_Z 60.

Inductive LimitKind := Requests | Tokens.

Definition LimitKind_as_str (k : LimitKind) : str :=
  match k with Requests => lit "rpm" | Tokens => lit "tpm" end.

Record RateResult := {
  limited_by : option LimitKind;
  retry_after_seconds : Z;
}.

Definition allowed (r : RateResult) : bool := match limited_by r with None => true | Some _ => false end.

Record RateReservation := {
  rr_window_id : Z;
  reserved_tokens : Z;
  reserved_request : bool;
}.

Record ReservationResult := {
  rate : RateResult;
  reservation : option RateReservation;
}.

Record RateSnapshot := {
  snap_limit : Z;
  snap_remaining : Z;
  snap_reset_seconds : Z;
}.

Inductive RateLimitError := InvalidWindow | InvalidTime.

Record Configuration := {
  rpm : option Z;
  tpm : option Z;
  window_seconds : f64;
}.

Record State := {
  configuration : Configuration;
  window_id : option Z;
  requests : Z;
  tokens : Z;
}.

Definition validated_configuration (rpm tpm : option Z) (window_seconds : f64)
    : result Configuration RateLimitError :=
  if negb (f64_is_finite window_seconds) || f64_le window_seconds f64_zero then Err InvalidWindow
  else Ok {| rpm := rpm; tpm := tpm; window_seconds := window_seconds |}.

Definition fresh (c : Configuration) : State :=
  {| configuration := c; window_id := None; requests := 0; tokens := 0 |}.

Definition RateLimiter_new (rpm tpm : option Z) (window_seconds : f64) : result State RateLimitError :=
  result_map fresh (validated_configuration rpm tpm window_seconds).

Definition default_limiter : State :=
  fresh {| rpm := None; tpm := None; window_seconds := DEFAULT_WINDOW_SECONDS |}.

Definition opt_is_some {A} (o : option A) : bool := match o with Some _ => true | None => false end.

Definition active (s : State) : bool :=
  opt_is_some (rpm (configuration s)) || opt_is_some (tpm (configuration s)).
Definition tokens_active (s : State) : bool := opt_is_some (tpm (configuration s)).

Definition validate_time (now : f64) : result unit RateLimitError :=
  if negb (f64_is_finite now) || f64_lt now f64_zero then Err InvalidTime else Ok ().

Definition python_floor_div_positive (numerator denominator : f64) : f64 :=
  let modulo := f64_rem numerator denominator in
  let division := f64_div (f64_sub numerator modulo) denominator in
  if f64_eq division f64_zero then f64_zero
  else
    let floored := f64_floor division in
    if f64_gt (f64_sub division floored) (f64_dec 5 1) then f64_add floored f64_one else floored.

(** The window a time falls in. *)
Definition window_of (c : Configuration) (now : f64) : option Z :=
  let quotient := python_floor_div_positive now (window_seconds c) in
  if negb (f64_is_finite quotient) || f64_ge quotient (f64_of_Z u64_max) then None
  else Some (f64_to_u64 quotient).

Definition roll (s : State) (now : f64) : result State RateLimitError :=
  match window_of (configuration s) now with
  | None => Err InvalidTime
  | Some w =>
      if bool_decide (window_id s = Some w) then Ok s
      else Ok {| configuration := configuration s; window_id := Some w; requests := 0; tokens := 0 |}
  end.

Definition retry_after (s : State) (now : f64) : Z :=
  let next_window := u64_sat_add (default 0 (window_id s)) 1 in
  let next := f64_mul (f64_of_Z next_window) (window_seconds (configuration s)) in
  f64_to_u64 (f64_max (f64_ceil (f64_sub next now)) f64_one).

Definition rejected (kind : LimitKind) (s : State) (now : f64) : RateResult :=
  {| limited_by := Some kind; retry_after_seconds := retry_after s now |}.

Definition admitted : RateResult := {| limited_by := None; retry_after_seconds := 0 |}.

Definition set_counts (s : State) (r t : Z) : State :=
  {| configuration := configuration s; window_id := window_id s; requests := r; tokens := t |}.

(** [requests >= limit], when a request limit is set. *)
Definition over_requests (s : State) : bool :=
  match rpm (configuration s) with Some limit => limit <=? requests s | None => false end.

Definition over_tokens (s : State) (t : Z) : bool :=
  match tpm (configuration s) with
  | Some limit => if t =? 0 then limit <=? tokens s else limit <? u64_sat_add (tokens s) t
  | None => false
  end.

Definition reserve_inner (s : State) (t : Z) (reserve_request : bool) (now : f64)
    : State * result ReservationResult RateLimitError :=
  match validate_time now with
  | Err e => (s, Err e)
  | Ok _ =>
      if (negb reserve_request || negb (opt_is_some (rpm (configuration s))))
         && negb (opt_is_some (tpm (configuration s)))
      then (s, Ok {| rate := admitted; reservation := None |})
      else
        match roll s now with
        | Err e => (s, Err e)
        | Ok s =>
            if reserve_request && over_requests s
            then (s, Ok {| rate := rejected Requests s now; reservation := None |})
            else if over_tokens s t
            then (s, Ok {| rate := rejected Tokens s now; reservation := None |})
            else
              let s := set_counts s (if reserve_request then u64_sat_add (requests s) 1 else requests s)
                                    (u64_sat_add (tokens s) t) in
              (s, let? w := ok_or (window_id s) InvalidTime in
                  Ok {| rate := admitted;
                        reservation := Some {| rr_window_id := w; reserved_tokens := t;
                                               reserved_request := reserve_request |} |})
        end
  end.

Definition reserve_at (s : State) (t : Z) (now : f64) := reserve_inner s t true now.
Definition reserve_tokens_at (s : State) (t : Z) (now : f64) := reserve_inner s t false now.

Definition admit_at (s : State) (now : f64) : State * result RateResult RateLimitError :=
  let '(s, r) := reserve_at s 0 now in (s, result_map rate r).

Definition reconcile_at (s : State) (r : RateReservation) (actual_tokens : Z) (now : f64)
    : State * result bool RateLimitError :=
  match validate_time now with
  | Err e => (s, Err e)
  | Ok _ =>
      if negb (bool_decide (window_id s = Some (rr_window_id r))) then (s, Ok false)
      else
        (set_counts s (requests s)
           (if reserved_tokens r <=? actual_tokens
            then u64_sat_add (tokens s) (actual_tokens - reserved_tokens r)
            else u64_sat_sub (tokens s) (reserved_tokens r - actual_tokens)), Ok true)
  end.

Definition rollback_at (s : State) (r : RateReservation) (now : f64) : State * result bool RateLimitError :=
  match validate_time now with
  | Err e => (s, Err e)
  | Ok _ =>
      if negb (bool_decide (window_id s = Some (rr_window_id r))) then (s, Ok false)
      else
        (set_counts s (if reserved_request r then u64_sat_sub (requests s) 1 else requests s)
           (u64_sat_sub (tokens s) (reserved_tokens r)), Ok true)
  end.

Definition add_tokens_at (s : State) (t : Z) (now : f64) : State * result unit RateLimitError :=
  match validate_time now with
  | Err e => (s, Err e)
  | Ok _ =>
      if negb (tokens_active s) then (s, Ok ())
      else match roll s now with
           | Err e => (s, Err e)
           | Ok s => (set_counts s (requests s) (u64_sat_add (tokens s) t), Ok ())
           end
  end.

Definition reconfigure (s : State) (rpm tpm : option Z) (window_seconds : f64)
    : State * result unit RateLimitError :=
  match validated_configuration rpm tpm window_seconds with
  | Err e => (s, Err e)
  | Ok c => ({| configuration := c; window_id := window_id s; requests := requests s;
                tokens := tokens s |}, Ok ())
  end.

Definition snapshot_at (s : State) (now : f64) : State * result (option RateSnapshot) RateLimitError :=
  match validate_time now with
  | Err e => (s, Err e)
  | Ok _ =>
      match rpm (configuration s) with
      | None => (s, Ok None)
      | Some limit =>
          match roll s now with
          | Err e => (s, Err e)
          | Ok s => (s, Ok (Some {| snap_limit := limit;
                                    snap_remaining := u64_sat_sub limit (requests s);
                                    snap_reset_seconds := retry_after s now |}))
          end
      end
  end.

Definition stats (s : State) : Z * Z := (requests s, tokens s).

(** ** Histories *)
Inductive limiter_op :=
| OpReserve (t : Z) (with_request : bool) (now : f64)
| OpReconcile (r : RateReservation) (actual : Z) (now : f64)
| OpRollback (r : RateReservation) (now : f64)
| OpAddTokens (t : Z) (now : f64)
| OpSnapshot (now : f64).

Definition op_now (op : limiter_op) : f64 :=
  match op with
  | OpReserve _ _ now | OpReconcile _ _ now | OpRollback _ now | OpAddTokens _ now | OpSnapshot now => now
  end.

Definition run_op (s : State) (op : limiter_op) : State :=
  match op with
  | OpReserve t b now => fst (reserve_inner s t b now)
  | OpReconcile r actual now => fst (reconcile_at s r actual now)
  | OpRollback r now => fst (rollback_at s r now)
  | OpAddTokens t now => fst (add_tokens_at s t now)
  | OpSnapshot now => fst (snapshot_at s now)
  end.

(** The change an operation makes to the requests admitted in window [w]:
    one more for a reserved request, one less for a rolled back one. *)
Definition net_admitted (w : Z) (s : State) (op : limiter_op) : Z :=
  match op with
  | OpReserve t b now =>
      match snd (reserve_inner s t b now) with
      | Ok {| reservation := Some r |} =>
          if (rr_window_id r =? w) && reserved_request r then 1 else 0
      | _ => 0
      end
  | OpRollback r now =>
      match snd (rollback_at s r now) with
      | Ok true => if (rr_window_id r =? w) && reserved_request r then -1 else 0
      | _ => 0
      end
  | _ => 0
  end.

Fixpoint net_admitted_all (w : Z) (s : State) (ops : list limiter_op) : Z :=
  match ops with
  | [] => 0
  | op :: ops => net_admitted w s op + net_admitted_all w (run_op s op) ops
  end.

(** The times of a history never go back to an earlier window. *)
Definition windows_ascend (c : Configuration) (last : option Z) (ops : list limiter_op) : Prop :=
  StronglySorted (fun a b => a <= b)
    (option_list last ++ omap (fun op => window_of c (op_now op)) ops).

(** ** Lemmas *)

Record wf_state (s : State) : Prop := {
  ws_window : forall w, window_id s = Some w -> is_u64 w;
  ws_requests : is_u64 (requests s);
  ws_tokens : is_u64 (tokens s);
}.

Lemma f64_to_u64_range a : is_u64 (f64_to_u64 a).
Proof.
  unfold is_u64, f64_to_u64, Z_of_finite_floor. destruct a as [| [] | | [] m e]; try (unfold u64_max; lia).
  simpl cond_Zopp. destruct (Z.leb_spec 0 e).
  - assert (0 < 2 ^ e) by (apply Z.pow_pos_nonneg; lia). unfold u64_max. nia.
  - assert (0 <= Zpos m / 2 ^ (- e)) by (apply Z.div_pos; [lia|apply Z.pow_pos_nonneg; lia]). unfold u64_max. lia.
Qed.

Lemma roll_spec s now s' :
  roll s now = Ok s' ->
  exists w, window_of (configuration s) now = Some w /\ window_id s' = Some w /\
    configuration s' = configuration s /\
    (window_id s = Some w /\ s' = s \/ window_id s <> Some w /\ requests s' = 0 /\ tokens s' = 0).
Proof.
  unfold roll. destruct (window_of (configuration s) now) as [w|]; [|done].
  case_bool_decide; intros [= <-]; exists w; naive_solver.
Qed.

Lemma wf_roll s now s' : wf_state s -> roll s now = Ok s' -> wf_state s'.
Proof.
  intros Hwf Hr. destruct (roll_spec _ _ _ Hr) as (w & Hw & Hid & _ & [[_ ->]|(_ & Hq & Ht)]); [done|].
  constructor; rewrite ?Hq, ?Ht; try u64. intros w'. rewrite Hid. intros [= <-].
  unfold window_of in Hw. case_match; [done|]. injection Hw as <-. apply f64_to_u64_range.
Qed.

Lemma wf_set_counts s r t : wf_state s -> is_u64 r -> is_u64 t -> wf_state (set_counts s r t).
Proof. intros [? ? ?] ? ?. by constructor. Qed.

Definition op_wf (op : limiter_op) : Prop :=
  match op with
  | OpReserve t _ _ | OpAddTokens t _ => is_u64 t
  | OpReconcile r actual _ => is_u64 (reserved_tokens r) /\ is_u64 actual
  | OpRollback r _ => is_u64 (reserved_tokens r)
  | OpSnapshot _ => True
  end.

Lemma wf_limiter_run_op s op : wf_state s -> op_wf op -> wf_state (run_op s op).
Proof.
  intros Hwf Hop. destruct op as [t b now|r actual now|r now|t now|now]; simpl in Hop |- *.
  - unfold reserve_inner. destruct (validate_time now); [|done]. case_match; [done|].
    destruct (roll s now) as [s'|] eqn:Hr; [|done]. pose proof (wf_roll _ _ _ Hwf Hr) as [? ? ?].
    repeat case_match; simpl; try done; apply wf_set_counts; try done; u64.
  - unfold reconcile_at. repeat case_match; simpl; try done; zify_bools; destruct Hwf;
      apply wf_set_counts; try done; u64.
  - unfold rollback_at. repeat case_match; simpl; try done; destruct Hwf; apply wf_set_counts; try done; u64.
  - unfold add_tokens_at. destruct (validate_time now); [|done]. case_match; [done|].
    destruct (roll s now) as [s'|] eqn:Hr; [|done]. pose proof (wf_roll _ _ _ Hwf Hr) as [? ? ?].
    apply wf_set_counts; try done; u64.
  - unfold snapshot_at. destruct (validate_time now); [|done]. destruct (rpm (configuration s)); [|done].
    destruct (roll s now) as [s'|] eqn:Hr; [|done]. by apply (wf_roll s now).
Qed.

Lemma fresh_wf c : wf_state (fresh c).
Proof. constructor; simpl; try done; u64. Qed.

(** The outcome of a reservation once the limiter is active and rolled. *)
Lemma reserve_rolled s t b now s1 :
  validate_time now = Ok () -> (b && opt_is_some (rpm (configuration s)) || tokens_active s) = true ->
  roll s now = Ok s1 ->
  reserve_inner s t b now =
    if b && over_requests s1 then (s1, Ok {| rate := rejected Requests s1 now; reservation := None |})
    else if over_tokens s1 t then (s1, Ok {| rate := rejected Tokens s1 now; reservation := None |})
    else (set_counts s1 (if b then u64_sat_add (requests s1) 1 else requests s1) (u64_sat_add (tokens s1) t),
          Ok {| rate := admitted;
                reservation := Some {| rr_window_id := default 0 (window_id s1); reserved_tokens := t;
                                       reserved_request := b |} |}).
Proof.
  intros Hv Hact Hr. unfold reserve_inner. rewrite Hv, Hr. unfold tokens_active in Hact.
  replace (_ && _) with false by
    (destruct b, (opt_is_some (rpm _)), (opt_is_some (tpm _)); simpl in *; congruence).
  destruct (roll_spec _ _ _ Hr) as (w & _ & Hid & _). simpl window_id. rewrite Hid. done.
Qed.

(** ** The admission bound *)

(** [n] requests, net, were admitted in window [w] before state [s]: they are
    counted by [requests] in the current window, bounded in an earlier one, and
    there are none in a window that has not begun. *)
Definition accounted (w limit n : Z) (s : State) : Prop :=
  requests s <= limit /\
  match window_id s with
  | None => n = 0
  | Some cur => (cur = w -> n <= requests s) /\ (cur < w -> n = 0) /\ (w < cur -> n <= limit)
  end.

Lemma roll_accounted w limit n s now s' :
  0 <= limit -> accounted w limit n s ->
  (forall cur w', window_id s = Some cur -> window_of (configuration s) now = Some w' -> cur <= w') ->
  roll s now = Ok s' -> accounted w limit n s'.
Proof.
  intros Hl [Hr Hn] Hmono (w' & Hw & Hid & _ & [[_ ->]|(Hne & Hq & _)])%roll_spec; [by split|].
  unfold accounted. rewrite Hid, Hq. split; [done|].
  destruct (window_id s) as [cur|]; [|lia].
  specialize (Hmono cur w' eq_refl Hw). assert (cur <> w') by congruence. lia.
Qed.

Lemma accounted_step w limit n s op :
  rpm (configuration s) = Some limit -> is_u64 limit -> accounted w limit n s ->
  (forall cur w', window_id s = Some cur -> window_of (configuration s) (op_now op) = Some w' -> cur <= w') ->
  accounted w limit (n + net_admitted w s op) (run_op s op) /\ configuration (run_op s op) = configuration s.
Proof.
  intros Hrpm Hlim Hacc Hmono. assert (0 <= limit) by (destruct Hlim; lia).
  destruct op as [t b now|r actual now|r now|t now|now]; cbn [net_admitted run_op op_now] in *.
  - unfold reserve_inner. destruct (validate_time now); [|simpl; by rewrite Z.add_0_r].
    destruct ((negb b || _) && _); [simpl; by rewrite Z.add_0_r|].
    destruct (roll s now) as [s1|] eqn:Hroll; [|simpl; by rewrite Z.add_0_r].
    pose proof (roll_accounted _ _ _ _ _ _ H Hacc Hmono Hroll) as [Hr1 Hn1].
    destruct (roll_spec _ _ _ Hroll) as (w1 & _ & Hid & Hcfg & _). rewrite Hid in Hn1.
    destruct (b && over_requests s1) eqn:Hover;
      [simpl; rewrite Z.add_0_r; split; [split; [done|by rewrite Hid]|done]|].
    destruct (over_tokens s1 t); [simpl; rewrite Z.add_0_r; split; [split; [done|by rewrite Hid]|done]|].
    simpl window_id. rewrite Hid. cbn [ok_or result_bind fst snd reservation rr_window_id reserved_request].
    split; [|done]. unfold accounted. simpl. rewrite Hid. destruct b; simpl in Hover.
    + unfold over_requests in Hover. rewrite Hcfg, Hrpm in Hover. zify_bools.
      rewrite andb_true_r. destruct (Z.eqb_spec w1 w); u64.
    + rewrite andb_false_r, Z.add_0_r. done.
  - rewrite Z.add_0_r. unfold reconcile_at. repeat case_match; simpl; try done.
  - unfold rollback_at. destruct (validate_time now); [|simpl; by rewrite Z.add_0_r].
    case_bool_decide as Hid; simpl; [|by rewrite Z.add_0_r]. split; [|done].
    destruct Hacc as [Hr Hn]. unfold accounted. simpl. rewrite Hid in Hn |- *.
    destruct (reserved_request r); rewrite ?andb_true_r, ?andb_false_r, ?Z.add_0_r; [|done].
    destruct (Z.eqb_spec (rr_window_id r) w); u64.
  - rewrite Z.add_0_r. unfold add_tokens_at. destruct (validate_time now); [|done]. case_match; [done|].
    destruct (roll s now) as [s1|] eqn:Hroll; [|done].
    pose proof (roll_accounted _ _ _ _ _ _ H Hacc Hmono Hroll).
    destruct (roll_spec _ _ _ Hroll) as (w1 & _ & _ & Hcfg & _). done.
  - rewrite Z.add_0_r. unfold snapshot_at. destruct (validate_time now); [|done]. rewrite Hrpm.
    destruct (roll s now) as [s1|] eqn:Hroll; [|done].
    pose proof (roll_accounted _ _ _ _ _ _ H Hacc Hmono Hroll).
    destruct (roll_spec _ _ _ Hroll) as (w1 & _ & _ & Hcfg & _). done.
Qed.

(** The window after a step is the one before it or the one of its time. *)
Lemma run_op_window s op cur :
  window_id (run_op s op) = Some cur ->
  window_id s = Some cur \/ window_of (configuration s) (op_now op) = Some cur.
Proof.
  assert (Hroll : forall now s1, roll s now = Ok s1 -> window_id s1 = Some cur ->
            window_of (configuration s) now = Some cur).
  { intros now s1 (w & Hw & Hid & _)%roll_spec Hcur. congruence. }
  destruct op as [t b now|r actual now|r now|t now|now]; cbn [run_op op_now].
  - unfold reserve_inner. destruct (validate_time now); [|by left]. case_match; [by left|].
    destruct (roll s now) as [s1|] eqn:Hr; [|by left]. intros Hw. right.
    apply (Hroll now s1 Hr). repeat case_match; done.
  - unfold reconcile_at. repeat case_match; by left.
  - unfold rollback_at. repeat case_match; by left.
  - unfold add_tokens_at. destruct (validate_time now); [|by left]. case_match; [by left|].
    destruct (roll s now) as [s1|] eqn:Hr; [|by left]. intros Hw. right. by apply (Hroll now s1 Hr).
  - unfold snapshot_at. destruct (validate_time now); [|by left]. destruct (rpm (configuration s)); [|by left].
    destruct (roll s now) as [s1|] eqn:Hr; [|by left]. intros Hw. right. by apply (Hroll now s1 Hr).
Qed.

Lemma accounted_all w limit n s ops :
  rpm (configuration s) = Some limit -> is_u64 limit -> accounted w limit n s ->
  windows_ascend (configuration s) (window_id s) ops ->
  accounted w limit (n + net_admitted_all w s ops) (foldl run_op s ops).
Proof.
  intros Hrpm Hlim. revert n s Hrpm. induction ops as [|op ops IH]; intros n s Hrpm Hacc Hasc; simpl.
  - by rewrite Z.add_0_r.
  - unfold windows_ascend in Hasc.
    assert (Hmono : forall cur w', window_id s = Some cur ->
              window_of (configuration s) (op_now op) = Some w' -> cur <= w').
    { intros cur w' Hc Hw. rewrite Hc in Hasc. simpl in Hasc. rewrite Hw in Hasc.
      inversion Hasc as [|? ? _ Hall]. by inversion Hall. }
    destruct (accounted_step w limit n s op Hrpm Hlim Hacc Hmono) as [Hacc' Hcfg].
    rewrite Z.add_assoc. apply IH; [by rewrite Hcfg|done|].
    unfold windows_ascend. rewrite Hcfg.
    assert (Htail : StronglySorted (fun a b => a <= b) (omap (fun op => window_of (configuration s) (op_now op)) ops) /\
              forall cur, window_id s = Some cur \/ window_of (configuration s) (op_now op) = Some cur ->
              Forall (fun b => cur <= b) (omap (fun op => window_of (configuration s) (op_now op)) ops)).
    { cbn [omap list_omap] in Hasc. destruct (window_id s) as [c|], (window_of (configuration s) (op_now op)) as [w1|];
        simpl in Hasc; repeat match goal with
        | H : StronglySorted _ (_ :: _) |- _ => apply StronglySorted_inv in H as [? ?]
        | H : Forall _ (_ :: _) |- _ => apply Forall_cons in H as [? ?] end;
        split; try done; intros cur [[= <-]|[= <-]]; done. }
    destruct Htail as [Hs Hall]. destruct (window_id (run_op s op)) as [cur|] eqn:Hc; [|exact Hs].
    simpl. constructor; [done|]. apply Hall. by apply run_op_window.
Qed.

(** ** Properties *)

(** A window admits no more requests than its limit: in every history of
    reservations, reconciliations, rollbacks, token additions and snapshots
    whose times never return to an earlier window, the requests admitted in any
    one window, less those rolled back, never exceed the configured limit. *)
Theorem requests_per_window_bounded c limit ops w :
  rpm c = Some limit -> is_u64 limit -> windows_ascend c None ops ->
  net_admitted_all w (fresh c) ops <= limit.
Proof.
  intros Hrpm Hlim Hasc.
  assert (Hacc : accounted w limit 0 (fresh c)) by (split; simpl; [destruct Hlim; lia|done]).
  destruct (accounted_all w limit 0 (fresh c) ops Hrpm Hlim Hacc Hasc) as [Hr Hn].
  destruct (window_id _) as [cur|]; [|destruct Hlim; lia].
  destruct (Z.lt_total cur w) as [?|[?|?]]; destruct Hlim; lia.
Qed.

Definition sample_configuration : Configuration :=
  {| rpm := Some 2; tpm := Some 100; window_seconds := f64_of_Z 60 |}.

Definition sample_ops : list limiter_op :=
  [OpReserve 10 true (f64_of_Z 1); OpReserve 20 true (f64_of_Z 2); OpReserve 5 true (f64_of_Z 3);
   OpRollback {| rr_window_id := 0; reserved_tokens := 20; reserved_request := true |} (f64_of_Z 4);
   OpReserve 5 true (f64_of_Z 5); OpReserve 5 true (f64_of_Z 61)].

Lemma requests_per_window_bounded_witness : net_admitted_all 0 (fresh sample_configuration) sample_ops <= 2.
Proof.
  apply requests_per_window_bounded; [reflexivity|unfold is_u64, u64_max; lia|].
  unfold windows_ascend. replace (omap _ _) with [0; 0; 0; 0; 0; 1] by (vm_compute; reflexivity).
  simpl. repeat constructor; lia.
Defined.

(** Counters and window identifiers stay in range: every operation with
    64-bit arguments keeps them within [0 ..= u64::MAX]. *)
Theorem limiter_counters_in_range c ops :
  Forall op_wf ops -> wf_state (foldl run_op (fresh c) ops).
Proof.
  intros Hops. assert (wf_state (fresh c)) as Hwf by apply fresh_wf. revert Hwf. generalize (fresh c).
  induction Hops as [|op ops Hop _ IH]; intros s Hwf; simpl; [done|]. apply IH. by apply wf_limiter_run_op.
Qed.

Lemma limiter_counters_in_range_witness : wf_state (foldl run_op (fresh sample_configuration) sample_ops).
Proof.
  apply limiter_counters_in_range. unfold sample_ops.
  repeat (apply Forall_cons; split; [simpl; unfold is_u64, u64_max; lia|]). constructor.
Defined.

(** The decision of an active limiter is exactly the fixed-window rule: a
    reservation is refused on requests when the window's requests reached the
    limit, else on tokens when the estimate does not fit (or, without an
    estimate, when the budget is spent); a refusal changes no counter of the
    rolled window and an admission charges one request and the estimate. *)
Theorem reserve_decision s t b now s1 :
  validate_time now = Ok () -> (b && opt_is_some (rpm (configuration s)) || tokens_active s) = true ->
  roll s now = Ok s1 ->
  let '(s2, r) := reserve_inner s t b now in
  if b && over_requests s1 then
    s2 = s1 /\ exists res, r = Ok res /\ limited_by (rate res) = Some Requests /\ reservation res = None
  else if over_tokens s1 t then
    s2 = s1 /\ exists res, r = Ok res /\ limited_by (rate res) = Some Tokens /\ reservation res = None
  else
    requests s2 = (if b then u64_sat_add (requests s1) 1 else requests s1) /\
    tokens s2 = u64_sat_add (tokens s1) t /\ window_id s2 = window_id s1 /\
    exists res, r = Ok {| rate := admitted; reservation := Some res |} /\
      window_id s1 = Some (rr_window_id res) /\ reserved_tokens res = t /\ reserved_request res = b.
Proof.
  intros Hv Hact Hr. rewrite (reserve_rolled s t b now s1) by done.
  destruct (roll_spec _ _ _ Hr) as (w & _ & Hid & _).
  destruct (b && over_requests s1); [by eauto 10|]. destruct (over_tokens s1 t); [by eauto 10|].
  split_and!; [done..|]. eexists. split; [done|]. simpl. by rewrite Hid.
Qed.

Lemma reserve_decision_witness :
  let '(s2, r) := reserve_inner (fresh sample_configuration) 200 true (f64_of_Z 1) in
  exists res, r = Ok res /\ limited_by (rate res) = Some Tokens.
Proof.
  pose proof (reserve_decision (fresh sample_configuration) 200 true (f64_of_Z 1)
    {| configuration := sample_configuration; window_id := Some 0; requests := 0; tokens := 0 |}
    eq_refl eq_refl ltac:(vm_compute; reflexivity)) as H.
  destruct (reserve_inner (fresh sample_configuration) 200 true (f64_of_Z 1)) as [s2 r].
  destruct H as (_ & res & ? & ? & _). eauto.
Defined.

(** Rolling back undoes an admission: in the same window the counters
    return to what they were before it, provided the token counter had not
    saturated. *)
Theorem rollback_undoes_reserve s t b now s1 s2 r now' :
  wf_state s1 -> is_u64 t -> validate_time now = Ok () -> validate_time now' = Ok () ->
  (b && opt_is_some (rpm (configuration s)) || tokens_active s) = true ->
  roll s now = Ok s1 -> tokens s1 + t <= u64_max -> requests s1 + 1 <= u64_max ->
  reserve_inner s t b now = (s2, Ok {| rate := admitted; reservation := Some r |}) ->
  rollback_at s2 r now' = (s1, Ok true).
Proof.
  intros [_ Hq Ht] Htok Hv Hv' Hact Hr Hmax Hmaxr.
  rewrite (reserve_rolled s t b now s1) by done.
  destruct (b && over_requests s1); [done|]. destruct (over_tokens s1 t); [done|]. intros [= <- <-].
  destruct (roll_spec _ _ _ Hr) as (w & _ & Hid & _). unfold rollback_at. rewrite Hv'. simpl.
  rewrite Hid, bool_decide_eq_true_2 by done. simpl. f_equal.
  destruct s1 as [cfg wid req tok]; simpl in *. unfold set_counts. simpl. f_equal; [destruct b; u64|u64].
Qed.

Definition sample_rolled : State :=
  {| configuration := sample_configuration; window_id := Some 0; requests := 0; tokens := 0 |}.

Lemma rollback_undoes_reserve_witness :
  rollback_at (fst (reserve_inner (fresh sample_configuration) 10 true (f64_of_Z 1)))
    {| rr_window_id := 0; reserved_tokens := 10; reserved_request := true |} (f64_of_Z 2) = (sample_rolled, Ok true).
Proof.
  apply (rollback_undoes_reserve (fresh sample_configuration) 10 true (f64_of_Z 1));
    try (vm_compute; reflexivity); try (vm_compute; discriminate).
  - constructor; simpl; [intros w [= <-]|..]; unfold is_u64, u64_max; lia.
  - unfold is_u64, u64_max; lia.
Defined.

(** A completion settles its own window only: reconciling replaces the
    reserved estimate by the observed usage while the reservation's window is
    current, and after it rolled over changes nothing at all. *)
Theorem reconcile_own_window_only s r actual now :
  wf_state s -> is_u64 actual -> is_u64 (reserved_tokens r) -> validate_time now = Ok () ->
  (window_id s <> Some (rr_window_id r) -> reconcile_at s r actual now = (s, Ok false)) /\
  (window_id s = Some (rr_window_id r) ->
   reserved_tokens r <= tokens s -> tokens s - reserved_tokens r + actual <= u64_max ->
   reconcile_at s r actual now =
     (set_counts s (requests s) (tokens s - reserved_tokens r + actual), Ok true)).
Proof.
  intros [_ _ Ht] Ha Hres Hv. unfold reconcile_at. rewrite Hv. split.
  - intros Hne. by rewrite bool_decide_eq_false_2.
  - intros He Hle Hmax. rewrite bool_decide_eq_true_2 by done. cbn [negb]. f_equal. f_equal.
    destruct (Z.leb_spec (reserved_tokens r) actual); u64.
Qed.

Lemma reconcile_own_window_only_witness :
  reconcile_at sample_rolled {| rr_window_id := 3; reserved_tokens := 9; reserved_request := true |} 5 (f64_of_Z 2) =
  (sample_rolled, Ok false).
Proof.
  apply reconcile_own_window_only; try (unfold is_u64, u64_max; simpl; lia); try done.
  constructor; simpl; [intros w [= <-]|..]; unfold is_u64, u64_max; lia.
Defined.
