(* ===== verification/Cache.v ===== *)
(** * Response cache (crate [wayfinder-gateway], [src/cache.rs])

    The exact-match LRU cache: a [State] behind a lock, stored entries in
    insertion order with the least recently used first.  The store is an
    [IndexMap]; a poisoned lock is not modelled. *)
From S2P Require Export Float64 IndexMap.

(** ** The code *)

Definition DEFAULT_TTL_SECONDS : f64 := f64_of_Z 300.
Definition DEFAULT_MAX_ENTRIES : Z := 1024.
Definition DEFAULT_MAX_BYTES : Z := 64 * 1024 * 1024.

Record CachedResponse := {
  status : Z;
  content_type : str;
  body : list Z;
  prompt_tokens : Z;
  completion_tokens : Z;
  estimated : bool;
}.

Record CacheSettings := {
  enabled : bool;
  ttl_seconds : f64;
  max_entries : Z;
  max_bytes : Z;
}.

Definition default_settings : CacheSettings :=
  {| enabled := false; ttl_seconds := DEFAULT_TTL_SECONDS; max_entries := DEFAULT_MAX_ENTRIES;
     max_bytes := DEFAULT_MAX_BYTES |}.

Record CacheStats := {
  st_entries : Z;
  st_bytes : Z;
  st_hits : Z;
  st_misses : Z;
}.

Inductive CacheError := InvalidTtl | InvalidTime.

Record StoredResponse := {
  response : CachedResponse;
  stored_at : f64;
}.

Definition validate_settings (s : CacheSettings) : result unit CacheError :=
  if negb (f64_is_finite (ttl_seconds s)) || f64_lt (ttl_seconds s) f64_zero then Err InvalidTtl else Ok ().

Definition validate_time (now : f64) : result unit CacheError :=
  if negb (f64_is_finite now) || f64_lt now f64_zero then Err InvalidTime else Ok ().

Definition body_len (s : StoredResponse) : Z := len (body (response s)).

Section Cache.
Context {M : Type} `{IndexMap StoredResponse M}.

Record State := {
  settings : CacheSettings;
  store : M;
  bytes : Z;
  hits : Z;
  misses : Z;
}.

Definition ResponseCache_new (s : CacheSettings) : result State CacheError :=
  let? _ := validate_settings s in
  Ok {| settings := s; store := im_new; bytes := 0; hits := 0; misses := 0 |}.

Definition set_store (c : State) (m : M) (b : Z) : State :=
  {| settings := settings c; store := m; bytes := b; hits := hits c; misses := misses c |}.

Definition miss (c : State) : State :=
  {| settings := settings c; store := store c; bytes := bytes c; hits := hits c;
     misses := u64_sat_add (misses c) 1 |}.

Definition hit (c : State) : State :=
  {| settings := settings c; store := store c; bytes := bytes c; hits := u64_sat_add (hits c) 1;
     misses := misses c |}.

Definition expired (s : CacheSettings) (now stored : f64) : bool :=
  f64_gt (ttl_seconds s) f64_zero && f64_ge (f64_sub now stored) (ttl_seconds s).

Definition get_at (c : State) (key : str) (now : f64) : State * result (option CachedResponse) CacheError :=
  match validate_time now with
  | Err e => (c, Err e)
  | Ok _ =>
      if negb (enabled (settings c)) then (c, Ok None)
      else
        let '(found, removed) := im_shift_remove (store c) key in
        match found with
        | None => (miss (set_store c removed (bytes c)), Ok None)
        | Some entry =>
            let b := u64_sat_sub (bytes c) (body_len entry) in
            if expired (settings c) now (stored_at entry)
            then (miss (set_store c removed b), Ok None)
            else
              (hit (set_store c (im_insert removed key entry) (u64_sat_add b (body_len entry))),
               Ok (Some (response entry)))
        end
  end.

(** The loop of [evict]; one unit of fuel per entry. *)
Fixpoint evict_loop (fuel : nat) (c : State) : State :=
  match fuel with
  | O => c
  | S fuel =>
      if negb (im_len (store c) =? 0)
         && ((max_entries (settings c) <? im_len (store c)) || (max_bytes (settings c) <? bytes c))
      then
        let '(removed, rest) := im_shift_remove_first (store c) in
        evict_loop fuel
          (set_store c rest
            match removed with
            | Some (_, entry) => u64_sat_sub (bytes c) (body_len entry)
            | None => bytes c
            end)
      else c
  end.

Definition evict (c : State) : State := evict_loop (S (length (im_entries (store c)))) c.

Definition put_at (c : State) (key : str) (entry : CachedResponse) (now : f64)
    : State * result unit CacheError :=
  match validate_time now with
  | Err e => (c, Err e)
  | Ok _ =>
      if negb (enabled (settings c)) || (max_entries (settings c) =? 0) || (max_bytes (settings c) =? 0)
         || (max_bytes (settings c) <? len (body entry))
      then (c, Ok ())
      else
        let '(previous, removed) := im_shift_remove (store c) key in
        let b := match previous with
                 | Some p => u64_sat_sub (bytes c) (body_len p)
                 | None => bytes c
                 end in
        let stored := {| response := entry; stored_at := now |} in
        (evict (set_store c (im_insert removed key stored) (u64_sat_add b (len (body entry)))), Ok ())
  end.

Definition clear (c : State) : State := set_store c (im_clear (store c)) 0.

Definition with_settings (c : State) (s : CacheSettings) : State :=
  {| settings := s; store := store c; bytes := bytes c; hits := hits c; misses := misses c |}.

Definition reconfigure (c : State) (s : CacheSettings) : State * result unit CacheError :=
  match validate_settings s with
  | Err e => (c, Err e)
  | Ok _ =>
      let c := with_settings c s in
      (if negb (enabled s) then clear c else evict c, Ok ())
  end.

Definition stats (c : State) : CacheStats :=
  {| st_entries := im_len (store c); st_bytes := bytes c; st_hits := hits c; st_misses := misses c |}.

(** ** Histories *)
Inductive cache_op :=
| OpGet (key : str) (now : f64)
| OpPut (key : str) (entry : CachedResponse) (now : f64)
| OpClear
| OpReconfigure (s : CacheSettings).

Definition run_op (c : State) (op : cache_op) : State :=
  match op with
  | OpGet key now => fst (get_at c key now)
  | OpPut key entry now => fst (put_at c key entry now)
  | OpClear => clear c
  | OpReconfigure s => fst (reconfigure c s)
  end.
End Cache.
Arguments State M : clear implicits.

(** ** Invariant *)
Section Invariant.
Context {M : Type} `{Hlaws : IndexMapLaws StoredResponse M}.
Implicit Types (c : State M) (k : str) (l : list (str * StoredResponse)).

Definition entries c : list (str * StoredResponse) := im_entries (store c).

Definition total_bytes l : Z := foldr (fun kv n => body_len (snd kv) + n) 0 l.

(** Byte ceilings for which [bytes + body.len()] fits the machine word. *)
Definition settings_ok (s : CacheSettings) : Prop :=
  0 <= max_entries s <= u64_max /\ 0 <= max_bytes s /\ 2 * max_bytes s <= u64_max.

Record wf_cache c : Prop := {
  wc_settings : settings_ok (settings c);
  wc_keys : NoDup (ix_keys (entries c));
  wc_bytes : bytes c = total_bytes (entries c);
  wc_disabled : enabled (settings c) = false -> entries c = [];
  wc_entries : len (entries c) <= max_entries (settings c);
  wc_max_bytes : bytes c <= max_bytes (settings c);
}.

(** The invariant before eviction restores the two bounds. *)
Record wf_unbounded c : Prop := {
  wu_settings : settings_ok (settings c);
  wu_keys : NoDup (ix_keys (entries c));
  wu_bytes : bytes c = total_bytes (entries c);
}.

Lemma body_len_nonneg s : 0 <= body_len s.
Proof. apply len_nonneg. Qed.

Lemma total_bytes_nonneg l : 0 <= total_bytes l.
Proof. induction l as [|[k s] l IH]; simpl; [done|]. pose proof (body_len_nonneg s). lia. Qed.

Lemma total_bytes_app a b : total_bytes (a ++ b) = total_bytes a + total_bytes b.
Proof. induction a as [|x a IH]; simpl; lia. Qed.

Lemma total_bytes_remove l k s :
  ix_get l k = Some s -> total_bytes (ix_remove l k) = total_bytes l - body_len s.
Proof.
  intros (a & b & -> & ->)%ix_get_split. rewrite !total_bytes_app. simpl. lia.
Qed.

(** The entries [evict] leaves: drop from the front while a bound is exceeded. *)
Fixpoint evicted (s : CacheSettings) l : list (str * StoredResponse) :=
  match l with
  | [] => []
  | _ :: rest =>
      if (max_entries s <? len l) || (max_bytes s <? total_bytes l) then evicted s rest else l
  end.

Lemma evict_loop_spec fuel c :
  bytes c = total_bytes (entries c) -> (length (entries c) <= fuel)%nat ->
  entries (evict_loop fuel c) = evicted (settings c) (entries c) /\
  bytes (evict_loop fuel c) = total_bytes (entries (evict_loop fuel c)) /\
  settings (evict_loop fuel c) = settings c /\
  hits (evict_loop fuel c) = hits c /\ misses (evict_loop fuel c) = misses c.
Proof.
  revert c. induction fuel as [|fuel IH]; intros c Hb Hf.
  - cbn [evict_loop]. split_and!; try done. destruct (entries c); [done|simpl in Hf; lia].
  - cbn [evict_loop]. rewrite im_len_spec. fold (entries c).
    destruct (entries c) as [|[k0 s0] rest] eqn:He.
    { change (len [] =? 0) with true. cbn [negb andb]. split_and!; try done. by rewrite He. }
    replace (len ((k0, s0) :: rest) =? 0) with false by (rewrite len_cons; pose proof (len_nonneg rest); lia).
    cbn [negb andb evicted]. rewrite Hb.
    destruct ((max_entries (settings c) <? len ((k0, s0) :: rest)) ||
              (max_bytes (settings c) <? total_bytes ((k0, s0) :: rest))) eqn:Ho.
    2: { split_and!; try done. by rewrite He. }
    destruct (im_shift_remove_first (store c)) as [removed rm] eqn:Hr.
    destruct (im_shift_remove_first_spec (store c)) as [H1 H2]. rewrite Hr in H1, H2. simpl in H1, H2.
    fold (entries c) in H1, H2. rewrite He in H1, H2. simpl in H1, H2. subst removed.
    match goal with |- context [evict_loop fuel ?c'] => specialize (IH c') end.
    assert (Hent : entries (set_store c rm (u64_sat_sub (total_bytes ((k0, s0) :: rest)) (body_len s0))) = rest)
      by exact H2.
    rewrite Hent in IH. simpl settings in IH. apply IH.
    + simpl bytes. simpl. pose proof (total_bytes_nonneg rest). u64.
    + simpl in Hf. lia.
Qed.

Lemma evicted_bounds s l :
  settings_ok s ->
  len (evicted s l) <= max_entries s /\ total_bytes (evicted s l) <= max_bytes s.
Proof.
  intros (Hme & Hmb & _). induction l as [|x l IH]; [simpl; unfold len; simpl; lia|].
  cbn [evicted]. destruct (_ || _) eqn:Ho; [done|]. zify_bools. lia.
Qed.

Lemma evicted_suffix s l : exists pre, l = pre ++ evicted s l.
Proof.
  induction l as [|x l [pre IH]]; [by exists []|]. cbn [evicted].
  destruct (_ || _); [exists (x :: pre); simpl; by f_equal|by exists []].
Qed.

Lemma evicted_id s l : len l <= max_entries s -> total_bytes l <= max_bytes s -> evicted s l = l.
Proof.
  intros. destruct l; [done|]. cbn [evicted]. by replace (_ || _) with false by lia.
Qed.

(** The newest entry survives its own eviction. *)
Lemma evicted_last s l x :
  1 <= max_entries s -> body_len (snd x) <= max_bytes s ->
  exists l', evicted s (l ++ [x]) = l' ++ [x] /\ exists pre, l = pre ++ l'.
Proof.
  intros Hm Hb. induction l as [|y l (l' & IH & pre & Hpre)].
  - exists []. split; [|by exists []]. simpl app. apply evicted_id; simpl; unfold len; simpl; lia.
  - simpl app. cbn [evicted]. destruct (_ || _).
    + exists l'. split; [done|]. exists (y :: pre). simpl. by f_equal.
    + exists (y :: l). split; [done|]. by exists [].
Qed.

Lemma evict_spec c :
  wf_unbounded c -> (enabled (settings c) = true) ->
  wf_cache (evict c) /\ entries (evict c) = evicted (settings c) (entries c) /\
  settings (evict c) = settings c /\ hits (evict c) = hits c /\ misses (evict c) = misses c.
Proof.
  intros [Hs Hk Hb] He. unfold evict.
  destruct (evict_loop_spec (S (length (im_entries (store c)))) c Hb) as (H1 & H2 & H3 & H4 & H5);
    [unfold entries; lia|].
  destruct (evicted_bounds (settings c) (entries c) Hs).
  split; [|done]. constructor; rewrite ?H3; try done.
  - rewrite H1. destruct (evicted_suffix (settings c) (entries c)) as [pre Hpre].
    rewrite Hpre in Hk. unfold ix_keys in Hk |- *. rewrite map_app in Hk. by apply NoDup_app in Hk as (_ & _ & ?).
  - by rewrite He.
  - by rewrite H1.
  - by rewrite H2, H1.
Qed.

Lemma wf_unbounded_of c : wf_cache c -> wf_unbounded c.
Proof. intros []. by constructor. Qed.

(** Removing a key and putting it back last. *)
Lemma refresh_entries l k s :
  NoDup (ix_keys l) ->
  ix_insert (ix_remove l k) k s = ix_remove l k ++ [(k, s)] /\
  NoDup (ix_keys (ix_remove l k ++ [(k, s)])).
Proof.
  intros Hd. destruct (ix_keys_remove l k Hd) as [Hd' Hn]. split; [by apply ix_insert_new|].
  unfold ix_keys. rewrite map_app. apply NoDup_app. split_and!; [done| |apply NoDup_singleton].
  intros x Hx Hin. apply list_elem_of_singleton in Hin as ->. done.
Qed.

Lemma total_bytes_remove_le l k : total_bytes (ix_remove l k) <= total_bytes l.
Proof.
  destruct (ix_get l k) as [s|] eqn:E.
  - rewrite (total_bytes_remove _ _ _ E). pose proof (body_len_nonneg s). lia.
  - apply ix_get_None in E. by rewrite ix_remove_not_in.
Qed.

Lemma len_remove_le l k : len (ix_remove l k) <= len l.
Proof.
  induction l as [|[k' s'] l IH]; simpl; [done|]. destruct (str_eqb k' k); rewrite !len_cons; lia.
Qed.

Lemma shift_remove_eq (m : M) k :
  im_shift_remove m k = (ix_get (im_entries m) k, snd (im_shift_remove m k)) /\
  im_entries (snd (im_shift_remove m k)) = ix_remove (im_entries m) k.
Proof. destruct (im_shift_remove_spec m k) as [H1 H2]. destruct (im_shift_remove m k). simpl in *. by subst. Qed.

(** What a lookup does, branch by branch. *)
Definition lookup_result c k (now : f64) : option StoredResponse :=
  match ix_get (entries c) k with
  | Some s => if expired (settings c) now (stored_at s) then None else Some s
  | None => None
  end.

Lemma get_at_spec c k now :
  wf_cache c -> validate_time now = Ok () -> enabled (settings c) = true ->
  let '(c', r) := get_at c k now in
  settings c' = settings c /\ wf_cache c' /\
  match lookup_result c k now with
  | Some s => r = Ok (Some (response s)) /\ entries c' = ix_remove (entries c) k ++ [(k, s)] /\
              hits c' = u64_sat_add (hits c) 1 /\ misses c' = misses c
  | None => r = Ok None /\ entries c' = ix_remove (entries c) k /\
            hits c' = hits c /\ misses c' = u64_sat_add (misses c) 1
  end.
Proof.
  intros Hwf Hv He. destruct Hwf as [Hs Hk Hb Hd Hn Hm]. unfold get_at, lookup_result. rewrite Hv, He. cbn [negb].
  destruct (shift_remove_eq (store c) k) as [Heq Hrem]. rewrite Heq. fold (entries c) in *.
  set (m' := snd (im_shift_remove (store c) k)) in *.
  pose proof (total_bytes_nonneg (ix_remove (entries c) k)).
  pose proof (total_bytes_remove_le (entries c) k). pose proof (len_remove_le (entries c) k).
  pose proof (ix_keys_remove (entries c) k Hk) as [Hk' Hnk].
  destruct (ix_get (entries c) k) as [s|] eqn:Hg; cbn [fst snd].
  - pose proof (total_bytes_remove _ _ _ Hg) as Htot. pose proof (body_len_nonneg s).
    assert (Hb1 : u64_sat_sub (bytes c) (body_len s) = total_bytes (ix_remove (entries c) k)) by (rewrite Hb; u64).
    destruct (expired (settings c) now (stored_at s)).
    + split; [done|]. split; [|by rewrite <- Hrem]. constructor; unfold entries; simpl; rewrite ?Hrem; try done; try lia.
      by rewrite He.
    + destruct (refresh_entries (entries c) k s Hk) as [Hins Hnd].
      assert (Hent : im_entries (im_insert m' k s) = ix_remove (entries c) k ++ [(k, s)])
        by (rewrite im_insert_spec, Hrem; exact Hins).
      assert (Htot' : total_bytes (ix_remove (entries c) k ++ [(k, s)]) = bytes c)
        by (rewrite total_bytes_app; simpl; lia).
      assert (Hlen : len (ix_remove (entries c) k ++ [(k, s)]) <= len (entries c)).
      { destruct (ix_get_split _ _ _ Hg) as (a & b & Ha & Hr). rewrite Hr, Ha, !len_app, !len_cons.
        rewrite (@len_nil (str * StoredResponse)). lia. }
      split; [done|]. split.
      * constructor; unfold entries; simpl; rewrite ?Hent; try done; try lia.
        -- rewrite Htot'. destruct Hs as (_ & ? & ?). u64.
        -- by rewrite He.
        -- destruct Hs as (_ & ? & ?). u64.
      * done.
  - assert (Hnin : k ∉ ix_keys (entries c)) by by apply ix_get_None. rewrite ix_remove_not_in in * by done.
    split; [done|]. split; [|by rewrite <- Hrem].
    constructor; unfold entries; simpl; rewrite ?Hrem; done.
Qed.

(** A put that stores. *)
Definition stores c (entry : CachedResponse) : Prop :=
  enabled (settings c) = true /\ max_entries (settings c) <> 0 /\ max_bytes (settings c) <> 0 /\
  len (body entry) <= max_bytes (settings c).

Lemma put_at_spec c k entry now :
  wf_cache c -> validate_time now = Ok () -> stores c entry ->
  let '(c', r) := put_at c k entry now in
  r = Ok () /\ settings c' = settings c /\ hits c' = hits c /\ misses c' = misses c /\ wf_cache c' /\
  entries c' = evicted (settings c)
    (ix_remove (entries c) k ++ [(k, {| response := entry; stored_at := now |})]).
Proof.
  intros Hwf Hv (He & Hm0 & Hb0 & Hfit). destruct Hwf as [Hs Hk Hb Hd Hn Hm]. unfold put_at.
  rewrite Hv, He. cbn [negb orb].
  replace (_ || _ || _) with false by (destruct Hs; lia).
  destruct (shift_remove_eq (store c) k) as [Heq Hrem]. rewrite Heq. fold (entries c) in *.
  set (m' := snd (im_shift_remove (store c) k)) in *. set (stored := {| response := entry; stored_at := now |}).
  destruct (refresh_entries (entries c) k stored Hk) as [Hins Hnd].
  assert (Hent : im_entries (im_insert m' k stored) = ix_remove (entries c) k ++ [(k, stored)])
    by (rewrite im_insert_spec, Hrem; exact Hins).
  pose proof (total_bytes_nonneg (ix_remove (entries c) k)).
  pose proof (total_bytes_remove_le (entries c) k).
  assert (Hb1 : match ix_get (entries c) k with Some p => u64_sat_sub (bytes c) (body_len p) | None => bytes c end
                = total_bytes (ix_remove (entries c) k)).
  { destruct (ix_get (entries c) k) as [p|] eqn:Hg.
    - pose proof (total_bytes_remove _ _ _ Hg). rewrite Hb. u64.
    - apply ix_get_None in Hg. by rewrite ix_remove_not_in. }
  rewrite Hb1. set (c1 := set_store c _ _).
  assert (Hent1 : entries c1 = ix_remove (entries c) k ++ [(k, stored)]) by exact Hent.
  assert (Hwf1 : wf_unbounded c1).
  { constructor; [done|by rewrite Hent1|]. rewrite Hent1, total_bytes_app. simpl.
    change (body_len stored) with (len (body entry)). pose proof (len_nonneg (body entry)).
    destruct Hs as (_ & ? & ?). u64. }
  destruct (evict_spec c1 Hwf1 He) as (? & Hev & ? & ? & ?). rewrite Hent1 in Hev. split_and!; done.
Qed.

Lemma put_at_ignored c k entry now : ~ stores c entry -> fst (put_at c k entry now) = c.
Proof.
  intros Hn. unfold put_at. destruct (validate_time now); [|done].
  destruct (enabled (settings c)) eqn:He; [|done]. cbn [negb orb].
  destruct (Z.eqb_spec (max_entries (settings c)) 0); [done|].
  destruct (Z.eqb_spec (max_bytes (settings c)) 0); [done|].
  destruct (Z.ltb_spec (max_bytes (settings c)) (len (body entry))); [done|].
  exfalso. apply Hn. by split_and!.
Qed.

Lemma stores_dec c entry : {stores c entry} + {~ stores c entry}.
Proof. unfold stores. solve_decision. Defined.

Lemma wf_clear c : wf_cache c -> wf_cache (clear c).
Proof.
  intros [Hs _ _ _ _ _]. constructor; unfold entries; simpl; rewrite ?im_clear_spec; try done.
  - constructor.
  - unfold len. simpl. destruct Hs. lia.
  - destruct Hs as (_ & ? & _). lia.
Qed.

Lemma wf_reconfigure c s : wf_cache c -> settings_ok s -> wf_cache (fst (reconfigure c s)).
Proof.
  intros Hwf Hs. unfold reconfigure. destruct (validate_settings s); [|done]. cbn [fst].
  destruct (enabled s) eqn:He; cbn [negb].
  - apply evict_spec; [|done]. destruct Hwf as [_ Hk Hb _ _ _]. by constructor.
  - constructor; unfold entries; simpl; rewrite ?im_clear_spec; try done.
    + constructor.
    + unfold len. simpl. destruct Hs. lia.
    + destruct Hs as (_ & ? & _). lia.
Qed.

Definition op_ok (op : cache_op) : Prop :=
  match op with OpReconfigure s => settings_ok s | _ => True end.

Lemma wf_cache_run_op c op : wf_cache c -> op_ok op -> wf_cache (run_op c op).
Proof.
  intros Hwf Hop. destruct op as [k now|k entry now| |s]; cbn [run_op].
  - destruct (validate_time now) as [[]|e] eqn:Hv; [|unfold get_at; by rewrite Hv].
    destruct (enabled (settings c)) eqn:He; [|unfold get_at; by rewrite Hv, He].
    pose proof (get_at_spec c k now Hwf Hv He) as H1. destruct (get_at c k now). naive_solver.
  - destruct (validate_time now) as [[]|e] eqn:Hv; [|unfold put_at; by rewrite Hv].
    destruct (stores_dec c entry) as [Hst|Hst]; [|by rewrite put_at_ignored].
    pose proof (put_at_spec c k entry now Hwf Hv Hst) as H1. destruct (put_at c k entry now). naive_solver.
  - by apply wf_clear.
  - by apply wf_reconfigure.
Qed.

Lemma wf_new s c : settings_ok s -> ResponseCache_new s = Ok c -> wf_cache c.
Proof.
  unfold ResponseCache_new. intros Hs (_ & _ & [= <-])%result_bind_ok.
  constructor; unfold entries; simpl; rewrite ?im_new_spec; try done.
  - constructor.
  - unfold len. simpl. destruct Hs. lia.
  - destruct Hs as (_ & ? & _). lia.
Qed.
End Invariant.

(** ** Properties *)
Section Properties.
Context {M : Type} `{Hlaws : IndexMapLaws StoredResponse M}.

Lemma evicted_minimal s l :
  exists pre, l = pre ++ evicted s l /\
    forall pre' x, pre = pre' ++ [x] ->
      max_entries s < len (x :: evicted s l) \/ max_bytes s < total_bytes (x :: evicted s l).
Proof.
  induction l as [|y l (pre & IH & Hmin)].
  - exists []. split; [done|]. intros pre' x Hx. by apply (f_equal length) in Hx; rewrite length_app in Hx; simpl in Hx; lia.
  - cbn [evicted]. destruct (_ || _) eqn:Ho.
    + exists (y :: pre). split; [simpl; by f_equal|]. intros pre' x Hx.
      destruct pre' as [|z pre']; simpl in Hx; injection Hx as -> Hx.
      * subst pre. simpl in IH. rewrite <- IH. apply orb_true_iff in Ho as [?|?]; lia.
      * by apply (Hmin pre').
    + exists []. split; [done|]. intros pre' x Hx.
      by apply (f_equal length) in Hx; rewrite length_app in Hx; simpl in Hx; lia.
Qed.

(** C32: The cache never outgrows its settings: in every history of lookups,
    stores, purges and reconfigurations the retained entries stay within the
    entry and byte ceilings, the byte counter is the exact total of the
    retained bodies, keys are unique, and a disabled cache retains nothing. *)
Theorem cache_invariant s (c : State M) ops :
  settings_ok s -> ResponseCache_new s = Ok c -> Forall op_ok ops -> wf_cache (foldl run_op c ops).
Proof.
  intros Hs Hnew Hops. pose proof (wf_new s c Hs Hnew) as Hwf. clear Hnew. revert c Hwf.
  induction Hops as [|op ops Hop _ IH]; intros c Hwf; simpl; [done|]. apply IH. by apply wf_cache_run_op.
Qed.

(** A stored response is replayed: after a store that the settings admit,
    a lookup of the same key within the time to live returns that response,
    whatever the store had to evict. *)
Theorem get_after_put (c : State M) k entry now now' :
  wf_cache c -> stores c entry -> validate_time now = Ok () -> validate_time now' = Ok () ->
  expired (settings c) now' now = false ->
  snd (get_at (fst (put_at c k entry now)) k now') = Ok (Some entry).
Proof.
  intros Hwf Hst Hv Hv' Hexp. pose proof (put_at_spec c k entry now Hwf Hv Hst) as Hput.
  destruct (put_at c k entry now) as [c1 r1]. destruct Hput as (_ & Hset & _ & _ & Hwf1 & Hent). simpl.
  destruct Hst as (He & Hm0 & Hb0 & Hfit). destruct (wc_settings c Hwf) as (? & ? & ?).
  destruct (evicted_last (settings c) (ix_remove (entries c) k)
              (k, {| response := entry; stored_at := now |})) as (l' & Hl' & pre & Hpre); [lia|exact Hfit|].
  rewrite Hl' in Hent.
  assert (Hnin : k ∉ ix_keys l').
  { destruct (ix_keys_remove (entries c) k (wc_keys c Hwf)) as [_ Hn]. rewrite Hpre in Hn.
    unfold ix_keys in *. rewrite map_app in Hn. set_solver. }
  rewrite <- Hset in He. pose proof (get_at_spec c1 k now' Hwf1 Hv' He) as Hget.
  destruct (get_at c1 k now') as [c2 r2]. destruct Hget as (_ & _ & Hget). simpl.
  unfold lookup_result in Hget. rewrite Hent, ix_get_app_last in Hget by done. simpl in Hget.
  rewrite Hset, Hexp in Hget. naive_solver.
Qed.

(** Eviction is least-recently-used and minimal: a store keeps a suffix
    of the other entries (oldest dropped first) followed by the new one, and
    it drops an entry only while keeping it would break a ceiling. *)
Theorem put_evicts_lru_minimally (c : State M) k entry now :
  wf_cache c -> stores c entry -> validate_time now = Ok () ->
  let new := (k, {| response := entry; stored_at := now |}) in
  exists dropped kept, ix_remove (entries c) k = dropped ++ kept /\
    entries (fst (put_at c k entry now)) = kept ++ [new] /\
    forall older x, dropped = older ++ [x] ->
      max_entries (settings c) < len (x :: kept ++ [new]) \/
      max_bytes (settings c) < total_bytes (x :: kept ++ [new]).
Proof.
  intros Hwf Hst Hv new. pose proof (put_at_spec c k entry now Hwf Hv Hst) as Hput.
  destruct (put_at c k entry now) as [c1 r1]. destruct Hput as (_ & _ & _ & _ & _ & Hent). simpl.
  destruct Hst as (He & Hm0 & Hb0 & Hfit). destruct (wc_settings c Hwf) as (? & ? & ?).
  fold new in Hent.
  destruct (evicted_last (settings c) (ix_remove (entries c) k) new) as (l' & Hl' & pre & Hpre); [lia|exact Hfit|].
  destruct (evicted_minimal (settings c) (ix_remove (entries c) k ++ [new])) as (pre2 & He2 & Hmin).
  rewrite Hl' in He2, Hmin, Hent.
  assert (pre2 = pre) as ->.
  { rewrite Hpre, <- (assoc_L (++)) in He2. by apply app_inv_tail in He2. }
  exists pre, l'. split_and!; done.
Qed.

(** A lookup answers by freshness: a fresh entry is returned, becomes the
    most recently used and counts one hit; an expired one is removed and,
    like an absent one, counts one miss; the others keep their order. *)
Theorem get_at_by_freshness (c : State M) k now :
  wf_cache c -> validate_time now = Ok () -> enabled (settings c) = true ->
  let '(c', r) := get_at c k now in
  match lookup_result c k now with
  | Some s => r = Ok (Some (response s)) /\ entries c' = ix_remove (entries c) k ++ [(k, s)] /\
              hits c' = u64_sat_add (hits c) 1 /\ misses c' = misses c
  | None => r = Ok None /\ entries c' = ix_remove (entries c) k /\
            hits c' = hits c /\ misses c' = u64_sat_add (misses c) 1
  end.
Proof.
  intros Hwf Hv He. pose proof (get_at_spec c k now Hwf Hv He) as H1.
  destruct (get_at c k now). by destruct H1 as (_ & _ & ?).
Qed.
End Properties.

(** ** Closed examples, on the association list *)
Definition assoc_store : Type := list (str * StoredResponse).

Definition sample_settings : CacheSettings :=
  {| enabled := true; ttl_seconds := f64_of_Z 300; max_entries := 2; max_bytes := 10 |}.

Definition sample_response (n : nat) : CachedResponse :=
  {| status := 200; content_type := lit "application/json"; body := replicate n 120; prompt_tokens := 1;
     completion_tokens := 1; estimated := false |}.

Definition empty_cache : State assoc_store :=
  {| settings := sample_settings; store := []; bytes := 0; hits := 0; misses := 0 |}.

Definition warm_cache : State assoc_store :=
  foldl run_op empty_cache [OpPut (lit "a") (sample_response 4) (f64_of_Z 1); OpPut (lit "b") (sample_response 4) (f64_of_Z 2)].

Lemma sample_settings_ok : settings_ok sample_settings.
Proof. unfold settings_ok, u64_max. simpl. lia. Qed.

Lemma cache_invariant_witness : wf_cache warm_cache.
Proof.
  apply (cache_invariant sample_settings empty_cache); [apply sample_settings_ok|vm_compute; reflexivity|].
  repeat (apply Forall_cons; split; [exact I|]). constructor.
Defined.

Lemma warm_cache_wf : wf_cache warm_cache.
Proof.
  unfold warm_cache. cbn [foldl]. do 2 (apply wf_cache_run_op; [|exact I]).
  apply (wf_new sample_settings); [apply sample_settings_ok|vm_compute; reflexivity].
Qed.

Lemma warm_cache_stores n : (n <= 10)%nat -> stores warm_cache (sample_response n).
Proof.
  intros. split_and!; [vm_compute; reflexivity|vm_compute; discriminate|vm_compute; discriminate|].
  unfold len. cbn [body sample_response]. rewrite length_replicate.
  replace (max_bytes (settings warm_cache)) with 10 by (vm_compute; reflexivity). lia.
Qed.

Lemma get_after_put_witness :
  snd (get_at (fst (put_at warm_cache (lit "c") (sample_response 5) (f64_of_Z 3))) (lit "c") (f64_of_Z 4)) =
  Ok (Some (sample_response 5)).
Proof.
  apply get_after_put; [apply warm_cache_wf|apply warm_cache_stores; lia|vm_compute; reflexivity..].
Defined.

Lemma put_evicts_lru_minimally_witness :
  exists dropped kept, ix_remove (entries warm_cache) (lit "c") = dropped ++ kept /\
    entries (fst (put_at warm_cache (lit "c") (sample_response 5) (f64_of_Z 3))) =
      kept ++ [(lit "c", {| response := sample_response 5; stored_at := f64_of_Z 3 |})].
Proof.
  destruct (put_evicts_lru_minimally warm_cache (lit "c") (sample_response 5) (f64_of_Z 3))
    as (dropped & kept & H1 & H2 & _); [apply warm_cache_wf|apply warm_cache_stores; lia|vm_compute; reflexivity|].
  by exists dropped, kept.
Defined.

Lemma get_at_by_freshness_witness :
  snd (get_at warm_cache (lit "a") (f64_of_Z 302)) = Ok None.
Proof.
  pose proof (get_at_by_freshness warm_cache (lit "a") (f64_of_Z 302) warm_cache_wf eq_refl eq_refl) as H.
  destruct (get_at warm_cache (lit "a") (f64_of_Z 302)) as [c' r].
  replace (lookup_result warm_cache (lit "a") (f64_of_Z 302)) with (@None StoredResponse) in H by (vm_compute; reflexivity).
  by destruct H as [-> _].
Defined.
