(* ===== verification/Json.v ===== *)
(** * JSON values (interface to the [serde_json] crate)

    [Value] has the documented constructors of [serde_json::Value], built with
    insertion-ordered objects.  Numbers, the serializer and the parser belong to
    the crate: they are the fields of the classes [JsonNumber] and [JsonText],
    and what the code relies on of them are the laws of [JsonTextLaws]. *)
From S2P Require Export Float64 IndexMap.

Inductive Value (number : Type) :=
| JNull
| JBool (b : bool)
| JNumber (n : number)
| JString (s : str)
| JArray (values : list (Value number))
| JObject (members : list (str * Value number)).
Arguments JNull {number}.
Arguments JBool {number} b.
Arguments JNumber {number} n.
Arguments JString {number} s.
Arguments JArray {number} values.
Arguments JObject {number} members.

Class JsonNumber (number : Type) := {
  number_as_f64 : number -> option f64;
  number_as_i64 : number -> option Z;
  number_as_u64 : number -> option Z;
}.

Section Value.
Context {number : Type}.
Implicit Types (v : Value number).

Definition as_object v : option (list (str * Value number)) :=
  match v with JObject members => Some members | _ => None end.
Definition as_array v : option (list (Value number)) :=
  match v with JArray values => Some values | _ => None end.
Definition as_str v : option str := match v with JString s => Some s | _ => None end.
Definition as_bool v : option bool := match v with JBool b => Some b | _ => None end.
Definition is_null v : bool := match v with JNull => true | _ => false end.
Definition is_string v : bool := match v with JString _ => true | _ => false end.

(** [map.get(name)] and [value.get(name)]. *)
Definition obj_get (members : list (str * Value number)) (name : str) : option (Value number) :=
  ix_get members name.
Definition value_get v (name : str) : option (Value number) := members ← as_object v; obj_get members name.

(** Induction over a value and everything inside it. *)
Lemma Value_nested_ind (P : Value number -> Prop) :
  P JNull -> (forall b, P (JBool b)) -> (forall n, P (JNumber n)) -> (forall s, P (JString s)) ->
  (forall values, Forall P values -> P (JArray values)) ->
  (forall members, Forall (fun kv => P (snd kv)) members -> P (JObject members)) ->
  forall v, P v.
Proof.
  intros Hn Hb Hnum Hs Ha Ho. fix IH 1. intros [|b|n|s|values|members].
  - exact Hn.
  - apply Hb.
  - apply Hnum.
  - apply Hs.
  - apply Ha. induction values as [|v values IHv]; constructor; [apply IH|exact IHv].
  - apply Ho. induction members as [|[k v] members IHm]; constructor; [apply IH|exact IHm].
Qed.
End Value.

(** ** Text form *)
Class JsonText (number : Type) := {
  to_vec : Value number -> result (list Z) str;
  from_slice : list Z -> result (Value number) str;
}.

Class JsonTextLaws (number : Type) `{JsonText number} := {
  from_slice_to_vec v bytes : to_vec v = Ok bytes -> from_slice bytes = Ok v;
}.

(** ** An instance for closed examples: numbers are integers, a value is encoded
    as a tree. *)
Definition encode_tag (s : str) : gen_tree (Z + str) := GenLeaf (inr s).

Fixpoint value_tree (v : Value Z) : gen_tree (Z + str) :=
  match v with
  | JNull => GenNode 0 []
  | JBool b => GenNode 1 [GenLeaf (inl (if b then 1 else 0))]
  | JNumber n => GenNode 2 [GenLeaf (inl n)]
  | JString s => GenNode 3 [GenLeaf (inr s)]
  | JArray values => GenNode 4 (map value_tree values)
  | JObject members => GenNode 5 (map (fun '(k, v) => GenNode 6 [encode_tag k; value_tree v]) members)
  end.

Fixpoint tree_value (t : gen_tree (Z + str)) : Value Z :=
  match t with
  | GenNode 1 [GenLeaf (inl b)] => JBool (b =? 1)
  | GenNode 2 [GenLeaf (inl n)] => JNumber n
  | GenNode 3 [GenLeaf (inr s)] => JString s
  | GenNode 4 trees => JArray (map tree_value trees)
  | GenNode 5 trees =>
      JObject (map (fun t => match t with
                            | GenNode 6 [GenLeaf (inr k); v] => (k, tree_value v)
                            | _ => ([], JNull)
                            end) trees)
  | _ => JNull
  end.

Lemma tree_value_tree v : tree_value (value_tree v) = v.
Proof.
  induction v as [|b|n|s|values IH|members IH] using Value_nested_ind; simpl; try done.
  - by destruct b.
  - f_equal. induction IH as [|v values Hv _ IH]; simpl; [done|]. by rewrite Hv, IH.
  - f_equal. induction IH as [|[k v] members Hv _ IH]; simpl; [done|]. simpl in Hv. by rewrite Hv, IH.
Qed.

#[export] Instance integer_number : JsonNumber Z := {
  number_as_f64 n := Some (f64_of_Z n);
  number_as_i64 n := Some n;
  number_as_u64 n := if 0 <=? n then Some n else None;
}.

#[export] Instance tree_text : JsonText Z := {
  to_vec v := Ok [Zpos (encode (value_tree v))];
  from_slice bytes :=
    match bytes with
    | [Zpos p] => match decode p with Some t => Ok (tree_value t) | None => Err [] end
    | _ => Err []
    end;
}.

#[export] Instance tree_text_laws : JsonTextLaws Z.
Proof. constructor. intros v bytes [= <-]. cbn [from_slice tree_text]. by rewrite decode_encode, tree_value_tree. Qed.

(** ** Building numbers: what [serde_json::to_value] does with integers and
    finite floats *)
Class JsonBuild (number : Type) := {
  number_of_u64 : Z -> number;
  number_of_f64 : f64 -> number;
}.

Class JsonBuildLaws (number : Type) `{JsonNumber number, JsonBuild number} := {
  as_u64_of_u64 n : is_u64 n -> number_as_u64 (number_of_u64 n) = Some n;
  as_f64_of_f64 x : f64_is_finite x = true -> number_as_f64 (number_of_f64 x) = Some x;
  as_u64_range (n : number) v : number_as_u64 n = Some v -> is_u64 v;
}.

(** Integers and floats side by side, for closed examples. *)
Inductive plain_number := PlainInt (n : Z) | PlainFloat (x : f64).

#[export] Instance plain_json_number : JsonNumber plain_number := {
  number_as_f64 n := match n with PlainInt n => Some (f64_of_Z n) | PlainFloat x => Some x end;
  number_as_i64 n :=
    match n with PlainInt n => if (-9223372036854775808 <=? n) && (n <=? 9223372036854775807) then Some n else None
               | PlainFloat _ => None end;
  number_as_u64 n :=
    match n with PlainInt n => if (0 <=? n) && (n <=? u64_max) then Some n else None | PlainFloat _ => None end;
}.

#[export] Instance plain_json_build : JsonBuild plain_number := {
  number_of_u64 := PlainInt;
  number_of_f64 := PlainFloat;
}.

#[export] Instance plain_json_build_laws : JsonBuildLaws plain_number.
Proof.
  constructor; [|done|].
  - intros n [??]. simpl. by replace ((0 <=? n) && (n <=? u64_max)) with true by lia.
  - intros [n|x] v; simpl; [|done]. case_match; [|done]. intros [= <-]. unfold is_u64. zify_bools. lia.
Qed.

Section Members.
Context {number : Type} `{JsonNumber number}.

(** [value.and_then(Value::as_u64)] and the like, for numbers. *)
Definition as_f64 (v : Value number) : option f64 :=
  match v with JNumber n => number_as_f64 n | _ => None end.
Definition as_u64 (v : Value number) : option Z :=
  match v with JNumber n => number_as_u64 n | _ => None end.
Definition as_i64 (v : Value number) : option Z :=
  match v with JNumber n => number_as_i64 n | _ => None end.
End Members.
