(* ===== verification/CacheKey.v ===== *)
(** * Cache keys and cacheability (crate [wayfinder-gateway], [src/cache.rs])

    The canonical request projection and its digest, and the rules for which
    requests and responses may be replayed.  SHA-256 belongs to the [sha2]
    crate and is a parameter. *)
From S2P Require Export BTree Json Cache.

Definition CACHE_KEY_SCHEMA_VERSION : str := lit "v2".

Inductive KeyError := InvalidBody | Json (reason : str).

Section Keys.
Context {number : Type} `{JsonNumber number, JsonText number}.
Context (sha256 : list Z -> list Z).
Implicit Types (v body : Value number).

(** Objects are rebuilt in key order, at every depth. *)
Fixpoint canonical_json v : Value number :=
  match v with
  | JArray values => JArray (map canonical_json values)
  | JObject members => JObject (bt_of_list (map (fun '(k, v) => (k, canonical_json v)) members))
  | scalar => scalar
  end.

(** The members that identify the request: everything but [model] and [stream]. *)
Definition projected (members : list (str * Value number)) : list (str * Value number) :=
  List.filter (fun '(name, _) => negb (str_eqb name (lit "model") || str_eqb name (lit "stream"))) members.

Definition hex_digit (n : Z) : Z := if n <? 10 then 48 + n else 87 + n.

Definition hex_encode (digest : list Z) : str :=
  digest ≫= fun byte => [hex_digit (Z.shiftr byte 4); hex_digit (Z.land byte 15)].

Definition envelope (version partition route served_model : str) (members : list (str * Value number))
    : Value number :=
  JObject [(lit "version", JString version); (lit "partition", JString partition);
          (lit "route", JString route); (lit "model", JString served_model);
          (lit "body", JObject (projected members))].

Definition cache_key_with_version (version partition route served_model : str) (body : Value number)
    : result str KeyError :=
  let? members := ok_or (as_object body) InvalidBody in
  let? serialized :=
    map_err Json (to_vec (canonical_json (envelope version partition route served_model members))) in
  Ok (hex_encode (sha256 serialized)).

Definition cache_key (partition route served_model : str) (body : Value number) : result str KeyError :=
  cache_key_with_version CACHE_KEY_SCHEMA_VERSION partition route served_model body.

(** ** Cacheability *)
Definition opt_eq (o : option f64) (expected : f64) : bool :=
  match o with Some x => f64_eq x expected | None => false end.

Definition python_truthy v : bool :=
  match v with
  | JNull => false
  | JBool b => b
  | JNumber n => negb (opt_eq (number_as_f64 n) f64_zero)
  | JString s => match s with [] => false | _ => true end
  | JArray values => match values with [] => false | _ => true end
  | JObject members => match members with [] => false | _ => true end
  end.

Definition python_numeric_equal v (expected : f64) : bool :=
  match v with
  | JBool b => f64_eq (f64_of_Z (if b then 1 else 0)) expected
  | JNumber n => opt_eq (number_as_f64 n) expected
  | _ => false
  end.

(** [body.get(name).is_some_and(f)]. *)
Definition member_is (members : list (str * Value number)) (name : string) (f : Value number -> bool) : bool :=
  match obj_get members (lit name) with Some v => f v | None => false end.

Definition other_than (expected : f64) v : bool := negb (is_null v) && negb (python_numeric_equal v expected).

Definition is_cacheable body : bool :=
  match as_object body with
  | None => false
  | Some body =>
      if member_is body "stream" (fun v => match v with JBool true => true | _ => false end) then false
      else if member_is body "temperature" (other_than f64_zero) then false
      else if member_is body "top_p" (other_than f64_one) then false
      else if member_is body "n" (other_than f64_one) then false
      else if member_is body "seed" (fun v => negb (is_null v)) then false
      else if existsb (fun name => member_is body name python_truthy) ["tools"; "tool_choice"; "logit_bias"]%string
      then false
      else
        match obj_get body (lit "messages") ≫= as_array with
        | None | Some [] => false
        | Some messages =>
            forallb (fun message =>
              match as_object message with
              | Some m => member_is m "content" is_string
              | None => false
              end) messages
        end
  end.

(** [content_type.contains("json")]. *)
Fixpoint str_contains (s needle : str) : bool :=
  let here := bool_decide (take (length needle) s = needle) in
  match s with [] => here | _ :: rest => here || str_contains rest needle end.

Definition is_storable (status : Z) (content_type : str) (response : Value number) : bool :=
  if negb (status =? 200) || negb (str_contains content_type (lit "json")) then false
  else
    match as_object response with
    | None => false
    | Some response =>
        if member_is response "error" (fun v => negb (is_null v)) then false
        else
          match (choices ← obj_get response (lit "choices"); list ← as_array choices; first ← head list; as_object first) with
          | None => false
          | Some choice =>
              match (message ← obj_get choice (lit "message"); as_object message) with
              | None => false
              | Some message =>
                  if member_is message "tool_calls" python_truthy then false
                  else
                    match (content ← obj_get message (lit "content"); as_str content) with
                    | Some content => match content with [] => false | _ => true end
                    | None => false
                    end
              end
          end
    end.

(** ** Specifications *)

(** Two values that differ only in the order of object members. *)
Inductive json_perm : Value number -> Value number -> Prop :=
| jp_refl v : json_perm v v
| jp_trans v w x : json_perm v w -> json_perm w x -> json_perm v x
| jp_element a v w b : json_perm v w -> json_perm (JArray (a ++ v :: b)) (JArray (a ++ w :: b))
| jp_member a k v w b :
    json_perm v w -> json_perm (JObject (a ++ (k, v) :: b)) (JObject (a ++ (k, w) :: b))
| jp_order l l' : l ≡ₚ l' -> NoDup (map fst l) -> json_perm (JObject l) (JObject l').

Lemma canonical_json_perm v w : json_perm v w -> canonical_json v = canonical_json w.
Proof.
  induction 1 as [v|v w x _ IH1 _ IH2|a v w b _ IH|a k v w b _ IH|l l' Hp Hd]; cbn [canonical_json].
  - done.
  - congruence.
  - by rewrite !map_app; simpl; rewrite IH.
  - by rewrite !map_app; simpl; rewrite IH.
  - f_equal. apply bt_of_list_perm; [by rewrite Hp|].
    rewrite map_map. replace (map _ l) with (map fst l); [done|]. apply map_ext. by intros [k v].
Qed.

Lemma projected_app a b : projected (a ++ b) = projected a ++ projected b.
Proof. apply List.filter_app. Qed.

(** Reordering a body reorders its projection. *)
Lemma projected_perm v w :
  json_perm v w -> forall l, v = JObject l -> exists l', w = JObject l' /\
    json_perm (JObject (projected l)) (JObject (projected l')).
Proof.
  induction 1 as [v|v w x H1 IH1 H2 IH2|a v w b Hvw IH|a k v w b Hvw IH|l l' Hp Hd]; intros m Hm.
  - exists m. split; [done|constructor].
  - destruct (IH1 m Hm) as (m1 & Hm1 & Hp1). destruct (IH2 m1 Hm1) as (m2 & Hm2 & Hp2).
    exists m2. split; [done|by eapply jp_trans].
  - done.
  - injection Hm as <-. exists (a ++ (k, w) :: b). split; [done|]. rewrite !projected_app. unfold projected at 2 4.
    simpl. destruct (negb _); [by apply jp_member|constructor].
  - injection Hm as ->. exists l'. split; [done|]. apply jp_order.
    + clear Hd. unfold projected. induction Hp as [|[k v] l l' _ IH|[k1 v1] [k2 v2] l|l1 l2 l3 _ IH1 _ IH2]; simpl.
      * done.
      * destruct (negb _); by rewrite IH.
      * repeat destruct (negb _); done || constructor.
      * by rewrite IH1.
    + eapply sublist_NoDup; [exact Hd|]. apply fmap_sublist, list_filter_sublist.
Qed.

(** Setting [model] or [stream], in front or as it stands, changes nothing. *)
Lemma projected_ignores a name v b :
  name = lit "model" \/ name = lit "stream" ->
  projected (a ++ (name, v) :: b) = projected (a ++ b).
Proof.
  intros Hn. rewrite !projected_app. f_equal. unfold projected. simpl.
  destruct Hn as [-> | ->]; reflexivity.
Qed.

Lemma canonical_envelope version partition route served_model members :
  canonical_json (envelope version partition route served_model members) =
  JObject [(lit "body", canonical_json (JObject (projected members))); (lit "model", JString served_model);
          (lit "partition", JString partition); (lit "route", JString route); (lit "version", JString version)].
Proof. reflexivity. Qed.

(** ** The hexadecimal rendering *)
Lemma hex_digit_inj a b : 0 <= a < 16 -> 0 <= b < 16 -> hex_digit a = hex_digit b -> a = b.
Proof. unfold hex_digit. intros. repeat case_match; lia. Qed.

Lemma byte_nibbles byte : 0 <= byte < 256 ->
  0 <= Z.shiftr byte 4 < 16 /\ 0 <= Z.land byte 15 < 16 /\ byte = 16 * Z.shiftr byte 4 + Z.land byte 15.
Proof.
  intros. rewrite Z.shiftr_div_pow2 by lia. change 15 with (Z.ones 4). rewrite Z.land_ones by lia.
  change (2 ^ 4) with 16. pose proof (Z.div_mod byte 16 ltac:(lia)). pose proof (Z.mod_pos_bound byte 16 ltac:(lia)).
  lia.
Qed.

Lemma hex_encode_inj a b :
  Forall (fun x => 0 <= x < 256) a -> Forall (fun x => 0 <= x < 256) b -> hex_encode a = hex_encode b -> a = b.
Proof.
  intros Ha. revert b. induction Ha as [|x a Hx Ha IH]; intros [|y b] Hb Heq; try done.
  apply Forall_cons in Hb as [Hy Hb]. unfold hex_encode in Heq. cbn [mbind list_bind app] in Heq.
  injection Heq as H1 H2 Heq.
  destruct (byte_nibbles x Hx) as (? & ? & ->), (byte_nibbles y Hy) as (? & ? & ->).
  apply hex_digit_inj in H1, H2; try done. rewrite H1, H2. f_equal. by apply IH.
Qed.

Lemma hex_encode_length a : length (hex_encode a) = (2 * length a)%nat.
Proof.
  induction a as [|x a IH]; [done|].
  change (hex_encode (x :: a)) with ([hex_digit (Z.shiftr x 4); hex_digit (Z.land x 15)] ++ hex_encode a).
  rewrite length_app, IH. simpl. lia.
Qed.

(** ** Properties *)

(** Equal requests share a key: bodies that differ only in the order of
    object members (at any depth) and in their [model] and [stream] members
    get the same cache key, under every partition, route and model. *)
Theorem cache_key_canonical version partition route served_model l l' :
  json_perm (JObject (projected l)) (JObject (projected l')) ->
  cache_key_with_version version partition route served_model (JObject l) =
  cache_key_with_version version partition route served_model (JObject l').
Proof.
  intros Hp%canonical_json_perm. unfold cache_key_with_version. cbn [as_object ok_or result_bind].
  by rewrite !canonical_envelope, Hp.
Qed.

(** Keys separate tenants: two requests can share a key only if the
    schema version, the partition, the route, the served model and the
    canonical body all agree, unless SHA-256 itself collides on the two
    serialized envelopes. *)
Theorem cache_key_separates `{!JsonTextLaws number} ver1 p1 r1 m1 l1 ver2 p2 r2 m2 l2 key :
  (forall input, Forall (fun x => 0 <= x < 256) (sha256 input)) ->
  cache_key_with_version ver1 p1 r1 m1 (JObject l1) = Ok key ->
  cache_key_with_version ver2 p2 r2 m2 (JObject l2) = Ok key ->
  (ver1 = ver2 /\ p1 = p2 /\ r1 = r2 /\ m1 = m2 /\
   canonical_json (JObject (projected l1)) = canonical_json (JObject (projected l2))) \/
  exists a b, a <> b /\ sha256 a = sha256 b.
Proof.
  intros Hsha H1 H2. unfold cache_key_with_version in H1, H2. cbn [as_object ok_or result_bind] in H1, H2.
  rewrite canonical_envelope in H1, H2.
  apply result_bind_ok in H1 as (s1 & Hs1 & [= <-]). apply result_bind_ok in H2 as (s2 & Hs2 & Hk).
  injection Hk as Hk. apply hex_encode_inj in Hk; [|apply Hsha..].
  destruct (decide (s1 = s2)) as [->|Hne]; [left|right; eauto].
  match type of Hs1 with map_err _ (to_vec ?v) = _ => destruct (to_vec v) as [b1|] eqn:Hb1; [|done] end.
  match type of Hs2 with map_err _ (to_vec ?v) = _ => destruct (to_vec v) as [b2|] eqn:Hb2; [|done] end.
  injection Hs1 as ->. injection Hs2 as ->.
  apply from_slice_to_vec in Hb1, Hb2. rewrite Hb1 in Hb2. injection Hb2 as E1 E2 E3 E4 E5.
  split_and!; [done..|]. cbn [canonical_json]. by rewrite E1.
Qed.
End Keys.

(** ** Closed examples *)
Definition toy_sha (input : list Z) : list Z :=
  map (fun i => (foldr Z.add 0 input / 256 ^ Z.of_nat i) mod 256) (seq 0 32).

Definition sample_body : list (str * Value Z) :=
  [(lit "model", JString (lit "auto"));
   (lit "messages", JArray [JObject [(lit "role", JString (lit "user")); (lit "content", JString (lit "hi"))]]);
   (lit "temperature", JNumber 0)].

Definition shuffled_body : list (str * Value Z) :=
  [(lit "temperature", JNumber 0); (lit "stream", JBool false);
   (lit "messages", JArray [JObject [(lit "content", JString (lit "hi")); (lit "role", JString (lit "user"))]])].

Example sample_body_cacheable : is_cacheable (JObject sample_body) = true.
Proof. vm_compute. reflexivity. Qed.

Lemma cache_key_canonical_witness :
  cache_key toy_sha (lit "team") (lit "auto") (lit "gpt") (JObject sample_body) =
  cache_key toy_sha (lit "team") (lit "auto") (lit "gpt") (JObject shuffled_body).
Proof.
  apply cache_key_canonical.
  eapply jp_trans; [|apply jp_order; [apply perm_swap|]].
  - apply (jp_member [] (lit "messages") _ _ [(lit "temperature", JNumber 0)]).
    apply (jp_element [] _ _ []). apply jp_order; [apply perm_swap|].
    apply (bool_decide_unpack _). vm_compute. exact I.
  - apply (bool_decide_unpack _). vm_compute. exact I.
Defined.

Lemma toy_sha_bytes input : Forall (fun x => 0 <= x < 256) (toy_sha input).
Proof. unfold toy_sha. apply Forall_fmap, Forall_forall. intros i _. apply Z.mod_pos_bound. lia. Qed.

Lemma cache_key_separates_witness :
  lit "team" = lit "team" \/ exists a b, a <> b /\ toy_sha a = toy_sha b.
Proof.
  destruct (cache_key_separates toy_sha (lit "v2") (lit "team") (lit "auto") (lit "gpt") sample_body
      (lit "v2") (lit "team") (lit "auto") (lit "gpt") shuffled_body
      (match cache_key toy_sha (lit "team") (lit "auto") (lit "gpt") (JObject sample_body) with
       | Ok k => k | Err _ => [] end)) as [(_ & H & _)|Hc].
  - apply toy_sha_bytes.
  - vm_compute. reflexivity.
  - vm_compute. reflexivity.
  - by left.
  - by right.
Defined.
