(* ===== verification/DecisionPolicy.v ===== *)
(** * Per-request routing policy (crate [wayfinder-gateway], [src/decision_policy.rs])

    What a client may say about its own request: the text that is scored
    ([extract_prompt]), an explicit model or tier ([resolve_pin], the slash
    directive in the last user message), the override headers, the tuning
    member of the body, and the sticky tier of a conversation. *)
From S2P Require Export Numbers Json GatewayConfig.

(** ** Constants *)
Definition THRESHOLD_HEADER : str := lit "x-wayfinder-threshold".
Definition ROUTE_ON_HEADER : str := lit "x-wayfinder-route-on".
Definition STICKY_HEADER : str := lit "x-wayfinder-sticky".
Definition STICKY_COOLDOWN_HEADER : str := lit "x-wayfinder-sticky-cooldown".
Definition TUNING_FIELD : str := lit "wayfinder_tuning".
Definition MAX_LEXICON_TERMS : Z := 2000.
Definition AUTO_MODEL : str := lit "auto".
Definition PREFER_LOW : str := lit "prefer-local".
Definition PREFER_HIGH : str := lit "prefer-hosted".
Definition PREFER_HIGH_ALIAS : str := lit "prefer-cloud".

(** ** Transcript scopes and errors *)
Inductive RouteOn := Turn | LastUser | User | All.

#[export] Instance RouteOn_eq_dec : EqDecision RouteOn.
Proof. solve_decision. Defined.

Definition RouteOn_as_str (r : RouteOn) : str :=
  match r with Turn => lit "turn" | LastUser => lit "last_user" | User => lit "user" | All => lit "all" end.

Definition RouteOn_parse (value : str) : option RouteOn :=
  if str_eqb value (lit "turn") then Some Turn
  else if str_eqb value (lit "last_user") then Some LastUser
  else if str_eqb value (lit "user") then Some User
  else if str_eqb value (lit "all") then Some All
  else None.

Inductive PolicyError :=
| BadHeader (header : str) (m : message)
| ThresholdRequiresBinary
| MissingTiers
| Core (e : CoreError)
| BadTuning (m : message).

Section Policy.
Context {number : Type} `{JsonNumber number}.
(** [str::to_lowercase] of the standard library: the Unicode tables are a
    parameter. *)
Context (to_lowercase : str -> str).
(** The built-in patterns of the feature extractor, or their error. *)
Context (compiled : result Patterns str).
Implicit Types (messages message : Value number) (members : list (str * Value number)).

Record SlashResolution := {
  sr_pin : option str;
  sr_messages : Value number;
}.

(** ** The text that is scored *)

(** [parts.join("\n")]. *)
Fixpoint join_lines (parts : list str) : str :=
  match parts with
  | [] => []
  | [part] => part
  | part :: parts => part ++ 10 :: join_lines parts
  end.

Definition message_text members : option str :=
  match obj_get members (lit "content") with
  | Some (JString value) => Some value
  | Some (JArray parts) =>
      match omap (fun part => value_get part (lit "text") ≫= as_str) parts with
      | [] => None
      | text => Some (join_lines text)
      end
  | _ => None
  end.

(** [message.get("role").and_then(Value::as_str) == Some(role)], on a member
    map and on a value. *)
Definition members_role_is (role : str) members : bool :=
  bool_decide (obj_get members (lit "role") ≫= as_str = Some role).
Definition value_role_is (role : str) message : bool :=
  bool_decide (value_get message (lit "role") ≫= as_str = Some role).

Definition last_user (typed : list (list (str * Value number))) : list (list (str * Value number)) :=
  option_list (List.find (members_role_is (lit "user")) (rev typed)).

Definition chosen_messages (typed : list (list (str * Value number))) (route_on : RouteOn)
    : list (list (str * Value number)) :=
  match route_on with
  | All => typed
  | User => List.filter (members_role_is (lit "user")) typed
  | LastUser => last_user typed
  | Turn => List.filter (members_role_is (lit "system")) typed ++ last_user typed
  end.

Definition extract_prompt messages (route_on : RouteOn) : str :=
  match as_array messages with
  | None => []
  | Some values =>
      let typed := omap as_object values in
      let chosen := chosen_messages typed route_on in
      let chosen :=
        match chosen, last typed with
        | [], Some message => if bool_decide (route_on = All) then [] else [message]
        | _, _ => chosen
        end in
      join_lines (omap message_text chosen)
  end.

(** ** Pins *)
Definition first_model (routing : RoutingConfig) : option str := tier_model <$> head (cfg_tiers routing).
Definition last_model (routing : RoutingConfig) : option str := tier_model <$> last (cfg_tiers routing).

(** [routing.classifier.is_none() && !routing.tiers.is_empty()]. *)
Definition tiered (routing : RoutingConfig) : bool :=
  match cfg_classifier routing, cfg_tiers routing with
  | None, _ :: _ => true
  | _, _ => false
  end.

Definition resolve_pin (model_field : Value number) (routing : RoutingConfig) (gateway : GatewayConfig) : option str :=
  field ← as_str model_field;
  let name := trim field in
  if str_eqb name [] || str_eqb name AUTO_MODEL then None
  else if tiered routing && str_eqb name PREFER_LOW then first_model routing
  else if tiered routing && (str_eqb name PREFER_HIGH || str_eqb name PREFER_HIGH_ALIAS) then last_model routing
  else match ix_get (gc_models gateway) name with Some _ => Some name | None => None end.

(** The last message of the user whose content is text, with what precedes and
    follows it: [iter().enumerate().rev().find(..)]. *)
Definition is_user_text message : bool :=
  value_role_is (lit "user") message &&
  match value_get message (lit "content") with Some content => is_string content | None => false end.

Fixpoint last_index (p : Value number -> bool) (values : list (Value number)) : option (nat * Value number) :=
  match values with
  | [] => None
  | v :: values =>
      match last_index p values with
      | Some (index, w) => Some (S index, w)
      | None => if p v then Some (0%nat, v) else None
      end
  end.

Definition slash_pin (routing : RoutingConfig) (configured_names : list str) (token : str) : option (option str) :=
  if str_eqb token AUTO_MODEL then Some None
  else if tiered routing && str_eqb token PREFER_LOW then Some (first_model routing)
  else if tiered routing && (str_eqb token PREFER_HIGH || str_eqb token PREFER_HIGH_ALIAS)
       then Some (last_model routing)
  else if existsb (str_eqb token) configured_names then Some (Some token)
  else None.

Definition resolve_slash_directive_for_names messages (routing : RoutingConfig) (configured_names : list str)
    : option SlashResolution :=
  values ← as_array messages;
  '(index, message) ← last_index is_user_text values;
  content ← value_get message (lit "content") ≫= as_str;
  match trim_start content with
  | c :: after_slash =>
      if negb (c =? 47) then None
      else
        let token := take_while (fun c => negb (char_is_whitespace c)) after_slash in
        if str_eqb token [] then None
        else
          let remainder := trim_start (drop_while (fun c => negb (char_is_whitespace c)) after_slash) in
          pin ← slash_pin routing configured_names token;
          cleaned_message ← as_object message;
          Some {| sr_pin := pin;
                  sr_messages :=
                    JArray (<[index := JObject (ix_insert cleaned_message (lit "content") (JString remainder))]>
                              values) |}
  | [] => None
  end.

Definition resolve_slash_directive messages (routing : RoutingConfig) (gateway : GatewayConfig)
    : option SlashResolution :=
  resolve_slash_directive_for_names messages routing (ix_keys (gc_models gateway)).

(** ** Override headers *)
Definition parse_threshold_header (value : option str) : result (option f64) PolicyError :=
  match value with
  | None => Ok None
  | Some value =>
      let? threshold :=
        ok_or (parse_f64 (trim value))
          (BadHeader THRESHOLD_HEADER (Msg "must be a number in 0.0-1.0, got {value:?}" [ArgDebug value])) in
      if negb (f64_is_finite threshold) || negb (f64_in_range f64_zero f64_one threshold)
      then Err (BadHeader THRESHOLD_HEADER (Msg "must be in 0.0-1.0, got {threshold}" [ArgFloat threshold]))
      else Ok (Some threshold)
  end.

Definition threshold_tiers (routing : RoutingConfig) (threshold : f64) : result (list Tier) PolicyError :=
  match cfg_classifier routing, cfg_tiers routing with
  | None, [low; high] => Ok [Tier_new f64_zero (tier_model low); Tier_new threshold (tier_model high)]
  | _, _ => Err ThresholdRequiresBinary
  end.

(** [value.filter(|value| !value.trim().is_empty())]. *)
Definition nonblank (value : option str) : option str :=
  value ← value; if str_eqb (trim value) [] then None else Some value.

Definition parse_route_on_header (value : option str) : result (option RouteOn) PolicyError :=
  match nonblank value with
  | None => Ok None
  | Some value =>
      result_map Some
        (ok_or (RouteOn_parse (to_lowercase (trim value)))
           (BadHeader ROUTE_ON_HEADER
              (Msg "must be one of turn, last_user, user, all, got {value:?}" [ArgDebug value])))
  end.

Definition resolve_sticky (value : option str) (default : bool) : result bool PolicyError :=
  match nonblank value with
  | None => Ok default
  | Some value =>
      let lowered := to_lowercase (trim value) in
      if existsb (str_eqb lowered) (map lit ["1"; "true"; "yes"; "on"]%string) then Ok true
      else if existsb (str_eqb lowered) (map lit ["0"; "false"; "no"; "off"]%string) then Ok false
      else Err (BadHeader STICKY_HEADER (Msg "must be true or false, got {value:?}" [ArgDebug value]))
  end.

Definition resolve_sticky_cooldown (value : option str) (default : Z) : result Z PolicyError :=
  match nonblank value with
  | None => Ok default
  | Some value =>
      ok_or (parse_u64 (trim value))
        (BadHeader STICKY_COOLDOWN_HEADER (Msg "must be a non-negative integer, got {value:?}" [ArgDebug value]))
  end.

(** ** Scoring overrides *)
Definition bad_weight (name : str) : PolicyError :=
  BadTuning (Msg "{TUNING_FIELD}.weights.{name} must be a non-negative number" [ArgStr TUNING_FIELD; ArgStr name]).

Definition bad_terms (key : str) : PolicyError :=
  BadTuning (Msg "{TUNING_FIELD}.lexicon.{key} must be a list of strings" [ArgStr TUNING_FIELD; ArgStr key]).

(** [name.replace('\\', "\\\\").replace('\'', "\\'")]. *)
Definition escape_name (name : str) : str :=
  (name ≫= fun c => if c =? 92 then [92; 92] else [c]) ≫= fun c => if c =? 39 then [92; 39] else [c].

Fixpoint override_weights (weights : Weights) (raw_weights : list (str * Value number))
    : result Weights PolicyError :=
  match raw_weights with
  | [] => Ok weights
  | (name, value) :: raw_weights =>
      match Weights_get weights name with
      | None =>
          Err (BadTuning (Msg "{TUNING_FIELD}.weights: unknown feature '{}'"
                            [ArgStr TUNING_FIELD; ArgStr (escape_name name)]))
      | Some _ =>
          match as_f64 value with
          | None => Err (bad_weight name)
          | Some value =>
              if negb (f64_is_finite value) || f64_lt value f64_zero then Err (bad_weight name)
              else override_weights (fst (Weights_set weights name value)) raw_weights
          end
      end
  end.

Fixpoint clean_terms (key : str) (cleaned : btree unit) (terms : list (Value number))
    : result (btree unit) PolicyError :=
  match terms with
  | [] => Ok cleaned
  | term :: terms =>
      match as_str term with
      | None => Err (bad_terms key)
      | Some term =>
          let term := to_lowercase (trim term) in
          clean_terms key (if str_eqb term [] then cleaned else bt_insert cleaned term ()) terms
      end
  end.

Definition parse_tuning_terms (value : Value number) (key : str) : result (btree unit) PolicyError :=
  match as_array value with
  | None => Err (bad_terms key)
  | Some terms =>
      let? cleaned := clean_terms key [] terms in
      if MAX_LEXICON_TERMS <? len cleaned
      then Err (BadTuning (Msg "{TUNING_FIELD}.lexicon.{key} exceeds {MAX_LEXICON_TERMS} terms"
                             [ArgStr TUNING_FIELD; ArgStr key; ArgInt MAX_LEXICON_TERMS]))
      else Ok cleaned
  end.

(** A lexicon member replaces its terms when it is there. *)
Definition override_terms (raw_lexicon : list (str * Value number)) (key : str) (terms : btree unit)
    : result (btree unit) PolicyError :=
  match obj_get raw_lexicon key with
  | Some value => parse_tuning_terms value key
  | None => Ok terms
  end.

Definition must_be_object (member : string) : PolicyError :=
  BadTuning (Msg member [ArgStr TUNING_FIELD]).

Definition apply_scoring_overrides (routing : RoutingConfig) (override_value : option (Value number))
    : result RoutingConfig PolicyError :=
  match override_value with
  | None => Ok routing
  | Some override_value =>
      let? override_object := ok_or (as_object override_value) (must_be_object "{TUNING_FIELD} must be an object") in
      let? weights :=
        match obj_get override_object (lit "weights") with
        | None => Ok (cfg_weights routing)
        | Some raw_weights =>
            let? raw_weights :=
              ok_or (as_object raw_weights) (must_be_object "{TUNING_FIELD}.weights must be an object") in
            override_weights (cfg_weights routing) raw_weights
        end in
      let reasoning := bt_of_list (map (fun term => (term, ())) (reasoning_terms (cfg_lexicon routing))) in
      let constraints := bt_of_list (map (fun term => (term, ())) (constraint_terms (cfg_lexicon routing))) in
      let? '(reasoning, constraints) :=
        match obj_get override_object (lit "lexicon") with
        | None => Ok (reasoning, constraints)
        | Some raw_lexicon =>
            let? raw_lexicon :=
              ok_or (as_object raw_lexicon) (must_be_object "{TUNING_FIELD}.lexicon must be an object") in
            let? reasoning := override_terms raw_lexicon (lit "reasoning_terms") reasoning in
            let? constraints := override_terms raw_lexicon (lit "constraint_terms") constraints in
            Ok (reasoning, constraints)
        end in
      Ok {| cfg_weights := weights; cfg_tiers := cfg_tiers routing; cfg_classifier := cfg_classifier routing;
            cfg_lexicon := Lexicon_new (bt_keys reasoning) (bt_keys constraints) |}
  end.

(** ** Sticky routing *)
Definition tier_rank (model : str) (tiers : list Tier) : option nat :=
  position (str_eqb model) (map tier_model tiers).

(** The rank of the turn [text]: the score of [text] on the ladder [tiers]. *)
Definition turn_rank (routing : RoutingConfig) (tiers : list Tier) (text : str) : result nat PolicyError :=
  let? scored := map_err Core (score_complexity compiled text routing) in
  let? model := ok_or (recommend_tier (cs_score scored) tiers) MissingTiers in
  Ok (default 0%nat (tier_rank model tiers)).

Fixpoint turn_ranks (routing : RoutingConfig) (tiers : list Tier) (systems users : list (Value number))
    : result (list nat) PolicyError :=
  match users with
  | [] => Ok []
  | message :: users =>
      let text := extract_prompt (JArray (systems ++ [message])) Turn in
      let? rank := turn_rank routing tiers text in
      let? ranks := turn_ranks routing tiers systems users in
      Ok (rank :: ranks)
  end.

(** One turn of the latch: the latched rank and the calm turns since. *)
Definition latch_step (cooldown : Z) (state : nat * Z) (rank : nat) : nat * Z :=
  let '(latched, calm) := state in
  if (latched <=? rank)%nat then (rank, 0)
  else
    let calm := u64_sat_add calm 1 in
    if negb (cooldown =? 0) && (cooldown <=? calm) then (rank, 0) else (latched, calm).

Definition conversation_high_water messages (routing : RoutingConfig) (tiers : list Tier) (cooldown : Z)
    : result (option str) PolicyError :=
  match tiers with
  | [] => Err MissingTiers
  | _ =>
      match as_array messages with
      | None => Ok None
      | Some values =>
          let systems := List.filter (value_role_is (lit "system")) values in
          let? ranks := turn_ranks routing tiers systems (List.filter (value_role_is (lit "user")) values) in
          match ranks with
          | [] => Ok None
          | _ => Ok (tier_model <$> tiers !! (foldl (latch_step cooldown) (0%nat, 0) ranks).1)
          end
      end
  end.
End Policy.
Arguments SlashResolution : clear implicits.

(** ** The latch *)

(** The turns so far: [before] the current window, then the window: [hard]
    turns up to and including the last one of the latched rank, then calmer
    turns.  A window other than the first one starts at the [cooldown]-th
    calmer turn after the rank that was latched before. *)
Record latched_window (cooldown : Z) (ranks : list nat) (rank : nat) (calm : Z) : Prop := {
  lw_split : exists before hard calmer,
    ranks = before ++ hard ++ rank :: calmer /\
    Forall (fun r => (r <= rank)%nat) hard /\ Forall (fun r => (r < rank)%nat) calmer /\
    calm = len calmer /\ (cooldown <> 0 -> calm < cooldown) /\
    (before = [] \/
     exists earlier peak calms, before = earlier ++ peak :: calms /\ len calms = cooldown - 1 /\
       Forall (fun r => (r < peak)%nat) (calms ++ take 1 (hard ++ [rank])));
}.

Lemma latch_step_window cooldown ranks rank calm r :
  0 <= cooldown <= u64_max -> len ranks < u64_max -> latched_window cooldown ranks rank calm ->
  let state := latch_step cooldown (rank, calm) r in
  latched_window cooldown (ranks ++ [r]) state.1 state.2.
Proof.
  intros Hc Hlen [(before & hard & calmer & -> & Hhard & Hcalm & -> & Hlt & Hbefore)].
  rewrite !len_app, len_cons in Hlen.
  pose proof (len_nonneg before) as H1. pose proof (len_nonneg hard) as H2. pose proof (len_nonneg calmer) as H3.
  unfold latch_step. rewrite u64_sat_add_exact by lia.
  destruct (rank <=? r)%nat eqn:Hr; [|destruct (negb (cooldown =? 0) && (cooldown <=? len calmer + 1)) eqn:Hreset];
    cbn [fst snd]; constructor.
  - apply Nat.leb_le in Hr. exists before, (hard ++ rank :: calmer), [].
    split; [by rewrite <-!app_assoc|]. split_and!; try done.
    + rewrite Forall_app, Forall_cons. split_and!; [eapply Forall_impl; [done|]; simpl; lia|done|].
      eapply Forall_impl; [done|]; simpl; lia.
    + intros Hnz. lia.
    + destruct Hbefore as [?|(e & p & c & -> & Hlc & Hp)]; [by left|right]. exists e, p, c. split_and!; try done.
      by destruct hard.
  - apply Nat.leb_gt in Hr. apply andb_true_iff in Hreset as [Hnz Hge]. zify_bools.
    specialize (Hlt Hnz). exists (before ++ hard ++ rank :: calmer), [], [].
    split; [by rewrite <-!app_assoc|]. split_and!; try done.
    + intros _. lia.
    + right. exists (before ++ hard), rank, calmer. split; [by rewrite <-app_assoc|].
      split; [lia|]. rewrite Forall_app. split; [done|]. simpl. by repeat constructor.
  - apply Nat.leb_gt in Hr. apply andb_false_iff in Hreset.
    exists before, hard, (calmer ++ [r]). split; [by rewrite <-!app_assoc|]. split_and!; try done.
    + rewrite Forall_app. split; [done|by repeat constructor].
    + by rewrite len_app.
    + intros Hnz. destruct Hreset; zify_bools; lia.
Qed.

Lemma latch_window cooldown ranks :
  0 <= cooldown <= u64_max -> ranks <> [] -> len ranks <= u64_max ->
  let state := foldl (latch_step cooldown) (0%nat, 0) ranks in
  latched_window cooldown ranks state.1 state.2.
Proof.
  intros Hc. induction ranks as [|r ranks IH] using rev_ind; [done|]. intros _ Hlen.
  rewrite len_app, len_cons, len_nil in Hlen. rewrite foldl_snoc.
  destruct ranks as [|r0 ranks'] eqn:Hr.
  - change (latch_step cooldown (foldl (latch_step cooldown) (0%nat, 0) []) r) with (r, 0). cbn [fst snd app]. constructor. exists [], [], []. split_and!; try done; [intros ?; lia | by left].
  - rewrite <-Hr in *. destruct (foldl (latch_step cooldown) (0%nat, 0) ranks) as [rank calm].
    apply latch_step_window; [done|lia|]. apply IH; [by subst|lia].
Qed.

Section Properties.
Context {number : Type} `{JsonNumber number}.
Context (to_lowercase : str -> str).
Implicit Types (messages message : Value number) (members : list (str * Value number)).

(** The rank of one user turn on a configuration that scores: that of the tier
    [recommend_tier] picks for the turn's text. *)
Definition scored_rank (p : Patterns) (routing : RoutingConfig) (tiers : list Tier) (text : str) (rank : nat) : Prop :=
  exists scored model, score_complexity (Ok p) text routing = Ok scored /\
    recommend_tier (cs_score scored) tiers = Some model /\ tier_rank model tiers = Some rank.

Definition turn_text (values : list (Value number)) message : str :=
  extract_prompt (JArray (List.filter (value_role_is (lit "system")) values ++ [message])) Turn.

Lemma position_elem name l : name ∈ l -> exists rank, position (str_eqb name) l = Some rank /\ l !! rank = Some name.
Proof.
  induction l as [|x l IH]; [by intros ?%not_elem_of_nil|]. intros Hin. cbn [position].
  destruct (str_eqb name x) eqn:E; [apply str_eqb_eq in E as ->; by exists 0%nat|].
  apply str_eqb_neq in E. apply elem_of_cons in Hin as [?|Hin]; [done|].
  destruct (IH Hin) as (r & -> & Hr). by exists (S r).
Qed.

Lemma recommend_tier_ranked score tiers model :
  recommend_tier score tiers = Some model -> exists rank, tier_rank model tiers = Some rank /\ (rank < length tiers)%nat.
Proof.
  unfold recommend_tier, tier_rank. destruct tiers as [|t tiers]; [done|]. intros Heq.
  assert (model = recommend_loop score (tier_model t) (t :: tiers)) as -> by congruence.
  destruct (position_elem (recommend_loop score (tier_model t) (t :: tiers)) (map tier_model (t :: tiers))) as (r & -> & Hr).
  - destruct (recommend_loop_in score (tier_model t) (t :: tiers)) as [->|?]; [left|done].
  - exists r. split; [done|]. apply lookup_lt_Some in Hr. by rewrite length_map in Hr.
Qed.

Definition scorable (routing : RoutingConfig) : Prop :=
  match cfg_classifier routing with Some c => wf_classifier c | None => cfg_tiers routing <> [] end.

Lemma turn_ranks_total p routing tiers (systems users : list (Value number)) :
  scorable routing -> tiers <> [] ->
  exists ranks, turn_ranks (Ok p) routing tiers systems users = Ok ranks /\
    Forall2 (fun message rank => scored_rank p routing tiers (extract_prompt (JArray (systems ++ [message])) Turn) rank)
      users ranks /\
    Forall (fun rank => (rank < length tiers)%nat) ranks.
Proof.
  intros Hs Ht. induction users as [|message users (ranks & IH & Hall & Hb)]; [by exists []|].
  cbn [turn_ranks]. unfold turn_rank.
  set (text := extract_prompt _ Turn).
  assert (exists scored, score_complexity (Ok p) text routing = Ok scored) as [scored Hscored].
  { destruct (score_complexity (Ok p) text routing) as [scored|e] eqn:E; [by eexists|exfalso].
    revert Hs E. unfold scorable, score_complexity, extract_features_with_lexicon. cbn [patterns map_err result_bind].
    destruct (cfg_classifier routing) as [c|].
    - intros Hc. by destruct (predict_some c (extract_body p (strip_frontmatter text) (cfg_lexicon routing)) Hc) as (m & -> & _).
    - by destruct (cfg_tiers routing). }
  destruct (recommend_tier (cs_score scored) tiers) as [model|] eqn:Hm; [|by destruct tiers].
  destruct (recommend_tier_ranked _ _ _ Hm) as (rank & Hr & Hlt).
  rewrite Hscored. cbn [map_err result_bind ok_or]. rewrite Hm. cbn [ok_or result_bind].
  rewrite IH. cbn [result_bind]. rewrite Hr.
  eexists. split; [done|]. split; [constructor; [by exists scored, model|done]|by constructor].
Qed.

(** Sticky routing answers on every transcript of a scorable
    configuration, and its answer is latched: the tier is that of a user turn
    [rank] such that, within a window of turns reaching to the end of the
    transcript, no turn is harder, the turns after it are calmer, and fewer
    than [cooldown] of them have passed.  With no cooldown the window is the
    whole transcript, so a conversation is never downgraded; otherwise a window
    begins only once [cooldown] calmer turns in a row have followed the rank
    latched before. *)
Theorem high_water_latches p (values : list (Value number)) routing tiers cooldown :
  scorable routing -> tiers <> [] -> 0 <= cooldown <= u64_max ->
  len (List.filter (value_role_is (lit "user")) values) <= u64_max ->
  exists ranks,
    Forall2 (fun message rank => scored_rank p routing tiers (turn_text values message) rank)
      (List.filter (value_role_is (lit "user")) values) ranks /\
    match ranks with
    | [] => conversation_high_water (Ok p) (JArray values) routing tiers cooldown = Ok None
    | _ => exists rank calm tier,
        conversation_high_water (Ok p) (JArray values) routing tiers cooldown = Ok (Some (tier_model tier)) /\
        tiers !! rank = Some tier /\ latched_window cooldown ranks rank calm /\
        (cooldown = 0 -> Forall (fun r => (r <= rank)%nat) ranks)
    end.
Proof.
  intros Hs Ht Hc Hlen. set (systems := List.filter (value_role_is (lit "system")) values).
  destruct (turn_ranks_total p routing tiers systems (List.filter (value_role_is (lit "user")) values) Hs Ht)
    as (ranks & Hranks & Hall & Hb).
  exists ranks. split; [done|]. unfold conversation_high_water. cbn [as_array]. fold systems.
  rewrite Hranks. cbn [result_bind]. apply Forall2_length in Hall.
  destruct ranks as [|r0 ranks0] eqn:Hr; [by destruct tiers|]. rewrite <-Hr in *.
  pose proof (latch_window cooldown ranks Hc ltac:(by rewrite Hr) ltac:(unfold len in *; lia)) as Hw. cbn zeta in Hw.
  destruct (foldl (latch_step cooldown) (0%nat, 0) ranks) as [rank calm] eqn:Hf. cbn [fst snd] in *.
  destruct Hw as [Hw]. pose proof Hw as (before & hard & calmer & Heq & Hhard & Hcalm & _ & _ & Hbefore).
  assert (rank ∈ ranks) as Hin by (rewrite Heq; set_solver).
  assert (rank < length tiers)%nat as Hlt by (by apply (proj1 (Forall_forall _ _) Hb)).
  destruct (lookup_lt_is_Some_2 tiers rank Hlt) as [tier Htier]. exists rank, calm, tier.
  split_and!; [|done|by constructor|].
  - destruct tiers as [|t tiers']; [done|]. by rewrite Htier.
  - intros ->. destruct Hbefore as [->|(e & pk & c & _ & Hl & _)]; [|pose proof (len_nonneg c); lia].
    rewrite Heq. cbn [app]. rewrite Forall_app, Forall_cons. split; [done|]. split; [lia|].
    eapply Forall_impl; [done|]. simpl. lia.
Qed.

(** ** Slash directives *)
Lemma last_index_spec (q : Value number -> bool) values index v :
  last_index q values = Some (index, v) ->
  exists before after, values = before ++ v :: after /\ length before = index /\ q v = true /\
    Forall (fun w => q w = false) after.
Proof.
  revert index. induction values as [|w values IH]; intros index; cbn [last_index]; [done|].
  destruct (last_index q values) as [[i u]|] eqn:Hl.
  - intros [= <- <-]. destruct (IH i eq_refl) as (b & a & -> & <- & Hv & Ha). by exists (w :: b), a.
  - destruct (q w) eqn:Hw; [|done]. intros [= <- <-]. exists [], values. split_and!; try done.
    clear IH. induction values as [|u values IHv]; [done|]. cbn [last_index] in Hl.
    destruct (last_index q values) as [[??]|]; [done|]. destruct (q u) eqn:Hu; [done|]. constructor; auto.
Qed.

Lemma take_while_Forall (q : Z -> bool) s : Forall (fun c => q c = true) (take_while q s).
Proof. induction s as [|c s IH]; simpl; [done|]. destruct (q c) eqn:Hc; by constructor. Qed.

Lemma take_while_all (q : Z -> bool) t rest :
  Forall (fun c => q c = true) t -> match rest with c :: _ => q c = false | [] => True end ->
  take_while q (t ++ rest) = t /\ drop_while q (t ++ rest) = rest.
Proof.
  induction 1 as [|c t Hc Ht IH]; intros Hr; simpl.
  - destruct rest as [|c rest]; [done|]. simpl. by rewrite Hr.
  - rewrite Hc. by destruct (IH Hr) as [-> ->].
Qed.

Lemma ix_get_insert (l : list (str * Value number)) k v k' :
  ix_get (ix_insert l k v) k' = if str_eqb k k' then Some v else ix_get l k'.
Proof.
  induction l as [|[k0 v0] l IH]; simpl; [done|]. destruct (str_eqb k0 k) eqn:E; simpl.
  - apply str_eqb_eq in E as ->. by destruct (str_eqb k k').
  - rewrite IH. destruct (str_eqb k0 k') eqn:E'; [|done]. apply str_eqb_eq in E' as ->.
    destruct (str_eqb k k') eqn:E2; [|done]. apply str_eqb_eq in E2 as ->. by rewrite str_eqb_refl in E.
Qed.

(** A recognized slash directive changes one message only: the last textual
    one of the user, whose content was blank space, a slash, a word without
    white space, and the rest, and of which only the content changes, to the
    rest without its leading blanks.  The word is [auto] (no pin), a preference
    (the first or last tier of a tiered router) or a configured name. *)
Theorem slash_directive_effect messages routing configured_names resolution :
  resolve_slash_directive_for_names messages routing configured_names = Some resolution ->
  exists before members after members' blank token rest,
    messages = JArray (before ++ JObject members :: after) /\
    sr_messages resolution = JArray (before ++ JObject members' :: after) /\
    Forall (fun message => is_user_text message = false) after /\
    obj_get members (lit "content") = Some (JString (blank ++ 47 :: token ++ rest)) /\
    Forall (fun c => char_is_whitespace c = true) blank /\
    Forall (fun c => char_is_whitespace c = false) token /\ token <> [] /\
    (forall name, obj_get members' name =
       if str_eqb (lit "content") name then Some (JString (trim_start rest)) else obj_get members name) /\
    slash_pin routing configured_names token = Some (sr_pin resolution).
Proof.
  unfold resolve_slash_directive_for_names.
  destruct messages as [| | | |values|]; try done. cbn [as_array mbind option_bind].
  destruct (last_index is_user_text values) as [[index message]|] eqn:Hl; [|done]. cbn [mbind option_bind].
  apply last_index_spec in Hl as (before & after & -> & <- & Huser & Hafter).
  destruct message as [| | | | |members]; try (unfold is_user_text, value_role_is in Huser; done).
  cbn [value_get as_object mbind option_bind].
  destruct (obj_get members (lit "content")) as [[| | |content| |]|] eqn:Hcontent; try done.
  cbn [mbind option_bind as_str].
  destruct (drop_while_suffix char_is_whitespace content) as (blank & Hsplit & Hblank).
  fold (trim_start content) in Hsplit. destruct (trim_start content) as [|c after_slash] eqn:Htrim; [done|].
  destruct (Z.eqb_spec c 47) as [->|]; [|done]. cbn [negb].
  set (solid := fun c => negb (char_is_whitespace c)) in *.
  destruct (str_eqb (take_while solid after_slash) []) eqn:Htoken; [done|]. apply str_eqb_neq in Htoken.
  destruct (slash_pin routing configured_names (take_while solid after_slash)) as [pin|] eqn:Hpin; [|done].
  cbn [mbind option_bind]. intros [= <-]. cbn [sr_messages sr_pin].
  exists before, members, after, (ix_insert members (lit "content") (JString (trim_start (drop_while solid after_slash)))),
    blank, (take_while solid after_slash), (drop_while solid after_slash). rewrite take_drop_while.
  split_and!; try done.
  - f_equal. by rewrite insert_app_r_alt, Nat.sub_diag by lia.
  - by rewrite Hcontent, Hsplit.
  - eapply Forall_impl; [apply take_while_Forall|]. simpl. unfold solid. by intros c ?%negb_true_iff.
  - intros name. unfold obj_get. apply ix_get_insert.
Qed.

(** ** Threshold override *)

(** A threshold header moves the cut of a binary router and nothing else:
    what it parses to is a number in the unit interval, and on the ladder built
    from it a score goes to the second model exactly when it reaches that
    number. *)
Theorem threshold_header_moves_cut value routing t :
  parse_threshold_header (Some value) = Ok (Some t) ->
  parse_f64 (trim value) = Some t /\ f64_is_finite t = true /\ f64_in_range f64_zero f64_one t = true /\
  match cfg_classifier routing, cfg_tiers routing with
  | None, [low; high] => exists tiers, threshold_tiers routing t = Ok tiers /\
      forall score, recommend_tier score tiers =
        Some (if f64_ge score t then tier_model high else tier_model low)
  | _, _ => threshold_tiers routing t = Err ThresholdRequiresBinary
  end.
Proof.
  unfold parse_threshold_header. destruct (parse_f64 (trim value)) as [u|]; [|done]. cbn [ok_or result_bind].
  destruct (f64_is_finite u) eqn:Hf, (f64_in_range f64_zero f64_one u) eqn:Hr; cbn [negb orb]; try done.
  intros Heq. assert (u = t) as -> by congruence. split_and!; try done. unfold threshold_tiers.
  destruct (cfg_classifier routing); [done|]. destruct (cfg_tiers routing) as [|low [|high [|]]]; try done.
  eexists. split; [done|]. intros score. unfold recommend_tier. cbn [recommend_loop Tier_new min_score tier_model].
  apply andb_true_iff in Hr as [Hlo _]. destruct (f64_ge score t) eqn:Hge; [|by destruct (f64_ge score f64_zero)].
  rewrite f64_ge_le in Hge |- *. by rewrite (f64_le_trans _ _ _ Hlo Hge).
Qed.

(** ** Scoring overrides *)
Lemma Weights_get_set (w : Weights) name value name' :
  Weights_get w name <> None ->
  Weights_get (fst (Weights_set w name value)) name' = if str_eqb name name' then Some value else Weights_get w name'.
Proof.
  unfold Weights_get, Weights_set. destruct (feature_index name) as [i|] eqn:Hi; [|done]. cbn [mbind option_bind].
  destruct (w !! i) as [old|] eqn:Hw; [|done]. intros _. cbn [fst].
  destruct (str_eqb name name') eqn:E.
  - apply str_eqb_eq in E as <-. rewrite Hi. cbn [mbind option_bind]. apply list_lookup_insert_eq. by apply lookup_lt_Some in Hw.
  - apply str_eqb_neq in E. destruct (feature_index name') as [j|] eqn:Hj; [|done]. cbn [mbind option_bind].
    apply list_lookup_insert_ne. intros ->. by apply E, (feature_index_inj name name' j).
Qed.

Definition usable_weight (w : f64) : bool := f64_is_finite w && f64_le f64_zero w.

Lemma override_weights_spec (raw : list (str * Value number)) w w' :
  NoDup (ix_keys raw) -> override_weights w raw = Ok w' ->
  (forall name, Weights_get w' name =
     match ix_get raw name with Some value => as_f64 value | None => Weights_get w name end) /\
  Forall (fun kv => Weights_get w (fst kv) <> None /\ exists x, as_f64 (snd kv) = Some x /\ usable_weight x = true) raw.
Proof.
  revert w. induction raw as [|[name value] raw IH]; intros w; cbn [override_weights ix_keys map fst].
  - intros _ [= <-]. by split.
  - intros [Hn Hd]%NoDup_cons. destruct (Weights_get w name) as [old|] eqn:Hold; [|done].
    destruct (as_f64 value) as [x|] eqn:Hx; [|done].
    destruct (f64_is_finite x) eqn:Hf; [|done]. destruct (f64_lt x f64_zero) eqn:Hneg; [done|]. cbn [negb orb].
    intros Hok. destruct (IH _ Hd Hok) as [Hget Hall]. split.
    + intros name'. rewrite Hget. cbn [ix_get]. rewrite Weights_get_set by by rewrite Hold.
      destruct (str_eqb name name') eqn:E; [|done]. apply str_eqb_eq in E as <-.
      assert (ix_get raw name = None) as -> by (by apply ix_get_None). done.
    + constructor.
      * cbn [fst snd]. split; [by rewrite Hold|]. exists x. split; [done|]. unfold usable_weight. rewrite Hf.
        apply f64_not_lt_ge in Hneg; [done|by apply f64_finite_not_nan|done].
      * eapply Forall_impl; [done|]. intros [k v] [Hk Hv]. split; [|done]. cbn [fst] in *.
        rewrite Weights_get_set in Hk by by rewrite Hold. destruct (str_eqb name k) eqn:E; [|done].
        apply str_eqb_eq in E as <-. by rewrite Hold.
Qed.

Lemma clean_terms_spec key cleaned (terms : list (Value number)) cleaned' :
  clean_terms to_lowercase key cleaned terms = Ok cleaned' ->
  forall token, token ∈ bt_keys cleaned' <->
    token ∈ bt_keys cleaned \/ (token <> [] /\ exists t, JString t ∈ terms /\ token = to_lowercase (trim t)).
Proof.
  revert cleaned. induction terms as [|term terms IH]; intros cleaned; cbn [clean_terms].
  - intros [= ->] token. split; [by left|]. intros [?|(_ & t & Ht & _)]; [done|by apply not_elem_of_nil in Ht].
  - destruct (as_str term) as [t|] eqn:Ht; [|done]. destruct term as [| | |t'| |]; try done.
    assert (t' = t) as -> by (cbn [as_str] in Ht; congruence).
    intros Hok token. rewrite (IH _ Hok token).
    assert (token ∈ bt_keys (if str_eqb (to_lowercase (trim t)) [] then cleaned
                             else bt_insert cleaned (to_lowercase (trim t)) ()) <->
            token ∈ bt_keys cleaned \/ (token <> [] /\ token = to_lowercase (trim t))) as ->.
    { destruct (str_eqb (to_lowercase (trim t)) []) eqn:E.
      - apply str_eqb_eq in E. rewrite E. naive_solver.
      - apply str_eqb_neq in E. rewrite bt_elem_keys_insert. naive_solver. }
    split.
    + intros [[?|[? ?]]|(? & u & ? & ?)]; [by left|right|right]; (split; [done|]).
      * exists t. split; [left|done].
      * exists u. split; [by right|done].
    + intros [?|(? & u & Hu & ?)]; [by left; left|]. apply elem_of_cons in Hu as [Hu|Hu].
      * left; right. split; [done|]. congruence.
      * right. split; [done|]. by exists u.
Qed.

(** What a lexicon holds once its terms are [terms]: each trimmed and in lower
    case. *)
Definition folded (term : str) : str := to_ascii_lowercase (trim term).

(** The terms of the new lexicon: those of the override's member [key] when it
    is there, the old ones otherwise. *)
Definition override_term (override_members : list (str * Value number)) (key : str) (old : list str) (token : str) : Prop :=
  match obj_get override_members (lit "lexicon") ≫= (fun v => value_get v key) with
  | Some value => exists terms t, as_array value = Some terms /\ JString t ∈ terms /\
      to_lowercase (trim t) <> [] /\ token = folded (to_lowercase (trim t))
  | None => exists term, term ∈ old /\ token = folded term
  end.

Lemma override_terms_spec (raw : list (str * Value number)) key old cleaned :
  override_terms to_lowercase raw key (bt_of_list (map (fun term => (term, ())) old)) = Ok cleaned ->
  forall token, token ∈ bt_keys (normalized_term_set (bt_keys cleaned)) <->
    match obj_get raw key with
    | Some value => exists terms t, as_array value = Some terms /\ JString t ∈ terms /\
        to_lowercase (trim t) <> [] /\ token = folded (to_lowercase (trim t))
    | None => exists term, term ∈ old /\ token = folded term
    end.
Proof.
  intros Hok token. unfold normalized_term_set. rewrite bt_elem_keys_of_list, map_map. cbn [fst].
  rewrite list_elem_of_fmap. fold folded. unfold override_terms in Hok. destruct (obj_get raw key) as [value|].
  - unfold parse_tuning_terms in Hok. destruct (as_array value) as [terms|]; [|done].
    destruct (clean_terms _ _ _ _) as [cl|] eqn:Hcl; [|done]. cbn [result_bind] in Hok.
    destruct (MAX_LEXICON_TERMS <? len cl); [done|]. assert (cl = cleaned) as -> by congruence.
    pose proof (clean_terms_spec _ _ _ _ Hcl) as Hin. split.
    + intros (k & -> & [Hk|(Hk & t & Ht & ->)]%Hin); [by apply not_elem_of_nil in Hk|]. by exists terms, t.
    + intros (ts & t & Hts & Ht & Hne & ->). assert (ts = terms) as -> by congruence.
      exists (to_lowercase (trim t)). split; [done|]. apply Hin. right. split; [done|]. by exists t.
  - assert (cleaned = bt_of_list (map (fun term => (term, ())) old)) as -> by congruence. split.
    + intros (k & -> & Hk). rewrite bt_elem_keys_of_list, map_map in Hk. cbn [fst] in Hk. rewrite map_id in Hk. by exists k.
    + intros (k & Hk & ->). exists k. split; [done|]. rewrite bt_elem_keys_of_list, map_map. cbn [fst]. by rewrite map_id.
Qed.

(** A tuning override that is accepted changes exactly what it names.  The
    tiers and the classifier stay; a weight is the finite, non-negative number
    the override gives for a known feature, or the old weight; and a token is a
    reasoning (constraint) term exactly when it is one of the trimmed,
    lower-cased, non-empty terms of the override's list, or, without such a
    list, an old term. *)
Theorem scoring_overrides_spec routing (override_members : list (str * Value number)) routing' :
  (forall raw, obj_get override_members (lit "weights") = Some (JObject raw) -> NoDup (ix_keys raw)) ->
  apply_scoring_overrides to_lowercase routing (Some (JObject override_members)) = Ok routing' ->
  let weight_of name := obj_get override_members (lit "weights") ≫= (fun v => value_get v name) in
  cfg_tiers routing' = cfg_tiers routing /\ cfg_classifier routing' = cfg_classifier routing /\
  (forall name, Weights_get (cfg_weights routing') name =
     match weight_of name with Some value => as_f64 value | None => Weights_get (cfg_weights routing) name end) /\
  (forall name value, weight_of name = Some value ->
     Weights_get (cfg_weights routing) name <> None /\ exists x, as_f64 value = Some x /\ usable_weight x = true) /\
  (forall token, token ∈ reasoning_terms (cfg_lexicon routing') <->
     override_term override_members (lit "reasoning_terms") (reasoning_terms (cfg_lexicon routing)) token) /\
  (forall token, token ∈ constraint_terms (cfg_lexicon routing') <->
     override_term override_members (lit "constraint_terms") (constraint_terms (cfg_lexicon routing)) token).
Proof.
  intros Hkeys. unfold apply_scoring_overrides. cbn [as_object ok_or result_bind]. cbv zeta.
  intros (weights & Hweights & ([reasoning constraints] & Hlex & Hok)%result_bind_ok)%result_bind_ok.
  assert (routing' = Build_RoutingConfig weights (cfg_tiers routing) (cfg_classifier routing)
    (Lexicon_new (bt_keys reasoning) (bt_keys constraints))) as -> by congruence.
  cbn [cfg_weights cfg_tiers cfg_classifier cfg_lexicon]. split; [done|]. split; [done|].
  assert ((forall name, Weights_get weights name =
     match obj_get override_members (lit "weights") ≫= (fun v => value_get v name) with
     | Some value => as_f64 value | None => Weights_get (cfg_weights routing) name end) /\
    (forall name value, obj_get override_members (lit "weights") ≫= (fun v => value_get v name) = Some value ->
     Weights_get (cfg_weights routing) name <> None /\ exists x, as_f64 value = Some x /\ usable_weight x = true)) as [Hw1 Hw2].
  { destruct (obj_get override_members (lit "weights")) as [raw|].
    - destruct raw as [| | | | |raw]; try done. cbn [as_object ok_or result_bind mbind option_bind value_get] in *.
      destruct (override_weights_spec _ _ _ (Hkeys raw eq_refl) Hweights) as [Hget Hall].
      split; [exact Hget|]. intros name value Hv. apply ix_get_split in Hv as (a & b & -> & _).
      apply Forall_app in Hall as [_ [Hv _]%Forall_cons]. exact Hv.
    - assert (weights = cfg_weights routing) as -> by congruence. by split. }
  split; [exact Hw1|]. split; [exact Hw2|]. unfold override_term, reasoning_terms, constraint_terms in *.
  cbn [Lexicon_new lex_reasoning_terms lex_constraint_terms].
  destruct (obj_get override_members (lit "lexicon")) as [raw|].
  - destruct raw as [| | | | |raw]; try done. cbn [as_object ok_or result_bind mbind option_bind value_get] in *.
    apply result_bind_ok in Hlex as (r & Hr & (c & Hc & Heq)%result_bind_ok).
    assert (r = reasoning) as -> by congruence. assert (c = constraints) as -> by congruence.
    split; intros token; by apply override_terms_spec.
  - assert (reasoning = bt_of_list (map (fun term => (term, ())) (bt_keys (lex_reasoning_terms (cfg_lexicon routing)))))
      as -> by congruence.
    assert (constraints = bt_of_list (map (fun term => (term, ())) (bt_keys (lex_constraint_terms (cfg_lexicon routing)))))
      as -> by congruence.
    split; intros token; cbn [mbind option_bind]; by apply (override_terms_spec [] (lit "key")).
Qed.
End Properties.

(** ** Closed examples *)
Definition user_message (content : string) : Value Z :=
  JObject [(lit "role", JString (lit "user")); (lit "content", JString (lit content))].
Definition system_message (content : string) : Value Z :=
  JObject [(lit "role", JString (lit "system")); (lit "content", JString (lit content))].

Definition sample_parts : Value Z :=
  JArray [JObject [(lit "type", JString (lit "text")); (lit "text", JString (lit "latest"))];
          JObject [(lit "text", JString (lit "part"))]].
Definition sample_transcript : Value Z :=
  JArray [system_message "standing"; user_message "first";
          JObject [(lit "role", JString (lit "assistant")); (lit "content", JString (lit "answer"))];
          JObject [(lit "role", JString (lit "user")); (lit "content", sample_parts)]].

Definition lines (l : list string) : str := join_lines (map lit l).

Example prompt_scopes :
  map (extract_prompt sample_transcript) [Turn; LastUser; User; All] =
  [lines ["standing"; "latest"; "part"]; lines ["latest"; "part"]; lines ["first"; "latest"; "part"];
   lines ["standing"; "first"; "answer"; "latest"; "part"]]%string.
Proof. vm_compute. reflexivity. Qed.

Example prompt_falls_back :
  extract_prompt (JArray [JNull; JString (lit "x");
    JObject [(lit "role", JString (lit "assistant")); (lit "content", JString (lit "fallback"))]] : Value Z) LastUser
  = lit "fallback".
Proof. vm_compute. reflexivity. Qed.

Example headers_parse :
  parse_threshold_header (Some (lit " 0.25 ")) = Ok (Some (f64_dec 25 2)) /\
  is_ok (parse_threshold_header (Some (lit "nan"))) = false /\
  is_ok (parse_threshold_header (Some (lit "1.1"))) = false /\
  parse_route_on_header to_ascii_lowercase (Some (lit " USER ")) = Ok (Some User) /\
  resolve_sticky to_ascii_lowercase (Some (lit "OFF")) true = Ok false /\
  is_ok (resolve_sticky to_ascii_lowercase (Some (lit "maybe")) true) = false /\
  resolve_sticky_cooldown (Some (lit " 2 ")) 0 = Ok 2 /\
  is_ok (resolve_sticky_cooldown (Some (lit "-1")) 0) = false.
Proof. vm_compute. by repeat split. Qed.

Definition binary_routing : RoutingConfig := RoutingConfig_binary (f64_dec 5 1).

Lemma threshold_header_moves_cut_witness :
  exists tiers, threshold_tiers binary_routing (f64_dec 25 2) = Ok tiers /\
    recommend_tier (f64_dec 3 1) tiers = Some (lit "cloud").
Proof.
  destruct (threshold_header_moves_cut (lit " 0.25 ") binary_routing (f64_dec 25 2))
    as (_ & _ & _ & tiers & Ht & Hr); [vm_compute; reflexivity|].
  exists tiers. split; [exact Ht|]. rewrite Hr. vm_compute. reflexivity.
Defined.

Definition slash_transcript : Value Z :=
  JArray [user_message "old"; user_message "  /cloud   do this"; system_message "later"].

Lemma slash_directive_effect_witness :
  exists resolution,
    resolve_slash_directive_for_names slash_transcript binary_routing [lit "local"; lit "cloud"] = Some resolution /\
    exists before members after members' blank token rest,
      slash_transcript = JArray (before ++ JObject members :: after) /\
      sr_messages resolution = JArray (before ++ JObject members' :: after) /\
      obj_get members (lit "content") = Some (JString (blank ++ 47 :: token ++ rest)) /\
      slash_pin binary_routing [lit "local"; lit "cloud"] token = Some (sr_pin resolution).
Proof.
  eexists. split; [vm_compute; reflexivity|].
  destruct (slash_directive_effect slash_transcript binary_routing [lit "local"; lit "cloud"]
    {| sr_pin := Some (lit "cloud");
       sr_messages := JArray [user_message "old"; user_message "do this"; system_message "later"] |})
    as (b & m & a & m' & bl & t & r & H1 & H2 & _ & H3 & _ & _ & _ & _ & H4); [vm_compute; reflexivity|].
  exists b, m, a, m', bl, t, r. by split_and!.
Defined.

Definition hard_turn : str := lit "# " ++ concat (repeat (10 :: lit "- step") 20).
Definition hard_message : Value Z :=
  JObject [(lit "role", JString (lit "user")); (lit "content", JString hard_turn)].
Definition conversation : list (Value Z) := [hard_message; system_message "note"; user_message "thanks"; user_message "ok"].
Definition easy_routing : RoutingConfig := RoutingConfig_binary (f64_dec 1 1).

Example sticky_decays :
  map (fun cooldown => conversation_high_water (Ok sample_patterns) (JArray conversation) easy_routing
         (cfg_tiers easy_routing) cooldown) [0; 2; 3] =
  [Ok (Some (lit "cloud")); Ok (Some (lit "local")); Ok (Some (lit "cloud"))].
Proof. vm_compute. reflexivity. Qed.

Lemma high_water_latches_witness :
  exists ranks : list nat,
    Forall2 (fun message rank => scored_rank sample_patterns easy_routing (cfg_tiers easy_routing)
               (turn_text conversation message) rank)
      (List.filter (value_role_is (lit "user")) conversation) ranks.
Proof.
  destruct (high_water_latches sample_patterns conversation easy_routing (cfg_tiers easy_routing) 2)
    as (ranks & Hall & _); [discriminate|discriminate|u64|by vm_compute|].
  by exists ranks.
Defined.

Definition sample_override : list (str * Value Z) :=
  [(lit "weights", JObject [(lit "word_count", JNumber 5); (lit "reasoning_term_count", JNumber 9)]);
   (lit "lexicon", JObject [(lit "reasoning_terms", JArray [JString (lit " FROBNICATE "); JString []])]);
   (lit "future_field", JBool true)].

Lemma scoring_overrides_spec_witness :
  exists routing', apply_scoring_overrides to_ascii_lowercase binary_routing (Some (JObject sample_override)) = Ok routing' /\
    Weights_get (cfg_weights routing') (lit "word_count") = Some (f64_of_Z 5) /\
    reasoning_terms (cfg_lexicon routing') = [lit "frobnicate"] /\
    cfg_tiers routing' = cfg_tiers binary_routing.
Proof.
  destruct (apply_scoring_overrides to_ascii_lowercase binary_routing (Some (JObject sample_override))) as [r|] eqn:E;
    [|vm_compute in E; discriminate].
  destruct (scoring_overrides_spec to_ascii_lowercase binary_routing sample_override r) as (Ht & _ & Hw & _); [|exact E|].
  - intros raw Hraw. apply (bool_decide_unpack _). revert Hraw. vm_compute. intros [= <-]. exact I.
  - exists r. split; [done|]. split; [rewrite Hw; vm_compute; reflexivity|]. split; [|exact Ht].
    revert E. vm_compute. intros [= <-]. reflexivity.
Defined.
