(* ===== verification/Ledger.v ===== *)
(** * Pricing and the savings ledger (crate [wayfinder-service], [src/pricing.rs])

    Token estimates, turn costs, the bounded daily ledger and its reports, and
    the coercion of persisted values.  File access ([save], [load],
    [load_resilient]) and the two locks are not modelled. *)
From S2P Require Export Calendar Json.

(** ** Prices and turns *)

Definition CHARS_PER_TOKEN : Z := 4.
Definition LEDGER_SCHEMA_VERSION : Z := 2.

Inductive PricingError := InvalidPrice (model : str) | PricingJson (reason : str).

Definition estimate_tokens (text : str) : Z :=
  match text with [] => 0 | _ => Z.max (len text / CHARS_PER_TOKEN) 1 end.

Definition invalid_price (v : f64) : bool := negb (f64_is_finite v) || f64_lt v f64_zero.

Record PriceTable (M : Type) := {
  costs : M;
  table_priced : bool;
}.
Arguments costs {M}.
Arguments table_priced {M}.
Arguments Build_PriceTable {M}.

Definition first_bad {A} (bad : A -> bool) (l : list (str * A)) : option str :=
  fst <$> head (List.filter (fun kv => bad (snd kv)) l).

Section Prices.
Context {MO M : Type} `{IndexMap (option f64) MO} `{IndexMap f64 M}.

Definition collect_costs (l : list (str * f64)) : M := foldl (fun m kv => im_insert m (fst kv) (snd kv)) im_new l.

Definition price_table (model_costs : MO) (tier_ladder : list str) : result (PriceTable M) PricingError :=
  let entries := im_entries model_costs in
  match first_bad (fun c => match c with Some v => invalid_price v | None => false end) entries with
  | Some model => Err (InvalidPrice model)
  | None =>
      let real := omap (fun '(model, cost) => pair model <$> cost) entries in
      match real with
      | _ :: _ => Ok {| costs := collect_costs real; table_priced := true |}
      | [] =>
          let names := match tier_ladder with [] => map fst entries | _ => tier_ladder end in
          match names with
          | [] => Ok {| costs := im_new; table_priced := false |}
          | _ =>
              let denominator := f64_of_Z (Z.max (u64_sat_sub (len names) 1) 1) in
              let step := f64_div (f64_sub f64_one (f64_dec 2 1)) denominator in
              Ok {| costs := collect_costs
                      (imap (fun index model =>
                         (model, python_round (f64_add (f64_dec 2 1) (f64_mul (f64_of_Z (Z.of_nat index)) step)) 3))
                         names);
                    table_priced := false |}
          end
      end
  end.

(** [format!("\\u{code_unit:04x}")] for every UTF-16 code unit. *)
Definition hex_digit (n : Z) : Z := if n <? 10 then 48 + n else 87 + n.
Definition escape_unit (u : Z) : str :=
  [92; 117; hex_digit (Z.land (Z.shiftr u 12) 15); hex_digit (Z.land (Z.shiftr u 8) 15);
   hex_digit (Z.land (Z.shiftr u 4) 15); hex_digit (Z.land u 15)].
Definition encode_utf16 (c : Z) : list Z :=
  if c <? 65536 then [c]
  else [55296 + Z.shiftr (c - 65536) 10; 56320 + Z.land (c - 65536) 1023].
Definition escape_ascii (json : str) : str :=
  json ≫= fun c => if c <? 128 then [c] else encode_utf16 c ≫= escape_unit.

(** [costs_json] is [serde_json::to_string] of the sorted table; [sha256] is
    the digest of the [sha2] crate. *)
Definition table_version (costs_json : btree f64 -> result str str) (sha256 : list Z -> list Z) (costs : M)
    : result str PricingError :=
  match first_bad invalid_price (im_entries costs) with
  | Some model => Err (InvalidPrice model)
  | None =>
      let? json := map_err PricingJson (costs_json (bt_of_list (im_entries costs))) in
      let digest := sha256 (as_bytes (escape_ascii json)) in
      Ok (take 6 digest ≫= fun byte => [hex_digit (Z.shiftr byte 4); hex_digit (Z.land byte 15)])
  end.
End Prices.

Record UsageTokens := {
  ut_prompt : Z;
  ut_completion : Z;
  ut_estimated : bool;
}.

Definition i64_max : Z := 9223372036854775807.
Definition i64_min : Z := -9223372036854775808.
Definition i64_sat_sub (a b : Z) : Z := Z.max i64_min (Z.min i64_max (a - b)).

Section Usage.
Context {number : Type} `{JsonNumber number}.

Definition estimated_usage (prompt_text completion_text : str) : UsageTokens :=
  {| ut_prompt := Z.min (estimate_tokens prompt_text) i64_max;
     ut_completion := Z.min (estimate_tokens completion_text) i64_max; ut_estimated := true |}.

Definition usage_tokens (response : Value number) (prompt_text completion_text : str) : UsageTokens :=
  match (u ← value_get response (lit "usage"); as_object u) with
  | Some usage =>
      let prompt := v ← obj_get usage (lit "prompt_tokens"); as_i64 v in
      let completion := v ← obj_get usage (lit "completion_tokens"); as_i64 v in
      match prompt, completion with
      | Some prompt, Some completion =>
          {| ut_prompt := prompt; ut_completion := completion; ut_estimated := false |}
      | _, _ =>
          match (v ← obj_get usage (lit "total_tokens"); as_i64 v) with
          | Some total =>
              let prompt := default 0 prompt in
              {| ut_prompt := prompt; ut_completion := Z.max (i64_sat_sub total prompt) 0;
                 ut_estimated := false |}
          | None => estimated_usage prompt_text completion_text
          end
      end
  | None => estimated_usage prompt_text completion_text
  end.
End Usage.

Record TurnCost := {
  tc_route : str;
  tc_realized : f64;
  tc_baseline : f64;
  tc_savings : f64;
  tc_prompt_tokens : Z;
  tc_completion_tokens : Z;
  tc_estimated : bool;
}.

Definition dearest_rate {M} `{IndexMap f64 M} (costs : M) : f64 :=
  foldl (fun d kv => f64_max d (snd kv)) f64_zero (im_entries costs).

Definition turn_cost {M} `{IndexMap f64 M} (route : str) (prompt_tokens completion_tokens : Z) (costs : M)
    (estimated : bool) (baseline_model : option str) : result TurnCost PricingError :=
  match first_bad invalid_price (im_entries costs) with
  | Some model => Err (InvalidPrice model)
  | None =>
      let dearest := dearest_rate costs in
      let prompt := Z.max prompt_tokens 0 in
      let completion := Z.max completion_tokens 0 in
      let total_thousands := f64_div (f64_of_Z (u64_sat_add prompt completion)) (f64_of_Z 1000) in
      let baseline_rate := default dearest (model ← baseline_model; im_get costs model) in
      let route_rate := default dearest (im_get costs route) in
      let realized := python_round (f64_mul route_rate total_thousands) 6 in
      let baseline := python_round (f64_mul baseline_rate total_thousands) 6 in
      Ok {| tc_route := route; tc_realized := realized; tc_baseline := baseline;
            tc_savings := python_round (f64_sub baseline realized) 6;
            tc_prompt_tokens := prompt; tc_completion_tokens := completion; tc_estimated := estimated |}
  end.

(** ** Buckets

    The three bucket types of the source repeat the five counters of
    [LedgerStats]; here they hold them as one field. *)
Record LedgerStats := {
  ls_n : Z;
  ls_realized : f64;
  ls_baseline : f64;
  ls_savings : f64;
  ls_tokens : Z;
}.

Definition default_stats : LedgerStats := Build_LedgerStats 0 f64_zero f64_zero f64_zero 0.

Record WorkspaceBucket := {
  wb_stats : LedgerStats;
  wb_estimated_n : Z;
  wb_by_route : btree LedgerStats;
}.

Definition default_workspace : WorkspaceBucket := Build_WorkspaceBucket default_stats 0 [].

Record DayBucket := {
  db_stats : LedgerStats;
  db_estimated_n : Z;
  db_by_route : btree LedgerStats;
  db_by_key : btree LedgerStats;
  db_by_workspace : btree WorkspaceBucket;
}.

Definition default_day : DayBucket := Build_DayBucket default_stats 0 [] [] [].

Definition money_add (a b : f64) : f64 := python_round (f64_add a b) 6.

Definition add_turn (s : LedgerStats) (cost : TurnCost) : LedgerStats :=
  {| ls_n := u64_sat_add (ls_n s) 1;
     ls_realized := money_add (ls_realized s) (tc_realized cost);
     ls_baseline := money_add (ls_baseline s) (tc_baseline cost);
     ls_savings := money_add (ls_savings s) (tc_savings cost);
     ls_tokens := u64_sat_add (ls_tokens s) (u64_sat_add (tc_prompt_tokens cost) (tc_completion_tokens cost)) |}.

Definition add_stats (s other : LedgerStats) : LedgerStats :=
  {| ls_n := u64_sat_add (ls_n s) (ls_n other);
     ls_realized := money_add (ls_realized s) (ls_realized other);
     ls_baseline := money_add (ls_baseline s) (ls_baseline other);
     ls_savings := money_add (ls_savings s) (ls_savings other);
     ls_tokens := u64_sat_add (ls_tokens s) (ls_tokens other) |}.

Definition merge_stat_maps (target source : btree LedgerStats) : btree LedgerStats :=
  foldl (fun t '(name, stats) => bt_update t name default_stats (fun s => add_stats s stats)) target source.

Definition count_estimated (cost : TurnCost) (n : Z) : Z := if tc_estimated cost then u64_sat_add n 1 else n.

Definition turn_in (m : btree LedgerStats) (name : str) (cost : TurnCost) : btree LedgerStats :=
  bt_update m name default_stats (fun s => add_turn s cost).

Definition workspace_add_turn (w : WorkspaceBucket) (cost : TurnCost) : WorkspaceBucket :=
  {| wb_stats := add_turn (wb_stats w) cost;
     wb_estimated_n := count_estimated cost (wb_estimated_n w);
     wb_by_route := turn_in (wb_by_route w) (tc_route cost) cost |}.

Definition workspace_add_bucket (w other : WorkspaceBucket) : WorkspaceBucket :=
  {| wb_stats := add_stats (wb_stats w) (wb_stats other);
     wb_estimated_n := u64_sat_add (wb_estimated_n w) (wb_estimated_n other);
     wb_by_route := merge_stat_maps (wb_by_route w) (wb_by_route other) |}.

Definition day_add_bucket (d other : DayBucket) : DayBucket :=
  {| db_stats := add_stats (db_stats d) (db_stats other);
     db_estimated_n := u64_sat_add (db_estimated_n d) (db_estimated_n other);
     db_by_route := merge_stat_maps (db_by_route d) (db_by_route other);
     db_by_key := merge_stat_maps (db_by_key d) (db_by_key other);
     db_by_workspace :=
       foldl (fun t '(workspace, bucket) =>
                bt_update t workspace default_workspace (fun w => workspace_add_bucket w bucket))
         (db_by_workspace d) (db_by_workspace other) |}.

(** ** The ledger *)
Record SavingsLedger := {
  max_days : Z;
  priced : bool;
  days : btree DayBucket;
}.

Definition SavingsLedger_new (max_days : Z) (priced : bool) : SavingsLedger :=
  {| max_days := max_days; priced := priced; days := [] |}.

Definition default_ledger : SavingsLedger := SavingsLedger_new 400 true.

Definition set_priced (l : SavingsLedger) (p : bool) : SavingsLedger :=
  {| max_days := max_days l; priced := p; days := days l |}.

(** What one recorded turn does to its day. *)
Definition day_record (cost : TurnCost) (virtual_key workspace : option str) (b : DayBucket) : DayBucket :=
  {| db_stats := add_turn (db_stats b) cost;
     db_estimated_n := count_estimated cost (db_estimated_n b);
     db_by_route := turn_in (db_by_route b) (tc_route cost) cost;
     db_by_key := match virtual_key with
                  | Some key => turn_in (db_by_key b) key cost
                  | None => db_by_key b
                  end;
     db_by_workspace := match workspace with
                        | Some w => bt_update (db_by_workspace b) w default_workspace
                                      (fun wb => workspace_add_turn wb cost)
                        | None => db_by_workspace b
                        end |}.

(** [while days.len() > max_days { days.pop_first(); }] *)
Fixpoint trim_days (max : Z) (d : btree DayBucket) : btree DayBucket :=
  match d with
  | [] => []
  | _ :: rest => if max <? len d then trim_days max rest else d
  end.

Definition record_attributed (l : SavingsLedger) (cost : TurnCost) (when : UtcDate)
    (virtual_key workspace : option str) : SavingsLedger :=
  {| max_days := max_days l; priced := priced l;
     days := trim_days (max_days l)
               (bt_update (days l) (to_string when) default_day (day_record cost virtual_key workspace)) |}.

Definition record (l : SavingsLedger) (cost : TurnCost) (when : UtcDate) (virtual_key : option str) : SavingsLedger :=
  record_attributed l cost when virtual_key None.

(** ** Reports *)
Record SavingsBreakdown := {
  sb_requests : Z;
  sb_realized : f64;
  sb_baseline : f64;
  sb_saved : f64;
  sb_tokens : Z;
}.

Definition breakdown_of (s : LedgerStats) : SavingsBreakdown :=
  {| sb_requests := ls_n s; sb_realized := python_round (ls_realized s) 6;
     sb_baseline := python_round (ls_baseline s) 6; sb_saved := python_round (ls_savings s) 6;
     sb_tokens := ls_tokens s |}.

Record SavingsReport := {
  sr_period_days : option Z;
  sr_unit : str;
  sr_priced : bool;
  sr_requests : Z;
  sr_estimated_requests : Z;
  sr_tokens : Z;
  sr_realized : f64;
  sr_baseline : f64;
  sr_saved : f64;
  sr_saved_pct : f64;
  sr_by_route : btree SavingsBreakdown;
  sr_by_key : btree SavingsBreakdown;
}.

Record WorkspaceSavingsReport := {
  wr_report : SavingsReport;
  wr_first_observed_utc : option str;
  wr_last_observed_utc : option str;
}.

Record SavingsTotals := {
  tot_realized : f64;
  tot_baseline : f64;
  tot_saved : f64;
}.

Definition cutoff_of (period_days : option Z) (today : UtcDate) : option Z :=
  (fun days => i64_sat_sub (ordinal today) (i64_sat_sub days 1)) <$> period_days.

(** Whether a bucket key is inside the window. *)
Definition included (cutoff : option Z) (date : str) : bool :=
  match cutoff with
  | None => true
  | Some cutoff => match UtcDate_parse date with Ok d => cutoff <=? ordinal d | Err _ => false end
  end.

Definition breakdowns (m : btree LedgerStats) : btree SavingsBreakdown :=
  bt_of_list (map (fun '(name, stats) => (name, breakdown_of stats)) m).

Definition report_of (l : SavingsLedger) (period_days : option Z) (s : LedgerStats) (estimated : Z)
    (by_route by_key : btree SavingsBreakdown) : SavingsReport :=
  let baseline := python_round (ls_baseline s) 6 in
  let saved := python_round (ls_savings s) 6 in
  {| sr_period_days := period_days;
     sr_unit := if priced l then lit "usd" else lit "relative";
     sr_priced := priced l;
     sr_requests := ls_n s;
     sr_estimated_requests := estimated;
     sr_tokens := ls_tokens s;
     sr_realized := python_round (ls_realized s) 6;
     sr_baseline := baseline;
     sr_saved := saved;
     sr_saved_pct := if f64_eq baseline f64_zero then f64_zero
                     else python_round (f64_div (f64_mul (f64_of_Z 100) saved) baseline) 1;
     sr_by_route := by_route;
     sr_by_key := by_key |}.

Definition period_bucket (l : SavingsLedger) (cutoff : option Z) : DayBucket :=
  foldl (fun aggregate '(date, bucket) =>
           if included cutoff date then day_add_bucket aggregate bucket else aggregate)
    default_day (days l).

Definition period (l : SavingsLedger) (period_days : option Z) (today : UtcDate) : SavingsReport :=
  let aggregate := period_bucket l (cutoff_of period_days today) in
  report_of l period_days (db_stats aggregate) (db_estimated_n aggregate)
    (breakdowns (db_by_route aggregate)) (breakdowns (db_by_key aggregate)).

(** The loop of [period_for_workspace]: aggregate, first and last day seen. *)
Definition workspace_step (workspace : str) (cutoff : option Z)
    (acc : WorkspaceBucket * option str * option str) (day : str * DayBucket)
    : WorkspaceBucket * option str * option str :=
  let '(aggregate, first, last) := acc in
  let '(date, bucket) := day in
  if negb (included cutoff date) then acc
  else match bt_get (db_by_workspace bucket) workspace with
       | None => acc
       | Some w =>
           if ls_n (wb_stats w) =? 0 then acc
           else (workspace_add_bucket aggregate w,
                 match first with None => Some date | Some _ => first end, Some date)
       end.

Definition period_for_workspace (l : SavingsLedger) (workspace : str) (period_days : option Z) (today : UtcDate)
    : WorkspaceSavingsReport :=
  let '(aggregate, first, last) :=
    foldl (workspace_step workspace (cutoff_of period_days today)) (default_workspace, None, None) (days l) in
  {| wr_report := report_of l period_days (wb_stats aggregate) (wb_estimated_n aggregate)
                    (breakdowns (wb_by_route aggregate)) [];
     wr_first_observed_utc := first; wr_last_observed_utc := last |}.

Definition totals (l : SavingsLedger) : SavingsTotals :=
  let realized := f64_sum (map (fun d => ls_realized (db_stats d)) (bt_values (days l))) in
  let baseline := f64_sum (map (fun d => ls_baseline (db_stats d)) (bt_values (days l))) in
  {| tot_realized := python_round realized 6; tot_baseline := python_round baseline 6;
     tot_saved := python_round (f64_sub baseline realized) 6 |}.

(** What a bucket counts as spent, overall or by one virtual key. *)
Definition bucket_spent (virtual_key : option str) (b : DayBucket) : f64 :=
  match virtual_key with
  | None => ls_realized (db_stats b)
  | Some key => match bt_get (db_by_key b) key with Some s => ls_realized s | None => f64_zero end
  end.

Definition spent (l : SavingsLedger) (window : str) (virtual_key : option str) (today : UtcDate) : f64 :=
  let amount :=
    if str_eqb window (lit "day") then
      match bt_get (days l) (to_string today) with Some b => bucket_spent virtual_key b | None => f64_zero end
    else if str_eqb window (lit "month") then
      f64_sum (map (fun kv => bucket_spent virtual_key (snd kv))
                 (List.filter (fun kv => starts_with (fst kv) (month_prefix today)) (days l)))
    else f64_sum (map (bucket_spent virtual_key) (bt_values (days l))) in
  python_round amount 6.

Definition day_keys (l : SavingsLedger) : list str := bt_keys (days l).

(** ** Persistence as JSON values *)
Section Persistence.
Context {number : Type} `{JsonNumber number, JsonBuild number}.
Notation value := (Value number).

(** [serde_json] writes a float that is not finite as [null]. *)
Definition f64_value (x : f64) : value := if f64_is_finite x then JNumber (number_of_f64 x) else JNull.
Definition u64_value (n : Z) : value := JNumber (number_of_u64 n).

Definition map_value {A} (f : A -> value) (m : btree A) : value := JObject (map (fun '(k, a) => (k, f a)) m).

Definition stats_members (s : LedgerStats) : list (str * value) :=
  [(lit "n", u64_value (ls_n s)); (lit "realized", f64_value (ls_realized s));
   (lit "baseline", f64_value (ls_baseline s)); (lit "savings", f64_value (ls_savings s));
   (lit "tokens", u64_value (ls_tokens s))].

Definition stats_value (s : LedgerStats) : value := JObject (stats_members s).

Definition workspace_value (w : WorkspaceBucket) : value :=
  JObject (stats_members (wb_stats w) ++
    [(lit "estimated_n", u64_value (wb_estimated_n w)); (lit "by_route", map_value stats_value (wb_by_route w))]).

Definition day_value (d : DayBucket) : value :=
  JObject (stats_members (db_stats d) ++
    [(lit "estimated_n", u64_value (db_estimated_n d)); (lit "by_route", map_value stats_value (db_by_route d));
     (lit "by_key", map_value stats_value (db_by_key d));
     (lit "by_workspace", map_value workspace_value (db_by_workspace d))]).

Definition to_value (l : SavingsLedger) : value :=
  JObject [(lit "max_days", u64_value (max_days l)); (lit "priced", JBool (priced l));
           (lit "days", map_value day_value (days l))].

Definition compatible_u64 (v : option value) : Z := default 0 (v ← v; as_u64 v).

Definition compatible_f64 (v : option value) : f64 :=
  match (v ← v; as_f64 v) with
  | Some x => if f64_is_finite x then x else f64_zero
  | None => f64_zero
  end.

Definition coerce_stats (stats : list (str * value)) : LedgerStats :=
  {| ls_n := compatible_u64 (obj_get stats (lit "n"));
     ls_realized := compatible_f64 (obj_get stats (lit "realized"));
     ls_baseline := compatible_f64 (obj_get stats (lit "baseline"));
     ls_savings := compatible_f64 (obj_get stats (lit "savings"));
     ls_tokens := compatible_u64 (obj_get stats (lit "tokens")) |}.

(** Members that are objects, coerced and collected. *)
Definition coerce_map {A} (f : list (str * value) -> A) (v : option value) : btree A :=
  match (v ← v; as_object v) with
  | Some values => bt_of_list (omap (fun '(name, v) => m ← as_object v; Some (name, f m)) values)
  | None => []
  end.

Definition coerce_stat_map (v : option value) : btree LedgerStats := coerce_map coerce_stats v.

Definition coerce_workspace (stats : list (str * value)) : WorkspaceBucket :=
  {| wb_stats := coerce_stats stats;
     wb_estimated_n := compatible_u64 (obj_get stats (lit "estimated_n"));
     wb_by_route := coerce_stat_map (obj_get stats (lit "by_route")) |}.

Definition coerce_workspace_map (v : option value) : btree WorkspaceBucket := coerce_map coerce_workspace v.

Definition coerce_bucket (raw : list (str * value)) : DayBucket :=
  {| db_stats := coerce_stats raw;
     db_estimated_n := compatible_u64 (obj_get raw (lit "estimated_n"));
     db_by_route := coerce_stat_map (obj_get raw (lit "by_route"));
     db_by_key := coerce_stat_map (obj_get raw (lit "by_key"));
     db_by_workspace := coerce_workspace_map (obj_get raw (lit "by_workspace")) |}.

Definition parse_days (v : option value) : btree DayBucket :=
  match (v ← v; as_object v) with
  | Some ds =>
      foldl (fun parsed '(date, raw) =>
               if is_ok (UtcDate_parse date) then
                 match as_object raw with
                 | Some bucket => bt_insert parsed date (coerce_bucket bucket)
                 | None => parsed
                 end
               else parsed) [] ds
  | None => []
  end.

Definition from_value (v : value) : result SavingsLedger LedgerError :=
  let? root := ok_or (as_object v) (InvalidDate (Msg "ledger root must be a JSON object" [])) in
  let max_days := default 400 (v ← obj_get root (lit "max_days"); as_u64 v) in
  let priced := default true (v ← obj_get root (lit "priced"); as_bool v) in
  Ok {| max_days := max_days; priced := priced;
        days := trim_days max_days (parse_days (obj_get root (lit "days"))) |}.
End Persistence.

(** ** Invariant *)
Record wf_workspace (w : WorkspaceBucket) : Prop := {
  ww_routes : bt_sorted (wb_by_route w);
}.

Record wf_day (d : DayBucket) : Prop := {
  wd_routes : bt_sorted (db_by_route d);
  wd_keys : bt_sorted (db_by_key d);
  wd_workspaces : bt_sorted (db_by_workspace d);
  wd_workspace : Forall (fun kv => wf_workspace (snd kv)) (db_by_workspace d);
}.

Record wf_ledger (l : SavingsLedger) : Prop := {
  wl_sorted : bt_sorted (days l);
  wl_bounded : len (days l) <= max_days l;
  wl_dates : Forall (fun kv => is_ok (UtcDate_parse (fst kv)) = true) (days l);
  wl_days : Forall (fun kv => wf_day (snd kv)) (days l);
}.

Lemma trim_days_drop max d : 0 <= max -> trim_days max d = drop (length d - Z.to_nat max) d.
Proof.
  intros Hmax. induction d as [|x d IH]; [done|]. cbn [trim_days].
  destruct (Z.ltb_spec max (len (x :: d))) as [Hlt|Hge].
  - rewrite IH. replace (length (x :: d) - Z.to_nat max)%nat with (S (length d - Z.to_nat max)); [done|].
    unfold len in Hlt. simpl in *. lia.
  - replace (length (x :: d) - Z.to_nat max)%nat with 0%nat; [done|]. unfold len in Hge. simpl in *. lia.
Qed.

Lemma trim_days_len max d : 0 <= max -> len (trim_days max d) <= max.
Proof. intros. rewrite trim_days_drop by done. unfold len. rewrite length_drop. lia. Qed.

Lemma bt_sorted_drop {V} n (m : btree V) : bt_sorted m -> bt_sorted (drop n m).
Proof.
  intros Hs. revert n. induction Hs as [|k v m Hlt Hs IH]; intros [|n]; simpl; try constructor; auto.
Qed.

Lemma trim_days_sorted max d : 0 <= max -> bt_sorted d -> bt_sorted (trim_days max d).
Proof. intros. rewrite trim_days_drop by done. by apply bt_sorted_drop. Qed.

Lemma trim_days_Forall max (P : str * DayBucket -> Prop) d : 0 <= max -> Forall P d -> Forall P (trim_days max d).
Proof. intros. rewrite trim_days_drop by done. by apply Forall_drop. Qed.

Lemma wf_default_day : wf_day default_day.
Proof. by split; try constructor. Qed.

Lemma bt_get_Forall {V} (P : str * V -> Prop) (m : btree V) k v : Forall P m -> bt_get m k = Some v -> P (k, v).
Proof. rewrite Forall_forall. intros HP Hg%bt_get_elem. auto. Qed.

Lemma wf_day_record cost key workspace d : wf_day d -> wf_day (day_record cost key workspace d).
Proof.
  intros [Hr Hk Hw Hwd]. split; cbn [day_record db_by_route db_by_key db_by_workspace].
  - by apply bt_update_sorted.
  - destruct key; [by apply bt_update_sorted|done].
  - destruct workspace; [by apply bt_update_sorted|done].
  - destruct workspace as [w|]; [|done]. unfold bt_update. apply bt_insert_Forall; [|done]. simpl. split. simpl.
    apply bt_update_sorted. destruct (bt_get (db_by_workspace d) w) as [b|] eqn:E; [|constructor].
    by apply (bt_get_Forall _ _ _ _ Hwd) in E as [?].
Qed.

Lemma wf_record l cost when key workspace :
  0 <= max_days l -> valid_date when -> wf_ledger l -> wf_ledger (record_attributed l cost when key workspace).
Proof.
  intros Hmax Hwhen [Hs Hb Hd Hdays]. split; cbn [record_attributed days max_days].
  - by apply trim_days_sorted, bt_update_sorted.
  - by apply trim_days_len.
  - apply trim_days_Forall; [done|]. apply bt_insert_Forall; [|done]. simpl.
    by rewrite (parse_to_string when Hwhen).
  - apply trim_days_Forall; [done|]. apply bt_insert_Forall; [|done]. simpl. apply wf_day_record.
    destruct (bt_get (days l) (to_string when)) as [b|] eqn:E; [|apply wf_default_day].
    by apply (bt_get_Forall _ _ _ _ Hdays) in E.
Qed.

(** ** Round trip through JSON *)
Record stats_ok (s : LedgerStats) : Prop := {
  so_n : is_u64 (ls_n s);
  so_tokens : is_u64 (ls_tokens s);
  so_money : f64_is_finite (ls_realized s) = true /\ f64_is_finite (ls_baseline s) = true /\
             f64_is_finite (ls_savings s) = true;
}.

Definition stat_map_ok (m : btree LedgerStats) : Prop := bt_sorted m /\ Forall (fun kv => stats_ok (snd kv)) m.

Record workspace_ok (w : WorkspaceBucket) : Prop := {
  wo_stats : stats_ok (wb_stats w);
  wo_estimated : is_u64 (wb_estimated_n w);
  wo_routes : stat_map_ok (wb_by_route w);
}.

Record day_ok (d : DayBucket) : Prop := {
  do_stats : stats_ok (db_stats d);
  do_estimated : is_u64 (db_estimated_n d);
  do_routes : stat_map_ok (db_by_route d);
  do_keys : stat_map_ok (db_by_key d);
  do_workspaces : bt_sorted (db_by_workspace d) /\ Forall (fun kv => workspace_ok (snd kv)) (db_by_workspace d);
}.

(** A ledger whose counters fit their types and whose amounts are finite. *)
Record persistable (l : SavingsLedger) : Prop := {
  pe_wf : wf_ledger l;
  pe_max : is_u64 (max_days l);
  pe_days : Forall (fun kv => day_ok (snd kv)) (days l);
}.

Section RoundTrip.
Context {number : Type} `{Hnum : JsonNumber number, Hbuild : JsonBuild number, !JsonBuildLaws number}.

Lemma compatible_u64_value n : is_u64 n -> compatible_u64 (Some (u64_value n)) = n.
Proof. intros. unfold compatible_u64, u64_value. cbn [mbind option_bind as_u64]. by rewrite as_u64_of_u64. Qed.

Lemma compatible_f64_value x : f64_is_finite x = true -> compatible_f64 (Some (f64_value x)) = x.
Proof.
  intros Hx. unfold compatible_f64, f64_value. rewrite Hx. cbn [mbind option_bind as_f64].
  by rewrite as_f64_of_f64, Hx.
Qed.

Lemma coerce_stats_members s rest : stats_ok s -> coerce_stats (stats_members s ++ rest) = s.
Proof.
  intros [Hn Ht (Hr & Hb & Hs)]. unfold coerce_stats.
  change (obj_get (stats_members s ++ rest) (lit "n")) with (Some (u64_value (ls_n s))).
  change (obj_get (stats_members s ++ rest) (lit "realized")) with (Some (f64_value (ls_realized s))).
  change (obj_get (stats_members s ++ rest) (lit "baseline")) with (Some (f64_value (ls_baseline s))).
  change (obj_get (stats_members s ++ rest) (lit "savings")) with (Some (f64_value (ls_savings s))).
  change (obj_get (stats_members s ++ rest) (lit "tokens")) with (Some (u64_value (ls_tokens s))).
  rewrite !compatible_u64_value, !compatible_f64_value by done. by destruct s.
Qed.

Lemma coerce_map_value {A} (f : A -> Value number) (c : list (str * Value number) -> A) (m : btree A) :
  bt_sorted m -> Forall (fun kv => exists g, as_object (f (snd kv)) = Some g /\ c g = snd kv) m ->
  coerce_map c (Some (map_value f m)) = m.
Proof.
  intros Hs Hm. unfold coerce_map, map_value. cbn [mbind option_bind as_object].
  assert (omap (fun '(name, v) => g ← as_object v; Some (name, c g)) (map (fun '(k, a) => (k, f a)) m) = m) as ->.
  { clear Hs. induction Hm as [|[k a] m (g & Hg & Hc) _ IH]; [done|]. simpl in Hg, Hc.
    cbn [map omap list_omap]. rewrite Hg. cbn [mbind option_bind]. rewrite Hc. f_equal. exact IH. }
  by apply bt_of_list_id.
Qed.

Lemma coerce_stat_map_value m : stat_map_ok m -> coerce_stat_map (Some (map_value stats_value m)) = m.
Proof.
  intros [Hs Hm]. apply coerce_map_value; [done|]. eapply Forall_impl; [exact Hm|].
  intros [k s] Hok. exists (stats_members s). split; [done|]. simpl.
  rewrite <- (app_nil_r (stats_members s)). by apply coerce_stats_members.
Qed.

Lemma coerce_workspace_value w :
  workspace_ok w -> exists g, as_object (workspace_value w) = Some g /\ coerce_workspace g = w.
Proof.
  intros [Hs He Hr]. eexists. split; [reflexivity|]. unfold coerce_workspace.
  rewrite coerce_stats_members by done.
  match goal with |- context [obj_get ?g (lit "estimated_n")] =>
    change (obj_get g (lit "estimated_n")) with (Some (u64_value (wb_estimated_n w)));
    change (obj_get g (lit "by_route")) with (Some (map_value stats_value (wb_by_route w))) end.
  rewrite compatible_u64_value, coerce_stat_map_value by done. by destruct w.
Qed.

Lemma coerce_bucket_value d :
  day_ok d -> exists g, as_object (day_value d) = Some g /\ coerce_bucket g = d.
Proof.
  intros [Hs He Hr Hk [Hws Hw]]. eexists. split; [reflexivity|]. unfold coerce_bucket.
  rewrite coerce_stats_members by done.
  match goal with |- context [obj_get ?g (lit "estimated_n")] =>
    change (obj_get g (lit "estimated_n")) with (Some (u64_value (db_estimated_n d)));
    change (obj_get g (lit "by_route")) with (Some (map_value stats_value (db_by_route d)));
    change (obj_get g (lit "by_key")) with (Some (map_value stats_value (db_by_key d)));
    change (obj_get g (lit "by_workspace")) with (Some (map_value workspace_value (db_by_workspace d))) end.
  rewrite compatible_u64_value, !coerce_stat_map_value by done.
  unfold coerce_workspace_map. rewrite coerce_map_value; [by destruct d|done|].
  eapply Forall_impl; [exact Hw|]. intros [k w] Hok. by apply coerce_workspace_value.
Qed.

Lemma parse_days_value (m : btree DayBucket) :
  bt_sorted m -> Forall (fun kv => is_ok (UtcDate_parse (fst kv)) = true) m ->
  Forall (fun kv => day_ok (snd kv)) m -> parse_days (Some (map_value day_value m)) = m.
Proof.
  intros Hs Hd Hok. unfold parse_days, map_value. cbn [mbind option_bind as_object].
  rewrite <- (bt_of_list_id m Hs) at 2. unfold bt_of_list. clear Hs.
  generalize (@nil (str * DayBucket)). revert Hd. induction Hok as [|[k d] m Hday _ IH]; intros Hd acc; [done|].
  apply Forall_cons in Hd as [Hk Hd]. simpl in Hk, Hday. cbn [map foldl]. rewrite Hk.
  destruct (coerce_bucket_value d Hday) as (g & Hg & Hc). rewrite Hg, Hc. by apply IH.
Qed.
End RoundTrip.

(** ** Coercion of arbitrary values *)
Section Coercion.
Context {number : Type} `{JsonNumber number}.

Lemma coerce_map_sorted {A} (f : list (str * Value number) -> A) v : bt_sorted (coerce_map f v).
Proof. unfold coerce_map. destruct (v ≫= _); [apply bt_of_list_sorted|constructor]. Qed.

Lemma coerce_map_Forall {A} (f : list (str * Value number) -> A) (P : A -> Prop) v :
  (forall g, P (f g)) -> Forall (fun kv => P (snd kv)) (coerce_map f v).
Proof.
  intros HP. unfold coerce_map. destruct (v ≫= _) as [values|]; [|constructor]. unfold bt_of_list.
  assert (Hacc : Forall (fun kv => P (snd kv)) (@nil (str * A))) by constructor. revert Hacc.
  generalize (@nil (str * A)). induction values as [|[k x] values IH]; intros acc Hacc; [done|].
  cbn [omap list_omap]. destruct (as_object x) as [g|]; cbn [mbind option_bind foldl]; [|by apply IH].
  apply IH. apply bt_insert_Forall; [apply HP|done].
Qed.

Lemma wf_coerce_bucket g : wf_day (coerce_bucket g).
Proof.
  split; try apply coerce_map_sorted. apply coerce_map_Forall. intros w. split. apply coerce_map_sorted.
Qed.

Lemma parse_days_wf v :
  bt_sorted (parse_days v) /\ Forall (fun kv => is_ok (UtcDate_parse (fst kv)) = true) (parse_days v) /\
  Forall (fun kv => wf_day (snd kv)) (parse_days v).
Proof.
  unfold parse_days. destruct (v ≫= _) as [ds|]; [|split_and!; constructor].
  assert (Hacc : bt_sorted (@nil (str * DayBucket)) /\
    Forall (fun kv => is_ok (UtcDate_parse (fst kv)) = true) (@nil (str * DayBucket)) /\
    Forall (fun kv => wf_day (snd kv)) (@nil (str * DayBucket))) by (split_and!; constructor).
  revert Hacc. generalize (@nil (str * DayBucket)). induction ds as [|[date raw] ds IH]; intros acc Hacc; [done|].
  cbn [foldl]. apply IH. destruct (is_ok (UtcDate_parse date)) eqn:Hd; [|done].
  destruct (as_object raw) as [g|]; [|done]. destruct Hacc as (? & ? & ?).
  split_and!; [by apply bt_insert_sorted|by apply bt_insert_Forall|].
  apply bt_insert_Forall; [apply wf_coerce_bucket|done].
Qed.
End Coercion.

(** ** Sums and windows *)

Definition sum_over (f : DayBucket -> Z) (l : btree DayBucket) : Z := foldr (fun kv n => f (snd kv) + n) 0 l.

Definition in_window (cutoff : option Z) (l : btree DayBucket) : btree DayBucket :=
  List.filter (fun kv => included cutoff (fst kv)) l.

Lemma sat_add_sat a b : 0 <= a -> 0 <= b -> u64_sat_add (Z.min a u64_max) b = Z.min (a + b) u64_max.
Proof. u64. Qed.

Lemma period_bucket_fold cutoff (l : btree DayBucket) acc n t e :
  Forall (fun kv => is_u64 (ls_n (db_stats (snd kv))) /\ is_u64 (ls_tokens (db_stats (snd kv))) /\
                    is_u64 (db_estimated_n (snd kv))) l ->
  0 <= n -> 0 <= t -> 0 <= e ->
  ls_n (db_stats acc) = Z.min n u64_max -> ls_tokens (db_stats acc) = Z.min t u64_max ->
  db_estimated_n acc = Z.min e u64_max ->
  let r := foldl (fun aggregate '(date, bucket) =>
                    if included cutoff date then day_add_bucket aggregate bucket else aggregate) acc l in
  ls_n (db_stats r) = Z.min (n + sum_over (fun b => ls_n (db_stats b)) (in_window cutoff l)) u64_max /\
  ls_tokens (db_stats r) = Z.min (t + sum_over (fun b => ls_tokens (db_stats b)) (in_window cutoff l)) u64_max /\
  db_estimated_n r = Z.min (e + sum_over db_estimated_n (in_window cutoff l)) u64_max.
Proof.
  intros Hl. revert acc n t e. induction Hl as [|[date b] l (Hn & Ht & He) _ IH]; intros acc n t e ? ? ? En Et Ee.
  - simpl. by rewrite !Z.add_0_r.
  - cbn [foldl in_window List.filter fst]. simpl in Hn, Ht, He. destruct (included cutoff date).
    + destruct Hn, Ht, He.
      destruct (IH (day_add_bucket acc b) (n + ls_n (db_stats b)) (t + ls_tokens (db_stats b)) (e + db_estimated_n b))
        as (-> & -> & ->); try lia; try (simpl; rewrite ?En, ?Et, ?Ee; apply sat_add_sat; lia).
      cbn [sum_over foldr snd]. fold (in_window cutoff l).
      unfold sum_over. rewrite !Z.add_assoc. done.
    + by apply IH.
Qed.

(** Changing a bucket without changing what [f] reads of it. *)
Lemma map_insert_same {V W} (f : V -> W) (m : btree V) k v v0 :
  bt_sorted m -> bt_get m k = Some v0 -> f v = f v0 ->
  map (fun kv => (fst kv, f (snd kv))) (bt_insert m k v) = map (fun kv => (fst kv, f (snd kv))) m.
Proof.
  intros Hs Hg Hf. induction Hs as [|k' v' m Hlt Hs IH]; [done|]. simpl in Hg |- *.
  destruct (str_eqb k k') eqn:E.
  - apply str_eqb_eq in E as ->. injection Hg as ->. rewrite str_cmp_refl. simpl. by rewrite Hf.
  - apply str_eqb_neq in E. destruct (str_cmp k k') eqn:Hc.
    + by apply str_cmp_eq in Hc.
    + exfalso. assert (str_lt k k') as Hkk by exact Hc. rewrite bt_get_None in Hg; [done|].
      eapply Forall_impl; [exact Hlt|]. intros [? ?] ?. by eapply str_lt_trans.
    + simpl. by rewrite IH.
Qed.

Lemma filter_map_fst {V W} (p : str -> bool) (f : V -> W) (a b : btree V) :
  map (fun kv => (fst kv, f (snd kv))) a = map (fun kv => (fst kv, f (snd kv))) b ->
  map (fun kv => f (snd kv)) (List.filter (fun kv => p (fst kv)) a) =
  map (fun kv => f (snd kv)) (List.filter (fun kv => p (fst kv)) b).
Proof.
  revert b. induction a as [|[k v] a IH]; intros [|[k' v'] b]; simpl; try done.
  intros [= -> Hv Hr]. destruct (p k'); simpl; rewrite ?Hv; by rewrite (IH b).
Qed.

Lemma trim_days_id max d : 0 <= max -> len d <= max -> trim_days max d = d.
Proof. intros Hm Hl. destruct d as [|x d]; [done|]. cbn [trim_days]. by replace (max <? len (x :: d)) with false by lia. Qed.

(** ** Turn costs *)

Lemma first_bad_none {A} (bad : A -> bool) (l : list (str * A)) :
  first_bad bad l = None <-> Forall (fun kv => bad (snd kv) = false) l.
Proof.
  unfold first_bad. induction l as [|[k v] l IH]; simpl; [split; [constructor|done]|]. rewrite Forall_cons. simpl.
  destruct (bad v); simpl; [naive_solver|]. rewrite IH. naive_solver.
Qed.

Lemma f64_max_ge a b :
  f64_is_nan a = false -> f64_is_nan b = false ->
  f64_is_nan (f64_max a b) = false /\ f64_le a (f64_max a b) = true /\ f64_le b (f64_max a b) = true.
Proof.
  intros Ha Hb. unfold f64_max. rewrite Ha, Hb. destruct (f64_le b a) eqn:E.
  - split_and!; [done|by apply f64_not_nan_le_refl|done].
  - split_and!; [done|by apply f64_lt_le, f64_not_le_gt|by apply f64_not_nan_le_refl].
Qed.

Lemma dearest_fold (l : list (str * f64)) d :
  f64_is_nan d = false -> Forall (fun kv => f64_is_nan (snd kv) = false) l ->
  let r := foldl (fun d kv => f64_max d (snd kv)) d l in
  f64_le d r = true /\ (forall k v, (k, v) ∈ l -> f64_le v r = true) /\ (r = d \/ exists k, (k, r) ∈ l).
Proof.
  intros Hd Hl. revert d Hd. induction Hl as [|[k v] l Hv _ IH]; intros d Hd; cbn [foldl].
  - split_and!; [by apply f64_not_nan_le_refl|intros k v Hin; by apply elem_of_nil in Hin|by left].
  - simpl in Hv. destruct (f64_max_ge d v Hd Hv) as (Hm & Hdm & Hvm).
    destruct (IH (f64_max d v) Hm) as (H1 & H2 & H3). cbn [snd]. split_and!.
    + by eapply f64_le_trans.
    + intros k' v' [[= -> ->]|Hin]%elem_of_cons; [by eapply f64_le_trans|eauto].
    + destruct H3 as [->|[k' Hin]]; [|right; exists k'; by right].
      unfold f64_max. rewrite Hd, Hv. destruct (f64_le v d); [by left|right; exists k; by left].
Qed.

(** ** Properties *)

(** The ledger is always well formed: a new one is, recording a turn on a
    valid date keeps it so, and so is whatever is loaded from any JSON value:
    days sorted and at most [max_days] of them, every key a calendar date,
    and sorted attributions in every bucket. *)
Theorem ledger_well_formed {number} `{JsonBuildLaws number} :
  (forall max p, 0 <= max -> wf_ledger (SavingsLedger_new max p)) /\
  (forall l cost when key workspace, 0 <= max_days l -> valid_date when -> wf_ledger l ->
     wf_ledger (record_attributed l cost when key workspace)) /\
  (forall (v : Value number) l, from_value v = Ok l -> wf_ledger l).
Proof.
  split_and!.
  - intros max p Hmax. split; simpl; try constructor. done.
  - intros. by apply wf_record.
  - intros v l Hl. unfold from_value in Hl. apply result_bind_ok in Hl as (root & _ & Hl).
    apply (f_equal (fun r => match r with Ok x => x | Err _ => l end)) in Hl. cbv beta iota in Hl. rewrite <- Hl.
    set (max := default 400 _).
    assert (0 <= max).
    { subst max. destruct (obj_get root (lit "max_days")) as [[| |n| | |]|]; try done.
      cbn [mbind option_bind as_u64]. destruct (number_as_u64 n) as [m|] eqn:E; [|done].
      by apply as_u64_range in E as [? _]. }
    destruct (parse_days_wf (obj_get root (lit "days"))) as (Hs & Hd & Hw).
    split; cbn [days max_days]; [by apply trim_days_sorted|by apply trim_days_len|..];
      (apply trim_days_Forall; [done|]); [exact Hd|exact Hw].
Qed.

(** Recording keeps the newest days: the day's bucket is updated (created
    when absent), every other day is untouched, and when more than [max_days]
    remain exactly the oldest surplus is dropped. *)
Theorem record_keeps_newest l cost when key workspace :
  0 <= max_days l -> wf_ledger l ->
  let date := to_string when in
  let bucket := day_record cost key workspace (default default_day (bt_get (days l) date)) in
  exists all, bt_sorted all /\
    bt_get all date = Some bucket /\
    (forall date', date' <> date -> bt_get all date' = bt_get (days l) date') /\
    days (record_attributed l cost when key workspace) = drop (length all - Z.to_nat (max_days l)) all.
Proof.
  intros Hmax [Hs _ _ _] date bucket. exists (bt_update (days l) date default_day (day_record cost key workspace)).
  split_and!.
  - by apply bt_update_sorted.
  - unfold bt_update. rewrite bt_get_insert_eq. unfold bucket. by destruct (bt_get (days l) date).
  - intros date' Hne. unfold bt_update. by rewrite bt_get_insert_ne by congruence.
  - cbn [record_attributed days]. by apply trim_days_drop.
Qed.

(** A turn is attributed to what it names and nothing else: within the
    day's bucket its counters go to its route, its virtual key and its
    workspace when given, and every other route, key and workspace keeps its
    amounts. *)
Theorem day_record_attribution cost key workspace b name :
  db_stats (day_record cost key workspace b) = add_turn (db_stats b) cost /\
  bt_get (db_by_route (day_record cost key workspace b)) name =
    (if str_eqb name (tc_route cost)
     then Some (add_turn (default default_stats (bt_get (db_by_route b) name)) cost)
     else bt_get (db_by_route b) name) /\
  bt_get (db_by_key (day_record cost key workspace b)) name =
    (if bool_decide (key = Some name)
     then Some (add_turn (default default_stats (bt_get (db_by_key b) name)) cost)
     else bt_get (db_by_key b) name) /\
  bt_get (db_by_workspace (day_record cost key workspace b)) name =
    (if bool_decide (workspace = Some name)
     then Some (workspace_add_turn (default default_workspace (bt_get (db_by_workspace b) name)) cost)
     else bt_get (db_by_workspace b) name).
Proof.
  assert (Hupd : forall V (m : btree V) k d f,
    bt_get (bt_update m k d f) name =
    if str_eqb name k then Some (f (default d (bt_get m name))) else bt_get m name).
  { intros V m k d f. unfold bt_update. destruct (str_eqb name k) eqn:E.
    - apply str_eqb_eq in E as ->. rewrite bt_get_insert_eq. by destruct (bt_get m k).
    - apply str_eqb_neq in E. by rewrite bt_get_insert_ne by congruence. }
  assert (Hdec : forall k, str_eqb name k = bool_decide (Some k = Some name)).
  { intros k. unfold str_eqb. apply bool_decide_ext. split; congruence. }
  cbn [day_record db_stats db_by_route db_by_key db_by_workspace]. unfold turn_in. split_and!.
  - done.
  - apply Hupd.
  - destruct key as [k|]; [by rewrite Hupd, Hdec|done].
  - destruct workspace as [w|]; [by rewrite Hupd, Hdec|done].
Qed.

(** A report counts its window exactly: requests, tokens and estimated
    requests are the saturating sums over the buckets inside the window, and a
    date is inside a window of [k] days ending today exactly when fewer than
    [k] days separate it from today or it lies ahead. *)
Theorem period_counts l period_days today :
  Forall (fun kv => is_u64 (ls_n (db_stats (snd kv))) /\ is_u64 (ls_tokens (db_stats (snd kv))) /\
                    is_u64 (db_estimated_n (snd kv))) (days l) ->
  let window := in_window (cutoff_of period_days today) (days l) in
  let r := period l period_days today in
  sr_requests r = Z.min (sum_over (fun b => ls_n (db_stats b)) window) u64_max /\
  sr_tokens r = Z.min (sum_over (fun b => ls_tokens (db_stats b)) window) u64_max /\
  sr_estimated_requests r = Z.min (sum_over db_estimated_n window) u64_max /\
  forall k d, 1 <= k <= 4294967295 -> valid_date d -> valid_date today ->
    included (cutoff_of (Some k) today) (to_string d) = (ordinal today - ordinal d <? k).
Proof.
  intros Hl window r.
  destruct (period_bucket_fold (cutoff_of period_days today) (days l) default_day 0 0 0 Hl)
    as (Hn & Ht & He); try done.
  split_and!; try done.
  intros k d Hk Hd Htoday. unfold included, cutoff_of. cbn [fmap option_fmap option_map].
  rewrite parse_to_string by done.
  assert (Hord : forall d, valid_date d -> -1000000 <= ordinal d <= 5000000).
  { intros x Hx. pose proof (march_day_bound x Hx). rewrite ordinal_days_before by done.
    fold (march_year x). unfold march_day in *. destruct Hx as [Hy _ _].
    assert (0 <= march_year x <= 9999) by (unfold march_year; destruct (month x <=? 2); lia).
    rewrite days_before_step in *. assert (-1 <= days_before (march_year x) <= 4000000).
    { unfold days_before. Z.to_euclidean_division_equations. lia. }
    destruct (leap _); lia. }
  pose proof (Hord d Hd). pose proof (Hord today Htoday).
  unfold i64_sat_sub, i64_min, i64_max. lia.
Qed.

(** Workspace spend is invisible to [spent]: a turn attributed to a
    workspace (and to no virtual key of that name) changes no amount [spent]
    reports for that name, in any window.  The budget check of a workspace
    reads exactly that amount. *)
Theorem workspace_spend_not_in_spent l cost when key workspace window today :
  wf_ledger l -> bt_contains (days l) (to_string when) = true -> key <> Some workspace ->
  spent (record_attributed l cost when key (Some workspace)) window (Some workspace) today =
  spent l window (Some workspace) today.
Proof.
  intros [Hs Hb _ _] Hin Hkey. unfold bt_contains in Hin.
  destruct (bt_get (days l) (to_string when)) as [b|] eqn:Hg; [|done].
  set (b' := day_record cost key (Some workspace) b).
  assert (Hdays : days (record_attributed l cost when key (Some workspace)) =
                  bt_insert (days l) (to_string when) b').
  { cbn [record_attributed days]. unfold bt_update. rewrite Hg. apply trim_days_id; [pose proof (len_nonneg (days l)); lia|].
    unfold len in *. rewrite bt_insert_length by done. unfold bt_contains. by rewrite Hg. }
  assert (Hspent : bucket_spent (Some workspace) b' = bucket_spent (Some workspace) b).
  { unfold bucket_spent. cbn [b' day_record db_by_key]. destruct key as [k|]; [|done].
    unfold turn_in, bt_update. rewrite bt_get_insert_ne by congruence. done. }
  pose proof (map_insert_same (bucket_spent (Some workspace)) (days l) _ b' b Hs Hg Hspent) as Hmap.
  unfold spent. rewrite Hdays. f_equal. destruct (str_eqb window (lit "day")); [|destruct (str_eqb window (lit "month"))].
  - destruct (decide (to_string when = to_string today)) as [He|Hne].
    + rewrite <- He, bt_get_insert_eq, Hg. exact Hspent.
    + by rewrite bt_get_insert_ne.
  - f_equal. apply (filter_map_fst (fun k => starts_with k (month_prefix today)) (bucket_spent (Some workspace))).
    exact Hmap.
  - f_equal. unfold bt_values. rewrite !map_map. apply (f_equal (map snd)) in Hmap. by rewrite !map_map in Hmap.
Qed.

(** Persisting loses nothing: loading the value a ledger serializes to
    gives the same ledger, for every ledger whose counters fit their types and
    whose amounts are finite. *)
Theorem ledger_round_trip {number} `{JsonBuildLaws number} l :
  persistable l -> from_value (to_value (number := number) l) = Ok l.
Proof.
  intros [[Hs Hb Hd Hw] Hmax Hok]. unfold from_value, to_value. cbn [as_object ok_or result_bind].
  match goal with |- context [obj_get ?g (lit "max_days")] =>
    change (obj_get g (lit "max_days")) with (Some (u64_value (number := number) (max_days l)));
    change (obj_get g (lit "priced")) with (Some (JBool (number := number) (priced l)));
    change (obj_get g (lit "days")) with (Some (map_value (day_value (number := number)) (days l))) end.
  cbn [mbind option_bind]. unfold u64_value. cbn [as_u64 as_bool]. rewrite as_u64_of_u64 by done. cbn [default].
  rewrite parse_days_value by done. rewrite trim_days_id by (destruct Hmax; done). by destruct l.
Qed.

(** A turn is priced by its route: prices must be valid; a route or a
    baseline outside the table is charged the dearest configured rate, which
    is at least every rate and one of them; token counts are clamped at zero. *)
Theorem turn_cost_spec {M} `{IndexMapLaws f64 M} route p c (costs : M) estimated baseline_model :
  (is_ok (turn_cost route p c costs estimated baseline_model) = true <->
   Forall (fun kv => invalid_price (snd kv) = false) (im_entries costs)) /\
  forall t, turn_cost route p c costs estimated baseline_model = Ok t ->
    tc_prompt_tokens t = Z.max p 0 /\ tc_completion_tokens t = Z.max c 0 /\
    (forall k v, (k, v) ∈ im_entries costs -> f64_le v (dearest_rate costs) = true) /\
    (dearest_rate costs = f64_zero \/ exists k, (k, dearest_rate costs) ∈ im_entries costs) /\
    let thousands := f64_div (f64_of_Z (u64_sat_add (Z.max p 0) (Z.max c 0))) (f64_of_Z 1000) in
    tc_realized t = python_round (f64_mul (default (dearest_rate costs) (ix_get (im_entries costs) route)) thousands) 6 /\
    tc_baseline t =
      python_round (f64_mul
        (match baseline_model with
         | Some model => default (dearest_rate costs) (ix_get (im_entries costs) model)
         | None => dearest_rate costs
         end) thousands) 6 /\
    tc_savings t = python_round (f64_sub (tc_baseline t) (tc_realized t)) 6.
Proof.
  unfold turn_cost. split.
  - rewrite <- first_bad_none. by destruct (first_bad _ _).
  - intros t. destruct (first_bad invalid_price (im_entries costs)) eqn:E; [done|]. intros [= <-].
    apply first_bad_none in E.
    assert (Hnan : Forall (fun kv => f64_is_nan (snd kv) = false) (im_entries costs)).
    { eapply Forall_impl; [exact E|]. intros [k v] Hv. simpl in *. unfold invalid_price in Hv. by destruct v. }
    destruct (dearest_fold (im_entries costs) f64_zero eq_refl Hnan) as (_ & Hge & Hin).
    cbn [tc_prompt_tokens tc_completion_tokens tc_realized tc_baseline tc_savings].
    rewrite <- !im_get_spec. split_and!; try done.
    destruct baseline_model as [m|]; [|done]. cbn [mbind option_bind]. by rewrite <- im_get_spec.
Qed.

(** ** Closed examples *)
Definition sample_turn : TurnCost :=
  {| tc_route := lit "cloud"; tc_realized := f64_dec 2 1; tc_baseline := f64_dec 3 1; tc_savings := f64_dec 1 1;
     tc_prompt_tokens := 100; tc_completion_tokens := 20; tc_estimated := false |}.

Definition sample_ledger : SavingsLedger :=
  record_attributed (SavingsLedger_new 30 true) sample_turn leap_day (Some (lit "key-1")) (Some (lit "team")).

Lemma sample_ledger_wf : wf_ledger sample_ledger.
Proof. apply wf_record; [done|apply leap_day_valid|]. split; simpl; try constructor. done. Qed.

Lemma ledger_well_formed_witness :
  wf_ledger (record_attributed sample_ledger sample_turn leap_day None None) /\
  forall l, from_value (JObject [(lit "max_days", JNumber (PlainInt 3))]) = Ok l -> wf_ledger l.
Proof.
  destruct (ledger_well_formed (number := plain_number)) as (_ & Hrec & Hfrom). split.
  - apply Hrec; [vm_compute; discriminate|apply leap_day_valid|apply sample_ledger_wf].
  - intros l Hl. by apply (Hfrom (JObject [(lit "max_days", JNumber (PlainInt 3))])).
Defined.

Lemma record_keeps_newest_witness :
  exists all, bt_sorted all /\
    days (record_attributed sample_ledger sample_turn leap_day None None) =
    drop (length all - Z.to_nat (max_days sample_ledger)) all.
Proof.
  destruct (record_keeps_newest sample_ledger sample_turn leap_day None None) as (all & H1 & _ & _ & H2);
    [vm_compute; discriminate|apply sample_ledger_wf|]. by exists all.
Defined.

Lemma period_counts_witness : sr_requests (period sample_ledger (Some 7) leap_day) = 1.
Proof.
  destruct (period_counts sample_ledger (Some 7) leap_day) as (H & _).
  - apply Forall_forall. intros [k b] Hin. vm_compute in Hin.
    apply list_elem_of_singleton in Hin. injection Hin as -> ->. simpl. unfold is_u64, u64_max. lia.
  - rewrite H. vm_compute. reflexivity.
Defined.

Lemma workspace_spend_not_in_spent_witness :
  spent (record_attributed sample_ledger sample_turn leap_day (Some (lit "key-1")) (Some (lit "team")))
    (lit "month") (Some (lit "team")) leap_day =
  spent sample_ledger (lit "month") (Some (lit "team")) leap_day.
Proof.
  apply workspace_spend_not_in_spent; [apply sample_ledger_wf|vm_compute; reflexivity|discriminate].
Defined.

Lemma sample_ledger_persistable : persistable sample_ledger.
Proof.
  split; [apply sample_ledger_wf|unfold is_u64, u64_max; simpl; lia|].
  assert (Hs : forall s, (0 <=? ls_n s) && (ls_n s <=? u64_max) && (0 <=? ls_tokens s) && (ls_tokens s <=? u64_max)
      && f64_is_finite (ls_realized s) && f64_is_finite (ls_baseline s) && f64_is_finite (ls_savings s) = true ->
      stats_ok s).
  { intros s H. zify_bools. by repeat split; try lia. }
  unfold sample_ledger. apply Forall_forall. intros [k b] Hin. vm_compute in Hin.
  apply list_elem_of_singleton in Hin. injection Hin as -> ->. cbn [snd].
  split; cbn [db_stats db_estimated_n db_by_route db_by_key db_by_workspace];
    try (apply Hs; vm_compute; reflexivity); try (unfold is_u64, u64_max; lia).
  - split; [repeat constructor|]. apply Forall_singleton. apply Hs. vm_compute. reflexivity.
  - split; [repeat constructor|]. apply Forall_singleton. apply Hs. vm_compute. reflexivity.
  - split; [repeat constructor|]. apply Forall_singleton. split; cbn [snd wb_stats wb_estimated_n wb_by_route].
    + apply Hs. vm_compute. reflexivity.
    + unfold is_u64, u64_max; lia.
    + split; [repeat constructor|]. apply Forall_singleton. apply Hs. vm_compute. reflexivity.
Qed.

Lemma ledger_round_trip_witness : from_value (to_value (number := plain_number) sample_ledger) = Ok sample_ledger.
Proof. apply ledger_round_trip, sample_ledger_persistable. Defined.

Lemma turn_cost_spec_witness :
  forall t, turn_cost (lit "unknown") 10 (-5) [(lit "local", f64_dec 1 1); (lit "cloud", f64_dec 9 1)] false None = Ok t ->
  tc_completion_tokens t = 0 /\ tc_realized t = tc_baseline t.
Proof.
  intros t Ht. apply turn_cost_spec in Ht as (_ & Hc & _ & _ & Hr & Hb & _). split; [exact Hc|].
  rewrite Hr, Hb. reflexivity.
Defined.
