(* ===== verification/Models.v ===== *)
(** * Configured models and their deployments (crate [wayfinder-gateway], [src/lib.rs])

    The secret-free view of a configured model the gateway routes with, and the
    weighted rotation over the deployments behind one alias. *)
From S2P Require Export GatewayConfig.

(** ** Data *)
Record ConfiguredDeployment := {
  d_id : str;
  d_endpoint : str;
  d_provider_model : str;
  d_api_key_env : option str;
  d_key_ready : bool;
  d_weight : Z;
  d_cost_per_1k : option f64;
}.

Record ConfiguredModel := {
  m_name : str;
  m_endpoint : str;
  m_provider_model : str;
  m_provider : ProviderKind;
  m_tier : option ProviderTier;
  m_api_key_env : option str;
  m_key_ready : bool;
  m_base_key_ready : bool;
  m_cost_per_1k : option f64;
  m_fallbacks : list str;
  m_context_window : option Z;
  m_deployments : list ConfiguredDeployment;
  m_deployment_selection : DeploymentSelectionPolicy;
  m_deployment_id : option str;
}.

(** [cost.filter(|cost| cost.is_finite() && *cost >= 0.0)]. *)
Definition finite_cost (cost : option f64) : option f64 :=
  match cost with
  | Some c => if f64_is_finite c && f64_ge c f64_zero then Some c else None
  | None => None
  end.

Definition ConfiguredDeployment_new (id endpoint provider_model : str) (api_key_env : option str) (key_ready : bool)
    (weight : Z) : ConfiguredDeployment :=
  {| d_id := id; d_endpoint := endpoint; d_provider_model := provider_model; d_api_key_env := api_key_env;
     d_key_ready := match api_key_env with None => true | Some _ => key_ready end;
     d_weight := Z.max weight 1; d_cost_per_1k := None |}.

Definition deployment_with_cost (d : ConfiguredDeployment) (cost : option f64) : ConfiguredDeployment :=
  {| d_id := d_id d; d_endpoint := d_endpoint d; d_provider_model := d_provider_model d;
     d_api_key_env := d_api_key_env d; d_key_ready := d_key_ready d; d_weight := d_weight d;
     d_cost_per_1k := finite_cost cost |}.

Definition ConfiguredModel_new (name endpoint provider_model : str) (api_key_env : option str) (key_ready : bool)
    : ConfiguredModel :=
  let base_key_ready := match api_key_env with None => true | Some _ => key_ready end in
  {| m_name := name; m_endpoint := endpoint; m_provider_model := provider_model; m_provider := OpenAiCompatible;
     m_tier := None; m_api_key_env := api_key_env; m_key_ready := base_key_ready; m_base_key_ready := base_key_ready;
     m_cost_per_1k := None; m_fallbacks := []; m_context_window := None; m_deployments := [];
     m_deployment_selection := default_selection; m_deployment_id := None |}.

(** [ConfiguredModel::from_gateway_model], the builder calls written out. *)
Definition from_gateway_model (name : str) (model : GatewayModel) (key_ready : bool) : ConfiguredModel :=
  let base := ConfiguredModel_new name (default [] (gm_base_url model)) (gm_model model) (gm_api_key_env model) key_ready in
  {| m_name := m_name base; m_endpoint := m_endpoint base; m_provider_model := m_provider_model base;
     m_provider := gm_provider model; m_tier := gm_tier model; m_api_key_env := m_api_key_env base;
     m_key_ready := m_key_ready base; m_base_key_ready := m_base_key_ready base;
     m_cost_per_1k := finite_cost (gm_cost_per_1k model); m_fallbacks := gm_fallbacks model;
     m_context_window := gm_context_window model; m_deployments := m_deployments base;
     m_deployment_selection := gm_deployment_selection model; m_deployment_id := m_deployment_id base |}.

Definition with_deployments (m : ConfiguredModel) (deployments : list ConfiguredDeployment) : ConfiguredModel :=
  {| m_name := m_name m; m_endpoint := m_endpoint m; m_provider_model := m_provider_model m;
     m_provider := m_provider m; m_tier := m_tier m; m_api_key_env := m_api_key_env m;
     m_key_ready := m_key_ready m || existsb d_key_ready deployments; m_base_key_ready := m_base_key_ready m;
     m_cost_per_1k := m_cost_per_1k m; m_fallbacks := m_fallbacks m; m_context_window := m_context_window m;
     m_deployments := deployments; m_deployment_selection := m_deployment_selection m;
     m_deployment_id := m_deployment_id m |}.

Definition for_deployment (m : ConfiguredModel) (d : ConfiguredDeployment) : ConfiguredModel :=
  {| m_name := m_name m; m_endpoint := d_endpoint d; m_provider_model := d_provider_model d;
     m_provider := m_provider m; m_tier := m_tier m; m_api_key_env := d_api_key_env d;
     m_key_ready := d_key_ready d; m_base_key_ready := m_base_key_ready m;
     m_cost_per_1k := match d_cost_per_1k d with Some c => Some c | None => m_cost_per_1k m end;
     m_fallbacks := m_fallbacks m; m_context_window := m_context_window m; m_deployments := [];
     m_deployment_selection := m_deployment_selection m; m_deployment_id := Some (d_id d) |}.

Definition deployment_targets (m : ConfiguredModel) : list ConfiguredDeployment :=
  ConfiguredDeployment_new (lit "default") (m_endpoint m) (m_provider_model m) (m_api_key_env m) (m_base_key_ready m) 1
  :: m_deployments m.

(** [format!("{}#{deployment}", self.name)] for a pool member. *)
Definition delivery_id (m : ConfiguredModel) : str :=
  match m_deployment_id m with
  | None => m_name m
  | Some deployment => m_name m ++ 35 :: deployment
  end.

(** ** Rotation *)
Section Rotation.
(** The configured models of the state, in order. *)
Context (models : list ConfiguredModel).

(** [AppState::deployment_cursors]: how often each alias was asked for. *)
Notation cursors := (btree Z).

Definition find_model (alias : str) : option ConfiguredModel :=
  List.find (fun model => str_eqb (m_name model) alias) models.

(** [targets.iter().map(|target| target.weight).sum()]. *)
Definition total_weight (targets : list ConfiguredDeployment) : Z := foldr (fun d total => d_weight d + total) 0 targets.

(** The index of the target whose share of the weights holds [remaining]. *)
Fixpoint start_index (index : nat) (remaining : Z) (targets : list ConfiguredDeployment) : nat :=
  match targets with
  | [] => 0
  | target :: targets =>
      if remaining <? d_weight target then index
      else start_index (S index) (remaining - d_weight target) targets
  end.

(** [(0..n).map(|offset| (start + offset) % n).map(|index| targets[index])]. *)
Definition rotate {A} (start : nat) (targets : list A) : list A :=
  omap (fun offset => targets !! ((start + offset) mod length targets)%nat) (seq 0 (length targets)).

Definition deployment_candidates (c : cursors) (alias : str) : list ConfiguredModel * cursors :=
  match find_model alias with
  | None => ([], c)
  | Some model =>
      let targets := deployment_targets model in
      if len targets <=? 1 then ([model], c)
      else
        let cursor := default 0 (bt_get c alias) in
        let slot := cursor mod total_weight targets in
        let start := start_index 0 slot targets in
        (map (for_deployment model) (rotate start targets), bt_insert c alias (u64_sat_add cursor 1))
  end.

Definition configured_deployment_targets (alias : str) : list ConfiguredModel :=
  match find_model alias with
  | None => []
  | Some model => map (for_deployment model) (deployment_targets model)
  end.

(** ** What a rotation holds *)
Lemma rotate_spec {A} start (l : list A) : (start <= length l)%nat -> rotate start l = drop start l ++ take start l.
Proof.
  intros Hs. unfold rotate. destruct (decide (l = [])) as [->|Hne]; [by destruct start|].
  assert (0 < length l)%nat as Hpos by (destruct l; [done|simpl; lia]).
  assert (forall n, (n <= length l - start)%nat ->
    omap (fun offset => l !! ((start + offset) mod length l)%nat) (seq 0 n) = take n (drop start l)) as H1.
  { induction n as [|n IH]; intros Hn; [done|]. rewrite seq_S, omap_app, IH by lia. cbn [omap list_omap].
    rewrite Nat.add_0_l, Nat.mod_small by lia.
    destruct (l !! (start + n)%nat) as [x|] eqn:Hx; [|apply lookup_ge_None in Hx; lia].
    rewrite (take_S_r _ n x); [done|]. by rewrite lookup_drop. }
  assert (forall n, (n <= start)%nat ->
    omap (fun offset => l !! ((start + offset) mod length l)%nat) (seq (length l - start) n) = take n l) as H2.
  { induction n as [|n IH]; intros Hn; [done|]. rewrite seq_S, omap_app, IH by lia. cbn [omap list_omap].
    replace (start + (length l - start + n))%nat with (n + 1 * length l)%nat by lia.
    rewrite Nat.Div0.mod_add by lia. rewrite Nat.mod_small by lia.
    destruct (l !! n) as [x|] eqn:Hx; [|apply lookup_ge_None in Hx; lia]. by rewrite (take_S_r _ n x). }
  assert (seq 0 (length l) = seq 0 (length l - start) ++ seq (length l - start) start) as ->.
  { rewrite <-(Nat.add_0_l (length l - start)) at 2. rewrite <-seq_app. f_equal. lia. }
  rewrite omap_app, H1, H2 by lia. f_equal. by rewrite firstn_all2 by (rewrite length_drop; lia).
Qed.

Lemma rotate_perm {A} start (l : list A) : (start <= length l)%nat -> rotate start l ≡ₚ l.
Proof. intros Hs. rewrite rotate_spec by done. rewrite <-(take_drop start l) at 3. apply Permutation_app_comm. Qed.

(** ** Shares *)
Definition weighted (targets : list ConfiguredDeployment) : Prop := Forall (fun d => 1 <= d_weight d) targets.

Lemma total_weight_nonneg targets : weighted targets -> 0 <= total_weight targets.
Proof. induction 1 as [|d targets Hd _ IH]; cbn [total_weight foldr]; [done|]. fold (total_weight targets). lia. Qed.

(** The starts of one period of slots: each index as often as its weight. *)
Lemma start_indices base targets :
  weighted targets ->
  map (fun slot => start_index base slot targets) (seqZ 0 (total_weight targets)) =
  concat (imap (fun i d => repeat (base + i)%nat (Z.to_nat (d_weight d))) targets).
Proof.
  intros Hw. revert base. induction Hw as [|d targets Hd Hw IH]; intros base; [done|].
  cbn [total_weight foldr imap concat]. fold (total_weight targets). pose proof (total_weight_nonneg _ Hw) as Hnn.
  rewrite seqZ_app, map_app by lia. f_equal.
  - rewrite Nat.add_0_r. assert (forall l, Forall (fun slot => slot < d_weight d) l ->
      map (fun slot => start_index base slot (d :: targets)) l = repeat base (length l)) as Hrep.
    { induction 1 as [|slot l Hslot Hl IHl]; [done|]. cbn [map length repeat]. rewrite IHl. f_equal.
      cbn [start_index]. by rewrite (proj2 (Z.ltb_lt _ _) Hslot). }
    rewrite Hrep; [by rewrite length_seqZ|]. apply Forall_forall. intros slot Hslot%elem_of_seqZ. lia.
  - rewrite Z.add_0_l.
    assert (seqZ (d_weight d) (total_weight targets) = map (Z.add (d_weight d)) (seqZ 0 (total_weight targets))) as ->.
    { rewrite <-(Z.add_0_r (d_weight d)) at 1. by rewrite <-fmap_add_seqZ. }
    rewrite map_map. rewrite (map_ext_in _ (fun slot => start_index (S base) slot targets)).
    + rewrite IH. f_equal. apply imap_ext. intros i d' _. simpl. f_equal. lia.
    + intros slot Hslot. apply list_elem_of_In, elem_of_seqZ in Hslot. cbn [start_index].
      rewrite (proj2 (Z.ltb_ge _ _)) by lia. f_equal. lia.
Qed.

(** One period of cursors visits every slot once. *)
Lemma period_slots cursor total :
  0 < total -> map (fun k => (cursor + k) mod total) (seqZ 0 total) ≡ₚ seqZ 0 total.
Proof.
  intros Ht. apply submseteq_length_Permutation; [|by rewrite length_map].
  apply NoDup_submseteq.
  - apply NoDup_fmap_2_strong; [|apply NoDup_seqZ]. intros x y Hx%elem_of_seqZ Hy%elem_of_seqZ Heq.
    pose proof (Z.div_mod (cursor + x) total ltac:(lia)) as Dx. pose proof (Z.div_mod (cursor + y) total ltac:(lia)) as Dy.
    rewrite Heq in Dx. assert ((cursor + x) / total = (cursor + y) / total); nia.
  - intros x (k & -> & _)%list_elem_of_fmap. apply elem_of_seqZ. pose proof (Z.mod_pos_bound (cursor + k) total Ht). lia.
Qed.

(** The calls for one alias, one after the other. *)
Fixpoint calls (n : nat) (c : cursors) (alias : str) : list (list ConfiguredModel) :=
  match n with
  | O => []
  | S n => let '(candidates, c) := deployment_candidates c alias in candidates :: calls n c alias
  end.

Lemma weighted_targets m : weighted (m_deployments m) -> weighted (deployment_targets m).
Proof. intros Hw. constructor; [|done]. simpl. lia. Qed.

Lemma total_weight_pos m : weighted (m_deployments m) -> 0 < total_weight (deployment_targets m).
Proof.
  intros Hw. change (total_weight (deployment_targets m)) with (1 + total_weight (m_deployments m)).
  pose proof (total_weight_nonneg _ Hw). lia.
Qed.

Lemma candidates_of_call c alias m :
  find_model alias = Some m -> m_deployments m <> [] -> weighted (m_deployments m) ->
  let targets := deployment_targets m in
  let start := start_index 0 (default 0 (bt_get c alias) mod total_weight targets) targets in
  deployment_candidates c alias =
    (map (for_deployment m) (drop start targets ++ take start targets),
     bt_insert c alias (u64_sat_add (default 0 (bt_get c alias)) 1)) /\
  (start < length targets)%nat.
Proof.
  intros Hm Hd Hw. cbn zeta. set (targets := deployment_targets m).
  set (slot := default 0 (bt_get c alias) mod total_weight targets).
  pose proof (total_weight_pos m Hw : 0 < total_weight targets) as Hpos.
  assert (start_index 0 slot targets < length targets)%nat as Hlt.
  { assert (start_index 0 slot targets ∈ map (fun slot => start_index 0 slot targets) (seqZ 0 (total_weight targets))) as Hin.
    { apply list_elem_of_fmap. exists slot. split; [done|]. apply elem_of_seqZ.
      pose proof (Z.mod_pos_bound (default 0 (bt_get c alias)) (total_weight targets) Hpos). unfold slot. lia. }
    rewrite start_indices in Hin by by apply weighted_targets.
    rewrite list_elem_of_In, in_concat in Hin. destruct Hin as (l & Hl & Hin).
    rewrite <-list_elem_of_In in Hl. apply elem_of_lookup_imap in Hl as (i & d & -> & Hi). apply repeat_spec in Hin.
    apply lookup_lt_Some in Hi. lia. }
  split; [|done]. unfold deployment_candidates. rewrite Hm. fold targets.
  assert (len targets <=? 1 = false) as ->.
  { apply Z.leb_gt. unfold targets, deployment_targets. rewrite len_cons. destruct (m_deployments m); [done|].
    rewrite len_cons. pose proof (len_nonneg l). lia. }
  fold slot. rewrite rotate_spec by lia. done.
Qed.

Lemma calls_firsts n c alias m :
  find_model alias = Some m -> m_deployments m <> [] -> weighted (m_deployments m) ->
  0 <= default 0 (bt_get c alias) -> default 0 (bt_get c alias) + Z.of_nat n <= u64_max ->
  let targets := deployment_targets m in
  Forall (fun candidates => candidates ≡ₚ map (for_deployment m) targets) (calls n c alias) /\
  map head (calls n c alias) =
  map (fun k => for_deployment m <$> targets !! start_index 0 ((default 0 (bt_get c alias) + k) mod total_weight targets) targets)
    (seqZ 0 (Z.of_nat n)).
Proof.
  intros Hm Hd Hw. revert c. induction n as [|n IH]; intros c Hc Hn; [done|]. cbn zeta in *.
  destruct (candidates_of_call c alias m Hm Hd Hw) as [Hcall Hlt]. cbn zeta in *.
  set (targets := deployment_targets m) in *. cbn [calls]. rewrite Hcall.
  set (cur := default 0 (bt_get c alias)) in *.
  assert (default 0 (bt_get (bt_insert c alias (u64_sat_add cur 1)) alias) = cur + 1) as Hnext.
  { rewrite bt_get_insert_eq. simpl. apply u64_sat_add_exact. lia. }
  specialize (IH (bt_insert c alias (u64_sat_add cur 1))). rewrite Hnext in IH.
  destruct (IH ltac:(lia) ltac:(lia)) as [IHperm IHfirst]. split.
  - constructor; [|exact IHperm]. apply Permutation_map. rewrite Permutation_app_comm. by rewrite take_drop.
  - cbn [map]. rewrite IHfirst. rewrite Nat2Z.inj_succ, <-Z.add_1_l, seqZ_app by lia. cbn [seqZ app].
    change (seqZ 0 1) with [0]. cbn [app map]. f_equal.
    + rewrite Z.add_0_r. destruct (lookup_lt_is_Some_2 targets _ Hlt) as [d Hdk]. rewrite Hdk.
      by rewrite (drop_S _ _ _ Hdk).
    + rewrite Z.add_0_l. replace (seqZ 1 (Z.of_nat n)) with (map (Z.add 1) (seqZ 0 (Z.of_nat n))).
      * rewrite map_map. apply map_ext. intros k. by replace (cur + (1 + k)) with (cur + 1 + k) by lia.
      * change (map (Z.add 1) (seqZ 0 (Z.of_nat n))) with (Z.add 1 <$> seqZ 0 (Z.of_nat n)).
        by rewrite fmap_add_seqZ.
Qed.

(** The deployments offered for an alias, whatever the cursors. *)
Definition pool (alias : str) : list ConfiguredModel :=
  match find_model alias with
  | None => []
  | Some m => if len (deployment_targets m) <=? 1 then [m] else map (for_deployment m) (deployment_targets m)
  end.

Lemma start_index_le index remaining targets :
  (start_index index remaining targets <= index + length targets)%nat.
Proof.
  revert index remaining. induction targets as [|d targets IH]; intros index remaining; cbn [start_index length]; [lia|].
  destruct (remaining <? d_weight d); [lia|]. specialize (IH (S index) (remaining - d_weight d)). lia.
Qed.

Lemma candidates_perm c alias : (deployment_candidates c alias).1 ≡ₚ pool alias.
Proof.
  unfold deployment_candidates, pool. destruct (find_model alias) as [m|]; [|done].
  destruct (len (deployment_targets m) <=? 1); [done|]. cbn [fst]. apply Permutation_map, rotate_perm.
  apply start_index_le.
Qed.

(** The rotation over a deployment pool is weighted round robin.  Every
    call offers all the deployments of the alias, and over one period of calls
    (as many as the weights add up to), from whatever the cursor was, each
    deployment comes first exactly as often as its weight. *)
Theorem rotation_is_weighted c alias m :
  find_model alias = Some m -> m_deployments m <> [] -> weighted (m_deployments m) ->
  let targets := deployment_targets m in
  let period := total_weight targets in
  0 <= default 0 (bt_get c alias) -> default 0 (bt_get c alias) + period <= u64_max ->
  let lists := calls (Z.to_nat period) c alias in
  Forall (fun candidates => candidates ≡ₚ map (for_deployment m) targets) lists /\
  map head lists ≡ₚ concat (map (fun d => repeat (Some (for_deployment m d)) (Z.to_nat (d_weight d))) targets).
Proof.
  intros Hm Hd Hw. cbn zeta. set (targets := deployment_targets m). intros Hc Hmax.
  pose proof (total_weight_pos m Hw : 0 < total_weight targets) as Hpos.
  destruct (calls_firsts (Z.to_nat (total_weight targets)) c alias m Hm Hd Hw Hc) as [Hperm Hfirst];
    [rewrite Z2Nat.id by lia; done|]. split; [exact Hperm|]. rewrite Hfirst. fold targets. rewrite Z2Nat.id by lia.
  rewrite <-(map_map (fun k => (default 0 (bt_get c alias) + k) mod total_weight targets)
    (fun slot => for_deployment m <$> targets !! start_index 0 slot targets)).
  rewrite period_slots by done.
  rewrite <-(map_map (fun slot => start_index 0 slot targets) (fun i => for_deployment m <$> targets !! i)).
  rewrite start_indices by by apply weighted_targets.
  rewrite concat_map.
  assert (forall f (l : list ConfiguredDeployment) (g : nat -> option ConfiguredModel),
    (forall i d, l !! i = Some d -> g i = Some (f d)) ->
    map (map g) (imap (fun i d => repeat (0 + i)%nat (Z.to_nat (d_weight d))) l) =
    map (fun d => repeat (Some (f d)) (Z.to_nat (d_weight d))) l) as Heq; [|by rewrite (Heq (for_deployment m)); [|intros i d ->]].
  clear. intros f l g Hg. apply list_eq. intros i. change (@map (list nat)) with (@fmap list _ (list nat)).
  change (@map ConfiguredDeployment) with (@fmap list _ ConfiguredDeployment).
  rewrite !list_lookup_fmap, list_lookup_imap. destruct (l !! i) as [d|] eqn:Hi; [|done].
  cbn [fmap option_fmap option_map]. f_equal. rewrite Nat.add_0_l.
  induction (Z.to_nat (d_weight d)) as [|n IH]; [done|]. cbn [repeat map]. by rewrite IH, (Hg i d Hi).
Qed.
End Rotation.

Definition sample_pool_model : ConfiguredModel :=
  with_deployments (ConfiguredModel_new (lit "cloud") (lit "https://primary.example/v1") (lit "gpt") None true)
    [ConfiguredDeployment_new (lit "eu") (lit "https://eu.example/v1") (lit "gpt") None true 2;
     ConfiguredDeployment_new (lit "backup") (lit "https://backup.example/v1") (lit "mini") None true 1].

Example rotation_order :
  map (map delivery_id) (calls [sample_pool_model] 5 [] (lit "cloud")) =
  map (map lit) [["cloud#default"; "cloud#eu"; "cloud#backup"]; ["cloud#eu"; "cloud#backup"; "cloud#default"];
                 ["cloud#eu"; "cloud#backup"; "cloud#default"]; ["cloud#backup"; "cloud#default"; "cloud#eu"];
                 ["cloud#default"; "cloud#eu"; "cloud#backup"]]%string.
Proof. vm_compute. reflexivity. Qed.

Lemma rotation_is_weighted_witness :
  map head (calls [sample_pool_model] 4 [(lit "cloud", 6)] (lit "cloud")) ≡ₚ
  concat (map (fun d => repeat (Some (for_deployment sample_pool_model d)) (Z.to_nat (d_weight d)))
    (deployment_targets sample_pool_model)).
Proof.
  apply (rotation_is_weighted [sample_pool_model] [(lit "cloud", 6)] (lit "cloud") sample_pool_model).
  - vm_compute. reflexivity.
  - discriminate.
  - unfold weighted. vm_compute. repeat constructor; discriminate.
  - vm_compute. discriminate.
  - vm_compute. discriminate.
Defined.
