(* ===== verification/DeploymentSelection.v ===== *)
(** * Deployment selection (crate [wayfinder-gateway], [src/deployment_selection.rs])

    Bounded rolling observations of concrete deployments, and the order in
    which the interchangeable deployments of one alias are tried.  A reading of
    the clock is an argument; one selection uses one reading (the code reads
    the clock again for every summary).  A store whose lock is poisoned is not
    modelled. *)
From S2P Require Export Models Text.

(** ** Constants *)
Definition MAX_SIGNAL_KEYS : Z := 1024.
Definition MAX_SAMPLES_PER_KEY : Z := 32.
Definition MAX_SIGNAL_ID_BYTES : Z := 128.
Definition OVERFLOW_SIGNAL_ID : str := lit "__other__".

(** ** Observations *)
Record DeploymentObservation := {
  o_latency_seconds : option f64;
  o_ttft_seconds : option f64;
  o_throughput : option f64;
  o_success : bool;
  o_rate_limited : bool;
  o_capacity_pressure : option f64;
}.

Definition observation_success (latency_seconds : f64) (ttft throughput : option f64) : DeploymentObservation :=
  {| o_latency_seconds := Some latency_seconds; o_ttft_seconds := ttft; o_throughput := throughput;
     o_success := true; o_rate_limited := false; o_capacity_pressure := Some f64_zero |}.

Definition observation_failure (latency_seconds : option f64) (status : option Z) : DeploymentObservation :=
  {| o_latency_seconds := latency_seconds; o_ttft_seconds := None; o_throughput := None; o_success := false;
     o_rate_limited := match status with Some s => s =? 429 | None => false end;
     o_capacity_pressure :=
       Some match status with
            | None => f64_dec 5 1
            | Some s => if (s =? 429) || (s =? 503) then f64_one
                        else if (500 <=? s) && (s <=? 599) then f64_dec 5 1 else f64_dec 25 2
            end |}.

Record DeploymentSignalSummary := {
  s_latency_seconds : f64;
  s_ttft_seconds : option f64;
  s_throughput : option f64;
  s_availability : f64;
  s_rate_limit_rate : f64;
  s_capacity_pressure : f64;
}.

Record TimedObservation := {
  observed_at : f64;
  observation : DeploymentObservation;
}.

(** The state of a [DeploymentObservationStore]: the samples of each key, oldest
    first. *)
Notation SignalStore := (btree (list TimedObservation)).

Definition bad_value (value : f64) : bool := negb (f64_is_finite value) || f64_lt value f64_zero.

Definition sanitize_observation (o : DeploymentObservation) : option DeploymentObservation :=
  if existsb bad_value (option_list (o_latency_seconds o) ++ option_list (o_ttft_seconds o) ++
                        option_list (o_throughput o) ++ option_list (o_capacity_pressure o))
  then None
  else Some {| o_latency_seconds := o_latency_seconds o; o_ttft_seconds := o_ttft_seconds o;
               o_throughput := o_throughput o; o_success := o_success o; o_rate_limited := o_rate_limited o;
               o_capacity_pressure := (fun value => f64_min value f64_one) <$> o_capacity_pressure o |}.

Definition bounded_signal_id (value : str) : str :=
  if (str_len value <=? MAX_SIGNAL_ID_BYTES) && forallb (fun c => negb (char_is_control c) || (c =? 10)) value
  then value else OVERFLOW_SIGNAL_ID.

Definition bounded_clock (value : f64) : f64 := if f64_is_finite value then f64_max value f64_zero else f64_zero.

(** [while samples.len() > MAX_SAMPLES_PER_KEY { samples.pop_front() }] *)
Fixpoint trim_samples (samples : list TimedObservation) : list TimedObservation :=
  match samples with
  | [] => []
  | _ :: rest => if MAX_SAMPLES_PER_KEY <? len samples then trim_samples rest else samples
  end.

Definition observe (state : SignalStore) (clock : f64) (deployment_id : str) (o : DeploymentObservation) : SignalStore :=
  match sanitize_observation o with
  | None => state
  | Some o =>
      let key := bounded_signal_id deployment_id in
      if negb (bt_contains state key) && (MAX_SIGNAL_KEYS <=? len state) then state
      else bt_update state key []
             (fun samples => trim_samples (samples ++ [{| observed_at := bounded_clock clock; observation := o |}]))
  end.

(** ** Summaries *)

(** The values of an optional measurement, their number and their mean, as the
    loop accumulates them: from [0.0], in order. *)
Definition measured (f : DeploymentObservation -> option f64) (samples : list TimedObservation) : list f64 :=
  omap (fun sample => f (observation sample)) samples.
Definition sum_of (values : list f64) : f64 := foldl f64_add f64_zero values.
Definition mean (values : list f64) : f64 := f64_div (sum_of values) (f64_of_Z (len values)).
Definition optional_mean (values : list f64) : option f64 :=
  match values with [] => None | _ => Some (mean values) end.
Definition share (p : DeploymentObservation -> bool) (samples : list TimedObservation) : f64 :=
  f64_div (f64_of_Z (len (List.filter (fun sample => p (observation sample)) samples))) (f64_of_Z (len samples)).

Definition live (now observation_ttl : f64) (sample : TimedObservation) : bool :=
  f64_ge now (observed_at sample) && f64_le (f64_sub now (observed_at sample)) observation_ttl.

Definition summary (state : SignalStore) (clock : f64) (deployment_id : str) (observation_ttl : f64)
    : option DeploymentSignalSummary :=
  if negb (f64_is_finite observation_ttl) || f64_le observation_ttl f64_zero then None
  else
    all ← bt_get state (bounded_signal_id deployment_id);
    let samples := List.filter (live (bounded_clock clock) observation_ttl) all in
    match samples, measured o_latency_seconds samples, measured o_capacity_pressure samples with
    | _ :: _, (_ :: _) as latencies, (_ :: _) as pressures =>
        Some {| s_latency_seconds := mean latencies; s_ttft_seconds := optional_mean (measured o_ttft_seconds samples);
                s_throughput := optional_mean (measured o_throughput samples);
                s_availability := share o_success samples; s_rate_limit_rate := share o_rate_limited samples;
                s_capacity_pressure := mean pressures |}
    | _, _, _ => None
    end.

(** ** Selection *)
Record DeploymentSelection := {
  targets : list ConfiguredModel;
  reason : str;
}.

#[export] Instance strategy_eq_dec : EqDecision DeploymentSelectionStrategy.
Proof. solve_decision. Defined.

Definition strategy_as_str (s : DeploymentSelectionStrategy) : str :=
  match s with
  | Weighted => lit "weighted" | Latency => lit "latency" | Throughput => lit "throughput"
  | Availability => lit "availability" | Cost => lit "cost" | Capacity => lit "capacity"
  end.

Definition apply_price_ceiling (policy : DeploymentSelectionPolicy) (candidates : list ConfiguredModel)
    : list ConfiguredModel :=
  match max_cost_per_1k policy with
  | None => candidates
  | Some ceiling =>
      List.filter (fun candidate =>
        match m_cost_per_1k candidate with
        | Some cost => f64_is_finite cost && f64_le cost ceiling
        | None => false
        end) candidates
  end.

(** [Ordering::then_with]. *)
Definition then_with (c d : comparison) : comparison := match c with Eq => d | _ => c end.

Definition compare_id (left right : ConfiguredModel) : comparison := str_cmp (delivery_id left) (delivery_id right).

Definition compare_cost (left right : ConfiguredModel) : comparison :=
  then_with (f64_total_cmp (default f64_max_value (m_cost_per_1k left)) (default f64_max_value (m_cost_per_1k right)))
    (compare_id left right).

Definition signal_ready (s : DeploymentSelectionStrategy) (summary : DeploymentSignalSummary) : bool :=
  match s with
  | Latency => f64_is_finite (s_latency_seconds summary)
  | Throughput => match s_throughput summary with Some v => f64_is_finite v | None => false end
  | Availability => f64_is_finite (s_availability summary)
  | Capacity => f64_is_finite (s_capacity_pressure summary)
  | Weighted | Cost => true
  end.

Definition compare_signals (s : DeploymentSelectionStrategy) (l r : DeploymentSignalSummary) : comparison :=
  match s with
  | Latency =>
      then_with (f64_total_cmp (s_latency_seconds l) (s_latency_seconds r))
        (f64_total_cmp (default f64_max_value (s_ttft_seconds l)) (default f64_max_value (s_ttft_seconds r)))
  | Throughput => f64_total_cmp (default f64_zero (s_throughput r)) (default f64_zero (s_throughput l))
  | Availability =>
      then_with (f64_total_cmp (s_availability r) (s_availability l))
        (f64_total_cmp (s_rate_limit_rate l) (s_rate_limit_rate r))
  | Capacity => f64_total_cmp (s_capacity_pressure l) (s_capacity_pressure r)
  | Weighted | Cost => Eq
  end.

(** [candidates.sort_by(compare)]: the stable sort. *)
Fixpoint sort_insert {A} (compare : A -> A -> comparison) (x : A) (l : list A) : list A :=
  match l with
  | [] => [x]
  | y :: rest => match compare x y with Gt => y :: sort_insert compare x rest | _ => x :: l end
  end.
Definition sort_by {A} (compare : A -> A -> comparison) (l : list A) : list A := foldr (sort_insert compare) [] l.

Section Select.
Context (state : SignalStore) (clock : f64).

Definition compare_candidates (policy : DeploymentSelectionPolicy) (left right : ConfiguredModel) : comparison :=
  match summary state clock (delivery_id left) (observation_ttl policy),
        summary state clock (delivery_id right) (observation_ttl policy) with
  | Some l, Some r => then_with (compare_signals (strategy policy) l r) (compare_id left right)
  | _, _ => compare_id left right
  end.

Definition select (policy : DeploymentSelectionPolicy) (candidates : list ConfiguredModel) : DeploymentSelection :=
  let candidates := apply_price_ceiling policy candidates in
  match candidates with
  | [] => {| targets := []; reason := lit "price-ceiling-blocked" |}
  | _ =>
      if (len candidates <=? 1) || bool_decide (strategy policy = Weighted) then
        {| targets := candidates;
           reason := match max_cost_per_1k policy with
                     | Some _ => lit "weighted-price-ceiling"
                     | None => lit "weighted"
                     end |}
      else if bool_decide (strategy policy = Cost) then
        if forallb (fun candidate => match m_cost_per_1k candidate with Some _ => true | None => false end) candidates
        then {| targets := sort_by compare_cost candidates; reason := lit "cost" |}
        else {| targets := candidates; reason := lit "weighted-cost-unknown" |}
      else
        let summaries := map (fun candidate => summary state clock (delivery_id candidate) (observation_ttl policy)) candidates in
        let signals_ready :=
          forallb (fun summary => match summary with Some s => signal_ready (strategy policy) s | None => false end)
            summaries in
        if negb signals_ready then {| targets := candidates; reason := lit "weighted-stale" |}
        else {| targets := sort_by (compare_candidates policy) candidates; reason := strategy_as_str (strategy policy) |}
  end.
End Select.

(** ** Order *)

(** A comparison that is the lexicographic one on integer keys. *)
Definition total_key (a : f64) : list Z :=
  match f64_key a with
  | None => [3; 0; 0; 0]
  | Some (k1, k2, k3) => [k1; k2; k3; match a with S754_zero true => 0 | _ => 1 end]
  end.

Lemma total_cmp_key a b : f64_total_cmp a b = str_cmp (total_key a) (total_key b).
Proof.
  destruct a as [sa|sa| |sa ma ea], b as [sb|sb| |sb mb eb]; try destruct sa; try destruct sb; try reflexivity;
    unfold f64_total_cmp, total_key, f64_key, SFcompare; cbn [str_cmp];
    change (Pos.compare_cont Eq ma mb) with (Pos.compare ma mb); rewrite Z.compare_refl.
  - change (- Zpos ma ?= - Zpos mb) with (CompOpp (Pos.compare ma mb)). rewrite Z.compare_opp, (Z.compare_antisym ea eb).
    destruct (ea ?= eb); [|done|done]. by destruct (Pos.compare ma mb).
  - change (Zpos ma ?= Zpos mb) with (Pos.compare ma mb).
    destruct (ea ?= eb); [|done|done]. by destruct (Pos.compare ma mb).
Qed.

Lemma str_cmp_then a b c d : length a = length b -> str_cmp (a ++ c) (b ++ d) = then_with (str_cmp a b) (str_cmp c d).
Proof. intros Hl. rewrite str_cmp_app by done. by destruct (str_cmp a b). Qed.

Lemma str_cmp_opp a b : length a = length b -> str_cmp (map Z.opp a) (map Z.opp b) = str_cmp b a.
Proof.
  revert b. induction a as [|x a IH]; intros [|y b] Hl; try done. cbn [map str_cmp]. rewrite Z.compare_opp.
  destruct (y ?= x); [|done|done]. apply IH. simpl in Hl. lia.
Qed.

Lemma total_key_length a : length (total_key a) = 4%nat.
Proof. unfold total_key. by destruct (f64_key a) as [[[]]|]. Qed.

Definition not_after {A} (compare : A -> A -> comparison) (x y : A) : Prop := compare x y <> Gt.

Lemma str_le_trans a b c : str_cmp a b <> Gt -> str_cmp b c <> Gt -> str_cmp a c <> Gt.
Proof.
  intros Hab Hbc. destruct (str_cmp a b) eqn:E1; [apply str_cmp_eq in E1 as ->; done| |done].
  destruct (str_cmp b c) eqn:E2; [apply str_cmp_eq in E2 as ->; by rewrite E1| |done].
  by rewrite (str_lt_trans a b c).
Qed.

(** Sorting by a comparison that is the order of a key on the elements sorts. *)
Section Sorting.
Context {A : Type} (compare : A -> A -> comparison) (key : A -> list Z).

Lemma sort_insert_perm x l : sort_insert compare x l ≡ₚ x :: l.
Proof.
  induction l as [|y l IH]; cbn [sort_insert]; [done|]. destruct (compare x y); [done|done|]. rewrite IH. constructor.
Qed.

Lemma sort_by_perm l : sort_by compare l ≡ₚ l.
Proof. induction l as [|x l IH]; cbn [sort_by foldr]; [done|]. by rewrite sort_insert_perm, IH. Qed.

Definition keyed (l : list A) : Prop := forall x y, x ∈ l -> y ∈ l -> compare x y = str_cmp (key x) (key y).

Lemma sort_by_sorted l : keyed l -> StronglySorted (not_after compare) (sort_by compare l).
Proof.
  induction l as [|x l IH]; intros Hk; cbn [sort_by foldr]; [constructor|]. fold (sort_by compare l).
  assert (Hk' : keyed (x :: sort_by compare l)).
  { intros a b Ha Hb. apply Hk; [rewrite <-(sort_by_perm l)|rewrite <-(sort_by_perm l)]; done. }
  assert (Hs : StronglySorted (not_after compare) (sort_by compare l)).
  { apply IH. intros a b Ha Hb. apply Hk; by right. }
  clear IH Hk. induction Hs as [|y s Hs IH Hy]; cbn [sort_insert]; [by repeat constructor|].
  destruct (compare x y) eqn:E.
  1,2: constructor; [by constructor|]; constructor; [by unfold not_after; rewrite E|];
    apply Forall_forall; intros z Hz; unfold not_after in *; rewrite Forall_forall in Hy; specialize (Hy z Hz);
    rewrite Hk' in * by set_solver; apply str_le_trans with (key y); [by rewrite E|done].
  constructor.
  - apply IH. intros a b Ha Hb. apply Hk'; set_solver.
  - rewrite sort_insert_perm. constructor; [|done]. unfold not_after. rewrite Hk' in * by set_solver.
    rewrite str_cmp_antisym, E. done.
Qed.
End Sorting.

(** The key of a candidate under each order. *)
Definition cost_key (m : ConfiguredModel) : list Z := total_key (default f64_max_value (m_cost_per_1k m)) ++ delivery_id m.

Lemma compare_cost_key x y : compare_cost x y = str_cmp (cost_key x) (cost_key y).
Proof. unfold compare_cost, cost_key. rewrite str_cmp_then by by rewrite !total_key_length. by rewrite total_cmp_key. Qed.

Definition signal_key (s : DeploymentSelectionStrategy) (u : DeploymentSignalSummary) : list Z :=
  match s with
  | Latency => total_key (s_latency_seconds u) ++ total_key (default f64_max_value (s_ttft_seconds u))
  | Throughput => map Z.opp (total_key (default f64_zero (s_throughput u)))
  | Availability => map Z.opp (total_key (s_availability u)) ++ total_key (s_rate_limit_rate u)
  | Capacity => total_key (s_capacity_pressure u)
  | Weighted | Cost => []
  end.

Lemma compare_signals_key s l r :
  compare_signals s l r = str_cmp (signal_key s l) (signal_key s r) /\ length (signal_key s l) = length (signal_key s r).
Proof.
  split; [|destruct s; cbn [signal_key]; by rewrite ?length_app, ?length_map, ?total_key_length].
  destruct s; cbn [compare_signals signal_key]; rewrite ?total_cmp_key; try done.
  - by rewrite str_cmp_then by by rewrite !total_key_length.
  - by rewrite str_cmp_opp by by rewrite !total_key_length.
  - rewrite str_cmp_then, str_cmp_opp by by rewrite ?length_map, !total_key_length. done.
Qed.

Definition candidate_key state clock (policy : DeploymentSelectionPolicy) (m : ConfiguredModel) : list Z :=
  match summary state clock (delivery_id m) (observation_ttl policy) with
  | Some u => signal_key (strategy policy) u ++ delivery_id m
  | None => delivery_id m
  end.

Lemma compare_candidates_key state clock policy l :
  Forall (fun m => summary state clock (delivery_id m) (observation_ttl policy) <> None) l ->
  keyed (compare_candidates state clock policy) (candidate_key state clock policy) l.
Proof.
  rewrite Forall_forall. intros Hall x y Hx Hy. unfold compare_candidates, candidate_key.
  specialize (Hall x Hx) as Hsx. specialize (Hall y Hy) as Hsy.
  destruct (summary state clock (delivery_id x) _) as [u|]; [|done].
  destruct (summary state clock (delivery_id y) _) as [v|]; [|done].
  destruct (compare_signals_key (strategy policy) u v) as [-> Hl]. by rewrite str_cmp_then.
Qed.

(** ** The selection *)
Lemma select_perm state clock policy candidates :
  targets (select state clock policy candidates) ≡ₚ apply_price_ceiling policy candidates.
Proof.
  unfold select. destruct (apply_price_ceiling policy candidates) as [|m rest] eqn:He; [done|]. rewrite <-He.
  destruct (_ || _); [done|]. destruct (bool_decide (strategy policy = Cost)).
  - destruct (forallb _ _); [apply sort_by_perm|done].
  - destruct (forallb _ _); [apply sort_by_perm|done].
Qed.

(** Within the ceiling of a policy. *)
Definition within_ceiling (policy : DeploymentSelectionPolicy) (m : ConfiguredModel) : Prop :=
  match max_cost_per_1k policy with
  | Some ceiling => exists cost, m_cost_per_1k m = Some cost /\ f64_le cost ceiling = true
  | None => True
  end.

Lemma price_ceiling_elem policy candidates m :
  m ∈ apply_price_ceiling policy candidates -> m ∈ candidates /\ within_ceiling policy m.
Proof.
  unfold apply_price_ceiling, within_ceiling. destruct (max_cost_per_1k policy) as [ceiling|]; [|done].
  intros [Hm Hc]%elem_of_filter_bool. split; [done|]. destruct (m_cost_per_1k m) as [cost|]; [|done].
  apply andb_true_iff in Hc as [_ Hc]. by exists cost.
Qed.

(** The order of a strategy on candidates. *)
Definition strategy_order state clock (policy : DeploymentSelectionPolicy) : ConfiguredModel -> ConfiguredModel -> comparison :=
  match strategy policy with
  | Cost => compare_cost
  | _ => compare_candidates state clock policy
  end.

(** A selection never adds, drops or duplicates a target: it is a
    reordering of the candidates within the price ceiling.  When its reason is
    the policy's strategy, every target is at least as good as all the ones
    after it in the order of that strategy; otherwise the weighted order of the
    candidates is kept. *)
Theorem select_spec state clock policy candidates :
  let chosen := select state clock policy candidates in
  let eligible := apply_price_ceiling policy candidates in
  targets chosen ≡ₚ eligible /\
  Forall (fun m => m ∈ candidates /\ within_ceiling policy m) (targets chosen) /\
  (strategy policy <> Weighted -> reason chosen = strategy_as_str (strategy policy) ->
     StronglySorted (not_after (strategy_order state clock policy)) (targets chosen)) /\
  (reason chosen <> strategy_as_str (strategy policy) -> targets chosen = eligible).
Proof.
  cbn zeta. set (eligible := apply_price_ceiling policy candidates).
  split; [apply select_perm|]. split.
  { apply Forall_forall. intros m Hm. apply price_ceiling_elem. by rewrite <-(select_perm state clock policy). }
  unfold select. fold eligible. destruct eligible as [|m rest] eqn:He; [by repeat split; constructor|]. rewrite <-He.
  destruct (len eligible <=? 1) eqn:Hlen; cbn [orb].
  { cbn [targets reason]. split; [|done]. intros _ _. zify_bools. destruct rest as [|m' rest].
    - rewrite He. repeat constructor.
    - rewrite He, !len_cons in Hlen. pose proof (len_nonneg rest). lia. }
  destruct (bool_decide_reflect (strategy policy = Weighted)) as [Hw|Hw]; [by cbn [targets reason]; split_and!|].
  destruct (bool_decide_reflect (strategy policy = Cost)) as [Hc|Hc].
  { destruct (forallb _ eligible); cbn [targets reason].
    - split; [|by rewrite Hc]. intros _ _. unfold strategy_order. rewrite Hc.
      apply sort_by_sorted with cost_key. intros x y _ _. apply compare_cost_key.
    - split; [|done]. rewrite Hc. intros _ Hr. vm_compute in Hr. discriminate. }
  destruct (forallb _ (map _ eligible)) eqn:Hready; cbn [negb targets reason].
  - split; [|done]. intros _ _. unfold strategy_order.
    assert (StronglySorted (not_after (compare_candidates state clock policy)) (sort_by (compare_candidates state clock policy) eligible)).
    { apply sort_by_sorted with (candidate_key state clock policy). apply compare_candidates_key.
      rewrite forallb_fmap in Hready. apply forallb_Forall in Hready. eapply Forall_impl; [done|]. simpl.
      intros x. by destruct (summary _ _ _ _). }
    by destruct (strategy policy).
  - split; [|done]. intros _ Hr. by destruct (strategy policy).
Qed.

(** ** Bounds of the store *)

(** What a stored sample may hold: finite, non-negative measurements, a
    pressure of at most one, a clock reading that is not negative. *)
Definition sound_value (v : f64) : bool := f64_is_finite v && f64_le f64_zero v.

Record sound_sample (s : TimedObservation) : Prop := {
  ss_at : sound_value (observed_at s) = true;
  ss_latency : forall v, o_latency_seconds (observation s) = Some v -> sound_value v = true;
  ss_ttft : forall v, o_ttft_seconds (observation s) = Some v -> sound_value v = true;
  ss_throughput : forall v, o_throughput (observation s) = Some v -> sound_value v = true;
  ss_pressure : forall v, o_capacity_pressure (observation s) = Some v ->
    sound_value v = true /\ f64_le v f64_one = true;
}.

Record bounded_store (state : SignalStore) : Prop := {
  bs_keys : len state <= MAX_SIGNAL_KEYS;
  bs_sorted : bt_sorted state;
  bs_entries : Forall (fun kv => str_len (fst kv) <= MAX_SIGNAL_ID_BYTES /\
    0 < len (snd kv) <= MAX_SAMPLES_PER_KEY /\ Forall sound_sample (snd kv)) state;
}.

Lemma trim_samples_spec (l : list TimedObservation) :
  l <> [] -> trim_samples l = drop (length l - 32) l /\ 0 < len (trim_samples l) <= 32.
Proof.
  intros Hne. enough (trim_samples l = drop (length l - 32) l) as H.
  { split; [done|]. rewrite H. unfold len. rewrite length_drop. destruct l; [done|]. simpl length. lia. }
  clear Hne. induction l as [|x l IH]; [done|]. cbn [trim_samples]. unfold MAX_SAMPLES_PER_KEY, len. cbn [length].
  destruct (32 <? Z.of_nat (S (length l))) eqn:E; zify_bools.
  - rewrite IH. by replace (S (length l) - 32)%nat with (S (length l - 32)) by lia.
  - by replace (S (length l) - 32)%nat with 0%nat by lia.
Qed.

Lemma not_bad_sound v : bad_value v = false -> sound_value v = true.
Proof.
  unfold bad_value, sound_value. intros [Hf%negb_false_iff Hlt]%orb_false_iff. rewrite Hf. simpl.
  apply f64_not_lt_ge; [by apply f64_finite_not_nan|done|done].
Qed.

Lemma f64_min_finite a b : f64_is_finite a = true -> f64_is_finite b = true -> f64_is_finite (f64_min a b) = true.
Proof. intros Ha Hb. unfold f64_min. by repeat case_match. Qed.

Lemma min_one_sound v : sound_value v = true -> sound_value (f64_min v f64_one) = true /\ f64_le (f64_min v f64_one) f64_one = true.
Proof.
  intros [Hf Hp]%andb_true_iff. split; [|by apply f64_min_le_r]. unfold sound_value.
  rewrite f64_min_finite by done. simpl. unfold f64_min. rewrite (f64_finite_not_nan v Hf).
  change (f64_is_nan f64_one) with false. cbn iota. by destruct (f64_le v f64_one).
Qed.

Lemma sanitize_sound o o' clock :
  sanitize_observation o = Some o' -> sound_sample {| observed_at := bounded_clock clock; observation := o' |}.
Proof.
  unfold sanitize_observation. destruct (existsb _ _) eqn:E; [done|]. intros [= <-].
  assert (forall f v, f = Some v -> existsb bad_value (option_list f) = false -> sound_value v = true) as Hv.
  { intros f v ->. simpl. rewrite orb_false_r. apply not_bad_sound. }
  rewrite !existsb_app in E. apply orb_false_iff in E as [E1 [E2 [E3 E4]%orb_false_iff]%orb_false_iff].
  constructor; cbn [observed_at observation o_latency_seconds o_ttft_seconds o_throughput o_capacity_pressure].
  - unfold bounded_clock. destruct (f64_is_finite clock) eqn:Hf; [|done]. unfold sound_value, f64_max.
    rewrite (f64_finite_not_nan _ Hf). change (f64_is_nan f64_zero) with false. cbn iota.
    destruct (f64_le f64_zero clock) eqn:Hle; [by rewrite Hf|done].
  - intros v Hf. by apply (Hv (o_latency_seconds o)).
  - intros v Hf. by apply (Hv (o_ttft_seconds o)).
  - intros v Hf. by apply (Hv (o_throughput o)).
  - intros v Hf. destruct (o_capacity_pressure o) as [w|] eqn:Hw; [|done]. cbn [fmap option_fmap option_map] in Hf.
    assert (v = f64_min w f64_one) as -> by congruence. apply min_one_sound. by apply (Hv (Some w)).
Qed.

Lemma bounded_signal_id_len value : str_len (bounded_signal_id value) <= MAX_SIGNAL_ID_BYTES.
Proof.
  unfold bounded_signal_id. destruct (str_len value <=? MAX_SIGNAL_ID_BYTES) eqn:E; cbn [andb]; [|done].
  zify_bools. by destruct (forallb _ value).
Qed.

Lemma observe_bounded state clock id o : bounded_store state -> bounded_store (observe state clock id o).
Proof.
  intros [Hk Hs He]. unfold observe. destruct (sanitize_observation o) as [o'|] eqn:Ho; [|by constructor].
  set (key := bounded_signal_id id).
  destruct (negb (bt_contains state key) && (MAX_SIGNAL_KEYS <=? len state)) eqn:Hfull; [by constructor|].
  constructor.
  - unfold bt_update, len. rewrite bt_insert_length by done.
    destruct (bt_contains state key); [done|]. cbn [negb andb] in Hfull. zify_bools. unfold len in *. lia.
  - by apply bt_update_sorted.
  - unfold bt_update. apply bt_insert_Forall; [|done]. cbn [fst snd]. split; [apply bounded_signal_id_len|].
    set (old := match bt_get state key with Some v => v | None => [] end).
    set (sample := {| observed_at := bounded_clock clock; observation := o' |}).
    assert (Forall sound_sample old) as Hold.
    { unfold old. destruct (bt_get state key) as [l|] eqn:Hl; [|constructor]. apply bt_get_elem in Hl.
      rewrite Forall_forall in He. by destruct (He _ Hl) as (_ & _ & ?). }
    destruct (trim_samples_spec (old ++ [sample])) as [Ht Hlen]; [by destruct old|]. split; [exact Hlen|].
    rewrite Ht. apply Forall_drop, Forall_app. split; [done|]. constructor; [|done]. by apply (sanitize_sound o).
Qed.

(** Over every history of observations the store stays bounded: at most
    1024 keys of at most 128 bytes, between one and 32 samples each, and every
    stored measurement is finite and non-negative, a pressure at most one. *)
Theorem signal_store_bounded (history : list (f64 * str * DeploymentObservation)) :
  bounded_store (foldl (fun state '(clock, id, o) => observe state clock id o) [] history).
Proof.
  induction history as [|[[clock id] o] history IH] using rev_ind; [by repeat constructor|].
  rewrite foldl_snoc. by apply observe_bounded.
Qed.

Example slow_member_goes_last :
  let state := foldl (fun state '(clock, id, o) => observe state clock id o) []
    [(f64_of_Z 1, lit "cloud#default", observation_success (f64_of_Z 9) None None);
     (f64_of_Z 2, lit "cloud#eu", observation_success (f64_of_Z 3) None None);
     (f64_of_Z 2, lit "cloud#backup", observation_success (f64_of_Z 5) None None)] in
  let policy := {| strategy := Latency; max_cost_per_1k := None; observation_ttl := f64_of_Z 60 |} in
  let candidates := map (for_deployment sample_pool_model) (deployment_targets sample_pool_model) in
  map delivery_id (targets (select state (f64_of_Z 3) policy candidates)) =
    map lit ["cloud#eu"; "cloud#backup"; "cloud#default"]%string /\
  reason (select state (f64_of_Z 100) policy candidates) = lit "weighted-stale".
Proof. vm_compute. by split. Qed.
