(* ===== verification/Endpoint.v ===== *)
(** * Provider endpoints (crates [wayfinder-providers], [src/openai_compat.rs], and
    [wayfinder-gateway], [src/delivery.rs])

    Which configured endpoint URLs are accepted, and which of them are literally
    on this host or on a private network.  [Url::parse] belongs to the [url]
    crate and is a parameter; [str::parse::<IpAddr>] is the standard library's. *)
From S2P Require Export Text Contracts.

(** ** IP addresses *)
Inductive IpAddr :=
| V4 (octets : list Z)
| V6 (groups : list Z).

(** [char::to_digit(radix)]. *)
Definition to_digit (radix c : Z) : option Z :=
  let d := if (48 <=? c) && (c <=? 57) then c - 48
           else if (97 <=? c) && (c <=? 122) then c - 97 + 10
           else if (65 <=? c) && (c <=? 90) then c - 65 + 10
           else 36 in
  if d <? radix then Some d else None.

(** The digits at the front: value, number, rest; [None] past [max_digits]. *)
Fixpoint read_digits (radix : Z) (max_digits : nat) (acc : Z) (count : nat) (s : str) : option (Z * nat * str) :=
  match s with
  | c :: rest =>
      match to_digit radix c with
      | Some d =>
          match max_digits with
          | O => None
          | S max_digits => read_digits radix max_digits (acc * radix + d) (S count) rest
          end
      | None => Some (acc, count, s)
      end
  | [] => Some (acc, count, s)
  end.

Definition read_number (radix : Z) (max_digits : nat) (max_value : Z) (allow_zero_prefix : bool) (s : str)
    : option (Z * str) :=
  '(value, count, rest) ← read_digits radix max_digits 0 0 s;
  let has_leading_zero := match s with c :: _ => c =? 48 | [] => false end in
  if Nat.eqb count 0 then None
  else if negb allow_zero_prefix && has_leading_zero && Nat.ltb 1 count then None
  else if value <=? max_value then Some (value, rest) else None.

(** [read_separator(sep, index, inner)]. *)
Definition read_separator {A} (sep : Z) (index : nat) (inner : str -> option (A * str)) (s : str) : option (A * str) :=
  match index, s with
  | O, _ => inner s
  | S _, c :: rest => if c =? sep then inner rest else None
  | S _, [] => None
  end.

Fixpoint read_octets (index n : nat) (s : str) : option (list Z * str) :=
  match n with
  | O => Some ([], s)
  | S n =>
      '(octet, rest) ← read_separator 46 index (read_number 10 3 255 false) s;
      '(octets, rest) ← read_octets (S index) n rest;
      Some (octet :: octets, rest)
  end.

Definition read_ipv4_addr (s : str) : option (list Z * str) := read_octets 0 4 s.

(** Groups of an IPv6 address, at most [limit], the last two of them possibly
    written as an IPv4 address; whether they were; the rest. *)
Fixpoint read_groups (index limit : nat) (s : str) : list Z * bool * str :=
  match limit with
  | O => ([], false, s)
  | S limit' =>
      let ipv4 := match limit' with
                  | O => None
                  | S _ => read_separator 58 index read_ipv4_addr s
                  end in
      match ipv4 with
      | Some ([a; b; c; d], rest) => ([a * 256 + b; c * 256 + d], true, rest)
      | _ =>
          match read_separator 58 index (read_number 16 4 65535 true) s with
          | Some (group, rest) =>
              let '(groups, embedded, rest) := read_groups (S index) limit' rest in (group :: groups, embedded, rest)
          | None => ([], false, s)
          end
      end
  end.

Definition read_ipv6_addr (s : str) : option (list Z * str) :=
  let '(head, head_ipv4, rest) := read_groups 0 8 s in
  if Nat.eqb (length head) 8 then Some (head, rest)
  else if head_ipv4 then None
  else match rest with
       | c1 :: c2 :: rest =>
           if (c1 =? 58) && (c2 =? 58) then
             let '(tail, _, rest) := read_groups 0 (8 - (length head + 1)) rest in
             Some (head ++ repeat 0 (8 - length head - length tail) ++ tail, rest)
           else None
       | _ => None
       end.

(** [s.parse::<IpAddr>().ok()]. *)
Definition parse_ip (s : str) : option IpAddr :=
  match read_ipv4_addr s with
  | Some (octets, []) => Some (V4 octets)
  | Some _ => None
  | None => match read_ipv6_addr s with Some (groups, []) => Some (V6 groups) | _ => None end
  end.

Definition is_loopback (a : IpAddr) : bool :=
  match a with
  | V4 octets => bool_decide (head octets = Some 127)
  | V6 groups => bool_decide (groups = [0; 0; 0; 0; 0; 0; 0; 1])
  end.

Definition is_private (octets : list Z) : bool :=
  match octets with
  | a :: b :: _ => (a =? 10) || ((a =? 172) && (16 <=? b) && (b <=? 31)) || ((a =? 192) && (b =? 168))
  | _ => false
  end.
Definition is_link_local (octets : list Z) : bool :=
  match octets with a :: b :: _ => (a =? 169) && (b =? 254) | _ => false end.
Definition is_unique_local (groups : list Z) : bool :=
  match groups with g :: _ => Z.land g 65024 =? 64512 | [] => false end.
Definition is_unicast_link_local (groups : list Z) : bool :=
  match groups with g :: _ => Z.land g 65472 =? 65152 | [] => false end.

Example parse_ip_forms :
  map parse_ip (map lit ["127.0.0.1"; "::1"; "fe80::1"; "1:2:3:4:5:6:7:8"; "::ffff:10.0.0.1"; "::"]%string) =
  [Some (V4 [127; 0; 0; 1]); Some (V6 [0; 0; 0; 0; 0; 0; 0; 1]); Some (V6 [65152; 0; 0; 0; 0; 0; 0; 1]);
   Some (V6 [1; 2; 3; 4; 5; 6; 7; 8]); Some (V6 [0; 0; 0; 0; 0; 65535; 2560; 1]); Some (V6 (repeat 0 8))].
Proof. vm_compute. reflexivity. Qed.

Example parse_ip_refused :
  map parse_ip (map lit ["127.0.0.01"; "256.0.0.1"; "1.2.3"; "1:2"; "example.com"; ":::"; "1::2::3"; "127.0.0.1."]%string)
  = repeat None 8.
Proof. vm_compute. reflexivity. Qed.

(** ** Endpoints *)
Record Url := {
  scheme : str;
  host_str : option str;
  username : str;
  password : option str;
  query : option str;
  fragment : option str;
}.

Inductive EndpointError := InvalidEndpoint.

Section Endpoint.
(** [Url::parse] of the [url] crate. *)
Context (parse_url : str -> option Url).

(** [base_url.trim_end_matches('/')]. *)
Definition trim_end_slashes (s : str) : str := rev (drop_while (Z.eqb 47) (rev s)).

(** [OpenAiEndpoint::parse]; the endpoint is the URL of the completions route. *)
Definition OpenAiEndpoint_parse (base_url : str) : result Url EndpointError :=
  if str_eqb base_url [] || negb (str_eqb (trim base_url) base_url) then Err InvalidEndpoint
  else
    let? url := ok_or (parse_url (trim_end_slashes base_url ++ lit "/chat/completions")) InvalidEndpoint in
    if negb (str_eqb (scheme url) (lit "http") || str_eqb (scheme url) (lit "https"))
       || bool_decide (host_str url = None) || negb (str_eqb (username url) [])
       || negb (bool_decide (password url = None)) || negb (bool_decide (query url = None))
       || negb (bool_decide (fragment url = None))
    then Err InvalidEndpoint
    else Ok url.

(** [host.strip_prefix('[').and_then(|h| h.strip_suffix(']')).unwrap_or(host)]. *)
Definition address_host (host : str) : str :=
  match host with
  | c :: rest =>
      if c =? 91 then match rev rest with d :: inner => if d =? 93 then rev inner else host | [] => host end
      else host
  | [] => host
  end.

Definition is_localhost (host : str) : bool := str_eqb (to_ascii_lowercase host) (lit "localhost").

(** [host.ends_with(".local")]. *)
Definition ends_with (s suffix : str) : bool := starts_with (rev s) (rev suffix).

Definition endpoint_host (endpoint : str) : option str :=
  match OpenAiEndpoint_parse endpoint with Ok url => host_str url | Err _ => None end.

Definition endpoint_is_literal_loopback (endpoint : str) : bool :=
  match endpoint_host endpoint with
  | None => false
  | Some host =>
      is_localhost host || match parse_ip (address_host host) with Some a => is_loopback a | None => false end
  end.

Definition endpoint_is_literal_local_network (endpoint : str) : bool :=
  match endpoint_host endpoint with
  | None => false
  | Some host =>
      if is_localhost host then false
      else ends_with (address_host host) (lit ".local") ||
           match parse_ip (address_host host) with
           | Some (V4 octets) => negb (is_loopback (V4 octets)) && (is_private octets || is_link_local octets)
           | Some (V6 groups) => negb (is_loopback (V6 groups)) && (is_unique_local groups || is_unicast_link_local groups)
           | None => false
           end
  end.

(** What makes an endpoint local: its host, and never a name to look up other
    than [localhost]. *)
Lemma literal_loopback_spec endpoint :
  endpoint_is_literal_loopback endpoint = true <->
  exists host, endpoint_host endpoint = Some host /\
    (is_localhost host = true \/ exists a, parse_ip (address_host host) = Some a /\ is_loopback a = true).
Proof.
  unfold endpoint_is_literal_loopback. destruct (endpoint_host endpoint) as [host|]; [|split; [done|by intros (? & ? & _)]].
  rewrite orb_true_iff. split.
  - intros [?|H]; exists host; (split; [done|]); [by left|right]. destruct (parse_ip _) as [a|]; [|done]. by exists a.
  - intros (h & Hh & Hor). assert (h = host) as -> by congruence. destruct Hor as [?|(a & -> & ?)]; [by left|by right].
Qed.
End Endpoint.

(** A stand-in for the [url] crate in closed examples: scheme, host up to a
    slash or a colon, nothing else. *)
Definition sample_parse_url (s : str) : option Url :=
  '(scheme, rest) ← split_once 58 s;
  match rest with
  | a :: b :: rest =>
      if (a =? 47) && (b =? 47)
      then Some {| scheme := scheme; host_str := Some (take_while (fun c => negb ((c =? 47) || (c =? 58))) rest);
                   username := []; password := None; query := None; fragment := None |}
      else None
  | _ => None
  end.

Example loopback_endpoints :
  map (endpoint_is_literal_loopback sample_parse_url)
    (map lit ["http://localhost:11434/v1"; "http://127.0.0.1/v1"; "https://api.example/v1"; "http://192.168.1.2/v1";
              " http://127.0.0.1"; "ftp://127.0.0.1"]%string) = [true; true; false; false; false; false].
Proof. vm_compute. reflexivity. Qed.

(** A host name under [.local] is looked up on the network when a request is
    sent; it is taken as local all the same. *)
Example local_name_is_local_network :
  endpoint_is_literal_local_network sample_parse_url (lit "http://printer.local/v1") = true /\
  endpoint_is_literal_local_network sample_parse_url (lit "http://192.168.1.2/v1") = true.
Proof. vm_compute. by split. Qed.
