(* ===== verification/Eligibility.v ===== *)
(** * Request requirements and eligible destinations (crate [wayfinder-gateway], [src/lib.rs])

    What a chat request needs (capabilities, context, privacy posture), which
    configured destinations satisfy it, and how an explicit model is resolved
    and clamped to what its key allows. *)
From S2P Require Export DecisionPolicy Planning Reliability Models Endpoint.

Definition OFFLINE_HEADER : str := lit "x-wayfinder-offline".
Definition PRIVACY_POSTURE_HEADER : str := lit "x-wayfinder-privacy-posture".
Definition ROUTE_PRESET_PREFIX : str := lit "@route/".

(** ** Destinations *)
Section Destinations.
Context (parse_url : str -> option Url).

#[export] Instance ProviderKind_eq_dec : EqDecision ProviderKind.
Proof. solve_decision. Defined.

Definition ProviderKind_as_str (p : ProviderKind) : str :=
  match p with
  | OpenAiCompatible => lit "openai-compatible"
  | Anthropic => lit "anthropic"
  | AppleFoundationModels => lit "apple-foundation-models"
  | CodexAppServer => lit "codex-app-server"
  end.
Definition ProviderTier_as_str (t : ProviderTier) : str := match t with LocalTier => lit "local" end.

Definition model_is_proven_local (m : ConfiguredModel) : bool :=
  (bool_decide (m_provider m = AppleFoundationModels) && match m_tier m with Some LocalTier => true | None => false end)
  || (bool_decide (m_provider m = OpenAiCompatible) && endpoint_is_literal_loopback parse_url (m_endpoint m)).

Definition model_execution_boundary (m : ConfiguredModel) : ExecutionBoundary :=
  if model_is_proven_local m then OnDevice
  else if bool_decide (m_provider m = OpenAiCompatible) && endpoint_is_literal_local_network parse_url (m_endpoint m)
  then LocalNetwork
  else Hosted.

Definition no_modalities : ModalityCapabilities := Build_ModalityCapabilities false false false false false.

Definition model_capabilities (m : ConfiguredModel) : DestinationCapabilities :=
  {| cap_text := true; cap_streaming := true; cap_image_input := false;
     cap_tools := match m_provider m with
                  | OpenAiCompatible | Anthropic => true
                  | AppleFoundationModels | CodexAppServer => false
                  end;
     modalities := no_modalities |}.

Definition destination_snapshot (m : ConfiguredModel) : DestinationSnapshot :=
  {| ds_id := m_name m; ds_provider_id := ProviderKind_as_str (m_provider m); ds_model_id := m_provider_model m;
     ds_display_name := m_name m;
     ds_route_tier := match m_tier m with Some tier => ProviderTier_as_str tier | None => m_name m end;
     ds_execution_boundary := model_execution_boundary m;
     ds_readiness := if m_key_ready m then Ready else Unavailable;
     ds_billing_class := match m_provider m with
                         | AppleFoundationModels => BillingOnDevice
                         | CodexAppServer => BillingSubscription
                         | OpenAiCompatible | Anthropic => BillingApiMetered
                         end;
     ds_context_window := m_context_window m;
     ds_capabilities := model_capabilities m;
     ds_automatic_eligible := true |}.

(** [assessment.exclusions.retain(|reason| *reason != ContextWindowUnknown)]. *)
Definition assess_model (request : RoutingRequest) (m : ConfiguredModel) : CandidateAssessment :=
  let assessment := assess_destination request (destination_snapshot m) in
  {| ca_destination_id := ca_destination_id assessment;
     ca_exclusions :=
       List.filter (fun reason => negb (bool_decide (reason = ContextWindowUnknown))) (ca_exclusions assessment) |}.

(** The closure both loops apply to a target. *)
Definition target_eligible (request : RoutingRequest) (offline : bool) (prompt_estimate : Z) (target : ConfiguredModel)
    : bool :=
  is_eligible (assess_model request target) && (negb offline || model_is_proven_local target)
  && precheck_ok prompt_estimate (m_context_window target).

Definition eligible_deployment_targets (targets : list ConfiguredModel) (request : RoutingRequest) (offline : bool)
    (prompt_estimate : Z) : list ConfiguredModel :=
  List.filter (target_eligible request offline prompt_estimate) targets.

Definition has_eligible_deployment_target (models : list ConfiguredModel) (alias : str) (request : RoutingRequest)
    (offline : bool) (prompt_estimate : Z) : bool :=
  existsb (target_eligible request offline prompt_estimate) (configured_deployment_targets models alias).
End Destinations.

Definition exclusion_reason_name (reason : ExclusionReason) : str :=
  match reason with
  | ProviderNotReady => lit "provider-not-ready"
  | PrivacyBoundaryDenied => lit "privacy-boundary-denied"
  | TextUnsupported => lit "text-unsupported"
  | ContextWindowUnknown => lit "context-window-unknown"
  | ContextWindowTooSmall => lit "context-window-too-small"
  | ImageInputUnsupported => lit "image-input-unsupported"
  | ToolsUnsupported => lit "tools-unsupported"
  | StreamingUnsupported => lit "streaming-unsupported"
  | EmbeddingsUnsupported => lit "embeddings-unsupported"
  | ImageGenerationUnsupported => lit "image-generation-unsupported"
  | AudioUnsupported => lit "audio-unsupported"
  | BatchUnsupported => lit "batch-unsupported"
  | AutomaticNotAllowed => lit "automatic-not-allowed"
  end.

(** ** Headers

    A [HeaderMap] holds the bytes of each value; [to_str] accepts visible
    ASCII and tabs. *)
Notation HeaderMap := (list (str * list Z)).

Definition header_to_str (value : list Z) : option str :=
  if forallb (fun b => ((32 <=? b) && (b <? 127)) || (b =? 9)) value then Some value else None.

Definition request_header (headers : HeaderMap) (name : str) : result (option str) message :=
  match ix_get headers name with
  | None => Ok None
  | Some value =>
      result_map Some (ok_or (header_to_str value) (Msg "{name}: must contain valid visible ASCII" [ArgStr name]))
  end.

Definition privacy_posture_name (posture : PrivacyPosture) : str :=
  match posture with
  | OnDeviceOnly => lit "on-device-only"
  | LocalDevices => lit "local-devices"
  | HostedAllowed => lit "hosted-allowed"
  end.

Definition parse_privacy_posture (headers : HeaderMap) (offline : bool) : result PrivacyPosture message :=
  if offline then Ok OnDeviceOnly
  else
    let? value := request_header headers PRIVACY_POSTURE_HEADER in
    match trim <$> value with
    | None => Ok HostedAllowed
    | Some value =>
        if str_eqb value (lit "on-device-only") then Ok OnDeviceOnly
        else if str_eqb value (lit "local-devices") then Ok LocalDevices
        else if str_eqb value (lit "hosted-allowed") then Ok HostedAllowed
        else Err (Msg "{PRIVACY_POSTURE_HEADER}: expected on-device-only, local-devices, or hosted-allowed; got {value:?}"
                    [ArgStr PRIVACY_POSTURE_HEADER; ArgDebug value])
    end.

(** ** Requests *)
Section Requests.
Context {number : Type} `{JsonNumber number}.
Context (to_lowercase : str -> str).

Definition offline_override (headers : HeaderMap) : bool :=
  match request_header headers OFFLINE_HEADER with
  | Ok (Some value) => existsb (str_eqb (to_lowercase (trim value))) (map lit ["1"; "true"; "yes"]%string)
  | _ => false
  end.

Definition is_image_kind (kind : str) : bool :=
  existsb (str_eqb kind) (map lit ["image_url"; "input_image"; "image"]%string).

(** [contains_image], by recursion on the value. *)
Fixpoint contains_image (value : Value number) : bool :=
  match value with
  | JArray values => existsb contains_image values
  | JObject members =>
      match obj_get members (lit "type") ≫= as_str with Some kind => is_image_kind kind | None => false end
      || existsb (fun kv => contains_image (snd kv)) members
  | JNull | JBool _ | JNumber _ | JString _ => false
  end.

Definition request_requires_image_input (messages : Value number) : bool := contains_image messages.

Definition request_requires_tools (body : list (str * Value number)) : bool :=
  existsb (fun field => match obj_get body field ≫= as_array with Some (_ :: _) => true | _ => false end)
    (map lit ["tools"; "functions"]%string).

Definition requested_output_tokens_from_map (body : list (str * Value number)) : Z :=
  foldr Z.max 0 (omap (fun field => obj_get body field ≫= as_u64) (map lit ["max_tokens"; "max_completion_tokens"]%string)).

Definition requested_output_tokens (body : Value number) : Z :=
  match as_object body with None => 0 | Some members => requested_output_tokens_from_map members end.

Definition request_requirements (body : list (str * Value number)) (messages : Value number) (prompt_estimate : Z)
    : RoutingRequirements :=
  let requested_output := requested_output_tokens_from_map body in
  {| context_tokens := if 0 <? requested_output then Some (u64_sat_add prompt_estimate requested_output) else None;
     req_image_input := request_requires_image_input messages;
     req_tools := request_requires_tools body;
     req_streaming := bool_decide (obj_get body (lit "stream") ≫= as_bool = Some true);
     surface := SurfaceText |}.

Definition u64_sat_mul (a b : Z) : Z := Z.min (a * b) u64_max.

(** The bytes of the request body, as the serializer writes it, bound its tokens. *)
Definition conservative_token_reservation `{JsonText number} (body : Value number) : result Z message :=
  let requested_output := requested_output_tokens body in
  if requested_output =? 0
  then Err (Msg "TPM-limited requests must set max_tokens or max_completion_tokens" [])
  else
    let? completions :=
      match value_get body (lit "n") with
      | None => Ok 1
      | Some value =>
          ok_or (count ← as_u64 value; if 0 <? count then Some count else None)
            (Msg "TPM-limited requests require n to be a positive integer" [])
      end in
    let? request_bytes :=
      match to_vec body with
      | Ok encoded => Ok (len encoded)
      | Err _ => Err (Msg "TPM-limited request could not be bounded" [])
      end in
    Ok (u64_sat_add request_bytes (u64_sat_mul requested_output completions)).

(** ** Explicit selections *)
Inductive RequestSelection :=
| SelectModel (model : str)
| SelectPreset (name : str) (models : list str).

Section Selection.
(** The state the handler reads: routing, models and route presets. *)
Context (routing : RoutingConfig) (models : list ConfiguredModel) (route_presets : list (str * RoutePreset)).

Definition resolve_request_selection (model_field : option (Value number)) : result (option RequestSelection) message :=
  match model_field ≫= as_str with
  | None => Ok None
  | Some field =>
      let name := trim field in
      if str_eqb name [] || str_eqb name AUTO_MODEL then Ok None
      else if starts_with name ROUTE_PRESET_PREFIX then
        let route_name := drop (length ROUTE_PRESET_PREFIX) name in
        match ix_get route_presets route_name with
        | None => Err (Msg "unknown routing preset '{name}'; configure [gateway.routes.{route_name}] first"
                         [ArgStr name; ArgStr route_name])
        | Some route => Ok (Some (SelectPreset route_name (rp_models route)))
        end
      else if tiered routing && str_eqb name PREFER_LOW then Ok (SelectModel <$> first_model routing)
      else if tiered routing && (str_eqb name PREFER_HIGH || str_eqb name PREFER_HIGH_ALIAS)
           then Ok (SelectModel <$> last_model routing)
      else Ok (if existsb (fun model => str_eqb (m_name model) name) models then Some (SelectModel name) else None)
  end.
End Selection.
End Requests.

(** [allowed.iter().min()]. *)
Definition str_min (l : list str) : option str :=
  match l with
  | [] => None
  | x :: l => Some (foldl (fun a b => match str_cmp b a with Lt => b | _ => a end) x l)
  end.

(** The last allowed model of the ladder at or below the choice. *)
Definition lower_allowed (chosen : str) (ladder in_ladder : list str) : option str :=
  chosen_index ← index_of chosen ladder;
  List.find (fun model => match index_of model ladder with
                          | Some index => (index <=? chosen_index)%nat
                          | None => false
                          end) (rev in_ladder).

Definition clamp_to_allowed (chosen : str) (ladder allowed : list str) : str :=
  if match allowed with [] => true | _ => false end || existsb (fun model => str_eqb model chosen) allowed then chosen
  else
    let in_ladder := List.filter (fun model => existsb (fun a => str_eqb a model) allowed) ladder in
    match in_ladder with
    | [] => default chosen (str_min allowed)
    | first :: _ => default first (lower_allowed chosen ladder in_ladder)
    end.

(** ** Eligible destinations *)
Lemma push_if_empty b r : push_if b r = [] <-> b = false.
Proof. by destruct b. Qed.

Lemma filter_push_if p b r : List.filter p (push_if b r) = if p r then push_if b r else [].
Proof. destruct b; cbn; by destruct (p r). Qed.

Lemma target_eligible_iff parse_url request offline prompt_estimate target :
  target_eligible parse_url request offline prompt_estimate target = true <->
  m_key_ready target = true /\
  permits (rq_privacy_posture request) (model_execution_boundary parse_url target) = true /\
  surface (rq_requirements request) = SurfaceText /\ req_image_input (rq_requirements request) = false /\
  (req_tools (rq_requirements request) = true -> m_provider target = OpenAiCompatible \/ m_provider target = Anthropic) /\
  (forall window, m_context_window target = Some window -> prompt_estimate <= window /\
     forall required, context_tokens (rq_requirements request) = Some required -> required <= window) /\
  (offline = true ->
     (m_provider target = AppleFoundationModels /\ m_tier target = Some LocalTier) \/
     (m_provider target = OpenAiCompatible /\ exists host, endpoint_host parse_url (m_endpoint target) = Some host /\
        (is_localhost host = true \/ exists a, parse_ip (address_host host) = Some a /\ is_loopback a = true))).
Proof.
  unfold target_eligible, assess_model, is_eligible. cbn [ca_exclusions assess_destination].
  set (snap := destination_snapshot parse_url target). set (req := rq_requirements request).
  assert (model_is_proven_local parse_url target = true <->
    (m_provider target = AppleFoundationModels /\ m_tier target = Some LocalTier) \/
    (m_provider target = OpenAiCompatible /\ exists host, endpoint_host parse_url (m_endpoint target) = Some host /\
        (is_localhost host = true \/ exists a, parse_ip (address_host host) = Some a /\ is_loopback a = true))) as Hlocal.
  { unfold model_is_proven_local. rewrite orb_true_iff, !andb_true_iff, !bool_decide_eq_true, literal_loopback_spec.
    by destruct (m_tier target) as [[]|]; intuition. }
  rewrite <-Hlocal. clear Hlocal.
  unfold exclusions_of. rewrite !List.filter_app, !filter_push_if.
  cbn [snap destination_snapshot ds_readiness ds_execution_boundary ds_capabilities ds_context_window ds_automatic_eligible
       model_capabilities cap_text cap_streaming cap_image_input cap_tools modalities no_modalities embeddings
       image_generation audio_input audio_output batch negb andb]. fold req.
  rewrite !(bool_decide_eq_false_2 (_ = ContextWindowUnknown)) by done. cbn [negb].
  unfold precheck_ok. rewrite !andb_true_iff, andb_false_r, andb_true_r.
  assert (forall (l : list ExclusionReason), match l with [] => true | _ => false end = true <-> l = []) as Hnil by by intros [].
  rewrite Hnil, !app_nil, !push_if_empty. clear Hnil.
  destruct (m_key_ready target); [|split; [by intros [[[? _] _] _]|by intros [? _]]].
  rewrite bool_decide_eq_true_2, orb_true_iff, negb_true_iff, andb_false_iff, !negb_false_iff by done.
  assert (match m_provider target with OpenAiCompatible | Anthropic => true | _ => false end = true <->
    (m_provider target = OpenAiCompatible \/ m_provider target = Anthropic)) as -> by (destruct (m_provider target); naive_solver).
  set (keep := fun reason => negb (bool_decide (reason = ContextWindowUnknown))).
  assert (List.filter keep match context_tokens req with
      | Some required => match m_context_window target with
                         | Some available => push_if (available <? required) ContextWindowTooSmall
                         | None => [ContextWindowUnknown] end
      | None => [] end = [] <->
    forall window, m_context_window target = Some window ->
      forall required, context_tokens req = Some required -> required <= window) as ->.
  { destruct (context_tokens req) as [required|]; [|by split; [intros _ ? _ ? [=]|]].
    destruct (m_context_window target) as [window|]; [|by split; [intros _ ? [=]|]].
    rewrite filter_push_if. change (keep ContextWindowTooSmall) with true. cbn iota. rewrite push_if_empty, Z.ltb_ge. naive_solver. }
  assert (match m_context_window target with Some window => prompt_estimate <=? window | None => true end = true <->
    forall window, m_context_window target = Some window -> prompt_estimate <= window) as ->.
  { destruct (m_context_window target) as [window|]; [rewrite Z.leb_le; naive_solver|done]. }
  assert (List.filter keep match surface req with
      | SurfaceText => push_if false TextUnsupported
      | SurfaceEmbeddings => push_if true EmbeddingsUnsupported
      | SurfaceImageGeneration => push_if true ImageGenerationUnsupported
      | SurfaceAudio => push_if true AudioUnsupported
      | SurfaceBatch => push_if true BatchUnsupported end = [] <-> surface req = SurfaceText) as ->
    by by destruct (surface req).
  split.
  - intros [[(_ & ? & ? & Hc & ? & Ht & _) Ho] He]. split_and!; try done.
    + intros Hr. destruct Ht as [Ht|]; [congruence|done].
    + intros window Hw. split; [by apply He|]. by apply Hc.
    + intros Hoff. destruct Ho; [congruence|done].
  - intros (_ & ? & ? & ? & Ht & Hw & Ho). split_and!; try done.
    + intros window Hwin. by destruct (Hw window Hwin).
    + destruct (req_tools req); [right; auto|by left].
    + destruct offline; [right; auto|by left].
    + intros window Hwin. by destruct (Hw window Hwin).
Qed.

(** A deployment is offered a request exactly when nothing forbids it: its
    credential is there, the privacy posture permits where it executes, the
    request is a text request without images, it has tools if the request
    does, what is known of its context window is enough, and, offline, it is
    proven local: an on-device Apple model or an OpenAI-compatible endpoint
    whose host is a loopback address or [localhost]. *)
Theorem eligible_targets_iff parse_url targets request offline prompt_estimate target :
  target ∈ eligible_deployment_targets parse_url targets request offline prompt_estimate <->
  target ∈ targets /\ m_key_ready target = true /\
  permits (rq_privacy_posture request) (model_execution_boundary parse_url target) = true /\
  surface (rq_requirements request) = SurfaceText /\ req_image_input (rq_requirements request) = false /\
  (req_tools (rq_requirements request) = true -> m_provider target = OpenAiCompatible \/ m_provider target = Anthropic) /\
  (forall window, m_context_window target = Some window -> prompt_estimate <= window /\
     forall required, context_tokens (rq_requirements request) = Some required -> required <= window) /\
  (offline = true ->
     (m_provider target = AppleFoundationModels /\ m_tier target = Some LocalTier) \/
     (m_provider target = OpenAiCompatible /\ exists host, endpoint_host parse_url (m_endpoint target) = Some host /\
        (is_localhost host = true \/ exists a, parse_ip (address_host host) = Some a /\ is_loopback a = true))).
Proof. unfold eligible_deployment_targets. by rewrite elem_of_filter_bool, target_eligible_iff. Qed.

(** ** Clamping *)
Lemma index_of_lookup model ladder i : index_of model ladder = Some i -> ladder !! i = Some model.
Proof.
  revert i. induction ladder as [|x ladder IH]; intros i; cbn [index_of]; [done|].
  destruct (str_eqb x model) eqn:E; [apply str_eqb_eq in E as ->; by intros [= <-]|].
  destruct (index_of model ladder) as [j|]; [|done]. intros [= <-]. by apply IH.
Qed.

Lemma index_of_NoDup model ladder i : NoDup ladder -> ladder !! i = Some model -> index_of model ladder = Some i.
Proof.
  intros Hn. revert i. induction Hn as [|x ladder Hx Hn IH]; intros i; [done|]. cbn [index_of].
  destruct i as [|i]; cbn [lookup list_lookup]; [intros [= ->]; by rewrite str_eqb_refl|]. intros Hi.
  assert (x <> model) as Hne by (intros ->; by apply Hx, list_elem_of_lookup; exists i).
  apply str_eqb_neq in Hne as ->. by rewrite (IH i Hi).
Qed.

Lemma str_min_elem l m : str_min l = Some m -> m ∈ l.
Proof.
  destruct l as [|x l]; [done|]. cbn [str_min]. intros [= <-]. revert x.
  induction l as [|y l IH]; intros x; cbn [foldl]; [left|]. destruct (str_cmp y x); specialize (IH x) as H1;
    specialize (IH y) as H2; set_solver.
Qed.

(** In a sublist of a list without duplicates the order is that of the list. *)
Lemma sublist_later {A} (l a b : list A) r m k i :
  NoDup l -> sublist (a ++ r :: b) l -> l !! k = Some r -> l !! i = Some m -> (k < i)%nat -> m ∈ a ++ r :: b -> m ∈ b.
Proof.
  intros Hn Hsub Hk Hi Hlt [Hm|Hm]%elem_of_app; [exfalso|apply elem_of_cons in Hm as [->|Hm]; [exfalso|done]].
  - revert k i Hk Hi Hlt Hm. remember (a ++ r :: b) as s eqn:Hs. revert a Hs.
    induction Hsub as [|x s l Hsub IH|x s l Hsub IH]; intros a Hs k i Hk Hi Hlt Hm; [by destruct a|..].
    + apply NoDup_cons in Hn as [Hx Hn]. destruct a as [|y a]; [by apply not_elem_of_nil in Hm|]. injection Hs as -> Hs.
      destruct k as [|k].
      * cbn in Hk. assert (y = r) as -> by congruence. apply Hx. eapply elem_of_submseteq; [|by apply sublist_submseteq]. rewrite Hs. set_solver.
      * destruct i as [|i]; [lia|]. apply elem_of_cons in Hm as [->|Hm].
        -- apply Hx, list_elem_of_lookup. by exists i.
        -- eapply (IH Hn a Hs k i); [done|done|lia|done].
    + apply NoDup_cons in Hn as [Hx Hn]. destruct i as [|i]; [lia|]. destruct k as [|k].
      * cbn in Hk. assert (x = r) as -> by congruence. apply Hx. eapply elem_of_submseteq; [|by apply sublist_submseteq]. rewrite Hs. set_solver.
      * eapply (IH Hn a Hs k i); [done|done|lia|done].
  - assert (k = i); [|lia]. by eapply NoDup_lookup.
Qed.

Lemma lower_allowed_elem chosen ladder pool m : lower_allowed chosen ladder pool = Some m -> m ∈ pool.
Proof.
  unfold lower_allowed. destruct (index_of chosen ladder) as [c|]; [|done]. cbn [mbind option_bind].
  intros [Hf _]%find_some. by rewrite <-elem_of_rev, list_elem_of_In.
Qed.

(** The search from the top finds the highest member of the pool that is not
    above the choice. *)
Lemma lower_allowed_best chosen ladder pool c i m :
  NoDup ladder -> sublist pool ladder -> ladder !! c = Some chosen -> ladder !! i = Some m -> m ∈ pool -> (i <= c)%nat ->
  exists r k, lower_allowed chosen ladder pool = Some r /\ ladder !! k = Some r /\ (i <= k <= c)%nat.
Proof.
  intros Hn Hsub Hc Hi Hm Hic. unfold lower_allowed. rewrite (index_of_NoDup _ _ _ Hn Hc). cbn [mbind option_bind].
  set (p := fun model => match index_of model ladder with Some index => (index <=? c)%nat | None => false end).
  assert (Hpm : p m = true) by (unfold p; rewrite (index_of_NoDup _ _ _ Hn Hi); by apply Nat.leb_le).
  destruct (List.find p (rev pool)) as [r|] eqn:Hf.
  - apply find_first in Hf as (later & earlier & Hrev & Hr & Hlater). unfold p in Hr.
    destruct (index_of r ladder) as [k|] eqn:Hk; [|done]. apply Nat.leb_le in Hr. apply index_of_lookup in Hk.
    exists r, k. split; [done|]. split; [done|]. split; [|done].
    destruct (decide (i <= k)%nat) as [|Hgt]; [done|]. exfalso.
    assert (pool = rev earlier ++ r :: rev later) as Hsplit.
    { rewrite <-(rev_involutive pool), Hrev, rev_app_distr. simpl. by rewrite <-app_assoc. }
    rewrite Hsplit in Hsub, Hm.
    assert (m ∈ later) as Hml.
    { apply elem_of_rev. eapply sublist_later; [exact Hn|exact Hsub|exact Hk|exact Hi|lia|exact Hm]. }
    rewrite Forall_forall in Hlater. by rewrite (Hlater m Hml) in Hpm.
  - apply find_none_forall in Hf. rewrite Forall_forall in Hf.
    by rewrite (Hf m) in Hpm by by apply elem_of_rev.
Qed.

(** A key restricted to some models never gets another one. *)
Lemma clamp_to_allowed_in chosen ladder allowed : allowed <> [] -> clamp_to_allowed chosen ladder allowed ∈ allowed.
Proof.
  intros Hne. unfold clamp_to_allowed.
  assert (forall m, existsb (fun a => str_eqb a m) allowed = true <-> m ∈ allowed) as Hin.
  { intros m. rewrite existsb_exists. split.
    - intros (a & Ha & ->%str_eqb_eq). by apply list_elem_of_In.
    - intros Hm. exists m. by rewrite <-list_elem_of_In, str_eqb_refl. }
  destruct (match allowed with [] => true | _ => false end || existsb (fun model => str_eqb model chosen) allowed) eqn:Hkeep.
  { destruct allowed; [done|]. by apply Hin. }
  set (pool := List.filter (fun model => existsb (fun a => str_eqb a model) allowed) ladder).
  assert (forall m, m ∈ pool -> m ∈ allowed) as Hpool by (intros m; unfold pool; rewrite elem_of_filter_bool, Hin; by intros [_ ?]).
  destruct pool as [|first rest] eqn:Hp.
  - destruct (str_min allowed) as [m|] eqn:Hm; [by apply str_min_elem|]. by destruct allowed.
  - apply Hpool. destruct (lower_allowed chosen ladder (first :: rest)) as [m|] eqn:Hf; [by eapply lower_allowed_elem|left].
Qed.

(** A key restricted to some models never gets another one.  Its choice
    stands when it is allowed; otherwise it gets the highest allowed tier of
    the ladder at or below the choice, or the lowest allowed one when all are
    above (or the choice is not on the ladder), or an allowed model when none
    is on the ladder. *)
Theorem clamp_to_allowed_spec chosen ladder allowed :
  NoDup ladder ->
  let result := clamp_to_allowed chosen ladder allowed in
  (allowed = [] -> result = chosen) /\ (allowed <> [] -> result ∈ allowed) /\
  (chosen ∈ allowed -> result = chosen) /\
  (forall c, allowed <> [] -> chosen ∉ allowed -> ladder !! c = Some chosen ->
     forall i m, ladder !! i = Some m -> m ∈ allowed -> (i <= c)%nat ->
     exists r, ladder !! r = Some result /\ (i <= r <= c)%nat).
Proof.
  intros Hn. cbn zeta. unfold clamp_to_allowed.
  assert (forall m, existsb (fun a => str_eqb a m) allowed = true <-> m ∈ allowed) as Hin.
  { intros m. rewrite existsb_exists. split.
    - intros (a & Ha & ->%str_eqb_eq). by apply list_elem_of_In.
    - intros Hm. exists m. by rewrite <-list_elem_of_In, str_eqb_refl. }
  destruct (match allowed with [] => true | _ => false end || existsb (fun model => str_eqb model chosen) allowed) eqn:Hkeep.
  { split_and!; try done.
    - intros Hne. destruct allowed as [|a allowed]; [done|]. by apply Hin.
    - intros c Hne Hc. destruct allowed as [|a allowed]; [done|]. cbn [orb] in Hkeep. by apply Hin in Hkeep. }
  apply orb_false_iff in Hkeep as [Hne Hno]. assert (allowed <> []) as Hne' by by destruct allowed.
  assert (chosen ∉ allowed) as Hno' by (rewrite <-Hin; congruence). clear Hne Hno.
  set (pool := List.filter (fun model => existsb (fun a => str_eqb a model) allowed) ladder).
  assert (forall m, m ∈ pool <-> m ∈ ladder /\ m ∈ allowed) as Hpool.
  { intros m. unfold pool. by rewrite elem_of_filter_bool, Hin. }
  pose proof (clamp_to_allowed_in chosen ladder allowed Hne') as Hallowed. unfold clamp_to_allowed in Hallowed.
  destruct (match allowed with [] => true | _ => false end || _); [by split_and!; try done; intros; destruct Hno'|].
  split; [done|]. split; [done|split; [done|]].
  - intros c _ _ Hc i m Hi Hm Hic.
    assert (m ∈ pool) as Hmp by (apply Hpool; split; [apply list_elem_of_lookup; by exists i|done]).
    destruct (lower_allowed_best chosen ladder pool c i m) as (r & k & Hr & Hk & Hik); try done.
    { apply list_filter_sublist. }
    rewrite Hr. destruct pool as [|first rest]; [by apply not_elem_of_nil in Hmp|]. by exists k.
Qed.

Lemma clamp_to_allowed_spec_witness :
  clamp_to_allowed (lit "cloud") (map lit ["local"; "mid"; "cloud"]%string) (map lit ["mid"; "local"]%string) = lit "mid" /\
  clamp_to_allowed (lit "cloud") (map lit ["local"; "mid"; "cloud"]%string) (map lit ["mid"; "local"]%string)
    ∈ map lit ["mid"; "local"]%string.
Proof.
  split; [vm_compute; reflexivity|]. apply clamp_to_allowed_spec; [|discriminate].
  apply (bool_decide_unpack _). vm_compute. exact I.
Defined.
