(* ===== verification/Delivery.v ===== *)
(** * Buffered delivery (crate [wayfinder-gateway], [src/lib.rs])

    One request is sent along a delivery plan: for each alias its eligible
    deployments in the selected order, for each deployment a circuit lease and
    a bounded number of attempts.  The composition of [Models],
    [DeploymentSelection], [Eligibility] and [Reliability].

    The provider, the clocks, the jitter and the optional shared health backend
    are the environment.  The n-th time the environment is asked for anything,
    it answers with its n-th value; [w_tick] counts the questions. *)
From S2P Require Export Eligibility DeploymentSelection.

(** ** Provider outcomes *)
Inductive ProviderError :=
| ProviderInvalidEndpoint | InvalidClientConfig | InvalidCredential | ClientBuild | Transport
| ResponseTooLarge (limit : Z).

Inductive AppleDeliveryError := AppleUnsupported | AppleNotReady | AppleUnavailable | AppleInvalidRequest | AppleInvalidResponse.
Inductive AnthropicDeliveryError := AnthropicInvalidRequest | AnthropicInvalidResponse.
Inductive CodexDeliveryError :=
| CodexUnavailable | AuthenticationRequired | CodexModelUnavailable | Busy | UsageLimitReached | CodexInvalidRequest
| CodexInvalidResponse | TurnFailed | Interrupted.

Inductive DeliveryError :=
| DeliveryInvalidEndpoint
| CredentialUnavailable
| Provider (e : ProviderError)
| Apple (e : AppleDeliveryError)
| AnthropicError (e : AnthropicDeliveryError)
| Codex (e : CodexDeliveryError).

Record BufferedDeliveryResponse := {
  br_status : Z;
  br_content_type : str;
  br_body : list Z;
}.

(** The status and error type of a fatal failure. *)
Definition fatal_delivery_status (error : DeliveryError) : Z * str :=
  let not_ready := lit "wayfinder_router_not_ready" in
  let unsupported := lit "wayfinder_router_unsupported_request" in
  let upstream := lit "wayfinder_router_upstream_error" in
  match error with
  | DeliveryInvalidEndpoint | Provider ProviderInvalidEndpoint => (500, lit "wayfinder_router_misconfigured")
  | CredentialUnavailable | Provider InvalidCredential => (503, not_ready)
  | Apple (AppleUnsupported | AppleNotReady | AppleUnavailable) => (503, not_ready)
  | Apple AppleInvalidRequest => (400, unsupported)
  | Apple AppleInvalidResponse => (502, upstream)
  | AnthropicError AnthropicInvalidRequest => (400, unsupported)
  | AnthropicError AnthropicInvalidResponse => (502, upstream)
  | Codex (CodexUnavailable | AuthenticationRequired | CodexModelUnavailable) => (503, not_ready)
  | Codex UsageLimitReached => (429, lit "wayfinder_router_usage_limited")
  | Codex Busy => (409, lit "wayfinder_router_busy")
  | Codex CodexInvalidRequest => (400, unsupported)
  | Codex CodexInvalidResponse => (502, upstream)
  | Codex TurnFailed => (502, upstream)
  | Codex Interrupted => (409, lit "wayfinder_router_interrupted")
  | Provider _ => (502, upstream)
  end.

(** [s.contains(pattern)]. *)
Fixpoint str_contains (s pattern : str) : bool :=
  starts_with s pattern || match s with [] => false | _ :: rest => str_contains rest pattern end.

(** ** The shared health backend *)
Class SharedHealth (B : Type) := {
  begin_provider_health : B -> str -> Z -> Z -> str -> B * result bool unit;
  complete_provider_health : B -> str -> Z -> Z -> str -> bool -> B;
  release_provider_health : B -> str -> str -> B;
}.

(** No backend: what the in-process state configures. *)
#[export] Instance no_shared_health : SharedHealth unit := {
  begin_provider_health b _ _ _ _ := (b, Ok true);
  complete_provider_health b _ _ _ _ _ := b;
  release_provider_health b _ _ := b;
}.

Section Delivery.
Context {number : Type} `{JsonText number}.
Context {B : Type} `{SharedHealth B}.
Context (parse_url : str -> option Url).

(** The environment. *)
Context (env_send : nat -> ConfiguredModel -> result BufferedDeliveryResponse DeliveryError)
        (env_elapsed env_clock env_signal_clock : nat -> f64) (env_jitter : nat -> nat -> f64).

(** What the snapshot of the gateway state fixes. *)
Context (models : list ConfiguredModel) (policy : ReliabilityPolicy) (shared_health : bool).

Record World := {
  w_cursors : btree Z;
  w_signals : SignalStore;
  w_breaker : CircuitBreaker;
  w_shared : B;
  w_sent : list ConfiguredModel;
  w_tick : nat;
}.

Definition ask (w : World) : World * nat :=
  ({| w_cursors := w_cursors w; w_signals := w_signals w; w_breaker := w_breaker w; w_shared := w_shared w;
      w_sent := w_sent w; w_tick := S (w_tick w) |}, w_tick w).

Definition set_cursors (w : World) (c : btree Z) : World :=
  {| w_cursors := c; w_signals := w_signals w; w_breaker := w_breaker w; w_shared := w_shared w;
     w_sent := w_sent w; w_tick := w_tick w |}.
Definition set_breaker (w : World) (b : CircuitBreaker) : World :=
  {| w_cursors := w_cursors w; w_signals := w_signals w; w_breaker := b; w_shared := w_shared w;
     w_sent := w_sent w; w_tick := w_tick w |}.
Definition set_shared (w : World) (s : B) : World :=
  {| w_cursors := w_cursors w; w_signals := w_signals w; w_breaker := w_breaker w; w_shared := s;
     w_sent := w_sent w; w_tick := w_tick w |}.
Definition set_signals (w : World) (s : SignalStore) : World :=
  {| w_cursors := w_cursors w; w_signals := s; w_breaker := w_breaker w; w_shared := w_shared w;
     w_sent := w_sent w; w_tick := w_tick w |}.
Definition log_sent (w : World) (m : ConfiguredModel) : World :=
  {| w_cursors := w_cursors w; w_signals := w_signals w; w_breaker := w_breaker w; w_shared := w_shared w;
     w_sent := w_sent w ++ [m]; w_tick := w_tick w |}.

(** ** Observations *)
Definition first_choice_text (response : Value number) : str :=
  default [] (choices ← value_get response (lit "choices") ≫= as_array;
              choice ← head choices ≫= as_object;
              message ← obj_get choice (lit "message") ≫= as_object;
              obj_get message (lit "content") ≫= as_str).

Definition buffered_observation (response : BufferedDeliveryResponse) (elapsed_seconds : f64) : DeploymentObservation :=
  let completion_chars :=
    if str_contains (br_content_type response) (lit "json") then
      match from_slice (br_body response) with
      | Ok value => let chars := len (first_choice_text value) in if 0 <? chars then Some chars else None
      | Err _ => None
      end
    else None in
  let throughput :=
    chars ← completion_chars;
    if f64_gt elapsed_seconds f64_zero then Some (f64_div (f64_of_Z chars) elapsed_seconds) else None in
  if (200 <=? br_status response) && (br_status response <? 300)
  then observation_success elapsed_seconds None throughput
  else observation_failure (Some elapsed_seconds) (Some (br_status response)).

Definition observe_deployment (w : World) (deployment_id : str) (o : DeploymentObservation) : World :=
  let '(w, t) := ask w in
  set_signals w (observe (w_signals w) (env_signal_clock t) deployment_id o).

(** ** Leases *)
Record CombinedReliabilityAttempt := {
  ca_local : ReliabilityAttempt;
  ca_shared : bool;
  ca_probe_id : str;
}.

(** [attempt.complete(succeeded).await]: the local outcome, with the clock it
    reads and the clock its drop would read, then the shared one. *)
Definition complete_attempt (w : World) (a : CombinedReliabilityAttempt) (succeeded : bool)
    : World * result unit ReliabilityError :=
  let '(w, t1) := ask w in
  let '(w, t2) := ask w in
  let '(b, r) := complete (w_breaker w) (ca_local a) succeeded (env_clock t1) (env_clock t2) in
  let w := set_breaker w b in
  if ca_shared a then
    (set_shared w (complete_provider_health (w_shared w) (at_target (ca_local a)) (rp_breaker_threshold policy)
                     (rp_breaker_cooldown_ms policy) (ca_probe_id a) succeeded), r)
  else (w, r).

(** [attempt.release_in_background()]: the local attempt is dropped. *)
Definition release_attempt (w : World) (a : CombinedReliabilityAttempt) : World :=
  let '(w, t) := ask w in
  let w := set_breaker w (drop_attempt (w_breaker w) (ca_local a) (env_clock t)) in
  if ca_shared a then set_shared w (release_provider_health (w_shared w) (at_target (ca_local a)) (ca_probe_id a)) else w.

Definition begin_reliability_attempt (w : World) (target probe_id : str)
    : World * result (option CombinedReliabilityAttempt) ReliabilityError :=
  let '(w, shared) :=
    if shared_health then
      let '(s, r) := begin_provider_health (w_shared w) target (rp_breaker_threshold policy)
                       (rp_breaker_cooldown_ms policy) probe_id in
      (set_shared w s, match r with Ok true => Some true | Ok false => None | Err _ => Some false end)
    else (w, Some false) in
  match shared with
  | None => (w, Ok None)
  | Some shared =>
      let '(w, t) := ask w in
      let release w := if shared then set_shared w (release_provider_health (w_shared w) target probe_id) else w in
      match begin_attempt (w_breaker w) (env_clock t) target with
      | Err e => (release w, Err e)
      | Ok (b, None) => (release (set_breaker w b), Ok None)
      | Ok (b, Some attempt) =>
          (set_breaker w b, Ok (Some {| ca_local := attempt; ca_shared := shared; ca_probe_id := probe_id |}))
      end
  end.

(** ** The attempts on one target *)
Inductive ReliableDeliveryFailure :=
| Exhausted (last_error : message)
| Fatal (error : DeliveryError)
| Misconfigured (m : message)
| StateFailure (e : ReliabilityError).

Inductive attempt_result :=
| Served (response : BufferedDeliveryResponse)
| Stopped (failure : ReliableDeliveryFailure)
| Failing (last_error : message).

Definition elapsed_observation (w : World) (target_id : str) (status : option Z) : World :=
  let '(w, t) := ask w in
  observe_deployment w target_id (observation_failure (Some (env_elapsed t)) status).

(** One round of the retry loop.  Metrics are not modelled. *)
Definition try_once (w : World) (target : ConfiguredModel) (a : CombinedReliabilityAttempt) : World * attempt_result :=
  let target_id := delivery_id target in
  let '(w, t) := ask w in
  let w := log_sent w target in
  match env_send t target with
  | Ok response =>
      let status := br_status response in
      if negb (is_retryable (Some status)) then
        let '(w, r) :=
          if is_auth_failure (Some status) then complete_attempt (elapsed_observation w target_id (Some status)) a false
          else
            let '(w, t) := ask w in
            complete_attempt (observe_deployment w target_id (buffered_observation response (env_elapsed t))) a true in
        match r with
        | Ok _ => (w, Served response)
        | Err e => (w, Stopped (StateFailure e))
        end
      else (elapsed_observation w target_id (Some status), Failing (Msg "upstream returned {status}" [ArgInt status]))
  | Err error =>
      let w := elapsed_observation w target_id None in
      match error with
      | Provider Transport => (w, Failing (Msg "provider transport failed" []))
      | _ => (release_attempt w a, Stopped (Fatal error))
      end
  end.

(** [for attempt in 0..=retries]: [more] rounds are left after this one.  The
    sleeps between rounds change nothing. *)
Fixpoint retry_loop (w : World) (target : ConfiguredModel) (a : CombinedReliabilityAttempt) (more : nat)
    : World * attempt_result :=
  let '(w, r) := try_once w target a in
  match r, more with
  | Failing _, S more => retry_loop w target a more
  | _, _ => (w, r)
  end.

(** What the loop over the targets of an alias leaves. *)
Inductive pass_result :=
| Delivered (target : ConfiguredModel) (response : BufferedDeliveryResponse)
| Aborted (failure : ReliableDeliveryFailure)
| Continue (last_error : message).

Fixpoint targets_loop (w : World) (request_id : str) (targets : list ConfiguredModel) (last_error : message)
    : World * pass_result :=
  match targets with
  | [] => (w, Continue last_error)
  | target :: targets =>
      let target_id := delivery_id target in
      if negb (bool_decide (m_deployment_id target = None)) && negb (m_key_ready target) then
        targets_loop w request_id targets (Msg "deployment '{target_id}' credential is unavailable" [ArgStr target_id])
      else
        match begin_reliability_attempt w target_id request_id with
        | (w, Err e) => (w, Aborted (StateFailure e))
        | (w, Ok None) => targets_loop w request_id targets last_error
        | (w, Ok (Some a)) =>
            let '(w, r) := retry_loop w target a (rp_retries policy) in
            match r with
            | Served response => (w, Delivered target response)
            | Stopped failure => (w, Aborted failure)
            | Failing last_error =>
                match complete_attempt w a false with
                | (w, Ok _) => targets_loop w request_id targets last_error
                | (w, Err e) => (w, Aborted (StateFailure e))
                end
            end
        end
  end.

(** ** The plan *)
Record BufferedDeliveryOutcome := {
  served_by_alias : str;
  served_by_id : str;
  outcome_boundary : ExecutionBoundary;
  selection_reason : str;
  response : BufferedDeliveryResponse;
}.

Definition select_deployments (w : World) (alias : str) (candidates : list ConfiguredModel) : World * DeploymentSelection :=
  let '(w, t) := ask w in
  let selection :=
    match find_model models alias with Some model => m_deployment_selection model | None => default_selection end in
  (w, select (w_signals w) (env_signal_clock t) selection candidates).

Fixpoint plan_loop (w : World) (plan : list str) (request : RoutingRequest) (offline : bool) (prompt_estimate : Z)
    (last_error : message) : World * result BufferedDeliveryOutcome ReliableDeliveryFailure :=
  match plan with
  | [] => (w, Err (Exhausted last_error))
  | target_name :: plan =>
      let '(configured, c) := deployment_candidates models (w_cursors w) target_name in
      let w := set_cursors w c in
      match configured with
      | [] => (w, Err (Misconfigured (Msg "no gateway endpoint configured for model '{target_name}'" [ArgStr target_name])))
      | _ =>
          match eligible_deployment_targets parse_url configured request offline prompt_estimate with
          | [] =>
              plan_loop w plan request offline prompt_estimate
                (Msg "configured delivery target '{target_name}' has no eligible deployment for this request"
                   [ArgStr target_name])
          | eligible =>
              let '(w, selection) := select_deployments w target_name eligible in
              match targets selection with
              | [] =>
                  plan_loop w plan request offline prompt_estimate
                    (Msg "configured delivery target '{target_name}' is excluded by its deployment price ceiling"
                       [ArgStr target_name])
              | targets =>
                  let '(w, r) := targets_loop w (rq_request_id request) targets last_error in
                  match r with
                  | Delivered target response =>
                      (w, Ok {| served_by_alias := target_name; served_by_id := delivery_id target;
                                outcome_boundary := model_execution_boundary parse_url target;
                                selection_reason := reason selection; response := response |})
                  | Aborted failure => (w, Err failure)
                  | Continue last_error => plan_loop w plan request offline prompt_estimate last_error
                  end
              end
          end
      end
  end.

Definition deliver_with_reliability (w : World) (plan : list str) (request : RoutingRequest) (offline : bool)
    (prompt_estimate : Z) : World * result BufferedDeliveryOutcome ReliableDeliveryFailure :=
  plan_loop w plan request offline prompt_estimate (Msg "no upstream available" []).

(** ** What a step may do *)

(** From [w] to [w'] at most [n] requests are sent, all to targets in [P]. *)
Definition sends (P : ConfiguredModel -> Prop) (n : nat) (w w' : World) : Prop :=
  exists new, w_sent w' = w_sent w ++ new /\ Forall P new /\ (length new <= n)%nat.

Lemma sends_refl P w w' : w_sent w' = w_sent w -> sends P 0 w w'.
Proof. unfold sends. intros ->. exists []. by rewrite app_nil_r. Qed.

Lemma sends_trans P n m w1 w2 w3 : sends P n w1 w2 -> sends P m w2 w3 -> sends P (n + m) w1 w3.
Proof.
  intros (a & Ha & Pa & La) (b & Hb & Pb & Lb). exists (a ++ b).
  rewrite Hb, Ha, app_assoc, Forall_app, length_app. split_and!; [done|done|done|lia].
Qed.

Lemma sends_weaken (P Q : ConfiguredModel -> Prop) n m w w' :
  (forall x, P x -> Q x) -> (n <= m)%nat -> sends P n w w' -> sends Q m w w'.
Proof. intros HPQ Hle (a & Ha & Pa & La). exists a. split_and!; [done|by eapply Forall_impl|lia]. Qed.

(** The last request sent from [w] to [w'] went to [m]. *)
Definition answered_by (m : ConfiguredModel) (w w' : World) : Prop := exists front, w_sent w' = w_sent w ++ front ++ [m].

Lemma answered_last m w w' : answered_by m w w' -> last (w_sent w') = Some m.
Proof. intros [front ->]. by rewrite app_assoc, last_snoc. Qed.

Lemma sends_answered P n m w1 w2 w3 : sends P n w1 w2 -> answered_by m w2 w3 -> answered_by m w1 w3.
Proof. intros (new & Hn & _) [front Hf]. exists (new ++ front). by rewrite Hf, Hn, !app_assoc. Qed.

Lemma complete_attempt_sent w a ok : w_sent (complete_attempt w a ok).1 = w_sent w.
Proof.
  unfold complete_attempt. cbn [ask]. destruct (complete _ _ _ _ _) as [b r]. by destruct (ca_shared a).
Qed.

Lemma release_attempt_sent w a : w_sent (release_attempt w a) = w_sent w.
Proof. unfold release_attempt. cbn [ask]. by destruct (ca_shared a). Qed.

Lemma try_once_sends w target a :
  sends (eq target) 1 w (try_once w target a).1 /\
  match (try_once w target a).2 with
  | Served response => is_retryable (Some (br_status response)) = false
  | Stopped (Exhausted _ | Misconfigured _) => False
  | _ => True
  end.
Proof.
  assert (forall w', w_sent w' = w_sent w ++ [target] -> sends (eq target) 1 w w') as Hone.
  { intros w' Hw. exists [target]. rewrite Hw. split_and!; [done|by repeat constructor|done]. }
  unfold try_once. cbn [ask]. destruct (env_send _ target) as [response|error].
  - destruct (is_retryable (Some (br_status response))) eqn:Hr; cbn [negb]; [by split; [apply Hone|]|].
    set (wr := if is_auth_failure _ then _ else _).
    assert (w_sent wr.1 = w_sent w ++ [target]) as Hwr by (unfold wr; destruct (is_auth_failure _); by rewrite complete_attempt_sent).
    destruct wr as [w' [r|e]]; (split; [by apply Hone|done]).
  - destruct error as [| |[]| | |]; cbn [fst snd]; (split; [apply Hone; by rewrite ?release_attempt_sent|exact I]).
Qed.

Lemma try_once_last w target a : answered_by target w (try_once w target a).1.
Proof.
  exists []. cbn [app].
  unfold try_once. cbn [ask]. destruct (env_send _ target) as [response|error].
  - destruct (is_retryable _); cbn [negb]; [done|].
    set (wr := if is_auth_failure _ then _ else _).
    assert (w_sent wr.1 = w_sent w ++ [target]) as Hwr by (unfold wr; destruct (is_auth_failure _); by rewrite complete_attempt_sent).
    by destruct wr as [w' [r|e]].
  - destruct error as [| |[]| | |]; cbn [fst snd]; by rewrite ?release_attempt_sent.
Qed.

Lemma retry_loop_sends w target a more :
  let '(w', r) := retry_loop w target a more in
  sends (eq target) (S more) w w' /\
  match r with
  | Served response => is_retryable (Some (br_status response)) = false /\ answered_by target w w'
  | Stopped (Exhausted _ | Misconfigured _) => False
  | _ => True
  end.
Proof.
  revert w. induction more as [|more IH]; intros w; cbn [retry_loop].
  - pose proof (try_once_sends w target a) as [Hs Hr]. pose proof (try_once_last w target a) as Hl.
    destruct (try_once w target a) as [w' r]. cbn [fst snd] in *. destruct r as [response|f|e]; (split; [done|done]).
  - pose proof (try_once_sends w target a) as [Hs Hr]. pose proof (try_once_last w target a) as Hl.
    destruct (try_once w target a) as [w' r]. cbn [fst snd] in *.
    destruct r as [response|f|e]; [split; [by eapply sends_weaken, Hs; [|lia]|done]..|].
    specialize (IH w'). destruct (retry_loop w' target a more) as [w'' r']. destruct IH as [IH1 IH2].
    split; [exact (sends_trans _ 1 (S more) _ _ _ Hs IH1)|]. destruct r'; [|done|done]. destruct IH2 as [? ?].
    split; [done|]. by eapply sends_answered.
Qed.

(** ** Leases *)

(** Every reading of the policy clock is accepted. *)
Definition clock_ok : Prop := forall t, validated_now (env_clock t) = Ok (env_clock t).

Definition lease_of (a : CombinedReliabilityAttempt) : gset str :=
  match at_state (ca_local a) with HalfOpen => {[at_target (ca_local a)]} | Closed => ∅ end.

(** No lease is left that was not there, and the breaker stays well formed. *)
Definition settled (allowance : gset str) (w w' : World) : Prop :=
  half_open (w_breaker w') ⊆ half_open (w_breaker w) ∪ allowance /\
  (wf_breaker (w_breaker w) -> wf_breaker (w_breaker w')).

Lemma health_settled_refl w w' : w_breaker w' = w_breaker w -> settled ∅ w w'.
Proof. unfold settled. intros ->. split; [set_solver|done]. Qed.

Lemma health_settled_trans a w1 w2 w3 : settled ∅ w1 w2 -> settled a w2 w3 -> settled a w1 w3.
Proof. intros [H1 W1] [H2 W2]. split; [set_solver|auto]. Qed.

Lemma complete_attempt_settled w a ok :
  clock_ok -> (complete_attempt w a ok).2 = Ok () /\
  half_open (w_breaker (complete_attempt w a ok).1) = half_open (w_breaker w) ∖ {[at_target (ca_local a)]} /\
  (wf_breaker (w_breaker w) -> wf_breaker (w_breaker (complete_attempt w a ok).1)).
Proof.
  intros Hc. unfold complete_attempt. cbn [ask]. unfold complete. rewrite Hc.
  destruct (ca_shared a); cbn [fst snd w_breaker set_breaker set_shared]; split_and!; try done;
    try (intros; by apply wf_breaker_record); by destruct ok.
Qed.

Lemma release_attempt_settled w a :
  clock_ok -> half_open (w_breaker (release_attempt w a)) = half_open (w_breaker w) ∖ lease_of a /\
  (wf_breaker (w_breaker w) -> wf_breaker (w_breaker (release_attempt w a))).
Proof.
  intros Hc. unfold release_attempt, lease_of. cbn [ask].
  unfold drop_attempt. rewrite Hc.
  destruct (at_state (ca_local a)), (ca_shared a); cbn [w_breaker set_breaker set_shared abandon_at];
    (split; [by rewrite ?difference_empty_L | try (intros; by apply wf_breaker_record); done]).
Qed.

Lemma try_once_settled w target a :
  clock_ok ->
  match (try_once w target a).2 with
  | Failing _ => w_breaker (try_once w target a).1 = w_breaker w
  | Stopped (StateFailure _) => False
  | _ => half_open (w_breaker (try_once w target a).1) ⊆ half_open (w_breaker w) ∖ lease_of a /\
         (wf_breaker (w_breaker w) -> wf_breaker (w_breaker (try_once w target a).1))
  end.
Proof.
  intros Hc. unfold try_once. cbn [ask]. destruct (env_send _ target) as [response|error].
  - destruct (is_retryable _); cbn [negb]; [done|].
    set (wr := if is_auth_failure _ then _ else _).
    assert (wr.2 = Ok () /\ half_open (w_breaker wr.1) = half_open (w_breaker w) ∖ {[at_target (ca_local a)]} /\
      (wf_breaker (w_breaker w) -> wf_breaker (w_breaker wr.1))) as (H1 & H2 & H3).
    { unfold wr. destruct (is_auth_failure _);
        match goal with |- context [complete_attempt ?u a ?ok] => exact (complete_attempt_settled u a ok Hc) end. }
    destruct wr as [w' [[]|e]]; cbn [fst snd] in *; [|done]. split; [|done]. rewrite H2. unfold lease_of.
    destruct (at_state (ca_local a)); set_solver.
  - destruct error as [| |[]| | |]; cbn [fst snd]; try done;
      match goal with |- context [release_attempt ?u a] => destruct (release_attempt_settled u a Hc) as [H1 H2] end;
      by rewrite H1.
Qed.

Lemma retry_loop_settled w target a more :
  clock_ok ->
  match (retry_loop w target a more).2 with
  | Failing _ => w_breaker (retry_loop w target a more).1 = w_breaker w
  | Stopped (StateFailure _) => False
  | _ => half_open (w_breaker (retry_loop w target a more).1) ⊆ half_open (w_breaker w) ∖ lease_of a /\
         (wf_breaker (w_breaker w) -> wf_breaker (w_breaker (retry_loop w target a more).1))
  end.
Proof.
  intros Hc. revert w. induction more as [|more IH]; intros w; cbn [retry_loop];
    pose proof (try_once_settled w target a Hc) as Ht; destruct (try_once w target a) as [w' r]; cbn [fst snd] in *.
  - by destruct r.
  - destruct r as [response|f|e]; [done|done|]. specialize (IH w'). rewrite Ht in IH. exact IH.
Qed.

Lemma begin_sent w target probe_id : w_sent (begin_reliability_attempt w target probe_id).1 = w_sent w.
Proof.
  unfold begin_reliability_attempt.
  assert (forall w1 (sh : bool), w_sent w1 = w_sent w -> w_sent (let '(w, t) := ask w1 in
      let release w := if sh then set_shared w (release_provider_health (w_shared w) target probe_id) else w in
      match begin_attempt (w_breaker w) (env_clock t) target with
      | Err e => (release w, Err e)
      | Ok (b, None) => (release (set_breaker w b), Ok None)
      | Ok (b, Some attempt) =>
          (set_breaker w b, Ok (Some {| ca_local := attempt; ca_shared := sh; ca_probe_id := probe_id |}))
      end).1 = w_sent w) as Hlocal.
  { intros w1 sh Hw. cbn [ask]. destruct (begin_attempt _ _ _) as [[b [st|]]|e]; [done|by destruct sh..]. }
  destruct shared_health; [|by apply (Hlocal w false)].
  destruct (begin_provider_health _ _ _ _ _) as [s [[]|[]]]; [by apply (Hlocal (set_shared w s) true)|done|].
  by apply (Hlocal (set_shared w s) false).
Qed.

Lemma begin_reliability_attempt_settled w target probe_id :
  clock_ok ->
  w_sent (begin_reliability_attempt w target probe_id).1 = w_sent w /\
  match (begin_reliability_attempt w target probe_id).2 with
  | Ok None => settled ∅ w (begin_reliability_attempt w target probe_id).1
  | Ok (Some a) => settled (lease_of a) w (begin_reliability_attempt w target probe_id).1 /\ at_target (ca_local a) = target
  | Err _ => False
  end.
Proof.
  intros Hc. unfold begin_reliability_attempt.
  assert (forall w1 (sh : bool), w_sent w1 = w_sent w -> w_breaker w1 = w_breaker w ->
    let wr := (let '(w, t) := ask w1 in
      let release w := if sh then set_shared w (release_provider_health (w_shared w) target probe_id) else w in
      match begin_attempt (w_breaker w) (env_clock t) target with
      | Err e => (release w, Err e)
      | Ok (b, None) => (release (set_breaker w b), Ok None)
      | Ok (b, Some attempt) =>
          (set_breaker w b, Ok (Some {| ca_local := attempt; ca_shared := sh; ca_probe_id := probe_id |}))
      end) in
    w_sent wr.1 = w_sent w /\
    match wr.2 with
    | Ok None => settled ∅ w wr.1
    | Ok (Some a) => settled (lease_of a) w wr.1 /\ at_target (ca_local a) = target
    | Err _ => False
    end) as Hlocal.
  { intros w1 sh Hsent Hb. cbn [ask]. cbn [w_breaker]. rewrite Hb. unfold begin_attempt. rewrite Hc. cbn [result_bind].
    pose proof (wf_breaker_begin (w_breaker w) target (env_clock (w_tick w1))) as Hwf.
    assert (half_open (fst (begin_at (w_breaker w) target (env_clock (w_tick w1)))) ⊆ half_open (w_breaker w) ∪
      match snd (begin_at (w_breaker w) target (env_clock (w_tick w1))) with Some HalfOpen => {[target]} | _ => ∅ end) as Hhalf.
    { unfold begin_at. repeat case_match; cbn; set_solver. }
    destruct (begin_at (w_breaker w) target (env_clock (w_tick w1))) as [b [st|]]; cbn [fst snd fmap option_fmap option_map] in *.
    - split; [done|]. split; [|done]. split; [|done]. unfold lease_of. cbn [ca_local at_state at_target w_breaker set_breaker].
      destruct st; exact Hhalf.
    - destruct sh; cbn [w_sent w_breaker set_shared set_breaker]; (split; [done|]); split; done. }
  destruct shared_health; [|by apply (Hlocal w false)].
  destruct (begin_provider_health _ _ _ _ _) as [s [[]|[]]].
  - by apply (Hlocal (set_shared w s) true).
  - split; [done|]. by apply health_settled_refl.
  - by apply (Hlocal (set_shared w s) false).
Qed.

(** ** The loop over the targets of an alias *)
Lemma targets_loop_spec w request_id targets last_error :
  let '(w', r) := targets_loop w request_id targets last_error in
  sends (fun m => m ∈ targets) (S (rp_retries policy) * length targets) w w' /\
  match r with
  | Delivered target response =>
      target ∈ targets /\ is_retryable (Some (br_status response)) = false /\ answered_by target w w'
  | Aborted (Exhausted _ | Misconfigured _) => False
  | _ => True
  end.
Proof.
  revert w last_error. induction targets as [|target targets IH]; intros w last_error; cbn [targets_loop].
  { split; [|done]. rewrite Nat.mul_0_r. by apply sends_refl. }
  assert (forall w0 w1 n, sends (eq target) n w0 w1 -> (n <= S (rp_retries policy))%nat -> forall le,
    let '(w', r) := targets_loop w1 request_id targets le in
    sends (fun m => m ∈ target :: targets) (S (rp_retries policy) * S (length targets)) w0 w' /\
    match r with
    | Delivered t response =>
        t ∈ target :: targets /\ is_retryable (Some (br_status response)) = false /\ answered_by t w0 w'
    | Aborted (Exhausted _ | Misconfigured _) => False
    | _ => True
    end) as Hrest.
  { intros w0 w1 n Hs Hn le. specialize (IH w1 le). destruct (targets_loop w1 request_id targets le) as [w' r].
    destruct IH as [IH1 IH2]. split.
    - apply (sends_weaken (fun m => m ∈ target :: targets) _ (n + S (rp_retries policy) * length targets));
        [done|lia|]. eapply sends_trans; [by eapply sends_weaken, Hs; [intros x <-; left|]|].
      eapply sends_weaken, IH1; [by right|done].
    - destruct r as [t resp|f|e]; [|done|done]. destruct IH2 as (? & ? & ?). split; [by right|]. split; [done|by eapply sends_answered]. }
  cbn [length]. destruct (negb (bool_decide (m_deployment_id target = None)) && negb (m_key_ready target)).
  { apply (Hrest w w 0%nat); [by apply sends_refl|lia]. }
  destruct (begin_reliability_attempt w (delivery_id target) request_id) as [wb rb] eqn:Hb.
  assert (w_sent wb = w_sent w) as Hsb by (pose proof (begin_sent w (delivery_id target) request_id) as Hbs; by rewrite Hb in Hbs).
  destruct rb as [[a|]|e].
  - pose proof (retry_loop_sends wb target a (rp_retries policy)) as Hr.
    destruct (retry_loop wb target a (rp_retries policy)) as [wr r]. destruct Hr as [Hs Hr].
    assert (sends (eq target) (S (rp_retries policy)) w wr) as Hsw.
    { destruct Hs as (new & Hnew & ? & ?). exists new. by rewrite <-Hsb. }
    destruct r as [response|f|e].
    + split; [eapply sends_weaken, Hsw; [intros x <-; left|nia]|]. destruct Hr as [? ?].
      split; [left|]. split; [done|]. eapply sends_answered; [by apply (sends_refl (eq target))|done].
    + split; [eapply sends_weaken, Hsw; [intros x <-; left|nia]|]. by destruct f.
    + pose proof (complete_attempt_sent wr a false) as Hc. destruct (complete_attempt wr a false) as [wc [[]|e']]; cbn [fst] in Hc.
      * apply (Hrest w wc (S (rp_retries policy))); [|lia].
        destruct Hsw as (new & Hnew & ? & ?). exists new. by rewrite Hc.
      * split; [|done]. eapply sends_weaken; [| |destruct Hsw as (new & Hnew & Hf & Hl); exists new; rewrite Hc; split_and!; [exact Hnew|exact Hf|exact Hl]];
          [intros x <-; left|nia].
  - apply (Hrest w wb 0%nat); [by apply sends_refl|lia].
  - split; [|done]. eapply sends_weaken, (sends_refl (eq target)); [intros x <-; left|lia|done].
Qed.

Lemma targets_loop_settled w request_id targets last_error :
  clock_ok ->
  settled ∅ w (targets_loop w request_id targets last_error).1 /\
  forall e, (targets_loop w request_id targets last_error).2 <> Aborted (StateFailure e).
Proof.
  intros Hc. revert w last_error. induction targets as [|target targets IH]; intros w last_error; cbn [targets_loop].
  { split; [by apply health_settled_refl|done]. }
  destruct (negb (bool_decide (m_deployment_id target = None)) && negb (m_key_ready target)); [apply IH|].
  pose proof (begin_reliability_attempt_settled w (delivery_id target) request_id Hc) as [_ Hb].
  destruct (begin_reliability_attempt w (delivery_id target) request_id) as [wb [[a|]|e]]; cbn [fst snd] in Hb; [|..|done].
  - destruct Hb as [[Hh Hwf] Ht]. pose proof (retry_loop_settled wb target a (rp_retries policy) Hc) as Hr.
    assert (Hlease : half_open (w_breaker wb) ∖ lease_of a ⊆ half_open (w_breaker w)) by set_solver.
    destruct (retry_loop wb target a (rp_retries policy)) as [wr [response|f|e]]; cbn [fst snd] in *.
    + destruct Hr as [Hr1 Hr2]. split; [|done]. split; [set_solver|auto].
    + destruct f as [m|d|m|e]; [| | |done]; (destruct Hr as [Hr1 Hr2]; split; [|done]; split; [set_solver|auto]).
    + destruct (complete_attempt_settled wr a false Hc) as (H1 & H2 & H3).
      destruct (complete_attempt wr a false) as [wc rc]; cbn [fst snd] in *. rewrite H1.
      destruct (IH wc e) as [IH1 IH2]. split; [|exact IH2]. eapply health_settled_trans; [|exact IH1]. rewrite Hr in H2, H3.
      split; [|auto]. rewrite H2. unfold lease_of in *. destruct (at_state (ca_local a)); set_solver.
  - destruct (IH wb last_error) as [IH1 IH2]. split; [|exact IH2]. by eapply health_settled_trans.
Qed.

(** ** The plan *)
Definition selection_of (alias : str) : DeploymentSelectionPolicy :=
  match find_model models alias with Some model => m_deployment_selection model | None => default_selection end.

(** What the request may be sent to: a deployment of an alias of the plan that
    is eligible for it and within the alias's price ceiling. *)
Definition offered (plan : list str) (request : RoutingRequest) (offline : bool) (prompt_estimate : Z)
    (m : ConfiguredModel) : Prop :=
  exists alias, alias ∈ plan /\ m ∈ pool models alias /\
    target_eligible parse_url request offline prompt_estimate m = true /\ within_ceiling (selection_of alias) m.

(** The deployments of a plan. *)
Definition plan_size (plan : list str) : nat := length (plan ≫= pool models).

Lemma offered_cons alias plan request offline prompt_estimate m :
  offered plan request offline prompt_estimate m -> offered (alias :: plan) request offline prompt_estimate m.
Proof. intros (a & Ha & H3). exists a. split; [by right|done]. Qed.

Lemma offered_of alias plan request offline prompt_estimate m :
  alias ∈ plan -> offered [alias] request offline prompt_estimate m -> offered plan request offline prompt_estimate m.
Proof. intros Hin (a & ->%list_elem_of_singleton & H3). by exists alias. Qed.

(** One alias: what is selected for it, and the loop over that. *)
Lemma alias_targets w alias candidates request offline prompt_estimate :
  candidates ≡ₚ pool models alias ->
  let eligible := eligible_deployment_targets parse_url candidates request offline prompt_estimate in
  Forall (offered [alias] request offline prompt_estimate) (targets (select_deployments w alias eligible).2) /\
  (length (targets (select_deployments w alias eligible).2) <= length (pool models alias))%nat.
Proof.
  intros Hp. unfold select_deployments. cbn [ask snd]. fold (selection_of alias).
  set (eligible := eligible_deployment_targets parse_url candidates request offline prompt_estimate).
  rewrite select_perm. split.
  - apply Forall_forall. intros m [Hm Hc]%price_ceiling_elem. apply elem_of_filter_bool in Hm as [Hm He].
    exists alias. split; [left|]. by rewrite <-Hp.
  - transitivity (length eligible).
    + unfold apply_price_ceiling. destruct (max_cost_per_1k _); [apply sublist_length, list_filter_sublist|done].
    + rewrite <-Hp. apply sublist_length, list_filter_sublist.
Qed.

Lemma plan_loop_spec w plan request offline prompt_estimate last_error :
  let '(w', r) := plan_loop w plan request offline prompt_estimate last_error in
  sends (offered plan request offline prompt_estimate) (S (rp_retries policy) * plan_size plan) w w' /\
  match r with
  | Ok o => served_by_alias o ∈ plan /\ is_retryable (Some (br_status (response o))) = false /\
      exists target, offered [served_by_alias o] request offline prompt_estimate target /\ answered_by target w w' /\
        served_by_id o = delivery_id target /\ outcome_boundary o = model_execution_boundary parse_url target
  | Err (Misconfigured _) => exists alias, alias ∈ plan /\ find_model models alias = None
  | Err _ => True
  end.
Proof.
  revert w last_error. induction plan as [|alias plan IH]; intros w last_error; cbn [plan_loop].
  { split; [|done]. rewrite Nat.mul_0_r. by apply sends_refl. }
  pose proof (candidates_perm models (w_cursors w) alias) as Hperm.
  destruct (deployment_candidates models (w_cursors w) alias) as [configured c] eqn:Hcand. cbn [fst] in Hperm.
  assert (forall w0 n, sends (offered [alias] request offline prompt_estimate) n w w0 ->
    (n <= S (rp_retries policy) * length (pool models alias))%nat -> forall le,
    let '(w', r) := plan_loop w0 plan request offline prompt_estimate le in
    sends (offered (alias :: plan) request offline prompt_estimate) (S (rp_retries policy) * plan_size (alias :: plan)) w w' /\
    match r with
    | Ok o => served_by_alias o ∈ alias :: plan /\ is_retryable (Some (br_status (response o))) = false /\
        exists target, offered [served_by_alias o] request offline prompt_estimate target /\ answered_by target w w' /\
          served_by_id o = delivery_id target /\ outcome_boundary o = model_execution_boundary parse_url target
    | Err (Misconfigured _) => exists a, a ∈ alias :: plan /\ find_model models a = None
    | Err _ => True
    end) as Hrest.
  { intros w0 n Hs Hn le. specialize (IH w0 le). destruct (plan_loop w0 plan request offline prompt_estimate le) as [w' r].
    destruct IH as [IH1 IH2]. split.
    - apply (sends_weaken (offered (alias :: plan) request offline prompt_estimate) _ (n + S (rp_retries policy) * plan_size plan));
        [done|unfold plan_size in *; cbn [mbind list_bind]; rewrite length_app; nia|].
      eapply sends_trans; [eapply sends_weaken, Hs; [|done]; intros m (a & ->%list_elem_of_singleton & Hm); exists alias; split; [left|done]|].
      eapply sends_weaken, IH1; [intros m; apply offered_cons|done].
    - destruct r as [o|[le'|e|m|e]]; try done.
      + destruct IH2 as (? & ? & t & ? & ? & ?). split; [by right|]. split; [done|]. exists t. split; [done|].
        split; [by eapply sends_answered|done].
      + destruct IH2 as (a & ? & ?). exists a. split; [by right|done]. }
  destruct configured as [|m0 rest].
  { split; [by eapply sends_weaken, sends_refl; [|lia|]|]. exists alias. split; [left|].
    apply Permutation_nil_l in Hperm. unfold pool in Hperm. destruct (find_model models alias) as [m|]; [|done].
    by destruct (len (deployment_targets m) <=? 1). }
  destruct (alias_targets (set_cursors w c) alias (m0 :: rest) request offline prompt_estimate Hperm) as [Hoff Hlen].
  set (eligible := eligible_deployment_targets parse_url (m0 :: rest) request offline prompt_estimate) in *.
  destruct eligible as [|e0 erest] eqn:Heq; [apply (Hrest _ 0%nat); [by apply sends_refl|lia]|]. rewrite <-Heq in *.
  assert (w_sent (select_deployments (set_cursors w c) alias eligible).1 = w_sent w) as Hsel by done.
  destruct (select_deployments (set_cursors w c) alias eligible) as [ws selection]. cbn [fst snd] in *.
  destruct (targets selection) as [|t0 trest] eqn:Ht; [apply (Hrest _ 0%nat); [by apply sends_refl|lia]|]. rewrite <-Ht in *.
  pose proof (targets_loop_spec ws (rq_request_id request) (targets selection) last_error) as Hloop.
  destruct (targets_loop ws (rq_request_id request) (targets selection) last_error) as [wl r].
  destruct Hloop as [(new & Hnew & Hin & Hl) Hr].
  assert (sends (offered [alias] request offline prompt_estimate) (S (rp_retries policy) * length (pool models alias)) w wl) as Hs.
  { exists new. rewrite Hnew, Hsel. split_and!; [done| |nia].
    eapply Forall_impl; [done|]. intros m Hm. rewrite Forall_forall in Hoff. by apply Hoff. }
  assert (sends (offered (alias :: plan) request offline prompt_estimate) (S (rp_retries policy) * plan_size (alias :: plan)) w wl) as Hs'.
  { eapply sends_weaken, Hs; [intros m (a & ->%list_elem_of_singleton & Hm); exists alias; split; [left|done]|].
    unfold plan_size. cbn [mbind list_bind]. rewrite length_app. nia. }
  destruct r as [target resp|f|le]; [| |by apply (Hrest wl (S (rp_retries policy) * length (pool models alias))%nat)].
  - split; [done|]. destruct Hr as (Htin & Hret & Hlast). split; [left|]. split; [done|]. exists target.
    rewrite Forall_forall in Hoff. split; [by apply Hoff|]. split; [|done].
    eapply sends_answered; [by apply (sends_refl (eq target))|done].
  - split; [done|]. by destruct f.
Qed.

Lemma plan_loop_settled w plan request offline prompt_estimate last_error :
  clock_ok ->
  settled ∅ w (plan_loop w plan request offline prompt_estimate last_error).1 /\
  forall e, (plan_loop w plan request offline prompt_estimate last_error).2 <> Err (StateFailure e).
Proof.
  intros Hc. revert w last_error. induction plan as [|alias plan IH]; intros w last_error; cbn [plan_loop].
  { split; [by apply health_settled_refl|done]. }
  destruct (deployment_candidates models (w_cursors w) alias) as [configured c].
  assert (forall w0 le, w_breaker w0 = w_breaker w ->
    settled ∅ w (plan_loop w0 plan request offline prompt_estimate le).1 /\
    forall e, (plan_loop w0 plan request offline prompt_estimate le).2 <> Err (StateFailure e)) as Hrest.
  { intros w0 le Hb. destruct (IH w0 le) as [H1 H2]. split; [|exact H2]. eapply health_settled_trans; [by apply health_settled_refl|exact H1]. }
  destruct configured as [|m0 rest]; [split; [by apply health_settled_refl|done]|].
  destruct (eligible_deployment_targets parse_url (m0 :: rest) request offline prompt_estimate) as [|e0 erest];
    [by apply Hrest|].
  assert (w_breaker (select_deployments (set_cursors w c) alias (e0 :: erest)).1 = w_breaker w) as Hsel by done.
  destruct (select_deployments (set_cursors w c) alias (e0 :: erest)) as [ws selection]. cbn [fst] in Hsel.
  destruct (targets selection) as [|t0 trest] eqn:Ht; [by apply Hrest|].
  destruct (targets_loop_settled ws (rq_request_id request) (t0 :: trest) last_error Hc) as [H1 H2].
  destruct (targets_loop ws (rq_request_id request) (t0 :: trest) last_error) as [wl r]. cbn [fst snd] in *.
  assert (settled ∅ w wl) as Hs by (eapply health_settled_trans; [by apply health_settled_refl|exact H1]).
  destruct r as [target resp|f|le]; [done| |].
  - split; [done|]. intros e Heq. apply (H2 e). cbn [snd] in Heq. congruence.
  - destruct (IH wl le) as [H3 H4]. split; [by eapply health_settled_trans|exact H4].
Qed.

(** C7: Whatever the providers answer, a request leaves the gateway only for
    targets it may be sent to: deployments of an alias of its plan that are
    eligible for it (privacy posture, offline mode, capabilities, context) and
    within the price ceiling.  The number of sends is bounded: one more than
    the retries per deployment of the plan.  A delivered response came from
    the last target tried, a deployment of the alias it is reported under, has
    a status that is not retried, and reports the
    boundary it executed in, which the privacy posture permits. *)
Theorem delivery_respects_request w plan request offline prompt_estimate :
  let '(w', r) := deliver_with_reliability w plan request offline prompt_estimate in
  sends (offered plan request offline prompt_estimate) (S (rp_retries policy) * plan_size plan) w w' /\
  match r with
  | Ok o => served_by_alias o ∈ plan /\ is_retryable (Some (br_status (response o))) = false /\
      permits (rq_privacy_posture request) (outcome_boundary o) = true /\
      exists target, offered [served_by_alias o] request offline prompt_estimate target /\ last (w_sent w') = Some target /\
        served_by_id o = delivery_id target /\ outcome_boundary o = model_execution_boundary parse_url target
  | Err (Misconfigured _) => exists alias, alias ∈ plan /\ find_model models alias = None
  | Err _ => True
  end.
Proof.
  unfold deliver_with_reliability.
  pose proof (plan_loop_spec w plan request offline prompt_estimate (Msg "no upstream available" [])) as Hspec.
  destruct (plan_loop w plan request offline prompt_estimate _) as [w' [o|f]]; [|done].
  destruct Hspec as [Hs (Ha & Hr & t & Ht & Hlast & Hid & Hb)]. split; [done|]. split; [done|]. split; [done|].
  split; [|exists t; split; [done|]; split; [by eapply answered_last|done]]. rewrite Hb. destruct Ht as (_ & _ & _ & He & _). by apply target_eligible_iff in He as (_ & ? & _).
Qed.

(** C8: A delivery settles every circuit lease it takes.  While the policy
    clock reads valid times, a delivery ends with no half-open probe that was
    not pending before, keeps the breaker's invariant, and never fails for the
    breaker's sake. *)
Theorem delivery_settles_leases w plan request offline prompt_estimate :
  clock_ok -> wf_breaker (w_breaker w) ->
  let '(w', r) := deliver_with_reliability w plan request offline prompt_estimate in
  half_open (w_breaker w') ⊆ half_open (w_breaker w) /\ wf_breaker (w_breaker w') /\
  forall e, r <> Err (StateFailure e).
Proof.
  intros Hc Hwf. unfold deliver_with_reliability.
  destruct (plan_loop_settled w plan request offline prompt_estimate (Msg "no upstream available" []) Hc) as [[Hh Hw] Hr].
  destruct (plan_loop w plan request offline prompt_estimate _) as [w' r]. cbn [fst snd] in *.
  split; [set_solver|]. split; [auto|]. intros e ->. by apply (Hr e).
Qed.
End Delivery.

(** ** A closed run: the first member of a pool answers 503 twice, the second
    serves the request. *)
Definition pool_models : list ConfiguredModel := [sample_pool_model].
Definition sample_policy : ReliabilityPolicy :=
  {| rp_retries := 1; rp_failover := SameTier; rp_breaker_threshold := 1; rp_breaker_cooldown_ms := 1000 |}.
Definition sample_request : RoutingRequest :=
  {| rq_schema_version := 1; rq_request_id := lit "r"; rq_prompt := lit "hi"; rq_privacy_posture := HostedAllowed;
     rq_requirements := {| context_tokens := None; req_image_input := false; req_tools := false;
                           req_streaming := false; surface := SurfaceText |} |}.
Definition scripted_send (t : nat) (m : ConfiguredModel) : result BufferedDeliveryResponse DeliveryError :=
  Ok {| br_status := if bool_decide (m_deployment_id m = Some (lit "default")) then 503 else 200;
        br_content_type := lit "application/json"; br_body := [] |}.
Definition start_world : World (B := unit) :=
  {| w_cursors := []; w_signals := []; w_breaker := CircuitBreaker_new 1 (f64_of_Z 30); w_shared := tt;
     w_sent := []; w_tick := 0 |}.
Definition sample_delivery (posture : PrivacyPosture) :=
  deliver_with_reliability sample_parse_url scripted_send (fun _ => f64_zero) (fun _ => f64_zero)
    (fun _ => f64_zero) pool_models sample_policy false start_world [lit "cloud"]
    {| rq_schema_version := 1; rq_request_id := lit "r"; rq_prompt := lit "hi"; rq_privacy_posture := posture;
       rq_requirements := rq_requirements sample_request |} false 10.

Example sample_delivery_fails_over :
  map delivery_id (w_sent (sample_delivery HostedAllowed).1) =
    map lit ["cloud#default"; "cloud#default"; "cloud#eu"]%string /\
  match (sample_delivery HostedAllowed).2 with Ok o => served_by_id o = lit "cloud#eu" | Err _ => False end.
Proof. vm_compute. by split. Qed.

(** The pool is hosted: a private request sends nothing. *)
Example sample_delivery_private :
  w_sent (sample_delivery LocalDevices).1 = [] /\
  match (sample_delivery LocalDevices).2 with Err (Exhausted _) => True | _ => False end.
Proof. vm_compute. by split. Qed.

Lemma delivery_settles_leases_witness :
  half_open (w_breaker (sample_delivery HostedAllowed).1) ⊆ ∅ /\ wf_breaker (w_breaker (sample_delivery HostedAllowed).1).
Proof.
  pose proof (delivery_settles_leases sample_parse_url scripted_send (fun _ => f64_zero) (fun _ => f64_zero)
    (fun _ => f64_zero) pool_models sample_policy false start_world [lit "cloud"] sample_request false 10) as H.
  change (deliver_with_reliability _ _ _ _ _ _ _ _ _ _ _ _ _) with (sample_delivery HostedAllowed) in H.
  destruct (sample_delivery HostedAllowed) as [w' r]. cbn [fst].
  destruct H as (H1 & H2 & _); [by intros t|apply wf_breaker_new; u64|]. by split.
Defined.
