(* ===== verification/Budget.v ===== *)
(** * Spend budgets (crate [wayfinder-gateway], [src/budget.rs])

    The caps of a request (gateway, workspace, key, in that order) checked
    against realized spend, on the process-local ledger or on a shared backend.
    The backend is a parameter: what it answers for a window, a scope and a
    date.  A poisoned ledger lock is not modelled. *)
From S2P Require Export GatewayConfig BTree Ledger.

(** ** The code *)
Inductive BudgetDecision :=
| Allow
| Degrade
| Block (window : str) (limit : f64).

Record BudgetPolicy := {
  global : option Budget;
  by_workspace : btree Budget;
  by_key : btree Budget;
}.

Record SharedBudgetScope := {
  scope : str;
  sc_window : str;
  sc_limit : f64;
  blocks : bool;
}.

(** [iter.filter_map(...).collect()] over the entries of one map. *)
Definition budgets_of {A} (budget : A -> option Budget) (entries : list (str * A)) : btree Budget :=
  bt_of_list (omap (fun '(id, a) => b ← budget a; Some (id, b)) entries).

Definition from_gateway_config (config : GatewayConfig) : BudgetPolicy :=
  {| global := gc_budget config;
     by_workspace := budgets_of ws_budget (workspaces config);
     by_key := budgets_of vk_budget (keys config) |}.

Definition budget_active (p : BudgetPolicy) : bool :=
  match global p with Some _ => true | None => false end
  || negb (bool_decide (by_workspace p = [])) || negb (bool_decide (by_key p = [])).

Definition hard (budget : Budget) (offline : bool) : bool :=
  str_eqb (on_breach budget) (lit "block") && negb offline.

Definition shared_scope (name : str) (budget : Budget) (offline : bool) : SharedBudgetScope :=
  {| scope := name; sc_window := b_window budget; sc_limit := b_limit budget; blocks := hard budget offline |}.

(** [id.and_then(|id| map.get(id).map(|budget| (id, budget)))]. *)
Definition lookup_cap (caps : btree Budget) (id : option str) : option (str * Budget) :=
  id ← id; budget ← bt_get caps id; Some (id, budget).

Definition workspace_scope (id : str) : str := lit "workspace:" ++ id.
Definition key_scope (id : str) : str := lit "key:" ++ id.

Definition shared_scopes (p : BudgetPolicy) (workspace_id key_id : option str) (offline : bool)
    : list SharedBudgetScope :=
  match global p with Some b => [shared_scope (lit "global") b offline] | None => [] end
  ++ match lookup_cap (by_workspace p) workspace_id with
     | Some (id, b) => [shared_scope (workspace_scope id) b offline]
     | None => []
     end
  ++ match lookup_cap (by_key p) key_id with
     | Some (id, b) => [shared_scope (key_scope id) b offline]
     | None => []
     end.

Definition evaluate_spent (spent : f64) (budget : Budget) (offline : bool) : BudgetDecision :=
  if f64_lt spent (b_limit budget) then Allow
  else if hard budget offline then Block (b_window budget) (b_limit budget)
  else Degrade.

Definition evaluate_one (ledger : SavingsLedger) (budget : Budget) (key_id : option str) (today : UtcDate)
    (offline : bool) : BudgetDecision :=
  if f64_lt (spent ledger (b_window budget) key_id today) (b_limit budget) then Allow
  else if hard budget offline then Block (b_window budget) (b_limit budget)
  else Degrade.

Section Walk.
Context {E : Type}.

(** One step of the walk over the caps: [match check? { Allow => {},
    Degrade => degraded = true, blocked => return Ok(blocked) }]. *)
Definition walk_step (check : result BudgetDecision E) (degraded : bool)
    (next : bool -> result BudgetDecision E) : result BudgetDecision E :=
  let? decision := check in
  match decision with
  | Allow => next degraded
  | Degrade => next true
  | Block _ _ => Ok decision
  end.

Definition walk_cap {C} (cap : option C) (check : C -> result BudgetDecision E) (degraded : bool)
    (next : bool -> result BudgetDecision E) : result BudgetDecision E :=
  match cap with None => next degraded | Some cap => walk_step (check cap) degraded next end.

Definition walk_end (degraded : bool) : result BudgetDecision E := Ok (if degraded then Degrade else Allow).
End Walk.

Definition evaluate_for (p : BudgetPolicy) (ledger : SavingsLedger) (priced : bool)
    (workspace_id key_id : option str) (today : UtcDate) (offline : bool) : result BudgetDecision LedgerError :=
  if negb priced then Ok Allow
  else
    walk_cap (global p) (fun b => Ok (evaluate_one ledger b None today offline)) false (fun degraded =>
    walk_cap (lookup_cap (by_workspace p) workspace_id)
      (fun '(id, b) => Ok (evaluate_one ledger b (Some id) today offline)) degraded (fun degraded =>
    walk_cap (lookup_cap (by_key p) key_id)
      (fun '(id, b) => Ok (evaluate_one ledger b (Some id) today offline)) degraded walk_end)).

Definition evaluate (p : BudgetPolicy) (ledger : SavingsLedger) (priced : bool) (key_id : option str)
    (today : UtcDate) (offline : bool) : result BudgetDecision LedgerError :=
  evaluate_for p ledger priced None key_id today offline.

Section Shared.
Context {E : Type}.

(** [backend.spend(window, scope, date).await], its realized amount. *)
Context (backend_spend : str -> str -> str -> result f64 E).

Definition evaluate_shared_one (budget : Budget) (scope date : str) (offline : bool) : result BudgetDecision E :=
  let? spent := backend_spend (b_window budget) scope date in Ok (evaluate_spent spent budget offline).

Definition evaluate_shared_for (p : BudgetPolicy) (priced : bool) (workspace_id key_id : option str)
    (today : UtcDate) (offline : bool) : result BudgetDecision E :=
  if negb priced then Ok Allow
  else
    let date := to_string today in
    walk_cap (global p) (fun b => evaluate_shared_one b (lit "global") date offline) false (fun degraded =>
    walk_cap (lookup_cap (by_workspace p) workspace_id)
      (fun '(id, b) => evaluate_shared_one b (workspace_scope id) date offline) degraded (fun degraded =>
    walk_cap (lookup_cap (by_key p) key_id)
      (fun '(id, b) => evaluate_shared_one b (key_scope id) date offline) degraded walk_end)).

Definition evaluate_shared (p : BudgetPolicy) (priced : bool) (key_id : option str) (today : UtcDate)
    (offline : bool) : result BudgetDecision E :=
  evaluate_shared_for p priced None key_id today offline.
End Shared.

(** ** Reference: one pass over a list of caps *)

(** The caps that apply to a request, in the order they are checked, each with
    the ledger key its spend is read under. *)
Definition applicable (p : BudgetPolicy) (workspace_id key_id : option str) : list (Budget * option str) :=
  map (fun b => (b, None)) (option_list (global p))
  ++ map (fun '(id, b) => (b, Some id)) (option_list (lookup_cap (by_workspace p) workspace_id))
  ++ map (fun '(id, b) => (b, Some id)) (option_list (lookup_cap (by_key p) key_id)).

Definition exhausted (ledger : SavingsLedger) (today : UtcDate) (c : Budget * option str) : Prop :=
  f64_lt (spent ledger (b_window (fst c)) (snd c) today) (b_limit (fst c)) = false.

#[export] Instance exhausted_dec ledger today c : Decision (exhausted ledger today c).
Proof. unfold exhausted. apply _. Defined.

Fixpoint walk_all {E} (checks : list (result BudgetDecision E)) (degraded : bool) : result BudgetDecision E :=
  match checks with
  | [] => walk_end degraded
  | check :: checks => walk_step check degraded (walk_all checks)
  end.

(** A shared scope against what the backend answers for it. *)
Definition check_scope {E} (backend_spend : str -> str -> str -> result f64 E) (date : str) (s : SharedBudgetScope)
    : result BudgetDecision E :=
  let? spent := backend_spend (sc_window s) (scope s) date in
  Ok (if f64_lt spent (sc_limit s) then Allow
      else if blocks s then Block (sc_window s) (sc_limit s) else Degrade).

(** ** Lemmas *)
Lemma evaluate_for_walk p ledger ws key today offline :
  evaluate_for p ledger true ws key today offline =
  walk_all (map (fun c => Ok (evaluate_one ledger (fst c) (snd c) today offline)) (applicable p ws key)) false.
Proof.
  unfold evaluate_for, applicable, walk_cap. simpl negb. cbv iota.
  destruct (global p) as [b|], (lookup_cap (by_workspace p) ws) as [[i1 b1]|],
    (lookup_cap (by_key p) key) as [[i2 b2]|]; reflexivity.
Qed.

Definition is_block (d : BudgetDecision) : bool := match d with Block _ _ => true | _ => false end.

Definition is_allow (d : BudgetDecision) : bool := match d with Allow => true | _ => false end.

(** What a pass over decided caps returns: its first block, or the join. *)
Lemma walk_all_decided {E} (ds : list BudgetDecision) degraded :
  walk_all (E := E) (map Ok ds) degraded =
  Ok match List.find is_block ds with
     | Some d => d
     | None => if degraded || negb (forallb is_allow ds) then Degrade else Allow
     end.
Proof.
  revert degraded. induction ds as [|[| |w l] ds IH]; intros degraded;
    cbn [map walk_all walk_step result_bind List.find is_block is_allow forallb andb].
  - by rewrite orb_false_r.
  - by rewrite IH.
  - rewrite IH. by rewrite orb_true_r.
  - done.
Qed.

(** The verdict on one cap. *)
Lemma evaluate_one_allow ledger c today offline :
  is_allow (evaluate_one ledger (fst c) (snd c) today offline) = true <-> ~ exhausted ledger today c.
Proof.
  unfold evaluate_one, exhausted. destruct (f64_lt _ _); [naive_solver|]. destruct (hard _ _); naive_solver.
Qed.

Lemma evaluate_one_block ledger c today offline :
  is_block (evaluate_one ledger (fst c) (snd c) today offline) = true <->
  exhausted ledger today c /\ hard (fst c) offline = true.
Proof.
  unfold evaluate_one, exhausted. destruct (f64_lt _ _); [naive_solver|]. destruct (hard _ _); naive_solver.
Qed.

Lemma evaluate_one_blocks ledger c today offline :
  exhausted ledger today c -> hard (fst c) offline = true ->
  evaluate_one ledger (fst c) (snd c) today offline = Block (b_window (fst c)) (b_limit (fst c)).
Proof. unfold evaluate_one, exhausted. by intros -> ->. Qed.

(** A ledger whose turns never carry the virtual key [name] reads zero for it. *)
Definition unspent (name : str) (l : SavingsLedger) : Prop :=
  0 <= max_days l /\ Forall (fun kv => bt_get (db_by_key (snd kv)) name = None) (days l).

Lemma unspent_record name l cost when key workspace :
  key <> Some name -> unspent name l -> unspent name (record_attributed l cost when key workspace).
Proof.
  intros Hkey [Hmax Hl]. split; [done|]. cbn [record_attributed days]. apply trim_days_Forall; [done|].
  apply bt_insert_Forall; [|done]. cbn [snd day_record db_by_key].
  assert (Hold : bt_get (db_by_key (match bt_get (days l) (to_string when) with
                                    | Some v => v | None => default_day end)) name = None).
  { destruct (bt_get (days l) (to_string when)) as [b|] eqn:E; [|done].
    by apply (bt_get_Forall _ _ _ _ Hl) in E. }
  destruct key as [k|]; [|done]. unfold turn_in, bt_update. by rewrite bt_get_insert_ne by congruence.
Qed.

Lemma f64_sum_zeros (l : list f64) :
  Forall (fun x => x = f64_zero) l -> f64_sum l = f64_zero \/ f64_sum l = S754_zero true.
Proof.
  unfold f64_sum. assert (forall a, a = f64_zero \/ a = S754_zero true -> Forall (fun x => x = f64_zero) l ->
    foldl f64_add a l = f64_zero \/ foldl f64_add a l = S754_zero true) as H; [|by apply H; right].
  induction l as [|x l IH]; intros a Ha; [done|]. intros [-> Hl]%Forall_cons. cbn [foldl]. apply IH; [|done].
  destruct Ha as [-> | ->]; by left.
Qed.

Lemma unspent_spent name l window today :
  unspent name l ->
  spent l window (Some name) today = f64_zero \/ spent l window (Some name) today = S754_zero true.
Proof.
  intros [_ Hl]. assert (Hb : forall kv, kv ∈ days l -> bucket_spent (Some name) (snd kv) = f64_zero).
  { intros kv Hin. rewrite Forall_forall in Hl. unfold bucket_spent. by rewrite Hl. }
  assert (Hr : forall x, x = f64_zero \/ x = S754_zero true ->
    python_round x 6 = f64_zero \/ python_round x 6 = S754_zero true).
  { intros x [-> | ->]; [left|right]; vm_compute; reflexivity. }
  unfold spent. apply Hr. destruct (str_eqb window (lit "day")); [|destruct (str_eqb window (lit "month"))].
  - destruct (bt_get (days l) (to_string today)) as [b|] eqn:E; [|by left]. left.
    apply bt_get_elem in E. by apply (Hb _ E).
  - apply f64_sum_zeros. apply Forall_forall. intros x (kv & -> & Hin)%list_elem_of_fmap.
    apply elem_of_filter_bool in Hin as [Hin _]. by apply Hb.
  - apply f64_sum_zeros. apply Forall_forall. intros x (b & -> & Hin)%list_elem_of_fmap.
    unfold bt_values in Hin. apply list_elem_of_fmap in Hin as (kv & -> & Hin). by apply Hb.
Qed.

Lemma zero_below x limit :
  x = f64_zero \/ x = S754_zero true -> f64_lt f64_zero limit = true -> f64_lt x limit = true.
Proof. by intros [-> | ->]; destruct limit as [[]|[]| |[]]. Qed.

(** ** Properties *)

(** A budget check decides exactly by the caps that apply (gateway, then
    workspace, then key): it blocks iff some cap with a hard breach action is
    exhausted while online, and reports the first such cap; it degrades iff
    some cap is exhausted but none blocks; it allows iff no cap is exhausted.
    Without prices it always allows, and it never fails. *)
Theorem budget_decision_spec p ledger ws key today offline :
  let caps := applicable p ws key in
  let decide := evaluate_for p ledger true ws key today offline in
  (forall w limit, decide = Ok (Block w limit) <->
     exists pre c post, caps = pre ++ c :: post /\
       (exhausted ledger today c /\ hard (fst c) offline = true) /\
       Forall (fun c => ~ (exhausted ledger today c /\ hard (fst c) offline = true)) pre /\
       w = b_window (fst c) /\ limit = b_limit (fst c)) /\
  (decide = Ok Degrade <->
     Exists (exhausted ledger today) caps /\
     Forall (fun c => exhausted ledger today c -> hard (fst c) offline = false) caps) /\
  (decide = Ok Allow <-> Forall (fun c => ~ exhausted ledger today c) caps) /\
  evaluate_for p ledger false ws key today offline = Ok Allow.
Proof.
  intros caps decide. subst decide. rewrite evaluate_for_walk. fold caps. clearbody caps.
  rewrite <- (map_map (fun c => evaluate_one ledger (fst c) (snd c) today offline) Ok), walk_all_decided.
  simpl orb. rewrite find_map.
  destruct (List.find _ caps) as [c|] eqn:Hf; cbn [option_map].
  - apply find_first in Hf as (pre & post & -> & Hc & Hpre). apply evaluate_one_block in Hc.
    rewrite (evaluate_one_blocks ledger c) by naive_solver.
    assert (Hpre' : Forall (fun c => ~ (exhausted ledger today c /\ hard (fst c) offline = true)) pre).
    { eapply Forall_impl; [exact Hpre|]. intros c' Hc' Hx%evaluate_one_block. simpl in Hc'. congruence. }
    split_and!; try done.
    + intros w limit. split; [intros [= <- <-]; by exists pre, c, post|].
      intros (pre2 & c2 & post2 & Heq & Hc2 & Hpre2 & -> & ->).
      by rewrite (first_unique _ _ _ _ _ _ _ Heq Hc Hpre' Hc2 Hpre2).
    + split; [done|]. intros [_ Hall]. apply Forall_app in Hall as [_ Hall]. apply Forall_cons in Hall as [Hall _].
      destruct Hc as [He Hh]. rewrite (Hall He) in Hh. done.
    + split; [done|]. intros Hall. apply Forall_app in Hall as [_ Hall]. apply Forall_cons in Hall as [Hall _].
      by destruct Hc.
  - apply find_none_forall in Hf.
    assert (Hsoft : Forall (fun c => ~ (exhausted ledger today c /\ hard (fst c) offline = true)) caps).
    { eapply Forall_impl; [exact Hf|]. intros c' Hc' Hx%evaluate_one_block. simpl in Hc'. congruence. }
    assert (Hif : forallb (fun c => is_allow (evaluate_one ledger (fst c) (snd c) today offline)) caps = true <->
                  Forall (fun c => ~ exhausted ledger today c) caps).
    { rewrite forallb_forall, Forall_forall. setoid_rewrite <- list_elem_of_In.
      by setoid_rewrite evaluate_one_allow. }
    assert (Hhard : Forall (fun c => exhausted ledger today c -> hard (fst c) offline = false) caps).
    { eapply Forall_impl; [exact Hsoft|]. intros c Hc He. apply not_true_is_false. naive_solver. }
    rewrite forallb_fmap. split_and!; try done.
    + intros w limit. split; [by destruct (forallb _ _)|]. intros (pre & c & post & -> & Hc & _).
      apply Forall_app in Hsoft as [_ Hsoft]. by apply Forall_cons in Hsoft as [? _].
    + split.
      * intros Hd. split; [|done]. destruct (decide (Exists (exhausted ledger today) caps)) as [|Hno]; [done|].
        exfalso. assert (Forall (fun c => ~ exhausted ledger today c) caps) as Hall%Hif; [|by rewrite Hall in Hd].
        apply Forall_forall. intros c Hin He. apply Hno, Exists_exists. by exists c.
      * intros [He _]. destruct (forallb _ _); [|done]. exfalso. apply Exists_exists in He as (c & Hin & He).
        rewrite Forall_forall in Hif. by apply (proj1 Hif eq_refl c Hin).
    + rewrite <- Hif. by destruct (forallb _ _).
Qed.

(** Checking against the shared backend is checking the request's
    reservation scopes: the caps read, their order, names, windows, limits and
    breach actions are those of [shared_scopes], and the first scope that
    blocks or that the backend cannot answer for decides. *)
Theorem shared_evaluation_over_scopes {E} (backend_spend : str -> str -> str -> result f64 E) p ws key today offline :
  evaluate_shared_for backend_spend p true ws key today offline =
  walk_all (map (check_scope backend_spend (to_string today)) (shared_scopes p ws key offline)) false.
Proof.
  unfold evaluate_shared_for, shared_scopes, walk_cap. simpl negb. cbv iota.
  destruct (global p) as [b|], (lookup_cap (by_workspace p) ws) as [[i1 b1]|],
    (lookup_cap (by_key p) key) as [[i2 b2]|]; reflexivity.
Qed.

(** On the process-local ledger a workspace cap never trips: from an empty
    ledger, whatever turns are recorded, for whatever workspaces, as long as no
    turn carries a virtual key named like the workspace, every positive
    workspace cap on its own is allowed. *)
Theorem workspace_cap_never_trips_locally p max_days priced turns ws cap today offline :
  0 <= max_days -> global p = None -> bt_get (by_workspace p) ws = Some cap -> f64_lt f64_zero (b_limit cap) = true ->
  Forall (fun '(_, _, key, _) => key <> Some ws) turns ->
  evaluate_for p (foldl (fun l '(cost, when, key, workspace) => record_attributed l cost when key workspace)
                    (SavingsLedger_new max_days priced) turns)
    true (Some ws) None today offline = Ok Allow.
Proof.
  intros Hmax Hglobal Hcap Hpos Hturns.
  assert (forall l, unspent ws l -> unspent ws (foldl (fun l '(cost, when, key, workspace) =>
    record_attributed l cost when key workspace) l turns)) as Hu.
  { induction Hturns as [|[[[cost when] key] w] turns Hkey _ IH]; intros l Hl; [done|]. cbn [foldl].
    by apply IH, unspent_record. }
  specialize (Hu (SavingsLedger_new max_days priced) (conj Hmax (Forall_nil_2 _))).
  unfold evaluate_for. rewrite Hglobal. unfold lookup_cap. cbn [mbind option_bind walk_cap negb]. rewrite Hcap.
  cbn [walk_cap walk_step result_bind option_bind mbind]. unfold evaluate_one.
  by rewrite (zero_below _ _ (unspent_spent ws _ (b_window cap) today Hu) Hpos).
Qed.

(** ** Closed examples *)
Definition sample_cap (breach : string) : Budget :=
  {| b_limit := f64_dec 1 1; b_window := lit "month"; on_breach := lit breach |}.

Definition sample_budgets : BudgetPolicy :=
  from_gateway_config
    (policy_config false None None
       [(lit "team", {| ws_models := []; ws_profile := None; ws_budget := Some (sample_cap "block");
                        ws_rate_limit := None |})]
       [(lit "key-1", {| vk_hash := []; vk_tags := []; vk_workspace := Some (lit "team");
                         vk_budget := Some (sample_cap "block"); vk_rate_limit := None; vk_models := [] |})]).

(** The same turn exhausts the key's cap and leaves the workspace's untouched. *)
Example sample_key_cap_blocks :
  evaluate_for sample_budgets sample_ledger true (Some (lit "team")) (Some (lit "key-1")) leap_day false =
    Ok (Block (lit "month") (f64_dec 1 1)) /\
  evaluate_for sample_budgets sample_ledger true (Some (lit "team")) None leap_day false = Ok Allow /\
  evaluate_for sample_budgets sample_ledger true (Some (lit "team")) (Some (lit "key-1")) leap_day true = Ok Degrade.
Proof. vm_compute. done. Qed.

Lemma workspace_cap_never_trips_locally_witness :
  evaluate_for {| global := None; by_workspace := [(lit "team", sample_cap "block")]; by_key := [] |} sample_ledger
    true (Some (lit "team")) None leap_day false = Ok Allow.
Proof.
  apply (workspace_cap_never_trips_locally _ 30 true [(sample_turn, leap_day, Some (lit "key-1"), Some (lit "team"))]
           (lit "team") (sample_cap "block")); try done.
  apply Forall_singleton. discriminate.
Defined.
