(* ===== verification/Auth.v ===== *)
(** * Virtual-key credentials (crate [wayfinder-gateway], [src/auth.rs])

    Hashing, digest parsing, matching against the configured digests, and the
    [Authorization] header.  SHA-256 belongs to the [sha2] crate and is a
    parameter; constant-time comparison is equality of the compared bytes. *)
From S2P Require Export Text CacheKey.

(** ** The code *)

Definition hex_nibble (value : Z) : option Z :=
  if (48 <=? value) && (value <=? 57) then Some (value - 48)
  else if (97 <=? value) && (value <=? 102) then Some (value - 97 + 10)
  else if (65 <=? value) && (value <=? 70) then Some (value - 65 + 10)
  else None.

(** The loop of [parse_digest] over [chunks_exact(2)]. *)
Fixpoint parse_pairs (bytes : list Z) : option (list Z) :=
  match bytes with
  | a :: b :: bytes =>
      high ← hex_nibble a;
      low ← hex_nibble b;
      digest ← parse_pairs bytes;
      Some (Z.lor (Z.land (Z.shiftl high 4) 255) low :: digest)
  | _ => Some []
  end.

Definition parse_digest (value : str) : option (list Z) :=
  let value := trim value in
  if negb (str_len value =? 64) then None else parse_pairs (as_bytes value).

Definition nonempty (s : str) : option str := match s with [] => None | _ => Some s end.

Section Auth.
Context (sha256 : list Z -> list Z).

Definition hash_key (presented : str) : str := hex_encode (sha256 (as_bytes presented)).

(** [parse_digest(expected).is_some_and(|expected| actual.ct_eq(&expected))]. *)
Definition digest_matches (actual : list Z) (expected_hash : str) : bool :=
  match parse_digest expected_hash with
  | Some expected => bool_decide (actual = expected)
  | None => false
  end.

Definition verify (presented expected_hash : str) : bool :=
  digest_matches (sha256 (as_bytes presented)) expected_hash.

Definition match_key (presented : option str) (hashes : list (str * str)) : option str :=
  presented ← (presented ≫= nonempty);
  let actual := sha256 (as_bytes presented) in
  foldl (fun found '(key_id, expected_hash) => if digest_matches actual expected_hash then Some key_id else found)
    None hashes.
End Auth.

(** [value.get(6..)] succeeds where it is called: the first six characters of
    [value] are ASCII letters. *)
Definition extract_bearer (authorization : option str) : option str :=
  value ← authorization;
  let value := trim value in
  match value with
  | [] => None
  | _ =>
      let lowercase := to_ascii_lowercase value in
      if str_eqb lowercase (lit "bearer") || starts_with lowercase (lit "bearer ")
      then nonempty (trim (drop 6 value))
      else Some value
  end.

(** ** Lemmas *)

Definition is_byte (b : Z) : Prop := 0 <= b < 256.
Definition blank (s : str) : Prop := Forall (fun c => char_is_whitespace c = true) s.

Lemma trim_start_blank a s : blank a -> trim_start (a ++ s) = trim_start s.
Proof. unfold trim_start. induction 1 as [|c a Hc _ IH]; [done|]. simpl. by rewrite Hc. Qed.

Lemma trim_start_stop s : blank s \/ exists a c t, s = a ++ c :: t /\ blank a /\ char_is_whitespace c = false /\
  trim_start s = c :: t.
Proof.
  unfold trim_start. induction s as [|c s [IH|(a & d & t & -> & Ha & Hd & Ht)]]; [left; constructor|..];
    destruct (char_is_whitespace c) eqn:Hc.
  - left. by constructor.
  - right. exists [], c, s. simpl. rewrite Hc. by repeat constructor.
  - right. exists (c :: a), d, t. simpl. rewrite Hc, Ht. by repeat constructor.
  - right. exists [], c, (a ++ d :: t). simpl. rewrite Hc. by repeat constructor.
Qed.

Lemma blank_rev s : blank s -> blank (rev s).
Proof. unfold blank. rewrite !Forall_forall. intros H c Hin. apply H. apply list_elem_of_In. apply in_rev. by apply list_elem_of_In. Qed.

Lemma trim_start_all a : blank a -> trim_start a = [].
Proof. intros Ha. rewrite <- (app_nil_r a). by rewrite trim_start_blank. Qed.

(** Trimming drops blanks around a string that neither starts nor ends blank. *)
Lemma trim_pad a t b : blank a -> blank b -> trim t = t -> trim (a ++ t ++ b) = t.
Proof.
  intros Ha Hb Ht. unfold trim, trim_end in *. rewrite trim_start_blank by done.
  destruct (trim_start_stop t) as [Hbl|(p & c & u & -> & Hp & Hc & Hs)].
  - rewrite trim_start_blank by done. rewrite (trim_start_all b) by done.
    rewrite (trim_start_all t) in Ht by done. done.
  - assert (p = []) as ->.
    { rewrite Hs in Ht. destruct p as [|x p]; [done|]. exfalso.
      assert (length (rev (trim_start (rev (c :: u)))) = length ((x :: p) ++ c :: u)) as Hl by (by rewrite Ht).
      rewrite length_rev in Hl. pose proof (drop_while_suffix char_is_whitespace (rev (c :: u))) as (pre & Hpre & _).
      apply (f_equal length) in Hpre. rewrite length_app, length_rev in Hpre. unfold trim_start in Hl.
      rewrite length_app in Hl. cbn [length] in *. lia. }
    cbn [app] in *. replace (trim_start (c :: u ++ b)) with ((c :: u) ++ b) by (unfold trim_start; simpl; by rewrite Hc).
    rewrite rev_app_distr, trim_start_blank by (by apply blank_rev). rewrite Hs in Ht. exact Ht.
Qed.

Lemma hex_nibble_iff c n :
  hex_nibble c = Some n <-> 0 <= n < 16 /\ char_to_ascii_lowercase c = hex_digit n.
Proof.
  unfold hex_nibble, char_to_ascii_lowercase, hex_digit. split.
  - intros H. repeat case_match; zify_bools; simplify_eq; try lia.
  - intros [Hn H]. repeat case_match; zify_bools; try lia; f_equal; lia.
Qed.

Lemma join_nibbles h l : 0 <= h < 16 -> 0 <= l < 16 -> Z.lor (Z.land (Z.shiftl h 4) 255) l = 16 * h + l.
Proof.
  intros Hh Hl.
  assert (H : forallb (fun h => forallb (fun l => Z.lor (Z.land (Z.shiftl (Z.of_nat h) 4) 255) (Z.of_nat l) =?
    16 * Z.of_nat h + Z.of_nat l) (seq 0 16)) (seq 0 16) = true) by (vm_compute; reflexivity).
  rewrite forallb_forall in H. specialize (H (Z.to_nat h) ltac:(apply in_seq; lia)).
  rewrite forallb_forall in H. specialize (H (Z.to_nat l) ltac:(apply in_seq; lia)).
  apply Z.eqb_eq in H. by rewrite !Z2Nat.id in H by lia.
Qed.

Lemma hex_encode_cons x d : hex_encode (x :: d) = hex_digit (Z.shiftr x 4) :: hex_digit (Z.land x 15) :: hex_encode d.
Proof. done. Qed.

(** Two hexadecimal digits, of either case, per byte. *)
Lemma parse_pairs_iff d : forall bytes,
  (Nat.even (length bytes) = true /\ parse_pairs bytes = Some d) <->
  Forall is_byte d /\ to_ascii_lowercase bytes = hex_encode d.
Proof.
  induction d as [|x d IH]; intros [|a [|b bytes]]; cbn [length Nat.even parse_pairs to_ascii_lowercase map];
    rewrite ?hex_encode_cons.
  - split; [by repeat constructor|done].
  - split; [by intros [? ?]|by intros [_ ?]].
  - split; [|by intros [_ ?]]. intros [_ Hd]. destruct (hex_nibble a), (hex_nibble b), (parse_pairs bytes); done.
  - split; [by intros [_ ?]|by intros [_ ?]].
  - split; [by intros [? ?]|by intros [_ ?]].
  - split.
    + intros [He Hd]. destruct (hex_nibble a) as [h|] eqn:Ha; [|done]. destruct (hex_nibble b) as [l|] eqn:Hb; [|done].
      cbn [mbind option_bind] in Hd. destruct (parse_pairs bytes) as [d'|] eqn:Hp; [|done]. cbn in Hd.
      apply hex_nibble_iff in Ha as [Hh Ha], Hb as [Hl Hb].
      assert (x = 16 * h + l /\ d' = d) as [-> ->] by (injection Hd as <- <-; by rewrite join_nibbles).
      destruct (proj1 (IH bytes) (conj He Hp)) as [Hbytes Heq].
      assert (Hx : is_byte (16 * h + l)) by (unfold is_byte; lia). split; [by constructor|].
      destruct (byte_nibbles _ Hx) as (H1 & H2 & H3). unfold to_ascii_lowercase in Heq. rewrite Heq, Ha, Hb.
      f_equal; [f_equal; lia|]. f_equal; f_equal; lia.
    + intros [[Hx Hd]%Forall_cons Heq]. destruct (byte_nibbles x Hx) as (H1 & H2 & H3).
      pose proof (f_equal (fun s => nth 0 s 0) Heq) as Ha. pose proof (f_equal (fun s => nth 1 s 0) Heq) as Hb.
      apply (f_equal (drop 2)) in Heq. cbn [nth drop] in Ha, Hb, Heq.
      destruct (proj2 (IH bytes)) as [He Hp]; [by split|]. split; [done|].
      rewrite (proj2 (hex_nibble_iff a (Z.shiftr x 4))), (proj2 (hex_nibble_iff b (Z.land x 15))) by done.
      cbn [mbind option_bind]. rewrite Hp. cbn. rewrite join_nibbles by lia. by rewrite <- H3.
Qed.

Lemma hex_digit_ascii n : 0 <= n < 16 -> hex_digit n < 128.
Proof. unfold hex_digit. intros. case_match; lia. Qed.

Lemma lower_hex_ascii s d : Forall is_byte d -> to_ascii_lowercase s = hex_encode d -> Forall (fun c => c < 128) s.
Proof.
  intros Hd Heq. assert (Forall (fun c => c < 128) (to_ascii_lowercase s)) as H.
  { rewrite Heq. clear Heq. induction Hd as [|x d Hx _ IH]; [constructor|]. rewrite hex_encode_cons.
    destruct (byte_nibbles x Hx) as (? & ? & _). by repeat constructor; try apply hex_digit_ascii. }
  unfold to_ascii_lowercase in H. rewrite Forall_fmap in H. eapply Forall_impl; [exact H|]. intros c Hc.
  cbn [compose] in Hc. unfold char_to_ascii_lowercase in Hc. case_match; lia.
Qed.

(** What [parse_digest] accepts. *)
Lemma parse_digest_accepts v d :
  parse_digest v = Some d <->
  length d = 32%nat /\ Forall is_byte d /\ to_ascii_lowercase (trim v) = hex_encode d.
Proof.
  unfold parse_digest. rewrite str_len_bytes. split.
  - destruct (Z.eqb_spec (len (as_bytes (trim v))) 64) as [Hlen|]; [|done]. cbn [negb]. intros Hp.
    destruct (proj1 (parse_pairs_iff d (as_bytes (trim v)))) as [Hd Heq].
    { split; [|done]. unfold len in Hlen. by replace (length (as_bytes (trim v))) with 64%nat by lia. }
    pose proof (lower_hex_ascii _ _ Hd Heq) as Hasc%as_bytes_ascii_inv%as_bytes_ascii. rewrite Hasc in Heq, Hlen.
    split_and!; [|done..]. apply (f_equal length) in Heq. rewrite hex_encode_length in Heq.
    unfold to_ascii_lowercase in Heq. rewrite length_map in Heq. unfold len in Hlen. lia.
  - intros (Hl & Hd & Heq). rewrite (as_bytes_ascii (trim v)) by (by eapply lower_hex_ascii).
    destruct (proj2 (parse_pairs_iff d (trim v))) as [_ Hp]; [done|].
    apply (f_equal length) in Heq. rewrite hex_encode_length in Heq. unfold to_ascii_lowercase in Heq.
    rewrite length_map in Heq. unfold len. by rewrite (proj2 (Z.eqb_eq _ _)) by lia.
Qed.

Lemma trim_start_head s : trim_start s = s \/ (exists c, head s = Some c /\ char_is_whitespace c = true).
Proof. destruct s as [|c s]; [by left|]. unfold trim_start. simpl. destruct (char_is_whitespace c) eqn:E; eauto. Qed.

(** A nonempty string is trimmed iff it neither starts nor ends blank. *)
Definition nonblank_head (s : str) : Prop := exists c u, s = c :: u /\ char_is_whitespace c = false.

Lemma trim_start_nonblank s : nonblank_head s -> trim_start s = s.
Proof. intros (c & u & -> & Hc). unfold trim_start. simpl. by rewrite Hc. Qed.

Lemma trim_start_nonempty s : trim_start s <> [] -> nonblank_head (trim_start s).
Proof.
  intros Hne. destruct (trim_start_stop s) as [Hb|(a & c & t & _ & _ & Hc & ->)]; [|by exists c, t].
  by rewrite trim_start_all in Hne.
Qed.

Lemma trim_ends s : nonblank_head s -> nonblank_head (rev s) -> trim s = s.
Proof.
  intros Hh Hl. unfold trim, trim_end. rewrite (trim_start_nonblank s), (trim_start_nonblank (rev s)) by done.
  apply rev_involutive.
Qed.

Lemma trim_ends_inv s : trim s <> [] -> nonblank_head (trim s) /\ nonblank_head (rev (trim s)).
Proof.
  unfold trim, trim_end. intros Hne. rewrite rev_involutive.
  assert (Ht : trim_start (rev (trim_start s)) <> []).
  { intros H. apply Hne. by rewrite H. }
  split; [|by apply trim_start_nonempty].
  assert (Hs : trim_start s <> []) by (intros H; rewrite H in Ht; done).
  apply trim_start_nonempty in Hs as (c & u & Hs & Hc). rewrite Hs in *. cbn [rev] in *.
  destruct (trim_start_stop (rev u)) as [Hb|(a & d & t & Hr & Ha & Hd & Hd')].
  - rewrite trim_start_blank by done. unfold trim_start. simpl. rewrite Hc. by exists c, [].
  - rewrite Hr, <- app_assoc, trim_start_blank by done. unfold trim_start. simpl. rewrite Hd. simpl.
    rewrite rev_app_distr. simpl. by exists c, (rev t ++ [d]).
Qed.

Lemma trim_idem s : trim (trim s) = trim s.
Proof.
  destruct (decide (trim s = [])) as [->|Hne]; [done|]. apply trim_ends_inv in Hne as [? ?]. by apply trim_ends.
Qed.

Lemma nonempty_some s t : nonempty s = Some t <-> s = t /\ t <> [].
Proof. destruct s; naive_solver. Qed.

(** The last element of a pass that keeps the latest match. *)
Lemma foldl_last {A B} (p : A -> bool) (f : A -> B) (l : list A) (z : option B) :
  foldl (fun found x => if p x then Some (f x) else found) z l =
  match List.find p (rev l) with Some x => Some (f x) | None => z end.
Proof.
  revert z. induction l as [|x l IH]; intros z; [done|]. cbn [foldl rev]. rewrite IH.
  assert (Happ : forall a b : list A, List.find p (a ++ b) = match List.find p a with Some y => Some y | None => List.find p b end).
  { intros a b. induction a as [|y a IHa]; [done|]. cbn [app List.find]. by destruct (p y). }
  rewrite Happ. destruct (List.find p (rev l)); [done|]. cbn [List.find]. by destruct (p x).
Qed.

(** What the code relies on of SHA-256: digests are 32 bytes. *)
Definition sha256_digest (sha256 : list Z -> list Z) : Prop :=
  forall input, length (sha256 input) = 32%nat /\ Forall is_byte (sha256 input).

Lemma digest_matches_iff sha256 presented expected :
  sha256_digest sha256 ->
  digest_matches (sha256 (as_bytes presented)) expected = true <->
  to_ascii_lowercase (trim expected) = hash_key sha256 presented.
Proof.
  intros Hsha. unfold digest_matches, hash_key. destruct (Hsha (as_bytes presented)) as [Hl Hb].
  destruct (parse_digest expected) as [d|] eqn:Hp.
  - rewrite bool_decide_eq_true. apply parse_digest_accepts in Hp as (_ & Hd & ->). split; [by intros ->|].
    intros H. symmetry. by apply hex_encode_inj.
  - split; [done|]. intros H. exfalso.
    assert (parse_digest expected = Some (sha256 (as_bytes presented))) as H2 by (by apply parse_digest_accepts).
    congruence.
Qed.

Lemma trim_solid s : Forall (fun c => char_is_whitespace c = false) s -> trim s = s.
Proof.
  intros Hs. destruct s as [|c u]; [done|]. apply trim_ends.
  - apply Forall_cons in Hs as [? _]. by exists c, u.
  - assert (Forall (fun c => char_is_whitespace c = false) (rev (c :: u))) as Hr by (by rewrite <- Permutation_rev).
    destruct (rev (c :: u)) as [|d v] eqn:Er; [|apply Forall_cons in Hr as [? _]; by exists d, v].
    apply (f_equal (@length Z)) in Er. by rewrite length_rev in Er.
Qed.

Lemma hex_encode_chars d :
  Forall is_byte d -> Forall (fun c => char_is_whitespace c = false /\ char_to_ascii_lowercase c = c) (hex_encode d).
Proof.
  assert (Hdigit : forall n, 0 <= n < 16 ->
    char_is_whitespace (hex_digit n) = false /\ char_to_ascii_lowercase (hex_digit n) = hex_digit n).
  { intros n Hn. assert (H : forallb (fun n => negb (char_is_whitespace (hex_digit (Z.of_nat n))) &&
      (char_to_ascii_lowercase (hex_digit (Z.of_nat n)) =? hex_digit (Z.of_nat n))) (seq 0 16) = true) by done.
    rewrite forallb_forall in H. specialize (H (Z.to_nat n) ltac:(apply in_seq; lia)). rewrite Z2Nat.id in H by lia.
    by zify_bools. }
  induction 1 as [|x d Hx _ IH]; [constructor|]. rewrite hex_encode_cons.
  destruct (byte_nibbles x Hx) as (? & ? & _). repeat constructor; try apply Hdigit; done.
Qed.

Lemma hash_key_stored sha256 presented :
  sha256_digest sha256 ->
  to_ascii_lowercase (trim (hash_key sha256 presented)) = hash_key sha256 presented.
Proof.
  intros Hsha. unfold hash_key. destruct (Hsha (as_bytes presented)) as [_ Hb].
  pose proof (hex_encode_chars _ Hb) as Hc. rewrite trim_solid.
  - unfold to_ascii_lowercase. induction Hc as [|c l [_ Hlow] _ IH]; [done|]. simpl. by rewrite Hlow, IH.
  - eapply Forall_impl; [exact Hc|]. by intros c [? _].
Qed.

Lemma bearer_head scheme rest : to_ascii_lowercase scheme = lit "bearer" -> nonblank_head (scheme ++ rest).
Proof.
  destruct scheme as [|x s]; [done|]. intros H. exists x, (s ++ rest). split; [done|].
  pose proof (f_equal (fun s => nth 0 s 0) H) as Hx. cbn in Hx. unfold char_to_ascii_lowercase in Hx.
  assert (x = 98 \/ x = 66) as [-> | ->]; [|done..]. case_match; zify_bools; lia.
Qed.

Lemma foldl_last_match sha256 key hashes :
  foldl (fun found '(key_id, expected_hash) =>
    if digest_matches (sha256 (as_bytes key)) expected_hash then Some key_id else found) None hashes =
  match List.find (fun x : str * str => digest_matches (sha256 (as_bytes key)) (snd x)) (rev hashes) with
  | Some (key_id, _) => Some key_id
  | None => None
  end.
Proof.
  assert (Hx : forall z, foldl (fun found '(key_id, expected_hash) =>
    if digest_matches (sha256 (as_bytes key)) expected_hash then Some key_id else found) z hashes =
    foldl (fun found x => if digest_matches (sha256 (as_bytes key)) (snd x) then Some (fst x) else found) z hashes).
  { induction hashes as [|[id h] hashes IH]; intros z; [done|]. cbn [foldl]. apply IH. }
  rewrite Hx, foldl_last. by destruct (List.find _ _) as [[]|].
Qed.

(** The last configured id whose stored digest is the presented key's. *)
Lemma match_key_last_match sha256 presented hashes id :
  sha256_digest sha256 ->
  match_key sha256 presented hashes = Some id <->
  exists key pre h post, presented = Some key /\ key <> [] /\ hashes = pre ++ (id, h) :: post /\
    to_ascii_lowercase (trim h) = hash_key sha256 key /\
    Forall (fun '(_, h) => to_ascii_lowercase (trim h) <> hash_key sha256 key) post.
Proof.
  intros Hsha. unfold match_key. destruct presented as [key|]; cbn [mbind option_bind];
    [|split; [done|intros (? & ? & ? & ? & ? & _); done]].
  destruct key as [|c key]; cbn [nonempty mbind option_bind];
    [split; [done|intros (? & ? & ? & ? & [= <-] & Hne & _); done]|].
  set (k := c :: key). rewrite (foldl_last_match sha256 k).
  assert (Hm : forall h, digest_matches (sha256 (as_bytes k)) h = true <->
    to_ascii_lowercase (trim h) = hash_key sha256 k) by (intros h; by apply digest_matches_iff).
  split.
  - destruct (List.find _ _) as [[id' h]|] eqn:Hf; [|done]. intros [= ->]. apply find_first in Hf as (a & b & Hr & Hh & Ha).
    exists k, (rev b), h, (rev a). split_and!; [done|done| |by apply Hm|].
    + apply (f_equal (@rev _)) in Hr. rewrite rev_involutive, rev_app_distr in Hr. simpl in Hr.
      by rewrite <- app_assoc in Hr.
    + rewrite <- Permutation_rev. eapply Forall_impl; [exact Ha|]. intros [? h'] H Hx. apply Hm in Hx. cbn [snd] in H. by rewrite Hx in H.
  - intros (key' & pre & h & post & [= <-] & _ & -> & Hh & Hpost). rewrite rev_app_distr. cbn [rev].
    rewrite <- app_assoc. cbn [app].
    assert (List.find (fun x : str * str => digest_matches (sha256 (as_bytes k)) (snd x)) (rev post ++ (id, h) :: rev pre) =
            Some (id, h)) as ->; [|done].
    apply find_first. exists (rev post), (rev pre). split_and!; [done|by apply Hm|].
    rewrite <- Permutation_rev. eapply Forall_impl; [exact Hpost|]. intros [? h'] H. apply not_true_is_false.
    by rewrite Hm.
Qed.

Lemma extract_bearer_solid authorization token :
  extract_bearer authorization = Some token -> trim token = token /\ token <> [].
Proof.
  destruct authorization as [v|]; cbn [extract_bearer mbind option_bind]; [|done].
  destruct (trim v) as [|c u] eqn:E; [done|]. destruct (_ || _).
  - intros [<- ?]%nonempty_some. split; [apply trim_idem|done].
  - intros [= <-]. split; [rewrite <- E; apply trim_idem|done].
Qed.

(** ** Properties *)

(** A presented key verifies against a configured digest exactly when the
    digest, up to surrounding whitespace and the case of its hexadecimal
    digits, is the one [hash_key] stores for that key; malformed digests verify
    nothing. *)
Theorem verify_iff_stored_hash sha256 presented expected :
  sha256_digest sha256 ->
  (verify sha256 presented expected = true <-> to_ascii_lowercase (trim expected) = hash_key sha256 presented) /\
  verify sha256 presented (hash_key sha256 presented) = true.
Proof.
  intros Hsha. split; [by apply digest_matches_iff|]. apply digest_matches_iff; [done|]. by apply hash_key_stored.
Qed.

Lemma verify_iff_stored_hash_witness : verify toy_sha (lit "wf-secret") (hash_key toy_sha (lit "wf-secret")) = true.
Proof.
  apply (verify_iff_stored_hash toy_sha (lit "wf-secret") []). intros input. split; [done|apply toy_sha_bytes].
Defined.

(** A bearer token is extracted whatever the case of its scheme and the
    blanks around its parts, and whatever is extracted, from the bearer form or
    the bare form, is nonempty and carries no surrounding blanks. *)
Theorem extract_bearer_token :
  (forall scheme token a b c,
     to_ascii_lowercase scheme = lit "bearer" -> trim token = token -> token <> [] -> blank a -> blank b -> blank c ->
     extract_bearer (Some (a ++ scheme ++ lit " " ++ b ++ token ++ c)) = Some token) /\
  (forall authorization token, extract_bearer authorization = Some token -> trim token = token /\ token <> []).
Proof.
  split.
  - intros scheme token a b c Hs Ht Hne Ha Hb Hc. unfold extract_bearer. cbn [mbind option_bind].
    assert (Htrim : trim (a ++ scheme ++ lit " " ++ b ++ token ++ c) = scheme ++ lit " " ++ b ++ token).
    { replace (a ++ scheme ++ lit " " ++ b ++ token ++ c) with (a ++ (scheme ++ lit " " ++ b ++ token) ++ c)
        by (by rewrite <- !app_assoc).
      apply trim_pad; [done..|]. apply trim_ends.
      - by apply bearer_head.
      - rewrite !rev_app_distr. rewrite <- Ht in Hne. apply trim_ends_inv in Hne as [_ (x & u & Hx & Hw)].
        rewrite Ht in Hx. rewrite Hx. by exists x, ((u ++ rev b) ++ rev (lit " ") ++ rev scheme); rewrite <- ?app_assoc. }
    rewrite Htrim.
    assert (Hlen : length scheme = 6%nat).
    { apply (f_equal (@length _)) in Hs. unfold to_ascii_lowercase in Hs. by rewrite length_map in Hs. }
    assert (Hdrop : drop 6 (scheme ++ lit " " ++ b ++ token) = lit " " ++ b ++ token) by (by apply drop_app_length').
    destruct (scheme ++ lit " " ++ b ++ token) as [|x u] eqn:E; [by destruct scheme|]. rewrite Hdrop, <- E.
    assert (starts_with (to_ascii_lowercase (scheme ++ lit " " ++ b ++ token)) (lit "bearer ") = true) as ->.
    { apply starts_with_spec. exists (to_ascii_lowercase (b ++ token)). unfold to_ascii_lowercase in *.
      rewrite !map_app, Hs. done. }
    rewrite orb_true_r. apply nonempty_some. split; [|done].
    replace (lit " " ++ b ++ token) with ((lit " " ++ b) ++ token ++ []) by (by rewrite app_nil_r, <- app_assoc).
    apply trim_pad; [|constructor|done]. by constructor.
  - apply extract_bearer_solid.
Qed.

Lemma extract_bearer_token_witness : extract_bearer (Some (lit " bEaReR  wf-secret ")) = Some (lit "wf-secret").
Proof.
  apply (proj1 extract_bearer_token (lit "bEaReR") (lit "wf-secret") (lit " ") (lit " ") (lit " "));
    try (vm_compute; reflexivity); try discriminate; by repeat constructor.
Defined.
