(* ===== verification/Canary.v ===== *)
(** * Canary rollouts (crate [wayfinder-gateway], [src/canary.rs])

    Which requests a rollout samples and when its counters stop it.  SHA-256 is
    a parameter. *)
From S2P Require Export Text GatewayConfig.

Definition CANARY_IDENTITY_HEADER : str := lit "x-wayfinder-canary-identity".
Definition CANARY_COHORT_HEADER : str := lit "x-wayfinder-canary-cohort".
Definition BUCKETS : Z := 1000000.

Inductive Assignment := AssignEligible (identity : str) | Suppressed (reason : str).

Inductive Tripwire := TripErrorRate | TripLatency | TripCost | TripQuality.

Definition Tripwire_as_str (t : Tripwire) : str :=
  match t with
  | TripErrorRate => lit "error-rate"
  | TripLatency => lit "latency"
  | TripCost => lit "cost-multiplier"
  | TripQuality => lit "quality-loss"
  end.

(** The counters of [src/state.rs]. *)
Record SharedCanarySnapshot := {
  sn_requests : Z;
  sn_errors : Z;
  sn_latency_sum_ms : Z;
  sn_latency_samples : Z;
  sn_realized_cost : f64;
  sn_baseline_cost : f64;
  sn_cost_samples : Z;
  sn_quality_loss : f64;
  sn_quality_samples : Z;
  sn_tripped_reason : option str;
}.

Definition nonempty_id (value : option str) : option str :=
  match value with Some (_ :: _) => value | _ => None end.

Section Assignment.
Context (sha256 : list Z -> list Z).

Definition be_u64 (bytes : list Z) : Z := foldl (fun n b => n * 256 + b) 0 bytes.

(** [bytes[..8].try_into().unwrap_or([0; 8])]: a digest has 32 bytes. *)
Definition assignment_bucket (rollout identity : str) : Z :=
  let bytes := sha256 (as_bytes (lit "wayfinder-canary-v1") ++ [0] ++ as_bytes rollout ++ [0] ++ as_bytes identity) in
  be_u64 (take 8 bytes) mod BUCKETS.

(** The identity the scope samples by; [inr] ends the function. *)
Definition scope_identity (config : CanaryConfig) (request_id : str)
    (workspace key identity_header cohort_header : option str) : option str + str :=
  if str_eqb (cn_scope config) (lit "request") then
    inl (match nonempty_id identity_header with Some value => Some value | None => Some request_id end)
  else if str_eqb (cn_scope config) (lit "workspace") then inl workspace
  else if str_eqb (cn_scope config) (lit "key") then inl key
  else if str_eqb (cn_scope config) (lit "cohort") then
    match cohort config with
    | None => inr (lit "cohort-not-configured")
    | Some expected =>
        inl (match cohort_header with Some value => if str_eqb value expected then Some value else None | None => None end)
    end
  else inl None.

Definition canary_threshold (config : CanaryConfig) : Z :=
  f64_to_u64 (f64_floor (f64_mul (f64_clamp (fraction config) f64_zero f64_one) (f64_of_Z BUCKETS))).

Definition assignment_identity (config : CanaryConfig) (request_id : str)
    (workspace key identity_header cohort_header : option str) : Assignment :=
  match scope_identity config request_id workspace key identity_header cohort_header with
  | inr reason => Suppressed reason
  | inl identity =>
      match nonempty_id identity with
      | None => Suppressed (lit "stable-identity-missing")
      | Some identity =>
          if assignment_bucket (rollout_id config) identity <? canary_threshold config
          then AssignEligible identity else Suppressed (lit "outside-cohort")
      end
  end.
End Assignment.

Definition tripwire (config : CanaryConfig) (s : SharedCanarySnapshot) : option Tripwire :=
  if sn_requests s <? min_samples config then None
  else if f64_gt (f64_div (f64_of_Z (sn_errors s)) (f64_of_Z (sn_requests s))) (max_error_rate config) then Some TripErrorRate
  else if (0 <? sn_latency_samples s)
          && f64_gt (f64_div (f64_of_Z (sn_latency_sum_ms s)) (f64_of_Z (sn_latency_samples s))) (max_latency_ms config)
  then Some TripLatency
  else if (0 <? sn_cost_samples s) && f64_gt (sn_baseline_cost s) f64_zero
          && f64_gt (f64_div (sn_realized_cost s) (sn_baseline_cost s)) (max_cost_multiplier config)
  then Some TripCost
  else if (0 <? sn_quality_samples s)
          && f64_gt (f64_div (sn_quality_loss s) (f64_of_Z (sn_quality_samples s))) (max_quality_loss config)
  then Some TripQuality
  else None.

(** ** Assignment *)

(** The identity the configured scope samples by, when the request has one. *)
Inductive stable_identity (config : CanaryConfig) (request_id : str) (workspace key identity_header cohort_header : option str)
  : str -> Prop :=
| stable_header identity : cn_scope config = lit "request" -> identity_header = Some identity -> identity <> [] ->
    stable_identity config request_id workspace key identity_header cohort_header identity
| stable_request : cn_scope config = lit "request" -> nonempty_id identity_header = None -> request_id <> [] ->
    stable_identity config request_id workspace key identity_header cohort_header request_id
| stable_workspace identity : cn_scope config = lit "workspace" -> workspace = Some identity -> identity <> [] ->
    stable_identity config request_id workspace key identity_header cohort_header identity
| stable_key identity : cn_scope config = lit "key" -> key = Some identity -> identity <> [] ->
    stable_identity config request_id workspace key identity_header cohort_header identity
| stable_cohort identity : cn_scope config = lit "cohort" -> cohort config = Some identity -> cohort_header = Some identity ->
    identity <> [] -> stable_identity config request_id workspace key identity_header cohort_header identity.

Lemma nonempty_id_some value identity : nonempty_id value = Some identity <-> value = Some identity /\ identity <> [].
Proof. destruct value as [[|c v]|]; cbn; naive_solver. Qed.

Lemma scope_identity_iff config request_id workspace key identity_header cohort_header identity :
  (exists value, scope_identity config request_id workspace key identity_header cohort_header = inl value /\
     nonempty_id value = Some identity) <->
  stable_identity config request_id workspace key identity_header cohort_header identity.
Proof.
  unfold scope_identity. split.
  - intros (value & Hs & Hv). apply nonempty_id_some in Hv as [-> Hne].
    destruct (str_eqb _ (lit "request")) eqn:E1.
    { apply str_eqb_eq in E1. destruct (nonempty_id identity_header) as [x|] eqn:Hx.
      - injection Hs as ->. apply nonempty_id_some in Hx as [Hx _]. by apply stable_header.
      - injection Hs as <-. by apply stable_request. }
    destruct (str_eqb _ (lit "workspace")) eqn:E2; [apply str_eqb_eq in E2; injection Hs as Hs; by apply stable_workspace|].
    destruct (str_eqb _ (lit "key")) eqn:E3; [apply str_eqb_eq in E3; injection Hs as Hs; by apply stable_key|].
    destruct (str_eqb _ (lit "cohort")) eqn:E4; [|done]. apply str_eqb_eq in E4.
    destruct (cohort config) as [expected|] eqn:Hc; [|done]. injection Hs as Hs.
    destruct cohort_header as [v|] eqn:Hh; [|done]. destruct (str_eqb v expected) eqn:Ev; [|done].
    apply str_eqb_eq in Ev. injection Hs as <-. by apply stable_cohort; [done|rewrite Hc, Ev|..].
  - intros Hst. exists (Some identity). rewrite nonempty_id_some.
    destruct Hst as [i E -> Hne|E Hi Hne|i E -> Hne|i E -> Hne|i E Hc -> Hne]; rewrite E.
    + destruct i as [|ch i]; [done|]. by split.
    + change (str_eqb (lit "request") (lit "request")) with true. cbv iota. rewrite Hi. by split.
    + by split.
    + by split.
    + rewrite Hc. split; [|by split]. transitivity (inl (if str_eqb i i then Some i else None) : option str + str); [reflexivity|].
      by rewrite str_eqb_refl.
Qed.

(** A request is assigned to the rollout exactly when its scope gives it a
    stable non-empty identity and the identity's bucket lies under the
    fraction; the assignment names that identity, so it depends on the identity
    and the rollout alone. *)
Theorem assignment_iff sha256 config request_id workspace key identity_header cohort_header identity :
  assignment_identity sha256 config request_id workspace key identity_header cohort_header = AssignEligible identity <->
  stable_identity config request_id workspace key identity_header cohort_header identity /\
  assignment_bucket sha256 (rollout_id config) identity < canary_threshold config.
Proof.
  rewrite <- scope_identity_iff. unfold assignment_identity.
  destruct (scope_identity _ _ _ _ _ _) as [value|reason]; [|split; [done|by intros [(? & ? & _) _]]].
  destruct (nonempty_id value) as [i|] eqn:Hv; [|split; [done|intros [(v & [= <-] & Hv') _]; congruence]].
  destruct (_ <? _) eqn:Hlt; [apply Z.ltb_lt in Hlt|apply Z.ltb_ge in Hlt]; split; try done.
  - intros [= ->]. split; [by exists value|done].
  - intros [(v & [= <-] & Hv') _]. congruence.
  - intros [(v & [= <-] & Hv') Hlt']. rewrite Hv in Hv'. injection Hv' as ->. lia.
Qed.

(** The fraction's ends: nobody, and everybody with an identity. *)
Example empty_fraction : canary_threshold default_canary = 0.
Proof. vm_compute. reflexivity. Qed.

Lemma bucket_range sha256 rollout identity : 0 <= assignment_bucket sha256 rollout identity < BUCKETS.
Proof. unfold assignment_bucket. by apply Z.mod_pos_bound. Qed.

(** ** Tripwires *)

(** What stops a rollout: a bound exceeded by the mean of the samples taken. *)
Definition exceeded (config : CanaryConfig) (s : SharedCanarySnapshot) (t : Tripwire) : Prop :=
  match t with
  | TripErrorRate => f64_gt (f64_div (f64_of_Z (sn_errors s)) (f64_of_Z (sn_requests s))) (max_error_rate config) = true
  | TripLatency => 0 < sn_latency_samples s /\
      f64_gt (f64_div (f64_of_Z (sn_latency_sum_ms s)) (f64_of_Z (sn_latency_samples s))) (max_latency_ms config) = true
  | TripCost => 0 < sn_cost_samples s /\ f64_gt (sn_baseline_cost s) f64_zero = true /\
      f64_gt (f64_div (sn_realized_cost s) (sn_baseline_cost s)) (max_cost_multiplier config) = true
  | TripQuality => 0 < sn_quality_samples s /\
      f64_gt (f64_div (sn_quality_loss s) (f64_of_Z (sn_quality_samples s))) (max_quality_loss config) = true
  end.

Definition earlier_tripwires (t : Tripwire) : list Tripwire :=
  match t with
  | TripErrorRate => []
  | TripLatency => [TripErrorRate]
  | TripCost => [TripErrorRate; TripLatency]
  | TripQuality => [TripErrorRate; TripLatency; TripCost]
  end.

(** A rollout trips on the first bound exceeded, and never on fewer requests
    than the configured minimum. *)
Theorem tripwire_iff config s t :
  tripwire config s = Some t <->
  min_samples config <= sn_requests s /\ exceeded config s t /\ Forall (fun e => ~ exceeded config s e) (earlier_tripwires t).
Proof.
  assert (H1 : exceeded config s TripErrorRate <-> f64_gt (f64_div (f64_of_Z (sn_errors s)) (f64_of_Z (sn_requests s)))
    (max_error_rate config) = true) by done.
  assert (H2 : exceeded config s TripLatency <-> (0 <? sn_latency_samples s) && f64_gt (f64_div (f64_of_Z (sn_latency_sum_ms s))
    (f64_of_Z (sn_latency_samples s))) (max_latency_ms config) = true) by (by rewrite andb_true_iff, Z.ltb_lt).
  assert (H3 : exceeded config s TripCost <-> (0 <? sn_cost_samples s) && f64_gt (sn_baseline_cost s) f64_zero
    && f64_gt (f64_div (sn_realized_cost s) (sn_baseline_cost s)) (max_cost_multiplier config) = true)
    by (rewrite !andb_true_iff, Z.ltb_lt; unfold exceeded; tauto).
  assert (H4 : exceeded config s TripQuality <-> (0 <? sn_quality_samples s) && f64_gt (f64_div (sn_quality_loss s)
    (f64_of_Z (sn_quality_samples s))) (max_quality_loss config) = true) by (by rewrite andb_true_iff, Z.ltb_lt).
  unfold tripwire. rewrite <- Z.ltb_ge. destruct (sn_requests s <? min_samples config); [split; [done|by intros [? _]]|].
  revert H1 H2 H3 H4. generalize (exceeded config s). intros P.
  generalize (f64_gt (f64_div (f64_of_Z (sn_errors s)) (f64_of_Z (sn_requests s))) (max_error_rate config)).
  generalize ((0 <? sn_latency_samples s) && f64_gt (f64_div (f64_of_Z (sn_latency_sum_ms s))
    (f64_of_Z (sn_latency_samples s))) (max_latency_ms config)).
  generalize ((0 <? sn_cost_samples s) && f64_gt (sn_baseline_cost s) f64_zero
    && f64_gt (f64_div (sn_realized_cost s) (sn_baseline_cost s)) (max_cost_multiplier config)).
  generalize ((0 <? sn_quality_samples s) && f64_gt (f64_div (sn_quality_loss s)
    (f64_of_Z (sn_quality_samples s))) (max_quality_loss config)).
  intros b4 b3 b2 b1 H1 H2 H3 H4.
  destruct t; cbn [earlier_tripwires]; rewrite ?Forall_cons, ?Forall_nil, H1, ?H2, ?H3, ?H4; destruct b1, b2, b3, b4;
    (split; [intros [=]|intros (? & ? & ?)]); naive_solver.
Qed.
