(* ===== verification/State.v ===== *)
(** * Shared policy state (crate [wayfinder-gateway], [src/state.rs])

    What every backend shares: the data of its operations, their validation, the
    scaling of costs, the keys of the Redis namespace and the decoding of script
    replies; the operations as a class; and the process-local backend.

    The base64url encoding is a parameter; [key_injective] says what the keys
    need of it.  A poisoned lock is not modelled. *)
From S2P Require Export RateLimit Budget Canary.

(** ** Numbers *)

(** [a.round()]: to the nearest integer, halves away from zero. *)
Definition f64_round (a : f64) : f64 :=
  match a with
  | S754_finite s m e =>
      if 0 <=? e then a
      else binary_normalize f64_prec f64_emax (cond_Zopp s ((Zpos m + 2 ^ (- e - 1)) / 2 ^ (- e))) 0 s
  | _ => a
  end.

(** [a as i64]. *)
Definition f64_to_i64 (a : f64) : Z :=
  match a with
  | S754_finite s m e => Z.max i64_min (Z.min i64_max (cond_Zopp s (Z_of_finite_floor false m e)))
  | S754_infinity s => if s then i64_min else i64_max
  | _ => 0
  end.

(** ** Constants and data *)
Definition REDIS_KEY_ROOT : str := lit "wayfinder:v1".
Definition SHARED_COST_SCALE : f64 := f64_of_Z 1000000.
Definition SHARED_QUALITY_SCALE : f64 := f64_of_Z 1000000.
Definition SHARED_LEDGER_DAY_TTL_SECONDS : Z := 400 * 24 * 60 * 60.
Definition SHARED_LEDGER_MONTH_TTL_SECONDS : Z := 5 * 365 * 24 * 60 * 60.
Definition SHARED_LEDGER_IDEMPOTENCY_TTL_SECONDS : Z := 5 * 365 * 24 * 60 * 60.
Definition SHARED_BUDGET_RESERVATION_TTL_MS : Z := 6 * 60 * 60 * 1000.

Record StateLimitConfig := {
  slc_rpm : option Z;
  slc_tpm : option Z;
  slc_window_seconds : f64;
}.

Record SharedCostObservation := {
  co_request_id : str;
  co_date : str;
  co_scopes : list str;
  co_realized : f64;
  co_baseline : f64;
  co_savings : f64;
  co_prompt_tokens : Z;
  co_completion_tokens : Z;
  co_estimated : bool;
}.

Definition from_turn (request_id date : str) (cost : TurnCost) (scopes : list str) : SharedCostObservation :=
  {| co_request_id := request_id; co_date := date; co_scopes := scopes; co_realized := tc_realized cost;
     co_baseline := tc_baseline cost; co_savings := tc_savings cost; co_prompt_tokens := tc_prompt_tokens cost;
     co_completion_tokens := tc_completion_tokens cost; co_estimated := tc_estimated cost |}.

(** [SharedBudgetScope] is in [Budget], [SharedCanarySnapshot] in [Canary]. *)
Record SharedBudgetReservation := {
  br_request_id : str;
  br_date : str;
  br_amount : f64;
  br_scopes : list SharedBudgetScope;
}.

Record SharedCachePut := {
  cp_generation : str;
  cp_key : str;
  cp_value : list Z;
  cp_body_bytes : Z;
  cp_ttl_seconds : f64;
  cp_max_entries : Z;
  cp_max_bytes : Z;
}.

Record SharedCanaryObservation := {
  ob_rollout_id : str;
  ob_request_id : str;
  ob_succeeded : bool;
  ob_latency_ms : Z;
  ob_realized_cost : option f64;
  ob_baseline_cost : option f64;
  ob_quality_loss : option f64;
}.

Inductive StateBackendError := StateInvalidWindow | Unavailable | StateLockPoisoned.

Definition unless (b : bool) : result unit StateBackendError := if b then Err Unavailable else Ok ().

Definition StateLimitConfig_validate (c : StateLimitConfig) : result StateLimitConfig StateBackendError :=
  if negb (f64_is_finite (slc_window_seconds c)) || f64_le (slc_window_seconds c) f64_zero then Err StateInvalidWindow
  else Ok c.

(** [id.is_empty() || id.len() > 128]. *)
Definition bad_id (id : str) : bool := str_eqb id [] || (128 <? str_len id).

(** ** Scaling *)
Definition scaled_cost (value : f64) : result Z StateBackendError :=
  if negb (f64_is_finite value) || f64_lt value f64_zero then Err Unavailable
  else
    let scaled := f64_round (f64_mul value SHARED_COST_SCALE) in
    if negb (f64_is_finite scaled) || f64_gt scaled (f64_of_Z i64_max) then Err Unavailable
    else Ok (f64_to_i64 scaled).

Definition scaled_signed_cost (value : f64) : result Z StateBackendError :=
  if negb (f64_is_finite value) then Err Unavailable
  else
    let scaled := f64_round (f64_mul value SHARED_COST_SCALE) in
    if negb (f64_is_finite scaled) || f64_lt scaled (f64_of_Z i64_min) || f64_gt scaled (f64_of_Z i64_max)
    then Err Unavailable
    else Ok (f64_to_i64 scaled).

(** [(seconds * 1_000.0).ceil().max(1.0) as u64]. *)
Definition window_millis (seconds : f64) : Z :=
  f64_to_u64 (f64_max (f64_ceil (f64_mul seconds (f64_of_Z 1000))) f64_one).

Definition cache_ttl_millis (ttl_seconds : f64) : result Z StateBackendError :=
  if negb (f64_is_finite ttl_seconds) || f64_lt ttl_seconds f64_zero then Err Unavailable
  else if f64_eq ttl_seconds f64_zero then Ok 0
  else
    let millis := f64_ceil (f64_mul ttl_seconds (f64_of_Z 1000)) in
    if negb (f64_is_finite millis) || f64_gt millis (f64_of_Z u64_max) then Err Unavailable
    else Ok (f64_to_u64 millis).

Definition non_negative_u64 (value : Z) : result Z StateBackendError := if value <? 0 then Err Unavailable else Ok value.

(** ** Periods *)
Definition is_ascii_digit_byte (b : Z) : bool := (48 <=? b) && (b <=? 57).

Fixpoint ledger_date_bytes (index : nat) (bytes : list Z) : bool :=
  match bytes with
  | [] => true
  | b :: bytes => (bool_decide (index ∈ [4; 7]%nat) || is_ascii_digit_byte b) && ledger_date_bytes (S index) bytes
  end.

Definition validate_ledger_date (value : str) : result str StateBackendError :=
  let bytes := as_bytes value in
  if negb (len bytes =? 10) || negb (bool_decide (bytes !! 4%nat = Some 45)) || negb (bool_decide (bytes !! 7%nat = Some 45))
     || negb (ledger_date_bytes 0 bytes)
  then Err Unavailable
  else Ok value.

(** [&date[..7]]: the date is ASCII. *)
Definition budget_period (date window : str) : result str StateBackendError :=
  if str_eqb window (lit "day") then Ok (lit "day:" ++ date)
  else if str_eqb window (lit "month") then Ok (lit "month:" ++ take 7 date)
  else if str_eqb window (lit "all") then Ok (lit "all")
  else Err Unavailable.

(** ** Keys *)
Section Keys.
Context (base64url : list Z -> str).

Definition encode_redis_component (value : str) : str := base64url (as_bytes value).

Definition global_limit_key : str := lit "global".
Definition workspace_limit_key (id : str) : str := lit "workspace:" ++ encode_redis_component id.
Definition virtual_key_limit_key (id : str) : str := lit "virtual-key:" ++ encode_redis_component id.

Record RedisKeyNamespace := { encoded_namespace : str }.

Definition RedisKeyNamespace_new (namespace : str) : RedisKeyNamespace :=
  {| encoded_namespace := encode_redis_component namespace |}.

(** [format!("{REDIS_KEY_ROOT}:{}:...", self.encoded_namespace)]. *)
Definition in_namespace (n : RedisKeyNamespace) (rest : str) : str :=
  REDIS_KEY_ROOT ++ lit ":" ++ encoded_namespace n ++ lit ":" ++ rest.

Definition ns_limit (n : RedisKeyNamespace) (key : str) : str := in_namespace n (lit "limits:" ++ key).
Definition ns_audit (n : RedisKeyNamespace) (key : str) : str := in_namespace n (lit "audit-log:" ++ encode_redis_component key).
Definition scoped (family : string) (period scope : str) : str :=
  lit family ++ encode_redis_component period ++ lit ":" ++ encode_redis_component scope.
Definition ns_ledger (n : RedisKeyNamespace) (period scope : str) : str := in_namespace n (scoped "ledger:" period scope).
Definition ns_ledger_seen (n : RedisKeyNamespace) : str := in_namespace n (lit "ledger-seen").
Definition ns_budget_reservations (n : RedisKeyNamespace) (period scope : str) : str :=
  in_namespace n (scoped "budget-reservations:" period scope).
Definition ns_budget_amounts (n : RedisKeyNamespace) (period scope : str) : str :=
  in_namespace n (scoped "budget-amounts:" period scope).
Definition ns_admission (n : RedisKeyNamespace) : str := in_namespace n (lit "admission").
Definition ns_health (n : RedisKeyNamespace) (target : str) : str :=
  in_namespace n (lit "health:" ++ encode_redis_component target).
Definition cache_entry_prefix (n : RedisKeyNamespace) : str := in_namespace n (lit "cache:entry:").
Definition cache_entry (n : RedisKeyNamespace) (key : str) : str := cache_entry_prefix n ++ key.
Definition cache_meta (n : RedisKeyNamespace) : str := in_namespace n (lit "cache:meta").
Definition cache_sizes (n : RedisKeyNamespace) : str := in_namespace n (lit "cache:sizes").
Definition cache_index (n : RedisKeyNamespace) : str := in_namespace n (lit "cache:index").
Definition ns_canary (n : RedisKeyNamespace) (rollout_id : str) : str :=
  in_namespace n (lit "canary:" ++ encode_redis_component rollout_id).
Definition ns_canary_seen (n : RedisKeyNamespace) (rollout_id : str) : str :=
  in_namespace n (lit "canary-seen:" ++ encode_redis_component rollout_id).

(** The three keys of a scope: its ledger, its reservations by expiry, their
    amounts.  The source pushes them on one flat vector. *)
Definition scope_keys (n : RedisKeyNamespace) (date : str) (s : SharedBudgetScope)
    : result (str * str * str) StateBackendError :=
  let? _ := unless (bad_id (scope s)) in
  let? period := budget_period date (sc_window s) in
  Ok (ns_ledger n period (scope s), ns_budget_reservations n period (scope s), ns_budget_amounts n period (scope s)).

Definition shared_budget_keys (n : RedisKeyNamespace) (date : str) (scopes : list SharedBudgetScope)
    : result (list (str * str * str)) StateBackendError :=
  let? date := validate_ledger_date date in
  traverse (scope_keys n date) scopes.
End Keys.

Definition byte_is_hexdigit (b : Z) : bool :=
  is_ascii_digit_byte b || ((65 <=? b) && (b <=? 70)) || ((97 <=? b) && (b <=? 102)).

Definition validate_shared_cache_inputs (generation key : str) : result unit StateBackendError :=
  let? _ := unless (bad_id generation) in
  unless (negb (str_len key =? 64) || negb (forallb byte_is_hexdigit (as_bytes key))).

(** ** Script replies *)
Definition redis_result (value : Z * Z * Z) : result RateResult StateBackendError :=
  let '(allowed, kind, retry) := value in
  let allowed := allowed =? 1 in
  let? limited_by :=
    if kind =? 0 then Ok None
    else if kind =? 1 then Ok (Some Requests)
    else if kind =? 2 then Ok (Some Tokens)
    else Err Unavailable in
  let? retry_after_seconds := non_negative_u64 retry in
  if negb (Bool.eqb allowed (negb (opt_is_some limited_by))) then Err Unavailable
  else Ok {| limited_by := limited_by; retry_after_seconds := retry_after_seconds |}.

Definition redis_reservation_result (value : Z * Z * Z * Z) (reserved_tokens : Z) (reserved_request : bool)
    : result ReservationResult StateBackendError :=
  let '(verdict, window) := value in
  let? rate := redis_result verdict in
  let? reservation :=
    if allowed rate then
      let? window_id := non_negative_u64 window in
      Ok (Some {| rr_window_id := window_id; reserved_tokens := reserved_tokens; reserved_request := reserved_request |})
    else Ok None in
  Ok {| rate := rate; reservation := reservation |}.

(** ** The operations of a backend

    The fallible operations of the trait.  One that a backend does not override
    answers [Unavailable]. *)
Definition unsupported {B A} (b : B) : B * result A StateBackendError := (b, Err Unavailable).

Class StateBackend (B : Type) := {
  backend_name : B -> str;
  sb_admit : B -> str -> StateLimitConfig -> f64 -> B * result RateResult StateBackendError;
  sb_reserve : B -> str -> StateLimitConfig -> Z -> f64 -> B * result ReservationResult StateBackendError;
  sb_reserve_tokens : B -> str -> StateLimitConfig -> Z -> f64 -> B * result ReservationResult StateBackendError;
  sb_reconcile : B -> str -> StateLimitConfig -> RateReservation -> Z -> f64 -> B * result bool StateBackendError;
  sb_rollback : B -> str -> StateLimitConfig -> RateReservation -> f64 -> B * result bool StateBackendError;
  sb_add_tokens : B -> str -> StateLimitConfig -> Z -> f64 -> B * result unit StateBackendError;
  sb_snapshot : B -> str -> StateLimitConfig -> f64 -> B * result (option RateSnapshot) StateBackendError;
  sb_record_cost : B -> SharedCostObservation -> B * result bool StateBackendError;
  sb_spend : B -> str -> str -> str -> B * result f64 StateBackendError;
  sb_reserve_budget : B -> SharedBudgetReservation -> B * result bool StateBackendError;
  sb_release_budget : B -> SharedBudgetReservation -> B * result unit StateBackendError;
  sb_acquire_admission : B -> Z -> str -> Z -> B * result bool StateBackendError;
  sb_release_admission : B -> str -> B * result unit StateBackendError;
  sb_begin_provider_health : B -> str -> Z -> Z -> str -> B * result bool StateBackendError;
  sb_complete_provider_health : B -> str -> Z -> Z -> str -> bool -> B * result unit StateBackendError;
  sb_release_provider_health : B -> str -> str -> B * result unit StateBackendError;
  sb_shared_cache_get : B -> str -> str -> B * result (option (list Z)) StateBackendError;
  sb_shared_cache_put : B -> SharedCachePut -> B * result bool StateBackendError;
  sb_shared_cache_clear : B -> str -> B * result unit StateBackendError;
  sb_record_canary : B -> SharedCanaryObservation -> f64 -> f64 -> B * result bool StateBackendError;
  sb_canary_snapshot : B -> str -> f64 -> f64 -> B * result SharedCanarySnapshot StateBackendError;
  sb_trip_canary : B -> str -> str -> f64 -> f64 -> B * result unit StateBackendError;
  sb_append_audit : B -> str -> str -> Z -> B * result unit StateBackendError;
  sb_degraded : B -> bool;
}.

(** What a caller relies on of a reservation: a rejection reserves nothing. *)
Class StateBackendLaws (B : Type) `{StateBackend B} := {
  rejection_reserves_nothing b key c n now b' res : sb_reserve_tokens b key c n now = (b', Ok res) ->
    allowed (rate res) = false -> reservation res = None;
}.

(** ** The process-local backend *)
Record MemoryCanaryState := {
  mc_window : Z;
  mc_seen : gset str;
  mc_snapshot : SharedCanarySnapshot;
  mc_tripped_until : f64;
}.

Definition default_snapshot (tripped_reason : option str) : SharedCanarySnapshot :=
  {| sn_requests := 0; sn_errors := 0; sn_latency_sum_ms := 0; sn_latency_samples := 0; sn_realized_cost := f64_zero;
     sn_baseline_cost := f64_zero; sn_cost_samples := 0; sn_quality_loss := f64_zero; sn_quality_samples := 0;
     sn_tripped_reason := tripped_reason |}.

Definition default_canary_state : MemoryCanaryState :=
  {| mc_window := 0; mc_seen := ∅; mc_snapshot := default_snapshot None; mc_tripped_until := f64_zero |}.

Record MemoryStateBackend := {
  mb_limiters : btree State;
  mb_canary : btree MemoryCanaryState;
}.

Definition MemoryStateBackend_default : MemoryStateBackend := {| mb_limiters := []; mb_canary := [] |}.

(** [limiter_for] and [limiter_for_mut]: the configuration counts when the
    limiter is made, and not afterwards. *)
Definition limiter_for (limiters : btree State) (key : str) (config : StateLimitConfig)
    : result (btree State * State) StateBackendError :=
  match bt_get limiters key with
  | Some limiter => Ok (limiters, limiter)
  | None =>
      let? limiter := map_err (fun _ => StateInvalidWindow)
                        (RateLimiter_new (slc_rpm config) (slc_tpm config) (slc_window_seconds config)) in
      Ok (bt_insert limiters key limiter, limiter)
  end.

Definition set_limiters (b : MemoryStateBackend) (limiters : btree State) : MemoryStateBackend :=
  {| mb_limiters := limiters; mb_canary := mb_canary b |}.

(** Validates, takes the limiter of the key and runs an operation on it. *)
Definition on_limiter {A} (b : MemoryStateBackend) (key : str) (config : StateLimitConfig)
    (op : State -> State * result A RateLimitError) : MemoryStateBackend * result A StateBackendError :=
  match StateLimitConfig_validate config with
  | Err e => (b, Err e)
  | Ok config =>
      match limiter_for (mb_limiters b) key config with
      | Err e => (b, Err e)
      | Ok (limiters, limiter) =>
          let '(limiter, r) := op limiter in
          (set_limiters b (bt_insert limiters key limiter), map_err (fun _ => Unavailable) r)
      end
  end.

Definition memory_snapshot (b : MemoryStateBackend) (key : str) (config : StateLimitConfig) (now : f64)
    : MemoryStateBackend * result (option RateSnapshot) StateBackendError :=
  match StateLimitConfig_validate config with
  | Err e => (b, Err e)
  | Ok config => if negb (opt_is_some (slc_rpm config)) then (b, Ok None) else on_limiter b key config (fun s => snapshot_at s now)
  end.

(** ** Canary counters *)
Definition validate_canary_inputs (o : SharedCanaryObservation) (window_seconds : f64) : result unit StateBackendError :=
  unless (bad_id (ob_rollout_id o) || bad_id (ob_request_id o) || negb (f64_is_finite window_seconds)
          || f64_le window_seconds f64_zero || (86400000 <? ob_latency_ms o)).

Definition canary_window (window_seconds now_seconds : f64) : result Z StateBackendError :=
  if negb (f64_is_finite window_seconds) || f64_le window_seconds f64_zero || negb (f64_is_finite now_seconds)
  then Err Unavailable
  else Ok (f64_to_u64 (f64_max (f64_floor (f64_div now_seconds window_seconds)) f64_zero)).

Definition rotate_memory_canary (s : MemoryCanaryState) (window : Z) : MemoryCanaryState :=
  if mc_window s =? window then s
  else {| mc_window := window; mc_seen := ∅; mc_snapshot := default_snapshot (sn_tripped_reason (mc_snapshot s));
          mc_tripped_until := mc_tripped_until s |}.

(** A priced sample counts when both costs are finite and not negative. *)
Definition cost_sample (o : SharedCanaryObservation) : option (f64 * f64) :=
  match ob_realized_cost o, ob_baseline_cost o with
  | Some realized, Some baseline =>
      if f64_is_finite realized && f64_is_finite baseline && f64_ge realized f64_zero && f64_ge baseline f64_zero
      then Some (realized, baseline) else None
  | _, _ => None
  end.

Definition quality_sample (o : SharedCanaryObservation) : option f64 :=
  match ob_quality_loss o with
  | Some loss => if f64_is_finite loss && f64_in_range f64_zero f64_one loss then Some loss else None
  | None => None
  end.

Definition count_observation (sn : SharedCanarySnapshot) (o : SharedCanaryObservation) : SharedCanarySnapshot :=
  let costs := cost_sample o in
  let quality := quality_sample o in
  {| sn_requests := u64_sat_add (sn_requests sn) 1;
     sn_errors := if ob_succeeded o then sn_errors sn else u64_sat_add (sn_errors sn) 1;
     sn_latency_sum_ms := u64_sat_add (sn_latency_sum_ms sn) (ob_latency_ms o);
     sn_latency_samples := u64_sat_add (sn_latency_samples sn) 1;
     sn_realized_cost := match costs with Some (realized, _) => f64_add (sn_realized_cost sn) realized | None => sn_realized_cost sn end;
     sn_baseline_cost := match costs with Some (_, baseline) => f64_add (sn_baseline_cost sn) baseline | None => sn_baseline_cost sn end;
     sn_cost_samples := match costs with Some _ => u64_sat_add (sn_cost_samples sn) 1 | None => sn_cost_samples sn end;
     sn_quality_loss := match quality with Some loss => f64_add (sn_quality_loss sn) loss | None => sn_quality_loss sn end;
     sn_quality_samples := match quality with Some _ => u64_sat_add (sn_quality_samples sn) 1 | None => sn_quality_samples sn end;
     sn_tripped_reason := sn_tripped_reason sn |}.

Definition observe_canary (s : MemoryCanaryState) (o : SharedCanaryObservation) : MemoryCanaryState * bool :=
  if bool_decide (ob_request_id o ∈ mc_seen s) then (s, false)
  else
    ({| mc_window := mc_window s; mc_seen := {[ob_request_id o]} ∪ mc_seen s;
        mc_snapshot := count_observation (mc_snapshot s) o; mc_tripped_until := mc_tripped_until s |}, true).

Definition set_canary (b : MemoryStateBackend) (rollout_id : str) (s : MemoryCanaryState) : MemoryStateBackend :=
  {| mb_limiters := mb_limiters b; mb_canary := bt_insert (mb_canary b) rollout_id s |}.

Definition canary_of (b : MemoryStateBackend) (rollout_id : str) : MemoryCanaryState :=
  default default_canary_state (bt_get (mb_canary b) rollout_id).

Definition memory_record_canary (b : MemoryStateBackend) (o : SharedCanaryObservation) (window_seconds now_seconds : f64)
    : MemoryStateBackend * result bool StateBackendError :=
  match (let? _ := validate_canary_inputs o window_seconds in canary_window window_seconds now_seconds) with
  | Err e => (b, Err e)
  | Ok window =>
      let '(s, recorded) := observe_canary (rotate_memory_canary (canary_of b (ob_rollout_id o)) window) o in
      (set_canary b (ob_rollout_id o) s, Ok recorded)
  end.

Definition expire_trip (s : MemoryCanaryState) (now_seconds : f64) : MemoryCanaryState :=
  if f64_le (mc_tripped_until s) now_seconds then
    let sn := mc_snapshot s in
    {| mc_window := mc_window s; mc_seen := mc_seen s;
       mc_snapshot := {| sn_requests := sn_requests sn; sn_errors := sn_errors sn; sn_latency_sum_ms := sn_latency_sum_ms sn;
         sn_latency_samples := sn_latency_samples sn; sn_realized_cost := sn_realized_cost sn;
         sn_baseline_cost := sn_baseline_cost sn; sn_cost_samples := sn_cost_samples sn;
         sn_quality_loss := sn_quality_loss sn; sn_quality_samples := sn_quality_samples sn; sn_tripped_reason := None |};
       mc_tripped_until := f64_zero |}
  else s.

Definition memory_canary_snapshot (b : MemoryStateBackend) (rollout_id : str) (window_seconds now_seconds : f64)
    : MemoryStateBackend * result SharedCanarySnapshot StateBackendError :=
  match (let? _ := unless (bad_id rollout_id) in canary_window window_seconds now_seconds) with
  | Err e => (b, Err e)
  | Ok window =>
      let s := expire_trip (rotate_memory_canary (canary_of b rollout_id) window) now_seconds in
      (set_canary b rollout_id s, Ok (mc_snapshot s))
  end.

Definition set_reason (sn : SharedCanarySnapshot) (reason : str) : SharedCanarySnapshot :=
  {| sn_requests := sn_requests sn; sn_errors := sn_errors sn; sn_latency_sum_ms := sn_latency_sum_ms sn;
     sn_latency_samples := sn_latency_samples sn; sn_realized_cost := sn_realized_cost sn;
     sn_baseline_cost := sn_baseline_cost sn; sn_cost_samples := sn_cost_samples sn;
     sn_quality_loss := sn_quality_loss sn; sn_quality_samples := sn_quality_samples sn; sn_tripped_reason := Some reason |}.

Definition memory_trip_canary (b : MemoryStateBackend) (rollout_id reason : str) (hold_seconds now_seconds : f64)
    : MemoryStateBackend * result unit StateBackendError :=
  if bad_id rollout_id || bad_id reason || negb (f64_is_finite hold_seconds) || f64_le hold_seconds f64_zero
  then (b, Err Unavailable)
  else
    let s := canary_of b rollout_id in
    (set_canary b rollout_id
       {| mc_window := mc_window s; mc_seen := mc_seen s; mc_snapshot := set_reason (mc_snapshot s) reason;
          mc_tripped_until := f64_max (mc_tripped_until s) (f64_add now_seconds hold_seconds) |}, Ok ()).

#[export] Instance memory_backend : StateBackend MemoryStateBackend := {
  backend_name _ := lit "memory";
  sb_admit b key config now := on_limiter b key config (fun s => admit_at s now);
  sb_reserve b key config tokens now := on_limiter b key config (fun s => reserve_at s tokens now);
  sb_reserve_tokens b key config tokens now := on_limiter b key config (fun s => reserve_tokens_at s tokens now);
  sb_reconcile b key config r actual now := on_limiter b key config (fun s => reconcile_at s r actual now);
  sb_rollback b key config r now := on_limiter b key config (fun s => rollback_at s r now);
  sb_add_tokens b key config tokens now := on_limiter b key config (fun s => add_tokens_at s tokens now);
  sb_snapshot := memory_snapshot;
  sb_record_cost b _ := unsupported b;
  sb_spend b _ _ _ := unsupported b;
  sb_reserve_budget b _ := unsupported b;
  sb_release_budget b _ := unsupported b;
  sb_acquire_admission b _ _ _ := unsupported b;
  sb_release_admission b _ := unsupported b;
  sb_begin_provider_health b _ _ _ _ := unsupported b;
  sb_complete_provider_health b _ _ _ _ _ := unsupported b;
  sb_release_provider_health b _ _ := unsupported b;
  sb_shared_cache_get b _ _ := unsupported b;
  sb_shared_cache_put b _ := unsupported b;
  sb_shared_cache_clear b _ := unsupported b;
  sb_record_canary := memory_record_canary;
  sb_canary_snapshot := memory_canary_snapshot;
  sb_trip_canary := memory_trip_canary;
  sb_append_audit b _ _ _ := unsupported b;
  sb_degraded _ := false;
}.

Lemma rejected_reserves_nothing s n b now s' res : reserve_inner s n b now = (s', Ok res) -> allowed (rate res) = false ->
  reservation res = None.
Proof.
  unfold reserve_inner. destruct (validate_time now); [|done]. destruct (_ && _); [by intros [= <- <-]|].
  destruct (roll s now) as [s1|]; [|done]. destruct (b && over_requests s1); [by intros [= <- <-]|].
  destruct (over_tokens s1 n); [by intros [= <- <-]|]. cbv zeta. destruct (ok_or _ _); cbn [result_bind]; [|done]. by intros [= <- <-].
Qed.

#[export] Instance memory_backend_laws : StateBackendLaws MemoryStateBackend.
Proof.
  constructor. intros b key c n now b' res Hr Ha. cbn [sb_reserve_tokens memory_backend] in Hr. unfold on_limiter in Hr.
  destruct (StateLimitConfig_validate c) as [c'|]; [|done]. destruct (limiter_for _ _ c') as [[ls s]|]; [|done].
  destruct (reserve_tokens_at s n now) as [s' [res'|e]] eqn:E; cbn [map_err] in Hr; [|done]. injection Hr as _ <-.
  by eapply rejected_reserves_nothing.
Qed.

(** ** Keys do not collide

    What a key stands for, whatever the namespace. *)
Inductive limit_key :=
| GlobalLimit
| WorkspaceLimit (id : str)
| VirtualKeyLimit (id : str).

Inductive shared_key :=
| KeyLimit (l : limit_key)
| KeyAudit (key : str)
| KeyLedger (period scope : str)
| KeyLedgerSeen
| KeyBudgetReservations (period scope : str)
| KeyBudgetAmounts (period scope : str)
| KeyAdmission
| KeyHealth (target : str)
| KeyCacheEntry (key : str)
| KeyCacheMeta
| KeyCacheSizes
| KeyCacheIndex
| KeyCanary (rollout_id : str)
| KeyCanarySeen (rollout_id : str).

Definition limit_components (l : limit_key) : list str :=
  match l with GlobalLimit => [] | WorkspaceLimit id | VirtualKeyLimit id => [id] end.

(** The components an operator or a client controls. *)
Definition components (k : shared_key) : list str :=
  match k with
  | KeyLimit l => limit_components l
  | KeyAudit x | KeyHealth x | KeyCanary x | KeyCanarySeen x => [x]
  | KeyLedger p s | KeyBudgetReservations p s | KeyBudgetAmounts p s => [p; s]
  | _ => []
  end.

Section KeySeparation.
Context (base64url : list Z -> str).

Definition limit_text (l : limit_key) : str :=
  match l with
  | GlobalLimit => global_limit_key
  | WorkspaceLimit id => workspace_limit_key base64url id
  | VirtualKeyLimit id => virtual_key_limit_key base64url id
  end.

Definition redis_key (namespace : str) (k : shared_key) : str :=
  let n := RedisKeyNamespace_new base64url namespace in
  match k with
  | KeyLimit l => ns_limit n (limit_text l)
  | KeyAudit key => ns_audit base64url n key
  | KeyLedger period scope => ns_ledger base64url n period scope
  | KeyLedgerSeen => ns_ledger_seen n
  | KeyBudgetReservations period scope => ns_budget_reservations base64url n period scope
  | KeyBudgetAmounts period scope => ns_budget_amounts base64url n period scope
  | KeyAdmission => ns_admission n
  | KeyHealth target => ns_health base64url n target
  | KeyCacheEntry key => cache_entry n key
  | KeyCacheMeta => cache_meta n
  | KeyCacheSizes => cache_sizes n
  | KeyCacheIndex => cache_index n
  | KeyCanary rollout_id => ns_canary base64url n rollout_id
  | KeyCanarySeen rollout_id => ns_canary_seen base64url n rollout_id
  end.

(** The encoding of the [base64] crate: injective, over an alphabet without a
    colon. *)
Context (base64_inj : forall a b, base64url a = base64url b -> a = b).
Context (base64_alphabet : forall a, 58 ∉ base64url a).

Lemma encode_inj a b : Forall is_char a -> Forall is_char b ->
  encode_redis_component base64url a = encode_redis_component base64url b -> a = b.
Proof using base64_inj.
  intros Ha Hb H%base64_inj. apply from_utf8_as_bytes in Ha, Hb. congruence.
Qed.

(** A text up to its first colon, and what follows it. *)
Definition with_tail (head : str) (tail : option str) : str :=
  head ++ match tail with Some tail => 58 :: tail | None => [] end.

Lemma with_tail_inj a b x y : 58 ∉ a -> 58 ∉ b -> with_tail a x = with_tail b y -> a = b /\ x = y.
Proof using.
  intros Ha Hb H. unfold with_tail in H. destruct x as [x|], y as [y|]; rewrite ?app_nil_r in H.
  - pose proof (split_once_Some 58 a x Ha) as E. rewrite H, split_once_Some in E by done. by injection E as -> ->.
  - subst b. exfalso. apply Hb. apply elem_of_app. right. apply list_elem_of_here.
  - subst a. exfalso. apply Ha. apply elem_of_app. right. apply list_elem_of_here.
  - by subst.
Qed.

Definition family (k : shared_key) : str :=
  match k with
  | KeyLimit _ => lit "limits" | KeyAudit _ => lit "audit-log" | KeyLedger _ _ => lit "ledger"
  | KeyLedgerSeen => lit "ledger-seen" | KeyBudgetReservations _ _ => lit "budget-reservations"
  | KeyBudgetAmounts _ _ => lit "budget-amounts" | KeyAdmission => lit "admission" | KeyHealth _ => lit "health"
  | KeyCacheEntry _ | KeyCacheMeta | KeyCacheSizes | KeyCacheIndex => lit "cache"
  | KeyCanary _ => lit "canary" | KeyCanarySeen _ => lit "canary-seen"
  end.

Definition limit_tail (l : limit_key) : str * option str :=
  match l with
  | GlobalLimit => (lit "global", None)
  | WorkspaceLimit id => (lit "workspace", Some (encode_redis_component base64url id))
  | VirtualKeyLimit id => (lit "virtual-key", Some (encode_redis_component base64url id))
  end.

Definition key_tail (k : shared_key) : option str :=
  let encode := encode_redis_component base64url in
  match k with
  | KeyLimit l => Some (with_tail (limit_tail l).1 (limit_tail l).2)
  | KeyAudit x | KeyHealth x | KeyCanary x | KeyCanarySeen x => Some (encode x)
  | KeyLedger p s | KeyBudgetReservations p s | KeyBudgetAmounts p s => Some (with_tail (encode p) (Some (encode s)))
  | KeyCacheEntry key => Some (with_tail (lit "entry") (Some key))
  | KeyCacheMeta => Some (with_tail (lit "meta") None)
  | KeyCacheSizes => Some (with_tail (lit "sizes") None)
  | KeyCacheIndex => Some (with_tail (lit "index") None)
  | KeyLedgerSeen | KeyAdmission => None
  end.

Lemma redis_key_shape namespace k :
  redis_key namespace k =
    lit "wayfinder:v1:" ++
    with_tail (encode_redis_component base64url namespace) (Some (with_tail (family k) (key_tail k))).
Proof using.
  destruct k; try (destruct l); unfold redis_key, ns_limit, ns_audit, ns_ledger, ns_ledger_seen, ns_budget_reservations,
    ns_budget_amounts, ns_admission, ns_health, cache_entry, cache_entry_prefix, cache_meta, cache_sizes, cache_index, ns_canary,
    ns_canary_seen, in_namespace, scoped, with_tail, key_tail, family, limit_tail, limit_text, global_limit_key,
    workspace_limit_key, virtual_key_limit_key, REDIS_KEY_ROOT; cbn [encoded_namespace RedisKeyNamespace_new fst snd];
    rewrite <-?app_assoc, ?app_nil_r; reflexivity.
Qed.

Lemma no_colon_family k : 58 ∉ family k.
Proof using. destruct k; apply (bool_decide_unpack _); vm_compute; exact I. Qed.

Lemma no_colon_limit l : 58 ∉ (limit_tail l).1.
Proof using. destruct l; apply (bool_decide_unpack _); vm_compute; exact I. Qed.

Lemma limit_tail_inj l l' : Forall (Forall is_char) (limit_components l) -> Forall (Forall is_char) (limit_components l') ->
  limit_tail l = limit_tail l' -> l = l'.
Proof using base64_inj.
  intros Hc Hc' H. destruct l, l'; try done; cbn [limit_tail limit_components] in *;
    rewrite ?Forall_singleton in *; try (apply (f_equal fst) in H; by vm_compute in H);
    injection H as H; f_equal; by apply encode_inj.
Qed.

(** C27: No two pieces of shared state have the same Redis key.  When base64url
    is injective and free of colons: keys of different namespaces differ, and
    within a namespace keys that stand for different things (a limit of the
    gateway, a workspace or a virtual key, a ledger, its reservations, a
    circuit, a cache entry, a canary, ..) or for different operator-chosen
    components differ. *)
Theorem redis_keys_separate namespace namespace' k k' :
  Forall is_char namespace -> Forall is_char namespace' ->
  Forall (Forall is_char) (components k) -> Forall (Forall is_char) (components k') ->
  redis_key namespace k = redis_key namespace' k' -> namespace = namespace' /\ k = k'.
Proof using base64_inj base64_alphabet.
  intros Hn Hn' Hk Hk'. rewrite !redis_key_shape. intros H%app_inv_head.
  apply with_tail_inj in H as [Hns H]; [|apply base64_alphabet..]. injection H as H.
  apply with_tail_inj in H as [Hf Ht]; [|apply no_colon_family..].
  split; [by apply encode_inj|].
  assert (Hpair : forall p s p' s', Forall (Forall is_char) [p; s] -> Forall (Forall is_char) [p'; s'] ->
    with_tail (encode_redis_component base64url p) (Some (encode_redis_component base64url s)) =
    with_tail (encode_redis_component base64url p') (Some (encode_redis_component base64url s')) -> p = p' /\ s = s').
  { intros p s p' s' [? [? _]%Forall_cons]%Forall_cons [? [? _]%Forall_cons]%Forall_cons E.
    apply with_tail_inj in E as [? [=]]; [|apply base64_alphabet..]. split; by apply encode_inj. }
  assert (Hone : forall x x', Forall (Forall is_char) [x] -> Forall (Forall is_char) [x'] ->
    encode_redis_component base64url x = encode_redis_component base64url x' -> x = x').
  { intros x x'. rewrite !Forall_singleton. apply encode_inj. }
  destruct k, k'; try (exfalso; clear -Hf; vm_compute in Hf; discriminate Hf); try reflexivity;
    cbn [key_tail components] in Ht, Hk, Hk'; apply (inj Some) in Ht.
  all: lazymatch goal with
       | |- KeyLimit _ = _ => idtac
       | |- context [KeyCacheEntry] => idtac
       | |- KeyCacheMeta = _ => idtac
       | |- KeyCacheSizes = _ => idtac
       | |- KeyCacheIndex = _ => idtac
       | |- _ => first [f_equal; exact (Hone _ _ Hk Hk' Ht) | destruct (Hpair _ _ _ _ Hk Hk' Ht) as [-> ->]; reflexivity]
       end.
  { apply with_tail_inj in Ht as [Hl Ht]; [|apply no_colon_limit..]. f_equal. apply limit_tail_inj; [done..|].
    rewrite (surjective_pairing (limit_tail l)), Hl, Ht. by rewrite <- surjective_pairing. }
  all: apply with_tail_inj in Ht as [Hh Ht]; [|apply (bool_decide_unpack _); vm_compute; exact I..].
  all: first [apply (inj Some) in Ht as ->; reflexivity | exfalso; clear -Hh; vm_compute in Hh; discriminate Hh].
Qed.
End KeySeparation.

(** An injective encoding without colons, for closed examples. *)
Definition skip_colon (bytes : list Z) : str := map (fun b => if b <? 58 then b else b + 1) bytes.

Lemma skip_colon_inj a b : skip_colon a = skip_colon b -> a = b.
Proof.
  revert b. induction a as [|x a IH]; intros [|y b]; try done. intros [= Hx Hab]. f_equal; [|by apply IH].
  destruct (Z.ltb_spec x 58), (Z.ltb_spec y 58); lia.
Qed.

Lemma skip_colon_alphabet a : 58 ∉ skip_colon a.
Proof.
  intros (x & Hx & _)%list_elem_of_fmap. destruct (Z.ltb_spec x 58); lia.
Qed.

Lemma basic_chars s : forallb (fun c => (0 <=? c) && (c <=? 127)) s = true -> Forall is_char s.
Proof.
  intros H%forallb_Forall. eapply Forall_impl; [exact H|]. intros c Hc. cbv beta in Hc. zify_bools. left. lia.
Qed.

Lemma redis_keys_separate_witness :
  redis_key skip_colon (lit "team") (KeyHealth (lit "a:b")) <> redis_key skip_colon (lit "team") (KeyAudit (lit "a:b")).
Proof.
  intros H. assert (forall x, Forall is_char (lit x) -> Forall (Forall is_char) [lit x]) as Hs by (intros; by constructor).
  assert (Forall is_char (lit "a:b") /\ Forall is_char (lit "team")) as [Ha Hb]
    by (split; apply basic_chars; reflexivity).
  apply (redis_keys_separate skip_colon skip_colon_inj skip_colon_alphabet (lit "team") (lit "team")
           (KeyHealth (lit "a:b")) (KeyAudit (lit "a:b"))) in H as [_ H]; [discriminate H|done|done|by apply Hs|by apply Hs].
Defined.

(** ** The process-local limiters are the limiters

    A call names a key; its configuration is the key's. *)
Definition memory_call (b : MemoryStateBackend) (key : str) (config : StateLimitConfig) (op : limiter_op) : MemoryStateBackend :=
  match op with
  | OpReserve t true now => fst (sb_reserve b key config t now)
  | OpReserve t false now => fst (sb_reserve_tokens b key config t now)
  | OpReconcile r actual now => fst (sb_reconcile b key config r actual now)
  | OpRollback r now => fst (sb_rollback b key config r now)
  | OpAddTokens t now => fst (sb_add_tokens b key config t now)
  | OpSnapshot now => fst (sb_snapshot b key config now)
  end.

(** The configuration that the limiter of a key runs under. *)
Definition limiter_configuration (c : StateLimitConfig) : Configuration :=
  {| rpm := slc_rpm c; tpm := slc_tpm c; window_seconds := slc_window_seconds c |}.

Definition limiter_at (b : MemoryStateBackend) (key : str) (config : StateLimitConfig) : State :=
  default (RateLimit.fresh (limiter_configuration config)) (bt_get (mb_limiters b) key).

(** A snapshot without a request limit leaves the limiter alone; it would not
    exist yet, or keep its configuration. *)
Definition keeps_configuration (b : MemoryStateBackend) (key : str) (config : StateLimitConfig) : Prop :=
  forall s, bt_get (mb_limiters b) key = Some s -> configuration s = limiter_configuration config.

Lemma roll_configuration s now s' : roll s now = Ok s' -> configuration s' = configuration s.
Proof. unfold roll. intros H. repeat case_match; simplify_eq; done. Qed.

Lemma run_op_configuration s op : configuration (run_op s op) = configuration s.
Proof.
  destruct op; cbn [run_op]; unfold reserve_inner, reconcile_at, rollback_at, add_tokens_at, snapshot_at;
    repeat case_match; cbn [fst set_counts configuration]; try done; by eapply roll_configuration.
Qed.

Lemma validate_limiter_config c c' : StateLimitConfig_validate c = Ok c' ->
  c' = c /\ RateLimiter_new (slc_rpm c) (slc_tpm c) (slc_window_seconds c) = Ok (RateLimit.fresh (limiter_configuration c)).
Proof.
  unfold StateLimitConfig_validate, RateLimiter_new, validated_configuration.
  destruct (negb _ || _); [done|]. by intros [= <-].
Qed.

Lemma on_limiter_spec {A} b key config (op : State -> State * result A RateLimitError) c :
  StateLimitConfig_validate config = Ok c ->
  bt_get (mb_limiters (fst (on_limiter b key config op))) key = Some (fst (op (limiter_at b key config))) /\
  (forall key', key' <> key -> bt_get (mb_limiters (fst (on_limiter b key config op))) key' = bt_get (mb_limiters b) key') /\
  snd (on_limiter b key config op) = map_err (fun _ => Unavailable) (snd (op (limiter_at b key config))).
Proof.
  intros Hc. unfold on_limiter. rewrite Hc. apply validate_limiter_config in Hc as [-> Hnew].
  unfold limiter_for, limiter_at. destruct (bt_get (mb_limiters b) key) as [s|] eqn:Hs; cbn [default from_option id].
  - destruct (op s) as [s' r]. cbn [fst snd set_limiters mb_limiters]. split_and!; [apply bt_get_insert_eq| |done].
    intros key' Hne. by apply bt_get_insert_ne.
  - rewrite Hnew. cbn [map_err result_bind]. destruct (op _) as [s' r]. cbn [fst snd set_limiters mb_limiters].
    split_and!; [apply bt_get_insert_eq| |done]. intros key' Hne. by rewrite !bt_get_insert_ne.
Qed.

Lemma validate_err {A} b key config (op : State -> State * result A RateLimitError) e :
  StateLimitConfig_validate config = Err e -> on_limiter b key config op = (b, Err e).
Proof. unfold on_limiter. by intros ->. Qed.

(** One call is one operation of the key's limiter, and touches no other. *)
Lemma memory_call_spec b key config op c :
  StateLimitConfig_validate config = Ok c -> keeps_configuration b key config ->
  limiter_at (memory_call b key config op) key config = run_op (limiter_at b key config) op /\
  keeps_configuration (memory_call b key config op) key config /\
  forall key', key' <> key -> bt_get (mb_limiters (memory_call b key config op)) key' = bt_get (mb_limiters b) key'.
Proof.
  intros Hc Hk.
  assert (Hconf : configuration (limiter_at b key config) = limiter_configuration config).
  { unfold limiter_at. destruct (bt_get _ key) as [s|] eqn:Hs; [by apply Hk|done]. }
  assert (Hon : forall A (f : State -> State * result A RateLimitError), fst (f (limiter_at b key config)) = run_op (limiter_at b key config) op ->
    let b' := fst (on_limiter b key config f) in
    limiter_at b' key config = run_op (limiter_at b key config) op /\ keeps_configuration b' key config /\
    forall key', key' <> key -> bt_get (mb_limiters b') key' = bt_get (mb_limiters b) key').
  { intros A f Hf b'. destruct (on_limiter_spec b key config f c Hc) as (Hget & Hother & _). fold b' in Hget, Hother.
    split; [unfold limiter_at at 1; by rewrite Hget|]. split; [|done].
    intros s Hs. rewrite Hget in Hs. injection Hs as <-. rewrite Hf. by rewrite run_op_configuration. }
  destruct op as [t [|] now|r actual now|r now|t now|now]; cbn [memory_call sb_admit sb_reserve sb_reserve_tokens sb_reconcile
    sb_rollback sb_add_tokens sb_snapshot memory_backend]; try (by apply Hon).
  unfold memory_snapshot. rewrite Hc. destruct (validate_limiter_config _ _ Hc) as [-> _].
  destruct (opt_is_some (slc_rpm config)) eqn:Hr; cbn [negb]; [by apply Hon|]. cbn [fst]. split; [|done].
  cbn [run_op]. unfold snapshot_at. destruct (validate_time now); [|done]. rewrite Hconf. cbn [rpm limiter_configuration].
  by destruct (slc_rpm config).
Qed.

(** A history of calls; each key has its configuration. *)
Definition memory_calls (configs : str -> StateLimitConfig) (b : MemoryStateBackend) (calls : list (str * limiter_op))
    : MemoryStateBackend :=
  foldl (fun b '(key, op) => memory_call b key (configs key) op) b calls.

Definition calls_of (key : str) (calls : list (str * limiter_op)) : list limiter_op :=
  omap (fun '(key', op) => if str_eqb key' key then Some op else None) calls.

Lemma memory_calls_spec configs calls key : (forall k, exists c, StateLimitConfig_validate (configs k) = Ok c) -> forall b,
  (forall k, keeps_configuration b k (configs k)) ->
  limiter_at (memory_calls configs b calls) key (configs key) =
    foldl run_op (limiter_at b key (configs key)) (calls_of key calls).
Proof.
  intros Hv. induction calls as [|[key' op] calls IH]; intros b Hk; [done|]. cbn [memory_calls foldl calls_of omap list_omap].
  destruct (Hv key') as [c Hc]. destruct (memory_call_spec b key' (configs key') op c Hc (Hk key')) as (Hat & Hkeep & Hother).
  fold (memory_calls configs (memory_call b key' (configs key') op) calls). rewrite IH.
  - destruct (str_eqb key' key) eqn:E.
    + apply str_eqb_eq in E as ->. by rewrite Hat.
    + apply str_eqb_neq in E. unfold limiter_at. by rewrite Hother.
  - intros k. destruct (decide (k = key')) as [->|Hne]; [done|]. intros s Hs. rewrite Hother in Hs by done. by apply Hk.
Qed.

(** The process-local backend is one limiter per key.  From an empty
    backend, whatever calls arrive under whatever keys, the limiter of a key
    is where its own calls alone bring a fresh limiter of the key's
    configuration: keys never share a window, and no call is lost. *)
Theorem memory_backend_refines configs calls key :
  (forall k, exists c, StateLimitConfig_validate (configs k) = Ok c) ->
  limiter_at (memory_calls configs MemoryStateBackend_default calls) key (configs key) =
    foldl run_op (RateLimit.fresh (limiter_configuration (configs key))) (calls_of key calls).
Proof. intros Hv. by rewrite memory_calls_spec. Qed.

(** ** Canary counters *)
Inductive canary_op :=
| CanaryRecord (o : SharedCanaryObservation) (window_seconds now_seconds : f64)
| CanarySnapshot (rollout_id : str) (window_seconds now_seconds : f64)
| CanaryTrip (rollout_id reason : str) (hold_seconds now_seconds : f64).

Definition run_canary (b : MemoryStateBackend) (op : canary_op) : MemoryStateBackend :=
  match op with
  | CanaryRecord o w now => fst (sb_record_canary b o w now)
  | CanarySnapshot r w now => fst (sb_canary_snapshot b r w now)
  | CanaryTrip r reason hold now => fst (sb_trip_canary b r reason hold now)
  end.

(** The counters of a window count its distinct requests. *)
Record counted (s : MemoryCanaryState) : Prop := {
  ct_requests : sn_requests (mc_snapshot s) = Z.min (Z.of_nat (size (mc_seen s))) u64_max;
  ct_latency : sn_latency_samples (mc_snapshot s) = sn_requests (mc_snapshot s);
  ct_errors : 0 <= sn_errors (mc_snapshot s) <= sn_requests (mc_snapshot s);
  ct_costs : 0 <= sn_cost_samples (mc_snapshot s) <= sn_requests (mc_snapshot s);
  ct_quality : 0 <= sn_quality_samples (mc_snapshot s) <= sn_requests (mc_snapshot s);
}.

Lemma u64_max_pos : 0 < u64_max.
Proof. reflexivity. Qed.

Lemma counted_fresh w reason until :
  counted {| mc_window := w; mc_seen := ∅; mc_snapshot := default_snapshot reason; mc_tripped_until := until |}.
Proof. pose proof u64_max_pos. constructor; cbn [mc_snapshot mc_seen default_snapshot sn_requests sn_latency_samples sn_errors
  sn_cost_samples sn_quality_samples]; rewrite ?size_empty; lia. Qed.

Lemma counted_rotate s w : counted s -> counted (rotate_memory_canary s w).
Proof. unfold rotate_memory_canary. destruct (_ =? _); [done|]. intros _. apply counted_fresh. Qed.

Lemma u64_count_le a n (b : bool) : 0 <= a <= n -> n <= u64_max -> 0 <= (if b then u64_sat_add a 1 else a) <= u64_sat_add n 1.
Proof. intros. unfold u64_sat_add. destruct b; lia. Qed.

Lemma counted_observe s o : counted s -> counted (fst (observe_canary s o)).
Proof.
  intros [Hr Hl He Hc Hq]. unfold observe_canary. destruct (bool_decide _) eqn:Hin; [done|]. apply bool_decide_eq_false in Hin.
  assert (Hle : sn_requests (mc_snapshot s) <= u64_max) by lia.
  assert (Hone : forall a b c, (if b : bool then a else c) = (if negb b then c else a : Z)) by (by intros a [|] c).
  constructor; cbn [fst mc_snapshot mc_seen count_observation sn_requests sn_latency_samples sn_errors sn_cost_samples sn_quality_samples].
  - rewrite size_union by set_solver. rewrite size_singleton, Hr. unfold u64_sat_add. lia.
  - by rewrite Hl.
  - rewrite Hone. by apply u64_count_le.
  - pose proof (u64_count_le _ _ true Hc Hle). pose proof (u64_count_le _ _ false Hc Hle). by destruct (cost_sample o).
  - pose proof (u64_count_le _ _ true Hq Hle). pose proof (u64_count_le _ _ false Hq Hle). by destruct (quality_sample o).
Qed.

Lemma canary_of_set b r s r' : canary_of (set_canary b r s) r' = if str_eqb r r' then s else canary_of b r'.
Proof.
  unfold canary_of, set_canary. cbn [mb_canary]. destruct (str_eqb r r') eqn:E.
  - apply str_eqb_eq in E as ->. by rewrite bt_get_insert_eq.
  - apply str_eqb_neq in E. by rewrite bt_get_insert_ne.
Qed.

(** What an operation does to the state of a rollout: nothing, a record, a
    snapshot, or a trip. *)
Definition canary_effect (op : canary_op) (s : MemoryCanaryState) : MemoryCanaryState :=
  match op with
  | CanaryRecord o w now =>
      match canary_window w now with
      | Ok window => fst (observe_canary (rotate_memory_canary s window) o)
      | Err _ => s
      end
  | CanarySnapshot r w now =>
      match canary_window w now with Ok window => expire_trip (rotate_memory_canary s window) now | Err _ => s end
  | CanaryTrip r reason hold now =>
      {| mc_window := mc_window s; mc_seen := mc_seen s; mc_snapshot := set_reason (mc_snapshot s) reason;
         mc_tripped_until := f64_max (mc_tripped_until s) (f64_add now hold) |}
  end.

Lemma run_canary_effect b op r :
  canary_of (run_canary b op) r = canary_of b r \/ canary_of (run_canary b op) r = canary_effect op (canary_of b r).
Proof.
  destruct op as [o w now|r' w now|r' reason hold now]; cbn [run_canary sb_record_canary sb_canary_snapshot sb_trip_canary memory_backend
    canary_effect].
  - unfold memory_record_canary. destruct (validate_canary_inputs o w); cbn [result_bind]; [|by left].
    destruct (canary_window w now) as [window|]; [|by left].
    destruct (observe_canary _ o) as [s ok] eqn:Ho. cbn [fst]. rewrite canary_of_set.
    destruct (str_eqb _ r) eqn:E; [|by left]. right. apply str_eqb_eq in E as <-. by rewrite Ho.
  - unfold memory_canary_snapshot. destruct (unless (bad_id r')); cbn [result_bind]; [|by left].
    destruct (canary_window w now) as [window|]; [|by left]. cbn [fst]. rewrite canary_of_set.
    destruct (str_eqb _ r) eqn:E; [|by left]. right. by apply str_eqb_eq in E as <-.
  - unfold memory_trip_canary. destruct (_ || _); [by left|]. cbn [fst]. rewrite canary_of_set.
    destruct (str_eqb _ r) eqn:E; [|by left]. right. by apply str_eqb_eq in E as <-.
Qed.

Lemma counted_effect op s : counted s -> counted (canary_effect op s).
Proof.
  intros Hs. destruct op as [o w now|r' w now|r' reason hold now]; cbn [canary_effect].
  - destruct (canary_window w now); [|done]. by apply counted_observe, counted_rotate.
  - destruct (canary_window w now) as [window|]; [|done]. destruct (counted_rotate s window Hs). unfold expire_trip.
    by destruct (f64_le _ _).
  - by destruct Hs.
Qed.

(** A rollout's tripwires read sound counters.  Whatever outcomes are
    recorded, snapshots taken and trips set, in any order and over any windows,
    the counters of each rollout count every request of its current window
    once, however often it is recorded; no more errors, cost samples or quality
    samples are counted than requests. *)
Theorem canary_counters_sound ops r : counted (canary_of (foldl run_canary MemoryStateBackend_default ops) r).
Proof.
  assert (H : forall b, counted (canary_of b r) -> counted (canary_of (foldl run_canary b ops) r)).
  { induction ops as [|op ops IH]; intros b Hb; [done|]. cbn [foldl]. apply IH.
    destruct (run_canary_effect b op r) as [-> | ->]; [done|by apply counted_effect]. }
  apply H. apply counted_fresh.
Qed.

(** ** Trips *)
Definition held (until : f64) (s : MemoryCanaryState) : Prop :=
  sn_tripped_reason (mc_snapshot s) <> None /\ f64_le until (mc_tripped_until s) = true.

(** Snapshots are the only operations that lift a trip. *)
Definition read_before (until : f64) (op : canary_op) : Prop :=
  match op with CanarySnapshot _ _ now => f64_lt now until = true | _ => True end.

Lemma held_effect until op s : read_before until op -> held until s -> held until (canary_effect op s).
Proof.
  intros Hop [Hr Hu]. unfold held. destruct op as [o w now|r' w now|r' reason hold now]; cbn [canary_effect].
  - destruct (canary_window w now) as [window|]; [|done]. unfold observe_canary, rotate_memory_canary.
    destruct (mc_window s =? window), (bool_decide _); by cbn.
  - destruct (canary_window w now) as [window|]; [|done]. unfold expire_trip. cbn [read_before] in Hop.
    assert (mc_tripped_until (rotate_memory_canary s window) = mc_tripped_until s) as ->
      by (unfold rotate_memory_canary; by destruct (_ =? _)).
    assert (f64_le (mc_tripped_until s) now = false) as ->.
    { destruct (f64_le (mc_tripped_until s) now) eqn:E; [|done]. exfalso.
      pose proof (f64_le_trans _ _ _ Hu E) as Hle. by apply f64_lt_not_ge in Hop; rewrite Hle in Hop. }
    unfold rotate_memory_canary. by destruct (_ =? _).
  - cbn [mc_snapshot mc_tripped_until set_reason sn_tripped_reason]. split; [done|]. unfold f64_max.
    destruct (f64_le_not_nan _ _ Hu) as [_ Hn]. rewrite Hn. destruct (f64_is_nan (f64_add now hold)) eqn:Hn'; [done|].
    destruct (f64_le (f64_add now hold) (mc_tripped_until s)) eqn:Hle; [done|].
    eapply f64_le_trans; [exact Hu|]. apply f64_lt_le. by apply f64_not_le_gt.
Qed.

Lemma held_run until ops r : forall b, Forall (read_before until) ops -> held until (canary_of b r) ->
  held until (canary_of (foldl run_canary b ops) r).
Proof.
  induction ops as [|op ops IH]; intros b Hf Hb; [done|]. apply Forall_cons in Hf as [Hop Hops]. cbn [foldl]. apply IH; [done|].
  destruct (run_canary_effect b op r) as [-> | ->]; [done|by apply held_effect].
Qed.

(** A tripped rollout stays stopped for its hold.  After a trip that the
    backend accepted, until the hold has passed every snapshot reports a
    tripped rollout, whatever is recorded, tripped or read in between and
    however the windows rotate. *)
Theorem trip_holds b rollout_id reason hold now ops window_seconds now' :
  snd (sb_trip_canary b rollout_id reason hold now) = Ok () ->
  f64_is_finite (f64_add now hold) = true ->
  let until := f64_add now hold in
  Forall (read_before until) ops -> f64_lt now' until = true ->
  let b' := foldl run_canary (run_canary b (CanaryTrip rollout_id reason hold now)) ops in
  forall sn, snd (sb_canary_snapshot b' rollout_id window_seconds now') = Ok sn -> sn_tripped_reason sn <> None.
Proof.
  intros Hok Hfin until Hops Hlt b' sn Hsn.
  assert (Hheld : held until (canary_of b' rollout_id)).
  { apply held_run; [done|]. cbn [run_canary sb_trip_canary memory_backend] in *. unfold memory_trip_canary in *.
    destruct (_ || _); [done|]. cbn [fst]. rewrite canary_of_set, str_eqb_refl. split; [done|]. cbn [mc_tripped_until].
    apply f64_finite_not_nan in Hfin. unfold f64_max. rewrite Hfin.
    destruct (f64_is_nan (mc_tripped_until (canary_of b rollout_id))) eqn:Hn; [by apply f64_not_nan_le_refl|].
    by destruct (f64_le (f64_add now hold) _) eqn:E; [|apply f64_not_nan_le_refl]. }
  revert Hsn. cbn [sb_canary_snapshot memory_backend]. unfold memory_canary_snapshot.
  destruct (unless (bad_id rollout_id)); cbn [result_bind]; [|done].
  destruct (canary_window window_seconds now') as [window|] eqn:Hw; [|done]. cbn [snd]. intros [= <-].
  pose proof (held_effect until (CanarySnapshot rollout_id window_seconds now') _ Hlt Hheld) as [H _].
  cbn [canary_effect] in H. by rewrite Hw in H.
Qed.

(** ** Closed examples *)
Definition minute_limit : StateLimitConfig :=
  {| slc_rpm := Some 2; slc_tpm := Some 100; slc_window_seconds := f64_of_Z 60 |}.

Definition sample_calls : list (str * limiter_op) :=
  [(lit "global", OpReserve 10 true f64_one); (lit "virtual-key:a", OpReserve 50 false f64_one);
   (lit "global", OpReserve 95 true f64_one); (lit "global", OpAddTokens 5 (f64_of_Z 2))].

Lemma memory_backend_refines_witness :
  let b := memory_calls (fun _ => minute_limit) MemoryStateBackend_default sample_calls in
  requests (limiter_at b (lit "global") minute_limit) = 1 /\ tokens (limiter_at b (lit "global") minute_limit) = 15.
Proof.
  cbv zeta. pose proof (memory_backend_refines (fun _ => minute_limit) sample_calls (lit "global")
    (fun _ => ex_intro _ minute_limit (eq_refl (Ok minute_limit)))) as H. cbv beta in H. rewrite H.
  split; vm_compute; reflexivity.
Defined.

Definition sample_observation (id : string) : SharedCanaryObservation :=
  {| ob_rollout_id := lit "r1"; ob_request_id := lit id; ob_succeeded := false; ob_latency_ms := 40; ob_realized_cost := Some f64_one;
     ob_baseline_cost := Some f64_one; ob_quality_loss := None |}.

Definition sample_canary_ops : list canary_op :=
  [CanaryRecord (sample_observation "a") (f64_of_Z 60) (f64_of_Z 10); CanaryRecord (sample_observation "a") (f64_of_Z 60) (f64_of_Z 11);
   CanaryRecord (sample_observation "b") (f64_of_Z 60) (f64_of_Z 12)].

(** A request recorded twice counts once. *)
Example sample_canary_counts :
  let s := mc_snapshot (canary_of (foldl run_canary MemoryStateBackend_default sample_canary_ops) (lit "r1")) in
  (sn_requests s, sn_errors s, sn_latency_sum_ms s, sn_cost_samples s) = (2, 2, 80, 2).
Proof. vm_compute. reflexivity. Qed.

Lemma trip_holds_witness :
  exists sn,
    snd (sb_canary_snapshot (run_canary MemoryStateBackend_default (CanaryTrip (lit "r1") (lit "latency") (f64_of_Z 30) (f64_of_Z 10)))
           (lit "r1") (f64_of_Z 5) (f64_of_Z 39)) = Ok sn /\ sn_tripped_reason sn <> None.
Proof.
  eexists. split; [vm_compute; reflexivity|].
  apply (trip_holds MemoryStateBackend_default (lit "r1") (lit "latency") (f64_of_Z 30) (f64_of_Z 10) [] (f64_of_Z 5) (f64_of_Z 39));
    [reflexivity|reflexivity|constructor|reflexivity|vm_compute; reflexivity].
Defined.

(** Costs in millionths, and the limits of their range. *)
Example sample_scaled :
  scaled_cost (f64_dec 25 1) = Ok 2500000 /\ scaled_cost (f64_dec 15 7) = Ok 2 /\ scaled_cost (f64_neg f64_one) = Err Unavailable /\
  scaled_signed_cost (f64_neg (f64_dec 15 7)) = Ok (-2) /\ scaled_cost (f64_of_Z (10 ^ 14)) = Err Unavailable /\
  validate_ledger_date (lit "2026-02-03") = Ok (lit "2026-02-03") /\ validate_ledger_date (lit "2026-2-03x") = Err Unavailable.
Proof. vm_compute. repeat split. Qed.
