(* ===== verification/Access.v ===== *)
(** * Access policy (crate [wayfinder-gateway], [src/access.rs])

    Virtual-key authentication and the rate limiters a request passes, on the
    process-local path.  Limiters are shared objects ([Arc<RateLimiter>]): the
    keys of a workspace hold the same one.  So the limiters live in a store,
    an [Arc] is the index [Arc::new] allocated, and every operation takes the
    store and returns it.  The clock is called once per operation; its value is
    the operation's [now].  [FleetAccess] has the shared-backend path. *)
From S2P Require Export BTree IndexMap Auth GatewayConfig RateLimit State.

(** ** The store of limiters *)
Notation arc := nat.
Notation store := (list State).

Definition arc_new (s : State) (st : store) : arc * store := (length st, st ++ [s]).

(** [limiter.operation(...)] through an [Arc]. *)
Definition on_arc {A} (a : arc) (op : State -> State * A) (st : store) : store * A :=
  let '(s, r) := op (default default_limiter (st !! a)) in (<[a := s]> st, r).

(** ** Data *)
Definition MAX_VIRTUAL_KEYS : Z := 256.
Definition MAX_WORKSPACES : Z := 256.
Definition MAX_KEY_ID_BYTES : Z := 128.

Record VirtualKeyPolicy := {
  id : str;
  digest : str;
  workspace : option str;
  allowed_models_of : list str;
  workspace_limiter : option arc;
  limiter : option arc;
}.

Inductive AccessPolicyError :=
| TooManyKeys
| TooManyWorkspaces
| InvalidKeyId
| RateLimitFailed (e : RateLimitError)
| StateBackendFailed (e : StateBackendError).

Record AccessPolicy := {
  global_limiter : option arc;
  policy_keys : list VirtualKeyPolicy;
  ap_allow_unauthenticated_default : bool;
}.

Record AccessGrant := { key_index : option nat }.

Record LocalTokenReservation := {
  lt_limiter : arc;
  lt_reservation : RateReservation;
}.

Inductive TokenReservationDecision :=
| Reserved (entries : list LocalTokenReservation)
| Rejected (rate : RateResult).

(** ** Construction *)
Definition new_limiter (config : GatewayConfig.RateLimit) : result State RateLimitError :=
  RateLimiter_new (rl_rpm config) (rl_tpm config) (rl_window config).

(** [rate_limit.as_ref().map(new_limiter).transpose()?.map(Arc::new)]. *)
Definition opt_limiter (config : option GatewayConfig.RateLimit) (st : store)
    : result (option arc * store) RateLimitError :=
  match config with
  | None => Ok (None, st)
  | Some config => let? s := new_limiter config in let '(a, st) := arc_new s st in Ok (Some a, st)
  end.

Definition valid_key_id (value : str) : bool :=
  negb (match value with [] => true | _ => false end)
  && (str_len value <=? MAX_KEY_ID_BYTES)
  && forallb (fun character => negb (char_is_control character)) value.

Definition workspace_entry := (list str * option arc)%type.

(** The workspaces, collected into a map; the first limiter error ends it. *)
Fixpoint build_workspaces (entries : list (str * Workspace)) (acc : btree workspace_entry) (st : store)
    : result (btree workspace_entry * store) RateLimitError :=
  match entries with
  | [] => Ok (acc, st)
  | (id, workspace) :: entries =>
      let? built := opt_limiter (ws_rate_limit workspace) st in
      let '(limiter, st) := built in
      build_workspaces entries (bt_insert acc id (ws_models workspace, limiter)) st
  end.

(** One key of the loop over [config.keys]. *)
Definition build_key (workspaces : btree workspace_entry) (id : str) (key : VirtualKey) (limiter : option arc)
    : VirtualKeyPolicy :=
  let workspace := vk_workspace key ≫= bt_get workspaces in
  {| id := id;
     digest := vk_hash key;
     workspace := vk_workspace key;
     allowed_models_of :=
       match vk_models key with
       | [] => match workspace with Some (models, _) => models | None => [] end
       | models => models
       end;
     workspace_limiter := workspace ≫= snd;
     limiter := limiter |}.

Fixpoint build_keys (workspaces : btree workspace_entry) (entries : list (str * VirtualKey)) (st : store)
    : result (list VirtualKeyPolicy * store) AccessPolicyError :=
  match entries with
  | [] => Ok ([], st)
  | (id, key) :: entries =>
      if negb (valid_key_id id) then Err InvalidKeyId
      else
        let? built := map_err RateLimitFailed (opt_limiter (vk_rate_limit key) st) in
        let '(limiter, st) := built in
        let? rest := build_keys workspaces entries st in
        let '(keys, st) := rest in
        Ok (build_key workspaces id key limiter :: keys, st)
  end.

Definition from_gateway_config_with_clock (config : GatewayConfig)
    : result (AccessPolicy * store) AccessPolicyError :=
  if MAX_VIRTUAL_KEYS <? len (keys config) then Err TooManyKeys
  else if MAX_WORKSPACES <? len (workspaces config) then Err TooManyWorkspaces
  else
    let? built := map_err RateLimitFailed (opt_limiter (gc_rate_limit config) []) in
    let '(global_limiter, st) := built in
    let? built := map_err RateLimitFailed (build_workspaces (workspaces config) [] st) in
    let '(workspaces, st) := built in
    let? built := build_keys workspaces (keys config) st in
    let '(policy_keys, st) := built in
    Ok ({| global_limiter := global_limiter; policy_keys := policy_keys;
           ap_allow_unauthenticated_default := allow_unauthenticated_default config |}, st).

(** ** Authentication *)
Definition access_active (p : AccessPolicy) : bool :=
  match global_limiter p with Some _ => true | None => false end
  || match policy_keys p with [] => false | _ => true end.

Definition requires_authentication (p : AccessPolicy) : bool :=
  match policy_keys p with [] => false | _ => true end && negb (ap_allow_unauthenticated_default p).

(** [iter.position(f)]. *)
Fixpoint position {A} (f : A -> bool) (l : list A) : option nat :=
  match l with
  | [] => None
  | x :: l => if f x then Some 0%nat else S <$> position f l
  end.

Definition authenticate (sha256 : list Z -> list Z) (p : AccessPolicy) (authorization : option str)
    : option AccessGrant :=
  if match policy_keys p with [] => true | _ => false end then Some {| key_index := None |}
  else if match authorization with None => true | Some _ => false end && ap_allow_unauthenticated_default p
  then Some {| key_index := None |}
  else
    let presented := extract_bearer authorization in
    key_id ← match_key sha256 presented (map (fun key => (id key, digest key)) (policy_keys p));
    (fun index => {| key_index := Some index |}) <$> position (fun key => str_eqb (id key) key_id) (policy_keys p).

Definition key_of (p : AccessPolicy) (grant : AccessGrant) : option VirtualKeyPolicy :=
  index ← key_index grant; policy_keys p !! index.

Definition key_id (p : AccessPolicy) (grant : AccessGrant) : option str := id <$> key_of p grant.
Definition workspace_id (p : AccessPolicy) (grant : AccessGrant) : option str := key_of p grant ≫= workspace.
Definition allowed_models (p : AccessPolicy) (grant : AccessGrant) : list str :=
  match key_of p grant with Some key => allowed_models_of key | None => [] end.

(** ** Admission *)
Definition admit_global (p : AccessPolicy) (now : f64) (st : store)
    : store * result (option RateResult) RateLimitError :=
  match global_limiter p with
  | None => (st, Ok None)
  | Some a => let '(st, r) := on_arc a (fun s => admit_at s now) st in (st, result_map Some r)
  end.

Definition workspace_arc (p : AccessPolicy) (grant : AccessGrant) : option arc := key_of p grant ≫= workspace_limiter.
Definition key_arc (p : AccessPolicy) (grant : AccessGrant) : option arc := key_of p grant ≫= limiter.

Definition admit_key (p : AccessPolicy) (grant : AccessGrant) (now : f64) (st : store)
    : store * result (option RateResult) RateLimitError :=
  let admit_own (workspace_result : option RateResult) (st : store) :=
    match key_arc p grant with
    | None => (st, Ok workspace_result)
    | Some a => let '(st, r) := on_arc a (fun s => admit_at s now) st in (st, result_map Some r)
    end in
  match workspace_arc p grant with
  | None => admit_own None st
  | Some a =>
      let '(st, r) := on_arc a (fun s => admit_at s now) st in
      match r with
      | Err e => (st, Err e)
      | Ok result => if allowed result then admit_own (Some result) st else (st, Ok (Some result))
      end
  end.

(** [match limiter { Some(limiter) => limiter.snapshot_at(now)?, None => None }]. *)
Definition opt_snapshot (a : option arc) (now : f64) (st : store)
    : store * result (option RateSnapshot) RateLimitError :=
  match a with None => (st, Ok None) | Some a => on_arc a (fun s => snapshot_at s now) st end.

(** [iter.min_by_key(|snapshot| snapshot.remaining)]: the first minimum. *)
Definition min_by_remaining (l : list RateSnapshot) : option RateSnapshot :=
  foldl (fun best s =>
    match best with
    | None => Some s
    | Some b => if snap_remaining s <? snap_remaining b then Some s else Some b
    end) None l.

Definition tightest_snapshot (p : AccessPolicy) (grant : AccessGrant) (now : f64) (st : store)
    : store * result (option RateSnapshot) RateLimitError :=
  let '(st, global) := opt_snapshot (global_limiter p) now st in
  match global with
  | Err e => (st, Err e)
  | Ok global =>
      let '(st, key) := opt_snapshot (key_arc p grant) now st in
      match key with
      | Err e => (st, Err e)
      | Ok key =>
          let '(st, workspace) := opt_snapshot (workspace_arc p grant) now st in
          (st, let? workspace := workspace in
               Ok (min_by_remaining (option_list global ++ option_list workspace ++ option_list key)))
      end
  end.

(** The limiters of a request, in the order they are charged. *)
Definition request_limiters (p : AccessPolicy) (grant : AccessGrant) : list arc :=
  option_list (global_limiter p) ++ option_list (workspace_arc p grant) ++ option_list (key_arc p grant).

(** The three [if let Some(limiter) = ... { limiter.add_tokens_at(tokens, now)?; }]. *)
Fixpoint add_tokens_to (limiters : list arc) (tokens : Z) (now : f64) (st : store)
    : store * result unit RateLimitError :=
  match limiters with
  | [] => (st, Ok ())
  | a :: limiters =>
      let '(st, r) := on_arc a (fun s => add_tokens_at s tokens now) st in
      match r with Err e => (st, Err e) | Ok _ => add_tokens_to limiters tokens now st end
  end.

Definition add_tokens (p : AccessPolicy) (grant : AccessGrant) (tokens : Z) (now : f64) (st : store)
    : store * result unit RateLimitError :=
  add_tokens_to (request_limiters p grant) tokens now st.

Definition arc_tokens_active (st : store) (a : arc) : bool := tokens_active (default default_limiter (st !! a)).

Definition token_limits_active (p : AccessPolicy) (grant : AccessGrant) (st : store) : bool :=
  match global_limiter p with Some a => arc_tokens_active st a | None => false end
  || match key_of p grant with
     | None => false
     | Some key =>
         match workspace_limiter key with Some a => arc_tokens_active st a | None => false end
         || match limiter key with Some a => arc_tokens_active st a | None => false end
     end.

(** ** Token reservations *)
Definition rollback_entries (entries : list LocalTokenReservation) (now : f64) (st : store) : store :=
  foldl (fun st entry => fst (on_arc (lt_limiter entry) (fun s => rollback_at s (lt_reservation entry) now) st))
    st entries.

Fixpoint reserve_loop (limiters : list arc) (entries : list LocalTokenReservation) (tokens : Z) (now : f64)
    (st : store) : store * result TokenReservationDecision RateLimitError :=
  match limiters with
  | [] => (st, Ok (Reserved entries))
  | a :: limiters =>
      let '(st, r) := on_arc a (fun s => reserve_tokens_at s tokens now) st in
      match r with
      | Err e => (st, Err e)
      | Ok result =>
          if negb (allowed (rate result))
          then (rollback_entries (rev entries) now st, Ok (Rejected (rate result)))
          else
            let entries :=
              match reservation result with
              | Some r => entries ++ [{| lt_limiter := a; lt_reservation := r |}]
              | None => entries
              end in
            reserve_loop limiters entries tokens now st
      end
  end.

Definition reserve_local_tokens (p : AccessPolicy) (grant : AccessGrant) (tokens : Z) (now : f64) (st : store)
    : store * result TokenReservationDecision RateLimitError :=
  reserve_loop (request_limiters p grant) [] tokens now st.

(** [TokenReservation::reconcile], for local entries. *)
Fixpoint reconcile_tokens (entries : list LocalTokenReservation) (actual_tokens : Z) (now : f64) (st : store)
    : store * result unit RateLimitError :=
  match entries with
  | [] => (st, Ok ())
  | entry :: entries =>
      let '(st, r) := on_arc (lt_limiter entry)
                        (fun s => reconcile_at s (lt_reservation entry) actual_tokens now) st in
      match r with Err e => (st, Err e) | Ok _ => reconcile_tokens entries actual_tokens now st end
  end.

(** ** Reference: what a reservation does to a store *)

(** One limiter charged [t] tokens at [now]: rolled to the current window,
    within its limit.  A limiter without a token limit is left alone. *)
Definition charged (t : Z) (now : f64) (s s' : State) : Prop :=
  match tpm (configuration s) with
  | None => s' = s
  | Some limit =>
      exists s1, roll s now = Ok s1 /\ tokens s1 + t <= limit /\
        s' = set_counts s1 (requests s1) (tokens s1 + t)
  end.

(** A limiter left as it was, or only rolled to the current window. *)
Definition settled (now : f64) (s s' : State) : Prop := s' = s \/ roll s now = Ok s'.

(** [R] between the states of the limiters [arcs]; no other limiter changes. *)
Definition on_arcs (R : State -> State -> Prop) (arcs : list arc) (st st' : store) : Prop :=
  length st' = length st /\
  forall a, (a ∉ arcs -> st' !! a = st !! a) /\
    (a ∈ arcs -> forall s, st !! a = Some s -> exists s', st' !! a = Some s' /\ R s s').

Record limiter_ok (s : State) : Prop := {
  lo_wf : wf_state s;
  lo_limit : forall limit, tpm (configuration s) = Some limit -> limit < u64_max;
}.

(** Every limiter of the list exists, is well formed, and is listed once. *)
Record limiters_ok (arcs : list arc) (st : store) : Prop := {
  ls_distinct : NoDup arcs;
  ls_states : forall a, a ∈ arcs -> exists s, st !! a = Some s /\ limiter_ok s;
}.

(** ** Lemmas *)
Lemma validate_time_reserve s t b now s' r : reserve_inner s t b now = (s', Ok r) -> validate_time now = Ok ().
Proof. unfold reserve_inner. by destruct (validate_time now) as [[]|]. Qed.

Lemma over_tokens_false limit tok t :
  is_u64 tok -> is_u64 t -> limit < u64_max ->
  (if t =? 0 then limit <=? tok else limit <? u64_sat_add tok t) = false -> tok + t <= limit.
Proof.
  unfold is_u64. intros ? ? ? Hover. destruct (Z.eqb_spec t 0) as [->|]; cbv iota in Hover; zify_bools; [lia|].
  unfold u64_sat_add in Hover. generalize dependent u64_max. intros m. lia.
Qed.

(** The outcomes of one limiter's token reservation. *)
Lemma reserve_tokens_cases s t now s' r :
  limiter_ok s -> is_u64 t -> reserve_tokens_at s t now = (s', Ok r) ->
  (allowed (rate r) = false /\ settled now s s') \/
  (allowed (rate r) = true /\ reservation r = None /\ tpm (configuration s) = None /\ s' = s) \/
  (allowed (rate r) = true /\ charged t now s s' /\ exists s1 w,
     roll s now = Ok s1 /\ window_id s1 = Some w /\ s' = set_counts s1 (requests s1) (tokens s1 + t) /\
     opt_is_some (tpm (configuration s)) = true /\
     reservation r = Some {| rr_window_id := w; reserved_tokens := t; reserved_request := false |}).
Proof.
  intros [Hwf Hlim] Ht. unfold reserve_tokens_at, reserve_inner.
  destruct (validate_time now); [|done]. cbn [negb orb andb]. unfold charged.
  destruct (tpm (configuration s)) as [limit|] eqn:Htpm; cbn [opt_is_some negb].
  2: { intros [= <- <-]. right. left. done. }
  destruct (roll s now) as [s1|] eqn:Hroll; [|done]. unfold over_tokens.
  destruct (roll_spec _ _ _ Hroll) as (w & _ & Hw & Hcfg & _). rewrite Hcfg, Htpm.
  pose proof (wf_roll _ _ _ Hwf Hroll) as [_ _ Htok]. specialize (Hlim limit eq_refl).
  destruct (if t =? 0 then _ else _) eqn:Hover; intros [= <- Hr].
  - left. subst r. split; [done|by right].
  - apply over_tokens_false in Hover; [|done..].
    rewrite Hw in Hr. cbn [ok_or result_bind] in Hr. injection Hr as <-. right. right.
    rewrite u64_sat_add_exact by lia. split; [done|]. split; [by exists s1|]. by exists s1, w.
Qed.

Lemma rollback_charge s1 w t now :
  wf_state s1 -> is_u64 t -> validate_time now = Ok () -> window_id s1 = Some w ->
  rollback_at (set_counts s1 (requests s1) (tokens s1 + t))
    {| rr_window_id := w; reserved_tokens := t; reserved_request := false |} now = (s1, Ok true).
Proof.
  intros [_ _ Htok] Ht Hv Hw. unfold rollback_at. rewrite Hv. cbn [window_id set_counts rr_window_id].
  rewrite Hw, bool_decide_eq_true_2 by done. cbn [negb reserved_request reserved_tokens].
  destruct s1 as [c w' q tok]. unfold set_counts. cbn in *. do 2 f_equal. u64.
Qed.

Lemma on_arc_lookup {A} a (op : State -> State * A) st s :
  st !! a = Some s -> on_arc a op st = (<[a := fst (op s)]> st, snd (op s)).
Proof. intros Hs. unfold on_arc. rewrite Hs. simpl. by destruct (op s). Qed.

Lemma limiters_ok_cons a arcs st :
  limiters_ok (a :: arcs) st -> a ∉ arcs /\ (exists s, st !! a = Some s /\ limiter_ok s) /\
  forall s', limiters_ok arcs (<[a := s']> st).
Proof.
  intros [[Ha Hd]%NoDup_cons Hs]. split_and!; [done|apply Hs; set_solver|]. intros s'. split; [done|].
  intros b Hb. rewrite list_lookup_insert_ne by set_solver. apply Hs. set_solver.
Qed.

Lemma on_arcs_cons (R : State -> State -> Prop) a arcs st st' s s' :
  a ∉ arcs -> st !! a = Some s -> R s s' -> on_arcs R arcs (<[a := s']> st) st' -> on_arcs R (a :: arcs) st st'.
Proof.
  intros Ha Hs HR [Hlen Hst]. rewrite length_insert in Hlen. split; [done|]. intros b. destruct (Hst b) as [Hout Hin].
  pose proof (lookup_lt_Some _ _ _ Hs) as Hlt. split.
  - intros [Hne Hb]%not_elem_of_cons. rewrite Hout by done. by rewrite list_lookup_insert_ne.
  - intros [-> | Hb]%elem_of_cons x Hx.
    + simplify_eq. exists s'. split; [|done]. rewrite (proj1 (Hst a)) by done. by apply list_lookup_insert_eq.
    + apply Hin; [done|]. rewrite list_lookup_insert_ne by (by intros ->). done.
Qed.

Lemma rollback_entries_app a b now st :
  rollback_entries (a ++ b) now st = rollback_entries b now (rollback_entries a now st).
Proof. apply foldl_app. Qed.

Lemma rollback_entries_cons entry b now st :
  rollback_entries (entry :: b) now st =
  rollback_entries b now (fst (on_arc (lt_limiter entry) (fun s => rollback_at s (lt_reservation entry) now) st)).
Proof. done. Qed.

Lemma settled_refl now s : settled now s s.
Proof. by left. Qed.

(** The reservations a loop took: one per limiter with a token limit. *)
Definition entries_of (arcs : list arc) (st : store) : list arc :=
  List.filter (fun a => arc_tokens_active st a) arcs.

Lemma filter_ext_in {A} (f g : A -> bool) l : (forall x, x ∈ l -> f x = g x) -> List.filter f l = List.filter g l.
Proof.
  induction l as [|x l IH]; intros H; [done|]. simpl. rewrite (H x), IH; [done| |]; intros; [apply H|]; set_solver.
Qed.

Lemma entries_of_insert a s arcs st : a ∉ arcs -> entries_of arcs (<[a := s]> st) = entries_of arcs st.
Proof.
  intros Ha. apply filter_ext_in. intros b Hb. unfold arc_tokens_active. by rewrite list_lookup_insert_ne by set_solver.
Qed.

(** What the loop leaves behind, whichever way it ends without an error. *)
Lemma reserve_loop_spec arcs t now : is_u64 t -> forall entries st st' d,
  limiters_ok arcs st -> reserve_loop arcs entries t now st = (st', Ok d) ->
  match d with
  | Reserved entries' =>
      exists new, entries' = entries ++ new /\ map lt_limiter new = entries_of arcs st /\
        on_arcs (charged t now) arcs st st' /\
        Forall (fun e => reserved_tokens (lt_reservation e) = t /\ reserved_request (lt_reservation e) = false /\
          exists s', st' !! lt_limiter e = Some s' /\ window_id s' = Some (rr_window_id (lt_reservation e))) new
  | Rejected rate =>
      allowed rate = false /\
      exists st1, st' = rollback_entries (rev entries) now st1 /\ on_arcs (settled now) arcs st st1
  end.
Proof.
  intros Ht. induction arcs as [|a arcs IH]; intros entries st st' d Hok.
  - cbn [reserve_loop]. intros [= <- <-]. exists []. rewrite app_nil_r. split_and!; [done|done| |constructor].
    split; [done|]. intros a. split; [done|]. by intros ?%not_elem_of_nil.
  - apply limiters_ok_cons in Hok as (Ha & (s & Hs & Hok) & Hrest). cbn [reserve_loop].
    rewrite (on_arc_lookup a _ st s Hs). destruct (reserve_tokens_at s t now) as [s' r] eqn:Hres. cbn [fst snd].
    destruct r as [res|e]; [|done].
    assert (Hv : validate_time now = Ok ()) by (by eapply (validate_time_reserve s t false)).
    assert (Hact : arc_tokens_active st a = opt_is_some (tpm (configuration s)))
      by (unfold arc_tokens_active, tokens_active; by rewrite Hs).
    pose proof (reserve_tokens_cases s t now s' res Hok Ht Hres)
      as [[Hno Hset]|[(Hyes & Hnone & Htpm & ->)|(Hyes & Hch & s1 & w & Hroll & Hw & -> & Hsome & Hr)]].
    + rewrite Hno. cbn [negb]. intros [= <- <-]. split; [done|]. exists (<[a:=s']> st). split; [done|].
      apply (on_arcs_cons _ _ _ _ _ s s' Ha Hs Hset). split; [done|]. intros b. split; [done|].
      intros _ x Hx. exists x. split; [done|apply settled_refl].
    + rewrite Hyes, Hnone. cbn [negb]. intros H. apply (IH _ _ _ _ (Hrest s)) in H.
      destruct d as [entries'|rt].
      * destruct H as (new & -> & Hnew & Hon & Hent). exists new. split_and!; [done| | |done].
        -- rewrite Hnew, entries_of_insert by done. unfold entries_of. cbn [List.filter]. by rewrite Hact, Htpm.
        -- apply (on_arcs_cons _ _ _ _ _ s s Ha Hs); [|done]. unfold charged. by rewrite Htpm.
      * destruct H as (Hrt & st1 & -> & Hon). split; [done|]. exists st1. split; [done|].
        by apply (on_arcs_cons _ _ _ _ _ s s Ha Hs (settled_refl _ _)).
    + rewrite Hyes, Hr. cbn [negb]. intros H. apply (IH _ _ _ _ (Hrest _)) in H.
      set (entry := {| lt_limiter := a; lt_reservation := _ |}) in H.
      set (s2 := set_counts s1 (requests s1) (tokens s1 + t)) in *.
      assert (Hkeep : forall R st2, on_arcs R arcs (<[a:=s2]> st) st2 -> st2 !! a = Some s2).
      { intros R st2 [_ Hst2]. rewrite (proj1 (Hst2 a)) by done. apply list_lookup_insert_eq.
        by eapply lookup_lt_Some. }
      destruct d as [entries'|rt].
      * destruct H as (new & -> & Hnew & Hon & Hent). exists (entry :: new). split_and!.
        -- by rewrite <- app_assoc.
        -- cbn [map lt_limiter entry]. rewrite Hnew, entries_of_insert by done. unfold entries_of.
           cbn [List.filter]. by rewrite Hact, Hsome.
        -- by apply (on_arcs_cons _ _ _ _ _ s s2 Ha Hs).
        -- constructor; [|done]. split_and!; [done|done|]. exists s2. split; [by apply (Hkeep (charged t now))|done].
      * destruct H as (Hrt & st1 & -> & Hon). split; [done|].
        rewrite rev_app_distr. change (rev [entry]) with [entry]. cbn [app]. rewrite rollback_entries_cons.
        rewrite (on_arc_lookup _ _ _ s2) by (by apply (Hkeep (settled now))). cbn [lt_limiter lt_reservation entry].
        unfold s2. rewrite rollback_charge by (try done; by eapply wf_roll; [apply Hok|]). cbn [fst].
        exists (<[a:=s1]> st1). split; [done|]. apply (on_arcs_cons _ _ _ _ _ s s1 Ha Hs); [by right|].
        destruct Hon as [Hlen Hon]. rewrite length_insert in Hlen. split; [by rewrite !length_insert|].
        intros b. destruct (decide (b = a)) as [->|Hne].
        -- split; [|done]. rewrite !list_lookup_insert_eq; [done|..]; rewrite ?Hlen; by eapply lookup_lt_Some.
        -- rewrite !list_lookup_insert_ne by done. specialize (Hon b). rewrite list_lookup_insert_ne in Hon by done.
           done.
Qed.

(** Settling the reservations one by one. *)
Lemma reconcile_tokens_spec actual now : validate_time now = Ok () -> forall entries st,
  NoDup (map lt_limiter entries) ->
  Forall (fun e => exists s, st !! lt_limiter e = Some s /\ window_id s = Some (rr_window_id (lt_reservation e))) entries ->
  exists st', reconcile_tokens entries actual now st = (st', Ok ()) /\ length st' = length st /\
    (forall a, a ∉ map lt_limiter entries -> st' !! a = st !! a) /\
    Forall (fun e => forall s, st !! lt_limiter e = Some s ->
      st' !! lt_limiter e = Some (fst (reconcile_at s (lt_reservation e) actual now))) entries.
Proof.
  intros Hv. induction entries as [|e entries IH]; intros st Hd Hw; [by exists st|].
  apply NoDup_cons in Hd as [He Hd]. apply Forall_cons in Hw as [(s & Hs & Hwin) Hw]. cbn [reconcile_tokens].
  rewrite (on_arc_lookup _ _ _ s Hs). set (s2 := fst (reconcile_at s (lt_reservation e) actual now)).
  assert (snd (reconcile_at s (lt_reservation e) actual now) = Ok true) as ->.
  { unfold reconcile_at. by rewrite Hv, Hwin, bool_decide_eq_true_2. }
  pose proof (lookup_lt_Some _ _ _ Hs) as Hlt.
  assert (Hother : forall x, x ∈ entries -> lt_limiter e <> lt_limiter x).
  { intros x Hx Heq. apply He. rewrite Heq. by apply list_elem_of_fmap_2. }
  destruct (IH (<[lt_limiter e := s2]> st) Hd) as (st' & -> & Hlen & Hout & Hin).
  { rewrite Forall_forall in Hw |- *. intros x Hx. rewrite list_lookup_insert_ne by auto. by apply Hw. }
  exists st'. rewrite length_insert in Hlen. split_and!; [done|done| |constructor].
  - intros a [Hne Hna]%not_elem_of_cons. rewrite Hout by done. by rewrite list_lookup_insert_ne.
  - intros x Hx. simplify_eq. rewrite Hout by done. by apply list_lookup_insert_eq.
  - rewrite Forall_forall in Hin |- *. intros x Hx sx Hsx. apply Hin; [done|].
    by rewrite list_lookup_insert_ne by auto.
Qed.

Lemma reconcile_charge s1 w t actual now :
  wf_state s1 -> is_u64 t -> is_u64 actual -> validate_time now = Ok () -> window_id s1 = Some w ->
  tokens s1 + actual <= u64_max ->
  fst (reconcile_at (set_counts s1 (requests s1) (tokens s1 + t))
    {| rr_window_id := w; reserved_tokens := t; reserved_request := false |} actual now) =
  set_counts s1 (requests s1) (tokens s1 + actual).
Proof.
  intros [_ _ Htok] Ht Hact Hv Hw Hmax. unfold reconcile_at. rewrite Hv. cbn [window_id set_counts rr_window_id].
  rewrite Hw, bool_decide_eq_true_2 by done. cbn [negb reserved_tokens tokens requests set_counts fst].
  unfold set_counts. cbn [configuration window_id]. f_equal. destruct (Z.leb_spec t actual); u64.
Qed.

(** One limiter charged with what was really used. *)
Definition metered (actual : Z) (now : f64) (s s' : State) : Prop :=
  match tpm (configuration s) with
  | None => s' = s
  | Some _ => exists s1, roll s now = Ok s1 /\ s' = set_counts s1 (requests s1) (tokens s1 + actual)
  end.

Lemma elem_of_option_list {A} (x : A) o : x ∈ option_list o <-> o = Some x.
Proof. destruct o; simpl; [rewrite list_elem_of_singleton; naive_solver|split; [by intros ?%not_elem_of_nil|done]]. Qed.

(** *** Construction *)
Definition constructed (s : State) : Prop := exists config, new_limiter config = Ok s.

Lemma opt_limiter_spec config st o st' :
  opt_limiter config st = Ok (o, st') ->
  (config = None /\ o = None /\ st' = st) \/
  (exists rl s, config = Some rl /\ new_limiter rl = Ok s /\ o = Some (length st) /\ st' = st ++ [s]).
Proof.
  destruct config as [rl|]; cbn [opt_limiter]; [|intros [= <- <-]; by left].
  destruct (new_limiter rl) as [s|] eqn:Hn; [|done]. cbn [result_bind arc_new]. intros [= <- <-]. right. by exists rl, s.
Qed.

(** A limiter is allocated past the ones in use. *)
Lemma opt_limiter_grows config st o st' :
  opt_limiter config st = Ok (o, st') ->
  st `prefix_of` st' /\ (Forall constructed st -> Forall constructed st') /\
  (forall a, o = Some a -> (length st <= a < length st')%nat).
Proof.
  intros [(_ & -> & ->)|(rl & s & _ & Hn & -> & ->)]%opt_limiter_spec; [done|]. split_and!.
  - by apply prefix_app_r.
  - intros H. apply Forall_app. split; [done|]. apply Forall_singleton. by exists rl.
  - intros a [= <-]. rewrite length_app. simpl. lia.
Qed.

(** The limiters of a workspace map: allocated from [base] on, one workspace each. *)
Definition entries_ok (base : nat) (m : btree workspace_entry) (st : store) : Prop :=
  (forall i models a, bt_get m i = Some (models, Some a) -> (base <= a < length st)%nat) /\
  (forall i j mi mj a, bt_get m i = Some (mi, Some a) -> bt_get m j = Some (mj, Some a) -> i = j).

Lemma entries_ok_insert base m st id models o config st' :
  (base <= length st)%nat -> entries_ok base m st -> opt_limiter config st = Ok (o, st') ->
  entries_ok base (bt_insert m id (models, o)) st'.
Proof.
  intros Hb [Hr Hi] Ho. apply opt_limiter_grows in Ho as (Hp & _ & Ha). apply prefix_length in Hp.
  assert (Hcase : forall i mo a, bt_get (bt_insert m id (models, o)) i = Some (mo, Some a) ->
    (i = id /\ (length st <= a < length st')%nat) \/ (i <> id /\ bt_get m i = Some (mo, Some a) /\ (base <= a < length st)%nat)).
  { intros i mo a. destruct (decide (i = id)) as [->|Hne].
    - rewrite bt_get_insert_eq. intros [= _ ->]. left. split; [done|]. by apply Ha.
    - rewrite bt_get_insert_ne by done. intros H. right. split_and!; [done|done|by eapply Hr|by eapply Hr]. }
  split.
  - intros i mo a [[_ ?]|(_ & _ & ?)]%Hcase; lia.
  - intros i j mi mj a [[-> ?]|(? & ? & ?)]%Hcase [[-> ?]|(? & ? & ?)]%Hcase; [done|lia|lia|by eapply Hi].
Qed.

Lemma build_workspaces_spec base entries : forall acc st m st',
  (base <= length st)%nat -> NoDup (ix_keys entries) -> entries_ok base acc st ->
  build_workspaces entries acc st = Ok (m, st') ->
  st `prefix_of` st' /\ (Forall constructed st -> Forall constructed st') /\ entries_ok base m st' /\
  (forall i, match ix_get entries i with
             | Some w => exists o, bt_get m i = Some (ws_models w, o)
             | None => bt_get m i = bt_get acc i
             end).
Proof.
  induction entries as [|[id w] entries IH]; intros acc st m st' Hb Hd Hok; cbn [build_workspaces].
  - by intros [= <- <-].
  - apply NoDup_cons in Hd as [Hid Hd]. destruct (opt_limiter (ws_rate_limit w) st) as [[o st1]|] eqn:Ho; [|done].
    cbn [result_bind]. intros H. pose proof (opt_limiter_grows _ _ _ _ Ho) as (Hp & Hc & _).
    pose proof (prefix_length _ _ Hp). apply IH in H as (Hp2 & Hc2 & Hok2 & Hget);
      [|lia|done|by eapply entries_ok_insert].
    split_and!; [by etrans|naive_solver|done|]. intros i. specialize (Hget i). cbn [ix_get].
    destruct (str_eqb id i) eqn:E; [apply str_eqb_eq in E as ->|apply str_eqb_neq in E].
    + rewrite (proj2 (ix_get_None entries i)) in Hget by done. exists o. by rewrite Hget, bt_get_insert_eq.
    + destruct (ix_get entries i); [done|]. by rewrite Hget, bt_get_insert_ne.
Qed.

Lemma build_keys_spec ws entries : forall st ks st',
  build_keys ws entries st = Ok (ks, st') ->
  st `prefix_of` st' /\ (Forall constructed st -> Forall constructed st') /\
  Forall2 (fun '(i, key) k => valid_key_id i = true /\ k = build_key ws i key (limiter k)) entries ks /\
  NoDup (omap limiter ks) /\ Forall (fun a => (length st <= a < length st')%nat) (omap limiter ks).
Proof.
  induction entries as [|[i key] entries IH]; intros st ks st'; cbn [build_keys].
  - intros [= <- <-]. split_and!; try done; constructor.
  - destruct (valid_key_id i) eqn:Hv; [|done]. cbn [negb].
    destruct (opt_limiter (vk_rate_limit key) st) as [[o st1]|] eqn:Ho; [|done]. cbn [map_err result_bind].
    destruct (build_keys ws entries st1) as [[rest st2]|] eqn:Hr; [|done]. cbn [result_bind]. intros [= <- <-].
    apply IH in Hr as (Hp2 & Hc2 & Hf & Hd & Hrange). apply opt_limiter_grows in Ho as (Hp & Hc & Ha).
    pose proof (prefix_length _ _ Hp). pose proof (prefix_length _ _ Hp2).
    assert (Hrange' : Forall (fun a => (length st <= a < length st2)%nat) (omap limiter rest)).
    { eapply Forall_impl; [exact Hrange|]. simpl. lia. }
    split_and!; [by etrans|naive_solver|by constructor|..]; cbn [omap list_omap build_key limiter];
      destruct o as [a|]; try done.
    + constructor; [|done]. intros Hin. rewrite Forall_forall in Hrange. apply Hrange in Hin. simpl in Hin.
      specialize (Ha a eq_refl). lia.
    + constructor; [|done]. specialize (Ha a eq_refl). lia.
Qed.

(** What construction establishes of the keys it built: where their limiters
    come from.  [global] limiters lie below [base], the workspaces' between
    [base] and [mid], the keys' own from [mid] on. *)
Record keys_built (base mid top : nat) (m : btree workspace_entry) (ks : list VirtualKeyPolicy) : Prop := {
  kb_workspace : forall k a, k ∈ ks -> workspace_limiter k = Some a ->
    (base <= a < mid)%nat /\ exists i models, workspace k = Some i /\ bt_get m i = Some (models, Some a);
  kb_own : forall k a, k ∈ ks -> limiter k = Some a -> (mid <= a < top)%nat;
  kb_lookup : forall k, k ∈ ks -> workspace_limiter k = (workspace k ≫= bt_get m) ≫= snd;
}.

Lemma keys_built_intro base m st1 entries st2 ks :
  entries_ok base m st1 -> build_keys m entries st1 = Ok (ks, st2) ->
  keys_built base (length st1) (length st2) m ks.
Proof.
  intros [Hrange _] (_ & _ & Hks & _ & Hown)%build_keys_spec.
  assert (Hk : forall k, k ∈ ks -> exists i key, k = build_key m i key (limiter k)).
  { intros k (n & Hn)%list_elem_of_lookup.
    destruct (Forall2_lookup_r _ _ _ _ _ Hks Hn) as ([i key] & _ & _ & Hkeq). eauto. }
  split.
  - intros k a (i & key & ->)%Hk Ha. cbn [build_key workspace_limiter workspace] in *.
    destruct (vk_workspace key) as [w|]; [|done]. cbn [mbind option_bind] in Ha.
    destruct (bt_get m w) as [[models o]|] eqn:Hb; [|done]. cbn in Ha. subst o.
    split; [by eapply Hrange|by exists w, models].
  - intros k a Hin Ha. rewrite Forall_forall in Hown. apply Hown. apply list_elem_of_omap. by exists k.
  - intros k (i & key & ->)%Hk. done.
Qed.

(** The limiters of one request lie in three separate ranges. *)
Lemma request_limiters_ranges base mid top m g ks allow grant :
  (base <= mid <= top)%nat -> (forall a, g = Some a -> (a < base)%nat) -> keys_built base mid top m ks ->
  let p := {| global_limiter := g; policy_keys := ks; ap_allow_unauthenticated_default := allow |} in
  NoDup (request_limiters p grant) /\ forall a, a ∈ request_limiters p grant -> (a < top)%nat.
Proof.
  intros Hle Hg [Hws Hown _]. cbv zeta. unfold request_limiters, workspace_arc, key_arc, key_of.
  cbn [global_limiter policy_keys].
  destruct (index ← key_index grant; ks !! index) as [k|] eqn:E; cbn [mbind option_bind].
  - assert (Hin : k ∈ ks) by (destruct (key_index grant); [by eapply list_elem_of_lookup_2|done]).
    pose proof (fun a h => proj1 (Hws k a Hin h)). pose proof (fun a => Hown k a Hin). clear Hws Hown.
    split.
    + destruct g as [a1|], (workspace_limiter k) as [a2|], (limiter k) as [a3|]; simpl;
        repeat match goal with H : forall a, Some ?x = Some a -> _ |- _ => specialize (H x eq_refl) end;
        rewrite ?NoDup_cons, ?not_elem_of_cons;
        repeat match goal with |- _ /\ _ => split end; first [apply not_elem_of_nil|apply NoDup_nil_2|lia].
    + intros a. rewrite !elem_of_app, !elem_of_option_list. intros [Ha|[Ha|Ha]].
      * specialize (Hg a Ha). lia.
      * specialize (H a Ha). lia.
      * specialize (H0 a Ha). lia.
  - rewrite !app_nil_r. split; [destruct g; simpl; [apply NoDup_singleton|apply NoDup_nil_2]|].
    intros a. rewrite elem_of_option_list. intros Ha. specialize (Hg a Ha). lia.
Qed.

(** Keys meet at a workspace limiter exactly when they name one workspace. *)
Lemma workspace_limiter_shared base mid top m st ks k1 k2 a :
  entries_ok base m st -> keys_built base mid top m ks -> k1 ∈ ks -> k2 ∈ ks -> workspace_limiter k1 = Some a ->
  (workspace_limiter k2 = Some a <-> workspace k2 = workspace k1).
Proof.
  intros [_ Hinj] [Hws _ Hget] H1 H2 Ha. destruct (Hws k1 a H1 Ha) as (_ & i & mi & Hi & Hbi). split.
  - intros Ha2. destruct (Hws k2 a H2 Ha2) as (_ & j & mj & Hj & Hbj). rewrite Hi, Hj. f_equal.
    by apply (Hinj j i mj mi a).
  - intros Heq. rewrite (Hget k2 H2), Heq, Hi. cbn [mbind option_bind]. by rewrite Hbi.
Qed.

(** The models a key may reach: its own list, or its workspace's. *)
Definition effective_models (config : GatewayConfig) (key : VirtualKey) : list str :=
  match vk_models key with
  | [] => match vk_workspace key ≫= ix_get (workspaces config) with Some w => ws_models w | None => [] end
  | models => models
  end.

Lemma build_key_models config (m : btree workspace_entry) key i o :
  (forall i, match ix_get (workspaces config) i with
             | Some w => exists o, bt_get m i = Some (ws_models w, o)
             | None => bt_get m i = None
             end) ->
  allowed_models_of (build_key m i key o) = effective_models config key.
Proof.
  intros Hget. cbn [build_key allowed_models_of]. unfold effective_models. destruct (vk_models key); [|done].
  destruct (vk_workspace key) as [w|]; [|done]. cbn [mbind option_bind]. specialize (Hget w).
  destruct (ix_get (workspaces config) w) as [ws|]; [by destruct Hget as (o' & ->)|]. by rewrite Hget.
Qed.

(** *** Authentication *)
Definition matches_token (sha256 : list Z -> list Z) (token : str) (k : VirtualKeyPolicy) : Prop :=
  to_ascii_lowercase (trim (digest k)) = hash_key sha256 token.

Lemma match_policy_key sha256 authorization ks kid :
  sha256_digest sha256 ->
  match_key sha256 (extract_bearer authorization) (map (fun key => (id key, digest key)) ks) = Some kid <->
  exists i k token, ks !! i = Some k /\ id k = kid /\ extract_bearer authorization = Some token /\
    matches_token sha256 token k /\
    forall j kj, (i < j)%nat -> ks !! j = Some kj -> ~ matches_token sha256 token kj.
Proof.
  intros Hsha. rewrite (match_key_last_match _ _ _ _ Hsha). split.
  - intros (token & pre & h & post & Hx & Hne & Heq & Hh & Hpost).
    apply map_eq_app in Heq as (pre' & rest & -> & <- & Heq). apply map_eq_cons in Heq as (k & post' & -> & Hk & <-).
    injection Hk as <- <-. exists (length pre'), k, token. split_and!; try done.
    + by apply list_lookup_middle.
    + intros j kj Hj Hkj. rewrite lookup_app_r in Hkj by lia. rewrite lookup_cons_ne_0 in Hkj by lia.
      apply list_elem_of_lookup_2 in Hkj. rewrite Forall_fmap, Forall_forall in Hpost. exact (Hpost kj Hkj).
  - intros (i & k & token & Hk & <- & Hx & Hm & Hlater). pose proof (extract_bearer_solid _ _ Hx) as [_ Hne].
    apply list_elem_of_split_length in Hk as (pre & post & -> & ->).
    exists token, (map (fun key => (id key, digest key)) pre), (digest k), (map (fun key => (id key, digest key)) post).
    split_and!; [done|done|by rewrite map_app|done|]. rewrite Forall_fmap, Forall_forall. intros kj Hkj.
    apply list_elem_of_lookup in Hkj as (n & Hn). apply (Hlater (length pre + S n)%nat kj); [lia|].
    rewrite lookup_app_r by lia. by replace (length pre + S n - length pre)%nat with (S n) by lia.
Qed.

Lemma position_id ks i k :
  NoDup (map id ks) -> ks !! i = Some k -> position (fun key => str_eqb (id key) (id k)) ks = Some i.
Proof.
  revert i. induction ks as [|x ks IH]; intros i; [done|]. cbn [map position]. intros [Hx Hd]%NoDup_cons.
  destruct i as [|i]; cbn [lookup list_lookup].
  - intros [= ->]. by rewrite str_eqb_refl.
  - intros Hk. rewrite (proj2 (str_eqb_neq _ _)).
    + by rewrite (IH i Hd Hk).
    + intros Heq. apply Hx. rewrite Heq. apply list_elem_of_fmap_2. by eapply list_elem_of_lookup_2.
Qed.

(** ** Properties *)

(** C34: Reserving tokens is all or nothing over the scopes of a request.  When
    it succeeds, every limiter with a token limit is charged exactly [tokens]
    within its limit and gets one reservation; when some scope rejects, the
    scopes charged before it are rolled back, so that every limiter is as it
    was, or only moved to the current window.  No other limiter changes. *)
Theorem reserve_all_or_nothing p grant t now st st' d :
  is_u64 t -> limiters_ok (request_limiters p grant) st ->
  reserve_local_tokens p grant t now st = (st', Ok d) ->
  match d with
  | Reserved entries =>
      on_arcs (charged t now) (request_limiters p grant) st st' /\
      map lt_limiter entries = entries_of (request_limiters p grant) st
  | Rejected rate => allowed rate = false /\ on_arcs (settled now) (request_limiters p grant) st st'
  end.
Proof.
  intros Ht Hok H. apply (reserve_loop_spec _ _ _ Ht _ _ _ _ Hok) in H. destruct d as [entries|rt].
  - by destruct H as (new & -> & ? & ? & _).
  - by destruct H as (? & st1 & -> & ?).
Qed.

(** Reserving an estimate and settling it while its windows last charges
    every limited scope of the request exactly what was used: the counters end
    as if [actual] tokens had been counted directly, whatever the estimate. *)
Theorem reserve_then_reconcile_meters_actual p grant t actual now now' st st' entries :
  is_u64 t -> is_u64 actual -> limiters_ok (request_limiters p grant) st -> validate_time now' = Ok () ->
  (forall a s limit, a ∈ request_limiters p grant -> st !! a = Some s -> tpm (configuration s) = Some limit ->
     limit + actual <= u64_max) ->
  reserve_local_tokens p grant t now st = (st', Ok (Reserved entries)) ->
  exists st'', reconcile_tokens entries actual now' st' = (st'', Ok ()) /\
    on_arcs (metered actual now) (request_limiters p grant) st st''.
Proof.
  intros Ht Hact Hok Hv Hmax H. apply (reserve_loop_spec _ _ _ Ht _ _ _ _ Hok) in H.
  destruct H as (new & -> & Hnew & [Hlen Hon] & Hent). cbn [app]. destruct Hok as [Hd Hst].
  destruct (reconcile_tokens_spec actual now' Hv new st') as (st2 & Hrec & Hlen2 & Hout & Hin).
  { rewrite Hnew. unfold entries_of. eapply sublist_NoDup; [exact Hd|apply list_filter_sublist]. }
  { eapply Forall_impl; [exact Hent|]. intros e (_ & _ & Hx). exact Hx. }
  exists st2. split; [done|]. split; [congruence|]. intros a. destruct (Hon a) as [Ha_out Ha_in]. split.
  - intros Ha. rewrite Hout; [by apply Ha_out|]. rewrite Hnew. unfold entries_of. by intros [? _]%elem_of_filter_bool.
  - intros Ha s Hs. destruct (Ha_in Ha s Hs) as (s' & Hs' & Hch). unfold charged in Hch. unfold metered.
    destruct (Hst a Ha) as (s0 & Hs0 & [Hwf _]). simplify_eq.
    destruct (tpm (configuration s)) as [limit|] eqn:Htpm.
    + assert (Hina : a ∈ map lt_limiter new).
      { rewrite Hnew. unfold entries_of. apply elem_of_filter_bool. split; [done|]. unfold arc_tokens_active, tokens_active.
        rewrite Hs. simpl. by rewrite Htpm. }
      apply list_elem_of_fmap in Hina as (e & -> & He). rewrite Forall_forall in Hin, Hent.
      destruct Hch as (s1 & Hroll & Hle & ->). rewrite (Hin e He _ Hs').
      destruct (Hent e He) as (Het & Hereq & s'' & Hs'' & Hew). rewrite Hs' in Hs''. injection Hs'' as <-.
      destruct e as [a' [w et eq]]. cbn in *. subst. exists (set_counts s1 (requests s1) (tokens s1 + actual)).
      specialize (Hmax _ _ _ Ha Hs Htpm). split; [|by exists s1].
      rewrite reconcile_charge; [done|by eapply wf_roll|done..|]. destruct Ht. lia.
    + subst s'. exists s. split; [|done]. rewrite Hout; [done|]. rewrite Hnew. unfold entries_of.
      intros [_ Hx]%elem_of_filter_bool. unfold arc_tokens_active, tokens_active in Hx. rewrite Hs in Hx. simpl in Hx.
      by rewrite Htpm in Hx.
Qed.

(** Building the policy from a configuration keeps one policy per key, in
    order, with its digest, workspace and effective model list; every limiter a
    request can meet exists, unused, and is met once; the keys of one workspace
    share one limiter, keys of different workspaces share none, and a key's own
    limiter belongs to it alone. *)
Theorem policy_of_config config p st :
  NoDup (ix_keys (workspaces config)) -> from_gateway_config_with_clock config = Ok (p, st) ->
  Forall2 (fun '(i, key) k =>
    id k = i /\ valid_key_id i = true /\ digest k = vk_hash key /\ workspace k = vk_workspace key /\
    allowed_models_of k = effective_models config key) (keys config) (policy_keys p) /\
  (forall grant, NoDup (request_limiters p grant) /\
     forall a, a ∈ request_limiters p grant -> exists s, st !! a = Some s /\ constructed s) /\
  (forall k1 k2 a, k1 ∈ policy_keys p -> k2 ∈ policy_keys p -> workspace_limiter k1 = Some a ->
     (workspace_limiter k2 = Some a <-> workspace k2 = workspace k1)) /\
  NoDup (omap limiter (policy_keys p)).
Proof.
  intros Hd. unfold from_gateway_config_with_clock. destruct (_ <? _); [done|]. destruct (_ <? _); [done|].
  destruct (opt_limiter (gc_rate_limit config) []) as [[g st0]|] eqn:Hg; [|done]. cbn [map_err result_bind].
  destruct (build_workspaces (workspaces config) [] st0) as [[m st1]|] eqn:Hw; [|done]. cbn [map_err result_bind].
  destruct (build_keys m (keys config) st1) as [[ks st2]|] eqn:Hk; [|done]. cbn [map_err result_bind].
  intros [= <- <-]. cbn [policy_keys].
  apply opt_limiter_grows in Hg as (_ & Hc0 & Hg).
  apply (build_workspaces_spec (length st0)) in Hw as (Hp1 & Hc1 & Hentries & Hget); [|done|done|by split].
  pose proof (keys_built_intro _ _ _ _ _ _ Hentries Hk) as Hbuilt.
  apply build_keys_spec in Hk as (Hp2 & Hc2 & Hks & Hdk & _).
  pose proof (prefix_length _ _ Hp1). pose proof (prefix_length _ _ Hp2).
  split_and!; [| | |done].
  - eapply Forall2_impl; [exact Hks|]. intros [i key] k [Hv ->]. split_and!; try done. by apply build_key_models.
  - intros grant. destruct (request_limiters_ranges (length st0) (length st1) (length st2) m g ks
      (allow_unauthenticated_default config) grant) as [Hnd Hlt]; [lia|intros a Ha; by apply Hg in Ha as [_ ?]|done|].
    split; [done|]. intros a (s & Hs)%Hlt%lookup_lt_is_Some. exists s. split; [done|].
    eapply Forall_lookup_1; [|exact Hs]. auto.
  - intros k1 k2 a. by apply (workspace_limiter_shared (length st0) (length st1) (length st2) m st1 ks).
Qed.

(** Authentication grants exactly this: with no keys configured, or with no
    credential where local project mode allows that, the open grant; otherwise
    the last key whose stored digest is that of the presented token.  A wrong,
    empty or missing credential is granted nothing else. *)
Theorem authenticate_grants_matching_key sha256 p authorization grant :
  sha256_digest sha256 -> NoDup (map id (policy_keys p)) ->
  authenticate sha256 p authorization = Some grant <->
  (key_index grant = None /\
     (policy_keys p = [] \/ (authorization = None /\ ap_allow_unauthenticated_default p = true))) \/
  (exists i k token, key_index grant = Some i /\ policy_keys p !! i = Some k /\
     extract_bearer authorization = Some token /\
     to_ascii_lowercase (trim (digest k)) = hash_key sha256 token /\
     forall j kj, (i < j)%nat -> policy_keys p !! j = Some kj ->
       to_ascii_lowercase (trim (digest kj)) <> hash_key sha256 token).
Proof.
  intros Hsha Hd. destruct grant as [idx]. cbn [key_index]. unfold authenticate.
  destruct (policy_keys p) as [|k0 ks] eqn:Hks.
  { split; [intros [= <-]; left; eauto|]. intros [[-> _]|(i & k & t & _ & Hk & _)]; [done|by rewrite lookup_nil in Hk]. }
  rewrite <- Hks in *. cbv iota.
  destruct (match authorization with None => true | _ => false end && ap_allow_unauthenticated_default p) eqn:Hopen.
  { apply andb_prop in Hopen as [Ha Hallow]. destruct authorization; [done|].
    split; [intros [= <-]; left; eauto|]. intros [[-> _]|(i & k & t & _ & _ & Ht & _)]; [done|discriminate Ht]. }
  assert (Hclosed : ~ (policy_keys p = [] \/ authorization = None /\ ap_allow_unauthenticated_default p = true)).
  { intros [H|[-> H]]; [by rewrite H in Hks|by rewrite H in Hopen]. }
  destruct (match_key sha256 (extract_bearer authorization) _) as [kid|] eqn:Hm; cbn [mbind option_bind].
  - apply (match_policy_key _ _ _ _ Hsha) in Hm as (i & k & token & Hk & <- & Hx & Hmatch & Hlater).
    rewrite (position_id _ i k) by done. cbn [fmap option_fmap option_map]. split.
    + intros [= <-]. right. by exists i, k, token.
    + intros [[_ H]|(j & kj & token' & -> & Hkj & Hx' & Hmj & Hlj)]; [done|]. simplify_eq. do 2 f_equal.
      destruct (Nat.lt_trichotomy i j) as [Hlt|[->|Hlt]]; [|done|].
      * by apply (Hlater j kj) in Hmj.
      * by apply (Hlj i k) in Hmatch.
  - split; [done|]. intros [[_ H]|(j & kj & token' & -> & Hkj & Hx' & Hmj & Hlj)]; [done|]. exfalso.
    assert (match_key sha256 (extract_bearer authorization) (map (fun key => (id key, digest key)) (policy_keys p)) =
            Some (id kj)) as H; [|by rewrite Hm in H].
    apply match_policy_key; [done|]. by exists j, kj, token'.
Qed.

(** ** Closed examples *)
Definition sample_limit (t : Z) : GatewayConfig.RateLimit :=
  {| rl_rpm := Some 2; rl_tpm := Some t; rl_window := f64_of_Z 60 |}.

Definition sample_vk (secret : string) (limit : option GatewayConfig.RateLimit) : VirtualKey :=
  {| vk_hash := hash_key toy_sha (lit secret); vk_tags := []; vk_workspace := Some (lit "team"); vk_budget := None;
     vk_rate_limit := limit; vk_models := [] |}.

Definition sample_access_config : GatewayConfig :=
  policy_config false None (Some (sample_limit 1000))
    [(lit "team", {| ws_models := [lit "local"]; ws_profile := None; ws_budget := None;
                     ws_rate_limit := Some (sample_limit 100) |})]
    [(lit "a", sample_vk "wf-a" (Some (sample_limit 50))); (lit "b", sample_vk "wf-b" None)].

Definition sample_built : AccessPolicy * store :=
  match from_gateway_config_with_clock sample_access_config with
  | Ok built => built
  | Err _ => ({| global_limiter := None; policy_keys := []; ap_allow_unauthenticated_default := false |}, [])
  end.

Definition sample_policy : AccessPolicy := Eval vm_compute in fst sample_built.
Definition sample_store : store := Eval vm_compute in snd sample_built.

(** The two keys share the limiter at 1; [a] owns the one at 2. *)
Example sample_limiters :
  request_limiters sample_policy {| key_index := Some 0%nat |} = [0%nat; 1%nat; 2%nat] /\
  request_limiters sample_policy {| key_index := Some 1%nat |} = [0%nat; 1%nat].
Proof. vm_compute. done. Qed.

Lemma policy_of_config_witness : NoDup (omap limiter (policy_keys sample_policy)).
Proof.
  apply (policy_of_config sample_access_config sample_policy sample_store); [|vm_compute; reflexivity].
  apply NoDup_singleton.
Defined.

Lemma sample_limiters_ok grant : limiters_ok (request_limiters sample_policy {| key_index := Some grant |}) sample_store.
Proof.
  assert (Hall : limiters_ok [0%nat; 1%nat; 2%nat] sample_store).
  { split; [repeat constructor; by rewrite ?not_elem_of_cons; repeat split; try apply not_elem_of_nil|].
    intros a Ha. rewrite !elem_of_cons in Ha. destruct Ha as [-> |[-> |[-> | []%not_elem_of_nil]]];
      eexists; (split; [vm_compute; reflexivity|]); split;
      try (intros limit [= <-]; unfold u64_max; lia); constructor; cbn; try (intros w [=]); unfold is_u64, u64_max; lia. }
  destruct Hall as [Hd Hs]. destruct grant as [|[|n]].
  - by split.
  - change (request_limiters _ _) with [0%nat; 1%nat]. split; [by apply (NoDup_app [0%nat; 1%nat] [2%nat])|].
    intros a Ha. apply Hs. set_solver.
  - change (request_limiters _ _) with [0%nat]. split; [apply NoDup_singleton|]. intros a Ha. apply Hs. set_solver.
Qed.

(** Key [a] asks for more than its own limit: the global and workspace
    reservations are undone. *)
Lemma reserve_all_or_nothing_witness :
  on_arcs (settled (f64_of_Z 1)) [0%nat; 1%nat; 2%nat] sample_store
    (fst (reserve_local_tokens sample_policy {| key_index := Some 0%nat |} 60 (f64_of_Z 1) sample_store)).
Proof.
  apply (reserve_all_or_nothing sample_policy {| key_index := Some 0%nat |} 60 (f64_of_Z 1) sample_store _
    (Rejected {| limited_by := Some Tokens; retry_after_seconds := 59 |})).
  - unfold is_u64, u64_max; lia.
  - apply sample_limiters_ok.
  - vm_compute. reflexivity.
Defined.

Definition sample_reserved : store :=
  Eval vm_compute in
    fst (reserve_local_tokens sample_policy {| key_index := Some 0%nat |} 40 (f64_of_Z 1) sample_store).

Definition sample_entries : list LocalTokenReservation :=
  map (fun a => {| lt_limiter := a;
                   lt_reservation := {| rr_window_id := 0; reserved_tokens := 40; reserved_request := false |} |})
    [0%nat; 1%nat; 2%nat].

Lemma reserve_then_reconcile_meters_actual_witness :
  exists st'', reconcile_tokens sample_entries 25 (f64_of_Z 2) sample_reserved = (st'', Ok ()) /\
    on_arcs (metered 25 (f64_of_Z 1)) [0%nat; 1%nat; 2%nat] sample_store st''.
Proof.
  apply (reserve_then_reconcile_meters_actual sample_policy {| key_index := Some 0%nat |} 40).
  - unfold is_u64, u64_max; lia.
  - unfold is_u64, u64_max; lia.
  - apply sample_limiters_ok.
  - vm_compute. reflexivity.
  - intros a s limit Ha Hs Hl. change (request_limiters _ _) with [0%nat; 1%nat; 2%nat] in Ha.
    rewrite !elem_of_cons in Ha.
    destruct Ha as [-> |[-> |[-> | []%not_elem_of_nil]]]; vm_compute in Hs; injection Hs as <-;
      injection Hl as <-; unfold u64_max; lia.
  - vm_compute. reflexivity.
Defined.

Lemma authenticate_grants_matching_key_witness :
  authenticate toy_sha sample_policy (Some (lit "Bearer wf-b")) = Some {| key_index := Some 1%nat |}.
Proof.
  apply authenticate_grants_matching_key.
  - intros input. split; [done|apply toy_sha_bytes].
  - vm_compute. repeat constructor; rewrite ?list_elem_of_singleton; try done. apply not_elem_of_nil.
  - right. eexists 1%nat, _, (lit "wf-b"). split_and!; [done|vm_compute; reflexivity..|].
    intros j kj Hj Hkj. apply lookup_lt_Some in Hkj. cbn in Hkj. lia.
Defined.

(** An error of a later limiter leaves the reservations of the earlier ones in
    place: here the global limiter stays charged although the request got
    neither a reservation nor a rejection. *)
Definition tiny_window : store :=
  [RateLimit.fresh {| rpm := None; tpm := Some 1000; window_seconds := f64_of_Z 60 |};
   RateLimit.fresh {| rpm := None; tpm := Some 1000; window_seconds := f64_dec 1 15 |}].

Example reservation_kept_on_error :
  let '(st, r) := reserve_loop [0%nat; 1%nat] [] 10 (f64_of_Z 100000) tiny_window in
  r = Err InvalidTime /\ map tokens st = [10; 0].
Proof. vm_compute. done. Qed.
