(* ===== verification/FleetAccess.v ===== *)
(** * Access policy over a shared backend (crate [wayfinder-gateway], [src/access.rs])

    The path of [AccessPolicy] that counts a request on a fleet-wide backend and
    falls back to the process-local limiters when the backend fails.  The
    backend is any instance of the class [StateBackend].  Where an operation
    reads the clock twice, for the backend and for the fallback, it takes two
    times. *)
From S2P Require Export Access.

#[export] Instance RateReservation_eq_dec : EqDecision RateReservation.
Proof. solve_decision. Defined.

(** ** Data *)
Record SharedLimit := { sl_key : str; sl_config : StateLimitConfig }.

Record SharedKeyPolicy := {
  sk_workspace : option SharedLimit;
  sk_limiter : option SharedLimit;
}.

Record SharedAccessPolicy := {
  sa_global : option SharedLimit;
  sa_keys : list SharedKeyPolicy;
}.

Record SharedTokenReservation := {
  st_limit : SharedLimit;
  st_reservation : RateReservation;
}.

Inductive TokenReservationEntry :=
| LocalEntry (entry : LocalTokenReservation)
| SharedEntry (entry : SharedTokenReservation).

(** [TokenReservationDecision] over both kinds of entries. *)
Inductive FleetReservationDecision :=
| FleetReserved (entries : list TokenReservationEntry)
| FleetRejected (rate : RateResult).

Inductive SharedReservationError :=
| Clean
| Unsafe (e : StateBackendError).

(** ** Construction *)
Definition shared_limit_config (limit : GatewayConfig.RateLimit) : StateLimitConfig :=
  {| slc_rpm := rl_rpm limit; slc_tpm := rl_tpm limit; slc_window_seconds := rl_window limit |}.

Definition shared_limit (key : str) (limit : GatewayConfig.RateLimit) : SharedLimit :=
  {| sl_key := key; sl_config := shared_limit_config limit |}.

Definition SharedAccessPolicy_new (base64url : list Z -> str) (config : GatewayConfig) : SharedAccessPolicy :=
  let workspaces :=
    bt_of_list (omap (fun '(id, workspace) =>
      (fun limit => (id, shared_limit (workspace_limit_key base64url id) limit)) <$> ws_rate_limit workspace) (workspaces config)) in
  {| sa_global := shared_limit global_limit_key <$> gc_rate_limit config;
     sa_keys := map (fun '(id, key) =>
       {| sk_workspace := vk_workspace key ≫= bt_get workspaces;
          sk_limiter := shared_limit (virtual_key_limit_key base64url id) <$> vk_rate_limit key |}) (keys config) |}.

(** ** Operations on the backend *)
Section Fleet.
Context {B : Type} `{StateBackend B}.

Definition backend_op (A : Type) : Type := B -> B * result A StateBackendError.

Definition b_ret {A} (x : A) : backend_op A := fun b => (b, Ok x).
Definition b_bind {A C} (m : backend_op A) (k : A -> backend_op C) : backend_op C :=
  fun b => match m b with (b, Ok x) => k x b | (b, Err e) => (b, Err e) end.

Local Notation "x <-? m ; k" := (b_bind m (fun x => k)) (at level 100, m at next level, right associativity).

Definition key_limits_of (p : SharedAccessPolicy) (grant : AccessGrant) : option SharedKeyPolicy :=
  index ← key_index grant; sa_keys p !! index.

(** The limits of a request, in the order they are charged. *)
Definition shared_limits (p : SharedAccessPolicy) (grant : AccessGrant) : list SharedLimit :=
  option_list (sa_global p) ++
  match key_limits_of p grant with
  | Some key => option_list (sk_workspace key) ++ option_list (sk_limiter key)
  | None => []
  end.

Definition admit_limit (limit : SharedLimit) (now : f64) : backend_op RateResult :=
  fun b => sb_admit b (sl_key limit) (sl_config limit) now.

Definition sa_admit_global (p : SharedAccessPolicy) (now : f64) : backend_op (option RateResult) :=
  match sa_global p with
  | None => b_ret None
  | Some global => r <-? admit_limit global now; b_ret (Some r)
  end.

(** [if let Some(limit) = limit { let result = admit?; if !allowed { return .. } }]. *)
Definition admit_opt (limit : option SharedLimit) (now : f64) (rest : backend_op (option RateResult)) : backend_op (option RateResult) :=
  match limit with
  | None => rest
  | Some limit => r <-? admit_limit limit now; if negb (allowed r) then b_ret (Some r) else rest
  end.

Definition sa_admit_key (p : SharedAccessPolicy) (grant : AccessGrant) (now : f64) : backend_op (option RateResult) :=
  match key_limits_of p grant with
  | None => b_ret None
  | Some key => admit_opt (sk_workspace key) now (admit_opt (sk_limiter key) now (b_ret None))
  end.

Fixpoint snapshot_limits (limits : list SharedLimit) (now : f64) : backend_op (list RateSnapshot) :=
  match limits with
  | [] => b_ret []
  | limit :: limits =>
      snapshot <-? (fun b => sb_snapshot b (sl_key limit) (sl_config limit) now);
      rest <-? snapshot_limits limits now;
      b_ret (option_list snapshot ++ rest)
  end.

Definition sa_snapshot (p : SharedAccessPolicy) (grant : AccessGrant) (now : f64) : backend_op (option RateSnapshot) :=
  snapshots <-? snapshot_limits (shared_limits p grant) now; b_ret (min_by_remaining snapshots).

Fixpoint add_tokens_limits (limits : list SharedLimit) (tokens : Z) (now : f64) : backend_op unit :=
  match limits with
  | [] => b_ret ()
  | limit :: limits =>
      _ <-? (fun b => sb_add_tokens b (sl_key limit) (sl_config limit) tokens now); add_tokens_limits limits tokens now
  end.

Definition sa_add_tokens (p : SharedAccessPolicy) (grant : AccessGrant) (tokens : Z) (now : f64) : backend_op unit :=
  add_tokens_limits (shared_limits p grant) tokens now.

(** Rolls entries back; the answer is whether one of them failed. *)
Fixpoint rollback_shared (entries : list SharedTokenReservation) (now : f64) (b : B) : B * bool :=
  match entries with
  | [] => (b, false)
  | entry :: entries =>
      let '(b, r) := sb_rollback b (sl_key (st_limit entry)) (sl_config (st_limit entry)) (st_reservation entry) now in
      let '(b, failed) := rollback_shared entries now b in
      (b, match r with Ok _ => failed | Err _ => true end)
  end.

Definition has_tpm (limit : SharedLimit) : bool := opt_is_some (slc_tpm (sl_config limit)).

(** The loop of [reserve_tokens], with the [degraded] flag. *)
Fixpoint shared_reserve_loop (limits : list SharedLimit) (entries : list SharedTokenReservation) (tokens : Z) (now : f64)
    (b : B) (degraded : bool) : B * bool * result FleetReservationDecision SharedReservationError :=
  match limits with
  | [] => (b, false, Ok (FleetReserved (map SharedEntry entries)))
  | limit :: limits =>
      let '(b, r) := sb_reserve_tokens b (sl_key limit) (sl_config limit) tokens now in
      match r with
      | Err error =>
          let '(b, failed) := rollback_shared (rev entries) now b in
          (b, degraded, Err (if failed then Unsafe error else Clean))
      | Ok result =>
          if negb (allowed (rate result)) then
            let '(b, failed) := rollback_shared (rev entries) now b in
            (b, if failed then true else degraded, Ok (FleetRejected (rate result)))
          else
            let entries :=
              match reservation result with
              | Some r => entries ++ [{| st_limit := limit; st_reservation := r |}]
              | None => entries
              end in
            shared_reserve_loop limits entries tokens now b degraded
      end
  end.

Definition sa_reserve_tokens (p : SharedAccessPolicy) (grant : AccessGrant) (tokens : Z) (now : f64) (b : B) (degraded : bool) :=
  shared_reserve_loop (List.filter has_tpm (shared_limits p grant)) [] tokens now b degraded.
End Fleet.

(** ** The policy over both *)
Record Fleet (B : Type) := {
  ft_backend : B;
  ft_limiters : store;
  ft_degraded : bool;
}.
Arguments ft_backend {B}.
Arguments ft_limiters {B}.
Arguments ft_degraded {B}.

Section Policy.
Context {B : Type} `{StateBackend B}.
Context (p : AccessPolicy) (shared : option SharedAccessPolicy).
Implicit Types f : Fleet B.

Definition with_limiters f (st : store) : Fleet B :=
  {| ft_backend := ft_backend f; ft_limiters := st; ft_degraded := ft_degraded f |}.

(** A process-local operation. *)
Definition locally {A} (op : store -> store * result A RateLimitError) f : Fleet B * result A AccessPolicyError :=
  let '(st, r) := op (ft_limiters f) in (with_limiters f st, map_err RateLimitFailed r).

(** The backend's answer, or the process-local one when it fails. *)
Definition or_locally {A} (op : backend_op (B := B) A) (local : store -> store * result A RateLimitError) f
    : Fleet B * result A AccessPolicyError :=
  match op (ft_backend f) with
  | (b, Ok x) => ({| ft_backend := b; ft_limiters := ft_limiters f; ft_degraded := false |}, Ok x)
  | (b, Err _) => locally local {| ft_backend := b; ft_limiters := ft_limiters f; ft_degraded := true |}
  end.

Definition admit_shared_global (now now' : f64) f : Fleet B * result (option RateResult) AccessPolicyError :=
  match shared with
  | None => locally (admit_global p now) f
  | Some shared => or_locally (sa_admit_global shared now) (admit_global p now') f
  end.

Definition admit_shared_key (grant : AccessGrant) (now now' : f64) f : Fleet B * result (option RateResult) AccessPolicyError :=
  match shared with
  | None => locally (admit_key p grant now) f
  | Some shared => or_locally (sa_admit_key shared grant now) (admit_key p grant now') f
  end.

Definition tightest_snapshot_shared (grant : AccessGrant) (now now' : f64) f : Fleet B * result (option RateSnapshot) AccessPolicyError :=
  match shared with
  | None => locally (tightest_snapshot p grant now) f
  | Some shared => or_locally (sa_snapshot shared grant now) (tightest_snapshot p grant now') f
  end.

(** A failure only sets the flag. *)
Definition add_shared_tokens (grant : AccessGrant) (tokens : Z) (now : f64) f : Fleet B * result unit AccessPolicyError :=
  match shared with
  | None => (f, Ok ())
  | Some shared =>
      match sa_add_tokens shared grant tokens now (ft_backend f) with
      | (b, Ok _) => ({| ft_backend := b; ft_limiters := ft_limiters f; ft_degraded := false |}, Ok ())
      | (b, Err _) => ({| ft_backend := b; ft_limiters := ft_limiters f; ft_degraded := true |}, Ok ())
      end
  end.

Definition state_degraded f : bool := match shared with Some _ => ft_degraded f | None => false end.
Definition state_backend_name f : str := match shared with Some _ => backend_name (ft_backend f) | None => lit "memory" end.
Definition uses_shared_state : bool := match shared with Some _ => true | None => false end.

Definition fleet_decision (d : TokenReservationDecision) : FleetReservationDecision :=
  match d with
  | Reserved entries => FleetReserved (map LocalEntry entries)
  | Rejected rate => FleetRejected rate
  end.

Definition reserve_locally (grant : AccessGrant) (tokens : Z) (now : f64) f :=
  let '(f, r) := locally (reserve_local_tokens p grant tokens now) f in (f, result_map fleet_decision r).

Definition reserve_tokens (grant : AccessGrant) (tokens : Z) (now : f64) f : Fleet B * result FleetReservationDecision AccessPolicyError :=
  match shared with
  | None => reserve_locally grant tokens now f
  | Some shared =>
      match sa_reserve_tokens shared grant tokens now (ft_backend f) (ft_degraded f) with
      | (b, degraded, Ok decision) => ({| ft_backend := b; ft_limiters := ft_limiters f; ft_degraded := degraded |}, Ok decision)
      | (b, _, Err Clean) => reserve_locally grant tokens now {| ft_backend := b; ft_limiters := ft_limiters f; ft_degraded := true |}
      | (b, _, Err (Unsafe e)) => ({| ft_backend := b; ft_limiters := ft_limiters f; ft_degraded := true |}, Err (StateBackendFailed e))
      end
  end.

(** [TokenReservation::reconcile]: the first failure ends it. *)
Fixpoint reconcile_entries (entries : list TokenReservationEntry) (actual_tokens : Z) (now : f64) f
    : Fleet B * result unit AccessPolicyError :=
  match entries with
  | [] => (f, Ok ())
  | LocalEntry entry :: entries =>
      let '(f, r) := locally (on_arc (lt_limiter entry) (fun s => reconcile_at s (lt_reservation entry) actual_tokens now)) f in
      match r with Ok _ => reconcile_entries entries actual_tokens now f | Err e => (f, Err e) end
  | SharedEntry entry :: entries =>
      let limit := st_limit entry in
      let '(b, r) := sb_reconcile (ft_backend f) (sl_key limit) (sl_config limit) (st_reservation entry) actual_tokens now in
      let f := {| ft_backend := b; ft_limiters := ft_limiters f; ft_degraded := ft_degraded f |} in
      match r with Ok _ => reconcile_entries entries actual_tokens now f | Err e => (f, Err (StateBackendFailed e)) end
  end.
End Policy.

(** ** Reservations a backend holds

    A backend that writes down the reservations it grants and the rollbacks it
    carries out. *)
Inductive token_call :=
| CallReserved (key : str) (r : RateReservation)
| CallRolledBack (key : str) (r : RateReservation).

Definition traced (B : Type) : Type := B * list token_call.

Definition silent {B A} (op : B -> B * result A StateBackendError) (t : traced B) : traced B * result A StateBackendError :=
  let '(b, r) := op t.1 in ((b, t.2), r).

Definition traced_reserve {B} (op : B -> B * result ReservationResult StateBackendError) (key : str) (t : traced B)
    : traced B * result ReservationResult StateBackendError :=
  let '(b, r) := op t.1 in
  ((b, match r with
       | Ok result => match reservation result with Some x => t.2 ++ [CallReserved key x] | None => t.2 end
       | Err _ => t.2
       end), r).

Definition traced_rollback {B} (op : B -> B * result bool StateBackendError) (key : str) (x : RateReservation) (t : traced B)
    : traced B * result bool StateBackendError :=
  let '(b, r) := op t.1 in ((b, match r with Ok _ => t.2 ++ [CallRolledBack key x] | Err _ => t.2 end), r).

#[export] Instance traced_backend {B} `{StateBackend B} : StateBackend (traced B) := {
  backend_name t := backend_name t.1;
  sb_admit t key c now := silent (fun b => sb_admit b key c now) t;
  sb_reserve t key c n now := traced_reserve (fun b => sb_reserve b key c n now) key t;
  sb_reserve_tokens t key c n now := traced_reserve (fun b => sb_reserve_tokens b key c n now) key t;
  sb_reconcile t key c r n now := silent (fun b => sb_reconcile b key c r n now) t;
  sb_rollback t key c r now := traced_rollback (fun b => sb_rollback b key c r now) key r t;
  sb_add_tokens t key c n now := silent (fun b => sb_add_tokens b key c n now) t;
  sb_snapshot t key c now := silent (fun b => sb_snapshot b key c now) t;
  sb_record_cost t o := silent (fun b => sb_record_cost b o) t;
  sb_spend t w s d := silent (fun b => sb_spend b w s d) t;
  sb_reserve_budget t r := silent (fun b => sb_reserve_budget b r) t;
  sb_release_budget t r := silent (fun b => sb_release_budget b r) t;
  sb_acquire_admission t n l m := silent (fun b => sb_acquire_admission b n l m) t;
  sb_release_admission t l := silent (fun b => sb_release_admission b l) t;
  sb_begin_provider_health t a n m q := silent (fun b => sb_begin_provider_health b a n m q) t;
  sb_complete_provider_health t a n m q ok := silent (fun b => sb_complete_provider_health b a n m q ok) t;
  sb_release_provider_health t a q := silent (fun b => sb_release_provider_health b a q) t;
  sb_shared_cache_get t g k := silent (fun b => sb_shared_cache_get b g k) t;
  sb_shared_cache_put t q := silent (fun b => sb_shared_cache_put b q) t;
  sb_shared_cache_clear t g := silent (fun b => sb_shared_cache_clear b g) t;
  sb_record_canary t o w now := silent (fun b => sb_record_canary b o w now) t;
  sb_canary_snapshot t r w now := silent (fun b => sb_canary_snapshot b r w now) t;
  sb_trip_canary t r x h now := silent (fun b => sb_trip_canary b r x h now) t;
  sb_append_audit t k e n := silent (fun b => sb_append_audit b k e n) t;
  sb_degraded t := sb_degraded t.1;
}.

(** What the backend still holds: a rollback takes back the last reservation,
    if it names it. *)
Definition settle_call (held : list (str * RateReservation)) (c : token_call) : list (str * RateReservation) :=
  match c with
  | CallReserved key r => held ++ [(key, r)]
  | CallRolledBack key r => if bool_decide (last held = Some (key, r)) then removelast held else held
  end.

Definition outstanding (log : list token_call) : list (str * RateReservation) := foldl settle_call [] log.

Definition held_by (entries : list SharedTokenReservation) : list (str * RateReservation) :=
  map (fun e => (sl_key (st_limit e), st_reservation e)) entries.

Definition shared_entries (entries : list TokenReservationEntry) : list SharedTokenReservation :=
  omap (fun e => match e with SharedEntry e => Some e | LocalEntry _ => None end) entries.

Lemma outstanding_snoc log c : outstanding (log ++ [c]) = settle_call (outstanding log) c.
Proof. unfold outstanding. by rewrite foldl_app. Qed.

Lemma shared_entries_map entries : shared_entries (map SharedEntry entries) = entries.
Proof. induction entries as [|e l IH]; [done|]. cbn. by f_equal. Qed.

Lemma shared_entries_local entries : shared_entries (map LocalEntry entries) = [].
Proof. by induction entries. Qed.

Section Settled.
Context {B : Type} `{StateBackendLaws B}.

Lemma rollback_settles entries now (t t' : traced B) failed :
  outstanding t.2 = held_by (rev entries) -> rollback_shared entries now t = (t', failed) -> failed = false -> outstanding t'.2 = [].
Proof.
  revert t failed. induction entries as [|e entries IH]; intros [b log] failed Ho Hr Hf; cbn [rollback_shared] in Hr.
  - injection Hr as <- <-. exact Ho.
  - cbn [sb_rollback traced_backend] in Hr. unfold traced_rollback in Hr. cbn [fst snd] in Hr, Ho.
    destruct (sb_rollback b _ _ _ now) as [b1 [x|err]].
    + destruct (rollback_shared entries now _) as [t1 failed1] eqn:Er. injection Hr as <- <-. eapply IH; [|exact Er|done].
      cbn [snd]. rewrite outstanding_snoc, Ho. cbn [rev]. unfold held_by. rewrite map_app. cbn [map settle_call].
      rewrite last_snoc, bool_decide_eq_true_2 by done. apply removelast_last.
    + destruct (rollback_shared entries now _) as [t1 failed1]. by injection Hr as _ <-.
Qed.

Lemma reserve_loop_settles limits entries tokens now (t t' : traced B) degraded degraded' r :
  outstanding t.2 = held_by entries -> shared_reserve_loop limits entries tokens now t degraded = (t', degraded', r) ->
  match r with
  | Ok (FleetReserved es) => exists es', es = map SharedEntry es' /\ outstanding t'.2 = held_by es' /\ degraded' = false
  | Ok (FleetRejected _) => outstanding t'.2 = [] \/ degraded' = true
  | Err Clean => outstanding t'.2 = []
  | Err (Unsafe _) => True
  end.
Proof.
  revert entries t. induction limits as [|limit limits IH]; intros entries [b log] Ho Hr; cbn [shared_reserve_loop] in Hr.
  - injection Hr as <- <- <-. by exists entries.
  - cbn [sb_reserve_tokens traced_backend] in Hr. unfold traced_reserve in Hr. cbn [fst snd] in Hr, Ho.
    destruct (sb_reserve_tokens b _ _ tokens now) as [b1 [res|err]] eqn:E.
    + set (log1 := match reservation res with Some x => log ++ [CallReserved (sl_key limit) x] | None => log end) in *.
      destruct (allowed (rate res)) eqn:Ea; cbn [negb] in Hr.
      * eapply IH; [|exact Hr]. cbn [snd]. unfold log1. destruct (reservation res) as [x|]; [|done].
        rewrite outstanding_snoc, Ho. cbn [settle_call]. unfold held_by. by rewrite map_app.
      * assert (log1 = log) as -> by (unfold log1; by rewrite (rejection_reserves_nothing _ _ _ _ _ _ _ E Ea)).
        destruct (rollback_shared (rev entries) now _) as [t1 failed] eqn:Er. injection Hr as <- <- <-.
        destruct failed; [by right|left]. eapply rollback_settles; [|exact Er|done]. cbn [snd]. by rewrite rev_involutive.
    + destruct (rollback_shared (rev entries) now _) as [t1 failed] eqn:Er. injection Hr as <- <- <-.
      destruct failed; [done|]. eapply rollback_settles; [|exact Er|done]. cbn [snd]. by rewrite rev_involutive.
Qed.
End Settled.

(** C16: A request is charged once.  Whatever the backend answers, a reservation
    that is granted on the fleet is held there by exactly the entries it
    returns, and no process-local limiter is charged; one that is granted or
    refused process-locally after a failure of the backend leaves nothing held
    on the fleet; a rejection by a fleet limit leaves nothing held unless the
    policy is marked degraded; and a request whose rollback failed is refused
    without being charged process-locally. *)
Theorem fleet_reservation_settles {B} `{StateBackendLaws B} p shared grant tokens now (b : B) st degraded f' r :
  reserve_tokens p (Some shared) grant tokens now {| ft_backend := (b, []) : traced B; ft_limiters := st; ft_degraded := degraded |} = (f', r) ->
  let held := outstanding (ft_backend f').2 in
  match r with
  | Ok (FleetReserved entries) =>
      held = held_by (shared_entries entries) /\ (ft_limiters f' = st /\ ft_degraded f' = false \/ held = [] /\ ft_degraded f' = true)
  | Ok (FleetRejected _) => held = [] \/ ft_limiters f' = st /\ ft_degraded f' = true
  | Err (StateBackendFailed _) => ft_limiters f' = st /\ ft_degraded f' = true
  | Err _ => held = [] /\ ft_degraded f' = true
  end.
Proof.
  unfold reserve_tokens, sa_reserve_tokens. cbn [ft_backend ft_limiters ft_degraded].
  destruct (shared_reserve_loop _ _ _ _ _ _) as [[t1 d1] res] eqn:Er. apply reserve_loop_settles in Er; [|done].
  destruct res as [[entries|rate]|[|e]].
  - intros [= <- <-]. destruct Er as (es & -> & Ho & ->). cbn [ft_backend ft_limiters ft_degraded]. rewrite shared_entries_map. auto.
  - intros [= <- <-]. cbn [ft_backend ft_limiters ft_degraded]. destruct Er as [Er|Er]; auto.
  - unfold reserve_locally, locally. cbn [ft_backend ft_limiters ft_degraded].
    destruct (reserve_local_tokens p grant tokens now st) as [st' [[entries|rate]|e]]; intros [= <- <-];
      cbn [with_limiters ft_backend ft_limiters ft_degraded]; [|by left|done].
    rewrite shared_entries_local. auto.
  - by intros [= <- <-].
Qed.

(** ** Closed runs *)
Definition tokens_per_minute (n : Z) : StateLimitConfig :=
  {| slc_rpm := None; slc_tpm := Some n; slc_window_seconds := f64_of_Z 60 |}.

Definition two_scopes : SharedAccessPolicy :=
  {| sa_global := Some {| sl_key := lit "global"; sl_config := tokens_per_minute 100 |};
     sa_keys := [{| sk_workspace := None; sk_limiter := Some {| sl_key := lit "virtual-key:a"; sl_config := tokens_per_minute 50 |} |}] |}.

Definition local_policy : AccessPolicy := {| global_limiter := None; policy_keys := []; ap_allow_unauthenticated_default := false |}.

Definition reserve_sample (tokens : Z) (b : MemoryStateBackend) : Fleet (traced MemoryStateBackend) * result FleetReservationDecision AccessPolicyError :=
  reserve_tokens local_policy (Some two_scopes) {| key_index := Some 0%nat |} tokens (f64_of_Z 1)
    {| ft_backend := (b, []); ft_limiters := []; ft_degraded := false |}.

Definition held_after (r : Fleet (traced MemoryStateBackend) * result FleetReservationDecision AccessPolicyError) : list str :=
  map fst (outstanding (ft_backend r.1).2).

(** Forty tokens fit both scopes; sixty fit only the first, and are taken back. *)
Example sample_fleet_reservations :
  held_after (reserve_sample 40 MemoryStateBackend_default) = [lit "global"; lit "virtual-key:a"] /\
  held_after (reserve_sample 60 MemoryStateBackend_default) = [] /\
  length (ft_backend (reserve_sample 60 MemoryStateBackend_default).1).2 = 2%nat.
Proof. vm_compute. repeat split. Qed.

Lemma fleet_reservation_settles_witness :
  exists rate, snd (reserve_sample 60 MemoryStateBackend_default) = Ok (FleetRejected rate) /\
    (outstanding (ft_backend (reserve_sample 60 MemoryStateBackend_default).1).2 = [] \/
     ft_limiters (reserve_sample 60 MemoryStateBackend_default).1 = [] /\ ft_degraded (reserve_sample 60 MemoryStateBackend_default).1 = true).
Proof.
  destruct (snd (reserve_sample 60 MemoryStateBackend_default)) as [[es|rate]|e] eqn:E; [vm_compute in E; discriminate E| |vm_compute in E; discriminate E].
  exists rate. split; [reflexivity|].
  apply (fleet_reservation_settles local_policy two_scopes {| key_index := Some 0%nat |} 60 (f64_of_Z 1) MemoryStateBackend_default [] false
           (reserve_sample 60 MemoryStateBackend_default).1 (Ok (FleetRejected rate))).
  rewrite <-E. apply surjective_pairing.
Defined.
