(* ===== verification/Reload.v ===== *)
(** * Hot reload (crate [wayfinder-gateway], [src/reload.rs])

    A holder of the last good snapshot.  The observed version advances before
    the loader runs, so a version that fails is tried once.  The loader runs
    under the holder's lock, so a refresh is one step; a poisoned lock is not
    modelled. *)
From S2P Require Export Prelude.

Section LastGood.
Context {T V E : Type} `{EqDecision V}.

Inductive ReloadOutcome :=
| Unchanged (current : T)
| Reloaded (current : T)
| Retained (current : T) (error : E).

(** The snapshot the request uses. *)
Definition outcome_current (o : ReloadOutcome) : T :=
  match o with Unchanged c | Reloaded c | Retained c _ => c end.

Record LastGood := {
  lg_version : V;
  lg_current : T;
  lg_failures : Z;
}.

Definition LastGood_new (initial : T) (version : V) : LastGood :=
  {| lg_version := version; lg_current := initial; lg_failures := 0 |}.

(** [refresh]; the flag says whether the loader was called. *)
Definition refresh (s : LastGood) (observed_version : V) (load : unit -> result T E) : LastGood * ReloadOutcome * bool :=
  if bool_decide (observed_version = lg_version s) then (s, Unchanged (lg_current s), false)
  else
    match load () with
    | Ok next => ({| lg_version := observed_version; lg_current := next; lg_failures := lg_failures s |}, Reloaded next, true)
    | Err error =>
        ({| lg_version := observed_version; lg_current := lg_current s; lg_failures := u64_sat_add (lg_failures s) 1 |},
         Retained (lg_current s) error, true)
    end.

(** ** Histories

    A request observes a version and would load that version's source. *)
Definition run_refresh (read : V -> result T E) (s : LastGood) (v : V) : LastGood := fst (fst (refresh s v (fun _ => read v))).

Definition run (read : V -> result T E) (s : LastGood) (vs : list V) : LastGood := foldl (run_refresh read) s vs.

(** The specification: drop the versions equal to the one before; those that
    are left are read once each; the last that reads is current. *)
Fixpoint changes (v : V) (vs : list V) : list V :=
  match vs with
  | [] => []
  | w :: vs => if bool_decide (w = v) then changes v vs else w :: changes w vs
  end.

Definition last_good (read : V -> result T E) (initial : T) (vs : list V) : T :=
  foldl (fun c v => match read v with Ok next => next | Err _ => c end) initial vs.

Definition failures (read : V -> result T E) (vs : list V) : Z := len (List.filter (fun v => negb (is_ok (read v))) vs).

(** How often the loader is called. *)
Fixpoint loads (read : V -> result T E) (s : LastGood) (vs : list V) : nat :=
  match vs with
  | [] => 0
  | v :: vs => let '(s', _, called) := refresh s v (fun _ => read v) in ((if called then 1 else 0) + loads read s' vs)%nat
  end.

Lemma sat_failures n k : 0 <= n -> 0 <= k -> u64_sat_add (Z.min n u64_max) k = Z.min (n + k) u64_max.
Proof. unfold u64_sat_add. lia. Qed.

Lemma last_cons_default {A} (v : A) vs d : List.last (v :: vs) d = List.last vs v.
Proof.
  revert v d. induction vs as [|w vs IH]; intros v d; [done|].
  change (List.last (v :: w :: vs) d) with (List.last (w :: vs) d). by rewrite !IH.
Qed.

Lemma run_spec read vs s n :
  0 <= n -> lg_failures s = Z.min n u64_max ->
  let s' := run read s vs in
  lg_version s' = List.last vs (lg_version s) /\
  lg_current s' = last_good read (lg_current s) (changes (lg_version s) vs) /\
  lg_failures s' = Z.min (n + failures read (changes (lg_version s) vs)) u64_max /\
  loads read s vs = length (changes (lg_version s) vs).
Proof.
  revert s n. induction vs as [|v vs IH]; intros s n Hn Hf; cbv zeta; cbn [run foldl changes loads].
  { split_and!; [done..| |done]. unfold failures. cbn. rewrite len_nil. by rewrite Hf, Z.add_0_r. }
  rewrite last_cons_default. fold (run read (run_refresh read s v) vs).
  assert (run_refresh read s v = fst (fst (refresh s v (fun _ => read v)))) as -> by done.
  unfold refresh. destruct (bool_decide (v = lg_version s)) eqn:Hv.
  { apply bool_decide_eq_true in Hv as ->. cbn [fst Nat.add]. by apply IH. }
  destruct (read v) as [next|e] eqn:Hr; cbn [fst].
  - destruct (IH {| lg_version := v; lg_current := next; lg_failures := lg_failures s |} n Hn Hf) as (H1 & H2 & H3 & H4).
    cbn [lg_version lg_current lg_failures] in *. split_and!; [done| | |].
    + rewrite H2. cbn [last_good foldl]. by rewrite Hr.
    + rewrite H3. unfold failures. cbn [List.filter]. by rewrite Hr.
    + cbn [length]. by rewrite H4.
  - destruct (IH {| lg_version := v; lg_current := lg_current s; lg_failures := u64_sat_add (lg_failures s) 1 |} (n + 1))
      as (H1 & H2 & H3 & H4); [lia|cbn [lg_failures]; rewrite Hf; apply sat_failures; lia|].
    cbn [lg_version lg_current lg_failures] in *. split_and!; [done| | |].
    + rewrite H2. cbn [last_good foldl]. by rewrite Hr.
    + rewrite H3. unfold failures. cbn [List.filter]. rewrite Hr. cbn [is_ok negb]. rewrite len_cons. f_equal. lia.
    + cbn [length]. by rewrite H4.
Qed.

(** C33: Over every sequence of requests, each observing a source version: the
    holder answers with the last snapshot that loaded among the versions
    observed, starting from the initial one; it calls the loader exactly once
    per change of version, so a version that fails is not retried until the
    version changes again; and it counts the failures. *)
Theorem reload_refines_last_good read initial v0 vs :
  let s := run read (LastGood_new initial v0) vs in
  lg_current s = last_good read initial (changes v0 vs) /\
  lg_version s = List.last vs v0 /\
  lg_failures s = Z.min (failures read (changes v0 vs)) u64_max /\
  loads read (LastGood_new initial v0) vs = length (changes v0 vs).
Proof. destruct (run_spec read vs (LastGood_new initial v0) 0) as (H1 & H2 & H3 & H4); [done|done|]. by split_and!. Qed.

(** What every loaded snapshot and the initial one have, the current one has. *)
Lemma run_keeps (P : T -> Prop) read s vs :
  P (lg_current s) -> (forall v next, read v = Ok next -> P next) -> P (lg_current (run read s vs)).
Proof.
  intros Hs Hr. unfold run. revert s Hs. induction vs as [|v vs IH]; intros s Hs; [done|]. cbn [foldl]. apply IH.
  unfold run_refresh, refresh. destruct (bool_decide _); [done|]. destruct (read v) eqn:Hv; cbn [fst lg_current]; [by eapply Hr|done].
Qed.
End LastGood.
Arguments LastGood T V : clear implicits.
Arguments ReloadOutcome T E : clear implicits.
