(* ===== verification/OutcomePolicy.v ===== *)
(** * Proposals from user outcomes (crate [wayfinder-gateway], [src/outcome_policy.rs])

    [propose_local_threshold] reads the labelled receipts of a workspace and may
    propose a lower threshold for the hosted tier of a two-tier ladder.  The
    report is reviewed by an operator; nothing applies it. *)
From S2P Require Export Models Recent.
From S2P Require Import RoutingParse.

Definition OUTCOME_POLICY_SCHEMA_VERSION : str := lit "wf-local-outcome-policy-v1".

Inductive BoundaryClass := LocalClass | HostedClass.

#[export] Instance BoundaryClass_eq_dec : EqDecision BoundaryClass.
Proof. solve_decision. Defined.

Record OutcomePolicyReport := {
  op_schema_version : str;
  op_workspace_id : str;
  op_retention : string;
  op_disposition : string;
  op_reason : message;
  op_current_tiers : list Tier;
  op_proposed_tiers : list Tier;
  op_current_threshold : option f64;
  op_proposed_threshold : option f64;
  op_labelled : Z;
  op_actionable_local : Z;
  op_local_successes : Z;
  op_local_negatives : Z;
  op_confounded_cross_boundary : Z;
  op_hosted_selected : Z;
  op_non_scored : Z;
  op_unknown_boundary : Z;
  op_reclassified_local_successes : Z;
  op_limitations : list string;
}.

(** ** Boundaries *)
Definition selected_boundary (models : list ConfiguredModel) (name : str) : option BoundaryClass :=
  (fun m => match m_tier m with Some LocalTier => LocalClass | None => HostedClass end)
    <$> (snd <$> list_find (fun m => m_name m = name) models).

Definition actual_boundary (b : ExecutionBoundary) : BoundaryClass :=
  match b with OnDevice | LocalNetwork => LocalClass | Hosted => HostedClass end.

(** ** Reading the entries *)

(** The counters of the loop, and the scores it keeps. *)
Record Evidence := {
  ev_labelled : Z;
  ev_actionable : Z;
  ev_successes : Z;
  ev_negatives : Z;
  ev_confounded : Z;
  ev_hosted : Z;
  ev_non_scored : Z;
  ev_unknown : Z;
  negative_scores : list f64;
  successful_scores : list f64;
}.

Definition no_evidence : Evidence :=
  {| ev_labelled := 0; ev_actionable := 0; ev_successes := 0; ev_negatives := 0; ev_confounded := 0; ev_hosted := 0;
     ev_non_scored := 0; ev_unknown := 0; negative_scores := []; successful_scores := [] |}.

(** How one labelled entry counts. *)
Inductive Reading :=
| NonScored
| UnknownBoundary
| Confounded
| HostedSelected
| LocalSuccess (score : f64)
| LocalNegative (score : f64).

Definition reading_of (models : list ConfiguredModel) (lower : str) (e : RecentEntry) (label : UserOutcome) : Reading :=
  if negb (is_scored e) then NonScored
  else match selected_boundary models (re_model e) with
  | None => UnknownBoundary
  | Some selected =>
      match actual_boundary <$> execution_boundary e with
      | None => UnknownBoundary
      | Some actual =>
          if bool_decide (selected <> actual) then Confounded
          else if negb (str_eqb (re_model e) lower) then HostedSelected
          else match label with
          | Success => LocalSuccess (re_score e)
          | Correction | Failure => LocalNegative (re_score e)
          end
      end
  end.

Definition tally (ev : Evidence) (r : Reading) : Evidence :=
  {| ev_labelled := u64_sat_add (ev_labelled ev) 1;
     ev_actionable := match r with LocalSuccess _ | LocalNegative _ => u64_sat_add (ev_actionable ev) 1 | _ => ev_actionable ev end;
     ev_successes := match r with LocalSuccess _ => u64_sat_add (ev_successes ev) 1 | _ => ev_successes ev end;
     ev_negatives := match r with LocalNegative _ => u64_sat_add (ev_negatives ev) 1 | _ => ev_negatives ev end;
     ev_confounded := match r with Confounded => u64_sat_add (ev_confounded ev) 1 | _ => ev_confounded ev end;
     ev_hosted := match r with HostedSelected => u64_sat_add (ev_hosted ev) 1 | _ => ev_hosted ev end;
     ev_non_scored := match r with NonScored => u64_sat_add (ev_non_scored ev) 1 | _ => ev_non_scored ev end;
     ev_unknown := match r with UnknownBoundary => u64_sat_add (ev_unknown ev) 1 | _ => ev_unknown ev end;
     negative_scores := match r with LocalNegative x => negative_scores ev ++ [x] | _ => negative_scores ev end;
     successful_scores := match r with LocalSuccess x => successful_scores ev ++ [x] | _ => successful_scores ev end |}.

Definition read_entry (models : list ConfiguredModel) (workspace lower : str) (ev : Evidence) (e : RecentEntry) : Evidence :=
  if negb (in_workspace workspace e) then ev
  else match user_outcome e with None => ev | Some label => tally ev (reading_of models lower e label) end.

Definition gather (models : list ConfiguredModel) (workspace lower : str) (entries : list RecentEntry) : Evidence :=
  foldl (read_entry models workspace lower) no_evidence entries.

(** ** The report *)
Definition limitations : list string :=
  ["the proposal uses only explicit prompt-free labels on currently retained receipts";
   "cross-boundary fallback labels are confounded and never drive a threshold change";
   "the proposal can narrow local routing but cannot expand it";
   "the proposal never edits, activates, or reloads policy";
   "retained labels may be sparse or selection-biased"].

Definition outcome_report (workspace : str) (tiers : list Tier) (ev : Evidence) (current : option f64) (disposition : string) (reason : message)
    (proposed : option f64) (proposed_tiers : list Tier) (reclassified : Z) : OutcomePolicyReport :=
  {| op_schema_version := OUTCOME_POLICY_SCHEMA_VERSION; op_workspace_id := workspace;
     op_retention := "process-local-bounded-shared-ring"; op_disposition := disposition; op_reason := reason;
     op_current_tiers := tiers; op_proposed_tiers := proposed_tiers; op_current_threshold := current; op_proposed_threshold := proposed;
     op_labelled := ev_labelled ev; op_actionable_local := ev_actionable ev; op_local_successes := ev_successes ev;
     op_local_negatives := ev_negatives ev; op_confounded_cross_boundary := ev_confounded ev; op_hosted_selected := ev_hosted ev;
     op_non_scored := ev_non_scored ev; op_unknown_boundary := ev_unknown ev; op_reclassified_local_successes := reclassified;
     op_limitations := limitations |}.

(** The least finite negative score, within the two thresholds. *)
Definition threshold_of (lower upper : f64) (negatives : list f64) : f64 :=
  f64_clamp (foldl f64_min upper (filter (fun score => f64_is_finite score = true) negatives)) lower upper.

Definition with_min_score (t : Tier) (score : f64) : Tier :=
  {| min_score := score; tier_model := tier_model t; tier_cost := tier_cost t |}.

Definition supported (routing : RoutingConfig) (models : list ConfiguredModel) : option (Tier * Tier) :=
  match cfg_classifier routing, cfg_tiers routing with
  | None, [lower; upper] =>
      if negb (f64_eq (min_score lower) f64_zero) || negb (f64_is_finite (min_score upper))
         || f64_le (min_score upper) (min_score lower)
         || bool_decide (selected_boundary models (tier_model lower) <> Some LocalClass)
         || bool_decide (selected_boundary models (tier_model upper) <> Some HostedClass)
      then None else Some (lower, upper)
  | _, _ => None
  end.

Definition propose_local_threshold (workspace : str) (routing : RoutingConfig) (models : list ConfiguredModel)
    (entries : list RecentEntry) : OutcomePolicyReport :=
  let tiers := cfg_tiers routing in
  match supported routing models with
  | None =>
      outcome_report workspace tiers no_evidence None "unsupported-policy"
        (Msg "a review-only proposal requires a two-tier scored local/hosted policy" []) None [] 0
  | Some (lower, upper) =>
      let ev := gather models workspace (tier_model lower) entries in
      let unchanged disposition reason := outcome_report workspace tiers ev (Some (min_score upper)) disposition (Msg reason []) None [] 0 in
      if ev_labelled ev =? 0 then
        unchanged "insufficient-evidence"%string "no explicit outcome labels are retained for this workspace"%string
      else if ev_actionable ev =? 0 then
        unchanged "no-actionable-local-evidence"%string "retained labels do not directly observe a scored local selection"%string
      else if bool_decide (negative_scores ev = []) then
        unchanged "retain"%string "no actionable local correction or failure justifies narrowing local routing"%string
      else
        let threshold := threshold_of (min_score lower) (min_score upper) (negative_scores ev) in
        if f64_ge threshold (min_score upper) then
          unchanged "retain"%string "actionable negative labels do not fall below the current hosted threshold"%string
        else
          let threshold := python_round threshold 6 in
          let reclassified :=
            len (filter (fun score => f64_ge score threshold && f64_lt score (min_score upper) = true) (successful_scores ev)) in
          outcome_report workspace tiers ev (Some (min_score upper)) "propose-narrower-local-range"
            (Msg "lower the hosted threshold from {:.6} to {:.6} so every actionable negative local score escalates; {} labelled local successes would also escalate"
               [ArgFloat (min_score upper); ArgFloat threshold; ArgInt reclassified])
            (Some threshold) [lower; with_min_score upper threshold] reclassified
  end.

(** ** What a proposal means *)
Lemma fold_min_le upper scores : f64_is_nan upper = false -> Forall (fun s => f64_is_finite s = true) scores ->
  let m := foldl f64_min upper scores in
  f64_le m upper = true /\ f64_is_nan m = false /\ Forall (fun s => f64_le m s = true) scores.
Proof.
  revert upper. induction scores as [|s scores IH]; intros upper Hu Hs; cbv zeta; cbn [foldl]; [split_and!; [by apply f64_not_nan_le_refl|done|constructor]|].
  apply Forall_cons in Hs as [Hs Hrest]. pose proof (f64_finite_not_nan _ Hs) as Hn.
  pose proof (f64_min_le_l upper s Hu) as Hl. pose proof (f64_min_le_r upper s Hn) as Hr.
  destruct (IH (f64_min upper s) (proj1 (f64_le_not_nan _ _ Hl)) Hrest) as (H1 & H2 & H3). split_and!; [by eapply f64_le_trans|done|].
  constructor; [by eapply f64_le_trans|done].
Qed.

Lemma fold_min_in upper scores : foldl f64_min upper scores = upper \/ foldl f64_min upper scores ∈ scores.
Proof.
  revert upper. induction scores as [|s scores IH]; intros upper; cbn [foldl]; [by left|].
  destruct (IH (f64_min upper s)) as [->|?]; [|right; by right].
  unfold f64_min. repeat case_match; auto; right; left.
Qed.

(** The cut is one of the scores, or one of the two thresholds. *)
Lemma threshold_of_in lower upper negatives :
  let raw := threshold_of lower upper negatives in raw = lower \/ raw = upper \/ raw ∈ negatives.
Proof.
  cbv zeta. unfold threshold_of, f64_clamp.
  destruct (fold_min_in upper (filter (fun score => f64_is_finite score = true) negatives)) as [->|Hin].
  - repeat case_match; auto.
  - apply list_elem_of_filter in Hin as [_ Hin]. repeat case_match; auto.
Qed.

Lemma threshold_of_spec lower upper negatives : f64_is_nan upper = false -> f64_le lower upper = true ->
  let raw := threshold_of lower upper negatives in
  f64_le lower raw = true /\ f64_le raw upper = true /\
  Forall (fun s => f64_is_finite s = true -> f64_le lower s = true -> f64_le raw s = true) negatives.
Proof.
  intros Hu Hle. unfold threshold_of. set (scores := filter _ negatives).
  assert (Hf : Forall (fun s => f64_is_finite s = true) scores) by (apply Forall_forall; intros s [? _]%list_elem_of_filter; done).
  destruct (fold_min_le upper scores Hu Hf) as (H1 & H2 & H3). cbv zeta in *. set (m := foldl f64_min upper scores) in *.
  destruct (f64_le_not_nan _ _ Hle) as [Hln _]. unfold f64_clamp.
  assert (Hin : forall s, s ∈ negatives -> f64_is_finite s = true -> f64_le m s = true).
  { intros s Hs Hfs. rewrite Forall_forall in H3. apply H3. by apply list_elem_of_filter. }
  destruct (f64_lt m lower) eqn:Em; rewrite f64_gt_lt.
  - assert (f64_lt upper lower = false) as ->.
    { destruct (f64_lt upper lower) eqn:E; [|done]. apply f64_lt_not_ge in E. congruence. }
    split_and!; [by apply f64_not_nan_le_refl|done|]. apply Forall_forall. auto.
  - assert (f64_lt upper m = false) as ->.
    { destruct (f64_lt upper m) eqn:E; [|done]. apply f64_lt_not_ge in E. congruence. }
    split_and!; [by apply f64_not_lt_ge|done|]. apply Forall_forall. auto.
Qed.

Lemma supported_spec routing models lower upper : supported routing models = Some (lower, upper) ->
  cfg_classifier routing = None /\ cfg_tiers routing = [lower; upper] /\ f64_eq (min_score lower) f64_zero = true /\
  f64_is_finite (min_score upper) = true /\ f64_le (min_score upper) (min_score lower) = false /\
  selected_boundary models (tier_model lower) = Some LocalClass /\ selected_boundary models (tier_model upper) = Some HostedClass.
Proof.
  unfold supported. destruct (cfg_classifier routing); [done|]. destruct (cfg_tiers routing) as [|l [|u [|? ?]]]; try done.
  destruct (f64_eq (min_score l) f64_zero) eqn:E1; cbn [negb orb]; [|done]. destruct (f64_is_finite (min_score u)) eqn:E2; cbn [negb orb]; [|done].
  destruct (f64_le (min_score u) (min_score l)) eqn:E3; cbn [orb]; [done|].
  case_bool_decide as E4; cbn [orb]; [done|]. case_bool_decide as E5; [done|]. by intros [= <- <-].
Qed.

Lemma read_entry_keeps models workspace lower ev e s : s ∈ negative_scores ev -> s ∈ negative_scores (read_entry models workspace lower ev e).
Proof.
  intros Hs. unfold read_entry. destruct (negb _); [done|]. destruct (user_outcome e) as [label|]; [|done]. unfold tally. cbn [negative_scores].
  destruct (reading_of _ _ _ _); try done. apply elem_of_app. by left.
Qed.

Lemma gather_negative models workspace lower entries ev e label score : e ∈ entries -> in_workspace workspace e = true ->
  user_outcome e = Some label -> reading_of models lower e label = LocalNegative score ->
  score ∈ negative_scores (foldl (read_entry models workspace lower) ev entries).
Proof.
  intros He Hw Hl Hr. revert ev. induction entries as [|e' entries IH]; intros ev; [by apply not_elem_of_nil in He|]. cbn [foldl].
  apply elem_of_cons in He as [<-|He]; [|by apply IH].
  assert (Hin : score ∈ negative_scores (read_entry models workspace lower ev e)).
  { unfold read_entry. rewrite Hw, Hl. cbn [negb]. unfold tally. cbn [negative_scores]. rewrite Hr. apply elem_of_app. right. by apply list_elem_of_singleton. }
  clear IH. revert Hin. generalize (read_entry models workspace lower ev e). induction entries as [|e2 entries IH]; intros ev2 Hin; cbn [foldl]; [done|].
  apply IH. by apply read_entry_keeps.
Qed.

Lemma f64_eq_not_nan a b : f64_eq a b = true -> f64_is_nan a = false.
Proof. by destruct a. Qed.

Lemma round_zero lower : f64_eq lower f64_zero = true -> python_round lower 6 = lower.
Proof. destruct lower as [[]|[]| |[]]; try discriminate; intros _; vm_compute; reflexivity. Qed.

(** A labelled correction or failure of an answer that the workspace's scored
    routing chose the local model for and that ran locally. *)
Definition actionable_negative (workspace : str) (lower : Tier) (e : RecentEntry) : Prop :=
  re_workspace e = Some workspace /\ (exists label, user_outcome e = Some label /\ label <> Success) /\
  re_mode e = lit "scored" /\ re_model e = tier_model lower /\ actual_boundary <$> execution_boundary e = Some LocalClass.

Lemma reading_negative models lower e label score : selected_boundary models (tier_model lower) = Some LocalClass ->
  reading_of models (tier_model lower) e label = LocalNegative score <->
  label <> Success /\ re_mode e = lit "scored" /\ re_model e = tier_model lower /\
  actual_boundary <$> execution_boundary e = Some LocalClass /\ score = re_score e.
Proof.
  intros Hsel. unfold reading_of, is_scored. split.
  - destruct (str_eqb (re_mode e) _) eqn:Em; cbn [negb]; [|done]. apply str_eqb_eq in Em.
    destruct (selected_boundary models (re_model e)) as [selected|] eqn:Es; [|done].
    destruct (actual_boundary <$> execution_boundary e) as [actual|] eqn:Ea; [|done]. case_bool_decide as Eb; [done|].
    destruct (str_eqb (re_model e) _) eqn:El; cbn [negb]; [|done]. apply str_eqb_eq in El.
    rewrite El, Hsel in Es. injection Es as <-. subst actual.
    destruct label; [done|..]; by intros [= <-].
  - intros (Hl & -> & -> & -> & ->). rewrite str_eqb_refl, Hsel, str_eqb_refl. cbn [negb].
    rewrite bool_decide_eq_false_2 by auto. by destruct label.
Qed.

Lemma gather_source models workspace lower entries ev score : selected_boundary models (tier_model lower) = Some LocalClass ->
  score ∈ negative_scores (foldl (read_entry models workspace (tier_model lower)) ev entries) ->
  score ∈ negative_scores ev \/ exists e, e ∈ entries /\ actionable_negative workspace lower e /\ score = re_score e.
Proof.
  intros Hsel. revert ev. induction entries as [|e entries IH]; intros ev Hs; cbn [foldl] in Hs; [by left|].
  destruct (IH _ Hs) as [Hin|(e' & He' & Hx)]; [|right; exists e'; split; [by right|done]].
  revert Hin. unfold read_entry. destruct (in_workspace workspace e) eqn:Ew; cbn [negb]; [|by left].
  apply bool_decide_eq_true in Ew. destruct (user_outcome e) as [label|] eqn:El; [|by left]. unfold tally. cbn [negative_scores].
  destruct (reading_of _ _ _ _) eqn:Er; try by left. intros [Hx|Hx]%elem_of_app; [by left|].
  apply list_elem_of_singleton in Hx as ->. apply reading_negative in Er as (? & ? & ? & ? & ->); [|done].
  right. exists e. split; [left|]. split; [|done]. split_and!; eauto.
Qed.

(** The scores kept as negative are those of the actionable negative entries. *)
Lemma gather_negative_iff models workspace lower entries score :
  selected_boundary models (tier_model lower) = Some LocalClass ->
  score ∈ negative_scores (gather models workspace (tier_model lower) entries) <->
  exists e, e ∈ entries /\ actionable_negative workspace lower e /\ score = re_score e.
Proof.
  intros Hsel. split.
  - intros Hs. destruct (gather_source models workspace lower entries no_evidence score Hsel Hs) as [Hx|]; [|done].
    by apply not_elem_of_nil in Hx.
  - intros (e & He & (Hw & (label & Hl & Hn) & Hm & Hmo & Ha) & ->).
    apply (gather_negative _ _ _ _ _ e label (re_score e)); [done|by apply bool_decide_eq_true|done|].
    by apply reading_negative.
Qed.

(** C24: A proposal only narrows local routing, when the scores of the receipts it
    reads have at most six decimals.  The hosted threshold it proposes lies
    between the two thresholds in force and strictly below the hosted one; it is
    the score of a correction or failure of a scored local answer of the
    workspace, or the local threshold; and every such answer with a finite score
    above the local threshold escalates under it.  (The code rounds the cut to
    six decimals after comparing it: with a longer score the rounded threshold
    may pass both the score and the hosted threshold.) *)
Theorem proposal_narrows workspace routing models entries threshold :
  op_proposed_threshold (propose_local_threshold workspace routing models entries) = Some threshold ->
  Forall (fun e => python_round (re_score e) 6 = re_score e) entries ->
  exists lower upper,
    cfg_tiers routing = [lower; upper] /\
    op_proposed_tiers (propose_local_threshold workspace routing models entries) = [lower; with_min_score upper threshold] /\
    f64_le (min_score lower) threshold = true /\ f64_lt threshold (min_score upper) = true /\
    (threshold = min_score lower \/ exists e, e ∈ entries /\ actionable_negative workspace lower e /\ threshold = re_score e) /\
    forall e, e ∈ entries -> actionable_negative workspace lower e -> f64_is_finite (re_score e) = true ->
      f64_le (min_score lower) (re_score e) = true -> f64_ge (re_score e) threshold = true.
Proof.
  unfold propose_local_threshold. destruct (supported routing models) as [[lower upper]|] eqn:Es; [|done].
  apply supported_spec in Es as (_ & Htiers & Hzero & Hfin & Hle & Hsel & _). set (ev := gather _ _ _ _). cbv zeta.
  destruct (ev_labelled ev =? 0); [done|]. destruct (ev_actionable ev =? 0); [done|]. destruct (bool_decide (negative_scores ev = [])); [done|].
  destruct (f64_ge (threshold_of _ _ _) (min_score upper)) eqn:Eg; [done|]. cbn [outcome_report op_proposed_threshold op_proposed_tiers].
  intros [= <-] Hround. exists lower, upper. rewrite Forall_forall in Hround.
  assert (Hnu : f64_is_nan (min_score upper) = false) by by apply f64_finite_not_nan.
  pose proof (f64_eq_not_nan _ _ Hzero) as Hnl.
  assert (Hlu : f64_le (min_score lower) (min_score upper) = true) by (by apply f64_lt_le, f64_not_le_gt).
  destruct (threshold_of_spec (min_score lower) (min_score upper) (negative_scores ev) Hnu Hlu) as (H1 & H2 & H3).
  pose proof (threshold_of_in (min_score lower) (min_score upper) (negative_scores ev)) as Hin. cbv zeta in Hin.
  set (raw := threshold_of _ _ _) in *. rewrite f64_ge_le in Eg.
  assert (raw = min_score lower \/ exists e, e ∈ entries /\ actionable_negative workspace lower e /\ raw = re_score e) as Hraw.
  { destruct Hin as [?|[Heq|Hs]]; [by left| |right; by apply gather_negative_iff in Hs].
    rewrite Heq in Eg. by rewrite f64_not_nan_le_refl in Eg. }
  assert (python_round raw 6 = raw) as ->.
  { destruct Hraw as [->|(e & He & _ & ->)]; [by apply round_zero|by apply Hround]. }
  split_and!; [done|done|done|apply f64_not_le_gt; [done|apply (f64_le_not_nan _ _ H1)|done]|done|].
  intros e He Hneg Hfs Hls. rewrite f64_ge_le. rewrite Forall_forall in H3. apply H3; [|done|done].
  apply gather_negative_iff; [done|]. by exists e.
Qed.

(** ** Examples *)
Definition sample_model (name : string) (tier : option ProviderTier) : ConfiguredModel :=
  let m := ConfiguredModel_new (lit name) (lit "http://localhost:1234/v1") (lit name) None true in
  {| m_name := m_name m; m_endpoint := m_endpoint m; m_provider_model := m_provider_model m; m_provider := m_provider m; m_tier := tier;
     m_api_key_env := m_api_key_env m; m_key_ready := m_key_ready m; m_base_key_ready := m_base_key_ready m; m_cost_per_1k := m_cost_per_1k m;
     m_fallbacks := m_fallbacks m; m_context_window := m_context_window m; m_deployments := m_deployments m;
     m_deployment_selection := m_deployment_selection m; m_deployment_id := m_deployment_id m |}.

Definition sample_models : list ConfiguredModel := [sample_model "local" (Some LocalTier); sample_model "cloud" None].

Definition sample_routing : RoutingConfig :=
  {| cfg_weights := default_weights; cfg_tiers := [Tier_new f64_zero (lit "local"); Tier_new (f64_dec 5 1) (lit "cloud")];
     cfg_classifier := None; cfg_lexicon := default_lexicon |}.

(** A scored local answer of the workspace [w], labelled as a failure. *)
Definition failed_at (score : f64) : RecentEntry :=
  {| request_id := lit "r"; re_model := lit "local"; re_score := score; re_mode := lit "scored"; policy_version := None; snapshot_id := None;
     policy_profile := None; served_by := Some (lit "local"); execution_boundary := Some OnDevice; outcome := Some Succeeded;
     user_outcome := Some Failure; http_status := Some 200; error_type := None; re_ts := f64_zero; re_cost := None; re_key := None;
     re_workspace := Some (lit "w"); re_cache := None |}.

Lemma proposal_narrows_witness : exists lower upper,
  cfg_tiers sample_routing = [lower; upper] /\
  op_proposed_tiers (propose_local_threshold (lit "w") sample_routing sample_models [failed_at (f64_dec 3 1)]) = [lower; with_min_score upper (f64_dec 3 1)] /\
  f64_le (min_score lower) (f64_dec 3 1) = true /\ f64_lt (f64_dec 3 1) (min_score upper) = true /\
  (f64_dec 3 1 = min_score lower \/
   exists e, e ∈ [failed_at (f64_dec 3 1)] /\ actionable_negative (lit "w") lower e /\ f64_dec 3 1 = re_score e) /\
  forall e, e ∈ [failed_at (f64_dec 3 1)] -> actionable_negative (lit "w") lower e -> f64_is_finite (re_score e) = true ->
    f64_le (min_score lower) (re_score e) = true -> f64_ge (re_score e) (f64_dec 3 1) = true.
Proof.
  apply (proposal_narrows (lit "w") sample_routing sample_models [failed_at (f64_dec 3 1)] (f64_dec 3 1)).
  - vm_compute. reflexivity.
  - constructor; [vm_compute; reflexivity|constructor].
Defined.

(** Longer scores: the rounded threshold passes the hosted one, and a failure
    stays local under the threshold it proposes. *)
Definition close_routing : RoutingConfig :=
  {| cfg_weights := default_weights; cfg_tiers := [Tier_new f64_zero (lit "local"); Tier_new (f64_dec 4999996 7) (lit "cloud")];
     cfg_classifier := None; cfg_lexicon := default_lexicon |}.

Example rounding_raises_threshold :
  op_proposed_threshold (propose_local_threshold (lit "w") close_routing sample_models [failed_at (f64_dec 49999958 8)]) = Some (f64_dec 5 1) /\
  f64_gt (f64_dec 5 1) (f64_dec 4999996 7) = true.
Proof. vm_compute. split; reflexivity. Qed.

Example rounding_keeps_failure_local :
  op_proposed_threshold (propose_local_threshold (lit "w") sample_routing sample_models [failed_at (f64_dec 3000006 7)]) = Some (f64_dec 300001 6) /\
  f64_ge (f64_dec 3000006 7) (f64_dec 300001 6) = false.
Proof. vm_compute. split; reflexivity. Qed.

(** A failure at score zero proposes the threshold zero for the hosted tier too:
    a ladder that [parse_tiers] refuses as not strictly ascending. *)
Example zero_score_proposal_unusable :
  let report := propose_local_threshold (lit "w") sample_routing sample_models [failed_at f64_zero] in
  op_disposition report = "propose-narrower-local-range"%string /\ op_proposed_threshold report = Some f64_zero /\
  not_ascending (op_proposed_tiers report) = true.
Proof. vm_compute. done. Qed.
