(* ===== verification/ProjectValue.v ===== *)
(** * Project value reports (crate [wayfinder-gateway], [src/project_value.rs])

    A workspace's accounting, delivery and quality evidence put together with the
    limits of that evidence.  Nothing is decided from the report. *)
From S2P Require Export Ledger Recent.

Definition PROJECT_VALUE_SCHEMA_VERSION : str := lit "wf-project-value-v1".

Record ProjectAccountingReport := {
  pa_period_days : option Z;
  pa_through_utc : str;
  pa_first_observed_utc : option str;
  pa_last_observed_utc : option str;
  pa_attribution_scope : string;
  pa_unit : str;
  pa_priced : bool;
  pa_requests : Z;
  pa_estimated_requests : Z;
  pa_tokens : Z;
  pa_realized : f64;
  pa_baseline : f64;
  pa_saved : f64;
  pa_saved_pct : f64;
  pa_by_route : btree SavingsBreakdown;
}.

Definition from_workspace (report : WorkspaceSavingsReport) (through_utc : str) : ProjectAccountingReport :=
  let r := wr_report report in
  {| pa_period_days := sr_period_days r; pa_through_utc := through_utc; pa_first_observed_utc := wr_first_observed_utc report;
     pa_last_observed_utc := wr_last_observed_utc report;
     pa_attribution_scope := "workspace-attributed-requests-recorded-after-schema-activation";
     pa_unit := sr_unit r; pa_priced := sr_priced r; pa_requests := sr_requests r; pa_estimated_requests := sr_estimated_requests r;
     pa_tokens := sr_tokens r; pa_realized := sr_realized r; pa_baseline := sr_baseline r; pa_saved := sr_saved r;
     pa_saved_pct := sr_saved_pct r; pa_by_route := sr_by_route r |}.

Record ProjectBaseline := {
  pb_kind : string;
  pb_routes : list str;
  pb_rate_per_1k : f64;
  pb_unit : str;
  pb_price_table_version : str;
}.

Record ProjectQualityReport := {
  pq_status : string;
  pq_eligible_receipts : Z;
  pq_labelled_receipts : Z;
  pq_coverage_pct : option f64;
  pq_correction_rate_pct : option f64;
  pq_failure_rate_pct : option f64;
  pq_reason : string;
}.

Record ProjectValueReport := {
  pv_schema_version : str;
  pv_workspace_id : str;
  pv_generated_at_ts : f64;
  pv_accounting : ProjectAccountingReport;
  pv_delivery : RecentWorkspaceReport;
  pv_quality : ProjectQualityReport;
  pv_baseline : ProjectBaseline;
  pv_limitations : list string;
}.

(** The rates are those of [Recent.failure_rate]: a percentage of a positive
    whole, rounded to one place. *)
Definition quality_of (d : RecentWorkspaceReport) : ProjectQualityReport :=
  {| pq_status := if 0 <? user_labelled d then "collected" else "not-collected";
     pq_eligible_receipts := terminal d; pq_labelled_receipts := user_labelled d;
     pq_coverage_pct := failure_rate (user_labelled d) (terminal d);
     pq_correction_rate_pct := failure_rate (user_corrections d) (user_labelled d);
     pq_failure_rate_pct := failure_rate (user_failures d) (user_labelled d);
     pq_reason := if 0 <? user_labelled d then "rates use only explicit prompt-free user outcomes on retained terminal receipts"
                  else "no retained terminal receipt has an explicit user outcome label" |}.

Definition when (b : bool) (text : string) : list string := if b then [text] else [].

Definition limitations_of (a : ProjectAccountingReport) (d : RecentWorkspaceReport) : list string :=
  ["pre-activation aggregate accounting has no workspace attribution";
   "delivery evidence is bounded to the current process shared ring";
   "historical amounts retain their recorded baseline but not each prior price-table fingerprint"]%string ++
  (if user_labelled d =? 0 then ["correction evidence is unavailable until explicit outcome labels exist"%string]
   else when (user_labelled d <? terminal d) "user outcome evidence covers only explicitly labelled retained receipts") ++
  when (pa_requests a =? 0) "no workspace-attributed accounting exists in this window" ++
  when (0 <? pa_estimated_requests a) "some accounted token usage is estimated" ++
  when (negb (pa_priced a)) "configured real prices are unavailable; amounts are relative" ++
  when (retained d =? 0) "no delivery receipts for this workspace are currently retained".

Section Value.
Context {M : Type} `{IndexMap f64 M}.

Definition tied_routes (prices : M) (rate : f64) : list str :=
  omap (fun '(route, r) => if bool_decide (f64_total_cmp r rate = Eq) then Some route else None) (im_entries prices).

Definition baseline_of (prices : M) (unit_ price_table_version : str) : ProjectBaseline :=
  {| pb_kind := "dearest-configured-rate"; pb_routes := tied_routes prices (dearest_rate prices); pb_rate_per_1k := dearest_rate prices;
     pb_unit := unit_; pb_price_table_version := price_table_version |}.

Definition ProjectValueReport_new (workspace_id : str) (generated_at_ts : f64) (accounting : ProjectAccountingReport)
    (delivery : RecentWorkspaceReport) (price_table_version : str) (prices : M) : ProjectValueReport :=
  {| pv_schema_version := PROJECT_VALUE_SCHEMA_VERSION; pv_workspace_id := workspace_id; pv_generated_at_ts := generated_at_ts;
     pv_accounting := accounting; pv_delivery := delivery; pv_quality := quality_of delivery;
     pv_baseline := baseline_of prices (pa_unit accounting) price_table_version;
     pv_limitations := limitations_of accounting delivery |}.

(** The disclosed routes are exactly those priced at the rate that the ledger
    takes for the baseline of a turn. *)
Lemma baseline_routes_iff prices unit_ version route :
  route ∈ pb_routes (baseline_of prices unit_ version) <->
  exists rate, (route, rate) ∈ im_entries prices /\ f64_total_cmp rate (dearest_rate prices) = Eq.
Proof.
  cbn [baseline_of pb_routes]. unfold tied_routes. rewrite list_elem_of_omap. split.
  - intros ([route' rate] & Hin & Hr). case_bool_decide as E; [|done]. injection Hr as <-. by exists rate.
  - intros (rate & Hin & E). exists (route, rate). split; [done|]. by rewrite bool_decide_eq_true_2.
Qed.

(** The quality rates are absent exactly when nothing was labelled. *)
Lemma quality_absent_iff d : 0 <= user_labelled d ->
  (pq_correction_rate_pct (quality_of d) = None <-> user_labelled d = 0) /\
  (pq_failure_rate_pct (quality_of d) = None <-> user_labelled d = 0).
Proof.
  intros Hd. cbn [quality_of pq_correction_rate_pct pq_failure_rate_pct]. unfold failure_rate.
  destruct (Z.ltb_spec 0 (user_labelled d)); split; split; intros; try done; lia.
Qed.
End Value.
