(* ===== verification/ControlPlane.v ===== *)
(** * Policy versions and their lifecycle (crate [wayfinder-gateway], [src/control_plane.rs])

    A policy document is drafted under a content-addressed version, validated,
    and activated as an immutable snapshot of the gateway's state; an activation
    can be rolled back.  The snapshots live in the [LastGood] holder the request
    path reads.  Serialization, SHA-256 and the TOML crate are parameters; a
    fresh UUID, the prepared runtime and the audit log's answer are inputs of
    the operation that obtains them. *)
From S2P Require Export RoutingText Reload.

(** ** Constants *)
Definition POLICY_SCHEMA_VERSION : str := lit "wf-policy-v1".
Definition MAX_ID_BYTES : Z := 128.
Definition MAX_ROUTING_TOML_BYTES : Z := 64 * 1024.
Definition MAX_PROFILES : Z := 256.
Definition MAX_BINDINGS : Z := 4096.
Definition MAX_ACTIVATION_HISTORY : Z := 256.

(** ** Errors *)
Inductive AuditError := AuditFailed (message : str).

Inductive PolicyError :=
| InvalidIdentifier (kind : str)
| UnsupportedSchema (schema : str)
| InvalidProfileCount
| TooManyBindings
| DuplicateProfile (id : str)
| MissingDefaultProfile
| UnknownDefaultProfile (id : str)
| UnknownProfile (id : str)
| DuplicateBinding (subject : str)
| RoutingDocumentTooLarge
| InvalidRouting (profile_id : str) (error : ConfigError)
| NonCanonicalRouting (id : str)
| Serialization (error : str)
| Audit (error : AuditError)
| RuntimePreparation (error : str)
| NoRollbackTarget
| MissingRuntime
| SnapshotNotInstalled.

(** [u8::is_ascii_control]. *)
Definition byte_is_ascii_control (b : Z) : bool := (b <=? 31) || (b =? 127).

Definition validate_id (kind : string) (value : str) : result unit PolicyError :=
  if match trim value with [] => true | _ => false end || (MAX_ID_BYTES <? str_len value)
     || existsb byte_is_ascii_control (as_bytes value)
  then Err (InvalidIdentifier (lit kind))
  else Ok ().

(** ** Documents *)
Record AdministrativeIdentity := {
  issuer : str;
  subject : str;
}.

Definition AdministrativeIdentity_new (issuer subject : str) : result AdministrativeIdentity PolicyError :=
  let? _ := validate_id "administrative issuer" issuer in
  let? _ := validate_id "administrative subject" subject in
  Ok {| issuer := issuer; subject := subject |}.

Definition audit_actor (a : AdministrativeIdentity) : str := issuer a ++ lit ":" ++ subject a.

Record PolicyProfile := {
  pp_id : str;
  pp_routing_toml : str;
}.

Inductive BindingKind := Client | Workspace | Key.

#[export] Instance BindingKind_eq_dec : EqDecision BindingKind.
Proof. solve_decision. Defined.

#[export] Instance BindingKind_countable : Countable BindingKind.
Proof.
  apply (inj_countable (fun k => match k with Client => 0%nat | Workspace => 1%nat | Key => 2%nat end)
           (fun n => match n with 0%nat => Some Client | 1%nat => Some Workspace | _ => Some Key end)).
  by intros [].
Defined.

Record PolicyBinding := {
  b_kind : BindingKind;
  b_subject : str;
  b_profile_id : str;
}.

Record PolicyDocument := {
  schema_version : str;
  profiles : list PolicyProfile;
  doc_default_profile_id : option str;
  bindings : list PolicyBinding;
}.

Definition default_profile_id (d : PolicyDocument) : result str PolicyError :=
  match doc_default_profile_id d, profiles d with
  | Some profile_id, _ => let? _ := validate_id "default profile id" profile_id in Ok profile_id
  | None, [profile] => Ok (pp_id profile)
  | None, _ => Err MissingDefaultProfile
  end.

(** The loops of [validate_shape], each over the set it fills. *)
Definition shape_profile (ids : gset str) (profile : PolicyProfile) : result (gset str) PolicyError :=
  let? _ := validate_id "profile id" (pp_id profile) in
  if bool_decide (pp_id profile ∈ ids) then Err (DuplicateProfile (pp_id profile)) else Ok ({[pp_id profile]} ∪ ids).

Definition shape_binding (ids : gset str) (targets : gset (BindingKind * str)) (b : PolicyBinding)
    : result (gset (BindingKind * str)) PolicyError :=
  let? _ := validate_id "binding subject" (b_subject b) in
  let? _ := validate_id "binding profile id" (b_profile_id b) in
  if negb (bool_decide (b_profile_id b ∈ ids)) then Err (UnknownProfile (b_profile_id b))
  else if bool_decide ((b_kind b, b_subject b) ∈ targets) then Err (DuplicateBinding (b_subject b))
  else Ok ({[(b_kind b, b_subject b)]} ∪ targets).

Definition validate_shape (d : PolicyDocument) : result unit PolicyError :=
  if negb (str_eqb (schema_version d) POLICY_SCHEMA_VERSION) then Err (UnsupportedSchema (schema_version d))
  else if (len (profiles d) =? 0) || (MAX_PROFILES <? len (profiles d)) then Err InvalidProfileCount
  else if MAX_BINDINGS <? len (bindings d) then Err TooManyBindings
  else
    let? ids := try_fold shape_profile ∅ (profiles d) in
    let? default := default_profile_id d in
    if negb (bool_decide (default ∈ ids)) then Err (UnknownDefaultProfile default)
    else let? _ := try_fold (shape_binding ids) ∅ (bindings d) in Ok ().

Definition PolicyDocument_new_with_default (profiles : list PolicyProfile) (bindings : list PolicyBinding)
    (default : option str) : result PolicyDocument PolicyError :=
  let d := {| schema_version := POLICY_SCHEMA_VERSION; profiles := profiles; doc_default_profile_id := default;
              bindings := bindings |} in
  let? _ := validate_shape d in Ok d.

Definition PolicyDocument_new (profiles : list PolicyProfile) (bindings : list PolicyBinding)
    : result PolicyDocument PolicyError :=
  let default := match profiles with
                 | [profile] => Some (pp_id profile)
                 | _ => pp_id <$> List.find (fun profile => str_eqb (pp_id profile) (lit "default")) profiles
                 end in
  PolicyDocument_new_with_default profiles bindings default.

(** ** Versions *)
Record DraftPolicyVersion := {
  draft_version_id : str;
  draft_document : PolicyDocument;
  drafted_by : AdministrativeIdentity;
}.

Record ValidatedPolicyVersion := {
  version_id : str;
  document : PolicyDocument;
  version_drafted_by : AdministrativeIdentity;
  routing_of : gmap str RoutingConfig;
  bindings_of : gmap (BindingKind * str) str;
  version_default : str;
}.

Record BindingContext := {
  ctx_client_id : option str;
  ctx_workspace_id : option str;
  ctx_key_id : option str;
}.

Record ResolvedPolicyProfile := {
  profile_id : str;
  binding_kind : option BindingKind;
  resolved_routing : RoutingConfig;
}.

Definition HEX (n : Z) : Z := if n <? 10 then 48 + n else 87 + n.

Section Versions.
Context (from_toml : str -> result TomlValue str) (quote_toml : str -> str).
(** [serde_json::to_vec] of a document, and SHA-256. *)
Context (to_vec : PolicyDocument -> result (list Z) str) (sha256 : list Z -> list Z).

Definition profile_where (id : str) : str := lit "policy profile '" ++ id ++ lit "'".

Definition profile_validate (p : PolicyProfile) : result RoutingConfig PolicyError :=
  let? _ := validate_id "profile id" (pp_id p) in
  if MAX_ROUTING_TOML_BYTES <? str_len (pp_routing_toml p) then Err RoutingDocumentTooLarge
  else
    let? routing := map_err (InvalidRouting (pp_id p))
                      (routing_config_from_toml from_toml (pp_routing_toml p) (profile_where (pp_id p)) None StrictInput) in
    if negb (str_eqb (dump_routing_toml quote_toml routing) (pp_routing_toml p)) then Err (NonCanonicalRouting (pp_id p))
    else Ok routing.

Definition PolicyProfile_new (id : str) (routing : RoutingConfig) : result PolicyProfile PolicyError :=
  let p := {| pp_id := id; pp_routing_toml := dump_routing_toml quote_toml routing |} in
  let? _ := profile_validate p in Ok p.

Definition sha256_hex (bytes : list Z) : str :=
  flat_map (fun byte => [HEX (Z.shiftr byte 4); HEX (Z.land byte 15)]) (sha256 bytes).

Definition draft (d : PolicyDocument) (actor : AdministrativeIdentity) : result DraftPolicyVersion PolicyError :=
  let? _ := validate_shape d in
  let? encoded := map_err Serialization (to_vec d) in
  Ok {| draft_version_id := lit "wpv1-" ++ sha256_hex encoded; draft_document := d; drafted_by := actor |}.

Definition validate (v : DraftPolicyVersion) : result ValidatedPolicyVersion PolicyError :=
  let d := draft_document v in
  let? _ := validate_shape d in
  let? routing := try_fold (fun m profile => let? routing := profile_validate profile in Ok (<[pp_id profile := routing]> m)) ∅
                    (profiles d) in
  let bound := foldl (fun m b => <[(b_kind b, b_subject b) := b_profile_id b]> m) ∅ (bindings d) in
  let? default := default_profile_id d in
  Ok {| version_id := draft_version_id v; document := d; version_drafted_by := drafted_by v; routing_of := routing;
        bindings_of := bound; version_default := default |}.
End Versions.

(** The loop over the bound identities, the most specific first. *)
Fixpoint resolve_bound (bound : gmap (BindingKind * str) str) (subjects : list (BindingKind * option str))
    : option (BindingKind * str) :=
  match subjects with
  | [] => None
  | (kind, subject) :: subjects =>
      match subject ≫= fun subject => bound !! (kind, subject) with
      | Some profile_id => Some (kind, profile_id)
      | None => resolve_bound bound subjects
      end
  end.

(** [self.routing[profile_id]] panics when the profile has no entry: [None]. *)
Definition resolve (v : ValidatedPolicyVersion) (c : BindingContext) : option ResolvedPolicyProfile :=
  let chosen := resolve_bound (bindings_of v)
                  [(Key, ctx_key_id c); (Workspace, ctx_workspace_id c); (Client, ctx_client_id c)] in
  let profile := match chosen with Some (_, profile) => profile | None => version_default v end in
  routing ← routing_of v !! profile;
  Some {| profile_id := profile; binding_kind := fst <$> chosen; resolved_routing := routing |}.

(** ** Snapshots

    The fields of [AppState] the lifecycle touches.  The handles [Arc]s share
    are allocation numbers; [C] is the rest of the state, which [prepare] fills
    from the policy and the lifecycle only carries. *)
Record PolicyReceipt := {
  rc_policy_version : str;
  rc_snapshot_id : str;
}.

Record RuntimeState := {
  rs_admission_policy : nat;
  rs_shared_state_backend : option nat;
  rs_recent : nat;
  rs_metrics : nat;
  rs_deployment_cursors : nat;
  rs_deployment_signals : nat;
  rs_shadow_store : nat;
  rs_shadow_slots : nat;
  rs_evidence_labels : nat;
  rs_savings_ledger : nat;
  rs_savings_path : option str;
  rs_audit_log : nat;
}.

Record AppState (C : Type) := {
  st_config : C;
  st_shadow_enabled : bool;
  st_runtime : RuntimeState;
  st_policy : option ValidatedPolicyVersion;
  st_policy_version : str;
  st_policy_snapshot_id : str;
}.
Arguments Build_AppState {C}.
Arguments st_config {C}.
Arguments st_shadow_enabled {C}.
Arguments st_runtime {C}.
Arguments st_policy {C}.
Arguments st_policy_version {C}.
Arguments st_policy_snapshot_id {C}.

Inductive ActivationOutcome := Activated (receipt : PolicyReceipt) | ActivationRetained (active : PolicyReceipt) (error : str).

Section Lifecycle.
Context {C : Type}.

Definition with_runtime_state_from (self previous : AppState C) : AppState C :=
  let p := st_runtime previous in
  {| st_config := st_config self; st_shadow_enabled := st_shadow_enabled self;
     st_runtime :=
       {| rs_admission_policy := rs_admission_policy p; rs_shared_state_backend := rs_shared_state_backend p;
          rs_recent := rs_recent p; rs_metrics := rs_metrics p; rs_deployment_cursors := rs_deployment_cursors p;
          rs_deployment_signals := rs_deployment_signals p; rs_shadow_store := rs_shadow_store p;
          rs_shadow_slots := rs_shadow_slots p; rs_evidence_labels := rs_evidence_labels p;
          rs_savings_ledger := rs_savings_ledger p; rs_savings_path := rs_savings_path p; rs_audit_log := rs_audit_log p |};
     st_policy := st_policy self; st_policy_version := st_policy_version self;
     st_policy_snapshot_id := st_policy_snapshot_id self |}.

Definition with_audit_log (self : AppState C) (audit_log : nat) : AppState C :=
  let p := st_runtime self in
  {| st_config := st_config self; st_shadow_enabled := st_shadow_enabled self;
     st_runtime :=
       {| rs_admission_policy := rs_admission_policy p; rs_shared_state_backend := rs_shared_state_backend p;
          rs_recent := rs_recent p; rs_metrics := rs_metrics p; rs_deployment_cursors := rs_deployment_cursors p;
          rs_deployment_signals := rs_deployment_signals p; rs_shadow_store := rs_shadow_store p;
          rs_shadow_slots := rs_shadow_slots p; rs_evidence_labels := rs_evidence_labels p;
          rs_savings_ledger := rs_savings_ledger p; rs_savings_path := rs_savings_path p; rs_audit_log := audit_log |};
     st_policy := st_policy self; st_policy_version := st_policy_version self;
     st_policy_snapshot_id := st_policy_snapshot_id self |}.

Definition with_validated_policy (self : AppState C) (policy : ValidatedPolicyVersion) : AppState C :=
  {| st_config := st_config self; st_shadow_enabled := st_shadow_enabled self; st_runtime := st_runtime self;
     st_policy := Some policy; st_policy_version := st_policy_version self; st_policy_snapshot_id := st_policy_snapshot_id self |}.

Definition with_policy_receipt (self : AppState C) (receipt : PolicyReceipt) : AppState C :=
  {| st_config := st_config self; st_shadow_enabled := st_shadow_enabled self; st_runtime := st_runtime self;
     st_policy := st_policy self; st_policy_version := rc_policy_version receipt; st_policy_snapshot_id := rc_snapshot_id receipt |}.

(** ** The audit log

    The records it acknowledged, in order; a disabled log takes none and never
    fails.  [answer] is what the writer replies. *)
Record AuditRecord := {
  au_actor : str;
  au_action : str;
  au_before : option (list (str * str));
  au_after : option (list (str * str));
  au_policy_version : str;
  au_snapshot_id : str;
}.

Definition audit_log_state : Type := option (list AuditRecord).

Definition record_with_policy (log : audit_log_state) (r : AuditRecord) (answer : result unit AuditError)
    : audit_log_state * result unit AuditError :=
  match log, answer with
  | None, _ => (None, Ok ())
  | Some l, Ok _ => (Some (l ++ [r]), Ok ())
  | Some l, Err e => (Some l, Err e)
  end.

(** ** The lifecycle

    Next to it, what its snapshots share: the audit log, and whether each
    shadow store is active. *)
Record PolicyLifecycle := {
  holder : LastGood (AppState C) str;
  active : PolicyReceipt;
  history : list PolicyReceipt;
  runtimes_by_snapshot : gmap str (AppState C);
  lc_audit : audit_log_state;
  lc_shadow_active : gmap nat bool;
}.

Definition new_receipt (policy_version uuid : str) : PolicyReceipt :=
  {| rc_policy_version := policy_version; rc_snapshot_id := lit "wps1-" ++ uuid |}.

Definition bootstrap (policy : ValidatedPolicyVersion) (uuid : str) (prepared : result (AppState C) str)
    (actor : AdministrativeIdentity) (audit_log : nat) (log : audit_log_state) (answer : result unit AuditError)
    (shadow_active : gmap nat bool) : audit_log_state * result PolicyLifecycle PolicyError :=
  let receipt := new_receipt (version_id policy) uuid in
  match prepared with
  | Err e => (log, Err (RuntimePreparation e))
  | Ok runtime =>
      let '(log, recorded) :=
        record_with_policy log
          {| au_actor := audit_actor actor; au_action := lit "policy.activate"; au_before := None;
             au_after := Some [(lit "source", lit "bootstrap")]; au_policy_version := rc_policy_version receipt;
             au_snapshot_id := rc_snapshot_id receipt |} answer in
      match recorded with
      | Err e => (log, Err (Audit e))
      | Ok _ =>
          let runtime := with_policy_receipt (with_validated_policy (with_audit_log runtime audit_log) policy) receipt in
          (log, Ok {| holder := LastGood_new runtime (rc_snapshot_id receipt); active := receipt; history := [];
                      runtimes_by_snapshot := {[rc_snapshot_id receipt := runtime]}; lc_audit := log;
                      lc_shadow_active := shadow_active |})
      end
  end.

Definition set_audit (l : PolicyLifecycle) (log : audit_log_state) : PolicyLifecycle :=
  {| holder := holder l; active := active l; history := history l; runtimes_by_snapshot := runtimes_by_snapshot l;
     lc_audit := log; lc_shadow_active := lc_shadow_active l |}.

(** [shadow_store.set_active], the last effect of [with_runtime_state_from]. *)
Definition set_shadow (l : PolicyLifecycle) (runtime : AppState C) : PolicyLifecycle :=
  {| holder := holder l; active := active l; history := history l; runtimes_by_snapshot := runtimes_by_snapshot l;
     lc_audit := lc_audit l;
     lc_shadow_active := <[rs_shadow_store (st_runtime runtime) := st_shadow_enabled runtime]> (lc_shadow_active l) |}.

Definition versions_json (r : PolicyReceipt) : list (str * str) :=
  [(lit "policy_version", rc_policy_version r); (lit "snapshot_id", rc_snapshot_id r)].

(** [self.holder.refresh(snapshot_id, || Ok(runtime))]. *)
Definition install (h : LastGood (AppState C) str) (snapshot_id : str) (runtime : AppState C)
    : LastGood (AppState C) str * bool :=
  match refresh (E := str) h snapshot_id (fun _ => Ok runtime) with
  | (h, Reloaded _, _) => (h, true)
  | (h, _, _) => (h, false)
  end.

Definition activate (l : PolicyLifecycle) (policy : ValidatedPolicyVersion) (uuid : str) (prepared : result (AppState C) str)
    (actor : AdministrativeIdentity) (answer : result unit AuditError)
    : PolicyLifecycle * result ActivationOutcome PolicyError :=
  let receipt := new_receipt (version_id policy) uuid in
  match prepared with
  | Err error =>
      let '(log, recorded) :=
        record_with_policy (lc_audit l)
          {| au_actor := audit_actor actor; au_action := lit "policy.activate_failed"; au_before := None;
             au_after := Some [(lit "candidate_policy_version", rc_policy_version receipt);
                               (lit "candidate_snapshot_id", rc_snapshot_id receipt);
                               (lit "reason", lit "runtime preparation failed")];
             au_policy_version := rc_policy_version (active l); au_snapshot_id := rc_snapshot_id (active l) |} answer in
      let l := set_audit l log in
      match recorded with
      | Err e => (l, Err (Audit e))
      | Ok _ => (l, Ok (ActivationRetained (active l) error))
      end
  | Ok runtime =>
      let runtime := with_runtime_state_from runtime (lg_current (holder l)) in
      let l := set_shadow l runtime in
      let runtime := with_policy_receipt (with_validated_policy runtime policy) receipt in
      let '(log, recorded) :=
        record_with_policy (lc_audit l)
          {| au_actor := audit_actor actor; au_action := lit "policy.activate"; au_before := Some (versions_json (active l));
             au_after := None; au_policy_version := rc_policy_version receipt; au_snapshot_id := rc_snapshot_id receipt |} answer in
      let l := set_audit l log in
      match recorded with
      | Err e => (l, Err (Audit e))
      | Ok _ =>
          match install (holder l) (rc_snapshot_id receipt) runtime with
          | (h, false) =>
              ({| holder := h; active := active l; history := history l; runtimes_by_snapshot := runtimes_by_snapshot l;
                  lc_audit := lc_audit l; lc_shadow_active := lc_shadow_active l |}, Err SnapshotNotInstalled)
          | (h, true) =>
              let runtimes := <[rc_snapshot_id receipt := runtime]> (runtimes_by_snapshot l) in
              let '(history, runtimes) :=
                match history l with
                | expired :: rest =>
                    if len (history l) =? MAX_ACTIVATION_HISTORY then (rest, delete (rc_snapshot_id expired) runtimes)
                    else (history l, runtimes)
                | [] => ([], runtimes)
                end in
              ({| holder := h; active := receipt; history := history ++ [active l]; runtimes_by_snapshot := runtimes;
                  lc_audit := lc_audit l; lc_shadow_active := lc_shadow_active l |}, Ok (Activated receipt))
          end
      end
  end.

Definition rollback (l : PolicyLifecycle) (uuid : str) (actor : AdministrativeIdentity) (answer : result unit AuditError)
    : PolicyLifecycle * result PolicyReceipt PolicyError :=
  match last (history l) with
  | None => (l, Err NoRollbackTarget)
  | Some target =>
      let receipt := new_receipt (rc_policy_version target) uuid in
      match runtimes_by_snapshot l !! rc_snapshot_id target with
      | None => (l, Err MissingRuntime)
      | Some runtime =>
          let runtime := with_runtime_state_from runtime (lg_current (holder l)) in
          let l := set_shadow l runtime in
          let runtime := with_policy_receipt runtime receipt in
          let '(log, recorded) :=
            record_with_policy (lc_audit l)
              {| au_actor := audit_actor actor; au_action := lit "policy.rollback"; au_before := Some (versions_json (active l));
                 au_after := Some [(lit "rolled_back_to", rc_policy_version target)];
                 au_policy_version := rc_policy_version receipt; au_snapshot_id := rc_snapshot_id receipt |} answer in
          let l := set_audit l log in
          match recorded with
          | Err e => (l, Err (Audit e))
          | Ok _ =>
              match install (holder l) (rc_snapshot_id receipt) runtime with
              | (h, false) =>
                  ({| holder := h; active := active l; history := history l; runtimes_by_snapshot := runtimes_by_snapshot l;
                      lc_audit := lc_audit l; lc_shadow_active := lc_shadow_active l |}, Err SnapshotNotInstalled)
              | (h, true) =>
                  let runtimes := <[rc_snapshot_id receipt := lg_current h]> (runtimes_by_snapshot l) in
                  ({| holder := h; active := receipt; history := removelast (history l);
                      runtimes_by_snapshot := delete (rc_snapshot_id (active l)) runtimes; lc_audit := lc_audit l;
                      lc_shadow_active := lc_shadow_active l |}, Ok receipt)
              end
          end
      end
  end.

(** ** Histories *)
Inductive lifecycle_op :=
| OpActivate (policy : ValidatedPolicyVersion) (uuid : str) (prepared : result (AppState C) str)
    (actor : AdministrativeIdentity) (answer : result unit AuditError)
| OpRollback (uuid : str) (actor : AdministrativeIdentity) (answer : result unit AuditError).

Definition op_uuid (op : lifecycle_op) : str := match op with OpActivate _ uuid _ _ _ | OpRollback uuid _ _ => uuid end.

Definition run_op (l : PolicyLifecycle) (op : lifecycle_op) : PolicyLifecycle :=
  match op with
  | OpActivate policy uuid prepared actor answer => fst (activate l policy uuid prepared actor answer)
  | OpRollback uuid actor answer => fst (rollback l uuid actor answer)
  end.
End Lifecycle.
Arguments PolicyLifecycle C : clear implicits.
Arguments lifecycle_op C : clear implicits.

(** ** The lifecycle's invariant *)
Section Invariant.
Context {C : Type}.

(** A snapshot is stamped with the receipt it was activated under and carries
    the policy of that version. *)
Record stamped (r : PolicyReceipt) (runtime : AppState C) : Prop := {
  stamped_version : st_policy_version runtime = rc_policy_version r;
  stamped_snapshot : st_policy_snapshot_id runtime = rc_snapshot_id r;
  stamped_policy : exists policy, st_policy runtime = Some policy /\ version_id policy = rc_policy_version r;
}.

(** The log, when there is one, holds the installation of the receipt. *)
Definition installation (r : PolicyReceipt) (a : AuditRecord) : Prop :=
  au_snapshot_id a = rc_snapshot_id r /\ au_policy_version a = rc_policy_version r /\
  au_action a ∈ map lit ["policy.activate"; "policy.rollback"]%string.

Definition audited (log : audit_log_state) (r : PolicyReceipt) : Prop :=
  match log with None => True | Some l => Exists (installation r) l end.

(** [used] are the snapshot identities drawn so far; [shared] is the runtime
    state of the first snapshot. *)
Record lifecycle_ok (used : gset str) (shared : RuntimeState) (l : PolicyLifecycle C) : Prop := {
  lc_version : lg_version (holder l) = rc_snapshot_id (active l);
  lc_current : runtimes_by_snapshot l !! rc_snapshot_id (active l) = Some (lg_current (holder l));
  lc_stamped : forall r, r ∈ active l :: history l ->
    exists runtime, runtimes_by_snapshot l !! rc_snapshot_id r = Some runtime /\ stamped r runtime;
  lc_distinct : NoDup (rc_snapshot_id <$> active l :: history l);
  lc_bound : len (history l) <= MAX_ACTIVATION_HISTORY;
  lc_shared : map_Forall (fun _ runtime => st_runtime runtime = shared) (runtimes_by_snapshot l);
  lc_used : dom (runtimes_by_snapshot l) ⊆ used;
  lc_audited : audited (lc_audit l) (active l);
}.

Lemma with_runtime_state_from_runtime (self previous : AppState C) :
  st_runtime (with_runtime_state_from self previous) = st_runtime previous.
Proof. cbn. by destruct (st_runtime previous). Qed.

Lemma install_fresh (h : LastGood (AppState C) str) id runtime :
  id <> lg_version h ->
  install h id runtime = ({| lg_version := id; lg_current := runtime; lg_failures := lg_failures h |}, true).
Proof. intros H. unfold install, refresh. by rewrite bool_decide_false. Qed.

(** The receipts of a lifecycle have identities that were drawn. *)
Lemma receipt_used used shared (l : PolicyLifecycle C) r :
  lifecycle_ok used shared l -> r ∈ active l :: history l -> rc_snapshot_id r ∈ used.
Proof. intros H Hr. destruct (lc_stamped _ _ _ H r Hr) as (rt & Hrt & _). apply (lc_used _ _ _ H). by eapply elem_of_dom_2. Qed.

Lemma fresh_not_current used shared (l : PolicyLifecycle C) id : lifecycle_ok used shared l -> id ∉ used -> id <> lg_version (holder l).
Proof. intros H Hid ->. apply Hid. rewrite (lc_version _ _ _ H). eapply receipt_used; [done|set_solver]. Qed.

(** Appending to the log keeps what it holds. *)
Lemma record_answer log a answer log' r :
  record_with_policy log a answer = (log', r) ->
  (forall x, audited log x -> audited log' x) /\ (r = Ok () -> forall x, installation x a -> audited log' x).
Proof.
  intros H. destruct log as [l|], answer as [u|e]; injection H as <- <-; split; try done; intros.
  - apply Exists_app. by left.
  - apply Exists_app. right. by constructor.
Qed.

Definition same_snapshots (l l' : PolicyLifecycle C) : Prop :=
  holder l' = holder l /\ active l' = active l /\ history l' = history l /\ runtimes_by_snapshot l' = runtimes_by_snapshot l.

Lemma same_snapshots_ok used used' shared l l' :
  lifecycle_ok used shared l -> same_snapshots l l' -> used ⊆ used' -> audited (lc_audit l') (active l) -> lifecycle_ok used' shared l'.
Proof.
  intros [] (Eh & Ea & Ehi & Er) Hu Hl. constructor; rewrite ?Eh, ?Ea, ?Ehi, ?Er; try done. set_solver.
Qed.

(** Installing a snapshot under a fresh identity on top of a history whose
    receipts keep their runtimes. *)
Lemma installed_ok used shared (l l' : PolicyLifecycle C) receipt runtime :
  lifecycle_ok used shared l -> rc_snapshot_id receipt ∉ used ->
  st_runtime runtime = shared -> stamped receipt runtime ->
  lg_version (holder l') = rc_snapshot_id receipt -> lg_current (holder l') = runtime -> active l' = receipt ->
  runtimes_by_snapshot l' !! rc_snapshot_id receipt = Some runtime ->
  (forall id rt, runtimes_by_snapshot l' !! id = Some rt -> id = rc_snapshot_id receipt /\ rt = runtime \/
                                                             runtimes_by_snapshot l !! id = Some rt) ->
  (forall r, r ∈ history l' -> r ∈ active l :: history l) ->
  (forall r, r ∈ history l' -> runtimes_by_snapshot l' !! rc_snapshot_id r = runtimes_by_snapshot l !! rc_snapshot_id r) ->
  NoDup (rc_snapshot_id <$> history l') -> len (history l') <= MAX_ACTIVATION_HISTORY -> audited (lc_audit l') receipt ->
  lifecycle_ok ({[rc_snapshot_id receipt]} ∪ used) shared l'.
Proof.
  intros H Hid Hshared Hst Hv Hc Ha Hrt Hmap Hhist Hkeep Hnd Hlen Haud. constructor; rewrite ?Ha, ?Hv, ?Hc; try done.
  - intros r Hr. apply elem_of_cons in Hr as [->|Hr]; [by exists runtime|].
    rewrite Hkeep by done. by apply (lc_stamped _ _ _ H), Hhist.
  - rewrite fmap_cons. apply NoDup_cons. split; [|done]. intros Hin. apply list_elem_of_fmap in Hin as (r & E & Hr). apply Hid.
    rewrite E. eapply receipt_used; [done|by apply Hhist].
  - intros id rt Hl. destruct (Hmap _ _ Hl) as [[_ ->]|Hl']; [done|]. by eapply (lc_shared _ _ _ H).
  - intros id Hl. apply elem_of_dom in Hl as [rt Hl]. destruct (Hmap _ _ Hl) as [[-> _]|Hl']; [set_solver|].
    apply elem_of_union_r, (lc_used _ _ _ H). by eapply elem_of_dom_2.
Qed.

(** The history an activation pushes onto, and the identities it forgets. *)
Definition aged (h : list PolicyReceipt) : list PolicyReceipt := if len h =? MAX_ACTIVATION_HISTORY then tail h else h.
Definition expired (h : list PolicyReceipt) : list PolicyReceipt := if len h =? MAX_ACTIVATION_HISTORY then take 1 h else [].

Lemma expired_aged h : expired h ++ aged h = h.
Proof. unfold expired, aged. destruct (len h =? MAX_ACTIVATION_HISTORY); [|done]. by destruct h. Qed.

Definition forget (receipts : list PolicyReceipt) (runtimes : gmap str (AppState C)) : gmap str (AppState C) :=
  foldr (fun r m => delete (rc_snapshot_id r) m) runtimes receipts.

Lemma forget_other receipts runtimes id :
  id ∉ rc_snapshot_id <$> receipts -> forget receipts runtimes !! id = runtimes !! id.
Proof.
  induction receipts as [|r receipts IH]; intros H; [done|]. rewrite fmap_cons in H. cbn [forget foldr].
  rewrite lookup_delete_ne by set_solver. apply IH. set_solver.
Qed.

Lemma forget_sub receipts runtimes id rt : forget receipts runtimes !! id = Some rt -> runtimes !! id = Some rt.
Proof.
  induction receipts as [|r receipts IH]; [done|]. cbn [forget foldr]. intros H. apply lookup_delete_Some in H as [_ H]. by apply IH.
Qed.

(** The snapshot an activation installs. *)
Definition activated (l : PolicyLifecycle C) (policy : ValidatedPolicyVersion) (receipt : PolicyReceipt) (prepared : AppState C)
    : AppState C :=
  with_policy_receipt (with_validated_policy (with_runtime_state_from prepared (lg_current (holder l))) policy) receipt.

(** The snapshot a rollback installs, from the one it restores. *)
Definition restored (l : PolicyLifecycle C) (receipt : PolicyReceipt) (target : AppState C) : AppState C :=
  with_policy_receipt (with_runtime_state_from target (lg_current (holder l))) receipt.

Lemma stamped_activated l policy receipt prepared :
  rc_policy_version receipt = version_id policy -> stamped receipt (activated l policy receipt prepared).
Proof. intros H. constructor; [done..|]. by exists policy. Qed.

Lemma stamped_restored l receipt r target :
  stamped r target -> rc_policy_version receipt = rc_policy_version r -> stamped receipt (restored l receipt target).
Proof. intros [_ _ (policy & Hp & Hv)] H. constructor; [done..|]. exists policy. split; [done|congruence]. Qed.

(** Whatever an operation answers, either it leaves the snapshots alone, or it
    installs its snapshot as these say. *)
Definition activates (l l' : PolicyLifecycle C) (policy : ValidatedPolicyVersion) (receipt : PolicyReceipt) (prepared : AppState C)
    : Prop :=
  let runtime := activated l policy receipt prepared in
  lg_version (holder l') = rc_snapshot_id receipt /\ lg_current (holder l') = runtime /\ active l' = receipt /\
  history l' = aged (history l) ++ [active l] /\
  runtimes_by_snapshot l' = forget (expired (history l)) (<[rc_snapshot_id receipt := runtime]> (runtimes_by_snapshot l)) /\
  audited (lc_audit l') receipt.

Definition rolls_back (l l' : PolicyLifecycle C) (target receipt : PolicyReceipt) (runtime : AppState C) : Prop :=
  lg_version (holder l') = rc_snapshot_id receipt /\ lg_current (holder l') = restored l receipt runtime /\ active l' = receipt /\
  history l = history l' ++ [target] /\
  runtimes_by_snapshot l' = delete (rc_snapshot_id (active l))
    (<[rc_snapshot_id receipt := restored l receipt runtime]> (runtimes_by_snapshot l)) /\
  audited (lc_audit l') receipt.

(** The audit log answers the record of a success. *)
Definition audit_accepts (log : audit_log_state) (answer : result unit AuditError) : Prop := log = None \/ is_ok answer = true.

Lemma record_accepts log a answer : audit_accepts log answer -> exists log', record_with_policy log a answer = (log', Ok ()).
Proof. intros [->|H]; [by exists None|]. destruct answer as [[]|], log; try done; by eexists. Qed.

Lemma record_refuses log a answer : ~ audit_accepts log answer -> exists e, record_with_policy log a answer = (log, Err e).
Proof.
  intros H. destruct log as [l|]; [|by destruct H; left]. destruct answer as [u|e]; [by destruct H; right|by exists e].
Qed.

Lemma activate_cases l policy uuid prepared actor answer l' r :
  let receipt := new_receipt (version_id policy) uuid in
  activate l policy uuid prepared actor answer = (l', r) -> rc_snapshot_id receipt <> lg_version (holder l) ->
  match prepared with
  | Ok runtime =>
      (audit_accepts (lc_audit l) answer /\ r = Ok (Activated receipt) /\ activates l l' policy receipt runtime) \/
      (~ audit_accepts (lc_audit l) answer /\ (exists e, r = Err (Audit e)) /\ same_snapshots l l' /\ lc_audit l' = lc_audit l)
  | Err error =>
      ((r = Ok (ActivationRetained (active l) error) \/ exists e, r = Err (Audit e)) /\ same_snapshots l l' /\
       forall x, audited (lc_audit l) x -> audited (lc_audit l') x)
  end.
Proof.
  intros receipt H Hid. unfold activate in H. fold receipt in H. destruct prepared as [runtime|error].
  2: { destruct (record_with_policy _ _ _) as [log recorded] eqn:Hr. apply record_answer in Hr as [Hkeep _].
       destruct recorded as [u|e]; injection H as <- <-; (split; [eauto|by split]). }
  assert (Hdec : Decision (audit_accepts (lc_audit l) answer)) by (unfold audit_accepts; apply _).
  destruct (decide (audit_accepts (lc_audit l) answer)) as [Ha|Ha]; [left|right]; (split; [done|]).
  - cbn [set_shadow lc_audit] in H. edestruct record_accepts as [log' Hl]; [exact Ha|]. rewrite Hl in H.
    apply record_answer in Hl as [_ Hl]. cbn [set_audit set_shadow holder] in H. rewrite install_fresh in H by done.
    assert (audited log' receipt) as Haud by (apply Hl; [done|]; split_and!; [done|done|apply list_elem_of_here]).
    cbn [set_audit set_shadow history runtimes_by_snapshot active lc_audit lc_shadow_active] in H.
    destruct (history l) as [|x rest] eqn:Hh.
    { injection H as <- <-. split; [done|]. unfold activates. rewrite Hh. by split_and!. }
    rewrite <- Hh in H. destruct (len (history l) =? MAX_ACTIVATION_HISTORY) eqn:Hm; injection H as <- <-;
      (split; [done|]); unfold activates, aged, expired; cbn [holder active history runtimes_by_snapshot lc_audit];
      rewrite Hm, ?Hh; by split_and!.
  - cbn [set_shadow lc_audit] in H. edestruct record_refuses as [e Hl]; [exact Ha|]. rewrite Hl in H. injection H as <- <-.
    split; [by exists e|]. by split.
Qed.

Lemma removelast_snoc {A} (l : list A) x : last l = Some x -> l = removelast l ++ [x].
Proof.
  intros H. destruct l as [|y l'] using rev_ind; [done|]. rewrite last_snoc in H. injection H as ->. by rewrite removelast_last.
Qed.

Lemma rollback_cases l uuid actor answer l' r target runtime :
  let receipt := new_receipt (rc_policy_version target) uuid in
  last (history l) = Some target -> runtimes_by_snapshot l !! rc_snapshot_id target = Some runtime ->
  rollback l uuid actor answer = (l', r) -> rc_snapshot_id receipt <> lg_version (holder l) ->
  (audit_accepts (lc_audit l) answer /\ r = Ok receipt /\ rolls_back l l' target receipt runtime) \/
  (~ audit_accepts (lc_audit l) answer /\ (exists e, r = Err (Audit e)) /\ same_snapshots l l' /\ lc_audit l' = lc_audit l).
Proof.
  intros receipt Ht Hrt H Hid. unfold rollback in H. rewrite Ht, Hrt in H. fold receipt in H.
  assert (Hdec : Decision (audit_accepts (lc_audit l) answer)) by (unfold audit_accepts; apply _).
  destruct (decide (audit_accepts (lc_audit l) answer)) as [Ha|Ha]; [left|right]; (split; [done|]).
  - cbn [set_shadow lc_audit] in H. edestruct record_accepts as [log' Hl]; [exact Ha|]. rewrite Hl in H.
    apply record_answer in Hl as [_ Hl]. cbn [set_audit set_shadow holder] in H. rewrite install_fresh in H by done.
    assert (audited log' receipt) as Haud
      by (apply Hl; [done|]; split_and!; [done|done|apply list_elem_of_further, list_elem_of_here]).
    injection H as <- <-. split; [done|]. unfold rolls_back. split_and!; try done. by apply removelast_snoc.
  - cbn [set_shadow lc_audit] in H. edestruct record_refuses as [e Hl]; [exact Ha|]. rewrite Hl in H. injection H as <- <-.
    split; [by exists e|]. by split.
Qed.

Lemma same_snapshots_refl (l : PolicyLifecycle C) : same_snapshots l l.
Proof. done. Qed.

Lemma aged_sub h r : r ∈ aged h -> r ∈ h.
Proof. intros H. rewrite <- (expired_aged h). apply elem_of_app. by right. Qed.

Lemma aged_bound h : len h <= MAX_ACTIVATION_HISTORY -> len (aged h) <= MAX_ACTIVATION_HISTORY - 1.
Proof.
  unfold aged, MAX_ACTIVATION_HISTORY. intros H. destruct (len h =? 256) eqn:E; [|lia]. destruct h as [|x h]; [done|].
  cbn [tail]. rewrite len_cons in E. lia.
Qed.

Lemma activates_ok used shared l l' policy receipt prepared :
  lifecycle_ok used shared l -> rc_snapshot_id receipt ∉ used -> rc_policy_version receipt = version_id policy ->
  activates l l' policy receipt prepared -> lifecycle_ok ({[rc_snapshot_id receipt]} ∪ used) shared l'.
Proof.
  intros H Hid Hver (Hv & Hc & Ha & Hh & Hr & Haud).
  assert (Hnew : rc_snapshot_id receipt ∉ rc_snapshot_id <$> expired (history l)).
  { intros Hin. apply list_elem_of_fmap in Hin as (x & E & Hx). apply Hid. rewrite E. eapply receipt_used; [done|].
    apply elem_of_cons. right. rewrite <- (expired_aged (history l)). apply elem_of_app. by left. }
  assert (Hperm : NoDup (rc_snapshot_id <$> expired (history l) ++ (aged (history l) ++ [active l]))).
  { rewrite app_assoc, expired_aged. pose proof (lc_distinct _ _ _ H) as Hd.
    by rewrite (Permutation_app_comm (history l) [active l]). }
  rewrite fmap_app in Hperm. apply NoDup_app in Hperm as (_ & Hsep & Hnd).
  apply (installed_ok used shared l l' receipt (activated l policy receipt prepared)); rewrite ?Hh, ?Hr; try done.
  - cbn. rewrite (lc_shared _ _ _ H _ _ (lc_current _ _ _ H)). by destruct shared.
  - by apply stamped_activated.
  - rewrite forget_other by done. apply lookup_insert_eq.
  - intros id rt Hl. apply forget_sub in Hl. apply lookup_insert_Some in Hl as [[<- <-]|[_ Hl]]; [by left|by right].
  - intros r Hin. apply elem_of_app in Hin as [Hin|Hin]; [|set_solver]. apply elem_of_cons. right. by apply aged_sub.
  - intros r Hin. rewrite forget_other; [|intros Hx; by apply (Hsep _ Hx), list_elem_of_fmap_2].
    apply lookup_insert_ne. intros E. apply Hid. rewrite E. eapply receipt_used; [done|].
    apply elem_of_app in Hin as [Hin|Hin]; [|set_solver]. apply elem_of_cons. right. by apply aged_sub.
  - rewrite len_app, len_cons, len_nil. pose proof (aged_bound _ (lc_bound _ _ _ H)). lia.
Qed.

Lemma rolls_back_ok used shared l l' target receipt runtime :
  lifecycle_ok used shared l -> rc_snapshot_id receipt ∉ used -> rc_policy_version receipt = rc_policy_version target ->
  runtimes_by_snapshot l !! rc_snapshot_id target = Some runtime ->
  rolls_back l l' target receipt runtime -> lifecycle_ok ({[rc_snapshot_id receipt]} ∪ used) shared l'.
Proof.
  intros H Hid Hver Hrt (Hv & Hc & Ha & Hh & Hr & Haud).
  assert (Hact : rc_snapshot_id receipt <> rc_snapshot_id (active l)).
  { intros E. apply Hid. rewrite E. eapply receipt_used; [done|set_solver]. }
  assert (Hin : forall r, r ∈ history l' -> r ∈ history l) by (intros r Hr'; rewrite Hh; apply elem_of_app; by left).
  pose proof (lc_distinct _ _ _ H) as Hd. rewrite fmap_cons in Hd. apply NoDup_cons in Hd as [Hna Hd].
  apply (installed_ok used shared l l' receipt (restored l receipt runtime)); rewrite ?Hr; try done.
  - cbn. rewrite (lc_shared _ _ _ H _ _ (lc_current _ _ _ H)). by destruct shared.
  - destruct (lc_stamped _ _ _ H target) as (rt & Hrt' & Hst); [rewrite Hh; set_solver|]. rewrite Hrt in Hrt'.
    injection Hrt' as <-. by eapply stamped_restored.
  - rewrite lookup_delete_ne by done. apply lookup_insert_eq.
  - intros id rt Hl. apply lookup_delete_Some in Hl as [_ Hl].
    apply lookup_insert_Some in Hl as [[<- <-]|[_ Hl]]; [by left|by right].
  - intros r Hr'. apply elem_of_cons. right. by apply Hin.
  - intros r Hr'. rewrite lookup_delete_ne; [apply lookup_insert_ne|].
    + intros E. apply Hid. rewrite E. eapply receipt_used; [done|]. apply elem_of_cons. right. by apply Hin.
    + intros E. apply Hna. rewrite E. by apply list_elem_of_fmap_2, Hin.
  - rewrite Hh, fmap_app in Hd. by apply NoDup_app in Hd as (? & _ & _).
  - pose proof (lc_bound _ _ _ H) as Hb. rewrite Hh, len_app, len_cons, len_nil in Hb. lia.
Qed.

Definition snapshot_id_of (uuid : str) : str := lit "wps1-" ++ uuid.

Definition drawn (uuids : list str) : gset str := list_to_set (snapshot_id_of <$> uuids).

Lemma drawn_elem uuid uuids : snapshot_id_of uuid ∈ drawn uuids <-> uuid ∈ uuids.
Proof.
  unfold drawn. rewrite elem_of_list_to_set, list_elem_of_fmap. split; [|by exists uuid].
  intros (y & E & Hy). apply app_inv_head in E as ->. done.
Qed.

Lemma drawn_snoc uuids uuid : drawn (uuids ++ [uuid]) = {[snapshot_id_of uuid]} ∪ drawn uuids.
Proof. unfold drawn. rewrite fmap_app, list_to_set_app_L. cbn. set_solver. Qed.

Lemma rollback_step used shared l uuid actor answer :
  lifecycle_ok used shared l -> snapshot_id_of uuid ∉ used ->
  lifecycle_ok ({[snapshot_id_of uuid]} ∪ used) shared (fst (rollback l uuid actor answer)).
Proof.
  intros H Hid. pose proof (fresh_not_current _ _ _ _ H Hid) as Hne.
  destruct (last (history l)) as [target|] eqn:Ht.
  - assert (Hin : target ∈ active l :: history l).
    { apply elem_of_cons. right. rewrite (removelast_snoc _ _ Ht). apply elem_of_app. right. apply list_elem_of_here. }
    destruct (lc_stamped _ _ _ H target Hin) as (runtime & Hrt & _).
    destruct (rollback l uuid actor answer) as [l' r] eqn:Hr. cbn [fst].
    destruct (rollback_cases _ _ _ _ _ _ _ _ Ht Hrt Hr Hne) as [(_ & _ & Hb)|(_ & _ & Hs & Hl)].
    + by eapply (rolls_back_ok used shared l l' target (new_receipt (rc_policy_version target) uuid)).
    + eapply same_snapshots_ok; [done|done|set_solver|]. rewrite Hl. apply (lc_audited _ _ _ H).
  - unfold rollback. rewrite Ht. eapply same_snapshots_ok; [done|apply same_snapshots_refl|set_solver|apply (lc_audited _ _ _ H)].
Qed.

Lemma run_op_ok used shared l op :
  lifecycle_ok used shared l -> snapshot_id_of (op_uuid op) ∉ used ->
  lifecycle_ok ({[snapshot_id_of (op_uuid op)]} ∪ used) shared (run_op l op).
Proof.
  intros H Hid. pose proof (fresh_not_current _ _ _ _ H Hid) as Hne. destruct op as [policy uuid prepared actor answer|uuid actor answer].
  2: by apply rollback_step.
  cbn [op_uuid run_op] in *. destruct (activate l policy uuid prepared actor answer) as [l' r] eqn:Hr. cbn [fst].
  pose proof (activate_cases _ _ _ _ _ _ _ _ Hr Hne) as Hcases. destruct prepared as [runtime|error].
  - destruct Hcases as [(_ & _ & Ha)|(_ & _ & Hs & Hl)].
    + by eapply (activates_ok used shared l l' policy (new_receipt (version_id policy) uuid)).
    + eapply same_snapshots_ok; [done|done|set_solver|]. rewrite Hl. apply (lc_audited _ _ _ H).
  - destruct Hcases as (_ & Hs & Hl). eapply same_snapshots_ok; [done|done|set_solver|]. apply Hl, (lc_audited _ _ _ H).
Qed.

Lemma run_ops_ok uuids shared l (ops : list (lifecycle_op C)) :
  lifecycle_ok (drawn uuids) shared l -> NoDup (uuids ++ map op_uuid ops) ->
  lifecycle_ok (drawn (uuids ++ map op_uuid ops)) shared (foldl run_op l ops).
Proof.
  revert uuids l. induction ops as [|op ops IH]; intros uuids l H Hnd; cbn [map foldl] in Hnd |- *.
  { by rewrite app_nil_r. }
  rewrite cons_middle, app_assoc in Hnd |- *. apply IH; [|done]. rewrite drawn_snoc. apply run_op_ok; [done|].
  rewrite drawn_elem. apply NoDup_app in Hnd as (Hnd & _ & _). apply NoDup_app in Hnd as (_ & Hsep & _).
  intros Hin. apply (Hsep _ Hin). apply list_elem_of_here.
Qed.

Lemma bootstrap_ok policy uuid prepared actor handle log answer shadow log' (l : PolicyLifecycle C) :
  bootstrap policy uuid prepared actor handle log answer shadow = (log', Ok l) ->
  lifecycle_ok (drawn [uuid]) (st_runtime (lg_current (holder l))) l.
Proof.
  unfold bootstrap. destruct prepared as [runtime|]; [|done].
  destruct (record_with_policy _ _ _) as [log1 recorded] eqn:Hr. apply record_answer in Hr as [_ Hr].
  destruct recorded as [[]|]; [|done]. intros H. injection H as <- <-.
  set (receipt := new_receipt (version_id policy) uuid).
  constructor; cbn [holder active history runtimes_by_snapshot lc_audit LastGood_new lg_version lg_current].
  - done.
  - apply lookup_singleton_eq.
  - intros r Hin. apply list_elem_of_singleton in Hin as ->. eexists. split; [apply lookup_singleton_eq|].
    constructor; [done..|]. by exists policy.
  - apply NoDup_singleton.
  - rewrite len_nil. done.
  - apply map_Forall_singleton. done.
  - rewrite dom_singleton. unfold drawn. cbn. set_solver.
  - apply Hr; [done|]. split_and!; [done|done|apply list_elem_of_here].
Qed.

(** C28: From a bootstrap and through every sequence of activations and
    rollbacks, whatever they answer: the holder serves the active snapshot,
    stamped with the active receipt and carrying that version's policy; every
    receipt of the bounded history still has its runtime, so that a rollback
    finds it; every snapshot shares the runtime state of the first, admission
    included; and the installation of the active snapshot is in the audit
    log. *)
Theorem lifecycle_invariant policy uuid prepared actor handle log answer shadow log' (l : PolicyLifecycle C) ops :
  bootstrap policy uuid prepared actor handle log answer shadow = (log', Ok l) -> NoDup (uuid :: map op_uuid ops) ->
  lifecycle_ok (drawn (uuid :: map op_uuid ops)) (st_runtime (lg_current (holder l))) (foldl run_op l ops).
Proof. intros Hb Hnd. apply (run_ops_ok [uuid]); [by eapply bootstrap_ok|done]. Qed.

(** An activation and a rollback that the audit log accepts. *)
Lemma cycle_steps used shared l policy u1 u2 prepared actor1 actor2 :
  lifecycle_ok used shared l -> snapshot_id_of u1 ∉ used -> snapshot_id_of u2 ∉ used -> u1 <> u2 ->
  let r1 := new_receipt (version_id policy) u1 in
  let r2 := new_receipt (rc_policy_version (active l)) u2 in
  exists l1 l2, activate l policy u1 (Ok prepared) actor1 (Ok ()) = (l1, Ok (Activated r1)) /\
    activates l l1 policy r1 prepared /\ rollback l1 u2 actor2 (Ok ()) = (l2, Ok r2) /\
    rolls_back l1 l2 (active l) r2 (lg_current (holder l)) /\
    lifecycle_ok ({[snapshot_id_of u2]} ∪ ({[snapshot_id_of u1]} ∪ used)) shared l2.
Proof.
  intros H H1 H2 Hne r1 r2. pose proof (fresh_not_current _ _ _ _ H H1) as Hn1.
  destruct (activate l policy u1 (Ok prepared) actor1 (Ok ())) as [l1 o1] eqn:E1. exists l1.
  assert (Hacc : forall log, audit_accepts log (Ok ())) by (intros log; by right).
  destruct (activate_cases _ _ _ _ _ _ _ _ E1 Hn1) as [(_ & -> & Ha)|(Hx & _)]; [|by destruct Hx].
  pose proof (activates_ok used shared l l1 policy r1 prepared H H1 eq_refl Ha) as Hok1.
  assert (Hu2 : snapshot_id_of u2 ∉ {[snapshot_id_of u1]} ∪ used).
  { intros Hin. apply elem_of_union in Hin as [Hin|Hin]; [|done]. apply elem_of_singleton in Hin.
    apply app_inv_head in Hin. congruence. }
  pose proof (fresh_not_current _ _ _ _ Hok1 Hu2) as Hn2.
  destruct (rollback l1 u2 actor2 (Ok ())) as [l2 o2] eqn:E2. exists l2. pose proof Ha as (_ & _ & _ & Hh & Hr & _).
  assert (Ht : last (history l1) = Some (active l)) by (rewrite Hh; apply last_snoc).
  assert (Hrt : runtimes_by_snapshot l1 !! rc_snapshot_id (active l) = Some (lg_current (holder l))).
  { rewrite Hr, forget_other, lookup_insert_ne; [by apply (lc_current _ _ _ H)| |].
    - intros E. apply H1. replace (snapshot_id_of u1) with (rc_snapshot_id (active l)) by (symmetry; exact E).
      eapply receipt_used; [done|set_solver].
    - pose proof (lc_distinct _ _ _ H) as Hd. rewrite fmap_cons in Hd. apply NoDup_cons in Hd as [Hd _].
      intros Hin. apply Hd. rewrite <- (expired_aged (history l)), fmap_app. apply elem_of_app. by left. }
  destruct (rollback_cases _ _ _ _ _ _ _ _ Ht Hrt E2 Hn2) as [(_ & -> & Hb)|(Hx & _)]; [|by destruct Hx].
  split_and!; try done. by eapply (rolls_back_ok _ shared l1 l2 (active l) r2).
Qed.

(** C29: A rollback undoes an activation, under a new snapshot identity: from
    any state of the lifecycle, an activation followed by a rollback, both
    audited, succeed, and the gateway serves the configuration and the policy
    of before, with the runtime state of before; the history is that of before,
    less the oldest receipt when it was full. *)
Theorem rollback_restores used shared l policy u1 u2 prepared actor1 actor2 :
  lifecycle_ok used shared l -> snapshot_id_of u1 ∉ used -> snapshot_id_of u2 ∉ used -> u1 <> u2 ->
  exists l1 r1 l2 r2,
    activate l policy u1 (Ok prepared) actor1 (Ok ()) = (l1, Ok (Activated r1)) /\
    rollback l1 u2 actor2 (Ok ()) = (l2, Ok r2) /\
    active l2 = r2 /\ rc_policy_version r2 = rc_policy_version (active l) /\ rc_snapshot_id r2 <> rc_snapshot_id (active l) /\
    history l2 = aged (history l) /\
    st_config (lg_current (holder l2)) = st_config (lg_current (holder l)) /\
    st_policy (lg_current (holder l2)) = st_policy (lg_current (holder l)) /\
    st_runtime (lg_current (holder l2)) = st_runtime (lg_current (holder l)).
Proof.
  intros H H1 H2 Hne.
  destruct (cycle_steps used shared l policy u1 u2 prepared actor1 actor2 H H1 H2 Hne) as (l1 & l2 & E1 & Ha & E2 & Hb & Hok2).
  destruct Ha as (_ & _ & _ & Hh1 & _). destruct Hb as (_ & Hc2 & Ha2 & Hh2 & _).
  eexists l1, _, l2, _. split; [exact E1|]. split; [exact E2|]. split_and!; [done|done| | |by rewrite Hc2|by rewrite Hc2|].
  - intros E. apply H2. replace (snapshot_id_of u2) with (rc_snapshot_id (active l)) by (symmetry; exact E).
    eapply receipt_used; [done|set_solver].
  - rewrite Hh1 in Hh2. by apply app_inj_tail in Hh2 as [-> _].
  - rewrite (lc_shared _ _ _ H _ _ (lc_current _ _ _ H)). apply (lc_shared _ _ _ Hok2 _ _ (lc_current _ _ _ Hok2)).
Qed.

(** Activation and rollback, repeated. *)
Fixpoint cycles (policy : ValidatedPolicyVersion) (prepared : AppState C) (actor : AdministrativeIdentity)
    (uuids : list (str * str)) : list (lifecycle_op C) :=
  match uuids with
  | [] => []
  | (u1, u2) :: uuids =>
      OpActivate policy u1 (Ok prepared) actor (Ok ()) :: OpRollback u2 actor (Ok ()) :: cycles policy prepared actor uuids
  end.

Definition cycle_uuids (uuids : list (str * str)) : list str := flat_map (fun '(u1, u2) => [u1; u2]) uuids.

Lemma cycles_accumulate used shared l policy prepared actor uuids :
  lifecycle_ok used shared l -> history l = [] -> NoDup (cycle_uuids uuids) ->
  Forall (fun u => snapshot_id_of u ∉ used) (cycle_uuids uuids) ->
  let l' := foldl run_op l (cycles policy prepared actor uuids) in
  history l' = [] /\ size (runtimes_by_snapshot l') = (size (runtimes_by_snapshot l) + length uuids)%nat.
Proof.
  revert used l. induction uuids as [|[u1 u2] uuids IH]; intros used l H Hh Hnd Hf l'; [by rewrite Nat.add_0_r|].
  unfold l'. cbn [cycles foldl run_op]. cbn [cycle_uuids flat_map app] in Hnd, Hf. fold (cycle_uuids uuids) in Hnd, Hf.
  apply NoDup_cons in Hnd as [Hn1 Hnd]. apply NoDup_cons in Hnd as [Hn2 Hnd].
  apply Forall_cons in Hf as [H1 Hf]. apply Forall_cons in Hf as [H2 Hf].
  assert (Hne : u1 <> u2) by set_solver.
  destruct (cycle_steps used shared l policy u1 u2 prepared actor actor H H1 H2 Hne) as (l1 & l2 & E1 & Ha & E2 & Hb & Hok2).
  rewrite E1. cbn [fst]. rewrite E2. cbn [fst].
  destruct Ha as (_ & _ & Ha1 & Hh1 & Hr1 & _). destruct Hb as (_ & _ & _ & Hh2 & Hr2 & _).
  rewrite Hh in Hh1, Hr1. cbn in Hh1. rewrite Hh1 in Hh2. apply (app_inj_tail [] _) in Hh2 as [Hh2 _].
  destruct (IH _ l2 Hok2 (eq_sym Hh2) Hnd) as [Hhist Hsize].
  { rewrite Forall_forall in Hf |- *. intros u Hu Hin. rewrite !elem_of_union, !elem_of_singleton in Hin.
    destruct Hin as [E|[E|Hin]]; [apply app_inv_head in E as ->; set_solver|apply app_inv_head in E as ->; set_solver|].
    by apply (Hf u Hu). }
  split; [done|]. rewrite Hsize, Hr2, Hr1, Ha1. cbn [expired forget foldr rc_snapshot_id new_receipt length].
  change (forget (expired []) ?m) with m.
  pose proof (lc_used _ _ _ H) as Hu.
  assert (Hfresh : forall u, snapshot_id_of u ∉ used -> runtimes_by_snapshot l !! snapshot_id_of u = None).
  { intros u Hx. apply not_elem_of_dom. set_solver. }
  fold (snapshot_id_of u1) (snapshot_id_of u2). rewrite map_size_delete, lookup_insert_ne, lookup_insert_eq.
  2: { intros E. by apply app_inv_head in E. }
  rewrite !map_size_insert, lookup_insert_ne, !Hfresh by (done || (intros E; by apply app_inv_head in E)). lia.
Qed.

(** After [n] activations each rolled back, no receipt is left to roll back to,
    and [n] runtimes remain that no receipt names: a rollback removes the
    runtime it leaves, not the one it restored under a new identity. *)
Theorem rollbacks_accumulate_runtimes policy uuid prepared0 actor0 handle log answer shadow log' l prepared actor uuids :
  bootstrap policy uuid prepared0 actor0 handle log answer shadow = (log', Ok l) -> NoDup (uuid :: cycle_uuids uuids) ->
  let l' := foldl run_op l (cycles policy prepared actor uuids) in
  history l' = [] /\ size (runtimes_by_snapshot l') = S (length uuids).
Proof.
  intros Hb Hnd. pose proof (bootstrap_ok _ _ _ _ _ _ _ _ _ _ Hb) as Hok. apply NoDup_cons in Hnd as [Hn Hnd].
  assert (history l = [] /\ size (runtimes_by_snapshot l) = 1%nat) as [Hh Hs].
  { revert Hb. unfold bootstrap. destruct prepared0 as [rt|]; [|done]. destruct (record_with_policy _ _ _) as [log1 [[]|]]; [|done].
    intros E. injection E as _ <-. split; [done|]. apply map_size_singleton. }
  change (S (length uuids)) with (1 + length uuids)%nat. rewrite <- Hs.
  apply (cycles_accumulate (drawn [uuid]) (st_runtime (lg_current (holder l)))); [done|done|done|].
  apply Forall_forall. intros u Hu. rewrite drawn_elem. set_solver.
Qed.
End Invariant.

(** ** Profile resolution *)
Section Resolution.
Context (from_toml : str -> result TomlValue str) (quote_toml : str -> str).

Lemma try_fold_profiles (l : list PolicyProfile) (m m' : gmap str RoutingConfig) :
  try_fold (fun m profile => let? routing := profile_validate from_toml quote_toml profile in Ok (<[pp_id profile := routing]> m))
    m l = Ok m' ->
  (forall id routing, m' !! id = Some routing ->
     m !! id = Some routing \/ exists p, p ∈ l /\ pp_id p = id /\ profile_validate from_toml quote_toml p = Ok routing) /\
  (forall id, is_Some (m !! id) \/ id ∈ pp_id <$> l -> is_Some (m' !! id)).
Proof.
  revert m. induction l as [|p l IH]; intros m; cbn [try_fold].
  { intros [= <-]. split; [by left|]. intros id [?|Hin]; [done|]. by apply elem_of_nil in Hin. }
  intros (m1 & H1 & H)%result_bind_ok. apply result_bind_ok in H1 as (routing & Hr & [= <-]). apply IH in H as [Hs Hc]. split.
  - intros id r Hl. destruct (Hs id r Hl) as [Hm|(q & Hq & Hid & Hv)]; [|right; exists q; split; [by right|done]].
    apply lookup_insert_Some in Hm as [[<- <-]|[_ Hm]]; [|by left]. right. exists p. split; [apply list_elem_of_here|done].
  - intros id Hid. apply Hc. rewrite fmap_cons in Hid. destruct (decide (id = pp_id p)) as [->|Hne].
    + left. rewrite lookup_insert_eq. by eexists.
    + rewrite lookup_insert_ne by done. destruct Hid as [?|Hid]; [by left|]. apply elem_of_cons in Hid as [?|?]; [done|by right].
Qed.

Lemma shape_profiles_ids (l : list PolicyProfile) (ids ids' : gset str) : try_fold shape_profile ids l = Ok ids' -> forall id, id ∈ ids' <-> id ∈ ids \/ id ∈ pp_id <$> l.
Proof.
  revert ids. induction l as [|p l IH]; intros ids; cbn [try_fold].
  { intros [= <-] id. set_solver. }
  intros (c & Hc & H)%result_bind_ok id. unfold shape_profile in Hc. apply result_bind_ok in Hc as (_ & _ & Hc).
  destruct (bool_decide _); [done|]. injection Hc as <-. rewrite (IH _ H). rewrite fmap_cons. set_solver.
Qed.

Lemma shape_bindings_known ids l targets targets' :
  try_fold (shape_binding ids) targets l = Ok targets' -> Forall (fun b => b_profile_id b ∈ ids) l.
Proof.
  revert targets. induction l as [|b l IH]; intros targets; [constructor|]. cbn [try_fold].
  intros (c & Hc & H)%result_bind_ok. constructor; [|by eapply IH]. unfold shape_binding in Hc.
  apply result_bind_ok in Hc as (_ & _ & Hc). apply result_bind_ok in Hc as (_ & _ & Hc).
  destruct (bool_decide (b_profile_id b ∈ ids)) eqn:Hb; [|done]. by apply bool_decide_eq_true in Hb.
Qed.

(** The profile a binding of the document attaches to an identity. *)
Definition declared (d : PolicyDocument) (kind : BindingKind) (subject profile : str) : Prop :=
  exists b, b ∈ bindings d /\ b_kind b = kind /\ b_subject b = subject /\ b_profile_id b = profile.

Lemma bindings_fold (l : list PolicyBinding) (m : gmap (BindingKind * str) str) kind subject :
  let m' := foldl (fun m b => <[(b_kind b, b_subject b) := b_profile_id b]> m) m l in
  (forall profile, m' !! (kind, subject) = Some profile -> m !! (kind, subject) = Some profile \/
     exists b, b ∈ l /\ b_kind b = kind /\ b_subject b = subject /\ b_profile_id b = profile) /\
  (m' !! (kind, subject) = None -> m !! (kind, subject) = None /\
     forall b, b ∈ l -> b_kind b = kind -> b_subject b <> subject).
Proof.
  revert m. induction l as [|b l IH]; intros m m'; [split; [by left|split; [done|set_solver]]|].
  unfold m'. cbn [foldl]. destruct (IH (<[(b_kind b, b_subject b) := b_profile_id b]> m)) as [Hs Hn]. split.
  - intros profile Hl. destruct (Hs profile Hl) as [Hm|(x & Hx & Hr)]; [|right; exists x; split; [by right|done]].
    apply lookup_insert_Some in Hm as [[E <-]|[_ Hm]]; [|by left]. injection E as <- <-. right. exists b.
    split; [apply list_elem_of_here|done].
  - intros Hl. destruct (Hn Hl) as [Hm Hrest]. apply lookup_insert_None in Hm as [Hm Hne]. split; [done|].
    intros x Hx Hk Hsub. apply elem_of_cons in Hx as [->|Hx]; [by rewrite Hk, Hsub in Hne|by apply (Hrest x)].
Qed.

Definition identity (c : BindingContext) (kind : BindingKind) : option str :=
  match kind with Client => ctx_client_id c | Workspace => ctx_workspace_id c | Key => ctx_key_id c end.

(** Key before workspace before client. *)
Definition more_specific (kind : BindingKind) : list BindingKind :=
  match kind with Key => [] | Workspace => [Key] | Client => [Key; Workspace] end.

Definition unbound (d : PolicyDocument) (c : BindingContext) (kind : BindingKind) : Prop :=
  forall subject profile, identity c kind = Some subject -> ~ declared d kind subject profile.

(** The selection the document asks for. *)
Definition selects (d : PolicyDocument) (c : BindingContext) (kind : option BindingKind) (profile : str) : Prop :=
  match kind with
  | Some kind => (exists subject, identity c kind = Some subject /\ declared d kind subject profile) /\
                 Forall (unbound d c) (more_specific kind)
  | None => default_profile_id d = Ok profile /\ Forall (unbound d c) [Key; Workspace; Client]
  end.

Lemma resolve_bound_spec (d : PolicyDocument) (bound : gmap (BindingKind * str) str) c kinds :
  (forall kind subject profile, bound !! (kind, subject) = Some profile -> declared d kind subject profile) ->
  (forall kind subject profile, bound !! (kind, subject) = None -> ~ declared d kind subject profile) ->
  match resolve_bound bound (map (fun kind => (kind, identity c kind)) kinds) with
  | Some (kind, profile) => exists before after, kinds = before ++ kind :: after /\ Forall (unbound d c) before /\
      exists subject, identity c kind = Some subject /\ declared d kind subject profile
  | None => Forall (unbound d c) kinds
  end.
Proof.
  intros Hs Hn. induction kinds as [|kind kinds IH]; cbn [map resolve_bound]; [constructor|].
  destruct (identity c kind ≫= fun subject => bound !! (kind, subject)) as [profile|] eqn:Hb.
  - apply bind_Some in Hb as (subject & Hi & Hl). exists [], kinds. split; [done|]. split; [constructor|].
    exists subject. split; [done|by apply Hs].
  - assert (unbound d c kind) as Hu.
    { intros subject profile Hi. apply Hn. rewrite Hi in Hb. exact Hb. }
    destruct (resolve_bound _ _) as [[k profile]|]; [|by constructor].
    destruct IH as (before & after & -> & Hf & Hd). exists (kind :: before), after. split; [done|]. split; [by constructor|done].
Qed.

(** What [validate] establishes of a version. *)
Lemma validate_spec draft v :
  validate from_toml quote_toml draft = Ok v ->
  let d := draft_document draft in
  (forall kind subject profile, bindings_of v !! (kind, subject) = Some profile -> declared d kind subject profile) /\
  (forall kind subject profile, bindings_of v !! (kind, subject) = None -> ~ declared d kind subject profile) /\
  default_profile_id d = Ok (version_default v) /\
  (forall id routing, routing_of v !! id = Some routing ->
     exists p, p ∈ profiles d /\ pp_id p = id /\ profile_validate from_toml quote_toml p = Ok routing) /\
  is_Some (routing_of v !! version_default v) /\
  (forall kind subject profile, declared d kind subject profile -> is_Some (routing_of v !! profile)).
Proof.
  unfold validate. cbv zeta. set (d := draft_document draft). intros ([] & Hshape & H)%result_bind_ok. apply result_bind_ok in H as (routing & Hr & H).
  apply result_bind_ok in H as (default & Hd & [= <-]).
  cbn [bindings_of version_default routing_of].
  apply try_fold_profiles in Hr as [Hs Hc]. unfold validate_shape in Hshape.
  repeat match type of Hshape with (if ?b then _ else _) = _ => destruct b; [done|] end.
  apply result_bind_ok in Hshape as (ids & Hids & Hshape). pose proof (shape_profiles_ids _ _ _ Hids) as Hin.
  rewrite Hd in Hshape. cbn [result_bind] in Hshape.
  destruct (bool_decide (default ∈ ids)) eqn:Hdef; [|done]. apply bool_decide_eq_true in Hdef.
  cbn [negb] in Hshape. apply result_bind_ok in Hshape as (targets & Hb & _). apply shape_bindings_known in Hb.
  assert (forall id, id ∈ ids -> is_Some (routing !! id)) as Hsome.
  { intros id Hid. apply Hc. right. apply Hin in Hid as [Hid|Hid]; [by apply elem_of_empty in Hid|done]. }
  split_and!.
  - intros kind subject profile Hl. destruct (proj1 (bindings_fold (bindings d) ∅ kind subject) profile Hl) as [Hl'|Hl']; [|done].
    by rewrite lookup_empty in Hl'.
  - intros kind subject profile Hl (b & Hb' & Hk & Hsub & _).
    by apply (proj2 (proj2 (bindings_fold (bindings d) ∅ kind subject) Hl) b).
  - done.
  - intros id r Hl. destruct (Hs id r Hl) as [Hl'|Hl']; [by rewrite lookup_empty in Hl'|done].
  - by apply Hsome.
  - intros kind subject profile (b & Hb' & _ & _ & <-). apply Hsome. rewrite Forall_forall in Hb. by apply Hb.
Qed.

(** A profile of the document, read: canonical routing text and nothing else. *)
Definition reads_profile (d : PolicyDocument) (id : str) (routing : RoutingConfig) : Prop :=
  exists p, p ∈ profiles d /\ pp_id p = id /\ valid_routing routing /\
  routing_config_from_toml from_toml (pp_routing_toml p) (profile_where id) None StrictInput = Ok routing /\
  dump_routing_toml quote_toml routing = pp_routing_toml p.

Lemma profile_validate_reads d p routing :
  p ∈ profiles d -> profile_validate from_toml quote_toml p = Ok routing -> reads_profile d (pp_id p) routing.
Proof.
  intros Hp H. unfold profile_validate in H. apply result_bind_ok in H as (_ & _ & H).
  destruct (MAX_ROUTING_TOML_BYTES <? _); [done|]. apply result_bind_ok in H as (r & Hr & H).
  destruct (str_eqb _ _) eqn:He; [|done]. injection H as <-. apply str_eqb_eq in He.
  destruct (routing_config_from_toml _ _ _ _ _) as [x|] eqn:Hx; [|done]. injection Hr as ->.
  exists p. split_and!; [done|done|by eapply routing_config_from_toml_ok|done|done].
Qed.

(** Resolving a request against a validated policy always answers (the
    lookup that would panic finds its profile): with the profile bound to the
    request's key, else to its workspace, else to its client, else with the
    document's default; and with the routing that profile's canonical text
    parses to, which is valid. *)
Theorem resolve_most_specific draft v c :
  validate from_toml quote_toml draft = Ok v ->
  exists r, resolve v c = Some r /\ selects (draft_document draft) c (binding_kind r) (profile_id r) /\
  reads_profile (draft_document draft) (profile_id r) (resolved_routing r).
Proof.
  intros (Hs & Hn & Hdef & Hr & Hd & Hb)%validate_spec.
  pose proof (resolve_bound_spec _ (bindings_of v) c [Key; Workspace; Client] Hs Hn) as Hsel. cbn [map identity] in Hsel.
  unfold resolve. destruct (resolve_bound _ _) as [[kind profile]|]; cbn [fst fmap option_fmap option_map].
  - destruct Hsel as (before & after & E & Hf & subject & Hi & Hdecl).
    destruct (Hb _ _ _ Hdecl) as [routing Hl]. rewrite Hl. eexists. split; [done|].
    destruct (Hr _ _ Hl) as (p & Hp & <- & Hv). split; [|by eapply profile_validate_reads].
    split; [by exists subject|]. cbn. assert (more_specific kind = before) as ->; [|done].
    destruct before as [|k1 [|k2 [|k3 before]]]; cbn in E; injection E as; subst; try done. by destruct before.
  - destruct Hd as [routing Hl]. rewrite Hl. eexists. split; [done|].
    destruct (Hr _ _ Hl) as (p & Hp & E & Hv). cbn [profile_id resolved_routing binding_kind]. split; [by split|].
    rewrite <- E. by eapply profile_validate_reads.
Qed.
End Resolution.

(** ** Closed examples *)
Definition sample_actor : AdministrativeIdentity := {| issuer := lit "https://id.example"; subject := lit "operator-1" |}.

Definition binary_document : TomlValue :=
  TTable [(lit "routing", TTable [(lit "tiers", TArray (map tier_toml (binary_tiers (f64_dec 3 1))))])].

Definition sample_profile (id : string) : PolicyProfile :=
  {| pp_id := lit id; pp_routing_toml := dump_routing_toml plain_quote (RoutingConfig_binary (f64_dec 3 1)) |}.

Definition sample_document : PolicyDocument :=
  {| schema_version := POLICY_SCHEMA_VERSION; profiles := [sample_profile "default"; sample_profile "team"];
     doc_default_profile_id := Some (lit "default");
     bindings := [{| b_kind := Workspace; b_subject := lit "engineering"; b_profile_id := lit "team" |}] |}.

Definition sample_draft : DraftPolicyVersion :=
  {| draft_version_id := lit "wpv1-0"; draft_document := sample_document; drafted_by := sample_actor |}.

Definition empty_version : ValidatedPolicyVersion :=
  {| version_id := []; document := sample_document; version_drafted_by := sample_actor; routing_of := ∅; bindings_of := ∅;
     version_default := [] |}.

Definition sample_version : ValidatedPolicyVersion :=
  match validate (fun _ => Ok binary_document) plain_quote sample_draft with Ok v => v | Err _ => empty_version end.

Lemma sample_draft_valid : validate (fun _ => Ok binary_document) plain_quote sample_draft = Ok sample_version.
Proof. vm_compute. reflexivity. Qed.

Definition engineering : BindingContext :=
  {| ctx_client_id := None; ctx_workspace_id := Some (lit "engineering"); ctx_key_id := Some (lit "agent") |}.

Lemma resolve_most_specific_witness :
  profile_id <$> resolve sample_version engineering = Some (lit "team") /\
  exists r, resolve sample_version engineering = Some r /\
    selects sample_document engineering (binding_kind r) (profile_id r) /\
    reads_profile (fun _ => Ok binary_document) plain_quote sample_document (profile_id r) (resolved_routing r).
Proof.
  split; [vm_compute; reflexivity|].
  exact (resolve_most_specific (fun _ => Ok binary_document) plain_quote sample_draft sample_version engineering sample_draft_valid).
Defined.

(** A profile that holds more than routing is not canonical. *)
Example non_routing_profile_refused :
  profile_validate (fun _ => Ok (TTable [(lit "gateway", TTable [])])) plain_quote
    {| pp_id := lit "default"; pp_routing_toml := lit "[gateway]" |} = Err (NonCanonicalRouting (lit "default")).
Proof. vm_compute. reflexivity. Qed.

Definition sample_runtime : RuntimeState :=
  {| rs_admission_policy := 0; rs_shared_state_backend := None; rs_recent := 1; rs_metrics := 2; rs_deployment_cursors := 3;
     rs_deployment_signals := 4; rs_shadow_store := 5; rs_shadow_slots := 6; rs_evidence_labels := 7; rs_savings_ledger := 8;
     rs_savings_path := None; rs_audit_log := 9 |}.

Definition sample_state (shadow : bool) : AppState unit :=
  {| st_config := (); st_shadow_enabled := shadow; st_runtime := sample_runtime; st_policy := None;
     st_policy_version := lit "unmanaged"; st_policy_snapshot_id := lit "unmanaged" |}.

Definition start : result (PolicyLifecycle unit) PolicyError :=
  snd (bootstrap sample_version (lit "a") (Ok (sample_state false)) sample_actor 9 (Some []) (Ok ()) {[5%nat := false]}).

Definition started : PolicyLifecycle unit :=
  match start with
  | Ok l => l
  | Err _ => {| holder := LastGood_new (sample_state false) []; active := new_receipt [] []; history := [];
                runtimes_by_snapshot := ∅; lc_audit := None; lc_shadow_active := ∅ |}
  end.

Lemma start_ok :
  bootstrap sample_version (lit "a") (Ok (sample_state false)) sample_actor 9 (Some []) (Ok ()) {[5%nat := false]} =
  (lc_audit started, Ok started).
Proof. vm_compute. reflexivity. Qed.

Definition sample_ops : list (lifecycle_op unit) :=
  [OpActivate sample_version (lit "b") (Ok (sample_state true)) sample_actor (Ok ());
   OpActivate sample_version (lit "c") (Err (lit "unavailable")) sample_actor (Ok ());
   OpRollback (lit "d") sample_actor (Ok ());
   OpRollback (lit "e") sample_actor (Ok ())].

Lemma lifecycle_invariant_witness :
  NoDup (lit "a" :: map op_uuid sample_ops) /\
  lifecycle_ok (drawn (lit "a" :: map op_uuid sample_ops)) (st_runtime (lg_current (holder started)))
    (foldl run_op started sample_ops).
Proof.
  assert (NoDup (lit "a" :: map op_uuid sample_ops)) as H by (apply (bool_decide_unpack _); vm_compute; exact I).
  split; [exact H|]. exact (lifecycle_invariant _ _ _ _ _ _ _ _ _ started sample_ops start_ok H).
Defined.

Lemma started_ok : lifecycle_ok (drawn [lit "a"]) (st_runtime (lg_current (holder started))) started.
Proof. exact (bootstrap_ok _ _ _ _ _ _ _ _ _ _ start_ok). Qed.

Lemma rollback_restores_witness :
  snapshot_id_of (lit "b") ∉ drawn [lit "a"] /\ snapshot_id_of (lit "d") ∉ drawn [lit "a"] /\
  exists l1 r1 l2 r2,
    activate started sample_version (lit "b") (Ok (sample_state true)) sample_actor (Ok ()) = (l1, Ok (Activated r1)) /\
    rollback l1 (lit "d") sample_actor (Ok ()) = (l2, Ok r2) /\ rc_policy_version r2 = rc_policy_version (active started).
Proof.
  assert (snapshot_id_of (lit "b") ∉ drawn [lit "a"]) as Hb by (rewrite drawn_elem; apply (bool_decide_unpack _); vm_compute; exact I).
  assert (snapshot_id_of (lit "d") ∉ drawn [lit "a"]) as Hd by (rewrite drawn_elem; apply (bool_decide_unpack _); vm_compute; exact I).
  split; [exact Hb|]. split; [exact Hd|].
  destruct (rollback_restores _ _ started sample_version (lit "b") (lit "d") (sample_state true) sample_actor sample_actor
              started_ok Hb Hd ltac:(discriminate)) as (l1 & r1 & l2 & r2 & H1 & H2 & _ & H3 & _).
  exists l1, r1, l2, r2. split; [exact H1|]. split; [exact H2|exact H3].
Defined.

(** The shadow switch of the candidate is applied before the audit log answers:
    an activation that the log refuses leaves it switched. *)
Example refused_activation_switches_shadow :
  let '(l, r) := activate started sample_version (lit "b") (Ok (sample_state true)) sample_actor (Err (AuditFailed (lit "full"))) in
  is_ok r = false /\ active l = active started /\
  lc_shadow_active started !! 5%nat = Some false /\ lc_shadow_active l !! 5%nat = Some true.
Proof. vm_compute. repeat split. Qed.
