(* ===== verification/Modalities.v ===== *)
(** * The modality boundary (crate [wayfinder-gateway], [src/modalities.rs])

    Requests in the shape of another modality are refused before delivery. *)
From S2P Require Export Json.

Definition MAX_SCAN_DEPTH : nat := 64.

Definition BODY_FIELDS : list str := map lit
  ["input"; "images"; "image"; "image_url"; "audio"; "input_audio"; "audio_url"; "modalities"; "audio_config"; "voice";
   "format"; "batch"; "batch_id"; "file_id"; "input_file"; "files"]%string.

Definition NESTED_FIELDS : list str := map lit
  ["image_url"; "input_image"; "image"; "input_audio"; "audio"; "audio_url"; "input_file"; "file"; "file_id"]%string.

Definition unsupported_field (field : str) : message :=
  Msg "unsupported modality field '{field}'; this gateway build exposes text execution only" [ArgStr field].

Section Modalities.
Context {number : Type}.

Definition contains_key (members : list (str * Value number)) (field : str) : bool :=
  match obj_get members field with Some _ => true | None => false end.

(** [iter().find_map(f)]. *)
Fixpoint find_map {A B} (f : A -> option B) (l : list A) : option B :=
  match l with [] => None | x :: l => match f x with Some y => Some y | None => find_map f l end end.

Fixpoint find_nested_modality (value : Value number) (depth : nat) : option message :=
  if (MAX_SCAN_DEPTH <=? depth)%nat
  then Some (Msg "request nesting exceeds the modality validation depth of {MAX_SCAN_DEPTH}" [ArgInt (Z.of_nat MAX_SCAN_DEPTH)])
  else
    match value with
    | JArray values => find_map (fun value => find_nested_modality value (S depth)) values
    | JObject members =>
        match List.find (contains_key members) NESTED_FIELDS with
        | Some field => Some (unsupported_field field)
        | None => find_map (fun kv => find_nested_modality (snd kv) (S depth)) members
        end
    | JNull | JBool _ | JNumber _ | JString _ => None
    end.

Definition unsupported_text_surface (body : list (str * Value number)) : option message :=
  match List.find (contains_key body) BODY_FIELDS with
  | Some field => Some (unsupported_field field)
  | None => obj_get body (lit "messages") ≫= fun messages => find_nested_modality messages 0
  end.

(** ** What passes *)

(** [within v k w]: [w] lies [k] levels inside [v]. *)
Inductive within : Value number -> nat -> Value number -> Prop :=
| within_here v : within v 0 v
| within_array values v k w : v ∈ values -> within v k w -> within (JArray values) (S k) w
| within_object members name v k w : (name, v) ∈ members -> within v k w -> within (JObject members) (S k) w.

(** Neither too deep nor holding a field of another modality. *)
Definition plain_at (k : nat) (v : Value number) : Prop :=
  (k < MAX_SCAN_DEPTH)%nat /\
  match v with JObject members => Forall (fun field => contains_key members field = false) NESTED_FIELDS | _ => True end.

Lemma find_map_none {A B} (f : A -> option B) l : find_map f l = None <-> Forall (fun x => f x = None) l.
Proof.
  induction l as [|x l IH]; cbn [find_map]; [by split|]. rewrite Forall_cons, <- IH.
  destruct (f x); split; try done; [by intros [? ?]|by intros [? ?]].
Qed.

Lemma scan_none_forall {A} (f : A -> bool) l : List.find f l = None <-> Forall (fun x => f x = false) l.
Proof.
  induction l as [|x l IH]; cbn [List.find]; [by split|]. rewrite Forall_cons, <- IH.
  destruct (f x); split; try done; by intros [? ?].
Qed.

Lemma plain_leaf k (v : Value number) :
  match v with JArray _ | JObject _ => False | _ => True end ->
  (find_nested_modality v k = None <-> forall j w, within v j w -> plain_at (k + j) w).
Proof.
  intros Hv. assert (find_nested_modality v k = None <-> (k < MAX_SCAN_DEPTH)%nat) as ->.
  { destruct v; try done; cbn [find_nested_modality]; destruct (MAX_SCAN_DEPTH <=? k)%nat eqn:E;
      rewrite ?Nat.leb_le, ?Nat.leb_gt in E; split; (done || lia). }
  split.
  - intros Hk j w Hw. destruct Hw; try done. rewrite Nat.add_0_r. split; [done|]. by destruct v.
  - intros H. destruct (H 0%nat v (within_here v)) as [Hk _]. lia.
Qed.

Lemma nested_plain v : forall k, find_nested_modality v k = None <-> forall j w, within v j w -> plain_at (k + j) w.
Proof.
  induction v as [| | | |values IH|members IH] using Value_nested_ind; intros k.
  1-4: by apply plain_leaf.
  - cbn [find_nested_modality]. destruct (MAX_SCAN_DEPTH <=? k)%nat eqn:E; [apply Nat.leb_le in E|apply Nat.leb_gt in E].
    { split; [done|]. intros H. destruct (H 0%nat _ (within_here _)) as [Hk _]. lia. }
    rewrite find_map_none, Forall_forall. rewrite Forall_forall in IH. split.
    + intros H j w Hw. inversion Hw as [| ? v j' ? Hv Hw' |]; subst; [rewrite Nat.add_0_r; by split|].
      rewrite <- plus_n_Sm. by apply (IH v Hv (S k)); [apply H|].
    + intros H v Hv. apply (IH v Hv (S k)). intros j w Hw. cbn [Nat.add]. rewrite plus_n_Sm. apply H. by eapply within_array.
  - cbn [find_nested_modality]. destruct (MAX_SCAN_DEPTH <=? k)%nat eqn:E; [apply Nat.leb_le in E|apply Nat.leb_gt in E].
    { split; [done|]. intros H. destruct (H 0%nat _ (within_here _)) as [Hk _]. lia. }
    destruct (List.find _ _) as [field|] eqn:Hf.
    { split; [done|]. intros H. destruct (H 0%nat _ (within_here _)) as [_ Hp]. apply scan_none_forall in Hp. congruence. }
    apply scan_none_forall in Hf. rewrite find_map_none, Forall_forall. rewrite Forall_forall in IH. split.
    + intros H j w Hw. inversion Hw as [| | ? name v j' ? Hv Hw']; subst; [rewrite Nat.add_0_r; by split|].
      rewrite <- plus_n_Sm. apply (IH (name, v) Hv (S k)); [by apply (H (name, v))|done].
    + intros H [name v] Hv. apply (IH (name, v) Hv (S k)). intros j w Hw. cbn [Nat.add]. rewrite plus_n_Sm. apply H.
      by eapply within_object.
Qed.

(** The boundary passes a body exactly when it has none of the fields of
    another modality and, in its messages, every value lies at most 63 levels
    deep and no object, at whatever level, has a field of another modality. *)
Theorem text_surface_iff body :
  unsupported_text_surface body = None <->
  Forall (fun field => contains_key body field = false) BODY_FIELDS /\
  forall messages k v, obj_get body (lit "messages") = Some messages -> within messages k v -> plain_at k v.
Proof.
  unfold unsupported_text_surface. destruct (List.find (contains_key body) BODY_FIELDS) as [field|] eqn:Hf.
  { split; [done|]. intros [H _]. apply scan_none_forall in H. congruence. }
  apply scan_none_forall in Hf. destruct (obj_get body (lit "messages")) as [messages|]; cbn [mbind option_bind].
  - rewrite (nested_plain messages 0). split.
    + intros H. split; [done|]. intros m k v [= <-]. apply H.
    + intros [_ H] j w Hw. by apply (H messages).
  - split; [|done]. intros _. split; [done|]. by intros.
Qed.
End Modalities.

Example image_part_refused :
  unsupported_text_surface (number := Z)
    [(lit "messages", JArray [JObject [(lit "role", JString (lit "user"));
       (lit "content", JArray [JObject [(lit "type", JString (lit "image_url")); (lit "image_url", JObject [])]])]])]
  = Some (unsupported_field (lit "image_url")).
Proof. vm_compute. reflexivity. Qed.
