(* ===== verification/Anthropic.v ===== *)
(** * Anthropic and OpenAI messages (crate [wayfinder-providers], [src/anthropic.rs])

    The translation of an Anthropic request into an OpenAI chat request, and of
    a buffered chat completion into an Anthropic message.  Objects are built in
    the order of the insertions; [json!] numbers are those of [JsonBuild]. *)
From S2P Require Export Text Json.

(** ** Building values *)
Section Build.
Context {number : Type}.

(** [json!({"k": v, ..})]. *)
Definition jo (members : list (string * Value number)) : Value number := JObject (map (fun '(k, v) => (lit k, v)) members).
Definition js (s : string) : Value number := JString (lit s).

(** [map.insert] of a new member. *)
Definition member (k : string) (v : Value number) : str * Value number := (lit k, v).
End Build.

(** [n.to_string()], for [n] below [10 ^ digits]. *)
Fixpoint digits_loop (digits : nat) (n : Z) (acc : str) : str :=
  match digits with
  | O => acc
  | S digits => let acc := (48 + n mod 10) :: acc in if n <? 10 then acc else digits_loop digits (n / 10) acc
  end.
Definition digits_of (n : Z) : str := digits_loop 20 n [].

(** [format!("{code:04x}")]. *)
Definition hex_char (n : Z) : Z := if n <? 10 then 48 + n else 87 + n.
Definition hex4 (code : Z) : str :=
  [hex_char (code / 4096 mod 16); hex_char (code / 256 mod 16); hex_char (code / 16 mod 16); hex_char (code mod 16)].

Section Translate.
Context {number : Type} `{JsonNumber number, JsonText number, JsonBuild number}.
Implicit Types (v : Value number) (members : list (str * Value number)).

Definition get members (name : string) : option (Value number) := obj_get members (lit name).
Definition get_str members (name : string) : option str := get members name ≫= as_str.

(** [serde_json::to_string] and [serde_json::from_str]. *)
Definition json_to_string v : option str := match to_vec v with Ok bytes => from_utf8 bytes | Err _ => None end.
Definition json_from_str (s : str) : option (Value number) := match from_slice (as_bytes s) with Ok v => Some v | Err _ => None end.

Definition truthy v : bool :=
  match v with
  | JNull => false
  | JBool b => b
  | JNumber n => match number_as_f64 n with Some x => negb (f64_eq x f64_zero) | None => false end
  | JString s => negb (bool_decide (s = []))
  | JArray values => match values with [] => false | _ => true end
  | JObject members => match members with [] => false | _ => true end
  end.

Definition when_truthy (o : option (Value number)) : option (Value number) := v ← o; if truthy v then Some v else None.

Definition block_text v : option str :=
  match v with JString text => Some text | JObject block => get_str block "text" | _ => None end.

Definition flatten_text (o : option (Value number)) : str :=
  match o with
  | Some (JString text) => text
  | Some (JArray blocks) => str_join [10] (omap block_text blocks)
  | _ => []
  end.

(** ** Function arguments as CPython prints them *)
Definition escape_char (c : Z) : str :=
  if c <=? 126 then [c]
  else if c <=? 65535 then [92; 117] ++ hex4 c
  else
    let code := c - 65536 in
    [92; 117] ++ hex4 (55296 + Z.shiftr code 10) ++ [92; 117] ++ hex4 (56320 + Z.land code 1023).

Definition ascii_digit_byte (b : Z) : bool := (48 <=? b) && (b <=? 57).

(** The loop of [pad_python_exponents]; each round consumes a byte. *)
Fixpoint pad_loop (fuel : nat) (in_string escaped : bool) (bytes : list Z) : list Z :=
  match fuel with
  | O => []
  | S fuel =>
      match bytes with
      | [] => []
      | byte :: rest =>
          if in_string then
            byte :: (if escaped then pad_loop fuel true false rest
                     else if byte =? 92 then pad_loop fuel true true rest
                     else pad_loop fuel (negb (byte =? 34)) false rest)
          else if byte =? 34 then 34 :: pad_loop fuel true false rest
          else if negb (byte =? 101) && negb (byte =? 69) then byte :: pad_loop fuel false escaped rest
          else
            let sign := match rest with b :: _ => if (b =? 43) || (b =? 45) then [b] else [] | [] => [] end in
            let rest := drop (length sign) rest in
            let digits := take_while ascii_digit_byte rest in
            101 :: sign ++ (if len digits =? 1 then [48] else []) ++ digits ++
              pad_loop fuel false escaped (drop (length digits) rest)
      end
  end.

Definition pad_python_exponents (encoded : str) : str := pad_loop (S (length encoded)) false false encoded.

Definition python_compact_json v : str :=
  let encoded := default (lit "{}") (json_to_string v) in
  pad_python_exponents (encoded ≫= escape_char).

(** ** Requests *)
Definition translate_tool (tool : list (str * Value number)) : Value number :=
  let description :=
    match get_str tool "description" with
    | Some d => if bool_decide (d = []) then [] else [member "description" (JString d)]
    | None => []
    end in
  jo [("type", js "function");
      ("function", JObject ([member "name" (default (JString []) (get tool "name"));
                             member "parameters" (default (JObject []) (when_truthy (get tool "input_schema")))] ++ description))].

Definition translate_tool_choice (choice : Value number) : Value number :=
  if is_string choice then choice
  else match as_object choice with
  | None => js "auto"
  | Some members =>
      match get_str members "type" with
      | Some t =>
          if str_eqb t (lit "auto") then js "auto"
          else if str_eqb t (lit "any") then js "required"
          else if str_eqb t (lit "none") then js "none"
          else if str_eqb t (lit "tool") then
            match when_truthy (get members "name") with
            | Some name => jo [("type", js "function"); ("function", jo [("name", name)])]
            | None => js "auto"
            end
          else js "auto"
      | None => js "auto"
      end
  end.

(** What the loop over the blocks of a message collects. *)
Record Collected := {
  cl_text : list str;
  cl_tool_calls : list (Value number);
  cl_output : list (Value number);
}.

Definition tool_call_of (block : list (str * Value number)) : Value number :=
  let input := default (JObject []) (when_truthy (get block "input")) in
  jo [("id", default (JString []) (get block "id"));
      ("type", js "function");
      ("function", jo [("name", default (JString []) (get block "name")); ("arguments", JString (python_compact_json input))])].

Definition tool_result_of (block : list (str * Value number)) : Value number :=
  jo [("role", js "tool");
      ("tool_call_id", default (JString []) (get block "tool_use_id"));
      ("content", JString (flatten_text (get block "content")))].

Definition collect_block (c : Collected) (block : list (str * Value number)) : Collected :=
  match get_str block "type" with
  | None => c
  | Some t =>
      if str_eqb t (lit "text") then
        {| cl_text := cl_text c ++ option_list (get_str block "text"); cl_tool_calls := cl_tool_calls c; cl_output := cl_output c |}
      else if str_eqb t (lit "tool_use") then
        {| cl_text := cl_text c; cl_tool_calls := cl_tool_calls c ++ [tool_call_of block]; cl_output := cl_output c |}
      else if str_eqb t (lit "tool_result") then
        {| cl_text := cl_text c; cl_tool_calls := cl_tool_calls c; cl_output := cl_output c ++ [tool_result_of block] |}
      else c
  end.

Definition collect_blocks (blocks : list (Value number)) : Collected :=
  foldl collect_block {| cl_text := []; cl_tool_calls := []; cl_output := [] |} (omap as_object blocks).

Definition translate_message (message : list (str * Value number)) : list (Value number) :=
  let role := default JNull (get message "role") in
  match get message "content" with
  | None => []
  | Some (JString text) => [jo [("role", role); ("content", JString text)]]
  | Some (JArray blocks) =>
      let c := collect_blocks blocks in
      if bool_decide (as_str role = Some (lit "assistant")) then
        match cl_text c, cl_tool_calls c with
        | [], [] => cl_output c
        | text, calls =>
            cl_output c ++
            [JObject ([member "role" (js "assistant");
                       member "content" (match text with [] => JNull | _ => JString (str_join [10] text) end)] ++
                      match calls with [] => [] | _ => [member "tool_calls" (JArray calls)] end)]
        end
      else
        match cl_text c with
        | [] => cl_output c
        | text => cl_output c ++ [jo [("role", role); ("content", JString (str_join [10] text))]]
        end
  | Some _ => []
  end.

Definition optional_member (k : string) (o : option (Value number)) : list (str * Value number) :=
  match o with Some v => [member k v] | None => [] end.

Definition anthropic_to_openai_request (body : Value number) : Value number :=
  let body := default [] (as_object body) in
  let system := flatten_text (get body "system") in
  let messages :=
    (if bool_decide (system = []) then [] else [jo [("role", js "system"); ("content", JString system)]]) ++
    match get body "messages" ≫= as_array with
    | Some input => omap as_object input ≫= translate_message
    | None => []
    end in
  JObject
    ([member "model" (default (js "auto") (get body "model")); member "messages" (JArray messages)] ++
     optional_member "max_tokens" (get body "max_tokens") ++
     optional_member "temperature" (get body "temperature") ++
     optional_member "top_p" (get body "top_p") ++
     optional_member "stop" (when_truthy (get body "stop_sequences")) ++
     (match when_truthy (get body "stream") with Some _ => [member "stream" (JBool true)] | None => [] end) ++
     optional_member "tools" ((fun tools => JArray (map translate_tool (omap as_object tools))) <$> (when_truthy (get body "tools") ≫= as_array)) ++
     match get body "tool_choice" with
     | Some choice => if is_null choice then [] else [member "tool_choice" (translate_tool_choice choice)]
     | None => []
     end).

(** ** Responses *)
Definition estimate_text_tokens (text : str) : Z := if bool_decide (text = []) then 0 else Z.max (len text / 4) 1.

Definition reason_text (reason : option str) : str :=
  match reason with
  | Some r =>
      if str_eqb r (lit "length") then lit "max_tokens"
      else if str_eqb r (lit "tool_calls") || str_eqb r (lit "function_call") then lit "tool_use"
      else lit "end_turn"
  | None => lit "end_turn"
  end.

Definition stop_reason (reason : option (Value number)) : str := reason_text (reason ≫= as_str).

Definition usage (response : list (str * Value number)) (prompt completion : str) : Z * Z :=
  let reported :=
    members ← get response "usage" ≫= as_object;
    input ← get members "prompt_tokens" ≫= as_u64;
    output ← get members "completion_tokens" ≫= as_u64;
    Some (input, output) in
  default (estimate_text_tokens prompt, estimate_text_tokens completion) reported.

Definition get_object members (name : string) : option (list (str * Value number)) := get members name ≫= as_object.

Definition call_arguments (call : list (str * Value number)) : str :=
  default [] (f ← get_object call "function"; get_str f "arguments").

Definition tool_use_block (index : nat) (call : list (str * Value number)) : Value number :=
  let function := get_object call "function" in
  jo [("type", js "tool_use");
      ("id", default (JString (lit "toolu_" ++ digits_of (Z.of_nat index))) (when_truthy (get call "id")));
      ("name", default (JString []) (function ≫= (fun f => get f "name")));
      ("input", default (JObject []) (json_from_str (call_arguments call)))].

Definition openai_to_anthropic_response (response : Value number) (model message_id prompt_text : str) : Value number :=
  let response := default [] (as_object response) in
  let choice := (choices ← get response "choices" ≫= as_array; first ← head choices; as_object first) in
  let message := (c ← choice; get_object c "message") in
  let text := (m ← message; get_str m "content") in
  let calls := omap as_object (default [] (m ← message; get m "tool_calls" ≫= as_array)) in
  let content :=
    (match text with Some t => if bool_decide (t = []) then [] else [jo [("type", js "text"); ("text", JString t)]] | None => [] end) ++
    imap tool_use_block calls in
  let content := match content with [] => [jo [("type", js "text"); ("text", JString [])]] | _ => content end in
  let completion := default [] text ++ mjoin (map call_arguments calls) in
  let '(input_tokens, output_tokens) := usage response prompt_text completion in
  jo [("id", JString message_id); ("type", js "message"); ("role", js "assistant"); ("model", JString model);
      ("content", JArray content);
      ("stop_reason", JString (stop_reason (choice ≫= (fun c => get c "finish_reason"))));
      ("stop_sequence", JNull);
      ("usage", jo [("input_tokens", JNumber (number_of_u64 input_tokens)); ("output_tokens", JNumber (number_of_u64 output_tokens))])].

Definition anthropic_error_type (status : Z) : string :=
  if (status =? 400) || (status =? 402) || (status =? 422) then "invalid_request_error"
  else if status =? 401 then "authentication_error"
  else if status =? 403 then "permission_error"
  else if status =? 404 then "not_found_error"
  else if status =? 413 then "request_too_large"
  else if status =? 429 then "rate_limit_error"
  else if status =? 503 then "overloaded_error"
  else "api_error".

Definition anthropic_error (status : Z) (message : str) : Value number :=
  jo [("type", js "error"); ("error", jo [("type", js (anthropic_error_type status)); ("message", JString message)])].
End Translate.
