(* ===== verification/AnthropicStream.v ===== *)
(** * Streaming an Anthropic message (crate [wayfinder-providers], [src/anthropic.rs])

    [MessagesStreamTranslator]: the upstream OpenAI event stream, cut anywhere,
    becomes Anthropic frames.  Text is passed on at once; tool calls, which the
    upstream may interleave, are kept until the end.  A frame is a constructor,
    and [frame_bytes] its text.  An operation that fails drops the frames it has
    produced; the state it leaves is the model's too. *)
From S2P Require Export Sse Anthropic.

(** ** Frames *)
Inductive Frame :=
| MessageStart (message_id model : str) (input_tokens : Z)
| TextStart (index : Z)
| TextDelta (index : Z) (text : str)
| ToolStart (index : Z) (id name : str)
| ToolDelta (index : Z) (arguments : str)
| BlockStop (index : Z)
| MessageDelta (reason : str) (output_tokens : Z)
| MessageStop
| ErrorFrame (error_type message : str).

(** ** Limits and errors *)
Definition DEFAULT_MAX_STREAM_TOOL_CALLS : Z := 128.
Definition DEFAULT_MAX_STREAM_TOOL_BYTES : Z := 4 * 1024 * 1024.

Record AnthropicStreamLimits := {
  sl_max_line_bytes : Z;
  sl_max_event_bytes : Z;
  max_tool_calls : Z;
  max_tool_bytes : Z;
}.

Definition default_limits : AnthropicStreamLimits :=
  {| sl_max_line_bytes := DEFAULT_MAX_LINE_BYTES; sl_max_event_bytes := DEFAULT_MAX_EVENT_BYTES;
     max_tool_calls := DEFAULT_MAX_STREAM_TOOL_CALLS; max_tool_bytes := DEFAULT_MAX_STREAM_TOOL_BYTES |}.

Inductive AnthropicStreamError :=
| InvalidStreamLimits
| StreamDecode (e : SseDecodeError)
| TooManyToolCalls (limit : Z)
| ToolDataTooLarge (limit : Z).

Record BufferedToolCall := {
  tc_id : option str;
  tc_name : str;
  tc_arguments : str;
}.

Definition empty_tool : BufferedToolCall := {| tc_id := None; tc_name := []; tc_arguments := [] |}.

Record MessagesStreamTranslator := {
  mt_decoder : SseDecoder;
  mt_limits : AnthropicStreamLimits;
  mt_model : str;
  mt_message_id : str;
  mt_input_tokens : Z;
  mt_output_tokens : Z;
  mt_usage_seen : bool;
  mt_completion_chars : Z;
  mt_finish_reason : option str;
  mt_next_index : Z;
  mt_current_text_index : option Z;
  mt_tool_positions : gmap Z nat;
  mt_tools : list BufferedToolCall;
  mt_buffered_tool_bytes : Z;
  mt_started : bool;
  mt_terminal : bool;
}.

Notation translator := MessagesStreamTranslator.

(** ** Assignments of fields *)
Definition set_decoder (t : translator) (d : SseDecoder) : translator :=
  {| mt_decoder := d; mt_limits := mt_limits t; mt_model := mt_model t; mt_message_id := mt_message_id t;
     mt_input_tokens := mt_input_tokens t; mt_output_tokens := mt_output_tokens t; mt_usage_seen := mt_usage_seen t;
     mt_completion_chars := mt_completion_chars t; mt_finish_reason := mt_finish_reason t; mt_next_index := mt_next_index t;
     mt_current_text_index := mt_current_text_index t; mt_tool_positions := mt_tool_positions t; mt_tools := mt_tools t;
     mt_buffered_tool_bytes := mt_buffered_tool_bytes t; mt_started := mt_started t; mt_terminal := mt_terminal t |}.

Definition set_usage (t : translator) (input output : Z) (seen : bool) : translator :=
  {| mt_decoder := mt_decoder t; mt_limits := mt_limits t; mt_model := mt_model t; mt_message_id := mt_message_id t;
     mt_input_tokens := input; mt_output_tokens := output; mt_usage_seen := seen;
     mt_completion_chars := mt_completion_chars t; mt_finish_reason := mt_finish_reason t; mt_next_index := mt_next_index t;
     mt_current_text_index := mt_current_text_index t; mt_tool_positions := mt_tool_positions t; mt_tools := mt_tools t;
     mt_buffered_tool_bytes := mt_buffered_tool_bytes t; mt_started := mt_started t; mt_terminal := mt_terminal t |}.

Definition count_chars (t : translator) (text : str) : translator :=
  {| mt_decoder := mt_decoder t; mt_limits := mt_limits t; mt_model := mt_model t; mt_message_id := mt_message_id t;
     mt_input_tokens := mt_input_tokens t; mt_output_tokens := mt_output_tokens t; mt_usage_seen := mt_usage_seen t;
     mt_completion_chars := u64_sat_add (mt_completion_chars t) (len text); mt_finish_reason := mt_finish_reason t;
     mt_next_index := mt_next_index t; mt_current_text_index := mt_current_text_index t; mt_tool_positions := mt_tool_positions t;
     mt_tools := mt_tools t; mt_buffered_tool_bytes := mt_buffered_tool_bytes t; mt_started := mt_started t;
     mt_terminal := mt_terminal t |}.

Definition set_finish_reason (t : translator) (reason : str) : translator :=
  {| mt_decoder := mt_decoder t; mt_limits := mt_limits t; mt_model := mt_model t; mt_message_id := mt_message_id t;
     mt_input_tokens := mt_input_tokens t; mt_output_tokens := mt_output_tokens t; mt_usage_seen := mt_usage_seen t;
     mt_completion_chars := mt_completion_chars t; mt_finish_reason := Some reason; mt_next_index := mt_next_index t;
     mt_current_text_index := mt_current_text_index t; mt_tool_positions := mt_tool_positions t; mt_tools := mt_tools t;
     mt_buffered_tool_bytes := mt_buffered_tool_bytes t; mt_started := mt_started t; mt_terminal := mt_terminal t |}.

Definition set_blocks (t : translator) (next : Z) (current : option Z) : translator :=
  {| mt_decoder := mt_decoder t; mt_limits := mt_limits t; mt_model := mt_model t; mt_message_id := mt_message_id t;
     mt_input_tokens := mt_input_tokens t; mt_output_tokens := mt_output_tokens t; mt_usage_seen := mt_usage_seen t;
     mt_completion_chars := mt_completion_chars t; mt_finish_reason := mt_finish_reason t; mt_next_index := next;
     mt_current_text_index := current; mt_tool_positions := mt_tool_positions t; mt_tools := mt_tools t;
     mt_buffered_tool_bytes := mt_buffered_tool_bytes t; mt_started := mt_started t; mt_terminal := mt_terminal t |}.

Definition set_tools (t : translator) (positions : gmap Z nat) (tools : list BufferedToolCall) (bytes : Z) : translator :=
  {| mt_decoder := mt_decoder t; mt_limits := mt_limits t; mt_model := mt_model t; mt_message_id := mt_message_id t;
     mt_input_tokens := mt_input_tokens t; mt_output_tokens := mt_output_tokens t; mt_usage_seen := mt_usage_seen t;
     mt_completion_chars := mt_completion_chars t; mt_finish_reason := mt_finish_reason t; mt_next_index := mt_next_index t;
     mt_current_text_index := mt_current_text_index t; mt_tool_positions := positions; mt_tools := tools;
     mt_buffered_tool_bytes := bytes; mt_started := mt_started t; mt_terminal := mt_terminal t |}.

Definition set_flags (t : translator) (started terminal : bool) : translator :=
  {| mt_decoder := mt_decoder t; mt_limits := mt_limits t; mt_model := mt_model t; mt_message_id := mt_message_id t;
     mt_input_tokens := mt_input_tokens t; mt_output_tokens := mt_output_tokens t; mt_usage_seen := mt_usage_seen t;
     mt_completion_chars := mt_completion_chars t; mt_finish_reason := mt_finish_reason t; mt_next_index := mt_next_index t;
     mt_current_text_index := mt_current_text_index t; mt_tool_positions := mt_tool_positions t; mt_tools := mt_tools t;
     mt_buffered_tool_bytes := mt_buffered_tool_bytes t; mt_started := started; mt_terminal := terminal |}.

(** ** Construction *)
Definition translator_with (decoder : SseDecoder) (limits : AnthropicStreamLimits) (model message_id : str) (input_tokens : Z) : translator :=
  {| mt_decoder := decoder; mt_limits := limits; mt_model := model; mt_message_id := message_id; mt_input_tokens := input_tokens;
     mt_output_tokens := 0; mt_usage_seen := false; mt_completion_chars := 0; mt_finish_reason := None; mt_next_index := 0;
     mt_current_text_index := None; mt_tool_positions := ∅; mt_tools := []; mt_buffered_tool_bytes := 0; mt_started := false;
     mt_terminal := false |}.

Definition translator_new (model message_id : str) (input_tokens : Z) : translator :=
  translator_with default_decoder default_limits model message_id input_tokens.

Definition with_limits (model message_id : str) (input_tokens : Z) (limits : AnthropicStreamLimits) : result translator AnthropicStreamError :=
  if (sl_max_line_bytes limits =? 0) || (sl_max_event_bytes limits =? 0) || (max_tool_calls limits =? 0) || (max_tool_bytes limits =? 0)
  then Err InvalidStreamLimits
  else
    let? decoder := map_err StreamDecode (SseDecoder_new (sl_max_line_bytes limits) (sl_max_event_bytes limits)) in
    Ok (translator_with decoder limits model message_id input_tokens).

(** ** Operations *)

(** What an operation appends to the output. *)
Definition emits (A : Type) : Type := translator -> translator * result A AnthropicStreamError.

(** [a; b], where both append frames. *)
Definition and_then (a b : emits (list Frame)) : emits (list Frame) := fun t =>
  let '(t, r) := a t in
  match r with
  | Err e => (t, Err e)
  | Ok out => let '(t, r) := b t in (t, result_map (app out) r)
  end.

Definition start_message (t : translator) : translator * list Frame :=
  if mt_started t then (t, [])
  else (set_flags t true (mt_terminal t), [MessageStart (mt_message_id t) (mt_model t) (mt_input_tokens t)]).

Definition open_text (t : translator) : translator * list Frame * Z :=
  match mt_current_text_index t with
  | Some index => (t, [], index)
  | None =>
      let index := mt_next_index t in
      (set_blocks t (u64_sat_add index 1) (Some index), [TextStart index], index)
  end.

Definition set_bytes (t : translator) (candidate : Z) : translator * result unit AnthropicStreamError :=
  if max_tool_bytes (mt_limits t) <? candidate then (t, Err (ToolDataTooLarge (max_tool_bytes (mt_limits t))))
  else (set_tools t (mt_tool_positions t) (mt_tools t) candidate, Ok ()).

Definition replace_buffered_bytes (t : translator) (old_len new_len : Z) :=
  set_bytes t (u64_sat_add (u64_sat_sub (mt_buffered_tool_bytes t) old_len) new_len).

Definition add_buffered_bytes (t : translator) (amount : Z) := set_bytes t (u64_sat_add (mt_buffered_tool_bytes t) amount).

(** The position of an upstream index, a new one if it is new. *)
Definition tool_position (t : translator) (upstream_index : Z) : translator * result nat AnthropicStreamError :=
  match mt_tool_positions t !! upstream_index with
  | Some position => (t, Ok position)
  | None =>
      if max_tool_calls (mt_limits t) <=? len (mt_tools t) then (t, Err (TooManyToolCalls (max_tool_calls (mt_limits t))))
      else
        let position := length (mt_tools t) in
        (set_tools t (<[upstream_index := position]> (mt_tool_positions t)) (mt_tools t ++ [empty_tool]) (mt_buffered_tool_bytes t),
         Ok position)
  end.

Definition update_tool (t : translator) (position : nat) (f : BufferedToolCall -> BufferedToolCall) : translator :=
  set_tools t (mt_tool_positions t) (alter f position (mt_tools t)) (mt_buffered_tool_bytes t).

Definition tool_at (t : translator) (position : nat) : BufferedToolCall := default empty_tool (mt_tools t !! position).

Definition set_tool_id (x : str) (c : BufferedToolCall) : BufferedToolCall :=
  {| tc_id := Some x; tc_name := tc_name c; tc_arguments := tc_arguments c |}.
Definition set_tool_name (x : str) (c : BufferedToolCall) : BufferedToolCall :=
  {| tc_id := tc_id c; tc_name := x; tc_arguments := tc_arguments c |}.
Definition push_arguments (x : str) (c : BufferedToolCall) : BufferedToolCall :=
  {| tc_id := tc_id c; tc_name := tc_name c; tc_arguments := tc_arguments c ++ x |}.

(** Runs [f] on a text that is present and not empty. *)
Definition on_text (o : option str) (t : translator) (f : str -> translator -> translator * result unit AnthropicStreamError) :=
  match o with
  | Some text => if bool_decide (text = []) then (t, Ok ()) else f text t
  | None => (t, Ok ())
  end.

(** [first?; second]. *)
Definition try (r : translator * result unit AnthropicStreamError) (k : translator -> translator * result unit AnthropicStreamError) :=
  match r with (t, Ok _) => k t | (t, Err e) => (t, Err e) end.

Definition id_len (c : BufferedToolCall) : Z := match tc_id c with Some x => str_len x | None => 0 end.

Definition store_id (position : nat) (x : str) (t : translator) :=
  try (replace_buffered_bytes t (id_len (tool_at t position)) (str_len x)) (fun t => (update_tool t position (set_tool_id x), Ok ())).

Definition store_name (position : nat) (x : str) (t : translator) :=
  try (replace_buffered_bytes t (str_len (tc_name (tool_at t position))) (str_len x)) (fun t => (update_tool t position (set_tool_name x), Ok ())).

Definition store_arguments (position : nat) (x : str) (t : translator) :=
  try (add_buffered_bytes t (str_len x)) (fun t => (count_chars (update_tool t position (push_arguments x)) x, Ok ())).

Section Stream.
Context {number : Type} `{JsonNumber number, JsonText number}.
Implicit Types (t : translator) (members : list (str * Value number)).

Definition feed_tool_call (tool_call : list (str * Value number)) (t : translator) : translator * result unit AnthropicStreamError :=
  let upstream_index := default 0 (get tool_call "index" ≫= as_u64) in
  match tool_position t upstream_index with
  | (t, Err e) => (t, Err e)
  | (t, Ok position) =>
      let function := get_object tool_call "function" in
      try (on_text (get_str tool_call "id") t (store_id position)) (fun t =>
      try (on_text (f ← function; get_str f "name") t (store_name position)) (fun t =>
      on_text (f ← function; get_str f "arguments") t (store_arguments position)))
  end.

Fixpoint feed_tool_calls (calls : list (list (str * Value number))) (t : translator) : translator * result unit AnthropicStreamError :=
  match calls with
  | [] => (t, Ok ())
  | call :: calls => try (feed_tool_call call t) (feed_tool_calls calls)
  end.

(** The counts of a [usage] object. *)
Definition feed_usage (payload : list (str * Value number)) (t : translator) : translator :=
  match get_object payload "usage" with
  | None => t
  | Some usage =>
      let '(output, seen) :=
        match get usage "completion_tokens" ≫= as_u64 with
        | Some tokens => (tokens, true)
        | None => (mt_output_tokens t, mt_usage_seen t)
        end in
      let input := default (mt_input_tokens t) (get usage "prompt_tokens" ≫= as_u64) in
      set_usage t input output seen
  end.

Definition feed_content (delta : list (str * Value number)) (t : translator) : translator * list Frame :=
  match get_str delta "content" with
  | Some text =>
      if bool_decide (text = []) then (t, [])
      else
        let '(t, opened, index) := open_text t in
        (count_chars t text, opened ++ [TextDelta index text])
  | None => (t, [])
  end.

Definition feed_reason (choice : list (str * Value number)) (t : translator) : translator :=
  match get_str choice "finish_reason" with
  | Some reason => if bool_decide (reason = []) then t else set_finish_reason t reason
  | None => t
  end.

Definition feed_choice (choice : list (str * Value number)) : emits (list Frame) := fun t =>
  let '(t, out, r) :=
    match get_object choice "delta" with
    | None => (t, [], Ok ())
    | Some delta =>
        let '(t, out) := feed_content delta t in
        let '(t, r) := feed_tool_calls (omap as_object (default [] (get delta "tool_calls" ≫= as_array))) t in
        (t, out, r)
    end in
  match r with
  | Err e => (t, Err e)
  | Ok _ => (feed_reason choice t, Ok out)
  end.

Fixpoint feed_choices (choices : list (list (str * Value number))) : emits (list Frame) :=
  match choices with
  | [] => fun t => (t, Ok [])
  | choice :: choices => and_then (feed_choice choice) (feed_choices choices)
  end.

Definition feed_payload (payload : Value number) : emits (list Frame) := fun t =>
  match as_object payload with
  | None => (t, Ok [])
  | Some payload =>
      let t := feed_usage payload t in
      match get payload "choices" ≫= as_array with
      | None => (t, Ok [])
      | Some choices => feed_choices (omap as_object choices) t
      end
  end.

(** ** Termination of a message *)
Definition tool_frames (index : Z) (tool : BufferedToolCall) : list Frame :=
  [ToolStart index (default (lit "toolu_" ++ digits_of index) (tc_id tool)) (tc_name tool)] ++
  (if bool_decide (tc_arguments tool = []) then [] else [ToolDelta index (tc_arguments tool)]) ++
  [BlockStop index].

Fixpoint tools_frames (index : Z) (tools : list BufferedToolCall) : list Frame * Z :=
  match tools with
  | [] => ([], index)
  | tool :: tools =>
      let '(rest, last) := tools_frames (u64_sat_add index 1) tools in (tool_frames index tool ++ rest, last)
  end.

Definition clear_buffered_tools (t : translator) : translator := set_tools t ∅ [] 0.

Definition final_tokens (t : translator) : Z :=
  if mt_usage_seen t then mt_output_tokens t
  else if mt_completion_chars t =? 0 then 0 else Z.max (mt_completion_chars t / 4) 1.

Definition finish_message (t : translator) : translator * list Frame :=
  if mt_terminal t then (t, [])
  else
    let stop := match mt_current_text_index t with Some index => [BlockStop index] | None => [] end in
    let '(tools, next) := tools_frames (mt_next_index t) (mt_tools t) in
    let empty := if next =? 0 then [TextStart 0; BlockStop 0] else [] in
    let out := stop ++ tools ++ empty ++ [MessageDelta (reason_text (mt_finish_reason t)) (final_tokens t); MessageStop] in
    (clear_buffered_tools (set_flags (set_blocks t next None) (mt_started t) true), out).

Definition finish_error (error_type message : str) (t : translator) : translator * list Frame :=
  if mt_terminal t then (t, [])
  else (clear_buffered_tools (set_flags (set_blocks t (mt_next_index t) None) (mt_started t) true), [ErrorFrame error_type message]).

Definition known_error_types : list str :=
  map lit ["invalid_request_error"; "authentication_error"; "permission_error"; "not_found_error"; "request_too_large";
           "rate_limit_error"; "overloaded_error"; "api_error"]%string.

Definition or_else {A} (o o' : option A) : option A := match o with Some x => Some x | None => o' end.

Definition stream_error (event_type : str) (payload : Value number) (raw : str) : option (str * str) :=
  let object := as_object payload in
  let nested := (o ← object; get o "error") in
  let declared := (o ← object; get_str o "type") in
  if negb ((match nested with Some _ => true | None => false end) || str_eqb event_type (lit "error") || bool_decide (declared = Some (lit "error"))) then None
  else
    let detail := default payload nested in
    let source_type := default (lit "api_error") (d ← as_object detail; get_str d "type") in
    let error_type := if bool_decide (source_type ∈ known_error_types) then source_type else lit "api_error" in
    let message :=
      default raw (or_else (d ← as_object detail; get_str d "message") (or_else (as_str detail) (o ← object; get_str o "message"))) in
    Some (error_type, message).

(** The events of one decoding, up to the one that ends the stream. *)
Fixpoint process_events (events : list SseEvent) : emits (list Frame) := fun t =>
  match events with
  | [] => (t, Ok [])
  | event :: events =>
      if mt_terminal t then (t, Ok [])
      else
        let data := trim (ev_data event) in
        if str_eqb data (lit "[DONE]") then let '(t, out) := finish_message t in (t, Ok out)
        else match json_from_str data with
        | None =>
            if str_eqb (ev_event event) (lit "error") then
              and_then (fun t => let '(t, out) := finish_error (lit "api_error") data t in (t, Ok out)) (process_events events) t
            else process_events events t
        | Some payload =>
            match stream_error (ev_event event) payload data with
            | Some (error_type, message) => let '(t, out) := finish_error error_type message t in (t, Ok out)
            | None => and_then (feed_payload payload) (process_events events) t
            end
        end
  end.

(** Decodes, and processes what was decoded. *)
Definition decoded (decode : SseDecoder -> SseDecoder * result (list SseEvent) SseDecodeError) : emits (list Frame) := fun t =>
  let '(d, r) := decode (mt_decoder t) in
  let t := set_decoder t d in
  match r with
  | Err e => (t, Err (StreamDecode e))
  | Ok events => process_events events t
  end.

Definition push (chunk : list Z) : emits (list Frame) :=
  and_then (fun t => let '(t, out) := start_message t in (t, Ok out))
    (fun t => if mt_terminal t then (t, Ok []) else decoded (fun d => Sse.push d chunk) t).

Definition finish : emits (list Frame) :=
  and_then (fun t => let '(t, out) := start_message t in (t, Ok out))
    (fun t => if mt_terminal t then (t, Ok [])
              else and_then (decoded Sse.finish)
                     (fun t => let '(t, out) := finish_message t in (t, Ok out)) t).

Fixpoint push_all (fragments : list (list Z)) : emits (list Frame) :=
  match fragments with
  | [] => fun t => (t, Ok [])
  | fragment :: fragments =>
      and_then (push fragment) (fun t => if mt_terminal t then (t, Ok []) else push_all fragments t)
  end.

Definition translate_openai_sse_fragments (fragments : list (list Z)) (model message_id : str) (input_tokens : Z)
    : result (list Frame) AnthropicStreamError :=
  snd (and_then (fun t => let '(t, out) := start_message t in (t, Ok out)) (and_then (push_all fragments) finish)
         (translator_new model message_id input_tokens)).

(** ** The text of a frame *)
Definition quotes (s : string) : str := map (fun c => if c =? 39 then 34 else c) (lit s).
Definition quoted (value : str) : str := default [34; 34] (json_to_string (JString value)).

Definition sse_frame (event : string) (data : str) : list Z :=
  as_bytes (lit "event: " ++ lit event ++ [10] ++ lit "data: " ++ data ++ [10; 10]).

Definition frame_bytes (f : Frame) : list Z :=
  match f with
  | MessageStart id model input =>
      sse_frame "message_start"
        (quotes "{'type':'message_start','message':{'id':" ++ quoted id ++ quotes ",'type':'message','role':'assistant','model':" ++
         quoted model ++ quotes ",'content':[],'stop_reason':null,'stop_sequence':null,'usage':{'input_tokens':" ++ digits_of input ++
         quotes ",'output_tokens':0}}}")
  | TextStart index =>
      sse_frame "content_block_start"
        (quotes "{'type':'content_block_start','index':" ++ digits_of index ++ quotes ",'content_block':{'type':'text','text':''}}")
  | TextDelta index text =>
      sse_frame "content_block_delta"
        (quotes "{'type':'content_block_delta','index':" ++ digits_of index ++ quotes ",'delta':{'type':'text_delta','text':" ++
         quoted text ++ quotes "}}")
  | ToolStart index id name =>
      sse_frame "content_block_start"
        (quotes "{'type':'content_block_start','index':" ++ digits_of index ++ quotes ",'content_block':{'type':'tool_use','id':" ++
         quoted id ++ quotes ",'name':" ++ quoted name ++ quotes ",'input':{}}}")
  | ToolDelta index arguments =>
      sse_frame "content_block_delta"
        (quotes "{'type':'content_block_delta','index':" ++ digits_of index ++
         quotes ",'delta':{'type':'input_json_delta','partial_json':" ++ quoted arguments ++ quotes "}}")
  | BlockStop index => sse_frame "content_block_stop" (quotes "{'type':'content_block_stop','index':" ++ digits_of index ++ quotes "}")
  | MessageDelta reason output =>
      sse_frame "message_delta"
        (quotes "{'type':'message_delta','delta':{'stop_reason':" ++ quoted reason ++
         quotes ",'stop_sequence':null},'usage':{'output_tokens':" ++ digits_of output ++ quotes "}}")
  | MessageStop => sse_frame "message_stop" (quotes "{'type':'message_stop'}")
  | ErrorFrame error_type message =>
      sse_frame "error" (quotes "{'type':'error','error':{'type':" ++ quoted error_type ++ quotes ",'message':" ++ quoted message ++ quotes "}}")
  end.
End Stream.

(** ** Memory *)
Definition tool_size (c : BufferedToolCall) : Z := id_len c + str_len (tc_name c) + str_len (tc_arguments c).
Definition tools_size (tools : list BufferedToolCall) : Z := foldr (fun c n => tool_size c + n) 0 tools.

(** Limits that the counters cannot reach by saturation. *)
Definition limits_ok (l : AnthropicStreamLimits) : Prop := max_tool_calls l < u64_max /\ 0 <= max_tool_bytes l < u64_max.

(** The buffered calls fit their bounds, and the byte count is theirs. *)
Record bounded (l : AnthropicStreamLimits) (t : translator) : Prop := {
  bo_limits : mt_limits t = l;
  bo_decoder : wf_decoder (mt_decoder t);
  bo_calls : len (mt_tools t) <= Z.max 0 (max_tool_calls l);
  bo_count : mt_buffered_tool_bytes t = tools_size (mt_tools t);
  bo_bytes : mt_buffered_tool_bytes t <= max_tool_bytes l;
  bo_positions : forall k p, mt_tool_positions t !! k = Some p -> (p < length (mt_tools t))%nat;
}.

Lemma tool_size_nonneg c : 0 <= tool_size c.
Proof.
  unfold tool_size, id_len. pose proof (str_len_nonneg (tc_name c)). pose proof (str_len_nonneg (tc_arguments c)).
  destruct (tc_id c) as [x|]; [pose proof (str_len_nonneg x)|]; lia.
Qed.

Lemma tools_size_cons c tools : tools_size (c :: tools) = tool_size c + tools_size tools.
Proof. done. Qed.

Lemma tools_size_nonneg tools : 0 <= tools_size tools.
Proof. induction tools as [|c tools IH]; [done|]. rewrite tools_size_cons. pose proof (tool_size_nonneg c). lia. Qed.

Lemma tools_size_app a b : tools_size (a ++ b) = tools_size a + tools_size b.
Proof. induction a as [|c a IH]; [done|]. cbn [app]. rewrite !tools_size_cons. lia. Qed.

Lemma tools_size_alter f tools p c : tools !! p = Some c -> tools_size (alter f p tools) = tools_size tools - tool_size c + tool_size (f c).
Proof.
  revert p. induction tools as [|c' tools IH]; intros [|p] Hp; [done..| |].
  - injection Hp as ->. change (alter f 0%nat (c :: tools)) with (f c :: tools). rewrite !tools_size_cons. lia.
  - change (alter f (S p) (c' :: tools)) with (c' :: alter f p tools). rewrite !tools_size_cons, (IH p Hp). lia.
Qed.

Lemma tools_size_ge tools p c : tools !! p = Some c -> tool_size c <= tools_size tools.
Proof.
  intros Hp. rewrite <-(take_drop_middle tools p c Hp), tools_size_app, tools_size_cons.
  pose proof (tools_size_nonneg (take p tools)). pose proof (tools_size_nonneg (drop (S p) tools)). lia.
Qed.

(** The part of the state the frames depend on. *)
Definition same_stream (t t' : translator) : Prop :=
  mt_started t' = mt_started t /\ mt_terminal t' = mt_terminal t /\ mt_next_index t' = mt_next_index t /\
  mt_current_text_index t' = mt_current_text_index t.

Lemma same_stream_trans t1 t2 t3 : same_stream t1 t2 -> same_stream t2 t3 -> same_stream t1 t3.
Proof. unfold same_stream. intuition congruence. Qed.

(** An operation on the buffered calls. *)
Definition keeps l (t : translator) (r : translator * result unit AnthropicStreamError) : Prop := bounded l (fst r) /\ same_stream t (fst r).

Lemma keeps_try l t r k : keeps l t r -> (forall t', bounded l t' -> same_stream t t' -> keeps l t (k t')) -> keeps l t (try r k).
Proof. destruct r as [t' [u|e]]; intros [Hb Hs] Hk; cbn [try]; [by apply Hk|done]. Qed.

(** Replaces [old] bytes of a call by [new] of them. *)
Lemma store_keeps l t p c f old new (g : translator -> translator) :
  limits_ok l -> bounded l t -> mt_tools t !! p = Some c -> 0 <= old <= tool_size c -> 0 <= new -> tool_size (f c) = tool_size c - old + new ->
  (forall t', mt_limits (g t') = mt_limits t' /\ mt_decoder (g t') = mt_decoder t' /\ mt_tools (g t') = mt_tools t' /\
     mt_buffered_tool_bytes (g t') = mt_buffered_tool_bytes t' /\ mt_tool_positions (g t') = mt_tool_positions t' /\ same_stream t' (g t')) ->
  keeps l t (try (set_bytes t (u64_sat_add (u64_sat_sub (mt_buffered_tool_bytes t) old) new)) (fun t => (g (update_tool t p f), Ok ()))).
Proof.
  intros [_ Hl] Hb Hp Hold Hnew Hsize Hg. pose proof Hb as [Hbl Hbd Hbc Hbn Hbb Hbp]. unfold set_bytes. rewrite Hbl.
  set (candidate := u64_sat_add _ new). destruct (Z.ltb_spec (max_tool_bytes l) candidate) as [|Hle]; cbn [try]; [by split|].
  assert (Hc : candidate = tools_size (mt_tools t) - old + new).
  { unfold candidate, u64_sat_add, u64_sat_sub in *. rewrite Hbn in *. pose proof (tools_size_ge _ _ _ Hp). lia. }
  destruct (Hg (update_tool (set_tools t (mt_tool_positions t) (mt_tools t) candidate) p f)) as (G1 & G2 & G3 & G4 & G5 & G6).
  split; cbn [fst].
  - constructor; rewrite ?G1, ?G2, ?G3, ?G4, ?G5; cbn [update_tool set_tools mt_limits mt_decoder mt_tools mt_buffered_tool_bytes mt_tool_positions].
    + done.
    + done.
    + unfold len. by rewrite length_alter.
    + rewrite (tools_size_alter f _ p c Hp). lia.
    + done.
    + intros k q Hk. rewrite length_alter. by eapply Hbp.
  - eapply same_stream_trans; [|exact G6]. done.
Qed.

Lemma tool_position_ok l t i t' r : limits_ok l -> bounded l t -> tool_position t i = (t', r) ->
  bounded l t' /\ same_stream t t' /\ forall p, r = Ok p -> (p < length (mt_tools t'))%nat.
Proof.
  intros [Hcalls Hbytes] Hb. pose proof Hb as [Hbl Hbd Hbc Hbn Hbb Hbp]. unfold tool_position.
  destruct (mt_tool_positions t !! i) as [p|] eqn:Ep; [intros [= <- <-]; split_and!; [done|done|intros q [= <-]; by eapply Hbp]|].
  rewrite Hbl. destruct (Z.leb_spec (max_tool_calls l) (len (mt_tools t))) as [|Hlt]; [by intros [= <- <-]|].
  intros [= <- <-]. cbn [set_tools mt_tools]. split_and!; [|done|].
  - constructor; cbn [set_tools mt_limits mt_decoder mt_tools mt_buffered_tool_bytes mt_tool_positions]; try done.
    + unfold len in *. rewrite length_app. cbn [length]. lia.
    + rewrite tools_size_app. change (tools_size [empty_tool]) with 0. lia.
    + intros k q. rewrite length_app. cbn [length]. intros [[_ <-]|[_ Hk]]%lookup_insert_Some; [lia|]. pose proof (Hbp k q Hk). lia.
  - intros q [= <-]. rewrite length_app. cbn [length]. lia.
Qed.

Lemma tool_at_lookup t p : (p < length (mt_tools t))%nat -> mt_tools t !! p = Some (tool_at t p).
Proof. intros Hp. unfold tool_at. by destruct (lookup_lt_is_Some_2 _ _ Hp) as [c ->]. Qed.

(** A store keeps the calls, and their number. *)
Definition stores l (p : nat) (m : translator -> translator * result unit AnthropicStreamError) : Prop :=
  forall t, bounded l t -> (p < length (mt_tools t))%nat -> keeps l t (m t) /\ length (mt_tools (fst (m t))) = length (mt_tools t).

Lemma set_bytes_tools t n : mt_tools (fst (set_bytes t n)) = mt_tools t.
Proof. unfold set_bytes. by destruct (_ <? _). Qed.

Lemma stores_id l p x : limits_ok l -> stores l p (store_id p x).
Proof.
  intros Hl t Hb Hp. unfold store_id, replace_buffered_bytes. split.
  - eapply (store_keeps l t p (tool_at t p) (set_tool_id x) (id_len (tool_at t p)) (str_len x) (fun t => t)); [done|done| | | | |done].
    + by apply tool_at_lookup.
    + unfold tool_size, id_len. pose proof (str_len_nonneg (tc_name (tool_at t p))). pose proof (str_len_nonneg (tc_arguments (tool_at t p))).
      destruct (tc_id _) as [y|]; [pose proof (str_len_nonneg y)|]; lia.
    + apply str_len_nonneg.
    + unfold tool_size. cbn [set_tool_id tc_name tc_arguments]. unfold id_len at 1. cbn [set_tool_id tc_id]. lia.
  - set (n := u64_sat_add _ _). pose proof (set_bytes_tools t n) as Ht. destruct (set_bytes t n) as [t' [u|e]]; cbn [try fst] in *; [|by rewrite Ht].
    cbn [update_tool set_tools mt_tools]. by rewrite length_alter, Ht.
Qed.

Lemma stores_name l p x : limits_ok l -> stores l p (store_name p x).
Proof.
  intros Hl t Hb Hp. unfold store_name, replace_buffered_bytes. split.
  - eapply (store_keeps l t p (tool_at t p) (set_tool_name x) (str_len (tc_name (tool_at t p))) (str_len x) (fun t => t)); [done|done| | | | |done].
    + by apply tool_at_lookup.
    + unfold tool_size, id_len. pose proof (str_len_nonneg (tc_name (tool_at t p))). pose proof (str_len_nonneg (tc_arguments (tool_at t p))).
      destruct (tc_id _) as [y|]; [pose proof (str_len_nonneg y)|]; lia.
    + apply str_len_nonneg.
    + unfold tool_size, id_len. cbn [set_tool_name tc_id tc_name tc_arguments]. lia.
  - set (n := u64_sat_add _ _). pose proof (set_bytes_tools t n) as Ht. destruct (set_bytes t n) as [t' [u|e]]; cbn [try fst] in *; [|by rewrite Ht].
    cbn [update_tool set_tools mt_tools]. by rewrite length_alter, Ht.
Qed.

Lemma stores_arguments l p x : limits_ok l -> stores l p (store_arguments p x).
Proof.
  intros Hl t Hb Hp. unfold store_arguments, add_buffered_bytes. split.
  - assert (Hz : mt_buffered_tool_bytes t = u64_sat_sub (mt_buffered_tool_bytes t) 0).
    { unfold u64_sat_sub. rewrite (bo_count _ _ Hb). pose proof (tools_size_nonneg (mt_tools t)). lia. }
    rewrite Hz.
    eapply (store_keeps l t p (tool_at t p) (push_arguments x) 0 (str_len x) (fun t => count_chars t x)); [done|done| | | | |by intros].
    + by apply tool_at_lookup.
    + pose proof (tool_size_nonneg (tool_at t p)). lia.
    + apply str_len_nonneg.
    + unfold tool_size, id_len. cbn [push_arguments tc_id tc_name tc_arguments]. rewrite str_len_app. lia.
  - set (n := u64_sat_add _ _). pose proof (set_bytes_tools t n) as Ht. destruct (set_bytes t n) as [t' [u|e]]; cbn [try fst] in *; [|by rewrite Ht].
    cbn [count_chars update_tool set_tools mt_tools]. by rewrite length_alter, Ht.
Qed.

Lemma stores_on_text l p o f : (forall x, stores l p (f x)) -> stores l p (fun t => on_text o t f).
Proof.
  intros Hf t Hb Hp. unfold on_text. destruct o as [x|]; [|by split]. destruct (bool_decide (x = [])); [by split|]. by apply Hf.
Qed.

Lemma stores_try l p m k : stores l p m -> stores l p k -> stores l p (fun t => try (m t) k).
Proof.
  intros Hm Hk t Hb Hp. destruct (Hm t Hb Hp) as [[Hb1 Hs1] Hlen]. destruct (m t) as [t1 [u|e]]; cbn [try fst] in *; [|by split].
  destruct (Hk t1 Hb1 ltac:(lia)) as [[Hb2 Hs2] Hlen2]. split; [|lia]. split; [done|]. by eapply same_stream_trans.
Qed.

(** ** The protocol of the frames

    What a client of the Messages stream relies on: one opening, blocks one
    after another with consecutive indices, each opened, filled and closed, at
    least one block, then the closing pair; an error ends the stream. *)
Inductive phase :=
| Opening
| Between (next : Z)
| InText (index : Z)
| InTool (index : Z)
| Closing
| Ended.

Definition protocol_step (p : phase) (f : Frame) : option phase :=
  match p, f with
  | Opening, MessageStart _ _ _ => Some (Between 0)
  | Between n, TextStart i => if i =? n then Some (InText n) else None
  | Between n, ToolStart i _ _ => if i =? n then Some (InTool n) else None
  | InText n, TextDelta i text => if (i =? n) && negb (bool_decide (text = [])) then Some (InText n) else None
  | InTool n, ToolDelta i _ => if i =? n then Some (InTool n) else None
  | InText n, BlockStop i | InTool n, BlockStop i => if i =? n then Some (Between (n + 1)) else None
  | Between n, MessageDelta _ _ => if 0 <? n then Some Closing else None
  | Closing, MessageStop => Some Ended
  | Between _, ErrorFrame _ _ | InText _, ErrorFrame _ _ => Some Ended
  | _, _ => None
  end.

Fixpoint protocol (p : phase) (frames : list Frame) : option phase :=
  match frames with
  | [] => Some p
  | f :: frames => p ← protocol_step p f; protocol p frames
  end.

Lemma protocol_app p a b p' : protocol p a = Some p' -> protocol p (a ++ b) = protocol p' b.
Proof.
  revert p. induction a as [|f a IH]; intros p; cbn [protocol app]; [by intros [= ->]|]. intros (q & Hq & Ha)%bind_Some.
  rewrite Hq. cbn [mbind option_bind]. by apply IH.
Qed.

(** The phase a translator is in. *)
Definition tracks (t : translator) (p : phase) : Prop :=
  if negb (mt_started t) then p = Opening /\ mt_terminal t = false /\ mt_next_index t = 0 /\ mt_current_text_index t = None
  else if mt_terminal t then p = Ended
  else mt_next_index t = 0 /\ mt_current_text_index t = None /\ p = Between 0 \/
       mt_next_index t = 1 /\ mt_current_text_index t = Some 0 /\ p = InText 0.

Lemma tracks_same t t' p : same_stream t t' -> tracks t p -> tracks t' p.
Proof. intros (H1 & H2 & H3 & H4). unfold tracks. by rewrite H1, H2, H3, H4. Qed.

Definition still_live (t : translator) : Prop := mt_terminal t = false.
Definition anyhow (t : translator) : Prop := True.

(** Keeps the bounds, and, when it succeeds on a started stream with [pre],
    follows the protocol and leaves [post]. *)
Definition follows l (pre post : translator -> Prop) (m : emits (list Frame)) : Prop := forall t, bounded l t ->
  bounded l (fst (m t)) /\
  forall out p, pre t -> mt_started t = true -> tracks t p -> snd (m t) = Ok out ->
    exists p', protocol p out = Some p' /\ tracks (fst (m t)) p' /\ mt_started (fst (m t)) = true /\ post (fst (m t)).

Lemma follows_and_then l pre mid post a b : follows l pre mid a -> follows l mid post b -> follows l pre post (and_then a b).
Proof.
  intros Ha Hb t Ht. unfold and_then. destruct (Ha t Ht) as [Hbt Hpa]. destruct (a t) as [t1 [out1|e]]; cbn [fst snd] in *; [|by split].
  destruct (Hb t1 Hbt) as [Hbt2 Hpb]. destruct (b t1) as [t2 r2]; cbn [fst snd] in *. split; [done|].
  intros out p Hpre Hst Htr Hr. destruct (Hpa out1 p Hpre Hst Htr eq_refl) as (p1 & Hp1 & Ht1 & Hs1 & Hm1).
  destruct r2 as [out2|e]; cbn [result_map] in Hr; [|done]. injection Hr as <-.
  destruct (Hpb out2 p1 Hm1 Hs1 Ht1 eq_refl) as (p2 & Hp2 & Ht2 & Hs2 & Hm2). exists p2. by rewrite (protocol_app _ _ _ _ Hp1).
Qed.

(** A step that emits nothing. *)
Lemma silent_step t t' p : same_stream t t' -> mt_started t = true -> tracks t p -> still_live t ->
  exists p', protocol p [] = Some p' /\ tracks t' p' /\ mt_started t' = true /\ still_live t'.
Proof.
  intros Hs Hst Htr Hlive. exists p. split_and!; [done|by eapply tracks_same|destruct Hs; congruence|].
  unfold still_live in *. destruct Hs as (_ & H2 & _). congruence.
Qed.

Section Sound.
Context {number : Type} `{JsonNumber number, JsonText number}.
Context (l : AnthropicStreamLimits) (Hl : limits_ok l).
Implicit Types (t : translator).

Lemma feed_tool_call_keeps call t : bounded l t -> keeps l t (feed_tool_call (number := number) call t).
Proof using Hl.
  intros Hb. unfold feed_tool_call. destruct (tool_position t _) as [t1 [p|e]] eqn:Ep; apply (tool_position_ok l) in Ep as (Hb1 & Hs1 & Hp); try done.
  assert (Hst : stores l p (fun t => try (on_text (get_str call "id") t (store_id p)) (fun t =>
        try (on_text (f ← get_object call "function"; get_str f "name") t (store_name p)) (fun t =>
        on_text (f ← get_object call "function"; get_str f "arguments") t (store_arguments p))))).
    { apply (stores_try l p (fun t => on_text _ t (store_id p))); [apply stores_on_text; intros; by apply stores_id|].
      apply (stores_try l p (fun t => on_text _ t (store_name p))); [apply stores_on_text; intros; by apply stores_name|].
      apply stores_on_text. intros. by apply stores_arguments. }
    destruct (Hst t1 Hb1 (Hp p eq_refl)) as [[Hb2 Hs2] _]. split; [done|]. by eapply same_stream_trans.
Qed.

Lemma feed_tool_calls_keeps calls t : bounded l t -> keeps l t (feed_tool_calls (number := number) calls t).
Proof using Hl.
  revert t. induction calls as [|call calls IH]; intros t Hb; cbn [feed_tool_calls]; [by split|].
  apply keeps_try; [by apply feed_tool_call_keeps|]. intros t' Hb' Hs'. destruct (IH t' Hb') as [Hb2 Hs2]. split; [done|].
  by eapply same_stream_trans.
Qed.

(** The parts of [feed_choice] and [feed_payload] that emit nothing. *)
Lemma feed_usage_keeps members t : bounded l t -> bounded l (feed_usage (number := number) members t) /\ same_stream t (feed_usage (number := number) members t).
Proof.
  intros Hb. unfold feed_usage. destruct (get_object members "usage") as [u|]; [|by split]. destruct (get u "completion_tokens" ≫= as_u64); by split; [destruct Hb; constructor|].
Qed.

Lemma feed_reason_keeps members t : bounded l t -> bounded l (feed_reason (number := number) members t) /\ same_stream t (feed_reason (number := number) members t).
Proof.
  intros Hb. unfold feed_reason. destruct (get_str members "finish_reason") as [x|]; [|by split]. destruct (bool_decide _); [by split|].
  by split; [destruct Hb; constructor|].
Qed.

(** Text goes to the open block, or opens the first one. *)
Lemma feed_content_ok members t : bounded l t -> 
  bounded l (fst (feed_content (number := number) members t)) /\
  forall p, still_live t -> mt_started t = true -> tracks t p ->
    exists p', protocol p (snd (feed_content (number := number) members t)) = Some p' /\
      tracks (fst (feed_content (number := number) members t)) p' /\ mt_started (fst (feed_content (number := number) members t)) = true /\
      still_live (fst (feed_content (number := number) members t)).
Proof.
  intros Hb. unfold feed_content. destruct (get_str members "content") as [text|]; [|by split; [|intros p; exists p]].
  destruct (bool_decide (text = [])) eqn:Et; [by split; [|intros p; exists p]|].
  unfold open_text. destruct (mt_current_text_index t) as [i|] eqn:Ei; cbn [fst snd].
  - split; [destruct Hb; by constructor|]. intros p Hlive Hst Htr. unfold tracks in *. cbn [count_chars mt_started mt_terminal mt_next_index mt_current_text_index].
    unfold still_live in *. rewrite Hst, Hlive, Ei in *. cbn [negb] in *. destruct Htr as [(_ & ? & _)|(Hn & [= ->] & ->)]; [done|].
    exists (InText 0). cbn [app protocol protocol_step Z.eqb]. rewrite Et. cbn [negb andb mbind option_bind]. split_and!; [done| |done|done]. by right.
  - split; [destruct Hb; by constructor|]. intros p Hlive Hst Htr. unfold tracks in *.
    cbn [count_chars set_blocks mt_started mt_terminal mt_next_index mt_current_text_index]. unfold still_live in *. rewrite Hst, Hlive, Ei in *. cbn [negb] in *.
    destruct Htr as [(Hn & _ & ->)|(_ & ? & _)]; [|done]. rewrite Hn. exists (InText 0).
    cbn [app protocol protocol_step Z.eqb mbind option_bind]. rewrite Et. cbn [negb andb mbind option_bind]. split_and!; [done| |done|done]. by right.
Qed.

Lemma feed_choice_follows choice : follows l still_live still_live (feed_choice (number := number) choice).
Proof using Hl.
  intros t Hb. unfold feed_choice. destruct (get_object choice "delta") as [delta|].
  - destruct (feed_content_ok delta t Hb) as [Hb1 Hp1]. destruct (feed_content delta t) as [t1 out1]; cbn [fst snd] in *.
    destruct (feed_tool_calls_keeps (omap as_object (default [] (get delta "tool_calls" ≫= as_array))) t1 Hb1) as [Hb2 Hs2].
    destruct (feed_tool_calls _ t1) as [t2 [u|e]]; cbn [fst snd] in *; [|by split].
    destruct (feed_reason_keeps choice t2 Hb2) as [Hb3 Hs3]. split; [done|]. intros out p Hlive Hst Htr [= <-].
    destruct (Hp1 p Hlive Hst Htr) as (p1 & Hpr & Ht1 & Hst1 & Hl1). exists p1. split; [done|].
    pose proof (same_stream_trans _ _ _ Hs2 Hs3) as Hs. destruct (silent_step t1 _ p1 Hs Hst1 Ht1 Hl1) as (p' & [= ->] & ?). done.
  - destruct (feed_reason_keeps choice t Hb) as [Hb3 Hs3]. cbn [fst snd]. split; [done|]. intros out p Hlive Hst Htr [= <-].
    by apply (silent_step t).
Qed.

Lemma feed_choices_follows choices : follows l still_live still_live (feed_choices (number := number) choices).
Proof using Hl.
  induction choices as [|choice choices IH]; cbn [feed_choices]; [intros t Hb; split; [done|]; intros out p Hlive Hst Htr [= <-]; by exists p|].
  eapply follows_and_then; [apply feed_choice_follows|exact IH].
Qed.

Lemma feed_payload_follows payload : follows l still_live still_live (feed_payload (number := number) payload).
Proof using Hl.
  intros t Hb. unfold feed_payload. destruct (as_object payload) as [members|]; [|split; [done|]; intros out p Hlive Hst Htr [= <-]; by exists p].
  destruct (feed_usage_keeps members t Hb) as [Hb1 Hs1]. destruct (get members "choices" ≫= as_array) as [choices|]; cbn [fst snd].
  - destruct (feed_choices_follows (omap as_object choices) _ Hb1) as [Hb2 Hp2]. split; [done|]. intros out p Hlive Hst Htr Hr.
    destruct (silent_step t _ p Hs1 Hst Htr Hlive) as (p' & [= <-] & Ht1 & Hst1 & Hl1). by apply (Hp2 out p).
  - split; [done|]. intros out p Hlive Hst Htr [= <-]. by apply (silent_step t).
Qed.

Lemma tool_frames_protocol n tool rest : protocol (Between n) (tool_frames n tool ++ rest) = protocol (Between (n + 1)) rest.
Proof.
  unfold tool_frames. destruct (bool_decide (tc_arguments tool = []));
    do 3 (cbn [app protocol protocol_step mbind option_bind]; rewrite ?Z.eqb_refl); done.
Qed.

Lemma tools_frames_protocol tools n frames last : 0 <= n -> n + len tools <= u64_max -> tools_frames n tools = (frames, last) ->
  last = n + len tools /\ protocol (Between n) frames = Some (Between last).
Proof.
  revert n frames. induction tools as [|tool tools IH]; intros n frames Hn Hle Hf; cbn [tools_frames] in Hf.
  - injection Hf as <- <-. rewrite len_nil. split; [lia|]. cbn [protocol]. do 2 f_equal.
  - rewrite len_cons in *. pose proof (len_nonneg tools) as Hpos.
    assert (Hsat : u64_sat_add n 1 = n + 1) by (unfold u64_sat_add; lia). rewrite Hsat in Hf.
    destruct (tools_frames (n + 1) tools) as [rest z] eqn:Er. apply pair_equal_spec in Hf as [<- <-].
    destruct (IH (n + 1) rest ltac:(lia) ltac:(lia) Er) as [-> Hp]. rewrite tool_frames_protocol. split; [lia|exact Hp].
Qed.

Lemma clear_bounded t : bounded l t -> forall t', mt_limits t' = mt_limits t -> mt_decoder t' = mt_decoder t -> bounded l (clear_buffered_tools t').
Proof using Hl.
  intros [Hbl Hbd Hbc Hbn Hbb Hbp] t' E1 E2. destruct Hl as [_ Hb]. constructor;
    cbn [clear_buffered_tools set_tools mt_limits mt_decoder mt_tools mt_buffered_tool_bytes mt_tool_positions].
  - congruence.
  - by rewrite E2.
  - rewrite len_nil. lia.
  - done.
  - lia.
  - intros k p Hk. by rewrite lookup_empty in Hk.
Qed.

Lemma finish_message_ok t : bounded l t ->
  bounded l (fst (finish_message t)) /\
  forall p, mt_started t = true -> tracks t p ->
    protocol p (snd (finish_message t)) = Some Ended /\ tracks (fst (finish_message t)) Ended /\ mt_started (fst (finish_message t)) = true.
Proof using Hl.
  intros Hb. pose proof Hb as [Hbl Hbd Hbc Hbn Hbb Hbp]. unfold finish_message. destruct (mt_terminal t) eqn:Et; cbn [fst snd].
  { split; [done|]. intros p Hst Htr. unfold tracks in *. rewrite Hst, Et in *. cbn [negb] in *. by subst. }
  destruct (tools_frames (mt_next_index t) (mt_tools t)) as [frames last] eqn:Ef. cbn [fst snd].
  split; [by apply (clear_bounded t)|]. intros p Hst Htr. unfold tracks in *. rewrite Hst, Et in *. cbn [negb] in *.
  split; [|split; [|done]].
  2: done.
  pose proof (len_nonneg (mt_tools t)) as Hpos. destruct Hl as [Hcalls _].
  assert (Hroom : 1 + len (mt_tools t) <= u64_max) by (unfold u64_max in *; lia).
  destruct Htr as [(Hn & Hc & ->)|(Hn & Hc & ->)]; rewrite Hn in Ef; rewrite Hc; cbn [app].
  - apply tools_frames_protocol in Ef as [-> Hp]; [|lia..]. rewrite (protocol_app _ _ _ _ Hp). rewrite Z.add_0_l.
    destruct (Z.eqb_spec (len (mt_tools t)) 0) as [->|Hne]; cbn [app protocol protocol_step Z.eqb Z.add mbind option_bind Z.ltb Z.compare]; [done|].
    by destruct (Z.ltb_spec 0 (len (mt_tools t))); [|lia].
  - apply tools_frames_protocol in Ef as [-> Hp]; [|lia..]. cbn [protocol protocol_step Z.eqb mbind option_bind]. change (0 + 1) with 1.
    rewrite (protocol_app _ _ _ _ Hp). destruct (Z.eqb_spec (1 + len (mt_tools t)) 0); [lia|].
    cbn [app protocol protocol_step mbind option_bind]. by destruct (Z.ltb_spec 0 (1 + len (mt_tools t))); [|lia].
Qed.

Lemma finish_message_follows : follows l anyhow anyhow (fun t => let '(t, out) := finish_message t in (t, Ok out)).
Proof using Hl.
  intros t Hb. destruct (finish_message_ok t Hb) as [Hb1 Hp1]. destruct (finish_message t) as [t1 out1]; cbn [fst snd] in *.
  split; [done|]. intros out p _ Hst Htr [= <-]. destruct (Hp1 p Hst Htr) as (? & ? & ?). by exists Ended.
Qed.

Lemma finish_error_follows error_type message : follows l still_live anyhow (fun t => let '(t, out) := finish_error error_type message t in (t, Ok out)).
Proof using Hl.
  intros t Hb. unfold finish_error. destruct (mt_terminal t) eqn:Et; cbn [fst snd]; [split; [done|]; intros out p Hlive; unfold still_live in Hlive; congruence|].
  split; [by apply (clear_bounded t)|]. intros out p _ Hst Htr [= <-]. exists Ended. unfold tracks in *. rewrite Hst, Et in *. cbn [negb] in *.
  split_and!; [|done..].
  by destruct Htr as [(_ & _ & ->)|(_ & _ & ->)].
Qed.

Lemma follows_weaken (pre pre' post post' : translator -> Prop) m : (forall t, pre' t -> pre t) -> (forall t, post t -> post' t) -> follows l pre post m -> follows l pre' post' m.
Proof.
  intros Hpre Hpost Hm t Hb. destruct (Hm t Hb) as [Hb' Hp]. split; [done|]. intros out p Hp' Hst Htr Hr.
  destruct (Hp out p (Hpre t Hp') Hst Htr Hr) as (p' & ? & ? & ? & ?). exists p'. auto.
Qed.

Lemma process_events_follows events : follows l anyhow anyhow (process_events (number := number) events).
Proof using Hl.
  induction events as [|event events IH]; intros t Hb; cbn [process_events]; [split; [done|]; intros out p _ Hst Htr [= <-]; by exists p|].
  destruct (mt_terminal t) eqn:Et; [split; [done|]; intros out p _ Hst Htr [= <-]; by exists p|].
  cbv zeta. destruct (str_eqb (trim (ev_data event)) (lit "[DONE]")); [by apply finish_message_follows|].
  destruct (json_from_str _) as [payload|].
  - destruct (stream_error _ _ _) as [[et msg]|].
    + destruct (finish_error_follows et msg t Hb) as [Hb1 Hp1]. split; [done|]. intros out p _. by apply Hp1.
    + destruct (follows_and_then l still_live still_live anyhow _ _ (feed_payload_follows payload)
                  (follows_weaken anyhow still_live anyhow anyhow _ (fun _ _ => I) (fun _ Hx => Hx) IH) t Hb) as [Hb1 Hp1].
      split; [done|]. intros out p _. by apply Hp1.
  - destruct (str_eqb (ev_event event) (lit "error")); [|by apply IH].
    destruct (follows_and_then l still_live anyhow anyhow _ _ (finish_error_follows (lit "api_error") (trim (ev_data event))) IH t Hb) as [Hb1 Hp1].
    split; [done|]. intros out p _. by apply Hp1.
Qed.

Lemma decoded_follows decode : (forall d, wf_decoder d -> wf_decoder (fst (decode d))) -> follows l anyhow anyhow (decoded (number := number) decode).
Proof using Hl.
  intros Hd t Hb. unfold decoded. pose proof (Hd _ (bo_decoder _ _ Hb)) as Hw. destruct (decode (mt_decoder t)) as [d r]; cbn [fst] in Hw.
  assert (Hb' : bounded l (set_decoder t d)) by (by destruct Hb; constructor).
  destruct r as [events|e]; [|by split]. destruct (process_events_follows events _ Hb') as [Hb1 Hp1]. split; [done|].
  intros out p _ Hst Htr. apply Hp1; [done|done|by eapply tracks_same].
Qed.

Lemma stream_start_ok t : bounded l t -> bounded l (fst (start_message t)) /\
  forall p, tracks t p -> exists p', protocol p (snd (start_message t)) = Some p' /\ tracks (fst (start_message t)) p' /\ mt_started (fst (start_message t)) = true.
Proof.
  intros Hb. unfold start_message. destruct (mt_started t) eqn:Es; cbn [fst snd]; [split; [done|]; intros p Htr; by exists p|].
  split; [by destruct Hb; constructor|]. intros p Htr. unfold tracks in *. rewrite Es in Htr. cbn [negb] in Htr.
  destruct Htr as (-> & Ht & Hn & Hc). exists (Between 0). cbn [set_flags mt_started mt_terminal mt_next_index mt_current_text_index negb].
  rewrite Ht. split_and!; [done|by left|done].
Qed.

(** What a call keeps: the bounds always, the protocol when it succeeds. *)
Definition call_ok (m : emits (list Frame)) : Prop := forall t, bounded l t ->
  bounded l (fst (m t)) /\
  forall out p, tracks t p -> snd (m t) = Ok out -> exists p', protocol p out = Some p' /\ tracks (fst (m t)) p' /\ mt_started (fst (m t)) = true.

Lemma start_call_ok : call_ok (fun t => let '(t, out) := start_message t in (t, Ok out)).
Proof.
  intros t Hb. destruct (stream_start_ok t Hb) as [Hb1 Hp1]. destruct (start_message t) as [t1 o1]. split; [done|]. intros out p Htr [= <-]. by apply Hp1.
Qed.

Lemma call_and_then a b post : call_ok a -> follows l anyhow post b -> call_ok (and_then a b).
Proof.
  intros Ha Hb t Ht. unfold and_then. destruct (Ha t Ht) as [Hbt Hpa]. destruct (a t) as [t1 [out1|e]]; cbn [fst snd] in *; [|by split].
  destruct (Hb t1 Hbt) as [Hbt2 Hpb]. destruct (b t1) as [t2 r2]; cbn [fst snd] in *. split; [done|].
  intros out p Htr Hr. destruct (Hpa out1 p Htr eq_refl) as (p1 & Hp1 & Ht1 & Hs1).
  destruct r2 as [out2|e]; cbn [result_map] in Hr; [|done]. injection Hr as <-.
  destruct (Hpb out2 p1 I Hs1 Ht1 eq_refl) as (p2 & Hp2 & Ht2 & Hs2 & _). exists p2. by rewrite (protocol_app _ _ _ _ Hp1).
Qed.

Lemma unless_terminal_follows m : follows l still_live anyhow m -> follows l anyhow anyhow (fun t => if mt_terminal t then (t, Ok []) else m t).
Proof.
  intros Hm t Hb. destruct (mt_terminal t) eqn:Et; [split; [done|]; intros out p _ Hst Htr [= <-]; by exists p|].
  destruct (Hm t Hb) as [Hb1 Hp1]. split; [done|]. intros out p _. by apply Hp1.
Qed.

Lemma follows_live post m : follows l anyhow post m -> follows l still_live post m.
Proof. apply follows_weaken; done. Qed.

Lemma push_call_ok chunk : call_ok (push (number := number) chunk).
Proof using Hl.
  apply (call_and_then _ _ anyhow start_call_ok). apply unless_terminal_follows, follows_live, decoded_follows. intros d. apply wf_push.
Qed.

Lemma finish_follows : follows l anyhow anyhow (fun t => if mt_terminal t then (t, Ok [])
    else and_then (decoded (number := number) Sse.finish) (fun t => let '(t, out) := finish_message t in (t, Ok out)) t).
Proof using Hl.
  apply unless_terminal_follows, follows_live. eapply follows_and_then; [|apply finish_message_follows]. apply decoded_follows. intros d. apply wf_finish.
Qed.

Lemma finish_call_ok : call_ok (finish (number := number)).
Proof using Hl. exact (call_and_then _ _ anyhow start_call_ok finish_follows). Qed.
End Sound.

(** ** Calls in sequence *)
Lemma call_follows l m : call_ok l m -> follows l anyhow anyhow m.
Proof.
  intros Hm t Hb. destruct (Hm t Hb) as [Hb1 Hp1]. split; [done|]. intros out p _ _ Htr Hr. destruct (Hp1 out p Htr Hr) as (p' & ? & ? & ?).
  by exists p'.
Qed.

Section Runs.
Context {number : Type} `{JsonNumber number, JsonText number}.
Implicit Types (t : translator).

Lemma nothing_follows l : follows l anyhow anyhow (fun t => (t, Ok [])).
Proof. intros t Hb. split; [done|]. intros out p _ Hst Htr [= <-]. by exists p. Qed.

Lemma push_all_follows l fragments : limits_ok l -> follows l anyhow anyhow (push_all (number := number) fragments).
Proof.
  intros Hl. induction fragments as [|fragment fragments IH]; cbn [push_all]; [apply nothing_follows|].
  eapply follows_and_then; [apply call_follows; by apply push_call_ok|].
  apply unless_terminal_follows, follows_live. exact IH.
Qed.

Lemma finish_message_over t : mt_terminal (fst (finish_message t)) = true.
Proof. unfold finish_message. destruct (mt_terminal t) eqn:Et; [done|]. by destruct (tools_frames _ _). Qed.

Lemma finish_over t out : snd (finish (number := number) t) = Ok out -> mt_terminal (fst (finish (number := number) t)) = true.
Proof.
  unfold finish, and_then. destruct (start_message t) as [t1 o1]. destruct (mt_terminal t1) eqn:Et; [by cbn [fst snd]|].
  destruct (decoded Sse.finish t1) as [t2 [o2|e]]; [|done]. pose proof (finish_message_over t2) as Ho.
  destruct (finish_message t2) as [t3 o3]. done.
Qed.

Lemma limits_ok_default : limits_ok default_limits.
Proof. unfold limits_ok, default_limits, DEFAULT_MAX_STREAM_TOOL_CALLS, DEFAULT_MAX_STREAM_TOOL_BYTES, u64_max; cbn [max_tool_calls max_tool_bytes]. lia. Qed.

Lemma translator_with_bounded decoder l model id n : limits_ok l -> wf_decoder decoder -> bounded l (translator_with decoder l model id n).
Proof.
  intros [Hc Hb] Hd. constructor; cbn [translator_with mt_limits mt_decoder mt_tools mt_buffered_tool_bytes mt_tool_positions].
  - done.
  - done.
  - rewrite len_nil. lia.
  - done.
  - lia.
  - intros k p Hk. by rewrite lookup_empty in Hk.
Qed.

Lemma translator_new_bounded model id n : bounded default_limits (translator_new model id n).
Proof. apply translator_with_bounded; [exact limits_ok_default|]. apply default_decoder_idle. Qed.

(** ** Any sequence of calls *)
Inductive stream_call := PushCall (chunk : list Z) | FinishCall.

Definition run_call (c : stream_call) : emits (list Frame) :=
  match c with PushCall chunk => push (number := number) chunk | FinishCall => finish (number := number) end.

(** The state after the calls, failures included. *)
Definition after_calls (calls : list stream_call) (t : translator) : translator := foldl (fun t c => fst (run_call c t)) t calls.

Lemma run_call_ok l c : limits_ok l -> call_ok l (run_call c).
Proof. intros Hl. destruct c; [by apply push_call_ok|by apply finish_call_ok]. Qed.

Lemma after_calls_bounded l calls t : limits_ok l -> bounded l t -> bounded l (after_calls calls t).
Proof.
  intros Hl. revert t. induction calls as [|c calls IH]; intros t Hb; [done|]. apply IH. by apply (run_call_ok l c Hl).
Qed.

Lemma translated_well_formed fragments model id n out :
  translate_openai_sse_fragments (number := number) fragments model id n = Ok out -> protocol Opening out = Some Ended.
Proof.
  unfold translate_openai_sse_fragments. set (t := translator_new model id n).
  assert (Hb : bounded default_limits t) by apply translator_new_bounded.
  assert (Htr : tracks t Opening) by done. pose proof limits_ok_default as Hl.
  assert (Hrest : follows default_limits anyhow anyhow (and_then (push_all fragments) (finish (number := number)))).
  { eapply follows_and_then; [by apply push_all_follows|]. by apply call_follows, finish_call_ok. }
  destruct (call_and_then default_limits _ _ anyhow (start_call_ok default_limits) Hrest t Hb) as [_ Hp].
  intros Hout. destruct (Hp out Opening Htr Hout) as (p & Hpr & Htp & Hst).
  assert (Hover : mt_terminal (fst (and_then (fun t => let '(t, out) := start_message t in (t, Ok out)) (and_then (push_all fragments) (finish (number := number))) t)) = true).
  { revert Hout. unfold and_then. destruct (start_message t) as [t1 o1]. destruct (push_all fragments t1) as [t2 [o2|e]]; [|done].
    pose proof (finish_over t2) as Ho. destruct (finish t2) as [t3 [o3|e]]; cbn [fst snd result_map] in *; [|done]. intros _. by eapply Ho. }
  unfold tracks in Htp. rewrite Hst, Hover in Htp. cbn [negb] in Htp. by subst.
Qed.
End Runs.

(** ** The cut of the upstream bytes does not matter *)
Definition ignores_decoder {A} (m : emits A) : Prop := forall t d, m (set_decoder t d) = (set_decoder (fst (m t)) d, snd (m t)).

Lemma and_then_ignores a b : ignores_decoder a -> ignores_decoder b -> ignores_decoder (and_then a b).
Proof.
  intros Ha Hb t d. unfold and_then. rewrite Ha. destruct (a t) as [t1 [o|e]]; cbn [fst snd]; [|done]. rewrite Hb. by destruct (b t1).
Qed.

Lemma try_ignores m k : ignores_decoder m -> ignores_decoder k -> ignores_decoder (fun t => try (m t) k).
Proof. intros Hm Hk t d. rewrite Hm. destruct (m t) as [t1 [u|e]]; cbn [fst snd try]; [apply Hk|done]. Qed.

Lemma on_text_ignores o f : (forall x, ignores_decoder (f x)) -> ignores_decoder (fun t => on_text o t f).
Proof. intros Hf t d. unfold on_text. destruct o as [x|]; [|done]. destruct (bool_decide (x = [])); [done|apply Hf]. Qed.

Lemma set_bytes_ignores n : ignores_decoder (fun t => set_bytes t n).
Proof. intros t d. unfold set_bytes. cbn [set_decoder mt_limits]. by destruct (_ <? _). Qed.

Lemma store_id_ignores p x : ignores_decoder (store_id p x).
Proof. intros t d. unfold store_id, replace_buffered_bytes, set_bytes. cbn [set_decoder mt_limits mt_buffered_tool_bytes]. change (tool_at (set_decoder t d) p) with (tool_at t p). by destruct (_ <? _). Qed.

Lemma store_name_ignores p x : ignores_decoder (store_name p x).
Proof. intros t d. unfold store_name, replace_buffered_bytes, set_bytes. cbn [set_decoder mt_limits mt_buffered_tool_bytes]. change (tool_at (set_decoder t d) p) with (tool_at t p). by destruct (_ <? _). Qed.

Lemma store_arguments_ignores p x : ignores_decoder (store_arguments p x).
Proof. intros t d. unfold store_arguments, add_buffered_bytes, set_bytes. cbn [set_decoder mt_limits mt_buffered_tool_bytes]. by destruct (_ <? _). Qed.

Section Cut.
Context {number : Type} `{JsonNumber number, JsonText number}.
Implicit Types (t : translator).

Lemma feed_tool_call_ignores c : ignores_decoder (feed_tool_call (number := number) c).
Proof.
  intros t d. unfold feed_tool_call.
  assert (Hp : forall i, tool_position (set_decoder t d) i = (set_decoder (fst (tool_position t i)) d, snd (tool_position t i))).
  { intros i. unfold tool_position. cbn [set_decoder mt_limits mt_tools mt_tool_positions]. destruct (_ !! _); [done|]. by destruct (_ <=? _). }
  rewrite Hp. destruct (tool_position t _) as [t1 [p|e]]; cbn [fst snd]; [|done].
  apply (try_ignores (fun t => on_text _ t (store_id p))); [apply on_text_ignores; intros; apply store_id_ignores|].
  apply (try_ignores (fun t => on_text _ t (store_name p))); [apply on_text_ignores; intros; apply store_name_ignores|].
  apply on_text_ignores. intros. apply store_arguments_ignores.
Qed.

Lemma feed_tool_calls_ignores calls : ignores_decoder (feed_tool_calls (number := number) calls).
Proof.
  induction calls as [|c calls IH]; [done|]. cbn [feed_tool_calls].
  apply (try_ignores (feed_tool_call c)); [apply feed_tool_call_ignores|exact IH].
Qed.

Lemma feed_reason_decoder members t d : feed_reason (number := number) members (set_decoder t d) = set_decoder (feed_reason members t) d.
Proof. unfold feed_reason. destruct (get_str members "finish_reason") as [x|]; [|done]. by destruct (bool_decide _). Qed.

Lemma feed_usage_decoder members t d : feed_usage (number := number) members (set_decoder t d) = set_decoder (feed_usage members t) d.
Proof. unfold feed_usage. destruct (get_object members "usage") as [u|]; [|done]. by destruct (get u "completion_tokens" ≫= as_u64). Qed.

Lemma feed_content_decoder members t d :
  feed_content (number := number) members (set_decoder t d) = (set_decoder (fst (feed_content members t)) d, snd (feed_content members t)).
Proof.
  unfold feed_content. destruct (get_str members "content") as [x|]; [|done]. destruct (bool_decide _); [done|].
  unfold open_text. cbn [set_decoder mt_current_text_index mt_next_index]. by destruct (mt_current_text_index t).
Qed.

Lemma feed_choice_ignores c : ignores_decoder (feed_choice (number := number) c).
Proof.
  intros t d. unfold feed_choice. destruct (get_object c "delta") as [delta|].
  - rewrite feed_content_decoder. destruct (feed_content delta t) as [t1 o1]; cbn [fst snd]. rewrite feed_tool_calls_ignores.
    destruct (feed_tool_calls _ t1) as [t2 [u|e]]; cbn [fst snd]; [|done]. by rewrite feed_reason_decoder.
  - by rewrite feed_reason_decoder.
Qed.

Lemma feed_payload_ignores payload : ignores_decoder (feed_payload (number := number) payload).
Proof.
  intros t d. unfold feed_payload. destruct (as_object payload) as [members|]; [|done]. rewrite feed_usage_decoder.
  destruct (get members "choices" ≫= as_array) as [choices|]; [|done].
  assert (Hc : forall cs, ignores_decoder (feed_choices (number := number) cs)).
  { induction cs as [|c cs IH]; [done|]. cbn [feed_choices]. apply and_then_ignores; [apply feed_choice_ignores|exact IH]. }
  apply Hc.
Qed.

Lemma finish_message_ignores : ignores_decoder (fun t => let '(t, out) := finish_message t in (t, Ok out)).
Proof.
  intros t d. unfold finish_message, final_tokens.
  cbn [set_decoder mt_terminal mt_current_text_index mt_next_index mt_tools mt_usage_seen mt_output_tokens mt_completion_chars mt_finish_reason].
  destruct (mt_terminal t); [done|]. by destruct (tools_frames _ _).
Qed.

Lemma finish_error_ignores et msg : ignores_decoder (fun t => let '(t, out) := finish_error et msg t in (t, Ok out)).
Proof. intros t d. unfold finish_error. cbn [set_decoder mt_terminal]. by destruct (mt_terminal t). Qed.

Lemma process_events_ignores events : ignores_decoder (process_events (number := number) events).
Proof.
  induction events as [|event events IH]; [done|]. intros t d. cbn [process_events]. change (mt_terminal (set_decoder t d)) with (mt_terminal t).
  destruct (mt_terminal t); [done|]. cbv zeta. destruct (str_eqb (trim (ev_data event)) (lit "[DONE]")); [apply finish_message_ignores|].
  destruct (json_from_str _) as [payload|].
  - destruct (stream_error _ _ _) as [[et msg]|]; [apply finish_error_ignores|]. apply and_then_ignores; [apply feed_payload_ignores|exact IH].
  - destruct (str_eqb _ _); [|apply IH]. apply and_then_ignores; [apply finish_error_ignores|exact IH].
Qed.

Lemma process_events_over events t : mt_terminal t = true -> process_events (number := number) events t = (t, Ok []).
Proof. intros Ht. destruct events as [|event events]; [done|]. cbn [process_events]. by rewrite Ht. Qed.

Lemma and_then_assoc a b c t : and_then (and_then a b) c t = and_then a (and_then b c) t.
Proof.
  unfold and_then. destruct (a t) as [t1 [o1|e]]; [|done]. destruct (b t1) as [t2 [o2|e]]; cbn [result_map]; [|done].
  destruct (c t2) as [t3 [o3|e]]; cbn [result_map]; [|done]. by rewrite app_assoc.
Qed.

Lemma and_then_nil (m : emits (list Frame)) t : and_then (fun t => (t, Ok [])) m t = m t.
Proof. unfold and_then. by destruct (m t) as [t1 [o|e]]. Qed.

Lemma and_then_ext a b c t : (forall t, b t = c t) -> and_then a b t = and_then a c t.
Proof. intros E. unfold and_then. destruct (a t) as [t1 [o|e]]; [|done]. by rewrite E. Qed.

Lemma and_then_over a events t : mt_terminal (fst (a t)) = true -> and_then a (process_events (number := number) events) t = a t.
Proof.
  unfold and_then. destruct (a t) as [t1 [o|e]]; cbn [fst]; [|done]. intros Ho. rewrite process_events_over by done. cbn [result_map].
  by rewrite app_nil_r.
Qed.

Lemma finish_error_over et msg t : mt_terminal (fst (finish_error et msg t)) = true.
Proof. unfold finish_error. by destruct (mt_terminal t) eqn:E. Qed.

Lemma process_events_app a b t :
  process_events (number := number) (a ++ b) t = and_then (process_events a) (process_events b) t.
Proof.
  revert t. induction a as [|event a IH]; intros t; cbn [app]; [symmetry; apply (and_then_nil (process_events b))|].
  destruct (mt_terminal t) eqn:Et.
  { rewrite (process_events_over (event :: a ++ b) t Et), (and_then_over (process_events (event :: a)) b t) by (by rewrite (process_events_over (event :: a) t Et)).
    by rewrite (process_events_over (event :: a) t Et). }
  unfold and_then at 1. cbn [process_events]. rewrite Et. cbv zeta.
  destruct (str_eqb (trim (ev_data event)) (lit "[DONE]")) eqn:Ed.
  { pose proof (finish_message_over t) as Ho. destruct (finish_message t) as [t1 o1]; cbn [fst] in Ho. rewrite process_events_over by done. cbn [result_map]. by rewrite app_nil_r. }
  destruct (json_from_str _) as [payload|].
  - destruct (stream_error _ _ _) as [[et msg]|].
    { pose proof (finish_error_over et msg t) as Ho. destruct (finish_error et msg t) as [t1 o1]; cbn [fst] in Ho. rewrite process_events_over by done. cbn [result_map]. by rewrite app_nil_r. }
    rewrite (and_then_ext _ _ _ t IH). rewrite <- and_then_assoc. done.
  - destruct (str_eqb (ev_event event) (lit "error")); [|exact (IH t)]. rewrite (and_then_ext _ _ _ t IH). rewrite <- and_then_assoc. done.
Qed.

(** A run that took in [bytes]: it decoded and processed them, or a prefix that
    ended the stream. *)
Definition took (bytes : list Z) t (t' : translator) (out : list Frame) : Prop := exists prefix events rest d,
  bytes = prefix ++ rest /\ Sse.push (mt_decoder t) prefix = (d, Ok events) /\
  process_events (number := number) events (set_decoder t d) = (t', Ok out) /\ (mt_terminal t' = true \/ rest = []).

Lemma set_decoder_id t : set_decoder t (mt_decoder t) = t.
Proof. by destruct t. Qed.

(** The same events with another decoder. *)
Lemma process_events_redecode events t d d' t' out :
  process_events (number := number) events (set_decoder t d) = (t', Ok out) ->
  process_events (number := number) events (set_decoder t d') = (set_decoder t' d', Ok out).
Proof. rewrite !process_events_ignores. intros [= <- Ho]. by rewrite Ho. Qed.

Lemma process_events_decoder events t d t' out : process_events (number := number) events (set_decoder t d) = (t', Ok out) -> mt_decoder t' = d.
Proof. rewrite process_events_ignores. by intros [= <- _]. Qed.

(** Processing more after a success. *)
Lemma process_events_more a b t d d' t1 o1 : process_events (number := number) a (set_decoder t d) = (t1, Ok o1) ->
  process_events (number := number) (a ++ b) (set_decoder t d') =
  let '(t2, r2) := process_events (number := number) b (set_decoder t1 d') in (t2, result_map (app o1) r2).
Proof. intros Ha. rewrite process_events_app. unfold and_then. by rewrite (process_events_redecode _ _ _ d' _ _ Ha). Qed.

Lemma started_start t : mt_started t = true -> start_message t = (t, []).
Proof. intros Hs. unfold start_message. by rewrite Hs. Qed.

(** A push on a stream that is under way. *)
Lemma push_under_way fragment t : mt_started t = true -> mt_terminal t = false ->
  push (number := number) fragment t = decoded (fun d => Sse.push d fragment) t.
Proof. intros Hs Ht. unfold push, and_then. rewrite started_start, Ht by done. by destruct (decoded _ t) as [t' [o|e]]. Qed.

Lemma push_all_took fragments t p t' out : bounded default_limits t -> mt_started t = true -> tracks t p -> mt_terminal t = false ->
  push_all (number := number) fragments t = (t', Ok out) -> took (mjoin fragments) t t' out /\ mt_started t' = true.
Proof.
  revert t p out. induction fragments as [|fragment fragments IH]; intros t p out Hb Hs Htr Ht; cbn [push_all].
  - intros [= <- <-]. split; [|done]. exists [], [], [], (mt_decoder t). rewrite set_decoder_id. split_and!; [done..|]. by right.
  - change (mjoin (fragment :: fragments)) with (fragment ++ mjoin fragments). unfold and_then at 1.
    pose proof (call_follows _ _ (push_call_ok (number := number) default_limits limits_ok_default fragment) t Hb) as [Hb1 Hp1].
    destruct (push fragment t) as [t1 [o1|e]] eqn:E1; [|done]. cbn [fst snd] in *.
    destruct (Hp1 o1 p I Hs Htr eq_refl) as (p1 & _ & Htr1 & Hs1 & _). rewrite push_under_way in E1 by done. unfold decoded in E1.
    destruct (Sse.push (mt_decoder t) fragment) as [d1 [e1|e]] eqn:Ed; [|done].
    destruct (mt_terminal t1) eqn:Et1.
    + intros [= <- <-]. rewrite app_nil_r. split; [|done]. exists fragment, e1, (mjoin fragments), d1. split_and!; [done..|]. by left.
    + destruct (push_all fragments t1) as [t2 [o2|e]] eqn:E2; cbn [result_map]; [|done]. intros [= -> <-].
      destruct (IH t1 p1 o2 Hb1 Hs1 Htr1 Et1 E2) as [(prefix & e2 & rest & d2 & Hbytes & Hd2 & Hev & Hend) Hs2]. split; [|done].
      exists (fragment ++ prefix), (e1 ++ e2), rest, d2. rewrite Hbytes, (assoc_L (++)). split_and!; [done| | |done].
      * rewrite (push_app _ _ _ _ _ Ed). rewrite (process_events_decoder _ _ _ _ _ E1) in Hd2. by rewrite Hd2.
      * rewrite (process_events_more _ _ _ _ _ _ _ E1). by rewrite Hev.
Qed.

Lemma took_nested t p1 x r2 t1 t2 o1 o2 d1 d2 e1 e2 :
  Sse.push (mt_decoder t) p1 = (d1, Ok e1) -> process_events (number := number) e1 (set_decoder t d1) = (t1, Ok o1) ->
  mt_terminal t1 = true \/ x ++ r2 = [] ->
  Sse.push (mt_decoder t) (p1 ++ x) = (d2, Ok e2) -> process_events (number := number) e2 (set_decoder t d2) = (t2, Ok o2) ->
  o1 = o2 /\ mt_terminal t1 = mt_terminal t2 /\ (mt_terminal t1 = false -> t1 = t2).
Proof.
  intros Hd1 Hp1 Hend Hd2 Hp2. destruct Hend as [Ho|[-> _]%app_nil].
  - rewrite (push_app _ _ _ _ _ Hd1) in Hd2. destruct (Sse.push d1 x) as [d' [ex|e]]; cbn [result_map] in Hd2; [|done]. injection Hd2 as <- <-.
    rewrite (process_events_more _ _ _ _ _ _ _ Hp1), process_events_over in Hp2 by done. cbn [result_map] in Hp2. rewrite app_nil_r in Hp2.
    injection Hp2 as <- <-. split_and!; [done|done|]. intros E. congruence.
  - rewrite app_nil_r, Hd1 in Hd2. injection Hd2 as <- <-. rewrite Hp1 in Hp2. injection Hp2 as <- <-. by split_and!.
Qed.

Lemma took_unique bytes t t1 o1 t2 o2 : took bytes t t1 o1 -> took bytes t t2 o2 ->
  o1 = o2 /\ mt_terminal t1 = mt_terminal t2 /\ (mt_terminal t1 = false -> t1 = t2).
Proof.
  intros (p1 & e1 & r1 & d1 & Hb1 & Hd1 & Hp1 & Hend1) (p2 & e2 & r2 & d2 & Hb2 & Hd2 & Hp2 & Hend2). rewrite Hb1 in Hb2.
  apply app_eq_inv in Hb2 as [(x & -> & ->)|(x & -> & ->)].
  - destruct (took_nested t p2 x r1 _ _ _ _ _ _ _ _ Hd2 Hp2 Hend2 Hd1 Hp1) as (-> & E & Ht). split_and!; [done..|]. intros Hf. symmetry. apply Ht. congruence.
  - by apply (took_nested t p1 x r2 _ _ _ _ _ _ _ _ Hd1 Hp1 Hend1 Hd2 Hp2).
Qed.

Definition opened (t : translator) : translator := set_flags t true (mt_terminal t).

Lemma translate_took fragments model id n out : translate_openai_sse_fragments (number := number) fragments model id n = Ok out ->
  exists t1 o1 o2, took (mjoin fragments) (opened (translator_new model id n)) t1 o1 /\ mt_started t1 = true /\
    snd (finish (number := number) t1) = Ok o2 /\ out = [MessageStart id model n] ++ o1 ++ o2.
Proof.
  unfold translate_openai_sse_fragments. set (t := translator_new model id n). unfold and_then at 1.
  change (start_message t) with (opened t, [MessageStart id model n]). cbn match.
  assert (Hb : bounded default_limits (opened t)).
  { pose proof (translator_new_bounded model id n) as Hb. by destruct Hb; constructor. }
  assert (Htr : tracks (opened t) (Between 0)) by (by left). unfold and_then.
  destruct (push_all fragments (opened t)) as [t1 [o1|e]] eqn:E1; [|done].
  destruct (push_all_took _ _ _ _ _ Hb eq_refl Htr eq_refl E1) as [Htook Hs]. destruct (finish t1) as [t2 [o2|e]] eqn:E2; [|done].
  cbn [result_map fst snd]. intros [= <-]. exists t1, o1, o2. rewrite E2. by split_and!.
Qed.

Lemma finish_terminal t : mt_started t = true -> mt_terminal t = true -> finish (number := number) t = (t, Ok []).
Proof. intros Hs Ht. unfold finish, and_then. by rewrite started_start, Ht by done. Qed.

Lemma translate_cut f1 f2 model id n o1 o2 : mjoin f1 = mjoin f2 ->
  translate_openai_sse_fragments (number := number) f1 model id n = Ok o1 ->
  translate_openai_sse_fragments (number := number) f2 model id n = Ok o2 -> o1 = o2.
Proof.
  intros Hj (t1 & a1 & b1 & Ht1 & Hs1 & Hf1 & ->)%translate_took (t2 & a2 & b2 & Ht2 & Hs2 & Hf2 & ->)%translate_took. rewrite Hj in Ht1.
  destruct (took_unique _ _ _ _ _ _ Ht1 Ht2) as (-> & Et & Heq). destruct (mt_terminal t1) eqn:E1.
  - rewrite finish_terminal in Hf1, Hf2 by done. by simplify_eq/=.
  - rewrite (Heq eq_refl), Hf2 in Hf1. by simplify_eq.
Qed.
End Cut.

(** ** Interleaved tool calls *)

(** Each upstream index has a call of its own. *)
Definition separate (t : translator) : Prop :=
  (forall i p, mt_tool_positions t !! i = Some p -> (p < length (mt_tools t))%nat) /\
  forall i j p, mt_tool_positions t !! i = Some p -> mt_tool_positions t !! j = Some p -> i = j.

(** The arguments buffered for an upstream index. *)
Definition arguments_of (t : translator) (i : Z) : str :=
  match mt_tool_positions t !! i with Some p => tc_arguments (tool_at t p) | None => [] end.

Section Reassembly.
Context {number : Type} `{JsonNumber number, JsonText number}.
Implicit Types (t : translator) (c : list (str * Value number)).

Definition fragment_index c : Z := default 0 (get c "index" ≫= as_u64).
Definition fragment_arguments c : str := default [] (f ← get_object c "function"; get_str f "arguments").

(** The arguments the fragments carry for an index, in order. *)
Definition gathered (calls : list (list (str * Value number))) (i : Z) : str :=
  mjoin (map (fun c => if fragment_index c =? i then fragment_arguments c else []) calls).

(** A step that keeps the positions and the arguments, but for [x] appended at [p]. *)
Definition appends (p : nat) (x : str) (t t' : translator) : Prop :=
  mt_tool_positions t' = mt_tool_positions t /\ length (mt_tools t') = length (mt_tools t) /\
  forall q, tc_arguments (tool_at t' q) = tc_arguments (tool_at t q) ++ if decide (q = p) then x else [].

Lemma appends_trans p x y t1 t2 t3 : appends p x t1 t2 -> appends p y t2 t3 -> appends p (x ++ y) t1 t3.
Proof.
  intros (E1 & L1 & A1) (E2 & L2 & A2). split_and!; [congruence..|]. intros q. rewrite A2, A1, <-(assoc_L (++)). by case_decide.
Qed.

Lemma appends_refl p t : appends p [] t t.
Proof. split_and!; [done..|]. intros q. case_decide; by rewrite app_nil_r. Qed.

Lemma set_bytes_appends t n t' u p f x : set_bytes t n = (t', Ok u) -> (p < length (mt_tools t))%nat ->
  (forall call, tc_arguments (f call) = tc_arguments call ++ x) -> appends p x t (update_tool t' p f).
Proof.
  unfold set_bytes. destruct (_ <? _); [done|]. intros [= <- _] Hp Hf. unfold appends, update_tool, tool_at.
  cbn [set_tools mt_tool_positions mt_tools]. split_and!; [done|by rewrite length_alter|]. intros q. case_decide as E.
  - subst q. rewrite list_lookup_alter_eq. destruct (lookup_lt_is_Some_2 _ _ Hp) as [call ->]. apply Hf.
  - rewrite list_lookup_alter_ne, app_nil_r by done. done.
Qed.

(** What a store appends when it succeeds. *)
Definition stored (p : nat) (x : str) (m : translator -> translator * result unit AnthropicStreamError) : Prop :=
  forall t t' u, (p < length (mt_tools t))%nat -> m t = (t', Ok u) -> appends p x t t'.

Lemma stored_try p x y m k : stored p x m -> stored p y k -> stored p (x ++ y) (fun t => try (m t) k).
Proof.
  intros Hm Hk t t' u Hp. unfold try. destruct (m t) as [t1 [u1|e]] eqn:E; [|done]. intros Ht'. pose proof (Hm _ _ _ Hp E) as Ha.
  eapply appends_trans; [exact Ha|]. eapply Hk; [|exact Ht']. by rewrite (proj1 (proj2 Ha)).
Qed.

Lemma stored_text p o f (carried : str -> str) : (forall x, stored p (carried x) (f x)) -> carried [] = [] ->
  stored p (default [] (carried <$> o)) (fun t => on_text o t f).
Proof.
  intros Hf Hnil t t' u Hp. unfold on_text. destruct o as [x|]; [|intros [= <- _]; apply appends_refl].
  case_bool_decide as Ex; [subst x; intros [= <- _]; cbn [fmap option_fmap option_map default]; rewrite Hnil; apply appends_refl|].
  by apply Hf.
Qed.

Lemma stored_id p x : stored p [] (store_id p x).
Proof.
  intros t t' u Hp. unfold store_id, try, replace_buffered_bytes. destruct (set_bytes t _) as [t1 [u1|e]] eqn:E; [|done]. intros [= <- _].
  eapply set_bytes_appends; [exact E|done|]. intros call. by rewrite app_nil_r.
Qed.

Lemma stored_name p x : stored p [] (store_name p x).
Proof.
  intros t t' u Hp. unfold store_name, try, replace_buffered_bytes. destruct (set_bytes t _) as [t1 [u1|e]] eqn:E; [|done]. intros [= <- _].
  eapply set_bytes_appends; [exact E|done|]. intros call. by rewrite app_nil_r.
Qed.

Lemma stored_arguments p x : stored p x (store_arguments p x).
Proof.
  intros t t' u Hp. unfold store_arguments, try, add_buffered_bytes. destruct (set_bytes t _) as [t1 [u1|e]] eqn:E; [|done]. intros [= <- _].
  pose proof (set_bytes_appends t _ t1 u1 p (push_arguments x) x E Hp ltac:(done)) as Ha. exact Ha.
Qed.

Lemma default_const {A} (o : option A) : default ([] : str) ((fun _ => []) <$> o) = [].
Proof. by destruct o. Qed.

(** Taking the position of an index changes no arguments. *)
Lemma tool_position_separate t i t' p : separate t -> tool_position t i = (t', Ok p) ->
  separate t' /\ mt_tool_positions t' !! i = Some p /\ forall j, arguments_of t' j = arguments_of t j.
Proof.
  intros [Hr Hinj]. unfold tool_position. destruct (mt_tool_positions t !! i) as [q|] eqn:Eq; [by intros [= <- <-]|].
  destruct (_ <=? _); [done|]. intros [= <- <-]. unfold separate, arguments_of, tool_at. cbn [set_tools mt_tool_positions mt_tools].
  split_and!; [| |apply lookup_insert_eq|].
  - intros j p. rewrite length_app. cbn [length]. intros [[_ <-]|[_ Hj]]%lookup_insert_Some; [lia|]. pose proof (Hr j p Hj). lia.
  - intros j k p [[<- <-]|[Hne Hj]]%lookup_insert_Some [[<- Hp]|[Hne' Hk]]%lookup_insert_Some; [done| | |by eapply Hinj].
    + pose proof (Hr k _ Hk). lia.
    + subst p. pose proof (Hr j _ Hj). lia.
  - intros j. destruct (decide (i = j)) as [<-|Hne].
    + rewrite lookup_insert_eq, Eq, list_lookup_middle by done. done.
    + rewrite lookup_insert_ne by done. destruct (mt_tool_positions t !! j) as [p|] eqn:Ej; [|done]. by rewrite lookup_app_l by (by eapply Hr).
Qed.

Lemma feed_tool_call_arguments c t t' u : separate t -> feed_tool_call c t = (t', Ok u) ->
  separate t' /\ forall i, arguments_of t' i = arguments_of t i ++ (if fragment_index c =? i then fragment_arguments c else []).
Proof.
  intros Hsep. unfold feed_tool_call. fold (fragment_index c). destruct (tool_position t _) as [t1 [p|e]] eqn:Ep; [|done].
  destruct (tool_position_separate _ _ _ _ Hsep Ep) as ([Hr Hinj] & Hpos & Harg). intros Hst.
  assert (Ha : appends p (fragment_arguments c) t1 t').
  { pose proof (stored_try p _ _ _ _ (stored_text p (get_str c "id") (store_id p) (fun _ => []) (stored_id p) eq_refl)
      (stored_try p _ _ _ _ (stored_text p (f ← get_object c "function"; get_str f "name") (store_name p) (fun _ => []) (stored_name p) eq_refl)
        (stored_text p (f ← get_object c "function"; get_str f "arguments") (store_arguments p) (fun x => x) (stored_arguments p) eq_refl))) as Hs.
    rewrite !default_const in Hs. pose proof (Hs t1 t' u (Hr _ _ Hpos) Hst) as Ha. cbn [app] in Ha.
    unfold fragment_arguments. by destruct (f ← get_object c "function"; get_str f "arguments"). }
  destruct Ha as (E & L & A). split.
  - split; rewrite E; [intros j q Hq; rewrite L; by eapply Hr|exact Hinj].
  - intros i. rewrite <- Harg. unfold arguments_of. rewrite E. destruct (Z.eqb_spec (fragment_index c) i) as [<-|Hne].
    + rewrite Hpos, A. by rewrite decide_True.
    + destruct (mt_tool_positions t1 !! i) as [q|] eqn:Eq; [|done]. rewrite A. rewrite decide_False; [done|]. intros ->. apply Hne. by eapply Hinj.
Qed.

Lemma feed_tool_calls_arguments calls t t' u : separate t -> feed_tool_calls calls t = (t', Ok u) ->
  separate t' /\ forall i, arguments_of t' i = arguments_of t i ++ gathered calls i.
Proof.
  revert t. induction calls as [|c calls IH]; intros t Hsep; cbn [feed_tool_calls].
  - intros [= <- _]. split; [done|]. intros i. by rewrite app_nil_r.
  - destruct (feed_tool_call c t) as [t1 [u1|e]] eqn:E; cbn [try]; [|done]. intros Ht.
    destruct (feed_tool_call_arguments c t t1 u1 Hsep E) as [Hsep1 H1]. destruct (IH t1 Hsep1 Ht) as [Hsep2 H2]. split; [done|].
    intros i. rewrite H2, H1, <-(assoc_L (++)). done.
Qed.

Lemma tools_frames_at tools n p call : 0 <= n -> n + len tools <= u64_max -> tools !! p = Some call ->
  tool_frames (n + Z.of_nat p) call ⊆ fst (tools_frames n tools).
Proof.
  revert n p. induction tools as [|tool tools IH]; intros n p Hn Hle Hp; [done|]. cbn [tools_frames]. rewrite len_cons in Hle.
  pose proof (len_nonneg tools) as Hpos. assert (Hsat : u64_sat_add n 1 = n + 1) by (unfold u64_sat_add; lia). rewrite Hsat.
  pose proof (fun q => IH (n + 1) q ltac:(lia) ltac:(lia)) as Hrest. destruct (tools_frames (n + 1) tools) as [rest last]; cbn [fst] in *.
  destruct p as [|p]; cbn in Hp.
  - injection Hp as ->. rewrite Z.add_0_r. intros f Hf. apply elem_of_app. by left.
  - replace (n + Z.of_nat (S p)) with (n + 1 + Z.of_nat p) by lia. intros f Hf. apply elem_of_app. right. by apply (Hrest p Hp).
Qed.

Lemma reassembled calls model id n t' u : feed_tool_calls calls (translator_new model id n) = (t', Ok u) ->
  forall i, gathered calls i <> [] -> exists index, ToolDelta index (gathered calls i) ∈ snd (finish_message t').
Proof.
  set (t := translator_new model id n). intros Hfeed i Hne.
  assert (Hempty : mt_tool_positions t = ∅) by done.
  assert (Hsep : separate t) by (split; intros i0; [intros p Hp|intros j p Hp]; rewrite Hempty, lookup_empty in Hp; done).
  destruct (feed_tool_calls_arguments calls t t' u Hsep Hfeed) as [_ Harg]. specialize (Harg i).
  destruct (feed_tool_calls_keeps default_limits limits_ok_default calls t (translator_new_bounded model id n)) as [Hb (_ & Hterm & Hnext & Hcur)].
  rewrite Hfeed in *. cbn [fst] in *. unfold arguments_of in Harg at 1. destruct (mt_tool_positions t' !! i) as [p|] eqn:Ep; [|symmetry in Harg; by apply app_nil in Harg as [_ ?]].
  pose proof (bo_positions _ _ Hb i p Ep) as Hp. pose proof (bo_calls _ _ Hb) as Hcalls. destruct limits_ok_default as [Hlim _].
  unfold arguments_of in Harg. rewrite Hempty, lookup_empty in Harg. cbn [app] in Harg. exists (mt_next_index t' + Z.of_nat p). unfold finish_message. rewrite Hterm, Hnext, Hcur. cbn [t translator_new translator_with mt_terminal mt_next_index mt_current_text_index].
  pose proof (tools_frames_at (mt_tools t') 0 p (tool_at t' p) ltac:(lia) ltac:(unfold u64_max in *; lia) (tool_at_lookup _ _ Hp)) as Hin.
  destruct (tools_frames 0 (mt_tools t')) as [frames last]; cbn [fst snd app] in *. apply elem_of_app. left. apply Hin. unfold tool_frames. rewrite Harg.
  rewrite bool_decide_eq_false_2 by done. rewrite !elem_of_app, !list_elem_of_singleton. tauto.
Qed.
End Reassembly.

(** ** Theorems *)

(** An instance for closed examples: the texts of a table are read as its
    values, and a string without escapes is written between quotes. *)
Definition table_text (table : list (str * Value Z)) : JsonText Z := {|
  to_vec v := match v with JString s => Ok ([34] ++ as_bytes s ++ [34]) | _ => Err [] end;
  from_slice bytes :=
    match list_find (fun '(text, _) => as_bytes text = bytes) table with Some (_, (_, v)) => Ok v | None => Err [] end;
|}.

Definition delta_chunk (delta : Value Z) (rest : list (string * Value Z)) : Value Z :=
  jo (("choices"%string, JArray [jo [("delta"%string, delta)]]) :: rest).
Definition text_chunk (text : string) : Value Z := delta_chunk (jo [("content"%string, js text)]) [].
Definition tool_chunk (index : Z) (opening : list (string * Value Z)) (named : list (string * Value Z)) (arguments : string) : Value Z :=
  delta_chunk (jo [("tool_calls"%string, JArray [jo
    (("index"%string, JNumber index) :: opening ++ [("function"%string, jo (named ++ [("arguments"%string, js arguments)]))])])]) [].
Definition closing_chunk : Value Z :=
  jo [("choices"%string, JArray [jo [("finish_reason"%string, js "tool_calls")]]);
      ("usage"%string, jo [("prompt_tokens"%string, JNumber 11); ("completion_tokens"%string, JNumber 7)])].

Definition sample_table : list (str * Value Z) :=
  [(lit "{t}", text_chunk "On it.");
   (lit "{a1}", tool_chunk 0 [("id"%string, js "call_a")] [("name"%string, js "read")] "{'p':");
   (lit "{b1}", tool_chunk 1 [("id"%string, js "call_b")] [("name"%string, js "list")] "{'d'");
   (lit "{a2}", tool_chunk 0 [] [] "1}"); (lit "{b2}", tool_chunk 1 [] [] ":2}"); (lit "{end}", closing_chunk)].

Definition sample_upstream : list Z :=
  as_bytes (mjoin (map (fun name => lit "data: {" ++ lit name ++ lit "}" ++ [10; 10]) ["t"; "a1"; "b1"; "a2"; "b2"; "end"]%string ++
                   [lit "data: [DONE]" ++ [10; 10]])).

Definition sample_frames : list Frame :=
  [MessageStart (lit "msg_1") (lit "m") 3; TextStart 0; TextDelta 0 (lit "On it."); BlockStop 0;
   ToolStart 1 (lit "call_a") (lit "read"); ToolDelta 1 (lit "{'p':1}"); BlockStop 1;
   ToolStart 2 (lit "call_b") (lit "list"); ToolDelta 2 (lit "{'d':2}"); BlockStop 2;
   MessageDelta (lit "tool_use") 7; MessageStop].

Local Notation sample_translation fragments :=
  (translate_openai_sse_fragments (number := Z) (H0 := table_text sample_table) fragments (lit "m") (lit "msg_1") 3).

Example sample_translation_ok : sample_translation [sample_upstream] = Ok sample_frames.
Proof. vm_compute. reflexivity. Qed.

(** The sample cut in two in the middle of a line. *)
Definition sample_cut : list (list Z) := [take 40 sample_upstream; drop 40 sample_upstream].

Definition frames_of (r : result (list Frame) AnthropicStreamError) : list Frame := match r with Ok out => out | Err _ => [] end.

Example sample_cut_bytes : mjoin sample_cut = mjoin [sample_upstream].
Proof. vm_compute. reflexivity. Qed.

Example sample_cut_ok : sample_translation sample_cut = Ok (frames_of (sample_translation sample_cut)).
Proof. vm_compute. reflexivity. Qed.

(** C17: Whatever the upstream sends and however it is cut, a translation that
    succeeds is a well-formed Messages stream: one [message_start], content
    blocks with consecutive indices from zero, each opened, filled and closed
    before the next, at least one of them, then [message_delta] and
    [message_stop]; or an [error] frame that ends it. *)
Theorem translated_stream_well_formed {number : Type} `{JsonNumber number, JsonText number} fragments model id n out :
  translate_openai_sse_fragments (number := number) fragments model id n = Ok out -> protocol Opening out = Some Ended.
Proof. apply translated_well_formed. Qed.

Lemma translated_stream_well_formed_witness : protocol Opening sample_frames = Some Ended.
Proof.
  apply (translated_stream_well_formed (number := Z) (H0 := table_text sample_table) [sample_upstream] (lit "m") (lit "msg_1") 3).
  vm_compute. reflexivity.
Defined.

(** The cut does not matter: two fragmentations of the same upstream bytes
    that both succeed give the same frames, although text is passed on as it
    arrives and bytes after the end of the stream are not read. *)
Theorem translation_ignores_fragmentation {number : Type} `{JsonNumber number, JsonText number} f1 f2 model id n o1 o2 :
  mjoin f1 = mjoin f2 ->
  translate_openai_sse_fragments (number := number) f1 model id n = Ok o1 ->
  translate_openai_sse_fragments (number := number) f2 model id n = Ok o2 -> o1 = o2.
Proof. apply translate_cut. Qed.

Lemma translation_ignores_fragmentation_witness : frames_of (sample_translation sample_cut) = sample_frames.
Proof.
  exact (translation_ignores_fragmentation _ _ _ _ _ _ _ sample_cut_bytes sample_cut_ok sample_translation_ok).
Defined.

(** C18: Tool calls that the upstream interleaves are reassembled: after the
    fragments of any number of calls, the stream that is closed carries, for
    each upstream index, a delta with exactly the arguments of that index, in
    their order. *)
Theorem interleaved_calls_reassembled {number : Type} `{JsonNumber number} calls model id n t' u :
  feed_tool_calls (number := number) calls (translator_new model id n) = (t', Ok u) ->
  forall i, gathered calls i <> [] -> exists index, ToolDelta index (gathered calls i) ∈ snd (finish_message t').
Proof. apply reassembled. Qed.

Definition sample_calls : list (list (str * Value Z)) :=
  let call i arguments := [(lit "index", JNumber i); (lit "function", jo [("arguments"%string, js arguments)])] in
  [call 4 "{'p':"%string; call 2 "{'d'"%string; call 4 "1}"%string; call 2 ":2}"%string].

Lemma interleaved_calls_reassembled_witness : exists index,
  ToolDelta index (lit "{'p':1}") ∈
  snd (finish_message (fst (feed_tool_calls sample_calls (translator_new (lit "m") (lit "msg_1") 3)))).
Proof.
  refine (interleaved_calls_reassembled sample_calls (lit "m") (lit "msg_1") 3 _ tt _ 4 _).
  - vm_compute. reflexivity.
  - vm_compute. discriminate.
Defined.

(** Limits that are accepted, and that no counter reaches by saturation. *)
Definition usable_limits (l : AnthropicStreamLimits) : Prop :=
  Forall (fun limit => 0 < limit < u64_max) [sl_max_line_bytes l; sl_max_event_bytes l; max_tool_calls l; max_tool_bytes l].

(** Memory: after any sequence of pushes and finishes, failed ones
    included, the translator buffers at most [max_tool_calls] calls and
    [max_tool_bytes] bytes of their ids, names and arguments, and its decoder
    is within its own bounds. *)
Theorem stream_memory_bounded {number : Type} `{JsonNumber number, JsonText number} model id n l calls :
  usable_limits l -> exists t, with_limits model id n l = Ok t /\
    let t' := after_calls (number := number) calls t in
    len (mt_tools t') <= max_tool_calls l /\ tools_size (mt_tools t') <= max_tool_bytes l /\ wf_decoder (mt_decoder t').
Proof.
  unfold usable_limits. rewrite !Forall_cons. intros (Hline & Hevent & Hcalls & Hbytes & _). unfold with_limits, SseDecoder_new.
  destruct (Z.eqb_spec (sl_max_line_bytes l) 0), (Z.eqb_spec (sl_max_event_bytes l) 0), (Z.eqb_spec (max_tool_calls l) 0), (Z.eqb_spec (max_tool_bytes l) 0); try lia.
  cbn [orb map_err result_bind]. eexists. split; [done|]. cbv zeta.
  assert (Hl : limits_ok l) by (unfold limits_ok; lia).
  edestruct (after_calls_bounded (number := number) l calls) as [_ Hd Hc Hn Hb _]; [exact Hl| |rewrite <- Hn; split_and!; [lia|done|done]].
  apply translator_with_bounded; [done|]. constructor; cbn; [lia|rewrite len_nil; lia|split; [done|lia]|done].
Qed.

Lemma stream_memory_bounded_witness : exists t, with_limits (lit "m") (lit "msg_1") 3 default_limits = Ok t /\
  let t' := after_calls (number := Z) [PushCall sample_upstream; FinishCall] t in
  len (mt_tools t') <= 128 /\ tools_size (mt_tools t') <= 4194304 /\ wf_decoder (mt_decoder t').
Proof. apply (stream_memory_bounded (lit "m") (lit "msg_1") 3 default_limits). repeat constructor. Defined.
