(* ===== verification/JsonSample.v ===== *)
(** * A text form of JSON values for closed examples

    An instance of [JsonText] over the numbers of the examples: a value is
    encoded as a tree, the tree as a positive number, and the number is written
    with the digits 0 and 1.  It satisfies what the clients rely on of
    [serde_json], so their hypotheses can be met. *)
From S2P Require Export Text Json.

#[export] Instance spec_float_eq_dec : EqDecision spec_float.
Proof. solve_decision. Defined.

#[export] Instance plain_number_eq_dec : EqDecision plain_number.
Proof. solve_decision. Defined.

Definition float_code (x : f64) : bool + bool + unit + bool * positive * Z :=
  match x with
  | S754_zero s => inl (inl (inl s))
  | S754_infinity s => inl (inl (inr s))
  | S754_nan => inl (inr tt)
  | S754_finite s m e => inr (s, m, e)
  end.

Definition float_of_code (c : bool + bool + unit + bool * positive * Z) : f64 :=
  match c with
  | inl (inl (inl s)) => S754_zero s
  | inl (inl (inr s)) => S754_infinity s
  | inl (inr _) => S754_nan
  | inr (s, m, e) => S754_finite s m e
  end.

#[export] Instance spec_float_countable : Countable spec_float.
Proof. apply (inj_countable' float_code float_of_code). by intros []. Defined.

#[export] Instance plain_number_countable : Countable plain_number.
Proof.
  apply (inj_countable' (fun n => match n with PlainInt n => inl n | PlainFloat x => inr x end)
           (fun c => match c with inl n => PlainInt n | inr x => PlainFloat x end)).
  by intros [].
Defined.

(** ** Trees *)
Definition leaf_tag (s : str) : gen_tree (plain_number + str) := GenLeaf (inr s).

Fixpoint plain_tree (v : Value plain_number) : gen_tree (plain_number + str) :=
  match v with
  | JNull => GenNode 0 []
  | JBool b => GenNode (if b then 1 else 7) []
  | JNumber n => GenNode 2 [GenLeaf (inl n)]
  | JString s => GenNode 3 [GenLeaf (inr s)]
  | JArray values => GenNode 4 (map plain_tree values)
  | JObject members => GenNode 5 (map (fun '(k, v) => GenNode 6 [leaf_tag k; plain_tree v]) members)
  end.

Fixpoint tree_plain (t : gen_tree (plain_number + str)) : Value plain_number :=
  match t with
  | GenNode 1 _ => JBool true
  | GenNode 7 _ => JBool false
  | GenNode 2 [GenLeaf (inl n)] => JNumber n
  | GenNode 3 [GenLeaf (inr s)] => JString s
  | GenNode 4 trees => JArray (map tree_plain trees)
  | GenNode 5 trees =>
      JObject (map (fun t => match t with
                            | GenNode 6 [GenLeaf (inr k); v] => (k, tree_plain v)
                            | _ => ([], JNull)
                            end) trees)
  | _ => JNull
  end.

Lemma tree_plain_tree v : tree_plain (plain_tree v) = v.
Proof.
  induction v as [|b|n|s|values IH|members IH] using Value_nested_ind; simpl; try done.
  - by destruct b.
  - f_equal. induction IH as [|v values Hv _ IH]; simpl; [done|]. by rewrite Hv, IH.
  - f_equal. induction IH as [|[k v] members Hv _ IH]; simpl; [done|]. simpl in Hv. by rewrite Hv, IH.
Qed.

(** ** Binary digits *)
Fixpoint digits_of_pos (p : positive) : list Z :=
  match p with xH => [49] | xO p => 48 :: digits_of_pos p | xI p => 49 :: digits_of_pos p end.

Fixpoint pos_of_digits (l : list Z) : option positive :=
  match l with
  | [] => None
  | [d] => if d =? 49 then Some xH else None
  | d :: l => (if d =? 49 then xI else xO) <$> pos_of_digits l
  end.

Lemma pos_of_digits_of_pos p : pos_of_digits (digits_of_pos p) = Some p.
Proof.
  induction p as [p IH|p IH|]; [| |done]; cbn [digits_of_pos].
  - destruct (digits_of_pos p) eqn:E; [by destruct p|]. cbn [pos_of_digits] in *. by rewrite IH.
  - destruct (digits_of_pos p) eqn:E; [by destruct p|]. cbn [pos_of_digits] in *. by rewrite IH.
Qed.

Lemma digits_of_pos_range p : Forall (fun d => d = 48 \/ d = 49) (digits_of_pos p).
Proof. induction p; cbn [digits_of_pos]; constructor; auto. Qed.

Lemma digits_of_pos_not_nil p : digits_of_pos p <> [].
Proof. by destruct p. Qed.

#[export] Instance sample_text : JsonText plain_number := {
  to_vec v := Ok (digits_of_pos (encode (plain_tree v)));
  from_slice bytes :=
    match pos_of_digits bytes ≫= decode with
    | Some t => Ok (tree_plain t)
    | None => Err []
    end;
}.

#[export] Instance sample_text_laws : JsonTextLaws plain_number.
Proof.
  constructor. intros v bytes [= <-]. cbn [from_slice sample_text]. rewrite pos_of_digits_of_pos. cbn [mbind option_bind].
  by rewrite decode_encode, tree_plain_tree.
Qed.
