(* ===== verification/AuditLog.v ===== *)
(** * Operator audit records (crate [wayfinder-gateway], [src/audit.rs])

    Events and their digest, and the pipeline that writes them: a bounded queue
    with one worker, a local destination and a shared one.  Tasks interleave as
    steps; the UUID and the clock of an event are inputs, a ticket stands for
    the channel a caller awaits, and a poisoned lock is not modelled. *)
From S2P Require Export State CacheKey JsonSample.

Definition MAX_ACTOR_BYTES : Z := 128.
Definition MAX_ACTION_BYTES : Z := 96.
Definition MAX_METADATA_BYTES : Z := 2048.
Definition AUDIT_QUEUE_CAPACITY : Z := 256.
Definition MAX_SHARED_AUDIT_EVENTS : Z := 10000.

(** [MultipleDestinations] prints the errors it holds. *)
Inductive AuditError :=
| AuditLockPoisoned
| QueueFull
| WorkerUnavailable
| AuditIo (e : str)
| Shared (e : StateBackendError)
| MultipleDestinations (local shared : AuditError)
| MetadataTooLarge
| Serialization (e : str)
| RuntimeUnavailable.

(** ** Events *)
Section Events.
Context {number : Type} `{JsonText number, JsonBuild number}.
Context (sha256 : list Z -> list Z).

Record AuditEvent := {
  ae_schema_version : Z;
  ae_event_id : str;
  ae_content_sha256 : str;
  ae_timestamp : Z;
  ae_actor : str;
  ae_action : str;
  ae_policy_version : option str;
  ae_snapshot_id : option str;
  ae_before : option (Value number);
  ae_after : option (Value number);
}.

(** [skip_serializing_if = "Option::is_none"]. *)
Definition present (name : string) (o : option (Value number)) : list (str * Value number) :=
  match o with Some v => [(lit name, v)] | None => [] end.

Definition number_value (n : Z) : Value number := JNumber (number_of_u64 n).

(** The members after the digest, which both encodings share. *)
Definition event_tail (e : AuditEvent) : list (str * Value number) :=
  [(lit "timestamp", number_value (ae_timestamp e)); (lit "actor", JString (ae_actor e)); (lit "action", JString (ae_action e))]
  ++ present "policy_version" (JString <$> ae_policy_version e) ++ present "snapshot_id" (JString <$> ae_snapshot_id e)
  ++ present "before" (ae_before e) ++ present "after" (ae_after e).

(** [HashableAuditEvent]: every field but the digest. *)
Definition hashable_event (e : AuditEvent) : Value number :=
  JObject ([(lit "schema_version", number_value (ae_schema_version e)); (lit "event_id", JString (ae_event_id e))] ++ event_tail e).

Definition event_value (e : AuditEvent) : Value number :=
  JObject ([(lit "schema_version", number_value (ae_schema_version e)); (lit "event_id", JString (ae_event_id e));
            (lit "content_sha256", JString (ae_content_sha256 e))] ++ event_tail e).

Definition event_content_sha256 (e : AuditEvent) : result str AuditError :=
  let? encoded := map_err Serialization (to_vec (hashable_event e)) in Ok (hex_encode (sha256 encoded)).

Definition is_ascii_control (byte : Z) : bool := (byte <? 32) || (byte =? 127).

(** [bounded_label]. *)
Definition audit_label (value fallback : str) (max_bytes : Z) : str :=
  let value := trim value in
  if bool_decide (value = []) || (max_bytes <? str_len value) || existsb is_ascii_control (as_bytes value)
  then fallback else value.

Definition metadata_too_large (value : Value number) : bool :=
  match to_vec value with Ok encoded => MAX_METADATA_BYTES <? len encoded | Err _ => false end.

Definition too_large (o : option (Value number)) : bool := match o with Some v => metadata_too_large v | None => false end.

Definition set_digest (e : AuditEvent) (digest : str) : AuditEvent :=
  {| ae_schema_version := ae_schema_version e; ae_event_id := ae_event_id e; ae_content_sha256 := digest;
     ae_timestamp := ae_timestamp e; ae_actor := ae_actor e; ae_action := ae_action e; ae_policy_version := ae_policy_version e;
     ae_snapshot_id := ae_snapshot_id e; ae_before := ae_before e; ae_after := ae_after e |}.

Definition AuditEvent_new (uuid : str) (clock : Z) (actor action : str) (before after : option (Value number))
    (policy_version snapshot_id : option str) : result AuditEvent AuditError :=
  let actor := audit_label actor (lit "unknown") MAX_ACTOR_BYTES in
  let action := audit_label action (lit "unknown") MAX_ACTION_BYTES in
  if too_large before || too_large after then Err MetadataTooLarge
  else
    let event :=
      {| ae_schema_version := 2; ae_event_id := uuid; ae_content_sha256 := []; ae_timestamp := clock; ae_actor := actor;
         ae_action := action; ae_policy_version := (fun value => audit_label value (lit "unknown") MAX_ACTION_BYTES) <$> policy_version;
         ae_snapshot_id := (fun value => audit_label value (lit "unknown") MAX_ACTION_BYTES) <$> snapshot_id;
         ae_before := before; ae_after := after |} in
    let? digest := event_content_sha256 event in
    Ok (set_digest event digest).
End Events.
Arguments AuditEvent : clear implicits.

(** ** The pipeline *)

(** [LocalAuditSink], behind [spawn_blocking]: [None] when the task panics or
    is cancelled, which loses the sink. *)
Class LocalAuditSink (L : Type) := {
  append_task : L -> str -> option (L * result unit str);
  flush_task : L -> option (L * result unit str);
}.

(** The file the sink has open, call by call: [write_all] takes the line or
    fails after some of its bytes, [flush] and [sync_all] succeed or fail, and
    the blocking task may be lost. *)
Class Disk := {
  disk_write : nat -> option (nat * str);
  disk_flush : nat -> result unit str;
  disk_sync : nat -> result unit str;
  disk_lost : nat -> bool;
}.

(** [FileAuditSink]: the bytes of the file, and the calls made so far. *)
Record FileAuditSink := { af_bytes : list Z; af_calls : nat }.

(** [append] writes one line and flushes it; [flush_durable] flushes and syncs. *)
#[export] Instance file_sink `{Disk} : LocalAuditSink FileAuditSink := {|
  append_task sink encoded :=
    let line := as_bytes encoded ++ [10] in
    if disk_lost (af_calls sink) then None
    else Some
      match disk_write (af_calls sink) with
      | Some (taken, e) => ({| af_bytes := af_bytes sink ++ take taken line; af_calls := S (af_calls sink) |}, Err e)
      | None => ({| af_bytes := af_bytes sink ++ line; af_calls := S (af_calls sink) |}, disk_flush (af_calls sink))
      end;
  flush_task sink :=
    if disk_lost (af_calls sink) then None
    else Some ({| af_bytes := af_bytes sink; af_calls := S (af_calls sink) |},
               let? _ := disk_flush (af_calls sink) in disk_sync (af_calls sink)) |}.

Section Pipeline.
Context {L B : Type} `{LocalAuditSink L, StateBackend B}.

Inductive AuditCommand :=
| CmdRecord (ticket : nat) (encoded : str)
| CmdFlush (ticket : nat)
| CmdShutdown (ticket : nat).

Definition ticket_of (c : AuditCommand) : nat := match c with CmdRecord t _ | CmdFlush t | CmdShutdown t => t end.

(** [SharedAuditSink]. *)
Record SharedAuditSink := { ss_backend : B; ss_key : str }.

(** The sender with its [closing] flag, the channel, a shutdown that waits for
    room in it, the worker and its destinations, and the answers given. *)
Record Pipeline := {
  pl_closing : bool;
  pl_queue : list AuditCommand;
  pl_waiting : option AuditCommand;
  pl_running : bool;
  pl_local : option L;
  pl_shared : option SharedAuditSink;
  pl_acks : list (nat * result unit AuditError);
}.

Definition spawn (local : option L) (shared : option SharedAuditSink) : Pipeline :=
  {| pl_closing := false; pl_queue := []; pl_waiting := None; pl_running := true; pl_local := local; pl_shared := shared; pl_acks := [] |}.

Definition set_channel (p : Pipeline) (closing : bool) (queue : list AuditCommand) (waiting : option AuditCommand) : Pipeline :=
  {| pl_closing := closing; pl_queue := queue; pl_waiting := waiting; pl_running := pl_running p; pl_local := pl_local p;
     pl_shared := pl_shared p; pl_acks := pl_acks p |}.

Definition has_room (p : Pipeline) : bool := len (pl_queue p) <? AUDIT_QUEUE_CAPACITY.

(** [AuditLog::try_send]. *)
Definition try_send (p : Pipeline) (c : AuditCommand) : Pipeline * result unit AuditError :=
  if pl_closing p then (p, Err WorkerUnavailable)
  else if negb (pl_running p) then (p, Err WorkerUnavailable)
  else if negb (has_room p) then (p, Err QueueFull)
  else (set_channel p (pl_closing p) (pl_queue p ++ [c]) (pl_waiting p), Ok ()).

(** [AuditLog::shutdown] up to its first suspension: the flag, then the send,
    which waits when the channel is full. *)
Definition begin_shutdown (p : Pipeline) (ticket : nat) : Pipeline * result unit AuditError :=
  if pl_closing p then (p, Err WorkerUnavailable)
  else if negb (pl_running p) then (set_channel p true (pl_queue p) (pl_waiting p), Err WorkerUnavailable)
  else if has_room p then (set_channel p true (pl_queue p ++ [CmdShutdown ticket]) (pl_waiting p), Ok ())
  else (set_channel p true (pl_queue p) (Some (CmdShutdown ticket)), Ok ()).

(** A waiting send finds room. *)
Definition resume_shutdown (p : Pipeline) : Pipeline :=
  match pl_waiting p with
  | Some c => if has_room p then set_channel p (pl_closing p) (pl_queue p ++ [c]) None else p
  | None => p
  end.

(** A caller that awaits [shutdown] is dropped while its send waits. *)
Definition abandon_shutdown (p : Pipeline) : Pipeline := set_channel p (pl_closing p) (pl_queue p) None.

Definition append_local (local : option L) (encoded : str) : option L * result unit AuditError :=
  match local with
  | None => (None, Ok ())
  | Some sink =>
      match append_task sink encoded with
      | Some (sink, r) => (Some sink, map_err AuditIo r)
      | None => (None, Err WorkerUnavailable)
      end
  end.

Definition flush_local (local : option L) : option L * result unit AuditError :=
  match local with
  | None => (None, Ok ())
  | Some sink =>
      match flush_task sink with
      | Some (sink, r) => (Some sink, map_err AuditIo r)
      | None => (None, Err WorkerUnavailable)
      end
  end.

Definition combine_destination_results (local shared : result unit AuditError) : result unit AuditError :=
  match local, shared with
  | Ok _, Ok _ => Ok ()
  | Err e, Ok _ | Ok _, Err e => Err e
  | Err l, Err s => Err (MultipleDestinations l s)
  end.

Definition write_event (local : option L) (shared : option SharedAuditSink) (encoded : str)
    : option L * option SharedAuditSink * result unit AuditError :=
  let '(local, local_result) := append_local local encoded in
  let '(shared, shared_result) :=
    match shared with
    | Some sink =>
        let '(b, r) := sb_append_audit (ss_backend sink) (ss_key sink) encoded MAX_SHARED_AUDIT_EVENTS in
        (Some {| ss_backend := b; ss_key := ss_key sink |}, map_err Shared r)
    | None => (None, Ok ())
    end in
  (local, shared, combine_destination_results local_result shared_result).

(** One round of [run_audit_worker]. *)
Definition work (p : Pipeline) : Pipeline :=
  match pl_running p, pl_queue p with
  | true, c :: queue =>
      let acknowledged local shared running r :=
        {| pl_closing := pl_closing p; pl_queue := queue; pl_waiting := pl_waiting p; pl_running := running; pl_local := local;
           pl_shared := shared; pl_acks := pl_acks p ++ [(ticket_of c, r)] |} in
      match c with
      | CmdRecord _ encoded =>
          let '(local, shared, r) := write_event (pl_local p) (pl_shared p) encoded in acknowledged local shared true r
      | CmdFlush _ => let '(local, r) := flush_local (pl_local p) in acknowledged local (pl_shared p) true r
      | CmdShutdown _ => let '(local, r) := flush_local (pl_local p) in acknowledged local (pl_shared p) false r
      end
  | _, _ => p
  end.

Inductive pipeline_op :=
| OpRecordEvent (ticket : nat) (encoded : str)
| OpFlush (ticket : nat)
| OpShutdown (ticket : nat)
| OpResume
| OpAbandon
| OpWork.

Definition send_step (p : Pipeline) (c : AuditCommand) : Pipeline * list AuditCommand :=
  let '(p', r) := try_send p c in (p', match r with Ok _ => [c] | Err _ => [] end).

(** A step, and the command it puts in the channel. *)
Definition pipeline_step (p : Pipeline) (op : pipeline_op) : Pipeline * list AuditCommand :=
  match op with
  | OpRecordEvent t encoded => send_step p (CmdRecord t encoded)
  | OpFlush t => send_step p (CmdFlush t)
  | OpShutdown t =>
      let '(p', r) := begin_shutdown p t in
      (p', match r, pl_waiting p' with Ok _, None => [CmdShutdown t] | _, _ => [] end)
  | OpResume => (resume_shutdown p, match pl_waiting p with Some c => if has_room p then [c] else [] | None => [] end)
  | OpAbandon => (abandon_shutdown p, [])
  | OpWork => (work p, [])
  end.

(** A history: where it leaves the pipeline and what was accepted, in order. *)
Fixpoint pipeline_run (p : Pipeline) (ops : list pipeline_op) : Pipeline * list AuditCommand :=
  match ops with
  | [] => (p, [])
  | op :: ops => let '(p, accepted) := pipeline_step p op in let '(p, rest) := pipeline_run p ops in (p, accepted ++ rest)
  end.
End Pipeline.

(** [record_optional_policy] on an enabled log: the event is built and encoded
    before it is offered to the channel. *)
Definition record_optional_policy {number L B : Type} `{JsonText number, JsonBuild number} `{LocalAuditSink L, StateBackend B}
    (sha256 : list Z -> list Z) (p : Pipeline (L := L) (B := B)) (ticket : nat) (uuid : str) (clock : Z) (actor action : str)
    (before after : option (Value number)) (policy_version snapshot_id : option str)
    : Pipeline (L := L) (B := B) * result unit AuditError :=
  match AuditEvent_new sha256 uuid clock actor action before after policy_version snapshot_id with
  | Err e => (p, Err e)
  | Ok event =>
      match map_err Serialization (to_vec (event_value event)) with
      | Err e => (p, Err e)
      | Ok encoded => try_send p (CmdRecord ticket (default [] (from_utf8 encoded)))
      end
  end.

(** ** Lemmas *)
Definition is_shutdown (c : AuditCommand) : bool := match c with CmdShutdown _ => true | _ => false end.

Section Order.
Context {L B : Type} `{LocalAuditSink L, StateBackend B}.
Implicit Types (p : Pipeline (L := L) (B := B)).

(** The channel holds what was accepted and not yet handled; a shutdown is the
    last command it takes. *)
Record pipeline_ok (accepted handled : list AuditCommand) p : Prop := {
  po_prefix : accepted = handled ++ pl_queue p;
  po_acks : map fst (pl_acks p) = map ticket_of handled;
  po_room : len (pl_queue p) <= AUDIT_QUEUE_CAPACITY;
  po_shutdown : exists before, Forall (fun c => is_shutdown c = false) before /\
    (accepted = before \/ (pl_closing p = true /\ pl_waiting p = None /\ exists t, accepted = before ++ [CmdShutdown t]));
  po_waiting : pl_waiting p <> None -> pl_closing p = true /\ pl_running p = true /\ exists t, pl_waiting p = Some (CmdShutdown t);
  po_stopped : pl_running p = false -> pl_closing p = true /\ pl_queue p = [] /\ exists before t, accepted = before ++ [CmdShutdown t];
}.

Lemma spawn_ok local shared : pipeline_ok [] [] (spawn local shared).
Proof. constructor; cbn; try done. exists []. split; [constructor|by left]. Qed.

Lemma enqueue_ok accepted handled p c closing : pipeline_ok accepted handled p -> has_room p = true -> pl_running p = true ->
  (is_shutdown c = false -> closing = false) -> (is_shutdown c = true -> closing = true /\ exists t, c = CmdShutdown t) ->
  Forall (fun c => is_shutdown c = false) accepted -> pl_waiting p = None \/ is_shutdown c = true ->
  pipeline_ok (accepted ++ [c]) handled (set_channel p closing (pl_queue p ++ [c]) None).
Proof.
  intros [Hp Ha Hr Hs Hw Hst] Hroom Hrun Hn Hy Hall Hwait.  unfold has_room in Hroom. apply Z.ltb_lt in Hroom.
  constructor; cbn; [by rewrite Hp, (assoc_L (++))|done|unfold len in *; rewrite length_app; cbn [length]; lia| |done|by rewrite Hrun].
  destruct (is_shutdown c) eqn:E.
  - destruct (Hy eq_refl) as [Hc [t ->]]. exists accepted. split; [done|]. right. split_and!; [done|done|by exists t].
  - exists (accepted ++ [c]). split; [apply Forall_app_2; [done|by repeat constructor]|by left].
Qed.

(** While the sender is open, no shutdown was accepted. *)
Lemma open_no_shutdown accepted handled p : pipeline_ok accepted handled p -> pl_closing p = false ->
  Forall (fun c => is_shutdown c = false) accepted /\ pl_waiting p = None.
Proof.
  intros [_ _ _ (before & Hb & Hs) Hw _] Hc. split.
  - destruct Hs as [->|(Hcl & _)]; [done|congruence].
  - destruct (pl_waiting p) eqn:E; [|done]. destruct Hw as [? _]; [done|congruence].
Qed.

Lemma waiting_no_shutdown accepted handled p c : pipeline_ok accepted handled p -> pl_waiting p = Some c ->
  Forall (fun c => is_shutdown c = false) accepted.
Proof. intros [_ _ _ (before & Hb & Hs) _ _] Hw. destruct Hs as [->|(_ & Hn & _)]; [done|congruence]. Qed.

Lemma try_send_ok accepted handled p c : is_shutdown c = false -> pipeline_ok accepted handled p ->
  pipeline_ok (accepted ++ (send_step p c).2) handled (send_step p c).1.
Proof.
  intros Hc Hp. unfold send_step, try_send. destruct (pl_closing p) eqn:Ecl; [by rewrite app_nil_r|].
  destruct (pl_running p) eqn:Er; cbn [negb]; [|by rewrite app_nil_r]. destruct (has_room p) eqn:Eroom; cbn [negb]; [|by rewrite app_nil_r].
  cbn [fst snd]. destruct (open_no_shutdown _ _ _ Hp Ecl) as [Hall Hw]. rewrite Hw. apply enqueue_ok; try done; [by rewrite Hc|by left].
Qed.

Lemma set_closing_ok accepted handled p waiting : pipeline_ok accepted handled p -> pl_closing p = false ->
  (waiting = None \/ (pl_running p = true /\ exists t, waiting = Some (CmdShutdown t))) ->
  pipeline_ok accepted handled (set_channel p true (pl_queue p) waiting).
Proof.
  intros Hp Hc Hw. destruct (open_no_shutdown _ _ _ Hp Hc) as [Hall _]. destruct Hp as [Hpre Ha Hr Hs _ Hst]. constructor; cbn; try done.
  - exists accepted. split; [done|by left].
  - intros Hn. destruct Hw as [->|[Hrun [t ->]]]; [done|]. split_and!; [done|done|by exists t].
  - intros Hrun. destruct (Hst Hrun) as (_ & Hq & Hx). by split_and!.
Qed.

Lemma send_keeps_local p c : pl_local (send_step p c).1 = pl_local p /\ pl_acks (send_step p c).1 = pl_acks p.
Proof. unfold send_step, try_send. destruct (pl_closing p); [done|]. destruct (negb _); [done|]. by destruct (negb _). Qed.

Lemma step_ok accepted handled p op : pipeline_ok accepted handled p ->
  exists handled', pipeline_ok (accepted ++ (pipeline_step p op).2) (handled ++ handled') (pipeline_step p op).1 /\
    (op <> OpWork -> handled' = [] /\ pl_local (pipeline_step p op).1 = pl_local p /\ pl_acks (pipeline_step p op).1 = pl_acks p).
Proof.
  intros Hp. destruct op as [t e|t|t| | |]; cbn [pipeline_step].
  - exists []. rewrite app_nil_r. split; [by apply try_send_ok|]. intros _. split; [done|]. apply send_keeps_local.
  - exists []. rewrite app_nil_r. split; [by apply try_send_ok|]. intros _. split; [done|]. apply send_keeps_local.
  - exists []. rewrite app_nil_r. unfold begin_shutdown. destruct (pl_closing p) eqn:Ecl; [cbn [fst snd]; by rewrite app_nil_r|].
    destruct (open_no_shutdown _ _ _ Hp Ecl) as [Hall Hw].
    destruct (pl_running p) eqn:Er; cbn [negb]; [|cbn [fst snd]; rewrite app_nil_r; split; [apply set_closing_ok; [done|done|by left]|done]].
    destruct (has_room p) eqn:Eroom; cbn [fst snd set_channel pl_waiting]; rewrite ?Hw.
    + split; [|done]. apply enqueue_ok; try done; [intros _; split; [done|by exists t]|by left].
    + rewrite app_nil_r. split; [|done]. apply set_closing_ok; [done|done|]. right. split; [done|by exists t].
  - exists []. rewrite app_nil_r. unfold resume_shutdown. destruct (pl_waiting p) as [c|] eqn:Ew; [|cbn [fst snd]; by rewrite app_nil_r].
    destruct (has_room p) eqn:Eroom; [|cbn [fst snd]; by rewrite app_nil_r]. cbn [fst snd]. split; [|done].
    destruct (po_waiting _ _ _ Hp) as (Hc & Hrun & t & Ht); [by rewrite Ew|]. rewrite Ew in Ht. injection Ht as ->.
    apply enqueue_ok; try done; [intros _; split; [done|by exists t]|by eapply waiting_no_shutdown|by right].
  - exists []. rewrite !app_nil_r. cbn [fst snd]. split; [|done]. destruct Hp as [? ? ? (b & Hb & Hs) ? ?]. constructor; cbn; try done.
    exists b. split; [done|]. destruct Hs as [->|(? & ? & ?)]; [by left|by right].
  - cbn [fst snd]. rewrite app_nil_r. unfold work. destruct (pl_running p) eqn:Er; [|by exists []; rewrite app_nil_r].
    destruct (pl_queue p) as [|c queue] eqn:Eq; [by exists []; rewrite app_nil_r|]. exists [c]. split; [|done].
    destruct Hp as [Hpre Ha Hr (b & Hb & Hs) Hw Hst]. rewrite Eq in Hpre, Hr.
    assert (forall local shared running r, (running = false -> exists t, c = CmdShutdown t) -> pipeline_ok accepted (handled ++ [c])
      {| pl_closing := pl_closing p; pl_queue := queue; pl_waiting := pl_waiting p; pl_running := running; pl_local := local;
         pl_shared := shared; pl_acks := pl_acks p ++ [(ticket_of c, r)] |}) as Hgo.
    { intros local shared running r Hrun.
      assert (running = false -> pl_closing p = true /\ pl_waiting p = None /\ queue = [] /\ exists before t, accepted = before ++ [CmdShutdown t]) as Hstop.
      { intros Hf. destruct (Hrun Hf) as [t ->]. destruct Hs as [->|(Hcl & Hwn & t' & Hacc)].
        - rewrite Hpre in Hb. apply Forall_app in Hb as [_ Hb]. by inversion Hb.
        - split; [done|]. split; [done|]. split; [|by exists b, t'].
          destruct queue as [|x q _] using rev_ind; [done|]. rewrite Hacc in Hpre. rewrite app_comm_cons, (assoc_L (++)) in Hpre.
          apply app_inj_tail in Hpre as [-> _]. apply Forall_app in Hb as [_ Hb]. by inversion Hb. }
      constructor; cbn.
      - by rewrite Hpre, <- (assoc_L (++)).
      - by rewrite !map_app, Ha.
      - unfold len in *. cbn [length] in *. lia.
      - exists b. split; [done|]. destruct Hs as [->|Hs]; [by left|by right].
      - intros Hn. destruct (Hw Hn) as (Hc1 & _ & Hx). destruct running; [done|]. destruct (Hstop eq_refl) as (_ & Hwn & _). by rewrite Hwn in Hn.
      - intros Hf. destruct (Hstop Hf) as (? & _ & ? & ?). by split_and!. }
    destruct c as [t e|t|t].
    + destruct (write_event _ _ _) as [[local shared] r]. by apply Hgo.
    + destruct (flush_local _) as [local r]. by apply Hgo.
    + destruct (flush_local _) as [local r]. apply Hgo. intros _. by exists t.
Qed.
End Order.

(** ** What reaches the file *)
Section File.
Context `{Disk} {B : Type} `{StateBackend B}.
Notation pipeline := (Pipeline (L := FileAuditSink) (B := B)).

(** What a handled command leaves in the file: nothing, or a record's line, of
    which a part may be missing only when its caller was told of an error. *)
Definition wrote (c : AuditCommand) (r : result unit AuditError) (chunk : list Z) : Prop :=
  match c with
  | CmdRecord _ encoded => chunk `prefix_of` as_bytes encoded ++ [10] /\ (r = Ok () -> chunk = as_bytes encoded ++ [10])
  | _ => chunk = []
  end.

(** The answer to the command that lost the sink. *)
Definition reports_loss (r : result unit AuditError) : Prop :=
  r = Err WorkerUnavailable \/ exists e, r = Err (MultipleDestinations WorkerUnavailable e).

Definition file_follows (start : list Z) (handled : list AuditCommand) (acks : list (nat * result unit AuditError))
    (local : option FileAuditSink) : Prop :=
  match local with
  | Some sink => exists chunks, Forall3 wrote handled (map snd acks) chunks /\ af_bytes sink = start ++ concat chunks
  | None => exists t r, (t, r) ∈ acks /\ reports_loss r
  end.

Lemma append_wrote (sink : FileAuditSink) t encoded local r shared : append_local (Some sink) encoded = (local, r) ->
  match local with
  | Some sink' => exists chunk, wrote (CmdRecord t encoded) (combine_destination_results r shared) chunk /\
      af_bytes sink' = af_bytes sink ++ chunk
  | None => reports_loss (combine_destination_results r shared)
  end.
Proof.
  unfold append_local. cbn [append_task file_sink]. destruct (disk_lost _).
  { intros [= <- <-]. destruct shared; [by left|right; by eexists]. }
  destruct (disk_write _) as [[taken e]|]; intros [= <- <-]; eexists; (split; [split|reflexivity]).
  - apply prefix_take.
  - by destruct shared.
  - done.
  - done.
Qed.

Lemma flush_wrote (sink : FileAuditSink) local r : flush_local (Some sink) = (local, r) ->
  match local with Some sink' => af_bytes sink' = af_bytes sink | None => reports_loss r end.
Proof. unfold flush_local. cbn [flush_task file_sink]. destruct (disk_lost _); intros [= <- <-]; [by left|done]. Qed.

(** A round of the worker: nothing, or one command handled. *)
Lemma work_file (p : pipeline) start handled : file_follows start handled (pl_acks p) (pl_local p) ->
  work p = p \/ exists c r, pl_queue p = c :: pl_queue (work p) /\ pl_acks (work p) = pl_acks p ++ [(ticket_of c, r)] /\
    file_follows start (handled ++ [c]) (pl_acks (work p)) (pl_local (work p)).
Proof.
  intros Hf. unfold work. destruct (pl_running p); [|by left]. destruct (pl_queue p) as [|c queue]; [by left|]. right.
  assert (forall local r, match pl_local p, local with
      | Some sink, Some sink' => exists chunk, wrote c r chunk /\ af_bytes sink' = af_bytes sink ++ chunk
      | Some _, None => reports_loss r | None, Some _ => False | None, None => True end ->
    file_follows start (handled ++ [c]) (pl_acks p ++ [(ticket_of c, r)]) local) as Hgo.
  { intros local r Hc. destruct (pl_local p) as [sink|], local as [sink'|]; cbn [file_follows] in *; [..|done|].
    - destruct Hf as (chunks & Hw & Hb), Hc as (chunk & Hwc & ->). exists (chunks ++ [chunk]). split.
      + rewrite map_app. apply Forall3_app; [exact Hw|]. by repeat constructor.
      + rewrite Hb, concat_app. cbn [concat]. by rewrite app_nil_r, (assoc_L (++)).
    - exists (ticket_of c), r. split; [set_solver|done].
    - destruct Hf as (t & r' & Ht & Hl). exists t, r'. split; [set_solver|done]. }
  destruct c as [t e|t|t].
  - unfold write_event. destruct (append_local _ e) as [local r] eqn:Ea.
    destruct (match pl_shared p with Some _ => _ | None => _ end) as [shared rs]. exists (CmdRecord t e).
    eexists. split; [reflexivity|]. split; [reflexivity|]. apply Hgo. destruct (pl_local p) as [sink|].
    + pose proof (append_wrote sink t e local r rs Ea) as Hw. by destruct local.
    + by injection Ea as <- <-.
  - destruct (flush_local _) as [local r] eqn:Ef. exists (CmdFlush t). eexists. split; [reflexivity|]. split; [reflexivity|].
    apply Hgo. destruct (pl_local p) as [sink|]; [|by injection Ef as <- <-]. apply flush_wrote in Ef.
    destruct local; [|done]. exists []. by rewrite Ef, app_nil_r.
  - destruct (flush_local _) as [local r] eqn:Ef. exists (CmdShutdown t). eexists. split; [reflexivity|]. split; [reflexivity|].
    apply Hgo. destruct (pl_local p) as [sink|]; [|by injection Ef as <- <-]. apply flush_wrote in Ef.
    destruct local; [|done]. exists []. by rewrite Ef, app_nil_r.
Qed.

Lemma run_ok start (p : pipeline) accepted handled ops :
  pipeline_ok accepted handled p -> file_follows start handled (pl_acks p) (pl_local p) ->
  let '(p', more) := pipeline_run p ops in
  exists handled', pipeline_ok (accepted ++ more) handled' p' /\ file_follows start handled' (pl_acks p') (pl_local p').
Proof.
  revert p accepted handled. induction ops as [|op ops IH]; intros p accepted handled Hp Hf; cbn [pipeline_run].
  { exists handled. by rewrite app_nil_r. }
  destruct (step_ok _ _ p op Hp) as (h & Hp' & Hkeep).
  assert (file_follows start (handled ++ h) (pl_acks (pipeline_step p op).1) (pl_local (pipeline_step p op).1)) as Hf'.
  { assert (op = OpWork \/ op <> OpWork) as [->|Hn] by (destruct op; auto; by right);
      [|destruct (Hkeep Hn) as (-> & -> & ->); by rewrite app_nil_r].
    cbn [pipeline_step fst snd] in *. rewrite app_nil_r in Hp'.
    pose proof (po_acks _ _ _ Hp') as Ha. pose proof (po_prefix _ _ _ Hp') as Hpre.
    rewrite (po_prefix _ _ _ Hp), <- (assoc_L (++)) in Hpre. apply app_inv_head in Hpre.
    rewrite map_app, <- (po_acks _ _ _ Hp) in Ha.
    destruct (work_file p start handled Hf) as [Hw|(c & r & Hq & Hacks & Hw)].
    - rewrite Hw in *. rewrite <- (app_nil_r (map fst (pl_acks p))) in Ha at 1. apply app_inv_head in Ha.
      symmetry in Ha. apply map_eq_nil in Ha as ->. by rewrite app_nil_r.
    - rewrite Hacks, map_app in Ha. apply app_inv_head in Ha. rewrite Hq in Hpre.
      destruct h as [|c' [|]]; cbn in Ha; [discriminate| |discriminate]. cbn [app] in Hpre. injection Hpre as <-. exact Hw. }
  destruct (pipeline_step p op) as [p1 acc]. cbn [fst snd] in *. specialize (IH p1 _ _ Hp' Hf').
  destruct (pipeline_run p1 ops) as [p2 more]. by rewrite (assoc_L (++)).
Qed.
End File.

Lemma audit_label_bounded value max_bytes : 7 <= max_bytes ->
  str_len (audit_label value (lit "unknown") max_bytes) <= max_bytes /\ Forall (fun b => is_ascii_control b = false) (as_bytes (audit_label value (lit "unknown") max_bytes)).
Proof.
  intros Hm. unfold audit_label. destruct (_ || _) eqn:E.
  - split; [assert (str_len (lit "unknown") = 7) as -> by reflexivity; lia|]. repeat constructor.
  - rewrite !orb_false_iff in E. destruct E as [[_ Hl%Z.ltb_ge] Hc]. split; [done|]. apply Forall_forall. intros b Hb.
    destruct (is_ascii_control b) eqn:Eb; [|done]. rewrite <- Hc. symmetry. apply existsb_exists. exists b. by split; [apply list_elem_of_In|].
Qed.

(** ** Properties *)

(** C15: The audit file follows the accepted commands, whatever tasks interleave
    and whatever the disk answers.  The handled commands are a prefix of the
    accepted ones, answered in that order; the others wait in a bounded queue;
    once the worker has stopped everything accepted has been handled and the
    shutdown was the last command accepted.  While the sink is held the file is
    what it was, then one chunk per handled record in that order: the whole line
    of a record that was acknowledged, and at least a prefix of the line of one
    whose caller was told of an error (a write, flush or sync may fail).  When
    the sink has been lost, some caller was told so. *)
Theorem accepted_events_written `{Disk} {B} `{StateBackend B} (sink : FileAuditSink) (shared : option (SharedAuditSink (B := B))) ops :
  let '(p, accepted) := pipeline_run (spawn (Some sink) shared) ops in
  exists handled, accepted = handled ++ pl_queue p /\ map fst (pl_acks p) = map ticket_of handled /\
    len (pl_queue p) <= AUDIT_QUEUE_CAPACITY /\
    (pl_running p = false -> pl_queue p = [] /\ handled = accepted /\ exists before t, accepted = before ++ [CmdShutdown t]) /\
    match pl_local p with
    | Some sink' => exists chunks, Forall3 wrote handled (map snd (pl_acks p)) chunks /\
        af_bytes sink' = af_bytes sink ++ concat chunks
    | None => exists t r, (t, r) ∈ pl_acks p /\ reports_loss r
    end.
Proof.
  assert (file_follows (af_bytes sink) [] [] (Some sink)) as Hf by (exists []; split; [constructor|by rewrite app_nil_r]).
  pose proof (run_ok _ _ _ _ ops (spawn_ok (Some sink) shared) Hf) as Hr. destruct (pipeline_run _ ops) as [p accepted].
  destruct Hr as (handled & [Hp Ha Hr _ _ Hs] & Hl). cbn [app] in *. exists handled. split_and!; [done|done|done| |exact Hl].
  intros Hrun. destruct (Hs Hrun) as (_ & Hq & Hx). rewrite Hq, app_nil_r in Hp. by split_and!.
Qed.

(** An audit event is bounded and seals itself: its actor, action and
    identities are short and free of control characters, its metadata fits, and
    its digest is the digest of every other field. *)
Theorem audit_event_sealed {number : Type} `{JsonText number, JsonBuild number} sha256 uuid clock actor action before after
  policy_version snapshot_id (e : AuditEvent number) :
  AuditEvent_new sha256 uuid clock actor action before after policy_version snapshot_id = Ok e ->
  str_len (ae_actor e) <= MAX_ACTOR_BYTES /\ str_len (ae_action e) <= MAX_ACTION_BYTES /\
  Forall (fun b => is_ascii_control b = false) (as_bytes (ae_actor e) ++ as_bytes (ae_action e)) /\
  (forall v bytes, (ae_before e = Some v \/ ae_after e = Some v) -> to_vec v = Ok bytes -> len bytes <= MAX_METADATA_BYTES) /\
  event_content_sha256 sha256 e = Ok (ae_content_sha256 e).
Proof.
  unfold AuditEvent_new. cbv zeta. destruct (too_large before || too_large after) eqn:El; [done|]. apply orb_false_iff in El as [Hb Ha].
  intros (digest & Hd & [= <-])%result_bind_ok. destruct (audit_label_bounded actor MAX_ACTOR_BYTES) as [Hal Hac]; [unfold MAX_ACTOR_BYTES; lia|].
  destruct (audit_label_bounded action MAX_ACTION_BYTES) as [Hbl Hbc]; [unfold MAX_ACTION_BYTES; lia|].
  cbn [set_digest ae_actor ae_action ae_before ae_after ae_content_sha256]. split_and!; [done|done|by apply Forall_app_2| |exact Hd].
  intros v bytes [->| ->] Hv; cbn [too_large] in *; unfold metadata_too_large in *; rewrite Hv in *; by apply Z.ltb_ge.
Qed.

(** ** Examples *)

(** A sink whose task is lost at its first write. *)
Definition fragile_sink : LocalAuditSink unit := {| append_task _ _ := None; flush_task s := Some (s, Ok ()) |}.

(** After the sink is lost, every event is acknowledged and written nowhere. *)
Example lost_sink_acknowledges :
  let p := @pipeline_run unit MemoryStateBackend fragile_sink _ (spawn (Some tt) None)
             [OpRecordEvent 1 (lit "a"); OpWork; OpRecordEvent 2 (lit "b"); OpWork] in
  pl_local p.1 = None /\ pl_acks p.1 = [(1%nat, Err WorkerUnavailable); (2%nat, Ok ())].
Proof. vm_compute. done. Qed.

(** A disk that is full at its second write, and takes the others. *)
Definition full_disk : Disk := {|
  disk_write n := if bool_decide (n = 1%nat) then Some (1%nat, lit "full") else None;
  disk_flush _ := Ok (); disk_sync _ := Ok (); disk_lost _ := false |}.

Definition sample_ops : list pipeline_op :=
  [OpRecordEvent 1 (lit "a"); OpRecordEvent 2 (lit "bc"); OpWork; OpShutdown 3; OpRecordEvent 4 (lit "d"); OpWork; OpWork].

Definition sample_pipeline :=
  @pipeline_run FileAuditSink MemoryStateBackend (@file_sink full_disk) _ (spawn (Some {| af_bytes := []; af_calls := 0 |}) None) sample_ops.

(** The first line is whole, the second is cut and its caller is told. *)
Example shutdown_drains :
  (af_bytes <$> pl_local sample_pipeline.1) = Some [97; 10; 98] /\ pl_running sample_pipeline.1 = false /\
  pl_acks sample_pipeline.1 = [(1%nat, Ok ()); (2%nat, Err (AuditIo (lit "full"))); (3%nat, Ok ())] /\ len sample_pipeline.2 = 3.
Proof. vm_compute. done. Qed.

Lemma accepted_events_written_witness :
  pl_queue sample_pipeline.1 = [] /\
  exists chunks, Forall3 wrote sample_pipeline.2 (map snd (pl_acks sample_pipeline.1)) chunks /\
    [97; 10; 98] = [] ++ concat chunks.
Proof.
  pose proof (@accepted_events_written full_disk MemoryStateBackend _ {| af_bytes := []; af_calls := 0 |} None sample_ops) as Hw.
  fold sample_pipeline in Hw. destruct sample_pipeline as [p accepted] eqn:E. vm_compute in E. injection E as <- <-.
  cbn [fst snd pl_queue pl_local pl_running pl_acks] in *. split; [reflexivity|].
  destruct Hw as (handled & _ & _ & _ & Hs & chunks & Hc & Hb). destruct (Hs eq_refl) as (_ & -> & _).
  exists chunks. split; [exact Hc|exact Hb].
Defined.

Definition plain_sha (bytes : list Z) : list Z := [len bytes mod 256].

Definition sample_audit_event : result (AuditEvent plain_number) AuditError :=
  AuditEvent_new plain_sha (lit "u") 7 (lit " op ") (lit "policy.activate") None (Some (JString (lit "on"))) None None.

Theorem audit_event_sealed_witness :
  match sample_audit_event with
  | Ok e => ae_actor e = lit "op" /\ event_content_sha256 plain_sha e = Ok (ae_content_sha256 e)
  | Err _ => False
  end.
Proof.
  destruct sample_audit_event as [e|x] eqn:E; [|vm_compute in E; discriminate].
  split; [vm_compute in E; injection E as <-; reflexivity|]. unfold sample_audit_event in E. apply audit_event_sealed in E. apply E.
Defined.
