(* ===== verification/AnthropicNative.v ===== *)
(** * The native Anthropic protocol (crate [wayfinder-providers], [src/anthropic_native.rs])

    An OpenAI chat request as a Messages request, a Messages answer or error as
    an OpenAI one, and the streaming adapter from Messages events to chat chunks.
    The HTTP client of the file is input and output and is not modelled. *)
From S2P Require Export Sse Anthropic.
From S2P Require Import JsonSample.

Definition ANTHROPIC_VERSION : str := lit "2023-06-01".
Definition DEFAULT_MAX_TOKENS : Z := 4096.
Definition MAX_TOOL_CALLS : Z := 64.

Inductive AnthropicNativeError :=
| InvalidRequest
| InvalidResponse
| Stream (e : SseDecodeError).

(** ** Requests *)
Section Request.
Context {number : Type} `{JsonNumber number, JsonText number, JsonBuild number}.
Implicit Types (v : Value number) (members : list (str * Value number)).

Notation invalid_request := (Err InvalidRequest).

(** [o.ok_or(InvalidRequest)?] *)
Definition required {A} (o : option A) : result A AnthropicNativeError := ok_or o InvalidRequest.

Definition non_empty (o : option str) : option str := s ← o; if bool_decide (s = []) then None else Some s.

Definition is_kind members (kind : string) : bool := bool_decide (get_str members "type" = Some (lit kind)).

Definition text_part (part : Value number) : result str AnthropicNativeError :=
  let? part := required (as_object part) in
  if is_kind part "text" then required (get_str part "text") else invalid_request.

Definition text_content (content : option (Value number)) : result str AnthropicNativeError :=
  match content with
  | None | Some JNull => Ok []
  | Some (JString text) => Ok text
  | Some (JArray parts) => let? texts := traverse text_part parts in Ok (str_join [10] texts)
  | Some _ => invalid_request
  end.

Definition text_block (text : str) : Value number := jo [("type", js "text"); ("text", JString text)].

(** A message in the output, its content extended in place. *)
Fixpoint replace_member members (name : str) v : list (str * Value number) :=
  match members with
  | [] => []
  | (k, v') :: members => if str_eqb k name then (k, v) :: members else (k, v') :: replace_member members name v
  end.

Definition extended (role : string) (blocks : list (Value number)) (message : Value number) : option (Value number) :=
  members ← as_object message;
  if bool_decide (get_str members "role" = Some (lit role)) then
    content ← get members "content" ≫= as_array;
    Some (JObject (replace_member members (lit "content") (JArray (content ++ blocks))))
  else None.

Fixpoint push_last (role : string) (blocks messages : list (Value number)) : option (list (Value number)) :=
  match messages with
  | [] => None
  | [last] => (fun m => [m]) <$> extended role blocks last
  | m :: messages => cons m <$> push_last role blocks messages
  end.

Definition push_message (messages : list (Value number)) (role : string) (blocks : list (Value number)) : list (Value number) :=
  match blocks with
  | [] => messages
  | _ => default (messages ++ [jo [("role", js role); ("content", JArray blocks)]]) (push_last role blocks messages)
  end.

Definition translate_openai_tool (tool : Value number) : result (Value number) AnthropicNativeError :=
  let? tool := required (as_object tool) in
  if negb (is_kind tool "function") then invalid_request
  else
    let? function := required (get_object tool "function") in
    let? name := required (non_empty (get_str function "name")) in
    let input_schema := default (jo [("type", js "object"); ("properties", JObject [])]) (get function "parameters") in
    match as_object input_schema with
    | None => invalid_request
    | Some _ =>
        Ok (JObject ([member "name" (JString name); member "input_schema" input_schema] ++
                     optional_member "description" (JString <$> get_str function "description")))
    end.

Definition choice_members (kind : string) : list (str * Value number) := [member "type" (js kind)].

Definition native_tool_choice v : result (list (str * Value number)) AnthropicNativeError :=
  match v with
  | JString choice =>
      if str_eqb choice (lit "auto") then Ok (choice_members "auto")
      else if str_eqb choice (lit "required") then Ok (choice_members "any")
      else if str_eqb choice (lit "none") then Ok (choice_members "none")
      else invalid_request
  | JObject choice =>
      if is_kind choice "function" then
        let? name := required (non_empty (f ← get_object choice "function"; get_str f "name")) in
        Ok (choice_members "tool" ++ [member "name" (JString name)])
      else invalid_request
  | _ => invalid_request
  end.

Definition translate_call (call : Value number) : result (Value number) AnthropicNativeError :=
  let? call := required (as_object call) in
  if negb (is_kind call "function") then invalid_request
  else
    let? id := required (non_empty (get_str call "id")) in
    let? function := required (get_object call "function") in
    let? name := required (non_empty (get_str function "name")) in
    let? arguments := required (get_str function "arguments") in
    let? input := required (json_from_str arguments) in
    match as_object input with
    | None => invalid_request
    | Some _ => Ok (jo [("type", js "tool_use"); ("id", JString id); ("name", JString name); ("input", input)])
    end.

Definition translate_assistant_message message : result (list (Value number)) AnthropicNativeError :=
  let? text := text_content (get message "content") in
  let text_blocks := if bool_decide (text = []) then [] else [text_block text] in
  match get message "tool_calls" with
  | None => Ok text_blocks
  | Some calls =>
      let? calls := required (as_array calls) in
      if MAX_TOOL_CALLS <? len calls then invalid_request
      else let? blocks := traverse translate_call calls in Ok (text_blocks ++ blocks)
  end.

(** One message, after the system texts and the messages before it. *)
Definition native_message (acc : list (Value number) * list (Value number)) (message : Value number)
    : result (list (Value number) * list (Value number)) AnthropicNativeError :=
  let '(system, messages) := acc in
  let? message := required (as_object message) in
  match get_str message "role" with
  | None => invalid_request
  | Some role =>
      if str_eqb role (lit "system") || str_eqb role (lit "developer") then
        let? text := text_content (get message "content") in
        Ok (if bool_decide (text = []) then acc else (system ++ [text_block text], messages))
      else if str_eqb role (lit "user") then
        let? text := text_content (get message "content") in
        Ok (if bool_decide (text = []) then acc else (system, push_message messages "user" [text_block text]))
      else if str_eqb role (lit "assistant") then
        let? blocks := translate_assistant_message message in
        Ok (system, push_message messages "assistant" blocks)
      else if str_eqb role (lit "tool") then
        let? id := required (non_empty (get_str message "tool_call_id")) in
        let? content := text_content (get message "content") in
        Ok (system, push_message messages "user"
                      [jo [("type", js "tool_result"); ("tool_use_id", JString id); ("content", JString content)]])
      else invalid_request
  end.

Definition unsupported_fields : list string :=
  ["audio"; "frequency_penalty"; "logprobs"; "modalities"; "prediction"; "presence_penalty"; "response_format"; "seed";
   "service_tier"; "top_logprobs"]%string.

Definition max_tokens_of members : result Z AnthropicNativeError :=
  match (match get members "max_completion_tokens" with Some v => Some v | None => get members "max_tokens" end) with
  | None => Ok DEFAULT_MAX_TOKENS
  | Some v => required (n ← as_u64 v; if 0 <? n then Some n else None)
  end.

Definition stop_sequences (stop : Value number) : result (list (Value number)) AnthropicNativeError :=
  match stop with
  | JString value => if bool_decide (value = []) then invalid_request else Ok [stop]
  | JArray [] => invalid_request
  | JArray values =>
      if forallb (fun v => match non_empty (as_str v) with Some _ => true | None => false end) values then Ok values else invalid_request
  | _ => invalid_request
  end.

(** [body.get(name)] translated, if it is there. *)
Definition on_member {A} members (name : string) (f : Value number -> result A AnthropicNativeError) : result (option A) AnthropicNativeError :=
  match get members name with None => Ok None | Some v => let? a := f v in Ok (Some a) end.

Definition translate_tool_list (tools : Value number) : result (Value number) AnthropicNativeError :=
  let? tools := required (as_array tools) in
  if MAX_TOOL_CALLS <? len tools then invalid_request
  else let? translated := traverse translate_openai_tool tools in Ok (JArray translated).

Definition openai_to_anthropic_request (body : Value number) (provider_model : str) (streaming : bool) : result (Value number) AnthropicNativeError :=
  let? body := required (as_object body) in
  if existsb (fun field => match get body field with Some _ => true | None => false end) unsupported_fields
     || match get body "n" ≫= as_u64 with Some count => negb (count =? 1) | None => false end
  then invalid_request
  else
    let? max_tokens := max_tokens_of body in
    let? raw_messages := required (get body "messages" ≫= as_array) in
    let? '(system, messages) := try_fold native_message ([], []) raw_messages in
    match messages with
    | [] => invalid_request
    | _ =>
        let? sequences := on_member body "stop" stop_sequences in
        let? tools := on_member body "tools" translate_tool_list in
        let serial := bool_decide (get body "parallel_tool_calls" ≫= as_bool = Some false) in
        let disable := if serial then [member "disable_parallel_tool_use" (JBool true)] else [] in
        let? choice := on_member body "tool_choice" native_tool_choice in
        let choice :=
          match choice with
          | Some members => Some (JObject (members ++ disable))
          | None => if serial then Some (JObject (choice_members "auto" ++ disable)) else None
          end in
        Ok (JObject
          ([member "model" (JString provider_model); member "max_tokens" (JNumber (number_of_u64 max_tokens));
            member "messages" (JArray messages); member "stream" (JBool streaming)] ++
           (match system with [] => [] | _ => [member "system" (JArray system)] end) ++
           optional_member "temperature" (get body "temperature") ++ optional_member "top_p" (get body "top_p") ++
           optional_member "top_k" (get body "top_k") ++
           optional_member "stop_sequences" (JArray <$> sequences) ++ optional_member "tools" tools ++ optional_member "tool_choice" choice))
    end.

(** ** Responses *)
Notation invalid_response := (Err InvalidResponse).
Definition expected {A} (o : option A) : result A AnthropicNativeError := ok_or o InvalidResponse.

Definition openai_finish_reason (reason : option str) : string :=
  match reason with
  | Some r => if str_eqb r (lit "max_tokens") then "length" else if str_eqb r (lit "tool_use") then "tool_calls" else "stop"
  | None => "stop"
  end.

(** One content block, after the texts and the calls before it. *)
Definition response_block (acc : list str * list (Value number)) (block : Value number) : result (list str * list (Value number)) AnthropicNativeError :=
  let '(text, calls) := acc in
  let? block := expected (as_object block) in
  if is_kind block "text" then
    let? t := expected (get_str block "text") in Ok (text ++ [t], calls)
  else if is_kind block "tool_use" then
    let? id := expected (get_str block "id") in
    let? name := expected (get_str block "name") in
    let? input := expected (get block "input") in
    let? arguments := expected (json_to_string input) in
    Ok (text, calls ++ [jo [("id", JString id); ("type", js "function");
                            ("function", jo [("name", JString name); ("arguments", JString arguments)])]])
  else invalid_response.

Definition tokens_of (o : option (list (str * Value number))) (name : string) : Z := default 0 (u ← o; get u name ≫= as_u64).

Definition usage_value (prompt completion : Z) : Value number :=
  jo [("prompt_tokens", JNumber (number_of_u64 prompt)); ("completion_tokens", JNumber (number_of_u64 completion));
      ("total_tokens", JNumber (number_of_u64 (u64_sat_add prompt completion)))].

Definition anthropic_to_openai_response (body : Value number) : result (Value number) AnthropicNativeError :=
  let? body := expected (as_object body) in
  if negb (is_kind body "message") then invalid_response
  else
    let? content := expected (get body "content" ≫= as_array) in
    let? '(text, calls) := try_fold response_block ([], []) content in
    let usage := get_object body "usage" in
    let message :=
      [member "role" (js "assistant"); member "content" (match text with [] => JNull | _ => JString (mjoin text) end)] ++
      match calls with [] => [] | _ => [member "tool_calls" (JArray calls)] end in
    Ok (jo [("id", default (js "msg_anthropic") (get body "id")); ("object", js "chat.completion");
            ("created", JNumber (number_of_u64 0)); ("model", default (JString []) (get body "model"));
            ("choices", JArray [jo [("index", JNumber (number_of_u64 0)); ("message", JObject message);
                                    ("finish_reason", js (openai_finish_reason (get_str body "stop_reason")))]]);
            ("usage", usage_value (tokens_of usage "input_tokens") (tokens_of usage "output_tokens"))]).

Definition value_str v (name : string) : option str := members ← as_object v; get_str members name.

Definition anthropic_to_openai_error (body : Value number) : Value number :=
  let detail := default body (members ← as_object body; get members "error") in
  jo [("error", jo [("message", default (js "Anthropic upstream error") (JString <$> value_str detail "message"));
                    ("type", default (js "api_error") (JString <$> value_str detail "type"))])].
End Request.

(** ** Streaming *)
Inductive ActiveBlock :=
| TextBlock
| ToolBlock (tool_index : Z) (saw_arguments : bool).

Record AnthropicToOpenAiStream := {
  ns_decoder : SseDecoder;
  ns_id : str;
  ns_model : str;
  ns_input_tokens : Z;
  ns_active : gmap Z ActiveBlock;
  ns_tool_count : Z;
  ns_finish_sent : bool;
  ns_terminal : bool;
}.

Notation stream := AnthropicToOpenAiStream.

Definition default_stream : stream :=
  {| ns_decoder := default_decoder; ns_id := lit "msg_anthropic"; ns_model := []; ns_input_tokens := 0; ns_active := ∅;
     ns_tool_count := 0; ns_finish_sent := false; ns_terminal := false |}.

Definition with_decoder (s : stream) (d : SseDecoder) : stream :=
  {| ns_decoder := d; ns_id := ns_id s; ns_model := ns_model s; ns_input_tokens := ns_input_tokens s; ns_active := ns_active s;
     ns_tool_count := ns_tool_count s; ns_finish_sent := ns_finish_sent s; ns_terminal := ns_terminal s |}.

Definition opened_as (s : stream) (id model : str) (input : Z) : stream :=
  {| ns_decoder := ns_decoder s; ns_id := id; ns_model := model; ns_input_tokens := input; ns_active := ns_active s;
     ns_tool_count := ns_tool_count s; ns_finish_sent := ns_finish_sent s; ns_terminal := ns_terminal s |}.

Definition with_active (s : stream) (active : gmap Z ActiveBlock) (count : Z) : stream :=
  {| ns_decoder := ns_decoder s; ns_id := ns_id s; ns_model := ns_model s; ns_input_tokens := ns_input_tokens s; ns_active := active;
     ns_tool_count := count; ns_finish_sent := ns_finish_sent s; ns_terminal := ns_terminal s |}.

Definition ending (s : stream) (finish_sent terminal : bool) : stream :=
  {| ns_decoder := ns_decoder s; ns_id := ns_id s; ns_model := ns_model s; ns_input_tokens := ns_input_tokens s; ns_active := ns_active s;
     ns_tool_count := ns_tool_count s; ns_finish_sent := finish_sent; ns_terminal := terminal |}.

(** The chunks the adapter writes; [chunk_value] is their JSON. *)
Inductive Delta (number : Type) :=
| RoleDelta
| ContentDelta (text : str)
| ToolOpened (index : Z) (id name : Value number)
| ToolArguments (index : Z) (arguments : str).
Arguments RoleDelta {number}.
Arguments ContentDelta {number}.
Arguments ToolOpened {number}.
Arguments ToolArguments {number}.

Inductive OpenAiFrame (number : Type) :=
| DeltaFrame (id model : str) (delta : Delta number)
| FinishFrame (id model : str) (reason : string) (usage : option (Z * Z))
| FailureFrame (error : Value number)
| DoneFrame.
Arguments DeltaFrame {number}.
Arguments FinishFrame {number}.
Arguments FailureFrame {number}.
Arguments DoneFrame {number}.

Section Streaming.
Context {number : Type} `{JsonNumber number, JsonText number, JsonBuild number}.
Implicit Types (s : stream) (v : Value number).

Notation outcome := (stream * result (list (OpenAiFrame number)) AnthropicNativeError)%type.

Definition delta_value (delta : Delta number) : Value number :=
  match delta with
  | RoleDelta => jo [("role", js "assistant")]
  | ContentDelta text => jo [("content", JString text)]
  | ToolOpened index id name =>
      jo [("tool_calls", JArray [jo [("index", JNumber (number_of_u64 index)); ("id", id); ("type", js "function");
                                     ("function", jo [("name", name); ("arguments", JString [])])]])]
  | ToolArguments index arguments =>
      jo [("tool_calls", JArray [jo [("index", JNumber (number_of_u64 index)); ("function", jo [("arguments", JString arguments)])]])]
  end.

Definition chunk_value (id model : str) (delta finish_reason : Value number) (usage : list (string * Value number)) : Value number :=
  jo ([("id"%string, JString id); ("object"%string, js "chat.completion.chunk"); ("created"%string, JNumber (number_of_u64 0));
       ("model"%string, JString model);
       ("choices"%string, JArray [jo [("index", JNumber (number_of_u64 0)); ("delta", delta); ("finish_reason", finish_reason)]])] ++ usage).

(** The payload of a frame, [None] for [DONE]. *)
Definition native_frame_value (frame : OpenAiFrame number) : option (Value number) :=
  match frame with
  | DeltaFrame id model delta => Some (chunk_value id model (delta_value delta) JNull [])
  | FinishFrame id model reason usage =>
      Some (chunk_value id model (JObject []) (js reason)
              (match usage with Some (input, output) => [("usage"%string, usage_value input output)] | None => [] end))
  | FailureFrame error => Some error
  | DoneFrame => None
  end.

(** [openai_sse_frame]: the text of a frame, if its payload has one. *)
Definition openai_sse_frame (frame : OpenAiFrame number) : result (list Z) AnthropicNativeError :=
  match native_frame_value frame with
  | None => Ok (as_bytes (lit "data: [DONE]" ++ [10; 10]))
  | Some v => let? data := expected (json_to_string v) in Ok (as_bytes (lit "data: " ++ data ++ [10; 10]))
  end.

(** [output.push(frame?)] for each frame, after the state has changed. *)
Definition emit (s : stream) (frames : list (OpenAiFrame number)) : outcome :=
  (s, let? _ := traverse openai_sse_frame frames in Ok frames).

Definition refuse_event s : outcome := (s, Err InvalidResponse).

Definition delta_frame s (delta : Delta number) : OpenAiFrame number := DeltaFrame (ns_id s) (ns_model s) delta.

(** [payload.get(name).and_then(..)] *)
Definition payload_object v (name : string) : option (list (str * Value number)) := members ← as_object v; get_object members name.
Definition payload_index v : option Z := members ← as_object v; get members "index" ≫= as_u64.

Definition message_start s v : outcome :=
  match payload_object v "message" with
  | None => refuse_event s
  | Some message =>
      let s := opened_as s (default (lit "msg_anthropic") (get_str message "id")) (default [] (get_str message "model"))
                 (tokens_of (get_object message "usage") "input_tokens") in
      emit s [delta_frame s RoleDelta]
  end.

Definition content_block_start s v : outcome :=
  match payload_index v, payload_object v "content_block" with
  | Some index, Some block =>
      if is_kind block "text" then (with_active s (<[index := TextBlock]> (ns_active s)) (ns_tool_count s), Ok [])
      else if is_kind block "tool_use" then
        if MAX_TOOL_CALLS <=? ns_tool_count s then refuse_event s
        else
          let tool_index := ns_tool_count s in
          let s := with_active s (<[index := ToolBlock tool_index false]> (ns_active s)) (tool_index + 1) in
          emit s [delta_frame s (ToolOpened tool_index (default JNull (get block "id")) (default JNull (get block "name")))]
      else refuse_event s
  | _, _ => refuse_event s
  end.

Definition content_block_delta s v : outcome :=
  match payload_index v, payload_object v "delta" with
  | Some index, Some delta =>
      match ns_active s !! index with
      | Some TextBlock =>
          if is_kind delta "text_delta" then
            match get_str delta "text" with
            | Some text => emit s [delta_frame s (ContentDelta text)]
            | None => refuse_event s
            end
          else refuse_event s
      | Some (ToolBlock tool_index _) =>
          if is_kind delta "input_json_delta" then
            match get_str delta "partial_json" with
            | Some partial =>
                let s := with_active s (<[index := ToolBlock tool_index true]> (ns_active s)) (ns_tool_count s) in
                emit s [delta_frame s (ToolArguments tool_index partial)]
            | None => refuse_event s
            end
          else refuse_event s
      | None => refuse_event s
      end
  | _, _ => refuse_event s
  end.

Definition content_block_stop s v : outcome :=
  match payload_index v with
  | None => refuse_event s
  | Some index =>
      let s' := with_active s (delete index (ns_active s)) (ns_tool_count s) in
      match ns_active s !! index with
      | Some (ToolBlock tool_index false) => emit s' [delta_frame s' (ToolArguments tool_index (lit "{}"))]
      | Some _ => (s', Ok [])
      | None => refuse_event s'
      end
  end.

Definition message_delta s v : outcome :=
  let reason := (delta ← payload_object v "delta"; get_str delta "stop_reason") in
  let output := tokens_of (payload_object v "usage") "output_tokens" in
  match emit s [FinishFrame (ns_id s) (ns_model s) (openai_finish_reason reason) (Some (ns_input_tokens s, output))] with
  | (s, Ok frames) => (ending s true (ns_terminal s), Ok frames)
  | (s, Err e) => (s, Err e)
  end.

(** A terminal event: the frames before [DONE], which must have a text. *)
Definition conclude s (frames : list (OpenAiFrame number)) : outcome :=
  match emit s frames with
  | (s, Ok frames) => (ending s (ns_finish_sent s) true, Ok (frames ++ [DoneFrame]))
  | (s, Err e) => (s, Err e)
  end.

Definition message_stop s : outcome :=
  if bool_decide (ns_active s = ∅) then
    conclude s (if ns_finish_sent s then [] else [FinishFrame (ns_id s) (ns_model s) "stop" None])
  else refuse_event s.

Definition stream_failure s v : outcome := conclude s [FailureFrame (anthropic_to_openai_error v)].

(** The type of an event: that of the payload when the event has no name. *)
Definition event_kind (event : SseEvent) v : str :=
  if str_eqb (ev_event event) (lit "message") then default [] (value_str v "type") else ev_event event.

Definition translate_event s (event : SseEvent) : outcome :=
  if ns_terminal s || str_eqb (ev_event event) (lit "ping") then (s, Ok [])
  else
    match json_from_str (ev_data event) with
    | None => refuse_event s
    | Some v =>
        let kind := event_kind event v in
        if str_eqb kind (lit "message_start") then message_start s v
        else if str_eqb kind (lit "content_block_start") then content_block_start s v
        else if str_eqb kind (lit "content_block_delta") then content_block_delta s v
        else if str_eqb kind (lit "content_block_stop") then content_block_stop s v
        else if str_eqb kind (lit "message_delta") then message_delta s v
        else if str_eqb kind (lit "message_stop") then message_stop s
        else if str_eqb kind (lit "error") then stream_failure s v
        else refuse_event s
    end.

Fixpoint translate_events s (events : list SseEvent) : outcome :=
  match events with
  | [] => (s, Ok [])
  | event :: events =>
      let '(s, r) := translate_event s event in
      match r with
      | Err e => (s, Err e)
      | Ok frames => let '(s, r) := translate_events s events in (s, result_map (app frames) r)
      end
  end.

Definition decode_with (decode : SseDecoder -> SseDecoder * result (list SseEvent) SseDecodeError) s : outcome :=
  let '(d, r) := decode (ns_decoder s) in
  let s := with_decoder s d in
  match r with Err e => (s, Err (Stream e)) | Ok events => translate_events s events end.

Definition native_push s (chunk : list Z) : outcome := decode_with (fun d => Sse.push d chunk) s.

Definition native_finish s : outcome :=
  let '(s, r) := decode_with Sse.finish s in
  match r with
  | Err e => (s, Err e)
  | Ok frames => if ns_terminal s then (s, Ok frames) else refuse_event s
  end.
End Streaming.

(** ** The chunks an OpenAI client reads

    Tools are announced with consecutive indices, arguments go to an announced
    tool, the end marker comes after a finish reason or an error and is last. *)
Inductive reading :=
| Reading (tools : Z) (finished : bool)
| ReadEnd.

Definition read_step {number} (r : reading) (frame : OpenAiFrame number) : option reading :=
  match r, frame with
  | Reading tools finished, DeltaFrame _ _ RoleDelta | Reading tools finished, DeltaFrame _ _ (ContentDelta _) => Some r
  | Reading tools finished, DeltaFrame _ _ (ToolOpened index _ _) => if index =? tools then Some (Reading (tools + 1) finished) else None
  | Reading tools finished, DeltaFrame _ _ (ToolArguments index _) => if (0 <=? index) && (index <? tools) then Some r else None
  | Reading tools _, FinishFrame _ _ _ _ | Reading tools _, FailureFrame _ => Some (Reading tools true)
  | Reading _ finished, DoneFrame => if finished then Some ReadEnd else None
  | _, _ => None
  end.

Fixpoint read_frames {number} (r : reading) (frames : list (OpenAiFrame number)) : option reading :=
  match frames with
  | [] => Some r
  | frame :: frames => r ← read_step r frame; read_frames r frames
  end.

Lemma read_frames_app {number} r (a b : list (OpenAiFrame number)) r' : read_frames r a = Some r' -> read_frames r (a ++ b) = read_frames r' b.
Proof.
  revert r. induction a as [|f a IH]; intros r; cbn [read_frames app]; [by intros [= ->]|]. intros (q & Hq & Ha)%bind_Some.
  rewrite Hq. cbn [mbind option_bind]. by apply IH.
Qed.

(** What a client has read of a stream. *)
Definition position (s : stream) : reading := if ns_terminal s then ReadEnd else Reading (ns_tool_count s) (ns_finish_sent s).

(** Active tools have been announced. *)
Definition announced (s : stream) : Prop := 0 <= ns_tool_count s /\
  map_Forall (fun _ block => match block with TextBlock => True | ToolBlock index _ => 0 <= index < ns_tool_count s end) (ns_active s).

Section Reading.
Context {number : Type} `{JsonNumber number, JsonText number, JsonBuild number}.
Implicit Types (s : stream) (v : Value number).

(** A step of a live stream moves the reader to its new position. *)
Definition advances s (r : stream * result (list (OpenAiFrame number)) AnthropicNativeError) : Prop :=
  announced (fst r) /\ forall frames, snd r = Ok frames -> read_frames (position s) frames = Some (position (fst r)).

Lemma advances_refuse_event s s' : announced s' -> advances s (refuse_event s').
Proof. intros Ha. by split. Qed.

Lemma advances_emit s s' frames : announced s' -> read_frames (position s) frames = Some (position s') -> advances s (emit s' frames).
Proof.
  intros Ha Hr. split; [done|]. unfold emit. cbn [snd]. intros out. destruct (traverse openai_sse_frame frames); cbn [result_bind]; [|done]. by intros [= <-].
Qed.

Lemma announced_insert s index block : announced s ->
  match block with TextBlock => True | ToolBlock i _ => 0 <= i < ns_tool_count s end ->
  announced (with_active s (<[index := block]> (ns_active s)) (ns_tool_count s)).
Proof. intros [Hc Ha] Hb. split; [done|]. cbn [with_active ns_active ns_tool_count]. by apply map_Forall_insert_2. Qed.

Lemma announced_delete s index : announced s -> announced (with_active s (delete index (ns_active s)) (ns_tool_count s)).
Proof. intros [Hc Ha]. split; [done|]. cbn [with_active ns_active ns_tool_count]. by apply map_Forall_delete. Qed.

Lemma position_live s : ns_terminal s = false -> position s = Reading (ns_tool_count s) (ns_finish_sent s).
Proof. intros Ht. unfold position. by rewrite Ht. Qed.

Lemma content_block_start_advances s v : ns_terminal s = false -> announced s -> advances s (content_block_start s v).
Proof.
  intros Ht Ha. pose proof (position_live s Ht) as Hp. unfold content_block_start.
  destruct (payload_index v) as [index|], (payload_object v "content_block") as [block|]; try by apply advances_refuse_event.
  destruct (is_kind block "text"); [|destruct (is_kind block "tool_use"); [|by apply advances_refuse_event]].
  - split; [by apply announced_insert|]. cbn [snd fst]. intros frames [= <-]. done.
  - destruct (MAX_TOOL_CALLS <=? ns_tool_count s); [by apply advances_refuse_event|]. destruct Ha as [Hc Ha]. apply advances_emit.
    + split; cbn [with_active ns_active ns_tool_count]; [lia|]. apply map_Forall_insert_2; [lia|].
      eapply map_Forall_impl; [exact Ha|]. intros k [|i b]; [done|]. cbn. lia.
    + rewrite Hp. unfold position. cbn [with_active ns_terminal ns_tool_count ns_finish_sent]. rewrite Ht. cbn [read_frames read_step delta_frame].
      by rewrite Z.eqb_refl.
Qed.

(** Arguments for an announced tool. *)
Lemma read_arguments s s' index arguments id model : ns_terminal s = false -> 0 <= index < ns_tool_count s -> position s' = position s ->
  read_frames (position s) [DeltaFrame (number := number) id model (ToolArguments index arguments)] = Some (position s').
Proof.
  intros Ht Hi ->. rewrite (position_live s Ht). cbn [read_frames read_step]. destruct (Z.leb_spec 0 index), (Z.ltb_spec index (ns_tool_count s)); try lia. done.
Qed.

Lemma content_block_delta_advances s v : ns_terminal s = false -> announced s -> advances s (content_block_delta s v).
Proof.
  intros Ht Ha. unfold content_block_delta.
  destruct (payload_index v) as [index|], (payload_object v "delta") as [delta|]; try by apply advances_refuse_event.
  destruct (ns_active s !! index) as [[|i b]|] eqn:Eb; [| |by apply advances_refuse_event].
  - destruct (is_kind delta "text_delta"); [|by apply advances_refuse_event]. destruct (get_str delta "text"); [|by apply advances_refuse_event].
    apply advances_emit; [done|]. by rewrite (position_live s Ht).
  - destruct (is_kind delta "input_json_delta"); [|by apply advances_refuse_event]. destruct (get_str delta "partial_json"); [|by apply advances_refuse_event].
    pose proof (proj2 Ha _ _ Eb) as Hi. apply advances_emit; [by apply announced_insert|]. by apply read_arguments.
Qed.

Lemma content_block_stop_advances s v : ns_terminal s = false -> announced s -> advances s (content_block_stop s v).
Proof.
  intros Ht Ha. unfold content_block_stop. destruct (payload_index v) as [index|]; [|by apply advances_refuse_event].
  destruct (ns_active s !! index) as [[|i [|]]|] eqn:Eb; [| | |by apply advances_refuse_event, announced_delete].
  - split; [by apply announced_delete|]. cbn [fst snd]. intros frames [= <-]. done.
  - split; [by apply announced_delete|]. cbn [fst snd]. intros frames [= <-]. done.
  - pose proof (proj2 Ha _ _ Eb) as Hi. apply advances_emit; [by apply announced_delete|]. by apply read_arguments.
Qed.

Lemma message_delta_advances s v : ns_terminal s = false -> announced s -> advances s (message_delta s v).
Proof.
  intros Ht Ha. unfold message_delta, emit. destruct (traverse openai_sse_frame _); cbn [result_bind]; [|by split].
  split; [done|]. cbn [fst snd]. intros frames [= <-]. by rewrite !position_live.
Qed.

Lemma conclude_advances s frames tools : announced s -> read_frames (position s) frames = Some (Reading tools true) -> advances s (conclude s frames).
Proof.
  intros Ha Hr. unfold conclude, emit. destruct (traverse openai_sse_frame _); cbn [result_bind]; [|by split].
  split; [done|]. cbn [fst snd]. intros out [= <-]. by rewrite (read_frames_app _ _ _ _ Hr).
Qed.

Lemma message_stop_advances s : ns_terminal s = false -> announced s -> advances s (message_stop s).
Proof.
  intros Ht Ha. unfold message_stop. destruct (bool_decide (ns_active s = ∅)); [|by apply advances_refuse_event].
  apply (conclude_advances _ _ (ns_tool_count s)); [done|]. rewrite (position_live s Ht). by destruct (ns_finish_sent s).
Qed.

Lemma translate_event_advances s event : announced s -> advances s (translate_event s event).
Proof.
  intros Ha. unfold translate_event. destruct (ns_terminal s) eqn:Ht; cbn [orb]; [by split; [|intros frames [= <-]]|].
  destruct (str_eqb (ev_event event) (lit "ping")); [by split; [|intros frames [= <-]]|].
  destruct (json_from_str (ev_data event)) as [v|]; [|by apply advances_refuse_event]. cbv zeta.
  destruct (str_eqb _ (lit "message_start")).
  { unfold message_start. destruct (payload_object v "message"); [|by apply advances_refuse_event]. apply advances_emit; [done|]. by rewrite !position_live. }
  destruct (str_eqb _ (lit "content_block_start")); [by apply content_block_start_advances|].
  destruct (str_eqb _ (lit "content_block_delta")); [by apply content_block_delta_advances|].
  destruct (str_eqb _ (lit "content_block_stop")); [by apply content_block_stop_advances|].
  destruct (str_eqb _ (lit "message_delta")); [by apply message_delta_advances|].
  destruct (str_eqb _ (lit "message_stop")); [by apply message_stop_advances|].
  destruct (str_eqb _ (lit "error")); [|by apply advances_refuse_event].
  apply (conclude_advances _ _ (ns_tool_count s)); [done|]. by rewrite position_live.
Qed.

Lemma translate_events_advances events s : announced s -> advances s (translate_events s events).
Proof.
  revert s. induction events as [|event events IH]; intros s Ha; cbn [translate_events]; [by split; [|intros frames [= <-]]|].
  destruct (translate_event_advances s event Ha) as [Ha1 Hr1]. destruct (translate_event s event) as [s1 [f1|e]]; cbn [fst snd] in *; [|by split].
  destruct (IH s1 Ha1) as [Ha2 Hr2]. destruct (translate_events s1 events) as [s2 r2]; cbn [fst snd] in *. split; [done|].
  intros frames Hr. destruct r2 as [f2|e]; cbn [result_map snd] in Hr; [|done]. injection Hr as <-.
  rewrite (read_frames_app _ _ _ _ (Hr1 f1 eq_refl)). by apply Hr2.
Qed.

Lemma decode_with_advances decode s : announced s -> advances s (decode_with decode s).
Proof.
  intros Ha. unfold decode_with. destruct (decode (ns_decoder s)) as [d [events|e]]; [|by split].
  destruct (translate_events_advances events (with_decoder s d) Ha) as [Ha1 Hr1]. by split.
Qed.

(** Chunks pushed one after another, then the end; the frames if all succeed. *)
Fixpoint adapt s (chunks : list (list Z)) : stream * result (list (OpenAiFrame number)) AnthropicNativeError :=
  match chunks with
  | [] => native_finish s
  | chunk :: chunks =>
      let '(s, r) := native_push s chunk in
      match r with
      | Err e => (s, Err e)
      | Ok frames => let '(s, r) := adapt s chunks in (s, result_map (app frames) r)
      end
  end.

Lemma adapt_reads chunks s frames : announced s -> snd (adapt s chunks) = Ok frames -> read_frames (position s) frames = Some ReadEnd.
Proof.
  revert s frames. induction chunks as [|chunk chunks IH]; intros s frames Ha; cbn [adapt].
  - unfold native_finish. destruct (decode_with_advances Sse.finish s Ha) as [_ Hr]. destruct (decode_with Sse.finish s) as [s1 [f1|e]]; cbn [fst snd] in *; [|done].
    specialize (Hr f1 eq_refl). destruct (ns_terminal s1) eqn:Et; [|done]. intros [= <-]. rewrite Hr. unfold position. by rewrite Et.
  - destruct (decode_with_advances (fun d => Sse.push d chunk) s Ha) as [Ha1 Hr]. unfold native_push.
    destruct (decode_with _ s) as [s1 [f1|e]]; cbn [fst snd] in *; [|done]. specialize (Hr f1 eq_refl).
    pose proof (IH s1) as IH1. destruct (adapt s1 chunks) as [s2 [f2|e]]; cbn [fst snd result_map] in *; [|done]. intros [= <-].
    rewrite (read_frames_app _ _ _ _ Hr). by apply IH1.
Qed.
End Reading.

(** ** The messages of a translated request alternate *)
Section Alternation.
Context {number : Type} `{JsonNumber number, JsonText number, JsonBuild number}.
Implicit Types (messages : list (Value number)).

Definition turn_value (role : string) (content : list (Value number)) : Value number := jo [("role", js role); ("content", JArray content)].

(** A turn of the user or the assistant, with content. *)
Definition turn (v : Value number) : Prop := exists role content,
  v = turn_value role content /\ (role = "user" \/ role = "assistant")%string /\ content <> [].

Definition role_of (v : Value number) : option str := value_str v "role".

Definition alternating messages : Prop := Forall turn messages /\ Sorted (fun a b => role_of a <> role_of b) messages.

Lemma role_of_turn role content : role_of (turn_value role content) = Some (lit role).
Proof. done. Qed.

Lemma extended_turn role blocks role' content :
  extended role blocks (turn_value role' content) =
  if bool_decide (Some (lit role') = Some (lit role)) then Some (turn_value role' (content ++ blocks)) else None.
Proof. done. Qed.

(** What [push_message] does to alternating turns. *)
Lemma push_last_alternating role block blocks messages :
  (role = "user" \/ role = "assistant")%string -> Sorted (fun a b => role_of a <> role_of b) messages -> Forall turn messages ->
  match push_last role (block :: blocks) messages with
  | Some messages' => Forall turn messages' /\ map role_of messages' = map role_of messages
  | None => forall last, list.last messages = Some last -> role_of last <> Some (lit role)
  end.
Proof.
  intros Hrole. induction messages as [|m messages IH]; intros Hs Ht; [done|]. apply Forall_cons in Ht as [Hm Ht].
  destruct messages as [|m2 messages].
  - cbn [push_last]. destruct Hm as (r & content & -> & Hr & Hc). rewrite extended_turn. case_bool_decide as E; cbn [fmap option_fmap option_map].
    + split; [|done]. apply Forall_singleton. exists r, (content ++ block :: blocks). split_and!; [done|done|]. intros [? ?]%app_nil. done.
    + intros last [= <-]. by rewrite role_of_turn.
  - change (push_last role (block :: blocks) (m :: m2 :: messages)) with (cons m <$> push_last role (block :: blocks) (m2 :: messages)).
    apply Sorted_inv in Hs as [Hs _]. specialize (IH Hs Ht). destruct (push_last role (block :: blocks) (m2 :: messages)) as [ms|]; cbn [fmap option_fmap option_map].
    + destruct IH as [Hf Hr]. split; [by constructor|]. cbn [map] in *. by rewrite Hr.
    + intros last Hl. apply IH. done.
Qed.

Lemma Sorted_map_role messages messages' : map role_of messages' = map role_of messages ->
  Sorted (fun a b => role_of a <> role_of b) messages -> Sorted (fun a b => role_of a <> role_of b) messages'.
Proof.
  revert messages'. induction messages as [|m messages IH]; intros [|m' messages']; try done. cbn [map]. intros [= Em Er] Hs.
  apply Sorted_inv in Hs as [Hs Hh]. constructor; [by apply IH|]. destruct messages' as [|m2' messages']; [constructor|].
  destruct messages as [|m2 messages]; [done|]. cbn [map] in Er. injection Er as E2 _. constructor. rewrite Em, E2. by inversion Hh.
Qed.

Lemma Sorted_snoc {A} (R : A -> A -> Prop) l x : Sorted R l -> (forall y, last l = Some y -> R y x) -> Sorted R (l ++ [x]).
Proof.
  induction l as [|a l IH]; intros Hs Hl; cbn [app]; [repeat constructor|]. apply Sorted_inv in Hs as [Hs Hh]. constructor.
  - apply IH; [done|]. intros y Hy. apply Hl. destruct l; [done|]. exact Hy.
  - destruct l as [|b l]; cbn [app]; constructor; [by apply Hl|]. by inversion Hh.
Qed.

Lemma push_message_alternating (system : list (Value number)) role blocks messages :
  (role = "user" \/ role = "assistant")%string -> alternating messages -> alternating (snd (system, push_message messages role blocks)).
Proof.
  intros Hrole [Ht Hs]. cbn [snd]. unfold push_message. destruct blocks as [|block blocks]; [done|].
  pose proof (push_last_alternating role block blocks messages Hrole Hs Ht) as Hp. destruct (push_last _ _ _) as [ms|]; cbn [default].
  - destruct Hp as [Hf Hr]. split; [done|]. by eapply Sorted_map_role.
  - split; [apply Forall_app; split; [done|]; apply Forall_singleton; by exists role, (block :: blocks)|].
    apply Sorted_snoc; [done|]. intros y Hy. change (role_of y <> Some (lit role)). by apply Hp.
Qed.

Lemma native_message_alternating acc message acc' : alternating (snd acc) -> native_message acc message = Ok acc' -> alternating (snd acc').
Proof.
  destruct acc as [system messages]. cbn [snd]. intros Ha. unfold native_message. intros (members & _ & Hm)%result_bind_ok.
  destruct (get_str members "role") as [role|]; [|done]. revert Hm.
  destruct (str_eqb role (lit "system") || str_eqb role (lit "developer")).
  { intros (text & _ & Hm)%result_bind_ok. injection Hm as <-. by destruct (bool_decide (text = [])). }
  destruct (str_eqb role (lit "user")).
  { intros (text & _ & Hm)%result_bind_ok. injection Hm as <-. destruct (bool_decide (text = [])); [done|]. apply (push_message_alternating system "user" [text_block text] messages); auto. }
  destruct (str_eqb role (lit "assistant")).
  { intros (blocks & _ & Hm)%result_bind_ok. injection Hm as <-. apply (push_message_alternating system "assistant" blocks messages); auto. }
  destruct (str_eqb role (lit "tool")); [|done].
  intros (id & _ & Hm)%result_bind_ok. apply result_bind_ok in Hm as (content & _ & Hm). injection Hm as <-. eapply (push_message_alternating system "user" [_] messages); auto.
Qed.

Lemma native_messages_alternating raw acc acc' : alternating (snd acc) -> try_fold native_message acc raw = Ok acc' -> alternating (snd acc').
Proof.
  revert acc. induction raw as [|message raw IH]; intros acc Ha; cbn [try_fold]; [by intros [= <-]|].
  intros (acc1 & H1' & H2')%result_bind_ok. eapply IH; [|exact H2']. by eapply native_message_alternating.
Qed.

Lemma native_request_messages body model streaming out : openai_to_anthropic_request body model streaming = Ok out ->
  exists messages, value_get out (lit "messages") = Some (JArray messages) /\ messages <> [] /\ alternating messages.
Proof.
  unfold openai_to_anthropic_request. intros (members & _ & Hb)%result_bind_ok. destruct (_ || _); [done|].
  apply result_bind_ok in Hb as (n & _ & Hb). apply result_bind_ok in Hb as (raw & _ & Hb). apply result_bind_ok in Hb as ([system messages] & Hm & Hb).
  apply native_messages_alternating in Hm; [|split; constructor]. cbn [snd] in Hm. destruct messages as [|m messages]; [done|].
  apply result_bind_ok in Hb as (sequences & _ & Hb). apply result_bind_ok in Hb as (tools & _ & Hb). cbv zeta in Hb.
  apply result_bind_ok in Hb as (choice & _ & Hb). injection Hb as <-. exists (m :: messages). done.
Qed.
End Alternation.

(** C22: Whatever an OpenAI client asks, a request sent to the Messages API has
    at least one message, every message has content and is the user's or the
    assistant's, and no two messages in a row have the same role: the results
    of tools join the user's turn. *)
Theorem native_request_alternates {number : Type} `{JsonNumber number, JsonText number, JsonBuild number} body model streaming out :
  openai_to_anthropic_request (number := number) body model streaming = Ok out ->
  exists messages, value_get out (lit "messages") = Some (JArray messages) /\ messages <> [] /\ alternating messages.
Proof. apply native_request_messages. Qed.

(** C23: However the upstream cuts its bytes, an adapted Messages stream that
    succeeds reads as an OpenAI stream: tools are announced with consecutive
    indices, arguments go to announced tools, and the end marker comes last,
    after a finish reason or an error. *)
Theorem native_stream_well_formed {number : Type} `{JsonNumber number, JsonText number, JsonBuild number} chunks frames :
  snd (adapt (number := number) default_stream chunks) = Ok frames -> read_frames (Reading 0 false) frames = Some ReadEnd.
Proof. apply (adapt_reads chunks default_stream). split; [done|apply map_Forall_empty]. Qed.

(** ** Examples *)
Definition data_of (v : Value plain_number) : str := default [] (json_to_string v).

Definition upstream_event (name : string) (members : list (string * Value plain_number)) : list Z :=
  as_bytes (lit "event: " ++ lit name ++ [10] ++ lit "data: " ++ data_of (jo members) ++ [10; 10]).

Definition num (n : Z) : Value plain_number := JNumber (PlainInt n).
Notation "k ~> v" := ((k%string, v) : string * Value plain_number) (at level 60).

Definition sample_native_upstream : list Z := mjoin
  [upstream_event "message_start"
     ["message" ~> jo ["id" ~> js "msg_9"; "model" ~> js "claude"; "usage" ~> jo ["input_tokens" ~> num 12]]];
   upstream_event "content_block_start" ["index" ~> num 0; "content_block" ~> jo ["type" ~> js "text"]];
   upstream_event "content_block_delta" ["index" ~> num 0; "delta" ~> jo ["type" ~> js "text_delta"; "text" ~> js "Hi"]];
   upstream_event "content_block_stop" ["index" ~> num 0];
   upstream_event "content_block_start" ["index" ~> num 1; "content_block" ~> jo ["type" ~> js "tool_use"; "id" ~> js "t1"; "name" ~> js "now"]];
   upstream_event "content_block_stop" ["index" ~> num 1];
   upstream_event "message_delta" ["delta" ~> jo ["stop_reason" ~> js "tool_use"]; "usage" ~> jo ["output_tokens" ~> num 5]];
   upstream_event "message_stop" []].

Definition sample_chunks : list (list Z) := [take 100 sample_native_upstream; drop 100 sample_native_upstream].

Definition sample_adapted : list (OpenAiFrame plain_number) :=
  let delta := DeltaFrame (lit "msg_9") (lit "claude") in
  [delta RoleDelta; delta (ContentDelta (lit "Hi")); delta (ToolOpened 0 (js "t1") (js "now")); delta (ToolArguments 0 (lit "{}"));
   FinishFrame (lit "msg_9") (lit "claude") "tool_calls" (Some (12, 5)); DoneFrame].

Lemma native_stream_well_formed_witness : read_frames (Reading 0 false) sample_adapted = Some ReadEnd.
Proof. apply (native_stream_well_formed sample_chunks). vm_compute. reflexivity. Defined.

Definition sample_body : Value plain_number :=
  jo ["messages" ~> JArray
        [jo ["role" ~> js "system"; "content" ~> js "Be brief."];
         jo ["role" ~> js "user"; "content" ~> js "What time is it?"];
         jo ["role" ~> js "assistant"; "tool_calls" ~> JArray
               [jo ["id" ~> js "t1"; "type" ~> js "function";
                    "function" ~> jo ["name" ~> js "now"; "arguments" ~> JString (data_of (JObject []))]]]];
         jo ["role" ~> js "tool"; "tool_call_id" ~> js "t1"; "content" ~> js "Noon."];
         jo ["role" ~> js "user"; "content" ~> js "Thanks."]]].

Definition sample_turns : list (Value plain_number) :=
  [turn_value "user" [text_block (lit "What time is it?")];
   turn_value "assistant" [jo ["type" ~> js "tool_use"; "id" ~> js "t1"; "name" ~> js "now"; "input" ~> JObject []]];
   turn_value "user" [jo ["type" ~> js "tool_result"; "tool_use_id" ~> js "t1"; "content" ~> js "Noon."]; text_block (lit "Thanks.")]].

Definition sample_native : Value plain_number :=
  jo ["model" ~> js "claude"; "max_tokens" ~> num 4096; "messages" ~> JArray sample_turns; "stream" ~> JBool true;
      "system" ~> JArray [text_block (lit "Be brief.")]].

Lemma native_request_alternates_witness : exists messages,
  value_get sample_native (lit "messages") = Some (JArray messages) /\ messages <> [] /\ alternating messages.
Proof. apply (native_request_alternates sample_body (lit "claude") true). vm_compute. reflexivity. Defined.
