(* ===== verification/Responses.v ===== *)
(** * The Responses API (crate [wayfinder-gateway], [src/responses.rs])

    A Responses request is validated and translated into a chat request, whose
    answer is translated back.  The record [ResponsesRequest] is what [serde]'s
    derived reader yields.  A [HashMap] is read in the order [iter] gives, which
    the standard library leaves open. *)
From S2P Require Export Anthropic.

Definition RESPONSES_CONTRACT_VERSION : str := lit "wf-responses-v1".
Definition MAX_INPUT_ITEMS : Z := 64.
Definition MAX_TOOLS : Z := 128.
Definition MAX_INPUT_CHARS : Z := 1000000.
Definition MAX_OUTPUT_CHARS : Z := 1000000.
Definition MAX_OUTPUT_TOKENS : Z := 32768.
Definition MAX_STREAM_EVENTS : Z := 8192.

Record ResponsesToolIdentity := {
  ti_name : str;
  ti_namespace : option str;
  ti_custom : bool;
}.

#[export] Instance ResponsesToolIdentity_eq_dec : EqDecision ResponsesToolIdentity.
Proof. solve_decision. Defined.

Notation ToolMetadata := (gmap str ResponsesToolIdentity).

Record ChatToolCall := {
  ct_id : str;
  ct_name : str;
  ct_arguments : str;
}.

Record Usage := {
  us_input_tokens : Z;
  us_output_tokens : Z;
  us_total_tokens : Z;
}.

Inductive ResponsesInput (number : Type) :=
| InputText (text : str)
| InputItems (items : list (Value number)).
Arguments InputText {number}.
Arguments InputItems {number}.

Record ResponsesRequest (number : Type) := {
  rq_model : str;
  rq_input : ResponsesInput number;
  rq_instructions : option str;
  rq_stream : bool;
  rq_max_output_tokens : option Z;
  rq_temperature : option f64;
  rq_tools : list (Value number);
  rq_tool_choice : Value number;
  rq_parallel_tool_calls : bool;
  rq_reasoning : option (Value number);
  rq_store : bool;
  rq_stream_options : option (Value number);
  rq_include : list str;
  rq_service_tier : option str;
  rq_prompt_cache_key : option str;
  rq_text : option (Value number);
  rq_client_metadata : option (Value number);
}.
Arguments rq_model {number}.
Arguments rq_input {number}.
Arguments rq_instructions {number}.
Arguments rq_stream {number}.
Arguments rq_max_output_tokens {number}.
Arguments rq_temperature {number}.
Arguments rq_tools {number}.
Arguments rq_tool_choice {number}.
Arguments rq_parallel_tool_calls {number}.
Arguments rq_reasoning {number}.
Arguments rq_store {number}.
Arguments rq_stream_options {number}.
Arguments rq_include {number}.
Arguments rq_service_tier {number}.
Arguments rq_prompt_cache_key {number}.
Arguments rq_text {number}.
Arguments rq_client_metadata {number}.

Section Request.
Context {number : Type} `{JsonNumber number, JsonText number, JsonBuild number}.
Context (iter : ToolMetadata -> list (str * ResponsesToolIdentity)).
Implicit Types (v : Value number) (members : list (str * Value number)).

Notation fail template args := (Err (Msg template args)).

(** ** Fields *)
Definition reject_unknown_fields members (allowed : list string) : result unit message :=
  match list_find (fun '(field, _) => field ∉ map lit allowed) members with
  | Some (_, (field, _)) => fail "unsupported Responses API field '{field}'" [ArgStr field]
  | None => Ok ()
  end.

Definition required_string members (field : string) : result str message :=
  match (s ← get_str members field; if bool_decide (s = []) then None else Some s) with
  | Some s => Ok s
  | None => fail "Responses field '{field}' must be a non-empty string" [ArgStr (lit field)]
  end.

Definition object_or v (template : string) : result (list (str * Value number)) message := ok_or (as_object v) (Msg template []).

Definition one_of (s : str) (words : list string) : bool := bool_decide (s ∈ map lit words).

(** One part of a content, after the text before it. *)
Definition content_part (text : str) (part : Value number) : result str message :=
  let? part := object_or part "Responses message content parts must be objects" in
  let? _ := reject_unknown_fields part ["type"; "text"; "annotations"; "logprobs"] in
  let? kind := required_string part "type" in
  if negb (one_of kind ["input_text"; "output_text"; "text"])
  then fail "unsupported Responses content type '{}'; only text parts are supported" [ArgStr kind]
  else
    let? piece := required_string part "text" in
    Ok ((if bool_decide (text = []) then [] else text ++ [10]) ++ piece).

Definition content_text (content : Value number) : result str message :=
  match content with
  | JString text => Ok text
  | JArray [] => fail "Responses message content must contain at least one part" []
  | JArray parts => try_fold content_part [] parts
  | _ => fail "Responses message content must be text or text parts" []
  end.

(** ** Tools *)
Definition wire_name (metadata : ToolMetadata) (name : str) (namespace : option str) (custom : bool) : option str :=
  (fun '(_, (wire, _)) => wire) <$>
    list_find (fun '(_, identity) => identity = {| ti_name := name; ti_namespace := namespace; ti_custom := custom |}) (iter metadata).

Definition identity_of (metadata : ToolMetadata) (wire : str) : ResponsesToolIdentity :=
  default {| ti_name := wire; ti_namespace := None; ti_custom := false |} (metadata !! wire).

Definition wire_char (c : Z) : bool :=
  (97 <=? c) && (c <=? 122) || (65 <=? c) && (c <=? 90) || (48 <=? c) && (c <=? 57) || (c =? 95) || (c =? 45).

Definition chat_tool_name (namespace : option str) (name : str) (index : Z) (existing : ToolMetadata) : str :=
  let direct_is_valid :=
    bool_decide (namespace = None) && (str_len name <=? 64) && forallb wire_char name && bool_decide (existing !! name = None) in
  if direct_is_valid then name
  else lit "wf_" ++ digits_of index ++ lit "_" ++ take 48 (filter (fun c => wire_char c = true) name).

(** The translated tools and their identities. *)
Notation Tools := (list (Value number) * ToolMetadata)%type.

Definition tool_parameters (tool : list (str * Value number)) (name : str) (custom : bool) : result (Value number) message :=
  if custom then
    let? _ := reject_unknown_fields tool ["type"; "name"; "description"; "defer_loading"; "format"] in
    let? format := ok_or (get_object tool "format") (Msg "Responses custom tool '{name}' requires format" [ArgStr name]) in
    let? _ := reject_unknown_fields format ["type"; "syntax"; "definition"] in
    Ok (jo [("type", js "object"); ("properties", jo [("input", jo [("type", js "string")])]); ("required", JArray [js "input"]);
            ("additionalProperties", JBool false)])
  else
    let? _ := reject_unknown_fields tool ["type"; "name"; "description"; "strict"; "defer_loading"; "parameters"] in
    let? parameters := ok_or (get tool "parameters") (Msg "Responses function tool '{name}' requires parameters" [ArgStr name]) in
    match as_object parameters with
    | Some _ => Ok parameters
    | None => fail "Responses function tool '{name}' parameters must be an object" [ArgStr name]
    end.

Definition tool_strict (tool : list (str * Value number)) (name : str) (custom : bool) : result (list (str * Value number)) message :=
  if custom then Ok []
  else
    let strict := default (JBool false) (get tool "strict") in
    match as_bool strict with
    | Some _ => Ok [member "strict" strict]
    | None => fail "Responses function tool '{name}' strict must be boolean" [ArgStr name]
    end.

Definition translate_one_tool (tool : list (str * Value number)) (namespace : option str) (custom : bool) (tools : Tools) : result Tools message :=
  let '(translated, metadata) := tools in
  if MAX_TOOLS <=? len translated
  then fail "Responses field 'tools' exceeds {MAX_TOOLS} entries after namespace expansion" [ArgInt MAX_TOOLS]
  else
    let? name := required_string tool "name" in
    if 128 <? str_len name then fail "Responses tool names must not exceed 128 bytes" []
    else if match get tool "description" with Some d => negb (is_string d) | None => false end
    then fail "Responses tool '{name}' description must be a string" [ArgStr name]
    else
      let wire := chat_tool_name namespace name (len translated) metadata in
      let description := default (JString []) (get tool "description") in
      let? parameters := tool_parameters tool name custom in
      let? strict := tool_strict tool name custom in
      let function := JObject ([member "name" (JString wire); member "description" description; member "parameters" parameters] ++ strict) in
      Ok (translated ++ [jo [("type", js "function"); ("function", function)]],
          <[wire := {| ti_name := name; ti_namespace := namespace; ti_custom := custom |}]> metadata).

Definition translate_nested (namespace : str) (tools : Tools) (nested : Value number) : result Tools message :=
  if MAX_TOOLS <=? len (fst tools)
  then fail "Responses field 'tools' exceeds {MAX_TOOLS} entries after namespace expansion" [ArgInt MAX_TOOLS]
  else
    let? nested := ok_or (as_object nested) (Msg "Responses namespace '{namespace}' tools must be objects" [ArgStr namespace]) in
    let? kind := required_string nested "type" in
    if str_eqb kind (lit "function") then translate_one_tool nested (Some namespace) false tools
    else if str_eqb kind (lit "custom") then translate_one_tool nested (Some namespace) true tools
    else fail "unsupported Responses namespace tool type '{other}'" [ArgStr kind].

Definition translate_tool_entry (tools : Tools) (tool : Value number) : result Tools message :=
  let? tool := object_or tool "Responses tools must be objects" in
  let? kind := required_string tool "type" in
  if str_eqb kind (lit "function") then translate_one_tool tool None false tools
  else if str_eqb kind (lit "custom") then translate_one_tool tool None true tools
  else if str_eqb kind (lit "namespace") then
    let? _ := reject_unknown_fields tool ["type"; "name"; "description"; "defer_loading"; "tools"] in
    let? namespace := required_string tool "name" in
    let? nested := ok_or (get tool "tools" ≫= as_array) (Msg "Responses namespace '{namespace}' requires tools" [ArgStr namespace]) in
    try_fold (translate_nested namespace) tools nested
  else fail "unsupported Responses tool type '{other}'; only function, custom, and namespace tools are supported" [ArgStr kind].

Definition translate_tools (tools : list (Value number)) : result Tools message :=
  if MAX_TOOLS <? len tools then fail "Responses field 'tools' exceeds {MAX_TOOLS} entries" [ArgInt MAX_TOOLS]
  else try_fold translate_tool_entry ([], ∅) tools.

Definition responses_tool_choice (choice : Value number) (metadata : ToolMetadata) : result (Value number) message :=
  let unsupported := fail "unsupported Responses field 'tool_choice'" [] in
  match choice with
  | JString c => if one_of c ["auto"; "none"; "required"] then Ok choice else unsupported
  | JObject c =>
      let? _ := reject_unknown_fields c ["type"; "name"] in
      let? kind := required_string c "type" in
      if negb (one_of kind ["function"; "custom"]) then fail "unsupported Responses tool_choice type '{kind}'" [ArgStr kind]
      else
        let? name := required_string c "name" in
        let custom := str_eqb kind (lit "custom") in
        match list_find (fun '(_, identity) => ti_name identity = name /\ ti_custom identity = custom) (iter metadata) with
        | None => fail "Responses tool_choice references unknown {kind} tool '{name}'" [ArgStr kind; ArgStr name]
        | Some (_, (_, identity)) =>
            let wire := default name (wire_name metadata (ti_name identity) (ti_namespace identity) (ti_custom identity)) in
            Ok (jo [("type", js "function"); ("function", jo [("name", JString wire)])])
        end
  | _ => unsupported
  end.

(** ** Controls *)
Definition validate_reasoning (reasoning : Value number) : result (option str) message :=
  let? reasoning := object_or reasoning "Responses field 'reasoning' must be an object" in
  let? _ := reject_unknown_fields reasoning ["effort"; "summary"; "context"] in
  let? _ := traverse (fun field =>
              match get reasoning field with
              | Some v => if is_string v || is_null v then Ok () else fail "Responses reasoning field '{field}' must be a string" [ArgStr (lit field)]
              | None => Ok ()
              end) ["summary"; "context"]%string in
  let effort := get_str reasoning "effort" in
  if match effort with Some e => negb (one_of e ["none"; "minimal"; "low"; "medium"; "high"; "xhigh"]) | None => false end
  then fail "unsupported Responses reasoning effort" []
  else Ok effort.

Definition validate_codex_controls (stream_options : option (Value number)) (include : list str) (prompt_cache_key : option str)
    (text client_metadata : option (Value number)) : result unit message :=
  let? _ := match stream_options with
            | None => Ok ()
            | Some options =>
                let? options := object_or options "Responses field 'stream_options' must be an object" in
                reject_unknown_fields options ["reasoning_summary_delivery"; "include_usage"]
            end in
  if existsb (fun value => negb (str_eqb value (lit "reasoning.encrypted_content"))) include
  then fail "unsupported Responses field 'include'" []
  else if match prompt_cache_key with Some value => 512 <? str_len value | None => false end
  then fail "Responses field 'prompt_cache_key' exceeds 512 bytes" []
  else
    let? _ := match text with
              | None => Ok ()
              | Some text =>
                  let? text := object_or text "Responses field 'text' must be an object" in
                  let? _ := reject_unknown_fields text ["verbosity"; "format"] in
                  if match get text "format" with Some value => negb (is_null value) | None => false end
                  then fail "Responses structured text formats are not supported" [] else Ok ()
              end in
    if match client_metadata with Some value => negb (bool_decide (is_Some (as_object value))) | None => false end
    then fail "Responses field 'client_metadata' must be an object" []
    else Ok ().

(** ** Input items *)
Record Conversation := {
  cv_messages : list (Value number);
  cv_pending : list (Value number);
  cv_chars : Z;
}.

Definition flush_tool_calls (c : Conversation) : Conversation :=
  match cv_pending c with
  | [] => c
  | pending =>
      {| cv_messages := cv_messages c ++ [jo [("role", js "assistant"); ("content", JNull); ("tool_calls", JArray pending)]];
         cv_pending := []; cv_chars := cv_chars c |}
  end.

Definition say (c : Conversation) (text : str) (message : Value number) : Conversation :=
  {| cv_messages := cv_messages c ++ [message]; cv_pending := cv_pending c; cv_chars := u64_sat_add (cv_chars c) (len text) |}.

Definition pend (c : Conversation) (text call_id wire arguments : str) : Conversation :=
  {| cv_messages := cv_messages c;
     cv_pending := cv_pending c ++ [jo [("id", JString call_id); ("type", js "function");
                                        ("function", jo [("name", JString wire); ("arguments", JString arguments)])]];
     cv_chars := u64_sat_add (cv_chars c) (len text) |}.

Definition passthrough : string := "internal_chat_message_metadata_passthrough".

Definition input_message (c : Conversation) (item : list (str * Value number)) : result Conversation message :=
  let? _ := reject_unknown_fields item ["id"; "type"; "role"; "content"; "status"; "phase"; passthrough] in
  let c := flush_tool_calls c in
  let? role := required_string item "role" in
  if negb (one_of role ["system"; "developer"; "user"; "assistant"]) then fail "unsupported Responses message role '{role}'" [ArgStr role]
  else
    let? content := ok_or (get item "content") (Msg "Responses message input requires 'content'" []) in
    let? content := content_text content in
    Ok (say c content (jo [("role", JString role); ("content", JString content)])).

Definition input_function_call (metadata : ToolMetadata) (c : Conversation) (item : list (str * Value number)) : result Conversation message :=
  let? _ := reject_unknown_fields item
              ["id"; "type"; "name"; "namespace"; "arguments"; "encrypted_function_args"; "call_id"; "status"; passthrough] in
  let? name := required_string item "name" in
  let wire := default name (wire_name metadata name (get_str item "namespace") false) in
  let? arguments := required_string item "arguments" in
  let? call_id := required_string item "call_id" in
  Ok (pend c arguments call_id wire arguments).

Definition input_custom_call (metadata : ToolMetadata) (c : Conversation) (item : list (str * Value number)) : result Conversation message :=
  let? _ := reject_unknown_fields item ["id"; "type"; "name"; "namespace"; "input"; "call_id"; "status"; passthrough] in
  let? name := required_string item "name" in
  let wire := default name (wire_name metadata name (get_str item "namespace") true) in
  let? input := required_string item "input" in
  let? call_id := required_string item "call_id" in
  let? arguments := ok_or (json_to_string (jo [("input", JString input)])) (Msg "{error}" []) in
  Ok (pend c input call_id wire arguments).

Definition input_tool_output (c : Conversation) (item : list (str * Value number)) : result Conversation message :=
  let? _ := reject_unknown_fields item ["id"; "type"; "name"; "call_id"; "output"; passthrough] in
  let c := flush_tool_calls c in
  let? call_id := required_string item "call_id" in
  let? output := ok_or (get item "output") (Msg "Responses tool output requires 'output'" []) in
  let? output := content_text output in
  Ok (say c output (jo [("role", js "tool"); ("tool_call_id", JString call_id); ("content", JString output)])).

Definition translate_input_item (metadata : ToolMetadata) (c : Conversation) (item : Value number) : result Conversation message :=
  let? item := object_or item "Responses input items must be objects" in
  let kind := default (lit "message") (get_str item "type") in
  if str_eqb kind (lit "message") then input_message c item
  else if str_eqb kind (lit "function_call") then input_function_call metadata c item
  else if str_eqb kind (lit "custom_tool_call") then input_custom_call metadata c item
  else if str_eqb kind (lit "function_call_output") || str_eqb kind (lit "custom_tool_call_output") then input_tool_output c item
  else fail "unsupported Responses input item type '{other}'" [ArgStr kind].

(** ** The whole request *)
Definition check_limits (r : ResponsesRequest number) : result unit message :=
  if bool_decide (trim (rq_model r) = []) || (128 <? str_len (rq_model r)) then fail "Responses field 'model' must be 1-128 bytes" []
  else if match rq_instructions r with Some text => MAX_INPUT_CHARS <? len text | None => false end
  then fail "Responses field 'instructions' exceeds {MAX_INPUT_CHARS} characters" [ArgInt MAX_INPUT_CHARS]
  else if match rq_max_output_tokens r with Some n => (n =? 0) || (MAX_OUTPUT_TOKENS <? n) | None => false end
  then fail "Responses field 'max_output_tokens' must be between 1 and {MAX_OUTPUT_TOKENS}" [ArgInt MAX_OUTPUT_TOKENS]
  else if match rq_temperature r with
          | Some t => negb (f64_is_finite t) || negb (f64_in_range f64_zero (f64_of_Z 2) t)
          | None => false
          end
  then fail "Responses field 'temperature' must be between 0 and 2" []
  else if rq_store r then fail "Responses field 'store' must be false" []
  else Ok ().

Definition translate_input (r : ResponsesRequest number) (metadata : ToolMetadata) : result Conversation message :=
  let start := {| cv_messages := []; cv_pending := []; cv_chars := 0 |} in
  let start :=
    match rq_instructions r with
    | Some text => say start text (jo [("role", js "system"); ("content", JString text)])
    | None => start
    end in
  match rq_input r with
  | InputText text => Ok (say start text (jo [("role", js "user"); ("content", JString text)]))
  | InputItems [] => fail "Responses field 'input' must contain at least one item" []
  | InputItems items =>
      if MAX_INPUT_ITEMS <? len items then fail "Responses field 'input' exceeds {MAX_INPUT_ITEMS} items" [ArgInt MAX_INPUT_ITEMS]
      else let? c := try_fold (translate_input_item metadata) start items in Ok (flush_tool_calls c)
  end.

Definition effort_member (r : ResponsesRequest number) : result (list (str * Value number)) message :=
  match rq_reasoning r with
  | None => Ok []
  | Some reasoning =>
      let? effort := validate_reasoning reasoning in
      Ok (optional_member "reasoning_effort" (JString <$> effort))
  end.

Definition tier_member (r : ResponsesRequest number) : result (list (str * Value number)) message :=
  match rq_service_tier r with
  | None => Ok []
  | Some tier =>
      if one_of tier ["auto"; "default"; "flex"; "priority"] then Ok [member "service_tier" (JString tier)]
      else fail "unsupported Responses service_tier '{service_tier}'" [ArgStr tier]
  end.

Definition validate_and_translate (r : ResponsesRequest number) : result (Value number * ToolMetadata) message :=
  let? _ := check_limits r in
  let? _ := validate_codex_controls (rq_stream_options r) (rq_include r) (rq_prompt_cache_key r) (rq_text r) (rq_client_metadata r) in
  let? '(tools, metadata) := translate_tools (rq_tools r) in
  let? tool_choice := responses_tool_choice (rq_tool_choice r) metadata in
  let? c := translate_input r metadata in
  if MAX_INPUT_CHARS <? cv_chars c then fail "Responses input history exceeds {MAX_INPUT_CHARS} characters" [ArgInt MAX_INPUT_CHARS]
  else
    let? effort := effort_member r in
    let? tier := tier_member r in
    Ok (JObject
      ([member "model" (JString (rq_model r)); member "messages" (JArray (cv_messages c)); member "stream" (JBool (rq_stream r))] ++
       match tools with
       | [] => []
       | _ => [member "tools" (JArray tools); member "tool_choice" tool_choice; member "parallel_tool_calls" (JBool (rq_parallel_tool_calls r))]
       end ++
       optional_member "max_tokens" ((fun n => JNumber (number_of_u64 n)) <$> rq_max_output_tokens r) ++
       optional_member "temperature" ((fun t => JNumber (number_of_f64 t)) <$> rq_temperature r) ++ effort ++ tier), metadata).
End Request.

(** ** Wire names *)

(** The number a text of digits denotes. *)
Definition digits_value (acc : Z) (s : str) : Z := foldl (fun v c => v * 10 + (c - 48)) acc s.

Lemma digits_loop_value d n acc : 0 <= n < 10 ^ Z.of_nat (S d) -> digits_value 0 (digits_loop (S d) n acc) = digits_value n acc.
Proof.
  revert n acc. induction d as [|d IH]; intros n acc Hn; cbn [digits_loop].
  - change (10 ^ Z.of_nat 1) with 10 in Hn. destruct (Z.ltb_spec n 10); [|lia]. unfold digits_value. cbn [foldl]. rewrite Z.mod_small by lia. f_equal. lia.
  - destruct (Z.ltb_spec n 10).
    + unfold digits_value. cbn [foldl]. rewrite Z.mod_small by lia. f_equal. lia.
    + change (digits_value 0 (digits_loop (S d) (n / 10) (48 + n mod 10 :: acc)) = digits_value n acc). rewrite IH.
      * unfold digits_value. cbn [foldl]. f_equal. pose proof (Z.div_mod n 10). lia.
      * rewrite Nat2Z.inj_succ, Z.pow_succ_r in Hn by lia. split; [apply Z.div_pos; lia|]. apply Z.div_lt_upper_bound; lia.
Qed.

Lemma digits_loop_digits d n acc : 0 <= n -> Forall (fun c => 48 <= c <= 57) acc -> Forall (fun c => 48 <= c <= 57) (digits_loop d n acc).
Proof.
  revert n acc. induction d as [|d IH]; intros n acc Hn Ha; cbn [digits_loop]; [done|].
  assert (Hc : Forall (fun c => 48 <= c <= 57) (48 + n mod 10 :: acc)) by (constructor; [pose proof (Z.mod_pos_bound n 10); lia|done]).
  destruct (n <? 10); [done|]. apply IH; [apply Z.div_pos; lia|done].
Qed.

Lemma digits_of_inj a b : 0 <= a < 10 ^ 20 -> 0 <= b < 10 ^ 20 -> digits_of a = digits_of b -> a = b.
Proof.
  intros Ha Hb E. change (10 ^ 20) with (10 ^ Z.of_nat 20) in *. apply (f_equal (digits_value 0)) in E. unfold digits_of in E.
  by rewrite !digits_loop_value in E.
Qed.

(** A text cut at its first underscore. *)
Lemma underscore_cut a b s s' : 95 ∉ a -> 95 ∉ b -> a ++ 95 :: s = b ++ 95 :: s' -> a = b.
Proof.
  revert b. induction a as [|x a IH]; intros [|y b] Ha Hb; cbn [app]; [done|..].
  - intros [= <- _]. by destruct Hb; left.
  - intros [= -> _]. by destruct Ha; left.
  - intros [= <- E]. f_equal. apply IH; [by intros Hx; apply Ha; right|by intros Hx; apply Hb; right|done].
Qed.

(** The names the gateway makes up. *)
Definition made_up (index : Z) (suffix : str) : str := lit "wf_" ++ digits_of index ++ lit "_" ++ suffix.

Lemma made_up_inj i j s s' : 0 <= i < 10 ^ 20 -> 0 <= j < 10 ^ 20 -> made_up i s = made_up j s' -> i = j.
Proof.
  intros Hi Hj E. unfold made_up in E. apply app_inv_head in E. cbn [lit] in E. apply digits_of_inj; [done|done|].
  assert (Hno : forall n, 0 <= n -> 95 ∉ digits_of n).
  { intros n Hn Hin. pose proof (digits_loop_digits 20 n [] Hn ltac:(constructor)) as Hd. rewrite Forall_forall in Hd. apply Hd in Hin. lia. }
  by apply (underscore_cut _ _ s s'); [apply Hno; lia|apply Hno; lia|].
Qed.

Definition reserved_name (s : str) : Prop := exists i suffix, 0 <= i /\ s = made_up i suffix.

Section Names.
Context {number : Type} `{JsonNumber number, JsonText number, JsonBuild number}.
Implicit Types (metadata : ToolMetadata) (tool : list (str * Value number)).

(** The name under which a translated tool is offered to the upstream. *)
Definition wire_of (v : Value number) : option str := members ← as_object v; f ← get_object members "function"; get_str f "name".

(** The tools translated so far: distinct names, each with its identity, made
    up from an earlier position or not reserved. *)
Record named (nm_wires : list str) (tools : list (Value number) * ToolMetadata) : Prop := {
  nm_of : map wire_of (fst tools) = map Some nm_wires;
  nm_distinct : NoDup nm_wires;
  nm_known : forall w, w ∈ nm_wires <-> is_Some (snd tools !! w);
  nm_shape : Forall (fun w => ~ reserved_name w \/ exists i s, 0 <= i < len (fst tools) /\ w = made_up i s) nm_wires;
  nm_bound : len (fst tools) <= MAX_TOOLS;
}.

Lemma chat_tool_name_spec namespace name index existing :
  (chat_tool_name namespace name index existing = name /\ namespace = None /\ existing !! name = None) \/
  exists suffix, chat_tool_name namespace name index existing = made_up index suffix.
Proof.
  unfold chat_tool_name. destruct (_ && _) eqn:E; [|right; by eexists]. left.
  apply andb_true_iff in E as [E He%bool_decide_eq_true]. apply andb_true_iff in E as [E _]. apply andb_true_iff in E as [Hn%bool_decide_eq_true _]. done.
Qed.

Lemma reserved_prefix s : reserved_name s -> lit "wf_" `prefix_of` s.
Proof. intros (i & suffix & _ & ->). by eexists. Qed.

(** A made-up name for the next position is new. *)
Lemma made_up_new wires tools suffix : named wires tools -> len (fst tools) < MAX_TOOLS -> made_up (len (fst tools)) suffix ∉ wires.
Proof.
  intros Ht Hlt Hin. pose proof (nm_shape _ _ Ht) as Hs. rewrite Forall_forall in Hs. pose proof (len_nonneg (fst tools)) as Hpos.
  unfold MAX_TOOLS in *. destruct (Hs _ Hin) as [Hr|(i & s' & Hi & E)].
  - apply Hr. by exists (len (fst tools)), suffix.
  - apply made_up_inj in E; lia.
Qed.

Lemma named_add wires tools wire function identity : named wires tools -> len (fst tools) < MAX_TOOLS -> wire ∉ wires ->
  (~ reserved_name wire \/ exists s, wire = made_up (len (fst tools)) s) ->
  wire_of (jo [("type", js "function"); ("function", function)]) = Some wire ->
  named (wires ++ [wire]) (fst tools ++ [jo [("type", js "function"); ("function", function)]], <[wire := identity]> (snd tools)).
Proof.
  intros [Hof Hd Hk Hs Hb] Hlt Hnew Hshape Hw. pose proof (len_nonneg (fst tools)) as Hpos. constructor; cbn [fst snd].
  - rewrite !map_app, Hof. cbn [map]. by rewrite Hw.
  - apply NoDup_app. split_and!; [done| |repeat constructor; apply not_elem_of_nil]. intros x Hx ->%list_elem_of_singleton. done.
  - intros w. rewrite elem_of_app, Hk, list_elem_of_singleton, lookup_insert_is_Some. split.
    + intros [Hw' | ->]; [|by left]. destruct (decide (wire = w)) as [->|Hne]; [by left|by right].
    + intros [->|[_ Hy]]; [by right|by left].
  - apply Forall_app. split.
    + eapply Forall_impl; [exact Hs|]. intros w [Hw' | (i & s & Hi & Hw')]; [by left|right; exists i, s]. rewrite len_app. split; [|done].
      pose proof (len_nonneg [jo [("type", js "function"); ("function", function)]]). lia.
    + apply Forall_singleton. destruct Hshape as [Hr|[s ->]]; [by left|right]. exists (len (fst tools)), s.
      split; [unfold len in *; rewrite length_app; cbn [length]; lia|done].
  - unfold len in *. rewrite length_app. cbn [length]. lia.
Qed.

Definition plainly_named tool : Prop := forall name, get_str tool "name" = Some name -> ~ lit "wf_" `prefix_of` name.

Lemma translate_one_tool_named wires tools tool namespace custom tools' : named wires tools -> (namespace = None -> plainly_named tool) ->
  translate_one_tool tool namespace custom tools = Ok tools' -> exists wires', named wires' tools'.
Proof.
  intros Ht Hplain. destruct tools as [translated metadata]. unfold translate_one_tool. destruct (Z.leb_spec MAX_TOOLS (len translated)) as [|Hlt]; [done|].
  intros (name & Hname & Hr)%result_bind_ok. destruct (128 <? str_len name); [done|]. destruct (match get tool "description" with Some d => _ | None => _ end); [done|].
  cbv zeta in Hr. apply result_bind_ok in Hr as (parameters & _ & Hr). apply result_bind_ok in Hr as (strict & _ & Hr). injection Hr as <-.
  set (wire := chat_tool_name namespace name (len translated) metadata).
  exists (wires ++ [wire]). apply (named_add wires (translated, metadata) wire); [done|done| | |done]; cbn [fst];
    destruct (chat_tool_name_spec namespace name (len translated) metadata) as [(E & En & Hfree)|[suffix E]]; fold wire in E; rewrite E.
  - rewrite (nm_known _ _ Ht). cbn [snd]. rewrite Hfree. by intros [? ?].
  - by apply (made_up_new wires (translated, metadata)).
  - left. intros Hres%reserved_prefix. revert Hname. unfold required_string. destruct (get_str tool "name") as [n|] eqn:Eg; cbn [mbind option_bind]; [|done].
    destruct (bool_decide (n = [])); [done|]. intros [= ->]. by apply (Hplain En name).
  - right. by exists suffix.
Qed.

Lemma try_fold_named {A} (f : list (Value number) * ToolMetadata -> A -> result (list (Value number) * ToolMetadata) message) l tools tools' :
  (forall a tools tools', a ∈ l -> (exists wires, named wires tools) -> f tools a = Ok tools' -> exists wires, named wires tools') ->
  (exists wires, named wires tools) -> try_fold f tools l = Ok tools' -> exists wires, named wires tools'.
Proof.
  revert tools. induction l as [|a l IH]; intros tools Hf Ht; cbn [try_fold]; [by intros [= <-]|].
  intros (tools1 & H1' & H2')%result_bind_ok. eapply (IH tools1); [|by eapply Hf; [left|done|done]|done].
  intros a' t t' Ha'. apply Hf. by right.
Qed.

(** No function or custom tool of a request takes a reserved name. *)
Definition plain_tools (tools : list (Value number)) : Prop :=
  Forall (fun tool : Value number => forall members, as_object tool = Some members -> get_str members "type" <> Some (lit "namespace") -> plainly_named members) tools.

Lemma translate_entry_named tools (tool : Value number) tools' : (forall members, as_object tool = Some members -> get_str members "type" <> Some (lit "namespace") -> plainly_named members) ->
  (exists wires, named wires tools) -> translate_tool_entry tools tool = Ok tools' -> exists wires, named wires tools'.
Proof.
  intros Hp [wires Ht]. unfold translate_tool_entry, object_or. intros (members & Hm & Hr)%result_bind_ok.
  destruct (as_object tool) as [ms|] eqn:Ems; cbn [ok_or] in Hm; [|done]. injection Hm as ->. specialize (Hp members eq_refl).
  apply result_bind_ok in Hr as (kind & Hkind & Hr).
  assert (Hty : get_str members "type" = Some kind).
  { revert Hkind. unfold required_string. destruct (get_str members "type") as [k|]; cbn [mbind option_bind]; [|done]. destruct (bool_decide (k = [])); [done|]. by intros [= ->]. }
  destruct (str_eqb kind (lit "function")) eqn:E1.
  { apply str_eqb_eq in E1 as ->. eapply translate_one_tool_named; [exact Ht| |exact Hr]. intros _. apply Hp. by rewrite Hty. }
  destruct (str_eqb kind (lit "custom")) eqn:E2.
  { apply str_eqb_eq in E2 as ->. eapply translate_one_tool_named; [exact Ht| |exact Hr]. intros _. apply Hp. by rewrite Hty. }
  destruct (str_eqb kind (lit "namespace")); [|done].
  apply result_bind_ok in Hr as (u & _ & Hr). apply result_bind_ok in Hr as (namespace & _ & Hr). apply result_bind_ok in Hr as (nested & _ & Hr).
  eapply try_fold_named; [|by exists wires|exact Hr]. intros n t t' _ [w Hw]. unfold translate_nested. destruct (MAX_TOOLS <=? len (fst t)); [done|].
  intros (nm & _ & Hn)%result_bind_ok. apply result_bind_ok in Hn as (k & _ & Hn).
  destruct (str_eqb k (lit "function")); [by eapply translate_one_tool_named; [exact Hw| |exact Hn]|].
  destruct (str_eqb k (lit "custom")); [by eapply translate_one_tool_named; [exact Hw| |exact Hn]|done].
Qed.

Lemma translate_tools_named tools tools' : plain_tools tools -> translate_tools tools = Ok tools' -> exists wires, named wires tools'.
Proof.
  intros Hp. unfold translate_tools. destruct (MAX_TOOLS <? len tools); [done|]. apply try_fold_named.
  - intros tool t t' Hin. apply translate_entry_named. unfold plain_tools in Hp. rewrite Forall_forall in Hp. by apply Hp.
  - exists []. constructor; cbn [fst snd]; [done|constructor| |constructor|].
    + intros w. rewrite lookup_empty. split; [by intros ?%not_elem_of_nil|by intros [? ?]].
    + rewrite len_nil. unfold MAX_TOOLS. lia.
Qed.
End Names.

(** C19: No two tools of a request share the name under which the upstream sees
    them, and each name is known to the metadata that translates the calls back,
    unless the client names a tool like the names the gateway makes up
    ([wf_..]); there are at most [MAX_TOOLS] of them, namespaces included. *)
Theorem wire_names_distinct {number : Type} `{JsonNumber number, JsonText number, JsonBuild number} tools translated metadata :
  plain_tools (number := number) tools -> translate_tools tools = Ok (translated, metadata) ->
  exists wires, map wire_of translated = map Some wires /\ NoDup wires /\
    (forall w, w ∈ wires <-> is_Some (metadata !! w)) /\ len translated <= MAX_TOOLS.
Proof. intros Hp Ht. destruct (translate_tools_named tools _ Hp Ht) as (wires & [Hof Hd Hk _ Hb]). by exists wires. Qed.

(** ** Examples *)
Definition function_tool (name : string) : Value Z :=
  jo [("type", js "function"); ("name", js name); ("parameters", JObject [])]%string.
Definition namespace_tool (namespace name : string) : Value Z :=
  jo [("type", js "namespace"); ("name", js namespace); ("tools", JArray [function_tool name])]%string.

#[local] Instance integer_build : JsonBuild Z := {| number_of_u64 := fun n => n; number_of_f64 := fun _ => 0 |}.

Definition sample_tools : list (Value Z) := [function_tool "read"; namespace_tool "files" "read"; namespace_tool "web" "read"].

Definition sample_wires : list str := [lit "read"; lit "wf_1_read"; lit "wf_2_read"].

Definition tools_of (tools : list (Value Z)) : list (Value Z) * ToolMetadata :=
  match translate_tools tools with Ok t => t | Err _ => ([], ∅) end.

Example sample_tools_ok : translate_tools sample_tools = Ok (fst (tools_of sample_tools), snd (tools_of sample_tools)).
Proof. vm_compute. reflexivity. Qed.

Example sample_tools_plain : plain_tools sample_tools.
Proof.
  unfold plain_tools, sample_tools. repeat constructor; intros members [= <-] Ht name [= <-] [suffix E]; [by vm_compute in E|by destruct Ht..].
Qed.

Lemma wire_names_distinct_witness : exists wires, map wire_of (fst (tools_of sample_tools)) = map Some wires /\ NoDup wires /\
  (forall w, w ∈ wires <-> is_Some (snd (tools_of sample_tools) !! w)) /\ len (fst (tools_of sample_tools)) <= MAX_TOOLS.
Proof. exact (wire_names_distinct _ _ _ sample_tools_plain sample_tools_ok). Defined.

(** A tool named like a made-up name: the upstream is offered two tools of one
    name, and the metadata keeps one of them. *)
Example made_up_name_collides :
  let '(translated, metadata) := tools_of [function_tool "wf_1_read"; namespace_tool "files" "read"] in
  map wire_of translated = [Some (lit "wf_1_read"); Some (lit "wf_1_read")] /\ size metadata = 1%nat /\
  ti_namespace (identity_of metadata (lit "wf_1_read")) = Some (lit "files").
Proof. vm_compute. done. Qed.

(** A tool choice that names a tool of two namespaces picks the first one in the
    order of the map, which is not determined. *)
Example tool_choice_depends_on_order :
  let metadata := snd (tools_of [namespace_tool "files" "read"; namespace_tool "web" "read"]) in
  let choice := jo [("type", js "function"); ("name", js "read")]%string : Value Z in
  let forwards m := map_to_list (M := ToolMetadata) m in
  let backwards m := rev (map_to_list (M := ToolMetadata) m) in
  (exists a, responses_tool_choice forwards choice metadata = Ok a) /\
  responses_tool_choice forwards choice metadata <> responses_tool_choice backwards choice metadata.
Proof. split; [vm_compute; by eexists|]. vm_compute. discriminate. Qed.
