(* ===== verification/ResponsesStream.v ===== *)
(** * Responses answers (crate [wayfinder-gateway], [src/responses.rs])

    The answer of the chat request as a Responses object, buffered
    ([responses_buffered]) or as a stream of events ([ResponsesStreamRelay] and
    the loop of [responses_streaming]).  The relay's queue of frames is apart
    from its other fields: an operation returns the frames it pushes.  The clock
    is read once per object, the argument [now]. *)
From S2P Require Export Sse Responses.

(** A Responses event; [frame_value] is its payload. *)
Inductive RelayFrame :=
| CreatedFrame
| TextDeltaFrame (text : str)
| MessageDoneFrame (text : str)
| CallDoneFrame (index : Z) (call : ChatToolCall)
| CompletedFrame (output : str) (calls : list ChatToolCall) (usage : option Usage)
| FailedFrame (output : str) (calls : list ChatToolCall) (usage : option Usage) (error : message)
| FallbackFrame.

(** ** Objects *)
Section Objects.
Context {number : Type} `{JsonNumber number, JsonText number, JsonBuild number}.
Context (response_id : str) (metadata : ToolMetadata).
Implicit Types (v : Value number).

(** [value.get(name)], for any value. *)
Definition field v (name : string) : option (Value number) := value_get v (lit name).

Definition message_output (text : str) (status : string) : Value number :=
  jo [("id", JString (lit "msg_" ++ response_id)); ("type", js "message"); ("status", js status); ("role", js "assistant");
      ("content", JArray [jo [("type", js "output_text"); ("text", JString text); ("annotations", JArray [])]])].

Definition custom_input (arguments : str) : str :=
  default arguments (v ← json_from_str arguments; input ← field v "input"; as_str input).

Definition tool_call_output (index : Z) (call : ChatToolCall) : Value number :=
  let identity := identity_of metadata (ct_name call) in
  let tag (prefix : string) := lit prefix ++ response_id ++ lit "_" ++ digits_of index in
  let call_id := if bool_decide (ct_id call = []) then tag "call_"%string else ct_id call in
  let namespace := optional_member "namespace" (JString <$> ti_namespace identity) in
  if ti_custom identity then
    JObject ([member "id" (JString (tag "ctc_"%string)); member "type" (js "custom_tool_call"); member "status" (js "completed");
              member "name" (JString (ti_name identity)); member "input" (JString (custom_input (ct_arguments call)));
              member "call_id" (JString call_id)] ++ namespace)
  else
    JObject ([member "id" (JString (tag "fc_"%string)); member "type" (js "function_call"); member "status" (js "completed");
              member "name" (JString (ti_name identity)); member "arguments" (JString (ct_arguments call));
              member "call_id" (JString call_id)] ++ namespace).

Definition usage_members (usage : option Usage) : list (str * Value number) :=
  optional_member "usage"
    ((fun u => jo [("input_tokens", JNumber (number_of_u64 (us_input_tokens u))); ("output_tokens", JNumber (number_of_u64 (us_output_tokens u)));
                   ("total_tokens", JNumber (number_of_u64 (us_total_tokens u)))]) <$> usage).

Definition response_output (text : str) (calls : list ChatToolCall) (status : string) : list (Value number) :=
  (if bool_decide (text = []) then [] else [message_output text status]) ++
  imap (fun index call => tool_call_output (Z.of_nat index) call) calls.

Definition response_value (now : Z) (model text : str) (calls : list ChatToolCall) (usage : option Usage) (status : string) : Value number :=
  JObject ([member "id" (JString (lit "resp_" ++ response_id)); member "object" (js "response");
            member "created_at" (JNumber (number_of_u64 now)); member "status" (js status); member "model" (JString model);
            member "output" (JArray (response_output text calls status))] ++ usage_members usage).

(** The event name and the payload of a frame; [render] prints an error. *)
Definition relay_frame_value (now : Z) (model : str) (render : message -> str) (f : RelayFrame) : string * Value number :=
  let typed (kind : string) members := (kind, JObject (member "type" (js kind) :: members)) in
  let failure text := member "error" (jo [("type", js "wayfinder_router_upstream_error"); ("message", JString text)]) in
  match f with
  | CreatedFrame => typed "response.created"%string [member "response" (response_value now model [] [] None "in_progress")]
  | TextDeltaFrame text => typed "response.output_text.delta"%string [member "response_id" (JString response_id); member "delta" (JString text)]
  | MessageDoneFrame text => typed "response.output_item.done"%string [member "item" (message_output text "completed")]
  | CallDoneFrame index call => typed "response.output_item.done"%string [member "item" (tool_call_output index call)]
  | CompletedFrame output calls usage =>
      typed "response.completed"%string [member "response" (response_value now model output calls usage "completed")]
  | FailedFrame output calls usage error =>
      typed "response.failed"%string [member "response" (response_value now model output calls usage "failed"); failure (render error)]
  | FallbackFrame => typed "response.failed"%string [failure (lit "Responses stream failed before a terminal event was available")]
  end.

(** [frame]: the bytes of an event. *)
Definition frame (event : string) (v : Value number) : list Z :=
  let payload :=
    default (map (fun c => if c =? 39 then 34 else c) (lit "{'type':'response.failed','error':{'message':'serialization failure'}}"))
      (json_to_string v) in
  as_bytes (lit "event: " ++ lit event ++ [10] ++ lit "data: " ++ payload ++ [10; 10]).

(** ** Reading the chat answer *)
Definition extract_usage v : option Usage :=
  usage ← field v "usage";
  input ← (match field usage "prompt_tokens" with Some n => Some n | None => field usage "input_tokens" end) ≫= as_u64;
  output ← (match field usage "completion_tokens" with Some n => Some n | None => field usage "output_tokens" end) ≫= as_u64;
  Some {| us_input_tokens := input; us_output_tokens := output; us_total_tokens := u64_sat_add input output |}.

Definition first_message v : option (Value number) :=
  choices ← field v "choices" ≫= as_array; choice ← head choices; field choice "message".

Definition extract_chat_text v : str :=
  match (m ← first_message v; field m "content") with
  | Some (JString text) => text
  | Some (JArray parts) => mjoin (omap (fun part => field part "text" ≫= as_str) parts)
  | _ => []
  end.

Definition buffered_call (call : Value number) : option ChatToolCall :=
  function ← field call "function";
  name ← field function "name" ≫= as_str;
  Some {| ct_id := default [] (field call "id" ≫= as_str); ct_name := name;
          ct_arguments := default (lit "{}") (field function "arguments" ≫= as_str) |}.

Definition extract_buffered_tool_calls v : list ChatToolCall :=
  match (m ← first_message v; calls ← field m "tool_calls"; as_array calls) with Some calls => omap buffered_call calls | None => [] end.

Definition call_chars (call : ChatToolCall) : Z := len (ct_id call) + len (ct_name call) + len (ct_arguments call).

Definition tool_calls_chars (calls : list ChatToolCall) : Z :=
  foldl (fun total call => u64_sat_add (u64_sat_add (u64_sat_add total (len (ct_id call))) (len (ct_name call))) (len (ct_arguments call))) 0 calls.

(** ** A buffered answer *)
Inductive Buffered :=
| PassedOn
| BadGateway (error : message)
| Answered (text : str) (calls : list ChatToolCall) (usage : option Usage).

(** [responses_buffered], on the inner status and body. *)
Definition responses_buffered (success : bool) (body : list Z) : Buffered :=
  if negb success then PassedOn
  else match from_slice body with
  | Err error => BadGateway (Msg "Responses upstream returned invalid JSON: {error}" [ArgStr error])
  | Ok v =>
      if bool_decide (is_Some (field v "wayfinder")) && bool_decide (field v "choices" = None) then PassedOn
      else
        let text := extract_chat_text v in
        if MAX_OUTPUT_CHARS <? len text then BadGateway (Msg "Responses output exceeds {MAX_OUTPUT_CHARS} characters" [ArgInt MAX_OUTPUT_CHARS])
        else
          let calls := extract_buffered_tool_calls v in
          let output_chars := u64_sat_add (len text) (tool_calls_chars calls) in
          if (MAX_TOOLS <? len calls) || (MAX_OUTPUT_CHARS <? output_chars)
          then BadGateway (Msg "Responses tool output exceeds the bounded contract" [])
          else Answered text calls (extract_usage v)
  end.
End Objects.

(** ** The relay *)
Record ResponsesStreamRelay := {
  rl_decoder : SseDecoder;
  rl_output : str;
  rl_tool_calls : gmap Z ChatToolCall;
  rl_tool_output_chars : Z;
  rl_usage : option Usage;
  rl_terminal : bool;
  rl_event_count : Z;
}.

Notation relay := ResponsesStreamRelay.

Definition relay_new : relay :=
  {| rl_decoder := default_decoder; rl_output := []; rl_tool_calls := ∅; rl_tool_output_chars := 0; rl_usage := None; rl_terminal := false;
     rl_event_count := 0 |}.

Definition rl_set_decoder (r : relay) (d : SseDecoder) : relay :=
  {| rl_decoder := d; rl_output := rl_output r; rl_tool_calls := rl_tool_calls r; rl_tool_output_chars := rl_tool_output_chars r;
     rl_usage := rl_usage r; rl_terminal := rl_terminal r; rl_event_count := rl_event_count r |}.

Definition rl_set_output (r : relay) (output : str) : relay :=
  {| rl_decoder := rl_decoder r; rl_output := output; rl_tool_calls := rl_tool_calls r; rl_tool_output_chars := rl_tool_output_chars r;
     rl_usage := rl_usage r; rl_terminal := rl_terminal r; rl_event_count := rl_event_count r |}.

Definition rl_set_calls (r : relay) (calls : gmap Z ChatToolCall) (chars : Z) : relay :=
  {| rl_decoder := rl_decoder r; rl_output := rl_output r; rl_tool_calls := calls; rl_tool_output_chars := chars;
     rl_usage := rl_usage r; rl_terminal := rl_terminal r; rl_event_count := rl_event_count r |}.

Definition rl_set_usage (r : relay) (usage : option Usage) : relay :=
  {| rl_decoder := rl_decoder r; rl_output := rl_output r; rl_tool_calls := rl_tool_calls r; rl_tool_output_chars := rl_tool_output_chars r;
     rl_usage := usage; rl_terminal := rl_terminal r; rl_event_count := rl_event_count r |}.

Definition rl_set_progress (r : relay) (terminal : bool) (count : Z) : relay :=
  {| rl_decoder := rl_decoder r; rl_output := rl_output r; rl_tool_calls := rl_tool_calls r; rl_tool_output_chars := rl_tool_output_chars r;
     rl_usage := rl_usage r; rl_terminal := terminal; rl_event_count := count |}.

(** The calls in the order of a [BTreeMap]. *)
Definition by_index (a b : Z * ChatToolCall) : Prop := a.1 <= b.1.

#[export] Instance by_index_dec : RelDecision by_index.
Proof. intros a b. unfold by_index. apply _. Defined.

Definition ordered_calls (r : relay) : list (Z * ChatToolCall) := merge_sort by_index (map_to_list (rl_tool_calls r)).

Definition relay_complete (r : relay) : relay * list RelayFrame :=
  if rl_terminal r then (r, [])
  else
    (rl_set_progress r true (rl_event_count r),
     (if bool_decide (rl_output r = []) then [] else [MessageDoneFrame (rl_output r)]) ++
     map (fun '(index, call) => CallDoneFrame index call) (ordered_calls r) ++
     [CompletedFrame (rl_output r) (map snd (ordered_calls r)) (rl_usage r)]).

Definition relay_fail (r : relay) (error : message) : relay * list RelayFrame :=
  if rl_terminal r then (r, [])
  else (rl_set_progress r true (rl_event_count r), [FailedFrame (rl_output r) (map snd (ordered_calls r)) (rl_usage r) error]).

Definition empty_call : ChatToolCall := {| ct_id := []; ct_name := []; ct_arguments := [] |}.

Definition append_to_call (c : ChatToolCall) (id name arguments : str) : ChatToolCall :=
  {| ct_id := ct_id c ++ id; ct_name := ct_name c ++ name; ct_arguments := ct_arguments c ++ arguments |}.

Section Relay.
Context {number : Type} `{JsonNumber number, JsonText number}.
Implicit Types (r : relay) (v : Value number).

(** The pieces of a tool call delta; an absent one is empty. *)
Definition accumulate_tool_call r (call : Value number) : relay * result unit message :=
  match as_object call with
  | None => (r, Err (Msg "Responses upstream returned a non-object tool call delta" []))
  | Some call =>
      let index := default 0 (get call "index" ≫= as_u64) in
      if bool_decide (rl_tool_calls r !! index = None) && (MAX_TOOLS <=? Z.of_nat (size (rl_tool_calls r)))
      then (r, Err (Msg "Responses stream exceeds {MAX_TOOLS} tool calls" [ArgInt MAX_TOOLS]))
      else
        let entry := default empty_call (rl_tool_calls r !! index) in
        let id := default [] (get_str call "id") in
        let function := get_object call "function" in
        let name := default [] (f ← function; get_str f "name") in
        let arguments := default [] (f ← function; get_str f "arguments") in
        let chars := u64_sat_add (u64_sat_add (u64_sat_add (rl_tool_output_chars r) (len id)) (len name)) (len arguments) in
        let r := rl_set_calls r (<[index := append_to_call entry id name arguments]> (rl_tool_calls r)) chars in
        if MAX_OUTPUT_CHARS <? u64_sat_add (len (rl_output r)) (rl_tool_output_chars r)
        then (r, Err (Msg "Responses stream exceeds {MAX_OUTPUT_CHARS} output characters" [ArgInt MAX_OUTPUT_CHARS]))
        else (r, Ok ())
  end.

Fixpoint accumulate_tool_calls r (calls : list (Value number)) : relay * result unit message :=
  match calls with
  | [] => (r, Ok ())
  | call :: calls => match accumulate_tool_call r call with (r, Ok _) => accumulate_tool_calls r calls | (r, Err e) => (r, Err e) end
  end.

Definition relay_text r (delta : Value number) : relay * list RelayFrame :=
  match field delta "content" ≫= as_str with
  | None => (r, [])
  | Some text =>
      if bool_decide (text = []) then (r, [])
      else if MAX_OUTPUT_CHARS <? u64_sat_add (u64_sat_add (len (rl_output r)) (rl_tool_output_chars r)) (len text)
      then relay_fail r (Msg "Responses stream exceeds {MAX_OUTPUT_CHARS} output characters" [ArgInt MAX_OUTPUT_CHARS])
      else (rl_set_output r (rl_output r ++ text), [TextDeltaFrame text])
  end.

Definition process_choice r (choice : Value number) : relay * list RelayFrame :=
  match field choice "delta" with
  | None => (r, [])
  | Some delta =>
      let '(r, accumulated) :=
        match field delta "tool_calls" ≫= as_array with Some calls => accumulate_tool_calls r calls | None => (r, Ok ()) end in
      match accumulated with Err e => relay_fail r e | Ok _ => relay_text r delta end
  end.

(** A loop that a failure leaves; each round appends its frames. *)
Fixpoint until_terminal {A} (step : relay -> A -> relay * list RelayFrame) r (l : list A) : relay * list RelayFrame :=
  match l with
  | [] => (r, [])
  | a :: l =>
      if rl_terminal r then (r, [])
      else let '(r, frames) := step r a in let '(r, rest) := until_terminal step r l in (r, frames ++ rest)
  end.

Definition process_event r (event : SseEvent) : relay * list RelayFrame :=
  let r := rl_set_progress r (rl_terminal r) (u64_sat_add (rl_event_count r) 1) in
  if MAX_STREAM_EVENTS <? rl_event_count r
  then relay_fail r (Msg "Responses stream exceeds {MAX_STREAM_EVENTS} upstream events" [ArgInt MAX_STREAM_EVENTS])
  else if str_eqb (ev_data event) (lit "[DONE]") then relay_complete r
  else match from_slice (as_bytes (ev_data event)) with
  | Err error => relay_fail r (Msg "Responses upstream returned invalid SSE JSON: {error}" [ArgStr error])
  | Ok v =>
      match field v "error" with
      | Some error => relay_fail r (Msg "{}" [ArgStr (default (lit "upstream error") (field error "message" ≫= as_str))])
      | None =>
          let r := match extract_usage v with Some usage => rl_set_usage r (Some usage) | None => r end in
          match field v "choices" ≫= as_array with
          | None => (r, [])
          | Some choices => until_terminal process_choice r choices
          end
      end
  end.

Definition relay_process_events r (events : list SseEvent) : relay * list RelayFrame := until_terminal process_event r events.

(** ** The stream of [responses_streaming] *)
Inductive Upstream :=
| UpstreamChunk (chunk : list Z)
| UpstreamError (error : str).

Definition decode_failed (e : SseDecodeError) : message := Msg "Responses SSE decode failed: {error}" [].

(** What one item of the upstream body makes the relay push. *)
Definition take_item r (item : Upstream) : relay * list RelayFrame :=
  match item with
  | UpstreamChunk chunk =>
      let '(d, decoded) := Sse.push (rl_decoder r) chunk in
      let r := rl_set_decoder r d in
      match decoded with Ok events => relay_process_events r events | Err e => relay_fail r (decode_failed e) end
  | UpstreamError error => relay_fail r (Msg "Responses upstream stream failed: {error}" [ArgStr error])
  end.

(** The end of the upstream body. *)
Definition take_end r : relay * list RelayFrame :=
  let '(d, decoded) := Sse.finish (rl_decoder r) in
  let r := rl_set_decoder r d in
  let '(r, frames) := match decoded with Ok events => relay_process_events r events | Err e => relay_fail r (decode_failed e) end in
  let '(r, rest) := relay_complete r in
  (r, frames ++ rest).

(** [loop { match relay.upstream.next().await .. }]: reads until there is a
    frame; the queue is empty when it starts. *)
Fixpoint advance r (upstream : list Upstream) : relay * list RelayFrame * list Upstream :=
  match upstream with
  | [] => let '(r, frames) := take_end r in (r, frames, [])
  | item :: upstream =>
      let '(r, frames) := take_item r item in
      match frames, item with
      | [], UpstreamChunk _ => advance r upstream
      | [], UpstreamError _ => (r, [FallbackFrame], upstream)
      | _, _ => (r, frames, upstream)
      end
  end.

(** One call of the [unfold] closure: a frame, or the end of the stream. *)
Definition relay_next (s : relay * list RelayFrame * list Upstream) : option (RelayFrame * (relay * list RelayFrame * list Upstream)) :=
  let '(r, pending, upstream) := s in
  match pending with
  | f :: pending => Some (f, (r, pending, upstream))
  | [] =>
      if rl_terminal r then None
      else
        let '(r, pending, upstream) := advance r upstream in
        match pending with f :: pending => Some (f, (r, pending, upstream)) | [] => None end
  end.

Definition relay_start (upstream : list Upstream) : relay * list RelayFrame * list Upstream := (relay_new, [CreatedFrame], upstream).

(** The frames of at most [n] calls, when the stream ends within them. *)
Fixpoint relay_frames (n : nat) (s : relay * list RelayFrame * list Upstream) : option (list RelayFrame) :=
  match n with
  | O => None
  | S n => match relay_next s with None => Some [] | Some (f, s) => cons f <$> relay_frames n s end
  end.
End Relay.

(** ** The shape of a stream *)

(** The frames that close a stream whose text is [output]. *)
Definition closing (output : str) (tail : list RelayFrame) : Prop := exists calls usage, len calls <= MAX_TOOLS /\
  (tail = (if bool_decide (output = []) then [] else [MessageDoneFrame output]) ++ map (fun '(index, call) => CallDoneFrame index call) calls ++
          [CompletedFrame output (map snd calls) usage] \/
   exists error, tail = [FailedFrame output (map snd calls) usage error]).

Definition within (r : relay) : Prop :=
  0 <= rl_tool_output_chars r /\ len (rl_output r) <= MAX_OUTPUT_CHARS /\ Z.of_nat (size (rl_tool_calls r)) <= MAX_TOOLS.

(** What an operation on a live relay pushes: text in order, then, when it ends
    the stream, the closing frames. *)
Definition moves (r : relay) (out : relay * list RelayFrame) : Prop := rl_terminal r = false -> within r ->
  within (fst out) /\
  exists texts tail, snd out = map TextDeltaFrame texts ++ tail /\ Forall (fun t => t <> []) texts /\
    rl_output (fst out) = rl_output r ++ mjoin texts /\ (if rl_terminal (fst out) then closing (rl_output (fst out)) tail else tail = []).

Lemma moves_quiet r r' : within r' \/ (within r -> within r') -> rl_output r' = rl_output r -> rl_terminal r' = rl_terminal r -> moves r (r', []).
Proof.
  intros Hw Ho Ht Hlive Hr. cbn [fst snd]. split; [tauto|]. exists [], []. rewrite Ht, Hlive, Ho. split_and!; [done|constructor| |done]. by rewrite app_nil_r.
Qed.

(** An operation that only touches what [within] and the frames do not see. *)
Lemma moves_from r r0 out : rl_terminal r0 = rl_terminal r -> rl_output r0 = rl_output r -> (within r -> within r0) -> moves r0 out -> moves r out.
Proof. intros Ht Ho Hw Hm Hlive Hr. unfold moves in Hm. rewrite Ht, Ho in Hm. auto. Qed.

Lemma moves_then r r1 f1 r2 f2 : moves r (r1, f1) -> (rl_terminal r1 = true -> r2 = r1 /\ f2 = []) -> (rl_terminal r1 = false -> moves r1 (r2, f2)) ->
  moves r (r2, f1 ++ f2).
Proof.
  intros H1 Hend Hgo Hlive Hr. destruct (H1 Hlive Hr) as (Hw1 & texts1 & tail1 & E1 & Hne1 & Ho1 & Hc1). cbn [fst snd] in *.
  destruct (rl_terminal r1) eqn:Et.
  - destruct (Hend eq_refl) as [-> ->]. rewrite app_nil_r. split; [done|]. exists texts1, tail1. by rewrite Et.
  - subst tail1. destruct (Hgo eq_refl Et Hw1) as (Hw2 & texts2 & tail2 & E2 & Hne2 & Ho2 & Hc2). cbn [fst snd] in *. split; [done|].
    exists (texts1 ++ texts2), tail2. split_and!; [|by apply Forall_app| |done].
    + rewrite E1, E2, map_app, app_nil_r. by rewrite (assoc_L (++)).
    + by rewrite Ho2, Ho1, <- (assoc_L (++)), join_app.
Qed.

Lemma ordered_calls_length r : len (ordered_calls r) = Z.of_nat (size (rl_tool_calls r)).
Proof. unfold len, ordered_calls. rewrite (Permutation_length (merge_sort_Permutation by_index _)). by rewrite length_map_to_list. Qed.

Lemma fail_moves r error : moves r (relay_fail r error).
Proof.
  intros Hlive Hr. unfold relay_fail. rewrite Hlive. cbn [fst snd]. split; [exact Hr|].
  exists [], [FailedFrame (rl_output r) (map snd (ordered_calls r)) (rl_usage r) error]. cbn [rl_set_progress rl_output rl_terminal map mjoin list_join].
  split_and!; [done|constructor|by rewrite app_nil_r|]. exists (ordered_calls r), (rl_usage r). split; [rewrite ordered_calls_length; apply Hr|]. right. by exists error.
Qed.

Lemma complete_moves r : moves r (relay_complete r).
Proof.
  intros Hlive Hr. unfold relay_complete. rewrite Hlive. cbn [fst snd]. split; [exact Hr|]. eexists [], _. cbn [rl_set_progress rl_output rl_terminal map mjoin list_join app].
  split_and!; [done|constructor|by rewrite app_nil_r|]. exists (ordered_calls r), (rl_usage r). split; [rewrite ordered_calls_length; apply Hr|]. by left.
Qed.

Lemma complete_terminal r : rl_terminal (fst (relay_complete r)) = true.
Proof. unfold relay_complete. by destruct (rl_terminal r) eqn:E. Qed.

Lemma fail_terminal r error : rl_terminal (fst (relay_fail r error)) = true.
Proof. unfold relay_fail. by destruct (rl_terminal r) eqn:E. Qed.

Lemma sat_sum_bound a b c : 0 <= a -> 0 <= b -> 0 <= c -> u64_sat_add (u64_sat_add a b) c <= MAX_OUTPUT_CHARS -> a + c <= MAX_OUTPUT_CHARS.
Proof. unfold u64_sat_add, u64_max, MAX_OUTPUT_CHARS. lia. Qed.

Section Shape.
Context {number : Type} `{JsonNumber number, JsonText number}.
Implicit Types (r : relay) (v : Value number).

Lemma until_terminal_moves {A} (step : relay -> A -> relay * list RelayFrame) r l :
  (forall r a, moves r (step r a)) -> moves r (until_terminal step r l).
Proof.
  intros Hs. revert r. induction l as [|a l IH]; intros r; cbn [until_terminal]; [by apply moves_quiet; [right|..]|].
  destruct (rl_terminal r) eqn:Et; [intros Hlive; congruence|]. pose proof (Hs r a) as H1'. destruct (step r a) as [r1 f1]. pose proof (IH r1) as H2'.
  destruct (until_terminal step r1 l) as [r2 f2] eqn:E2. apply (moves_then r r1); [done| |done].
  intros Ht. destruct l; cbn [until_terminal] in E2; [by injection E2 as <- <-|]. rewrite Ht in E2. by injection E2 as <- <-.
Qed.

(** Accumulated calls change neither the text nor the flags. *)
Lemma accumulate_one_ok r (call : Value number) r' e : accumulate_tool_call r call = (r', e) ->
  rl_terminal r' = rl_terminal r /\ rl_output r' = rl_output r /\ (within r -> within r').
Proof.
  unfold accumulate_tool_call. destruct (as_object call) as [members|]; [|by intros [= <- _]]. cbv zeta. set (index := default 0 _).
  destruct (bool_decide (rl_tool_calls r !! index = None) && (MAX_TOOLS <=? Z.of_nat (size (rl_tool_calls r)))) eqn:Ec; [by intros [= <- _]|].
  set (r1 := rl_set_calls _ _ _). intros Hr. assert (Hr' : r' = r1) by (destruct (MAX_OUTPUT_CHARS <? _) in Hr; congruence). subst r'.
  split_and!; [done|done|]. intros (Hc & Ho & Hs). unfold within, r1. cbn [rl_set_calls rl_tool_output_chars rl_output rl_tool_calls]. split_and!; [|done|].
  - unfold u64_sat_add. repeat match goal with |- context [len ?x] => pose proof (len_nonneg x); generalize dependent (len x); intros end. unfold u64_max. lia.
  - rewrite map_size_insert. destruct (rl_tool_calls r !! index) as [c|] eqn:El; [done|].
    rewrite bool_decide_eq_true_2 in Ec by done. cbn [andb] in Ec. apply Z.leb_gt in Ec. unfold MAX_TOOLS in *. lia.
Qed.

Lemma accumulate_ok calls r r' e : accumulate_tool_calls r (calls : list (Value number)) = (r', e) ->
  rl_terminal r' = rl_terminal r /\ rl_output r' = rl_output r /\ (within r -> within r').
Proof.
  revert r. induction calls as [|call calls IH]; intros r; cbn [accumulate_tool_calls]; [by intros [= <- _]|].
  destruct (accumulate_tool_call r call) as [r1 [u|err]] eqn:E1; apply accumulate_one_ok in E1 as (Ht & Ho & Hw).
  - intros (Ht2 & Ho2 & Hw2)%IH. split_and!; [congruence|congruence|auto].
  - by intros [= <- _].
Qed.

Lemma relay_text_moves r v : moves r (relay_text r v).
Proof.
  unfold relay_text. destruct (field v "content" ≫= as_str) as [text|]; [|by apply moves_quiet; [right|..]].
  case_bool_decide as Et; [by apply moves_quiet; [right|..]|].
  destruct (Z.ltb_spec MAX_OUTPUT_CHARS (u64_sat_add (u64_sat_add (len (rl_output r)) (rl_tool_output_chars r)) (len text))) as [|Hle]; [apply fail_moves|].
  intros Hlive (Hc & Ho & Hs). cbn [fst snd]. split.
  - unfold within. cbn [rl_set_output rl_tool_output_chars rl_output rl_tool_calls]. split_and!; [exact Hc| |exact Hs]. rewrite len_app.
    eapply sat_sum_bound; [apply len_nonneg|exact Hc|apply len_nonneg|exact Hle].
  - exists [text], []. cbn [rl_set_output rl_output rl_terminal]. rewrite Hlive. split_and!; [done|by constructor| |done]. cbn. by rewrite app_nil_r.
Qed.

Lemma process_choice_moves r v : moves r (process_choice r v).
Proof.
  unfold process_choice. destruct (field v "delta") as [delta|]; [|by apply moves_quiet; [right|..]].
  destruct (match field delta "tool_calls" ≫= as_array with Some calls => accumulate_tool_calls r calls | None => (r, Ok ()) end) as [r1 e] eqn:E.
  assert (H1' : rl_terminal r1 = rl_terminal r /\ rl_output r1 = rl_output r /\ (within r -> within r1)).
  { destruct (field delta "tool_calls" ≫= as_array); [by apply accumulate_ok in E|by injection E as <- _]. }
  destruct H1' as (Ht & Ho & Hw). apply (moves_from r r1); [done..|]. destruct e; [apply relay_text_moves|apply fail_moves].
Qed.

Lemma process_event_moves r event : moves r (process_event (number := number) r event).
Proof.
  unfold process_event. set (r1 := rl_set_progress r _ _). apply (moves_from r r1); [done..|].
  destruct (MAX_STREAM_EVENTS <? _); [apply fail_moves|]. destruct (str_eqb _ _); [apply complete_moves|].
  destruct (from_slice _) as [v|e]; [|apply fail_moves]. destruct (field v "error"); [apply fail_moves|].
  set (r2 := match extract_usage v with Some usage => _ | None => _ end).
  apply (moves_from r1 r2); [by unfold r2; destruct (extract_usage v)..|].
  destruct (field v "choices" ≫= as_array) as [choices|]; [|by apply moves_quiet; [right|..]].
  apply until_terminal_moves. intros. apply process_choice_moves.
Qed.

Lemma process_events_moves r events : moves r (relay_process_events (number := number) r events).
Proof. apply until_terminal_moves. intros. apply process_event_moves. Qed.

Lemma take_item_moves r item : moves r (take_item (number := number) r item).
Proof.
  destruct item as [chunk|error]; cbn [take_item]; [|apply fail_moves]. destruct (Sse.push (rl_decoder r) chunk) as [d [events|e]].
  - apply (moves_from r (rl_set_decoder r d)); [done..|apply process_events_moves].
  - apply (moves_from r (rl_set_decoder r d)); [done..|apply fail_moves].
Qed.

Lemma take_end_moves r : moves r (take_end (number := number) r) /\ rl_terminal (fst (take_end (number := number) r)) = true.
Proof.
  unfold take_end. destruct (Sse.finish (rl_decoder r)) as [d decoded].
  set (out := match decoded with Ok events => relay_process_events (rl_set_decoder r d) events | Err e => relay_fail (rl_set_decoder r d) (decode_failed e) end).
  assert (H1' : moves r out).
  { unfold out. destruct decoded; (apply (moves_from r (rl_set_decoder r d)); [done..|]); [apply process_events_moves|apply fail_moves]. }
  destruct out as [r1 f1]. pose proof (complete_moves r1) as H2'. pose proof (complete_terminal r1) as Ht.
  destruct (relay_complete r1) as [r2 f2] eqn:E2. cbn [fst] in *. split; [|done]. apply (moves_then r r1); [done| |done].
  intros Ht1. unfold relay_complete in E2. rewrite Ht1 in E2. by injection E2 as <- <-.
Qed.

Lemma within_new : within relay_new.
Proof. unfold within. split_and!; vm_compute; by intros. Qed.

(** Reading on gives a frame, and uses up an item or ends the stream. *)
Lemma advance_spec upstream r r' frames rest : rl_terminal r = false -> within r -> advance (number := number) r upstream = (r', frames, rest) ->
  frames <> [] /\ moves r (r', frames) /\ (rl_terminal r' = true \/ (length rest < length upstream)%nat).
Proof.
  revert r. induction upstream as [|item upstream IH]; intros r Hlive Hr; cbn [advance].
  - destruct (take_end_moves r) as [Hm Ht]. destruct (take_end r) as [r1 f1]; cbn [fst] in *. intros [= <- <- <-]. split_and!; [|done|by left].
    destruct (Hm Hlive Hr) as (_ & texts & tail & E & _ & _ & Hc). cbn [fst snd] in *. rewrite Ht in Hc. rewrite E.
    destruct Hc as (calls & usage & _ & [-> | [error ->]]); intros [_ E']%app_nil; [|done]. apply app_nil in E' as [_ E']. by apply app_nil in E' as [_ E'].
  - pose proof (take_item_moves r item) as Hm. destruct (take_item r item) as [r1 f1] eqn:E1. cbn [fst snd] in *.
    destruct f1 as [|f f1].
    + destruct (Hm Hlive Hr) as (Hw1 & texts & tail & E & _ & Ho & Hc). cbn [fst snd] in *. symmetry in E. apply app_nil in E as [E ->].
      assert (Ht1 : rl_terminal r1 = false).
      { destruct (rl_terminal r1); [|done]. destruct Hc as (calls & usage & _ & [Hn | [error Hn]]); [|done]. symmetry in Hn. apply app_nil in Hn as [_ Hn]. by apply app_nil in Hn as [_ Hn]. }
      destruct item as [chunk|error].
      * intros Ha. destruct (IH r1 Ht1 Hw1 Ha) as (Hne & Hm2 & Hend). split_and!; [done| |destruct Hend; [by left|right; cbn [length]; lia]].
        apply (moves_then r r1 [] r' frames Hm); [intros Ht; congruence|done].
      * cbn [take_item] in E1. unfold relay_fail in E1. by rewrite Hlive in E1.
    + destruct item; intros [= <- <- <-]; (split_and!; [done|done|right; cbn [length]; lia]).
Qed.

Lemma relay_frames_pending pending n r upstream frames : relay_frames (number := number) n (r, [], upstream) = Some frames ->
  relay_frames (number := number) (length pending + n) (r, pending, upstream) = Some (pending ++ frames).
Proof. intros Hn. induction pending as [|f pending IH]; [done|]. cbn [length Nat.add relay_frames relay_next app]. by rewrite IH. Qed.

(** From any live state the stream ends, having pushed what a move allows. *)
Lemma relay_ends k upstream r : (length upstream < k)%nat -> within r -> exists n frames r',
  relay_frames (number := number) n (r, [], upstream) = Some frames /\
  (if rl_terminal r then frames = [] else moves r (r', frames) /\ rl_terminal r' = true).
Proof.
  revert upstream r. induction k as [|k IH]; intros upstream r Hk Hr; [lia|].
  destruct (rl_terminal r) eqn:Hlive; [exists 1%nat, [], r; cbn [relay_frames relay_next]; by rewrite Hlive|].
  destruct (advance (number := number) r upstream) as [[r1 f1] rest] eqn:Ea. destruct (advance_spec _ _ _ _ _ Hlive Hr Ea) as (Hne & Hm & Hend).
  destruct f1 as [|f f1]; [done|]. destruct (Hm Hlive Hr) as (Hw1 & _). cbn [fst] in Hw1.
  assert (Hnext : forall n, relay_frames (number := number) (S n) (r, [], upstream) = cons f <$> relay_frames n (r1, f1, rest)).
  { intros n. cbn [relay_frames relay_next]. by rewrite Hlive, Ea. }
  destruct (rl_terminal r1) eqn:Ht1.
  - exists (S (length f1 + 1)), (f :: f1), r1. rewrite Hnext, (relay_frames_pending f1 1 r1 rest []); [by rewrite app_nil_r|]. cbn [relay_frames relay_next]. by rewrite Ht1.
  - destruct Hend as [?|Hlt]; [congruence|]. destruct (IH rest r1 ltac:(lia) Hw1) as (n & frames & r' & Hn & Hrest). rewrite Ht1 in Hrest. destruct Hrest as [Hm2 Ht2].
    exists (S (length f1 + n)), ((f :: f1) ++ frames), r'. rewrite Hnext, (relay_frames_pending f1 n r1 rest frames Hn). split; [done|]. split; [|done].
    apply (moves_then r r1); [done|congruence|done].
Qed.

(** The shape of a whole stream. *)
Definition well_shaped (frames : list RelayFrame) : Prop := exists texts tail,
  frames = CreatedFrame :: map TextDeltaFrame texts ++ tail /\ Forall (fun t => t <> []) texts /\
  len (mjoin texts) <= MAX_OUTPUT_CHARS /\ closing (mjoin texts) tail.

Lemma relay_well_shaped upstream : exists n frames, relay_frames (number := number) n (relay_start upstream) = Some frames /\ well_shaped frames.
Proof.
  destruct (relay_ends (S (length upstream)) upstream relay_new ltac:(lia) within_new) as (n & frames & r' & Hn & Hm & Ht).
  exists (1 + n)%nat, ([CreatedFrame] ++ frames). split; [by apply (relay_frames_pending [CreatedFrame])|].
  destruct (Hm eq_refl within_new) as (Hw & texts & tail & E & Hne & Ho & Hc). cbn [fst snd] in *. rewrite Ht in Hc. cbn [relay_new rl_output app] in Ho. rewrite E.
  exists texts, tail. split_and!; [done|done| |by rewrite <- Ho]. rewrite <- Ho. apply Hw.
Qed.
End Shape.

(** C21: A Responses stream ends, whatever the upstream sends, errs or omits, and
    it has the promised shape: [response.created], text deltas, then either the
    finished items and [response.completed], or [response.failed], and nothing
    after.  The closing event carries exactly the text of the deltas, which
    stays within [MAX_OUTPUT_CHARS], and at most [MAX_TOOLS] calls. *)
Theorem responses_stream_ends {number : Type} `{JsonNumber number, JsonText number} upstream :
  exists n frames, relay_frames (number := number) n (relay_start upstream) = Some frames /\ well_shaped frames.
Proof. apply relay_well_shaped. Qed.

(** ** Examples *)
#[local] Instance integer_json_build : JsonBuild Z := {| number_of_u64 := fun n => n; number_of_f64 := fun _ => 0 |}.

(** A call the upstream numbers 3 and nothing else has one identifier in
    [response.output_item.done] and another in [response.completed]: the first
    uses the upstream's index, the second the position. *)
Example sparse_call_has_two_ids :
  let call := {| ct_id := []; ct_name := lit "read"; ct_arguments := lit "{}" |} in
  let id_of (v : Value Z) := value_get v (lit "id") in
  let item := tool_call_output (lit "r1") ∅ 3 call in
  let listed := response_output (lit "r1") ∅ [] [call] "completed" in
  id_of item = Some (js "fc_r1_3") /\ map id_of listed = [Some (js "fc_r1_0")].
Proof. vm_compute. done. Qed.
