(* ===== verification/Redis.v ===== *)
(** * The Redis server the shared state runs on

    The scripts of [src/state.rs] run on a Redis server, which is not part of
    the program: a state [S] of which a view is given (the data, the deadlines
    of keys, the clock of the script), the commands the scripts call, and what
    the documentation of each command says about a call that succeeds.  A call
    may fail (a key of another type, an integer out of range); the script then
    stops, and what it wrote stays.

    Lua numbers are binary64.  The scripts compute with integers and with floors
    of their quotients, exact below [2^53], where the model's [Z] agrees with
    them.  A hash field holds an integer or a text, and each field is read the
    way it is written.  [Server] is a concrete instance for closed runs. *)
From S2P Require Export State.

Inductive hval := HInt (n : Z) | HText (s : str).

Inductive rvalue :=
| RHash (h : gmap str hval)
| RZset (z : gmap str Z)
| RSet (x : gset str)
| RText (s : list Z)
| RList (l : list str).

(** What a script can observe.  Deadlines are milliseconds of the clock. *)
Record view := {
  v_data : gmap str rvalue;
  v_deadline : gmap str Z;
  v_clock : Z * Z;
}.

#[export] Instance hval_eq_dec : EqDecision hval.
Proof. solve_decision. Defined.

Definition now_ms (v : view) : Z := (v_clock v).1 * 1000 + (v_clock v).2 / 1000.

Definition hash_of (o : option rvalue) : option (gmap str hval) :=
  match o with None => Some ∅ | Some (RHash h) => Some h | Some _ => None end.
Definition zset_of (o : option rvalue) : option (gmap str Z) :=
  match o with None => Some ∅ | Some (RZset z) => Some z | Some _ => None end.
Definition set_of (o : option rvalue) : option (gset str) :=
  match o with None => Some ∅ | Some (RSet x) => Some x | Some _ => None end.
Definition list_of (o : option rvalue) : option (list str) :=
  match o with None => Some [] | Some (RList l) => Some l | Some _ => None end.
Definition text_of (o : option rvalue) : option (option (list Z)) :=
  match o with None => Some None | Some (RText s) => Some (Some s) | Some _ => None end.

(** The view with a key set, its deadline kept, or removed with its deadline. *)
Definition v_set (v : view) (k : str) (x : rvalue) : view :=
  {| v_data := <[k := x]> (v_data v); v_deadline := v_deadline v; v_clock := v_clock v |}.
Definition v_del (v : view) (k : str) : view :=
  {| v_data := delete k (v_data v); v_deadline := delete k (v_deadline v); v_clock := v_clock v |}.
Definition v_expire (v : view) (k : str) (ms : Z) : view :=
  match v_data v !! k with
  | None => v
  | Some _ => {| v_data := v_data v; v_deadline := <[k := now_ms v + ms]> (v_deadline v); v_clock := v_clock v |}
  end.

(** Aggregates are removed when they become empty. *)
Definition v_hash (v : view) (k : str) (h : gmap str hval) : view :=
  if bool_decide (h = ∅) then v_del v k else v_set v k (RHash h).
Definition v_zset (v : view) (k : str) (z : gmap str Z) : view :=
  if bool_decide (z = ∅) then v_del v k else v_set v k (RZset z).

(** ** Scripts: state and failure *)
Definition script (S A : Type) : Type := S -> S * result A str.

Definition s_ret {S A} (x : A) : script S A := fun s => (s, Ok x).
Definition s_fail {S A} (e : string) : script S A := fun s => (s, Err (lit e)).
Definition s_bind {S A B} (m : script S A) (k : A -> script S B) : script S B :=
  fun s => match m s with (s, Ok x) => k x s | (s, Err e) => (s, Err e) end.

Declare Scope script_scope.
Delimit Scope script_scope with script.
Notation "x <-! m ; k" := (s_bind m (fun x => k)) (at level 100, m at next level, right associativity) : script_scope.
Notation "m ;! k" := (s_bind m (fun _ => k)) (at level 100, right associativity) : script_scope.

Fixpoint s_each {S A} (f : A -> script S unit) (l : list A) : script S unit :=
  match l with [] => s_ret () | x :: l => s_bind (f x) (fun _ => s_each f l) end.

Fixpoint s_fold {S A B} (f : B -> A -> script S B) (b : B) (l : list A) : script S B :=
  match l with [] => s_ret b | x :: l => s_bind (f b x) (fun b => s_fold f b l) end.

(** ** Commands *)
Class Redis (S : Type) := {
  TIME : script S (Z * Z);
  HGET : str -> str -> script S (option hval);
  HSET : str -> list (str * hval) -> script S unit;
  HINCRBY : str -> str -> Z -> script S Z;
  HDEL : str -> str -> script S unit;
  HEXISTS : str -> str -> script S bool;
  SADD : str -> str -> script S bool;
  ZADD : str -> Z -> str -> script S unit;
  ZREM : str -> str -> script S unit;
  ZSCORE : str -> str -> script S (option Z);
  ZCARD : str -> script S Z;
  ZRANGEBYSCORE : str -> Z -> script S (list str);
  ZREMRANGEBYSCORE : str -> Z -> script S unit;
  ZRANGE_ALL : str -> script S (list str);
  ZRANGE_FIRST : str -> script S (option str);
  GET : str -> script S (option (list Z));
  SET : str -> list Z -> script S unit;
  EXISTS : str -> script S bool;
  DEL : list str -> script S unit;
  PEXPIRE : str -> Z -> script S unit;
  PTTL : str -> script S Z;
  RPUSH : str -> str -> script S unit;
  LTRIM_LAST : str -> Z -> script S unit;
}.

(** A read answers [P] and changes nothing. *)
Definition reads {S A} (view_of : S -> view) (m : script S A) (P : view -> A -> Prop) : Prop :=
  forall s s' r, m s = (s', r) -> view_of s' = view_of s /\ match r with Ok x => P (view_of s) x | Err _ => True end.

(** A write that succeeds answers [x] and leaves [v']; one that fails leaves the
    view as it was. *)
Definition writes {S A} (view_of : S -> view) (m : script S A) (P : view -> A -> view -> Prop) : Prop :=
  forall s s' r, m s = (s', r) ->
    match r with Ok x => P (view_of s) x (view_of s') | Err _ => view_of s' = view_of s end.

(** [HSET key f1 v1 f2 v2 ..]. *)
Definition hset_all (h : gmap str hval) (l : list (str * hval)) : gmap str hval :=
  foldl (fun h '(f, x) => <[f := x]> h) h l.

Definition below (z : gmap str Z) (hi : Z) (m : str) : Prop := exists score, z !! m = Some score /\ score <= hi.

Class RedisLaws (S : Type) `{Redis S} := {
  view_of : S -> view;
  time_law : reads view_of TIME (fun v t => t = v_clock v);
  hget_law k f : reads view_of (HGET k f) (fun v x => exists h, hash_of (v_data v !! k) = Some h /\ x = h !! f);
  hset_law k l : writes view_of (HSET k l) (fun v _ v' => exists h, hash_of (v_data v !! k) = Some h /\ v' = v_set v k (RHash (hset_all h l)));
  hincrby_law k f n : writes view_of (HINCRBY k f n) (fun v x v' => exists h old, hash_of (v_data v !! k) = Some h /\
    (h !! f = None /\ old = 0 \/ h !! f = Some (HInt old)) /\ x = old + n /\ v' = v_set v k (RHash (<[f := HInt x]> h)));
  hdel_law k f : writes view_of (HDEL k f) (fun v _ v' => exists h, hash_of (v_data v !! k) = Some h /\ v' = v_hash v k (delete f h));
  hexists_law k f : reads view_of (HEXISTS k f) (fun v x => exists h, hash_of (v_data v !! k) = Some h /\
    x = match h !! f with Some _ => true | None => false end);
  sadd_law k m : writes view_of (SADD k m) (fun v x v' => exists z, set_of (v_data v !! k) = Some z /\
    x = negb (bool_decide (m ∈ z)) /\ v' = v_set v k (RSet ({[m]} ∪ z)));
  zadd_law k n m : writes view_of (ZADD k n m) (fun v _ v' => exists z, zset_of (v_data v !! k) = Some z /\ v' = v_set v k (RZset (<[m := n]> z)));
  zrem_law k m : writes view_of (ZREM k m) (fun v _ v' => exists z, zset_of (v_data v !! k) = Some z /\ v' = v_zset v k (delete m z));
  zscore_law k m : reads view_of (ZSCORE k m) (fun v x => exists z, zset_of (v_data v !! k) = Some z /\ x = z !! m);
  zcard_law k : reads view_of (ZCARD k) (fun v x => exists z, zset_of (v_data v !! k) = Some z /\ x = Z.of_nat (size z));
  zrangebyscore_law k hi : reads view_of (ZRANGEBYSCORE k hi) (fun v l => exists z, zset_of (v_data v !! k) = Some z /\
    NoDup l /\ forall m, m ∈ l <-> below z hi m);
  zremrangebyscore_law k hi : writes view_of (ZREMRANGEBYSCORE k hi) (fun v _ v' => exists z, zset_of (v_data v !! k) = Some z /\
    v' = v_zset v k (filter (fun '(_, score) => hi < score) z));
  zrange_all_law k : reads view_of (ZRANGE_ALL k) (fun v l => exists z, zset_of (v_data v !! k) = Some z /\ NoDup l /\ forall m, m ∈ l <-> m ∈ dom z);
  zrange_first_law k : reads view_of (ZRANGE_FIRST k) (fun v x => exists z, zset_of (v_data v !! k) = Some z /\
    match x with
    | None => z = ∅
    | Some m => exists score, z !! m = Some score /\ forall m' score', z !! m' = Some score' -> score <= score'
    end);
  get_law k : reads view_of (GET k) (fun v x => text_of (v_data v !! k) = Some x);
  set_law k x : writes view_of (SET k x) (fun v _ v' =>
    v' = {| v_data := <[k := RText x]> (v_data v); v_deadline := delete k (v_deadline v); v_clock := v_clock v |});
  exists_law k : reads view_of (EXISTS k) (fun v x => x = match v_data v !! k with Some _ => true | None => false end);
  del_law ks : writes view_of (DEL ks) (fun v _ v' => v' = foldl v_del v ks);
  pexpire_law k ms : writes view_of (PEXPIRE k ms) (fun v _ v' => v' = if ms <=? 0 then v_del v k else v_expire v k ms);
  pttl_law k : reads view_of (PTTL k) (fun v x =>
    x = match v_data v !! k, v_deadline v !! k with None, _ => -2 | _, None => -1 | _, Some d => d - now_ms v end);
  rpush_law k x : writes view_of (RPUSH k x) (fun v _ v' => exists l, list_of (v_data v !! k) = Some l /\ v' = v_set v k (RList (l ++ [x])));
  ltrim_law k n : writes view_of (LTRIM_LAST k n) (fun v _ v' => exists l, list_of (v_data v !! k) = Some l /\
    v' = let l' := drop (length l - Z.to_nat n) l in if bool_decide (l' = []) then v_del v k else v_set v k (RList l'));
}.

(** Between scripts time passes, and the keys whose deadline has passed are
    gone. *)
Definition lapsed (v : view) (t : Z) (k : str) : bool :=
  match v_deadline v !! k with Some d => d <? t | None => false end.

Definition v_elapse (v : view) (clock : Z * Z) : view :=
  let t := clock.1 * 1000 + clock.2 / 1000 in
  {| v_data := filter (fun '(k, _) => lapsed v t k = false) (v_data v);
     v_deadline := filter (fun '(k, _) => lapsed v t k = false) (v_deadline v); v_clock := clock |}.

(** ** A concrete server *)
Definition Server : Type := view.

Definition wrong_type {A} : script Server A := s_fail "WRONGTYPE".

Definition on_value {T A} (typed : option rvalue -> option T) (k : str) (f : view -> T -> Server * result A str) : script Server A :=
  fun s => match typed (v_data s !! k) with Some x => f s x | None => wrong_type s end.

Definition is_i64 (n : Z) : bool := (i64_min <=? n) && (n <=? i64_max).

Definition server_hincrby (k f : str) (n : Z) : script Server Z :=
  on_value hash_of k (fun s h =>
    match h !! f with
    | Some (HText _) => (s, Err (lit "ERR hash value is not an integer"))
    | Some (HInt old) => if is_i64 (old + n) then (v_set s k (RHash (<[f := HInt (old + n)]> h)), Ok (old + n))
                         else (s, Err (lit "ERR increment or decrement would overflow"))
    | None => if is_i64 n then (v_set s k (RHash (<[f := HInt n]> h)), Ok n)
              else (s, Err (lit "ERR value is not an integer or out of range"))
    end).

Definition members_below (z : gmap str Z) (hi : Z) : list str := map fst (map_to_list (filter (fun '(_, score) => score <= hi) z)).

(** The member of least score. *)
Definition least (best : option (str * Z)) (x : str * Z) : option (str * Z) :=
  match best with Some b => if b.2 <=? x.2 then Some b else Some x | None => Some x end.

Definition first_member (z : gmap str Z) : option str := fst <$> foldl least None (map_to_list z).

#[export] Instance server : Redis Server := {
  TIME s := (s, Ok (v_clock s));
  HGET k f := on_value hash_of k (fun s h => (s, Ok (h !! f)));
  HSET k l := on_value hash_of k (fun s h => (v_set s k (RHash (hset_all h l)), Ok ()));
  HINCRBY := server_hincrby;
  HDEL k f := on_value hash_of k (fun s h => (v_hash s k (delete f h), Ok ()));
  HEXISTS k f := on_value hash_of k (fun s h => (s, Ok match h !! f with Some _ => true | None => false end));
  SADD k m := on_value set_of k (fun s z => (v_set s k (RSet ({[m]} ∪ z)), Ok (negb (bool_decide (m ∈ z)))));
  ZADD k n m := on_value zset_of k (fun s z => (v_set s k (RZset (<[m := n]> z)), Ok ()));
  ZREM k m := on_value zset_of k (fun s z => (v_zset s k (delete m z), Ok ()));
  ZSCORE k m := on_value zset_of k (fun s z => (s, Ok (z !! m)));
  ZCARD k := on_value zset_of k (fun s z => (s, Ok (Z.of_nat (size z))));
  ZRANGEBYSCORE k hi := on_value zset_of k (fun s z => (s, Ok (members_below z hi)));
  ZREMRANGEBYSCORE k hi := on_value zset_of k (fun s z => (v_zset s k (filter (fun '(_, score) => hi < score) z), Ok ()));
  ZRANGE_ALL k := on_value zset_of k (fun s z => (s, Ok (elements (dom z))));
  ZRANGE_FIRST k := on_value zset_of k (fun s z => (s, Ok (first_member z)));
  GET k := on_value text_of k (fun s x => (s, Ok x));
  SET k x := fun s => ({| v_data := <[k := RText x]> (v_data s); v_deadline := delete k (v_deadline s); v_clock := v_clock s |}, Ok ());
  EXISTS k := fun s => (s, Ok match v_data s !! k with Some _ => true | None => false end);
  DEL ks := fun s => (foldl v_del s ks, Ok ());
  PEXPIRE k ms := fun s => (if ms <=? 0 then v_del s k else v_expire s k ms, Ok ());
  PTTL k := fun s => (s, Ok match v_data s !! k, v_deadline s !! k with None, _ => -2 | _, None => -1 | _, Some d => d - now_ms s end);
  RPUSH k x := on_value list_of k (fun s l => (v_set s k (RList (l ++ [x])), Ok ()));
  LTRIM_LAST k n := on_value list_of k (fun s l =>
    let l' := drop (length l - Z.to_nat n) l in (if bool_decide (l' = []) then v_del s k else v_set s k (RList l'), Ok ()));
}.

Lemma members_below_spec z hi : NoDup (members_below z hi) /\ forall m, m ∈ members_below z hi <-> below z hi m.
Proof.
  split; [apply NoDup_fst_map_to_list|]. intros m. unfold members_below, below. rewrite list_elem_of_fmap. split.
  - intros ([k score] & -> & Hk). apply elem_of_map_to_list in Hk. apply map_lookup_filter_Some in Hk as [Hk Hle]. by exists score.
  - intros (score & Hm & Hle). exists (m, score). split; [done|]. apply elem_of_map_to_list, map_lookup_filter_Some. done.
Qed.

Lemma least_spec l best : 
  match foldl least best l with
  | None => best = None /\ l = []
  | Some b => (best = Some b \/ b ∈ l) /\ (forall x, best = Some x \/ x ∈ l -> b.2 <= x.2)
  end.
Proof.
  revert best. induction l as [|x l IH]; intros best; cbn [foldl].
  - destruct best as [b|]; [|done]. split; [by left|]. intros x [[= ->]|Hx]; [lia|by apply elem_of_nil in Hx].
  - specialize (IH (least best x)). destruct (foldl least (least best x) l) as [b|].
    + destruct IH as [Hin Hle]. unfold least in *. destruct best as [c|]; [destruct (Z.leb_spec c.2 x.2)|]; split.
      * destruct Hin as [[= ->]|Hin]; [by left|right; by right].
      * intros y [[= ->]|[->|Hy]%elem_of_cons]; [apply Hle; by left| |apply Hle; by right]. etransitivity; [apply Hle; by left|done].
      * destruct Hin as [[= ->]|Hin]; [right; apply list_elem_of_here|right; by right].
      * intros y [[= ->]|[->|Hy]%elem_of_cons]; [|apply Hle; by left|apply Hle; by right].
        etransitivity; [apply Hle; by left|lia].
      * destruct Hin as [[= ->]|Hin]; [right; apply list_elem_of_here|right; by right].
      * intros y [?|[->|Hy]%elem_of_cons]; [done|apply Hle; by left|apply Hle; by right].
    + destruct IH as [Hn _]. unfold least in Hn. destruct best as [c|]; [by destruct (_ <=? _)|done].
Qed.

Lemma first_member_spec z :
  match first_member z with
  | None => z = ∅
  | Some m => exists score, z !! m = Some score /\ forall m' score', z !! m' = Some score' -> score <= score'
  end.
Proof.
  unfold first_member. pose proof (least_spec (map_to_list z) None) as H. destruct (foldl least None (map_to_list z)) as [[m score]|].
  - destruct H as [[?|Hin] Hle]; [done|]. cbn. apply elem_of_map_to_list in Hin. exists score. split; [done|].
    intros m' score' Hm'. apply (Hle (m', score')). right. by apply elem_of_map_to_list.
  - destruct H as [_ H]. cbn. by apply map_to_list_empty_iff.
Qed.

Lemma reads_value {T A} (typed : option rvalue -> option T) k (f : T -> A) (P : view -> A -> Prop) :
  (forall v x, typed (v_data v !! k) = Some x -> P v (f x)) ->
  reads (fun s : Server => s) (on_value typed k (fun s x => (s, Ok (f x)))) P.
Proof.
  intros H s s' r. unfold on_value. destruct (typed (v_data s !! k)) as [x|] eqn:E; intros [= <- <-]; [|done]. split; [done|by apply H].
Qed.

Lemma writes_value {T A} (typed : option rvalue -> option T) k (f : T -> A) (g : view -> T -> view) (P : view -> A -> view -> Prop) :
  (forall v x, typed (v_data v !! k) = Some x -> P v (f x) (g v x)) ->
  writes (fun s : Server => s) (on_value typed k (fun s x => (g s x, Ok (f x)))) P.
Proof.
  intros H s s' r. unfold on_value. destruct (typed (v_data s !! k)) as [x|] eqn:E; intros [= <- <-]; [|done]. by apply H.
Qed.

Lemma server_hincrby_law k f n : writes (fun s : Server => s) (server_hincrby k f n) (fun v x v' => exists h old,
  hash_of (v_data v !! k) = Some h /\ (h !! f = None /\ old = 0 \/ h !! f = Some (HInt old)) /\ x = old + n /\
  v' = v_set v k (RHash (<[f := HInt x]> h))).
Proof.
  intros s s' r. unfold server_hincrby, on_value. destruct (hash_of (v_data s !! k)) as [h|] eqn:E; [|by intros [= <- <-]].
  destruct (h !! f) as [[old|text]|] eqn:Hf; [|by intros [= <- <-]|].
  - destruct (is_i64 (old + n)); intros [= <- <-]; [|done]. exists h, old. by split_and!; [|right|..].
  - destruct (is_i64 n); intros [= <- <-]; [|done]. exists h, 0. by split_and!; [|left|..].
Qed.

#[export] Instance server_laws : RedisLaws Server.
Proof.
  unshelve econstructor; [exact (fun s => s)|..];
    try (intros; apply reads_value; intros v x Hx; by eauto);
    try (intros; apply writes_value; intros v x Hx; by eauto);
    try (intros; intros s s' r [= <- <-]; by auto).
  - apply server_hincrby_law.
  - intros k hi. apply reads_value. intros v z Hz. exists z. destruct (members_below_spec z hi). done.
  - intros k. apply reads_value. intros v z Hz. exists z. split; [done|]. split; [apply NoDup_elements|]. intros m. apply elem_of_elements.
  - intros k. apply reads_value. intros v z Hz. exists z. split; [done|]. apply first_member_spec.
  - intros k x. apply (writes_value list_of k (fun _ => ()) (fun s l => v_set s k (RList (l ++ [x])))). by eauto.
Defined.

(** ** Reasoning about scripts that succeed *)
Lemma s_bind_ok {S A B} (m : script S A) (k : A -> script S B) s s' y :
  s_bind m k s = (s', Ok y) -> exists s1 x, m s = (s1, Ok x) /\ k x s1 = (s', Ok y).
Proof. unfold s_bind. destruct (m s) as [s1 [x|e]]; [|done]. intros H. by exists s1, x. Qed.

Lemma s_ret_ok {S A} (x y : A) (s s' : S) : s_ret x s = (s', Ok y) -> s' = s /\ y = x.
Proof. by intros [= -> ->]. Qed.

Lemma reads_ok {S A} (vw : S -> view) (m : script S A) P : reads vw m P -> forall s s' x, m s = (s', Ok x) ->
  vw s' = vw s /\ P (vw s) x.
Proof. intros H s s' x Hm. exact (H s s' (Ok x) Hm). Qed.

Lemma writes_ok {S A} (vw : S -> view) (m : script S A) P : writes vw m P -> forall s s' x, m s = (s', Ok x) ->
  P (vw s) x (vw s').
Proof. intros H s s' x Hm. exact (H s s' (Ok x) Hm). Qed.

(** Opens a script that succeeded into its commands. *)
Ltac lua_open :=
  repeat match goal with
  | H : s_bind _ _ _ = (_, Ok _) |- _ => apply s_bind_ok in H as (? & ? & ? & H); cbv beta in H
  | H : s_ret _ _ = (_, Ok _) |- _ => apply s_ret_ok in H as [? ?]; subst
  | H : s_fail _ _ = (_, Ok _) |- _ => discriminate H
  end.

(** Replaces a command that succeeded by what its documentation says. *)
Ltac lua_law :=
  match goal with
  | H : TIME _ = (_, Ok _) |- _ => apply (reads_ok _ _ _ time_law) in H as [? ->]
  | H : HGET _ _ _ = (_, Ok _) |- _ => apply (reads_ok _ _ _ (hget_law _ _)) in H as [? (? & ? & ->)]
  | H : HSET _ _ _ = (_, Ok _) |- _ => apply (writes_ok _ _ _ (hset_law _ _)) in H as (? & ? & ?)
  | H : HINCRBY _ _ _ _ = (_, Ok _) |- _ => apply (writes_ok _ _ _ (hincrby_law _ _ _)) in H as (? & ? & ? & ? & -> & ?)
  | H : HDEL _ _ _ = (_, Ok _) |- _ => apply (writes_ok _ _ _ (hdel_law _ _)) in H as (? & ? & ?)
  | H : HEXISTS _ _ _ = (_, Ok _) |- _ => apply (reads_ok _ _ _ (hexists_law _ _)) in H as [? (? & ? & ->)]
  | H : SADD _ _ _ = (_, Ok _) |- _ => apply (writes_ok _ _ _ (sadd_law _ _)) in H as (? & ? & -> & ?)
  | H : ZADD _ _ _ _ = (_, Ok _) |- _ => apply (writes_ok _ _ _ (zadd_law _ _ _)) in H as (? & ? & ?)
  | H : ZREM _ _ _ = (_, Ok _) |- _ => apply (writes_ok _ _ _ (zrem_law _ _)) in H as (? & ? & ?)
  | H : ZSCORE _ _ _ = (_, Ok _) |- _ => apply (reads_ok _ _ _ (zscore_law _ _)) in H as [? (? & ? & ->)]
  | H : ZCARD _ _ = (_, Ok _) |- _ => apply (reads_ok _ _ _ (zcard_law _)) in H as [? (? & ? & ->)]
  | H : ZRANGEBYSCORE _ _ _ = (_, Ok _) |- _ => apply (reads_ok _ _ _ (zrangebyscore_law _ _)) in H as [? (? & ? & ? & ?)]
  | H : ZREMRANGEBYSCORE _ _ _ = (_, Ok _) |- _ => apply (writes_ok _ _ _ (zremrangebyscore_law _ _)) in H as (? & ? & ?)
  | H : ZRANGE_ALL _ _ = (_, Ok _) |- _ => apply (reads_ok _ _ _ (zrange_all_law _)) in H as [? (? & ? & ? & ?)]
  | H : ZRANGE_FIRST _ _ = (_, Ok _) |- _ => apply (reads_ok _ _ _ (zrange_first_law _)) in H as [? (? & ? & ?)]
  | H : GET _ _ = (_, Ok _) |- _ => apply (reads_ok _ _ _ (get_law _)) in H as [? ?]
  | H : SET _ _ _ = (_, Ok _) |- _ => apply (writes_ok _ _ _ (set_law _ _)) in H
  | H : EXISTS _ _ = (_, Ok _) |- _ => apply (reads_ok _ _ _ (exists_law _)) in H as [? ->]
  | H : DEL _ _ = (_, Ok _) |- _ => apply (writes_ok _ _ _ (del_law _)) in H
  | H : PEXPIRE _ _ _ = (_, Ok _) |- _ => apply (writes_ok _ _ _ (pexpire_law _ _)) in H
  | H : PTTL _ _ = (_, Ok _) |- _ => apply (reads_ok _ _ _ (pttl_law _)) in H as [? ->]
  end.

(** The views in between are what the commands leave. *)
Ltac lua_views :=
  repeat match goal with
  | H : view_of _ = _ |- _ => rewrite H in *; clear H
  end.

Ltac lua := lua_open; repeat (lua_law; lua_open).

(** Evaluates the fields of a hash after named writes. *)
Ltac lit_ne := solve [let E := fresh in intros E; vm_compute in E; discriminate E].
Ltac fields :=
  unfold hset_all; cbn [foldl];
  repeat first [ rewrite lookup_insert_eq | rewrite lookup_delete_eq
               | rewrite lookup_insert_ne by lit_ne | rewrite lookup_delete_ne by lit_ne ].

(** ** Views *)
Lemma hash_of_set v k h : hash_of (v_data (v_set v k (RHash h)) !! k) = Some h.
Proof. unfold v_set. cbn [v_data]. by rewrite lookup_insert_eq. Qed.

Lemma hash_of_hash v k h : hash_of (v_data (v_hash v k h) !! k) = Some h.
Proof.
  unfold v_hash. destruct (bool_decide (h = ∅)) eqn:E; [|apply hash_of_set]. apply bool_decide_eq_true in E as ->.
  unfold v_del. cbn [v_data]. by rewrite lookup_delete_eq.
Qed.

Lemma zset_of_set v k z : zset_of (v_data (v_set v k (RZset z)) !! k) = Some z.
Proof. unfold v_set. cbn [v_data]. by rewrite lookup_insert_eq. Qed.

Lemma zset_of_zset v k z : zset_of (v_data (v_zset v k z) !! k) = Some z.
Proof.
  unfold v_zset. destruct (bool_decide (z = ∅)) eqn:E; [|apply zset_of_set]. apply bool_decide_eq_true in E as ->.
  unfold v_del. cbn [v_data]. by rewrite lookup_delete_eq.
Qed.

Lemma v_expire_data v k ms : v_data (v_expire v k ms) = v_data v.
Proof. unfold v_expire. by destruct (v_data v !! k). Qed.

Lemma v_expire_clock v k ms : v_clock (v_expire v k ms) = v_clock v.
Proof. unfold v_expire. by destruct (v_data v !! k). Qed.

Lemma v_hash_clock v k h : v_clock (v_hash v k h) = v_clock v.
Proof. unfold v_hash. by destruct (bool_decide _). Qed.

Lemma v_zset_clock v k z : v_clock (v_zset v k z) = v_clock v.
Proof. unfold v_zset. by destruct (bool_decide _). Qed.

(** ** Framing *)

(** Only the keys [ks] change, and not the clock. *)
Definition only (ks : list str) (v v' : view) : Prop :=
  v_clock v' = v_clock v /\ forall k, k ∉ ks -> v_data v' !! k = v_data v !! k.

Lemma only_refl ks v : only ks v v.
Proof. done. Qed.

Lemma only_trans ks v1 v2 v3 : only ks v1 v2 -> only ks v2 v3 -> only ks v1 v3.
Proof. intros [Hc1 H1] [Hc2 H2]. split; [congruence|]. intros k Hk. by rewrite H2, H1. Qed.

Lemma only_mono ks ks' v v' : (forall k, k ∈ ks -> k ∈ ks') -> only ks v v' -> only ks' v v'.
Proof. intros Hs [Hc Hd]. split; [done|]. intros k Hk. apply Hd. auto. Qed.

Lemma only_set k x v : only [k] v (v_set v k x).
Proof. split; [done|]. intros k' Hk. unfold v_set. cbn [v_data]. rewrite lookup_insert_ne; [done|set_solver]. Qed.

Lemma only_del k v : only [k] v (v_del v k).
Proof. split; [done|]. intros k' Hk. unfold v_del. cbn [v_data]. rewrite lookup_delete_ne; [done|set_solver]. Qed.

Lemma only_hash k h v : only [k] v (v_hash v k h).
Proof. unfold v_hash. destruct (bool_decide _); [apply only_del|apply only_set]. Qed.

Lemma only_zset k z v : only [k] v (v_zset v k z).
Proof. unfold v_zset. destruct (bool_decide _); [apply only_del|apply only_set]. Qed.

Lemma only_expire k ms v : only [k] v (v_expire v k ms).
Proof. split; [apply v_expire_clock|]. intros k' _. by rewrite v_expire_data. Qed.

Lemma only_data v v' k ks : only ks v v' -> k ∉ ks -> v_data v' !! k = v_data v !! k.
Proof. intros [_ H]. apply H. Qed.

(** Lookups of other keys. *)
Lemma data_set_ne v k k' x : k' <> k -> v_data (v_set v k x) !! k' = v_data v !! k'.
Proof. intros. eapply only_data; [apply only_set|by intros ?%list_elem_of_singleton]. Qed.
Lemma data_del_ne v k k' : k' <> k -> v_data (v_del v k) !! k' = v_data v !! k'.
Proof. intros. eapply only_data; [apply only_del|by intros ?%list_elem_of_singleton]. Qed.
Lemma data_hash_ne v k k' h : k' <> k -> v_data (v_hash v k h) !! k' = v_data v !! k'.
Proof. intros. eapply only_data; [apply only_hash|by intros ?%list_elem_of_singleton]. Qed.
Lemma data_zset_ne v k k' z : k' <> k -> v_data (v_zset v k z) !! k' = v_data v !! k'.
Proof. intros. eapply only_data; [apply only_zset|by intros ?%list_elem_of_singleton]. Qed.
Lemma data_del_eq v k : v_data (v_del v k) !! k = None.
Proof. unfold v_del. cbn [v_data]. apply lookup_delete_eq. Qed.

(** Steps over the writes of other keys, inequalities by assumption. *)
Ltac other_key := first [assumption | apply not_eq_sym; assumption | by auto].
Ltac frames := repeat first [ rewrite data_set_ne by other_key | rewrite data_del_ne by other_key
                            | rewrite data_hash_ne by other_key | rewrite data_zset_ne by other_key ].

(** ** Time *)

(** The server of a later moment; scripts of other replicas run in between. *)
Definition passes {S} `{RedisLaws S} (s s' : S) : Prop :=
  exists clock, now_ms (view_of s) <= clock.1 * 1000 + clock.2 / 1000 /\ view_of s' = v_elapse (view_of s) clock.

Lemma elapse_lookup v clock k :
  v_data (v_elapse v clock) !! k = if lapsed v (clock.1 * 1000 + clock.2 / 1000) k then None else v_data v !! k.
Proof.
  unfold v_elapse. cbn [v_data]. destruct (lapsed v _ k) eqn:E.
  - apply map_lookup_filter_None. right. intros x _ Hf. congruence.
  - destruct (v_data v !! k) as [x|] eqn:Hx.
    + by apply map_lookup_filter_Some.
    + apply map_lookup_filter_None. by left.
Qed.

Definition server_at (seconds : Z) : Server := {| v_data := ∅; v_deadline := ∅; v_clock := (seconds, 0) |}.
