(* ===== verification/Scripts.v ===== *)
(** * The Lua scripts of the Redis backend (crate [wayfinder-gateway], [src/state.rs])

    Each script, command by command.  Its keys are arguments under the names
    the script gives them; its [ARGV] are typed, since the backend passes
    numbers and texts. *)
From S2P Require Export Redis.
Open Scope script_scope.

Section Scripts.
Context {Srv : Type} `{Redis Srv}.

(** ** What the scripts share *)

(** [local time = redis.call('TIME'); local now_ms = ..]. *)
Definition lua_now : script Srv Z := t <-! TIME; s_ret (t.1 * 1000 + t.2 / 1000).

(** [tonumber(redis.call('HGET', key, field) or '0')]: arithmetic on what is
    not a number stops the script. *)
Definition lua_field (key : str) (field : string) : script Srv Z :=
  x <-! HGET key (lit field);
  match x with
  | None => s_ret 0
  | Some (HInt n) => s_ret n
  | Some (HText _) => s_fail "attempt to perform arithmetic on a nil value"
  end.

Definition lua_member (key member : str) : script Srv Z :=
  x <-! HGET key member;
  match x with
  | None => s_ret 0
  | Some (HInt n) => s_ret n
  | Some (HText _) => s_fail "attempt to perform arithmetic on a nil value"
  end.

(** [current == false or tonumber(current) ~= window_id]. *)
Definition outside_window (current : option hval) (window_id : Z) : bool :=
  match current with Some (HInt n) => negb (n =? window_id) | _ => true end.

(** The opening of the window scripts: the counters of another window are
    reset. *)
Definition enter_window (key : str) (window_ms : Z) : script Srv (Z * Z) :=
  now_ms <-! lua_now;
  current <-! HGET key (lit "window");
  let window_id := now_ms / window_ms in
  (if outside_window current window_id then
     HSET key [(lit "window", HInt window_id); (lit "requests", HInt 0); (lit "tokens", HInt 0)];!
     PEXPIRE key (Z.max (window_ms * 2) 1000)
   else s_ret ());!
  s_ret (now_ms, window_id).

(** [math.max(0, math.ceil((((window_id + 1) * window_ms) - now_ms) / 1000))]. *)
Definition retry_seconds (now_ms window_id window_ms : Z) : Z := Z.max 0 (((window_id + 1) * window_ms - now_ms + 999) / 1000).

(** ** Rate limits *)
Definition ADMIT_SCRIPT (key : str) (window_ms rpm tpm : Z) : script Srv (Z * Z * Z) :=
  w <-! enter_window key window_ms;
  requests <-! lua_field key "requests";
  tokens <-! lua_field key "tokens";
  let retry := retry_seconds w.1 w.2 window_ms in
  if (0 <? rpm) && (rpm <=? requests) then s_ret (0, 1, retry)
  else if (0 <? tpm) && (tpm <=? tokens) then s_ret (0, 2, retry)
  else HINCRBY key (lit "requests") 1;! s_ret (1, 0, 0).

Definition RESERVE_SCRIPT (key : str) (window_ms rpm tpm reservation : Z) (reserve_request : bool) : script Srv (Z * Z * Z * Z) :=
  w <-! enter_window key window_ms;
  requests <-! lua_field key "requests";
  tokens <-! lua_field key "tokens";
  let retry := retry_seconds w.1 w.2 window_ms in
  if reserve_request && (0 <? rpm) && (rpm <=? requests) then s_ret (0, 1, retry, w.2)
  else if (0 <? tpm) && (tpm <? tokens + reservation) then s_ret (0, 2, retry, w.2)
  else
    (if reserve_request then HINCRBY key (lit "requests") 1;! s_ret () else s_ret ());!
    HINCRBY key (lit "tokens") reservation;!
    s_ret (1, 0, 0, w.2).

Definition RECONCILE_SCRIPT (key : str) (window_id reserved actual : Z) : script Srv Z :=
  current <-! HGET key (lit "window");
  if outside_window current window_id then s_ret 0
  else HINCRBY key (lit "tokens") (actual - reserved);! s_ret 1.

Definition ROLLBACK_SCRIPT (key : str) (window_id reserved : Z) (reserved_request : bool) : script Srv Z :=
  current <-! HGET key (lit "window");
  if outside_window current window_id then s_ret 0
  else
    requests <-! lua_field key "requests";
    tokens <-! lua_field key "tokens";
    (if reserved_request then HSET key [(lit "requests", HInt (Z.max 0 (requests - 1)))] else s_ret ());!
    HSET key [(lit "tokens", HInt (Z.max 0 (tokens - reserved)))];!
    s_ret 1.

Definition ADD_TOKENS_SCRIPT (key : str) (window_ms tokens : Z) : script Srv Z :=
  enter_window key window_ms;! HINCRBY key (lit "tokens") tokens;! s_ret 1.

Definition SNAPSHOT_SCRIPT (key : str) (window_ms : Z) : script Srv (Z * Z) :=
  w <-! enter_window key window_ms;
  requests <-! lua_field key "requests";
  s_ret (requests, retry_seconds w.1 w.2 window_ms).

(** ** The audit list *)
Definition APPEND_AUDIT_SCRIPT (key event : str) (max_events : Z) : script Srv Z :=
  if max_events <? 1 then s_fail "audit retention bound must be positive"
  else RPUSH key event;! LTRIM_LAST key max_events;! s_ret 1.

(** ** Costs *)
Record CostArgs := {
  ca_realized : Z;
  ca_baseline : Z;
  ca_savings : Z;
  ca_prompt : Z;
  ca_completion : Z;
  ca_estimated : Z;
}.

(** The keys come in threes: day, month, all; the last keeps its deadline. *)
Definition record_cost_key (a : CostArgs) (period_offset : nat) (key : str) : script Srv unit :=
  HINCRBY key (lit "requests") 1;!
  HINCRBY key (lit "estimated_requests") (ca_estimated a);!
  HINCRBY key (lit "prompt_tokens") (ca_prompt a);!
  HINCRBY key (lit "completion_tokens") (ca_completion a);!
  HINCRBY key (lit "realized_micros") (ca_realized a);!
  HINCRBY key (lit "baseline_micros") (ca_baseline a);!
  HINCRBY key (lit "savings_micros") (ca_savings a);!
  match period_offset with
  | 0%nat => PEXPIRE key (SHARED_LEDGER_DAY_TTL_SECONDS * 1000)
  | 1%nat => PEXPIRE key (SHARED_LEDGER_MONTH_TTL_SECONDS * 1000)
  | _ => s_ret ()
  end.

Definition RECORD_COST_SCRIPT (seen request_id : str) (a : CostArgs) (keys : list str) : script Srv Z :=
  added <-! SADD seen request_id;
  if negb added then s_ret 0
  else
    s_each (fun '(i, key) => record_cost_key a (i mod 3) key) (imap pair keys);!
    PEXPIRE seen (SHARED_LEDGER_IDEMPOTENCY_TTL_SECONDS * 1000);!
    s_ret 1.

(** ** Budget reservations *)
Record BudgetArg := {
  ba_ledger : str;
  ba_expiry : str;
  ba_amounts : str;
  ba_limit : Z;
  ba_blocks : bool;
  ba_ledger_ttl_ms : Z;
}.

(** One expired reservation of a scope. *)
Definition drop_expired (a : BudgetArg) (expired_id : str) : script Srv unit :=
  expired_amount <-! lua_member (ba_amounts a) expired_id;
  (if 0 <? expired_amount then
     HINCRBY (ba_ledger a) (lit "reserved_micros") (- expired_amount);!
     HDEL (ba_amounts a) expired_id
   else s_ret ());!
  ZREM (ba_expiry a) expired_id.

Definition sweep_scope (now_ms : Z) (a : BudgetArg) : script Srv unit :=
  expired <-! ZRANGEBYSCORE (ba_expiry a) now_ms;
  s_each (drop_expired a) expired.

Definition count_existing (field : str) (count : Z) (a : BudgetArg) : script Srv Z :=
  found <-! HEXISTS (ba_amounts a) field; s_ret (if found then count + 1 else count).

(** Whether some blocking scope has no room; the loop stops at the first. *)
Fixpoint lacks_room (amount : Z) (scopes : list BudgetArg) : script Srv bool :=
  match scopes with
  | [] => s_ret false
  | a :: scopes =>
      if ba_blocks a then
        realized <-! lua_field (ba_ledger a) "realized_micros";
        reserved <-! lua_field (ba_ledger a) "reserved_micros";
        if ba_limit a <? realized + reserved + amount then s_ret true else lacks_room amount scopes
      else lacks_room amount scopes
  end.

Definition hold_scope (field : str) (amount now_ms ttl_ms : Z) (a : BudgetArg) : script Srv unit :=
  HINCRBY (ba_ledger a) (lit "reserved_micros") amount;!
  ttl <-! PTTL (ba_ledger a);
  (if (ttl <? 0) && (0 <? ba_ledger_ttl_ms a) then PEXPIRE (ba_ledger a) (ba_ledger_ttl_ms a) else s_ret ());!
  HSET (ba_amounts a) [(field, HInt amount)];!
  ZADD (ba_expiry a) (now_ms + ttl_ms) field;!
  PEXPIRE (ba_expiry a) ttl_ms;!
  PEXPIRE (ba_amounts a) ttl_ms.

Definition RESERVE_BUDGET_SCRIPT (request_id : str) (amount : Z) (scopes : list BudgetArg) (ttl_ms : Z) : script Srv Z :=
  if (amount <? 0) || (len scopes <? 1) then s_fail "invalid budget reservation"
  else
    now_ms <-! lua_now;
    s_each (sweep_scope now_ms) scopes;!
    existing_count <-! s_fold (count_existing request_id) 0 scopes;
    if existing_count =? len scopes then s_ret 1
    else if 0 <? existing_count then s_fail "partial budget reservation"
    else
      full <-! lacks_room amount scopes;
      if full : bool then s_ret 0
      else s_each (hold_scope request_id amount now_ms ttl_ms) scopes;! s_ret 1.

Definition release_scope (field : str) (keys : str * str * str) : script Srv unit :=
  let '(ledger, expiry, amounts) := keys in
  reserved <-! lua_member amounts field;
  (if 0 <? reserved then
     HINCRBY ledger (lit "reserved_micros") (- reserved);! HDEL amounts field
   else s_ret ());!
  ZREM expiry field.

Definition RELEASE_BUDGET_SCRIPT (keys : list (str * str * str)) (field : str) : script Srv Z :=
  s_each (release_scope field) keys;! s_ret 1.

(** ** Fleet admission *)
Definition ACQUIRE_ADMISSION_SCRIPT (key : str) (limit ttl_ms : Z) (lease_id : str) : script Srv Z :=
  if (limit <? 1) || (ttl_ms <? 1) then s_fail "invalid shared admission bounds"
  else
    now_ms <-! lua_now;
    ZREMRANGEBYSCORE key now_ms;!
    score <-! ZSCORE key lease_id;
    match score with
    | Some _ => s_ret 1
    | None =>
        card <-! ZCARD key;
        if limit <=? card then s_ret 0
        else ZADD key (now_ms + ttl_ms) lease_id;! PEXPIRE key ttl_ms;! s_ret 1
    end.

Definition RELEASE_ADMISSION_SCRIPT (key lease_id : str) : script Srv Z :=
  ZREM key lease_id;!
  card <-! ZCARD key;
  (if card =? 0 then DEL [key] else s_ret ());!
  s_ret 1.

(** ** Provider health *)
Definition other_probe (probe : option hval) (probe_id : str) : bool := negb (bool_decide (probe = Some (HText probe_id))).

Definition BEGIN_HEALTH_SCRIPT (key : str) (cooldown_ms : Z) (probe_id : str) : script Srv Z :=
  now_ms <-! lua_now;
  open_until <-! lua_field key "open_until";
  probe <-! HGET key (lit "probe");
  if (now_ms <? open_until) && other_probe probe probe_id then s_ret 0
  else if bool_decide (probe <> None) && other_probe probe probe_id then s_ret 0
  else
    HSET key [(lit "probe", HText probe_id)];!
    PEXPIRE key (Z.max (cooldown_ms * 2) 1000);!
    s_ret 1.

Definition COMPLETE_HEALTH_SCRIPT (key : str) (threshold cooldown_ms : Z) (probe_id : str) (succeeded : bool) : script Srv Z :=
  now_ms <-! lua_now;
  probe <-! HGET key (lit "probe");
  if bool_decide (probe <> None) && other_probe probe probe_id then s_ret 0
  else if succeeded then
    HSET key [(lit "failures", HInt 0); (lit "open_until", HInt 0)];! HDEL key (lit "probe");! s_ret 1
  else
    failures <-! HINCRBY key (lit "failures") 1;
    (if threshold <=? failures then HSET key [(lit "open_until", HInt (now_ms + cooldown_ms))] else s_ret ());!
    HDEL key (lit "probe");!
    s_ret 1.

Definition RELEASE_HEALTH_SCRIPT (key probe_id : str) : script Srv Z :=
  probe <-! HGET key (lit "probe");
  (if other_probe probe probe_id then s_ret () else HDEL key (lit "probe"));!
  s_ret 1.

(** ** The shared cache *)
Record CacheKeys := {
  ck_entry : str;
  ck_meta : str;
  ck_sizes : str;
  ck_index : str;
  ck_prefix : str;
}.

(** The opening of both cache scripts: the entries of another generation are
    deleted. *)
Definition enter_generation (k : CacheKeys) (generation : str) : script Srv unit :=
  current <-! HGET (ck_meta k) (lit "generation");
  if bool_decide (current = Some (HText generation)) then s_ret ()
  else
    stale <-! ZRANGE_ALL (ck_index k);
    s_each (fun digest => DEL [ck_prefix k ++ digest]) stale;!
    DEL [ck_sizes k; ck_index k];!
    HSET (ck_meta k) [(lit "generation", HText generation); (lit "bytes", HInt 0)].

Definition SHARED_CACHE_GET_SCRIPT (k : CacheKeys) (digest generation : str) : script Srv (option (list Z)) :=
  enter_generation k generation;!
  entry <-! GET (ck_entry k);
  match entry with
  | None =>
      prior <-! lua_member (ck_sizes k) digest;
      (if 0 <? prior then
         HINCRBY (ck_meta k) (lit "bytes") (- prior);! HDEL (ck_sizes k) digest;! ZREM (ck_index k) digest
       else s_ret ());!
      s_ret None
  | Some entry => now_ms <-! lua_now; ZADD (ck_index k) now_ms digest;! s_ret (Some entry)
  end.

(** A round of the eviction loop: the oldest member goes; the answer is the
    [ZCARD] and the bytes the loop tests next, [None] where it breaks. *)
Definition evict_round (k : CacheKeys) (bytes : Z) : script Srv (option (Z * Z)) :=
  oldest <-! ZRANGE_FIRST (ck_index k);
  match oldest with
  | None => s_ret None
  | Some victim =>
      victim_bytes <-! lua_member (ck_sizes k) victim;
      DEL [ck_prefix k ++ victim];!
      HDEL (ck_sizes k) victim;!
      ZREM (ck_index k) victim;!
      HSET (ck_meta k) [(lit "bytes", HInt (Z.max 0 (bytes - victim_bytes)))];!
      card <-! ZCARD (ck_index k);
      s_ret (Some (card, Z.max 0 (bytes - victim_bytes)))
  end.

(** [while ZCARD > max_entries or bytes > max_bytes]: [card] is the last
    [ZCARD].  Each round removes a member, so that more rounds than members are
    never needed ([FleetCache.eviction_terminates]). *)
Fixpoint evict_shared (fuel : nat) (k : CacheKeys) (max_entries max_bytes card bytes : Z) : script Srv unit :=
  if (max_entries <? card) || (max_bytes <? bytes) then
    match fuel with
    | O => s_fail "fuel"
    | S fuel =>
        round <-! evict_round k bytes;
        match round with
        | None => s_ret ()
        | Some (card, bytes) => evict_shared fuel k max_entries max_bytes card bytes
        end
    end
  else s_ret ().

Definition SHARED_CACHE_PUT_SCRIPT (k : CacheKeys) (digest generation : str) (value : list Z)
    (body_bytes ttl_ms max_entries max_bytes : Z) : script Srv Z :=
  enter_generation k generation;!
  if (body_bytes <? 0) || (ttl_ms <? 0) || (max_entries <? 1) || (max_bytes <? 1) then s_ret 0
  else if max_bytes <? body_bytes then s_ret 0
  else
    previous <-! lua_member (ck_sizes k) digest;
    (if 0 <? previous then HINCRBY (ck_meta k) (lit "bytes") (- previous);! s_ret () else s_ret ());!
    SET (ck_entry k) value;!
    (if 0 <? ttl_ms then PEXPIRE (ck_entry k) ttl_ms else s_ret ());!
    HSET (ck_sizes k) [(digest, HInt body_bytes)];!
    now_ms <-! lua_now;
    ZADD (ck_index k) now_ms digest;!
    HINCRBY (ck_meta k) (lit "bytes") (body_bytes - previous);!
    bytes <-! lua_field (ck_meta k) "bytes";
    card <-! ZCARD (ck_index k);
    evict_shared (S (Z.to_nat card)) k max_entries max_bytes card bytes;!
    found <-! EXISTS (ck_entry k);
    s_ret (if found : bool then 1 else 0).

Definition SHARED_CACHE_CLEAR_SCRIPT (k : CacheKeys) : script Srv Z :=
  entries <-! ZRANGE_ALL (ck_index k);
  s_each (fun digest => DEL [ck_prefix k ++ digest]) entries;!
  DEL [ck_meta k; ck_sizes k; ck_index k];!
  s_ret 1.

(** ** Canary counters *)
Definition CANARY_COUNTERS : list str :=
  map lit ["requests"; "errors"; "latency_sum_ms"; "latency_samples"; "realized_micros"; "baseline_micros"; "cost_samples";
           "quality_scaled"; "quality_samples"]%string.

Definition enter_canary_window (key seen : str) (window_ms : Z) : script Srv unit :=
  now_ms <-! lua_now;
  current <-! HGET key (lit "window");
  let window_id := now_ms / window_ms in
  if outside_window current window_id then
    HSET key ((lit "window", HInt window_id) :: map (fun field => (field, HInt 0)) CANARY_COUNTERS);! DEL [seen]
  else s_ret ().

Definition bump (key : str) (field : string) (n : Z) : script Srv unit := HINCRBY key (lit field) n;! s_ret ().

Definition CANARY_RECORD_SCRIPT (key seen request_id : str) (window_ms : Z) (succeeded : bool)
    (latency_ms realized baseline quality : Z) : script Srv Z :=
  enter_canary_window key seen window_ms;!
  added <-! SADD seen request_id;
  if negb added then s_ret 0
  else
    PEXPIRE key (Z.max (window_ms * 2) 1000);!
    PEXPIRE seen (Z.max (window_ms * 2) 1000);!
    bump key "requests" 1;!
    (if succeeded then s_ret () else bump key "errors" 1);!
    bump key "latency_sum_ms" latency_ms;!
    bump key "latency_samples" 1;!
    (if (0 <=? realized) && (0 <=? baseline) then
       bump key "realized_micros" realized;! bump key "baseline_micros" baseline;! bump key "cost_samples" 1
     else s_ret ());!
    (if 0 <=? quality then bump key "quality_scaled" quality;! bump key "quality_samples" 1 else s_ret ());!
    s_ret 1.

Definition CANARY_SNAPSHOT_SCRIPT (key seen : str) (window_ms : Z) : script Srv (list Z * str) :=
  enter_canary_window key seen window_ms;!
  counters <-! s_fold (fun acc field => n <-! lua_member key field; s_ret (acc ++ [n])) [] CANARY_COUNTERS;
  reason <-! HGET key (lit "tripped_reason");
  match reason with
  | None => s_ret (counters, [])
  | Some (HText reason) => s_ret (counters, reason)
  | Some (HInt _) => s_fail "tripped_reason is a text"
  end.

Definition CANARY_TRIP_SCRIPT (key reason : str) (hold_ms : Z) : script Srv Z :=
  if hold_ms <=? 0 then s_ret 0
  else
    HSET key [(lit "tripped_reason", HText reason)];!
    PEXPIRE key (Z.max hold_ms 1000);!
    s_ret 1.
End Scripts.
