(* ===== verification/RedisBackend.v ===== *)
(** * The Redis backend (crate [wayfinder-gateway], [src/state.rs])

    The operations of [RedisStateBackend]: their validation, the script each
    runs and the decoding of its reply.  A connection that fails is a script
    that fails; a reply lost after its script ran, and the opening of the
    connection, are not modelled. *)
From S2P Require Export Scripts.
Close Scope script_scope.

Section Backend.
Context {Srv : Type} `{Redis Srv} (base64url : list Z -> str).

Record RedisStateBackend := {
  rs_server : Srv;
  rs_keys : RedisKeyNamespace;
  rs_degraded : bool;
}.

Definition set_server (b : RedisStateBackend) (s : Srv) : RedisStateBackend :=
  {| rs_server := s; rs_keys := rs_keys b; rs_degraded := rs_degraded b |}.

(** A successful call clears the degraded mark, a failed one sets it. *)
Definition mark {A} (b : RedisStateBackend) (r : result A StateBackendError) : RedisStateBackend * result A StateBackendError :=
  ({| rs_server := rs_server b; rs_keys := rs_keys b; rs_degraded := negb (is_ok r) |}, r).

Definition invoke {A} (b : RedisStateBackend) (m : script Srv A) : RedisStateBackend * result A StateBackendError :=
  let '(s, r) := m (rs_server b) in (set_server b s, map_err (fun _ => Unavailable) r).

(** [self.mark(value.map_err(..).and_then(decode))]. *)
Definition call {A B} (b : RedisStateBackend) (m : script Srv A) (decode : A -> result B StateBackendError)
    : RedisStateBackend * result B StateBackendError :=
  let '(b, r) := invoke b m in mark b (result_bind r decode).

(** A validation that fails returns before the server is asked. *)
Definition checked {A B} (b : RedisStateBackend) (r : result A StateBackendError)
    (k : A -> RedisStateBackend * result B StateBackendError) : RedisStateBackend * result B StateBackendError :=
  match r with Ok x => k x | Err e => (b, Err e) end.

Definition is_one (n : Z) : result bool StateBackendError := Ok (n =? 1).
Definition ignored {A} (_ : A) : result unit StateBackendError := Ok ().

Definition redis_admit (b : RedisStateBackend) (key : str) (config : StateLimitConfig) (now : f64) :=
  checked b (StateLimitConfig_validate config) (fun config =>
    call b (ADMIT_SCRIPT (ns_limit (rs_keys b) key) (window_millis (slc_window_seconds config)) (default 0 (slc_rpm config))
              (default 0 (slc_tpm config))) redis_result).

Definition redis_reserve_with (reserve_request : bool) (b : RedisStateBackend) (key : str) (config : StateLimitConfig) (tokens : Z) :=
  call b (RESERVE_SCRIPT (ns_limit (rs_keys b) key) (window_millis (slc_window_seconds config)) (default 0 (slc_rpm config))
            (default 0 (slc_tpm config)) tokens reserve_request)
    (fun value => redis_reservation_result value tokens reserve_request).

Definition redis_reserve (b : RedisStateBackend) (key : str) (config : StateLimitConfig) (tokens : Z) (now : f64) :=
  checked b (StateLimitConfig_validate config) (fun config => redis_reserve_with true b key config tokens).

Definition redis_reserve_tokens (b : RedisStateBackend) (key : str) (config : StateLimitConfig) (tokens : Z) (now : f64) :=
  checked b (StateLimitConfig_validate config) (fun config =>
    match slc_tpm config with
    | None => (b, Ok {| rate := admitted; reservation := None |})
    | Some _ => redis_reserve_with false b key config tokens
    end).

Definition redis_reconcile (b : RedisStateBackend) (key : str) (config : StateLimitConfig) (r : RateReservation) (actual : Z) (now : f64) :=
  checked b (StateLimitConfig_validate config) (fun _ =>
    call b (RECONCILE_SCRIPT (ns_limit (rs_keys b) key) (rr_window_id r) (reserved_tokens r) actual) is_one).

Definition redis_rollback (b : RedisStateBackend) (key : str) (config : StateLimitConfig) (r : RateReservation) (now : f64) :=
  checked b (StateLimitConfig_validate config) (fun _ =>
    call b (ROLLBACK_SCRIPT (ns_limit (rs_keys b) key) (rr_window_id r) (reserved_tokens r) (reserved_request r)) is_one).

Definition redis_add_tokens (b : RedisStateBackend) (key : str) (config : StateLimitConfig) (tokens : Z) (now : f64) :=
  checked b (StateLimitConfig_validate config) (fun config =>
    call b (ADD_TOKENS_SCRIPT (ns_limit (rs_keys b) key) (window_millis (slc_window_seconds config)) tokens) ignored).

(** ** Costs and budgets *)

(** [BTreeSet] of the scopes: each once, in order. *)
Definition cost_scopes (scopes : list str) : result (list str) StateBackendError :=
  let? _ := unless (existsb bad_id scopes) in
  let distinct := bt_keys (bt_of_list (map (fun scope => (scope, ())) scopes)) in
  let? _ := unless (bool_decide (distinct = []) || (8 <? len distinct)) in
  Ok distinct.

Definition cost_keys (n : RedisKeyNamespace) (date scope : str) : list str :=
  [ns_ledger base64url n (lit "day:" ++ date) scope; ns_ledger base64url n (lit "month:" ++ take 7 date) scope;
   ns_ledger base64url n (lit "all") scope].

Definition i64_of_u64 (n : Z) : result Z StateBackendError := if i64_max <? n then Err Unavailable else Ok n.

Definition redis_record_cost (b : RedisStateBackend) (o : SharedCostObservation) :=
  let n := rs_keys b in
  checked b
    (let? date := validate_ledger_date (co_date o) in
     let? _ := unless (bad_id (co_request_id o)) in
     let? scopes := cost_scopes (co_scopes o) in
     let? realized := scaled_cost (co_realized o) in
     let? baseline := scaled_cost (co_baseline o) in
     let? savings := scaled_signed_cost (co_savings o) in
     let? prompt := i64_of_u64 (co_prompt_tokens o) in
     let? completion := i64_of_u64 (co_completion_tokens o) in
     Ok (concat (map (cost_keys n date) scopes),
         {| ca_realized := realized; ca_baseline := baseline; ca_savings := savings; ca_prompt := prompt;
            ca_completion := completion; ca_estimated := if co_estimated o then 1 else 0 |}))
    (fun '(keys, args) => call b (RECORD_COST_SCRIPT (ns_ledger_seen n) (co_request_id o) args keys) is_one).

(** [spend] returns before [mark] when the read fails. *)
Definition redis_spend (b : RedisStateBackend) (window scope date : str) :=
  checked b
    (let? date := validate_ledger_date date in
     let? _ := unless (bad_id scope) in
     budget_period date window)
    (fun period =>
       let '(b, r) := invoke b (HGET (ns_ledger base64url (rs_keys b) period scope) (lit "realized_micros")) in
       match r with
       | Err e => (b, Err e)
       | Ok None => mark b (Ok f64_zero)
       | Ok (Some (HInt micros)) => mark b (Ok (f64_div (f64_of_Z micros) SHARED_COST_SCALE))
       | Ok (Some (HText _)) => (b, Err Unavailable)
       end).

Definition ledger_ttl_ms (window : str) : result Z StateBackendError :=
  if str_eqb window (lit "day") then Ok (SHARED_LEDGER_DAY_TTL_SECONDS * 1000)
  else if str_eqb window (lit "month") || str_eqb window (lit "all") then Ok (SHARED_LEDGER_MONTH_TTL_SECONDS * 1000)
  else Err Unavailable.

Definition budget_arg (s : SharedBudgetScope) (keys : str * str * str) : result BudgetArg StateBackendError :=
  let '(ledger, expiry, amounts) := keys in
  let? limit := scaled_cost (sc_limit s) in
  let? ttl := ledger_ttl_ms (sc_window s) in
  Ok {| ba_ledger := ledger; ba_expiry := expiry; ba_amounts := amounts; ba_limit := limit; ba_blocks := blocks s;
        ba_ledger_ttl_ms := ttl |}.

Definition redis_reserve_budget (b : RedisStateBackend) (r : SharedBudgetReservation) :=
  checked b
    (let? _ := unless (bad_id (br_request_id r) || bool_decide (br_scopes r = []) || (8 <? len (br_scopes r))) in
     let? amount := scaled_cost (br_amount r) in
     let? keys := shared_budget_keys base64url (rs_keys b) (br_date r) (br_scopes r) in
     let? args := traverse (fun '(s, k) => budget_arg s k) (zip (br_scopes r) keys) in
     Ok (amount, args))
    (fun '(amount, args) => call b (RESERVE_BUDGET_SCRIPT (br_request_id r) amount args SHARED_BUDGET_RESERVATION_TTL_MS) is_one).

Definition redis_release_budget (b : RedisStateBackend) (r : SharedBudgetReservation) :=
  checked b (shared_budget_keys base64url (rs_keys b) (br_date r) (br_scopes r))
    (fun keys => call b (RELEASE_BUDGET_SCRIPT keys (br_request_id r)) ignored).

(** ** Admission and health *)
Definition redis_acquire_admission (b : RedisStateBackend) (limit : Z) (lease_id : str) (ttl_ms : Z) :=
  checked b (unless ((limit =? 0) || bad_id lease_id || (ttl_ms =? 0)))
    (fun _ => call b (ACQUIRE_ADMISSION_SCRIPT (ns_admission (rs_keys b)) limit ttl_ms lease_id) is_one).

Definition redis_release_admission (b : RedisStateBackend) (lease_id : str) :=
  call b (RELEASE_ADMISSION_SCRIPT (ns_admission (rs_keys b)) lease_id) ignored.

Definition health_inputs (target : str) (threshold cooldown_ms : Z) (probe_id : str) : result unit StateBackendError :=
  unless ((threshold =? 0) || (cooldown_ms =? 0) || str_eqb target [] || str_eqb probe_id []).

Definition redis_begin_provider_health (b : RedisStateBackend) (target : str) (threshold cooldown_ms : Z) (probe_id : str) :=
  checked b (health_inputs target threshold cooldown_ms probe_id)
    (fun _ => call b (BEGIN_HEALTH_SCRIPT (ns_health base64url (rs_keys b) target) cooldown_ms probe_id) is_one).

Definition redis_complete_provider_health (b : RedisStateBackend) (target : str) (threshold cooldown_ms : Z) (probe_id : str)
    (succeeded : bool) :=
  checked b (health_inputs target threshold cooldown_ms probe_id)
    (fun _ => call b (COMPLETE_HEALTH_SCRIPT (ns_health base64url (rs_keys b) target) threshold cooldown_ms probe_id succeeded)
                (fun n => unless (negb (n =? 1)))).

Definition redis_release_provider_health (b : RedisStateBackend) (target probe_id : str) :=
  call b (RELEASE_HEALTH_SCRIPT (ns_health base64url (rs_keys b) target) probe_id) ignored.

(** ** The cache *)
Definition cache_keys (n : RedisKeyNamespace) (key : str) : CacheKeys :=
  {| ck_entry := cache_entry n key; ck_meta := cache_meta n; ck_sizes := cache_sizes n; ck_index := cache_index n;
     ck_prefix := cache_entry_prefix n |}.

Definition redis_shared_cache_get (b : RedisStateBackend) (generation key : str) :=
  checked b (validate_shared_cache_inputs generation key)
    (fun _ => call b (SHARED_CACHE_GET_SCRIPT (cache_keys (rs_keys b) key) key generation) Ok).

Definition redis_shared_cache_put (b : RedisStateBackend) (p : SharedCachePut) :=
  checked b (validate_shared_cache_inputs (cp_generation p) (cp_key p)) (fun _ =>
    if (cp_max_entries p =? 0) || (cp_max_bytes p =? 0) || (cp_max_bytes p <? cp_body_bytes p) then (b, Ok false)
    else checked b (cache_ttl_millis (cp_ttl_seconds p)) (fun ttl_ms =>
      call b (SHARED_CACHE_PUT_SCRIPT (cache_keys (rs_keys b) (cp_key p)) (cp_key p) (cp_generation p) (cp_value p) (cp_body_bytes p)
                ttl_ms (cp_max_entries p) (cp_max_bytes p)) is_one)).

Definition redis_shared_cache_clear (b : RedisStateBackend) (generation : str) :=
  checked b (unless (bad_id generation)) (fun _ => call b (SHARED_CACHE_CLEAR_SCRIPT (cache_keys (rs_keys b) [])) ignored).

(** ** Canaries *)
Definition opt_scaled (v : option f64) : result Z StateBackendError :=
  match v with Some v => scaled_cost v | None => Ok (-1) end.

(** [(value * SHARED_QUALITY_SCALE).round() as i64]. *)
Definition scaled_quality (v : option f64) : result Z StateBackendError :=
  match v with
  | None => Ok (-1)
  | Some v => if negb (f64_is_finite v) || negb (f64_in_range f64_zero f64_one v) then Err Unavailable
              else Ok (f64_to_i64 (f64_round (f64_mul v SHARED_QUALITY_SCALE)))
  end.

Definition redis_record_canary (b : RedisStateBackend) (o : SharedCanaryObservation) (window_seconds now : f64) :=
  let n := rs_keys b in
  checked b
    (let? _ := validate_canary_inputs o window_seconds in
     let? realized := opt_scaled (ob_realized_cost o) in
     let? baseline := opt_scaled (ob_baseline_cost o) in
     let? quality := scaled_quality (ob_quality_loss o) in
     Ok (realized, baseline, quality))
    (fun '(realized, baseline, quality) =>
       call b (CANARY_RECORD_SCRIPT (ns_canary base64url n (ob_rollout_id o)) (ns_canary_seen base64url n (ob_rollout_id o))
                 (ob_request_id o) (window_millis window_seconds) (ob_succeeded o) (ob_latency_ms o) realized baseline quality) is_one).

Definition unscale (n : Z) (scale : f64) : f64 := f64_div (f64_of_Z (Z.max n 0)) scale.

Definition canary_reply (value : list Z * str) : result SharedCanarySnapshot StateBackendError :=
  match value with
  | ([requests; errors; latency; latency_samples; realized; baseline; cost_samples; quality; quality_samples], reason) =>
      let? requests := non_negative_u64 requests in
      let? errors := non_negative_u64 errors in
      let? latency := non_negative_u64 latency in
      let? latency_samples := non_negative_u64 latency_samples in
      let? cost_samples := non_negative_u64 cost_samples in
      let? quality_samples := non_negative_u64 quality_samples in
      Ok {| sn_requests := requests; sn_errors := errors; sn_latency_sum_ms := latency; sn_latency_samples := latency_samples;
            sn_realized_cost := unscale realized SHARED_COST_SCALE; sn_baseline_cost := unscale baseline SHARED_COST_SCALE;
            sn_cost_samples := cost_samples; sn_quality_loss := unscale quality SHARED_QUALITY_SCALE;
            sn_quality_samples := quality_samples; sn_tripped_reason := match reason with [] => None | _ => Some reason end |}
  | _ => Err Unavailable
  end.

(** A failed read, or a counter out of range, returns before [mark]. *)
Definition redis_canary_snapshot (b : RedisStateBackend) (rollout_id : str) (window_seconds now : f64) :=
  let n := rs_keys b in
  checked b
    (let? _ := unless (bad_id rollout_id) in
     unless (negb (f64_is_finite window_seconds) || f64_le window_seconds f64_zero))
    (fun _ =>
       let '(b, r) := invoke b (CANARY_SNAPSHOT_SCRIPT (ns_canary base64url n rollout_id) (ns_canary_seen base64url n rollout_id)
                                  (window_millis window_seconds)) in
       match result_bind r canary_reply with
       | Err e => (b, Err e)
       | Ok snapshot => mark b (Ok snapshot)
       end).

Definition redis_trip_canary (b : RedisStateBackend) (rollout_id reason : str) (hold_seconds now : f64) :=
  checked b (unless (bad_id rollout_id || bad_id reason || negb (f64_is_finite hold_seconds) || f64_le hold_seconds f64_zero))
    (fun _ => call b (CANARY_TRIP_SCRIPT (ns_canary base64url (rs_keys b) rollout_id) reason (window_millis hold_seconds))
                (fun n => unless (negb (n =? 1)))).

(** ** Snapshots and audit *)
Definition redis_snapshot (b : RedisStateBackend) (key : str) (config : StateLimitConfig) (now : f64) :=
  checked b (StateLimitConfig_validate config) (fun config =>
    match slc_rpm config with
    | None => (b, Ok None)
    | Some limit =>
        call b (SNAPSHOT_SCRIPT (ns_limit (rs_keys b) key) (window_millis (slc_window_seconds config)))
          (fun '(requests, reset) =>
             let? requests := non_negative_u64 requests in
             let? reset := non_negative_u64 reset in
             Ok (Some {| snap_limit := limit; snap_remaining := u64_sat_sub limit requests; snap_reset_seconds := reset |}))
    end).

Definition redis_append_audit (b : RedisStateBackend) (key event : str) (max_events : Z) :=
  checked b (unless (max_events =? 0))
    (fun _ => call b (APPEND_AUDIT_SCRIPT (ns_audit base64url (rs_keys b) key) event max_events) ignored).

Definition redis_backend : StateBackend RedisStateBackend := {|
  backend_name _ := lit "redis";
  sb_admit := redis_admit;
  sb_reserve := redis_reserve;
  sb_reserve_tokens := redis_reserve_tokens;
  sb_reconcile := redis_reconcile;
  sb_rollback := redis_rollback;
  sb_add_tokens := redis_add_tokens;
  sb_snapshot := redis_snapshot;
  sb_record_cost := redis_record_cost;
  sb_spend := redis_spend;
  sb_reserve_budget := redis_reserve_budget;
  sb_release_budget := redis_release_budget;
  sb_acquire_admission := redis_acquire_admission;
  sb_release_admission := redis_release_admission;
  sb_begin_provider_health := redis_begin_provider_health;
  sb_complete_provider_health := redis_complete_provider_health;
  sb_release_provider_health := redis_release_provider_health;
  sb_shared_cache_get := redis_shared_cache_get;
  sb_shared_cache_put := redis_shared_cache_put;
  sb_shared_cache_clear := redis_shared_cache_clear;
  sb_record_canary := redis_record_canary;
  sb_canary_snapshot := redis_canary_snapshot;
  sb_trip_canary := redis_trip_canary;
  sb_append_audit := redis_append_audit;
  sb_degraded := rs_degraded;
|}.

Lemma reply_rejects value tokens b res : redis_reservation_result value tokens b = Ok res -> allowed (rate res) = false -> reservation res = None.
Proof.
  unfold redis_reservation_result. destruct value as [verdict window]. destruct (redis_result verdict) as [r|]; cbn [result_bind]; [|done].
  destruct (allowed r) eqn:E; [|by intros [= <-]]. destruct (non_negative_u64 window); cbn [result_bind]; [|done].
  intros [= <-] Ha. cbn [rate] in Ha. congruence.
Qed.

#[export] Instance redis_backend_laws : @StateBackendLaws _ redis_backend.
Proof.
  constructor. intros b key c n now b' res Hr Ha. cbn [sb_reserve_tokens redis_backend] in Hr.
  unfold redis_reserve_tokens, redis_reserve_with, checked, call in Hr.
  destruct (StateLimitConfig_validate c) as [c'|]; [|done]. destruct (slc_tpm c'); [|by injection Hr as _ <-].
  destruct (invoke _ _) as [b1 [v|e]]; cbn [result_bind] in Hr; unfold mark in Hr; injection Hr as _ Hr; [|done].
  by eapply reply_rejects.
Qed.
End Backend.
