(* ===== verification/FleetCircuit.v ===== *)
(** * Fleet circuits and fleet admission (crate [wayfinder-gateway], [src/state.rs])

    What the health and admission scripts promise to the replicas that run
    them, over every interleaving: the scripts are atomic, time passes between
    them, and a key is gone when its deadline has passed. *)
From S2P Require Export RedisBackend.

Section Circuit.
Context {Srv : Type} `{RedisLaws Srv}.
Implicit Types s : Srv.

Lemma lua_now_ok s s' n : lua_now s = (s', Ok n) -> view_of s' = view_of s /\ n = now_ms (view_of s).
Proof. unfold lua_now. intros Hn. lua. lua_views. by subst. Qed.

Lemma lua_member_ok k f s s' n : lua_member k f s = (s', Ok n) ->
  view_of s' = view_of s /\ exists h, hash_of (v_data (view_of s) !! k) = Some h /\ (h !! f = None /\ n = 0 \/ h !! f = Some (HInt n)).
Proof.
  unfold lua_member. intros Hn. lua_open. lua_law. destruct (_ !! f) as [[m|t]|] eqn:Hf; lua_open.
  - split; [done|]. eexists. split; [done|]. by right.
  - split; [done|]. eexists. split; [done|]. by left.
Qed.

Lemma lua_field_ok k f s s' n : lua_field k f s = (s', Ok n) ->
  view_of s' = view_of s /\ exists h, hash_of (v_data (view_of s) !! k) = Some h /\ (h !! lit f = None /\ n = 0 \/ h !! lit f = Some (HInt n)).
Proof. apply lua_member_ok. Qed.

(** ** Circuits *)
Section Health.
Context (key : str) (threshold cooldown_ms : Z).

Definition field_at (v : view) (f : string) : option hval := hash_of (v_data v !! key) ≫= (fun h => h !! lit f).
Definition probe_at (v : view) : option hval := field_at v "probe".

Lemma other_probe_true probe p : other_probe probe p = true <-> probe <> Some (HText p).
Proof. unfold other_probe. rewrite negb_true_iff. apply bool_decide_eq_false. Qed.

Lemma other_probe_false probe p : other_probe probe p = false <-> probe = Some (HText p).
Proof. unfold other_probe. rewrite negb_false_iff. apply bool_decide_eq_true. Qed.

Lemma probe_free probe p : bool_decide (probe <> None) && other_probe probe p = false -> probe = None \/ probe = Some (HText p).
Proof.
  intros [E%bool_decide_eq_false|E%other_probe_false]%andb_false_iff; [left|by right]. by destruct probe; [destruct E|].
Qed.

Lemma probe_taken probe p : bool_decide (probe <> None) && other_probe probe p = true -> probe <> None /\ probe <> Some (HText p).
Proof. intros [?%bool_decide_eq_true ?%other_probe_true]%andb_true_iff. done. Qed.

(** [PEXPIRE] with a positive time keeps the data. *)
Lemma expire_positive v k ms : 0 < ms -> (if ms <=? 0 then v_del v k else v_expire v k ms) = v_expire v k ms.
Proof. intros. by destruct (Z.leb_spec ms 0); [lia|]. Qed.

Lemma begin_ok p s s' n : BEGIN_HEALTH_SCRIPT key cooldown_ms p s = (s', Ok n) ->
  n = 0 /\ view_of s' = view_of s /\ probe_at (view_of s) <> Some (HText p) \/
  n = 1 /\ (probe_at (view_of s) = None \/ probe_at (view_of s) = Some (HText p)) /\
    probe_at (view_of s') = Some (HText p) /\
    (forall u, field_at (view_of s) "open_until" = Some (HInt u) -> now_ms (view_of s) < u -> probe_at (view_of s) = Some (HText p)).
Proof.
  unfold BEGIN_HEALTH_SCRIPT. intros Hb. lua_open.
  match goal with Hn : lua_now _ = _ |- _ => apply lua_now_ok in Hn as [Hv0 ->] end.
  match goal with Hn : lua_field _ _ _ = _ |- _ => apply lua_field_ok in Hn as [Hv1 (h & Hh & Hou)] end.
  lua_law. unfold probe_at, field_at. lua_views. simplify_eq.
  match goal with Hx : hash_of _ = Some _ |- _ => rewrite Hx in * end. simplify_eq. cbn [mbind option_bind].
  destruct ((_ <? _) && other_probe (h !! lit "probe") p) eqn:E1.
  { lua_open. left. apply andb_true_iff in E1 as [_ E1%other_probe_true]. split_and!; done. }
  destruct (bool_decide (h !! lit "probe" <> None) && other_probe _ p) eqn:E2.
  { lua_open. left. apply probe_taken in E2 as [_ E2]. split_and!; done. }
  right. lua. rewrite expire_positive in * by lia. lua_views. split; [done|].
  apply probe_free in E2.
  split; [done|]. split.
  - rewrite v_expire_data, hash_of_set. cbn [mbind option_bind hset_all foldl]. simplify_eq. by rewrite lookup_insert_eq.
  - intros u Hu Hlt. destruct Hou as [[Hou ->]|Hou]; rewrite Hou in Hu; [done|]. injection Hu as ->.
    apply andb_false_iff in E1 as [E1|E1]; [lia|]. by apply other_probe_false.
Qed.

(** A request is refused only by a cooldown that lasts or by another's attempt. *)
Lemma begin_refused p s s' : BEGIN_HEALTH_SCRIPT key cooldown_ms p s = (s', Ok 0) ->
  (forall u, field_at (view_of s) "open_until" = Some (HInt u) -> now_ms (view_of s) < u) \/ probe_at (view_of s) <> None.
Proof.
  unfold BEGIN_HEALTH_SCRIPT. intros Hb. lua_open.
  match goal with Hn : lua_now _ = _ |- _ => apply lua_now_ok in Hn as [Hv0 ->] end.
  match goal with Hn : lua_field _ _ _ = _ |- _ => apply lua_field_ok in Hn as [Hv1 (h & Hh & Hou)] end.
  lua_law. unfold probe_at, field_at. lua_views. simplify_eq.
  match goal with Hx : hash_of _ = Some _ |- _ => rewrite Hx in * end. simplify_eq. cbn [mbind option_bind].
  destruct ((_ <? _) && other_probe (h !! lit "probe") p) eqn:E1.
  { left. intros u Hu. apply andb_true_iff in E1 as [E1 _]. destruct Hou as [[Hou ->]|Hou]; rewrite Hou in Hu; [done|].
    injection Hu as ->. lia. }
  destruct (bool_decide (h !! lit "probe" <> None) && other_probe _ p) eqn:E2; [right; by apply probe_taken in E2 as [? _]|].
  lua_open. discriminate.
Qed.

Lemma complete_ok p succeeded s s' n : COMPLETE_HEALTH_SCRIPT key threshold cooldown_ms p succeeded s = (s', Ok n) ->
  n = 0 /\ view_of s' = view_of s /\ probe_at (view_of s) <> None /\ probe_at (view_of s) <> Some (HText p) \/
  n = 1 /\ (probe_at (view_of s) = None \/ probe_at (view_of s) = Some (HText p)) /\ probe_at (view_of s') = None /\
    if succeeded then field_at (view_of s') "failures" = Some (HInt 0) /\ field_at (view_of s') "open_until" = Some (HInt 0)
    else exists failures, (field_at (view_of s) "failures" = None /\ failures = 0 \/ field_at (view_of s) "failures" = Some (HInt failures)) /\
      field_at (view_of s') "failures" = Some (HInt (failures + 1)) /\
      field_at (view_of s') "open_until" =
        if threshold <=? failures + 1 then Some (HInt (now_ms (view_of s) + cooldown_ms)) else field_at (view_of s) "open_until".
Proof.
  unfold COMPLETE_HEALTH_SCRIPT. intros Hb. lua_open.
  match goal with Hn : lua_now _ = _ |- _ => apply lua_now_ok in Hn as [Hv0 ->] end.
  lua_law. match goal with Hr : view_of _ = view_of _, Hx : hash_of _ = Some ?h0 |- _ =>
    rewrite Hv0 in Hr, Hx; rename Hr into Hv1; rename Hx into Hh; rename h0 into h end.
  unfold probe_at, field_at. rewrite Hh. cbn [mbind option_bind].
  destruct (bool_decide _ && other_probe _ p) eqn:E.
  { lua_open. left. apply probe_taken in E as [E1 E2]. by rewrite Hv1. }
  right. apply probe_free in E. destruct succeeded.
  - lua. lua_views. rewrite hash_of_set in *. simplify_eq. rewrite hash_of_hash. cbn [mbind option_bind].
    split; [done|]. split; [done|]. fields. done.
  - lua_open. match goal with Hf : HINCRBY _ _ _ _ = _ |- _ => apply (writes_ok _ _ _ (hincrby_law _ _ _)) in Hf
      as (h' & failures & Hh' & Hf & -> & Hv') end.
    rewrite Hv1, Hh in Hh'. injection Hh' as <-.
    destruct (threshold <=? failures + 1) eqn:Ht; lua; lua_views; rewrite ?hash_of_set in *; simplify_eq;
      rewrite ?hash_of_set in *; simplify_eq; rewrite hash_of_hash; cbn [mbind option_bind].
    all: split; [done|]; split; [done|]; split; [by fields|]; exists failures; split; [done|].
    all: rewrite Ht; fields; done.
Qed.

Lemma release_ok p s s' n : RELEASE_HEALTH_SCRIPT key p s = (s', Ok n) ->
  probe_at (view_of s) <> Some (HText p) /\ view_of s' = view_of s \/
  probe_at (view_of s) = Some (HText p) /\ probe_at (view_of s') = None.
Proof.
  unfold RELEASE_HEALTH_SCRIPT. intros Hr. lua_open. lua_law. unfold probe_at, field_at.
  match goal with Hx : hash_of _ = Some _ |- _ => rename Hx into Hh; rewrite Hh end. cbn [mbind option_bind].
  destruct (other_probe _ p) eqn:E; lua; lua_views.
  - left. by apply other_probe_true in E.
  - right. apply other_probe_false in E. split; [done|]. rewrite hash_of_hash. cbn [mbind option_bind]. simplify_eq. by rewrite lookup_delete_eq.
Qed.

(** ** One attempt at a time

    What the replicas see of a target's circuit, script by script. *)
Inductive health_event :=
| Begun (probe_id : str) (claimed : bool)
| Completed (probe_id : str) (succeeded recorded : bool)
| Released (probe_id : str)
| Waited (lapsed : bool).

Inductive health_step : health_event -> Srv -> Srv -> Prop :=
| step_begin p s s' n : BEGIN_HEALTH_SCRIPT key cooldown_ms p s = (s', Ok n) -> health_step (Begun p (n =? 1)) s s'
| step_complete p ok s s' n : COMPLETE_HEALTH_SCRIPT key threshold cooldown_ms p ok s = (s', Ok n) ->
    health_step (Completed p ok (n =? 1)) s s'
| step_release p s s' n : RELEASE_HEALTH_SCRIPT key p s = (s', Ok n) -> health_step (Released p) s s'
| step_wait s s' clock : now_ms (view_of s) <= clock.1 * 1000 + clock.2 / 1000 -> view_of s' = v_elapse (view_of s) clock ->
    health_step (Waited (lapsed (view_of s) (clock.1 * 1000 + clock.2 / 1000) key)) s s'.

Inductive health_run : list health_event -> Srv -> Srv -> Prop :=
| run_nil s : health_run [] s s
| run_cons e es s s1 s' : health_step e s s1 -> health_run es s1 s' -> health_run (e :: es) s s'.

(** What ends the attempt of [p], and what another request may be told. *)
Definition ends (p : str) (e : health_event) : Prop :=
  match e with Completed q _ _ | Released q => q = p | Waited lapsed => lapsed = true | Begun _ _ => False end.

Definition refused_to_others (p : str) (e : health_event) : Prop :=
  match e with Begun q claimed => claimed = true -> q = p | Completed q _ recorded => recorded = true -> q = p | _ => True end.

Lemma health_step_held p e s s' : probe_at (view_of s) = Some (HText p) -> health_step e s s' -> ~ ends p e ->
  probe_at (view_of s') = Some (HText p) /\ refused_to_others p e.
Proof.
  intros Hp Hs He. destruct Hs as [q s s' n Hb|q ok s s' n Hc|q s s' n Hr|s s' clock Ht Hv]; cbn [ends refused_to_others] in *.
  - apply begin_ok in Hb as [(-> & -> & _)|(-> & [Hn|Hq] & Hq' & _)]; [done|congruence|]. split; congruence.
  - apply complete_ok in Hc as [(-> & -> & _)|(-> & [Hn|Hq] & _)]; [done|congruence|]. destruct He. congruence.
  - apply release_ok in Hr as [[_ ->]|[Hq _]]; [done|]. destruct He. congruence.
  - split; [|done]. apply not_true_is_false in He. unfold probe_at, field_at in *. rewrite Hv, elapse_lookup, He. done.
Qed.
End Health.

(** The attempt of a request that holds the circuit, over any interleaving of
    scripts: nobody else is granted one. *)
Lemma held_until_ended key threshold cooldown_ms p es s s' :
  probe_at key (view_of s) = Some (HText p) -> health_run key threshold cooldown_ms es s s' -> Forall (fun e => ~ ends p e) es ->
  probe_at key (view_of s') = Some (HText p) /\ Forall (refused_to_others p) es.
Proof.
  intros Hp Hrun. induction Hrun as [s|e es s s1 s' Hs Hr IH]; [done|]. intros [He Hes]%Forall_cons.
  destruct (health_step_held key threshold cooldown_ms p e s s1 Hp Hs He) as [Hp1 Hre].
  destruct (IH Hp1 Hes) as [? ?]. by split; [|constructor].
Qed.

(** C12: An open circuit of the fleet lets one probe through, and only after its
    cooldown.  In a circuit that failures have opened until [u] and that no probe
    holds, a replica's request is granted the attempt exactly when the cooldown
    is over ([u] has passed); once granted, over any interleaving of scripts of
    any replicas, until that probe is completed or released or the key lapses, no
    other request is granted an attempt and no other request's outcome is
    recorded. *)
Theorem fleet_probe_exclusive key threshold cooldown_ms u p claimed es s s1 s' :
  field_at key (view_of s) "open_until" = Some (HInt u) -> 0 < u -> probe_at key (view_of s) = None ->
  health_step key threshold cooldown_ms (Begun p claimed) s s1 ->
  health_run key threshold cooldown_ms es s1 s' -> Forall (fun e => ~ ends p e) es ->
  claimed = (u <=? now_ms (view_of s)) /\
  (claimed = true -> probe_at key (view_of s') = Some (HText p) /\ Forall (refused_to_others p) es).
Proof.
  intros Hu _ Hnone Hstep Hrun Hes. inversion Hstep as [? ? ? n Hb| | |]; subst.
  pose proof (begin_ok _ _ _ _ _ _ Hb) as [(-> & Hv & _)|(-> & _ & Hp & Hopen)]; cbn [Z.eqb Pos.eqb]; (split; [|intros Hc]).
  - apply begin_refused in Hb as [Hlt|[]]; [|exact Hnone]. symmetry. apply Z.leb_gt. by apply Hlt.
  - discriminate.
  - symmetry. apply Z.leb_le. destruct (Z.lt_ge_cases (now_ms (view_of s)) u) as [Hlt|]; [|done].
    rewrite (Hopen u Hu Hlt) in Hnone. discriminate.
  - by apply (held_until_ended key threshold cooldown_ms p es s1).
Qed.
End Circuit.

(** ** Fleet admission *)
Section Admission.
Context {Srv : Type} `{RedisLaws Srv}.
Context (key : str).
Implicit Types s : Srv.

(** The leases that have not expired. *)
Definition unexpired (now : Z) (z : gmap str Z) : gmap str Z := filter (fun '(_, score) => now < score) z.

Lemma size_unexpired now z : (size (unexpired now z) <= size z)%nat.
Proof. apply map_subseteq_size, map_filter_subseteq. Qed.

Lemma acquire_ok limit ttl_ms lease s s' n : ACQUIRE_ADMISSION_SCRIPT key limit ttl_ms lease s = (s', Ok n) ->
  0 < ttl_ms /\ exists z, zset_of (v_data (view_of s) !! key) = Some z /\
  let now := now_ms (view_of s) in
  let kept := unexpired now z in
  let swept := v_zset (view_of s) key kept in
  (n = 1 /\ is_Some (kept !! lease) /\ view_of s' = swept) \/
  (n = 0 /\ kept !! lease = None /\ limit <= Z.of_nat (size kept) /\ view_of s' = swept) \/
  (n = 1 /\ kept !! lease = None /\ Z.of_nat (size kept) < limit /\
   view_of s' = v_expire (v_set swept key (RZset (<[lease := now + ttl_ms]> kept))) key ttl_ms).
Proof.
  unfold ACQUIRE_ADMISSION_SCRIPT. destruct ((limit <? 1) || (ttl_ms <? 1)) eqn:Hb; [done|]. zify_bools. intros Ha. lua_open.
  match goal with Hn : lua_now _ = _ |- _ => apply lua_now_ok in Hn as [Hv0 ->] end.
  match goal with Hc : ZREMRANGEBYSCORE _ _ _ = _ |- _ => apply (writes_ok _ _ _ (zremrangebyscore_law _ _)) in Hc as (z & Hz & Hv1) end.
  match goal with Hc : ZSCORE _ _ _ = (?t, _) |- _ => rename t into s2;
    apply (reads_ok _ _ _ (zscore_law _ _)) in Hc as [Hv2 (z2 & Hz2 & Hx)] end.
  rewrite Hv0 in Hz, Hv1. fold (unexpired (now_ms (view_of s)) z) in Hv1. rewrite Hv1, zset_of_zset in Hz2. injection Hz2 as <-. subst.
  split; [lia|]. exists z. split; [done|]. cbv zeta. set (kept := unexpired (now_ms (view_of s)) z) in *. rewrite Hv1 in Hv2.
  assert (Hk : zset_of (v_data (view_of s2) !! key) = Some kept) by (rewrite Hv2; apply zset_of_zset).
  destruct (kept !! lease) as [score|] eqn:Hl; lua_open; [left; by split_and!|right].
  match goal with Hc : ZCARD _ _ = (?t, _) |- _ => rename t into s3;
    apply (reads_ok _ _ _ (zcard_law _)) in Hc as [Hv3 (z3 & Hz3 & ->)] end.
  rewrite Hk in Hz3. injection Hz3 as <-. rewrite Hv2 in Hv3.
  destruct (Z.leb_spec limit (Z.of_nat (size kept))); lua_open; [left; by split_and!|right].
  match goal with Hc : ZADD _ _ _ _ = (?t, _) |- _ => rename t into s4;
    apply (writes_ok _ _ _ (zadd_law _ _ _)) in Hc as (z4 & Hz4 & Hv4) end.
  rewrite Hv3, zset_of_zset in Hz4. injection Hz4 as <-.
  match goal with Hc : PEXPIRE _ _ _ = _ |- _ => apply (writes_ok _ _ _ (pexpire_law _ _)) in Hc as Hv5 end.
  rewrite expire_positive in Hv5 by lia. split_and!; [done..|]. by rewrite Hv5, Hv4, Hv3.
Qed.

Lemma v_del_twice v k : v_del (v_del v k) k = v_del v k.
Proof. unfold v_del. cbn [v_data v_deadline v_clock]. by rewrite !delete_delete_eq. Qed.

Lemma release_admission_ok lease s s' n : RELEASE_ADMISSION_SCRIPT key lease s = (s', Ok n) ->
  exists z, zset_of (v_data (view_of s) !! key) = Some z /\ view_of s' = v_zset (view_of s) key (delete lease z).
Proof.
  unfold RELEASE_ADMISSION_SCRIPT. intros Hr. lua_open.
  match goal with Hc : ZREM _ _ _ = _ |- _ => apply (writes_ok _ _ _ (zrem_law _ _)) in Hc as (z & Hz & Hv1) end.
  match goal with Hc : ZCARD _ _ = _ |- _ => apply (reads_ok _ _ _ (zcard_law _)) in Hc as [Hv2 (z2 & Hz2 & ->)] end.
  rewrite Hv1, zset_of_zset in Hz2. injection Hz2 as <-. exists z. split; [done|].
  match goal with Hc : (if _ then _ else _) _ = _ |- _ => destruct (Z.eqb_spec (Z.of_nat (size (delete lease z))) 0) as [E|E]; lua_open end.
  - match goal with Hc : DEL _ _ = _ |- _ => apply (writes_ok _ _ _ (del_law _)) in Hc as -> end.
    rewrite Hv2, Hv1. assert (delete lease z = ∅) as -> by (apply map_size_empty_iff; lia).
    unfold v_zset. rewrite bool_decide_eq_true_2 by done. apply v_del_twice.
  - by rewrite Hv2, Hv1.
Qed.

(** *** Leases in flight

    A ghost map keeps, for each lease granted and not released, the time it is
    granted for; asking again for a lease in flight does not extend it. *)
Definition granted (lease : str) (now ttl_ms : Z) (g : gmap str Z) : gmap str Z :=
  match unexpired now g !! lease with Some _ => g | None => <[lease := now + ttl_ms]> g end.

Inductive admission_step (limit ttl_ms : Z) : gmap str Z * Srv -> gmap str Z * Srv -> Prop :=
| step_acquire g lease s s' n : ACQUIRE_ADMISSION_SCRIPT key limit ttl_ms lease s = (s', Ok n) ->
    admission_step limit ttl_ms (g, s) (if n =? 1 then granted lease (now_ms (view_of s)) ttl_ms g else g, s')
| step_release_lease g lease s s' n : RELEASE_ADMISSION_SCRIPT key lease s = (s', Ok n) ->
    admission_step limit ttl_ms (g, s) (delete lease g, s')
| step_elapse g s s' : passes s s' -> admission_step limit ttl_ms (g, s) (g, s').

Record leases_ok (limit ttl_ms : Z) (g : gmap str Z) (v : view) (z : gmap str Z) : Prop := {
  lo_zset : zset_of (v_data v !! key) = Some z;
  lo_live : unexpired (now_ms v) z = unexpired (now_ms v) g;
  lo_size : Z.of_nat (size z) <= limit;
  lo_deadline : forall lease score, z !! lease = Some score ->
    score <= now_ms v + ttl_ms /\ exists d, v_deadline v !! key = Some d /\ score <= d;
}.

Lemma unexpired_lookup now z lease score : unexpired now z !! lease = Some score <-> z !! lease = Some score /\ now < score.
Proof. unfold unexpired. by rewrite map_lookup_filter_Some. Qed.

Lemma unexpired_insert now z lease score : now < score -> unexpired now (<[lease := score]> z) = <[lease := score]> (unexpired now z).
Proof. intros. unfold unexpired. by rewrite map_filter_insert_True. Qed.

Lemma unexpired_delete now z lease : unexpired now (delete lease z) = delete lease (unexpired now z).
Proof. unfold unexpired. apply map_filter_delete. Qed.

Lemma unexpired_twice now z : unexpired now (unexpired now z) = unexpired now z.
Proof. unfold unexpired. rewrite map_filter_filter. apply map_filter_ext. naive_solver. Qed.

Lemma unexpired_later now now' z : now <= now' -> unexpired now' (unexpired now z) = unexpired now' z.
Proof. intros. unfold unexpired. rewrite map_filter_filter. apply map_filter_ext. intros i x _. split; [naive_solver|lia]. Qed.

Lemma v_zset_deadline v z lease score : z !! lease = Some score -> v_deadline (v_zset v key z) = v_deadline v.
Proof. intros Hl. unfold v_zset. rewrite bool_decide_eq_false_2; [done|]. intros ->. by rewrite lookup_empty in Hl. Qed.

Lemma now_zset v k z : now_ms (v_zset v k z) = now_ms v.
Proof. unfold now_ms. by rewrite v_zset_clock. Qed.

Lemma now_expire v k ms : now_ms (v_expire v k ms) = now_ms v.
Proof. unfold now_ms. by rewrite v_expire_clock. Qed.

Lemma leases_swept limit ttl_ms g v z : leases_ok limit ttl_ms g v z ->
  leases_ok limit ttl_ms g (v_zset v key (unexpired (now_ms v) z)) (unexpired (now_ms v) z).
Proof.
  intros [Hz Hl Hs Hd]. constructor; rewrite ?now_zset.
  - apply zset_of_zset.
  - by rewrite unexpired_twice.
  - pose proof (size_unexpired (now_ms v) z). lia.
  - intros lease score Hls. rewrite (v_zset_deadline _ _ _ _ Hls). apply unexpired_lookup in Hls as [Hls _]. by apply (Hd lease).
Qed.

Lemma leases_grant limit ttl_ms g v z lease : 0 < ttl_ms -> leases_ok limit ttl_ms g v z -> unexpired (now_ms v) z = z ->
  z !! lease = None -> Z.of_nat (size z) < limit ->
  leases_ok limit ttl_ms (granted lease (now_ms v) ttl_ms g)
    (v_expire (v_set v key (RZset (<[lease := now_ms v + ttl_ms]> z))) key ttl_ms) (<[lease := now_ms v + ttl_ms]> z).
Proof.
  intros Httl [Hz Hl Hs Hd] Hall Hnone Hlt. unfold granted. rewrite <-Hl, Hall, Hnone.
  constructor; rewrite ?now_expire; change (now_ms (v_set v key ?x)) with (now_ms v).
  - rewrite v_expire_data. apply zset_of_set.
  - rewrite !unexpired_insert by lia. by rewrite Hl.
  - rewrite map_size_insert_None by done. lia.
  - assert (Hdl : v_deadline (v_expire (v_set v key (RZset (<[lease := now_ms v + ttl_ms]> z))) key ttl_ms) !! key = Some (now_ms v + ttl_ms)).
    { unfold v_expire. cbn [v_data v_set]. rewrite lookup_insert_eq. cbn [v_deadline]. by rewrite lookup_insert_eq. }
    rewrite Hdl. intros l score [[<- <-]|[_ Hsc]]%lookup_insert_Some; [by split; [lia|eexists]|].
    destruct (Hd l score Hsc) as [? _]. split; [done|]. by eexists.
Qed.

Lemma leases_released limit ttl_ms g v z lease : leases_ok limit ttl_ms g v z ->
  leases_ok limit ttl_ms (delete lease g) (v_zset v key (delete lease z)) (delete lease z).
Proof.
  intros [Hz Hl Hs Hd]. constructor; rewrite ?now_zset.
  - apply zset_of_zset.
  - by rewrite !unexpired_delete, Hl.
  - pose proof (map_subseteq_size _ _ (delete_subseteq z lease)). lia.
  - intros l score Hls. rewrite (v_zset_deadline _ _ _ _ Hls). apply lookup_delete_Some in Hls as [_ Hls]. by apply (Hd l).
Qed.

Lemma leases_elapsed limit ttl_ms g v z clock : leases_ok limit ttl_ms g v z -> 0 <= limit ->
  now_ms v <= clock.1 * 1000 + clock.2 / 1000 -> exists z', leases_ok limit ttl_ms g (v_elapse v clock) z'.
Proof.
  intros [Hz Hl Hs Hd] Hlim Ht. set (t := clock.1 * 1000 + clock.2 / 1000) in *.
  assert (Hn : now_ms (v_elapse v clock) = t) by done.
  assert (Hlt : unexpired t z = unexpired t g) by (rewrite <-(unexpired_later _ _ z Ht), Hl; by apply unexpired_later).
  destruct (lapsed v t key) eqn:E.
  - exists ∅. constructor; rewrite ?Hn, ?elapse_lookup; fold t; rewrite ?E; [done| |by rewrite map_size_empty|].
    + rewrite <-Hlt. unfold unexpired at 1. rewrite map_filter_empty. symmetry. apply map_empty. intros l. apply eq_None_not_Some. intros [sc [Hsc Hlt']%unexpired_lookup].
      destruct (Hd l sc Hsc) as (_ & d & Hdl & Hle). unfold lapsed in E. rewrite Hdl in E. zify_bools. lia.
    + intros l sc Hsc. by rewrite lookup_empty in Hsc.
  - exists z. constructor; rewrite ?Hn, ?elapse_lookup; fold t; rewrite ?E; [done..|].
    intros l sc Hsc. destruct (Hd l sc Hsc) as (Hle & d & Hdl & Hd'). split; [lia|]. exists d. split; [|done].
    unfold v_elapse. cbn [v_deadline]. apply map_lookup_filter_Some. split; [done|]. exact E.
Qed.

Lemma leases_step limit ttl_ms g s z g' s' : 0 <= limit -> leases_ok limit ttl_ms g (view_of s) z ->
  admission_step limit ttl_ms (g, s) (g', s') -> exists z', leases_ok limit ttl_ms g' (view_of s') z'.
Proof.
  intros Hlim Hok Hstep. inversion Hstep as [? lease ? ? n Ha|? lease ? ? n Hr|? ? ? (clock & Ht & Hv)]; subst.
  - apply acquire_ok in Ha as (Httl & z0 & Hz0 & Hc). cbv zeta in Hc. rewrite (lo_zset _ _ _ _ _ Hok) in Hz0. injection Hz0 as <-.
    pose proof (leases_swept _ _ _ _ _ Hok) as Hsw. pose proof (lo_live _ _ _ _ _ Hok) as Hlg.
    destruct Hc as [(-> & [u Hu] & ->)|[(-> & _ & _ & ->)|(-> & Hnone & Hlt & ->)]]; cbn [Z.eqb Pos.eqb].
    + eexists. unfold granted. rewrite <-Hlg, Hu. exact Hsw.
    + by eexists.
    + eexists. pose proof (leases_grant limit ttl_ms g _ _ lease Httl Hsw) as Hg. rewrite now_zset in Hg.
      apply Hg; [apply unexpired_twice|done|done].
  - apply release_admission_ok in Hr as (z0 & Hz0 & ->). rewrite (lo_zset _ _ _ _ _ Hok) in Hz0. injection Hz0 as <-.
    eexists. by apply leases_released.
  - rewrite Hv. by eapply leases_elapsed.
Qed.

Lemma leases_run limit ttl_ms x y : rtc (admission_step limit ttl_ms) x y -> 0 <= limit ->
  (exists z, leases_ok limit ttl_ms x.1 (view_of x.2) z) -> exists z, leases_ok limit ttl_ms y.1 (view_of y.2) z.
Proof.
  induction 1 as [x|[g1 s1] [g2 s2] y Hstep _ IH]; [done|]. intros Hlim [z Hz]. apply IH; [done|].
  by apply (leases_step limit ttl_ms g1 s1 z).
Qed.
End Admission.

(** C13: The fleet never runs more requests than its limit.  Starting from no
    leases, whatever replicas ask for and release, however their scripts and
    the clock interleave, the leases granted, not released and not expired
    number at most the limit, although the server forgets expired leases and
    lapsed keys. *)
Theorem fleet_admission_bounded {Srv} `{RedisLaws Srv} key limit ttl_ms (s s' : Srv) g :
  0 <= limit -> v_data (view_of s) !! key = None ->
  rtc (admission_step key limit ttl_ms) (∅, s) (g, s') -> Z.of_nat (size (unexpired (now_ms (view_of s')) g)) <= limit.
Proof.
  intros Hlim Hnone Hrun.
  destruct (leases_run key limit ttl_ms _ _ Hrun Hlim) as [z Hz]; cbn [fst snd] in *.
  - exists ∅. constructor; [by rewrite Hnone|done|by rewrite map_size_empty|]. intros l sc Hl. by rewrite lookup_empty in Hl.
  - rewrite <-(lo_live _ _ _ _ _ _ Hz). pose proof (size_unexpired (now_ms (view_of s')) z). pose proof (lo_size _ _ _ _ _ _ Hz). lia.
Qed.

(** ** Closed runs *)
Definition target_key : str := lit "health:cloud".

Definition claimed : Server := fst (BEGIN_HEALTH_SCRIPT (Srv := Server) target_key 30000 (lit "a") (server_at 1000)).

(** A target whose breaker opened at its first failure, 30 s ago. *)
Definition opened : Server :=
  fst (COMPLETE_HEALTH_SCRIPT (Srv := Server) target_key 1 30000 (lit "z") false (server_at 1000)).

Definition cooled : Server := v_elapse opened (1030, 0).

Definition probing : Server := fst (BEGIN_HEALTH_SCRIPT (Srv := Server) target_key 30000 (lit "a") cooled).

(** During the cooldown nobody is let through. *)
Example open_circuit_refuses :
  field_at target_key opened "open_until" = Some (HInt 1030000) /\
  snd (BEGIN_HEALTH_SCRIPT (Srv := Server) target_key 30000 (lit "a") opened) = Ok 0.
Proof. vm_compute. split; reflexivity. Qed.

Lemma fleet_probe_exclusive_witness :
  snd (BEGIN_HEALTH_SCRIPT (Srv := Server) target_key 30000 (lit "a") cooled) = Ok 1 /\
  snd (BEGIN_HEALTH_SCRIPT (Srv := Server) target_key 30000 (lit "b") probing) = Ok 0 /\
  probe_at target_key (view_of probing) = Some (HText (lit "a")) /\ refused_to_others (lit "a") (Begun (lit "b") false).
Proof.
  split; [vm_compute; reflexivity|]. split; [vm_compute; reflexivity|].
  assert (Hb : health_step (Srv := Server) target_key 1 30000 (Begun (lit "b") (0 =? 1)) probing
                 (fst (BEGIN_HEALTH_SCRIPT (Srv := Server) target_key 30000 (lit "b") probing)))
    by (apply step_begin; vm_compute; reflexivity).
  assert (Ha : health_step (Srv := Server) target_key 1 30000 (Begun (lit "a") (1 =? 1)) cooled probing)
    by (apply step_begin; vm_compute; reflexivity).
  assert (Hends : Forall (fun e => ~ ends (lit "a") e) [Begun (lit "b") (0 =? 1)]) by (repeat constructor; intros []).
  destruct (fleet_probe_exclusive (Srv := Server) target_key 1 30000 1030000 (lit "a") (1 =? 1) [Begun (lit "b") (0 =? 1)]
              cooled probing (fst (BEGIN_HEALTH_SCRIPT (Srv := Server) target_key 30000 (lit "b") probing))) as [_ Hexcl];
    [vm_compute; reflexivity|reflexivity|vm_compute; reflexivity|exact Ha|exact (run_cons _ _ _ _ _ _ _ _ Hb (run_nil _ _ _ _))
    |exact Hends|].
  destruct (Hexcl eq_refl) as [_ HF]. split; [vm_compute; reflexivity|exact (Forall_inv HF)].
Defined.

(** A target that never failed: its second concurrent request finds the circuit
    taken, and is refused until the first has finished. *)
Example closed_circuit_refuses_concurrency :
  let begin p := BEGIN_HEALTH_SCRIPT (Srv := Server) target_key 30000 (lit p) in
  snd (begin "a" (server_at 1000)) = Ok 1 /\ field_at target_key claimed "failures" = None /\ snd (begin "b" claimed) = Ok 0 /\
  snd (begin "b" (fst (COMPLETE_HEALTH_SCRIPT target_key 3 30000 (lit "a") true claimed))) = Ok 1.
Proof. vm_compute. repeat split. Qed.

Definition acquire (lease : string) (s : Server) : Server * result Z str :=
  ACQUIRE_ADMISSION_SCRIPT (Srv := Server) (lit "admission") 1 5000 (lit lease) s.

(** One slot: taken, refused, and free again after its time. *)
Example sample_admission :
  let s := fst (acquire "a" (server_at 1000)) in
  snd (acquire "a" (server_at 1000)) = Ok 1 /\ snd (acquire "a" s) = Ok 1 /\ snd (acquire "b" s) = Ok 0 /\
  snd (acquire "b" (v_elapse s (1005, 0))) = Ok 1 /\
  snd (acquire "b" (fst (RELEASE_ADMISSION_SCRIPT (Srv := Server) (lit "admission") (lit "a") s))) = Ok 1.
Proof. vm_compute. repeat split. Qed.

Lemma fleet_admission_bounded_witness :
  let s := fst (acquire "b" (fst (acquire "a" (server_at 1000)))) in
  Z.of_nat (size (unexpired (now_ms (view_of s)) (granted (lit "a") 1000000 5000 ∅))) <= 1.
Proof.
  cbv zeta.
  assert (H1 : admission_step (Srv := Server) (lit "admission") 1 5000 (∅, server_at 1000)
                 (granted (lit "a") 1000000 5000 ∅, fst (acquire "a" (server_at 1000)))).
  { pose proof (step_acquire (Srv := Server) (lit "admission") 1 5000 ∅ (lit "a") (server_at 1000)
                  (fst (acquire "a" (server_at 1000))) 1) as Hs.
    assert (now_ms (view_of (server_at 1000)) = 1000000) as Hn by (vm_compute; reflexivity). rewrite Hn in Hs. apply Hs.
    vm_compute. reflexivity. }
  assert (H2 : admission_step (Srv := Server) (lit "admission") 1 5000
                 (granted (lit "a") 1000000 5000 ∅, fst (acquire "a" (server_at 1000)))
                 (granted (lit "a") 1000000 5000 ∅, fst (acquire "b" (fst (acquire "a" (server_at 1000)))))).
  { apply (step_acquire (Srv := Server) (lit "admission") 1 5000 (granted (lit "a") 1000000 5000 ∅) (lit "b")
             (fst (acquire "a" (server_at 1000))) (fst (acquire "b" (fst (acquire "a" (server_at 1000))))) 0).
    vm_compute. reflexivity. }
  pose proof (fleet_admission_bounded (Srv := Server) (lit "admission") 1 5000 (server_at 1000)
    (fst (acquire "b" (fst (acquire "a" (server_at 1000))))) (granted (lit "a") 1000000 5000 ∅)) as Hb.
  apply Hb; [lia|reflexivity|]. eapply rtc_l; [exact H1|]. eapply rtc_l; [exact H2|]. apply rtc_refl.
Defined.
