(* ===== verification/FleetBudget.v ===== *)
(** * Fleet budgets (crate [wayfinder-gateway], [src/state.rs])

    What the reservation scripts keep, scope by scope: the reserved amount of a
    ledger is the sum of what the requests of the fleet hold. *)
From S2P Require Export FleetCircuit.

(** ** Sums of reservations *)
Definition total (held : gmap str Z) : Z := map_fold (fun _ n acc => n + acc) 0 held.

Lemma total_insert held id n : held !! id = None -> total (<[id := n]> held) = n + total held.
Proof. intros Hn. unfold total. apply (map_fold_insert_L (fun (_ : str) n acc => n + acc)); [intros; lia|done]. Qed.

Lemma total_delete held id n : held !! id = Some n -> total (delete id held) = total held - n.
Proof.
  intros Hn. rewrite <-(insert_delete_id held id n Hn) at 2. rewrite total_insert by apply lookup_delete_eq. lia.
Qed.

Lemma total_nonneg held : (forall id n, held !! id = Some n -> 0 <= n) -> 0 <= total held.
Proof.
  induction held as [|id n held Hn IH] using map_ind; intros Hpos; [done|]. rewrite total_insert by done.
  assert (0 <= n) by (apply (Hpos id); by rewrite lookup_insert_eq).
  assert (0 <= total held); [|lia]. apply IH. intros id' n' Hid. apply (Hpos id'). rewrite lookup_insert_ne; [done|]. congruence.
Qed.

(** The keys of a scope, under the names of the scripts. *)
Definition scope_triple (a : BudgetArg) : str * str * str := (ba_ledger a, ba_expiry a, ba_amounts a).
Definition triple_keys (k : str * str * str) : list str := [k.1.1; k.1.2; k.2].

Definition num_field (h : gmap str hval) (f : string) : option Z :=
  match h !! lit f with None => Some 0 | Some (HInt n) => Some n | Some (HText _) => None end.

Lemma triple_distinct l e a : NoDup (triple_keys (l, e, a)) -> l <> e /\ l <> a /\ e <> a.
Proof. unfold triple_keys. cbn [fst snd]. intros [Hl [He _]%NoDup_cons]%NoDup_cons. set_solver. Qed.

(** The state of a scope: what was realized, and what each request holds. *)
Record scope_state (k : str * str * str) (v : view) (realized : Z) (held : gmap str Z) : Prop := {
  ss_ledger : exists ledger, hash_of (v_data v !! k.1.1) = Some ledger /\
    num_field ledger "realized_micros" = Some realized /\ num_field ledger "reserved_micros" = Some (total held);
  ss_expiry : exists z, zset_of (v_data v !! k.1.2) = Some z;
  ss_amounts : hash_of (v_data v !! k.2) = Some (HInt <$> held);
  ss_positive : forall id n, held !! id = Some n -> 0 <= n;
}.

(** A scope whose keys do not change keeps its state. *)
Lemma scope_state_only k ks v v' realized held : only ks v v' -> (forall x, x ∈ triple_keys k -> x ∉ ks) ->
  scope_state k v realized held -> scope_state k v' realized held.
Proof.
  intros Ho Hd [Hl He Ha Hp]. unfold triple_keys in Hd.
  assert (forall x, x ∈ triple_keys k -> v_data v' !! x = v_data v !! x) as Hsame by (intros x Hx; eapply only_data; [exact Ho|by apply Hd]).
  unfold triple_keys in Hsame. constructor; [| | |done]; rewrite Hsame by set_solver; done.
Qed.

Definition released (id : str) (held : gmap str Z) : gmap str Z :=
  match held !! id with Some n => if 0 <? n then delete id held else held | None => held end.

Lemma released_sub id held : released id held ⊆ held.
Proof. unfold released. destruct (held !! id); [|done]. destruct (0 <? _); [apply delete_subseteq|done]. Qed.

Section Budget.
Context {Srv : Type} `{RedisLaws Srv}.
Implicit Types s : Srv.

Lemma num_field_insert_ne h f g x : lit f <> lit g -> num_field (<[lit f := x]> h) g = num_field h g.
Proof. intros Hne. unfold num_field. by rewrite lookup_insert_ne. Qed.

Lemma num_field_insert h f n : num_field (<[lit f := HInt n]> h) f = Some n.
Proof. unfold num_field. by rewrite lookup_insert_eq. Qed.

(** [HINCRBY] of a field of the ledger. *)
Lemma incr_ok k f n s s' x : HINCRBY k (lit f) n s = (s', Ok x) ->
  exists h old, hash_of (v_data (view_of s) !! k) = Some h /\ num_field h f = Some old /\
    view_of s' = v_set (view_of s) k (RHash (<[lit f := HInt (old + n)]> h)).
Proof.
  intros Hc. apply (writes_ok _ _ _ (hincrby_law _ _ _)) in Hc as (h & old & Hh & Hold & -> & Hv).
  exists h, old. split; [done|]. split; [|done]. unfold num_field. by destruct Hold as [[-> ->]| ->].
Qed.

Lemma scope_reserved k s s' x n realized held : NoDup (triple_keys k) ->
  scope_state k (view_of s) realized held -> HINCRBY k.1.1 (lit "reserved_micros") n s = (s', Ok x) ->
  (exists ledger, hash_of (v_data (view_of s') !! k.1.1) = Some ledger /\ num_field ledger "realized_micros" = Some realized /\
     num_field ledger "reserved_micros" = Some (total held + n)) /\
  v_data (view_of s') !! k.1.2 = v_data (view_of s) !! k.1.2 /\ hash_of (v_data (view_of s') !! k.2) = Some (HInt <$> held) /\
  only (triple_keys k) (view_of s) (view_of s').
Proof.
  intros Hnd [(ledger & Hl & Hre & Hrs) He Ha _] Hc. apply incr_ok in Hc as (h & old & Hh & Hold & Hv). rewrite Hl in Hh.
  injection Hh as <-. rewrite Hrs in Hold. injection Hold as <-. rewrite Hv.
  unfold triple_keys in Hnd. apply NoDup_cons in Hnd as [Hn1 Hnd].
  split_and!.
  - eexists. split; [apply hash_of_set|]. split; [rewrite num_field_insert_ne; [done|by lit_ne]|apply num_field_insert].
  - unfold v_set. cbn [v_data]. rewrite lookup_insert_ne by set_solver. done.
  - unfold v_set. cbn [v_data]. rewrite lookup_insert_ne by set_solver. done.
  - eapply only_mono; [|apply only_set]. unfold triple_keys. set_solver.
Qed.

Lemma release_scope_ok k id s s' u realized held : NoDup (triple_keys k) ->
  scope_state k (view_of s) realized held -> release_scope id k s = (s', Ok u) ->
  scope_state k (view_of s') realized (released id held) /\ only (triple_keys k) (view_of s) (view_of s') /\
  exists z, zset_of (v_data (view_of s) !! k.1.2) = Some z /\ zset_of (v_data (view_of s') !! k.1.2) = Some (delete id z).
Proof.
  intros Hnd Hst Hr. destruct k as [[ledger expiry] amounts]. unfold release_scope in Hr. lua_open.
  match goal with Hc : lua_member _ _ _ = (?t, Ok ?n) |- _ => rename t into s1; rename n into n0;
    apply lua_member_ok in Hc as [Hv1 (h & Hh & Hn)] end.
  pose proof Hst as [_ _ Ham Hpos]. cbn [fst snd] in Ham. rewrite Ham in Hh. injection Hh as <-.
  rewrite !lookup_fmap in Hn.
  match goal with Hc : (if _ then _ else _) _ = (?t, _) |- _ => rename t into s2; rename Hc into Hif end.
  assert (H2 : (exists l, hash_of (v_data (view_of s2) !! ledger) = Some l /\ num_field l "realized_micros" = Some realized /\
       num_field l "reserved_micros" = Some (total (released id held))) /\
     v_data (view_of s2) !! expiry = v_data (view_of s) !! expiry /\
     hash_of (v_data (view_of s2) !! amounts) = Some (HInt <$> released id held) /\
     only [ledger; expiry; amounts] (view_of s) (view_of s2)).
  { unfold released. destruct (held !! id) as [m|] eqn:Hm; cbn [fmap option_fmap option_map] in Hn.
    - destruct Hn as [[? _]|[= <-]]; [done|]. destruct (0 <? m) eqn:Hpos'.
      + lua_open. rewrite <-Hv1 in Hst.
        match goal with Hc : HINCRBY _ _ _ _ = (?t, _) |- _ => rename t into s3;
          destruct (scope_reserved (ledger, expiry, amounts) _ _ _ _ realized held Hnd Hst Hc) as (HL & HE & HA & HO) end.
        cbn [fst snd] in *.
        match goal with Hc : HDEL _ _ _ = _ |- _ => apply (writes_ok _ _ _ (hdel_law _ _)) in Hc as (h & Hh & Hv2) end.
        rewrite HA in Hh. injection Hh as <-. destruct (triple_distinct _ _ _ Hnd) as (Hle & Hla & Hea).
        assert (Hsame : forall x, x <> amounts -> v_data (view_of s2) !! x = v_data (view_of s3) !! x)
          by (intros x Hx; rewrite Hv2; eapply only_data; [apply only_hash|by intros ?%list_elem_of_singleton]).
        rewrite (Hsame ledger Hla), (Hsame expiry Hea). rewrite (total_delete held id m Hm). split_and!.
        * destruct HL as (l & ? & ? & ?). exists l. split_and!; [done..|]. by replace (total held - m) with (total held + - m) by lia.
        * by rewrite <-Hv1.
        * rewrite Hv2, hash_of_hash. by rewrite fmap_delete.
        * rewrite <-Hv1. eapply only_trans; [exact HO|]. rewrite Hv2. eapply only_mono; [|apply only_hash]. set_solver.
      + lua_open. destruct Hst as [HL HE HA _]. rewrite Hv1. done.
    - destruct Hn as [[_ ->]|?]; [|done]. cbn [Z.ltb Z.compare] in Hif. lua_open. destruct Hst as [HL HE HA _]. rewrite Hv1. done. }
  destruct H2 as (HL & HE & HA & HO). destruct (ss_expiry _ _ _ _ Hst) as [z Hz0]. cbn [fst snd] in Hz0. rewrite <-HE in Hz0.
  match goal with Hc : ZREM _ _ _ = _ |- _ => apply (writes_ok _ _ _ (zrem_law _ _)) in Hc as (z' & Hz & Hv3) end.
  rewrite Hz0 in Hz. injection Hz as <-. destruct (triple_distinct _ _ _ Hnd) as (Hle & Hla & Hea). unfold triple_keys. cbn [fst snd].
  assert (Hsame : forall x, x <> expiry -> v_data (view_of s') !! x = v_data (view_of s2) !! x)
    by (intros x Hx; rewrite Hv3; eapply only_data; [apply only_zset|by intros ?%list_elem_of_singleton]).
  split_and!; [constructor; cbn [fst snd]; rewrite ?(Hsame ledger Hle), ?(Hsame amounts (not_eq_sym Hea))|..].
  - done.
  - rewrite Hv3, zset_of_zset. by eexists.
  - done.
  - intros i n Hi. apply (Hpos i). eapply lookup_weaken; [exact Hi|apply released_sub].
  - eapply only_trans; [exact HO|]. rewrite Hv3. eapply only_mono; [|apply only_zset]. set_solver.
  - exists z. split; [by rewrite <-HE|]. rewrite Hv3. apply zset_of_zset.
Qed.
End Budget.

(** ** Several scopes *)
Section Scopes.
Context {Srv : Type} `{RedisLaws Srv}.
Implicit Types s : Srv.

(** Scopes of which no two share a key. *)
Definition separate (ks : list (str * str * str)) : Prop := NoDup (concat (map triple_keys ks)).

(** What is realized in each scope, and what each holds. *)
Definition books (ks : list (str * str * str)) (v : view) (realized : str * str * str -> Z)
    (held : str * str * str -> gmap str Z) : Prop :=
  forall k, k ∈ ks -> scope_state k v (realized k) (held k).

Definition set_held (k : str * str * str) (h : gmap str Z) (held : str * str * str -> gmap str Z) : str * str * str -> gmap str Z :=
  fun k' => if bool_decide (k' = k) then h else held k'.

Lemma separate_keys ks k : separate ks -> k ∈ ks -> NoDup (triple_keys k).
Proof.
  unfold separate. induction ks as [|k' ks IH]; intros Hs Hk; [by apply elem_of_nil in Hk|].
  cbn [map concat] in Hs. apply NoDup_app in Hs as (H1 & _ & H2). apply elem_of_cons in Hk as [->|Hk]; [done|by apply IH].
Qed.

Lemma in_scopes ks k x : k ∈ ks -> x ∈ triple_keys k -> x ∈ concat (map triple_keys ks).
Proof. intros Hk Hx. apply list_elem_of_In, in_concat. exists (triple_keys k). split; [by apply in_map, list_elem_of_In|by apply list_elem_of_In]. Qed.

Lemma separate_apart ks k k' x : separate ks -> k ∈ ks -> k' ∈ ks -> k <> k' -> x ∈ triple_keys k -> x ∉ triple_keys k'.
Proof.
  unfold separate. induction ks as [|k0 ks IH]; intros Hs Hk Hk' Hne Hx Hx'; [by apply elem_of_nil in Hk|].
  cbn [map concat] in Hs. apply NoDup_app in Hs as (_ & Hd & H2).
  apply elem_of_cons in Hk as [->|Hk], Hk' as [->|Hk']; [done| | |by eapply IH].
  - apply (Hd x Hx). by apply (in_scopes ks k').
  - apply (Hd x Hx'). by apply (in_scopes ks k).
Qed.

(** A change of one scope. *)
Lemma books_update ks k v v' realized held h : separate ks -> k ∈ ks -> books ks v realized held ->
  scope_state k v' (realized k) h -> only (triple_keys k) v v' -> books ks v' realized (set_held k h held).
Proof.
  intros Hs Hk Hb Hst Ho k' Hk'. unfold set_held. destruct (bool_decide (k' = k)) eqn:E.
  - apply bool_decide_eq_true in E as ->. exact Hst.
  - apply bool_decide_eq_false in E. eapply scope_state_only; [exact Ho| |by apply Hb].
    intros x Hx. by apply (separate_apart ks k' k).
Qed.

(** A request of which the reservation in a scope has expired. *)
Definition due (now : Z) (v : view) (k : str * str * str) (id : str) : Prop :=
  exists z, zset_of (v_data v !! k.1.2) = Some z /\ below z now id.

(** What a sweep may change: reservations that are due are gone. *)
Definition swept (now : Z) (v : view) (k : str * str * str) (h h' : gmap str Z) : Prop :=
  forall id, h' !! id = h !! id \/ h' !! id = None /\ due now v k id.

Lemma release_due now k id id' s s' u realized h : NoDup (triple_keys k) -> scope_state k (view_of s) realized h ->
  release_scope id k s = (s', Ok u) -> due now (view_of s') k id' -> due now (view_of s) k id'.
Proof.
  intros Hnd Hst Hr (z' & Hz' & score & Hs & Hle). apply (release_scope_ok k id s s' u realized h Hnd Hst) in Hr as (_ & _ & z & Hz & Hz2).
  rewrite Hz2 in Hz'. injection Hz' as <-. apply lookup_delete_Some in Hs as [_ Hs]. exists z. split; [done|]. by exists score.
Qed.

Lemma drop_each now k ids s s' u realized h : NoDup (triple_keys k) -> scope_state k (view_of s) realized h ->
  s_each (fun id => release_scope id k) ids s = (s', Ok u) ->
  exists h', (forall id, h' !! id = h !! id \/ h' !! id = None /\ id ∈ ids) /\ scope_state k (view_of s') realized h' /\
    only (triple_keys k) (view_of s) (view_of s') /\ forall id, due now (view_of s') k id -> due now (view_of s) k id.
Proof.
  intros Hnd. revert s h. induction ids as [|i ids IH]; intros s h Hst He; cbn [s_each] in He; lua_open.
  - exists h. split_and!; [by left|done|apply only_refl|done].
  - match goal with Hc : release_scope _ _ _ = (?t, _) |- _ => rename t into s1; rename Hc into Hr end.
    pose proof (fun id' => release_due now k i id' s s1 _ realized h Hnd Hst Hr) as Hd1.
    apply (release_scope_ok k i s s1 _ realized h Hnd Hst) in Hr as (Hst1 & Ho1 & _).
    destruct (IH s1 _ Hst1 He) as (h' & Hsame & Hst' & Ho' & Hd'). exists h'. split_and!; [|done|by eapply only_trans|by auto].
    intros id. destruct (Hsame id) as [E|[E Hin]]; [|right; split; [done|by right]]. rewrite E. unfold released.
    destruct (h !! i); [|by left]. destruct (0 <? _); [|by left]. destruct (decide (id = i)) as [->|Hne].
    + right. split; [apply lookup_delete_eq|apply list_elem_of_here].
    + left. by apply lookup_delete_ne.
Qed.

Lemma sweep_scope_ok now a s s' u realized h : NoDup (triple_keys (scope_triple a)) ->
  scope_state (scope_triple a) (view_of s) realized h -> sweep_scope now a s = (s', Ok u) ->
  exists h', swept now (view_of s) (scope_triple a) h h' /\ scope_state (scope_triple a) (view_of s') realized h' /\
    only (triple_keys (scope_triple a)) (view_of s) (view_of s') /\
    forall id, due now (view_of s') (scope_triple a) id -> due now (view_of s) (scope_triple a) id.
Proof.
  intros Hnd Hst Hw. unfold sweep_scope in Hw. lua_open.
  match goal with Hc : ZRANGEBYSCORE _ _ _ = (?t, _) |- _ => rename t into s1;
    apply (reads_ok _ _ _ (zrangebyscore_law _ _)) in Hc as [Hv (z & Hz & _ & Hin)] end.
  rewrite <-Hv in Hst. destruct (drop_each now (scope_triple a) _ s1 s' u realized h Hnd Hst Hw) as (h' & Hsame & Hst' & Ho & Hd).
  rewrite Hv in *. exists h'. split_and!; [|done..]. intros id. destruct (Hsame id) as [E|[E Hi]]; [by left|right]. split; [done|].
  exists z. split; [exact Hz|]. by apply Hin.
Qed.

Lemma due_only now k ks v v' id : only ks v v' -> k.1.2 ∉ ks -> due now v' k id -> due now v k id.
Proof. intros Ho Hk (z & Hz & Hb). exists z. split; [|done]. rewrite <-Hz. f_equal. symmetry. by eapply only_data. Qed.

Lemma expiry_key k : k.1.2 ∈ triple_keys k.
Proof. unfold triple_keys. apply list_elem_of_further, list_elem_of_here. Qed.

Lemma swept_trans now v k h1 h2 h3 v' : swept now v k h1 h2 -> swept now v' k h2 h3 ->
  (forall id, due now v' k id -> due now v k id) -> swept now v k h1 h3.
Proof.
  intros H12 H23 Hd id. destruct (H23 id) as [E3|[E3 D3]]; [|right; by auto]. rewrite E3. apply H12.
Qed.

Lemma sweep_all now ks args s s' u realized held : separate ks -> (forall a, a ∈ args -> scope_triple a ∈ ks) ->
  books ks (view_of s) realized held -> s_each (sweep_scope now) args s = (s', Ok u) ->
  exists held', (forall k, k ∈ ks -> swept now (view_of s) k (held k) (held' k)) /\ books ks (view_of s') realized held' /\
    v_clock (view_of s') = v_clock (view_of s).
Proof.
  intros Hs Hin Hb He.
  cut (exists held', (forall k, k ∈ ks -> swept now (view_of s) k (held k) (held' k)) /\ books ks (view_of s') realized held' /\
    v_clock (view_of s') = v_clock (view_of s) /\ forall k id, k ∈ ks -> due now (view_of s') k id -> due now (view_of s) k id); [by naive_solver|].
  revert s held Hb He. induction args as [|a args IH]; intros s held Hb He; cbn [s_each] in He; lua_open.
  { exists held. split_and!; [|done|done|done]. intros k _ id. by left. }
  match goal with Hc : sweep_scope _ _ _ = (?t, _) |- _ => rename t into s1; rename Hc into Hw end.
  assert (Ha : scope_triple a ∈ ks) by apply Hin, list_elem_of_here.
  destruct (sweep_scope_ok now a s s1 _ _ _ (separate_keys _ _ Hs Ha) (Hb _ Ha) Hw) as (h & Hsw & Hst & Ho & Hd).
  assert (Hdue : forall k id, k ∈ ks -> due now (view_of s1) k id -> due now (view_of s) k id).
  { intros k id Hk. destruct (decide (k = scope_triple a)) as [->|Hne]; [apply Hd|]. eapply due_only; [exact Ho|].
    apply (separate_apart ks k (scope_triple a)); [done..|]. apply expiry_key. }
  destruct (IH ltac:(intros b Hbin; apply Hin; by right) s1 _ (books_update ks _ _ _ realized held h Hs Ha Hb Hst Ho) He)
    as (held' & Hsw' & Hb' & Hc' & Hd').
  exists held'. split_and!; [|done|by rewrite Hc'; apply Ho|by auto].
  intros k Hk. eapply swept_trans; [|by apply Hsw'|by auto]. unfold set_held.
  destruct (bool_decide (k = scope_triple a)) eqn:E; [apply bool_decide_eq_true in E as ->; exact Hsw|]. intros id. by left.
Qed.

(** ** Reserving *)
Lemma count_ok (id : str) (args : list BudgetArg) s s' (n c : Z) (held : str * str * str -> gmap str Z) :
  (forall a, a ∈ args -> hash_of (v_data (view_of s) !! ba_amounts a) = Some (HInt <$> held (scope_triple a))) ->
  s_fold (count_existing id) n args s = (s', Ok c) ->
  view_of s' = view_of s /\ n <= c <= n + len args /\
  (c = n + len args -> forall a, a ∈ args -> held (scope_triple a) !! id <> None) /\
  (c = n -> forall a, a ∈ args -> held (scope_triple a) !! id = None).
Proof.
  revert s n. unfold len. induction args as [|a args IH]; intros s n Hh Hf; cbn [s_fold] in Hf.
  { lua_open. cbn [length]. split_and!; [done|lia|lia|..]; intros _ a Ha; by apply elem_of_nil in Ha. }
  apply s_bind_ok in Hf as (s1 & n1 & Hc & Hf). unfold count_existing in Hc. lua_open.
  match goal with Hc : HEXISTS _ _ _ = (?t, _) |- _ => rename t into s2; apply (reads_ok _ _ _ (hexists_law _ _)) in Hc as [Hv (h & Hh0 & ->)] end.
  rewrite (Hh a (list_elem_of_here _ _)) in Hh0. injection Hh0 as <-. rewrite lookup_fmap in Hf.
  assert (Hh1 : forall b, b ∈ args -> hash_of (v_data (view_of s2) !! ba_amounts b) = Some (HInt <$> held (scope_triple b)))
    by (intros b Hb; rewrite Hv; apply Hh; by right).
  destruct (IH s2 _ Hh1 Hf) as (Hv' & Hb & Hall & Hnone).
  cbn [length]. rewrite Hv', Hv. destruct (held (scope_triple a) !! id) eqn:E; cbn [fmap option_fmap option_map] in Hb, Hall, Hnone |- *.
  - split_and!; [done|lia|lia| |lia]. intros Hc b [->|Hb']%elem_of_cons; [congruence|]. apply Hall; [lia|done].
  - split_and!; [done|lia|lia|lia|]. intros Hc b [->|Hb']%elem_of_cons; [done|]. by apply Hnone.
Qed.

Definition has_room (amount : Z) (realized : str * str * str -> Z) (held : str * str * str -> gmap str Z) (a : BudgetArg) : Prop :=
  ba_blocks a = true -> realized (scope_triple a) + total (held (scope_triple a)) + amount <= ba_limit a.

Lemma ledger_field k f s s' n h x : hash_of (v_data (view_of s) !! k) = Some h -> num_field h f = Some x ->
  lua_field k f s = (s', Ok n) -> view_of s' = view_of s /\ n = x.
Proof.
  intros Hh Hx Hf. apply lua_field_ok in Hf as [Hv (h' & Hh' & Hn)]. split; [done|]. rewrite Hh in Hh'. injection Hh' as <-.
  unfold num_field in Hx. destruct Hn as [[E ->]|E]; rewrite E in Hx; congruence.
Qed.

Lemma room_ok amount ks args s s' r realized held : (forall a, a ∈ args -> scope_triple a ∈ ks) ->
  books ks (view_of s) realized held -> lacks_room amount args s = (s', Ok r) ->
  view_of s' = view_of s /\
  if r then exists a, a ∈ args /\ ~ has_room amount realized held a else forall a, a ∈ args -> has_room amount realized held a.
Proof.
  revert s. induction args as [|a args IH]; intros s Hin Hb Hl; cbn [lacks_room] in Hl.
  { lua_open. split; [done|]. intros a Ha. by apply elem_of_nil in Ha. }
  assert (Hrest : forall s1, view_of s1 = view_of s -> has_room amount realized held a -> lacks_room amount args s1 = (s', Ok r) ->
    view_of s' = view_of s /\
    if r then exists b, b ∈ a :: args /\ ~ has_room amount realized held b else forall b, b ∈ a :: args -> has_room amount realized held b).
  { intros s1 Hv Ha Hl1. rewrite <-Hv in Hb. destruct (IH s1 ltac:(intros b Hbin; apply Hin; by right) Hb Hl1) as [Hv' Hr].
    split; [congruence|]. destruct r.
    - destruct Hr as (b & Hbin & Hn). exists b. split; [by right|done].
    - intros b [->|Hbin]%elem_of_cons; [done|by apply Hr]. }
  destruct (ba_blocks a) eqn:Eb; [|apply (Hrest s); [done| |done]; unfold has_room; congruence].
  destruct (ss_ledger _ _ _ _ (Hb _ (Hin a (list_elem_of_here _ _)))) as (l & Hl0 & Hre & Hrs). cbn [fst snd scope_triple] in Hl0.
  apply s_bind_ok in Hl as (s1 & n1 & H1 & Hl). apply (ledger_field _ _ _ _ _ _ _ Hl0 Hre) in H1 as [Hv1 ->].
  apply s_bind_ok in Hl as (s2 & n2 & H2 & Hl). rewrite <-Hv1 in Hl0. apply (ledger_field _ _ _ _ _ _ _ Hl0 Hrs) in H2 as [Hv2 ->].
  destruct (Z.ltb_spec (ba_limit a) (realized (scope_triple a) + total (held (scope_triple a)) + amount)) as [Hlt|Hle].
  - lua_open. split; [congruence|]. exists a. split; [apply list_elem_of_here|]. intros Hr. specialize (Hr Eb). lia.
  - apply (Hrest s2); [congruence| |done]. intros _. exact Hle.
Qed.

Lemma expire_data_ok k ms s s' : 0 < ms -> PEXPIRE k ms s = (s', Ok ()) ->
  v_data (view_of s') = v_data (view_of s) /\ v_clock (view_of s') = v_clock (view_of s).
Proof.
  intros Hms Hp. apply (writes_ok _ _ _ (pexpire_law _ _)) in Hp. rewrite expire_positive in Hp by done.
  rewrite Hp. split; [apply v_expire_data|apply v_expire_clock].
Qed.

Lemma hold_scope_ok id amount now_ms ttl_ms a s s' u realized h : 0 < ttl_ms -> 0 <= amount -> h !! id = None ->
  NoDup (triple_keys (scope_triple a)) -> scope_state (scope_triple a) (view_of s) realized h ->
  hold_scope id amount now_ms ttl_ms a s = (s', Ok u) ->
  scope_state (scope_triple a) (view_of s') realized (<[id := amount]> h) /\ only (triple_keys (scope_triple a)) (view_of s) (view_of s').
Proof.
  intros Httl Ham Hnone Hnd Hst Hr. unfold hold_scope in Hr. apply s_bind_ok in Hr as (s1 & x1 & H1 & Hr).
  destruct (scope_reserved (scope_triple a) _ _ _ _ realized h Hnd Hst H1) as (HL & HE & HA & HO1).
  destruct (triple_distinct _ _ _ Hnd) as (Hle & Hla & Hea). unfold scope_triple in HL, HE, HA. cbn [fst snd] in HL, HE, HA.
  apply s_bind_ok in Hr as (s2 & t2 & H2 & Hr). apply (reads_ok _ _ _ (pttl_law _)) in H2 as [Hv2 _].
  apply s_bind_ok in Hr as (s3 & [] & H3 & Hr).
  assert (Hv3 : v_data (view_of s3) = v_data (view_of s1) /\ v_clock (view_of s3) = v_clock (view_of s1)).
  { rewrite <-Hv2. destruct ((t2 <? 0) && (0 <? ba_ledger_ttl_ms a)) eqn:E; [|by lua_open].
    apply andb_true_iff in E as [_ E]. apply (expire_data_ok (ba_ledger a) (ba_ledger_ttl_ms a)); [by apply Z.ltb_lt|exact H3]. }
  destruct Hv3 as [Hd3 Hc3]. apply s_bind_ok in Hr as (s4 & [] & H4 & Hr).
  apply (writes_ok _ _ _ (hset_law _ _)) in H4 as (h4 & Hh4 & Hv4). rewrite Hd3, HA in Hh4. injection Hh4 as <-.
  apply s_bind_ok in Hr as (s5 & [] & H5 & Hr). apply (writes_ok _ _ _ (zadd_law _ _ _)) in H5 as (z5 & Hz5 & Hv5).
  apply s_bind_ok in Hr as (s6 & [] & H6 & H7). destruct u. apply expire_data_ok in H6 as [Hd6 Hc6], H7 as [Hd7 Hc7]; [|done..].
  assert (Hdata : v_data (view_of s') = <[ba_expiry a := RZset (<[id := now_ms + ttl_ms]> z5)]>
    (<[ba_amounts a := RHash (<[id := HInt amount]> (HInt <$> h))]> (v_data (view_of s1)))).
  { rewrite Hd7, Hd6, Hv5, Hv4. unfold v_set. cbn [v_data hset_all foldl]. by rewrite Hd3. }
  split; [constructor; unfold scope_triple; cbn [fst snd]; rewrite ?Hdata|].
  - rewrite !lookup_insert_ne by done. destruct HL as (l & ? & ? & ?). exists l. split_and!; [done..|].
    rewrite total_insert by done. by rewrite Z.add_comm.
  - rewrite lookup_insert_eq. by eexists.
  - rewrite lookup_insert_ne by done. rewrite lookup_insert_eq. by rewrite fmap_insert.
  - intros i n [[_ <-]|[_ Hi]]%lookup_insert_Some; [done|]. by apply (ss_positive _ _ _ _ Hst i).
  - eapply only_trans; [exact HO1|]. split.
    + rewrite Hc7, Hc6, Hv5, Hv4. unfold v_set. cbn [v_clock]. done.
    + intros k Hk. unfold triple_keys, scope_triple in Hk. cbn [fst snd] in Hk. apply not_elem_of_cons in Hk as [_ Hk].
      apply not_elem_of_cons in Hk as [Hk1 Hk]. apply not_elem_of_cons in Hk as [Hk2 _].
      rewrite Hdata, !lookup_insert_ne by congruence. done.
Qed.

Definition hold_all (id : str) (amount : Z) (args : list BudgetArg) (held : str * str * str -> gmap str Z) : str * str * str -> gmap str Z :=
  fun k => if bool_decide (k ∈ map scope_triple args) then <[id := amount]> (held k) else held k.

Lemma hold_each id amount now_ms ttl_ms ks args s s' u realized held : 0 < ttl_ms -> 0 <= amount -> separate ks ->
  NoDup (map scope_triple args) -> (forall a, a ∈ args -> scope_triple a ∈ ks /\ held (scope_triple a) !! id = None) ->
  books ks (view_of s) realized held -> s_each (hold_scope id amount now_ms ttl_ms) args s = (s', Ok u) ->
  books ks (view_of s') realized (hold_all id amount args held).
Proof.
  intros Httl Ham Hs. revert s held. induction args as [|a args IH]; intros s held Hnd Hin Hb He; cbn [s_each] in He.
  { lua_open. intros k Hk. unfold hold_all. rewrite bool_decide_eq_false_2 by apply not_elem_of_nil. by apply Hb. }
  apply s_bind_ok in He as (s1 & x1 & H1 & He). destruct (Hin a (list_elem_of_here _ _)) as [Hk Hnone].
  apply NoDup_cons in Hnd as [Hni Hnd].
  apply (hold_scope_ok _ _ _ _ a s s1 x1 _ _ Httl Ham Hnone (separate_keys _ _ Hs Hk) (Hb _ Hk)) in H1 as [Hst Ho].
  pose proof (books_update ks _ _ _ realized held _ Hs Hk Hb Hst Ho) as Hb1.
  refine (_ (IH s1 _ Hnd _ Hb1 He)).
  - intros Hb' k Hkk. specialize (Hb' k Hkk). unfold hold_all, set_held in *. destruct (bool_decide (k = scope_triple a)) eqn:E.
    + apply bool_decide_eq_true in E as ->. rewrite bool_decide_eq_false_2 in Hb' by done.
      rewrite bool_decide_eq_true_2 by apply list_elem_of_here. exact Hb'.
    + apply bool_decide_eq_false in E. replace (bool_decide (k ∈ map scope_triple (a :: args))) with (bool_decide (k ∈ map scope_triple args)); [exact Hb'|].
      apply bool_decide_ext. cbn [map]. rewrite elem_of_cons. naive_solver.
  - intros b Hbin. destruct (Hin b ltac:(by right)) as [? Hb0]. split; [done|]. unfold set_held. rewrite bool_decide_eq_false_2; [done|].
    intros E. apply Hni. rewrite <-E. by apply list_elem_of_fmap_2.
Qed.

Lemma reserve_ok id amount args ttl_ms ks s s' n realized held : 0 < ttl_ms -> separate ks -> NoDup (map scope_triple args) ->
  (forall a, a ∈ args -> scope_triple a ∈ ks) -> books ks (view_of s) realized held ->
  RESERVE_BUDGET_SCRIPT id amount args ttl_ms s = (s', Ok n) ->
  exists held', (forall k, k ∈ ks -> swept (now_ms (view_of s)) (view_of s) k (held k) (held' k)) /\
    (n = 1 /\ (forall a, a ∈ args -> held' (scope_triple a) !! id <> None) /\ books ks (view_of s') realized held' \/
     n = 0 /\ (forall a, a ∈ args -> held' (scope_triple a) !! id = None) /\
       (exists a, a ∈ args /\ ~ has_room amount realized held' a) /\ books ks (view_of s') realized held' \/
     n = 1 /\ (forall a, a ∈ args -> held' (scope_triple a) !! id = None /\ has_room amount realized held' a) /\
       books ks (view_of s') realized (hold_all id amount args held')).
Proof.
  intros Httl Hs Hnd Hin Hb Hr. unfold RESERVE_BUDGET_SCRIPT in Hr. destruct ((amount <? 0) || (len args <? 1)) eqn:E0; [done|].
  apply orb_false_iff in E0 as [Ham%Z.ltb_ge Hlen%Z.ltb_ge]. apply s_bind_ok in Hr as (s1 & now & H1 & Hr). apply lua_now_ok in H1 as [Hv1 ->]. rewrite <-Hv1 in Hb.
  apply s_bind_ok in Hr as (s2 & x2 & H2 & Hr). destruct (sweep_all _ ks args s1 s2 x2 _ _ Hs Hin Hb H2) as (held' & Hsw & Hb2 & _).
  rewrite Hv1 in Hsw. exists held'. split; [exact Hsw|].
  apply s_bind_ok in Hr as (s3 & c & H3 & Hr). apply (count_ok id args s2 s3 0 c held') in H3 as (Hv3 & Hc & Hall & Hnone);
    [|intros a Ha; exact (ss_amounts _ _ _ _ (Hb2 _ (Hin a Ha)))].
  destruct (Z.eqb_spec c (len args)) as [->|Hne]; [lua_open; left; rewrite Hv3; split_and!; [done|apply Hall; lia|done]|].
  destruct (Z.ltb_spec 0 c) as [?|?]; [done|]. assert (c = 0) as -> by lia. specialize (Hnone eq_refl).
  apply s_bind_ok in Hr as (s4 & full & H4 & Hr). rewrite <-Hv3 in Hb2.
  apply (room_ok amount ks args s3 s4 full _ _ Hin Hb2) in H4 as [Hv4 Hroom]. rewrite <-Hv4 in Hb2. right. destruct full; lua_open.
  - left. split_and!; [done|exact Hnone|exact Hroom|exact Hb2].
  - right. split; [done|]. split; [intros a Ha; split; [by apply Hnone|by apply Hroom]|].
    match goal with Hc : s_each _ _ _ = _ |- _ => eapply (hold_each id amount _ ttl_ms ks args s4) in Hc; [exact Hc|done|lia|done|done| |done] end.
    intros a Ha. split; [by apply Hin|by apply Hnone].
Qed.

Definition released_in (keys : list (str * str * str)) (id : str) (held : str * str * str -> gmap str Z) : str * str * str -> gmap str Z :=
  fun k => if bool_decide (k ∈ keys) then released id (held k) else held k.

Lemma released_twice id h : released id (released id h) = released id h.
Proof.
  unfold released at 1. destruct (released id h !! id) as [n|] eqn:E; [|done]. destruct (0 <? n) eqn:Ep; [|done]. exfalso.
  unfold released in E. destruct (h !! id) as [m|] eqn:Eh; [|by rewrite Eh in E]. destruct (0 <? m) eqn:Em; [by rewrite lookup_delete_eq in E|].
  rewrite Eh in E. congruence.
Qed.

Lemma release_budget_ok keys id ks s s' n realized held : separate ks -> (forall k, k ∈ keys -> k ∈ ks) -> books ks (view_of s) realized held ->
  RELEASE_BUDGET_SCRIPT keys id s = (s', Ok n) -> books ks (view_of s') realized (released_in keys id held).
Proof.
  intros Hs Hin Hb Hr. unfold RELEASE_BUDGET_SCRIPT in Hr. lua_open.
  match goal with Hc : s_each _ _ _ = _ |- _ => rename Hc into He end. revert s held Hb He.
  induction keys as [|k keys IH]; intros s held Hb He; cbn [s_each] in He.
  { lua_open. intros k Hk. unfold released_in. rewrite bool_decide_eq_false_2 by apply not_elem_of_nil. by apply Hb. }
  apply s_bind_ok in He as (s1 & x1 & H1 & He). assert (Hk : k ∈ ks) by apply Hin, list_elem_of_here.
  apply (release_scope_ok k id s s1 _ _ _ (separate_keys _ _ Hs Hk) (Hb _ Hk)) in H1 as (Hst & Ho & _).
  pose proof (IH ltac:(intros k' Hk'; apply Hin; by right) s1 _ (books_update ks _ _ _ realized held _ Hs Hk Hb Hst Ho) He) as Hb'.
  intros k' Hk'. specialize (Hb' k' Hk'). unfold released_in, set_held in *.
  destruct (bool_decide (k' = k)) eqn:E.
  - apply bool_decide_eq_true in E as ->. rewrite (bool_decide_eq_true_2 (k ∈ k :: keys)) by apply list_elem_of_here.
    destruct (bool_decide (k ∈ keys)); [by rewrite released_twice in Hb'|done].
  - apply bool_decide_eq_false in E. replace (bool_decide (k' ∈ k :: keys)) with (bool_decide (k' ∈ keys)); [done|].
    apply bool_decide_ext. rewrite elem_of_cons. naive_solver.
Qed.

(** ** Costs recorded meanwhile *)
Definition set_realized (k : str * str * str) (r : Z) (realized : str * str * str -> Z) : str * str * str -> Z :=
  fun k' => if bool_decide (k' = k) then r else realized k'.

(** A key a cost is recorded under: the ledger of a scope, or no key of one. *)
Definition cost_key (ks : list (str * str * str)) (key : str) : Prop :=
  (exists k, k ∈ ks /\ key = k.1.1) \/ key ∉ concat (map triple_keys ks).

Lemma books_outside ks key v v' realized held : key ∉ concat (map triple_keys ks) -> only [key] v v' -> books ks v realized held ->
  books ks v' realized held.
Proof.
  intros Hn Ho Hb k Hk. eapply scope_state_only; [exact Ho| |by apply Hb]. intros x Hx ->%list_elem_of_singleton. apply Hn.
  by apply (in_scopes ks k).
Qed.

Lemma incr_books ks key f n s s' x realized held : separate ks -> lit f <> lit "reserved_micros" -> cost_key ks key ->
  books ks (view_of s) realized held -> HINCRBY key (lit f) n s = (s', Ok x) -> exists realized', books ks (view_of s') realized' held.
Proof.
  intros Hs Hf [(k & Hk & ->)|Hn] Hb Hc; apply incr_ok in Hc as (h & old & Hh & _ & Hv); rewrite Hv;
    [|exists realized; eapply books_outside; [exact Hn|apply only_set|exact Hb]].
  destruct (Hb k Hk) as [(l & Hl & Hre & Hrs) He Ha Hp]. rewrite Hl in Hh. injection Hh as <-.
  destruct k as [[ledger expiry] amounts]. destruct (triple_distinct _ _ _ (separate_keys _ _ Hs Hk)) as (Hle & Hla & Hea).
  cbn [fst snd] in *. set (k := (ledger, expiry, amounts)) in *. set (l' := <[lit f := HInt (old + n)]> l).
  assert (Hr : exists r, num_field l' "realized_micros" = Some r).
  { unfold l', num_field. destruct (decide (lit f = lit "realized_micros")) as [<-|Hne]; [rewrite lookup_insert_eq; by eexists|].
    rewrite lookup_insert_ne by done. by eexists. }
  destruct Hr as [r Hr]. exists (set_realized k r realized). intros k' Hk'. unfold set_realized.
  destruct (bool_decide (k' = k)) eqn:E.
  - apply bool_decide_eq_true in E as ->. constructor; [| | |exact Hp]; unfold k, v_set; cbn [fst snd v_data].
    + rewrite lookup_insert_eq. exists l'. split_and!; [done|exact Hr|]. unfold l'. by rewrite num_field_insert_ne.
    + by rewrite lookup_insert_ne.
    + by rewrite lookup_insert_ne.
  - apply bool_decide_eq_false in E. eapply scope_state_only; [apply only_set| |by apply Hb].
    intros x' Hx' ->%list_elem_of_singleton. eapply (separate_apart ks k' k); [done..|exact Hx'|apply list_elem_of_here].
Qed.

Lemma books_data ks v v' realized held : v_data v' = v_data v -> books ks v realized held -> books ks v' realized held.
Proof. intros Hd Hb k Hk. destruct (Hb k Hk) as [Hl He Ha Hp]. constructor; by rewrite ?Hd. Qed.

Ltac cost_step Hs Hk Hb Hr :=
  let s1 := fresh "s" in let x1 := fresh "x" in let H1 := fresh "Hc" in let Hb' := fresh "Hb" in
  apply s_bind_ok in Hr as (s1 & x1 & H1 & Hr);
  unshelve epose proof (incr_books _ _ _ _ _ _ _ _ _ Hs _ Hk Hb H1) as [? Hb']; [lit_ne|]; clear Hb; rename Hb' into Hb.

Lemma record_key_ok ks a i key s s' u realized held : separate ks -> cost_key ks key -> books ks (view_of s) realized held ->
  record_cost_key a i key s = (s', Ok u) -> exists realized', books ks (view_of s') realized' held.
Proof.
  intros Hs Hk Hb Hr. unfold record_cost_key in Hr. do 7 cost_step Hs Hk Hb Hr. destruct u.
  destruct i as [|[|i]]; [| |lua_open; by eexists]; (apply expire_data_ok in Hr as [Hd _]; [|by vm_compute]);
    eexists; (eapply books_data; [exact Hd|exact Hb]).
Qed.

Lemma record_each_ok ks a l s s' u realized held : separate ks -> Forall (fun p : nat * str => cost_key ks p.2) l ->
  books ks (view_of s) realized held -> s_each (fun '(i, key) => record_cost_key a (i mod 3) key) l s = (s', Ok u) ->
  exists realized', books ks (view_of s') realized' held.
Proof.
  intros Hs Hl. revert s realized. induction Hl as [|[i key] l Hk _ IH]; intros s realized Hb He; cbn [s_each] in He; [lua_open; by eexists|].
  apply s_bind_ok in He as (s1 & x1 & H1 & He). destruct (record_key_ok ks a _ key s s1 _ _ _ Hs Hk Hb H1) as [r1 Hb1].
  by apply (IH s1 r1).
Qed.

Lemma record_ok ks seen id a keys s s' n realized held : separate ks -> seen ∉ concat (map triple_keys ks) ->
  Forall (cost_key ks) keys -> books ks (view_of s) realized held -> RECORD_COST_SCRIPT seen id a keys s = (s', Ok n) ->
  exists realized', books ks (view_of s') realized' held.
Proof.
  intros Hs Hseen Hkeys Hb Hr. unfold RECORD_COST_SCRIPT in Hr. apply s_bind_ok in Hr as (s1 & added & H1 & Hr).
  apply (writes_ok _ _ _ (sadd_law _ _)) in H1 as (z & Hz & -> & Hv).
  assert (Hb1 : books ks (view_of s1) realized held) by (rewrite Hv; eapply books_outside; [exact Hseen|apply only_set|exact Hb]).
  destruct (negb (negb (bool_decide (id ∈ z)))); [lua_open; by eexists|]. apply s_bind_ok in Hr as (s2 & x2 & H2 & Hr).
  assert (Hpairs : Forall (fun p : nat * str => cost_key ks p.2) (imap pair keys)).
  { apply Forall_forall. intros [i key] Hin. apply elem_of_lookup_imap in Hin as (j & key' & [= -> ->] & Hj).
    rewrite Forall_forall in Hkeys. apply Hkeys. by apply list_elem_of_lookup_2 in Hj. }
  destruct (record_each_ok ks a _ s1 s2 _ _ _ Hs Hpairs Hb1 H2) as [r2 Hb2].
  apply s_bind_ok in Hr as (s3 & [] & H3 & Hr). apply expire_data_ok in H3 as [Hd _]; [|by vm_compute]. lua_open.
  exists r2. eapply books_data; [exact Hd|exact Hb2].
Qed.
End Scopes.

(** ** Runs of the fleet *)
Section Runs.
Context {Srv : Type} `{RedisLaws Srv}.
Implicit Types s : Srv.
Context (ks : list (str * str * str)) (ttl_ms : Z).

(** What the replicas do to the budgets [ks]: reserve, release, record costs;
    and time passes, no key of theirs lapsing. *)
Inductive budget_step : Srv -> Srv -> Prop :=
| step_reserve id amount args s s' n : NoDup (map scope_triple args) -> (forall a, a ∈ args -> scope_triple a ∈ ks) ->
    RESERVE_BUDGET_SCRIPT id amount args ttl_ms s = (s', Ok n) -> budget_step s s'
| step_release_budget keys id s s' n : (forall k, k ∈ keys -> k ∈ ks) -> RELEASE_BUDGET_SCRIPT keys id s = (s', Ok n) -> budget_step s s'
| step_cost seen id a keys s s' n : seen ∉ concat (map triple_keys ks) -> Forall (cost_key ks) keys ->
    RECORD_COST_SCRIPT seen id a keys s = (s', Ok n) -> budget_step s s'
| step_clock s s' : passes s s' ->
    (forall k, k ∈ concat (map triple_keys ks) -> lapsed (view_of s) (now_ms (view_of s')) k = false) -> budget_step s s'.

Lemma books_step s s' realized held : 0 < ttl_ms -> separate ks -> books ks (view_of s) realized held -> budget_step s s' ->
  exists realized' held', books ks (view_of s') realized' held'.
Proof.
  intros Httl Hs Hb Hst. destruct Hst as [id amount args s s' n Hnd Hin Hr|keys id s s' n Hin Hr|seen id a keys s s' n Hseen Hk Hr|s s' (clock & _ & Hv) Hl].
  - apply (reserve_ok id amount args ttl_ms ks s s' n _ _ Httl Hs Hnd Hin Hb) in Hr as (held' & _ & Hc).
    destruct Hc as [(_ & _ & Hb')|[(_ & _ & _ & Hb')|(_ & _ & Hb')]]; by do 2 eexists.
  - apply (release_budget_ok keys id ks s s' n _ _ Hs Hin Hb) in Hr. by do 2 eexists.
  - apply (record_ok ks seen id a keys s s' n _ _ Hs Hseen Hk Hb) in Hr as [r Hr]. by do 2 eexists.
  - exists realized, held. intros k Hk. rewrite Hv in Hl |- *. specialize (Hb k Hk).
    assert (Hsame : forall x, x ∈ triple_keys k -> v_data (v_elapse (view_of s) clock) !! x = v_data (view_of s) !! x).
    { intros x Hx. rewrite elapse_lookup. specialize (Hl x (in_scopes ks k x Hk Hx)). unfold now_ms in Hl. cbn [v_clock v_elapse] in Hl.
      by rewrite Hl. }
    destruct Hb as [Hb1 Hb2 Hb3 Hb4]. constructor; [| | |done]; rewrite Hsame; try done; unfold triple_keys.
    + apply list_elem_of_here.
    + by apply list_elem_of_further, list_elem_of_here.
    + by do 2 apply list_elem_of_further; apply list_elem_of_here.
Qed.

Lemma books_run s s' : 0 < ttl_ms -> separate ks -> rtc budget_step s s' -> (exists realized held, books ks (view_of s) realized held) ->
  exists realized held, books ks (view_of s') realized held.
Proof. intros Httl Hs. induction 1 as [s|s s1 s' Hst _ IH]; [done|]. intros (r & h & Hb). apply IH. by eapply books_step. Qed.

Lemma books_blank s : (forall k, k ∈ concat (map triple_keys ks) -> v_data (view_of s) !! k = None) ->
  books ks (view_of s) (fun _ => 0) (fun _ => ∅).
Proof.
  intros Hn k Hk. assert (Hsame : forall x, x ∈ triple_keys k -> v_data (view_of s) !! x = None) by (intros x Hx; by apply Hn, (in_scopes ks k)).
  unfold triple_keys in Hsame. constructor; rewrite ?Hsame.
  - by exists ∅.
  - apply list_elem_of_here.
  - by exists ∅.
  - by apply list_elem_of_further, list_elem_of_here.
  - by rewrite fmap_empty.
  - by do 2 apply list_elem_of_further; apply list_elem_of_here.
  - intros id n Hl. by rewrite lookup_empty in Hl.
Qed.
End Runs.

(** No scope holds anything for the request. *)
Definition unheld (id : str) (args : list BudgetArg) (v : view) : Prop :=
  forall a h, a ∈ args -> hash_of (v_data v !! ba_amounts a) = Some h -> h !! id = None.

(** C10: A fleet budget is never oversold.  Whatever reservations, releases and
    costs the replicas have interleaved, and as long as no key of the budgets
    has lapsed, the reserved amount a ledger shows is the sum of what the
    requests hold there; a new reservation is granted exactly when every
    blocking scope has room, and then it is held in every scope and each
    blocking scope's realized and reserved amounts together stay within its
    limit; a refusal holds nothing anywhere. *)
Theorem fleet_budget_capped {Srv} `{RedisLaws Srv} ks ttl_ms (s0 s s' : Srv) id amount args n :
  0 < ttl_ms -> separate ks -> (forall k, k ∈ concat (map triple_keys ks) -> v_data (view_of s0) !! k = None) ->
  rtc (budget_step ks ttl_ms) s0 s -> NoDup (map scope_triple args) -> (forall a, a ∈ args -> scope_triple a ∈ ks) ->
  unheld id args (view_of s) -> RESERVE_BUDGET_SCRIPT id amount args ttl_ms s = (s', Ok n) ->
  exists realized held, books ks (view_of s') realized held /\
    let spent a := realized (scope_triple a) + total (held (scope_triple a)) in
    (n = 1 /\ (forall a, a ∈ args -> held (scope_triple a) !! id = Some amount /\ (ba_blocks a = true -> spent a <= ba_limit a)) \/
     n = 0 /\ (forall a, a ∈ args -> held (scope_triple a) !! id = None) /\
       exists a, a ∈ args /\ ba_blocks a = true /\ ba_limit a < spent a + amount).
Proof.
  intros Httl Hs Hblank Hrun Hnd Hin Hun Hr.
  assert (exists r h, books ks (view_of s) r h) as (r & h & Hb)
    by (apply (books_run ks ttl_ms s0 s Httl Hs Hrun); do 2 eexists; by apply books_blank).
  assert (Hh : forall a, a ∈ args -> h (scope_triple a) !! id = None).
  { intros a Ha. pose proof (Hun a _ Ha (ss_amounts _ _ _ _ (Hb _ (Hin a Ha)))) as Hl. rewrite lookup_fmap in Hl. by apply fmap_None in Hl. }
  assert (Hlen : args <> []) by (intros ->; unfold RESERVE_BUDGET_SCRIPT in Hr; by rewrite orb_true_r in Hr).
  pose proof (reserve_ok id amount args ttl_ms ks s s' n _ _ Httl Hs Hnd Hin Hb Hr) as (held' & Hsw & Hc).
  assert (Hnone : forall a, a ∈ args -> held' (scope_triple a) !! id = None).
  { intros a Ha. destruct (Hsw _ (Hin a Ha) id) as [->|[? _]]; [by apply Hh|done]. }
  destruct Hc as [(_ & Hall & _)|[(-> & _ & (a & Ha & Hroom) & Hb')|(-> & Hall & Hb')]].
  - destruct args as [|a args]; [done|]. destruct (Hall a (list_elem_of_here _ _)). apply Hnone, list_elem_of_here.
  - exists r, held'. split; [done|]. right. split_and!; [done..|]. exists a. split; [done|].
    unfold has_room in Hroom. destruct (ba_blocks a); [|exfalso; by apply Hroom]. split; [done|]. apply Z.lt_nge. tauto.
  - exists r, (hold_all id amount args held'). split; [done|]. left. split; [done|]. intros a Ha. destruct (Hall a Ha) as [Hn Hroom].
    unfold hold_all. rewrite bool_decide_eq_true_2 by (by apply list_elem_of_fmap_2). split; [apply lookup_insert_eq|].
    intros Hbl. specialize (Hroom Hbl). rewrite total_insert by done. lia.
Qed.

(** ** Closed runs *)
Definition team_budget : BudgetArg :=
  {| ba_ledger := lit "ledger"; ba_expiry := lit "expiry"; ba_amounts := lit "amounts"; ba_limit := 100; ba_blocks := true;
     ba_ledger_ttl_ms := SHARED_LEDGER_DAY_TTL_SECONDS * 1000 |}.

Definition reserve_team (id : string) (amount : Z) (s : Server) : Server * result Z str :=
  RESERVE_BUDGET_SCRIPT (Srv := Server) (lit id) amount [team_budget] SHARED_BUDGET_RESERVATION_TTL_MS s.

Definition release_team (id : string) (s : Server) : Server * result Z str :=
  RELEASE_BUDGET_SCRIPT (Srv := Server) [scope_triple team_budget] (lit id) s.

Definition one_reservation : Server := fst (reserve_team "a" 60 (server_at 1000)).

Example sample_reservations :
  snd (reserve_team "a" 60 (server_at 1000)) = Ok 1 /\ snd (reserve_team "b" 60 one_reservation) = Ok 0 /\
  snd (reserve_team "a" 60 one_reservation) = Ok 1 /\ snd (reserve_team "b" 40 one_reservation) = Ok 1 /\
  snd (reserve_team "b" 60 (fst (release_team "a" one_reservation))) = Ok 1.
Proof. vm_compute. repeat split. Qed.

(** A request that never settles holds its reservation for six hours.  The set
    that remembers it is given the same six hours, so when no other request
    reserves meanwhile the memory lapses with the lease: the ledger keeps the
    reserved amount, and the budget refuses for good. *)
Example abandoned_reservation_leaks :
  let later := v_elapse one_reservation (1000 + 6 * 60 * 60 + 1, 0) in
  v_data later !! ba_amounts team_budget = None /\ v_data later !! ba_expiry team_budget = None /\
  (hash_of (v_data later !! ba_ledger team_budget) ≫= fun h => num_field h "reserved_micros") = Some 60 /\
  snd (reserve_team "b" 60 later) = Ok 0 /\
  snd (reserve_team "b" 60 (v_elapse (fst (reserve_team "b" 60 later)) (1000 + 100 * 24 * 60 * 60, 0))) = Ok 0.
Proof. vm_compute. repeat split. Qed.

Lemma fleet_budget_capped_witness :
  snd (reserve_team "b" 60 one_reservation) = Ok 0 /\
  exists realized held, books [scope_triple team_budget] (view_of (fst (reserve_team "b" 60 one_reservation))) realized held /\
    let spent a := realized (scope_triple a) + total (held (scope_triple a)) in
    (0 = 1 /\ (forall a, a ∈ [team_budget] -> held (scope_triple a) !! lit "b" = Some 60 /\ (ba_blocks a = true -> spent a <= ba_limit a)) \/
     0 = 0 /\ (forall a, a ∈ [team_budget] -> held (scope_triple a) !! lit "b" = None) /\
       exists a, a ∈ [team_budget] /\ ba_blocks a = true /\ ba_limit a < spent a + 60).
Proof.
  split; [vm_compute; reflexivity|].
  assert (Hnd : NoDup (map scope_triple [team_budget])) by (apply (bool_decide_unpack _); vm_compute; exact I).
  assert (Hin : forall a, a ∈ [team_budget] -> scope_triple a ∈ [scope_triple team_budget])
    by (intros a ->%list_elem_of_singleton; apply list_elem_of_here).
  apply (fleet_budget_capped (Srv := Server) [scope_triple team_budget] SHARED_BUDGET_RESERVATION_TTL_MS (server_at 1000)
           one_reservation (fst (reserve_team "b" 60 one_reservation)) (lit "b") 60 [team_budget] 0).
  - vm_compute. reflexivity.
  - apply (bool_decide_unpack _). vm_compute. exact I.
  - intros k _. reflexivity.
  - eapply rtc_l; [|apply rtc_refl].
    eapply (step_reserve (Srv := Server) _ _ (lit "a") 60 [team_budget] _ _ 1); [exact Hnd|exact Hin|vm_compute; reflexivity].
  - exact Hnd.
  - exact Hin.
  - intros a h ->%list_elem_of_singleton Hh. vm_compute in Hh. injection Hh as <-. vm_compute. reflexivity.
  - vm_compute. reflexivity.
Defined.
