(* ===== verification/FleetCache.v ===== *)
(** * The shared response cache (crate [wayfinder-gateway], [src/state.rs])

    What the cache scripts keep over every interleaving of the replicas: an
    entry that is served was stored under the generation that asks, eviction
    ends, and the index stays within its bound. *)
From S2P Require Export FleetBudget.

Section Cache.
Context {Srv : Type} `{RedisLaws Srv}.
Implicit Types s : Srv.

(** ** Eviction ends *)
Section Eviction.
Context (k : CacheKeys) (max_entries max_bytes : Z).

(** The loop as the script runs it, without a bound on its rounds. *)
Inductive evicts : Z -> Z -> Srv -> Srv * result unit str -> Prop :=
| evicts_done card bytes s : (max_entries <? card) || (max_bytes <? bytes) = false -> evicts card bytes s (s, Ok ())
| evicts_fail card bytes s s' e : (max_entries <? card) || (max_bytes <? bytes) = true ->
    evict_round k bytes s = (s', Err e) -> evicts card bytes s (s', Err e)
| evicts_break card bytes s s' : (max_entries <? card) || (max_bytes <? bytes) = true ->
    evict_round k bytes s = (s', Ok None) -> evicts card bytes s (s', Ok ())
| evicts_round card bytes s s' card' bytes' r : (max_entries <? card) || (max_bytes <? bytes) = true ->
    evict_round k bytes s = (s', Ok (Some (card', bytes'))) -> evicts card' bytes' s' r -> evicts card bytes s r.

(** Keys a cache uses apart from its entries. *)
Definition apart : Prop :=
  ck_index k <> ck_meta k /\ ck_index k <> ck_sizes k /\ ck_meta k <> ck_sizes k /\
  forall d, ck_prefix k ++ d <> ck_index k /\ ck_prefix k ++ d <> ck_meta k /\ ck_prefix k ++ d <> ck_sizes k.

Lemma round_ok bytes s s' r z : apart -> zset_of (v_data (view_of s) !! ck_index k) = Some z -> evict_round k bytes s = (s', Ok r) ->
  match r with
  | None => z = ∅ /\ view_of s' = view_of s
  | Some (card', bytes') => exists victim h m, is_Some (z !! victim) /\ card' = Z.of_nat (size (delete victim z)) /\ 0 <= bytes' /\
      hash_of (v_data (view_of s) !! ck_sizes k) = Some h /\ hash_of (v_data (view_of s) !! ck_meta k) = Some m /\
      view_of s' = v_set (v_zset (v_hash (v_del (view_of s) (ck_prefix k ++ victim)) (ck_sizes k) (delete victim h)) (ck_index k) (delete victim z))
                     (ck_meta k) (RHash (<[lit "bytes" := HInt bytes']> m))
  end.
Proof.
  intros (Him & His & Hms & Hent) Hz Hr. unfold evict_round in Hr. apply s_bind_ok in Hr as (s1 & oldest & H1 & Hr).
  apply (reads_ok _ _ _ (zrange_first_law _)) in H1 as [Hv1 (z1 & Hz1 & Hold)]. rewrite Hz in Hz1. injection Hz1 as <-.
  destruct oldest as [victim|]; [|lua_open; by subst]. destruct Hold as (score & Hvic & _). destruct (Hent victim) as (Hei & Hem & Hes).
  apply s_bind_ok in Hr as (s2 & vb & H2 & Hr). apply lua_member_ok in H2 as [Hv2 _].
  apply s_bind_ok in Hr as (s3 & x3 & H3 & Hr). apply (writes_ok _ _ _ (del_law _)) in H3 as Hv3. cbn [foldl] in Hv3.
  apply s_bind_ok in Hr as (s4 & x4 & H4 & Hr). apply (writes_ok _ _ _ (hdel_law _ _)) in H4 as (h & Hh & Hv4).
  apply s_bind_ok in Hr as (s5 & x5 & H5 & Hr). apply (writes_ok _ _ _ (zrem_law _ _)) in H5 as (z5 & Hz5 & Hv5).
  apply s_bind_ok in Hr as (s6 & x6 & H6 & Hr). apply (writes_ok _ _ _ (hset_law _ _)) in H6 as (m & Hm & Hv6).
  apply s_bind_ok in Hr as (s7 & card & H7 & Hr). apply (reads_ok _ _ _ (zcard_law _)) in H7 as [Hv7 (z7 & Hz7 & ->)]. lua_open.
  rewrite Hv2, Hv1 in Hv3. rewrite Hv4, Hv3 in Hz5. rewrite data_hash_ne, data_del_ne, Hz in Hz5 by other_key. injection Hz5 as <-.
  rewrite Hv6, Hv5 in Hz7. rewrite data_set_ne, zset_of_zset in Hz7 by other_key. injection Hz7 as <-.
  rewrite Hv3 in Hh. rewrite data_del_ne in Hh by other_key. rewrite Hv5, Hv4, Hv3 in Hm. revert Hm. frames. intros Hm.
  exists victim, h, m. split_and!; [by eexists|done|lia|done|done|]. rewrite Hv7, Hv6, Hv5, Hv4, Hv3. done.
Qed.

(** Eviction of the shared cache ends: as many rounds as the index has
    members are enough for any bounds and any byte counter, whichever commands
    fail, so that running the script's loop with more rounds than members is
    running it without a bound on its rounds. *)
Theorem eviction_terminates fuel z card bytes s : apart -> zset_of (v_data (view_of s) !! ck_index k) = Some z -> (size z < fuel)%nat ->
  evicts card bytes s (evict_shared fuel k max_entries max_bytes card bytes s).
Proof.
  intros Hk. revert z card bytes s. induction fuel as [|fuel IH]; intros z card bytes s Hz Hlt; [lia|]. cbn [evict_shared].
  destruct ((max_entries <? card) || (max_bytes <? bytes)) eqn:E; [|by apply evicts_done].
  unfold s_bind. destruct (evict_round k bytes s) as [s1 [r|e]] eqn:Er; [|by eapply evicts_fail].
  pose proof (round_ok bytes s s1 r z Hk Hz Er) as Hr. destruct r as [[card' bytes']|]; [|by apply evicts_break].
  destruct Hr as (victim & h & m & [score Hvic] & _ & _ & _ & _ & Hv). eapply evicts_round; [done..|]. destruct Hk as (Him & His & Hms & Hent).
  eapply IH.
  - rewrite Hv. frames. apply zset_of_zset.
  - rewrite <-(insert_delete_id z victim score Hvic), map_size_insert_None in Hlt by apply lookup_delete_eq. lia.
Qed.
End Eviction.

(** ** What the cache holds *)
Section Entries.
Context (n : RedisKeyNamespace).

Lemma in_namespace_inj a b : in_namespace n a = in_namespace n b -> a = b.
Proof. unfold in_namespace. intros E. by simplify_list_eq. Qed.

Lemma cache_keys_apart d : apart (cache_keys n d).
Proof.
  unfold apart, cache_keys, cache_index, cache_meta, cache_sizes, cache_entry_prefix. cbn [ck_index ck_meta ck_sizes ck_prefix].
  split_and!; [intros E%in_namespace_inj; vm_compute in E; discriminate E..|]. intros e.
  assert (Hp : in_namespace n (lit "cache:entry:") ++ e = in_namespace n (lit "cache:entry:" ++ e))
    by (unfold in_namespace; by rewrite <- !app_assoc).
  rewrite Hp. split_and!; intros E%in_namespace_inj; vm_compute in E; discriminate E.
Qed.

Lemma entry_inj d d' : cache_entry n d = cache_entry n d' -> d = d'.
Proof. unfold cache_entry. intros E. by simplify_list_eq. Qed.

(** What a caller stored under a digest: the generation and the value. *)
Local Notation stored := (gmap str (str * list Z)).

Definition generation_of (v : view) : option hval := hash_of (v_data v !! cache_meta n) ≫= (fun m => m !! lit "generation").

Record cached (g : stored) (v : view) (z : gmap str Z) : Prop := {
  ca_index : zset_of (v_data v !! cache_index n) = Some z;
  ca_meta : exists m, hash_of (v_data v !! cache_meta n) = Some m;
  ca_undated : v_deadline v !! cache_index n = None /\ v_deadline v !! cache_meta n = None;
  ca_entries : forall d x, v_data v !! cache_entry n d = Some x -> is_Some (z !! d) /\
    exists generation value, x = RText value /\ g !! d = Some (generation, value) /\ generation_of v = Some (HText generation);
}.

(** A change that keeps the index and the generation, and adds no entry. *)
Lemma cached_frame g v v' z : cached g v z -> zset_of (v_data v' !! cache_index n) = Some z ->
  (exists m, hash_of (v_data v' !! cache_meta n) = Some m) -> generation_of v' = generation_of v ->
  v_deadline v' !! cache_index n = None /\ v_deadline v' !! cache_meta n = None ->
  (forall d x, v_data v' !! cache_entry n d = Some x -> v_data v !! cache_entry n d = Some x) -> cached g v' z.
Proof.
  intros [Hi Hm Hu He] Hi' Hm' Hg Hu' He'. constructor; [done..|]. intros d x Hx. destruct (He d x (He' d x Hx)) as (? & gn & val & ? & ? & ?).
  split; [done|]. exists gn, val. by rewrite Hg.
Qed.

(** Deadlines the writes keep absent. *)
Lemma undated_set v k k' x : v_deadline v !! k = None -> v_deadline (v_set v k' x) !! k = None.
Proof. done. Qed.
Lemma undated_del v k k' : v_deadline v !! k = None -> v_deadline (v_del v k') !! k = None.
Proof. intros Hn. unfold v_del. cbn [v_deadline]. apply lookup_delete_None. by right. Qed.
Lemma undated_hash v k k' h : v_deadline v !! k = None -> v_deadline (v_hash v k' h) !! k = None.
Proof. unfold v_hash. destruct (bool_decide _); [apply undated_del|done]. Qed.
Lemma undated_zset v k k' z : v_deadline v !! k = None -> v_deadline (v_zset v k' z) !! k = None.
Proof. unfold v_zset. destruct (bool_decide _); [apply undated_del|done]. Qed.
Lemma undated_expire v k k' ms : k <> k' -> v_deadline v !! k = None -> v_deadline (v_expire v k' ms) !! k = None.
Proof. intros Hne Hn. unfold v_expire. destruct (v_data v !! k'); [|done]. cbn [v_deadline]. by rewrite lookup_insert_ne. Qed.

(** [DEL] of the entries of some digests. *)
Definition drop_entries (ds : list str) (v : view) : view := foldl (fun v d => v_del v (cache_entry n d)) v ds.

Lemma drop_entries_data ds v k : v_data (drop_entries ds v) !! k = if bool_decide (k ∈ map (cache_entry n) ds) then None else v_data v !! k.
Proof.
  revert v. induction ds as [|d ds IH]; intros v; cbn [drop_entries foldl map]; [done|]. fold (drop_entries ds (v_del v (cache_entry n d))).
  rewrite IH. destruct (decide (k = cache_entry n d)) as [->|Hne].
  - rewrite (bool_decide_eq_true_2 (_ ∈ _ :: _)) by apply list_elem_of_here. rewrite data_del_eq. by destruct (bool_decide _).
  - rewrite data_del_ne by done. replace (bool_decide (k ∈ cache_entry n d :: map (cache_entry n) ds)) with (bool_decide (k ∈ map (cache_entry n) ds)); [done|].
    apply bool_decide_ext. rewrite elem_of_cons. naive_solver.
Qed.

Lemma drop_entries_undated ds v k : v_deadline v !! k = None -> v_deadline (drop_entries ds v) !! k = None.
Proof. revert v. induction ds as [|d ds IH]; intros v Hn; [done|]. apply IH. by apply undated_del. Qed.

Lemma drop_entries_clock ds v : v_clock (drop_entries ds v) = v_clock v.
Proof. revert v. induction ds as [|d ds IH]; intros v; [done|]. cbn [drop_entries foldl]. fold (drop_entries ds (v_del v (cache_entry n d))). by rewrite IH. Qed.

Lemma drop_each_ok ds s s' u : s_each (fun d => DEL [cache_entry_prefix n ++ d]) ds s = (s', Ok u) -> view_of s' = drop_entries ds (view_of s).
Proof.
  revert s. induction ds as [|d ds IH]; intros s He; cbn [s_each] in He; [by lua_open|].
  apply s_bind_ok in He as (s1 & x1 & H1 & He). apply (writes_ok _ _ _ (del_law _)) in H1. cbn [foldl] in H1.
  rewrite (IH s1 He), H1. done.
Qed.

(** Inequalities of the cache's keys. *)
Lemma index_meta : cache_index n <> cache_meta n.
Proof. apply (cache_keys_apart []). Qed.
Lemma index_sizes : cache_index n <> cache_sizes n.
Proof. apply (cache_keys_apart []). Qed.
Lemma meta_sizes : cache_meta n <> cache_sizes n.
Proof. apply (cache_keys_apart []). Qed.
Lemma entry_index d : cache_entry n d <> cache_index n.
Proof. apply (cache_keys_apart []). Qed.
Lemma entry_meta d : cache_entry n d <> cache_meta n.
Proof. apply (cache_keys_apart []). Qed.
Lemma entry_sizes d : cache_entry n d <> cache_sizes n.
Proof. apply (cache_keys_apart []). Qed.
Local Hint Resolve index_meta index_sizes meta_sizes entry_index entry_meta entry_sizes not_eq_sym : core.

Lemma no_entry_key k ds : (forall d, cache_entry n d <> k) -> bool_decide (k ∈ map (cache_entry n) ds) = false.
Proof. intros Hk. apply bool_decide_eq_false. intros (d & -> & _)%list_elem_of_fmap. by apply (Hk d). Qed.

Lemma enter_generation_ok g d generation s s' u z : cached g (view_of s) z ->
  enter_generation (cache_keys n d) generation s = (s', Ok u) ->
  (exists z', cached g (view_of s') z') /\ generation_of (view_of s') = Some (HText generation).
Proof.
  intros Hca He. unfold enter_generation in He. cbn [cache_keys ck_meta ck_index ck_prefix ck_sizes] in He.
  apply s_bind_ok in He as (s1 & current & H1 & He). apply (reads_ok _ _ _ (hget_law _ _)) in H1 as [Hv1 (m & Hm & ->)].
  destruct (bool_decide (m !! lit "generation" = Some (HText generation))) eqn:E.
  { lua_open. rewrite Hv1. split; [by exists z|]. apply bool_decide_eq_true in E. unfold generation_of. by rewrite Hm. }
  clear E. apply s_bind_ok in He as (s2 & stale & H2 & He). apply (reads_ok _ _ _ (zrange_all_law _)) in H2 as [Hv2 (z2 & Hz2 & _ & Hst)].
  rewrite Hv1, (ca_index _ _ _ Hca) in Hz2. injection Hz2 as <-.
  apply s_bind_ok in He as (s3 & x3 & H3 & He). apply drop_each_ok in H3 as Hv3.
  apply s_bind_ok in He as (s4 & x4 & H4 & He). apply (writes_ok _ _ _ (del_law _)) in H4 as Hv4. cbn [foldl] in Hv4.
  apply (writes_ok _ _ _ (hset_law _ _)) in He as (m' & Hm' & Hv'). rewrite Hv2, Hv1 in Hv3.
  assert (Hgen : generation_of (view_of s') = Some (HText generation)).
  { unfold generation_of. rewrite Hv', hash_of_set. cbn [mbind option_bind]. by fields. }
  split; [|done]. exists ∅. destruct (ca_undated _ _ _ Hca) as [Hu1 Hu2]. constructor.
  - rewrite Hv'. rewrite data_set_ne by auto. by rewrite Hv4, data_del_eq.
  - rewrite Hv', hash_of_set. by eexists.
  - rewrite Hv', Hv4, Hv3. split; by apply undated_set, undated_del, undated_del, drop_entries_undated.
  - intros e x Hx. exfalso. rewrite Hv' in Hx. rewrite data_set_ne in Hx by auto. rewrite Hv4 in Hx. rewrite !data_del_ne in Hx by auto.
    rewrite Hv3, drop_entries_data in Hx. destruct (bool_decide _) eqn:E; [done|]. apply bool_decide_eq_false in E. apply E, list_elem_of_fmap_2.
    apply Hst. destruct (ca_entries _ _ _ Hca e x Hx) as [Hin _]. by apply elem_of_dom.
Qed.

Lemma cached_bytes g v z m x : cached g v z -> hash_of (v_data v !! cache_meta n) = Some m ->
  cached g (v_set v (cache_meta n) (RHash (<[lit "bytes" := HInt x]> m))) z.
Proof.
  intros Hca Hm. eapply cached_frame; [exact Hca|..].
  - rewrite data_set_ne by auto. apply Hca.
  - rewrite hash_of_set. by eexists.
  - unfold generation_of. rewrite hash_of_set, Hm. cbn [mbind option_bind]. by fields.
  - split; apply undated_set, Hca.
  - intros d y Hy. by rewrite data_set_ne in Hy by auto.
Qed.

Lemma generation_bytes v m x : hash_of (v_data v !! cache_meta n) = Some m ->
  generation_of (v_set v (cache_meta n) (RHash (<[lit "bytes" := HInt x]> m))) = generation_of v.
Proof. intros Hm. unfold generation_of. rewrite hash_of_set, Hm. cbn [mbind option_bind]. by fields. Qed.

Lemma cached_sizes g v z h : cached g v z -> cached g (v_hash v (cache_sizes n) h) z.
Proof.
  intros Hca. eapply cached_frame; [exact Hca|..].
  - rewrite data_hash_ne by auto. apply Hca.
  - rewrite data_hash_ne by auto. apply Hca.
  - unfold generation_of. by rewrite data_hash_ne by auto.
  - split; apply undated_hash, Hca.
  - intros d y Hy. by rewrite data_hash_ne in Hy by auto.
Qed.

(** An entry goes, and then its member. *)
Lemma cached_drop g v z d : cached g v z -> v_data v !! cache_entry n d = None -> cached g (v_zset v (cache_index n) (delete d z)) (delete d z).
Proof.
  intros [Hi Hm Hu He] Hd. constructor.
  - apply zset_of_zset.
  - by rewrite data_zset_ne by auto.
  - split; by apply undated_zset, Hu.
  - intros e x Hx. rewrite data_zset_ne in Hx by auto. destruct (He e x Hx) as [Hin Hg]. split.
    + rewrite lookup_delete_ne; [done|]. intros ->. congruence.
    + unfold generation_of. by rewrite data_zset_ne by auto.
Qed.

Lemma cached_del g v z d : cached g v z -> cached g (v_del v (cache_entry n d)) z.
Proof.
  intros Hca. eapply cached_frame; [exact Hca|..].
  - rewrite data_del_ne by auto. apply Hca.
  - rewrite data_del_ne by auto. apply Hca.
  - unfold generation_of. by rewrite data_del_ne by auto.
  - split; apply undated_del, Hca.
  - intros e y Hy. destruct (decide (e = d)) as [->|Hne]; [by rewrite data_del_eq in Hy|].
    rewrite data_del_ne in Hy; [done|]. by intros ?%entry_inj.
Qed.

Lemma cached_touch g v z d score : cached g v z -> cached g (v_set v (cache_index n) (RZset (<[d := score]> z))) (<[d := score]> z).
Proof.
  intros [Hi Hm Hu He]. constructor.
  - apply zset_of_set.
  - by rewrite data_set_ne by auto.
  - done.
  - intros e x Hx. rewrite data_set_ne in Hx by auto. destruct (He e x Hx) as [Hin Hg]. split.
    + destruct (decide (e = d)) as [->|Hne]; [by rewrite lookup_insert_eq|by rewrite lookup_insert_ne].
    + unfold generation_of. by rewrite data_set_ne by auto.
Qed.

Lemma get_ok g d generation s s' r z : cached g (view_of s) z ->
  SHARED_CACHE_GET_SCRIPT (cache_keys n d) d generation s = (s', Ok r) ->
  (exists z', cached g (view_of s') z') /\ forall x, r = Some x -> g !! d = Some (generation, x).
Proof.
  intros Hca Hr. unfold SHARED_CACHE_GET_SCRIPT in Hr. apply s_bind_ok in Hr as (s1 & x1 & H1 & Hr).
  destruct (enter_generation_ok g d generation s s1 x1 z Hca H1) as [[z1 Hc1] Hg1]. cbn [cache_keys ck_entry ck_sizes ck_meta ck_index] in Hr.
  apply s_bind_ok in Hr as (s2 & e & H2 & Hr). apply (reads_ok _ _ _ (get_law _)) in H2 as [Hv2 He]. rewrite <-Hv2 in Hc1, Hg1, He.
  destruct (v_data (view_of s2) !! cache_entry n d) as [y|] eqn:Ey.
  - destruct (ca_entries _ _ _ Hc1 d y Ey) as (_ & gn & val & -> & Hgd & Hgn). cbn [text_of] in He. injection He as <-.
    apply s_bind_ok in Hr as (s3 & now & H3 & Hr). apply lua_now_ok in H3 as [Hv3 _].
    apply s_bind_ok in Hr as (s4 & x4 & H4 & Hr). apply (writes_ok _ _ _ (zadd_law _ _ _)) in H4 as (z4 & Hz4 & Hv4). lua_open.
    rewrite Hv3, (ca_index _ _ _ Hc1) in Hz4. injection Hz4 as <-. rewrite Hv4, Hv3. split; [eexists; by apply cached_touch|].
    intros x [= <-]. rewrite Hg1 in Hgn. by injection Hgn as <-.
  - cbn [text_of] in He. injection He as <-. apply s_bind_ok in Hr as (s3 & prior & H3 & Hr). apply lua_member_ok in H3 as [Hv3 _].
    rewrite <-Hv3 in Hc1, Ey. apply s_bind_ok in Hr as (s4 & x4 & H4 & Hr). lua_open. split; [|done].
    destruct (0 <? prior); [|lua_open; by exists z1].
    apply s_bind_ok in H4 as (s5 & x5 & H5 & H4). apply (writes_ok _ _ _ (hincrby_law _ _ _)) in H5 as (m & old & Hm & _ & -> & Hv5).
    apply s_bind_ok in H4 as (s6 & x6 & H6 & H4). apply (writes_ok _ _ _ (hdel_law _ _)) in H6 as (h & _ & Hv6).
    apply (writes_ok _ _ _ (zrem_law _ _)) in H4 as (z6 & Hz6 & Hv4).
    assert (Hc6 : cached g (view_of s6) z1) by (rewrite Hv6; apply cached_sizes; rewrite Hv5; by apply cached_bytes).
    rewrite (ca_index _ _ _ Hc6) in Hz6. injection Hz6 as <-. exists (delete d z1). rewrite Hv4. apply cached_drop; [done|].
    rewrite Hv6, Hv5. rewrite data_hash_ne, data_set_ne by auto. done.
Qed.

Lemma evict_ok g d max_entries max_bytes fuel bytes s s' u z : cached g (view_of s) z -> (size z < fuel)%nat ->
  evict_shared fuel (cache_keys n d) max_entries max_bytes (Z.of_nat (size z)) bytes s = (s', Ok u) ->
  exists z', cached g (view_of s') z' /\ Z.of_nat (size z') <= Z.max 0 max_entries.
Proof.
  revert z bytes s. induction fuel as [|fuel IH]; intros z bytes s Hca Hlt He; [lia|]. cbn [evict_shared] in He.
  destruct ((max_entries <? Z.of_nat (size z)) || (max_bytes <? bytes)) eqn:E.
  - apply s_bind_ok in He as (s1 & r & H1 & He).
    pose proof (round_ok (cache_keys n d) bytes s s1 r z (cache_keys_apart d) (ca_index _ _ _ Hca) H1) as Hr.
    destruct r as [[card' bytes']|]; [|lua_open; destruct Hr as [-> ->]; exists ∅; rewrite map_size_empty; split; [done|lia]].
    cbn [cache_keys ck_index ck_sizes ck_meta ck_prefix] in Hr. fold (cache_entry n) in Hr.
    destruct Hr as (victim & h & m & [score Hvic] & -> & _ & Hh & Hm & Hv). change (cache_entry_prefix n ++ victim) with (cache_entry n victim) in Hv.
    set (v1 := v_zset (v_hash (v_del (view_of s) (cache_entry n victim)) (cache_sizes n) (delete victim h)) (cache_index n) (delete victim z)) in *.
    assert (Hc1 : cached g (view_of s1) (delete victim z)).
    { rewrite Hv. apply cached_bytes; [|by unfold v1; rewrite data_zset_ne, data_hash_ne, data_del_ne by auto]. unfold v1. apply cached_drop; [by apply cached_sizes, cached_del|].
      rewrite data_hash_ne by auto. apply data_del_eq. }
    assert (Hlt' : (size (delete victim z) < fuel)%nat)
      by (rewrite <-(insert_delete_id z victim score Hvic), map_size_insert_None in Hlt by apply lookup_delete_eq; lia).
    by apply (IH _ _ _ Hc1 Hlt' He).
  - lua_open. exists z. apply orb_false_iff in E as [E%Z.ltb_ge _]. split; [done|lia].
Qed.

Definition storable (body_bytes ttl_ms max_entries max_bytes : Z) : bool :=
  negb ((body_bytes <? 0) || (ttl_ms <? 0) || (max_entries <? 1) || (max_bytes <? 1)) && negb (max_bytes <? body_bytes).

Lemma cached_store g v v' z d generation value score : cached g v z -> generation_of v = Some (HText generation) ->
  v_data v' !! cache_index n = Some (RZset (<[d := score]> z)) -> v_data v' !! cache_meta n = v_data v !! cache_meta n ->
  v_deadline v' !! cache_index n = None /\ v_deadline v' !! cache_meta n = None ->
  (forall e, v_data v' !! cache_entry n e = if bool_decide (e = d) then Some (RText value) else v_data v !! cache_entry n e) ->
  cached (<[d := (generation, value)]> g) v' (<[d := score]> z).
Proof.
  intros [Hi Hm Hu He] Hg Hi' Hm' Hu' He'. assert (Hg' : generation_of v' = Some (HText generation)) by (unfold generation_of; by rewrite Hm').
  constructor; [by rewrite Hi'|by rewrite Hm'|done|]. intros e x Hx. rewrite He' in Hx. destruct (bool_decide (e = d)) eqn:E.
  - apply bool_decide_eq_true in E as ->. injection Hx as <-. rewrite !lookup_insert_eq. split; [by eexists|]. by exists generation, value.
  - apply bool_decide_eq_false in E. rewrite !lookup_insert_ne by done. destruct (He e x Hx) as (Hin & gn & val & Hy & Hgd & Hgn).
    split; [done|]. exists gn, val. by rewrite Hg', <-Hg.
Qed.

Lemma put_store_ok g v z d generation value body ttl_ms s s1 s2 s3 s3' s4 now : view_of s = v -> cached g v z ->
  generation_of v = Some (HText generation) -> SET (cache_entry n d) value s = (s1, Ok ()) ->
  (if 0 <? ttl_ms then PEXPIRE (cache_entry n d) ttl_ms else s_ret ()) s1 = (s2, Ok ()) ->
  HSET (cache_sizes n) [(d, HInt body)] s2 = (s3, Ok ()) -> view_of s3' = view_of s3 -> ZADD (cache_index n) now d s3' = (s4, Ok ()) ->
  cached (<[d := (generation, value)]> g) (view_of s4) (<[d := now]> z).
Proof.
  intros Hv Hca Hg H1 H2 H3 Hs3 H4. apply (writes_ok _ _ _ (set_law _ _)) in H1 as Hv1. rewrite Hv in Hv1.
  apply (writes_ok _ _ _ (hset_law _ _)) in H3 as (h & _ & Hv3). apply (writes_ok _ _ _ (zadd_law _ _ _)) in H4 as (z4 & Hz4 & Hv4). rewrite Hs3 in Hz4, Hv4.
  assert (Hd2 : v_data (view_of s2) = v_data (view_of s1) /\
    forall k, cache_entry n d <> k -> v_deadline (view_of s1) !! k = None -> v_deadline (view_of s2) !! k = None).
  { destruct (Z.ltb_spec 0 ttl_ms) as [Hlt|]; [|by lua_open]. apply (writes_ok _ _ _ (pexpire_law _ _)) in H2.
    rewrite expire_positive in H2 by done. rewrite H2. split; [apply v_expire_data|]. intros k Hk Hn. by apply undated_expire; auto. }
  destruct Hd2 as [Hd2 Hu2].
  assert (Hd1 : forall k, k <> cache_entry n d -> v_data (view_of s2) !! k = v_data v !! k)
    by (intros k Hk; rewrite Hd2, Hv1; cbn [v_data]; by apply lookup_insert_ne).
  rewrite Hv3, data_set_ne, Hd1, (ca_index _ _ _ Hca) in Hz4 by auto. injection Hz4 as <-.
  assert (Hu : forall k, k <> cache_entry n d -> v_deadline v !! k = None -> v_deadline (view_of s4) !! k = None).
  { intros k Hk Hn. rewrite Hv4, Hv3. apply undated_set, undated_set, Hu2; [by auto|]. rewrite Hv1. cbn [v_deadline].
    by rewrite lookup_delete_ne by auto. }
  eapply cached_store; [exact Hca|exact Hg|..].
  - rewrite Hv4. unfold v_set. cbn [v_data]. apply lookup_insert_eq.
  - rewrite Hv4, Hv3, !data_set_ne by auto. by apply Hd1, not_eq_sym, entry_meta.
  - split; apply Hu; auto; apply Hca.
  - intros e. rewrite Hv4, Hv3, !data_set_ne by auto. destruct (bool_decide (e = d)) eqn:E.
    + apply bool_decide_eq_true in E as ->. rewrite Hd2, Hv1. cbn [v_data]. apply lookup_insert_eq.
    + apply bool_decide_eq_false in E. apply Hd1. by intros ?%entry_inj.
Qed.

Lemma put_ok g d generation value body ttl_ms max_entries max_bytes s s' r z : cached g (view_of s) z ->
  SHARED_CACHE_PUT_SCRIPT (cache_keys n d) d generation value body ttl_ms max_entries max_bytes s = (s', Ok r) ->
  exists z', cached (if storable body ttl_ms max_entries max_bytes then <[d := (generation, value)]> g else g) (view_of s') z' /\
    (storable body ttl_ms max_entries max_bytes = true -> Z.of_nat (size z') <= max_entries).
Proof.
  intros Hca Hr. unfold SHARED_CACHE_PUT_SCRIPT in Hr. apply s_bind_ok in Hr as (s1 & x1 & H1 & Hr).
  destruct (enter_generation_ok g d generation s s1 x1 z Hca H1) as [[z1 Hc1] Hg1].
  cbn [cache_keys ck_entry ck_sizes ck_meta ck_index] in Hr. unfold storable.
  destruct ((body <? 0) || (ttl_ms <? 0) || (max_entries <? 1) || (max_bytes <? 1)) eqn:E1; [lua_open; by exists z1|].
  destruct (max_bytes <? body) eqn:E2; [lua_open; by exists z1|]. cbn [negb andb].
  apply orb_false_iff in E1 as [[_ Eme%Z.ltb_ge]%orb_false_iff _]. apply s_bind_ok in Hr as (s2 & prev & H2 & Hr). apply lua_member_ok in H2 as [Hv2 _].
  apply s_bind_ok in Hr as (s3 & [] & H3 & Hr).
  assert (Hc3 : cached g (view_of s3) z1 /\ generation_of (view_of s3) = Some (HText generation)).
  { rewrite <-Hv2 in Hc1, Hg1. destruct (0 <? prev); [|by lua_open]. lua_open.
    match goal with Hc : HINCRBY _ _ _ _ = _ |- _ => apply (writes_ok _ _ _ (hincrby_law _ _ _)) in Hc as (m & old & Hm & _ & -> & ->) end.
    split; [by apply cached_bytes|by rewrite generation_bytes]. }
  destruct Hc3 as [Hc3 Hg3]. apply s_bind_ok in Hr as (s4 & [] & H4 & Hr). apply s_bind_ok in Hr as (s5 & [] & H5 & Hr).
  apply s_bind_ok in Hr as (s6 & [] & H6 & Hr). apply s_bind_ok in Hr as (s7 & now & H7 & Hr). apply lua_now_ok in H7 as [Hv7 _].
  apply s_bind_ok in Hr as (s8 & [] & H8 & Hr). apply s_bind_ok in Hr as (s9 & x9 & H9 & Hr).
  apply (writes_ok _ _ _ (hincrby_law _ _ _)) in H9 as (m & old & Hm & _ & -> & Hv9).
  apply s_bind_ok in Hr as (s10 & bytes & H10 & Hr). apply lua_field_ok in H10 as [Hv10 _].
  apply s_bind_ok in Hr as (s11 & card & H11 & Hr). apply (reads_ok _ _ _ (zcard_law _)) in H11 as [Hv11 (z11 & Hz11 & ->)].
  apply s_bind_ok in Hr as (s12 & x12 & H12 & Hr). apply s_bind_ok in Hr as (s13 & ex & H13 & Hr). lua_open.
  apply (reads_ok _ _ _ (exists_law _)) in H13 as [Hv13 _].
  pose proof (put_store_ok g _ z1 d generation value body ttl_ms s3 s4 s5 s6 s7 s8 now eq_refl Hc3 Hg3 H4 H5 H6 Hv7 H8) as Hc8.
  assert (Hc11 : cached (<[d := (generation, value)]> g) (view_of s11) (<[d := now]> z1))
    by (rewrite Hv11, Hv10, Hv9; by apply cached_bytes).
  rewrite <-Hv11, (ca_index _ _ _ Hc11) in Hz11. injection Hz11 as <-. rewrite Nat2Z.id in H12.
  destruct (evict_ok _ d _ _ _ _ s11 s12 _ _ Hc11 (Nat.lt_succ_diag_r _) H12) as (z' & Hc' & Hle).
  exists z'. rewrite Hv13. split; [done|]. intros _. lia.
Qed.

Lemma clear_ok g s s' r z : cached g (view_of s) z -> SHARED_CACHE_CLEAR_SCRIPT (cache_keys n []) s = (s', Ok r) -> cached ∅ (view_of s') ∅.
Proof.
  intros Hca Hr. unfold SHARED_CACHE_CLEAR_SCRIPT in Hr. cbn [cache_keys ck_meta ck_index ck_prefix ck_sizes] in Hr.
  apply s_bind_ok in Hr as (s1 & stale & H1 & Hr). apply (reads_ok _ _ _ (zrange_all_law _)) in H1 as [Hv1 (z1 & Hz1 & _ & Hst)].
  rewrite (ca_index _ _ _ Hca) in Hz1. injection Hz1 as <-.
  apply s_bind_ok in Hr as (s2 & x2 & H2 & Hr). apply drop_each_ok in H2 as Hv2. rewrite Hv1 in Hv2.
  apply s_bind_ok in Hr as (s3 & x3 & H3 & Hr). apply (writes_ok _ _ _ (del_law _)) in H3 as Hv3. cbn [foldl] in Hv3. lua_open.
  destruct (ca_undated _ _ _ Hca) as [Hu1 Hu2]. rewrite Hv3. constructor.
  - by rewrite data_del_eq.
  - rewrite !data_del_ne by auto. rewrite data_del_eq. by exists ∅.
  - rewrite Hv2. split; by apply undated_del, undated_del, undated_del, drop_entries_undated.
  - intros e x Hx. exfalso. rewrite !data_del_ne in Hx by auto. rewrite Hv2, drop_entries_data in Hx.
    destruct (bool_decide _) eqn:E; [done|]. apply bool_decide_eq_false in E. apply E, list_elem_of_fmap_2, Hst.
    destruct (ca_entries _ _ _ Hca e x Hx) as [Hin _]. by apply elem_of_dom.
Qed.

Lemma cached_elapse g v z clock : cached g v z -> cached g (v_elapse v clock) z.
Proof.
  intros Hca. destruct (ca_undated _ _ _ Hca) as [Hu1 Hu2].
  assert (Hlive : forall k, v_deadline v !! k = None -> v_data (v_elapse v clock) !! k = v_data v !! k)
    by (intros k Hk; rewrite elapse_lookup; unfold lapsed; by rewrite Hk).
  eapply cached_frame; [exact Hca|..].
  - rewrite Hlive by done. apply Hca.
  - rewrite Hlive by done. apply Hca.
  - unfold generation_of. by rewrite Hlive by done.
  - split; unfold v_elapse; cbn [v_deadline]; apply map_lookup_filter_None; by left.
  - intros d x. rewrite elapse_lookup. by destruct (lapsed _ _ _).
Qed.

(** What the replicas do to the cache.  The ghost map keeps, for each digest,
    what was stored last. *)
Inductive cache_step : stored * Srv -> stored * Srv -> Prop :=
| step_get g d generation s s' r : SHARED_CACHE_GET_SCRIPT (cache_keys n d) d generation s = (s', Ok r) -> cache_step (g, s) (g, s')
| step_put g d generation value body ttl_ms max_entries max_bytes s s' r :
    SHARED_CACHE_PUT_SCRIPT (cache_keys n d) d generation value body ttl_ms max_entries max_bytes s = (s', Ok r) ->
    cache_step (g, s) (if storable body ttl_ms max_entries max_bytes then <[d := (generation, value)]> g else g, s')
| step_clear g s s' r : SHARED_CACHE_CLEAR_SCRIPT (cache_keys n []) s = (s', Ok r) -> cache_step (g, s) (∅, s')
| step_time g s s' : passes s s' -> cache_step (g, s) (g, s').

Lemma cached_step x y : cache_step x y -> (exists z, cached x.1 (view_of x.2) z) -> exists z, cached y.1 (view_of y.2) z.
Proof.
  intros Hst [z Hca]. destruct Hst as [g d gn s s' r Hr|g d gn value body ttl me mb s s' r Hr|g s s' r Hr|g s s' (clock & _ & Hv)]; cbn [fst snd] in *.
  - by apply (get_ok g d gn s s' r z Hca Hr).
  - destruct (put_ok g d gn value body ttl me mb s s' r z Hca Hr) as (z' & Hc' & _). by exists z'.
  - exists ∅. exact (clear_ok g s s' r z Hca Hr).
  - exists z. rewrite Hv. by apply cached_elapse.
Qed.

Lemma cached_run x y : rtc cache_step x y -> (exists z, cached x.1 (view_of x.2) z) -> exists z, cached y.1 (view_of y.2) z.
Proof. induction 1 as [x|x x1 y Hst _ IH]; [done|]. intros Hz. by apply IH, (cached_step x). Qed.

(** No key of the cache is set. *)
Definition cache_blank (v : view) : Prop :=
  v_data v !! cache_index n = None /\ v_data v !! cache_meta n = None /\ v_deadline v !! cache_index n = None /\
  v_deadline v !! cache_meta n = None /\ forall d, v_data v !! cache_entry n d = None.

Lemma cached_blank v : cache_blank v -> cached ∅ v ∅.
Proof.
  intros (Hi & Hm & Hui & Hum & He). constructor; [by rewrite Hi|rewrite Hm; by exists ∅|done|]. intros d x Hx. by rewrite He in Hx.
Qed.
End Entries.
End Cache.

(** C11: The shared cache serves what was stored, where it was stored.  However
    the gets, puts and clears of the replicas, whatever generations they run,
    and the clock interleave, a value served for a digest under a generation is
    the one last stored for that digest, and it was stored under that same
    generation. *)
Theorem fleet_cache_isolated {Srv} `{RedisLaws Srv} n (s0 s s' : Srv) g d generation x :
  cache_blank n (view_of s0) -> rtc (cache_step n) (∅, s0) (g, s) ->
  SHARED_CACHE_GET_SCRIPT (cache_keys n d) d generation s = (s', Ok (Some x)) -> g !! d = Some (generation, x).
Proof.
  intros Hb Hrun Hr. assert (exists z, cached n g (view_of s) z) as [z Hca].
  { apply (cached_run n (∅, s0) (g, s) Hrun). exists ∅. by apply cached_blank. }
  by apply (get_ok n g d generation s s' (Some x) z Hca Hr).
Qed.

(** A put leaves the shared index within its bound: after any interleaving,
    a script that stores an entry leaves at most [max_entries] members. *)
Theorem fleet_cache_bounded {Srv} `{RedisLaws Srv} n (s0 s s' : Srv) g d generation value body ttl_ms max_entries max_bytes r :
  cache_blank n (view_of s0) -> rtc (cache_step n) (∅, s0) (g, s) -> storable body ttl_ms max_entries max_bytes = true ->
  SHARED_CACHE_PUT_SCRIPT (cache_keys n d) d generation value body ttl_ms max_entries max_bytes s = (s', Ok r) ->
  exists z, zset_of (v_data (view_of s') !! cache_index n) = Some z /\ Z.of_nat (size z) <= max_entries.
Proof.
  intros Hb Hrun Hst Hr. assert (exists z, cached n g (view_of s) z) as [z Hca].
  { apply (cached_run n (∅, s0) (g, s) Hrun). exists ∅. by apply cached_blank. }
  destruct (put_ok n g d generation value body ttl_ms max_entries max_bytes s s' r z Hca Hr) as (z' & Hc' & Hle).
  exists z'. split; [apply Hc'|by apply Hle].
Qed.

(** ** Closed runs *)
Definition sample_namespace : RedisKeyNamespace := {| encoded_namespace := lit "fleet" |}.

Definition put_sample (d generation : string) (bytes : Z) (s : Server) : Server * result Z str :=
  SHARED_CACHE_PUT_SCRIPT (Srv := Server) (cache_keys sample_namespace (lit d)) (lit d) (lit generation) [1; 2] bytes 60000 2 1000 s.

Definition get_sample (d generation : string) (s : Server) : Server * result (option (list Z)) str :=
  SHARED_CACHE_GET_SCRIPT (Srv := Server) (cache_keys sample_namespace (lit d)) (lit d) (lit generation) s.

Definition one_entry : Server := fst (put_sample "d" "g1" 600 (server_at 1000)).

(** Served under its generation, not under another, and gone afterwards. *)
Example sample_shared_cache :
  snd (get_sample "d" "g1" one_entry) = Ok (Some [1; 2]) /\ snd (get_sample "d" "g2" one_entry) = Ok None /\
  snd (get_sample "d" "g1" (fst (get_sample "d" "g2" one_entry))) = Ok None /\
  snd (get_sample "d" "g1" (v_elapse one_entry (2000, 0))) = Ok None.
Proof. vm_compute. repeat split. Qed.

(** Storing an entry again subtracts its earlier size twice: the counter falls
    to zero, and the next entry is kept although the two exceed the limit of
    1000 bytes together. *)
Example replaced_entry_miscounted :
  let twice := fst (put_sample "d" "g1" 600 one_entry) in
  let counter s := hash_of (v_data s !! cache_meta sample_namespace) ≫= (fun m => m !! lit "bytes") in
  counter one_entry = Some (HInt 600) /\ counter twice = Some (HInt 0) /\
  let both := fst (put_sample "e" "g1" 600 twice) in
  counter both = Some (HInt 600) /\ snd (get_sample "d" "g1" both) = Ok (Some [1; 2]) /\ snd (get_sample "e" "g1" both) = Ok (Some [1; 2]) /\
  snd (get_sample "d" "g1" (fst (put_sample "e" "g1" 600 (v_elapse one_entry (1001, 0))))) = Ok None.
Proof. vm_compute. repeat split. Qed.

Lemma eviction_terminates_witness :
  evicts (Srv := Server) (cache_keys sample_namespace (lit "d")) 0 1000 1 600 one_entry
    (evict_shared 2 (cache_keys sample_namespace (lit "d")) 0 1000 1 600 one_entry) /\
  snd (evict_shared (Srv := Server) 2 (cache_keys sample_namespace (lit "d")) 0 1000 1 600 one_entry) = Ok ().
Proof.
  split; [|vm_compute; reflexivity].
  apply (eviction_terminates (Srv := Server) (cache_keys sample_namespace (lit "d")) 0 1000 2 {[lit "d" := 1000000]} 1 600 one_entry).
  - apply cache_keys_apart.
  - vm_compute. reflexivity.
  - rewrite map_size_singleton. lia.
Defined.

Lemma blank_server : cache_blank sample_namespace (view_of (server_at 1000)).
Proof. repeat split. Qed.

Lemma fleet_cache_isolated_witness :
  snd (get_sample "d" "g1" one_entry) = Ok (Some [1; 2]) /\
  (<[lit "d" := (lit "g1", [1; 2])]> ∅ : gmap str (str * list Z)) !! lit "d" = Some (lit "g1", [1; 2]).
Proof.
  split; [vm_compute; reflexivity|].
  apply (fleet_cache_isolated (Srv := Server) sample_namespace (server_at 1000) one_entry (fst (get_sample "d" "g1" one_entry)));
    [exact blank_server| |vm_compute; reflexivity].
  eapply rtc_l; [|apply rtc_refl].
  apply (step_put (Srv := Server) sample_namespace ∅ (lit "d") (lit "g1") [1; 2] 600 60000 2 1000 (server_at 1000) one_entry 1).
  vm_compute. reflexivity.
Defined.

Lemma fleet_cache_bounded_witness :
  exists z, zset_of (v_data (view_of one_entry) !! cache_index sample_namespace) = Some z /\ Z.of_nat (size z) <= 2.
Proof.
  apply (fleet_cache_bounded (Srv := Server) sample_namespace (server_at 1000) (server_at 1000) one_entry ∅ (lit "d") (lit "g1")
           [1; 2] 600 60000 2 1000 1); [exact blank_server|apply rtc_refl|reflexivity|vm_compute; reflexivity].
Defined.
