(* ===== verification/Chat.v ===== *)
(** * The chat request (crate [wayfinder-gateway], [chat_completions] of [src/lib.rs])

    The handler between authentication and delivery, in two stages: [decide]
    turns a body and its headers into a routing decision (overrides, slash
    directives, selection, budget, key scope, canary), and [plan_request] turns
    the decision into the delivery plan.  Between the two, the handler builds
    response headers, records the decision and may answer from the cache or, on
    a dry run, without delivering; none of it changes the decision. *)
From S2P Require Export DecisionPolicy Eligibility Budget Access ControlPlane Canary Modalities.

Definition FAILOVER_HEADER : str := lit "x-wayfinder-failover".

Inductive route_mode :=
| ModePinned | ModePreset | ModeSlashPinned | ModeThresholdOverride | ModeScored | ModeSticky | ModeBudgetDegraded
| ModeKeyScoped | ModeCanary.

Definition mode_as_str (m : route_mode) : str :=
  match m with
  | ModePinned => lit "pinned"
  | ModePreset => lit "preset"
  | ModeSlashPinned => lit "slash-pinned"
  | ModeThresholdOverride => lit "threshold-override"
  | ModeScored => lit "scored"
  | ModeSticky => lit "sticky"
  | ModeBudgetDegraded => lit "budget-degraded"
  | ModeKeyScoped => lit "key-scoped"
  | ModeCanary => lit "canary"
  end.

#[export] Instance route_mode_eq_dec : EqDecision route_mode.
Proof. solve_decision. Defined.

(** [matches!(mode, "pinned" | "slash-pinned")]. *)
Definition is_pinned (m : route_mode) : bool := match m with ModePinned | ModeSlashPinned => true | _ => false end.

(** An error answer: its status, its kind and the error it prints. *)
Inductive cause :=
| CauseText (m : message)
| CausePolicy (e : DecisionPolicy.PolicyError)
| CauseCore (e : CoreError)
| CauseLedger (e : LedgerError)
| CauseReliability (e : ReliabilityError).

Record Refusal := {
  rf_status : Z;
  rf_kind : str;
  rf_cause : cause;
}.

Definition refuse (status : Z) (kind : string) (c : cause) : Refusal :=
  {| rf_status := status; rf_kind := lit kind; rf_cause := c |}.

Definition bad_override (c : cause) : Refusal := refuse 400 "wayfinder_router_bad_override" c.

Definition destination_ineligible (model : str) (assessment : CandidateAssessment) (offline : bool) : Refusal :=
  if offline && bool_decide (ca_exclusions assessment = [PrivacyBoundaryDenied]) then
    refuse 503 "wayfinder_router_offline_unavailable"
      (CauseText (Msg "offline delivery requires a literal loopback provider endpoint" []))
  else
    refuse 422 "wayfinder_router_destination_ineligible"
      (CauseText (Msg "destination '{model}' is not eligible for this request: {reasons}"
                    [ArgStr model; ArgStr (str_join (lit ", ") (map exclusion_reason_name (ca_exclusions assessment)))])).

(** The fields of [AppState] the handler reads. *)
Record GatewayState := {
  gs_routing : RoutingConfig;
  gs_models : list ConfiguredModel;
  gs_route_presets : list (str * RoutePreset);
  gs_policy : option ValidatedPolicyVersion;
  gs_offline : bool;
  gs_dry_run : bool;
  gs_route_on : RouteOn;
  gs_sticky : bool;
  gs_sticky_cooldown : Z;
  gs_slash_directives : bool;
  gs_access_policy : option AccessPolicy;
  gs_budget_policy : BudgetPolicy;
  gs_priced : bool;
  gs_reliability : ReliabilityPolicy;
  gs_canary : CanaryConfig;
}.

(** What the handler is answered while it runs: the date, the ledger, the
    shared backend when it is Redis (its spends; the canary's counters; whether
    the exposure limit admits the request), the circuit breaker and its clock. *)
Record ChatEnv := {
  env_today : result UtcDate LedgerError;
  env_ledger : SavingsLedger;
  env_shared_spend : option (str -> str -> str -> result f64 str);
  env_canary_snapshot : option SharedCanarySnapshot;
  env_exposure_admitted : bool;
  env_breaker : CircuitBreaker;
  env_breaker_clock : f64;
}.

(** ** Tiers *)

(** [tiers.iter().min_by(total_cmp)]: the first of the least. *)
Definition lowest_tier (tiers : list Tier) : option Tier :=
  match tiers with
  | [] => None
  | t :: rest => Some (foldl (fun a b => match f64_total_cmp (min_score b) (min_score a) with Lt => b | _ => a end) t rest)
  end.

(** The models of the decision's tiers, from the lowest score up. *)
Definition ladder_of (tiers : option (list Tier)) : list str := map tier_model (sort_tiers (default [] tiers)).

(** [serde_json::Map::remove] with insertion-ordered maps is [swap_remove]: the
    last member takes the place of the one removed. *)
Fixpoint position_of {V} (l : list (str * V)) (k : str) : option nat :=
  match l with
  | [] => None
  | (k', _) :: l => if str_eqb k' k then Some 0%nat else S <$> position_of l k
  end.

Definition swap_remove {V} (l : list (str * V)) (k : str) : list (str * V) :=
  match position_of l k, last l with
  | Some i, Some final => if Nat.eqb (S i) (length l) then removelast l else <[i := final]> (removelast l)
  | _, _ => l
  end.

Section Chat.
Context {number : Type} `{JsonNumber number}.
Context (parse_url : str -> option Url) (to_lowercase : str -> str) (compiled : result Patterns str) (sha256 : list Z -> list Z).
Context (s : GatewayState) (env : ChatEnv).

Implicit Types (headers : HeaderMap) (body : list (str * Value number)).

(** ** Who asks *)
Definition resolve_policy_profile (workspace_id key_id : option str) : option (option ResolvedPolicyProfile) :=
  match gs_policy s with
  | None => Some None
  | Some policy =>
      profile ← resolve policy {| ctx_client_id := None; ctx_workspace_id := workspace_id; ctx_key_id := key_id |};
      Some (Some profile)
  end.

Definition grant_of {A} (f : AccessPolicy -> AccessGrant -> A) (grant : option AccessGrant) : option A :=
  policy ← gs_access_policy s; f policy <$> grant.

Definition chat_key_id (grant : option AccessGrant) : option str := mjoin (grant_of key_id grant).
Definition chat_workspace_id (grant : option AccessGrant) : option str := mjoin (grant_of workspace_id grant).

(** The models a key may use; an empty list, or no key, allows all. *)
Definition key_allowed (grant : option AccessGrant) : option (list str) :=
  match grant_of allowed_models grant with Some ((_ :: _) as allowed) => Some allowed | _ => None end.

Definition allows (allowed : option (list str)) (name : str) : bool :=
  match allowed with None => true | Some allowed => existsb (fun model => str_eqb model name) allowed end.

(** ** The selection *)
Record Selected := {
  sl_chosen : str;
  sl_mode : route_mode;
  sl_preset_models : option (list str);
  sl_preset_name : option str;
}.

Definition plain_selection (chosen : str) (m : route_mode) : Selected :=
  {| sl_chosen := chosen; sl_mode := m; sl_preset_models := None; sl_preset_name := None |}.

Definition header_of headers (name : str) : result (option str) Refusal :=
  map_err (fun m => bad_override (CauseText m)) (request_header headers name).

Definition policy_result {A} (r : result A DecisionPolicy.PolicyError) : result A Refusal :=
  map_err (fun e => bad_override (CausePolicy e)) r.

Definition tier_position (model : str) (tiers : list Tier) : nat := default 0%nat (tier_rank model tiers).

(** The threshold header, then the conversation's high-water mark. *)
Definition select_scored headers (routing : RoutingConfig) (scored : ComplexityScore) (messages : Value number)
    (sticky : bool) (cooldown : Z) : result Selected Refusal :=
  let? threshold_header := header_of headers THRESHOLD_HEADER in
  let? threshold := policy_result (parse_threshold_header threshold_header) in
  let? start :=
    match threshold with
    | Some threshold =>
        let? tiers := policy_result (threshold_tiers routing threshold) in
        let? model := ok_or (recommend_tier (cs_score scored) tiers)
                        (refuse 500 "wayfinder_router_misconfigured"
                           (CauseText (Msg "routing configuration contains no selectable tier" []))) in
        Ok (model, ModeThresholdOverride, tiers)
    | None => Ok (cs_recommendation scored, ModeScored, cfg_tiers routing)
    end in
  let '(chosen, m, tiers) := start in
  if sticky && match cfg_classifier routing with None => true | Some _ => false end && (2 <=? len tiers) then
    let? latched := policy_result (conversation_high_water compiled messages routing tiers cooldown) in
    Ok match latched with
       | Some latched =>
           if (tier_position chosen tiers <? tier_position latched tiers)%nat
           then plain_selection latched ModeSticky else plain_selection chosen m
       | None => plain_selection chosen m
       end
  else Ok (plain_selection chosen m).

Definition select_model headers body (routing : RoutingConfig) (scored : ComplexityScore) (messages : Value number)
    (slash : option (SlashResolution number)) (sticky : bool) (cooldown : Z) : result Selected Refusal :=
  let? selection :=
    map_err (fun m => refuse 400 "wayfinder_router_unknown_route" (CauseText m))
      (resolve_request_selection (gs_routing s) (gs_models s) (gs_route_presets s) (obj_get body (lit "model"))) in
  match selection with
  | Some (SelectModel pin) => Ok (plain_selection pin ModePinned)
  | Some (SelectPreset name models) =>
      (* [models[0]]: a configured preset names a model *)
      Ok {| sl_chosen := default [] (head models); sl_mode := ModePreset; sl_preset_models := Some models;
            sl_preset_name := Some name |}
  | None =>
      match slash ≫= sr_pin with
      | Some pin => Ok (plain_selection pin ModeSlashPinned)
      | None => select_scored headers routing scored messages sticky cooldown
      end
  end.

(** ** Presets and pins against the request *)

(** [preset_models.retain(..)]: what stays, and why the others go. *)
Fixpoint retain_preset (allowed : option (list str)) (request : RoutingRequest) (models : list str)
    : list str * list message :=
  match models with
  | [] => ([], [])
  | name :: models =>
      let '(kept, reasons) := retain_preset allowed request models in
      if negb (allows allowed name) then (kept, Msg "{name}: not-allowed-by-key" [ArgStr name] :: reasons)
      else if gs_dry_run s then (name :: kept, reasons)
      else
        match find_model (gs_models s) name with
        | None => (kept, Msg "{name}: unknown-model" [ArgStr name] :: reasons)
        | Some model =>
            let assessment := assess_model parse_url request model in
            if is_eligible assessment then (name :: kept, reasons)
            else
              (kept, Msg "{name}: {}" [ArgStr name; ArgStr (str_join (lit ",")
                                        (map exclusion_reason_name (ca_exclusions assessment)))] :: reasons)
        end
  end.

Definition check_selection (allowed : option (list str)) (request : RoutingRequest) (offline : bool) (sel : Selected)
    : result Selected Refusal :=
  match sl_preset_models sel with
  | Some models =>
      match retain_preset allowed request models with
      | ([], reasons) =>
          Err (refuse 422 "wayfinder_router_destination_ineligible"
                 (CauseText (Msg "routing preset '{}' has no eligible destination for this request: {}"
                               (ArgStr (default (lit "unknown") (sl_preset_name sel))
                                :: concat (map (fun '(Msg _ args) => args) reasons)))))
      | ((first :: _) as kept, _) =>
          Ok {| sl_chosen := first; sl_mode := sl_mode sel; sl_preset_models := Some kept; sl_preset_name := sl_preset_name sel |}
      end
  | None =>
      if negb (gs_dry_run s) && is_pinned (sl_mode sel) then
        match find_model (gs_models s) (sl_chosen sel) with
        | None => Ok sel
        | Some model =>
            let assessment := assess_model parse_url request model in
            if is_eligible assessment then Ok sel else Err (destination_ineligible (sl_chosen sel) assessment offline)
        end
      else Ok sel
  end.

(** ** The budget *)
Definition budget_decision (workspace_id key_id : option str) (offline : bool) : result BudgetDecision LedgerError :=
  let? today := env_today env in
  let local := evaluate_for (gs_budget_policy s) (env_ledger env) true workspace_id key_id today offline in
  match env_shared_spend env with
  | Some spend =>
      match evaluate_shared_for spend (gs_budget_policy s) true workspace_id key_id today offline with
      | Ok decision => Ok decision
      | Err _ => local
      end
  | None => local
  end.

Record Budgeted := {
  bg_selected : Selected;
  bg_preset_active : bool;
  bg_degraded : bool;
}.

Definition degrade (scored : ComplexityScore) (offline : bool) (sel : Selected) (preset_active : bool) : Budgeted :=
  let same := {| bg_selected := sel; bg_preset_active := preset_active; bg_degraded := true |} in
  if offline then same
  else
    match tier_model <$> (cs_tiers scored ≫= lowest_tier) with
    | Some cheapest =>
        if str_eqb cheapest (sl_chosen sel) then same
        else {| bg_selected := plain_selection cheapest ModeBudgetDegraded; bg_preset_active := false; bg_degraded := true |}
    | None => same
    end.

Definition apply_budget (scored : ComplexityScore) (workspace_id key_id : option str) (offline : bool) (sel : Selected)
    : result Budgeted Refusal :=
  let preset_active := match sl_preset_name sel with Some _ => true | None => false end in
  let unchanged := {| bg_selected := sel; bg_preset_active := preset_active; bg_degraded := false |} in
  if budget_active (gs_budget_policy s) && gs_priced s then
    match budget_decision workspace_id key_id offline with
    | Ok Allow => Ok unchanged
    | Ok Budget.Degrade => Ok (degrade scored offline sel preset_active)
    | Ok (Block window limit) =>
        Err (refuse 402 "wayfinder_router_budget_exhausted"
               (CauseText (Msg "{window} budget of {} reached" [ArgStr window; ArgFloat limit])))
    | Err e => Err (refuse 500 "wayfinder_router_state_error" (CauseLedger e))
    end
  else Ok unchanged.

(** ** The key's scope *)
Definition apply_key_scope (scored : ComplexityScore) (grant : option AccessGrant) (sel : Selected) : Selected :=
  match key_allowed grant with
  | None => sel
  | Some allowed =>
      let clamped := clamp_to_allowed (sl_chosen sel) (ladder_of (cs_tiers scored)) allowed in
      if str_eqb clamped (sl_chosen sel) then sel
      else {| sl_chosen := clamped; sl_mode := ModeKeyScoped; sl_preset_models := sl_preset_models sel;
              sl_preset_name := sl_preset_name sel |}
  end.

(** ** Whether a configured model may take the request

    The closure of the canary's search and of the delivery plan. *)
Definition deliverable (allowed : option (list str)) (request : RoutingRequest) (offline : bool) (prompt_estimate : Z)
    (name : str) : bool :=
  match find_model (gs_models s) name with
  | None => false
  | Some model =>
      is_eligible (assess_model parse_url request model)
      && (negb offline || model_is_proven_local parse_url model)
      && precheck_ok prompt_estimate (m_context_window model)
      && has_eligible_deployment_target parse_url (gs_models s) name request offline prompt_estimate
      && allows allowed name
  end.

Definition ok_flatten {A E} (r : result (option A) E) : option A := match r with Ok v => v | Err _ => None end.

Definition maybe_assign_canary headers (request : RoutingRequest) (grant : option AccessGrant) (offline : bool)
    (prompt_estimate : Z) : option str :=
  let config := gs_canary s in
  if negb (cn_enabled config) || f64_le (fraction config) f64_zero then None
  else
    snapshot ← env_canary_snapshot env;
    match sn_tripped_reason snapshot with
    | Some _ => None
    | None =>
        match assignment_identity sha256 config (rq_request_id request) (chat_workspace_id grant) (chat_key_id grant)
                (ok_flatten (request_header headers CANARY_IDENTITY_HEADER))
                (ok_flatten (request_header headers CANARY_COHORT_HEADER)) with
        | Suppressed _ => None
        | AssignEligible _ =>
            if negb (env_exposure_admitted env) then None
            else
              route ← ix_get (gs_route_presets s) (candidate_route config);
              List.find (deliverable (key_allowed grant) request offline prompt_estimate) (rp_models route)
        end
    end.

(** ** The decision *)
Record ChatDecision := {
  dc_request : RoutingRequest;
  dc_body : list (str * Value number);
  dc_offline : bool;
  dc_prompt_estimate : Z;
  dc_scored : ComplexityScore;
  dc_chosen : str;
  dc_mode : route_mode;
  dc_preset_models : option (list str);
  dc_preset_name : option str;
  dc_preset_active : bool;
  dc_budget_degraded : bool;
  dc_canary : bool;
  dc_baseline : str;
  dc_routing : RoutingConfig;
}.

Definition decide (routing : RoutingConfig) (grant : option AccessGrant) headers body (request_id : str)
    : result ChatDecision Refusal :=
  let tuning := obj_get body TUNING_FIELD in
  let body := swap_remove body TUNING_FIELD in
  let? routing := policy_result (apply_scoring_overrides to_lowercase routing tuning) in
  let? route_on := header_of headers ROUTE_ON_HEADER in
  let? route_on := policy_result (parse_route_on_header to_lowercase route_on) in
  let? sticky := header_of headers STICKY_HEADER in
  let? sticky := policy_result (resolve_sticky to_lowercase sticky (gs_sticky s)) in
  let? cooldown := header_of headers STICKY_COOLDOWN_HEADER in
  let? cooldown := policy_result (resolve_sticky_cooldown cooldown (gs_sticky_cooldown s)) in
  let messages := default JNull (obj_get body (lit "messages")) in
  let slash := if gs_slash_directives s
               then resolve_slash_directive_for_names messages routing (map m_name (gs_models s)) else None in
  let '(messages, body) := match slash with
                           | Some resolution => (sr_messages resolution, ix_insert body (lit "messages") (sr_messages resolution))
                           | None => (messages, body)
                           end in
  let prompt := extract_prompt messages (default (gs_route_on s) route_on) in
  let offline := gs_offline s || offline_override to_lowercase headers in
  let? posture := map_err (fun m => bad_override (CauseText m)) (parse_privacy_posture headers offline) in
  let prompt_estimate := estimate_tokens (extract_prompt messages All) in
  let request := {| rq_schema_version := RUNTIME_CONTRACT_VERSION; rq_request_id := request_id; rq_prompt := prompt;
                    rq_privacy_posture := posture; rq_requirements := request_requirements body messages prompt_estimate |} in
  let? scored := map_err (fun e => refuse 500 "wayfinder_router_misconfigured" (CauseCore e))
                   (score_complexity compiled prompt routing) in
  let? selected := select_model headers body routing scored messages slash sticky cooldown in
  let? selected := check_selection (key_allowed grant) request offline selected in
  let? budgeted := apply_budget scored (chat_workspace_id grant) (chat_key_id grant) offline selected in
  let selected := apply_key_scope scored grant (bg_selected budgeted) in
  let canary :=
    if negb (gs_dry_run s) && negb (bg_preset_active budgeted) && bool_decide (sl_mode selected = ModeScored)
    then maybe_assign_canary headers request grant offline prompt_estimate else None in
  Ok {| dc_request := request; dc_body := body; dc_offline := offline; dc_prompt_estimate := prompt_estimate;
        dc_scored := scored; dc_chosen := default (sl_chosen selected) canary;
        dc_mode := match canary with Some _ => ModeCanary | None => sl_mode selected end;
        dc_preset_models := sl_preset_models selected; dc_preset_name := sl_preset_name selected;
        dc_preset_active := bg_preset_active budgeted; dc_budget_degraded := bg_degraded budgeted;
        dc_canary := match canary with Some _ => true | None => false end; dc_baseline := sl_chosen selected;
        dc_routing := routing |}.

(** ** The plan *)
Definition request_is_preset (d : ChatDecision) : bool := dc_preset_active d.

(** Offline, an unpinned request goes to the lowest tier. *)
Definition delivery_name (d : ChatDecision) : str :=
  if dc_offline d && negb (is_pinned (dc_mode d)) && negb (dc_preset_active d)
  then default (dc_chosen d) (tier_model <$> (cs_tiers (dc_scored d) ≫= lowest_tier))
  else dc_chosen d.

Definition plan_candidates headers (d : ChatDecision) (target : ConfiguredModel) : list str :=
  let ladder := ladder_of (cs_tiers (dc_scored d)) in
  let own :=
    if is_pinned (dc_mode d) then []
    else match dc_preset_models d with
         | Some models => List.filter (fun model => negb (str_eqb model (delivery_name d))) models
         | None => m_fallbacks target
         end in
  own ++
  (if negb (is_pinned (dc_mode d)) && negb (dc_preset_active d)
      && (negb (dc_offline d) || match ladder with [] => true | _ => false end)
   then failover_candidates (dc_chosen d) ladder
          (effective_failover (gs_reliability s) (ok_flatten (request_header headers FAILOVER_HEADER)))
   else []).

(** Why no destination is left. *)
Definition empty_plan (d : ChatDecision) : Refusal :=
  let circuit_open :=
    refuse 503 "wayfinder_router_circuit_open"
      (CauseText (Msg "no available upstream for '{chosen}' (cooling down or context too small)" [ArgStr (dc_chosen d)])) in
  match find_model (gs_models s) (dc_chosen d) with
  | None => circuit_open
  | Some model =>
      let assessment := assess_model parse_url (dc_request d) model in
      if negb (is_eligible assessment) then destination_ineligible (dc_chosen d) assessment (dc_offline d)
      else if negb (has_eligible_deployment_target parse_url (gs_models s) (dc_chosen d) (dc_request d) (dc_offline d)
                      (dc_prompt_estimate d))
      then refuse 422 "wayfinder_router_destination_ineligible"
             (CauseText (Msg "destination '{chosen}' has no eligible concrete deployment for this request" [ArgStr (dc_chosen d)]))
      else circuit_open
  end.

Definition plan_request (grant : option AccessGrant) headers (d : ChatDecision) : result (list str) Refusal :=
  match find_model (gs_models s) (delivery_name d) with
  | None =>
      Err (refuse 500 "wayfinder_router_misconfigured"
             (CauseText (Msg "no gateway endpoint configured for model '{delivery_name}'" [ArgStr (delivery_name d)])))
  | Some target =>
      if dc_offline d && negb (model_is_proven_local parse_url target) then
        Err (refuse 503 "wayfinder_router_offline_unavailable"
               (CauseText (Msg "offline delivery requires a literal loopback provider endpoint" [])))
      else
        let? plan :=
          map_err (fun e => refuse 500 "wayfinder_router_state_error" (CauseReliability e))
            (policy_delivery_plan (env_breaker env) (env_breaker_clock env) (delivery_name d) (plan_candidates headers d target)
               (deliverable (key_allowed grant) (dc_request d) (dc_offline d) (dc_prompt_estimate d))) in
        match plan with
        | [] => Err (empty_plan d)
        | _ => Ok plan
        end
  end.

(** The handler up to delivery: a decision only on a dry run or without models,
    else a decision and its plan. *)
Inductive chat_outcome :=
| DecisionOnly (d : ChatDecision)
| Planned (d : ChatDecision) (plan : list str)
| ChatRefused (r : Refusal).

Definition chat (grant : option AccessGrant) headers body (request_id : str) : option chat_outcome :=
  match unsupported_text_surface body with
  | Some m => Some (ChatRefused (refuse 400 "wayfinder_router_unsupported_modality" (CauseText m)))
  | None =>
      profile ← resolve_policy_profile (chat_workspace_id grant) (chat_key_id grant);
      let routing := match profile with Some profile => resolved_routing profile | None => gs_routing s end in
      Some match decide routing grant headers body request_id with
           | Err r => ChatRefused r
           | Ok d =>
               if gs_dry_run s || match gs_models s with [] => true | _ => false end then DecisionOnly d
               else match plan_request grant headers d with
                    | Err r => ChatRefused r
                    | Ok plan => Planned d plan
                    end
           end
  end.
End Chat.

Lemma dedup_targets_spec seen l : NoDup (dedup_targets seen l) /\ (forall x, x ∈ dedup_targets seen l -> x ∈ l /\ x ∉ seen).
Proof.
  revert seen. induction l as [|x l IH]; intros seen; cbn [dedup_targets]; [split; [constructor|set_solver]|].
  destruct (bool_decide (x ∈ seen)) eqn:E.
  - destruct (IH seen) as [Hn Hs]. split; [done|]. set_solver.
  - apply bool_decide_eq_false in E. destruct (IH ({[x]} ∪ seen)) as [Hn Hs]. split.
    + apply NoDup_cons. split; [|done]. intros Hx. destruct (Hs x Hx). set_solver.
    + intros y [->|Hy]%elem_of_cons; [split; [apply list_elem_of_here|done]|]. destruct (Hs y Hy). set_solver.
Qed.

(** ** What a decision keeps *)
Section Properties.
Context {number : Type} `{JsonNumber number}.
Context (parse_url : str -> option Url) (to_lowercase : str -> str) (compiled : result Patterns str) (sha256 : list Z -> list Z).
Context (s : GatewayState) (env : ChatEnv).

Lemma allows_iff allowed name : allows allowed name = true <-> forall l, allowed = Some l -> name ∈ l.
Proof.
  destruct allowed as [l|]; cbn [allows]; [|split; [by intros _ ?|done]]. rewrite existsb_exists. split.
  - intros (m & Hm & ->%str_eqb_eq) l' [= <-]. by apply list_elem_of_In.
  - intros Hin. exists name. split; [by apply list_elem_of_In, Hin|apply str_eqb_refl].
Qed.

Lemma retain_preset_sound allowed request models kept reasons name :
  retain_preset parse_url s allowed request models = (kept, reasons) -> name ∈ kept ->
  name ∈ models /\ allows allowed name = true /\
  (gs_dry_run s = false -> exists model, find_model (gs_models s) name = Some model /\
     is_eligible (assess_model parse_url request model) = true).
Proof.
  revert kept reasons. induction models as [|x models IH]; intros kept reasons; cbn [retain_preset].
  { intros [= <- _] Hn. by apply elem_of_nil in Hn. }
  destruct (retain_preset parse_url s allowed request models) as [k r]. specialize (IH k r eq_refl).
  assert (Hrest : name ∈ k -> name ∈ x :: models /\ allows allowed name = true /\
    (gs_dry_run s = false -> exists model, find_model (gs_models s) name = Some model /\
       is_eligible (assess_model parse_url request model) = true)).
  { intros Hk. destruct (IH Hk) as (? & ?). split; [by right|done]. }
  destruct (allows allowed x) eqn:Ha; cbn [negb]; [|by intros [= <- _]].
  destruct (gs_dry_run s) eqn:Hd.
  { intros [= <- _] [->|Hk]%elem_of_cons; [|by apply Hrest]. split; [apply list_elem_of_here|]. by split. }
  destruct (find_model (gs_models s) x) as [model|] eqn:Hm; [|by intros [= <- _]].
  destruct (is_eligible (assess_model parse_url request model)) eqn:He; [|by intros [= <- _]].
  intros [= <- _] [->|Hk]%elem_of_cons; [|by apply Hrest]. split; [apply list_elem_of_here|]. split; [done|]. intros _. by exists model.
Qed.

(** What [check_selection] passes: a preset's first model that the key may use
    and that is eligible; else the selection itself, which, when pinned and
    configured, is eligible. *)
Lemma check_selection_ok allowed request offline sel sel' :
  check_selection parse_url s allowed request offline sel = Ok sel' ->
  sl_mode sel' = sl_mode sel /\ sl_preset_name sel' = sl_preset_name sel /\
  match sl_preset_models sel with
  | Some models => allows allowed (sl_chosen sel') = true /\ sl_chosen sel' ∈ models
  | None => sel' = sel
  end.
Proof.
  unfold check_selection. destruct (sl_preset_models sel) as [models|] eqn:Hm.
  - destruct (retain_preset _ _ _ _ _) as [kept reasons] eqn:Hr. destruct kept as [|first kept]; [done|]. intros [= <-].
    destruct (retain_preset_sound _ _ _ _ _ first Hr (list_elem_of_here _ _)) as (? & ? & _). by split_and!.
  - destruct (negb (gs_dry_run s) && is_pinned (sl_mode sel)); [|by intros [= ->]].
    destruct (find_model _ _) as [model|]; [|by intros [= ->]].
    destruct (is_eligible _); [by intros [= ->]|done].
Qed.

(** The stages a decision went through. *)
Lemma decide_inv routing grant headers body request_id d :
  decide parse_url to_lowercase compiled sha256 s env routing grant headers body request_id = Ok d ->
  let offline := gs_offline s || offline_override to_lowercase headers in
  exists routing' messages slash sticky cooldown selected checked budgeted,
    parse_privacy_posture headers offline = Ok (rq_privacy_posture (dc_request d)) /\ dc_offline d = offline /\
    rq_request_id (dc_request d) = request_id /\
    score_complexity compiled (rq_prompt (dc_request d)) routing' = Ok (dc_scored d) /\
    select_model compiled s headers (dc_body d) routing' (dc_scored d) messages slash sticky cooldown = Ok selected /\
    check_selection parse_url s (key_allowed s grant) (dc_request d) offline selected = Ok checked /\
    apply_budget s env (dc_scored d) (chat_workspace_id s grant) (chat_key_id s grant) offline checked = Ok budgeted /\
    let scoped := apply_key_scope s (dc_scored d) grant (bg_selected budgeted) in
    let canary :=
      if negb (gs_dry_run s) && negb (bg_preset_active budgeted) && bool_decide (sl_mode scoped = ModeScored)
      then maybe_assign_canary parse_url sha256 s env headers (dc_request d) grant offline (dc_prompt_estimate d) else None in
    dc_chosen d = default (sl_chosen scoped) canary /\
    dc_mode d = match canary with Some _ => ModeCanary | None => sl_mode scoped end /\
    dc_preset_models d = sl_preset_models scoped /\ dc_preset_active d = bg_preset_active budgeted /\
    dc_budget_degraded d = bg_degraded budgeted.
Proof.
  intros Hd. unfold decide in Hd. cbv zeta in Hd.
  apply result_bind_ok in Hd as (routing' & _ & Hd). do 2 apply result_bind_ok in Hd as (? & _ & Hd).
  apply result_bind_ok in Hd as (? & _ & Hd). apply result_bind_ok in Hd as (sticky & _ & Hd).
  apply result_bind_ok in Hd as (? & _ & Hd). apply result_bind_ok in Hd as (cooldown & _ & Hd).
  match type of Hd with context [resolve_slash_directive_for_names ?m _ _] => set (messages := m) in Hd end.
  match type of Hd with (let '(_, _) := ?e in _) = _ => destruct e as [messages' body'] end.
  apply result_bind_ok in Hd as (posture & Hp & Hd). apply result_bind_ok in Hd as (scored & Hs & Hd).
  apply result_bind_ok in Hd as (selected & Hsel & Hd). apply result_bind_ok in Hd as (checked & Hc & Hd).
  apply result_bind_ok in Hd as (budgeted & Hb & Hd). injection Hd as <-.
  cbn [dc_request dc_offline dc_scored dc_body dc_prompt_estimate dc_chosen dc_mode dc_preset_models dc_preset_active
       dc_budget_degraded rq_privacy_posture rq_request_id rq_prompt].
  eexists routing', _, _, sticky, cooldown, selected, checked, budgeted. split_and!; try done.
  - destruct (parse_privacy_posture _ _); [by injection Hp as ->|done].
  - destruct (score_complexity _ _ _); [by injection Hs as ->|done].
Qed.

Lemma posture_offline headers posture : parse_privacy_posture headers true = Ok posture -> posture = OnDeviceOnly.
Proof. cbn. by intros [= <-]. Qed.

Lemma key_scope_allows scored grant sel : allows (key_allowed s grant) (sl_chosen (apply_key_scope s scored grant sel)) = true.
Proof.
  unfold apply_key_scope. destruct (key_allowed s grant) as [allowed|] eqn:Ha; [|done].
  assert (allowed <> []) as Hne.
  { unfold key_allowed in Ha. destruct (grant_of s allowed_models grant) as [[|m l]|]; [done| |done].
    injection Ha as <-. discriminate. }
  pose proof (clamp_to_allowed_in (sl_chosen sel) (ladder_of (cs_tiers scored)) allowed Hne) as Hin.
  apply allows_iff. intros l [= <-]. destruct (str_eqb _ _) eqn:E; [|done]. apply str_eqb_eq in E. by rewrite E in Hin.
Qed.

Lemma find_some_bool {A} (f : A -> bool) l x : List.find f l = Some x -> f x = true /\ x ∈ l.
Proof. intros Hf. apply List.find_some in Hf as [Hin Hf]. split; [done|by apply list_elem_of_In]. Qed.

Lemma canary_deliverable headers request grant offline prompt_estimate candidate :
  maybe_assign_canary parse_url sha256 s env headers request grant offline prompt_estimate = Some candidate ->
  deliverable parse_url s (key_allowed s grant) request offline prompt_estimate candidate = true.
Proof.
  unfold maybe_assign_canary. destruct (negb _ || _); [done|]. intros Hm. apply bind_Some in Hm as (snapshot & _ & Hm).
  destruct (sn_tripped_reason snapshot); [done|]. destruct (assignment_identity _ _ _ _ _ _ _); [|done].
  destruct (negb _); [done|]. apply bind_Some in Hm as (route & _ & Hm). by apply find_some_bool in Hm as [? _].
Qed.

(** The choice stays within the models of the key; offline, the request may
    not leave the device. *)
Lemma decide_sound routing grant headers body request_id d :
  decide parse_url to_lowercase compiled sha256 s env routing grant headers body request_id = Ok d ->
  allows (key_allowed s grant) (dc_chosen d) = true /\
  dc_offline d = gs_offline s || offline_override to_lowercase headers /\
  (dc_offline d = true -> rq_privacy_posture (dc_request d) = OnDeviceOnly).
Proof.
  intros Hd. destruct (decide_inv _ _ _ _ _ _ Hd) as (r & m & sl & st & co & sel & ch & bg & Hp & Ho & _ & _ & _ & _ & _ & Hc & _).
  split; [|split; [done|]].
  - rewrite Hc. match goal with |- context [default _ ?c] => destruct c as [candidate|] eqn:Hcanary end; cbn [default from_option id].
    + destruct (negb (gs_dry_run s) && _ && _); [|done]. apply canary_deliverable in Hcanary. unfold deliverable in Hcanary.
      destruct (find_model _ _); [|done]. by apply andb_true_iff in Hcanary as [_ ?].
    + apply key_scope_allows.
  - intros Hoff. rewrite Ho in Hoff. rewrite Hoff in Hp. by apply posture_offline in Hp.
Qed.

(** ** The plan *)

(** A configured model that may take the request: allowed by the key, ready,
    inside the privacy posture, within its context window, on this machine when
    offline, and with an eligible deployment. *)
Record destination_ok (grant : option AccessGrant) (d : ChatDecision (number := number)) (name : str) (model : ConfiguredModel)
    : Prop := {
  do_found : find_model (gs_models s) name = Some model;
  do_allowed : allows (key_allowed s grant) name = true;
  do_ready : m_key_ready model = true;
  do_posture : permits (rq_privacy_posture (dc_request d)) (model_execution_boundary parse_url model) = true;
  do_context : forall window, m_context_window model = Some window -> dc_prompt_estimate d <= window;
  do_offline : dc_offline d = true -> model_is_proven_local parse_url model = true;
  do_deployment : exists target, target ∈ configured_deployment_targets (gs_models s) name /\
    target_eligible parse_url (dc_request d) (dc_offline d) (dc_prompt_estimate d) target = true;
}.

Lemma deliverable_ok grant (d : ChatDecision (number := number)) name :
  deliverable parse_url s (key_allowed s grant) (dc_request d) (dc_offline d) (dc_prompt_estimate d) name = true ->
  exists model, destination_ok grant d name model.
Proof using parse_url s.
  unfold deliverable. destruct (find_model (gs_models s) name) as [model|] eqn:Hf; [|done]. rewrite !andb_true_iff.
  intros [[[[He Hl] Hp] Ht] Ha]. exists model.
  assert (target_eligible parse_url (dc_request d) (dc_offline d) (dc_prompt_estimate d) model = true) as Hok
    by (unfold target_eligible; by rewrite He, Hl, Hp).
  apply target_eligible_iff in Hok as (Hk & Hpost & _ & _ & _ & Hw & _). constructor; try done.
  - intros window Hwin. by destruct (Hw window Hwin).
  - intros Ho. rewrite Ho in Hl. exact Hl.
  - unfold has_eligible_deployment_target in Ht. apply existsb_exists in Ht as (t & Hin & Ht). exists t.
    split; [by apply list_elem_of_In|done].
Qed.

Lemma chat_planned grant headers body request_id d plan :
  chat parse_url to_lowercase compiled sha256 s env grant headers body request_id = Some (Planned d plan) ->
  exists routing, decide parse_url to_lowercase compiled sha256 s env routing grant headers body request_id = Ok d /\
    plan_request parse_url s env grant headers d = Ok plan.
Proof.
  unfold chat. destruct (unsupported_text_surface body); [done|]. intros Hc. apply bind_Some in Hc as (profile & _ & Hc).
  injection Hc as Hc. exists (match profile with Some profile => resolved_routing profile | None => gs_routing s end).
  destruct (decide _ _ _ _ _ _ _ _ _ _ _) as [d'|]; [|done]. destruct (gs_dry_run s || _); [done|].
  destruct (plan_request _ _ _ _ _ _) as [plan'|] eqn:Hp; [|done]. by injection Hc as -> ->.
Qed.

Lemma plan_request_inv grant headers (d : ChatDecision (number := number)) plan :
  plan_request parse_url s env grant headers d = Ok plan ->
  exists target, find_model (gs_models s) (delivery_name d) = Some target /\ plan <> [] /\ NoDup plan /\
  forall name, name ∈ plan ->
    name ∈ delivery_name d :: plan_candidates s headers d target /\
    allow_at (env_breaker env) name (env_breaker_clock env) = true /\
    deliverable parse_url s (key_allowed s grant) (dc_request d) (dc_offline d) (dc_prompt_estimate d) name = true.
Proof using parse_url s env.
  unfold plan_request. destruct (find_model _ _) as [target|]; [|done]. destruct (dc_offline d && _); [done|].
  unfold policy_delivery_plan. destruct (validated_now (env_breaker_clock env)) as [now|] eqn:Hnow; [|done].
  assert (now = env_breaker_clock env) as ->.
  { revert Hnow. unfold validated_now. destruct (_ && _); [by intros [= <-]|done]. }
  cbn [result_bind map_err]. set (p := delivery_plan _ _ _ _). intros Hp. exists target. split; [done|].
  assert (p = plan /\ plan <> []) as [<- Hne] by (destruct p; [done|injection Hp as <-; done]). clear Hp.
  unfold p, delivery_plan. destruct (dedup_targets_spec ∅ (delivery_name d :: plan_candidates s headers d target)) as [Hn Hs].
  split; [done|]. split; [by apply NoDup_ListNoDup, List.NoDup_filter, List.NoDup_filter, NoDup_ListNoDup|].
  intros name Hin. apply elem_of_filter_bool in Hin as [Hin Hd]. apply elem_of_filter_bool in Hin as [Hin Hb].
  destruct (Hs name Hin). by split_and!.
Qed.

(** C4: Every destination of a delivery plan may take the request.  When the
    handler plans a delivery: the plan is not empty and names no destination
    twice; each of its destinations is configured, allowed by the caller's key,
    ready, inside the privacy posture (on this device only, when offline),
    within its context window, outside its circuit cooldown, and has an
    eligible deployment; the choice itself is one the key allows; and a pinned
    request goes to its choice and nowhere else. *)
Theorem chat_plan_sound grant headers body request_id d plan :
  chat parse_url to_lowercase compiled sha256 s env grant headers body request_id = Some (Planned d plan) ->
  plan <> [] /\ NoDup plan /\ allows (key_allowed s grant) (dc_chosen d) = true /\
  (dc_offline d = gs_offline s || offline_override to_lowercase headers) /\
  (dc_offline d = true -> rq_privacy_posture (dc_request d) = OnDeviceOnly) /\
  (is_pinned (dc_mode d) = true -> plan = [dc_chosen d]) /\
  forall name, name ∈ plan ->
    allow_at (env_breaker env) name (env_breaker_clock env) = true /\ exists model, destination_ok grant d name model.
Proof.
  intros Hc. apply chat_planned in Hc as (routing & Hd & Hp).
  destruct (decide_sound _ _ _ _ _ _ Hd) as (Ha & Ho & Hoff).
  destruct (plan_request_inv _ _ _ _ Hp) as (target & Ht & Hne & Hn & Hin).
  split_and!; try done.
  - intros Hpin. assert (forall name, name ∈ plan -> name = dc_chosen d) as Hall.
    { intros name Hname. destruct (Hin name Hname) as (Hcand & _). unfold delivery_name, plan_candidates in Hcand.
      rewrite Hpin, andb_false_r in Hcand. by apply list_elem_of_singleton in Hcand. }
    destruct plan as [|a [|b plan]]; [done|f_equal; apply Hall; left|]. exfalso. apply NoDup_cons in Hn as [Hn _]. apply Hn.
    rewrite (Hall a), (Hall b) by set_solver. left.
  - intros name Hname. destruct (Hin name Hname) as (_ & Hb & Hdel). split; [done|]. by apply deliverable_ok.
Qed.

(** ** Pins and budgets *)
Lemma apply_budget_cases scored ws key offline sel budgeted :
  apply_budget s env scored ws key offline sel = Ok budgeted ->
  (bg_degraded budgeted = false /\ bg_selected budgeted = sel /\
   (budget_active (gs_budget_policy s) && gs_priced s = true -> budget_decision s env ws key offline = Ok Allow)) \/
  (bg_degraded budgeted = true /\ budget_decision s env ws key offline = Ok Budget.Degrade /\
   (bg_selected budgeted = sel \/ offline = false /\ sl_mode (bg_selected budgeted) = ModeBudgetDegraded) /\
   (offline = false -> forall t, cs_tiers scored ≫= lowest_tier = Some t -> sl_chosen (bg_selected budgeted) = tier_model t)).
Proof.
  unfold apply_budget. destruct (budget_active (gs_budget_policy s) && gs_priced s); [|intros [= <-]; by left].
  destruct (budget_decision s env ws key offline) as [[| |window limit]|e]; try done; intros [= <-]; [by left|right].
  unfold degrade. destruct offline; [by split_and!; [..|left|]|].
  destruct (cs_tiers scored ≫= lowest_tier) as [t|] eqn:Ht; cbn [fmap option_fmap option_map]; [|by split_and!; [..|left|]].
  destruct (str_eqb (tier_model t) (sl_chosen sel)) eqn:E; [apply str_eqb_eq in E|];
    (split; [done|]; split; [done|]; split; [by auto|intros _ t' [= <-]; by cbn]).
Qed.

Lemma apply_key_scope_cases scored grant sel :
  apply_key_scope s scored grant sel = sel \/
  sl_mode (apply_key_scope s scored grant sel) = ModeKeyScoped /\ allows (key_allowed s grant) (sl_chosen sel) = false.
Proof.
  unfold apply_key_scope. destruct (key_allowed s grant) as [allowed|]; [|by left].
  destruct (str_eqb _ _) eqn:E; [by left|]. apply str_eqb_neq in E. right. split; [done|].
  destruct (allows (Some allowed) (sl_chosen sel)) eqn:Ha; [|done]. destruct E. unfold clamp_to_allowed.
  cbn [allows] in Ha. by rewrite Ha, orb_true_r.
Qed.

(** An explicit model stands.  A request that names a configured model is
    decided for that model, pinned; the only exceptions are an exhausted
    budget that degrades, and a key that may not use the model. *)
Theorem pin_respected routing grant headers body request_id d pin :
  decide parse_url to_lowercase compiled sha256 s env routing grant headers body request_id = Ok d ->
  resolve_request_selection (gs_routing s) (gs_models s) (gs_route_presets s) (obj_get (dc_body d) (lit "model")) =
    Ok (Some (SelectModel pin)) ->
  dc_chosen d = pin /\ dc_mode d = ModePinned \/
  dc_budget_degraded d = true /\ dc_offline d = false /\ dc_mode d ∈ [ModeBudgetDegraded; ModeKeyScoped] \/
  dc_mode d = ModeKeyScoped /\ allows (key_allowed s grant) pin = false.
Proof.
  intros Hd Hpin.
  destruct (decide_inv _ _ _ _ _ _ Hd) as (r & m & sl & st & co & sel & ch & bg & _ & Ho & _ & _ & Hsel & Hch & Hb & Hc & Hm & _ & _ & Hdeg).
  unfold select_model in Hsel. rewrite Hpin in Hsel. injection Hsel as <-.
  apply check_selection_ok in Hch as (_ & _ & ->). rewrite Ho, Hdeg.
  set (scoped := apply_key_scope s (dc_scored d) grant (bg_selected bg)) in *.
  assert (Hscored : sl_mode scoped <> ModeScored -> dc_chosen d = sl_chosen scoped /\ dc_mode d = sl_mode scoped).
  { intros Hns. rewrite Hc, Hm. rewrite (bool_decide_eq_false_2 _ Hns), andb_false_r. done. }
  destruct (apply_key_scope_cases (dc_scored d) grant (bg_selected bg)) as [E|[E Hna]]; fold scoped in E.
  - destruct (apply_budget_cases _ _ _ _ _ _ Hb) as [(_ & Hs & _)|(Hdg & _ & [Hs|[Hoff Hs]] & _)].
    1-2: left; rewrite E, Hs in Hscored; by apply Hscored.
    right; left. rewrite E, Hs in Hscored. destruct (Hscored ltac:(done)) as [_ ->]. split_and!; [done|done|apply list_elem_of_here].
  - rewrite E in Hscored. destruct (Hscored ltac:(done)) as [_ ->].
    destruct (apply_budget_cases _ _ _ _ _ _ Hb) as [(_ & Hs & _)|(Hdg & _ & [Hs|[Hoff Hs]] & _)].
    1-2: right; right; split; [done|]; by rewrite Hs in Hna.
    right; left. split_and!; [done|done|apply list_elem_of_further, list_elem_of_here].
Qed.

(** What the local ledger decides, cap by cap. *)
Lemma local_budget_decision ws key offline today : env_shared_spend env = None -> env_today env = Ok today ->
  let caps := applicable (gs_budget_policy s) ws key in
  (budget_decision s env ws key offline = Ok Allow -> Forall (fun c => ~ exhausted (env_ledger env) today c) caps) /\
  (budget_decision s env ws key offline = Ok Budget.Degrade ->
   Exists (exhausted (env_ledger env) today) caps /\ Forall (fun c => exhausted (env_ledger env) today c -> hard (fst c) offline = false) caps).
Proof.
  intros Hs Ht caps. unfold budget_decision. rewrite Hs, Ht. cbn [map_err result_bind].
  destruct (budget_decision_spec (gs_budget_policy s) (env_ledger env) ws key today offline) as (_ & Hdeg & Hall & _).
  by split; intros Hb; [apply Hall|apply Hdeg].
Qed.

(** A policy without caps has none that apply. *)
Lemma inactive_no_caps p ws key : budget_active p = false -> applicable p ws key = [].
Proof.
  unfold budget_active, applicable. destruct p as [g w k]. cbn. destruct g; [done|]. cbn [orb].
  intros [Hw Hk]%orb_false_iff. apply negb_false_iff, bool_decide_eq_true in Hw, Hk. subst.
  unfold lookup_cap. by destruct ws, key.
Qed.

Lemma no_canary headers request grant offline estimate : cn_enabled (gs_canary s) = false ->
  maybe_assign_canary parse_url sha256 s env headers request grant offline estimate = None.
Proof using parse_url s env. intros Hc. unfold maybe_assign_canary. by rewrite Hc. Qed.

(** C9: Spend caps hold at the decision, on the process-local ledger and with real
    prices.  Of the caps that apply to a request (the gateway's and its key's),
    one that is exhausted and blocks lets no decision through; the decision is
    marked degraded exactly when one is exhausted; and a degraded request that
    is not offline is decided for the lowest tier, or, when the key may not use
    that tier, moved by the key's scope.  Left out are workspace caps, which the
    local ledger never finds exhausted, and requests of a gateway with a canary
    rollout, which may take a degraded request to its candidate. *)
Theorem budget_enforced routing grant headers body request_id d today :
  decide parse_url to_lowercase compiled sha256 s env routing grant headers body request_id = Ok d ->
  gs_priced s = true -> env_shared_spend env = None -> env_today env = Ok today ->
  by_workspace (gs_budget_policy s) = [] -> cn_enabled (gs_canary s) = false ->
  let caps := applicable (gs_budget_policy s) (chat_workspace_id s grant) (chat_key_id s grant) in
  Forall (fun c => exhausted (env_ledger env) today c -> hard (fst c) (dc_offline d) = false) caps /\
  (dc_budget_degraded d = true <-> Exists (exhausted (env_ledger env) today) caps) /\
  (dc_budget_degraded d = true -> dc_offline d = false ->
   forall t, cs_tiers (dc_scored d) ≫= lowest_tier = Some t ->
   dc_chosen d = tier_model t \/ dc_mode d = ModeKeyScoped /\ allows (key_allowed s grant) (tier_model t) = false).
Proof.
  intros Hd Hpr Hs Htoday _ Hcn caps.
  destruct (decide_inv _ _ _ _ _ _ Hd) as (r & m & sl & st & co & sel & ch & bg & _ & Ho & _ & _ & _ & _ & Hb & Hc & Hm & _ & _ & Hdeg).
  rewrite no_canary in Hc, Hm by done. rewrite Ho, Hdeg.
  assert (Forall (fun c => ~ exhausted (env_ledger env) today c) caps -> ~ Exists (exhausted (env_ledger env) today) caps) as Hno.
  { intros Hall (c & Hin & He)%Exists_exists. rewrite Forall_forall in Hall. by apply (Hall c). }
  destruct (local_budget_decision (chat_workspace_id s grant) (chat_key_id s grant) (gs_offline s || offline_override to_lowercase headers)
              today Hs Htoday) as [Hallow Hdegrade]; fold caps in Hallow, Hdegrade.
  apply apply_budget_cases in Hb as [(Hdg & _ & Hdec)|(Hdg & Hdec & _ & Ht)]; rewrite Hdg.
  - assert (Forall (fun c => ~ exhausted (env_ledger env) today c) caps) as Hall.
    { destruct (budget_active (gs_budget_policy s)) eqn:Ha; [by apply Hallow, Hdec; rewrite Hpr|].
      unfold caps. rewrite inactive_no_caps by done. constructor. }
    split_and!; [|by split; [|intros He; destruct (Hno Hall)]|done].
    eapply Forall_impl; [exact Hall|]. intros c Hn He. by destruct Hn.
  - destruct (Hdegrade Hdec) as [Hex Hsoft]. split_and!; [done|done|]. intros _ Hoff t Hlow. specialize (Ht Hoff t Hlow).
    assert (dc_chosen d = sl_chosen (apply_key_scope s (dc_scored d) grant (bg_selected bg)) /\
            dc_mode d = sl_mode (apply_key_scope s (dc_scored d) grant (bg_selected bg))) as [-> ->]
      by (rewrite Hc, Hm; by destruct (_ && _)).
    destruct (apply_key_scope_cases (dc_scored d) grant (bg_selected bg)) as [E|[E Hna]]; [left; by rewrite E|right].
    split; [done|]. by rewrite <- Ht.
Qed.
End Properties.
