(* ===== verification/ChatDelivery.v ===== *)
(** * From the request to the wire (crate [wayfinder-gateway], [src/lib.rs])

    The plan of a chat request handed to buffered delivery: what holds of every
    buffered request that leaves the gateway ([Streaming] covers both kinds).  Closed requests follow. *)
From S2P Require Export Chat Delivery.

Section EndToEnd.
Context {number : Type} `{JsonText number} `{JsonNumber number}.
Context {B : Type} `{SharedHealth B}.
Context (parse_url : str -> option Url) (to_lowercase : str -> str) (compiled : result Patterns str) (sha256 : list Z -> list Z).
Context (s : GatewayState) (env : ChatEnv).
Context (env_send : nat -> ConfiguredModel -> result BufferedDeliveryResponse DeliveryError).
Context (env_elapsed env_clock env_signal_clock : nat -> f64) (shared_health : bool).

(** Where a request may go: a deployment of a destination the key allows, ready,
    inside the posture, on this machine when offline, with room for the
    prompt; of the choice alone when it is pinned. *)
Record may_receive (grant : option AccessGrant) (d : ChatDecision (number := number)) (target : ConfiguredModel) : Prop := {
  mr_alias : exists alias, allows (key_allowed s grant) alias = true /\ target ∈ pool (gs_models s) alias /\
               (is_pinned (dc_mode d) = true -> alias = dc_chosen d);
  mr_ready : m_key_ready target = true;
  mr_posture : permits (rq_privacy_posture (dc_request d)) (model_execution_boundary parse_url target) = true;
  mr_offline : dc_offline d = true -> model_is_proven_local parse_url target = true;
  mr_context : forall window, m_context_window target = Some window -> dc_prompt_estimate d <= window;
}.

Definition deliver (w : World (B := B)) (plan : list str) (d : ChatDecision (number := number)) :=
  deliver_with_reliability parse_url env_send env_elapsed env_clock env_signal_clock (gs_models s) (gs_reliability s)
    shared_health w plan (dc_request d) (dc_offline d) (dc_prompt_estimate d).

Lemma offered_may_receive grant headers d plan target :
  plan_request parse_url s env grant headers d = Ok plan ->
  offered parse_url (gs_models s) plan (dc_request d) (dc_offline d) (dc_prompt_estimate d) target -> may_receive grant d target.
Proof.
  intros Hp (alias & Hin & Hpool & He & _). apply plan_request_inv in Hp as (m & _ & _ & _ & Hplan).
  destruct (Hplan alias Hin) as (Hcand & _ & Hdel).
  assert (Hlocal : dc_offline d = true -> model_is_proven_local parse_url target = true).
  { intros Ho. unfold target_eligible in He. rewrite Ho in He. by apply andb_true_iff in He as [[_ He]%andb_true_iff _]. }
  apply target_eligible_iff in He as (Hk & Hpost & _ & _ & _ & Hw & _). constructor; try done.
  - exists alias. unfold deliverable in Hdel. destruct (find_model _ _); [|done]. apply andb_true_iff in Hdel as [_ Ha].
    split; [done|]. split; [done|]. intros Hpin. unfold delivery_name, plan_candidates in Hcand.
    rewrite Hpin, andb_false_r in Hcand. by apply list_elem_of_singleton in Hcand.
  - intros window Hwin. by destruct (Hw window Hwin).
Qed.

(** Whatever the providers answer, a plan handed to buffered delivery is sent to
    targets it may go to, and at most once per retry to each deployment of it;
    a response that is returned came from such a target. *)
Lemma buffered_sends_safely grant headers body request_id d plan w :
  chat parse_url to_lowercase compiled sha256 s env grant headers body request_id = Some (Planned d plan) ->
  let '(w', r) := deliver w plan d in
  sends (may_receive grant d) (S (rp_retries (gs_reliability s)) * plan_size (gs_models s) plan) w w' /\
  (gs_offline s = true \/ offline_override to_lowercase headers = true -> dc_offline d = true) /\
  forall o, r = Ok o -> exists target, may_receive grant d target /\ last (w_sent w') = Some target /\
    served_by_id o = delivery_id target /\ outcome_boundary o = model_execution_boundary parse_url target.
Proof.
  intros (routing & Hd & Hp)%chat_planned. apply decide_sound in Hd as (_ & Ho & _).
  unfold deliver, deliver_with_reliability.
  pose proof (plan_loop_spec parse_url env_send env_elapsed env_clock env_signal_clock (gs_models s) (gs_reliability s) shared_health
                w plan (dc_request d) (dc_offline d) (dc_prompt_estimate d) (Msg "no upstream available" [])) as Hspec.
  destruct (plan_loop _ _ _ _ _ _ _ _ _ _ _ _ _ _) as [w' r]. destruct Hspec as [Hs Hr].
  split; [eapply sends_weaken, Hs; [intros m; by eapply offered_may_receive|done]|].
  split; [intros Hoff; rewrite Ho; destruct Hoff as [-> | ->]; [done|apply orb_true_r]|].
  intros o ->. destruct Hr as (Ha & _ & target & Ht & Hl & Hid & Hb). exists target. apply (offered_of _ _ _ plan) in Ht; [|done]. apply answered_last in Hl.
  split; [by eapply offered_may_receive|done].
Qed.
End EndToEnd.

(** ** Closed requests

    A local model on this machine, a hosted one, and a key restricted to the
    local one.  The scores come from the sample patterns. *)
Definition local_model : ConfiguredModel :=
  ConfiguredModel_new (lit "local") (lit "http://127.0.0.1:11434/v1") (lit "llama") None true.
Definition cloud_model : ConfiguredModel :=
  ConfiguredModel_new (lit "cloud") (lit "https://api.example/v1") (lit "gpt") None true.

Definition sample_keys : AccessPolicy :=
  {| global_limiter := None;
     policy_keys := [{| id := lit "agent"; digest := []; workspace := None; allowed_models_of := [lit "local"];
                        workspace_limiter := None; limiter := None |}];
     ap_allow_unauthenticated_default := false |}.

Definition agent : option AccessGrant := Some {| key_index := Some 0%nat |}.

Definition no_budget : BudgetPolicy := {| global := None; by_workspace := []; by_key := [] |}.

Definition sample_gateway (budget : BudgetPolicy) (canary : CanaryConfig) : GatewayState :=
  {| gs_routing := RoutingConfig_binary (f64_dec 5 1); gs_models := [local_model; cloud_model];
     gs_route_presets := [(lit "beta", {| rp_models := [lit "cloud"] |})]; gs_policy := None; gs_offline := false;
     gs_dry_run := false; gs_route_on := Turn; gs_sticky := false; gs_sticky_cooldown := 0; gs_slash_directives := true;
     gs_access_policy := Some sample_keys; gs_budget_policy := budget; gs_priced := true; gs_reliability := sample_policy;
     gs_canary := canary |}.

Definition sample_env : ChatEnv :=
  {| env_today := Ok leap_day; env_ledger := sample_ledger; env_shared_spend := None; env_canary_snapshot := None;
     env_exposure_admitted := true; env_breaker := CircuitBreaker_new 1 (f64_of_Z 30); env_breaker_clock := f64_zero |}.

Definition zero_hash (bytes : list Z) : list Z := repeat 0 32.

Definition sample_body (model : string) : list (str * Value Z) :=
  [(lit "model", JString (lit model)); (lit "messages", JArray [user_message "hello"])].

Definition sample_chat (s : GatewayState) (e : ChatEnv) (grant : option AccessGrant) (headers : list (str * list Z)) (model : string)
    : option (chat_outcome (number := Z)) :=
  chat sample_parse_url to_ascii_lowercase (Ok sample_patterns) zero_hash s e grant headers (sample_body model) (lit "r").

Definition outcome_plan (o : option (chat_outcome (number := Z))) : option (str * route_mode * list str) :=
  match o with Some (Planned d plan) => Some (dc_chosen d, dc_mode d, plan) | _ => None end.

Definition outcome_status (o : option (chat_outcome (number := Z))) : option Z :=
  match o with Some (ChatRefused r) => Some (rf_status r) | _ => None end.

(** Scored; pinned; pinned under a key that may not use the model; offline. *)
Example sample_requests :
  let s := sample_gateway no_budget default_canary in
  outcome_plan (sample_chat s sample_env None [] "auto") = Some (lit "local", ModeScored, [lit "local"]) /\
  outcome_plan (sample_chat s sample_env None [] "cloud") = Some (lit "cloud", ModePinned, [lit "cloud"]) /\
  outcome_plan (sample_chat s sample_env agent [] "cloud") = Some (lit "local", ModeKeyScoped, [lit "local"]) /\
  outcome_status (sample_chat s sample_env None [(OFFLINE_HEADER, as_bytes (lit "yes"))] "cloud") = Some 503 /\
  outcome_plan (sample_chat s sample_env None [] "@route/beta") = Some (lit "cloud", ModePreset, [lit "cloud"]) /\
  outcome_status (sample_chat s sample_env agent [] "@route/beta") = Some 422.
Proof. vm_compute. repeat split. Qed.

Definition sample_outcome : option (chat_outcome (number := Z)) :=
  sample_chat (sample_gateway no_budget default_canary) sample_env agent [] "cloud".

Definition sample_decision : option (ChatDecision (number := Z) * list str) :=
  match sample_outcome with Some (Planned d plan) => Some (d, plan) | _ => None end.

Lemma chat_plan_sound_witness :
  exists d plan, sample_outcome = Some (Planned d plan) /\ plan = [lit "local"] /\ NoDup plan /\
    allows (key_allowed (sample_gateway no_budget default_canary) agent) (dc_chosen d) = true.
Proof.
  destruct sample_outcome as [[d|d plan|r]|] eqn:E; try (exfalso; revert E; vm_compute; discriminate).
  exists d, plan. assert (outcome_plan sample_outcome = Some (lit "local", ModeKeyScoped, [lit "local"])) as Hp
    by (vm_compute; reflexivity).
  rewrite E in Hp. injection Hp as _ _ ->. split; [reflexivity|]. split; [reflexivity|].
  destruct (chat_plan_sound sample_parse_url to_ascii_lowercase (Ok sample_patterns) zero_hash
              (sample_gateway no_budget default_canary) sample_env agent [] (sample_body "cloud") (lit "r") d [lit "local"] E)
    as (_ & Hn & Ha & _).
  split; [exact Hn|exact Ha].
Defined.

(** The provider on this machine answers the request. *)
Definition sample_answer (d : ChatDecision (number := Z)) (plan : list str) :=
  deliver sample_parse_url (sample_gateway no_budget default_canary) scripted_send (fun _ => f64_zero) (fun _ => f64_zero)
    (fun _ => f64_zero) false start_world plan d.

Lemma buffered_sends_safely_witness :
  exists d, sample_outcome = Some (Planned d [lit "local"]) /\
    w_sent (sample_answer d [lit "local"]).1 = [local_model] /\
    may_receive sample_parse_url (sample_gateway no_budget default_canary) agent d local_model.
Proof.
  destruct sample_outcome as [[d|d plan|r]|] eqn:E; try (exfalso; revert E; vm_compute; discriminate).
  exists d.
  assert (match sample_outcome with
          | Some (Planned d plan) => plan = [lit "local"] /\ w_sent (sample_answer d plan).1 = [local_model]
          | _ => False end) as Hp by (vm_compute; split; reflexivity).
  rewrite E in Hp. destruct Hp as [-> Hw]. split; [reflexivity|]. split; [exact Hw|].
  pose proof (buffered_sends_safely sample_parse_url to_ascii_lowercase (Ok sample_patterns) zero_hash
              (sample_gateway no_budget default_canary) sample_env scripted_send (fun _ => f64_zero) (fun _ => f64_zero)
              (fun _ => f64_zero) false agent [] (sample_body "cloud") (lit "r") d [lit "local"] start_world E) as H.
  unfold sample_answer in Hw. destruct (deliver _ _ _ _ _ _ _ _ _ _) as [w' r]. cbn [fst] in Hw.
  destruct H as ((l & Hl & Hall & _) & _). rewrite Hw in Hl. cbn in Hl. subst l. by apply Forall_inv in Hall.
Defined.

(** A cap below what the ledger has recorded: requests are degraded, or refused
    when the cap blocks. *)
Definition spent_budget (breach : string) : BudgetPolicy :=
  {| global := Some {| b_limit := f64_dec 1 1; b_window := lit "day"; on_breach := lit breach |};
     by_workspace := []; by_key := [] |}.

Example sample_budgets :
  outcome_plan (sample_chat (sample_gateway (spent_budget "degrade") default_canary) sample_env None [] "cloud") =
    Some (lit "local", ModeBudgetDegraded, [lit "local"]) /\
  outcome_status (sample_chat (sample_gateway (spent_budget "block") default_canary) sample_env None [] "auto") = Some 402.
Proof. vm_compute. split; reflexivity. Qed.

Definition sample_decide (budget : BudgetPolicy) (canary : CanaryConfig) (env : ChatEnv) (model : string) :=
  let s := sample_gateway budget canary in
  Chat.decide sample_parse_url to_ascii_lowercase (Ok sample_patterns) zero_hash s env (gs_routing s) None [] (sample_body model) (lit "r").

Lemma budget_enforced_witness :
  exists d, sample_decide (spent_budget "degrade") default_canary sample_env "cloud" = Ok d /\ dc_budget_degraded d = true /\
    Exists (exhausted sample_ledger leap_day) (applicable (spent_budget "degrade") None None).
Proof.
  destruct (sample_decide (spent_budget "degrade") default_canary sample_env "cloud") as [d|e] eqn:E;
    [|exfalso; revert E; vm_compute; discriminate].
  exists d. split; [reflexivity|]. unfold sample_decide in E. cbv zeta in E.
  destruct (budget_enforced _ _ _ _ _ _ _ _ _ _ _ _ leap_day E eq_refl eq_refl eq_refl eq_refl eq_refl) as (_ & H & _).
  assert (Exists (exhausted sample_ledger leap_day) (applicable (spent_budget "degrade") None None)) as Hex
    by (apply Exists_cons; left; vm_compute; reflexivity).
  split; [|exact Hex]. apply H. exact Hex.
Defined.

(** A rollout may still take a degraded request.  When the lowest tier is the
    scored choice already, the request keeps the mode [scored], and the canary
    sends it to its candidate: the degrade does not keep it on the cheapest
    tier. *)
Definition full_canary : CanaryConfig :=
  {| cn_enabled := true; rollout_id := lit "r1"; candidate_route := lit "beta"; fraction := f64_one;
     cn_scope := lit "request"; cohort := None; cn_max_requests := 100; cn_window := f64_of_Z 60; min_samples := 1;
     max_error_rate := f64_one; max_latency_ms := f64_of_Z 1000; max_cost_multiplier := f64_of_Z 10;
     max_quality_loss := f64_one; rollback_hold := f64_of_Z 60 |}.

Definition canary_env : ChatEnv :=
  {| env_today := Ok leap_day; env_ledger := sample_ledger; env_shared_spend := None;
     env_canary_snapshot := Some {| sn_requests := 0; sn_errors := 0; sn_latency_sum_ms := 0; sn_latency_samples := 0;
       sn_realized_cost := f64_zero; sn_baseline_cost := f64_zero; sn_cost_samples := 0; sn_quality_loss := f64_zero;
       sn_quality_samples := 0; sn_tripped_reason := None |};
     env_exposure_admitted := true; env_breaker := CircuitBreaker_new 1 (f64_of_Z 30); env_breaker_clock := f64_zero |}.

Example degraded_request_takes_canary :
  match sample_decide (spent_budget "degrade") full_canary canary_env "auto" with
  | Ok d => dc_budget_degraded d = true /\ tier_model <$> (cs_tiers (dc_scored d) ≫= lowest_tier) = Some (lit "local") /\
      dc_mode d = ModeCanary /\ dc_chosen d = lit "cloud"
  | Err _ => False
  end.
Proof. vm_compute. repeat split; reflexivity. Qed.

(** [prefer-local] reads the gateway's own tiers, even when a policy profile
    decides the request: under a profile whose lowest tier is the hosted
    model, it still pins the local one. *)
Definition swapped_routing : RoutingConfig :=
  {| cfg_weights := default_weights;
     cfg_tiers := [Tier_new f64_zero (lit "cloud"); Tier_new (f64_dec 5 1) (lit "local")];
     cfg_classifier := None; cfg_lexicon := default_lexicon |}.

Definition swapped_policy : ValidatedPolicyVersion :=
  {| version_id := lit "v"; document := sample_document; version_drafted_by := sample_actor;
     routing_of := {[lit "default" := swapped_routing]}; bindings_of := ∅; version_default := lit "default" |}.

Definition governed_gateway : GatewayState :=
  {| gs_routing := RoutingConfig_binary (f64_dec 5 1); gs_models := [local_model; cloud_model]; gs_route_presets := [];
     gs_policy := Some swapped_policy; gs_offline := false; gs_dry_run := false; gs_route_on := Turn; gs_sticky := false;
     gs_sticky_cooldown := 0; gs_slash_directives := true; gs_access_policy := None; gs_budget_policy := no_budget;
     gs_priced := true; gs_reliability := sample_policy; gs_canary := default_canary |}.

Example prefer_local_ignores_profile :
  outcome_plan (sample_chat governed_gateway sample_env None [] "auto") = Some (lit "cloud", ModeScored, [lit "cloud"]) /\
  outcome_plan (sample_chat governed_gateway sample_env None [] "prefer-local") = Some (lit "local", ModePinned, [lit "local"]).
Proof. vm_compute. split; reflexivity. Qed.
