(* ===== verification/Accounting.v ===== *)
(** * Accounting of a turn (crate [wayfinder-gateway], [src/lib.rs])

    What a request reserves before it is delivered and what is recorded after:
    the fleet budget and its lease, the delivery permit, realized usage in the
    ledger, the limiters and the metrics, and the outcome of a canary.  Clock
    readings are arguments; a task a drop spawns runs at once; the file the ledger
    is saved to and poisoned locks are not modelled. *)
From S2P Require Export FleetAccess Budget Canary Metrics Recent Delivery DecisionPolicy Admission JsonSample.

(** ** Days *)
Definition i64_sat (x : Z) : Z := Z.max i64_min (Z.min i64_max x).

(** [t::try_from(x).unwrap_or(t::MAX)]. *)
Definition narrow (lo hi x : Z) : Z := if (lo <=? x) && (x <=? hi) then x else hi.

(** Howard Hinnant's civil-from-days; [/] truncates. *)
Definition utc_date_from_unix_days (days : Z) : result UtcDate LedgerError :=
  let shifted := i64_sat (days + 719468) in
  let era := Z.quot (if 0 <=? shifted then shifted else i64_sat (shifted - 146096)) 146097 in
  let day_of_era := i64_sat (shifted - i64_sat (era * 146097)) in
  let year_of_era :=
    Z.quot (day_of_era - Z.quot day_of_era 1460 + Z.quot day_of_era 36524 - Z.quot day_of_era 146096) 365 in
  let year := i64_sat (year_of_era + i64_sat (era * 400)) in
  let day_of_year := day_of_era - (365 * year_of_era + Z.quot year_of_era 4 - Z.quot year_of_era 100) in
  let month_prime := Z.quot (5 * day_of_year + 2) 153 in
  let day := day_of_year - Z.quot (153 * month_prime + 2) 5 + 1 in
  let month := month_prime + (if month_prime <? 10 then 3 else -9) in
  let year := year + (if month <=? 2 then 1 else 0) in
  UtcDate_new (narrow (-2147483648) 2147483647 year) (narrow 0 255 month) (narrow 0 255 day).

(** [utc_today] at a number of seconds since the epoch. *)
Definition utc_today (seconds : Z) : result UtcDate LedgerError := utc_date_from_unix_days (seconds / 86400).

(** [SHARED_ADMISSION_TTL_MS]. *)
Definition SHARED_ADMISSION_TTL_MS : Z := 6 * 60 * 60 * 1000.

Record AccountedUsage := {
  au_prompt_tokens : Z;
  au_completion_tokens : Z;
  au_estimated : bool;
}.

(** What a canary guard holds. *)
Record CanaryContext := {
  cx_request_id : str;
  cx_rollout_id : str;
  cx_baseline_route : str;
  cx_candidate_route : str;
}.

(** The fields of [AppState] the functions below read. *)
Record Accounts (M : Type) := {
  ac_prices : PriceTable M;
  ac_policy : option AccessPolicy;
  ac_shared : option SharedAccessPolicy;
  ac_backend : bool;
  ac_budgets : BudgetPolicy;
  ac_canary : CanaryConfig;
  ac_max_in_flight : Z;
}.
Arguments ac_prices {M}.
Arguments ac_policy {M}.
Arguments ac_shared {M}.
Arguments ac_backend {M}.
Arguments ac_budgets {M}.
Arguments ac_canary {M}.
Arguments ac_max_in_flight {M}.

(** The authorities they change.  [bk_rollbacks] are the canary rollbacks
    handed to the audit log: the rollout and the reason. *)
Record Books (B : Type) := {
  bk_ledger : SavingsLedger;
  bk_recent : RecentRoutes;
  bk_metrics : GatewayMetrics;
  bk_fleet : Fleet B;
  bk_rollbacks : list (str * str);
}.
Arguments bk_ledger {B}.
Arguments bk_recent {B}.
Arguments bk_metrics {B}.
Arguments bk_fleet {B}.
Arguments bk_rollbacks {B}.

Section Books.
Context {B : Type}.
Implicit Types b : Books B.

Definition with_ledger b (l : SavingsLedger) : Books B :=
  {| bk_ledger := l; bk_recent := bk_recent b; bk_metrics := bk_metrics b; bk_fleet := bk_fleet b; bk_rollbacks := bk_rollbacks b |}.
Definition with_recent b (r : RecentRoutes) : Books B :=
  {| bk_ledger := bk_ledger b; bk_recent := r; bk_metrics := bk_metrics b; bk_fleet := bk_fleet b; bk_rollbacks := bk_rollbacks b |}.
Definition with_metrics b (m : GatewayMetrics) : Books B :=
  {| bk_ledger := bk_ledger b; bk_recent := bk_recent b; bk_metrics := m; bk_fleet := bk_fleet b; bk_rollbacks := bk_rollbacks b |}.
Definition with_fleet b (f : Fleet B) : Books B :=
  {| bk_ledger := bk_ledger b; bk_recent := bk_recent b; bk_metrics := bk_metrics b; bk_fleet := f; bk_rollbacks := bk_rollbacks b |}.
Definition with_rollback b (rollout reason : str) : Books B :=
  {| bk_ledger := bk_ledger b; bk_recent := bk_recent b; bk_metrics := bk_metrics b; bk_fleet := bk_fleet b;
     bk_rollbacks := bk_rollbacks b ++ [(rollout, reason)] |}.

Definition the_backend b : B := ft_backend (bk_fleet b).

Definition with_backend b (x : B) : Books B :=
  with_fleet b {| ft_backend := x; ft_limiters := ft_limiters (bk_fleet b); ft_degraded := ft_degraded (bk_fleet b) |}.

Definition mark_degraded b : Books B := with_metrics b (set_degraded (bk_metrics b) true).1.
End Books.

Section Accounting.
Context {number : Type} `{JsonNumber number, JsonText number} {M : Type} `{IndexMap f64 M} {B : Type} `{StateBackend B}.
Context (A : Accounts M).
Implicit Types b : Books B.

(** [shared_state_backend().filter(|backend| backend.backend_name() == "redis")]. *)
Definition redis b : bool := ac_backend A && str_eqb (backend_name (the_backend b)) (lit "redis").

(** [AppState::state_degraded]. *)
Definition gateway_degraded b : bool :=
  (ac_backend A && sb_degraded (the_backend b))
  || match ac_policy A with Some _ => state_degraded (ac_shared A) (bk_fleet b) | None => false end.

(** An operation whose answer is ignored. *)
Definition quietly {R} (op : B -> B * R) b : Books B := with_backend b (op (the_backend b)).1.

(** ** The fleet budget *)

(** [SharedBudgetLease]: [settle] and [drop] both hand the reservation back. *)
Definition settle_lease (lease : option SharedBudgetReservation) b : Books B :=
  match lease with
  | Some reservation => quietly (fun x => sb_release_budget x reservation) b
  | None => b
  end.

Inductive SharedBudgetReservationOutcome :=
| BudgetReserved (lease : SharedBudgetReservation)
| BudgetDenied
| BudgetUnavailable.

Definition reserve_shared_budget (request_id : str) (prompt_estimate : Z) (request_body : Value number)
    (workspace_id key_id : option str) (offline : bool) (seconds : Z) b : Books B * SharedBudgetReservationOutcome :=
  if negb (redis b) || negb (table_priced (ac_prices A)) then (b, BudgetUnavailable)
  else
    match shared_scopes (ac_budgets A) workspace_id key_id offline with
    | [] => (b, BudgetUnavailable)
    | scopes =>
        let completions :=
          match (v ← value_get request_body (lit "n"); as_u64 v) with
          | Some count => if 0 <? count then count else 1
          | None => 1
          end in
        let output_tokens := Z.min (Z.max (requested_output_tokens request_body) 1024 * completions) u64_max in
        match turn_cost [] (Z.min prompt_estimate i64_max) (Z.min output_tokens i64_max) (costs (ac_prices A)) true None,
              utc_today seconds with
        | Ok cost, Ok date =>
            let reservation := {| br_request_id := request_id; br_date := to_string date; br_amount := tc_realized cost;
                                  br_scopes := scopes |} in
            match sb_reserve_budget (the_backend b) reservation with
            | (x, Ok true) => (with_backend b x, BudgetReserved reservation)
            | (x, Ok false) => (with_backend b x, BudgetDenied)
            | (x, Err _) => (mark_degraded (with_backend b x), BudgetUnavailable)
            end
        | _, _ => (b, BudgetUnavailable)
        end
    end.

(** ** The delivery permit *)
(** [ObservedAdmissionPermit]: whether it holds a fleet lease. *)
Record ObservedAdmissionPermit := { ap_lease : option str }.

(** [acquire_delivery], given the answer of [AdmissionPolicy::acquire]: the
    seconds it waited, or its error. *)
Definition acquire_delivery (request_id : str) (acquired : result f64 AdmissionError) b
    : Books B * result ObservedAdmissionPermit AdmissionError :=
  match acquired with
  | Err e => (b, Err e)
  | Ok waited =>
      let '(b, shared) :=
        if redis b then
          match sb_acquire_admission (the_backend b) (ac_max_in_flight A) request_id SHARED_ADMISSION_TTL_MS with
          | (x, Ok true) => (with_backend b x, Some (Some request_id))
          | (x, Ok false) => (with_backend b x, None)
          | (x, Err _) => (mark_degraded (with_backend b x), Some None)
          end
        else (b, Some None) in
      match shared with
      | None => (b, Err SharedLimit)
      | Some lease => (with_metrics b (observe_admission (bk_metrics b) waited).1, Ok {| ap_lease := lease |})
      end
  end.

(** The permit's drop, and the lease's. *)
Definition drop_permit (permit : ObservedAdmissionPermit) b : Books B :=
  let b := with_metrics b (observe_admission_release (bk_metrics b)).1 in
  match ap_lease permit with Some lease_id => quietly (fun x => sb_release_admission x lease_id) b | None => b end.

(** ** Realized usage *)
Definition grant_field {X} (f : AccessPolicy -> AccessGrant -> option X) (grant : option AccessGrant) : option X :=
  policy ← ac_policy A; g ← grant; f policy g.

Definition cost_scopes (route : str) (key_id workspace_id : option str) : list str :=
  [lit "global"; lit "route:" ++ route]
  ++ match key_id with Some id => [lit "key:" ++ id] | None => [] end
  ++ match workspace_id with Some id => [lit "workspace:" ++ id] | None => [] end.

Definition recent_cost (cost : TurnCost) : RecentCost :=
  {| rc_realized := tc_realized cost; rc_baseline := tc_baseline cost; rc_saved := tc_savings cost;
     rc_tokens := u64_sat_add (tc_prompt_tokens cost) (tc_completion_tokens cost);
     rc_unit := if table_priced (ac_prices A) then lit "usd" else lit "relative"; rc_estimated := tc_estimated cost |}.

(** The limiters of a turn without a reservation: the local ones, and the
    shared ones too when there are any. *)
Definition charge_tokens (grant : option AccessGrant) (tokens : Z) (now now' : f64) b : Books B :=
  match ac_policy A, grant with
  | Some policy, Some grant =>
      let f := bk_fleet b in
      let f := with_limiters f (add_tokens policy grant tokens now (ft_limiters f)).1 in
      with_fleet b (if uses_shared_state (ac_shared A) then (add_shared_tokens (ac_shared A) grant tokens now' f).1 else f)
  | _, _ => b
  end.

(** [if !estimated { reconcile } else if no reservation { add_tokens }]: [None]
    when the reconciliation fails, which ends the accounting. *)
Definition settle_tokens (grant : option AccessGrant) (reservation : option (list TokenReservationEntry)) (estimated : bool)
    (tokens : Z) (now now' : f64) b : Books B * option unit :=
  match reservation with
  | Some entries =>
      if estimated then (b, Some ())
      else
        match ac_policy A with
        | None => (b, None)
        | Some _ =>
            let '(f, r) := reconcile_entries entries tokens now (bk_fleet b) in
            (with_fleet b f, match r with Ok _ => Some () | Err _ => None end)
        end
  | None => (charge_tokens grant tokens now now' b, Some ())
  end.

Definition record_accounted_usage (route request_id : str) (grant : option AccessGrant) (prompt_tokens completion_tokens : Z)
    (estimated : bool) (reservation : option (list TokenReservationEntry)) (lease : option SharedBudgetReservation)
    (seconds : Z) (now now' : f64) b : Books B * option AccountedUsage :=
  match turn_cost route prompt_tokens completion_tokens (costs (ac_prices A)) estimated None, utc_today seconds with
  | Ok cost, Ok today =>
      let key_id := grant_field key_id grant in
      let workspace_id := grant_field workspace_id grant in
      let b := with_ledger b (record_attributed (set_priced (bk_ledger b) (table_priced (ac_prices A))) cost today key_id workspace_id) in
      let b :=
        if redis b then
          let b := quietly (fun x => sb_record_cost x (from_turn request_id (to_string today) cost (cost_scopes route key_id workspace_id))) b in
          with_metrics b (set_degraded (bk_metrics b) (gateway_degraded b)).1
        else b in
      let b := settle_lease lease b in
      let tokens := u64_sat_add (tc_prompt_tokens cost) (tc_completion_tokens cost) in
      let '(b, settled) := settle_tokens grant reservation estimated tokens now now' b in
      match settled with
      | None => (b, None)
      | Some _ =>
          let b := with_metrics b (observe_cost (bk_metrics b) (tc_realized cost) (tc_baseline cost)).1 in
          let b := with_recent b (update_cost (bk_recent b) request_id (recent_cost cost)).2 in
          (b, Some {| au_prompt_tokens := tc_prompt_tokens cost; au_completion_tokens := tc_completion_tokens cost;
                      au_estimated := tc_estimated cost |})
      end
  | _, _ => (settle_lease lease b, None)
  end.

Definition response_json (content_type : str) (body : list Z) : Value number :=
  if negb (bool_decide (body = [])) && str_contains content_type (lit "json")
  then match from_slice body with Ok v => v | Err _ => JNull end else JNull.

Definition account_buffered_success (route request_id : str) (messages : Value number) (grant : option AccessGrant) (status : Z)
    (content_type : str) (body : list Z) (reservation : option (list TokenReservationEntry)) (lease : option SharedBudgetReservation)
    (seconds : Z) (now now' : f64) b : Books B * option AccountedUsage :=
  if 400 <=? status then (settle_lease lease b, None)
  else
    let response := response_json content_type body in
    let usage := usage_tokens response (extract_prompt messages All) (first_choice_text response) in
    record_accounted_usage route request_id grant (ut_prompt usage) (ut_completion usage) (ut_estimated usage) reservation lease
      seconds now now' b.

Definition account_stream_success (route request_id : str) (messages : Value number) (grant : option AccessGrant)
    (completion_chars : Z) (reservation : option (list TokenReservationEntry)) (lease : option SharedBudgetReservation)
    (seconds : Z) (now now' : f64) b : Books B * option AccountedUsage :=
  let prompt_tokens := estimate_tokens (extract_prompt messages All) in
  let completion_tokens := if completion_chars =? 0 then 0 else Z.max (completion_chars / 4) 1 in
  record_accounted_usage route request_id grant (Z.min prompt_tokens i64_max) (Z.min completion_tokens i64_max) true reservation
    lease seconds now now' b.

(** ** The outcome of a canary *)
Definition canary_cost (route : str) (usage : option AccountedUsage) : option f64 :=
  usage ← usage;
  if (au_prompt_tokens usage <=? i64_max) && (au_completion_tokens usage <=? i64_max) then
    match turn_cost route (au_prompt_tokens usage) (au_completion_tokens usage) (costs (ac_prices A)) (au_estimated usage) None with
    | Ok cost => Some (tc_realized cost)
    | Err _ => None
    end
  else None.

Definition record_canary_outcome (context : CanaryContext) (succeeded : bool) (route : str) (usage : option AccountedUsage)
    (latency_ms : Z) (now : f64) b : Books B :=
  if negb (redis b) then b
  else
    let config := ac_canary A in
    let observation :=
      {| ob_rollout_id := cx_rollout_id context; ob_request_id := cx_request_id context; ob_succeeded := succeeded;
         ob_latency_ms := latency_ms; ob_realized_cost := canary_cost route usage;
         ob_baseline_cost := canary_cost (cx_baseline_route context) usage; ob_quality_loss := None |} in
    let b := quietly (fun x => sb_record_canary x observation (cn_window config) now) b in
    match sb_canary_snapshot (the_backend b) (cx_rollout_id context) (cn_window config) now with
    | (x, Err _) => with_backend b x
    | (x, Ok snapshot) =>
        let b := with_backend b x in
        match tripwire config snapshot with
        | None => b
        | Some t =>
            match sb_trip_canary (the_backend b) (cx_rollout_id context) (Tripwire_as_str t) (rollback_hold config) now with
            | (x, Ok _) => with_rollback (with_backend b x) (cx_rollout_id context) (Tripwire_as_str t)
            | (x, Err _) => with_backend b x
            end
        end
    end.

(** The guard's [finish], which empties it, and its [drop]. *)
Definition finish_guard (guard : option CanaryContext) (succeeded : bool) (route : str) (usage : option AccountedUsage)
    (latency_ms : Z) (now : f64) b : Books B :=
  match guard with Some context => record_canary_outcome context succeeded route usage latency_ms now b | None => b end.

Definition drop_guard (guard : option CanaryContext) (latency_ms : Z) (now : f64) b : Books B :=
  finish_guard guard false (lit "canary-error") None latency_ms now b.
End Accounting.

(** ** Days *)

(** The years of a 400-year era: each day of a year that starts in March is
    found in that year. *)
Definition era_year_of (doe : Z) : Z := (doe - doe / 1460 + doe / 36524 - doe / 146096) / 365.
Definition era_start (yoe : Z) : Z := 365 * yoe + yoe / 4 - yoe / 100.

Definition era_year_ok (yoe doy : Z) : bool :=
  (era_start (yoe + 1) + (if yoe =? 399 then 1 else 0) <=? era_start yoe + doy) || (era_year_of (era_start yoe + doy) =? yoe).

Lemma era_years_checked :
  forallb (fun y => forallb (fun d => era_year_ok (Z.of_nat y) (Z.of_nat d)) (seq 0 366)) (seq 0 400) = true.
Proof. vm_compute. reflexivity. Qed.

Lemma era_year_found yoe doy : 0 <= yoe < 400 -> 0 <= doy < days_before (yoe + 1) - days_before yoe ->
  era_year_of (era_start yoe + doy) = yoe.
Proof.
  intros Hy Hd. assert (doy < 366) as Hd' by (rewrite days_before_step in Hd; destruct (leap _); lia).
  pose proof era_years_checked as Hc. rewrite forallb_forall in Hc. specialize (Hc (Z.to_nat yoe)).
  rewrite forallb_forall in Hc. specialize (Hc ltac:(apply in_seq; lia) (Z.to_nat doy) ltac:(apply in_seq; lia)).
  unfold era_year_ok in Hc. rewrite !Z2Nat.id in Hc by lia. apply orb_true_iff in Hc as [Hc|Hc]; [|by apply Z.eqb_eq].
  apply Z.leb_le in Hc. exfalso. unfold era_start, days_before in *.
  destruct (yoe =? 399) eqn:E; [apply Z.eqb_eq in E; subst yoe; Z.to_euclidean_division_equations; lia|apply Z.eqb_neq in E].
  rewrite (Z.div_small (yoe + 1) 400), (Z.div_small yoe 400) in Hd by lia. lia.
Qed.

Lemma narrow_id lo hi x : lo <= x <= hi -> narrow lo hi x = x.
Proof. intros Hx. unfold narrow. by replace ((lo <=? x) && (x <=? hi)) with true by lia. Qed.

Lemma i64_sat_id x : i64_min <= x <= i64_max -> i64_sat x = x.
Proof. unfold i64_sat, i64_min, i64_max. lia. Qed.

(** The month and the day of a day of the year that starts in March. *)
Lemma month_found d : valid_date d ->
  let mp := (5 * march_day d + 2) / 153 in
  mp + (if mp <? 10 then 3 else -9) = month d /\ march_day d - (153 * mp + 2) / 5 + 1 = day d.
Proof.
  intros [Hy Hm Hd]. unfold march_day. pose proof (days_in_month_bound (year d) (month d)).
  assert (month d = 2 -> day d <= 29) as H2 by (intros E; rewrite E, days_in_february in Hd by lia; destruct (leap _); lia).
  destruct d as [y m dd]. cbn [year month day] in *.
  by_month Hm; month_tables; try (specialize (H2 eq_refl));
    match goal with |- context [(5 * (?k + dd - 1) + 2) / 153] =>
      let j := eval vm_compute in ((5 * (k + 1 - 1) + 2) / 153) in
      replace ((5 * (k + dd - 1) + 2) / 153) with j by (apply Z.div_unique with (5 * (k + dd - 1) + 2 - 153 * j); lia)
    end; vm_compute (Z.ltb _ _); cbv zeta; (split; [reflexivity|]);
    match goal with |- context [(153 * ?j + 2) / 5] => let v := eval vm_compute in ((153 * j + 2) / 5) in change ((153 * j + 2) / 5) with v end; lia.
Qed.

Lemma era_split y : 0 <= y -> days_before y = 146097 * (y / 400) + era_start (y mod 400).
Proof. intros Hy. unfold days_before, era_start. Z.to_euclidean_division_equations. lia. Qed.

Lemma quot_pos a b : 0 <= a -> 0 < b -> Z.quot a b = a / b.
Proof. intros. by apply Z.quot_div_nonneg. Qed.

Lemma year_of_pos doe : 0 <= doe < 146097 -> 0 <= doe - doe / 1460 + doe / 36524 - doe / 146096.
Proof.
  intros. assert (doe / 146096 <= doe / 1460) by (apply Z.div_le_compat_l; lia).
  assert (0 <= doe / 36524) by (apply Z.div_pos; lia). pose proof (Z.mul_div_le doe 1460 ltac:(lia)).
  assert (0 <= doe / 1460) by (apply Z.div_pos; lia). lia.
Qed.

(** The day of the ledger is the calendar's: the transform from days since
    the epoch is the inverse of the ordinal of every date. *)
Theorem unix_days_are_dates d : valid_date d -> utc_date_from_unix_days (ordinal d - 719468) = Ok d.
Proof.
  intros Hd. pose proof Hd as [Hy Hm Hdd]. pose proof (month_found d Hd) as Hmonth. pose proof (march_day_bound d Hd) as Hmd.
  rewrite ordinal_days_before by done. fold (march_year d).
  replace (days_before (march_year d) + month_offset (month d) + day d - 1) with (days_before (march_year d) + march_day d) by (unfold march_day; lia).
  assert (0 <= march_year d <= 9999) as Hmy by (unfold march_year; destruct (month d <=? 2) eqn:?; lia).
  rewrite era_split by lia. set (r := march_year d mod 400). set (e := march_year d / 400).
  assert (0 <= r < 400) as Hr by (subst r; apply Z.mod_pos_bound; lia). assert (0 <= e <= 24) as He by (subst e; Z.to_euclidean_division_equations; lia).
  assert (march_year d = 400 * e + r) as Hsplit by (subst e r; apply Z.div_mod; lia).
  assert (0 <= march_day d < days_before (r + 1) - days_before r) as Hin.
  { rewrite Hsplit in Hmd. unfold days_before in *. clear -Hmd Hr. Z.to_euclidean_division_equations. lia. }
  pose proof (era_year_found r (march_day d) Hr Hin) as Hfound.
  assert (0 <= era_start r + march_day d < 146097) as Hdoe.
  { unfold days_before, era_start in *. clear -Hin Hr. Z.to_euclidean_division_equations. lia. }
  unfold utc_date_from_unix_days. replace (146097 * e + era_start r + march_day d - 719468 + 719468) with (146097 * e + (era_start r + march_day d)) by lia.
  set (doe := era_start r + march_day d) in *. cbv zeta. rewrite (i64_sat_id (146097 * e + doe)) by (unfold i64_min, i64_max; lia).
  replace (0 <=? 146097 * e + doe) with true by lia. rewrite (quot_pos (146097 * e + doe)) by lia.
  replace ((146097 * e + doe) / 146097) with e by (apply Z.div_unique with doe; lia).
  rewrite (i64_sat_id (e * 146097)), (i64_sat_id (e * 400)) by (unfold i64_min, i64_max; lia).
  replace (146097 * e + doe - e * 146097) with doe by lia. rewrite (i64_sat_id doe) by (unfold i64_min, i64_max; lia). rewrite !(quot_pos doe) by lia.
  rewrite (quot_pos (doe - _ + _ - _)) by (try lia; by apply year_of_pos).
  fold (era_year_of doe). rewrite Hfound, !(quot_pos r) by lia.
  replace (doe - (365 * r + r / 4 - r / 100)) with (march_day d) by (subst doe; unfold era_start; lia).
  rewrite i64_sat_id by (unfold i64_min, i64_max; lia). rewrite (quot_pos (5 * march_day d + 2)) by lia.
  set (mp := (5 * march_day d + 2) / 153) in *. assert (0 <= mp) by (subst mp; apply Z.div_pos; lia).
  rewrite (quot_pos (153 * mp + 2)) by lia. cbv zeta in Hmonth. destruct Hmonth as [-> ->].
  pose proof (days_in_month_bound (year d) (month d)). rewrite !narrow_id by (destruct (month d <=? 2); lia).
  apply new_valid. split; [|done]. destruct d as [y m dd]. cbn [year month day] in *. f_equal.
  unfold march_year in Hsplit. cbn [year month] in Hsplit. destruct (m <=? 2); lia.
Qed.

Theorem unix_days_are_dates_witness : utc_today 1709164800 = Ok leap_day.
Proof. apply (unix_days_are_dates leap_day), leap_day_valid. Defined.

(** ** What the operations that take no lease do to the backend

    A relation between backends that each of them respects. *)
Record steady {B} `{StateBackend B} (R : B -> B -> Prop) : Prop := {
  st_refl b : R b b;
  st_trans b1 b2 b3 : R b1 b2 -> R b2 b3 -> R b1 b3;
  st_admit b k c n : R b (sb_admit b k c n).1;
  st_reserve_tokens b k c t n : R b (sb_reserve_tokens b k c t n).1;
  st_reconcile b k c r t n : R b (sb_reconcile b k c r t n).1;
  st_rollback b k c r n : R b (sb_rollback b k c r n).1;
  st_add_tokens b k c t n : R b (sb_add_tokens b k c t n).1;
  st_snapshot b k c n : R b (sb_snapshot b k c n).1;
  st_record_cost b o : R b (sb_record_cost b o).1;
  st_cache_get b g k : R b (sb_shared_cache_get b g k).1;
  st_cache_put b q : R b (sb_shared_cache_put b q).1;
  st_record_canary b o w n : R b (sb_record_canary b o w n).1;
  st_canary_snapshot b r w n : R b (sb_canary_snapshot b r w n).1;
  st_trip_canary b r x h n : R b (sb_trip_canary b r x h n).1;
}.

Section Steady.
Context {B : Type} `{StateBackend B} (R : B -> B -> Prop) (HR : steady R).

Definition steady_op {X} (op : B -> B * X) : Prop := forall b, R b (op b).1.

Lemma steady_bind {X Y} (m : backend_op X) (k : X -> backend_op Y) :
  steady_op m -> (forall x, steady_op (k x)) -> steady_op (b_bind m k).
Proof.
  intros Hm Hk b. unfold b_bind. specialize (Hm b). destruct (m b) as [b' [x|e]]; [|done]. eapply (st_trans R HR); [done..|apply Hk].
Qed.

Lemma steady_ret {X} (x : X) : steady_op (b_ret x).
Proof. intros b. apply (st_refl R HR). Qed.

Hint Resolve steady_bind steady_ret : core.

Lemma steady_admit_limit limit now : steady_op (admit_limit limit now).
Proof. intros b. exact (st_admit R HR b _ _ _). Qed.
Hint Resolve steady_admit_limit : core.

Lemma steady_admit_opt limit now rest : steady_op rest -> steady_op (admit_opt limit now rest).
Proof. intros Hr. unfold admit_opt. destruct limit; [|done]. apply steady_bind; [done|]. intros r. destruct (negb _); auto. Qed.

Lemma steady_admit_global p now : steady_op (sa_admit_global p now).
Proof. unfold sa_admit_global. destruct (sa_global p); auto. Qed.

Lemma steady_admit_key p grant now : steady_op (sa_admit_key p grant now).
Proof. unfold sa_admit_key. destruct (key_limits_of p grant); [|auto]. by repeat apply steady_admit_opt. Qed.

Lemma steady_snapshot p grant now : steady_op (sa_snapshot p grant now).
Proof.
  unfold sa_snapshot. apply steady_bind; [|auto]. induction (shared_limits p grant) as [|l ls IH]; cbn; [auto|].
  apply steady_bind; [intros b; exact (st_snapshot R HR b _ _ _)|]. intros x. apply steady_bind; auto.
Qed.

Lemma steady_add_tokens p grant tokens now : steady_op (sa_add_tokens p grant tokens now).
Proof.
  unfold sa_add_tokens. induction (shared_limits p grant) as [|l ls IH]; cbn; [auto|].
  apply steady_bind; [intros b; exact (st_add_tokens R HR b _ _ _ _)|auto].
Qed.

Lemma steady_rollback entries now : steady_op (rollback_shared entries now).
Proof.
  induction entries as [|e es IH]; intros b; cbn; [apply (st_refl R HR)|]. pose proof (st_rollback R HR b (sl_key (st_limit e))
    (sl_config (st_limit e)) (st_reservation e) now) as Hr. destruct (sb_rollback _ _ _ _ _) as [b1 r]. specialize (IH b1).
  destruct (rollback_shared es now b1) as [b2 f]. by eapply (st_trans R HR).
Qed.

Lemma steady_reserve limits entries tokens now b degraded : R b (shared_reserve_loop limits entries tokens now b degraded).1.1.
Proof.
  revert entries b. induction limits as [|l ls IH]; intros entries b; cbn; [apply (st_refl R HR)|].
  pose proof (st_reserve_tokens R HR b (sl_key l) (sl_config l) tokens now) as Hr. destruct (sb_reserve_tokens _ _ _ _ _) as [b1 r].
  destruct r as [res|e].
  - destruct (negb (allowed (rate res))); [|by eapply (st_trans R HR)]. pose proof (steady_rollback (rev entries) now b1).
    destruct (rollback_shared _ _ _). by eapply (st_trans R HR).
  - pose proof (steady_rollback (rev entries) now b1). destruct (rollback_shared _ _ _). by eapply (st_trans R HR).
Qed.

Section Fleet.
Context (p : AccessPolicy) (shared : option SharedAccessPolicy).
Implicit Types f : Fleet B.

Lemma steady_or_locally {X} (op : backend_op X) local f : steady_op op -> R (ft_backend f) (ft_backend (or_locally op local f).1).
Proof.
  intros Ho. unfold or_locally, locally. specialize (Ho (ft_backend f)). destruct (op (ft_backend f)) as [b [x|e]]; [done|].
  cbn. by destruct (local (ft_limiters f)).
Qed.

Lemma steady_locally {X} (op : store -> store * result X RateLimitError) f : ft_backend (locally op f).1 = ft_backend f.
Proof. unfold locally. by destruct (op (ft_limiters f)). Qed.

Lemma steady_admit_shared_global now now' f : R (ft_backend f) (ft_backend (admit_shared_global p shared now now' f).1).
Proof.
  unfold admit_shared_global. destruct shared; [apply steady_or_locally, steady_admit_global|]. rewrite steady_locally. apply (st_refl R HR).
Qed.

Lemma steady_admit_shared_key grant now now' f : R (ft_backend f) (ft_backend (admit_shared_key p shared grant now now' f).1).
Proof.
  unfold admit_shared_key. destruct shared; [apply steady_or_locally, steady_admit_key|]. rewrite steady_locally. apply (st_refl R HR).
Qed.

Lemma steady_tightest grant now now' f : R (ft_backend f) (ft_backend (tightest_snapshot_shared p shared grant now now' f).1).
Proof.
  unfold tightest_snapshot_shared. destruct shared; [apply steady_or_locally, steady_snapshot|]. rewrite steady_locally. apply (st_refl R HR).
Qed.

Lemma steady_add_shared grant tokens now f : R (ft_backend f) (ft_backend (add_shared_tokens shared grant tokens now f).1).
Proof.
  unfold add_shared_tokens. destruct shared as [s|]; [|apply (st_refl R HR)]. pose proof (steady_add_tokens s grant tokens now (ft_backend f)).
  by destruct (sa_add_tokens _ _ _ _ _) as [b [x|e]].
Qed.

Lemma steady_reserve_tokens grant tokens now f : R (ft_backend f) (ft_backend (reserve_tokens p shared grant tokens now f).1).
Proof.
  unfold reserve_tokens, reserve_locally, sa_reserve_tokens.
  assert (forall f, ft_backend (locally (reserve_local_tokens p grant tokens now) f).1 = ft_backend f) as Hl by (intros; apply steady_locally).
  destruct shared as [s|].
  - pose proof (steady_reserve (List.filter has_tpm (shared_limits s grant)) [] tokens now (ft_backend f) (ft_degraded f)) as Hr.
    destruct (shared_reserve_loop _ _ _ _ _ _) as [[b dg] [dec|[|e]]]; cbn [fst snd] in *; [done| |done].
    match goal with |- context [locally ?op ?g] => specialize (Hl g); destruct (locally op g) end. cbn [fst] in *. by rewrite Hl.
  - specialize (Hl f). destruct (locally _ f). cbn [fst] in *. rewrite Hl. apply (st_refl R HR).
Qed.

Lemma steady_reconcile entries tokens now f : R (ft_backend f) (ft_backend (reconcile_entries entries tokens now f).1).
Proof.
  revert f. induction entries as [|[e|e] es IH]; intros f; cbn [reconcile_entries]; [apply (st_refl R HR)| |].
  - pose proof (steady_locally (on_arc (lt_limiter e) (fun s => reconcile_at s (lt_reservation e) tokens now)) f) as Hl.
    destruct (locally _ f) as [f1 [x|x]]; cbn [fst] in *; rewrite <- Hl; [apply IH|apply (st_refl R HR)].
  - pose proof (st_reconcile R HR (ft_backend f) (sl_key (st_limit e)) (sl_config (st_limit e)) (st_reservation e) tokens now) as Hr.
    destruct (sb_reconcile _ _ _ _ _ _) as [b [x|x]]; cbn [fst] in *; [|done]. eapply (st_trans R HR); [done|].
    exact (IH {| ft_backend := b; ft_limiters := ft_limiters f; ft_degraded := ft_degraded f |}).
Qed.
End Fleet.
End Steady.

(** ** Accounting over a steady relation *)
Section SteadyBooks.
Context {number : Type} `{JsonNumber number, JsonText number} {M : Type} `{IndexMap f64 M} {B : Type} `{StateBackend B}.
Context (A : Accounts M) (R : B -> B -> Prop) (HR : steady R).
Implicit Types b : Books B.

Definition books_steady (f : Books B -> Books B) : Prop := forall b, R (the_backend b) (the_backend (f b)).

Lemma steady_quietly {X} (op : B -> B * X) b : R (the_backend b) (op (the_backend b)).1 -> R (the_backend b) (the_backend (quietly op b)).
Proof. done. Qed.

Lemma steady_canary_outcome context ok route usage latency now : books_steady (record_canary_outcome A context ok route usage latency now).
Proof.
  intros b. unfold record_canary_outcome. destruct (negb _); [apply (st_refl R HR)|].
  set (b1 := quietly _ b). assert (R (the_backend b) (the_backend b1)) as Ha by (apply (st_record_canary R HR)). clearbody b1.
  pose proof (st_canary_snapshot R HR (the_backend b1) (cx_rollout_id context) (cn_window (ac_canary A)) now) as Hb.
  destruct (sb_canary_snapshot _ _ _ _) as [x [snapshot|e]]; [|by eapply (st_trans R HR)]. cbn [fst] in Hb.
  assert (R (the_backend b) x) as Hc by (by eapply (st_trans R HR)). destruct (tripwire _ _) as [t|]; [|done].
  pose proof (st_trip_canary R HR x (cx_rollout_id context) (Tripwire_as_str t) (rollback_hold (ac_canary A)) now) as Hd.
  change (the_backend (with_backend b1 x)) with x. destruct (sb_trip_canary _ _ _ _ _) as [y [u|e]]; by eapply (st_trans R HR).
Qed.

Lemma steady_finish_guard guard ok route usage latency now : books_steady (finish_guard A guard ok route usage latency now).
Proof. intros b. destruct guard; [apply steady_canary_outcome|apply (st_refl R HR)]. Qed.

Lemma steady_charge grant tokens now now' : books_steady (charge_tokens A grant tokens now now').
Proof.
  intros b. unfold charge_tokens. destruct (ac_policy A) as [p|]; [|apply (st_refl R HR)]. destruct grant as [g|]; [|apply (st_refl R HR)].
  destruct (uses_shared_state _); [|apply (st_refl R HR)].
  apply (steady_add_shared R HR (ac_shared A) g tokens now' (with_limiters (bk_fleet b) _)).
Qed.

Lemma steady_settle_tokens grant reservation estimated tokens now now' b :
  R (the_backend b) (the_backend (settle_tokens A grant reservation estimated tokens now now' b).1).
Proof.
  unfold settle_tokens. destruct reservation as [entries|]; [|apply steady_charge]. destruct estimated; [apply (st_refl R HR)|].
  destruct (ac_policy A); [|apply (st_refl R HR)]. pose proof (steady_reconcile R HR entries tokens now (bk_fleet b)).
  by destruct (reconcile_entries _ _ _ _).
Qed.

(** The accounting of a turn hands its lease back, once, and is steady besides. *)
Lemma usage_settles route id grant prompt completion estimated reservation lease seconds now now' b :
  exists b1, R (the_backend b) (the_backend b1) /\
    R (the_backend (settle_lease lease b1)) (the_backend (record_accounted_usage A route id grant prompt completion estimated
        reservation lease seconds now now' b).1).
Proof.
  unfold record_accounted_usage. destruct (turn_cost _ _ _ _ _ _) as [cost|e]; [|exists b; split; apply (st_refl R HR)].
  destruct (utc_today seconds) as [today|e]; [|exists b; split; apply (st_refl R HR)].
  set (b0 := with_ledger b _). change (the_backend b) with (the_backend b0). clearbody b0.
  set (b1 := if redis A b0 then _ else b0).
  assert (R (the_backend b0) (the_backend b1)) as Ha by (subst b1; destruct (redis A b0); [apply (st_record_cost R HR)|apply (st_refl R HR)]).
  clearbody b1. exists b1. split; [done|]. set (b2 := settle_lease lease b1). clearbody b2.
  pose proof (steady_settle_tokens grant reservation estimated (u64_sat_add (tc_prompt_tokens cost) (tc_completion_tokens cost)) now now' b2) as Hb.
  destruct (settle_tokens _ _ _ _ _ _ _) as [b3 [u|]]; exact Hb.
Qed.
End SteadyBooks.

(** ** A backend that writes down the leases it grants

    A grant adds a lease; handing one back removes it. *)
Inductive lease :=
| BudgetLease (r : SharedBudgetReservation)
| SlotLease (id : str).

#[export] Instance SharedBudgetScope_eq_dec : EqDecision SharedBudgetScope.
Proof. solve_decision. Defined.
#[export] Instance SharedBudgetReservation_eq_dec : EqDecision SharedBudgetReservation.
Proof. solve_decision. Defined.
#[export] Instance lease_eq_dec : EqDecision lease.
Proof. solve_decision. Defined.

Definition leased (B : Type) : Type := B * list lease.

Fixpoint hand_back (x : lease) (l : list lease) : list lease :=
  match l with
  | [] => []
  | y :: l => if bool_decide (x = y) then l else y :: hand_back x l
  end.

Definition unleased {B X} (op : B -> B * X) (t : leased B) : leased B * X := let '(b, r) := op t.1 in ((b, t.2), r).

Definition granting {B} (op : B -> B * result bool StateBackendError) (x : lease) (t : leased B)
    : leased B * result bool StateBackendError :=
  let '(b, r) := op t.1 in ((b, match r with Ok true => x :: t.2 | _ => t.2 end), r).

Definition returning {B X} (op : B -> B * X) (x : lease) (t : leased B) : leased B * X :=
  let '(b, r) := op t.1 in ((b, hand_back x t.2), r).

#[export] Instance leased_backend {B} `{StateBackend B} : StateBackend (leased B) := {
  backend_name t := backend_name t.1;
  sb_admit t key c now := unleased (fun b => sb_admit b key c now) t;
  sb_reserve t key c n now := unleased (fun b => sb_reserve b key c n now) t;
  sb_reserve_tokens t key c n now := unleased (fun b => sb_reserve_tokens b key c n now) t;
  sb_reconcile t key c r n now := unleased (fun b => sb_reconcile b key c r n now) t;
  sb_rollback t key c r now := unleased (fun b => sb_rollback b key c r now) t;
  sb_add_tokens t key c n now := unleased (fun b => sb_add_tokens b key c n now) t;
  sb_snapshot t key c now := unleased (fun b => sb_snapshot b key c now) t;
  sb_record_cost t o := unleased (fun b => sb_record_cost b o) t;
  sb_spend t w s d := unleased (fun b => sb_spend b w s d) t;
  sb_reserve_budget t r := granting (fun b => sb_reserve_budget b r) (BudgetLease r) t;
  sb_release_budget t r := returning (fun b => sb_release_budget b r) (BudgetLease r) t;
  sb_acquire_admission t n l m := granting (fun b => sb_acquire_admission b n l m) (SlotLease l) t;
  sb_release_admission t l := returning (fun b => sb_release_admission b l) (SlotLease l) t;
  sb_begin_provider_health t a n m q := unleased (fun b => sb_begin_provider_health b a n m q) t;
  sb_complete_provider_health t a n m q ok := unleased (fun b => sb_complete_provider_health b a n m q ok) t;
  sb_release_provider_health t a q := unleased (fun b => sb_release_provider_health b a q) t;
  sb_shared_cache_get t g k := unleased (fun b => sb_shared_cache_get b g k) t;
  sb_shared_cache_put t q := unleased (fun b => sb_shared_cache_put b q) t;
  sb_shared_cache_clear t g := unleased (fun b => sb_shared_cache_clear b g) t;
  sb_record_canary t o w now := unleased (fun b => sb_record_canary b o w now) t;
  sb_canary_snapshot t r w now := unleased (fun b => sb_canary_snapshot b r w now) t;
  sb_trip_canary t r x h now := unleased (fun b => sb_trip_canary b r x h now) t;
  sb_append_audit t k e n := unleased (fun b => sb_append_audit b k e n) t;
  sb_degraded t := sb_degraded t.1;
}.

(** What a count of leases obeys. *)
Record lease_laws {B} `{StateBackend B} (held : B -> list lease) : Prop := {
  ll_steady : steady (fun b b' => held b' = held b);
  ll_reserve b r : held (sb_reserve_budget b r).1 =
    match (sb_reserve_budget b r).2 with Ok true => BudgetLease r :: held b | _ => held b end;
  ll_release b r : held (sb_release_budget b r).1 = hand_back (BudgetLease r) (held b);
  ll_acquire b n id t : held (sb_acquire_admission b n id t).1 =
    match (sb_acquire_admission b n id t).2 with Ok true => SlotLease id :: held b | _ => held b end;
  ll_return b id : held (sb_release_admission b id).1 = hand_back (SlotLease id) (held b);
}.

Lemma unleased_same {B X} (op : B -> B * X) (t : leased B) : snd (unleased op t).1 = snd t.
Proof. unfold unleased. by destruct (op t.1). Qed.

Lemma leased_laws {B} `{StateBackend B} : lease_laws (B := leased B) snd.
Proof.
  constructor.
  - constructor; intros; try apply unleased_same; [done|congruence].
  - intros b r. cbn. unfold granting. by destruct (sb_reserve_budget _ _) as [x [[]|e]].
  - intros b r. cbn. unfold returning. by destruct (sb_release_budget _ _).
  - intros b n id t. cbn. unfold granting. by destruct (sb_acquire_admission _ _ _ _) as [x [[]|e]].
  - intros b id. cbn. unfold returning. by destruct (sb_release_admission _ _).
Qed.

(** ** What each operation leaves *)
Definition lease_list (l : option SharedBudgetReservation) : list lease := match l with Some r => [BudgetLease r] | None => [] end.
Definition slot_list (p : ObservedAdmissionPermit) : list lease := match ap_lease p with Some id => [SlotLease id] | None => [] end.

Section Leases.
Context {number : Type} `{JsonNumber number, JsonText number} {M : Type} `{IndexMap f64 M} {B : Type} `{StateBackend B}.
Context (A : Accounts M) (held : B -> list lease) (HL : lease_laws held).
Implicit Types b : Books B.

Definition leases_of b : list lease := held (the_backend b).

Lemma hand_back_here x l : hand_back x (x :: l) = l.
Proof. cbn. by rewrite bool_decide_eq_true_2. Qed.

Lemma settle_lease_leases l p rest b : leases_of b = slot_list p ++ lease_list l ++ rest -> leases_of (settle_lease l b) = slot_list p ++ rest.
Proof.
  intros Hb. unfold leases_of, settle_lease in *. destruct l as [r|]; [|done].
  change (the_backend (quietly _ b)) with (sb_release_budget (the_backend b) r).1. rewrite (ll_release held HL), Hb. unfold slot_list.
  destruct (ap_lease p); cbn; [rewrite bool_decide_eq_false_2 by done; cbn|]; by rewrite bool_decide_eq_true_2.
Qed.

Lemma settle_lease_head l rest b : leases_of b = lease_list l ++ rest -> leases_of (settle_lease l b) = rest.
Proof. intros Hb. apply (settle_lease_leases l {| ap_lease := None |}). done. Qed.

Lemma drop_permit_leases p rest b : leases_of b = slot_list p ++ rest -> leases_of (drop_permit p b) = rest.
Proof.
  intros Hb. unfold leases_of, drop_permit, slot_list in *. destruct (ap_lease p) as [id|]; [|done].
  set (b1 := with_metrics b _). change (the_backend b) with (the_backend b1) in Hb.
  change (the_backend (quietly _ b1)) with (sb_release_admission (the_backend b1) id).1. rewrite (ll_return held HL), Hb. apply hand_back_here.
Qed.

Lemma reserve_budget_leases id estimate body ws key offline seconds b :
  let '(b', r) := reserve_shared_budget A id estimate (body : Value number) ws key offline seconds b in
  leases_of b' = match r with BudgetReserved l => BudgetLease l :: leases_of b | _ => leases_of b end.
Proof.
  unfold reserve_shared_budget. destruct (negb _ || _); [done|]. destruct (shared_scopes _ _ _ _) as [|sc scs]; [done|].
  destruct (turn_cost _ _ _ _ _ _) as [cost|e]; [|done]. destruct (utc_today seconds) as [date|e]; [|done].
  set (r := {| br_request_id := id |}). pose proof (ll_reserve held HL (the_backend b) r) as Hr.
  by destruct (sb_reserve_budget (the_backend b) r) as [x [[]|e]].
Qed.

Lemma acquire_leases id acquired b :
  let '(b', r) := acquire_delivery A id acquired b in
  leases_of b' = match r with Ok p => slot_list p ++ leases_of b | Err _ => leases_of b end.
Proof.
  unfold acquire_delivery. destruct acquired as [waited|e]; [|done]. destruct (redis A b); [|done].
  pose proof (ll_acquire held HL (the_backend b) (ac_max_in_flight A) id SHARED_ADMISSION_TTL_MS) as Hr.
  by destruct (sb_acquire_admission _ _ _ _) as [x [[]|e]].
Qed.

Lemma usage_leases route id grant prompt completion estimated reservation l seconds now now' p rest b :
  leases_of b = slot_list p ++ lease_list l ++ rest ->
  leases_of (record_accounted_usage A route id grant prompt completion estimated reservation l seconds now now' b).1 = slot_list p ++ rest.
Proof.
  intros Hb. destruct (usage_settles A (fun x y => held y = held x) (ll_steady held HL) route id grant prompt completion estimated reservation l seconds now now' b)
    as (b1 & Ha & Hc). unfold leases_of at 1. rewrite Hc. apply settle_lease_leases. unfold leases_of in *. by rewrite Ha.
Qed.
End Leases.
