(* ===== verification/Serving.v ===== *)
(** * Serving a chat request (crate [wayfinder-gateway], [chat_completions] of [src/lib.rs])

    The handler around the decision and the plan of [Chat]: who may ask, the
    headers of the answer, the record of the decision, the cache, the budget
    lease, the delivery permit, the token reservation, buffered delivery, and
    the accounting that follows.  A streamed request is handed on with all it
    holds, to [Streaming].  What a Rust value does when it goes out of scope is written where
    it happens.  The answers of the shared backend that the decision reads (the
    spend of a budget, the snapshot of a canary) are the environment's, as in
    [Chat]; those that grant or release something go through [StateBackend].
    The log lines, the shadow job and poisoned locks are not modelled. *)
From S2P Require Export Accounting ChatDelivery CacheKey.

Definition ROUTER_MODEL_HEADER : str := lit "x-wayfinder-router-model".
Definition ROUTER_SCORE_HEADER : str := lit "x-wayfinder-router-score".
Definition ROUTER_MODE_HEADER : str := lit "x-wayfinder-router-mode".
Definition ROUTER_REQUEST_ID_HEADER : str := lit "x-wayfinder-router-request-id".
Definition ROUTER_POLICY_VERSION_HEADER : str := lit "x-wayfinder-policy-version".
Definition ROUTER_SNAPSHOT_ID_HEADER : str := lit "x-wayfinder-policy-snapshot".
Definition ROUTER_POLICY_PROFILE_HEADER : str := lit "x-wayfinder-policy-profile".
Definition ROUTER_WORKSPACE_HEADER : str := lit "x-wayfinder-router-workspace".
Definition ROUTER_OFFLINE_HEADER : str := lit "x-wayfinder-router-offline".
Definition ROUTER_DECISION_ONLY_HEADER : str := lit "x-wayfinder-router-decision-only".
Definition ROUTER_RATE_LIMIT_HEADER : str := lit "x-wayfinder-router-rate-limit".
Definition ROUTER_BUDGET_HEADER : str := lit "x-wayfinder-router-budget".
Definition ROUTER_FAILOVER_HEADER : str := lit "x-wayfinder-router-failover".
Definition RATE_LIMIT_LIMIT_HEADER : str := lit "x-ratelimit-limit".
Definition RATE_LIMIT_REMAINING_HEADER : str := lit "x-ratelimit-remaining".
Definition RATE_LIMIT_RESET_HEADER : str := lit "x-ratelimit-reset".
Definition ROUTER_CACHE_HEADER : str := lit "x-wayfinder-router-cache".
Definition ROUTER_OVERLOAD_HEADER : str := lit "x-wayfinder-router-overload".
Definition ROUTER_ROUTE_HEADER : str := lit "x-wayfinder-router-route".
Definition ROUTER_DEPLOYMENT_HEADER : str := lit "x-wayfinder-router-deployment".
Definition ROUTER_DEPLOYMENT_SELECTION_HEADER : str := lit "x-wayfinder-router-deployment-selection".
Definition ROUTER_PRIVACY_POSTURE_HEADER : str := lit "x-wayfinder-router-privacy-posture".
Definition DEBUG_HEADER : str := lit "x-wayfinder-debug".
Definition ROUTER_SERVED_BY_HEADER : str := lit "x-wayfinder-router-served-by".
Definition CANARY_RESPONSE_HEADER : str := lit "x-wayfinder-router-canary".

(** [header::CONTENT_TYPE] and the others of the HTTP library. *)
Definition CONTENT_TYPE : str := lit "content-type".
Definition RETRY_AFTER : str := lit "retry-after".
Definition AUTHORIZATION : str := lit "authorization".
Definition WWW_AUTHENTICATE : str := lit "www-authenticate".

(** ** The decision, for the client *)
Record CostResponse := {
  cr_per_call : f64;
  cr_baseline : f64;
  cr_saved : f64;
  cr_unit : str;
  cr_estimated : bool;
  cr_word_count : Z;
}.

Record DecisionResponse := {
  dr_model : str;
  dr_score : f64;
  dr_mode : str;
  dr_offline : bool;
  dr_request_id : str;
  dr_features : Features;
  dr_contributions : list FeatureContribution;
  dr_tiers : option (list Tier);
  dr_cost : CostResponse;
  dr_dry_run : option bool;
  dr_decision_only : option bool;
}.

(** The rates of the configured models, and of the tiers they leave out. *)
Definition configured_rates (models : list ConfiguredModel) (tiers : option (list Tier)) : btree f64 :=
  let rates := foldl (fun m model => match m_cost_per_1k model with Some cost => bt_insert m (m_name model) cost | None => m end)
                 [] models in
  foldl (fun m tier =>
           match tier_cost tier with
           | Some cost =>
               if f64_is_finite cost && f64_ge cost f64_zero && negb (bt_contains m (tier_model tier))
               then bt_insert m (tier_model tier) cost else m
           | None => m
           end) rates (default [] tiers).

(** Without rates, a ladder from 0.2 to 1. *)
Definition assumed_rates (tiers : option (list Tier)) (chosen : str) : btree f64 :=
  let ladder := match map tier_model (default [] tiers) with [] => [chosen] | ladder => ladder end in
  let denominator := f64_of_Z (Z.max (len ladder - 1) 1) in
  foldl (fun m '(index, model) =>
           bt_insert m model
             (python_round (f64_add (f64_dec 2 1) (f64_div (f64_mul (f64_dec 8 1) (f64_of_Z (Z.of_nat index))) denominator)) 3))
    [] (imap pair ladder).

Definition cost_response (models : list ConfiguredModel) (decision : ComplexityScore) (chosen : str) : CostResponse :=
  let configured := configured_rates models (cs_tiers decision) in
  let estimated := match configured with [] => true | _ => false end in
  let rates := if estimated then assumed_rates (cs_tiers decision) chosen else configured in
  let baseline_per_1k := foldl f64_max f64_zero (bt_values rates) in
  let chosen_per_1k := default baseline_per_1k (bt_get rates chosen) in
  let words := word_count (cs_features decision) in
  let scale := f64_div (f64_of_Z words) (f64_of_Z 1000) in
  let per_call := python_round (f64_mul chosen_per_1k scale) 6 in
  let baseline := python_round (f64_mul baseline_per_1k scale) 6 in
  {| cr_per_call := per_call; cr_baseline := baseline; cr_saved := python_round (f64_sub baseline per_call) 6;
     cr_unit := if estimated then lit "relative units / 1k words" else lit "$ / 1k words";
     cr_estimated := estimated; cr_word_count := words |}.

(** [then_some(true)]. *)
Definition some_true (b : bool) : option bool := if b then Some true else None.

Section Decision.
Context {number : Type}.

Definition make_decision_response (models : list ConfiguredModel) (routing : RoutingConfig) (d : ChatDecision (number := number))
    (dry_run decision_only : bool) : DecisionResponse :=
  {| dr_model := dc_chosen d; dr_score := cs_score (dc_scored d); dr_mode := mode_as_str (dc_mode d); dr_offline := dc_offline d;
     dr_request_id := rq_request_id (dc_request d); dr_features := cs_features (dc_scored d);
     dr_contributions := explain_score (cs_features (dc_scored d)) (cfg_weights routing); dr_tiers := cs_tiers (dc_scored d);
     dr_cost := cost_response models (dc_scored d) (dc_chosen d);
     dr_dry_run := some_true dry_run; dr_decision_only := some_true decision_only |}.
End Decision.

(** ** Answers *)

(** The identities of the policy in force, as [DecisionPolicyReceipt]. *)
Record DecisionPolicyReceipt := {
  rc_version : str;
  rc_snapshot_id : str;
  rc_profile_id : option str;
}.

Definition UNMANAGED_POLICY_ID : str := lit "unmanaged".
Definition UNMANAGED_SNAPSHOT_ID : str := lit "unmanaged".

(** The readings of one request: the seconds since the epoch, the clocks of the
    limiters and of the cache, the answer of [AdmissionPolicy::acquire], what
    the canary guard measures. *)
Record Readings := {
  rd_seconds : Z;
  rd_timestamp : f64;
  rd_decided_in : f64;
  rd_limiters : f64;
  rd_limiters_after : f64;
  rd_cache_get : f64;
  rd_cache_put : f64;
  rd_acquired : result f64 AdmissionError;
  rd_latency_ms : Z;
}.

Section Serving.
Context {number : Type} `{JsonNumber number, JsonText number} {M MC : Type} `{IndexMap f64 M, IndexMap StoredResponse MC}.
Context {BH B : Type} `{SharedHealth BH, StateBackend B}.
Context (parse_url : str -> option Url) (to_lowercase : str -> str) (compiled : result Patterns str) (sha256 : list Z -> list Z).
Context (HeaderValue_from_str : str -> option (list Z)) (to_json : DecisionResponse -> Value number).
Context (encode_shared : CachedResponse -> option (list Z)) (decode_shared : list Z -> option CachedResponse).

(** The state the handler reads, besides [GatewayState]. *)
Context (s : GatewayState) (env : ChatEnv) (prices : PriceTable M) (shared_access : option SharedAccessPolicy).
Context (shared_backend has_delivery shared_cache : bool) (max_in_flight queue_timeout_secs : Z) (generation : str)
        (cache_settings : CacheSettings) (receipt : DecisionPolicyReceipt).

(** The environment of a delivery. *)
Context (env_send : nat -> ConfiguredModel -> result BufferedDeliveryResponse DeliveryError).
Context (env_elapsed env_clock env_signal_clock : nat -> f64) (shared_health : bool).

Definition accounts : Accounts M :=
  {| ac_prices := prices; ac_policy := gs_access_policy s; ac_shared := shared_access; ac_backend := shared_backend;
     ac_budgets := gs_budget_policy s; ac_canary := gs_canary s; ac_max_in_flight := max_in_flight |}.

Record Serving := {
  sv_world : World (B := BH);
  sv_books : Books B;
  sv_cache : Cache.State MC;
}.
Implicit Types sv : Serving.

Definition on_books (f : Books B -> Books B) sv : Serving :=
  {| sv_world := sv_world sv; sv_books := f (sv_books sv); sv_cache := sv_cache sv |}.
Definition on_metrics (f : GatewayMetrics -> GatewayMetrics * result unit MetricsError) (b : Books B) : Books B := with_metrics b (f (bk_metrics b)).1.
Definition on_recent (f : RecentRoutes -> bool * RecentRoutes) (b : Books B) : Books B := with_recent b (f (bk_recent b)).2.

(** What a streamed request is handed with. *)
Record StreamingChatInput := {
  si_headers : HeaderMap;
  si_plan : list str;
  si_decision : ChatDecision (number := number);
  si_access_grant : option AccessGrant;
  si_initial_event : option DecisionResponse;
  si_permit : ObservedAdmissionPermit;
  si_token_reservation : option (list TokenReservationEntry);
  si_shared_budget : option SharedBudgetReservation;
  si_canary_guard : option CanaryContext;
}.

Inductive answer_body :=
| ErrorAnswer (kind : str) (c : cause)
| DecisionAnswer (d : DecisionResponse)
| Bytes (body : list Z)
| StreamAnswer (input : StreamingChatInput).

Record Response := {
  rs_status : Z;
  rs_headers : HeaderMap;
  rs_body : answer_body;
}.

(** [error_response]. *)
Definition error_response (status : Z) (kind : string) (c : cause) (headers : HeaderMap) : Response :=
  {| rs_status := status; rs_headers := headers; rs_body := ErrorAnswer (lit kind) c |}.

Definition insert_header (headers : HeaderMap) (name value : str) : result HeaderMap message :=
  match HeaderValue_from_str value with
  | Some bytes => Ok (ix_insert headers name bytes)
  | None => Err (Msg "configured routing value for {name} is not a valid HTTP header" [ArgStr name])
  end.

(** [HeaderValue::from_static]. *)
Definition insert_static (headers : HeaderMap) (name value : str) : HeaderMap := ix_insert headers name value.

Fixpoint insert_all (headers : HeaderMap) (l : list (str * str)) : result HeaderMap message :=
  match l with
  | [] => Ok headers
  | (name, value) :: l => let? headers := insert_header headers name value in insert_all headers l
  end.

Definition request_id_headers (request_id : str) : HeaderMap :=
  match HeaderValue_from_str request_id with Some bytes => [(ROUTER_REQUEST_ID_HEADER, bytes)] | None => [] end.

Definition refused (r : Refusal) (headers : HeaderMap) : Response :=
  {| rs_status := rf_status r; rs_headers := headers; rs_body := ErrorAnswer (rf_kind r) (rf_cause r) |}.

Definition state_error (m : message) (headers : HeaderMap) : Response :=
  error_response 500 "wayfinder_router_state_error" (CauseText m) headers.
Definition misconfigured (m : message) (headers : HeaderMap) : Response :=
  error_response 500 "wayfinder_router_misconfigured" (CauseText m) headers.

Definition access_state_error (request_id : str) : Response :=
  state_error (Msg "{access policy error}" []) (request_id_headers request_id).

Definition limit_name (r : RateResult) : str :=
  match limited_by r with Some kind => LimitKind_as_str kind | None => lit "rpm" end.

Definition rate_limited_response (r : RateResult) (request_id : str) : Response :=
  let headers := insert_static (request_id_headers request_id) ROUTER_RATE_LIMIT_HEADER (limit_name r) in
  let headers := match HeaderValue_from_str (show_digits (retry_after_seconds r)) with
                 | Some bytes => ix_insert headers RETRY_AFTER bytes
                 | None => headers
                 end in
  error_response 429 "wayfinder_router_rate_limited" (CauseText (Msg "{limit} rate limit exceeded" [ArgStr (limit_name r)])) headers.

(** The metrics a refused limit counts. *)
Definition count_rate_limited (r : RateResult) (b : Books B) : Books B :=
  on_metrics (fun m => observe_rate_limited m (limit_name r)) b.

Definition overload_reason (e : AdmissionError) : option (str * Z) :=
  match e with
  | QueueFull => Some (lit "queue-full", 1)
  | QueueTimedOut => Some (lit "queue-timeout", Z.max queue_timeout_secs 1)
  | SharedLimit => Some (lit "fleet-limit", 1)
  | _ => None
  end.

Definition admission_error_response (e : AdmissionError) (headers : HeaderMap) (b : Books B) : Books B * Response :=
  match overload_reason e with
  | None => (b, state_error (Msg "{admission error}" []) headers)
  | Some (reason, retry_after) =>
      let headers := insert_static headers ROUTER_OVERLOAD_HEADER reason in
      let headers := match HeaderValue_from_str (show_digits retry_after) with
                     | Some bytes => ix_insert headers RETRY_AFTER bytes
                     | None => headers
                     end in
      (on_metrics (fun m => observe_admission_rejected m reason) b,
       error_response 503 "wayfinder_router_overloaded" (CauseText (Msg "{admission error}" [])) headers)
  end.

(** ** Who asks *)
Definition set_degraded_gauge (b : Books B) : Books B := on_metrics (fun m => set_degraded m (gateway_degraded accounts b)) b.

(** The answer to a limiter: [k] when it lets the request through. *)
Definition when_admitted {X} (request_id : str) (r : result (option RateResult) AccessPolicyError)
    (k : Books B -> Books B * result X Response) (b : Books B) : Books B * result X Response :=
  match r with
  | Err _ => (b, Err (access_state_error request_id))
  | Ok (Some limited) =>
      if negb (allowed limited) then (count_rate_limited limited b, Err (rate_limited_response limited request_id)) else k b
  | Ok None => k b
  end.

Definition unauthorized (request_id : str) : Response :=
  error_response 401 "wayfinder_router_unauthorized" (CauseText (Msg "missing or invalid API key" []))
    (insert_static (request_id_headers request_id) WWW_AUTHENTICATE (lit "Bearer")).

(** [preflight_access]: the gateway's limit, the credential, the key's limits. *)
Definition preflight_access (headers : HeaderMap) (request_id : str) (now now' : f64) (b : Books B)
    : Books B * result (option AccessGrant) Response :=
  match gs_access_policy s with
  | None => (b, Ok None)
  | Some policy =>
      let '(f, r) := admit_shared_global policy shared_access now now' (bk_fleet b) in
      when_admitted request_id r
        (fun b =>
           match authenticate sha256 policy (ix_get headers AUTHORIZATION ≫= header_to_str) with
           | None => (b, Err (unauthorized request_id))
           | Some grant =>
               let b := match key_id policy grant with
                        | Some id => on_metrics (fun m => observe_key_request m id) b
                        | None => b
                        end in
               let '(f, r) := admit_shared_key policy shared_access grant now now' (bk_fleet b) in
               when_admitted request_id r (fun b => (b, Ok (Some grant))) (set_degraded_gauge (with_fleet b f))
           end)
        (with_fleet b f)
  end.

(** ** The headers of a decision *)
Definition decision_headers (d : ChatDecision (number := number)) : result HeaderMap message :=
  let? headers := insert_all []
    [(ROUTER_MODEL_HEADER, dc_chosen d); (ROUTER_SCORE_HEADER, fixed_text (cs_score (dc_scored d)) 2);
     (ROUTER_MODE_HEADER, mode_as_str (dc_mode d)); (ROUTER_REQUEST_ID_HEADER, rq_request_id (dc_request d))] in
  let? headers :=
    if str_eqb (rc_version receipt) UNMANAGED_POLICY_ID then Ok headers
    else insert_all headers
           ([(ROUTER_POLICY_VERSION_HEADER, rc_version receipt); (ROUTER_SNAPSHOT_ID_HEADER, rc_snapshot_id receipt)]
            ++ match rc_profile_id receipt with Some id => [(ROUTER_POLICY_PROFILE_HEADER, id)] | None => [] end) in
  Ok (if dc_offline d then insert_static headers ROUTER_OFFLINE_HEADER (lit "true") else headers).

Definition snapshot_headers (snapshot : option RateSnapshot) : list (str * str) :=
  match snapshot with
  | Some x => [(RATE_LIMIT_LIMIT_HEADER, show_digits (snap_limit x)); (RATE_LIMIT_REMAINING_HEADER, show_digits (snap_remaining x));
               (RATE_LIMIT_RESET_HEADER, show_digits (snap_reset_seconds x))]
  | None => []
  end.

(** The headers that describe the request's route, before the limits. *)
Definition route_headers (d : ChatDecision (number := number)) : result HeaderMap message :=
  let? headers := decision_headers d in
  let? headers := insert_header headers ROUTER_PRIVACY_POSTURE_HEADER (privacy_posture_name (rq_privacy_posture (dc_request d))) in
  let headers := if dc_budget_degraded d then insert_static headers ROUTER_BUDGET_HEADER (lit "degraded") else headers in
  let? headers := if dc_canary d then insert_header headers CANARY_RESPONSE_HEADER (rollout_id (gs_canary s)) else Ok headers in
  match dc_preset_name d with
  | Some name => insert_header headers ROUTER_ROUTE_HEADER (ROUTE_PRESET_PREFIX ++ name)
  | None => Ok headers
  end.

(** All of them, with the workspace and the tightest limit of the grant. *)
Definition routing_headers (grant : option AccessGrant) (d : ChatDecision (number := number)) (now now' : f64) (b : Books B)
    : Books B * result HeaderMap Response :=
  let errors := request_id_headers (rq_request_id (dc_request d)) in
  match route_headers d with
  | Err m => (b, Err (misconfigured m errors))
  | Ok headers =>
      match gs_access_policy s, grant with
      | Some policy, Some grant =>
          let workspace :=
            match workspace_id policy grant with
            | None => Ok headers
            | Some w => match HeaderValue_from_str w with
                        | Some bytes => Ok (ix_insert headers ROUTER_WORKSPACE_HEADER bytes)
                        | None => Err (Msg "workspace id cannot be represented as a response header" [])
                        end
            end in
          match workspace with
          | Err m => (b, Err (misconfigured m errors))
          | Ok headers =>
              let '(f, r) := tightest_snapshot_shared policy shared_access grant now now' (bk_fleet b) in
              let b := set_degraded_gauge (with_fleet b f) in
              match r with
              | Err _ => (b, Err (state_error (Msg "{access policy error}" []) errors))
              | Ok snapshot => (b, map_err (fun m => state_error m errors) (insert_all headers (snapshot_headers snapshot)))
              end
          end
      | _, _ => (b, Ok headers)
      end
  end.

(** ** The record of a decision *)
Definition managed (unmanaged id : str) : option str := if str_eqb id unmanaged then None else Some id.

Definition decision_entry (grant : option AccessGrant) (d : ChatDecision (number := number)) (timestamp : f64) : RecentEntry :=
  {| request_id := rq_request_id (dc_request d); re_model := dc_chosen d; re_score := python_round (cs_score (dc_scored d)) 2;
     re_mode := mode_as_str (dc_mode d); policy_version := managed UNMANAGED_POLICY_ID (rc_version receipt);
     snapshot_id := managed UNMANAGED_SNAPSHOT_ID (rc_snapshot_id receipt); policy_profile := rc_profile_id receipt;
     served_by := None; execution_boundary := None; outcome := None; user_outcome := None; http_status := None;
     error_type := None; re_ts := timestamp; re_cost := None; re_key := chat_key_id s grant;
     re_workspace := chat_workspace_id s grant; re_cache := None |}.

Definition record_decision (grant : option AccessGrant) (d : ChatDecision (number := number)) (rd : Readings) (b : Books B) : Books B :=
  let b := with_recent b (Recent.record (bk_recent b) (decision_entry grant d (rd_timestamp rd))) in
  on_metrics (fun m => observe_decision m (dc_chosen d) (mode_as_str (dc_mode d)) (rd_decided_in rd)) b.

Definition decision_only_response (d : ChatDecision (number := number)) (headers : HeaderMap) : Response :=
  let dry_run := gs_dry_run s in
  {| rs_status := 200;
     rs_headers := if dry_run then headers else insert_static headers ROUTER_DECISION_ONLY_HEADER (lit "true");
     rs_body := DecisionAnswer (make_decision_response (gs_models s) (dc_routing d) d dry_run (negb dry_run)) |}.

(** ** The cache *)
Definition cache_enabled sv : bool :=
  if shared_cache then Cache.enabled cache_settings else Cache.enabled (settings (sv_cache sv)).

Definition get_cached_response (key : str) (now : f64) sv : Serving * result (option CachedResponse) CacheError :=
  if shared_cache then
    if negb shared_backend then (sv, Ok None)
    else
      let '(x, r) := sb_shared_cache_get (the_backend (sv_books sv)) generation key in
      (on_books (fun b => with_backend b x) sv, Ok (match r with Ok value => value | Err _ => None end ≫= decode_shared))
  else
    let '(c, r) := get_at (sv_cache sv) key now in
    ({| sv_world := sv_world sv; sv_books := sv_books sv; sv_cache := c |}, r).

(** Its answer is ignored. *)
Definition put_cached_response (key : str) (response : CachedResponse) (now : f64) sv : Serving :=
  if shared_cache then
    match encode_shared response with
    | Some value =>
        if negb shared_backend then sv
        else
          on_books (quietly (fun x => sb_shared_cache_put x
            {| cp_generation := generation; cp_key := key; cp_value := value; cp_body_bytes := len (Cache.body response);
               cp_ttl_seconds := ttl_seconds cache_settings; cp_max_entries := max_entries cache_settings;
               cp_max_bytes := max_bytes cache_settings |})) sv
    | None => sv
    end
  else {| sv_world := sv_world sv; sv_books := sv_books sv; sv_cache := (put_at (sv_cache sv) key response now).1 |}.

Definition wants_debug (headers : HeaderMap) : bool :=
  match request_header headers DEBUG_HEADER with
  | Ok (Some value) => existsb (str_eqb (to_lowercase (trim value))) (map lit ["1"; "true"; "yes"]%string)
  | _ => false
  end.

(** The partition and the route of a cache key. *)
Definition cache_partition (grant : option AccessGrant) (d : ChatDecision (number := number)) : str :=
  default (lit "local") (chat_key_id s grant) ++ lit ":" ++ privacy_posture_name (rq_privacy_posture (dc_request d)).

Definition cache_route (d : ChatDecision (number := number)) : str :=
  match dc_preset_name d with
  | Some name => ROUTE_PRESET_PREFIX ++ name
  | None => mode_as_str (dc_mode d) ++ lit ":" ++ delivery_name d
  end.

Definition is_codex (m : ConfiguredModel) : bool := match m_provider m with CodexAppServer => true | _ => false end.

Definition request_key (grant : option AccessGrant) (d : ChatDecision (number := number)) (target : ConfiguredModel) : result str KeyError :=
  cache_key_with_version sha256 generation (cache_partition grant d) (cache_route d) (m_provider_model target) (JObject (dc_body d)).

Definition avoided_cost (route : str) (cached : CachedResponse) : f64 :=
  match turn_cost route (Z.min (Cache.prompt_tokens cached) i64_max) (Z.min (Cache.completion_tokens cached) i64_max) (costs prices)
          (Cache.estimated cached) None with
  | Ok cost => tc_realized cost
  | Err _ => f64_zero
  end.

(** The answer from the cache, and its record. *)
Definition cache_hit (d : ChatDecision (number := number)) (headers : HeaderMap) (cached : CachedResponse) sv : Serving * Response :=
  let id := rq_request_id (dc_request d) in
  let sv := on_books (fun b =>
    let b := on_metrics (fun m => observe_cache_hit m (avoided_cost (delivery_name d) cached)) b in
    let b := on_recent (fun r => update_cache r id (lit "hit")) b in
    on_recent (fun r => update_delivery r id (delivery_name d) OnDevice CacheHit (Some (Cache.status cached)) None) b) sv in
  let status := Cache.status cached in
  if negb ((100 <=? status) && (status <? 1000)) then (sv, state_error (Msg "invalid status code" []) headers)
  else
    match insert_header headers ROUTER_SERVED_BY_HEADER (delivery_name d) with
    | Err m => (sv, misconfigured m (request_id_headers id))
    | Ok headers =>
        let headers := insert_static headers ROUTER_CACHE_HEADER (lit "hit") in
        let content_type := default (lit "application/json") (HeaderValue_from_str (Cache.content_type cached)) in
        (sv, {| rs_status := status; rs_headers := ix_insert headers CONTENT_TYPE content_type; rs_body := Bytes (Cache.body cached) |})
    end.

(** What the lookup leaves: an answer, or whether a miss was counted. *)
Definition consult_cache (grant : option AccessGrant) (headers : HeaderMap) (d : ChatDecision (number := number))
    (target : ConfiguredModel) (rheaders : HeaderMap) (rd : Readings) sv : Serving * (Response + bool) :=
  if negb (cache_enabled sv && negb (is_codex target) && negb (wants_debug headers) && is_cacheable (JObject (dc_body d)))
  then (sv, inr false)
  else
    match request_key grant d target with
    | Err _ => (sv, inl (state_error (Msg "{cache error}" []) rheaders))
    | Ok key =>
        let '(sv, r) := get_cached_response key (rd_cache_get rd) sv in
        match r with
        | Err _ => (sv, inl (state_error (Msg "{cache error}" []) rheaders))
        | Ok (Some cached) => let '(sv, answer) := cache_hit d rheaders cached sv in (sv, inl answer)
        | Ok None => (on_books (on_metrics observe_cache_miss) sv, inr true)
        end
    end.

(** A delivered response that may be replayed is stored under the model that
    served it. *)
Definition store_response (grant : option AccessGrant) (d : ChatDecision (number := number)) (served_by : str)
    (r : BufferedDeliveryResponse) (usage : AccountedUsage) (rd : Readings) sv : Serving :=
  if negb (is_storable (br_status r) (br_content_type r) (response_json (br_content_type r) (br_body r))) then sv
  else
    match find_model (gs_models s) served_by with
    | None => sv
    | Some served =>
        if is_codex served then sv
        else
          match request_key grant d served with
          | Err _ => sv
          | Ok key =>
              put_cached_response key
                {| Cache.status := br_status r; Cache.content_type := br_content_type r; Cache.body := br_body r;
                   Cache.prompt_tokens := au_prompt_tokens usage; Cache.completion_tokens := au_completion_tokens usage;
                   Cache.estimated := au_estimated usage |} (rd_cache_put rd) sv
          end
    end.

(** ** What a request holds *)
Record Held := {
  hd_permit : option ObservedAdmissionPermit;
  hd_lease : option SharedBudgetReservation;
  hd_guard : option CanaryContext;
}.

(** The drops of a return: the permit, the lease, the guard. *)
Definition let_go (held : Held) (rd : Readings) (b : Books B) : Books B :=
  let b := match hd_permit held with Some permit => drop_permit permit b | None => b end in
  let b := settle_lease (hd_lease held) b in
  drop_guard accounts (hd_guard held) (rd_latency_ms rd) (rd_timestamp rd) b.

Definition answering (held : Held) (rd : Readings) (answer : Response) sv : Serving * Response :=
  (on_books (let_go held rd) sv, answer).

Definition canary_guard (d : ChatDecision (number := number)) : option CanaryContext :=
  if dc_canary d then
    Some {| cx_request_id := rq_request_id (dc_request d); cx_rollout_id := rollout_id (gs_canary s);
            cx_baseline_route := dc_baseline d; cx_candidate_route := dc_chosen d |}
  else None.

(** ** Token reservations *)
Definition reserve_request_tokens (grant : option AccessGrant) (d : ChatDecision (number := number)) (rheaders : HeaderMap)
    (rd : Readings) sv : Serving * result (option (list TokenReservationEntry)) Response :=
  match gs_access_policy s, grant with
  | Some policy, Some grant =>
      if negb (token_limits_active policy grant (ft_limiters (bk_fleet (sv_books sv)))) then (sv, Ok None)
      else
        match conservative_token_reservation (JObject (dc_body d)) with
        | Err m => (sv, Err (error_response 422 "wayfinder_router_token_bound_required" (CauseText m) rheaders))
        | Ok tokens =>
            let '(f, r) := reserve_tokens policy shared_access grant tokens (rd_limiters rd) (bk_fleet (sv_books sv)) in
            let sv := on_books (fun b => with_fleet b f) sv in
            match r with
            | Ok (FleetReserved entries) => (sv, Ok (Some entries))
            | Ok (FleetRejected limited) =>
                (on_books (count_rate_limited limited) sv, Err (rate_limited_response limited (rq_request_id (dc_request d))))
            | Err _ => (sv, Err (access_state_error (rq_request_id (dc_request d))))
            end
        end
  | _, _ => (sv, Ok None)
  end.

(** ** After a delivery *)
Definition inject_debug_decision (body : list Z) (decision : DecisionResponse) : list Z :=
  match from_slice body with
  | Ok (JObject members) =>
      match to_vec (JObject (ix_insert members (lit "wayfinder") (to_json decision))) with
      | Ok bytes => bytes
      | Err _ => body
      end
  | _ => body
  end.

Definition delivery_failure (f : ReliableDeliveryFailure) (headers : HeaderMap) : Response :=
  match f with
  | Exhausted m => error_response 502 "wayfinder_router_upstream_error" (CauseText m) headers
  | StateFailure e => error_response 500 "wayfinder_router_state_error" (CauseReliability e) headers
  | Misconfigured m => misconfigured m headers
  | Fatal error =>
      let '(status, kind) := fatal_delivery_status error in
      {| rs_status := status; rs_headers := headers; rs_body := ErrorAnswer kind (CauseText (Msg "{delivery error}" [])) |}
  end.

Definition is_success (status : Z) : bool := (200 <=? status) && (status <? 300).

(** The headers of a delivered answer. *)
Definition served_headers (d : ChatDecision (number := number)) (o : BufferedDeliveryOutcome) (missed : bool) (rheaders : HeaderMap)
    : result HeaderMap message :=
  let? headers := insert_all rheaders
    [(ROUTER_SERVED_BY_HEADER, served_by_alias o); (ROUTER_DEPLOYMENT_HEADER, served_by_id o);
     (ROUTER_DEPLOYMENT_SELECTION_HEADER, selection_reason o)] in
  let headers := if missed then insert_static headers ROUTER_CACHE_HEADER (lit "miss") else headers in
  let headers := if negb (str_eqb (served_by_alias o) (dc_chosen d)) && negb (dc_offline d)
                 then insert_static headers ROUTER_FAILOVER_HEADER (lit "true") else headers in
  Ok (ix_insert headers CONTENT_TYPE
        (default (lit "application/json") (HeaderValue_from_str (br_content_type (Delivery.response o))))).

(** The record, the accounts, the canary and the cache of a delivered answer. *)
Definition settle_delivery (grant : option AccessGrant) (d : ChatDecision (number := number)) (o : BufferedDeliveryOutcome)
    (missed : bool) (reservation : option (list TokenReservationEntry)) (lease : option SharedBudgetReservation)
    (guard : option CanaryContext) (rd : Readings) sv : Serving :=
  let id := rq_request_id (dc_request d) in
  let r := Delivery.response o in
  let ok := is_success (br_status r) in
  let b := on_recent (fun recent =>
             update_delivery recent id (served_by_alias o) (outcome_boundary o) (if ok then Recent.Succeeded else Recent.Failed) (Some (br_status r))
               (if ok then None else Some (lit "wayfinder_router_upstream_error"))) (sv_books sv) in
  let messages := default JNull (obj_get (dc_body d) (lit "messages")) in
  let '(b, accounted) :=
    account_buffered_success accounts (served_by_alias o) id messages grant (br_status r) (br_content_type r) (br_body r) reservation
      lease (rd_seconds rd) (rd_limiters_after rd) (rd_limiters_after rd) b in
  let b := finish_guard accounts guard ok (served_by_alias o) accounted (rd_latency_ms rd) (rd_timestamp rd) b in
  let sv := on_books (fun _ => b) sv in
  match missed, accounted with
  | true, Some usage => store_response grant d (served_by_alias o) r usage rd sv
  | _, _ => sv
  end.

(** ** The handler *)
Definition send_plan (w : World (B := BH)) (plan : list str) (d : ChatDecision (number := number)) :=
  deliver parse_url s env_send env_elapsed env_clock env_signal_clock shared_health w plan d.

(** Buffered delivery to the answer.  A token reservation is kept whatever
    becomes of the delivery. *)
Definition serve_buffered (grant : option AccessGrant) (headers : HeaderMap)
    (d : ChatDecision (number := number)) (plan : list str) (rheaders : HeaderMap) (missed : bool) (permit : ObservedAdmissionPermit)
    (reservation : option (list TokenReservationEntry)) (lease : option SharedBudgetReservation) (rd : Readings) sv
    : Serving * Response :=
  let guard := canary_guard d in
  if negb has_delivery then
    answering {| hd_permit := Some permit; hd_lease := lease; hd_guard := guard |} rd
      (error_response 503 "wayfinder_router_not_ready" (CauseText (Msg "provider delivery is not configured" [])) rheaders) sv
  else
    let '(w, r) := send_plan (sv_world sv) plan d in
    let sv := {| sv_world := w; sv_books := sv_books sv; sv_cache := sv_cache sv |} in
    match r with
    | Err f => answering {| hd_permit := Some permit; hd_lease := lease; hd_guard := guard |} rd (delivery_failure f rheaders) sv
    | Ok o =>
        let sv := settle_delivery grant d o missed reservation lease guard rd sv in
        let body := br_body (Delivery.response o) in
        let body := if wants_debug headers
                    then inject_debug_decision body (make_decision_response (gs_models s) (dc_routing d) d false false) else body in
        let answer :=
          match served_headers d o missed rheaders with
          | Err m => misconfigured m (request_id_headers (rq_request_id (dc_request d)))
          | Ok headers => {| rs_status := br_status (Delivery.response o); rs_headers := headers; rs_body := Bytes body |}
          end in
        answering {| hd_permit := Some permit; hd_lease := None; hd_guard := None |} rd answer sv
    end.

Definition wants_stream (d : ChatDecision (number := number)) : bool :=
  match obj_get (dc_body d) (lit "stream") with Some (JBool true) => true | _ => false end.

(** Under a lease: the permit, the tokens, then delivery. *)
Definition serve_leased (grant : option AccessGrant) (headers : HeaderMap) (d : ChatDecision (number := number)) (plan : list str)
    (rheaders : HeaderMap) (missed : bool) (lease : option SharedBudgetReservation) (rd : Readings) sv : Serving * Response :=
  let guard := canary_guard d in
  let '(b, acquired) := acquire_delivery accounts (rq_request_id (dc_request d)) (rd_acquired rd) (sv_books sv) in
  let sv := on_books (fun _ => b) sv in
  match acquired with
  | Err e =>
      let '(b, answer) := admission_error_response e rheaders (sv_books sv) in
      answering {| hd_permit := None; hd_lease := lease; hd_guard := guard |} rd answer (on_books (fun _ => b) sv)
  | Ok permit =>
      let '(sv, tokens) := reserve_request_tokens grant d rheaders rd sv in
      match tokens with
      | Err answer => answering {| hd_permit := Some permit; hd_lease := lease; hd_guard := guard |} rd answer sv
      | Ok reservation =>
          if wants_stream d then
            let initial := if wants_debug headers
                           then Some (make_decision_response (gs_models s) (dc_routing d) d false false) else None in
            (sv, {| rs_status := 200; rs_headers := rheaders;
                    rs_body := StreamAnswer {| si_headers := rheaders; si_plan := plan; si_decision := d; si_access_grant := grant; si_initial_event := initial;
                                               si_permit := permit; si_token_reservation := reservation;
                                               si_shared_budget := lease; si_canary_guard := guard |} |})
          else serve_buffered grant headers d plan rheaders missed permit reservation lease rd sv
      end
  end.

(** From the plan on. *)
Definition serve_plan (grant : option AccessGrant) (headers : HeaderMap) (d : ChatDecision (number := number)) (plan : list str)
    (rheaders : HeaderMap) (missed : bool) (rd : Readings) sv : Serving * Response :=
  let id := rq_request_id (dc_request d) in
  let '(b, reserved) :=
    reserve_shared_budget accounts id (dc_prompt_estimate d) (JObject (dc_body d)) (chat_workspace_id s grant) (chat_key_id s grant)
      (dc_offline d) (rd_seconds rd) (sv_books sv) in
  let sv := on_books (fun _ => b) sv in
  match reserved with
  | BudgetReserved lease => serve_leased grant headers d plan rheaders missed (Some lease) rd sv
  | BudgetUnavailable => serve_leased grant headers d plan rheaders missed None rd sv
  | BudgetDenied =>
      answering {| hd_permit := None; hd_lease := None; hd_guard := canary_guard d |} rd
        (error_response 402 "wayfinder_router_budget_exhausted" (CauseText (Msg "shared budget reservation exhausted" []))
           (insert_static (request_id_headers id) ROUTER_BUDGET_HEADER (lit "blocked"))) sv
  end.

(** What the decision and the plan read of the state: the ledger and the
    circuits as they are. *)
Definition env_now sv : ChatEnv :=
  {| env_today := env_today env; env_ledger := bk_ledger (sv_books sv); env_shared_spend := env_shared_spend env;
     env_canary_snapshot := env_canary_snapshot env; env_exposure_admitted := env_exposure_admitted env;
     env_breaker := w_breaker (sv_world sv); env_breaker_clock := env_breaker_clock env |}.

Definition plan_now (grant : option AccessGrant) (headers : HeaderMap) (d : ChatDecision (number := number)) sv : result (list str) Refusal :=
  plan_request parse_url s (env_now sv) grant headers d.

(** The target of a decision, which the cache is asked for. *)
Definition primary_target (d : ChatDecision (number := number)) : result ConfiguredModel Refusal :=
  match find_model (gs_models s) (delivery_name d) with
  | None => Err (refuse 500 "wayfinder_router_misconfigured"
                   (CauseText (Msg "no gateway endpoint configured for model '{delivery_name}'" [ArgStr (delivery_name d)])))
  | Some target =>
      if dc_offline d && negb (model_is_proven_local parse_url target)
      then Err (refuse 503 "wayfinder_router_offline_unavailable"
                  (CauseText (Msg "offline delivery requires a literal loopback provider endpoint" [])))
      else Ok target
  end.

(** A recorded decision to its answer. *)
Definition serve_decision (grant : option AccessGrant) (headers : HeaderMap)
    (d : ChatDecision (number := number)) (rheaders : HeaderMap) (rd : Readings) sv : Serving * Response :=
  let guard := {| hd_permit := None; hd_lease := None; hd_guard := canary_guard d |} in
  match primary_target d with
  | Err r => answering guard rd (refused r rheaders) sv
  | Ok target =>
      let '(sv, looked) := consult_cache grant headers d target rheaders rd sv in
      match looked with
      | inl answer => answering guard rd answer sv
      | inr missed =>
          match plan_now grant headers d sv with
          | Err r => answering guard rd (refused r rheaders) sv
          | Ok plan => serve_plan grant headers d plan rheaders missed rd sv
          end
      end
  end.

Definition privacy_response_headers (request_id : str) (posture : PrivacyPosture) : HeaderMap :=
  let headers := request_id_headers request_id in
  match insert_header headers ROUTER_PRIVACY_POSTURE_HEADER (privacy_posture_name posture) with Ok headers => headers | Err _ => headers end.

(** The headers of a refusal before a decision: its kind says where it was
    made. *)
Definition refusal_headers (headers : HeaderMap) (request_id : str) (r : Refusal) : HeaderMap :=
  if str_eqb (rf_kind r) (lit "wayfinder_router_budget_exhausted")
  then insert_static (request_id_headers request_id) ROUTER_BUDGET_HEADER (lit "blocked")
  else if existsb (str_eqb (rf_kind r)) (map lit ["wayfinder_router_destination_ineligible"; "wayfinder_router_offline_unavailable"]%string)
  then match parse_privacy_posture headers (gs_offline s || offline_override to_lowercase headers) with
       | Ok posture => privacy_response_headers request_id posture
       | Err _ => request_id_headers request_id
       end
  else request_id_headers request_id.

(** [chat_completions] from the parsed body. *)
Definition chat_completions (headers : HeaderMap) (body : list (str * Value number)) (request_id : str) (rd : Readings) sv
    : option (Serving * Response) :=
  match unsupported_text_surface body with
  | Some m => Some (sv, error_response 400 "wayfinder_router_unsupported_modality" (CauseText m) (request_id_headers request_id))
  | None =>
      let '(b, access) := preflight_access headers request_id (rd_limiters rd) (rd_limiters rd) (sv_books sv) in
      let sv := on_books (fun _ => b) sv in
      match access with
      | Err answer => Some (sv, answer)
      | Ok grant =>
          profile ← resolve_policy_profile s (chat_workspace_id s grant) (chat_key_id s grant);
          let base := match profile with Some profile => resolved_routing profile | None => gs_routing s end in
          Some match Chat.decide parse_url to_lowercase compiled sha256 s (env_now sv) base grant headers body request_id with
               | Err r => (sv, refused r (refusal_headers headers request_id r))
               | Ok d =>
                   let guard := {| hd_permit := None; hd_lease := None; hd_guard := canary_guard d |} in
                   let '(b, rheaders) := routing_headers grant d (rd_limiters rd) (rd_limiters rd) (sv_books sv) in
                   let sv := on_books (fun _ => b) sv in
                   match rheaders with
                   | Err answer => answering guard rd answer sv
                   | Ok rheaders =>
                       let sv := on_books (record_decision grant d rd) sv in
                       if gs_dry_run s || match gs_models s with [] => true | _ => false end
                       then answering guard rd (decision_only_response d rheaders) sv
                       else serve_decision grant headers d rheaders rd sv
                   end
               end
      end
  end.

(** ** The steps that take no lease *)
Section Steady.
Context (R : B -> B -> Prop) (HR : steady R).
Implicit Types b : Books B.

Lemma steady_when_admitted {X} id r (k : Books B -> Books B * result X Response) b :
  R (the_backend b) (the_backend (k b).1) -> R (the_backend b) (the_backend (when_admitted id r k b).1).
Proof.
  intros Hk. unfold when_admitted. destruct r as [[limited|]|e]; [|done|apply (st_refl R HR)].
  destruct (negb _); [apply (st_refl R HR)|done].
Qed.

Lemma steady_preflight headers id now now' b : R (the_backend b) (the_backend (preflight_access headers id now now' b).1).
Proof.
  unfold preflight_access. destruct (gs_access_policy s) as [policy|]; [|apply (st_refl R HR)].
  pose proof (steady_admit_shared_global R HR policy shared_access now now' (bk_fleet b)) as Hg.
  destruct (admit_shared_global _ _ _ _ _) as [f r]. cbn [fst] in Hg. eapply (st_trans R HR); [exact Hg|].
  apply (steady_when_admitted id r _ (with_fleet b f)). destruct (authenticate _ _ _) as [grant|]; [|apply (st_refl R HR)].
  set (b1 := match key_id policy grant with Some _ => _ | None => _ end).
  assert (bk_fleet b1 = f) as Hf by (subst b1; by destruct (key_id policy grant)).
  assert (the_backend (with_fleet b f) = the_backend b1) as -> by (unfold the_backend; by rewrite Hf). clearbody b1.
  pose proof (steady_admit_shared_key R HR policy shared_access grant now now' (bk_fleet b1)) as Hk.
  destruct (admit_shared_key _ _ _ _ _ _) as [f' r']. eapply (st_trans R HR); [exact Hk|].
  apply (steady_when_admitted id r' _ (set_degraded_gauge (with_fleet b1 f'))). apply (st_refl R HR).
Qed.

Lemma steady_routing_headers grant d now now' b : R (the_backend b) (the_backend (routing_headers grant d now now' b).1).
Proof.
  unfold routing_headers. destruct (route_headers d) as [h|m]; [|apply (st_refl R HR)].
  destruct (gs_access_policy s) as [policy|]; [|apply (st_refl R HR)]. destruct grant as [g|]; [|apply (st_refl R HR)].
  destruct (match workspace_id policy g with Some _ => _ | None => _ end) as [h'|m]; [|apply (st_refl R HR)].
  pose proof (steady_tightest R HR policy shared_access g now now' (bk_fleet b)) as Ht.
  destruct (tightest_snapshot_shared _ _ _ _ _ _) as [f [snap|e]]; exact Ht.
Qed.

Lemma steady_cached key now sv : R (the_backend (sv_books sv)) (the_backend (sv_books (get_cached_response key now sv).1)).
Proof.
  unfold get_cached_response. destruct shared_cache.
  - destruct (negb shared_backend); [apply (st_refl R HR)|].
    pose proof (st_cache_get R HR (the_backend (sv_books sv)) generation key) as Hg. by destruct (sb_shared_cache_get _ _ _).
  - destruct (get_at _ _ _). apply (st_refl R HR).
Qed.

Lemma cache_hit_backend d h cached sv : the_backend (sv_books (cache_hit d h cached sv).1) = the_backend (sv_books sv).
Proof. unfold cache_hit. destruct (negb _); [done|]. by destruct (insert_header _ _ _). Qed.

Lemma steady_consult grant headers d target rheaders rd sv :
  R (the_backend (sv_books sv)) (the_backend (sv_books (consult_cache grant headers d target rheaders rd sv).1)).
Proof.
  unfold consult_cache. destruct (negb _); [apply (st_refl R HR)|]. destruct (request_key grant d target) as [key|e]; [|apply (st_refl R HR)].
  pose proof (steady_cached key (rd_cache_get rd) sv) as Hg. destruct (get_cached_response _ _ _) as [sv1 [[cached|]|e]]; [|done|done].
  pose proof (cache_hit_backend d rheaders cached sv1) as Hh. destruct (cache_hit _ _ _ _) as [sv2 answer]. cbn [fst] in *. by rewrite Hh.
Qed.

Lemma steady_request_tokens grant d rheaders rd sv :
  R (the_backend (sv_books sv)) (the_backend (sv_books (reserve_request_tokens grant d rheaders rd sv).1)).
Proof.
  unfold reserve_request_tokens. destruct (gs_access_policy s) as [policy|]; [|apply (st_refl R HR)].
  destruct grant as [g|]; [|apply (st_refl R HR)]. destruct (negb _); [apply (st_refl R HR)|].
  destruct (conservative_token_reservation _) as [tokens|m]; [|apply (st_refl R HR)].
  pose proof (steady_reserve_tokens R HR policy shared_access g tokens (rd_limiters rd) (bk_fleet (sv_books sv))) as Hr.
  by destruct (reserve_tokens _ _ _ _ _ _) as [f [[entries|limited]|e]].
Qed.

Lemma steady_store grant d served r usage rd sv :
  R (the_backend (sv_books sv)) (the_backend (sv_books (store_response grant d served r usage rd sv))).
Proof.
  unfold store_response. destruct (negb _); [apply (st_refl R HR)|]. destruct (find_model _ _) as [m|]; [|apply (st_refl R HR)].
  destruct (is_codex m); [apply (st_refl R HR)|]. destruct (request_key grant d m) as [key|e]; [|apply (st_refl R HR)].
  unfold put_cached_response. destruct shared_cache; [|apply (st_refl R HR)]. destruct (encode_shared _); [|apply (st_refl R HR)].
  destruct (negb shared_backend); [apply (st_refl R HR)|]. apply (st_cache_put R HR).
Qed.
End Steady.

(** ** Leases

    [held] counts what the backend has granted and not had back. *)
Section Leases.
Context (held : B -> list lease) (HL : lease_laws held).
Implicit Types b : Books B.

Local Notation leases sv := (leases_of held (sv_books sv)).
Local Notation HS := (ll_steady held HL).

(** What a request has taken is on top of what there was. *)
Definition holds (h : Held) (rest l : list lease) : Prop :=
  l = match hd_permit h with Some p => slot_list p | None => [] end ++ lease_list (hd_lease h) ++ rest.

Lemma let_go_leases h rd rest b : holds h rest (leases_of held b) -> leases_of held (let_go h rd b) = rest.
Proof.
  intros Hh. unfold let_go, drop_guard. unfold leases_of at 1. rewrite (steady_finish_guard accounts _ HS). fold (leases_of held).
  apply (settle_lease_head held HL). unfold holds in Hh. destruct (hd_permit h) as [p|]; [|done]. by apply (drop_permit_leases held HL).
Qed.

Lemma answering_leases h rd answer rest sv : holds h rest (leases sv) -> leases (answering h rd answer sv).1 = rest.
Proof. intros Hh. by apply let_go_leases. Qed.

Lemma admission_error_backend e h b : the_backend (admission_error_response e h b).1 = the_backend b.
Proof. unfold admission_error_response. by destruct (overload_reason e) as [[reason n]|]. Qed.

Lemma settle_delivery_leases grant d o missed reservation l guard rd p rest sv :
  leases sv = slot_list p ++ lease_list l ++ rest ->
  leases (settle_delivery grant d o missed reservation l guard rd sv) = slot_list p ++ rest.
Proof.
  intros Hh. unfold settle_delivery. set (b0 := on_recent _ (sv_books sv)).
  assert (leases_of held b0 = slot_list p ++ lease_list l ++ rest) as Hb0 by done. clearbody b0.
  match goal with |- context [account_buffered_success _ ?route ?id ?ms ?g ?st ?ct ?body _ _ ?sec ?n1 ?n2 b0] =>
    assert (leases_of held (account_buffered_success accounts route id ms g st ct body reservation l sec n1 n2 b0).1 = slot_list p ++ rest) as Ha end.
  { unfold account_buffered_success. destruct (400 <=? _); [by apply (settle_lease_leases held HL)|by apply (usage_leases accounts held HL)]. }
  destruct (account_buffered_success _ _ _ _ _ _ _ _ _ _ _ _ _ _) as [b1 accounted]. cbn [fst] in Ha.
  set (b2 := finish_guard _ _ _ _ _ _ _ b1).
  assert (leases_of held b2 = slot_list p ++ rest) as Hb2 by (unfold leases_of; subst b2; by rewrite (steady_finish_guard accounts _ HS)).
  destruct missed, accounted as [usage|]; [|done..]. unfold leases_of. rewrite (steady_store _ HS). exact Hb2.
Qed.

Lemma serve_buffered_leases grant headers d plan rheaders missed p reservation l rd rest sv :
  leases sv = slot_list p ++ lease_list l ++ rest ->
  leases (serve_buffered grant headers d plan rheaders missed p reservation l rd sv).1 = rest.
Proof.
  intros Hh. unfold serve_buffered. destruct (negb has_delivery); [by apply answering_leases|].
  destruct (send_plan _ _ _) as [w [o|f]]; [|by apply answering_leases].
  apply answering_leases. by apply settle_delivery_leases.
Qed.

(** What an answer still holds: a streamed one, what it is handed. *)
Definition answer_leases (a : answer_body) : list lease :=
  match a with StreamAnswer input => slot_list (si_permit input) ++ lease_list (si_shared_budget input) | _ => [] end.

Definition keeps_leases (sv : Serving) (r : Serving * Response) : Prop :=
  leases r.1 = answer_leases (rs_body r.2) ++ leases sv.


Definition plain_answer (r : Response) : Prop := answer_leases (rs_body r) = [].

Lemma answering_keeps h rd answer rest sv sv0 : plain_answer answer -> holds h rest (leases sv) -> leases sv0 = rest ->
  keeps_leases sv0 (answering h rd answer sv).
Proof. intros Hp Hh Hr. unfold keeps_leases. rewrite (answering_leases _ _ _ _ _ Hh). cbn [snd answering]. by rewrite Hp, Hr. Qed.

Lemma request_tokens_plain grant d rheaders rd sv sv' answer :
  reserve_request_tokens grant d rheaders rd sv = (sv', Err answer) -> plain_answer answer.
Proof.
  unfold reserve_request_tokens. destruct (gs_access_policy s); [|done]. destruct grant; [|done]. destruct (negb _); [done|].
  destruct (conservative_token_reservation _); [|by intros [= _ <-]]. destruct (reserve_tokens _ _ _ _ _ _) as [f [[entries|limited]|e]]; by intros [= _ <-].
Qed.

Lemma admission_error_plain e h b : plain_answer (admission_error_response e h b).2.
Proof. unfold admission_error_response. by destruct (overload_reason e) as [[reason n]|]. Qed.

Lemma delivery_failure_plain f h : plain_answer (delivery_failure f h).
Proof. destruct f as [m|e|m|e]; [done| |done|done]. unfold delivery_failure. by destruct (fatal_delivery_status e). Qed.

Lemma serve_buffered_keeps grant headers d plan rheaders missed p reservation l rd sv sv0 :
  leases sv = slot_list p ++ lease_list l ++ leases sv0 ->
  keeps_leases sv0 (serve_buffered grant headers d plan rheaders missed p reservation l rd sv).
Proof.
  intros Hh. unfold keeps_leases. rewrite (serve_buffered_leases _ _ _ _ _ _ _ _ _ _ _ _ Hh).
  unfold serve_buffered. destruct (negb has_delivery); [done|]. destruct (send_plan _ _ _) as [w [o|f]]; cbn [snd answering].
  - by destruct (served_headers _ _ _ _).
  - by rewrite delivery_failure_plain.
Qed.

Lemma serve_leased_keeps grant headers d plan rheaders missed l rd sv sv0 :
  leases sv = lease_list l ++ leases sv0 -> keeps_leases sv0 (serve_leased grant headers d plan rheaders missed l rd sv).
Proof.
  intros Hl. unfold serve_leased. pose proof (acquire_leases accounts held HL (rq_request_id (dc_request d)) (rd_acquired rd) (sv_books sv)) as Ha.
  destruct (acquire_delivery _ _ _ _) as [b [permit|e]].
  - set (sv1 := on_books _ sv). assert (leases sv1 = slot_list permit ++ lease_list l ++ leases sv0) as Hsv1 by (by rewrite <- Hl).
    clearbody sv1. clear Ha Hl. pose proof (steady_request_tokens _ HS grant d rheaders rd sv1) as Ht.
    destruct (reserve_request_tokens _ _ _ _ _) as [sv2 tokens] eqn:Etok. cbn [fst] in Ht.
    assert (leases sv2 = slot_list permit ++ lease_list l ++ leases sv0) as Hsv2 by (unfold leases_of in *; by rewrite <- Hsv1).
    destruct tokens as [reservation|answer]; [|by eapply answering_keeps; [eapply request_tokens_plain|exact Hsv2|]].
    destruct (wants_stream d); [|by apply serve_buffered_keeps]. unfold keeps_leases. cbn. by rewrite Hsv2, (assoc_L (++)).
  - pose proof (admission_error_plain e rheaders b) as Hp. pose proof (admission_error_backend e rheaders b) as Hb. cbn [sv_books on_books].
    destruct (admission_error_response _ _ _) as [b' answer]. eapply answering_keeps; [exact Hp| |done]. cbn in Hb. unfold holds. cbn.
    unfold leases_of in *. by rewrite Hb, Ha.
Qed.

Lemma serve_plan_keeps grant headers d plan rheaders missed rd sv : keeps_leases sv (serve_plan grant headers d plan rheaders missed rd sv).
Proof.
  unfold serve_plan. pose proof (reserve_budget_leases accounts held HL (rq_request_id (dc_request d)) (dc_prompt_estimate d) (JObject (dc_body d))
    (chat_workspace_id s grant) (chat_key_id s grant) (dc_offline d) (rd_seconds rd) (sv_books sv)) as Hr.
  destruct (reserve_shared_budget _ _ _ _ _ _ _ _ _) as [b1 [l| |]].
  - by apply serve_leased_keeps.
  - by eapply answering_keeps.
  - by apply serve_leased_keeps.
Qed.

Lemma consult_plain grant headers d target rheaders rd sv sv' answer :
  consult_cache grant headers d target rheaders rd sv = (sv', inl answer) -> plain_answer answer.
Proof.
  unfold consult_cache. destruct (negb _); [done|]. destruct (request_key grant d target); [|by intros [= _ <-]].
  destruct (get_cached_response _ _ _) as [sv1 [[cached|]|e]]; [|done|by intros [= _ <-]].
  unfold cache_hit. destruct (negb _); [by intros [= _ <-]|]. destruct (insert_header _ _ _); by intros [= _ <-].
Qed.

Lemma serve_decision_keeps grant headers d rheaders rd sv : keeps_leases sv (serve_decision grant headers d rheaders rd sv).
Proof.
  unfold serve_decision. destruct (primary_target d) as [target|r]; [|by eapply answering_keeps].
  pose proof (steady_consult _ HS grant headers d target rheaders rd sv) as Hc. destruct (consult_cache _ _ _ _ _ _ _) as [sv1 looked] eqn:E.
  cbn [fst] in Hc. assert (leases sv1 = leases sv) as Hsv1 by done.
  destruct looked as [answer|missed]; [eapply answering_keeps; [by eapply consult_plain|exact Hsv1|done]|].
  destruct (plan_now grant headers d sv1) as [plan|r]; [|by eapply answering_keeps].
  unfold keeps_leases. rewrite <- Hsv1. apply serve_plan_keeps.
Qed.

(** A request, as a whole: what it was granted it has returned, and a stream
    holds what it is handed. *)
Definition settles (sv : Serving) (r : option (Serving * Response)) : Prop :=
  match r with Some r => keeps_leases sv r | None => True end.

Lemma when_admitted_plain {X} id r (k : Books B -> Books B * result X Response) b answer :
  (forall b, match (k b).2 with Err a => plain_answer a | Ok _ => True end) ->
  (when_admitted id r k b).2 = Err answer -> plain_answer answer.
Proof.
  intros Hk. unfold when_admitted. destruct r as [[limited|]|e]; [destruct (negb _); [by intros [= <-]|]| |by intros [= <-]];
    intros E; specialize (Hk b); by rewrite E in Hk.
Qed.

Lemma preflight_plain headers id now now' b answer : (preflight_access headers id now now' b).2 = Err answer -> plain_answer answer.
Proof.
  unfold preflight_access. destruct (gs_access_policy s) as [policy|]; [|done]. destruct (admit_shared_global _ _ _ _ _) as [f r].
  apply when_admitted_plain. intros b1. destruct (authenticate _ _ _) as [grant|]; [|done].
  destruct (admit_shared_key _ _ _ _ _ _) as [f' r']. destruct (when_admitted _ _ _ _) as [b2 [x|a]] eqn:E; [done|].
  eapply (when_admitted_plain id r' (fun b => (b, Ok (Some grant)))); [done|]. by rewrite E.
Qed.

Lemma routing_headers_plain grant d now now' b answer : (routing_headers grant d now now' b).2 = Err answer -> plain_answer answer.
Proof.
  unfold routing_headers. destruct (route_headers d) as [h|m]; [|by intros [= <-]]. destruct (gs_access_policy s) as [policy|]; [|done].
  destruct grant as [g|]; [|done]. destruct (match workspace_id policy g with Some _ => _ | None => _ end) as [h'|m]; [|by intros [= <-]].
  destruct (tightest_snapshot_shared _ _ _ _ _ _) as [f [snap|e]]; [|by intros [= <-]]. cbn [snd].
  destruct (insert_all _ _); [done|by intros [= <-]].
Qed.


Lemma chat_completions_settles headers body id rd sv : settles sv (chat_completions headers body id rd sv).
Proof.
  unfold chat_completions. destruct (unsupported_text_surface body); [done|].
  pose proof (steady_preflight _ HS headers id (rd_limiters rd) (rd_limiters rd) (sv_books sv)) as Hp.
  pose proof (preflight_plain headers id (rd_limiters rd) (rd_limiters rd) (sv_books sv)) as Hpp.
  destruct (preflight_access _ _ _ _ _) as [b access]. cbn [fst snd] in *.
  destruct access as [grant|answer]; [|unfold settles, keeps_leases; cbn; by rewrite (Hpp answer)].
  clear Hpp. destruct (resolve_policy_profile _ _ _) as [profile|]; [|done]. cbn [mbind option_bind settles].
  destruct (Chat.decide _ _ _ _ _ _ _ _ _ _ _) as [d|r]; [|done].
  pose proof (steady_routing_headers _ HS grant d (rd_limiters rd) (rd_limiters rd) b) as Hr.
  pose proof (routing_headers_plain grant d (rd_limiters rd) (rd_limiters rd) b) as Hrp.
  change (sv_books (on_books (fun _ => b) sv)) with b. destruct (routing_headers _ _ _ _ b) as [b' rheaders]. cbn [fst snd] in *.
  assert (leases_of held b' = leases sv) as Hb by (unfold leases_of in *; congruence).
  destruct rheaders as [rheaders|answer]; [|by eapply answering_keeps; [apply Hrp|exact Hb|]].
  set (sv1 := on_books (record_decision grant d rd) _). assert (leases sv1 = leases sv) as Hsv1 by done. clearbody sv1.
  destruct (_ || _); [by eapply answering_keeps|]. unfold keeps_leases. rewrite <- Hsv1. apply serve_decision_keeps.
Qed.
End Leases.

(** ** The ledger *)
Section Charges.
Implicit Types b : Books B.

Local Notation ledger sv := (bk_ledger (sv_books sv)).
Local Ltac cases := repeat case_match; simplify_eq/=; try done.

Lemma preflight_ledger headers id now now' b : bk_ledger (preflight_access headers id now now' b).1 = bk_ledger b.
Proof. unfold preflight_access, when_admitted. cases. Qed.

Lemma routing_headers_ledger grant d now now' b : bk_ledger (routing_headers grant d now now' b).1 = bk_ledger b.
Proof. unfold routing_headers. cases. Qed.

Lemma consult_ledger grant headers d target rheaders rd sv :
  ledger (consult_cache grant headers d target rheaders rd sv).1 = ledger sv.
Proof. unfold consult_cache, get_cached_response, cache_hit. cases. Qed.

Lemma consult_world grant headers d target rheaders rd sv :
  sv_world (consult_cache grant headers d target rheaders rd sv).1 = sv_world sv.
Proof. unfold consult_cache, get_cached_response, cache_hit. cases. Qed.

Lemma reserve_budget_ledger id estimate body ws key offline seconds b :
  bk_ledger (reserve_shared_budget accounts id estimate (body : Value number) ws key offline seconds b).1 = bk_ledger b.
Proof. unfold reserve_shared_budget. cases. Qed.

Lemma acquire_ledger id acquired b : bk_ledger (acquire_delivery accounts id acquired b).1 = bk_ledger b.
Proof. unfold acquire_delivery. cases. Qed.

Lemma request_tokens_ledger grant d rheaders rd sv :
  let sv' := (reserve_request_tokens grant d rheaders rd sv).1 in ledger sv' = ledger sv /\ sv_world sv' = sv_world sv.
Proof. unfold reserve_request_tokens. cases. Qed.

Lemma guard_ledger guard ok route usage latency now b : bk_ledger (finish_guard accounts guard ok route usage latency now b) = bk_ledger b.
Proof. unfold finish_guard, record_canary_outcome. cases. Qed.

Lemma let_go_ledger h rd b : bk_ledger (let_go h rd b) = bk_ledger b.
Proof. unfold let_go, drop_guard. rewrite guard_ledger. unfold settle_lease, drop_permit. cases. Qed.

Lemma admission_error_ledger e h b : bk_ledger (admission_error_response e h b).1 = bk_ledger b.
Proof. unfold admission_error_response. cases. Qed.

Lemma store_ledger grant d served r usage rd sv :
  let sv' := store_response grant d served r usage rd sv in ledger sv' = ledger sv /\ sv_world sv' = sv_world sv.
Proof. unfold store_response, put_cached_response. cases. Qed.

(** What one delivery adds to the ledger: the turn of the alias that served. *)
Definition charged_once (grant : option AccessGrant) (plan : list str) (rd : Readings) (new : list ConfiguredModel)
    (l l' : SavingsLedger) : Prop :=
  exists alias target prompt completion estimated cost day,
    alias ∈ plan /\ last new = Some target /\ target ∈ pool (gs_models s) alias /\
    turn_cost alias prompt completion (costs prices) estimated None = Ok cost /\ utc_today (rd_seconds rd) = Ok day /\
    l' = record_attributed (set_priced l (table_priced prices)) cost day (grant_field accounts key_id grant)
           (grant_field accounts workspace_id grant).

Lemma usage_ledger route id grant prompt completion estimated reservation l sec n1 n2 b :
  let b' := (record_accounted_usage accounts route id grant prompt completion estimated reservation l sec n1 n2 b).1 in
  bk_ledger b' = bk_ledger b \/
  exists cost day, turn_cost route prompt completion (costs prices) estimated None = Ok cost /\ utc_today sec = Ok day /\
    bk_ledger b' = record_attributed (set_priced (bk_ledger b) (table_priced prices)) cost day (grant_field accounts key_id grant)
                     (grant_field accounts workspace_id grant).
Proof.
  unfold record_accounted_usage, settle_lease, settle_tokens, charge_tokens. cbn [ac_prices accounts].
  destruct (turn_cost _ _ _ _ _ _) as [cost|e]; [|left; by destruct l]. destruct (utc_today sec) as [day|e]; [|left; by destruct l].
  right. exists cost, day. split; [done|]. split; [done|]. cases.
Qed.

Lemma settle_delivery_ledger grant d o missed reservation l guard rd plan new sv target :
  served_by_alias o ∈ plan -> last new = Some target -> target ∈ pool (gs_models s) (served_by_alias o) ->
  let sv' := settle_delivery grant d o missed reservation l guard rd sv in
  sv_world sv' = sv_world sv /\ (ledger sv' = ledger sv \/ charged_once grant plan rd new (ledger sv) (ledger sv')).
Proof.
  intros Ha Hl Ht. unfold settle_delivery. set (b0 := on_recent _ (sv_books sv)).
  change (ledger sv) with (bk_ledger b0). clearbody b0.
  assert (forall id ms b', (account_buffered_success accounts (served_by_alias o) id ms grant (br_status (Delivery.response o))
            (br_content_type (Delivery.response o)) (br_body (Delivery.response o)) reservation l (rd_seconds rd)
            (rd_limiters_after rd) (rd_limiters_after rd) b0).1 = b' ->
          bk_ledger b' = bk_ledger b0 \/ charged_once grant plan rd new (bk_ledger b0) (bk_ledger b')) as Hb.
  { intros id ms b' <-. unfold account_buffered_success. destruct (400 <=? _); [left; by destruct l|].
    match goal with |- context [record_accounted_usage _ ?r ?i ?g ?p ?c ?e ?t ?x ?sec ?n1 ?n2 ?b] =>
      destruct (usage_ledger r i g p c e t x sec n1 n2 b) as [Hu|(cost & day & Hc & Hd & Hu)]; [by left|right] end.
    by exists (served_by_alias o), target; repeat eexists. }
  destruct (account_buffered_success _ _ _ _ _ _ _ _ _ _ _ _ _ _) as [b1 accounted] eqn:E.
  specialize (Hb _ _ b1 (f_equal fst E)). set (sv1 := on_books _ sv).
  assert (ledger sv1 = bk_ledger b1) as Hsv1 by apply guard_ledger. assert (sv_world sv1 = sv_world sv) as Hw by done. clearbody sv1.
  rewrite <- Hsv1 in Hb. destruct missed, accounted as [usage|]; try done.
  match goal with |- context [store_response ?g ?d ?sb ?r ?u ?rd ?v] => destruct (store_ledger g d sb r u rd v) as [-> ->] end. done.
Qed.

(** Nothing is sent or charged. *)
Definition idle sv sv' : Prop := sv_world sv' = sv_world sv /\ ledger sv' = ledger sv.

(** What is sent, where it may go, is charged once at most. *)
Definition serves (grant : option AccessGrant) (d : ChatDecision (number := number)) (plan : list str) (rd : Readings) sv sv' : Prop :=
  exists new, w_sent (sv_world sv') = w_sent (sv_world sv) ++ new /\ Forall (may_receive parse_url s grant d) new /\
    (length new <= S (rp_retries (gs_reliability s)) * plan_size (gs_models s) plan)%nat /\
    (ledger sv' = ledger sv \/ charged_once grant plan rd new (ledger sv) (ledger sv')).

Lemma idle_serves grant d plan rd sv sv' : idle sv sv' -> serves grant d plan rd sv sv'.
Proof. intros [Hw Hl]. exists []. rewrite Hw, app_nil_r. split; [done|]. split; [constructor|]. split; [cbn; lia|by left]. Qed.

Lemma serves_after grant d plan rd sv1 sv sv' : idle sv sv1 -> serves grant d plan rd sv1 sv' -> serves grant d plan rd sv sv'.
Proof. intros [Hw Hl]. unfold serves. by rewrite Hw, Hl. Qed.

Lemma env_now_idle sv sv' : idle sv sv' -> env_now sv' = env_now sv.
Proof. intros [Hw Hl]. unfold env_now. by rewrite Hw, Hl. Qed.

Lemma answering_idle h rd answer sv0 sv : idle sv0 sv -> idle sv0 (answering h rd answer sv).1.
Proof. intros [Hw Hl]. split; [done|]. cbn. by rewrite let_go_ledger. Qed.

Lemma answering_serves h rd answer grant d plan sv0 sv :
  serves grant d plan rd sv0 sv -> serves grant d plan rd sv0 (answering h rd answer sv).1.
Proof. intros (new & Hs & Hf & Hn & Hl). exists new. split; [done|]. split; [done|]. split; [done|]. cbn. by rewrite let_go_ledger. Qed.

Lemma serve_buffered_serves env' hs grant headers d plan rheaders missed permit reservation l rd sv :
  plan_request parse_url s env' grant hs d = Ok plan ->
  serves grant d plan rd sv (serve_buffered grant headers d plan rheaders missed permit reservation l rd sv).1.
Proof.
  intros Hp. unfold serve_buffered. destruct (negb has_delivery); [by apply idle_serves, answering_idle|].
  unfold send_plan, deliver, deliver_with_reliability.
  pose proof (plan_loop_spec parse_url env_send env_elapsed env_clock env_signal_clock (gs_models s) (gs_reliability s) shared_health
                (sv_world sv) plan (dc_request d) (dc_offline d) (dc_prompt_estimate d) (Msg "no upstream available" [])) as Hspec.
  destruct (plan_loop _ _ _ _ _ _ _ _ _ _ _ _ _ _) as [w r]. destruct Hspec as [(new & Hnew & Hf & Hbound) Hr].
  assert (Forall (may_receive parse_url s grant d) new) as Hmay by (eapply Forall_impl; [done|]; intros m; by eapply offered_may_receive).
  destruct r as [o|f]; apply answering_serves; [|exists new; split; [done|]; split; [done|]; split; [done|by left]].
  destruct Hr as (Ha & _ & target & (a & ->%list_elem_of_singleton & Hpool & _) & [front Hfront] & _).
  cbn [sv_world] in *. rewrite Hnew in Hfront. apply app_inv_head in Hfront.
  match goal with |- context [settle_delivery ?g ?d ?o ?m ?r ?l ?gd ?rd ?v] =>
    destruct (settle_delivery_ledger g d o m r l gd rd plan new v target Ha ltac:(by rewrite Hfront, last_snoc) Hpool) as [Hw Hl] end.
  exists new. rewrite Hw. by split.
Qed.

Lemma serve_leased_serves env' hs grant headers d plan rheaders missed l rd sv :
  plan_request parse_url s env' grant hs d = Ok plan ->
  serves grant d plan rd sv (serve_leased grant headers d plan rheaders missed l rd sv).1.
Proof.
  intros Hp. unfold serve_leased. pose proof (acquire_ledger (rq_request_id (dc_request d)) (rd_acquired rd) (sv_books sv)) as Ha.
  destruct (acquire_delivery _ _ _ _) as [b [permit|e]]; cbn [fst] in Ha.
  - set (sv1 := on_books _ sv). assert (idle sv sv1) as Hi by done. clearbody sv1. apply (serves_after _ _ _ _ sv1); [done|].
    destruct (request_tokens_ledger grant d rheaders rd sv1) as [Hl Hw]. destruct (reserve_request_tokens _ _ _ _ _) as [sv2 [reservation|answer]].
    + assert (idle sv1 sv2) as Hi2 by done. destruct (wants_stream d); [by apply idle_serves|].
      eapply serves_after; [done|]. by eapply serve_buffered_serves.
    + by apply idle_serves, answering_idle.
  - cbn [sv_books on_books]. pose proof (admission_error_ledger e rheaders b) as He. destruct (admission_error_response _ _ _) as [b' answer].
    apply idle_serves, answering_idle. cbn in He. split; [done|]. cbn. by rewrite He, Ha.
Qed.

Lemma serve_plan_serves env' hs grant headers d plan rheaders missed rd sv :
  plan_request parse_url s env' grant hs d = Ok plan ->
  serves grant d plan rd sv (serve_plan grant headers d plan rheaders missed rd sv).1.
Proof.
  intros Hp. unfold serve_plan. pose proof (reserve_budget_ledger (rq_request_id (dc_request d)) (dc_prompt_estimate d) (JObject (dc_body d))
    (chat_workspace_id s grant) (chat_key_id s grant) (dc_offline d) (rd_seconds rd) (sv_books sv)) as Hr.
  destruct (reserve_shared_budget _ _ _ _ _ _ _ _ _) as [b [l| |]]; cbn [fst] in Hr;
    (set (sv1 := on_books _ sv); assert (idle sv sv1) as Hi by done; clearbody sv1; eapply serves_after; [exact Hi|]).
  - by eapply serve_leased_serves.
  - by apply idle_serves, answering_idle.
  - by eapply serve_leased_serves.
Qed.

Lemma serve_decision_serves grant headers d rheaders rd sv :
  let sv' := (serve_decision grant headers d rheaders rd sv).1 in
  idle sv sv' \/ exists plan, plan_request parse_url s (env_now sv) grant headers d = Ok plan /\ serves grant d plan rd sv sv'.
Proof.
  unfold serve_decision. destruct (primary_target d) as [target|r]; [|left; by apply answering_idle].
  pose proof (consult_ledger grant headers d target rheaders rd sv) as Hl. pose proof (consult_world grant headers d target rheaders rd sv) as Hw.
  destruct (consult_cache _ _ _ _ _ _ _) as [sv1 [answer|missed]]; cbn [fst] in *; [left; by apply answering_idle|].
  assert (idle sv sv1) as Hi by done. unfold plan_now. rewrite (env_now_idle sv sv1 Hi).
  destruct (plan_request _ _ _ _ _ _) as [plan|r] eqn:Hp; [|left; by apply answering_idle].
  right. exists plan. split; [done|]. eapply serves_after; [exact Hi|]. by eapply serve_plan_serves.
Qed.

(** The two together: [chat_completions] carries out what [chat] plans. *)
Definition charges headers body id rd sv (r : option (Serving * Response)) : Prop :=
  match r with
  | Some answered =>
      let sv' := answered.1 in
      idle sv sv' \/
      exists grant d plan, (preflight_access headers id (rd_limiters rd) (rd_limiters rd) (sv_books sv)).2 = Ok grant /\
        chat parse_url to_lowercase compiled sha256 s (env_now sv) grant headers body id = Some (Planned d plan) /\
        serves grant d plan rd sv sv'
  | None => True
  end.

Lemma chat_completions_charges headers body id rd sv :
  charges headers body id rd sv (chat_completions headers body id rd sv).
Proof.
  unfold chat_completions, charges, chat. destruct (unsupported_text_surface body); [by left|].
  pose proof (preflight_ledger headers id (rd_limiters rd) (rd_limiters rd) (sv_books sv)) as Hp.
  destruct (preflight_access _ _ _ _ _) as [b [grant|answer]]; cbn [fst snd] in *; [|by left].
  set (sv1 := on_books (fun _ => b) sv). assert (idle sv sv1) as Hi by done.
  change b with (sv_books sv1). clearbody sv1. clear Hp. rewrite (env_now_idle sv sv1 Hi).
  destruct (resolve_policy_profile _ _ _) as [profile|] eqn:Hprofile; [|done]. cbn [mbind option_bind].
  destruct (Chat.decide _ _ _ _ _ _ _ _ _ _ _) as [d|r] eqn:Hd; [|by left].
  pose proof (routing_headers_ledger grant d (rd_limiters rd) (rd_limiters rd) (sv_books sv1)) as Hr.
  destruct (routing_headers _ _ _ _ _) as [b' [rheaders|answer]]; cbn [fst] in Hr;
    [|left; apply answering_idle; destruct Hi; split; [done|by transitivity (ledger sv1)]].
  set (sv2 := on_books (record_decision grant d rd) _).
  assert (idle sv sv2) as Hi2 by (destruct Hi; split; [done|by transitivity (ledger sv1)]). clearbody sv2.
  destruct (gs_dry_run s || _) eqn:Hdry; [left; by apply answering_idle|].
  pose proof (serve_decision_serves grant headers d rheaders rd sv2) as Hs.
  rewrite (env_now_idle sv sv2 Hi2) in Hs.
  destruct Hs as [[Hw Hl]|(plan & Hplan & Hs)].
  - left. destruct Hi2. split; congruence.
  - right. exists grant, d, plan. split; [done|]. rewrite Hprofile. cbn [mbind option_bind]. rewrite Hd, Hplan.
    split; [done|]. by eapply serves_after.
Qed.

(** *** What a streamed request is handed

    Only the last step hands on, and it has sent and charged nothing. *)
Definition hands_on (grant : option AccessGrant) (d : ChatDecision (number := number)) (plan : list str) sv (r : Serving * Response) : Prop :=
  forall input, rs_body r.2 = StreamAnswer input ->
    si_access_grant input = grant /\ si_decision input = d /\ si_plan input = plan /\ idle sv r.1.

Definition unstreamed (r : Response) : Prop := forall input, rs_body r <> StreamAnswer input.

Local Ltac unstream := intros Ha input Hin; revert Ha; repeat case_match; intros Ha; simplify_eq/=; try done.

Lemma answering_hands h rd answer grant d plan sv0 sv : unstreamed answer -> hands_on grant d plan sv0 (answering h rd answer sv).
Proof. intros Hu input Hi. by destruct (Hu input). Qed.

Lemma hands_after grant d plan sv0 sv r : idle sv0 sv -> hands_on grant d plan sv r -> hands_on grant d plan sv0 r.
Proof. intros [Hw Hl] Hr input Hi. destruct (Hr input Hi) as (? & ? & ? & [? ?]). split_and!; [done..|]. split; congruence. Qed.

Lemma delivery_failure_unstreamed f h : unstreamed (delivery_failure f h).
Proof. intros input. destruct f as [m|e|m|e]; [done| |done|done]. unfold delivery_failure. by destruct (fatal_delivery_status e). Qed.

Lemma request_tokens_unstreamed grant d rheaders rd sv answer :
  (reserve_request_tokens grant d rheaders rd sv).2 = Err answer -> unstreamed answer.
Proof. unfold reserve_request_tokens, rate_limited_response, access_state_error. unstream. Qed.

Lemma consult_unstreamed grant headers d target rheaders rd sv answer :
  (consult_cache grant headers d target rheaders rd sv).2 = inl answer -> unstreamed answer.
Proof. unfold consult_cache, cache_hit. unstream. Qed.

Lemma preflight_unstreamed headers id now now' b answer : (preflight_access headers id now now' b).2 = Err answer -> unstreamed answer.
Proof. unfold preflight_access, when_admitted. unstream. Qed.

Lemma routing_headers_unstreamed grant d now now' b answer : (routing_headers grant d now now' b).2 = Err answer -> unstreamed answer.
Proof.
  unfold routing_headers. unstream; destruct (insert_all _ _); simplify_eq/=; done.
Qed.

Lemma serve_buffered_hands grant headers d plan rheaders missed permit reservation l rd sv :
  hands_on grant d plan sv (serve_buffered grant headers d plan rheaders missed permit reservation l rd sv).
Proof.
  unfold serve_buffered. destruct (negb has_delivery); [by apply answering_hands|]. destruct (send_plan _ _ _) as [w [o|f]].
  - apply answering_hands. intros input. by destruct (served_headers _ _ _ _).
  - apply answering_hands, delivery_failure_unstreamed.
Qed.

Lemma serve_leased_hands grant headers d plan rheaders missed l rd sv :
  hands_on grant d plan sv (serve_leased grant headers d plan rheaders missed l rd sv).
Proof.
  unfold serve_leased. pose proof (acquire_ledger (rq_request_id (dc_request d)) (rd_acquired rd) (sv_books sv)) as Ha.
  destruct (acquire_delivery _ _ _ _) as [b [permit|e]]; cbn [fst] in Ha.
  - set (sv1 := on_books _ sv). assert (idle sv sv1) as Hi by done. clearbody sv1. eapply hands_after; [exact Hi|].
    destruct (request_tokens_ledger grant d rheaders rd sv1) as [Hl Hw]. pose proof (request_tokens_unstreamed grant d rheaders rd sv1) as Hu.
    destruct (reserve_request_tokens _ _ _ _ _) as [sv2 [reservation|answer]]; cbn [fst snd] in *; [|by apply answering_hands, Hu].
    destruct (wants_stream d); [by intros input [= <-]|]. apply (hands_after _ _ _ _ sv2); [done|]. apply serve_buffered_hands.
  - destruct (admission_error_response _ _ _) as [b' answer] eqn:E. apply answering_hands. intros input.
    unfold admission_error_response in E. by destruct (overload_reason e) as [[reason n]|]; injection E as _ <-.
Qed.

Lemma serve_plan_hands grant headers d plan rheaders missed rd sv :
  hands_on grant d plan sv (serve_plan grant headers d plan rheaders missed rd sv).
Proof.
  unfold serve_plan. pose proof (reserve_budget_ledger (rq_request_id (dc_request d)) (dc_prompt_estimate d) (JObject (dc_body d))
    (chat_workspace_id s grant) (chat_key_id s grant) (dc_offline d) (rd_seconds rd) (sv_books sv)) as Hr.
  destruct (reserve_shared_budget _ _ _ _ _ _ _ _ _) as [b1 [l| |]]; cbn [fst] in Hr; [|by apply answering_hands|];
    (set (sv1 := on_books _ sv); apply (hands_after _ _ _ _ sv1); [done|apply serve_leased_hands]).
Qed.

(** A stream is handed what the caller was granted, decided and planned. *)
Lemma chat_completions_hands_on headers body id rd sv sv' answer input :
  chat_completions headers body id rd sv = Some (sv', answer) -> rs_body answer = StreamAnswer input ->
  (preflight_access headers id (rd_limiters rd) (rd_limiters rd) (sv_books sv)).2 = Ok (si_access_grant input) /\
  chat parse_url to_lowercase compiled sha256 s (env_now sv) (si_access_grant input) headers body id =
    Some (Planned (si_decision input) (si_plan input)) /\
  idle sv sv'.
Proof.
  unfold chat_completions, chat. destruct (unsupported_text_surface body); [by intros [= <- <-]|].
  pose proof (preflight_ledger headers id (rd_limiters rd) (rd_limiters rd) (sv_books sv)) as Hp.
  pose proof (preflight_unstreamed headers id (rd_limiters rd) (rd_limiters rd) (sv_books sv)) as Hpu.
  destruct (preflight_access _ _ _ _ _) as [b [grant|answer0]]; cbn [fst snd] in *; [|intros [= <- <-] Hi; by destruct (Hpu answer0 eq_refl input)].
  set (sv1 := on_books (fun _ => b) sv). assert (idle sv sv1) as Hi by done. clear Hpu.
  change b with (sv_books sv1). clearbody sv1. clear Hp. rewrite (env_now_idle sv sv1 Hi).
  destruct (resolve_policy_profile _ _ _) as [profile|] eqn:Hprofile; [|done]. cbn [mbind option_bind].
  destruct (Chat.decide _ _ _ _ _ _ _ _ _ _ _) as [d|r] eqn:Hd; [|by intros [= <- <-]].
  pose proof (routing_headers_ledger grant d (rd_limiters rd) (rd_limiters rd) (sv_books sv1)) as Hr.
  pose proof (routing_headers_unstreamed grant d (rd_limiters rd) (rd_limiters rd) (sv_books sv1)) as Hru.
  destruct (routing_headers _ _ _ _ _) as [b' [rheaders|answer0]]; cbn [fst snd] in *;
    [|intros [= <- <-] Hin; by destruct (Hru answer0 eq_refl input)].
  set (sv2 := on_books (record_decision grant d rd) _).
  assert (idle sv sv2) as Hi2 by (destruct Hi; split; [done|by transitivity (ledger sv1)]). clearbody sv2.
  destruct (gs_dry_run s || _) eqn:Hdry; [by intros [= <- <-]|]. unfold serve_decision.
  destruct (primary_target d) as [target|r]; [|by intros [= <- <-]].
  pose proof (consult_ledger grant headers d target rheaders rd sv2) as Hl. pose proof (consult_world grant headers d target rheaders rd sv2) as Hw.
  pose proof (consult_unstreamed grant headers d target rheaders rd sv2) as Hcu.
  destruct (consult_cache _ _ _ _ _ _ _) as [sv3 [answer0|missed]]; cbn [fst snd] in *;
    [intros [= <- <-] Hin; by destruct (Hcu answer0 eq_refl input)|].
  assert (idle sv sv3) as Hi3 by (destruct Hi2; split; congruence). unfold plan_now. rewrite <- (env_now_idle sv sv3 Hi3), (env_now_idle sv sv3 Hi3).
  destruct (plan_request _ _ _ _ _ _) as [plan|r] eqn:Hplan; [|by intros [= <- <-]].
  intros [= Hsv] Hin. destruct (serve_plan_hands grant headers d plan rheaders missed rd sv3 input) as (Hg & Hdec & Hpl & Hid); [by rewrite Hsv|].
  rewrite Hsv in Hid. cbn [fst] in Hid. rewrite Hg, Hdec, Hpl. split; [done|]. rewrite Hprofile. cbn [mbind option_bind].
  rewrite Hd, Hplan. split; [done|]. destruct Hi3, Hid. split; congruence.
Qed.
End Charges.
(** C3: A chat request returns what it takes from the fleet.  On a backend
    whose leases are counted, the answers to a request, whatever the decision,
    the cache, the limits and the providers do, leave no budget reservation and
    no admission slot behind, and release none they do not hold; a streamed
    answer holds exactly the slot and the reservation it is handed. *)
Theorem chat_request_settles held headers body id rd sv :
  lease_laws held ->
  match chat_completions headers body id rd sv with
  | Some (sv', answer) =>
      leases_of held (sv_books sv') =
        match rs_body answer with
        | StreamAnswer input => slot_list (si_permit input) ++ lease_list (si_shared_budget input)
        | _ => []
        end ++ leases_of held (sv_books sv)
  | None => True
  end.
Proof.
  intros HL. pose proof (chat_completions_settles held HL headers body id rd sv) as Hs.
  destruct (chat_completions _ _ _ _ _) as [[sv' answer]|]; [|done]. exact Hs.
Qed.

End Serving.

(** ** Closed requests

    A fleet that grants what it is asked, over the in-process limiters. *)
Definition granting_fleet : StateBackend MemoryStateBackend := {|
  backend_name _ := lit "redis";
  sb_admit := sb_admit;
  sb_reserve := sb_reserve;
  sb_reserve_tokens := sb_reserve_tokens;
  sb_reconcile := sb_reconcile;
  sb_rollback := sb_rollback;
  sb_add_tokens := sb_add_tokens;
  sb_snapshot := sb_snapshot;
  sb_record_cost b _ := (b, Ok true);
  sb_spend b _ _ _ := (b, Ok f64_zero);
  sb_reserve_budget b _ := (b, Ok true);
  sb_release_budget b _ := (b, Ok ());
  sb_acquire_admission b _ _ _ := (b, Ok true);
  sb_release_admission b _ := (b, Ok ());
  sb_begin_provider_health b _ _ _ _ := (b, Ok true);
  sb_complete_provider_health b _ _ _ _ _ := (b, Ok ());
  sb_release_provider_health b _ _ := (b, Ok ());
  sb_shared_cache_get b _ _ := (b, Ok None);
  sb_shared_cache_put b _ := (b, Ok true);
  sb_shared_cache_clear b _ := (b, Ok ());
  sb_record_canary := sb_record_canary;
  sb_canary_snapshot := sb_canary_snapshot;
  sb_trip_canary := sb_trip_canary;
  sb_append_audit b _ _ _ := (b, Ok ());
  sb_degraded _ := false;
|}.

Definition fleet_gateway : GatewayState :=
  let s := sample_gateway (spent_budget "degrade") default_canary in
  {| gs_routing := gs_routing s; gs_models := gs_models s; gs_route_presets := gs_route_presets s; gs_policy := None;
     gs_offline := false; gs_dry_run := false; gs_route_on := Turn; gs_sticky := false; gs_sticky_cooldown := 0;
     gs_slash_directives := true; gs_access_policy := None; gs_budget_policy := gs_budget_policy s; gs_priced := true;
     gs_reliability := sample_policy; gs_canary := default_canary |}.

Definition sample_rates : PriceTable (list (str * f64)) :=
  {| costs := [(lit "cloud", f64_of_Z 2); (lit "local", f64_zero)]; table_priced := true |}.

Definition sample_readings (acquired : result f64 AdmissionError) : Readings :=
  {| rd_seconds := 951782400; rd_timestamp := f64_zero; rd_decided_in := f64_zero; rd_limiters := f64_zero;
     rd_limiters_after := f64_zero; rd_cache_get := f64_zero; rd_cache_put := f64_zero; rd_acquired := acquired; rd_latency_ms := 5 |}.

Definition cache_off : CacheSettings := {| Cache.enabled := false; ttl_seconds := f64_of_Z 60; max_entries := 8; max_bytes := 1024 |}.

Definition sample_serving : Serving (MC := list (str * StoredResponse)) (BH := unit) (B := leased MemoryStateBackend) :=
  {| sv_world := start_world;
     sv_books := {| bk_ledger := default_ledger; bk_recent := default_recent; bk_metrics := GatewayMetrics_new (lit "1") 8;
                    bk_fleet := {| ft_backend := (MemoryStateBackend_default, []); ft_limiters := []; ft_degraded := false |};
                    bk_rollbacks := [] |};
     sv_cache := {| settings := cache_off; store := []; bytes := 0; hits := 0; misses := 0 |} |}.

Definition sample_receipt : DecisionPolicyReceipt :=
  {| rc_version := UNMANAGED_POLICY_ID; rc_snapshot_id := UNMANAGED_SNAPSHOT_ID; rc_profile_id := None |}.

Definition serve_sample (stream : bool) (acquired : result f64 AdmissionError) :=
  chat_completions (H4 := @leased_backend _ granting_fleet) sample_parse_url to_ascii_lowercase (Ok sample_patterns) zero_hash Some (fun _ => JNull)
    (fun _ => None) (fun _ => None) fleet_gateway sample_env sample_rates None true true false 4 1 (lit "g") cache_off sample_receipt
    scripted_send (fun _ => f64_zero) (fun _ => f64_zero) (fun _ => f64_zero) false []
    (if stream then ix_insert (ChatDelivery.sample_body "cloud") (lit "stream") (JBool true) else ChatDelivery.sample_body "cloud") (lit "r")
    (sample_readings acquired) sample_serving.

(** What a run leaves: the status, the leases, the days with a turn. *)
Definition left_by (r : option (Serving (MC := list (str * StoredResponse)) (BH := unit) (B := leased MemoryStateBackend) * Response (number := Z)))
    : option (Z * list lease * list str) :=
  '(sv, answer) ← r;
  Some (rs_status answer, leases_of snd (sv_books sv), map fst (days (bk_ledger (sv_books sv)))).

(** Served, and charged to the leap day; streamed, holding both leases; no
    delivery slot in time. *)
Example sample_serves :
  left_by (serve_sample false (Ok f64_zero)) = Some (200, [], [lit "2000-02-29"]) /\
  match left_by (serve_sample true (Ok f64_zero)) with
  | Some (200, [SlotLease slot; BudgetLease budget], []) =>
      slot = lit "r" /\ br_date budget = lit "2000-02-29" /\ length (br_scopes budget) = 1%nat
  | _ => False
  end /\
  left_by (serve_sample false (Err QueueFull)) = Some (503, [], []).
Proof. vm_compute. repeat split. Qed.

Lemma chat_request_settles_witness :
  match serve_sample true (Ok f64_zero) with
  | Some (sv, answer) =>
      exists input, rs_body answer = StreamAnswer input /\ length (slot_list (si_permit input) ++ lease_list (si_shared_budget input)) = 2%nat /\
  leases_of snd (sv_books sv) = slot_list (si_permit input) ++ lease_list (si_shared_budget input)
  | None => False
  end.
Proof.
  assert (match serve_sample true (Ok f64_zero) with
          | Some (_, answer) => match rs_body answer with
                                | StreamAnswer input => length (slot_list (si_permit input) ++ lease_list (si_shared_budget input)) = 2%nat
                                | _ => False
                                end
          | None => False
          end) as Hrun by (vm_compute; reflexivity).
  pose proof (chat_request_settles (H4 := @leased_backend _ granting_fleet) sample_parse_url to_ascii_lowercase (Ok sample_patterns) zero_hash
    Some (fun _ => JNull) (fun _ => None) (fun _ => None) fleet_gateway sample_env sample_rates None true true false 4 1 (lit "g") cache_off
    sample_receipt scripted_send (fun _ => f64_zero) (fun _ => f64_zero) (fun _ => f64_zero) false snd []
    (ix_insert (ChatDelivery.sample_body "cloud") (lit "stream") (JBool true)) (lit "r") (sample_readings (Ok f64_zero)) sample_serving
    (@leased_laws _ granting_fleet)) as Hs.
  change (chat_completions _ _ _ _ _ _ _ _ _ _ _ _ _ _ _ _ _ _ _ _ _ _ _ _ _ _ _ _ _ _) with (serve_sample true (Ok f64_zero)) in Hs.
  destruct (serve_sample true (Ok f64_zero)) as [[sv answer]|]; [|done]. destruct (rs_body answer) as [| | |input]; try done.
  exists input. split; [done|]. split; [done|]. etrans; [exact Hs|apply app_nil_r].
Defined.
