(* ===== verification/Streaming.v ===== *)
(** * Streamed chat requests (crate [wayfinder-gateway], [streaming_chat_response] of [src/lib.rs])

    What [chat_completions] does with a streamed request after handing it on:
    the provider that opens a stream, the relay of its chunks through the event
    decoder, the end of the relay (a finished stream, a failure, a client that
    leaves) with its accounting, and what goes out of scope there.  The whole
    exchange, buffered or streamed, is [chat_exchange].  An upstream is the
    finite list of its chunks; the client polls the body a number of times and
    leaves if it has not ended.  The await points inside the end of a relay and
    the degraded gauge of the shared circuits are not modelled. *)
From S2P Require Export Serving Sse.

(** ** Streams *)
Record StreamingDeliveryResponse := {
  sd_status : Z;
  sd_content_type : str;
  sd_chunks : list (result (list Z) DeliveryError);
}.

Definition stream_failure_type (error : DeliveryError) : str :=
  match error with
  | Codex (CodexUnavailable | AuthenticationRequired | CodexModelUnavailable) => lit "wayfinder_router_not_ready"
  | Codex CodexInvalidRequest => lit "wayfinder_router_unsupported_request"
  | Codex Busy => lit "wayfinder_router_busy"
  | Codex TurnFailed => lit "wayfinder_router_turn_failed"
  | Codex Interrupted => lit "wayfinder_router_interrupted"
  | Codex UsageLimitReached => lit "wayfinder_router_usage_limited"
  | _ => lit "wayfinder_router_upstream_error"
  end.

Definition stream_failure_affects_reliability (error : DeliveryError) : bool :=
  match error with
  | Codex (AuthenticationRequired | CodexModelUnavailable | Busy | UsageLimitReached | CodexInvalidRequest | Interrupted) => false
  | _ => true
  end.

(** [last_error] and [last_failure]. *)
Record StreamFailure := { fl_error : message; fl_status : Z; fl_kind : str }.

Definition upstream_error : str := lit "wayfinder_router_upstream_error".

Definition not_established : StreamFailure :=
  {| fl_error := Msg "upstream stream could not be established" []; fl_status := 502; fl_kind := upstream_error |}.

Definition failing (f : StreamFailure) (m : message) : StreamFailure :=
  {| fl_error := m; fl_status := fl_status f; fl_kind := fl_kind f |}.

(** An established stream, and the circuit attempt that goes with it. *)
Record Established := {
  es_alias : str;
  es_target : ConfiguredModel;
  es_reason : str;
  es_response : StreamingDeliveryResponse;
  es_attempt : CombinedReliabilityAttempt;
}.

Section Streaming.
Context {number : Type} `{JsonNumber number, JsonText number} {M MC : Type} `{IndexMap f64 M, IndexMap StoredResponse MC}.
Context {BH B : Type} `{SharedHealth BH, StateBackend B}.
Context (parse_url : str -> option Url) (to_lowercase : str -> str) (compiled : result Patterns str) (sha256 : list Z -> list Z).
Context (HeaderValue_from_str : str -> option (list Z)) (to_json : DecisionResponse -> Value number).
Context (encode_shared : CachedResponse -> option (list Z)) (decode_shared : list Z -> option CachedResponse).
Context (s : GatewayState) (env : ChatEnv) (prices : PriceTable M) (shared_access : option SharedAccessPolicy).
Context (shared_backend has_delivery shared_cache : bool) (max_in_flight queue_timeout_secs : Z) (generation : str)
        (cache_settings : CacheSettings) (receipt : DecisionPolicyReceipt).
Context (env_send : nat -> ConfiguredModel -> result BufferedDeliveryResponse DeliveryError).
Context (env_elapsed env_clock env_signal_clock : nat -> f64) (shared_health : bool).

(** The streaming client, and the text of an error. *)
Context (has_streaming : bool) (env_stream : nat -> ConfiguredModel -> result StreamingDeliveryResponse DeliveryError)
        (error_text : DeliveryError + SseDecodeError -> str).

Local Notation accounts := (accounts s prices shared_access shared_backend max_in_flight).
Local Notation insert_header := (insert_header HeaderValue_from_str).
Local Notation request_id_headers := (request_id_headers HeaderValue_from_str).
Local Notation Serving := (Serving (MC := MC) (BH := BH) (B := B)).
Local Notation World := (World (B := BH)).
Local Notation Response := (Response (number := number)).
Local Notation Decision := (ChatDecision (number := number)).
Implicit Types sv : Serving.

Definition with_world sv (w : World) : Serving := {| sv_world := w; sv_books := sv_books sv; sv_cache := sv_cache sv |}.

(** ** Opening a stream *)

(** [CombinedReliabilityAttempt] going out of scope: the local attempt's drop,
    and the shared one's, which counts as a failure. *)
Definition drop_combined (a : CombinedReliabilityAttempt) (w : World) : World :=
  let '(w, t) := ask w in
  let w := set_breaker w (drop_attempt (w_breaker w) (ca_local a) (env_clock t)) in
  if ca_shared a then
    set_shared w (complete_provider_health (w_shared w) (at_target (ca_local a)) (rp_breaker_threshold (gs_reliability s))
                    (rp_breaker_cooldown_ms (gs_reliability s)) (ca_probe_id a) false)
  else w.

Definition drop_established (e : option Established) sv : Serving :=
  match e with Some e => with_world sv (drop_combined (es_attempt e) (sv_world sv)) | None => sv end.

(** What the handler answers before any relay. *)
Inductive StreamReply :=
| Refused (answer : Response)
| PassedOn (status : Z) (headers : HeaderMap) (upstream : list (result (list Z) DeliveryError)).

Inductive stream_try :=
| TryOpened (r : StreamingDeliveryResponse)
| TryReturned (reply : StreamReply)
| TryFailed (f : StreamFailure).

Definition count_upstream_error (target_id : str) sv : Serving := on_books (on_metrics (fun m => observe_upstream_error m target_id)) sv.

(** [attempt.complete(..).await] with its error answered. *)
Definition complete_or_refuse (request_id : str) (a : CombinedReliabilityAttempt) (succeeded : bool) (k : stream_try) sv : Serving * stream_try :=
  let '(w, r) := complete_attempt env_clock (gs_reliability s) (sv_world sv) a succeeded in
  (with_world sv w,
   match r with
   | Ok _ => k
   | Err _ => TryReturned (Refused (state_error (Msg "{reliability error}" []) (request_id_headers request_id)))
   end).

(** One round of the retry loop. *)
Definition stream_once (d : Decision) (headers : HeaderMap) (alias : str) (target : ConfiguredModel) (a : CombinedReliabilityAttempt)
    (f : StreamFailure) sv : Serving * stream_try :=
  let id := rq_request_id (dc_request d) in
  let target_id := delivery_id target in
  let '(w, t) := ask (sv_world sv) in
  let sv := with_world sv (log_sent w target) in
  let observed sv status := with_world sv (elapsed_observation env_elapsed env_signal_clock (sv_world sv) target_id status) in
  match env_stream t target with
  | Ok r =>
      let status := sd_status r in
      if is_success status then (sv, TryOpened r)
      else if is_retryable (Some status) then
        (count_upstream_error target_id (observed sv (Some status)), TryFailed (failing f (Msg "upstream returned {status}" [ArgInt status])))
      else
        let sv := on_books (on_recent (fun recent => update_delivery recent id alias (model_execution_boundary parse_url target)
                                                       Recent.Failed (Some status) (Some upstream_error))) sv in
        complete_or_refuse id a (negb (is_auth_failure (Some status)))
          (TryReturned
             (match insert_header (ix_insert headers CONTENT_TYPE
                                     (default (lit "application/octet-stream") (HeaderValue_from_str (sd_content_type r))))
                      ROUTER_SERVED_BY_HEADER alias with
              | Err m => Refused (misconfigured m (request_id_headers id))
              | Ok headers => PassedOn status headers (sd_chunks r)
              end)) (observed sv (Some status))
  | Err error =>
      let '(status, kind) := fatal_delivery_status error in
      let f := {| fl_error := Msg "{delivery error}" []; fl_status := status; fl_kind := kind |} in
      let sv := count_upstream_error target_id (observed sv None) in
      let returned := TryReturned (Refused {| rs_status := status; rs_headers := headers; rs_body := ErrorAnswer kind (CauseText (fl_error f)) |}) in
      match error with
      | Provider Transport => (sv, TryFailed f)
      | _ =>
          if stream_failure_affects_reliability error then complete_or_refuse id a false returned sv
          else (with_world sv (release_attempt env_clock (sv_world sv) a), returned)
      end
  end.

(** [for attempt_index in 0..=retries]; the last failure fails the attempt. *)
Fixpoint stream_retries (d : Decision) (headers : HeaderMap) (alias : str) (target : ConfiguredModel) (a : CombinedReliabilityAttempt)
    (more : nat) (f : StreamFailure) sv : Serving * stream_try :=
  let '(sv, r) := stream_once d headers alias target a f sv in
  match r, more with
  | TryFailed f, S more => stream_retries d headers alias target a more f sv
  | TryFailed f, O => complete_or_refuse (rq_request_id (dc_request d)) a false (TryFailed f) sv
  | _, _ => (sv, r)
  end.

(** The deployments of an alias.  An opened stream ends the retries of its
    deployment, not this loop: a later one that opens replaces it, and what it
    replaces goes out of scope. *)
Fixpoint stream_targets (d : Decision) (headers : HeaderMap) (alias reason : str) (targets : list ConfiguredModel) (e : option Established)
    (f : StreamFailure) sv : Serving * (option Established * StreamFailure + StreamReply) :=
  match targets with
  | [] => (sv, inl (e, f))
  | target :: targets =>
      let target_id := delivery_id target in
      if negb (bool_decide (m_deployment_id target = None)) && negb (m_key_ready target) then
        stream_targets d headers alias reason targets e (failing f (Msg "deployment '{target_id}' credential is unavailable" [ArgStr target_id])) sv
      else
        let id := rq_request_id (dc_request d) in
        match begin_reliability_attempt env_clock (gs_reliability s) shared_health (sv_world sv) target_id id with
        | (w, Err _) =>
            (drop_established e (with_world sv w),
             inr (Refused (state_error (Msg "{reliability error}" []) (request_id_headers id))))
        | (w, Ok None) => stream_targets d headers alias reason targets e f (with_world sv w)
        | (w, Ok (Some a)) =>
            let '(sv, r) := stream_retries d headers alias target a (rp_retries (gs_reliability s)) f (with_world sv w) in
            match r with
            | TryOpened r =>
                stream_targets d headers alias reason targets
                  (Some {| es_alias := alias; es_target := target; es_reason := reason; es_response := r; es_attempt := a |}) f
                  (drop_established e sv)
            | TryReturned reply => (drop_established e sv, inr reply)
            | TryFailed f => stream_targets d headers alias reason targets e f sv
            end
        end
  end.

(** The aliases of the plan, up to the first with an opened stream. *)
Fixpoint stream_plan (d : Decision) (headers : HeaderMap) (plan : list str) (f : StreamFailure) sv
    : Serving * (option Established * StreamFailure + StreamReply) :=
  match plan with
  | [] => (sv, inl (None, f))
  | alias :: plan =>
      let '(configured, cursors) := deployment_candidates (gs_models s) (w_cursors (sv_world sv)) alias in
      let sv := with_world sv (set_cursors (sv_world sv) cursors) in
      match configured with
      | [] => stream_plan d headers plan (failing f (Msg "configured delivery target '{target_name}' is missing" [ArgStr alias])) sv
      | _ =>
          match eligible_deployment_targets parse_url configured (dc_request d) (dc_offline d) (dc_prompt_estimate d) with
          | [] =>
              stream_plan d headers plan
                (failing f (Msg "configured delivery target '{target_name}' has no eligible deployment for this request" [ArgStr alias])) sv
          | eligible =>
              let '(w, selection) := select_deployments env_signal_clock (gs_models s) (sv_world sv) alias eligible in
              let sv := with_world sv w in
              match targets selection with
              | [] =>
                  stream_plan d headers plan
                    (failing f (Msg "configured delivery target '{target_name}' is excluded by its deployment price ceiling" [ArgStr alias])) sv
              | targets =>
                  match stream_targets d headers alias (reason selection) targets None f sv with
                  | (sv, inl (None, f)) => stream_plan d headers plan f sv
                  | r => r
                  end
              end
          end
      end
  end.

(** ** The relay *)
Record StreamRelayContext := {
  sx_alias : str;
  sx_target_id : str;
  sx_request_id : str;
  sx_messages : Value number;
  sx_grant : option AccessGrant;
  sx_decoder : SseDecoder;
  sx_chars : Z;
  sx_ttft : option f64;
  sx_recorded : bool;
  sx_initial : option (list Z);
  sx_tokens : option (list TokenReservationEntry);
  sx_attempt : option CombinedReliabilityAttempt;
  sx_permit : ObservedAdmissionPermit;
  sx_lease : option SharedBudgetReservation;
  sx_guard : option CanaryContext;
}.

Definition without_initial (c : StreamRelayContext) : StreamRelayContext :=
  {| sx_alias := sx_alias c; sx_target_id := sx_target_id c; sx_request_id := sx_request_id c; sx_messages := sx_messages c;
     sx_grant := sx_grant c; sx_decoder := sx_decoder c; sx_chars := sx_chars c; sx_ttft := sx_ttft c; sx_recorded := sx_recorded c;
     sx_initial := None; sx_tokens := sx_tokens c; sx_attempt := sx_attempt c; sx_permit := sx_permit c; sx_lease := sx_lease c;
     sx_guard := sx_guard c |}.

Definition after_events (c : StreamRelayContext) (decoder : SseDecoder) (chars : Z) (ttft : option f64) : StreamRelayContext :=
  {| sx_alias := sx_alias c; sx_target_id := sx_target_id c; sx_request_id := sx_request_id c; sx_messages := sx_messages c;
     sx_grant := sx_grant c; sx_decoder := decoder; sx_chars := chars; sx_ttft := ttft; sx_recorded := sx_recorded c;
     sx_initial := sx_initial c; sx_tokens := sx_tokens c; sx_attempt := sx_attempt c; sx_permit := sx_permit c;
     sx_lease := sx_lease c; sx_guard := sx_guard c |}.

(** What is left of a context once its outcome is recorded: the attempt taken,
    and, after a success, the tokens, the lease and the guard too. *)
Definition with_outcome (c : StreamRelayContext) (settled : bool) : StreamRelayContext :=
  {| sx_alias := sx_alias c; sx_target_id := sx_target_id c; sx_request_id := sx_request_id c; sx_messages := sx_messages c;
     sx_grant := sx_grant c; sx_decoder := sx_decoder c; sx_chars := sx_chars c; sx_ttft := sx_ttft c; sx_recorded := true;
     sx_initial := sx_initial c; sx_tokens := if settled then None else sx_tokens c; sx_attempt := None; sx_permit := sx_permit c;
     sx_lease := if settled then None else sx_lease c; sx_guard := if settled then None else sx_guard c |}.

(** The texts of an event's choices. *)
Definition delta_contents (data : str) : list str :=
  match from_slice (as_bytes data) with
  | Ok value =>
      match value_get value (lit "choices") ≫= as_array with
      | Some choices => omap (fun choice => delta ← value_get choice (lit "delta") ≫= as_object; obj_get delta (lit "content") ≫= as_str) choices
      | None => []
      end
  | Err _ => []
  end.

Definition observe_content (acc : World * Z * option f64) (content : str) : World * Z * option f64 :=
  let '(w, chars, ttft) := acc in
  let '(w, ttft) :=
    match content, ttft with
    | _ :: _, None => let '(w, t) := ask w in (w, Some (env_elapsed t))
    | _, _ => (w, ttft)
    end in
  (w, u64_sat_add chars (len content), ttft).

Definition observe_event (acc : World * Z * option f64) (e : SseEvent) : World * Z * option f64 :=
  if str_eqb (trim (ev_data e)) (lit "[DONE]") then acc else foldl observe_content acc (delta_contents (ev_data e)).

Definition observe_stream_events (events : list SseEvent) (decoder : SseDecoder) (c : StreamRelayContext) sv : Serving * StreamRelayContext :=
  let '(w, chars, ttft) := foldl observe_event (sv_world sv, sx_chars c, sx_ttft c) events in
  (with_world sv w, after_events c decoder chars ttft).

(** An event of the gateway's own; [fallback] is what is sent when the payload
    cannot be written, with its quotes as apostrophes. *)
Definition apostrophes_quoted (text : string) : list Z := map (fun c => if c =? 39 then 34 else c) (lit text).

Definition stream_frame (payload : Value number) (fallback : string) : list Z :=
  lit "data: " ++ match to_vec payload with Ok bytes => bytes | Err _ => apostrophes_quoted fallback end ++ [10; 10].

Definition failure_payload (m kind : str) : Value number :=
  JObject [(lit "error", JObject [(lit "message", JString m); (lit "type", JString kind)])].

Definition complete_quietly (a : option CombinedReliabilityAttempt) (succeeded : bool) sv : Serving :=
  match a with
  | Some a => with_world sv (complete_attempt env_clock (gs_reliability s) (sv_world sv) a succeeded).1
  | None => sv
  end.

(** [stream_failure_chunk]. *)
Definition stream_failure_chunk (c : StreamRelayContext) (m kind : str) (affects : bool) sv : Serving * StreamRelayContext * list Z :=
  let sv := on_books (on_recent (fun recent => update_outcome recent (sx_request_id c) Recent.Failed None (Some kind))) sv in
  let sv := if sx_recorded c then sv
            else with_world sv (elapsed_observation env_elapsed env_signal_clock (sv_world sv) (sx_target_id c) None) in
  let sv := count_upstream_error (sx_target_id c) sv in
  let sv :=
    if affects then complete_quietly (sx_attempt c) false sv
    else match sx_attempt c with Some a => with_world sv (release_attempt env_clock (sv_world sv) a) | None => sv end in
  (sv, with_outcome c false, stream_frame (failure_payload m kind) "{'error':{'message':'upstream error','type':'wayfinder_router_upstream_error'}}"
                      ++ lit "data: [DONE]" ++ [10; 10]).

(** [finish_stream_success]: the signal, the circuit, the accounts, the canary,
    the record. *)
Definition finish_stream_success (rd : Readings) (c : StreamRelayContext) sv : Serving * StreamRelayContext :=
  let '(w, t) := ask (sv_world sv) in
  let elapsed := env_elapsed t in
  let sv := on_books (on_metrics (fun m => observe_upstream m (sx_target_id c) elapsed)) (with_world sv w) in
  let throughput := if (0 <? sx_chars c) && f64_gt elapsed f64_zero then Some (f64_div (f64_of_Z (sx_chars c)) elapsed) else None in
  let sv := with_world sv (observe_deployment env_signal_clock (sv_world sv) (sx_target_id c) (observation_success elapsed (sx_ttft c) throughput)) in
  let sv := complete_quietly (sx_attempt c) true sv in
  let '(b, usage) :=
    account_stream_success accounts (sx_alias c) (sx_request_id c) (sx_messages c) (sx_grant c) (sx_chars c) (sx_tokens c) (sx_lease c)
      (rd_seconds rd) (rd_limiters_after rd) (rd_limiters_after rd) (sv_books sv) in
  let b := finish_guard accounts (sx_guard c) true (sx_alias c) usage (rd_latency_ms rd) (rd_timestamp rd) b in
  let b := on_recent (fun recent => update_outcome recent (sx_request_id c) Recent.Succeeded (Some 200) None) b in
  (on_books (fun _ => b) sv, with_outcome c true).

(** The context going out of scope: an outcome not recorded is a cancellation;
    then its fields, in their order. *)
Definition drop_context (rd : Readings) (c : StreamRelayContext) sv : Serving :=
  let sv := if sx_recorded c then sv
            else on_books (on_recent (fun recent => update_outcome recent (sx_request_id c) Recent.Cancelled None
                                                      (Some (lit "wayfinder_router_cancelled")))) sv in
  let sv := match sx_attempt c with Some a => with_world sv (drop_combined a (sv_world sv)) | None => sv end in
  on_books (fun b => drop_guard accounts (sx_guard c) (rd_latency_ms rd) (rd_timestamp rd) (settle_lease (sx_lease c) (drop_permit (sx_permit c) b))) sv.

(** One poll of the body: a chunk for the client, and the phase it leaves. *)
Definition relay_poll (rd : Readings) (c : StreamRelayContext) (upstream : list (result (list Z) DeliveryError)) sv
    : Serving * option (list Z) * option (StreamRelayContext * list (result (list Z) DeliveryError)) :=
  let failed m kind affects c :=
    let '(sv, c, chunk) := stream_failure_chunk c m kind affects sv in (drop_context rd c sv, Some chunk, None) in
  match sx_initial c with
  | Some event => (sv, Some event, Some (without_initial c, upstream))
  | None =>
      match upstream with
      | Ok chunk :: upstream =>
          match push (sx_decoder c) chunk with
          | (decoder, Ok events) =>
              let '(sv, c) := observe_stream_events events decoder c sv in (sv, Some chunk, Some (c, upstream))
          | (_, Err e) => failed (error_text (inr e)) upstream_error true c
          end
      | Err e :: _ => failed (error_text (inl e)) (stream_failure_type e) (stream_failure_affects_reliability e) c
      | [] =>
          match finish (sx_decoder c) with
          | (decoder, Ok events) =>
              let '(sv, c) := observe_stream_events events decoder c sv in
              let '(sv, c) := finish_stream_success rd c sv in
              (drop_context rd c sv, None, None)
          | (_, Err e) => failed (error_text (inr e)) upstream_error true c
          end
      end
  end.

(** A client that polls [polls] times, and leaves if the body has not ended. *)
Fixpoint relay (polls : nat) (rd : Readings) (c : StreamRelayContext) (upstream : list (result (list Z) DeliveryError)) sv
    : Serving * list (list Z) :=
  match polls with
  | O => (drop_context rd c sv, [])
  | S polls =>
      match relay_poll rd c upstream sv with
      | (sv, chunk, None) => (sv, option_list chunk)
      | (sv, chunk, Some (c, upstream)) =>
          let '(sv, chunks) := relay polls rd c upstream sv in (sv, option_list chunk ++ chunks)
      end
  end.

(** ** The handler *)
Inductive exchange_answer :=
| Answered (answer : Response)
| Relaying (headers : HeaderMap) (c : StreamRelayContext) (upstream : list (result (list Z) DeliveryError))
| PassedThrough (status : Z) (headers : HeaderMap) (upstream : list (result (list Z) DeliveryError)).

Definition of_reply (r : StreamReply) : exchange_answer :=
  match r with Refused answer => Answered answer | PassedOn status headers upstream => PassedThrough status headers upstream end.

(** What a return before the relay lets go of: the guard, the lease, the permit. *)
Definition drop_input (rd : Readings) (input : StreamingChatInput (number := number)) sv : Serving :=
  on_books (fun b => drop_permit (si_permit input)
    (settle_lease (si_shared_budget input)
      (drop_guard accounts (si_canary_guard input) (rd_latency_ms rd) (rd_timestamp rd) b))) sv.

(** The headers of a relayed stream. *)
Definition stream_headers (d : Decision) (e : Established) (headers : HeaderMap) : result HeaderMap message :=
  let? headers := insert_header headers ROUTER_SERVED_BY_HEADER (es_alias e) in
  let? headers := insert_header headers ROUTER_DEPLOYMENT_HEADER (delivery_id (es_target e)) in
  let? headers := insert_header headers ROUTER_DEPLOYMENT_SELECTION_HEADER (es_reason e) in
  let headers := if negb (str_eqb (es_alias e) (dc_chosen d)) && negb (dc_offline d)
                 then insert_static headers ROUTER_FAILOVER_HEADER (lit "true") else headers in
  Ok (insert_static headers CONTENT_TYPE (lit "text/event-stream")).

Definition relay_context (input : StreamingChatInput (number := number)) (e : Established) : StreamRelayContext :=
  let d := si_decision input in
  {| sx_alias := es_alias e; sx_target_id := delivery_id (es_target e); sx_request_id := rq_request_id (dc_request d);
     sx_messages := default JNull (obj_get (dc_body d) (lit "messages")); sx_grant := si_access_grant input;
     sx_decoder := default_decoder; sx_chars := 0; sx_ttft := None; sx_recorded := false;
     sx_initial := (fun event => stream_frame (JObject [(lit "wayfinder", to_json event)])
                    "{'error':{'message':'decision metadata unavailable','type':'wayfinder_router_state_error'}}") <$> si_initial_event input;
     sx_tokens := si_token_reservation input; sx_attempt := Some (es_attempt e); sx_permit := si_permit input;
     sx_lease := si_shared_budget input; sx_guard := si_canary_guard input |}.

Definition streaming_chat_response (input : StreamingChatInput (number := number)) (rd : Readings) sv : Serving * exchange_answer :=
  let d := si_decision input in
  let id := rq_request_id (dc_request d) in
  let headers := si_headers input in
  if negb has_streaming then
    (drop_input rd input sv,
     Answered (error_response 503 "wayfinder_router_streaming_not_ready" (CauseText (Msg "streaming provider delivery is not configured" [])) headers))
  else
    match stream_plan d headers (si_plan input) not_established sv with
    | (sv, inr reply) => (drop_input rd input sv, of_reply reply)
    | (sv, inl (None, f)) =>
        let sv := on_books (on_recent (fun recent => update_outcome recent id Recent.Failed None (Some (fl_kind f)))) sv in
        (drop_input rd input sv,
         Answered {| rs_status := fl_status f; rs_headers := headers; rs_body := ErrorAnswer (fl_kind f) (CauseText (fl_error f)) |})
    | (sv, inl (Some e, _)) =>
        let sv := on_books (on_recent (fun recent =>
                    update_delivery recent id (es_alias e) (model_execution_boundary parse_url (es_target e)) Recent.Streaming (Some 200) None)) sv in
        match stream_headers d e headers with
        | Err m => (drop_input rd input (drop_established (Some e) sv), Answered (misconfigured m (request_id_headers id)))
        | Ok headers => (sv, Relaying headers (relay_context input e) (sd_chunks (es_response e)))
        end
    end.

(** ** The exchange

    A request from its parsed body to the end of its answer.  [rd] are the
    readings of the request, [rd'] those at the end of its stream. *)
Inductive exchanged :=
| Whole (answer : Response)
| Streamed (headers : HeaderMap) (chunks : list (list Z))
| Forwarded (status : Z) (headers : HeaderMap) (upstream : list (result (list Z) DeliveryError)).

Local Notation chat_completions :=
  (chat_completions parse_url to_lowercase compiled sha256 HeaderValue_from_str to_json encode_shared decode_shared s env prices shared_access
     shared_backend has_delivery shared_cache max_in_flight queue_timeout_secs generation cache_settings receipt env_send env_elapsed env_clock
     env_signal_clock shared_health).

Definition chat_exchange (headers : HeaderMap) (body : list (str * Value number)) (request_id : str) (polls : nat) (rd rd' : Readings) sv
    : option (Serving * exchanged) :=
  '(sv, answer) ← chat_completions headers body request_id rd sv;
  Some match rs_body answer with
       | StreamAnswer input =>
           match streaming_chat_response input rd sv with
           | (sv, Answered answer) => (sv, Whole answer)
           | (sv, PassedThrough status headers upstream) => (sv, Forwarded status headers upstream)
           | (sv, Relaying headers c upstream) => let '(sv, chunks) := relay polls rd' c upstream sv in (sv, Streamed headers chunks)
           end
       | _ => (sv, Whole answer)
       end.

(** ** What leaves the gateway *)

(** From [sv] to [sv'] at most [n] requests are sent, all to targets in [P];
    the ledger and the fleet are as they were. *)
Definition passes (P : ConfiguredModel -> Prop) (n : nat) sv sv' : Prop :=
  sends P n (sv_world sv) (sv_world sv') /\ bk_ledger (sv_books sv') = bk_ledger (sv_books sv) /\ bk_fleet (sv_books sv') = bk_fleet (sv_books sv).

(** Nothing is sent: [passes] of no target. *)
Definition quiet sv sv' : Prop :=
  w_sent (sv_world sv') = w_sent (sv_world sv) /\ bk_ledger (sv_books sv') = bk_ledger (sv_books sv) /\
  bk_fleet (sv_books sv') = bk_fleet (sv_books sv).

Definition sent_to (m : ConfiguredModel) sv sv' : Prop :=
  exists new, w_sent (sv_world sv') = w_sent (sv_world sv) ++ new /\ m ∈ new.

Lemma quiet_passes P sv sv' : quiet sv sv' -> passes P 0 sv sv'.
Proof. intros (Hs & ? & ?). split; [by apply sends_refl|done]. Qed.

Lemma passes_trans P n m sv1 sv2 sv3 : passes P n sv1 sv2 -> passes P m sv2 sv3 -> passes P (n + m) sv1 sv3.
Proof. intros (S1 & L1 & F1) (S2 & L2 & F2). split; [by eapply sends_trans|]. split; congruence. Qed.

Lemma passes_weaken (P Q : ConfiguredModel -> Prop) n m sv sv' :
  (forall x, P x -> Q x) -> (n <= m)%nat -> passes P n sv sv' -> passes Q m sv sv'.
Proof. intros HPQ Hle (Hs & Hl). split; [by eapply sends_weaken|done]. Qed.

Lemma passes_quiet P n sv1 sv2 sv3 : passes P n sv1 sv2 -> quiet sv2 sv3 -> passes P n sv1 sv3.
Proof. intros Hp Hq. rewrite (plus_n_O n). by eapply passes_trans, quiet_passes. Qed.

Lemma quiet_passing P n sv1 sv2 sv3 : quiet sv1 sv2 -> passes P n sv2 sv3 -> passes P n sv1 sv3.
Proof. intros Hq Hp. change n with (0 + n)%nat. by eapply passes_trans; [apply quiet_passes|]. Qed.

Lemma sent_to_after P n m sv1 sv2 sv3 : passes P n sv1 sv2 -> sent_to m sv2 sv3 -> sent_to m sv1 sv3.
Proof.
  intros ((a & Ha & _) & _) (b & Hb & Hm). exists (a ++ b). rewrite Hb, Ha, app_assoc. split; [done|].
  apply elem_of_app. by right.
Qed.

Lemma sent_to_before P n m sv1 sv2 sv3 : sent_to m sv1 sv2 -> passes P n sv2 sv3 -> sent_to m sv1 sv3.
Proof.
  intros (a & Ha & Hm) ((b & Hb & _) & _). exists (a ++ b). rewrite Hb, Ha, app_assoc. split; [done|].
  apply elem_of_app. by left.
Qed.

(** *** The steps that send nothing *)
Lemma drop_combined_sent a w : w_sent (drop_combined a w) = w_sent w.
Proof. unfold drop_combined. cbn [ask]. by destruct (ca_shared a). Qed.

Lemma drop_established_quiet e sv : quiet sv (drop_established e sv).
Proof. destruct e as [e|]; [|done]. split; [apply drop_combined_sent|done]. Qed.

Lemma complete_or_refuse_quiet id a ok k sv : quiet sv (complete_or_refuse id a ok k sv).1.
Proof.
  unfold complete_or_refuse. pose proof (complete_attempt_sent env_clock (gs_reliability s) (sv_world sv) a ok) as Hs.
  destruct (complete_attempt _ _ _ _ _) as [w r]. by split.
Qed.

Lemma complete_or_refuse_kept id a ok k sv r : (complete_or_refuse id a ok k sv).2 = TryOpened r -> k = TryOpened r.
Proof. unfold complete_or_refuse. destruct (complete_attempt _ _ _ _ _) as [w [x|e]]; done. Qed.

(** *** One deployment *)

(** [target] has been sent the request at least once, and [n] times more at
    most. *)
Definition tried (target : ConfiguredModel) (n : nat) sv sv' : Prop :=
  passes (eq target) (S n) sv sv' /\ sent_to target sv sv'.

Lemma tried_intro target sv sv' :
  w_sent (sv_world sv') = w_sent (sv_world sv) ++ [target] -> bk_ledger (sv_books sv') = bk_ledger (sv_books sv) ->
  bk_fleet (sv_books sv') = bk_fleet (sv_books sv) -> tried target 0 sv sv'.
Proof.
  intros Hs Hl Hf. split; [|exists [target]; split; [done|left]]. split; [|done]. exists [target].
  split_and!; [done|by repeat constructor|done].
Qed.

Lemma tried_quiet target n sv1 sv2 sv3 : tried target n sv1 sv2 -> quiet sv2 sv3 -> tried target n sv1 sv3.
Proof. intros [Hp Hs] Hq. split; [by eapply passes_quiet|]. eapply sent_to_before; [done|]. by apply (quiet_passes (fun _ => False)). Qed.

Lemma stream_once_tried d headers alias target a f sv : tried target 0 sv (stream_once d headers alias target a f sv).1.
Proof.
  unfold stream_once. cbn [ask]. destruct (env_stream _ target) as [r|error].
  - destruct (is_success (sd_status r)); [by apply tried_intro|]. destruct (is_retryable _); [by apply tried_intro|].
    eapply tried_quiet; [|apply complete_or_refuse_quiet]. by apply tried_intro.
  - destruct (fatal_delivery_status error) as [status kind]. set (id := rq_request_id (dc_request d)).
    set (returned := TryReturned _). set (sv1 := count_upstream_error _ _).
    assert (tried target 0 sv sv1) as H1' by (by apply tried_intro). clearbody sv1.
    assert (tried target 0 sv (if stream_failure_affects_reliability error
              then complete_or_refuse id a false returned sv1 else (with_world sv1 (release_attempt env_clock (sv_world sv1) a), returned)).1) as Hfatal.
    { destruct (stream_failure_affects_reliability error); [by eapply tried_quiet, complete_or_refuse_quiet|].
      eapply tried_quiet; [exact H1'|]. split; [apply release_attempt_sent|done]. }
    by destruct error as [| |[]| | |].
Qed.

Lemma stream_retries_tried d headers alias target a more f sv : tried target more sv (stream_retries d headers alias target a more f sv).1.
Proof.
  revert f sv. induction more as [|more IH]; intros f sv; cbn [stream_retries];
    pose proof (stream_once_tried d headers alias target a f sv) as Ht; destruct (stream_once _ _ _ _ _ _ _) as [sv1 r]; cbn [fst] in Ht.
  - destruct r as [r|reply|f1]; [done|done|]. eapply tried_quiet; [exact Ht|apply complete_or_refuse_quiet].
  - destruct Ht as [Hp Hs]. assert (tried target (S more) sv sv1) as Ht1 by (split; [eapply passes_weaken, Hp; [done|lia]|done]).
    destruct r as [r|reply|f1]; [done|done|]. specialize (IH f1 sv1). destruct (stream_retries _ _ _ _ _ _ _ _) as [sv2 r2].
    destruct IH as [Hp2 Hs2]. split; [exact (passes_trans _ 1 (S more) _ _ _ Hp Hp2)|by eapply sent_to_after].
Qed.

Lemma begin_quiet sv target_id id :
  quiet sv (with_world sv (begin_reliability_attempt env_clock (gs_reliability s) shared_health (sv_world sv) target_id id).1).
Proof. split; [apply begin_sent|done]. Qed.

(** *** The deployments of an alias *)

(** The stream a loop leaves is the one it was given, or one it opened. *)
Definition opens (alias : str) (targets : list ConfiguredModel) (e : option Established) sv sv'
    (r : option Established * StreamFailure + StreamReply) : Prop :=
  match r with
  | inl (Some e', _) => e = Some e' \/ es_alias e' = alias /\ es_target e' ∈ targets /\ sent_to (es_target e') sv sv'
  | _ => True
  end.

Local Notation per_target := (S (rp_retries (gs_reliability s))).

Lemma stream_targets_passes d headers alias reason targets e f sv :
  passes (fun m => m ∈ targets) (per_target * length targets) sv (stream_targets d headers alias reason targets e f sv).1 /\
  opens alias targets e sv (stream_targets d headers alias reason targets e f sv).1 (stream_targets d headers alias reason targets e f sv).2.
Proof.
  revert e f sv. induction targets as [|target targets IH]; intros e f sv; cbn [stream_targets].
  { split; [rewrite Nat.mul_0_r; by apply quiet_passes|]. destruct e; [by left|done]. }
  assert (forall sv1 n e1 f1, passes (eq target) n sv sv1 -> (n <= per_target)%nat ->
    e1 = e \/ (exists e0, e1 = Some e0 /\ es_alias e0 = alias /\ es_target e0 = target /\ sent_to target sv sv1) ->
    let r := stream_targets d headers alias reason targets e1 f1 sv1 in
    passes (fun m => m ∈ target :: targets) (per_target * S (length targets)) sv r.1 /\ opens alias (target :: targets) e sv r.1 r.2) as Hrest.
  { intros sv1 n e1 f1 Hp Hn He1. destruct (IH e1 f1 sv1) as [Hp1 Ho]. cbv zeta. split.
    - apply (passes_weaken (fun m => m ∈ target :: targets) _ (n + per_target * length targets)); [done|lia|]. eapply passes_trans.
      + eapply passes_weaken, Hp; [intros x <-; left|done].
      + eapply passes_weaken, Hp1; [by right|done].
    - destruct (stream_targets _ _ _ _ _ _ _ _) as [sv2 [[[e2|] f2]|reply]]; [|done..]. cbn [fst snd opens] in *.
      destruct Ho as [->|(Ha & Ht & Hs)]; [|right; split_and!; [done|by right|by eapply sent_to_after]].
      destruct He1 as [->|(e0 & [= <-] & Ha & Ht & Hs)]; [by left|right]. split; [done|]. rewrite Ht.
      split; [left|by eapply sent_to_before]. }
  cbn [length]. destruct (_ && _); [apply (Hrest sv 0%nat); [by apply quiet_passes|lia|by left]|].
  set (id := rq_request_id (dc_request d)). pose proof (begin_quiet sv (delivery_id target) id) as Hb.
  destruct (begin_reliability_attempt _ _ _ _ _ _) as [w [[a|]|error]]; cbn [fst] in Hb.
  - pose proof (stream_retries_tried d headers alias target a (rp_retries (gs_reliability s)) f (with_world sv w)) as [Hp Hs].
    eapply (quiet_passing _ _ _ _ _ Hb) in Hp. eapply (sent_to_after _ _ _ _ _ _ (quiet_passes (fun _ => False) _ _ Hb)) in Hs.
    destruct (stream_retries _ _ _ _ _ _ _ _) as [sv1 [r|reply|f1]]; cbn [fst] in *.
    + eapply Hrest; [eapply passes_quiet, drop_established_quiet; exact Hp|done|right]. eexists. split_and!; [done..|].
      eapply sent_to_before; [done|]. apply (quiet_passes (fun _ => False)), drop_established_quiet.
    + split; [|done]. eapply passes_quiet, drop_established_quiet. eapply passes_weaken, Hp; [intros x <-; left|lia].
    + eapply Hrest; [exact Hp|done|by left].
  - eapply Hrest; [by apply quiet_passes|lia|by left].
  - split; [|done]. apply (passes_weaken (fun m => m ∈ target :: targets) _ 0); [done|lia|].
    eapply passes_quiet, drop_established_quiet. by apply quiet_passes.
Qed.

(** *** The plan *)
Local Notation offered plan d := (offered parse_url (gs_models s) plan (dc_request d) (dc_offline d) (dc_prompt_estimate d)).
Local Notation plan_size := (plan_size (gs_models s)).

Lemma stream_plan_passes d headers plan f sv :
  passes (offered plan d) (per_target * plan_size plan) sv (stream_plan d headers plan f sv).1 /\
  match (stream_plan d headers plan f sv).2 with
  | inl (Some e, _) => es_alias e ∈ plan /\ offered [es_alias e] d (es_target e) /\ sent_to (es_target e) sv (stream_plan d headers plan f sv).1
  | _ => True
  end.
Proof.
  revert f sv. induction plan as [|alias plan IH]; intros f sv; cbn [stream_plan].
  { split; [rewrite Nat.mul_0_r; by apply quiet_passes|done]. }
  pose proof (candidates_perm (gs_models s) (w_cursors (sv_world sv)) alias) as Hperm.
  destruct (deployment_candidates (gs_models s) (w_cursors (sv_world sv)) alias) as [configured c]. cbn [fst] in Hperm.
  set (sv0 := with_world sv _). assert (quiet sv sv0) as Hq by done. clearbody sv0.
  assert (forall sv1 n f1, passes (offered [alias] d) n sv sv1 -> (n <= per_target * length (pool (gs_models s) alias))%nat ->
    let r := stream_plan d headers plan f1 sv1 in
    passes (offered (alias :: plan) d) (per_target * plan_size (alias :: plan)) sv r.1 /\
    match r.2 with
    | inl (Some e, _) => es_alias e ∈ alias :: plan /\ offered [es_alias e] d (es_target e) /\ sent_to (es_target e) sv r.1
    | _ => True
    end) as Hrest.
  { intros sv1 n f1 Hp Hn. destruct (IH f1 sv1) as [Hp1 Ho]. cbv zeta. split.
    - apply (passes_weaken (offered (alias :: plan) d) _ (n + per_target * plan_size plan)); [done|unfold Delivery.plan_size; cbn [mbind list_bind]; rewrite length_app; unfold Delivery.plan_size in *; nia|].
      eapply passes_trans; [eapply passes_weaken, Hp; [intros m Hm; eapply offered_of; [left|done]|done]|].
      eapply passes_weaken, Hp1; [intros m; apply offered_cons|done].
    - destruct (stream_plan _ _ _ _ _) as [sv2 [[[e2|] f2]|reply]]; [|done..]. destruct Ho as (Ha & Ht & Hs).
      split; [by right|]. split; [done|by eapply sent_to_after]. }
  destruct configured as [|m0 rest]; [by apply (Hrest _ 0%nat); [apply quiet_passes|lia]|].
  destruct (alias_targets parse_url env_signal_clock (gs_models s) (sv_world sv0) alias (m0 :: rest) (dc_request d) (dc_offline d)
              (dc_prompt_estimate d) Hperm) as [Hoff Hlen].
  destruct (eligible_deployment_targets _ (m0 :: rest) _ _ _) as [|e0 erest]; [by apply (Hrest _ 0%nat); [apply quiet_passes|lia]|].
  assert (w_sent (select_deployments env_signal_clock (gs_models s) (sv_world sv0) alias (e0 :: erest)).1 = w_sent (sv_world sv0)) as Hsel by done.
  destruct (select_deployments _ _ _ _ _) as [ws selection]. cbn [fst snd] in *.
  assert (quiet sv (with_world sv0 ws)) as Hqs by (destruct Hq as (Hs & ?); split; [by rewrite Hs in Hsel|done]).
  clear Hq Hsel. destruct (targets selection) as [|t0 trest] eqn:Et; [by apply (Hrest _ 0%nat); [apply quiet_passes|lia]|].
  destruct (stream_targets_passes d headers alias (reason selection) (t0 :: trest) None f (with_world sv0 ws)) as [Hp Ho].
  destruct (stream_targets _ _ _ _ _ _ _ _) as [sv1 r]. cbn [fst snd] in *. apply (quiet_passing _ _ _ _ _ Hqs) in Hp.
  rewrite Forall_forall in Hoff.
  assert (passes (offered [alias] d) (per_target * length (pool (gs_models s) alias)) sv sv1) as Hp1
    by (eapply passes_weaken, Hp; [intros m; apply Hoff|nia]).
  assert (passes (offered (alias :: plan) d) (per_target * plan_size (alias :: plan)) sv sv1) as Hall.
  { eapply passes_weaken, Hp1; [intros m Hm; eapply offered_of; [left|done]|].
    unfold Delivery.plan_size. cbn [mbind list_bind]. rewrite length_app. nia. }
  destruct r as [[[e|] f1]|reply]; [|by eapply Hrest|done]. cbn [opens] in Ho. destruct Ho as [?|(Ha & Ht & Hs)]; [done|].
  split; [done|]. cbn. rewrite Ha. split; [left|]. split; [by apply Hoff|]. eapply sent_to_after; [by apply (quiet_passes (fun _ => False))|done].
Qed.

(** ** The relay *)

(** A turn of the stream's alias, with estimated usage, charged to its grant. *)
Definition turn_recorded (grant : option AccessGrant) (alias : str) (rd : Readings) (l l' : SavingsLedger) : Prop :=
  exists prompt completion estimated cost day,
    turn_cost alias prompt completion (costs prices) estimated None = Ok cost /\ utc_today (rd_seconds rd) = Ok day /\
    l' = record_attributed (set_priced l (table_priced prices)) cost day (grant_field accounts key_id grant)
           (grant_field accounts workspace_id grant).

(** Nothing is sent, and at most that turn is recorded. *)
Definition relays (grant : option AccessGrant) (alias : str) (rd : Readings) sv sv' : Prop :=
  w_sent (sv_world sv') = w_sent (sv_world sv) /\
  (bk_ledger (sv_books sv') = bk_ledger (sv_books sv) \/
   turn_recorded grant alias rd (bk_ledger (sv_books sv)) (bk_ledger (sv_books sv'))).

Lemma quiet_relays grant alias rd sv1 sv2 sv3 : quiet sv1 sv2 -> relays grant alias rd sv2 sv3 -> relays grant alias rd sv1 sv3.
Proof. intros (Hs & Hl & _). unfold relays. by rewrite Hs, Hl. Qed.

(** What goes out of scope leaves the ledger alone. *)
Definition lapses sv sv' : Prop :=
  w_sent (sv_world sv') = w_sent (sv_world sv) /\ bk_ledger (sv_books sv') = bk_ledger (sv_books sv).

Lemma lapses_relays grant alias rd sv1 sv2 sv3 : relays grant alias rd sv1 sv2 -> lapses sv2 sv3 -> relays grant alias rd sv1 sv3.
Proof. intros [Hs Hl] [Hs2 Hl2]. unfold relays. by rewrite Hs2, Hl2. Qed.

Lemma lapsed sv sv' : lapses sv sv' -> forall grant alias rd, relays grant alias rd sv sv'.
Proof. intros [Hs Hl] grant alias rd. split; [done|by left]. Qed.

Lemma drops_ledger guard l p latency now b :
  bk_ledger (drop_guard accounts guard latency now (settle_lease l (drop_permit p b))) = bk_ledger b.
Proof. unfold drop_guard. rewrite guard_ledger. unfold settle_lease, drop_permit. by destruct l, (ap_lease p). Qed.

Lemma drop_input_lapses rd (input : StreamingChatInput (number := number)) sv : lapses sv (drop_input rd input sv).
Proof.
  split; [done|]. unfold drop_input, drop_permit, settle_lease, drop_guard. cbn [on_books sv_books].
  destruct (ap_lease (si_permit input)), (si_shared_budget input); cbn; by rewrite guard_ledger.
Qed.

Lemma drop_context_lapses rd c sv : lapses sv (drop_context rd c sv).
Proof.
  unfold drop_context. set (sv1 := if sx_recorded c then sv else _). assert (lapses sv sv1) as [Hs Hl] by (unfold sv1; by destruct (sx_recorded c)).
  clearbody sv1. set (sv2 := match sx_attempt c with Some _ => _ | None => _ end).
  assert (lapses sv1 sv2) as [Hs2 Hl2] by (unfold sv2; destruct (sx_attempt c); [split; [apply drop_combined_sent|done]|done]).
  clearbody sv2. split; [etrans; [exact Hs2|exact Hs]|]. cbn [on_books sv_books]. rewrite drops_ledger. by rewrite Hl2.
Qed.

Lemma complete_quietly_quiet a ok sv : quiet sv (complete_quietly a ok sv).
Proof. destruct a as [a|]; [|done]. split; [apply complete_attempt_sent|done]. Qed.

(** The events of a chunk only read the clock. *)
Lemma observe_event_sent acc e : w_sent (observe_event acc e).1.1 = w_sent acc.1.1.
Proof.
  unfold observe_event. destruct (str_eqb _ _); [done|]. revert acc. induction (delta_contents (ev_data e)) as [|t l IH]; intros acc; [done|].
  cbn [foldl]. rewrite IH. destruct acc as [[w chars] ttft]. by destruct t, ttft.
Qed.

Lemma observe_events_quiet events decoder c sv : quiet sv (observe_stream_events events decoder c sv).1.
Proof.
  unfold observe_stream_events. set (acc := (sv_world sv, sx_chars c, sx_ttft c)).
  assert (w_sent (foldl observe_event acc events).1.1 = w_sent (sv_world sv)) as Hs.
  { change (w_sent (sv_world sv)) with (w_sent acc.1.1). clearbody acc. revert acc. induction events as [|e l IH]; intros acc; [done|].
    cbn [foldl]. by rewrite IH, observe_event_sent. }
  destruct (foldl _ _ _) as [[w chars] ttft]. by split.
Qed.

(** A failure records no turn. *)
Lemma failure_chunk_quiet c m kind affects sv : quiet sv (stream_failure_chunk c m kind affects sv).1.1.
Proof.
  unfold stream_failure_chunk. cbn [fst]. set (sv1 := on_books _ sv).
  assert (quiet sv sv1) as (S1 & L1 & F1) by done. clearbody sv1. set (sv2 := count_upstream_error _ _).
  assert (quiet sv1 sv2) as (S2 & L2 & F2) by (unfold sv2; by destruct (sx_recorded c)). clearbody sv2.
  assert (quiet sv2 (if affects then complete_quietly (sx_attempt c) false sv2
                     else match sx_attempt c with Some a => with_world sv2 (release_attempt env_clock (sv_world sv2) a) | None => sv2 end))
    as (S3 & L3 & F3).
  { destruct affects; [apply complete_quietly_quiet|]. destruct (sx_attempt c); [split; [apply release_attempt_sent|done]|done]. }
  split; [etrans; [exact S3|by rewrite S2]|]. split; [etrans; [exact L3|by rewrite L2]|etrans; [exact F3|by rewrite F2]].
Qed.

(** What a finished stream is accounted before its last steps. *)
Lemma finish_success_relays rd c sv : relays (sx_grant c) (sx_alias c) rd sv (finish_stream_success rd c sv).1.
Proof.
  unfold finish_stream_success. cbn [ask]. set (sv1 := on_books _ (with_world sv _)). assert (quiet sv sv1) as Hq by done.
  eapply quiet_relays; [exact Hq|]. clearbody sv1. clear Hq.
  match goal with |- context [complete_quietly _ true ?v] => set (sv2 := v); assert (quiet sv1 sv2) as Hq by done end.
  eapply quiet_relays; [exact Hq|]. clearbody sv2. clear Hq. pose proof (complete_quietly_quiet (sx_attempt c) true sv2) as Hq.
  eapply quiet_relays; [exact Hq|]. set (sv3 := complete_quietly _ _ _). clearbody sv3. clear Hq.
  unfold account_stream_success.
  match goal with |- context [record_accounted_usage _ ?r ?i ?g ?p ?cm ?e ?t ?x ?sec ?n1 ?n2 ?b] =>
    pose proof (usage_ledger s prices shared_access shared_backend max_in_flight r i g p cm e t x sec n1 n2 b) as Hu;
    destruct (record_accounted_usage _ r i g p cm e t x sec n1 n2 b) as [b1 usage] end.
  cbn [fst] in *. unfold relays. cbn [on_books sv_books sv_world on_recent with_recent bk_ledger]. rewrite guard_ledger. split; [done|].
  destruct Hu as [Hu|(cost & day & Hc & Hd & Hu)]; [by left|right]. by repeat eexists.
Qed.

(** A step of the relay: what it has done, and that the context it leaves
    accounts to the same turn. *)
Lemma relay_poll_relays rd c upstream sv :
  let r := relay_poll rd c upstream sv in
  relays (sx_grant c) (sx_alias c) rd sv r.1.1 /\
  match r.2 with Some (c', _) => sx_grant c' = sx_grant c /\ sx_alias c' = sx_alias c /\ quiet sv r.1.1 | None => True end.
Proof.
  unfold relay_poll. destruct (sx_initial c); [split; [by apply lapsed|done]|].
  assert (forall m kind affects c',
    relays (sx_grant c) (sx_alias c) rd sv
      (let '(sv, c', chunk) := stream_failure_chunk c' m kind affects sv in (drop_context rd c' sv, Some chunk, @None (StreamRelayContext * list (result (list Z) DeliveryError)))).1.1) as Hfail.
  { intros m kind affects c'. pose proof (failure_chunk_quiet c' m kind affects sv) as Hq.
    destruct (stream_failure_chunk c' m kind affects sv) as [[sv1 c1] chunk]. cbn [fst] in *.
    eapply quiet_relays; [exact Hq|]. apply lapsed, drop_context_lapses. }
  destruct upstream as [|[chunk|e] upstream].
  - destruct (finish (sx_decoder c)) as [decoder [events|e]]; [|split; [|by destruct (stream_failure_chunk _ _ _ _ _) as [[? ?] ?]]; by apply Hfail].
    pose proof (observe_events_quiet events decoder c sv) as Hq.
    destruct (observe_stream_events events decoder c sv) as [sv1 c1] eqn:E. cbn [fst] in Hq.
    assert (sx_grant c1 = sx_grant c /\ sx_alias c1 = sx_alias c) as [<- <-]
      by (unfold observe_stream_events in E; destruct (foldl _ _ _) as [[? ?] ?]; by injection E as _ <-).
    pose proof (finish_success_relays rd c1 sv1) as Hf. destruct (finish_stream_success rd c1 sv1) as [sv2 c2]. cbn [fst snd] in *.
    split; [|done]. eapply quiet_relays; [exact Hq|]. eapply lapses_relays; [exact Hf|apply drop_context_lapses].
  - destruct (push (sx_decoder c) chunk) as [decoder [events|e]]; [|split; [|by destruct (stream_failure_chunk _ _ _ _ _) as [[? ?] ?]]; by apply Hfail].
    pose proof (observe_events_quiet events decoder c sv) as Hq.
    destruct (observe_stream_events events decoder c sv) as [sv1 c1] eqn:E. cbn [fst snd] in *.
    unfold observe_stream_events in E; destruct (foldl _ _ _) as [[? ?] ?]; injection E as _ <-.
    split; [|done]. eapply quiet_relays; [exact Hq|]. by apply lapsed.
  - split; [by apply Hfail|by destruct (stream_failure_chunk _ _ _ _ _) as [[? ?] ?]].
Qed.

Lemma relay_relays polls rd c upstream sv : relays (sx_grant c) (sx_alias c) rd sv (relay polls rd c upstream sv).1.
Proof.
  revert c upstream sv. induction polls as [|polls IH]; intros c upstream sv; cbn [relay]; [apply lapsed, drop_context_lapses|].
  pose proof (relay_poll_relays rd c upstream sv) as [Hr Hc]. destruct (relay_poll rd c upstream sv) as [[sv1 chunk] [[c1 up1]|]]; [|done].
  cbn [fst snd] in *. destruct Hc as (<- & <- & Hq). specialize (IH c1 up1 sv1). destruct (relay polls rd c1 up1 sv1) as [sv2 chunks].
  by eapply quiet_relays.
Qed.

(** The relay is given the decision's grant, and a target its plan was sent to. *)
Lemma streaming_response_passes (input : StreamingChatInput (number := number)) rd sv :
  let d := si_decision input in
  let r := streaming_chat_response input rd sv in
  match r.2 with
  | Relaying _ c _ =>
      passes (offered (si_plan input) d) (per_target * plan_size (si_plan input)) sv r.1 /\ sx_grant c = si_access_grant input /\
      exists target, sx_alias c ∈ si_plan input /\ offered [sx_alias c] d target /\ sent_to target sv r.1
  | _ =>
      sends (offered (si_plan input) d) (per_target * plan_size (si_plan input)) (sv_world sv) (sv_world r.1) /\
      bk_ledger (sv_books r.1) = bk_ledger (sv_books sv)
  end.
Proof.
  cbv zeta. unfold streaming_chat_response. destruct (negb has_streaming).
  { destruct (drop_input_lapses rd input sv) as [Hs Hl]. split; [|done]. eapply sends_weaken, (sends_refl (fun _ => False)); [done|lia|done]. }
  destruct (stream_plan_passes (si_decision input) (si_headers input) (si_plan input) not_established sv) as [Hp He].
  destruct (stream_plan _ _ _ _ _) as [sv1 r]. cbn [fst snd] in *.
  assert (forall sv2, lapses sv1 sv2 ->
    sends (offered (si_plan input) (si_decision input)) (per_target * plan_size (si_plan input)) (sv_world sv) (sv_world sv2) /\
    bk_ledger (sv_books sv2) = bk_ledger (sv_books sv)) as Hend.
  { intros sv2 [Hs Hl]. destruct Hp as ((new & Hn & Hnew) & Hl1 & _). split; [|congruence]. exists new. by rewrite Hs. }
  destruct r as [[[e|] f]|reply].
  - set (sv2 := on_books _ sv1). assert (quiet sv1 sv2) as Hq by done. clearbody sv2.
    destruct (stream_headers _ e _) as [h|m].
    + split; [by eapply passes_quiet|]. split; [done|]. exists (es_target e). destruct He as (Ha & Ho & Hs). split_and!; [done..|].
      eapply sent_to_before; [exact Hs|]. by apply (quiet_passes (fun _ => False)).
    + apply Hend. destruct (drop_input_lapses rd input (drop_established (Some e) sv2)) as [Hs1 Hl1].
      destruct (drop_established_quiet (Some e) sv2) as (Hs2 & Hl2 & _), Hq as (Hs3 & Hl3 & _). split; cbn [fst]; congruence.
  - set (sv2 := on_books _ sv1). destruct (drop_input_lapses rd input sv2) as [Hs1 Hl1]. by apply Hend.
  - destruct reply; apply Hend, drop_input_lapses.
Qed.

(** ** The whole exchange *)

(** What is sent, where it may go and how often, and the one turn that is
    recorded for it: of an alias of the plan, for a deployment of it that was
    sent the request, at the clock of the request or of the end of its stream. *)
Definition carries_out (grant : option AccessGrant) (d : Decision) (plan : list str) (rd rd' : Readings) sv sv' : Prop :=
  exists new, w_sent (sv_world sv') = w_sent (sv_world sv) ++ new /\ Forall (may_receive parse_url s grant d) new /\
    (length new <= per_target * plan_size plan)%nat /\
    (bk_ledger (sv_books sv') = bk_ledger (sv_books sv) \/
     exists alias target, alias ∈ plan /\ target ∈ new /\ target ∈ pool (gs_models s) alias /\
       (turn_recorded grant alias rd (bk_ledger (sv_books sv)) (bk_ledger (sv_books sv')) \/
        turn_recorded grant alias rd' (bk_ledger (sv_books sv)) (bk_ledger (sv_books sv')))).

Lemma serves_carries grant d plan rd rd' sv sv' :
  serves parse_url s prices shared_access shared_backend max_in_flight grant d plan rd sv sv' -> carries_out grant d plan rd rd' sv sv'.
Proof.
  intros (new & Hs & Hf & Hn & Hl). exists new. split_and!; [done..|]. destruct Hl as [Hl|Hc]; [by left|right].
  destruct Hc as (alias & target & prompt & completion & estimated & cost & day & Ha & Ht & Hpool & Hcost & Hday & Hl).
  exists alias, target. split_and!; [done|by apply last_Some_elem_of|done|left]. by repeat eexists.
Qed.

Lemma streaming_carries (env' : ChatEnv) hs (input : StreamingChatInput (number := number)) polls rd rd' sv :
  let grant := si_access_grant input in let d := si_decision input in let plan := si_plan input in
  plan_request parse_url s env' grant hs d = Ok plan ->
  match streaming_chat_response input rd sv with
  | (sv', Relaying _ c upstream) => carries_out grant d plan rd rd' sv (relay polls rd' c upstream sv').1
  | (sv', _) => carries_out grant d plan rd rd' sv sv'
  end.
Proof.
  intros grant d plan Hp. pose proof (streaming_response_passes input rd sv) as Hr. cbv zeta in Hr. fold grant d plan in Hr.
  assert (forall m, offered plan d m -> may_receive parse_url s grant d m) as Hmay by (intros m; by eapply offered_may_receive).
  destruct (streaming_chat_response input rd sv) as [sv1 [answer|h c upstream|status h upstream]]; cbn [fst snd] in Hr;
    try (destruct Hr as [(new & Hs & Hf & Hn) Hl]; exists new; split_and!; [done|by eapply Forall_impl|done|by left]).
  destruct Hr as (((new & Hs & Hf & Hn) & Hl & _) & Hg & target & Ha & Ho & (new' & Hs' & Hin)).
  assert (new' = new) as -> by (rewrite Hs in Hs'; by apply app_inv_head in Hs').
  pose proof (relay_relays polls rd' c upstream sv1) as [Hw Hl']. rewrite Hg, Hl in Hl'.
  exists new. rewrite Hw. split_and!; [done|by eapply Forall_impl|done|]. destruct Hl' as [Hl'|Hl']; [by left|right].
  exists (sx_alias c), target. split_and!; [done|done| |by right]. by destruct Ho as (a & ->%list_elem_of_singleton & Hpool & _).
Qed.

Local Notation preflight headers id rd sv :=
  (preflight_access (number := number) sha256 HeaderValue_from_str s prices shared_access shared_backend max_in_flight headers id (rd_limiters rd)
     (rd_limiters rd) (sv_books sv)).2.
Local Notation chat headers body id sv grant :=
  (chat parse_url to_lowercase compiled sha256 s (env_now env sv) grant headers body id).

Lemma exchange_carries headers body id polls rd rd' sv sv' answer :
  chat_exchange headers body id polls rd rd' sv = Some (sv', answer) ->
  Serving.idle sv sv' \/
  exists grant d plan, preflight headers id rd sv = Ok grant /\ chat headers body id sv grant = Some (Planned d plan) /\
    carries_out grant d plan rd rd' sv sv'.
Proof.
  unfold chat_exchange. destruct (chat_completions headers body id rd sv) as [[sv1 answer1]|] eqn:E; [|done]. cbn [mbind option_bind].
  pose proof (chat_completions_charges parse_url to_lowercase compiled sha256 HeaderValue_from_str to_json encode_shared decode_shared s env
    prices shared_access shared_backend has_delivery shared_cache max_in_flight queue_timeout_secs generation cache_settings receipt env_send
    env_elapsed env_clock env_signal_clock shared_health headers body id rd sv) as Hc.
  rewrite E in Hc. cbn [charges fst] in Hc.
  assert (sv1 = sv' -> Serving.idle sv sv' \/ exists grant d plan, preflight headers id rd sv = Ok grant /\
    chat headers body id sv grant = Some (Planned d plan) /\ carries_out grant d plan rd rd' sv sv') as Hwhole.
  { intros <-. destruct Hc as [Hi|(grant & d & plan & Hg & Hd & Hs)]; [by left|right]. exists grant, d, plan.
    split_and!; [done..|by apply serves_carries]. }
  destruct (rs_body answer1) as [k c|dr|bytes|input] eqn:Hb; intros Heq; try (apply Hwhole; congruence). right.
  eapply chat_completions_hands_on in E as (Hg & Hd & Hw & Hl); [|exact Hb].
  exists (si_access_grant input), (si_decision input), (si_plan input). split; [done|]. split; [done|].
  apply chat_planned in Hd as (routing & _ & Hplan). pose proof (streaming_carries _ _ input polls rd rd' sv1 Hplan) as Hs.
  unfold carries_out in *. rewrite Hw, Hl in Hs.
  destruct (streaming_chat_response input rd sv1) as [sv2 [a|h c upstream|st h upstream]]; [by injection Heq as <- _| |by injection Heq as <- _].
  destruct (relay polls rd' c upstream sv2) as [sv3 chunks]. by injection Heq as <- _.
Qed.

(** *** Leases

    What the request has taken it holds until the relay lets go of it. *)
Section Leases.
Context (held : B -> list lease) (HL : lease_laws held).
Local Notation leases sv := (leases_of held (sv_books sv)).
Local Notation HS := (ll_steady held HL).

Lemma quiet_leases sv sv' : quiet sv sv' -> leases sv' = leases sv.
Proof. intros (_ & _ & Hf). unfold leases_of, the_backend. by rewrite Hf. Qed.

Lemma drop_input_leases rd (input : StreamingChatInput (number := number)) rest sv :
  leases sv = slot_list (si_permit input) ++ lease_list (si_shared_budget input) ++ rest -> leases (drop_input rd input sv) = rest.
Proof.
  intros Hh. unfold drop_input. apply (drop_permit_leases held HL), (settle_lease_leases held HL).
  unfold drop_guard, leases_of in *. by rewrite (steady_finish_guard accounts _ HS).
Qed.

Definition context_leases (c : StreamRelayContext) (rest : list lease) : list lease :=
  slot_list (sx_permit c) ++ lease_list (sx_lease c) ++ rest.

Lemma drop_context_leases rd c rest sv : leases sv = context_leases c rest -> leases (drop_context rd c sv) = rest.
Proof.
  intros Hh. unfold drop_context. set (sv1 := if sx_recorded c then sv else _).
  assert (leases sv1 = leases sv) as Hs by (unfold sv1; by destruct (sx_recorded c)). clearbody sv1.
  set (sv2 := match sx_attempt c with Some _ => _ | None => _ end). assert (leases sv2 = leases sv1) as Hs2 by (unfold sv2; by destruct (sx_attempt c)).
  clearbody sv2. cbn [on_books sv_books]. unfold drop_guard, leases_of at 1. rewrite (steady_finish_guard accounts _ HS).
  apply (settle_lease_head held HL), (drop_permit_leases held HL). by rewrite Hs2, Hs.
Qed.

Lemma finish_success_leases rd c rest sv :
  leases sv = context_leases c rest ->
  let r := finish_stream_success rd c sv in leases r.1 = context_leases r.2 rest.
Proof.
  intros Hh. unfold finish_stream_success. cbn [ask].
  match goal with |- context [complete_quietly _ true ?v] => set (sv1 := v); assert (leases sv1 = leases sv) as Hq by done end. clearbody sv1.
  pose proof (quiet_leases _ _ (complete_quietly_quiet (sx_attempt c) true sv1)) as Hq2. set (sv2 := complete_quietly _ _ _) in *. clearbody sv2.
  unfold account_stream_success.
  match goal with |- context [record_accounted_usage _ ?r ?i ?g ?p ?cm ?e ?t ?x ?sec ?n1 ?n2 ?b] =>
    pose proof (usage_leases accounts held HL r i g p cm e t x sec n1 n2 (sx_permit c) rest b ltac:(by rewrite Hq2, Hq)) as Hu;
    destruct (record_accounted_usage _ r i g p cm e t x sec n1 n2 b) as [b1 usage] end.
  cbn [fst snd] in *. etrans; [|exact Hu]. apply (steady_finish_guard accounts _ HS).
Qed.

Lemma failure_chunk_leases c m kind affects rest sv :
  leases sv = context_leases c rest ->
  leases (stream_failure_chunk c m kind affects sv).1.1 = context_leases (stream_failure_chunk c m kind affects sv).1.2 rest.
Proof. intros Hh. rewrite (quiet_leases _ _ (failure_chunk_quiet c m kind affects sv)). exact Hh. Qed.

Lemma relay_poll_leases rd c upstream rest sv :
  leases sv = context_leases c rest ->
  let r := relay_poll rd c upstream sv in
  leases r.1.1 = match r.2 with Some (c', _) => context_leases c' rest | None => rest end.
Proof.
  intros Hh. unfold relay_poll. destruct (sx_initial c); [done|].
  assert (forall m kind affects,
    let r := (let '(sv, c', chunk) := stream_failure_chunk c m kind affects sv in
              (drop_context rd c' sv, Some chunk, @None (StreamRelayContext * list (result (list Z) DeliveryError)))) in
    leases r.1.1 = match r.2 with Some (c', _) => context_leases c' rest | None => rest end) as Hfail.
  { intros m kind affects. pose proof (failure_chunk_leases c m kind affects rest sv Hh) as Hq.
    destruct (stream_failure_chunk c m kind affects sv) as [[sv1 c1] chunk]. by apply drop_context_leases. }
  destruct upstream as [|[chunk|e] upstream]; [| |apply Hfail].
  - destruct (finish (sx_decoder c)) as [decoder [events|e]]; [|apply Hfail].
    pose proof (quiet_leases _ _ (observe_events_quiet events decoder c sv)) as Hq.
    destruct (observe_stream_events events decoder c sv) as [sv1 c1] eqn:E. cbn [fst] in Hq.
    assert (leases sv1 = context_leases c1 rest) as Hc1
      by (rewrite Hq, Hh; unfold observe_stream_events in E; destruct (foldl _ _ _) as [[? ?] ?]; by injection E as _ <-).
    pose proof (finish_success_leases rd c1 rest sv1 Hc1) as Hf. destruct (finish_stream_success rd c1 sv1) as [sv2 c2].
    by apply drop_context_leases.
  - destruct (push (sx_decoder c) chunk) as [decoder [events|e]]; [|apply Hfail].
    pose proof (quiet_leases _ _ (observe_events_quiet events decoder c sv)) as Hq.
    destruct (observe_stream_events events decoder c sv) as [sv1 c1] eqn:E. cbn [fst snd] in *. rewrite Hq, Hh.
    unfold observe_stream_events in E; destruct (foldl _ _ _) as [[? ?] ?]; by injection E as _ <-.
Qed.

Lemma relay_leases polls rd c upstream rest sv : leases sv = context_leases c rest -> leases (relay polls rd c upstream sv).1 = rest.
Proof.
  revert c upstream sv. induction polls as [|polls IH]; intros c upstream sv Hh; cbn [relay]; [by apply drop_context_leases|].
  pose proof (relay_poll_leases rd c upstream rest sv Hh) as Hr. destruct (relay_poll rd c upstream sv) as [[sv1 chunk] [[c1 up1]|]]; [|done].
  cbn [fst snd] in Hr. specialize (IH c1 up1 sv1 Hr). by destruct (relay polls rd c1 up1 sv1).
Qed.

Lemma streaming_response_leases (input : StreamingChatInput (number := number)) rd rest sv :
  leases sv = slot_list (si_permit input) ++ lease_list (si_shared_budget input) ++ rest ->
  let r := streaming_chat_response input rd sv in
  leases r.1 = match r.2 with Relaying _ c _ => context_leases c rest | _ => rest end.
Proof.
  intros Hh. unfold streaming_chat_response. destruct (negb has_streaming); [by apply drop_input_leases|].
  destruct (stream_plan_passes (si_decision input) (si_headers input) (si_plan input) not_established sv) as [(_ & Hp) _].
  destruct (stream_plan _ _ _ _ _) as [sv1 r]. cbn [fst snd] in *.
  assert (leases sv1 = leases sv) as Hs1 by (unfold leases_of, the_backend; by destruct Hp as [_ ->]). rewrite Hh in Hs1.
  destruct r as [[[e|] f]|reply].
  - destruct (stream_headers _ e _) as [h|m]; [exact Hs1|]. by apply drop_input_leases.
  - by apply drop_input_leases.
  - destruct reply; by apply drop_input_leases.
Qed.
End Leases.

(** C1: Where a chat request goes, buffered or streamed.  Whatever a client
    sends, whatever the providers, the shared backend and the cache answer, and
    whenever the client leaves, the delivery of a request sends nothing, or
    sends what [chat] plans for the caller's grant: every send goes to a ready
    deployment of a destination the key allows, inside the privacy posture, on
    this machine when the decision is offline, with room for the prompt, and of
    the choice alone when it is pinned; at most one more than the retries per
    deployment of the plan; and an offline gateway or an offline header makes
    the decision offline.  A shadow comparison of the request is scheduled
    apart from its delivery and is not covered: it ignores the key's models
    (see the findings). *)
Theorem chat_sends_safely headers body id polls rd rd' sv sv' answer :
  chat_exchange headers body id polls rd rd' sv = Some (sv', answer) ->
  w_sent (sv_world sv') = w_sent (sv_world sv) \/
  exists grant d plan, preflight headers id rd sv = Ok grant /\ chat headers body id sv grant = Some (Planned d plan) /\
    sends (may_receive parse_url s grant d) (per_target * plan_size plan) (sv_world sv) (sv_world sv') /\
    (gs_offline s = true \/ offline_override to_lowercase headers = true -> dc_offline d = true).
Proof.
  intros [[Hw _]|(grant & d & plan & Hg & Hd & new & Hs & Hf & Hn & _)]%exchange_carries; [left; by rewrite Hw|right].
  exists grant, d, plan. split; [done|]. split; [done|]. split; [by exists new|].
  apply chat_planned in Hd as (routing & Hd & _). apply decide_sound in Hd as (_ & Ho & _).
  rewrite Ho. intros [-> | ->]; [done|apply orb_true_r].
Qed.

(** C2: What a chat request is charged.  The delivery of a request, buffered or
    streamed, leaves the savings ledger as it was or records one turn in it: of
    an alias of the plan made for the caller's grant, for a deployment of that
    alias the request was sent to, priced by the table, on the day of the
    request or of the end of its stream, attributed to the key and the
    workspace of the grant.  So a request that sends nothing is charged nothing.
    A shadow comparison is accounted apart and is not covered. *)
Theorem chat_request_charged headers body id polls rd rd' sv sv' answer :
  chat_exchange headers body id polls rd rd' sv = Some (sv', answer) ->
  exists new, w_sent (sv_world sv') = w_sent (sv_world sv) ++ new /\
    (bk_ledger (sv_books sv') = bk_ledger (sv_books sv) \/
     exists grant d plan alias target, preflight headers id rd sv = Ok grant /\ chat headers body id sv grant = Some (Planned d plan) /\
       alias ∈ plan /\ target ∈ new /\ target ∈ pool (gs_models s) alias /\
       (turn_recorded grant alias rd (bk_ledger (sv_books sv)) (bk_ledger (sv_books sv')) \/
        turn_recorded grant alias rd' (bk_ledger (sv_books sv)) (bk_ledger (sv_books sv')))).
Proof.
  intros [[Hw Hl]|(grant & d & plan & Hg & Hd & new & Hs & _ & _ & Hl)]%exchange_carries.
  - exists []. rewrite Hw, app_nil_r. split; [done|by left].
  - exists new. split; [done|]. destruct Hl as [Hl|(alias & target & Ha & Ht & Hpool & Hl)]; [by left|right].
    by exists grant, d, plan, alias, target.
Qed.

(** C38: A streamed request returns what it takes, too.  On a backend whose leases
    are counted, a request and the relay of its answer, however the upstream
    ends it and whenever the client leaves, leave no budget reservation and no
    admission slot behind, and release none they do not hold. *)
Theorem chat_exchange_settles held headers body id polls rd rd' sv sv' answer :
  lease_laws held -> chat_exchange headers body id polls rd rd' sv = Some (sv', answer) ->
  leases_of held (sv_books sv') = leases_of held (sv_books sv).
Proof.
  intros HL. unfold chat_exchange.
  pose proof (chat_completions_settles parse_url to_lowercase compiled sha256 HeaderValue_from_str to_json encode_shared decode_shared s env
    prices shared_access shared_backend has_delivery shared_cache max_in_flight queue_timeout_secs generation cache_settings receipt env_send
    env_elapsed env_clock env_signal_clock shared_health held HL headers body id rd sv) as Hc.
  destruct (chat_completions headers body id rd sv) as [[sv1 answer1]|]; [|done]. cbn [mbind option_bind].
  unfold settles, keeps_leases in Hc. cbn [fst snd] in Hc.
  destruct (rs_body answer1) as [k c|dr|bytes|input]; intros Heq; try (injection Heq as <- _; exact Hc).
  cbn [answer_leases] in Hc. rewrite <- (assoc_L (++)) in Hc. pose proof (streaming_response_leases held HL input rd _ sv1 Hc) as Hs. cbv zeta in Hs.
  destruct (streaming_chat_response input rd sv1) as [sv2 [a|h c upstream|st h upstream]]; cbn [fst snd] in Hs;
    [by injection Heq as <- _| |by injection Heq as <- _].
  pose proof (relay_leases held HL polls rd' c upstream _ sv2 Hs) as Hr.
  destruct (relay polls rd' c upstream sv2) as [sv3 chunks]. by injection Heq as <- _.
Qed.
End Streaming.

(** ** Closed exchanges

    The gateway of [Serving]'s closed requests, streamed, with the hosted model
    as a pool of two deployments. *)
Definition pool_gateway : GatewayState :=
  let s := fleet_gateway in
  {| gs_routing := gs_routing s; gs_models := [local_model; sample_pool_model]; gs_route_presets := gs_route_presets s; gs_policy := None;
     gs_offline := false; gs_dry_run := false; gs_route_on := Turn; gs_sticky := false; gs_sticky_cooldown := 0;
     gs_slash_directives := true; gs_access_policy := None; gs_budget_policy := no_budget; gs_priced := true;
     gs_reliability := sample_policy; gs_canary := default_canary |}.

(** A provider that streams one event and its end. *)
Definition streaming_send (t : nat) (m : ConfiguredModel) : result StreamingDeliveryResponse DeliveryError :=
  Ok {| sd_status := 200; sd_content_type := lit "text/event-stream";
        sd_chunks := [Ok (lit "data: hi" ++ [10; 10]); Ok (lit "data: [DONE]" ++ [10; 10])] |}.

(** One that fails in the middle of the stream. *)
Definition failing_send (t : nat) (m : ConfiguredModel) : result StreamingDeliveryResponse DeliveryError :=
  Ok {| sd_status := 200; sd_content_type := lit "text/event-stream";
        sd_chunks := [Ok (lit "data: hi" ++ [10; 10]); Err (Provider Transport)] |}.

Definition exchange_sample (s : GatewayState) (send : nat -> ConfiguredModel -> result StreamingDeliveryResponse DeliveryError) (stream : bool)
    (model : string) (polls : nat) :=
  chat_exchange (H4 := @leased_backend _ granting_fleet) sample_parse_url to_ascii_lowercase (Ok sample_patterns) zero_hash Some (fun _ => JNull)
    (fun _ => None) (fun _ => None) s sample_env sample_rates None true true false 4 1 (lit "g") cache_off sample_receipt
    scripted_send (fun _ => f64_zero) (fun _ => f64_zero) (fun _ => f64_zero) false true send (fun _ => lit "upstream failed") []
    (if stream then ix_insert (ChatDelivery.sample_body model) (lit "stream") (JBool true) else ChatDelivery.sample_body model) (lit "r") polls
    (sample_readings (Ok f64_zero)) (sample_readings (Ok f64_zero)) sample_serving.

(** What an exchange leaves: the targets sent to, the chunks, the leases, the
    days with a turn. *)
Definition exchange_left (r : option (Serving (MC := list (str * StoredResponse)) (BH := unit) (B := leased MemoryStateBackend) * exchanged (number := Z)))
    : option (list str * nat * list lease * list str) :=
  '(sv, answer) ← r;
  Some (map delivery_id (w_sent (sv_world sv)), match answer with Streamed _ chunks => length chunks | _ => 0%nat end,
        leases_of snd (sv_books sv), map fst (days (bk_ledger (sv_books sv)))).

(** Relayed to its end, and charged to the leap day; left by the client before
    its end, or broken off by the upstream, and not charged; buffered. *)
Example sample_exchanges :
  exchange_left (exchange_sample fleet_gateway streaming_send true "cloud" 5) = Some ([lit "cloud"], 2%nat, [], [lit "2000-02-29"]) /\
  exchange_left (exchange_sample fleet_gateway streaming_send true "cloud" 2) = Some ([lit "cloud"], 2%nat, [], []) /\
  exchange_left (exchange_sample fleet_gateway failing_send true "cloud" 5) = Some ([lit "cloud"], 2%nat, [], []) /\
  exchange_left (exchange_sample fleet_gateway streaming_send false "cloud" 0) = Some ([lit "cloud"], 0%nat, [], [lit "2000-02-29"]).
Proof. vm_compute. repeat split. Qed.

(** A stream is opened on every deployment of the pool, and only the last is
    relayed; a buffered request is answered by the first that answers. *)
Example every_deployment_streams :
  exchange_left (exchange_sample pool_gateway streaming_send true "cloud" 5) =
    Some (map lit ["cloud#default"; "cloud#eu"; "cloud#backup"]%string, 2%nat, [], [lit "2000-02-29"]).
Proof. vm_compute. reflexivity. Qed.

(** The run of the witnesses: a stream relayed to its end. *)
Definition streamed_run := exchange_sample fleet_gateway streaming_send true "cloud" 5.

(** What is sent, and whether the ledger has changed. *)
Example streamed_run_sends :
  match streamed_run with
  | Some (sv, _) => w_sent (sv_world sv) = [cloud_model] /\ length (days (bk_ledger (sv_books sv))) = 1%nat
  | None => False
  end.
Proof. vm_compute. split; reflexivity. Qed.

Lemma chat_sends_safely_witness :
  match streamed_run with
  | Some (sv, _) =>
      w_sent (sv_world sv) = [cloud_model] /\
      exists grant d, may_receive (number := Z) sample_parse_url fleet_gateway grant d cloud_model
  | None => False
  end.
Proof.
  pose proof streamed_run_sends as Hrun. destruct streamed_run as [[sv answer]|] eqn:E; [|exact Hrun]. destruct Hrun as [Hs _].
  split; [exact Hs|]. unfold streamed_run, exchange_sample in E.
  apply chat_sends_safely in E as [Hw|(grant & d & plan & _ & _ & (new & Hn & Hf & _) & _)].
  - rewrite Hs in Hw. discriminate Hw.
  - exists grant, d. rewrite Hs in Hn. cbn in Hn. subst new. by apply Forall_inv in Hf.
Defined.

Lemma chat_request_charged_witness :
  match streamed_run with
  | Some (sv, _) =>
      exists grant alias, cloud_model ∈ pool (gs_models fleet_gateway) alias /\
        turn_recorded fleet_gateway sample_rates None true 4 grant alias (sample_readings (Ok f64_zero)) default_ledger
          (bk_ledger (sv_books sv))
  | None => False
  end.
Proof.
  pose proof streamed_run_sends as Hrun. destruct streamed_run as [[sv answer]|] eqn:E; [|exact Hrun]. destruct Hrun as [Hs Hl].
  unfold streamed_run, exchange_sample in E.
  apply chat_request_charged in E as (new & Hn & [Hsame|(grant & d & plan & alias & target & _ & _ & _ & Ht & Hpool & Hturn)]).
  - rewrite Hsame in Hl. discriminate Hl.
  - rewrite Hs in Hn. cbn in Hn. subst new. apply list_elem_of_singleton in Ht as ->. exists grant, alias. split; [exact Hpool|].
    by destruct Hturn.
Defined.

Lemma chat_exchange_settles_witness :
  match streamed_run with Some (sv, _) => leases_of snd (sv_books sv) = [] | None => False end.
Proof.
  pose proof streamed_run_sends as Hrun. destruct streamed_run as [[sv answer]|] eqn:E; [|exact Hrun].
  unfold streamed_run, exchange_sample in E. apply (chat_exchange_settles _ _ _ _ _ _ _ _ _ _ _ _ _ _ _ _ _ _ _ _ _ _ _ _ _ _ _ _ snd) in E;
    [exact E|exact (@leased_laws _ granting_fleet)].
Defined.
