(* ===== verification/ConfigUse.v ===== *)
(** * From a configuration to the policies

    How [AppState] (crate [wayfinder-gateway], [src/lib.rs]) builds the policies
    from a parsed configuration, and what the parser's promise is worth to
    them: which constructions cannot fail, when the others do, and that a hot
    reload never installs a configuration without that promise. *)
From S2P Require Export GatewayValid.
From S2P Require Import Admission Reliability RateLimit Cache Auth Access Reload.

Section Admission.
Context {S : Type} `{Semaphore S} (MAX_PERMITS : Z).

Definition with_gateway_admission (config : GatewayConfig) : result (@AdmissionPolicy S) AdmissionError :=
  let? queue_timeout := ok_or (duration_nanos (queue_timeout (gc_concurrency config))) InvalidQueueTimeout in
  AdmissionPolicy_new MAX_PERMITS (max_in_flight (gc_concurrency config)) (max_queued (gc_concurrency config)) queue_timeout.
End Admission.

(** The process-local cache a configuration asks for. *)
Definition cache_settings_of (config : CacheConfig) : CacheSettings :=
  {| enabled := cc_enabled config; ttl_seconds := cc_ttl config; Cache.max_entries := cc_max_entries config;
     Cache.max_bytes := cc_max_bytes config |}.

Definition with_gateway_shadow (config : GatewayConfig) : result (ShadowConfig * Z) message :=
  let shadow := gc_shadow config in
  let slots := sh_max_in_flight shadow in
  if slots =? 0 then Err (Msg "gateway.shadow.max_in_flight must be positive" []) else Ok (shadow, slots).

Definition with_gateway_canary (shared_backend : option str) (config : GatewayConfig) : result CanaryConfig message :=
  let canary := gc_canary config in
  if cn_enabled canary && negb (match shared_backend with Some name => str_eqb name (lit "redis") | None => false end)
  then Err (Msg "gateway.canary.enabled requires gateway.state.backend = redis" [])
  else if cn_enabled canary && (f64_le (fraction canary) f64_zero || str_eqb (candidate_route canary) [])
  then Err (Msg "gateway.canary.enabled requires a positive fraction and candidate route" [])
  else Ok canary.

(** ** Limiters *)
Lemma new_limiter_valid rl : valid_rate_limit rl -> exists s, new_limiter rl = Ok s.
Proof.
  intros [_ _ _ [Hf Hp]]. unfold new_limiter, RateLimiter_new, validated_configuration. rewrite Hf. cbn [negb orb].
  assert (f64_le (rl_window rl) f64_zero = false) as -> by (by apply f64_lt_not_ge). by eexists.
Qed.

Lemma opt_limiter_valid config st : opt_all valid_rate_limit config -> exists o st', opt_limiter config st = Ok (o, st').
Proof.
  destruct config as [rl|]; [|by exists None, st]. intros Hv. destruct (new_limiter_valid rl Hv) as [s Hs].
  cbn [opt_limiter]. rewrite Hs. cbn [result_bind]. by eexists _, _.
Qed.

Lemma build_workspaces_valid entries acc st :
  Forall (fun kw => valid_workspace kw.2) entries -> exists m st', build_workspaces entries acc st = Ok (m, st').
Proof.
  intros H. revert acc st. induction H as [|[k w] entries Hw _ IH]; intros acc st; [by eexists _, _|].
  cbn [build_workspaces]. cbn [snd] in Hw. destruct Hw as [_ [_ Hl]]. destruct (opt_limiter_valid _ st Hl) as (o & st' & ->). apply IH.
Qed.

Lemma build_keys_valid ws entries st :
  Forall (fun kk => valid_key kk.2) entries ->
  (Forall (fun kk => valid_key_id kk.1 = true) entries /\ exists built, build_keys ws entries st = Ok built) \/
  (~ Forall (fun kk => valid_key_id kk.1 = true) entries /\ build_keys ws entries st = Err InvalidKeyId).
Proof.
  intros H. revert st. induction H as [|[id k] entries Hk _ IH]; intros st; [left; by split; [constructor|eexists]|].
  cbn [build_keys]. rewrite Forall_cons. cbn [fst]. destruct (valid_key_id id); [|right; naive_solver]. cbn [negb].
  cbn [snd] in Hk. destruct Hk as [_ _ [_ Hl]]. destruct (opt_limiter_valid _ st Hl) as (o & st' & ->). cbn [map_err result_bind].
  destruct (IH st') as [[Hf [[ks st2] ->]]|[Hf ->]]; [left|right; naive_solver].
  split; [done|]. by eexists.
Qed.

Lemma access_of_valid c :
  valid_config c ->
  (len (keys c) <= MAX_VIRTUAL_KEYS /\ len (workspaces c) <= MAX_WORKSPACES /\
   Forall (fun kk => valid_key_id kk.1 = true) (keys c) /\ is_ok (from_gateway_config_with_clock c) = true) \/
  (~ (len (keys c) <= MAX_VIRTUAL_KEYS /\ len (workspaces c) <= MAX_WORKSPACES /\
      Forall (fun kk => valid_key_id kk.1 = true) (keys c)) /\
   (from_gateway_config_with_clock c = Err TooManyKeys \/ from_gateway_config_with_clock c = Err TooManyWorkspaces \/
    from_gateway_config_with_clock c = Err InvalidKeyId)).
Proof.
  intros Hv. unfold from_gateway_config_with_clock.
  destruct (MAX_VIRTUAL_KEYS <? len (keys c)) eqn:E1; zify_bools; [right; split; [lia|auto]|].
  destruct (MAX_WORKSPACES <? len (workspaces c)) eqn:E2; zify_bools; [right; split; [lia|auto]|].
  destruct (vg_policies c Hv) as (_ & _ & Hrl & _). destruct (opt_limiter_valid _ [] Hrl) as (o & st & ->).
  cbn [map_err result_bind]. destruct (vg_workspaces c Hv) as [_ Hws].
  destruct (build_workspaces_valid (workspaces c) [] st) as (m & st2 & ->).
  { eapply Forall_impl; [exact Hws|]. by intros ? [_ ?]. }
  cbn [map_err result_bind]. destruct (vg_keys c Hv) as [_ Hks].
  destruct (build_keys_valid m (keys c) st2 Hks) as [[Hf [[ks st3] ->]]|[Hf ->]]; cbn [result_bind].
  - left. by split_and!.
  - right. split; [naive_solver|auto].
Qed.

(** ** Digests *)
Lemma hexdigit_nibble c : is_ascii_hexdigit c = true -> exists n, hex_nibble c = Some n.
Proof.
  unfold is_ascii_hexdigit, hex_nibble. rewrite !orb_true_iff, !andb_true_iff, !Z.leb_le. intros H.
  repeat case_match; zify_bools; try (by eexists); lia.
Qed.

Lemma hexdigit_solid c : is_ascii_hexdigit c = true -> char_is_whitespace c = false.
Proof.
  unfold is_ascii_hexdigit. rewrite !orb_true_iff, !andb_true_iff, !Z.leb_le. intros H. unfold char_is_whitespace.
  rewrite ?orb_false_iff, ?andb_false_iff, ?Z.eqb_neq, ?Z.leb_gt. lia.
Qed.

Lemma parse_pairs_total l : Nat.Even (length l) -> Forall (fun c => is_ascii_hexdigit c = true) l -> exists d, parse_pairs l = Some d.
Proof.
  intros [k Hk]. revert l Hk. induction k as [|k IH]; intros l Hk Hl.
  - destruct l; [by exists []|simpl in Hk; lia].
  - destruct l as [|a [|b l]]; [simpl in Hk; lia..|]. apply Forall_cons in Hl as [Ha Hl]. apply Forall_cons in Hl as [Hb Hl].
    destruct (hexdigit_nibble a Ha) as [x Hx], (hexdigit_nibble b Hb) as [y Hy].
    destruct (IH l) as [d Hd]; [simpl in Hk; lia|done|]. cbn [parse_pairs]. rewrite Hx, Hy, Hd. by eexists.
Qed.

Lemma stored_digest_parses s : is_sha256_hex s = true -> exists d, parse_digest s = Some d.
Proof.
  intros [Hl Hf]%sha256_hex_chars. unfold parse_digest.
  assert (Forall (fun c => c < 128) s) as Ha.
  { eapply Forall_impl; [exact Hf|]. intros c Hc. unfold is_ascii_hexdigit in Hc.
    rewrite !orb_true_iff, !andb_true_iff, !Z.leb_le in Hc. lia. }
  rewrite (trim_solid s) by (eapply Forall_impl; [exact Hf|apply hexdigit_solid]).
  rewrite str_len_bytes, (as_bytes_ascii s Ha), Hl. cbn [negb Z.eqb]. apply parse_pairs_total; [|done].
  exists 32%nat. unfold len in Hl. lia.
Qed.

(** ** Reliability *)
Lemma failover_known s : s ∈ FAILOVER_POLICIES -> exists p, parse_failover s = Some p.
Proof.
  unfold FAILOVER_POLICIES. cbn [map]. intros [-> |[-> |[-> |[]%elem_of_nil]%elem_of_cons]%elem_of_cons]%elem_of_cons;
    [by exists SameTier|by exists Reliability.Degrade|by exists Escalate].
Qed.

Lemma reliability_of_valid c :
  valid_config c ->
  match Reliability.from_gateway_config c with
  | Ok (p, _) => Z.of_nat (rp_retries p) = gc_retries c /\ rp_breaker_threshold p = gc_breaker_threshold c
  | Err e => e = InvalidBounds
  end.
Proof.
  intros Hv. destruct (vg_strings c Hv) as [_ Hf]. destruct (failover_known _ Hf) as [p Hp].
  destruct (vg_numbers c Hv) as (_ & Hr & [Ht _] & _). unfold Reliability.from_gateway_config.
  destruct (duration_nanos (gc_breaker_cooldown c)) as [n|]; [|done]. cbn [ok_or result_bind].
  destruct (_ <=? u64_max); [|done]. cbn [result_bind]. rewrite Hp. cbn [ok_or result_bind rp_retries rp_breaker_threshold].
  destruct Hr. split; lia.
Qed.

(** What the parser accepts, the policies can be built from.  On every
    configuration the parser returns: the access policy is built unless there
    are too many keys or workspaces or a key's name is unusable, never because
    of a limiter; the reliability policy unless the cooldown is too long, never
    because of the failover policy; the cache's settings are always valid, every
    stored key digest parses, shadow routing always starts, and a canary starts
    on a shared backend unless it is enabled with a fraction of zero. *)
Theorem parsed_config_builds from_toml text where_ c :
  (forall text v, from_toml text = Ok v -> wf_toml v) -> gateway_config_from_toml from_toml text where_ = Ok c ->
  (is_ok (from_gateway_config_with_clock c) = true <->
     len (keys c) <= MAX_VIRTUAL_KEYS /\ len (workspaces c) <= MAX_WORKSPACES /\
     Forall (fun kk => valid_key_id kk.1 = true) (keys c)) /\
  (forall e, Reliability.from_gateway_config c = Err e -> e = InvalidBounds) /\
  opt_all (fun cache => validate_settings (cache_settings_of cache) = Ok ()) (gc_cache c) /\
  (forall id k, (id, k) ∈ keys c -> exists d, parse_digest (vk_hash k) = Some d) /\
  with_gateway_shadow c = Ok (gc_shadow c, sh_max_in_flight (gc_shadow c)) /\
  (is_ok (with_gateway_canary (Some (lit "redis")) c) = false <->
     cn_enabled (gc_canary c) = true /\ f64_le (fraction (gc_canary c)) f64_zero = true).
Proof.
  intros Hty Hc%gateway_config_ok; [|done]. split_and!.
  - destruct (access_of_valid c Hc) as [(?&?&?& ->)|[Hn [-> |[-> | ->]]]]; cbn [is_ok]; naive_solver.
  - intros e He. pose proof (reliability_of_valid c Hc) as H. by rewrite He in H.
  - destruct (vg_policies c Hc) as (_ & Hca & _). destruct (gc_cache c) as [cache|]; [|done].
    destruct Hca as [_ [Hf Hg] _ _]. unfold opt_all, validate_settings. cbn. rewrite Hf. cbn [negb orb].
    destruct (f64_lt (cc_ttl cache) f64_zero) eqn:E; [|done]. apply f64_lt_not_ge in E. unfold f64_ge, f64_le in *. congruence.
  - intros id k Hin. destruct (vg_keys c Hc) as [_ Hk]. rewrite Forall_forall in Hk.
    destruct (Hk _ Hin) as [[Hd _] _ _]. by apply stored_digest_parses.
  - destruct (vg_shadow c Hc) as [_ _ [[Hp _] _] _ _ _]. unfold with_gateway_shadow.
    destruct (Z.eqb_spec (sh_max_in_flight (gc_shadow c)) 0); [lia|done].
  - unfold with_gateway_canary. destruct (cn_enabled (gc_canary c)) eqn:He; [|cbn; naive_solver].
    replace (str_eqb (lit "redis") (lit "redis")) with true by reflexivity. cbn [negb andb].
    pose proof (vcn_enabled _ _ (vg_canary c Hc) He) as Hr. apply str_eqb_neq in Hr as ->. rewrite orb_false_r.
    destruct (f64_le _ _); cbn [is_ok]; naive_solver.
Qed.

(** The watched file: each request observes a version, and what the holder has
    after them. *)
Definition watch {V} `{EqDecision V} (from_toml : str -> result TomlValue str) (source : V -> str) (where_ : str)
    (initial : GatewayConfig) (v0 : V) (vs : list V) : LastGood GatewayConfig V :=
  run (fun v => gateway_config_from_toml from_toml (source v) where_) (LastGood_new initial v0) vs.

(** A hot reload keeps the gateway on a valid configuration: whatever the
    file holds at each version a request observes, valid or not, the
    configuration in use has the parser's promise and every model, profile and
    workspace it refers to exists. *)
Theorem reload_keeps_valid {V} `{EqDecision V} from_toml (source : V -> str) where_ initial v0 vs :
  (forall text v, from_toml text = Ok v -> wf_toml v) -> valid_config initial ->
  let s := watch from_toml source where_ initial v0 vs in
  valid_config (lg_current s) /\ references_resolve (lg_current s).
Proof.
  intros Hty Hi. assert (valid_config (lg_current (watch from_toml source where_ initial v0 vs))) as Hv.
  { unfold watch. apply run_keeps; [done|]. intros v next Hn. by eapply gateway_config_ok. }
  split; [done|by apply vg_references].
Qed.

(** ** Closed examples *)
Example parsed_config_builds_witness :
  is_ok (from_gateway_config_with_clock sample_gateway) = true /\
  is_ok (with_gateway_canary (Some (lit "redis")) sample_gateway) = true.
Proof.
  destruct (parsed_config_builds (read_as sample_gateway_table) [] (lit "router.toml") sample_gateway sample_typed)
    as (Ha & _ & _ & _ & _ & Hc); [vm_compute; reflexivity|]. split.
  - apply Ha. split; [vm_compute; discriminate|]. split; [vm_compute; discriminate|]. repeat constructor.
  - apply not_false_is_true. intros [_ H]%Hc. vm_compute in H. discriminate.
Defined.

(** A broken edit keeps the running configuration, the next good one replaces it. *)
Definition edited (v : nat) : result GatewayConfig ConfigError :=
  gateway_config_from_toml
    (fun text => match text with [] => Err (lit "unexpected end") | _ => Ok (sample_document sample_gateway_table) end)
    (match v with 2%nat => [] | _ => lit "ok" end) (lit "router.toml").

Example reload_skips_bad_edit :
  lg_failures (run edited (LastGood_new default_config 1%nat) [1; 2; 2; 3]%nat) = 1 /\
  loads edited (LastGood_new default_config 1%nat) [1; 2; 2; 3]%nat = 2%nat.
Proof. vm_compute. by split. Qed.

Example reload_keeps_valid_witness :
  valid_config (lg_current (watch (read_as sample_gateway_table) (fun _ : nat => []) (lit "router.toml") default_config
    1%nat [2; 3]%nat)).
Proof.
  apply (reload_keeps_valid (read_as sample_gateway_table) (fun _ : nat => []) (lit "router.toml") default_config 1%nat [2; 3]%nat
           sample_typed default_config_valid).
Defined.
