(* ===== verification/Shadow.v ===== *)
(** * Shadow routing (crate [wayfinder-gateway], [src/shadow.rs] and [schedule_shadow] of [src/lib.rs])

    Off-path evaluation of candidate routes: the bounded record store, sampling,
    the choice of a candidate, and the evaluator with its provider comparisons.
    What other tasks do to the store while an evaluator runs is a function of
    the environment; a poisoned lock is not modelled. *)
From S2P Require Export ChatDelivery Metrics CacheKey.

Definition SHADOW_SCHEMA_VERSION : str := lit "wf-shadow-v1".
Definition SHADOW_REASON_NO_ELIGIBLE_MODEL : str := lit "no-eligible-model".
Definition SHADOW_PROVIDER_CONSENT_HEADER : str := lit "x-wayfinder-shadow-provider-consent".

Record ShadowRecord := {
  sd_request_id : str;
  sd_candidate_route : str;
  sd_production_model : str;
  sd_shadow_model : option str;
  sd_production_score : f64;
  sd_shadow_score : option f64;
  sd_divergent : bool;
  sd_status : str;
  sd_reason_codes : list str;
  sd_provider_compared : bool;
  sd_provider_status : option Z;
  sd_provider_latency_ms : option Z;
  sd_provider_cost : option f64;
  sd_provider_cost_class : option str;
  sd_scorer_version : Z;
  sd_config_fingerprint : str;
  sd_candidate_fingerprint : str;
}.

Record ShadowSnapshot := {
  sn_records : list ShadowRecord;
  sn_sampled : Z;
  sn_dropped_in_flight : Z;
  sn_dropped_provider_budget : Z;
  sn_completed : Z;
  sn_divergent : Z;
  sn_errors : Z;
  sn_provider_comparisons : Z;
  sn_provider_errors : Z;
}.

Record ShadowState := {
  sw_records : list ShadowRecord;
  sw_sampled : Z;
  sw_dropped_in_flight : Z;
  sw_dropped_provider_budget : Z;
  sw_completed : Z;
  sw_divergent : Z;
  sw_errors : Z;
  sw_provider_comparisons : Z;
  sw_provider_errors : Z;
  sw_provider_window_start : f64;
  sw_provider_window_used : Z;
}.

Record ShadowStore := { so_state : ShadowState; so_max_records : Z; so_active : bool }.

(** ** The store *)
Definition ShadowState_default : ShadowState :=
  {| sw_records := []; sw_sampled := 0; sw_dropped_in_flight := 0; sw_dropped_provider_budget := 0; sw_completed := 0;
     sw_divergent := 0; sw_errors := 0; sw_provider_comparisons := 0; sw_provider_errors := 0;
     sw_provider_window_start := f64_zero; sw_provider_window_used := 0 |}.

Definition ShadowStore_new (max_records : Z) : ShadowStore :=
  {| so_state := ShadowState_default; so_max_records := Z.max max_records 1; so_active := true |}.

Definition set_active (s : ShadowStore) (active : bool) : ShadowStore :=
  {| so_state := so_state s; so_max_records := so_max_records s; so_active := active |}.

Definition is_active (s : ShadowStore) : bool := so_active s.

(** [with_state(f)]: the body of an operation under the lock. *)
Definition with_state (s : ShadowStore) (f : ShadowState -> ShadowState) : ShadowStore :=
  {| so_state := f (so_state s); so_max_records := so_max_records s; so_active := so_active s |}.

Definition count_sampled (s : ShadowStore) : ShadowStore :=
  with_state s (fun '(Build_ShadowState r a b c d e f g h i j) => Build_ShadowState r (u64_sat_add a 1) b c d e f g h i j).

Definition count_dropped_in_flight (s : ShadowStore) : ShadowStore :=
  with_state s (fun '(Build_ShadowState r a b c d e f g h i j) => Build_ShadowState r a (u64_sat_add b 1) c d e f g h i j).

(** Whether the comparison window starts anew. *)
Definition renews (config : ShadowConfig) (st : ShadowState) (now : f64) : bool :=
  f64_is_finite now
  && (f64_le (sw_provider_window_start st) f64_zero
      || f64_ge (f64_sub now (sw_provider_window_start st)) (provider_window config)).

Definition renewed (config : ShadowConfig) (now : f64) (st : ShadowState) : ShadowState :=
  if renews config st now then
    let '(Build_ShadowState r a b c d e f g h _ _) := st in Build_ShadowState r a b c d e f g h (f64_max now f64_zero) 0
  else st.

Definition provider_slot (s : ShadowStore) (config : ShadowConfig) (now : f64) : ShadowStore * bool :=
  let st := renewed config now (so_state s) in
  if provider_max_requests config <=? sw_provider_window_used st then
    (with_state s (fun _ => let '(Build_ShadowState r a b c d e f g h i j) := st in
                            Build_ShadowState r a b (u64_sat_add c 1) d e f g h i j), false)
  else
    (with_state s (fun _ => let '(Build_ShadowState r a b c d e f g h i j) := st in
                            Build_ShadowState r a b c d e f (u64_sat_add g 1) h i (u64_sat_add j 1)), true).

Definition count_provider_error (s : ShadowStore) : ShadowStore :=
  with_state s (fun '(Build_ShadowState r a b c d e f g h i j) => Build_ShadowState r a b c d e f g (u64_sat_add h 1) i j).

(** The new record comes first; the oldest ones go. *)
Definition add_record (s : ShadowStore) (record : ShadowRecord) : ShadowStore :=
  with_state s (fun '(Build_ShadowState r a b c d e f g h i j) =>
    Build_ShadowState (take (Z.to_nat (so_max_records s)) (record :: r)) a b c (u64_sat_add d 1)
      (if sd_divergent record then u64_sat_add e 1 else e) f g h i j).

Definition count_error (s : ShadowStore) : ShadowStore :=
  with_state s (fun '(Build_ShadowState r a b c d e f g h i j) => Build_ShadowState r a b c d e (u64_sat_add f 1) g h i j).

Definition snapshot (s : ShadowStore) (limit : Z) : ShadowSnapshot :=
  let st := so_state s in
  {| sn_records := take (Z.to_nat (Z.min limit (so_max_records s))) (sw_records st); sn_sampled := sw_sampled st;
     sn_dropped_in_flight := sw_dropped_in_flight st; sn_dropped_provider_budget := sw_dropped_provider_budget st;
     sn_completed := sw_completed st; sn_divergent := sw_divergent st; sn_errors := sw_errors st;
     sn_provider_comparisons := sw_provider_comparisons st; sn_provider_errors := sw_provider_errors st |}.

(** ** [x.to_string()] of an [f64]: the shortest digits, never an exponent *)
Definition display_f64 (x : f64) : str :=
  match x with
  | S754_nan => lit "NaN"
  | S754_infinity s => sign_text s (lit "inf")
  | S754_zero s => sign_text s (lit "0")
  | S754_finite s m e =>
      let '(d, k) := shortest m e in
      let '(d, k) := strip_zeros 20 d k in
      sign_text s (if 0 <=? k then show_digits (d * 10 ^ k)
                   else show_digits (d / 10 ^ (- k)) ++ lit "." ++ digits_ascii (Z.to_nat (- k)) (d mod 10 ^ (- k)))
  end.

Definition display_bool (b : bool) : str := if b then lit "true" else lit "false".

Section Fingerprints.
Context (sha256 : list Z -> list Z) (quote_toml : str -> str).

(** [format!("{byte:02x}")] of the first eight bytes. *)
Definition short_fingerprint (bytes : list Z) : str := hex_encode (take 8 bytes).

Definition candidate_fingerprint (routes : list str) : str :=
  short_fingerprint (sha256 (as_bytes SHADOW_SCHEMA_VERSION ++ flat_map (fun route => 0 :: as_bytes route) routes)).

Definition config_fingerprint (routing : RoutingConfig) (config : ShadowConfig) : str :=
  short_fingerprint (sha256 (
    as_bytes (dump_routing_toml quote_toml routing) ++ [0]
    ++ display_bool (sh_enabled config) ++ [0]
    ++ display_f64 (sample_rate config) ++ [0]
    ++ flat_map (fun route => as_bytes route ++ [0]) (candidate_routes config)
    ++ show_digits (sh_max_in_flight config) ++ [0]
    ++ show_digits (max_records config) ++ [0]
    ++ display_bool (provider_comparisons config) ++ [0]
    ++ display_f64 (provider_sample_rate config) ++ [0]
    ++ show_digits (provider_max_requests config) ++ [0]
    ++ display_f64 (provider_window config))).

(** ** Sampling *)
Definition sample_point (request_id salt : str) : f64 :=
  f64_div (f64_of_Z (be_u64 (take 8 (sha256 (as_bytes request_id ++ [0] ++ as_bytes salt))))) (f64_of_Z u64_max).

Definition deterministic_sample (request_id salt : str) (rate : f64) : bool :=
  if f64_le rate f64_zero then false
  else if f64_ge rate f64_one then true
  else f64_lt (sample_point request_id salt) rate.
End Fingerprints.

Definition provider_consent (headers : list (str * list Z)) : bool :=
  match ix_get headers SHADOW_PROVIDER_CONSENT_HEADER ≫= header_to_str with
  | Some value => existsb (str_eqb (to_ascii_lowercase (trim value))) [lit "1"; lit "true"; lit "yes"]
  | None => false
  end.

(** ** Evaluation *)
Record ShadowJob (number : Type) := {
  sj_request_id : str;
  sj_prompt : str;
  sj_routing_request : RoutingRequest;
  sj_production_model : str;
  sj_production_score : f64;
  sj_request_body : Value number;
  sj_provider_consent : bool;
}.
Arguments sj_request_id {number}.
Arguments sj_prompt {number}.
Arguments sj_routing_request {number}.
Arguments sj_production_model {number}.
Arguments sj_production_score {number}.
Arguments sj_request_body {number}.
Arguments sj_provider_consent {number}.

Section Evaluation.
Context {number : Type} `{JsonNumber number} `{JsonText number}.
Context {M : Type} `{IndexMap f64 M}.
Context {B : Type}.
Context (parse_url : str -> option Url) (compiled : result Patterns str) (sha256 : list Z -> list Z) (quote_toml : str -> str).

(** What the snapshot of the gateway state fixes. *)
Context (routing : RoutingConfig) (models : list ConfiguredModel) (presets : list (str * RoutePreset)) (table : PriceTable M)
        (has_delivery : bool).

(** The environment: the provider, the clocks, and what other tasks did to the
    store since the evaluator looked last. *)
Context (env_send : nat -> ConfiguredModel -> result BufferedDeliveryResponse DeliveryError)
        (env_signal_clock env_store_clock : nat -> f64) (env_millis : nat -> Z) (env_others : nat -> ShadowStore -> ShadowStore).

(** What an evaluator changes. *)
Record Evaluation := {
  ev_world : World (B := B);
  ev_store : ShadowStore;
  ev_metrics : GatewayMetrics;
}.

Definition set_world (e : Evaluation) (w : World (B := B)) : Evaluation :=
  {| ev_world := w; ev_store := ev_store e; ev_metrics := ev_metrics e |}.
Definition set_store (e : Evaluation) (s : ShadowStore) : Evaluation :=
  {| ev_world := ev_world e; ev_store := s; ev_metrics := ev_metrics e |}.
Definition set_metrics (e : Evaluation) (m : GatewayMetrics) : Evaluation :=
  {| ev_world := ev_world e; ev_store := ev_store e; ev_metrics := m |}.

Definition event (e : Evaluation) (name candidate : str) : Evaluation :=
  set_metrics e (observe_shadow_event (ev_metrics e) name candidate).

(** Time passes: the other tasks run. *)
Definition others (e : Evaluation) : Evaluation :=
  let '(w, t) := ask (ev_world e) in set_store (set_world e w) (env_others t (ev_store e)).

Fixpoint select_loop (request : RoutingRequest) (names : list str) (reasons : list str) : option str * list str :=
  match names with
  | [] => (None, reasons ++ [SHADOW_REASON_NO_ELIGIBLE_MODEL])
  | name :: names =>
      match find_model models name with
      | None => select_loop request names (reasons ++ [name ++ lit ":unknown-model"])
      | Some model =>
          let assessment := assess_model parse_url request model in
          if is_eligible assessment then (Some name, reasons)
          else select_loop request names
                 (reasons ++ [name ++ lit ":" ++ str_join (lit ",") (map exclusion_reason_name (ca_exclusions assessment))])
      end
  end.

Definition select_candidate (request : RoutingRequest) (route : RoutePreset) : option str * list str :=
  select_loop request (rp_models route) [].

Definition shadow_cost (model : str) (job : ShadowJob number) (response : BufferedDeliveryResponse) : option (f64 * str) :=
  if negb (str_contains (br_content_type response) (lit "json")) then None
  else match from_slice (br_body response) with
  | Err _ => None
  | Ok value =>
      let prompt := extract_prompt (default JNull (value_get (sj_request_body job) (lit "messages"))) All in
      let usage := usage_tokens value prompt (first_choice_text value) in
      match turn_cost model (ut_prompt usage) (ut_completion usage) (costs table) (ut_estimated usage) None with
      | Err _ => None
      | Ok cost => Some (tc_realized cost, if table_priced table then lit "currency" else lit "relative")
      end
  end.

(** What a comparison leaves in the record. *)
Record Comparison := {
  cp_status : option Z;
  cp_latency_ms : option Z;
  cp_cost : option (f64 * str);
  cp_reason : option str;
}.

Definition no_comparison (reason : option str) : Comparison :=
  {| cp_status := None; cp_latency_ms := None; cp_cost := None; cp_reason := reason |}.

Definition provider_failed (e : Evaluation) (route : str) : Evaluation :=
  event (set_store e (count_provider_error (ev_store e))) (lit "provider-error") route.

(** One request to the first selected deployment of the candidate. *)
Definition compare_provider (e : Evaluation) (job : ShadowJob number) (model_name route : str) : Evaluation * Comparison :=
  let '(candidates, c) := deployment_candidates models (w_cursors (ev_world e)) model_name in
  let e := set_world e (set_cursors (ev_world e) c) in
  let eligible := eligible_deployment_targets parse_url candidates (sj_routing_request job) false 0 in
  let '(w, selection) := select_deployments env_signal_clock models (ev_world e) model_name eligible in
  let e := set_world e w in
  match has_delivery, targets selection with
  | true, target :: _ =>
      let '(w, t) := ask (log_sent (ev_world e) target) in
      let e := others (set_world e w) in
      match env_send t target with
      | Err _ => (provider_failed e route, no_comparison (Some (lit "provider-error")))
      | Ok response =>
          let '(w, t) := ask (ev_world e) in
          let e := set_world e w in
          let latency := Z.min (env_millis t) u64_max in
          let success := (200 <=? br_status response) && (br_status response <? 300) in
          let recorded cost reason :=
            {| cp_status := Some (br_status response); cp_latency_ms := Some latency; cp_cost := cost; cp_reason := reason |} in
          if success then
            let e := event e (lit "provider-success") route in
            match shadow_cost model_name job response with
            | None => (e, recorded None None)
            | Some (cost, class) =>
                (if f64_gt cost f64_zero then set_metrics e (observe_shadow_cost (ev_metrics e) cost) else e,
                 recorded (Some (cost, class)) None)
            end
          else (provider_failed e route, recorded None (Some (lit "provider-status")))
      end
  | _, _ => (provider_failed e route, no_comparison (Some (lit "provider-unavailable")))
  end.

(** The gates before a provider comparison; the last one takes a slot. *)
Definition comparison_allowed (config : ShadowConfig) (job : ShadowJob number) (fingerprint route : str) (shadow_model : option str) : bool :=
  provider_comparisons config
  && f64_gt (provider_sample_rate config) f64_zero
  && sj_provider_consent job
  && bool_decide (rq_privacy_posture (sj_routing_request job) = HostedAllowed)
  && bool_decide (is_Some shadow_model)
  && deterministic_sample sha256 (sj_request_id job ++ lit ":" ++ route ++ lit ":provider") fingerprint (provider_sample_rate config).

Definition compare_candidate (e : Evaluation) (config : ShadowConfig) (job : ShadowJob number) (fingerprint route : str)
    (shadow_model : option str) : Evaluation * (bool * Comparison) :=
  let refused := no_comparison (if provider_comparisons config && sj_provider_consent job
                                then Some (lit "provider-comparison-not-admitted") else None) in
  if comparison_allowed config job fingerprint route shadow_model then
    let '(w, t) := ask (ev_world e) in
    let e := set_world e w in
    let '(store, granted) := provider_slot (ev_store e) config (env_store_clock t) in
    let e := set_store e store in
    if granted then
      let '(e, c) := compare_provider e job (default [] shadow_model) route in (e, (true, c))
    else (e, (false, refused))
  else (e, (false, refused)).

Definition evaluate_route (e : Evaluation) (config : ShadowConfig) (job : ShadowJob number) (score : f64)
    (config_print candidate_print route : str) (preset : RoutePreset) : Evaluation :=
  let '(shadow_model, reasons) := select_candidate (sj_routing_request job) preset in
  let divergent := match shadow_model with Some model => negb (str_eqb model (sj_production_model job)) | None => false end in
  let '(e, (compared, c)) := compare_candidate e config job config_print route shadow_model in
  let reasons := reasons ++ match cp_reason c with Some reason => [reason] | None => [] end in
  let e := event e (if divergent then lit "divergence" else lit "match") route in
  set_store e (add_record (ev_store e)
    {| sd_request_id := sj_request_id job; sd_candidate_route := route; sd_production_model := sj_production_model job;
       sd_shadow_model := shadow_model; sd_production_score := sj_production_score job; sd_shadow_score := Some score;
       sd_divergent := divergent; sd_status := lit "completed"; sd_reason_codes := reasons; sd_provider_compared := compared;
       sd_provider_status := cp_status c; sd_provider_latency_ms := cp_latency_ms c; sd_provider_cost := fst <$> cp_cost c;
       sd_provider_cost_class := snd <$> cp_cost c; sd_scorer_version := RUNTIME_CONTRACT_VERSION;
       sd_config_fingerprint := config_print; sd_candidate_fingerprint := candidate_print |}).

(** The loop over the candidate routes: each round looks at the switch first. *)
Fixpoint evaluate_loop (e : Evaluation) (config : ShadowConfig) (job : ShadowJob number) (score : f64)
    (config_print candidate_print : str) (routes : list str) : Evaluation :=
  match routes with
  | [] => e
  | route :: routes =>
      let e := others e in
      if negb (is_active (ev_store e)) then e
      else match ix_get presets route with
      | None => evaluate_loop (event (set_store e (count_error (ev_store e))) (lit "error") (lit "route")) config job score
                  config_print candidate_print routes
      | Some preset => evaluate_loop (evaluate_route e config job score config_print candidate_print route preset) config job score
                         config_print candidate_print routes
      end
  end.

Definition evaluate (e : Evaluation) (config : ShadowConfig) (job : ShadowJob number) : Evaluation :=
  let e := others e in
  if negb (is_active (ev_store e)) then e
  else match score_complexity compiled (sj_prompt job) routing with
  | Err _ => event (set_store e (count_error (ev_store e))) (lit "error") (lit "score")
  | Ok score =>
      evaluate_loop e config job (cs_score score) (config_fingerprint sha256 quote_toml routing config)
        (candidate_fingerprint sha256 (candidate_routes config)) (candidate_routes config)
  end.

(** [schedule_shadow]: whether a slot is free and whether a runtime is current
    are the environment's answers.  The job is spawned, when there is one. *)
Definition schedule_shadow (config : ShadowConfig) (store : ShadowStore) (metrics : GatewayMetrics) (slot_free runtime : bool)
    (job : ShadowJob number) : ShadowStore * GatewayMetrics * option (ShadowJob number) :=
  if negb (sh_enabled config) || bool_decide (candidate_routes config = [])
     || negb (deterministic_sample sha256 (sj_request_id job) (candidate_fingerprint sha256 (candidate_routes config)) (sample_rate config))
  then (store, metrics, None)
  else
    let store := count_sampled store in
    if negb slot_free then (count_dropped_in_flight store, observe_shadow_event metrics (lit "dropped") (lit "in-flight"), None)
    else if negb runtime then (count_error store, observe_shadow_event metrics (lit "error") (lit "runtime"), None)
    else (store, metrics, Some job).

(** ** What an evaluator sends *)

(** Where a comparison may go, and when. *)
Record may_compare (config : ShadowConfig) (job : ShadowJob number) (target : ConfiguredModel) : Prop := {
  mc_config : provider_comparisons config = true /\ f64_gt (provider_sample_rate config) f64_zero = true;
  mc_consent : sj_provider_consent job = true;
  mc_posture : rq_privacy_posture (sj_routing_request job) = HostedAllowed;
  mc_target : exists route preset name model, route ∈ candidate_routes config /\ ix_get presets route = Some preset /\
    name ∈ rp_models preset /\ find_model models name = Some model /\
    is_eligible (assess_model parse_url (sj_routing_request job) model) = true /\
    target ∈ pool models name /\ target_eligible parse_url (sj_routing_request job) false 0 target = true;
}.

(** What production reads of the world, other than the rotation of its pools. *)
Definition undisturbed (w w' : World (B := B)) : Prop :=
  w_signals w' = w_signals w /\ w_breaker w' = w_breaker w /\ w_shared w' = w_shared w.

Lemma undisturbed_trans w1 w2 w3 : undisturbed w1 w2 -> undisturbed w2 w3 -> undisturbed w1 w3.
Proof. intros (? & ? & ?) (? & ? & ?). split_and!; by etrans. Qed.

(** A step of an evaluator: what it sends satisfies [P], at most [n] times. *)
Definition quiet (P : ConfiguredModel -> Prop) (n : nat) (e e' : Evaluation) : Prop :=
  sends P n (ev_world e) (ev_world e') /\ undisturbed (ev_world e) (ev_world e').

Lemma quiet_same P e e' : w_sent (ev_world e') = w_sent (ev_world e) -> undisturbed (ev_world e) (ev_world e') -> quiet P 0 e e'.
Proof. intros Hs Hu. split; [by apply sends_refl|done]. Qed.

Lemma quiet_trans P n m e1 e2 e3 : quiet P n e1 e2 -> quiet P m e2 e3 -> quiet P (n + m) e1 e3.
Proof. intros [? ?] [? ?]. split; [by eapply sends_trans|by eapply undisturbed_trans]. Qed.

Lemma quiet_weaken (P Q : ConfiguredModel -> Prop) n m e e' : (forall x, P x -> Q x) -> (n <= m)%nat -> quiet P n e e' -> quiet Q m e e'.
Proof. intros ? ? [? ?]. split; [by eapply sends_weaken|done]. Qed.

Lemma others_quiet P e : quiet P 0 e (others e).
Proof. by apply quiet_same. Qed.

Lemma select_loop_eligible request names reasons name reasons' : select_loop request names reasons = (Some name, reasons') ->
  name ∈ names /\ exists model, find_model models name = Some model /\ is_eligible (assess_model parse_url request model) = true.
Proof.
  revert reasons. induction names as [|n names IH]; intros reasons; cbn [select_loop]; [done|].
  destruct (find_model models n) as [model|] eqn:Hm.
  - destruct (is_eligible _) eqn:He.
    + intros [= <- <-]. split; [by left|by exists model].
    + intros (Hin & Hx)%IH. split; [by right|done].
  - intros (Hin & Hx)%IH. split; [by right|done].
Qed.

Lemma compare_provider_quiet e job name route :
  quiet (offered parse_url models [name] (sj_routing_request job) false 0) 1 e (compare_provider e job name route).1.
Proof.
  unfold compare_provider. pose proof (candidates_perm models (w_cursors (ev_world e)) name) as Hp.
  destruct (deployment_candidates models _ name) as [candidates c]. cbn [fst] in Hp.
  destruct (alias_targets parse_url env_signal_clock models (ev_world (set_world e (set_cursors (ev_world e) c))) name candidates
              (sj_routing_request job) false 0 Hp) as [Hf _].
  set (eligible := eligible_deployment_targets parse_url candidates (sj_routing_request job) false 0) in *.
  assert (w_sent (select_deployments env_signal_clock models (ev_world (set_world e (set_cursors (ev_world e) c))) name eligible).1
          = w_sent (ev_world e)) as Hs by done.
  assert (undisturbed (ev_world e) (select_deployments env_signal_clock models (ev_world (set_world e (set_cursors (ev_world e) c))) name eligible).1)
    as Hu by done.
  destruct (select_deployments _ _ _ name eligible) as [w selection]. cbn [fst snd] in *.
  assert (forall e', w_sent (ev_world e') = w_sent (ev_world e) -> undisturbed (ev_world e) (ev_world e') ->
            quiet (offered parse_url models [name] (sj_routing_request job) false 0) 1 e e') as Hnone.
  { intros e' ? ?. by apply (quiet_weaken (offered parse_url models [name] (sj_routing_request job) false 0) _ 0 1), quiet_same; [|lia|..]. }
  destruct has_delivery; [|by apply Hnone]. destruct (targets selection) as [|target rest]; [by apply Hnone|].
  inversion Hf as [|? ? Hoff _]; subst.
  assert (forall e', w_sent (ev_world e') = w_sent (ev_world e) ++ [target] -> undisturbed (ev_world e) (ev_world e') ->
            quiet (offered parse_url models [name] (sj_routing_request job) false 0) 1 e e') as Hone.
  { intros e' Hw ?. split; [|done]. exists [target]. rewrite Hw. split_and!; [done|by repeat constructor|done]. }
  cbn [ask]. destruct (env_send _ target) as [response|error]; [|apply Hone; [cbn; by rewrite Hs|done]].
  destruct (_ && _); [|apply Hone; [cbn; by rewrite Hs|done]].
  destruct (shadow_cost name job response) as [[cost class]|]; [|apply Hone; [cbn; by rewrite Hs|done]].
  destruct (f64_gt cost f64_zero); apply Hone; [cbn; by rewrite Hs|done|cbn; by rewrite Hs|done].
Qed.

Lemma compare_candidate_quiet e config job fingerprint route preset shadow_model reasons :
  route ∈ candidate_routes config -> ix_get presets route = Some preset ->
  select_candidate (sj_routing_request job) preset = (shadow_model, reasons) ->
  quiet (may_compare config job) 1 e (compare_candidate e config job fingerprint route shadow_model).1.
Proof.
  intros Hr Hpre Hsel. unfold compare_candidate.
  assert (forall e', w_sent (ev_world e') = w_sent (ev_world e) -> undisturbed (ev_world e) (ev_world e') -> quiet (may_compare config job) 1 e e')
    as Hnone.
  { intros e' ? ?. by apply (quiet_weaken (may_compare config job) _ 0 1), quiet_same; [|lia|..]. }
  destruct (comparison_allowed _ _ _ _ _) eqn:Ha; [|by apply Hnone]. cbn [ask].
  destruct (provider_slot _ config _) as [store granted]. destruct granted; [|by apply Hnone].
  unfold comparison_allowed in Ha. rewrite !andb_true_iff, !bool_decide_eq_true in Ha.
  destruct Ha as (((((Hc & Hrate) & Hconsent) & Hpost) & [name ->]) & _). change (default [] (Some name)) with name.
  set (e1 := set_store _ store). pose proof (compare_provider_quiet e1 job name route) as Hq.
  destruct (compare_provider e1 job name route) as [e2 c]. cbn [fst] in *.
  apply (quiet_trans _ 0 1 e e1); [by apply quiet_same|]. eapply quiet_weaken; [|reflexivity|exact Hq].
  intros target (alias & Hin & Hpool & Helig & _). apply list_elem_of_singleton in Hin as ->.
  unfold select_candidate in Hsel. apply select_loop_eligible in Hsel as (Hname & model & Hm & He).
  constructor; [done|done|done|]. by exists route, preset, name, model.
Qed.

Lemma evaluate_loop_quiet e config job score config_print candidate_print routes : routes ⊆ candidate_routes config ->
  quiet (may_compare config job) (length routes) e (evaluate_loop e config job score config_print candidate_print routes).
Proof.
  revert e. induction routes as [|route routes IH]; intros e Hsub; cbn [evaluate_loop length].
  { by apply quiet_same. }
  pose proof (others_quiet (may_compare config job) e) as Ho. set (e1 := others e) in *.
  assert (route ∈ candidate_routes config /\ routes ⊆ candidate_routes config) as [Hr Hrs] by (split; [apply Hsub; by left|intros x Hx; apply Hsub; by right]).
  destruct (negb _).
  { by eapply quiet_weaken, Ho; [|lia]. }
  destruct (ix_get presets route) as [preset|] eqn:Hpre.
  - unfold evaluate_route. destruct (select_candidate _ preset) as [shadow_model reasons] eqn:Hsel.
    pose proof (compare_candidate_quiet e1 config job config_print route preset shadow_model reasons Hr Hpre Hsel) as Hq.
    destruct (compare_candidate _ _ _ _ _ _) as [e2 [compared c]]. cbn [fst] in Hq. cbv zeta.
    change (S (length routes)) with (0 + (1 + length routes))%nat. eapply quiet_trans; [exact Ho|]. eapply quiet_trans; [exact Hq|].
    match goal with |- quiet _ _ _ (evaluate_loop ?e3 _ _ _ _ _ _) => apply (quiet_trans _ 0 (length routes) _ e3); [by apply quiet_same|by apply IH] end.
  - match goal with |- quiet _ _ _ (evaluate_loop ?e3 _ _ _ _ _ _) =>
      eapply quiet_weaken; [..|apply (quiet_trans (may_compare config job) 0 (length routes) _ e3); [|by apply IH]]; [done|lia|] end.
    change 0%nat with (0 + 0)%nat. by eapply quiet_trans, quiet_same; [exact Ho|..].
Qed.

Lemma evaluate_quiet e config job : quiet (may_compare config job) (length (candidate_routes config)) e (evaluate e config job).
Proof.
  unfold evaluate. pose proof (others_quiet (may_compare config job) e) as Ho. set (e1 := others e) in *.
  destruct (negb _); [by eapply quiet_weaken, Ho; [|lia]|].
  destruct (score_complexity _ _ _) as [score|error].
  - change (length (candidate_routes config)) with (0 + length (candidate_routes config))%nat. eapply quiet_trans; [exact Ho|].
    by apply evaluate_loop_quiet.
  - eapply quiet_weaken; [..|by eapply quiet_trans, quiet_same; [exact Ho|..]]; [done|lia].
Qed.

(** The prompt reaches what an evaluator leaves through its score alone. *)
Definition with_prompt (job : ShadowJob number) (prompt : str) : ShadowJob number :=
  {| sj_request_id := sj_request_id job; sj_prompt := prompt; sj_routing_request := sj_routing_request job;
     sj_production_model := sj_production_model job; sj_production_score := sj_production_score job;
     sj_request_body := sj_request_body job; sj_provider_consent := sj_provider_consent job |}.

Lemma evaluate_loop_prompt e config job prompt score config_print candidate_print routes :
  evaluate_loop e config (with_prompt job prompt) score config_print candidate_print routes =
  evaluate_loop e config job score config_print candidate_print routes.
Proof.
  revert e. induction routes as [|route routes IH]; intros e; [done|]. cbn [evaluate_loop].
  destruct (negb _); [done|]. destruct (ix_get presets route); apply IH.
Qed.

Lemma prompt_only_through_score e config job prompt : score_complexity compiled prompt routing = score_complexity compiled (sj_prompt job) routing ->
  evaluate e config (with_prompt job prompt) = evaluate e config job.
Proof.
  intros Hs. unfold evaluate. cbn [with_prompt sj_prompt]. rewrite Hs. destruct (negb _); [done|].
  destruct (score_complexity compiled (sj_prompt job) routing); [apply evaluate_loop_prompt|done].
Qed.
End Evaluation.

(** ** Histories of the store *)
Inductive StoreOp :=
| OpSampled | OpDropped | OpSlot (now : f64) | OpProviderError | OpRecord (record : ShadowRecord) | OpError | OpActive (active : bool).

Definition store_step (config : ShadowConfig) (s : ShadowStore) (op : StoreOp) : ShadowStore :=
  match op with
  | OpSampled => count_sampled s
  | OpDropped => count_dropped_in_flight s
  | OpSlot now => (provider_slot s config now).1
  | OpProviderError => count_provider_error s
  | OpRecord record => add_record s record
  | OpError => count_error s
  | OpActive active => set_active s active
  end.

(** The windows in which a history is granted slots, numbered in order: a slot
    renews the window when the configured time has passed. *)
Fixpoint grants (config : ShadowConfig) (s : ShadowStore) (window : nat) (ops : list StoreOp) : list nat :=
  match ops with
  | [] => []
  | op :: ops =>
      match op with
      | OpSlot now =>
          let window := if renews config (so_state s) now then S window else window in
          let '(s', granted) := provider_slot s config now in
          (if granted then [window] else []) ++ grants config s' window ops
      | _ => grants config (store_step config s op) window ops
      end
  end.

Record store_ok (s : ShadowStore) : Prop := {
  st_max : 1 <= so_max_records s;
  st_records : len (sw_records (so_state s)) <= so_max_records s;
}.

Lemma store_step_ok config s op : store_ok s -> store_ok (store_step config s op).
Proof.
  intros [Hm Hr]. destruct s as [st m active]. cbn in *. destruct op; cbn [store_step]; try (by destruct st; constructor).
  - unfold provider_slot, renewed. destruct (renews _ _ _), st; cbn in *; destruct (_ <=? _); by constructor.
  - destruct st; constructor; [done|]. cbn [so_state with_state add_record sw_records so_max_records]. unfold len in *.
    rewrite length_take. lia.
Qed.

Lemma store_run_ok config max ops : store_ok (foldl (store_step config) (ShadowStore_new max) ops).
Proof.
  assert (store_ok (ShadowStore_new max)) as Hi by (constructor; cbn; [|unfold len; cbn [length]]; lia).
  revert Hi. generalize (ShadowStore_new max). induction ops as [|op ops IH]; intros s Hi; [done|]. by apply IH, store_step_ok.
Qed.

Lemma other_ops_keep_window config s op : (forall now, op <> OpSlot now) ->
  sw_provider_window_used (so_state (store_step config s op)) = sw_provider_window_used (so_state s).
Proof. intros Hn. destruct s as [[] m a], op; cbn; try done. by destruct (Hn now). Qed.

Lemma slot_window config s now s' granted : provider_slot s config now = (s', granted) ->
  let used := if renews config (so_state s) now then 0 else sw_provider_window_used (so_state s) in
  granted = (used <? provider_max_requests config) /\
  sw_provider_window_used (so_state s') = if granted then u64_sat_add used 1 else used.
Proof.
  intros Hs used. unfold provider_slot in Hs. cbv zeta in Hs.
  assert (sw_provider_window_used (renewed config now (so_state s)) = used) as Eu
    by (unfold renewed, used; destruct (renews _ _ _), (so_state s); done).
  rewrite Eu in Hs. destruct (renewed config now (so_state s)) as [r a b c d e f g h i j]. cbn in Eu, Hs. subst j.
  destruct (Z.leb_spec (provider_max_requests config) used); injection Hs as <- <-; cbn; split; try done; lia.
Qed.

(** The slots a window was granted: those before, in the current window, are [used]. *)
Lemma grants_bounded config ops : 0 <= provider_max_requests config <= u64_max -> forall s window k,
  0 <= sw_provider_window_used (so_state s) <= provider_max_requests config ->
  len (filter (eq k) (grants config s window ops)) + (if decide (k = window) then sw_provider_window_used (so_state s) else 0)
    <= provider_max_requests config /\
  Forall (fun g => window <= g)%nat (grants config s window ops).
Proof.
  intros Hmax. induction ops as [|op ops IH]; intros s window k Hu.
  { cbn [grants]. rewrite filter_nil, len_nil. destruct (decide _); split; (lia || constructor). }
  assert ((forall now, op <> OpSlot now) -> grants config s window (op :: ops) = grants config (store_step config s op) window ops ->
    len (filter (eq k) (grants config s window (op :: ops))) + (if decide (k = window) then sw_provider_window_used (so_state s) else 0)
      <= provider_max_requests config /\ Forall (fun g => window <= g)%nat (grants config s window (op :: ops))) as Hother.
  { intros Hn ->. rewrite <- (other_ops_keep_window config s op Hn) in Hu |- *. by apply IH. }
  destruct op as [| |now| | | |]; try (by apply Hother). clear Hother. cbn [grants].
  destruct (provider_slot s config now) as [s' granted] eqn:Hs. apply slot_window in Hs. cbv zeta in Hs. destruct Hs as [Hg Hu'].
  set (used := if renews config (so_state s) now then 0 else sw_provider_window_used (so_state s)) in *.
  assert (0 <= sw_provider_window_used (so_state s') <= provider_max_requests config) as Hb.
  { rewrite Hu'. unfold used, u64_sat_add in *. destruct granted, (renews _ _ _); lia. }
  set (window' := if renews config (so_state s) now then S window else window) in *.
  destruct (IH s' window' k Hb) as [Hlen Hall]. rewrite filter_app, len_app. split.
  - destruct (decide (k = window')) as [->|Hk].
    + assert (len (filter (eq window') (if granted then [window'] else [])) = if granted then 1 else 0) as ->
        by (destruct granted; [by rewrite filter_cons_True|done]).
      rewrite Hu' in Hlen. unfold window', used, u64_sat_add in *.
      destruct (renews _ _ _), granted; repeat destruct (decide _); lia.
    + assert (len (filter (eq k) (if granted then [window'] else [])) = 0) as ->
        by (destruct granted; [by rewrite filter_cons_False|done]).
      destruct (decide (k = window)) as [->|?]; [|lia].
      assert (filter (eq window) (grants config s' window' ops) = []) as ->; [|rewrite (@len_nil nat); lia].
      assert (window' = S window \/ window' = window) as [Ew|Ew] by (unfold window'; destruct (renews _ _ _); auto); [|congruence].
      rewrite Ew in Hall |- *. revert Hall. generalize (grants config s' (S window) ops). clear.
      induction 1 as [|g l Hg Hl IHl]; [done|]. rewrite filter_cons_False; [done|lia].
  - apply Forall_app_2; [destruct granted; repeat constructor|eapply Forall_impl; [exact Hall|]; intros g Hge];
      unfold window' in *; destruct (renews _ _ _); lia.
Qed.

Lemma store_max config s ops : so_max_records (foldl (store_step config) s ops) = so_max_records s.
Proof.
  revert s. induction ops as [|op ops IH]; intros s; [done|]. cbn [foldl]. rewrite IH. destruct op; try done.
  cbn [store_step]. unfold provider_slot. cbv zeta. by destruct (_ <=? _).
Qed.

(** ** Properties *)

(** C14: A shadow evaluation sends a request to a provider only when the
    configuration and the caller both ask for comparisons and the request may
    leave the machine: at most once per candidate route, to a ready deployment,
    eligible for the request, of an eligible model of that route.  It changes
    nothing production reads but the rotation of the pools: no circuit, no
    observed signal. *)
Theorem shadow_comparisons_authorized {number : Type} `{JsonNumber number, JsonText number} {M : Type} `{IndexMap f64 M} {B : Type}
  parse_url compiled sha256 quote_toml routing models presets (table : PriceTable M) has_delivery env_send env_signal_clock
  env_store_clock env_millis env_others (e : Evaluation (B := B)) config (job : ShadowJob number) :
  let e' := evaluate parse_url compiled sha256 quote_toml routing models presets table has_delivery env_send env_signal_clock
              env_store_clock env_millis env_others e config job in
  sends (may_compare parse_url models presets config job) (length (candidate_routes config)) (ev_world e) (ev_world e') /\
  undisturbed (ev_world e) (ev_world e') /\
  (provider_comparisons config && sj_provider_consent job
     && bool_decide (rq_privacy_posture (sj_routing_request job) = HostedAllowed) = false ->
   w_sent (ev_world e') = w_sent (ev_world e)).
Proof.
  intros e'. destruct (evaluate_quiet parse_url compiled sha256 quote_toml routing models presets table has_delivery env_send
    env_signal_clock env_store_clock env_millis env_others e config job) as [Hs Hu]. fold e' in Hs, Hu.
  split; [done|]. split; [done|]. intros Hoff. destruct Hs as (new & -> & Hf & _). destruct Hf as [|t new [[Hc _] Hcon Hp _] _]; [by rewrite app_nil_r|].
  by rewrite Hc, Hcon, bool_decide_eq_true_2 in Hoff.
Qed.

(** The shadow store is bounded over every history of its operations: it
    keeps at most the configured number of records, and each window is granted
    at most the configured number of provider comparisons. *)
Theorem shadow_store_bounded config max ops : 0 <= provider_max_requests config <= u64_max ->
  len (sw_records (so_state (foldl (store_step config) (ShadowStore_new max) ops))) <= Z.max max 1 /\
  forall window, len (filter (eq window) (grants config (ShadowStore_new max) 0 ops)) <= provider_max_requests config.
Proof.
  intros Hm. split.
  - destruct (store_run_ok config max ops) as [_ Hr]. by rewrite store_max in Hr.
  - intros window. destruct (grants_bounded config ops Hm (ShadowStore_new max) 0 window) as [Hb _]; [cbn; lia|].
    cbn in Hb. destruct (decide _); lia.
Qed.

(** ** Examples *)
Definition sample_shadow : ShadowConfig :=
  {| sh_enabled := true; sample_rate := f64_one; candidate_routes := [lit "beta"]; sh_max_in_flight := 2; max_records := 2;
     provider_comparisons := true; provider_sample_rate := f64_one; provider_max_requests := 1; provider_window := f64_of_Z 60 |}.

Definition sample_job (request : RoutingRequest) (production : string) (consent : bool) : ShadowJob Z :=
  {| sj_request_id := lit "r"; sj_prompt := lit "hello"; sj_routing_request := request; sj_production_model := lit production;
     sj_production_score := f64_zero; sj_request_body := JObject (ChatDelivery.sample_body "auto"); sj_provider_consent := consent |}.

Definition idle : Evaluation (B := unit) :=
  {| ev_world := start_world; ev_store := ShadowStore_new 2; ev_metrics := GatewayMetrics_new (lit "1.0") 16 |}.

Definition no_prices : PriceTable (btree f64) := {| costs := []; table_priced := false |}.

(** One candidate route, [beta], that names the model [cloud]. *)
Definition sample_evaluation (models : list ConfiguredModel) (job : ShadowJob Z) : Evaluation (B := unit) :=
  evaluate sample_parse_url (Ok sample_patterns) zero_hash plain_quote (RoutingConfig_binary (f64_dec 5 1)) models
    [(lit "beta", {| rp_models := [lit "cloud"] |})] no_prices true scripted_send (fun _ => f64_zero) (fun _ => f64_one)
    (fun _ => 5) (fun _ s => s) idle sample_shadow job.

(** With consent the candidate is asked once; without it nothing is sent, and
    the divergence is recorded all the same. *)
Example comparison_needs_consent :
  let asked := sample_evaluation [local_model; cloud_model] (sample_job sample_request "local" true) in
  let silent := sample_evaluation [local_model; cloud_model] (sample_job sample_request "local" false) in
  w_sent (ev_world asked) = [cloud_model] /\ w_sent (ev_world silent) = [] /\
  map sd_provider_status (sw_records (so_state (ev_store asked))) = [Some 200] /\
  map sd_divergent (sw_records (so_state (ev_store silent))) = [true].
Proof. vm_compute. done. Qed.

(** The comparison takes a turn of the rotation production uses: the next
    request of the pool goes to another deployment than it would have. *)
Example comparison_advances_rotation :
  let e := sample_evaluation pool_models (sample_job sample_request "local" true) in
  head (map delivery_id (deployment_candidates pool_models (w_cursors start_world) (lit "cloud")).1) <>
  head (map delivery_id (deployment_candidates pool_models (w_cursors (ev_world e)) (lit "cloud")).1).
Proof. vm_compute. done. Qed.

(** The key [agent] may only use the local model, and its request goes there;
    its shadow is sent to the hosted one. *)
Example comparison_ignores_key_scope :
  match sample_outcome with
  | Some (Planned d plan) =>
      key_allowed (sample_gateway no_budget default_canary) agent = Some [lit "local"] /\ plan = [lit "local"] /\
      w_sent (ev_world (sample_evaluation [local_model; cloud_model] (sample_job (dc_request d) "local" true))) = [cloud_model]
  | _ => False
  end.
Proof. vm_compute. done. Qed.

(** A store of two records whose window takes one comparison. *)
Definition sample_store_ops : list StoreOp := [OpSlot (f64_of_Z 1); OpSlot (f64_of_Z 2); OpSlot (f64_of_Z 61); OpSlot (f64_of_Z 62)].

Theorem shadow_comparisons_authorized_witness : w_sent (ev_world (sample_evaluation [local_model; cloud_model] (sample_job sample_request "local" false))) = [].
Proof.
  apply (shadow_comparisons_authorized sample_parse_url (Ok sample_patterns) zero_hash plain_quote (RoutingConfig_binary (f64_dec 5 1))
    [local_model; cloud_model] [(lit "beta", {| rp_models := [lit "cloud"] |})] no_prices true scripted_send (fun _ => f64_zero)
    (fun _ => f64_one) (fun _ => 5) (fun _ s => s) idle sample_shadow (sample_job sample_request "local" false)). reflexivity.
Defined.

Theorem shadow_store_bounded_witness :
  grants sample_shadow (ShadowStore_new 2) 0 sample_store_ops = [1; 2]%nat /\
  forall window, len (filter (eq window) (grants sample_shadow (ShadowStore_new 2) 0 sample_store_ops)) <= 1.
Proof.
  split; [vm_compute; reflexivity|]. apply (shadow_store_bounded sample_shadow 2 sample_store_ops). cbn. unfold u64_max. lia.
Defined.
