(* ===== verification/Evidence.v ===== *)
(** * Evidence reports (crate [wayfinder-gateway], [src/evidence.rs])

    The bounded store of quality labels, and the report over the shadow records:
    counts, Wilson intervals, agreement between evaluators, and the tri-state
    verdict.  A poisoned lock is not modelled. *)
From S2P Require Export Shadow.

Definition EVIDENCE_SCHEMA_VERSION : str := lit "wf-evidence-v1".
Definition EVIDENCE_MIN_SAMPLES : Z := 30.
Definition EVIDENCE_CONFIDENCE : f64 := f64_dec 95 2.
Definition MAX_EVIDENCE_LABELS : Z := 2048.
Definition MAX_EVIDENCE_LABEL_BYTES : Z := 128.

(** ** Floats the report computes with *)

(** [x.sqrt()]. *)
Definition f64_sqrt (x : f64) : f64 := SFsqrt f64_prec f64_emax x.

(** [f64::EPSILON]. *)
Definition f64_epsilon : f64 := f64_div f64_one (f64_of_Z (2 ^ 52)).

(** [BTreeSet<u32>]. *)
Lemma Z_lt_trans_cmp a b c : (a ?= b) = Lt -> (b ?= c) = Lt -> (a ?= c) = Lt.
Proof. rewrite !Z.compare_lt_iff. lia. Qed.

#[export] Instance Z_order : KeyOrder Z := {|
  key_cmp := Z.compare; key_cmp_eq := Z.compare_eq_iff; key_cmp_antisym := fun a b => Z.compare_antisym a b;
  key_lt_trans := Z_lt_trans_cmp |}.

(** ** Labels *)
Inductive EvidenceLabelValue := Win | Loss | Tie | Abstain.

#[export] Instance EvidenceLabelValue_eq_dec : EqDecision EvidenceLabelValue.
Proof. solve_decision. Defined.

Inductive EvidenceEvaluator := Human | Automated (version : str).

#[export] Instance EvidenceEvaluator_eq_dec : EqDecision EvidenceEvaluator.
Proof. solve_decision. Defined.

Definition evaluator_key (e : EvidenceEvaluator) : str :=
  match e with Human => lit "human" | Automated version => lit "automated:" ++ version end.

Record EvidenceLabel := {
  el_request_id : str;
  el_candidate_route : str;
  el_label : EvidenceLabelValue;
  el_evaluator : EvidenceEvaluator;
}.

Inductive EvidenceError := InvalidLabel (m : message) | Capacity | EvidenceLockPoisoned.

Record EvidenceStore := { es_labels : btree EvidenceLabel; es_max_labels : Z }.

Definition EvidenceStore_new (max_labels : Z) : EvidenceStore :=
  {| es_labels := []; es_max_labels := Z.min (Z.max max_labels 1) MAX_EVIDENCE_LABELS |}.

Definition has_control (value : str) : bool := existsb (fun byte => (byte =? 0) || (byte <? 32)) (as_bytes value).

Definition out_of_bounds (value : str) : bool := bool_decide (value = []) || (MAX_EVIDENCE_LABEL_BYTES <? str_len value).

Definition validate_field (name : string) (value : str) : result unit EvidenceError :=
  if out_of_bounds value then
    Err (InvalidLabel (Msg "{name} must be between 1 and {MAX_EVIDENCE_LABEL_BYTES} bytes" [ArgStr (lit name); ArgInt MAX_EVIDENCE_LABEL_BYTES]))
  else if has_control value then Err (InvalidLabel (Msg "{name} contains a control character" [ArgStr (lit name)]))
  else Ok ().

Definition validate_label (label : EvidenceLabel) : result unit EvidenceError :=
  let? _ := validate_field "request_id" (el_request_id label) in
  let? _ := validate_field "candidate_route" (el_candidate_route label) in
  match el_evaluator label with
  | Human => Ok ()
  | Automated version =>
      if out_of_bounds version then
        Err (InvalidLabel (Msg "automated evaluator version must be between 1 and {MAX_EVIDENCE_LABEL_BYTES} bytes" [ArgInt MAX_EVIDENCE_LABEL_BYTES]))
      else if has_control version then Err (InvalidLabel (Msg "automated evaluator version contains a control character" []))
      else Ok ()
  end.

Definition label_key (label : EvidenceLabel) : str :=
  el_request_id label ++ [0] ++ el_candidate_route label ++ [0] ++ evaluator_key (el_evaluator label).

Fixpoint validate_all (labels : list EvidenceLabel) : result unit EvidenceError :=
  match labels with
  | [] => Ok ()
  | label :: labels => let? _ := validate_label label in validate_all labels
  end.

(** The keys of a batch the store does not hold, as a set. *)
Definition new_keys (state : btree EvidenceLabel) (labels : list EvidenceLabel) : btree unit :=
  foldl (fun keys label => if bt_contains state (label_key label) then keys else bt_insert keys (label_key label) ()) [] labels.

Definition insert_labels (s : EvidenceStore) (labels : list EvidenceLabel) : EvidenceStore * result Z EvidenceError :=
  if es_max_labels s <? len labels then (s, Err Capacity)
  else match validate_all labels with
  | Err e => (s, Err e)
  | Ok _ =>
      let keys := new_keys (es_labels s) labels in
      if es_max_labels s <? len (es_labels s) + len keys then (s, Err Capacity)
      else ({| es_labels := foldl (fun state label => bt_insert state (label_key label) label) (es_labels s) labels;
               es_max_labels := es_max_labels s |}, Ok (len keys))
  end.

Definition label_snapshot (s : EvidenceStore) : list EvidenceLabel := bt_values (es_labels s).

(** ** The report *)
Inductive EvidenceOutcome := Enforce | KeepShadowing | DoNotEnforce.

#[export] Instance EvidenceOutcome_eq_dec : EqDecision EvidenceOutcome.
Proof. solve_decision. Defined.

Definition outcome_rank (o : EvidenceOutcome) : Z := match o with Enforce => 0 | KeepShadowing => 1 | DoNotEnforce => 2 end.

Record EvidenceInterval := { ei_confidence : f64; ei_lower : f64; ei_upper : f64 }.

Record EvidenceAgreement := { ag_samples : Z; ag_agreement : f64; ag_kappa : option f64 }.

Record EvidenceQuality := {
  qu_labels : Z;
  qu_decisive : Z;
  qu_wins : Z;
  qu_losses : Z;
  qu_ties : Z;
  qu_abstentions : Z;
  qu_coverage : f64;
  qu_win_rate : option f64;
  qu_loss_rate : option f64;
  qu_delta : option f64;
  qu_delta_interval : option EvidenceInterval;
  qu_evaluator_counts : btree Z;
  qu_judge_agreement : btree EvidenceAgreement;
}.

Record EvidenceProvider := {
  ep_comparisons : Z;
  ep_successes : Z;
  ep_errors : Z;
  ep_error_rate : option f64;
  ep_mean_latency_ms : option f64;
  ep_latency_samples : Z;
  ep_cost_samples : Z;
  ep_estimated_cost : option f64;
  ep_cost_class : str;
}.

Record EvidenceCandidate := {
  ec_candidate_route : str;
  ec_samples : Z;
  ec_completed : Z;
  ec_missing_candidate : Z;
  ec_divergent : Z;
  ec_errors : Z;
  ec_provider : EvidenceProvider;
  ec_quality : EvidenceQuality;
  ec_outcome : EvidenceOutcome;
  ec_reasons : list str;
}.

Record EvidenceReport := {
  er_schema_version : str;
  er_scorer_versions : list Z;
  er_config_fingerprints : list str;
  er_candidate_fingerprints : list str;
  er_sampled : Z;
  er_completed : Z;
  er_shadow_errors : Z;
  er_dropped_in_flight : Z;
  er_candidates : list EvidenceCandidate;
  er_outcome : EvidenceOutcome;
  er_reasons : list str;
}.

Definition round6 (value : f64) : f64 := f64_div (f64_round (f64_mul value (f64_of_Z 1000000))) (f64_of_Z 1000000).

Definition WILSON_Z : f64 := f64_dec 1959963984540054 15.

Definition wilson (successes total : Z) : EvidenceInterval :=
  if total =? 0 then {| ei_confidence := EVIDENCE_CONFIDENCE; ei_lower := f64_zero; ei_upper := f64_zero |}
  else
    let z := WILSON_Z in
    let n := f64_of_Z total in
    let p := f64_div (f64_of_Z successes) n in
    let denominator := f64_add f64_one (f64_div (f64_mul z z) n) in
    let centre := f64_div (f64_add p (f64_div (f64_mul z z) (f64_mul (f64_of_Z 2) n))) denominator in
    let spread :=
      f64_div
        (f64_mul z (f64_sqrt (f64_add (f64_div (f64_mul p (f64_sub f64_one p)) n)
                                      (f64_div (f64_mul z z) (f64_mul (f64_mul (f64_of_Z 4) n) n)))))
        denominator in
    {| ei_confidence := EVIDENCE_CONFIDENCE; ei_lower := round6 (f64_max (f64_sub centre spread) f64_zero);
       ei_upper := round6 (f64_min (f64_add centre spread) f64_one) |}.

(** [iter.filter(p).count()]. *)
Definition count_if {A} (p : A -> bool) (l : list A) : Z := len (List.filter p l).

Definition same_label (a b : EvidenceLabelValue) : bool := bool_decide (a = b).

(** One label's share of the observed and of the expected agreement. *)
Definition agreement_step (pairs : list (EvidenceLabelValue * EvidenceLabelValue)) (acc : f64 * f64) (label : EvidenceLabelValue) : f64 * f64 :=
  let n := f64_of_Z (len pairs) in
  let share p := f64_div (f64_of_Z (count_if p pairs)) n in
  let left := share (fun '(value, _) => same_label value label) in
  let right := share (fun '(_, value) => same_label value label) in
  (f64_add (fst acc) (share (fun '(a, b) => same_label a label && same_label b label)),
   f64_add (snd acc) (f64_mul left right)).

Definition agreement (pairs : list (EvidenceLabelValue * EvidenceLabelValue)) : EvidenceAgreement :=
  let samples := len pairs in
  let matching := f64_of_Z (count_if (fun '(a, b) => same_label a b) pairs) in
  let rate := f64_div matching (f64_of_Z samples) in
  let '(observed, expected) := foldl (agreement_step pairs) (f64_zero, f64_zero) [Win; Loss; Tie] in
  let kappa :=
    if f64_le (f64_abs (f64_sub f64_one expected)) f64_epsilon then
      (if f64_le (f64_abs (f64_sub observed expected)) f64_epsilon then f64_one else f64_zero)
    else round6 (f64_div (f64_sub observed expected) (f64_sub f64_one expected)) in
  {| ag_samples := samples; ag_agreement := round6 rate; ag_kappa := Some kappa |}.

Definition in_success_range (status : Z) : bool := (200 <=? status) && (status <? 300).

Definition provider_report (records : list ShadowRecord) : EvidenceProvider :=
  match records with
  | [] => {| ep_comparisons := 0; ep_successes := 0; ep_errors := 0; ep_error_rate := None; ep_mean_latency_ms := None;
             ep_latency_samples := 0; ep_cost_samples := 0; ep_estimated_cost := None; ep_cost_class := lit "unknown" |}
  | _ =>
      let successes := count_if (fun r => match sd_provider_status r with Some status => in_success_range status | None => false end) records in
      let errors := len records - successes in
      let latencies := omap (fun r => f64_of_Z <$> sd_provider_latency_ms r) records in
      let costs := omap sd_provider_cost records in
      let cost_class :=
        match costs with
        | [] => lit "unknown"
        | _ => default (lit "unknown") (head (omap sd_provider_cost_class records))
        end in
      {| ep_comparisons := len records; ep_successes := successes; ep_errors := errors;
         ep_error_rate := Some (round6 (f64_div (f64_of_Z errors) (f64_of_Z (len records))));
         ep_mean_latency_ms := match latencies with [] => None | _ => Some (round6 (f64_div (f64_sum latencies) (f64_of_Z (len latencies)))) end;
         ep_latency_samples := len latencies; ep_cost_samples := len costs;
         ep_estimated_cost := match costs with [] => None | _ => Some (round6 (f64_sum costs)) end;
         ep_cost_class := cost_class |}
  end.

(** The labels that name one of the records. *)
Definition names_record (records : list ShadowRecord) (label : EvidenceLabel) : bool :=
  existsb (fun r => str_eqb (sd_request_id r) (el_request_id label) && str_eqb (sd_candidate_route r) (el_candidate_route label)) records.

Definition label_is (v : EvidenceLabelValue) (label : EvidenceLabel) : bool := same_label (el_label label) v.

(** [by_key]: what each evaluator said of each record. *)
Definition verdicts (labels : list EvidenceLabel) : ordmap (str * str) (btree EvidenceLabelValue) :=
  foldl (fun m label =>
           km_update m (el_request_id label, el_candidate_route label) []
             (fun values => bt_insert values (evaluator_key (el_evaluator label)) (el_label label))) [] labels.

Definition evaluator_counts (labels : list EvidenceLabel) : btree Z :=
  foldl (fun m label => bt_update m (evaluator_key (el_evaluator label)) 0 (fun n => n + 1)) [] labels.

(** The records a human and one version both judged, abstentions aside. *)
Definition judged_pairs (by_key : ordmap (str * str) (btree EvidenceLabelValue)) (version : str)
    : list (EvidenceLabelValue * EvidenceLabelValue) :=
  omap (fun values =>
          human ← bt_get values (lit "human");
          automated ← bt_get values (lit "automated:" ++ version);
          if same_label human Abstain || same_label automated Abstain then None else Some (human, automated)) (km_values by_key).

Definition strip_prefix (s prefix : str) : option str := if starts_with s prefix then Some (drop (length prefix) s) else None.

Definition judge_agreement (counts : btree Z) (by_key : ordmap (str * str) (btree EvidenceLabelValue)) : btree EvidenceAgreement :=
  foldl (fun m version => match judged_pairs by_key version with [] => m | pairs => bt_insert m version (agreement pairs) end) []
    (omap (fun key => strip_prefix key (lit "automated:")) (bt_keys counts)).

Definition quality_report (records : list ShadowRecord) (labels : list EvidenceLabel) : EvidenceQuality :=
  let labels := List.filter (names_record records) labels in
  let counts := evaluator_counts labels in
  let wins := count_if (label_is Win) labels in
  let losses := count_if (label_is Loss) labels in
  let decisive := u64_sat_add wins losses in
  let rate n := if 0 <? decisive then Some (round6 (f64_div n (f64_of_Z decisive))) else None in
  let win := wilson wins decisive in
  let loss := wilson losses decisive in
  {| qu_labels := len labels; qu_decisive := decisive; qu_wins := wins; qu_losses := losses;
     qu_ties := count_if (label_is Tie) labels; qu_abstentions := count_if (label_is Abstain) labels;
     qu_coverage := match records with [] => f64_zero | _ => round6 (f64_div (f64_of_Z (len labels)) (f64_of_Z (len records))) end;
     qu_win_rate := rate (f64_of_Z wins); qu_loss_rate := rate (f64_of_Z losses);
     qu_delta := rate (f64_sub (f64_of_Z wins) (f64_of_Z losses));
     qu_delta_interval :=
       if 0 <? decisive then
         Some {| ei_confidence := EVIDENCE_CONFIDENCE; ei_lower := round6 (f64_sub (ei_lower win) (ei_upper loss));
                 ei_upper := round6 (f64_sub (ei_upper win) (ei_lower loss)) |}
       else None;
     qu_evaluator_counts := counts; qu_judge_agreement := judge_agreement counts (verdicts labels) |}.

Definition error_rate_high (provider : EvidenceProvider) : bool :=
  match ep_error_rate provider with Some rate => f64_gt rate (f64_dec 20 2) | None => false end.

Definition interval_is (p : EvidenceInterval -> bool) (quality : EvidenceQuality) : bool :=
  match qu_delta_interval quality with Some interval => p interval | None => false end.

Definition ratio_reason (name : string) (value : Z) : str :=
  lit name ++ lit ":" ++ show_digits value ++ lit "/" ++ show_digits EVIDENCE_MIN_SAMPLES.

Definition candidate_outcome (provider : EvidenceProvider) (quality : EvidenceQuality) : EvidenceOutcome :=
  if error_rate_high provider then DoNotEnforce
  else if qu_decisive quality <? EVIDENCE_MIN_SAMPLES then KeepShadowing
  else if interval_is (fun i => f64_ge (ei_lower i) f64_zero) quality then Enforce
  else if interval_is (fun i => f64_lt (ei_upper i) f64_zero) quality then DoNotEnforce
  else KeepShadowing.

Definition candidate_report (route : str) (records : list ShadowRecord) (labels : list EvidenceLabel) : EvidenceCandidate :=
  let samples := len records in
  let completed := count_if (fun r => str_eqb (sd_status r) (lit "completed")) records in
  let provider := provider_report (List.filter sd_provider_compared records) in
  let quality := quality_report records labels in
  {| ec_candidate_route := route; ec_samples := samples; ec_completed := completed;
     ec_missing_candidate := count_if (fun r => bool_decide (sd_shadow_model r = None)) records;
     ec_divergent := count_if sd_divergent records; ec_errors := u64_sat_sub samples completed;
     ec_provider := provider; ec_quality := quality; ec_outcome := candidate_outcome provider quality;
     ec_reasons :=
       (if qu_decisive quality <? EVIDENCE_MIN_SAMPLES then [ratio_reason "insufficient-quality-labels" (qu_decisive quality)]
        else if bool_decide (qu_delta_interval quality = None) then [lit "quality-interval-unavailable"] else [])
       ++ (if error_rate_high provider then [lit "provider-error-rate-above-20-percent"] else []) |}.

Definition worse (outcome : EvidenceOutcome) (candidate : EvidenceCandidate) : EvidenceOutcome :=
  if outcome_rank outcome <? outcome_rank (ec_outcome candidate) then ec_outcome candidate else outcome.

Definition aggregate_outcome (candidates : list EvidenceCandidate) : EvidenceOutcome :=
  match candidates with [] => KeepShadowing | _ => foldl worse Enforce candidates end.

(** [route_records]: the records of each route, in their order. *)
Definition route_records (records : list ShadowRecord) : btree (list ShadowRecord) :=
  foldl (fun m r => bt_update m (sd_candidate_route r) [] (fun rs => rs ++ [r])) [] records.

(** A [BTreeSet]: the keys of a map to unit. *)
Definition sorted_set {K} `{KeyOrder K} (l : list K) : list K := map fst (foldl (fun m k => km_insert m k ()) [] l).

(** The candidates come out of the map in ascending order of route, the order
    [sort_by] would give them. *)
Definition report_candidates (snapshot : ShadowSnapshot) (labels : list EvidenceLabel) : list EvidenceCandidate :=
  map (fun '(route, records) => candidate_report route records labels) (route_records (sn_records snapshot)).

Definition MIXED_CONFIG : str := lit "mixed-config-fingerprint".
Definition MIXED_CANDIDATE : str := lit "mixed-candidate-fingerprint".

Definition report_reasons (snapshot : ShadowSnapshot) (candidates : list EvidenceCandidate)
    (config_fingerprints candidate_fingerprints : list str) : list str :=
  (if sn_sampled snapshot =? 0 then [lit "no-shadow-samples"] else [])
  ++ (if sn_completed snapshot <? EVIDENCE_MIN_SAMPLES then [ratio_reason "insufficient-shadow-samples" (sn_completed snapshot)] else [])
  ++ (if 1 <? len config_fingerprints then [MIXED_CONFIG] else [])
  ++ (if 1 <? len candidate_fingerprints then [MIXED_CANDIDATE] else [])
  ++ (if existsb (fun c => existsb (fun reason => starts_with reason (lit "insufficient-quality-labels")) (ec_reasons c)) candidates
      then [lit "quality-labels-incomplete"] else [])
  ++ (if bool_decide (candidates = []) then [lit "no-candidate-records"] else []).

Definition from_snapshot (snapshot : ShadowSnapshot) (labels : list EvidenceLabel) : EvidenceReport :=
  let records := sn_records snapshot in
  let config_fingerprints := sorted_set (map sd_config_fingerprint records) in
  let candidate_fingerprints := sorted_set (map sd_candidate_fingerprint records) in
  let candidates := report_candidates snapshot labels in
  let reasons := report_reasons snapshot candidates config_fingerprints candidate_fingerprints in
  let outcome :=
    match reasons with
    | [] => aggregate_outcome candidates
    | _ =>
        if existsb (fun reason => str_eqb reason MIXED_CONFIG || str_eqb reason MIXED_CANDIDATE) reasons then KeepShadowing
        else aggregate_outcome candidates
    end in
  let reasons :=
    if bool_decide (outcome = KeepShadowing) && bool_decide (reasons = []) then [lit "evidence-inconclusive"] else reasons in
  {| er_schema_version := EVIDENCE_SCHEMA_VERSION; er_scorer_versions := sorted_set (map sd_scorer_version records);
     er_config_fingerprints := config_fingerprints; er_candidate_fingerprints := candidate_fingerprints;
     er_sampled := sn_sampled snapshot; er_completed := sn_completed snapshot; er_shadow_errors := sn_errors snapshot;
     er_dropped_in_flight := sn_dropped_in_flight snapshot; er_candidates := candidates; er_outcome := outcome; er_reasons := reasons |}.

Definition outcome_name (o : EvidenceOutcome) : str :=
  match o with Enforce => lit "enforce" | KeepShadowing => lit "keep-shadowing" | DoNotEnforce => lit "do-not-enforce" end.

(** [render_text]: a label and a count, between texts. *)
Definition counted (text : string) (n : Z) : str := lit text ++ show_digits n.

Definition candidate_text (c : EvidenceCandidate) : str :=
  let p := ec_provider c in
  let q := ec_quality c in
  nl ++ lit "Candidate: " ++ ec_candidate_route c ++ nl
  ++ counted "  decisions=" (ec_samples c) ++ counted " completed=" (ec_completed c) ++ counted " missing=" (ec_missing_candidate c)
  ++ counted " divergent=" (ec_divergent c) ++ counted " errors=" (ec_errors c) ++ nl
  ++ counted "  provider comparisons=" (ep_comparisons p) ++ counted " successes=" (ep_successes p) ++ counted " errors=" (ep_errors p)
  ++ lit " cost_class=" ++ ep_cost_class p ++ nl
  ++ counted "  quality labels=" (qu_labels q) ++ counted " decisive=" (qu_decisive q) ++ counted " wins=" (qu_wins q)
  ++ counted " losses=" (qu_losses q) ++ counted " ties=" (qu_ties q) ++ counted " abstentions=" (qu_abstentions q) ++ nl
  ++ lit "  outcome: " ++ outcome_name (ec_outcome c) ++ nl
  ++ match ec_reasons c with [] => [] | reasons => lit "  reasons: " ++ str_join (lit ", ") reasons ++ nl end.

Definition render_text (r : EvidenceReport) : str :=
  lit "Wayfinder evidence report " ++ er_schema_version r ++ nl
  ++ lit "Outcome: " ++ outcome_name (er_outcome r) ++ nl
  ++ counted "Shadow samples: " (er_sampled r) ++ counted " sampled, " (er_completed r) ++ counted " completed, " (er_shadow_errors r)
  ++ counted " errors, " (er_dropped_in_flight r) ++ lit " dropped" ++ nl
  ++ match er_reasons r with [] => [] | reasons => lit "Reasons: " ++ str_join (lit ", ") reasons ++ nl end
  ++ flat_map candidate_text (er_candidates r).

(** ** The label store *)

(** What a label is about, and who gave it. *)
Definition identity (l : EvidenceLabel) : str * str * EvidenceEvaluator := (el_request_id l, el_candidate_route l, el_evaluator l).

Definition valid_label (l : EvidenceLabel) : Prop := validate_label l = Ok ().

Lemma no_control value : has_control value = false -> 0 ∉ value.
Proof.
  unfold has_control, as_bytes. intros Hc Hin. apply list_elem_of_split in Hin as (a & b & ->).
  rewrite bind_app, existsb_app, orb_false_iff in Hc. destruct Hc as [_ Hc]. by rewrite bind_cons, existsb_app in Hc.
Qed.

Lemma validate_field_ok name value : validate_field name value = Ok () -> 0 ∉ value.
Proof. unfold validate_field. destruct (out_of_bounds value); [done|]. destruct (has_control value) eqn:E; [done|]. intros _. by apply no_control. Qed.

Lemma valid_label_fields l : valid_label l -> 0 ∉ el_request_id l /\ 0 ∉ el_candidate_route l.
Proof.
  unfold valid_label, validate_label. intros ([] & Hr & Hv)%result_bind_ok. apply result_bind_ok in Hv as ([] & Hc & _).
  by apply validate_field_ok in Hr, Hc.
Qed.

Lemma evaluator_key_inj a b : evaluator_key a = evaluator_key b -> a = b.
Proof. destruct a, b; cbn [evaluator_key]; [done|done|done|]. by intros ->%(app_inv_head (lit "automated:")). Qed.

(** The text of a key determines what the label is about. *)
Lemma label_key_inj a b : valid_label a -> valid_label b -> label_key a = label_key b -> identity a = identity b.
Proof.
  intros [Har Hac]%valid_label_fields [Hbr Hbc]%valid_label_fields Hk. unfold label_key in Hk. cbn [app] in Hk.
  pose proof (split_once_Some 0 _ (el_candidate_route a ++ 0 :: evaluator_key (el_evaluator a)) Har) as H1.
  rewrite Hk, split_once_Some in H1 by done. injection H1 as Hr Hk'.
  pose proof (split_once_Some 0 _ (evaluator_key (el_evaluator a)) Hac) as H2. rewrite <- Hk', split_once_Some in H2 by done.
  injection H2 as Hc He. unfold identity. apply evaluator_key_inj in He. congruence.
Qed.

Lemma identity_key a b : identity a = identity b -> label_key a = label_key b.
Proof. unfold identity, label_key. by intros [= -> -> ->]. Qed.

Record label_store_ok (s : EvidenceStore) : Prop := {
  ls_max : 1 <= es_max_labels s <= MAX_EVIDENCE_LABELS;
  ls_sorted : bt_sorted (es_labels s);
  ls_entries : Forall (fun e => fst e = label_key (snd e) /\ valid_label (snd e)) (es_labels s);
  ls_bound : len (es_labels s) <= es_max_labels s;
}.

(** The label kept of a subject and an evaluator. *)
Definition held (s : EvidenceStore) (i : str * str * EvidenceEvaluator) : option EvidenceLabel :=
  List.find (fun l => bool_decide (identity l = i)) (label_snapshot s).

(** The last label a batch has for it. *)
Definition latest (labels : list EvidenceLabel) (i : str * str * EvidenceEvaluator) : option EvidenceLabel :=
  List.find (fun l => bool_decide (identity l = i)) (rev labels).

Lemma validate_all_ok labels : validate_all labels = Ok () -> Forall valid_label labels.
Proof.
  induction labels as [|l labels IH]; cbn [validate_all]; [constructor|]. intros ([] & Hv & Hr)%result_bind_ok. constructor; [done|by apply IH].
Qed.

(** A lookup by key in a list of keyed labels finds what a search by identity does. *)
Lemma find_by_key l (entries : btree EvidenceLabel) : valid_label l ->
  Forall (fun e => fst e = label_key (snd e) /\ valid_label (snd e)) entries ->
  List.find (fun x => bool_decide (identity x = identity l)) (map snd entries) = bt_get entries (label_key l).
Proof.
  intros Hl. induction 1 as [|[k x] entries [Hk Hx] He IH]; [done|]. cbn [fst snd] in *. cbn [map List.find bt_get snd]. rewrite IH, Hk.
  destruct (decide (identity x = identity l)) as [Hi|Hi].
  - rewrite bool_decide_eq_true_2 by done. by rewrite (identity_key _ _ Hi), str_eqb_refl.
  - rewrite bool_decide_eq_false_2 by done. destruct (str_eqb (label_key l) (label_key x)) eqn:E; [|done].
    apply str_eqb_eq in E. by destruct Hi; apply label_key_inj.
Qed.

Definition keyed (labels : list EvidenceLabel) : btree EvidenceLabel := map (fun l => (label_key l, l)) labels.

Lemma keyed_entries labels : Forall valid_label labels -> Forall (fun e => fst e = label_key (snd e) /\ valid_label (snd e)) (keyed labels).
Proof. intros Hl. apply Forall_map. eapply Forall_impl; [exact Hl|]. done. Qed.

Lemma insert_all_keyed state labels :
  foldl (fun state label => bt_insert state (label_key label) label) state labels =
  foldl (fun m kv => bt_insert m (fst kv) (snd kv)) state (keyed labels).
Proof. revert state. induction labels as [|l labels IH]; intros state; [done|]. apply IH. Qed.

Lemma insert_all_entries state labels : bt_sorted state -> Forall valid_label labels ->
  Forall (fun e => fst e = label_key (snd e) /\ valid_label (snd e)) state ->
  let state' := foldl (fun state label => bt_insert state (label_key label) label) state labels in
  bt_sorted state' /\ Forall (fun e => fst e = label_key (snd e) /\ valid_label (snd e)) state'.
Proof.
  intros Hs Hv He. cbv zeta. revert state Hs He. induction Hv as [|l labels Hl Hv IH]; intros state Hs He; [done|]. cbn [foldl].
  apply IH; [by apply bt_insert_sorted|]. by apply bt_insert_Forall.
Qed.

Lemma contains_bt_insert {V} (m : btree V) k v k' : bt_contains (bt_insert m k v) k' = str_eqb k k' || bt_contains m k'.
Proof.
  unfold bt_contains. destruct (str_eqb k k') eqn:E.
  - apply str_eqb_eq in E as ->. by rewrite bt_get_insert_eq.
  - apply str_eqb_neq in E. by rewrite bt_get_insert_ne.
Qed.

(** The store grows by the keys it did not hold. *)
Lemma insert_all_grows labels : forall (state0 state : btree EvidenceLabel) (keys : btree unit), bt_sorted state -> bt_sorted keys ->
  (forall k, bt_contains state k = bt_contains state0 k || bt_contains keys k) ->
  (forall k, bt_contains keys k = true -> bt_contains state0 k = false) -> len state = len state0 + len keys ->
  let state' := foldl (fun state label => bt_insert state (label_key label) label) state labels in
  let keys' := foldl (fun keys label => if bt_contains state0 (label_key label) then keys else bt_insert keys (label_key label) ()) keys labels in
  len state' = len state0 + len keys'.
Proof.
  induction labels as [|l labels IH]; intros state0 state keys Hs Hk Hc Hd Hl; [done|]. cbn [foldl]. cbv zeta in IH.
  destruct (bt_contains state0 (label_key l)) eqn:E0.
  - apply IH; [by apply bt_insert_sorted|done| |done|].
    + intros k. rewrite contains_bt_insert, Hc. destruct (str_eqb (label_key l) k) eqn:E; [|done]. apply str_eqb_eq in E as <-. by rewrite E0.
    + unfold len in *. rewrite bt_insert_length, Hc, E0 by done. done.
  - apply IH; [by apply bt_insert_sorted..| | |].
    + intros k. rewrite !contains_bt_insert, Hc. destruct (str_eqb (label_key l) k), (bt_contains state0 k); done.
    + intros k. rewrite contains_bt_insert. destruct (str_eqb (label_key l) k) eqn:E; [apply str_eqb_eq in E as <-; done|]. cbn [orb]. apply Hd.
    + unfold len in *. rewrite !bt_insert_length, Hc, E0 by done. cbn [orb]. destruct (bt_contains keys (label_key l)); lia.
Qed.

Lemma insert_labels_ok s labels s' r : label_store_ok s -> insert_labels s labels = (s', r) -> label_store_ok s' /\
  match r with
  | Ok n => Forall valid_label labels /\ len (es_labels s') = len (es_labels s) + n /\
      forall l, valid_label l -> held s' (identity l) = match latest labels (identity l) with Some x => Some x | None => held s (identity l) end
  | Err _ => s' = s
  end.
Proof.
  intros [Hm Hs He Hb]. unfold insert_labels. destruct (_ <? len labels); [by intros [= <- <-]|].
  destruct (validate_all labels) as [[]|e] eqn:Hv; [|by intros [= <- <-]]. apply validate_all_ok in Hv.
  destruct (Z.ltb_spec (es_max_labels s) (len (es_labels s) + len (new_keys (es_labels s) labels))) as [?|Hfit]; [by intros [= <- <-]|].
  destruct (insert_all_entries (es_labels s) labels Hs Hv He) as [Hs' He'].
  pose proof (insert_all_grows labels (es_labels s) (es_labels s) [] Hs ltac:(constructor) ltac:(intros; by rewrite orb_false_r)
                ltac:(done) ltac:(rewrite len_nil; lia)) as Hlen. cbv zeta in Hlen. fold (new_keys (es_labels s) labels) in Hlen.
  set (state' := foldl _ (es_labels s) labels) in *. intros [= <- <-]. split.
  - constructor; cbn [es_labels es_max_labels]; [done|done|done|lia].
  - split; [done|]. split; [done|]. intros l Hl. unfold held, label_snapshot, bt_values, latest. cbn [es_labels].
    rewrite (find_by_key l _ Hl He'), (find_by_key l _ Hl He). unfold state'. rewrite insert_all_keyed, bt_of_list_from.
    replace (rev labels) with (map snd (rev (keyed labels))) by (unfold keyed; by rewrite map_rev, map_map, map_id).
    rewrite (find_by_key l _ Hl); [done|]. apply Forall_rev, keyed_entries, Hv.
Qed.

(** ** The verdict *)
Lemma worse_enforce outcome candidates :
  foldl worse outcome candidates = Enforce <-> outcome = Enforce /\ Forall (fun c => ec_outcome c = Enforce) candidates.
Proof.
  revert outcome. induction candidates as [|c candidates IH]; intros outcome; cbn [foldl]; [intuition constructor|].
  rewrite IH, Forall_cons. unfold worse. destruct outcome, (ec_outcome c); cbn; intuition congruence.
Qed.

Lemma aggregate_enforce candidates :
  aggregate_outcome candidates = Enforce <-> candidates <> [] /\ Forall (fun c => ec_outcome c = Enforce) candidates.
Proof.
  unfold aggregate_outcome. destruct candidates as [|c candidates]; [by split; [|intros [? _]]|]. rewrite worse_enforce. intuition discriminate.
Qed.

Lemma candidate_enforce provider quality : candidate_outcome provider quality = Enforce <->
  error_rate_high provider = false /\ EVIDENCE_MIN_SAMPLES <= qu_decisive quality /\
  interval_is (fun i => f64_ge (ei_lower i) f64_zero) quality = true.
Proof.
  unfold candidate_outcome. destruct (error_rate_high provider); [intuition discriminate|].
  destruct (Z.ltb_spec (qu_decisive quality) EVIDENCE_MIN_SAMPLES); [split; [done|lia]|].
  destruct (interval_is _ quality); [done|]. destruct (interval_is _ quality); intuition discriminate.
Qed.

Section Sets.
Context {K : Type} `{KeyOrder K}.

Definition set_of (m : ordmap K unit) (l : list K) : ordmap K unit := foldl (fun m k => km_insert m k ()) m l.

Lemma set_of_spec l m : km_sorted m ->
  km_sorted (set_of m l) /\ forall k, km_contains (set_of m l) k = true <-> k ∈ l \/ km_contains m k = true.
Proof.
  unfold set_of. revert m. induction l as [|x l IH]; intros m Hm; cbn [foldl].
  { split; [done|]. intros k. split; [by right|]. by intros [?%not_elem_of_nil|?]. }
  destruct (IH (km_insert m x ()) (km_insert_sorted _ _ _ Hm)) as [Hs Hc]. split; [done|]. intros k. rewrite Hc, elem_of_cons.
  unfold km_contains. destruct (key_cmp x k) eqn:E.
  - apply key_cmp_eq in E as ->. rewrite km_get_insert_eq. tauto.
  - rewrite km_get_insert_ne by (intros ->; by rewrite key_cmp_refl in E). split; [tauto|]. intros [[-> |?]|?]; [by rewrite key_cmp_refl in E|tauto..].
  - rewrite km_get_insert_ne by (intros ->; by rewrite key_cmp_refl in E). split; [tauto|]. intros [[-> |?]|?]; [by rewrite key_cmp_refl in E|tauto..].
Qed.

Lemma km_contains_elem (m : ordmap K unit) k : km_sorted m -> km_contains m k = true <-> k ∈ map fst m.
Proof.
  intros Hs. unfold km_contains. split.
  - destruct (km_get m k) as [[]|] eqn:E; [|done]. intros _. apply km_get_elem in E. apply list_elem_of_fmap. by exists (k, ()).
  - intros ([k' []] & -> & Hin)%list_elem_of_fmap. cbn [fst]. by rewrite (km_elem_get _ _ _ Hs Hin).
Qed.

(** A set has at most one element exactly when all the elements are one. *)
Lemma sorted_set_single l : (1 <? len (sorted_set l)) = false <-> forall a b, a ∈ l -> b ∈ l -> a = b.
Proof.
  destruct (set_of_spec l [] km_sorted_nil) as [Hs Hc].
  assert (forall k, k ∈ sorted_set l <-> k ∈ l) as He.
  { intros k. unfold sorted_set. fold (set_of [] l). rewrite <- km_contains_elem, Hc by done. cbn. intuition discriminate. }
  unfold sorted_set in *. fold (set_of [] l) in *. split.
  - intros Hl%Z.ltb_ge a b. rewrite <- !He. destruct (map fst (set_of [] l)) as [|x [|y s]]; [by intros ?%not_elem_of_nil| |].
    + by intros ->%list_elem_of_singleton ->%list_elem_of_singleton.
    + unfold len in Hl. cbn [length] in Hl. lia.
  - intros Hone. apply Z.ltb_ge. destruct Hs as [|x [] m Hx Hs]; [unfold len; cbn; lia|]. destruct m as [|[y []] m]; [unfold len; cbn; lia|].
    assert (x = y) as -> by (apply Hone; apply He; cbn [map fst]; rewrite !elem_of_cons; tauto).
    inversion Hx as [|? ? Hxy _]; subst. cbn [fst] in Hxy. by rewrite key_cmp_refl in Hxy.
Qed.
End Sets.

(** ** The records of a route *)
Definition of_route (route : str) (records : list ShadowRecord) : list ShadowRecord :=
  List.filter (fun r => str_eqb route (sd_candidate_route r)) records.

Lemma update_lookup {V} (m : btree V) k d f k' :
  bt_get (bt_update m k d f) k' = if str_eqb k' k then Some (f (default d (bt_get m k))) else bt_get m k'.
Proof.
  unfold bt_update. destruct (str_eqb k' k) eqn:E.
  - apply str_eqb_eq in E as ->. rewrite bt_get_insert_eq. by destruct (bt_get m k).
  - apply str_eqb_neq in E. by rewrite bt_get_insert_ne.
Qed.

Lemma route_records_get records route :
  bt_get (route_records records) route = match of_route route records with [] => None | rs => Some rs end.
Proof.
  unfold route_records. induction records as [|r records IH] using rev_ind; [done|]. rewrite foldl_app. cbn [foldl].
  unfold of_route in *. rewrite List.filter_app, update_lookup. cbn [List.filter]. destruct (str_eqb route (sd_candidate_route r)) eqn:E.
  - apply str_eqb_eq in E as ->. rewrite IH. by destruct (List.filter _ records).
  - by rewrite IH, app_nil_r.
Qed.

Lemma route_records_sorted records : bt_sorted (route_records records).
Proof.
  unfold route_records. induction records as [|r records IH] using rev_ind; [constructor|]. rewrite foldl_app. cbn [foldl]. by apply bt_update_sorted.
Qed.

Lemma route_records_elem records route rs : (route, rs) ∈ route_records records <->
  rs = of_route route records /\ exists r, r ∈ records /\ sd_candidate_route r = route.
Proof.
  assert ((exists r, r ∈ records /\ sd_candidate_route r = route) <-> of_route route records <> []) as Hne.
  { unfold of_route. split.
    - intros (r & Hr & <-) Hn. assert (r ∈ List.filter (fun x => str_eqb (sd_candidate_route r) (sd_candidate_route x)) records) as Hin.
      { apply list_elem_of_In, filter_In. split; [by apply list_elem_of_In|apply str_eqb_refl]. }
      rewrite Hn in Hin. by apply not_elem_of_nil in Hin.
    - destruct (List.filter _ records) as [|r rs'] eqn:E; [done|]. intros _. exists r.
      assert (r ∈ List.filter (fun x => str_eqb route (sd_candidate_route x)) records) as Hin by (rewrite E; by left).
      apply list_elem_of_In, filter_In in Hin as [Hin Hr]. apply str_eqb_eq in Hr. by split; [apply list_elem_of_In|]. }
  rewrite Hne. pose proof (route_records_get records route) as Hg. split.
  - intros Hin. rewrite (bt_elem_get _ _ _ (route_records_sorted records) Hin) in Hg. destruct (of_route route records); [done|]. by injection Hg as ->.
  - intros [-> Hn]. apply bt_get_elem. rewrite Hg. by destruct (of_route route records).
Qed.

(** The candidates come in the order [sort_by] asks for. *)
Lemma report_candidates_sorted snapshot labels :
  bt_sorted (map (fun c => (ec_candidate_route c, c)) (report_candidates snapshot labels)).
Proof.
  unfold report_candidates. rewrite map_map. induction (route_records_sorted (sn_records snapshot)) as [|k v m Hlt Hs IH]; [constructor|].
  cbn [map]. constructor; [|done]. apply Forall_map. eapply Forall_impl; [exact Hlt|]. by intros [k' v'].
Qed.

Definition mixed_reason (reason : str) : bool := str_eqb reason MIXED_CONFIG || str_eqb reason MIXED_CANDIDATE.

(** The mixed reasons are given exactly when there are two fingerprints of a kind. *)
Lemma report_reasons_mixed snapshot candidates configs prints :
  existsb mixed_reason (report_reasons snapshot candidates configs prints) = (1 <? len configs) || (1 <? len prints).
Proof.
  unfold report_reasons. rewrite !existsb_app.
  destruct (sn_sampled snapshot =? 0), (sn_completed snapshot <? _), (1 <? len configs), (1 <? len prints), (existsb _ candidates),
    (bool_decide (candidates = [])); reflexivity.
Qed.

Lemma report_outcome snapshot labels :
  er_outcome (from_snapshot snapshot labels) =
  if (1 <? len (sorted_set (map sd_config_fingerprint (sn_records snapshot))))
     || (1 <? len (sorted_set (map sd_candidate_fingerprint (sn_records snapshot))))
  then KeepShadowing else aggregate_outcome (report_candidates snapshot labels).
Proof.
  unfold from_snapshot. cbn [er_outcome]. set (configs := sorted_set (map sd_config_fingerprint _)).
  set (prints := sorted_set (map sd_candidate_fingerprint _)). rewrite <- (report_reasons_mixed snapshot (report_candidates snapshot labels)).
  unfold mixed_reason. by destruct (report_reasons snapshot _ configs prints).
Qed.

(** The decisive labels of a list of records, the interval they give. *)
Definition decisive_count (v : EvidenceLabelValue) (records : list ShadowRecord) (labels : list EvidenceLabel) : Z :=
  count_if (fun l => names_record records l && label_is v l) labels.

Lemma count_if_filter {A} (p q : A -> bool) l : count_if q (List.filter p l) = count_if (fun x => p x && q x) l.
Proof.
  unfold count_if, len. f_equal. induction l as [|x l IH]; [done|]. cbn [List.filter]. destruct (p x); cbn [andb List.filter]; [|done].
  destruct (q x); cbn [length]; by rewrite IH.
Qed.

(** The requests whose record has the verdict, a label each. *)
Definition decided (v : EvidenceLabelValue) (records : list ShadowRecord) (labels : list EvidenceLabel) : list str :=
  map el_request_id (List.filter (fun l => names_record records l && label_is v l) labels).

Lemma len_decided v records labels : len (decided v records labels) = decisive_count v records labels.
Proof. unfold decided, decisive_count, count_if, len. by rewrite length_map. Qed.

(** The record a label names. *)
Definition named (l : EvidenceLabel) : str * str := (el_request_id l, el_candidate_route l).

(** Labels that name records of one route, no record twice, name distinct requests. *)
Lemma decided_distinct route records labels : (forall r, r ∈ records -> sd_candidate_route r = route) -> NoDup (map named labels) ->
  NoDup (decided Win records labels ++ decided Loss records labels).
Proof.
  intros Hroute Hnd.
  assert (forall v id, id ∈ decided v records labels -> exists l, l ∈ labels /\ named l = (id, route) /\ el_label l = v) as Hin.
  { intros v id (l & -> & Hl)%list_elem_of_fmap. apply list_elem_of_In, filter_In in Hl as [Hl [Hn Hv]%andb_true_iff].
    exists l. split; [by apply list_elem_of_In|]. split; [|by apply bool_decide_eq_true in Hv].
    unfold names_record in Hn. apply existsb_exists in Hn as (r & Hr & [_ Hc]%andb_true_iff).
    apply str_eqb_eq in Hc. apply list_elem_of_In in Hr. unfold named. by rewrite <- Hc, (Hroute r Hr). }
  assert (forall l1 l2, l1 ∈ labels -> l2 ∈ labels -> named l1 = named l2 -> l1 = l2) as Hinj.
  { intros l1 l2 [i Hi]%list_elem_of_lookup [j Hj]%list_elem_of_lookup He.
    assert (i = j) as ->; [|congruence]. apply (NoDup_lookup (map named labels) i j (named l1)); [done|by rewrite list_lookup_fmap, Hi|].
    by rewrite list_lookup_fmap, Hj, He. }
  assert (forall v, NoDup (decided v records labels)) as Hone.
  { intros v. revert Hnd Hroute. clear. intros Hnd Hroute. unfold decided. induction labels as [|l labels IH]; cbn [List.filter map]; [constructor|].
    apply NoDup_cons in Hnd as [Hl Hnd]. destruct (names_record records l && label_is v l) eqn:E; [|by apply IH].
    cbn [map]. apply NoDup_cons. split; [|by apply IH]. intros (l' & He & Hl')%list_elem_of_fmap.
    apply list_elem_of_In, filter_In in Hl' as [Hl' [Hn' _]%andb_true_iff]. apply andb_true_iff in E as [Hn _]. apply Hl, list_elem_of_fmap.
    exists l'. split; [|by apply list_elem_of_In]. unfold named. rewrite He. f_equal.
    apply existsb_exists in Hn as (r & Hr & [_ Hc]%andb_true_iff), Hn' as (r' & Hr' & [_ Hc']%andb_true_iff).
    apply str_eqb_eq in Hc, Hc'. apply list_elem_of_In in Hr, Hr'. by rewrite <- Hc, <- Hc', (Hroute _ Hr), (Hroute _ Hr'). }
  apply NoDup_app. split; [apply Hone|]. split; [|apply Hone]. intros id Hw Hl.
  destruct (Hin Win id Hw) as (l1 & H1 & Hn1 & Hv1), (Hin Loss id Hl) as (l2 & H2 & Hn2 & Hv2).
  rewrite (Hinj l1 l2 H1 H2) in Hv1 by congruence. congruence.
Qed.

Lemma candidate_report_enforce route records labels :
  let wins := decisive_count Win records labels in
  let losses := decisive_count Loss records labels in
  let decisive := u64_sat_add wins losses in
  ec_outcome (candidate_report route records labels) = Enforce <->
  error_rate_high (provider_report (List.filter sd_provider_compared records)) = false /\ EVIDENCE_MIN_SAMPLES <= decisive /\
  f64_ge (round6 (f64_sub (ei_lower (wilson wins decisive)) (ei_upper (wilson losses decisive)))) f64_zero = true.
Proof.
  cbv zeta. unfold candidate_report. cbn [ec_outcome]. rewrite candidate_enforce. unfold quality_report, interval_is.
  cbn [qu_decisive qu_delta_interval]. rewrite !count_if_filter. fold (decisive_count Win records labels) (decisive_count Loss records labels).
  set (d := u64_sat_add _ _). destruct (Z.ltb_spec 0 d); [done|]. unfold EVIDENCE_MIN_SAMPLES. intuition lia.
Qed.

Lemma records_agree {A} (f : ShadowRecord -> A) (records : list ShadowRecord) :
  (forall x y, x ∈ map f records -> y ∈ map f records -> x = y) <-> forall a b, a ∈ records -> b ∈ records -> f a = f b.
Proof.
  split.
  - intros Hf a b Ha Hb. apply Hf; by apply list_elem_of_fmap_2.
  - intros Hf x y (a & -> & Ha)%list_elem_of_fmap (b & -> & Hb)%list_elem_of_fmap. by apply Hf.
Qed.

Lemma report_enforces snapshot labels : er_outcome (from_snapshot snapshot labels) = Enforce <->
  (forall a b, a ∈ sn_records snapshot -> b ∈ sn_records snapshot -> sd_config_fingerprint a = sd_config_fingerprint b) /\
  (forall a b, a ∈ sn_records snapshot -> b ∈ sn_records snapshot -> sd_candidate_fingerprint a = sd_candidate_fingerprint b) /\
  report_candidates snapshot labels <> [] /\ Forall (fun c => ec_outcome c = Enforce) (report_candidates snapshot labels).
Proof.
  rewrite report_outcome, <- !records_agree, <- !sorted_set_single, <- aggregate_enforce.
  destruct (1 <? len (sorted_set (map sd_config_fingerprint _))); [intuition discriminate|].
  destruct (1 <? len (sorted_set (map sd_candidate_fingerprint _))); cbn [orb]; intuition discriminate.
Qed.

(** ** Properties *)

(** What a route's records must show. *)
Definition route_passes (records : list ShadowRecord) (labels : list EvidenceLabel) : Prop :=
  let wins := len (decided Win records labels) in
  let losses := len (decided Loss records labels) in
  let decisive := u64_sat_add wins losses in
  error_rate_high (provider_report (List.filter sd_provider_compared records)) = false /\ 30 <= decisive /\
  f64_ge (round6 (f64_sub (ei_lower (wilson wins decisive)) (ei_upper (wilson losses decisive)))) f64_zero = true.

Lemma report_enforces_iff snapshot labels :
  er_outcome (from_snapshot snapshot labels) = Enforce <->
  sn_records snapshot <> [] /\
  (forall a b, a ∈ sn_records snapshot -> b ∈ sn_records snapshot ->
     sd_config_fingerprint a = sd_config_fingerprint b /\ sd_candidate_fingerprint a = sd_candidate_fingerprint b) /\
  forall r, r ∈ sn_records snapshot -> route_passes (of_route (sd_candidate_route r) (sn_records snapshot)) labels.
Proof.
  rewrite report_enforces. unfold report_candidates.
  assert (map (fun '(route, records) => candidate_report route records labels) (route_records (sn_records snapshot)) <> [] <->
          sn_records snapshot <> []) as ->.
  { assert (route_records (sn_records snapshot) = [] <-> sn_records snapshot = []) as He.
    { split; intros E; [|by rewrite E]. destruct (sn_records snapshot) as [|r records] eqn:Er; [done|].
      assert ((sd_candidate_route r, of_route (sd_candidate_route r) (r :: records)) ∈ route_records (r :: records)) as Hin
        by (apply route_records_elem; split; [done|]; exists r; split; [by left|done]).
      rewrite E in Hin. by apply not_elem_of_nil in Hin. }
    rewrite <- He. by destruct (route_records (sn_records snapshot)). }
  assert (Forall (fun c => ec_outcome c = Enforce)
            (map (fun '(route, records) => candidate_report route records labels) (route_records (sn_records snapshot))) <->
          forall r, r ∈ sn_records snapshot ->
            ec_outcome (candidate_report (sd_candidate_route r) (of_route (sd_candidate_route r) (sn_records snapshot)) labels) = Enforce) as ->.
  { rewrite Forall_map, Forall_forall. split.
    - intros Hf r Hr. apply (Hf (sd_candidate_route r, of_route (sd_candidate_route r) (sn_records snapshot))).
      apply route_records_elem. split; [done|]. by exists r.
    - intros Hf [route rs] (-> & r & Hr & <-)%route_records_elem. by apply Hf. }
  setoid_rewrite candidate_report_enforce. unfold route_passes. setoid_rewrite len_decided. unfold EVIDENCE_MIN_SAMPLES. naive_solver.
Qed.

(** C25: On a sufficient sample (thirty completed shadow evaluations or more) whose
    records are labelled at most once each, a report says [enforce] exactly when
    there are records, all made under one configuration and one set of
    candidates, and each of their routes has at most a fifth of its provider
    comparisons in error, at least thirty of its requests judged a win or a loss
    (distinct requests, since no record is labelled twice), and an interval of
    the difference between wins and losses whose lower end is not negative. *)
Theorem enforce_iff snapshot labels :
  30 <= sn_completed snapshot -> NoDup (map named labels) ->
  (forall route, let records := of_route route (sn_records snapshot) in
     NoDup (decided Win records labels ++ decided Loss records labels)) /\
  (er_outcome (from_snapshot snapshot labels) = Enforce <->
   sn_records snapshot <> [] /\
   (forall a b, a ∈ sn_records snapshot -> b ∈ sn_records snapshot ->
      sd_config_fingerprint a = sd_config_fingerprint b /\ sd_candidate_fingerprint a = sd_candidate_fingerprint b) /\
   forall r, r ∈ sn_records snapshot -> route_passes (of_route (sd_candidate_route r) (sn_records snapshot)) labels).
Proof.
  intros _ Hnd. split; [|apply report_enforces_iff]. intros route. apply (decided_distinct route); [|done].
  intros r Hr. unfold of_route in Hr. apply list_elem_of_In, filter_In in Hr as [_ Hr]. by apply str_eqb_eq in Hr.
Qed.

(** C26: The label store keeps, for each record, route and evaluator, the last
    label it accepted, and never more than its bound: a batch is taken whole or
    leaves the store as it was. *)
Theorem labels_retained max batches labels s' r :
  let s := foldl (fun s batch => fst (insert_labels s batch)) (EvidenceStore_new max) batches in
  insert_labels s labels = (s', r) ->
  len (es_labels s') <= es_max_labels s' <= MAX_EVIDENCE_LABELS /\
  match r with
  | Ok n => Forall valid_label labels /\ len (es_labels s') = len (es_labels s) + n /\
      forall l, valid_label l -> held s' (identity l) = match latest labels (identity l) with Some x => Some x | None => held s (identity l) end
  | Err _ => s' = s
  end.
Proof.
  intros s Hi. assert (label_store_ok s) as Hs.
  { assert (label_store_ok (EvidenceStore_new max)) as H0
      by (constructor; cbn; [unfold MAX_EVIDENCE_LABELS; lia|constructor|constructor|unfold len, MAX_EVIDENCE_LABELS; cbn [length]; lia]).
    subst s. clear Hi. revert H0. generalize (EvidenceStore_new max). induction batches as [|b batches IH]; intros s0 H0; [done|].
    cbn [foldl]. apply IH. destruct (insert_labels s0 b) as [s1 r1] eqn:E. by apply insert_labels_ok in E as [? _]. }
  destruct (insert_labels_ok _ _ _ _ Hs Hi) as [[? _ _ ?] Hr]. split; [lia|done].
Qed.

(** ** Examples *)
Definition sample_record (request route config : string) : ShadowRecord :=
  {| sd_request_id := lit request; sd_candidate_route := lit route; sd_production_model := lit "local"; sd_shadow_model := Some (lit "cloud");
     sd_production_score := f64_zero; sd_shadow_score := Some f64_zero; sd_divergent := true; sd_status := lit "completed";
     sd_reason_codes := []; sd_provider_compared := false; sd_provider_status := None; sd_provider_latency_ms := None;
     sd_provider_cost := None; sd_provider_cost_class := None; sd_scorer_version := 1; sd_config_fingerprint := lit config;
     sd_candidate_fingerprint := lit "c" |}.

Definition sample_snapshot (records : list ShadowRecord) : ShadowSnapshot :=
  {| sn_records := records; sn_sampled := len records; sn_dropped_in_flight := 0; sn_dropped_provider_budget := 0;
     sn_completed := len records; sn_divergent := 0; sn_errors := 0; sn_provider_comparisons := 0; sn_provider_errors := 0 |}.

Definition win_of (version : Z) : EvidenceLabel :=
  {| el_request_id := lit "r"; el_candidate_route := lit "beta"; el_label := Win; el_evaluator := Automated (show_digits version) |}.

Definition thirty_wins : list EvidenceLabel := map (fun n => win_of (Z.of_nat n)) (seq 0 30).

(** Thirty requests, each with its record and one label that says win. *)
Definition thirty_records : list ShadowRecord :=
  map (fun n => {| sd_request_id := show_digits (Z.of_nat n); sd_candidate_route := lit "beta"; sd_production_model := lit "local";
                   sd_shadow_model := Some (lit "cloud"); sd_production_score := f64_zero; sd_shadow_score := Some f64_zero;
                   sd_divergent := true; sd_status := lit "completed"; sd_reason_codes := []; sd_provider_compared := false;
                   sd_provider_status := None; sd_provider_latency_ms := None; sd_provider_cost := None; sd_provider_cost_class := None;
                   sd_scorer_version := 1; sd_config_fingerprint := lit "a"; sd_candidate_fingerprint := lit "c" |}) (seq 0 30).

Definition wins_for (n : nat) : list EvidenceLabel :=
  map (fun n => {| el_request_id := show_digits (Z.of_nat n); el_candidate_route := lit "beta"; el_label := Win; el_evaluator := Human |}) (seq 0 n).

Lemma enforce_iff_witness :
  er_outcome (from_snapshot (sample_snapshot thirty_records) (wins_for 30)) = Enforce /\
  Forall (fun r => route_passes (of_route (sd_candidate_route r) thirty_records) (wins_for 30)) thirty_records /\
  NoDup (decided Win (of_route (lit "beta") thirty_records) (wins_for 30) ++ decided Loss (of_route (lit "beta") thirty_records) (wins_for 30)).
Proof.
  assert (Hc : 30 <= sn_completed (sample_snapshot thirty_records)) by (vm_compute; discriminate).
  assert (Hn : NoDup (map named (wins_for 30))) by (apply (bool_decide_unpack _); vm_compute; exact I).
  destruct (enforce_iff (sample_snapshot thirty_records) (wins_for 30) Hc Hn) as [Hd [Hgo _]].
  assert (He : er_outcome (from_snapshot (sample_snapshot thirty_records) (wins_for 30)) = Enforce) by (vm_compute; reflexivity).
  split; [exact He|]. split; [|exact (Hd (lit "beta"))]. apply Forall_forall. apply (proj2 (proj2 (Hgo He))).
Defined.

(** One win fewer, and the report keeps shadowing. *)
Example twenty_nine_keep_shadowing :
  er_outcome (from_snapshot (sample_snapshot thirty_records) (wins_for 29)) = KeepShadowing.
Proof. vm_compute. reflexivity. Qed.

(** One record judged by thirty versions of an evaluator: the report gives the
    sample as insufficient and says [enforce] all the same. *)
Example one_record_enforces :
  let report := from_snapshot (sample_snapshot [sample_record "r" "beta" "a"]) thirty_wins in
  er_outcome report = Enforce /\ er_reasons report = [lit "insufficient-shadow-samples:1/30"].
Proof. vm_compute. done. Qed.

Example mixed_provenance_keeps_shadowing :
  let report := from_snapshot (sample_snapshot [sample_record "r" "beta" "a"; sample_record "q" "beta" "b"]) thirty_wins in
  er_outcome report = KeepShadowing /\ er_config_fingerprints report = [lit "a"; lit "b"].
Proof. vm_compute. done. Qed.

(** The interval of ten wins in ten. *)
Example wilson_ten : ei_lower (wilson 10 10) = f64_dec 722467 6 /\ ei_upper (wilson 10 10) = f64_one.
Proof. vm_compute. done. Qed.

Theorem labels_retained_witness :
  let s := foldl (fun s batch => fst (insert_labels s batch)) (EvidenceStore_new 40) [thirty_wins] in
  len (es_labels (insert_labels s [win_of 3]).1) = 30 + 0.
Proof.
  cbv zeta. destruct (insert_labels _ [win_of 3]) as [s' r] eqn:E. pose proof (labels_retained 40 [thirty_wins] [win_of 3] s' r E) as [_ Hr].
  assert (r = Ok 0) as -> by (apply (f_equal snd) in E; vm_compute in E; by symmetry in E).
  destruct Hr as (_ & Hl & _). cbn [fst]. rewrite Hl. f_equal.
Defined.
